(* ===== verification/_CoqProject ===== *)
-Q . S2P
Prelude.v
Kahn.v
ExecutionGraph.v
Lifecycle.v
TaskPlanner.v
Supervisor.v
MissionGraph.v
RetryPolicy.v
GraphExecutor.v
MissionRuns.v
Aegis.v
MissionDriver.v
MissionWalks.v
Arbitrage.v
RuntimeEvents.v
RuntimeRegistry.v
RuntimeRecovery.v
RuntimeHealth.v
RuntimePolicy.v
RuntimeRouter.v
RuntimeDecision.v
AgentEngine.v
EngineRuns.v
Approvals.v
StreamWatch.v
SecurityEngine.v
Workflows.v
WorkflowPlans.v
WorkflowRuns.v
Resources.v
ResourceRuns.v
MissionDocuments.v
MissionRegistry.v
RegistryRuns.v
RunLedger.v
LedgerRuns.v
FailureTaxonomy.v
RunUsage.v
RunContracts.v
TaskScheduler.v
ExecutionStates.v
AgentCoordination.v
MissionExecution.v
ExecutionRuns.v
ExecutionLedger.v
NodeExecution.v
NodeRuns.v
PlannerModels.v
TaskDecomposer.v
PlanAnalysis.v
PlanFacts.v
MissionPlanner.v
PlannerRuns.v
AutonomousGoals.v
Orchestrator.v
OrchestratorRuns.v
PlannedGoals.v
