(* ===== verification/Prelude.v ===== *)
(** * Hermes OS: a verification development

    Hermes OS runs missions: graphs of tasks given to agents and executed on
    local or cloud runtimes, under a gate that decides what an action may do.
    This library models the Python code that plans, orders, gates, executes,
    retries and supervises that work, and proves what it guarantees.  Every
    definition carries the name of the Python function it translates; paths
    below are under [src/backend/].

    ** Parts, files and sources

    - [Prelude]: exceptions, the error and state monads ([res], [M], [wp]),
      ordered dicts ([pydict]), values, rendered texts, and the lemmas shared.
    - [Kahn]: the one loop behind all the topological orders of the program,
      generic in what it does at a node ([agent/execution_graph.py] and
      [mission/mission_graph.py] both instantiate it).
    - Agent stack ([agent/]): [ExecutionGraph] (execution_graph.py), the graph
      of tasks and its plan; [Lifecycle] (lifecycle.py), the state machine of
      agents; [TaskPlanner] (task_planner.py), lists of tasks to graphs;
      [Supervisor] (supervisor.py), missions of agents and their tick;
      [AgentEngine] (execution_engine.py) above them all, with its theorems in
      [EngineRuns].
    - Mission stack ([mission/]): [MissionGraph] (mission_models.py,
      mission_graph.py and dependency_resolver.py), [RetryPolicy]
      (retry_policy.py), [GraphExecutor] (graph_executor.py), [MissionRuns],
      what repeated steps do, [MissionDriver] (the walk and the handlers of
      routes.py) and [MissionWalks], what requests and walks interleaved do;
      [MissionDocuments] (persistance.py and graph_serializer.py), missions to
      documents and back, [MissionRegistry] (the registry of routes.py over the
      table of persistance.py) and [RegistryRuns], what it promises.
    - Runtimes ([ral/]): [Arbitrage], [RuntimeEvents],
      [RuntimeRegistry], [RuntimeRecovery], [RuntimeHealth], [RuntimePolicy],
      [RuntimeRouter], [RuntimeDecision].  The production path chooses a runtime
      by [Arbitrage]; the router and the decision engine are the library that
      the agent stack uses.
    - Security ([security/]): [Aegis] (aegis_engine.py, permission_matrix.py,
      autonomy.py),
      [Approvals] (approvals.py, empreinte.py), [StreamWatch] (surveillance_flux.py), [SecurityEngine] (permissions, policies, trust,
      threats and the access check).
    - Workflows ([workflows/]): [Workflows] (schema.py, engine.py, run_store.py),
      [WorkflowPlans], its validation, documents and dry run, [WorkflowRuns], runs
      with gates and their resumption.
    - Resources ([runtime/resources/]): [Resources] (the models, the policies, the
      memory readings and the manager of reservations) and [ResourceRuns].
    - Runs ([runs/]): [RunLedger] (registre.py, reconciliation.py), the durable
      table of runs, and [LedgerRuns], what it promises; [FailureTaxonomy]
      (taxonomie.py), [RunContracts] (contrat.py) and [RunUsage]
      (consommation.py).
    - Execution ([execution/]): [TaskScheduler] (task_scheduler.py),
      [ExecutionStates] (execution_state.py), [AgentCoordination]
      (agent_coordinator.py, validation_engine.py, feedback_loop.py,
      optimization_engine.py), [MissionExecution] (mission_executor.py,
      execution_controller.py) over them all, with its theorems in
      [ExecutionRuns] and [ExecutionLedger]; [NodeExecution]
      ([mission/node_execution.py]), the hook that runs a node of a mission on
      it, with its theorems in [NodeRuns].
    - Planner ([mission/planner/]): [PlannerModels] (planner_models.py),
      [TaskDecomposer] (task_decomposer.py), [PlanAnalysis]
      (dependency_builder.py, complexity_estimator.py, runtime_recommender.py,
      validation_engine.py), with its theorems in [PlanFacts]; [MissionPlanner]
      (mission_planner.py, template_library.py, the building route of routes.py),
      with its theorems in [PlannerRuns].
    - Goals ([autonomous/]): [AutonomousGoals] (autonomous_models.py,
      autonomous_interpreter.py, autonomous_guard.py, autonomous_memory_loop.py),
      what is asked, let through and reported, and [Orchestrator]
      (autonomous_orchestrator.py), with its theorems in [OrchestratorRuns]; and in
      [PlannedGoals] those of both together.

    The components meet as the code makes them meet.  [Supervisor] holds the
    graphs, the planner and the lifecycle manager by value and reaches them with
    [zoom]; [AgentEngine] holds a supervisor the same way, so the manager that
    both use is one object.  The engine asks a runtime of anything that answers
    the class [Chooser], and [decision_chooser] shows that the decision engine of
    [RuntimeDecision] does; [SetOrder] is what the code relies on of the order
    in which Python visits a set: some order, without repetition.  The policies
    of [Resources] are instances of a class with its laws ([PolicyLaws]), and the
    theorems on reservations hold of any of them.  The registry asks of documents
    that what is written is read back ([Document], which [json_document]
    implements), and shares objects with its callers through a heap.  [MissionDriver]
    calls the executor of [GraphExecutor], with [RetryPolicy], and asks the gate
    of [Aegis].  [MissionExecution] holds a scheduler, a coordinator, a validator
    and the base of [RunLedger], which it reaches with [zoom]; its tasks and
    machines are in heaps, since the scheduler, the caller and the executor hold
    the same objects.  The cause of a failure is that of [FailureTaxonomy], and
    what a run cost is summed by [RunUsage], whose readings are of the manager of
    [Resources].  [NodeExecution] gives the controller of [MissionExecution] to
    [GraphExecutor] as the hook it calls on a node, and [NodeRuns] runs missions
    with it.  [Orchestrator] asks the guard of [AutonomousGoals], which asks
    [Aegis], and walks its missions with the executor of [GraphExecutor] and
    the retry of [RetryPolicy], one executor for each mission; its plans and the
    building of its missions are arguments, which [PlannedGoals] instantiates
    with [MissionPlanner], whose missions that same executor validates.

    ** What is proved

    - Graphs: an [ExecutionGraph] is acyclic and closed after any operations, a
      refused operation changes nothing ([graph_always_dag], [add_edge_outcome]);
      its plan has each node on the level just after its deepest predecessor
      ([generate_plan_correct]); the orders are complete and respect the edges
      ([topological_sort_correct], [mission_validate_exact],
      [parallel_groups_exact]); [from_dict_to_dict] is the round trip.
    - State machines, each a refinement of a table: [lifecycle_refines] for the
      agents, [missions_refine] for the supervisor's missions, [engine_refines]
      for the engine and its nodes, [approvals_refine] for the consents.
    - Order of work: [dependencies_respected], [engine_dependencies] and
      [runs_order] say that nothing runs before what it depends on is completed.
    - Outcome of a step on every branch: [execute_step_outcome], [tick_outcome],
      [execution_outcome], [create_plan_outcome], [decide_retry_exact],
      [select_runtime_outcome].
    - Ends: [runs_settle] and [walkers_end] (termination), [runs_complete] and
      [start_completes] (what succeeds is completed), [calls_bounded] (no node is
      called more often than there are attempts); [runs_stuck], [run_never_ends]
      and [completed_reopened] are the runs that do not end, or end twice.
    - Gates: [aegis_allows_exact] (what the code lets through, under the level
      "full" as under "low", and not as under "high"), [check_access_exact],
      [start_gated], [consume_sound], [consents_bounded], [leak_told_exactly].
    - Workflows: [workflow_validate_exact] (the three-colour search is the absence
      of a cycle), [workflow_roundtrip], [simulate_exact]; [run_outcome] says what
      a run leaves among those of any workflows, [called_once] that no tool is
      called twice for a node of a run, [resume_equivalent] that stopping at a gate
      and resuming is one run; [demo_other_workflow] and [demo_lone_raises] are a
      run resumed with another workflow and an answer that is not JSON.
    - The registry of missions: [registry_refines] (a map that survives eviction
      and restarts), [cache_bounded], [values_after_restart],
      [active_object_kept] (a walker's object stays the cached one) and
      [refused_write_shown] (what a refused write leaves in memory);
      [document_roundtrip], [unknown_tolerated] and [export_import] for documents.
    - Runs: [ledger_history] (a closed run is closed for good), [lignee_exact],
      [reprendre_exact], [reconcilier_exact] (exactly the runs of dead processes
      are lost); [classer_exact], [chercher_exact] and [remede_exact] for the
      causes; [valider_exact], [contrat_tenu_exact] and [contrat_roundtrip] for
      contracts; [observation_exact] and [agreger_exact] for measures.
    - Executions: [plan_exact], [registry_exact] and [eviction_exact] for the
      scheduler, [machine_exact] and [budget_exact] for the machine of an
      execution; [completed_sound] (an execution completes only when its tasks
      are done), [attempts_bounded] (through any calls begun and ended in any
      order), [finalize_closes_run] (the report, the row it leaves in the ledger,
      and that it leaves it once); [late_answer_lost], [review_impossible],
      [budget_refusal_ends_nothing] and [optimizer_silent] are what goes wrong.
    - Missions on the engine: [mission_never_invented] (no node is COMPLETED
      without a result that was served for it), [mission_served] (from the steps
      of the graph to the attempts of the tasks, what is served completes),
      [node_ends] (the loop of a node ends within four calls) and
      [lost_task_spins], the task dropped of the scheduler for which it does not.
    - Goals: [goal_gated] and [guard_exact] (what the gate lets through),
      [goal_completes] and [start_goal_ends], [goals_retained] (what is held after
      any calls, in any order), [cancel_stops], and the cancellations that are
      lost, [cancel_lost] and [cancel_before_plan_forgotten]; [domain_exact].
    - Plans: [plan_sound] (any answer of a model gives a plan without fault),
      [plan_builds] (and a mission that can start), [validate_exact] (the search of
      cycles and the other checks), [estimate_bounds], [livrables_exact],
      [template_refused] (no template can be built); and, from the request to the
      end, [planned_goal_completes].
    - Reservations: [reservations_bounded] (a reservation of the card leaves what
      the card uses when it is polled and all that is reserved under the share of
      the policy in force, whatever the polls answer and the policies set),
      [reserved_under_share] (the bound that follows at all times), [released_once],
      and, for a card that answers the same at every poll, [places_reservable] (the
      places announced are those there are) and [cpu_overbooks], the requests that
      escape the bound.

    ** Modelling choices and bounds

    An operation is a function of its state that answers a value or raises an
    exception and leaves the state as it was when it raised.  A Python dict is an
    association list in insertion order, a set is a [gset] read in some order, a
    [float] is a rational, and an [int] is a [Z], unbounded as in Python.  Where
    an attribute is annotated with an enumeration but may hold a string, both are
    represented.  Messages are kept as the template of the f-string and the
    values in it.

    Clocks, identifiers, digests, canonical paths, the texts of foreign exceptions,
    the answers of nodes, of runtimes and of the disk, and the routes that a
    selector returns are functions given as arguments, read in the order of the
    code.  Event handlers are recorded calls: the code drops what they raise, and
    they are assumed not to call back.  Locks are not modelled: an operation is
    one step; the coroutines of the mission driver give way only between the
    steps of a walk, as the code does on one event loop; a call of the mission
    executor, which leaves its lock while the task is done, is two steps, but the
    calls that one node makes ([NodeExecution]) come one after the other; a call
    of [start_goal], which holds no lock, is a sequence of moves ([phase],
    [avancer]) with the moves of the other calls in between.  A move is a
    reception, a plan, the start of the mission, one pass of its walk, its retry
    or the report; inside one of them nothing else happens.

    Fuel.  Kahn's loop takes as many turns as there are nodes, which
    [kahn_loop_spec] shows to be enough; the parallel groups one more, which
    [parallel_groups_exact] shows; a walk makes at most 100 passes in an attempt,
    the bound of the code, and begins at most one attempt more, so that
    the fuel of [walk] is 2; [walkers_end] counts its turns.  In a workflow the
    depth of the search, the order, the waves and the loop of a run are bounded by
    the number of nodes ([workflow_validate_exact], [simulate_exact] and
    [run_outcome] answer on every input); the places of a card are sixteen at most,
    the bound of the code.  A lineage has as many turns as there are rows
    ([lignee_exact]), a plan one more than there are tasks ([plan_exact]), an
    eviction one for each task to drop and for each of the sixteen it may pass
    over ([eviction_exact]).  A call of [start_goal] has at most [MAX_MOVES] moves
    after its reception ([start_goal_ends]): a plan, a start, two walks of at most
    100 passes and their ends, a retry and a report.  The search of cycles in a
    plan is as deep as there are nodes not yet visited, and its groups take one
    turn for each task that remains ([search_node], [parallel_loop_spec]).  The
    loop of a node takes as many turns as there are retries, three by default
    ([node_ends]).

    Assumptions stated where they are used: histories of the supervisor do not
    clean up its agents behind its back ([allowed_op]); what a runtime executes
    does not change the registry; the roots that the gate allows do not change
    during a request; a value read back from the database is the one written,
    and rows of the same date come in the order of their insertion; the
    identifiers that the planner draws are distinct ([fresh_ids]) and its reader
    of JSON raises nothing but [ValueError] ([reads_json]).

    ** Not modelled

    What only does input and output: HTTP handlers that only read, clients of
    inference services, the subprocesses of the adapters, the database layer,
    the start-up, the user interface and the installer.  What judges text or
    files: the verification of a mission on disk, the calls of language models and
    the reader of their JSON, the text filters on regular expressions; the models see these
    as oracles.  Rendering for display ([explain_plan], [get_graph_data],
    [to_dict] of rows, statistics).  The work of a task itself (task_executor.py):
    prompts, providers, tools and timeouts.  The path of a goal without a planner,
    which the start-up never takes, with its decision engine, whose alternatives
    are tables of names that no registry holds; and the statistics of models. *)
From stdpp Require Import base gmap strings list sets relations sorting pretty.
From Stdlib Require Import ZArith QArith Qround Ascii Lia.

Create HintDb hermes.
Declare Scope hermes_scope.
Delimit Scope hermes_scope with hermes.
#[global] Open Scope Z_scope.

(** ** Exceptions

    A Python exception is its class and the arguments of its message.  A
    message is the template of the f-string and the values put in it; the
    text of the rendered string is never inspected by the code. *)

Inductive exn_class :=
  | KeyError
  | ValueError
  | ExecutionGraphError
  | CycleError
  | ValidationError
  | PlanningError
  | AgentLifecycleError
  | SupervisorError
  | RuntimeRecoveryError
  | RuntimeSelectionError
  | RuntimeExecutionError
  | RuntimePolicyError
  | RuntimeHealthError
  | RuntimeDecisionError
  | ExecutionEngineError
  | AttributeError
  | TypeError
  | OSError
  | RuntimeError
  | InvalidWorkflowError
  | WorkflowExecutionError
  | ForeignError
  | OutOfFuel.

#[export] Instance exn_class_eq_dec : EqDecision exn_class.
Proof. solve_decision. Defined.

Record message := Msg { msg_template : string; msg_args : list string }.

#[export] Instance message_eq_dec : EqDecision message.
Proof. solve_decision. Defined.

Record exn := Exn { exn_cls : exn_class; exn_msgs : list message }.

#[export] Instance exn_eq_dec : EqDecision exn.
Proof. solve_decision. Defined.

(** ** Results, and operations on an object's state that may raise

    A method that raises keeps the mutations made before the [raise], so an
    operation returns the state beside the result, whatever the result is. *)

Inductive res (A : Type) :=
  | Ok (a : A)
  | Err (e : exn).
Arguments Ok {A} a.
Arguments Err {A} e.

Definition is_ok {A} (r : res A) : bool :=
  match r with Ok _ => true | Err _ => false end.

Definition res_bind {A B} (r : res A) (f : A -> res B) : res B :=
  match r with Ok a => f a | Err e => Err e end.

Definition M (S A : Type) : Type := S -> res A * S.

Definition ret {S A} (a : A) : M S A := fun s => (Ok a, s).
Definition raise {S A} (e : exn) : M S A := fun s => (Err e, s).
Definition bind {S A B} (m : M S A) (f : A -> M S B) : M S B :=
  fun s => match m s with
           | (Ok a, s') => f a s'
           | (Err e, s') => (Err e, s')
           end.
Definition get {S} : M S S := fun s => (Ok s, s).
Definition put {S} (s : S) : M S unit := fun _ => (Ok tt, s).
Definition lift {S A} (r : res A) : M S A := fun s => (r, s).
(** [try: m  except (classes): h] *)
Definition catch {S A} (m : M S A) (handles : exn_class -> bool)
    (h : exn -> M S A) : M S A :=
  fun s => match m s with
           | (Err e, s') => if handles (exn_cls e) then h e s' else (Err e, s')
           | r => r
           end.
(** An operation of a sub-object, run on the part of the state that holds it. *)
Definition zoom {S T A} (proj : S -> T) (upd : T -> S -> S) (m : M T A) : M S A :=
  fun s => let '(r, t) := m (proj s) in (r, upd t s).

Notation "x <- m ;; k" := (bind m (fun x => k))
  (at level 100, m at next level, right associativity) : hermes_scope.
Notation "m ;;; k" := (bind m (fun _ => k))
  (at level 100, right associativity) : hermes_scope.
Notation "x <-? r ;; k" := (res_bind r (fun x => k))
  (at level 100, r at next level, right associativity) : hermes_scope.
#[global] Open Scope hermes_scope.

(** [m], its value dropped. *)
Definition discard {S A} (m : M S A) : M S unit := m ;;; ret tt.

(** [for x in l: body(x)], stopping at the first exception. *)
Fixpoint for_each {S A} (l : list A) (body : A -> M S unit) : M S unit :=
  match l with
  | [] => ret tt
  | x :: l' => body x ;;; for_each l' body
  end.

Fixpoint res_fold {A B} (f : B -> A -> res B) (l : list A) (b : B) : res B :=
  match l with
  | [] => Ok b
  | x :: l' => b' <-? f b x ;; res_fold f l' b'
  end.

(** [[f(x) for x in l]], up to the first exception. *)
Fixpoint res_map {A B} (f : A -> res B) (l : list A) : res (list B) :=
  match l with
  | [] => Ok []
  | x :: l' => y <-? f x ;; ys <-? res_map f l' ;; Ok (y :: ys)
  end.

Lemma res_fold_app {A B} (f : B -> A -> res B) l1 l2 b :
  res_fold f (l1 ++ l2) b = (b' <-? res_fold f l1 b ;; res_fold f l2 b').
Proof.
  revert b. induction l1 as [|x l1 IH]; intros b; cbn; [done|].
  destruct (f b x); cbn; [apply IH|done].
Qed.

Lemma res_map_ok {A B} (f : A -> res B) l ys :
  res_map f l = Ok ys <-> Forall2 (fun x y => f x = Ok y) l ys.
Proof.
  revert ys. induction l as [|x l IH]; intros ys; cbn.
  - split; [by intros [= <-]|]. by inversion 1.
  - split.
    + destruct (f x) as [y|] eqn:Hx; cbn; [|done]. destruct (res_map f l) as [zs|]; cbn; [|done].
      intros [= <-]. constructor; [done|]. by apply IH.
    + inversion 1 as [|? y ? zs Hy Hl]; subst. rewrite Hy. cbn. by rewrite (proj2 (IH zs) Hl).
Qed.

Lemma res_map_map {A B C} (g : A -> B) (f : B -> res C) (h : A -> C) l :
  (forall x, f (g x) = Ok (h x)) -> res_map f (map g l) = Ok (map h l).
Proof. intros Hf. induction l as [|x l IH]; cbn; [done|]. by rewrite Hf, IH. Qed.

Lemma discard_state {S A} (m : M S A) s : (discard m s).2 = (m s).2.
Proof. unfold discard, bind, ret. by destruct (m s) as [[a|e] s']. Qed.

Lemma for_each_app {S A} (l1 l2 : list A) (body : A -> M S unit) s :
  for_each (l1 ++ l2) body s = (for_each l1 body ;;; for_each l2 body) s.
Proof.
  revert s. induction l1 as [|x l1 IH]; intros s; [done|]. cbn. unfold bind in *.
  destruct (body x s) as [[[]|e] s']; [apply IH|done].
Qed.

Lemma for_each_flat_map {S A B} (f : A -> list B) (body : B -> M S unit) l s :
  for_each l (fun x => for_each (f x) body) s = for_each (flat_map f l) body s.
Proof.
  revert s. induction l as [|x l IH]; intros s; [done|]. cbn [flat_map].
  rewrite for_each_app. cbn. unfold bind. destruct (for_each (f x) body s) as [[[]|e] s'];
    [apply IH|done].
Qed.

Lemma for_each_map {S A B} (f : A -> B) (body : B -> M S unit) l s :
  for_each (map f l) body s = for_each l (fun x => body (f x)) s.
Proof.
  revert s. induction l as [|x l IH]; intros s; [done|]. cbn. unfold bind.
  destruct (body (f x) s) as [[[]|e] s']; [apply IH|done].
Qed.

Lemma for_each_ext {S A} (b1 b2 : A -> M S unit) l s :
  (forall x t, b1 x t = b2 x t) -> for_each l b1 s = for_each l b2 s.
Proof.
  intros Hb. revert s. induction l as [|x l IH]; intros s; [done|]. cbn. unfold bind.
  rewrite Hb. destruct (b2 x s) as [[[]|e] s']; [apply IH|done].
Qed.

Section monad_laws.
Context {S : Type}.

Lemma bind_ret_l {A B} (a : A) (f : A -> M S B) s : bind (ret a) f s = f a s.
Proof. reflexivity. Qed.

Lemma bind_assoc {A B C} (m : M S A) (f : A -> M S B) (g : B -> M S C) s :
  bind (bind m f) g s = bind m (fun a => bind (f a) g) s.
Proof. unfold bind. by destruct (m s) as [[a|e] s']. Qed.

Lemma bind_ok {A B} (m : M S A) (f : A -> M S B) s s' a :
  m s = (Ok a, s') -> bind m f s = f a s'.
Proof. unfold bind. by intros ->. Qed.

Lemma bind_err {A B} (m : M S A) (f : A -> M S B) s s' e :
  m s = (Err e, s') -> bind m f s = (Err e, s').
Proof. unfold bind. by intros ->. Qed.

(** An invariant of the body is an invariant of the loop, whether or not the
    loop is cut short by an exception. *)
Lemma for_each_inv {A} (P : S -> Prop) (l : list A) body s :
  (forall x t, x ∈ l -> P t -> P (body x t).2) -> P s -> P (for_each l body s).2.
Proof.
  revert s; induction l as [|x l IH]; intros s Hb Hs; [done|].
  cbn. unfold bind. pose proof (Hb x s ltac:(set_solver) Hs) as Hx.
  destruct (body x s) as [[[]|e] s'] eqn:E; cbn in *; [|done].
  apply IH; [|done]. intros y t Hy. apply Hb. set_solver.
Qed.
End monad_laws.

(** [m] keeps [P], whether it returns or raises. *)
Definition preserves {S A} (P : S -> Prop) (m : M S A) : Prop := forall s, P s -> P (m s).2.

Section preserves.
Context {S : Type} (P : S -> Prop).

Lemma preserves_ret {A} (a : A) : preserves P (ret a).
Proof. by intros s Hs. Qed.

Lemma preserves_raise {A} e : preserves P (raise (A:=A) e).
Proof. by intros s Hs. Qed.

Lemma preserves_lift {A} (r : res A) : preserves P (lift r).
Proof. by intros s Hs. Qed.

Lemma preserves_get : preserves P get.
Proof. by intros s Hs. Qed.

Lemma preserves_bind {A B} (m : M S A) (f : A -> M S B) :
  preserves P m -> (forall a, preserves P (f a)) -> preserves P (bind m f).
Proof.
  intros Hm Hf s Hs. unfold bind. pose proof (Hm s Hs) as Hs'.
  destruct (m s) as [[a|e] s']; [by apply Hf|done].
Qed.

(** What follows a read of the state may use that the state satisfies [P]. *)
Lemma preserves_bind_get {B} (f : S -> M S B) :
  (forall s, P s -> P (f s s).2) -> preserves P (bind get f).
Proof. intros Hf s Hs. by apply Hf. Qed.

Lemma preserves_catch {A} (m : M S A) handles h :
  preserves P m -> (forall e, preserves P (h e)) -> preserves P (catch m handles h).
Proof.
  intros Hm Hh s Hs. unfold catch. pose proof (Hm s Hs) as Hs'.
  destruct (m s) as [[a|e] s']; [done|]. destruct (handles (exn_cls e)); [by apply Hh|done].
Qed.

Lemma preserves_for_each {A} (l : list A) body :
  (forall x, x ∈ l -> preserves P (body x)) -> preserves P (for_each l body).
Proof. intros Hb s Hs. apply for_each_inv; [|done]. intros x t Hx. by apply Hb. Qed.
End preserves.

#[export] Hint Resolve preserves_ret preserves_raise preserves_lift preserves_get
  preserves_bind preserves_catch preserves_for_each : hermes.

(** ** Total correctness

    From [s], [m] returns, with a result and a state that satisfy [Q]. *)

Definition wp {S A} (m : M S A) (Q : A -> S -> Prop) (s : S) : Prop :=
  match m s with
  | (Ok a, s') => Q a s'
  | (Err _, _) => False
  end.

Section wp.
Context {S : Type}.

Lemma wp_ret {A} (a : A) (Q : A -> S -> Prop) s : Q a s -> wp (ret a) Q s.
Proof. done. Qed.

Lemma wp_bind {A B} (m : M S A) (f : A -> M S B) Q s :
  wp m (fun a => wp (f a) Q) s -> wp (bind m f) Q s.
Proof. unfold wp, bind. by destruct (m s) as [[a|e] s']. Qed.

Lemma wp_mono {A} (m : M S A) (P Q : A -> S -> Prop) s :
  wp m P s -> (forall a s', P a s' -> Q a s') -> wp m Q s.
Proof. unfold wp. destruct (m s) as [[a|e] s']; [|done]. intros HP HPQ. by apply HPQ. Qed.

Lemma wp_ok {A} (m : M S A) Q s : wp m Q s -> exists a s', m s = (Ok a, s') /\ Q a s'.
Proof. unfold wp. destruct (m s) as [[a|e] s']; [|done]. eauto. Qed.

Lemma wp_state {A} (m : M S A) Q s : wp m Q s -> exists a, Q a (m s).2.
Proof. unfold wp. destruct (m s) as [[a|e] s']; [|done]. eauto. Qed.

(** The invariant of a loop speaks of the elements already met. *)
Lemma wp_for_each {A} (I : list A -> S -> Prop) (l : list A) body s :
  I [] s ->
  (forall l1 x l2 t, l = l1 ++ x :: l2 -> I l1 t -> wp (body x) (fun _ t' => I (l1 ++ [x]) t') t) ->
  wp (for_each l body) (fun _ t => I l t) s.
Proof.
  intros H0 Hstep. assert (Hgen : forall l2 l1 t, l = l1 ++ l2 -> I l1 t ->
    wp (for_each l2 body) (fun _ t => I l t) t).
  { induction l2 as [|x l2 IH]; intros l1 t Hl HI.
    - rewrite app_nil_r in Hl. by subst.
    - cbn [for_each]. apply wp_bind. eapply wp_mono; [by eapply Hstep|]. cbn. intros _ t1 HI1.
      apply (IH (l1 ++ [x])); [|done]. by rewrite <- app_assoc. }
  by apply (Hgen l []).
Qed.
End wp.

(** ** Lists *)

Lemma filter_all {A} (P : A -> Prop) `{!forall x, Decision (P x)} (l : list A) :
  (forall x, x ∈ l -> P x) -> filter P l = l.
Proof.
  induction l as [|x l IH]; intros Hl; [done|].
  rewrite filter_cons, decide_True by (apply Hl; set_solver).
  f_equal. apply IH. set_solver.
Qed.

Lemma list_filter_nil {A} (P : A -> bool) l : (forall x, x ∈ l -> P x = false) -> List.filter P l = [].
Proof.
  induction l as [|x l IH]; intros Hl; [done|]. cbn. rewrite (Hl x) by set_solver. apply IH. set_solver.
Qed.

Lemma filter_none {A} (P : A -> Prop) `{!forall x, Decision (P x)} (l : list A) :
  (forall x, x ∈ l -> ~ P x) -> filter P l = [].
Proof.
  induction l as [|x l IH]; intros Hl; [done|].
  rewrite filter_cons, decide_False by (apply Hl; set_solver).
  apply IH. set_solver.
Qed.

Lemma NoDup_same_length {A} `{!EqDecision A} (l k : list A) :
  NoDup l -> NoDup k -> (forall x, x ∈ l -> x ∈ k) -> length l = length k ->
  forall x, x ∈ k -> x ∈ l.
Proof.
  intros Hl Hk Hsub Hlen x Hx.
  assert (Hp : l ≡ₚ k).
  { apply submseteq_length_Permutation; [|lia]. by apply NoDup_submseteq. }
  by rewrite Hp.
Qed.

Lemma NoDup_subset_length {A} (l k : list A) :
  NoDup l -> (forall x, x ∈ l -> x ∈ k) -> (length l <= length k)%nat.
Proof. intros ? ?. by apply submseteq_length, NoDup_submseteq. Qed.

(** An element occurs at one place only of a list without duplicates. *)
Lemma NoDup_split_unique {A} (k1 k2 l1 l2 : list A) x :
  NoDup (k1 ++ x :: k2) -> k1 ++ x :: k2 = l1 ++ x :: l2 -> l1 = k1.
Proof.
  revert l1. induction k1 as [|y k1 IH]; intros [|z l1]; cbn; intros Hnd Heq; simplify_eq.
  - done.
  - apply NoDup_cons in Hnd as [Hx _]. set_solver.
  - apply NoDup_cons in Hnd as [Hx _]. set_solver.
  - apply NoDup_cons in Hnd as [_ Hnd]. f_equal. by eapply IH.
Qed.

Lemma NoDup_map_inj {A B} (f : A -> B) l x y :
  NoDup (map f l) -> x ∈ l -> y ∈ l -> f x = f y -> x = y.
Proof.
  induction l as [|z l IH]; [set_solver|]. cbn. intros [Hz Hl]%NoDup_cons.
  intros [->|Hx]%elem_of_cons [->|Hy]%elem_of_cons Heq; [done|..].
  - exfalso. apply Hz. rewrite Heq. apply list_elem_of_fmap. eauto.
  - exfalso. apply Hz. rewrite <- Heq. apply list_elem_of_fmap. eauto.
  - by apply IH.
Qed.

(** Membership of a constant in a list of constants is decided by computing. *)
Ltac const_elem := apply (bool_decide_eq_true_1 _); vm_compute; reflexivity.
Ltac const_absurd H :=
  exfalso; let Hb := fresh in
  pose proof (bool_decide_eq_true_2 _ H) as Hb; vm_compute in Hb; discriminate Hb.

(** [append] on a [deque(maxlen=n)]. *)
Definition deque_append {A} (n : nat) (l : list A) (x : A) : list A :=
  let l' := l ++ [x] in drop (length l' - n) l'.

Lemma deque_append_length {A} n (l : list A) x :
  (length l <= n)%nat -> (length (deque_append n l x) <= n)%nat.
Proof. intros. unfold deque_append. rewrite length_drop, length_app. cbn. lia. Qed.

(** Every element of [l] satisfies [P] with the elements before it. *)
Definition prefix_all {A} (P : list A -> A -> Prop) (l : list A) : Prop :=
  forall l1 x l2, l = l1 ++ x :: l2 -> P l1 x.

Lemma prefix_all_nil {A} (P : list A -> A -> Prop) : prefix_all P [].
Proof. intros [|] x l2 H; discriminate. Qed.

Lemma prefix_all_snoc {A} (P : list A -> A -> Prop) l x :
  prefix_all P (l ++ [x]) <-> prefix_all P l /\ P l x.
Proof.
  split.
  - intros H. split; [|by apply (H l x [])]. intros l1 y l2 ->.
    apply (H l1 y (l2 ++ [x])). by rewrite <- app_assoc.
  - intros [Hl Hx] l1 y l2 Heq. destruct l2 as [|z l2 _] using rev_ind.
    + by apply app_inj_tail in Heq as [-> ->].
    + change (y :: l2 ++ [z]) with ((y :: l2) ++ [z]) in Heq.
      rewrite app_assoc in Heq. apply app_inj_tail in Heq as [-> _]. by apply (Hl l1 y l2).
Qed.

Lemma prefix_all_mono {A} (P Q : list A -> A -> Prop) l :
  (forall l1 x, x ∈ l -> P l1 x -> Q l1 x) -> prefix_all P l -> prefix_all Q l.
Proof. intros HPQ H l1 x l2 ->. apply HPQ; [set_solver|]. by apply (H l1 x l2). Qed.

(** ** Sorting

    Python's [sorted] is stable: elements the key does not separate keep their
    order.  [R x y] says that [x] may stand before [y]. *)

Section sort_by.
Context {A : Type} (R : relation A) `{!RelDecision R}.

Fixpoint insert_by (x : A) (l : list A) : list A :=
  match l with
  | [] => [x]
  | y :: l' => if decide (R x y) then x :: l else y :: insert_by x l'
  end.

Definition sort_by (l : list A) : list A := foldr insert_by [] l.

Lemma insert_by_perm x l : insert_by x l ≡ₚ x :: l.
Proof.
  induction l as [|y l IH]; cbn; [done|]. case_decide; [done|]. rewrite IH. apply perm_swap.
Qed.

Lemma sort_by_perm l : sort_by l ≡ₚ l.
Proof. induction l as [|x l IH]; cbn; [done|]. by rewrite insert_by_perm, IH. Qed.

Lemma insert_by_sorted `{!Transitive R, !Total R} x l :
  StronglySorted R l -> StronglySorted R (insert_by x l).
Proof.
  induction 1 as [|y l Hl IH Hy]; cbn; [repeat constructor|]. case_decide as Hxy.
  - constructor; [by constructor|]. constructor; [done|].
    eapply Forall_impl; [exact Hy|]. intros z. by transitivity y.
  - constructor; [done|]. rewrite insert_by_perm. constructor; [|done].
    destruct (total R x y); done.
Qed.

Lemma sort_by_sorted `{!Transitive R, !Total R} l : StronglySorted R (sort_by l).
Proof. induction l as [|x l IH]; cbn; [constructor|]. by apply insert_by_sorted. Qed.
End sort_by.

Lemma StronglySorted_head {A} (R : relation A) x l y :
  StronglySorted R (x :: l) -> y ∈ l -> R x y.
Proof. intros Hs Hy. inversion Hs as [|? ? _ Hall]; subst. by eapply Forall_forall in Hall. Qed.

(** ** Sets

    Python gives no order to the elements of a set.  What a loop over a set
    does is stated for every order: [iter_set s] is the order in which this
    run of the program meets the elements of [s]. *)

Class SetOrder := {
  iter_set : gset string -> list string;
  iter_set_elements : forall s, iter_set s ≡ₚ elements s
}.

(** The order in which stdpp lists a set is one. *)
#[export] Instance elements_order : SetOrder :=
  {| iter_set s := elements s; iter_set_elements s := reflexivity (elements s) |}.

Section set_order.
Context `{!SetOrder}.

Lemma elem_iter_set s x : x ∈ iter_set s <-> x ∈ s.
Proof. rewrite iter_set_elements. apply elem_of_elements. Qed.

Lemma NoDup_iter_set s : NoDup (iter_set s).
Proof. rewrite iter_set_elements. apply NoDup_elements. Qed.
End set_order.

(** ** Free-form payloads ([Any], [dict[str, Any]]) *)

Inductive pyval :=
  | PNone
  | PBool (b : bool)
  | PInt (z : Z)
  | PFloat (q : Q)
  | PStr (s : string)
  | PList (l : list pyval)
  | PDict (l : list (string * pyval)).

(** ** Strings

    A string is its characters; [lower] and [strip] are those of the ASCII
    ones. *)

Definition lower_ascii (c : ascii) : ascii :=
  let n := nat_of_ascii c in
  if (65 <=? n)%nat && (n <=? 90)%nat then ascii_of_nat (n + 32) else c.

(** [s.lower()] *)
Fixpoint lower (s : string) : string :=
  match s with
  | EmptyString => EmptyString
  | String c s' => String (lower_ascii c) (lower s')
  end.

(** [sub in s] *)
Fixpoint contains (sub s : string) : bool :=
  String.prefix sub s ||
  match s with
  | EmptyString => false
  | String _ s' => contains sub s'
  end.

(** [c.isspace()] *)
Definition is_space (c : ascii) : bool :=
  let n := nat_of_ascii c in
  ((9 <=? n) && (n <=? 13) || (28 <=? n) && (n <=? 32))%nat.

Fixpoint lstrip (s : string) : string :=
  match s with
  | EmptyString => EmptyString
  | String c s' => if is_space c then lstrip s' else s
  end.

Fixpoint rstrip (s : string) : string :=
  match s with
  | EmptyString => EmptyString
  | String c s' =>
      match rstrip s' with
      | EmptyString => if is_space c then EmptyString else String c EmptyString
      | r => String c r
      end
  end.

(** [s.strip()] *)
Definition strip (s : string) : string := rstrip (lstrip s).

Fixpoint drop_chars (n : nat) (s : string) : string :=
  match n, s with
  | O, _ => s
  | S n', String _ s' => drop_chars n' s'
  | S _, EmptyString => EmptyString
  end.

(** [s[:n]] *)
Fixpoint first_chars (n : nat) (s : string) : string :=
  match n, s with
  | S n', String c s' => String c (first_chars n' s')
  | _, _ => ""
  end.

(** [s[-n:]] for a positive [n]. *)
Definition last_chars (n : Z) (s : string) : string := drop_chars (String.length s - Z.to_nat n) s.

Lemma string_app_cons x (a b : string) : String x a +:+ b = String x (a +:+ b).
Proof. done. Qed.

Lemma string_app_assoc (a b c : string) : (a +:+ b) +:+ c = a +:+ (b +:+ c).
Proof. induction a as [|x a IH]; [done|]. by rewrite !string_app_cons, IH. Qed.

Lemma string_app_nil (a : string) : a +:+ "" = a.
Proof. induction a as [|x a IH]; [done|]. by rewrite !string_app_cons, IH. Qed.

Lemma string_length_app (a b : string) : String.length (a +:+ b) = (String.length a + String.length b)%nat.
Proof. induction a as [|x a IH]; [done|]. rewrite string_app_cons. cbn. by rewrite IH. Qed.

(** Two ways to cut a string: one cut is inside the other's side. *)
Lemma string_app_cut (a b c d : string) :
  a +:+ b = c +:+ d ->
  (exists k, a = c +:+ k /\ d = k +:+ b) \/ (exists k, c = a +:+ k /\ b = k +:+ d).
Proof.
  revert c. induction a as [|x a IH]; intros c.
  - intros Hb. right. by exists c.
  - destruct c as [|y c].
    + intros Hd. left. exists (String x a). by split.
    + rewrite !string_app_cons. intros [= -> [(k & -> & ->)|(k & -> & ->)]%IH]; [left|right]; by exists k.
Qed.

Lemma prefix_spec (a s : string) : String.prefix a s = true <-> exists q, s = a +:+ q.
Proof.
  revert s. induction a as [|x a IH]; intros s; [split; [by exists s|by destruct s]|].
  destruct s as [|y s]; [split; [done|by intros (q & [=])]|]. cbn.
  destruct (ascii_dec x y) as [->|Hne]; [|split; [done|by intros (q & [= -> _])]].
  rewrite IH. split; intros (q & Hq); exists q; [by rewrite string_app_cons, Hq|by injection Hq].
Qed.

Lemma contains_spec (sub s : string) : contains sub s = true <-> exists p q, s = p +:+ (sub +:+ q).
Proof.
  induction s as [|c s IH]; cbn [contains]; rewrite orb_true_iff, prefix_spec.
  - split; [intros [(q & Hq)|]; [by exists "", q|done]|].
    intros (p & q & Hpq). left. destruct p; [by exists q|done].
  - rewrite IH. split.
    + intros [(q & Hq)|(p & q & ->)]; [by exists "", q|by exists (String c p), q].
    + intros (p & q & Hpq). destruct p as [|c' p]; [left; by exists q|right].
      rewrite string_app_cons in Hpq. injection Hpq as <- ->. by exists p, q.
Qed.

Lemma drop_chars_spec n s :
  exists p, s = p +:+ drop_chars n s /\ String.length p = Nat.min n (String.length s).
Proof.
  revert s. induction n as [|n IH]; intros s; [by exists ""|]. destruct s as [|c s]; [by exists ""|].
  destruct (IH s) as (p & Hs & Hp). exists (String c p). cbn. by rewrite string_app_cons, <- Hs, Hp.
Qed.

Lemma last_chars_spec n s :
  exists p, s = p +:+ last_chars n s /\
    String.length (last_chars n s) = Nat.min (Z.to_nat n) (String.length s).
Proof.
  destruct (drop_chars_spec (String.length s - Z.to_nat n) s) as (p & Hs & Hp). exists p. split; [done|].
  assert (Hl : String.length s = (String.length p + String.length (last_chars n s))%nat)
    by (rewrite Hs at 1; apply string_length_app). lia.
Qed.

(** ** Formatted numbers *)

Definition round_half_even (q : Q) : Z :=
  let f := Qfloor q in
  match (q - inject_Z f ?= 1 # 2)%Q with
  | Lt => f
  | Gt => (f + 1)%Z
  | Eq => if Z.even f then f else (f + 1)%Z
  end.

(** [round(x, 1)] of a rational, as tenths. *)
Definition tenths (q : Q) : Q := (inject_Z (round_half_even (q * 10)) / 10)%Q.

(** [n] with at least [width] digits. *)
Definition zero_padded (width : nat) (n : Z) : string :=
  let s := pretty n in
  String.concat "" (repeat "0" (width - String.length s) ++ [s]).

(** [f"{q:.<digits>f}"]: ties go to the even digit; the sign of a number that
    rounds to zero is not kept. *)
Definition fixed (digits : nat) (q : Q) : string :=
  let scale := (10 ^ Z.of_nat digits)%Z in
  let n := round_half_even (q * inject_Z scale) in
  let a := Z.abs n in
  (if (n <? 0)%Z then "-" else "") +:+
  match digits with
  | O => pretty a
  | S _ => pretty (a / scale)%Z +:+ "." +:+ zero_padded digits (a mod scale)%Z
  end.

Example fixed_2 : fixed 2 (2049 # 1000) = "2.05".
Proof. reflexivity. Qed.

(** The text of a message: its arguments in the places of its template. *)
Fixpoint fill (template : string) (args : list string) : string :=
  match template with
  | String "{"%char (String "}"%char t) =>
      match args with
      | a :: args' => a +:+ fill t args'
      | [] => fill t []
      end
  | String c t => String c (fill t args)
  | EmptyString => EmptyString
  end.

Definition render (m : message) : string := fill (msg_template m) (msg_args m).

(** ** Python's insertion-ordered dictionaries with string keys

    Iteration order is observable in the code (the order of the Kahn queue,
    of the missions of a tick), so a dictionary is its list of items, not a
    [gmap]; [to_map] is the abstraction to one. *)

Definition pydict (V : Type) : Type := list (string * V).

Section pydict.
Context {V : Type}.
Implicit Types d : pydict V.

Fixpoint dget d (k : string) : option V :=
  match d with
  | [] => None
  | (k', v) :: d' => if decide (k' = k) then Some v else dget d' k
  end.

Fixpoint dset d (k : string) (v : V) : pydict V :=
  match d with
  | [] => [(k, v)]
  | (k', v') :: d' => if decide (k' = k) then (k', v) :: d' else (k', v') :: dset d' k v
  end.

Fixpoint ddel d (k : string) : pydict V :=
  match d with
  | [] => []
  | (k', v') :: d' => if decide (k' = k) then d' else (k', v') :: ddel d' k
  end.

Definition dmem d (k : string) : bool :=
  match dget d k with Some _ => true | None => false end.

Definition dkeys d : list string := map fst d.
Definition dvalues d : list V := map snd d.
(** [d[k]] *)
Definition dlookup d (k : string) : res V :=
  match dget d k with
  | Some v => Ok v
  | None => Err (Exn KeyError [Msg "{}" [k]])
  end.

Definition dict_wf d : Prop := NoDup (dkeys d).
Definition to_map d : gmap string V := list_to_map d.

Lemma dget_dset d k k' v :
  dget (dset d k v) k' = if decide (k = k') then Some v else dget d k'.
Proof.
  induction d as [|[k0 v0] d IH]; cbn; repeat case_decide; cbn;
    repeat case_decide; subst; try done; try congruence.
Qed.

Lemma dget_dset_eq d k v : dget (dset d k v) k = Some v.
Proof. rewrite dget_dset. by rewrite decide_True. Qed.

Lemma dget_dset_ne d k k' v : k <> k' -> dget (dset d k v) k' = dget d k'.
Proof. intros. rewrite dget_dset. by rewrite decide_False. Qed.

Lemma dget_Some_elem d k v : dget d k = Some v -> (k, v) ∈ d.
Proof.
  induction d as [|[k0 v0] d IH]; cbn; [done|].
  case_decide; intros; simplify_eq; set_solver.
Qed.

Lemma dget_None d k : dget d k = None <-> k ∉ dkeys d.
Proof.
  induction d as [|[k0 v0] d IH]; cbn; [set_solver|].
  case_decide; set_solver.
Qed.

Lemma dget_is_Some d k : is_Some (dget d k) <-> k ∈ dkeys d.
Proof.
  rewrite <- not_eq_None_Some, dget_None.
  destruct (decide (k ∈ dkeys d)); naive_solver.
Qed.

Lemma dmem_true d k : dmem d k = true <-> k ∈ dkeys d.
Proof.
  rewrite <- dget_is_Some. unfold dmem, is_Some.
  destruct (dget d k); naive_solver.
Qed.

Lemma dmem_false d k : dmem d k = false <-> k ∉ dkeys d.
Proof. rewrite <- dmem_true. destruct (dmem d k); naive_solver. Qed.

Lemma dget_elem d k v : dict_wf d -> (k, v) ∈ d -> dget d k = Some v.
Proof.
  unfold dict_wf. induction d as [|[k0 v0] d IH]; cbn; [set_solver|].
  intros [Hk Hd]%NoDup_cons [?|Hin]%elem_of_cons; case_decide; simplify_eq; try done.
  - exfalso. apply Hk. apply list_elem_of_fmap. eexists (_, v); by split.
  - by apply IH.
Qed.

Lemma dkeys_dset_mem d k v : k ∈ dkeys d -> dkeys (dset d k v) = dkeys d.
Proof.
  induction d as [|[k0 v0] d IH]; cbn; [set_solver|].
  case_decide; cbn; [done|]. intros [?|?]%elem_of_cons; [congruence|].
  f_equal. by apply IH.
Qed.

Lemma dkeys_dset_new d k v : k ∉ dkeys d -> dset d k v = d ++ [(k, v)].
Proof.
  induction d as [|[k0 v0] d IH]; cbn; [done|].
  intros Hk. case_decide; [set_solver|]. f_equal. apply IH. set_solver.
Qed.

Lemma dset_app_last d k v v' : k ∉ dkeys d -> dset (d ++ [(k, v)]) k v' = d ++ [(k, v')].
Proof.
  induction d as [|[k0 v0] d IH]; cbn; intros Hk.
  - by rewrite decide_True.
  - rewrite decide_False by set_solver. f_equal. apply IH. set_solver.
Qed.

Lemma elem_dkeys_dset d k v k' : k' ∈ dkeys (dset d k v) <-> k' = k \/ k' ∈ dkeys d.
Proof.
  rewrite <- !dget_is_Some, dget_dset.
  case_decide; subst; split; naive_solver.
Qed.

Lemma dict_wf_dset d k v : dict_wf d -> dict_wf (dset d k v).
Proof.
  unfold dict_wf. intros Hd. destruct (decide (k ∈ dkeys d)) as [Hk|Hk].
  - by rewrite dkeys_dset_mem.
  - rewrite (dkeys_dset_new _ _ _ Hk). unfold dkeys in *. rewrite map_app. cbn.
    apply NoDup_app. split; [done|]. split; [set_solver|]. apply NoDup_singleton.
Qed.

Lemma dkeys_ddel_subset d k k' : k' ∈ dkeys (ddel d k) -> k' ∈ dkeys d.
Proof.
  induction d as [|[k0 v0] d IH]; cbn; [done|]. case_decide; cbn; set_solver.
Qed.

Lemma dict_wf_ddel d k : dict_wf d -> dict_wf (ddel d k).
Proof.
  unfold dict_wf. induction d as [|[k0 v0] d IH]; cbn; [done|].
  intros [Hk Hd]%NoDup_cons. case_decide; [done|]. cbn.
  apply NoDup_cons. split; [|by apply IH]. intros ?%dkeys_ddel_subset. done.
Qed.

Lemma dget_ddel d k k' : dict_wf d ->
  dget (ddel d k) k' = if decide (k = k') then None else dget d k'.
Proof.
  unfold dict_wf. induction d as [|[k0 v0] d IH]; cbn; intros Hwf.
  { by case_decide. }
  apply NoDup_cons in Hwf as [Hk Hd].
  destruct (decide (k0 = k)) as [->|]; cbn.
  - case_decide; [|done]. subst. by apply dget_None.
  - rewrite IH by done. repeat case_decide; subst; done.
Qed.

Lemma elem_dkeys_ddel d k k' : dict_wf d ->
  k' ∈ dkeys (ddel d k) <-> k' <> k /\ k' ∈ dkeys d.
Proof.
  intros. rewrite <- !dget_is_Some, dget_ddel by done.
  case_decide; subst; split; naive_solver.
Qed.

Lemma to_map_lookup d k : to_map d !! k = dget d k.
Proof.
  unfold to_map. induction d as [|[k0 v0] d IH]; cbn; [by rewrite lookup_empty|].
  rewrite lookup_insert. by case_decide.
Qed.

Lemma to_map_dset d k v : to_map (dset d k v) = <[k := v]> (to_map d).
Proof.
  apply map_eq. intros k'. rewrite lookup_insert, !to_map_lookup. apply dget_dset.
Qed.

Lemma to_map_ddel d k : dict_wf d -> to_map (ddel d k) = delete k (to_map d).
Proof.
  intros. apply map_eq. intros k'.
  rewrite lookup_delete, !to_map_lookup. by apply dget_ddel.
Qed.

Lemma dlookup_Some d k v : dget d k = Some v -> dlookup d k = Ok v.
Proof. unfold dlookup. by intros ->. Qed.

Lemma dkeys_length d : length (dkeys d) = length d.
Proof. apply length_map. Qed.
End pydict.

(** [d[k] = v] then [d.move_to_end(k)]; also what [INSERT OR REPLACE] does to
    the rows in the order of their rowids. *)
Definition dmove {V} (d : pydict V) (k : string) (v : V) : pydict V := ddel d k ++ [(k, v)].

Section dmove.
Context {V : Type}.
Implicit Types d : pydict V.

Lemma ddel_app d1 d2 k : k ∉ dkeys d1 -> ddel (d1 ++ d2) k = d1 ++ ddel d2 k.
Proof.
  unfold dkeys. induction d1 as [|[k' v] d1 IH]; intros Hk; [done|]. cbn in *. rewrite decide_False by set_solver.
  f_equal. apply IH. set_solver.
Qed.

Lemma length_ddel_le d k : (length (ddel d k) <= length d)%nat.
Proof. induction d as [|[k' v] d IH]; [done|]. cbn. case_decide; cbn; lia. Qed.

Lemma dkeys_app d1 d2 : dkeys (d1 ++ d2) = dkeys d1 ++ dkeys d2.
Proof. apply map_app. Qed.

Lemma dict_wf_dmove d k v : dict_wf d -> dict_wf (dmove d k v).
Proof.
  intros Hd. unfold dmove, dict_wf. rewrite dkeys_app. apply NoDup_app. split; [by apply dict_wf_ddel|]. split; [|apply NoDup_singleton].
  intros x Hx%elem_dkeys_ddel; [|done]. cbn. set_solver.
Qed.

Lemma dget_app d1 d2 k : dget (d1 ++ d2) k = match dget d1 k with Some v => Some v | None => dget d2 k end.
Proof. induction d1 as [|[k' v] d1 IH]; [done|]. cbn. by case_decide. Qed.

Lemma dget_dmove d k v k' : dict_wf d -> dget (dmove d k v) k' = if decide (k = k') then Some v else dget d k'.
Proof.
  intros Hd. unfold dmove. rewrite dget_app, dget_ddel by done. cbn. case_decide; [done|]. by destruct (dget d k').
Qed.
End dmove.

Arguments dkeys {V} d : simpl never.
Arguments dvalues {V} d : simpl never.
Arguments dmem {V} d k : simpl never.
