(* ===== verification/Kahn.v ===== *)
(** * Kahn's algorithm

    The worklist loop that [agent/execution_graph.py] writes three times
    ([detect_cycles], [topological_sort], the levels of [generate_plan]) and
    [agent/task_planner.py] once ([validate_cycle_among_tasks]).  The loop is
    parameterised by what each copy accumulates: [visit] is its work on the
    node taken from the queue, [hook] its work on an edge just relaxed.  The
    copies themselves, with their own accumulators and tests, are in the files
    of their components. *)
From stdpp Require Import base gmap strings list sets relations sorting.
From Stdlib Require Import ZArith Lia.
From S2P Require Import Prelude.

Abbreviation edges := (list (string * string)).

Definition dinit {V} (ids : list string) (v : V) : pydict V := map (fun k => (k, v)) ids.
Arguments dinit : simpl never.

(** One turn of the loop that fills [adjacency] and [in_degree]. *)
Definition kahn_add_edge (st : pydict (list string) * pydict Z) (e : string * string)
    : pydict (list string) * pydict Z :=
  let '(adj, deg) := st in
  match dget adj e.1, dget deg e.2 with
  | Some ts, Some d => (dset adj e.1 (ts ++ [e.2]), dset deg e.2 (d + 1))
  | _, _ => st
  end.

Definition kahn_build (ids : list string) (es : edges) : pydict (list string) * pydict Z :=
  fold_left kahn_add_edge es (dinit ids [], dinit ids 0).

(** [[nid for nid, deg in in_degree.items() if deg == 0]] *)
Definition zero_degree (deg : pydict Z) : list string :=
  map fst (filter (fun p => p.2 = 0) deg).

Section loop.
Context {A : Type} (visit : string -> A -> A) (hook : string -> string -> A -> res A).
Context (adj : string -> res (list string)).

(** [for neighbor in adjacency[current]: ...] *)
Fixpoint kahn_relax (cur : string) (ns : list string) (deg : pydict Z)
    (q : list string) (a : A) : res (pydict Z * list string * A) :=
  match ns with
  | [] => Ok (deg, q, a)
  | n :: ns' =>
      d <-? dlookup deg n ;;
      a' <-? hook cur n a ;;
      kahn_relax cur ns' (dset deg n (d - 1))
        (if d - 1 =? 0 then q ++ [n] else q) a'
  end.

(** [while queue: current = queue.popleft(); ...] *)
Fixpoint kahn_loop (fuel : nat) (deg : pydict Z) (q : list string) (a : A)
    : res (pydict Z * A) :=
  match q with
  | [] => Ok (deg, a)
  | cur :: q' =>
      match fuel with
      | O => Err (Exn OutOfFuel [])
      | S f =>
          ns <-? adj cur ;;
          r <-? kahn_relax cur ns deg q' (visit cur a) ;;
          kahn_loop f r.1.1 r.1.2 r.2
      end
  end.

(** What the accumulator goes through when the nodes of [l] are taken in turn. *)
Definition replay_node (succ : string -> list string) (a : A) (cur : string) : res A :=
  res_fold (fun a n => hook cur n a) (succ cur) (visit cur a).
Definition replay (succ : string -> list string) (l : list string) (a : A) : res A :=
  res_fold (replay_node succ) l a.
End loop.

(** ** Edges, degrees, acyclicity *)

Definition edge_rel (E : edges) (s t : string) : Prop := (s, t) ∈ E.
Definition acyclic (E : edges) : Prop := forall x, ~ tc (edge_rel E) x x.
Definition closed (nodes : list string) (E : edges) : Prop :=
  forall s t, (s, t) ∈ E -> s ∈ nodes /\ t ∈ nodes.
(** The edges do not leave [nodes]. *)
Definition out_closed (nodes : list string) (E : edges) : Prop :=
  forall s t, (s, t) ∈ E -> s ∈ nodes -> t ∈ nodes.

Lemma closed_out nodes E : closed nodes E -> out_closed nodes E.
Proof. intros Hc s t He _. exact (proj2 (Hc s t He)). Qed.

(** Every node of [l] comes after its predecessors. *)
Definition topo (E : edges) (l : list string) : Prop :=
  forall l1 x l2, l = l1 ++ x :: l2 -> forall s, (s, x) ∈ E -> s ∈ l1.

Definition succs (E : edges) (s : string) : list string :=
  map snd (filter (fun e => e.1 = s) E).
Arguments succs : simpl never.

Fixpoint occ (n : string) (l : list string) : Z :=
  match l with
  | [] => 0
  | x :: l' => (if decide (x = n) then 1 else 0) + occ n l'
  end.

Fixpoint indeg (E : edges) (out : list string) (t : string) : Z :=
  match E with
  | [] => 0
  | e :: E' => (if decide (e.2 = t /\ e.1 ∉ out) then 1 else 0) + indeg E' out t
  end.

Lemma occ_nonneg n l : 0 <= occ n l.
Proof. induction l; cbn; [lia|]. case_decide; lia. Qed.

Lemma occ_pos n l : n ∈ l <-> 0 < occ n l.
Proof.
  induction l as [|x l IH]; cbn; [set_solver by lia|].
  rewrite elem_of_cons, IH. pose proof (occ_nonneg n l).
  case_decide; intuition (subst; try lia; congruence).
Qed.

Lemma indeg_nonneg E out t : 0 <= indeg E out t.
Proof. induction E; cbn; [lia|]. case_decide; lia. Qed.

Lemma indeg_zero E out t : indeg E out t = 0 <-> forall s, (s, t) ∈ E -> s ∈ out.
Proof.
  induction E as [|[s0 t0] E IH]; cbn; [set_solver|].
  pose proof (indeg_nonneg E out t).
  case_decide as Hd; cbn in *.
  - split; [lia|]. destruct Hd as [-> Hs]. intros Hall.
    exfalso. apply Hs, Hall. set_solver.
  - rewrite Z.add_0_l, IH. split; intros Hall s.
    + intros [?|?]%elem_of_cons; [|by apply Hall]. simplify_eq.
      destruct (decide (s0 ∈ out)); [done|]. exfalso. by apply Hd.
    + intros ?. apply Hall. set_solver.
Qed.

Lemma elem_succs E s t : t ∈ succs E s <-> (s, t) ∈ E.
Proof.
  unfold succs. rewrite list_elem_of_fmap. setoid_rewrite list_elem_of_filter.
  split; [intros [[s' t'] [? [? ?]]]; cbn in *; by subst|].
  intros. by exists (s, t).
Qed.

Lemma succs_cons E s e :
  succs (e :: E) s = if decide (e.1 = s) then e.2 :: succs E s else succs E s.
Proof. unfold succs. rewrite filter_cons. by case_decide. Qed.

Lemma succs_snoc E s e :
  succs (E ++ [e]) s = if decide (e.1 = s) then succs E s ++ [e.2] else succs E s.
Proof.
  unfold succs. rewrite filter_app, map_app. rewrite filter_cons, filter_nil.
  case_decide; cbn; by rewrite ?app_nil_r.
Qed.

Lemma indeg_snoc_out E out c t :
  c ∉ out -> indeg E (out ++ [c]) t = indeg E out t - occ t (succs E c).
Proof.
  intros Hc. induction E as [|[s0 t0] E IH]; cbn; [done|].
  rewrite succs_cons. cbn. rewrite IH.
  destruct (decide (s0 = c)) as [->|]; cbn; repeat case_decide; try lia;
    exfalso; set_solver.
Qed.

Lemma indeg_snoc_E E e out t :
  indeg (E ++ [e]) out t = indeg E out t + (if decide (e.2 = t /\ e.1 ∉ out) then 1 else 0).
Proof. induction E as [|e' E IH]; cbn; [lia|]. rewrite IH. lia. Qed.

Lemma occ_le_indeg E out c t : c ∉ out -> occ t (succs E c) <= indeg E out t.
Proof.
  intros Hc. pose proof (indeg_snoc_out E out c t Hc).
  pose proof (indeg_nonneg E (out ++ [c]) t). lia.
Qed.

(** ** The two dictionaries the loop starts from *)

Definition eff_edges (ids : list string) (es : edges) : edges :=
  filter (fun e => e.1 ∈ ids /\ e.2 ∈ ids) es.

Lemma dget_dinit {V} ids (v : V) n :
  dget (dinit ids v) n = if decide (n ∈ ids) then Some v else None.
Proof.
  unfold dinit. induction ids as [|i ids IH]; cbn; [by case_decide; set_solver|].
  rewrite IH. repeat case_decide; set_solver.
Qed.

Lemma dkeys_dinit {V} ids (v : V) : dkeys (dinit ids v) = ids.
Proof. unfold dkeys, dinit. rewrite map_map. apply map_id. Qed.

Lemma eff_edges_closed ids es : closed ids (eff_edges ids es).
Proof. intros s t [? ?]%list_elem_of_filter. done. Qed.

Lemma eff_edges_all ids es : closed ids es -> eff_edges ids es = es.
Proof.
  intros Hc. apply filter_all. intros [s t] He. by apply Hc.
Qed.

Lemma kahn_build_spec ids es :
  (forall n, dget (kahn_build ids es).1 n
      = if decide (n ∈ ids) then Some (succs (eff_edges ids es) n) else None) /\
  (forall n, dget (kahn_build ids es).2 n
      = if decide (n ∈ ids) then Some (indeg (eff_edges ids es) [] n) else None).
Proof.
  unfold kahn_build. induction es as [|e es IH] using rev_ind; cbn.
  { split; intros n; by rewrite dget_dinit. }
  rewrite fold_left_app. cbn.
  destruct (fold_left kahn_add_edge es _) as [adj deg]. cbn in *.
  destruct IH as [Ha Hd]. unfold eff_edges. rewrite filter_app, filter_cons, filter_nil.
  rewrite Ha, Hd. fold (eff_edges ids es). destruct e as [s t]; cbn.
  destruct (decide (s ∈ ids)) as [Hs|Hs]; [destruct (decide (t ∈ ids)) as [Ht|Ht]|].
  - rewrite decide_True by done. split; intros n; cbn; rewrite dget_dset.
    + rewrite succs_snoc, Ha. cbn. repeat case_decide; by subst.
    + rewrite indeg_snoc_E, Hd. cbn.
      assert (s ∉ []) by set_solver.
      destruct (decide (t = n)) as [->|Hne].
      * rewrite decide_True by done. by rewrite decide_True.
      * case_decide; [|done]. rewrite decide_False by naive_solver. f_equal. lia.
  - rewrite decide_False by naive_solver. rewrite app_nil_r. by split.
  - rewrite decide_False by naive_solver. rewrite app_nil_r. by split.
Qed.

Lemma dkeys_kahn_build ids es : dkeys (kahn_build ids es).2 = ids.
Proof.
  unfold kahn_build. induction es as [|e es IH] using rev_ind; cbn.
  { apply dkeys_dinit. }
  rewrite fold_left_app. cbn.
  destruct (fold_left kahn_add_edge es _) as [adj deg]. cbn in *.
  destruct (dget adj e.1), (dget deg e.2) eqn:E; cbn; try done.
  rewrite dkeys_dset_mem; [done|]. by apply dget_is_Some.
Qed.

Lemma elem_zero_degree deg n :
  dict_wf deg -> n ∈ zero_degree deg <-> dget deg n = Some 0.
Proof.
  intros Hwf. unfold zero_degree. rewrite list_elem_of_fmap.
  setoid_rewrite list_elem_of_filter. split.
  - intros [[k d] [-> [? Hin]]]. cbn in *; subst. by apply dget_elem.
  - intros Hg%dget_Some_elem. by exists (n, 0).
Qed.

Lemma NoDup_zero_degree deg : dict_wf deg -> NoDup (zero_degree deg).
Proof.
  intros Hwf. unfold zero_degree.
  eapply sublist_NoDup; [exact Hwf|]. apply (fmap_sublist fst), sublist_filter.
Qed.

(** ** The loop *)

Record kahn_inv (nodes : list string) (E : edges) (out q : list string)
    (deg : pydict Z) : Prop := KahnInv {
  ki_nodup : NoDup (out ++ q);
  ki_nodes : forall n, n ∈ out ++ q -> n ∈ nodes;
  ki_deg : forall n, dget deg n = if decide (n ∈ nodes) then Some (indeg E out n) else None;
  ki_ready : forall n, n ∈ nodes -> indeg E out n = 0 <-> n ∈ out ++ q;
  ki_topo : topo E out
}.

(** The degrees after the neighbours [ns] are relaxed, and those that reach 0. *)
Fixpoint relax_degrees (ns : list string) (deg : pydict Z) : pydict Z * list string :=
  match ns with
  | [] => (deg, [])
  | n :: ns' =>
      match dget deg n with
      | None => (deg, [])
      | Some d =>
          let r := relax_degrees ns' (dset deg n (d - 1)) in
          (r.1, (if d - 1 =? 0 then [n] else []) ++ r.2)
      end
  end.

Definition relaxable (ns : list string) (deg : pydict Z) : Prop :=
  forall n, n ∈ ns -> exists d, dget deg n = Some d /\ occ n ns <= d.

Lemma relaxable_cons x ns deg :
  relaxable (x :: ns) deg ->
  exists d, dget deg x = Some d /\ 1 + occ x ns <= d /\ relaxable ns (dset deg x (d - 1)).
Proof.
  intros Hd. destruct (Hd x ltac:(set_solver)) as (d & Hx & Hle). cbn in Hle.
  rewrite decide_True in Hle by done. exists d. split_and!; [done..|].
  intros n Hn. rewrite dget_dset. destruct (decide (x = n)) as [->|Hne].
  - exists (d - 1). split; [done|lia].
  - destruct (Hd n ltac:(set_solver)) as (d' & Hn' & Hle'). exists d'.
    split; [done|]. cbn in Hle'. rewrite decide_False in Hle' by done. lia.
Qed.

Lemma relax_degrees_get ns deg n :
  relaxable ns deg ->
  dget (relax_degrees ns deg).1 n = (fun d => d - occ n ns) <$> dget deg n.
Proof.
  revert deg. induction ns as [|x ns IH]; intros deg Hr; cbn.
  { destruct (dget deg n); cbn; [f_equal; lia|done]. }
  apply relaxable_cons in Hr as (d & Hx & Hle & Hr). rewrite Hx. cbn.
  rewrite IH by done. rewrite dget_dset. destruct (decide (x = n)) as [->|].
  - rewrite Hx. cbn. f_equal. lia.
  - destruct (dget deg n); cbn; [f_equal; lia|done].
Qed.

Lemma relax_degrees_dkeys ns deg : dkeys (relax_degrees ns deg).1 = dkeys deg.
Proof.
  revert deg. induction ns as [|x ns IH]; intros deg; cbn; [done|].
  destruct (dget deg x) eqn:E; cbn; [|done].
  rewrite IH. apply dkeys_dset_mem, dget_is_Some. by rewrite E.
Qed.

Lemma relax_degrees_zero ns deg n :
  relaxable ns deg ->
  n ∈ (relax_degrees ns deg).2 <-> n ∈ ns /\ dget deg n = Some (occ n ns).
Proof.
  revert deg. induction ns as [|x ns IH]; intros deg Hr; cbn; [set_solver|].
  apply relaxable_cons in Hr as (d & Hx & Hle & Hr). rewrite Hx. cbn.
  rewrite elem_of_app, IH by done. rewrite dget_dset, elem_of_cons.
  pose proof (occ_pos n ns). pose proof (occ_nonneg n ns).
  assert (Hif : n ∈ (if d - 1 =? 0 then [x] else []) <-> n = x /\ d = 1).
  { destruct (Z.eqb_spec (d - 1) 0); set_solver by lia. }
  rewrite Hif. destruct (decide (x = n)) as [->|Hne].
  - rewrite Hx. split.
    + intros [[_ ->]|[? ?]]; simplify_eq; (split; [by left|]); f_equal; lia.
    + intros [_ ?]. simplify_eq. destruct (decide (n ∈ ns)).
      * right. split; [done|f_equal; lia].
      * left. split; [done|]. cut (~ 0 < occ n ns); [lia|naive_solver].
  - rewrite Z.add_0_l. naive_solver.
Qed.

Lemma relax_degrees_NoDup ns deg :
  relaxable ns deg -> NoDup (relax_degrees ns deg).2.
Proof.
  revert deg. induction ns as [|x ns IH]; intros deg Hr; cbn; [constructor|].
  apply relaxable_cons in Hr as (d & Hx & Hle & Hr). rewrite Hx. cbn.
  pose proof (IH _ Hr). destruct (Z.eqb_spec (d - 1) 0); cbn; [|done].
  apply NoDup_cons. split; [|done]. rewrite relax_degrees_zero by done.
  rewrite dget_dset_eq. intros [Hin%occ_pos ?]. simplify_eq. lia.
Qed.

Lemma kahn_relax_degrees {A} (hook : string -> string -> A -> res A) cur ns deg q a :
  relaxable ns deg ->
  kahn_relax hook cur ns deg q a
    = (a' <-? res_fold (fun a n => hook cur n a) ns a ;;
       Ok ((relax_degrees ns deg).1, q ++ (relax_degrees ns deg).2, a')).
Proof.
  revert deg q a. induction ns as [|x ns IH]; intros deg q a Hr; cbn.
  { by rewrite app_nil_r. }
  apply relaxable_cons in Hr as (d & Hx & Hle & Hr). rewrite Hx. cbn.
  unfold dlookup. rewrite Hx. cbn. destruct (hook cur x a) as [a1|e]; cbn; [|done].
  rewrite IH by done. destruct (d - 1 =? 0); cbn; by rewrite <- ?app_assoc.
Qed.

(** ** Topological orders and cycles *)

Lemma topo_nil E : topo E [].
Proof. intros [|] x l2 Heq; discriminate. Qed.

Lemma topo_snoc E l x :
  topo E l -> (forall s, (s, x) ∈ E -> s ∈ l) -> topo E (l ++ [x]).
Proof.
  intros Ht Hx l1 y l2 Heq s Hs.
  destruct l2 as [|z l2 _] using rev_ind.
  - apply app_inj_tail in Heq as [-> ->]. by apply Hx.
  - change (y :: l2 ++ [z]) with ((y :: l2) ++ [z]) in Heq.
    rewrite app_assoc in Heq. apply app_inj_tail in Heq as [-> _].
    by eapply Ht.
Qed.

Lemma topo_prefix E l1 l2 : topo E (l1 ++ l2) -> topo E l1.
Proof.
  intros Ht k1 x k2 -> s Hs. apply (Ht k1 x (k2 ++ l2)); [|done].
  by rewrite <- app_assoc.
Qed.

Lemma tc_first {A} (R : relation A) x y : tc R x y -> exists m, R x m.
Proof. inversion 1; eauto. Qed.

Lemma tc_last {A} (R : relation A) x y : tc R x y -> exists m, R m y.
Proof. induction 1; eauto. Qed.

Lemma topo_tc_before E l s t :
  topo E l -> tc (edge_rel E) s t -> forall l1 l2, l = l1 ++ t :: l2 -> s ∈ l1.
Proof.
  intros Ht. revert t. apply (tc_ind_r (fun t => forall l1 l2, l = l1 ++ t :: l2 -> s ∈ l1));
    [intros t Hst|intros m t _ Hmt IH]; intros l1 l2 Heq.
  - by eapply Ht.
  - destruct (list_elem_of_split l1 m (Ht _ _ _ Heq _ Hmt)) as (k1 & k2 & ->).
    apply elem_of_app. left. apply (IH k1 (k2 ++ t :: l2)).
    rewrite Heq. by rewrite <- app_assoc.
Qed.

(** A node has no edge to itself or to one already taken. *)
Lemma topo_not_succ E taken cur :
  NoDup (taken ++ [cur]) -> topo E (taken ++ [cur]) ->
  forall x, x ∈ taken ++ [cur] -> x ∉ succs E cur.
Proof.
  intros Hnd Ht x Hx Hs%elem_succs.
  assert (Hnot : cur ∉ taken).
  { apply NoDup_app in Hnd as (_ & Hnd & _). intros ?. apply (Hnd cur); set_solver. }
  apply elem_of_app in Hx as [Hx|Hx%list_elem_of_singleton].
  - destruct (list_elem_of_split taken x Hx) as (l1 & l2 & ->). apply Hnot.
    apply elem_of_app. left. apply (Ht l1 x (l2 ++ [cur])); [|done].
    by rewrite <- app_assoc.
  - subst. apply Hnot. by apply (Ht taken cur []).
Qed.

Lemma has_pred_or_not (E : edges) (n : string) : (forall s, (s, n) ∉ E) \/ exists s, (s, n) ∈ E.
Proof.
  destruct (filter (fun e => e.2 = n) E) as [|[s t] F] eqn:HF.
  - left. intros s Hs. assert (Hin : (s, n) ∈ filter (fun e => e.2 = n) E)
      by (apply list_elem_of_filter; done). rewrite HF in Hin. set_solver.
  - right. exists s. assert (Hin : (s, t) ∈ filter (fun e => e.2 = n) E)
      by (rewrite HF; set_solver).
    apply list_elem_of_filter in Hin as [Heq Hin]. cbn in Heq. by subst.
Qed.

(** A duplicate-free topological order of all the nodes rules cycles out. *)
Lemma topo_acyclic nodes E l :
  closed nodes E -> NoDup l -> (forall n, n ∈ nodes -> n ∈ l) -> topo E l -> acyclic E.
Proof.
  intros Hc Hnd Hall Ht x Hx.
  assert (Hin : x ∈ nodes).
  { apply tc_first in Hx as [m H]. exact (proj1 (Hc _ _ H)). }
  destruct (list_elem_of_split l x (Hall _ Hin)) as (l1 & l2 & ->).
  pose proof (topo_tc_before _ _ _ _ Ht Hx l1 l2 eq_refl).
  apply NoDup_app in Hnd as (_ & Hnd & _). apply (Hnd x); set_solver.
Qed.

(** Induction along the edges of an acyclic graph: the relation "is reached
    from" is finite and irreflexive. *)
Lemma acyclic_ind nodes E (P : string -> Prop) :
  closed nodes E -> acyclic E ->
  (forall n, n ∈ nodes -> (forall s, (s, n) ∈ E -> P s) -> P n) ->
  forall n, n ∈ nodes -> P n.
Proof.
  intros Hc Hac Hstep.
  assert (Hflip : forall x y, tc (fun t s => (s, t) ∈ E) x y -> tc (edge_rel E) y x).
  { induction 1 as [x y ?|x y z ? _ IH]; [by apply tc_once|].
    eapply tc_r; [exact IH|done]. }
  assert (Hsn : forall n, sn (fun t s => (s, t) ∈ E) n).
  { intros n. apply tc_finite_sn.
    - intros x Hx. by apply (Hac x), Hflip.
    - exists nodes. intros y Hy%Hflip.
      apply tc_first in Hy as [m H]. exact (proj1 (Hc _ _ H)). }
  intros n. induction (Hsn n) as [n _ IH]. intros Hn.
  apply Hstep; [done|]. intros s Hs. apply IH; [exact Hs|]. exact (proj1 (Hc _ _ Hs)).
Qed.

(** A set of nodes closed under "all my predecessors are in it" is the set of
    all nodes. *)
Lemma acyclic_ready_all nodes E (out : list string) :
  closed nodes E -> acyclic E ->
  (forall n, n ∈ nodes -> (forall s, (s, n) ∈ E -> s ∈ out) -> n ∈ out) ->
  forall n, n ∈ nodes -> n ∈ out.
Proof. apply acyclic_ind. Qed.

(** ** The invariant of the loop *)

Lemma kahn_inv_init nodes E deg :
  dict_wf deg ->
  (forall n, dget deg n = if decide (n ∈ nodes) then Some (indeg E [] n) else None) ->
  kahn_inv nodes E [] (zero_degree deg) deg.
Proof.
  intros Hwf Hdeg. split; cbn.
  - by apply NoDup_zero_degree.
  - intros n. rewrite elem_zero_degree, Hdeg by done. by case_decide.
  - done.
  - intros n Hn. rewrite elem_zero_degree, Hdeg, decide_True by done.
    split; [by intros ->|by intros [= ?]].
  - apply topo_nil.
Qed.

Lemma kahn_inv_relaxable nodes E out cur q deg :
  out_closed nodes E -> kahn_inv nodes E out (cur :: q) deg -> relaxable (succs E cur) deg.
Proof.
  intros Hc [Hnd Hnodes Hdeg _ _] n Hn. exists (indeg E out n). split.
  - rewrite Hdeg, decide_True; [done|]. apply elem_succs in Hn. apply (Hc _ _ Hn), Hnodes. set_solver.
  - apply occ_le_indeg. apply NoDup_app in Hnd as (_ & Hnd & _).
    intros ?. apply (Hnd cur); set_solver.
Qed.

Lemma kahn_inv_step nodes E out cur q deg :
  out_closed nodes E -> kahn_inv nodes E out (cur :: q) deg ->
  kahn_inv nodes E (out ++ [cur]) (q ++ (relax_degrees (succs E cur) deg).2)
    (relax_degrees (succs E cur) deg).1.
Proof.
  intros Hc Hinv. pose proof (kahn_inv_relaxable _ _ _ _ _ _ Hc Hinv) as Hr.
  destruct Hinv as [Hnd Hnodes Hdeg Hready Htopo].
  assert (Hcur : cur ∉ out).
  { apply NoDup_app in Hnd as (_ & Hnd & _). intros ?. apply (Hnd cur); set_solver. }
  assert (Hcn : cur ∈ nodes) by (apply Hnodes; set_solver).
  assert (Hzs : forall n, n ∈ (relax_degrees (succs E cur) deg).2 <->
    n ∈ nodes /\ n ∈ succs E cur /\ indeg E out n = occ n (succs E cur)).
  { intros n. rewrite relax_degrees_zero, Hdeg by done.
    case_decide; split; [intros [? [= ?]]|intros (? & ? & ->)|intros [_ [=]]|intros (? & _)]; done. }
  assert (Hmid : out ++ cur :: q ≡ₚ (out ++ [cur]) ++ q) by (by rewrite <- app_assoc).
  split.
  - rewrite app_assoc. apply NoDup_app. split_and!.
    + by rewrite <- app_assoc.
    + intros n Hn (? & Hin%occ_pos & Heq)%Hzs.
      assert (n ∈ out ++ cur :: q) as Hin' by (by rewrite Hmid).
      apply (proj2 (Hready n ltac:(done))) in Hin'. lia.
    + by apply relax_degrees_NoDup.
  - intros n. rewrite app_assoc, elem_of_app, <- Hmid.
    intros [?|(? & _)%Hzs]; [by apply Hnodes|done].
  - intros n. rewrite relax_degrees_get, Hdeg by done. case_decide; cbn; [|done].
    by rewrite indeg_snoc_out.
  - intros n Hn. rewrite app_assoc, elem_of_app, <- Hmid, indeg_snoc_out by done.
    pose proof (occ_le_indeg E out cur n Hcur). pose proof (occ_pos n (succs E cur)).
    pose proof (occ_nonneg n (succs E cur)). rewrite <- Hready by done.
    rewrite Hzs. destruct (decide (n ∈ succs E cur)); split.
    + intros ?. right. split_and!; [done..|lia].
    + intros [?|(? & ? & ?)]; lia.
    + intros ?. left. assert (~ 0 < occ n (succs E cur)) by naive_solver. lia.
    + intros [?|(? & ? & ?)]; lia.
  - apply topo_snoc; [done|]. apply indeg_zero, Hready; set_solver.
Qed.

Lemma kahn_inv_acyclic nodes E out deg :
  NoDup nodes -> closed nodes E -> kahn_inv nodes E out [] deg ->
  length out = length nodes <-> acyclic E.
Proof.
  intros Hnn Hc [Hnd Hnodes _ Hready Htopo]. rewrite app_nil_r in *. split.
  - intros Hlen. eapply topo_acyclic; [done| |..]; [done| |done].
    intros n. by apply NoDup_same_length.
  - intros Hac.
    assert (Hall : forall n, n ∈ nodes -> n ∈ out).
    { apply (acyclic_ready_all nodes E); [done..|]. intros n Hn Hs.
      apply Hready; [done|]. by apply indeg_zero. }
    apply NoDup_subset_length in Hnodes; [|done].
    apply NoDup_subset_length in Hall; [|done]. lia.
Qed.

(** ** The loop, for any accumulator *)

Section kahn_loop_spec.
Context {A : Type} (visit : string -> A -> A) (hook : string -> string -> A -> res A).
Context (adj : string -> res (list string)) (nodes : list string) (E : edges).
Hypothesis Hclosed : out_closed nodes E.
Hypothesis Hadj : forall n, n ∈ nodes -> adj n = Ok (succs E n).

(** The nodes taken and the final degrees do not depend on the accumulator,
    and fuel equal to the number of nodes is never exhausted. *)
Lemma kahn_loop_spec fuel out q deg a :
  kahn_inv nodes E out q deg -> (length nodes <= length out + fuel)%nat ->
  exists rest deg', kahn_inv nodes E (out ++ rest) [] deg' /\
    dkeys deg' = dkeys deg /\
    kahn_loop visit hook adj fuel deg q a
      = (a' <-? replay visit hook (succs E) rest a ;; Ok (deg', a')).
Proof.
  revert out q deg a. induction fuel as [|fuel IH]; intros out q deg a Hinv Hfuel.
  all: destruct q as [|cur q].
  1, 3: exists [], deg; rewrite app_nil_r; done.
  - destruct Hinv as [Hnd Hnodes _ _ _].
    apply NoDup_subset_length in Hnodes; [|done].
    rewrite length_app in Hnodes. cbn in *. lia.
  - pose proof (kahn_inv_relaxable _ _ _ _ _ _ Hclosed Hinv) as Hr.
    pose proof (kahn_inv_step _ _ _ _ _ _ Hclosed Hinv) as Hinv'.
    assert (Hcur : cur ∈ nodes) by (apply (ki_nodes _ _ _ _ _ Hinv); set_solver).
    assert (Hf : (length nodes <= length (out ++ [cur]) + fuel)%nat)
      by (rewrite length_app; cbn; lia).
    set (r := relax_degrees (succs E cur) deg) in *.
    assert (Hrun : kahn_loop visit hook adj (S fuel) deg (cur :: q) a =
      (a' <-? replay_node visit hook (succs E) a cur ;;
       kahn_loop visit hook adj fuel r.1 (q ++ r.2) a')).
    { cbn [kahn_loop]. rewrite Hadj by done. cbn [res_bind].
      rewrite kahn_relax_degrees by done. unfold replay_node.
      by destruct (res_fold _ _ _). }
    rewrite Hrun. unfold replay. cbn [res_fold].
    destruct (replay_node visit hook (succs E) a cur) as [a'|e] eqn:Ha.
    + destruct (IH _ _ _ a' Hinv' Hf) as (rest & deg' & Hi & Hk & Hl).
      exists (cur :: rest), deg'. split_and!.
      * by rewrite <- app_assoc in Hi.
      * rewrite Hk. apply relax_degrees_dkeys.
      * cbn [res_bind res_fold]. rewrite Hl. by rewrite Ha.
    + destruct (IH _ _ _ a Hinv' Hf) as (rest & deg' & Hi & Hk & _).
      exists (cur :: rest), deg'. split_and!.
      * by rewrite <- app_assoc in Hi.
      * rewrite Hk. apply relax_degrees_dkeys.
      * cbn [res_bind res_fold]. by rewrite Ha.
Qed.
End kahn_loop_spec.

(** The whole run, from the dictionaries the code builds. *)
Lemma kahn_run_spec {A} (visit : string -> A -> A) hook nodes es a
    (adj : string -> res (list string)) :
  NoDup nodes ->
  (forall n, n ∈ nodes -> adj n = Ok (succs (eff_edges nodes es) n)) ->
  exists order deg', kahn_inv nodes (eff_edges nodes es) order [] deg' /\
    dkeys deg' = nodes /\
    kahn_loop visit hook adj (length nodes) (kahn_build nodes es).2
        (zero_degree (kahn_build nodes es).2) a
      = (a' <-? replay visit hook (succs (eff_edges nodes es)) order a ;; Ok (deg', a')).
Proof.
  intros Hnd Hadj.
  assert (Hwf : dict_wf (kahn_build nodes es).2) by (unfold dict_wf; by rewrite dkeys_kahn_build).
  pose proof (kahn_inv_init nodes (eff_edges nodes es) _ Hwf (proj2 (kahn_build_spec nodes es)))
    as Hinit.
  destruct (kahn_loop_spec visit hook adj nodes (eff_edges nodes es)
    (closed_out _ _ (eff_edges_closed _ _)) Hadj (length nodes) [] _ _ a Hinit) as (rest & deg' & ? & ? & ?).
  { cbn. lia. }
  exists rest, deg'. split_and!; [done| |done].
  by rewrite dkeys_kahn_build in *.
Qed.

Lemma kahn_build_adj nodes es n :
  n ∈ nodes ->
  dlookup (kahn_build nodes es).1 n = Ok (succs (eff_edges nodes es) n).
Proof.
  intros. apply dlookup_Some. rewrite (proj1 (kahn_build_spec nodes es)).
  by rewrite decide_True.
Qed.

(** ** The accumulators the routines use *)

Lemma replay_no_hook {A} (visit : string -> A -> A) succ l a :
  replay visit (fun _ _ a => Ok a) succ l a = Ok (fold_left (fun a c => visit c a) l a).
Proof.
  unfold replay, replay_node. revert a. induction l as [|c l IH]; intros a; cbn; [done|].
  assert (Hin : forall (ns : list string) (b : A), res_fold (fun a _ => Ok a) ns b = Ok b).
  { induction ns; intros; cbn; [done|]. apply IHns. }
  rewrite Hin. cbn. apply IH.
Qed.

Lemma fold_count l z : fold_left (fun a (_ : string) => a + 1) l z = z + Z.of_nat (length l).
Proof. revert z. induction l as [|x l IH]; intros z; cbn; [lia|]. rewrite IH. lia. Qed.

Lemma fold_snoc (l acc : list string) : fold_left (fun a c => a ++ [c]) l acc = acc ++ l.
Proof.
  revert acc. induction l as [|x l IH]; intros acc; cbn; [by rewrite app_nil_r|].
  rewrite IH. by rewrite <- app_assoc.
Qed.

(** ** Levels *)

Lemma kahn_inv_queue nodes E out q q' deg : q ≡ₚ q' -> kahn_inv nodes E out q deg -> kahn_inv nodes E out q' deg.
Proof.
  intros Hq [Hnd Hn Hd Hr Ht]. split; [by rewrite <- Hq| |done| |done].
  - intros n. rewrite <- Hq. apply Hn.
  - intros n Hin. rewrite <- Hq. by apply Hr.
Qed.

Lemma dinit_fold {V} ids (v : V) : NoDup ids -> fold_left (fun d n => dset d n v) ids [] = dinit ids v.
Proof.
  intros Hnd. induction ids as [|x ids IH] using rev_ind; [done|].
  apply NoDup_app in Hnd as (Hnd & Hx & _). rewrite fold_left_app, (IH Hnd). cbn.
  rewrite dkeys_dset_new.
  - unfold dinit. by rewrite map_app.
  - rewrite dkeys_dinit. intros Hin. apply (Hx x Hin). set_solver.
Qed.

Section levels.
Context (E : edges).

(** Groups of nodes: each one is sorted, the predecessors of a node are in
    earlier groups, and one of them in the group just before. *)
Record layered (gs : list (list string)) : Prop := Layered {
  ly_group : forall k g, gs !! k = Some g -> g <> [] /\ StronglySorted String.le g;
  ly_before : forall k g n, gs !! k = Some g -> n ∈ g ->
    forall s, (s, n) ∈ E -> exists j g', (j < k)%nat /\ gs !! j = Some g' /\ s ∈ g';
  ly_after : forall k g n, gs !! S k = Some g -> n ∈ g -> exists g' s, gs !! k = Some g' /\ s ∈ g' /\ (s, n) ∈ E
}.

Lemma layered_snoc gs g :
  layered gs -> g <> [] -> StronglySorted String.le g ->
  (forall n s, n ∈ g -> (s, n) ∈ E -> s ∈ concat gs) ->
  (forall n, n ∈ g -> gs = [] \/ exists g' s, last gs = Some g' /\ s ∈ g' /\ (s, n) ∈ E) ->
  layered (gs ++ [g]).
Proof.
  intros [Hg Hb Ha] Hne Hsort Hpred Hlast.
  assert (Hcase : forall k x, (gs ++ [g]) !! k = Some x ->
    gs !! k = Some x \/ k = length gs /\ x = g) by (intros k x [|[? ?]]%lookup_snoc_Some; naive_solver).
  split.
  - intros k x [Hk|[-> ->]]%Hcase; [by apply (Hg k)|done].
  - intros k x n [Hk|[-> ->]]%Hcase Hn s He.
    + destruct (Hb k x n Hk Hn s He) as (j & g' & Hj & Hl & Hs). exists j, g'. split_and!; [done| |done].
      by apply lookup_app_l_Some.
    + pose proof (Hpred n s Hn He) as Hs. apply list_elem_of_In, in_concat in Hs as (g' & Hg' & Hs).
      apply list_elem_of_In in Hg', Hs. apply list_elem_of_lookup in Hg' as [j Hj]. exists j, g'. split_and!; [by eapply lookup_lt_Some| |done].
      by apply lookup_app_l_Some.
  - intros k x n [Hk|[Hk ->]]%Hcase Hn.
    + destruct (Ha k x n Hk Hn) as (g' & s & Hl & ?). exists g', s. split; [by apply lookup_app_l_Some|done].
    + destruct (Hlast n Hn) as [->|(g' & s & Hl & ?)]; [done|]. exists g', s. split; [|done].
      apply lookup_app_l_Some. rewrite last_lookup, <- Hk in Hl. exact Hl.
Qed.
End levels.
