(* ===== verification/ExecutionGraph.v ===== *)
(** * The agent execution graph ([backend/agent/execution_graph.py])

    Data, [ExecutionGraphValidator], [ExecutionGraph] with its execution plan
    and its serialisation, and their correctness: the cycle check decides
    acyclicity, the sort is topological, the levels are the longest-path
    layers, and every operation keeps the graph a DAG over its own nodes.

    The lock serialises whole operations, so an operation is a function on the
    object's state.  Nodes and edges are frozen; their [metadata] dictionaries
    are never written by this module. *)
From stdpp Require Import base gmap strings list sets relations.
From Stdlib Require Import ZArith Lia.
From S2P Require Import Prelude.
From S2P Require Import Kahn.

(** ** Data *)

Module NodeStatus.
Inductive t := PENDING | READY | RUNNING | COMPLETED | FAILED | SKIPPED.
#[global] Instance eq_dec : EqDecision t.
Proof. solve_decision. Defined.

Definition value (s : t) : string :=
  match s with
  | PENDING => "pending"
  | READY => "ready"
  | RUNNING => "running"
  | COMPLETED => "completed"
  | FAILED => "failed"
  | SKIPPED => "skipped"
  end.
Definition all : list t := [PENDING; READY; RUNNING; COMPLETED; FAILED; SKIPPED].
(** [NodeStatus(s)]; [None] for the [ValueError]. *)
Definition of_value (s : string) : option t :=
  List.find (fun x => bool_decide (value x = s)) all.
End NodeStatus.

Module NodeType.
Inductive t := TASK | DECISION | PARALLEL | SUBGRAPH | OBSERVER.
#[global] Instance eq_dec : EqDecision t.
Proof. solve_decision. Defined.

Definition value (s : t) : string :=
  match s with
  | TASK => "task"
  | DECISION => "decision"
  | PARALLEL => "parallel"
  | SUBGRAPH => "subgraph"
  | OBSERVER => "observer"
  end.
Definition all : list t := [TASK; DECISION; PARALLEL; SUBGRAPH; OBSERVER].
Definition of_value (s : string) : option t :=
  List.find (fun x => bool_decide (value x = s)) all.
End NodeType.

(** [NodeType | str] and [NodeStatus | str]; both enumerations are [str]
    subclasses, so comparison goes through the string. *)
Inductive node_type := TypeEnum (t : NodeType.t) | TypeStr (s : string).
Inductive node_status := StatusEnum (s : NodeStatus.t) | StatusStr (s : string).

Definition type_str (t : node_type) : string :=
  match t with TypeEnum t => NodeType.value t | TypeStr s => s end.
Definition status_str (t : node_status) : string :=
  match t with StatusEnum s => NodeStatus.value s | StatusStr s => s end.

Record AgentNode := mkNode {
  node_id : string;
  node_name : string;
  node_ty : node_type;
  node_st : node_status;
  node_cap : string;
  node_meta : pydict pyval
}.

Record AgentEdge := mkEdge {
  edge_source : string;
  edge_target : string;
  edge_condition : string;
  edge_meta : pydict pyval
}.

Definition pair_of (e : AgentEdge) : string * string := (edge_source e, edge_target e).
Definition pairs (es : list AgentEdge) : list (string * string) := map pair_of es.

(** ** ExecutionGraphValidator *)

Definition cycle_msg (cycled : list string) : message :=
  Msg "Cycle detected involving nodes: {}" cycled.

(** The accumulator is [visited]. *)
Definition detect_cycles (nodes : pydict AgentNode) (es : list AgentEdge)
    : res (list message) :=
  let b := kahn_build (dkeys nodes) (pairs es) in
  r <-? kahn_loop (fun _ visited => visited + 1) (fun _ _ a => Ok a) (dlookup b.1)
          (length nodes) b.2 (zero_degree b.2) 0 ;;
  let '(in_degree, visited) := r in
  if visited =? Z.of_nat (length nodes) then Ok []
  else Ok [cycle_msg (map fst (filter (fun p => 0 < p.2) in_degree))].

Definition reference_errors (nodes : pydict AgentNode) (e : AgentEdge) : list message :=
  (if dmem nodes (edge_source e) then []
   else [Msg "Edge source '{}' does not exist." [edge_source e]]) ++
  (if dmem nodes (edge_target e) then []
   else [Msg "Edge target '{}' does not exist." [edge_target e]]).

Definition check_invalid_references (nodes : pydict AgentNode) (es : list AgentEdge)
    : list message :=
  flat_map (reference_errors nodes) es.

Definition check_orphan_nodes (nodes : pydict AgentNode) (es : list AgentEdge)
    : list message :=
  if decide (length nodes <= 1)%nat then []
  else match es with
       | [] => []
       | _ =>
           let connected := map edge_target es ++ map edge_source es in
           let orphans := filter (fun nid => nid ∉ connected) (dkeys nodes) in
           match orphans with
           | [] => []
           | _ => [Msg "Orphan node(s): {}" orphans]
           end
       end.

Definition validate_graph (nodes : pydict AgentNode) (es : list AgentEdge)
    : res (list message) :=
  cycles <-? detect_cycles nodes es ;;
  Ok (check_invalid_references nodes es ++ cycles ++ check_orphan_nodes nodes es).

(** ** ExecutionGraph *)

Record ExecutionGraph := mkGraph {
  g_nodes : pydict AgentNode;
  g_edges : list AgentEdge
}.

Definition empty_graph : ExecutionGraph := mkGraph [] [].

(** [__init__]: the initial nodes and edges are taken without any check. *)
Definition init_graph (nodes : list AgentNode) (es : list AgentEdge) : ExecutionGraph :=
  mkGraph (fold_left (fun d n => dset d (node_id n) n) nodes []) es.

Definition no_node (nid : string) : exn :=
  Exn ExecutionGraphError [Msg "Node '{}' does not exist." [nid]].

Definition add_node (n : AgentNode) : M ExecutionGraph unit :=
  g <- get ;;
  if dmem (g_nodes g) (node_id n)
  then raise (Exn ExecutionGraphError [Msg "Node '{}' already exists." [node_id n]])
  else put (mkGraph (dset (g_nodes g) (node_id n) n) (g_edges g)).

Definition remove_node (nid : string) : M ExecutionGraph unit :=
  g <- get ;;
  if dmem (g_nodes g) nid then
    put (mkGraph (ddel (g_nodes g) nid)
           (filter (fun e => edge_source e <> nid /\ edge_target e <> nid) (g_edges g)))
  else raise (no_node nid).

Definition get_node (g : ExecutionGraph) (nid : string) : res AgentNode :=
  match dget (g_nodes g) nid with
  | Some n => Ok n
  | None => Err (no_node nid)
  end.

Definition list_nodes (g : ExecutionGraph) : list AgentNode := dvalues (g_nodes g).
Definition list_edges (g : ExecutionGraph) : list AgentEdge := g_edges g.

Definition add_edge (e : AgentEdge) : M ExecutionGraph unit :=
  g <- get ;;
  let test_edges := g_edges g ++ [e] in
  match check_invalid_references (g_nodes g) test_edges with
  | [] =>
      cycle_errors <- lift (detect_cycles (g_nodes g) test_edges) ;;
      match cycle_errors with
      | [] => put (mkGraph (g_nodes g) test_edges)
      | errs => raise (Exn CycleError errs)
      end
  | errs => raise (Exn ExecutionGraphError errs)
  end.

Fixpoint remove_first_edge (source target : string) (es : list AgentEdge)
    : option (list AgentEdge) :=
  match es with
  | [] => None
  | e :: es' =>
      if decide (edge_source e = source /\ edge_target e = target) then Some es'
      else cons e <$> remove_first_edge source target es'
  end.

Definition remove_edge (source target : string) : M ExecutionGraph unit :=
  g <- get ;;
  match remove_first_edge source target (g_edges g) with
  | Some es => put (mkGraph (g_nodes g) es)
  | None => raise (Exn ExecutionGraphError
                     [Msg "Edge '{} → {}' does not exist." [source; target]])
  end.

Definition get_roots (g : ExecutionGraph) : list AgentNode :=
  filter (fun n => node_id n ∉ map edge_target (g_edges g)) (dvalues (g_nodes g)).

Definition get_leaves (g : ExecutionGraph) : list AgentNode :=
  filter (fun n => node_id n ∉ map edge_source (g_edges g)) (dvalues (g_nodes g)).

Definition graph_cycle : exn :=
  Exn CycleError [Msg "Graph contains a cycle — topological sort is not possible." []].

(** The accumulator is [sorted_ids]. *)
Definition topological_sort (g : ExecutionGraph) : res (list AgentNode) :=
  let b := kahn_build (dkeys (g_nodes g)) (pairs (g_edges g)) in
  r <-? kahn_loop (fun cur sorted_ids => sorted_ids ++ [cur]) (fun _ _ a => Ok a)
          (dlookup b.1) (length (g_nodes g)) b.2 (zero_degree b.2) [] ;;
  if decide (length r.2 = length (g_nodes g))
  then res_fold (fun acc nid => n <-? dlookup (g_nodes g) nid ;; Ok (acc ++ [n])) r.2 []
  else Err graph_cycle.

Definition graph_validate (g : ExecutionGraph) : res (list message) :=
  validate_graph (g_nodes g) (g_edges g).

(** ** The execution plan *)

Record plan_stats := mkPlanStats {
  node_count : nat;
  edge_count : nat;
  level_count : nat;
  root_count : nat;
  leaf_count : nat
}.

Record GraphExecutionPlan := mkPlan {
  execution_order : list string;
  levels : list (gset string);
  dependencies : pydict (list string);
  stats : plan_stats
}.

(** [deps[edge.target].append(edge.source)] *)
Definition deps_add (deps : pydict (list string)) (e : string * string)
    : res (pydict (list string)) :=
  ss <-? dlookup deps e.2 ;; Ok (dset deps e.2 (ss ++ [e.1])).

(** [adj] is a [defaultdict(list)] here, and only the source is tested. *)
Definition level_add_edge (st : pydict (list string) * pydict Z) (e : string * string)
    : res (pydict (list string) * pydict Z) :=
  if dmem st.2 e.1 then
    d <-? dlookup st.2 e.2 ;;
    Ok (dset st.1 e.1 (default [] (dget st.1 e.1) ++ [e.2]), dset st.2 e.2 (d + 1))
  else Ok st.

(** [level_of[n] = max(level_of.get(n, 0), level_of[cur] + 1)] *)
Definition level_hook (cur n : string) (level_of : pydict Z) : res (pydict Z) :=
  l <-? dlookup level_of cur ;;
  Ok (dset level_of n (Z.max (default 0 (dget level_of n)) (l + 1))).

Definition compute_levels (ids : list string) (es : list (string * string))
    : res (pydict Z) :=
  st <-? res_fold level_add_edge es ([], dinit ids 0) ;;
  let queue := zero_degree st.2 in
  let level_of := fold_left (fun d nid => dset d nid 0) queue [] in
  r <-? kahn_loop (fun _ a => a) level_hook (fun c => Ok (default [] (dget st.1 c)))
          (length ids) st.2 queue level_of ;;
  Ok r.2.

Definition nodes_at (level_of : pydict Z) (lvl : Z) : gset string :=
  list_to_set (map fst (filter (fun p => p.2 = lvl) level_of)).

(** [max(level_of.values()) if level_of else 0] *)
Definition max_level (level_of : pydict Z) : Z :=
  match dvalues level_of with
  | [] => 0
  | v :: vs => fold_left Z.max vs v
  end.

Definition group_levels (level_of : pydict Z) : list (gset string) :=
  filter (fun s => s <> ∅)
    (map (fun i => nodes_at level_of (Z.of_nat i)) (seq 0 (Z.to_nat (max_level level_of + 1)))).

Definition generate_plan (g : ExecutionGraph) : res GraphExecutionPlan :=
  errors <-? graph_validate g ;;
  match errors with
  | _ :: _ => Err (Exn ValidationError errors)
  | [] =>
      let ids := dkeys (g_nodes g) in
      sorted_nodes <-? topological_sort g ;;
      deps <-? res_fold deps_add (pairs (g_edges g)) (dinit ids []) ;;
      level_of <-? compute_levels ids (pairs (g_edges g)) ;;
      let lvls := group_levels level_of in
      Ok (mkPlan (map node_id sorted_nodes) lvls
            (map (fun nid => (nid, default [] (dget deps nid))) ids)
            (mkPlanStats (length (g_nodes g)) (length (g_edges g)) (length lvls)
               (length (get_roots g)) (length (get_leaves g))))
  end.

(** ** Serialisation

    [to_dict] and [from_dict] exchange dictionaries of known keys: a record
    per dictionary, an absent key being [None]. *)

Record node_data := mkNodeData {
  nd_id : option string;
  nd_name : option string;
  nd_type : option string;
  nd_status : option string;
  nd_cap : option string;
  nd_meta : option (pydict pyval)
}.

Record edge_data := mkEdgeData {
  ed_source : option string;
  ed_target : option string;
  ed_condition : option string;
  ed_meta : option (pydict pyval)
}.

Record graph_data := mkGraphData {
  gd_nodes : option (list node_data);
  gd_edges : option (list edge_data)
}.

Definition node_to_dict (n : AgentNode) : node_data :=
  mkNodeData (Some (node_id n)) (Some (node_name n)) (Some (type_str (node_ty n)))
    (Some (status_str (node_st n))) (Some (node_cap n)) (Some (node_meta n)).

Definition edge_to_dict (e : AgentEdge) : edge_data :=
  mkEdgeData (Some (edge_source e)) (Some (edge_target e)) (Some (edge_condition e))
    (Some (edge_meta e)).

Definition to_dict (g : ExecutionGraph) : graph_data :=
  mkGraphData (Some (map node_to_dict (dvalues (g_nodes g))))
    (Some (map edge_to_dict (g_edges g))).

(** [try: NodeType(x) except ValueError: pass] *)
Definition parse_type (s : string) : node_type :=
  match NodeType.of_value s with Some t => TypeEnum t | None => TypeStr s end.
Definition parse_status (s : string) : node_status :=
  match NodeStatus.of_value s with Some t => StatusEnum t | None => StatusStr s end.

(** [d[k]] on such a dictionary. *)
Definition required {A} (k : string) (o : option A) : res A :=
  match o with Some a => Ok a | None => Err (Exn KeyError [Msg "{}" [k]]) end.

Definition node_of_dict (nd : node_data) : res AgentNode :=
  i <-? required "id" (nd_id nd) ;;
  Ok (mkNode i (default i (nd_name nd)) (parse_type (default "task" (nd_type nd)))
        (parse_status (default "pending" (nd_status nd)))
        (default "chat" (nd_cap nd)) (default [] (nd_meta nd))).

Definition edge_of_dict (ed : edge_data) : res AgentEdge :=
  s <-? required "source" (ed_source ed) ;;
  t <-? required "target" (ed_target ed) ;;
  Ok (mkEdge s t (default "" (ed_condition ed)) (default [] (ed_meta ed))).

Definition from_dict (data : graph_data) : res ExecutionGraph :=
  nodes <-? res_map node_of_dict (default [] (gd_nodes data)) ;;
  es <-? res_map edge_of_dict (default [] (gd_edges data)) ;;
  Ok (init_graph nodes es).

(** * Properties *)

(** ** Enumerations *)

Lemma NodeType_of_value_value t : NodeType.of_value (NodeType.value t) = Some t.
Proof. by destruct t. Qed.

Lemma NodeType_of_value_Some s t : NodeType.of_value s = Some t -> NodeType.value t = s.
Proof.
  intros H. apply List.find_some in H as [_ H]. by apply bool_decide_eq_true in H.
Qed.

Lemma NodeStatus_of_value_value t : NodeStatus.of_value (NodeStatus.value t) = Some t.
Proof. by destruct t. Qed.

Lemma NodeStatus_of_value_Some s t : NodeStatus.of_value s = Some t -> NodeStatus.value t = s.
Proof.
  intros H. apply List.find_some in H as [_ H]. by apply bool_decide_eq_true in H.
Qed.

(** ** The cycle check *)

(** The edges both of whose ends are nodes: those the cycle check sees. *)
Definition real_edges (nodes : pydict AgentNode) (es : list AgentEdge)
    : list (string * string) := eff_edges (dkeys nodes) (pairs es).

Lemma on_cycle_not_sorted E l x :
  NoDup l -> topo E l -> tc (edge_rel E) x x -> x ∉ l.
Proof.
  intros Hnd Ht Hx Hin. destruct (list_elem_of_split l x Hin) as (l1 & l2 & ->).
  pose proof (topo_tc_before _ _ _ _ Ht Hx l1 l2 eq_refl).
  apply NoDup_app in Hnd as (_ & Hnd & _). apply (Hnd x); set_solver.
Qed.

Lemma detect_cycles_spec nodes es :
  dict_wf nodes ->
  exists errs, detect_cycles nodes es = Ok errs /\
    (errs = [] <-> acyclic (real_edges nodes es)) /\
    (forall x, x ∈ dkeys nodes -> tc (edge_rel (real_edges nodes es)) x x ->
      exists cycled, errs = [cycle_msg cycled] /\ x ∈ cycled).
Proof.
  intros Hwf.
  destruct (kahn_run_spec (fun _ visited => visited + 1) (fun _ _ a => Ok a)
    (dkeys nodes) (pairs es) 0 _ Hwf (kahn_build_adj _ _)) as (order & deg' & Hinv & Hk & Hrun).
  pose proof (kahn_inv_acyclic _ _ _ _ Hwf (eff_edges_closed _ _) Hinv) as Hac.
  rewrite replay_no_hook, fold_count, Z.add_0_l in Hrun. cbn in Hrun.
  unfold detect_cycles. rewrite dkeys_length in Hrun. rewrite Hrun. cbn.
  fold (real_edges nodes es) in *. rewrite dkeys_length in Hac.
  destruct (Z.eqb_spec (Z.of_nat (length order)) (Z.of_nat (length nodes))) as [Heq|Hne].
  - exists []. apply Nat2Z.inj in Heq. apply Hac in Heq. split_and!; [done| |].
    + by split.
    + intros x _ Hx. by apply Heq in Hx.
  - eexists. split; [done|]. split.
    + split; [done|]. intros H%Hac. congruence.
    + intros x Hx Hcyc. eexists. split; [done|].
      destruct Hinv as [Hnd Hnodes Hdeg Hready Htopo]. rewrite app_nil_r in *.
      pose proof (on_cycle_not_sorted _ _ _ Hnd Htopo Hcyc) as Hnot.
      specialize (Hdeg x). rewrite decide_True in Hdeg by done.
      apply dget_Some_elem in Hdeg. apply list_elem_of_fmap. eexists (_, _).
      split; [done|]. apply list_elem_of_filter. split; [|exact Hdeg]. cbn.
      pose proof (indeg_nonneg (real_edges nodes es) order x).
      cut (indeg (real_edges nodes es) order x <> 0); [lia|].
      intros H0. apply Hready in H0; [|done]. done.
Qed.

(** ** Invalid references *)

Lemma check_invalid_references_nil nodes es :
  check_invalid_references nodes es = [] <-> closed (dkeys nodes) (pairs es).
Proof.
  induction es as [|e es IH].
  { split; [|done]. intros _ s t. cbn. set_solver. }
  change (check_invalid_references nodes (e :: es))
    with (reference_errors nodes e ++ check_invalid_references nodes es).
  change (pairs (e :: es)) with (pair_of e :: pairs es).
  assert (Hone : reference_errors nodes e = [] <->
    edge_source e ∈ dkeys nodes /\ edge_target e ∈ dkeys nodes).
  { unfold reference_errors. rewrite <- !dmem_true.
    destruct (dmem nodes (edge_source e)), (dmem nodes (edge_target e)); cbn;
      intuition congruence. }
  split.
  - intros [H1 H2]%app_nil. rewrite Hone in H1. rewrite IH in H2.
    intros s t [Heq|Hin]%elem_of_cons; [|by apply H2].
    unfold pair_of in Heq. by simplify_eq.
  - intros Hc. rewrite (proj2 Hone), (proj2 IH); [done|..].
    + intros s t Hin. apply Hc. set_solver.
    + apply (Hc (edge_source e) (edge_target e)). set_solver.
Qed.

(** ** The invariant of a graph built by its operations *)

Record graph_inv (g : ExecutionGraph) : Prop := GraphInv {
  gi_wf : dict_wf (g_nodes g);
  gi_ids : forall k n, dget (g_nodes g) k = Some n -> node_id n = k;
  gi_refs : closed (dkeys (g_nodes g)) (pairs (g_edges g));
  gi_acyclic : acyclic (pairs (g_edges g))
}.

Lemma real_edges_closed nodes es :
  closed (dkeys nodes) (pairs es) -> real_edges nodes es = pairs es.
Proof. apply eff_edges_all. Qed.

Lemma acyclic_mono E E' :
  (forall e, e ∈ E' -> e ∈ E) -> acyclic E -> acyclic E'.
Proof.
  intros Hsub Hac x Hx. apply (Hac x). revert Hx. generalize x at 1 3.
  intros y. induction 1 as [y z H|y m z H _ IH]; [apply tc_once|eapply tc_l; [|exact IH]];
    by apply Hsub.
Qed.

Lemma pairs_snoc es e : pairs (es ++ [e]) = pairs es ++ [pair_of e].
Proof. apply map_app. Qed.

Lemma elem_pairs es s t :
  (s, t) ∈ pairs es <-> exists e, e ∈ es /\ edge_source e = s /\ edge_target e = t.
Proof.
  unfold pairs. rewrite list_elem_of_fmap. unfold pair_of. naive_solver.
Qed.

Lemma graph_inv_empty : graph_inv empty_graph.
Proof.
  split; cbn; [constructor|done|..].
  - intros s t. set_solver.
  - intros x [y Hy]%tc_first. unfold edge_rel in Hy. cbn in Hy. set_solver.
Qed.

Lemma closed_app nodes E E' : closed nodes (E ++ E') <-> closed nodes E /\ closed nodes E'.
Proof.
  split.
  - intros H. split; intros s t ?; apply H; set_solver.
  - intros [H1 H2] s t [?|?]%elem_of_app; auto.
Qed.

Lemma closed_single nodes s t : closed nodes [(s, t)] <-> s ∈ nodes /\ t ∈ nodes.
Proof.
  split; [intros H; apply H; set_solver|].
  intros ? s' t' ?%list_elem_of_singleton. by simplify_eq.
Qed.

(** A cycle that an added edge closes goes through that edge. *)
Lemma tc_add_edge E s t x y :
  tc (edge_rel (E ++ [(s, t)])) x y ->
  tc (edge_rel E) x y \/ (rtc (edge_rel E) x s /\ rtc (edge_rel E) t y).
Proof.
  assert (Hstep : forall a b, edge_rel (E ++ [(s, t)]) a b ->
    edge_rel E a b \/ (a = s /\ b = t)).
  { intros a b [?|Hin%list_elem_of_singleton]%elem_of_app; [by left|].
    right. by simplify_eq. }
  induction 1 as [x y [?|[-> ->]]%Hstep|x m y [Hxm|[-> ->]]%Hstep _ IH].
  - left. by apply tc_once.
  - right. by split.
  - destruct IH as [?|[? ?]].
    + left. by eapply tc_l.
    + right. split; [by eapply rtc_l|done].
  - right. split; [done|]. destruct IH as [?|[? ?]]; [by apply tc_rtc|done].
Qed.

Lemma acyclic_add_edge E s t :
  acyclic E -> acyclic (E ++ [(s, t)]) <-> ~ rtc (edge_rel E) t s.
Proof.
  intros Hac. split.
  - intros Hac' Hts. apply (Hac' s).
    assert (Hmono : forall a b, rtc (edge_rel E) a b -> rtc (edge_rel (E ++ [(s, t)])) a b).
    { induction 1 as [|a b c ? _ IH]; [done|]. eapply rtc_l; [|exact IH].
      apply elem_of_app. by left. }
    eapply tc_rtc_r; [|by apply Hmono]. apply tc_once, elem_of_app. right. set_solver.
  - intros Hnot x [?|[Hxs Htx]]%tc_add_edge; [by apply (Hac x)|].
    apply Hnot. by etrans.
Qed.

(** ** Operations *)

Lemma reference_errors_nil nodes e :
  closed (dkeys nodes) [pair_of e] <-> reference_errors nodes e = [].
Proof.
  rewrite <- (check_invalid_references_nil nodes [e]). unfold check_invalid_references. cbn.
  by rewrite app_nil_r.
Qed.

Lemma check_invalid_references_app nodes es e :
  closed (dkeys nodes) (pairs es) ->
  check_invalid_references nodes (es ++ [e]) = reference_errors nodes e.
Proof.
  intros Hc%check_invalid_references_nil. unfold check_invalid_references in *.
  rewrite flat_map_app, Hc. cbn. by rewrite app_nil_r.
Qed.

Definition insert_edge (e : AgentEdge) (g : ExecutionGraph) : ExecutionGraph :=
  mkGraph (g_nodes g) (g_edges g ++ [e]).

(** The three outcomes of [add_edge], on a graph that satisfies the invariant. *)
Lemma add_edge_cases g e :
  graph_inv g ->
  let ends := edge_source e ∈ dkeys (g_nodes g) /\ edge_target e ∈ dkeys (g_nodes g) in
  let back := rtc (edge_rel (pairs (g_edges g))) (edge_target e) (edge_source e) in
  match add_edge e g with
  | (Ok _, g') => ends /\ ~ back /\ g' = insert_edge e g
  | (Err ex, g') =>
      g' = g /\
      ((exn_cls ex = ExecutionGraphError /\ ~ ends
        /\ exn_msgs ex = reference_errors (g_nodes g) e)
       \/ (exn_cls ex = CycleError /\ ends /\ ~ ~ back))
  end.
Proof.
  intros [Hwf Hids Hrefs Hac] ends back.
  assert (Hends : ends <-> reference_errors (g_nodes g) e = []).
  { rewrite <- reference_errors_nil. unfold ends, pair_of. by rewrite closed_single. }
  unfold add_edge, bind, get. cbn.
  rewrite check_invalid_references_app by done.
  destruct (reference_errors (g_nodes g) e) as [|m ms] eqn:Hr; cbn.
  2:{ split; [done|]. left. split_and!; [done| |done]. intros H%Hends. congruence. }
  pose proof (proj2 Hends eq_refl) as He.
  destruct (detect_cycles_spec (g_nodes g) (g_edges g ++ [e]) Hwf) as (errs & Hrun & Hnil & _).
  unfold lift. rewrite Hrun.
  assert (Hclosed : closed (dkeys (g_nodes g)) (pairs (g_edges g ++ [e]))).
  { rewrite pairs_snoc. apply closed_app. split; [done|]. by apply closed_single. }
  rewrite real_edges_closed in Hnil by done.
  rewrite pairs_snoc in Hnil. unfold pair_of in Hnil at 1.
  rewrite acyclic_add_edge in Hnil by done. fold back in Hnil.
  destruct errs as [|m ms]; cbn.
  - split; [exact He|]. split; [by apply Hnil|done].
  - split; [done|]. right. split; [done|]. split; [exact He|].
    intros Hb. apply Hnil in Hb. done.
Qed.

Lemma insert_edge_inv g e :
  graph_inv g ->
  edge_source e ∈ dkeys (g_nodes g) /\ edge_target e ∈ dkeys (g_nodes g) ->
  ~ rtc (edge_rel (pairs (g_edges g))) (edge_target e) (edge_source e) ->
  graph_inv (insert_edge e g).
Proof.
  intros [Hwf Hids Hrefs Hac] He Hnb. split; cbn; [done|done|..]; rewrite pairs_snoc.
  - apply closed_app. split; [done|]. by apply closed_single.
  - by apply acyclic_add_edge.
Qed.

Lemma remove_first_edge_sub s t es es' e :
  remove_first_edge s t es = Some es' -> e ∈ es' -> e ∈ es.
Proof.
  revert es'. induction es as [|x es IH]; cbn; intros es'; [done|].
  case_decide; [intros; simplify_eq; set_solver|].
  destruct (remove_first_edge s t es) as [es0|]; cbn; [|done].
  intros [= <-] [->|Hin]%elem_of_cons; [set_solver|].
  pose proof (IH _ eq_refl Hin). set_solver.
Qed.

(** Dropping edges, or nodes with their edges, keeps the invariant. *)
Lemma graph_inv_sub g nodes es :
  graph_inv g -> dict_wf nodes ->
  (forall k n, dget nodes k = Some n -> dget (g_nodes g) k = Some n) ->
  (forall e, e ∈ es -> e ∈ g_edges g) -> closed (dkeys nodes) (pairs es) ->
  graph_inv (mkGraph nodes es).
Proof.
  intros [Hwf Hids Hrefs Hac] Hwf' Hsub Hes Hc. split; cbn; [done| |done|].
  - intros k n ?. by apply Hids, Hsub.
  - eapply acyclic_mono; [|exact Hac]. intros [s t]. rewrite !elem_pairs.
    intros (e & ? & ?). exists e. auto.
Qed.

Lemma add_node_inv n g : graph_inv g -> graph_inv (add_node n g).2.
Proof.
  intros Hg. unfold add_node, bind, get. cbn.
  destruct (dmem (g_nodes g) (node_id n)) eqn:Hm; cbn; [done|].
  apply dmem_false in Hm. destruct Hg as [Hwf Hids Hrefs Hac]. split; cbn.
  - by apply dict_wf_dset.
  - intros k m. rewrite dget_dset. case_decide; [|by apply Hids]. by intros [= <-].
  - intros s t [? ?]%Hrefs. rewrite !elem_dkeys_dset. auto.
  - done.
Qed.

Lemma remove_node_inv nid g : graph_inv g -> graph_inv (remove_node nid g).2.
Proof.
  intros Hg. unfold remove_node, bind, get. cbn.
  destruct (dmem (g_nodes g) nid) eqn:Hm; cbn; [|done].
  pose proof (gi_wf _ Hg) as Hwf. apply (graph_inv_sub g); [done|..].
  - by apply dict_wf_ddel.
  - intros k n. rewrite dget_ddel by done. by case_decide.
  - intros e [_ He]%list_elem_of_filter. done.
  - intros s t (e & [[Hs Ht] He]%list_elem_of_filter & <- & <-)%elem_pairs.
    rewrite !elem_dkeys_ddel by done.
    assert (Hst : (edge_source e, edge_target e) ∈ pairs (g_edges g))
      by (apply elem_pairs; eauto).
    destruct (gi_refs _ Hg _ _ Hst). auto.
Qed.

Lemma add_edge_inv e g : graph_inv g -> graph_inv (add_edge e g).2.
Proof.
  intros Hg. pose proof (add_edge_cases g e Hg) as H.
  destruct (add_edge e g) as [[[]|ex] g']; cbn.
  - destruct H as (? & ? & ->). by apply insert_edge_inv.
  - by destruct H as [-> _].
Qed.

Lemma remove_edge_inv s t g : graph_inv g -> graph_inv (remove_edge s t g).2.
Proof.
  intros Hg. unfold remove_edge, bind, get. cbn.
  destruct (remove_first_edge s t (g_edges g)) as [es|] eqn:He; cbn; [|done].
  apply (graph_inv_sub g); [done|apply Hg|done|..].
  - intros e. by apply (remove_first_edge_sub s t).
  - intros a b (e & Hin & <- & <-)%elem_pairs. apply (gi_refs _ Hg).
    apply elem_pairs. exists e. split; [|done]. by eapply remove_first_edge_sub.
Qed.

#[export] Hint Resolve graph_inv_empty add_node_inv remove_node_inv add_edge_inv
  remove_edge_inv : hermes.

(** ** Histories of a graph *)

Inductive graph_op :=
  | OpAddNode (n : AgentNode)
  | OpRemoveNode (nid : string)
  | OpAddEdge (e : AgentEdge)
  | OpRemoveEdge (source target : string).

Definition run_op (op : graph_op) : M ExecutionGraph unit :=
  match op with
  | OpAddNode n => add_node n
  | OpRemoveNode nid => remove_node nid
  | OpAddEdge e => add_edge e
  | OpRemoveEdge s t => remove_edge s t
  end.

(** The caller handles the exceptions: the history goes on after a refusal. *)
Definition run_ops (ops : list graph_op) (g : ExecutionGraph) : ExecutionGraph :=
  fold_left (fun g op => (run_op op g).2) ops g.

Lemma run_op_inv op g : graph_inv g -> graph_inv (run_op op g).2.
Proof. destruct op; unfold run_op; auto with hermes. Qed.

(** ** The levels *)

Lemma level_fold cur lc ns lv :
  dict_wf lv -> dget lv cur = Some lc -> cur ∉ ns ->
  exists lv', res_fold (fun a n => level_hook cur n a) ns lv = Ok lv' /\ dict_wf lv' /\
    forall n, dget lv' n
      = if decide (n ∈ ns) then Some (Z.max (default 0 (dget lv n)) (lc + 1)) else dget lv n.
Proof.
  revert lv. induction ns as [|x ns IH]; intros lv Hwf Hc Hns; cbn.
  { exists lv. do 2 (split; [done|]). intros n. rewrite decide_False; set_solver. }
  unfold level_hook at 1, dlookup. rewrite Hc. cbn.
  destruct (IH (dset lv x (Z.max (default 0 (dget lv x)) (lc + 1)))) as (lv' & Hrun & Hwf' & Hlv).
  { by apply dict_wf_dset. }
  { rewrite dget_dset_ne; [done|]. set_solver. }
  { set_solver. }
  exists lv'. split; [exact Hrun|]. split; [done|]. intros n. rewrite Hlv, dget_dset.
  destruct (decide (x = n)) as [->|Hne]; cbn.
  - rewrite (decide_True (P := n ∈ n :: ns)) by set_solver.
    case_decide; [|done]. f_equal. lia.
  - destruct (decide (n ∈ ns)).
    + by rewrite decide_True by set_solver.
    + by rewrite decide_False by set_solver.
Qed.

(** What the level map says once the nodes of [done] have been taken. *)
Record level_inv (nodes : list string) (E : list (string * string)) (taken : list string)
    (lv : pydict Z) : Prop := LevelInv {
  li_wf : dict_wf lv;
  li_edge : forall s t, (s, t) ∈ E -> s ∈ taken ->
    exists ls lt, dget lv s = Some ls /\ dget lv t = Some lt /\ ls + 1 <= lt;
  li_tight : forall t l, dget lv t = Some l ->
    0 <= l /\ ((l = 0 /\ forall s, (s, t) ∉ E)
               \/ exists s, s ∈ taken /\ (s, t) ∈ E /\ dget lv s = Some (l - 1));
  li_dom : forall n, is_Some (dget lv n) <->
    n ∈ nodes /\ ((forall s, (s, n) ∉ E) \/ exists s, s ∈ taken /\ (s, n) ∈ E)
}.

Lemma level_inv_step nodes E taken cur lv :
  closed nodes E -> cur ∈ nodes -> NoDup (taken ++ [cur]) -> topo E (taken ++ [cur]) ->
  level_inv nodes E taken lv ->
  exists lv', replay_node (fun _ a => a) level_hook (succs E) lv cur = Ok lv' /\
    level_inv nodes E (taken ++ [cur]) lv'.
Proof.
  intros Hc Hcn Hnd Ht [Hwf He Hti Hdom].
  pose proof (Ht taken cur [] eq_refl) as Hpred.
  pose proof (topo_not_succ E taken cur Hnd Ht) as Hfresh.
  assert (Hsome : is_Some (dget lv cur)).
  { apply Hdom. split; [done|]. destruct (has_pred_or_not E cur) as [?|[s Hs]]; [by left|].
    right. exists s. auto. }
  destruct Hsome as [lc Hlc].
  destruct (level_fold cur lc (succs E cur) lv Hwf Hlc (Hfresh cur ltac:(set_solver)))
    as (lv' & Hrun & Hwf' & Hlv).
  exists lv'. split; [exact Hrun|].
  assert (Hold : forall x, x ∈ taken ++ [cur] -> dget lv' x = dget lv x).
  { intros x Hx. rewrite Hlv, decide_False; [done|]. by apply Hfresh. }
  split; [done|..].
  - intros s t Hst Hs. rewrite (Hold s Hs), Hlv.
    apply elem_of_app in Hs as [Hs|Hs%list_elem_of_singleton].
    + destruct (He s t Hst Hs) as (ls & lt & -> & Hlt & Hle). rewrite Hlt. cbn.
      case_decide; eexists _, _; split_and!; try done; lia.
    + subst. rewrite decide_True by (by apply elem_succs).
      eexists _, _; split_and!; [done..|lia].
  - intros t l. rewrite Hlv. case_decide as Hts.
    + intros [= <-]. apply elem_succs in Hts. split.
      * destruct (dget lv t) as [l0|] eqn:Hl0; cbn; [apply Hti in Hl0; lia|].
        apply Hti in Hlc. lia.
      * right. destruct (dget lv t) as [l0|] eqn:Hl0; cbn.
        -- destruct (Z.max_spec l0 (lc + 1)) as [[Hlt ->]|[Hge ->]].
           ++ exists cur. rewrite Hold by set_solver. split_and!; [set_solver|done|].
              rewrite Hlc. f_equal. lia.
           ++ destruct (Hti t l0 Hl0) as [_ [[_ Hno]|(s & Hs & Hst & Hls)]].
              ** exfalso. by apply (Hno cur).
              ** exists s. rewrite Hold by set_solver. split_and!; [set_solver|done|done].
        -- exists cur. rewrite Hold by set_solver. split_and!; [set_solver|done|].
           rewrite Hlc. f_equal. apply Hti in Hlc. lia.
    + intros Hl. destruct (Hti t l Hl) as [Hl0 [?|(s & Hs & Hst & Hls)]]; (split; [done|]).
      * by left.
      * right. exists s. rewrite Hold by set_solver. split_and!; [set_solver|done|done].
  - intros n. rewrite Hlv. case_decide as Hn.
    + apply elem_succs in Hn. split; [|by eexists]. intros _.
      split; [exact (proj2 (Hc _ _ Hn))|]. right. exists cur. split; [set_solver|done].
    + rewrite Hdom. rewrite elem_succs in Hn. split; intros [Hnn Hor]; (split; [done|]).
      * destruct Hor as [?|(s & ? & ?)]; [by left|]. right. exists s. set_solver.
      * destruct Hor as [?|(s & [?|Hs%list_elem_of_singleton]%elem_of_app & ?)]; [by left| |].
        -- right. by exists s.
        -- by subst.
Qed.

Lemma level_inv_init nodes E :
  closed nodes E -> NoDup nodes ->
  level_inv nodes E []
    (fold_left (fun d nid => dset d nid 0) (zero_degree (kahn_build nodes E).2) []).
Proof.
  intros Hc Hnd. set (q := zero_degree _).
  assert (Hq : forall n, n ∈ q <-> n ∈ nodes /\ forall s, (s, n) ∉ E).
  { intros n. unfold q. rewrite elem_zero_degree
      by (unfold dict_wf; by rewrite dkeys_kahn_build).
    rewrite (proj2 (kahn_build_spec nodes E)), eff_edges_all by done.
    case_decide; split; [intros [= H0]|intros [_ Hs]|done|by intros [? _]].
    - split; [done|]. rewrite indeg_zero in H0. intros s Hs. pose proof (H0 s Hs). set_solver.
    - f_equal. apply indeg_zero. intros s Hs'. by apply Hs in Hs'. }
  assert (Hlv : forall l d n, dget (fold_left (fun d nid => dset d nid 0) l d) n
    = if decide (n ∈ l) then Some 0 else dget d n).
  { induction l as [|x l IH]; intros d n; cbn.
    - by rewrite decide_False by set_solver.
    - rewrite IH, dget_dset. repeat case_decide; set_solver. }
  split.
  - assert (Hwf : forall l d, dict_wf d -> dict_wf (fold_left (fun d nid => dset d nid 0) l d)).
    { induction l as [|x l IH]; intros d ?; cbn; [done|]. by apply IH, dict_wf_dset. }
    apply Hwf. constructor.
  - intros s t _ Hs. set_solver.
  - intros t l. rewrite Hlv. case_decide as Ht; [|done]. intros [= <-].
    split; [done|]. left. split; [done|]. by apply Hq.
  - intros n. rewrite Hlv. case_decide as Hn.
    + split; [|by eexists]. intros _. apply Hq in Hn as [? ?]. auto.
    + split; [by intros [? [=]]|]. intros [Hnn [Hno|(s & Hs & _)]]; [|set_solver].
      exfalso. apply Hn, Hq. done.
Qed.

Lemma level_inv_replay nodes E taken rest lv :
  closed nodes E -> (forall n, n ∈ taken ++ rest -> n ∈ nodes) ->
  NoDup (taken ++ rest) -> topo E (taken ++ rest) -> level_inv nodes E taken lv ->
  exists lv', replay (fun _ a => a) level_hook (succs E) rest lv = Ok lv' /\
    level_inv nodes E (taken ++ rest) lv'.
Proof.
  intros Hc. revert taken lv. induction rest as [|cur rest IH]; intros taken lv Hn Hnd Ht Hl.
  { exists lv. by rewrite app_nil_r. }
  assert (Hassoc : taken ++ cur :: rest = (taken ++ [cur]) ++ rest)
    by (by rewrite <- app_assoc).
  rewrite Hassoc in *.
  destruct (level_inv_step nodes E taken cur lv) as (lv1 & Hrun & Hl1); [done|..|done|].
  - apply Hn. set_solver.
  - by apply NoDup_app in Hnd as [? _].
  - by eapply topo_prefix.
  - destruct (IH _ lv1 Hn Hnd Ht Hl1) as (lv2 & Hrun2 & Hl2). exists lv2.
    split; [|done]. unfold replay. cbn. rewrite Hrun. exact Hrun2.
Qed.

Lemma level_edges_build ids es :
  closed ids es ->
  exists adj, res_fold level_add_edge es ([], dinit ids 0) = Ok (adj, (kahn_build ids es).2) /\
    forall n, default [] (dget adj n) = succs es n.
Proof.
  induction es as [|e es IH] using rev_ind; intros Hc.
  { exists []. split; done. }
  apply closed_app in Hc as [Hc He]. destruct e as [s t].
  apply closed_single in He as [Hs Ht]. destruct (IH Hc) as (adj & Hrun & Hadj).
  rewrite res_fold_app, Hrun. cbn [res_bind res_fold].
  pose proof (kahn_build_spec ids es) as [Ha Hd].
  pose proof (Ha s) as Has. pose proof (Hd t) as Hdt. rewrite decide_True in Has by done. rewrite decide_True in Hdt by done.
  assert (Hdeg : (kahn_build ids (es ++ [(s, t)])).2
    = dset (kahn_build ids es).2 t (indeg (eff_edges ids es) [] t + 1)).
  { unfold kahn_build in *. rewrite fold_left_app. cbn.
    destruct (fold_left kahn_add_edge es _) as [adj0 deg0]. cbn in *.
    by rewrite Has, Hdt. }
  unfold level_add_edge. cbn.
  rewrite (proj2 (dmem_true _ _)) by (by rewrite dkeys_kahn_build).
  unfold dlookup. rewrite Hdt. cbn. eexists. split; [by rewrite Hdeg|].
  intros n. rewrite dget_dset, succs_snoc, <- Hadj. cbn.
  case_decide; [by subst|done].
Qed.

(** [level_of] at the end: defined on the nodes, strictly increasing along the
    edges, and no larger than that requires. *)
Lemma compute_levels_spec nodes E :
  NoDup nodes -> closed nodes E -> acyclic E ->
  exists lv, compute_levels nodes E = Ok lv /\ dict_wf lv /\
    (forall n, is_Some (dget lv n) <-> n ∈ nodes) /\
    (forall s t, (s, t) ∈ E ->
      exists ls lt, dget lv s = Some ls /\ dget lv t = Some lt /\ ls + 1 <= lt) /\
    (forall t l, dget lv t = Some l ->
      0 <= l /\ ((l = 0 /\ forall s, (s, t) ∉ E)
                 \/ exists s, (s, t) ∈ E /\ dget lv s = Some (l - 1))).
Proof.
  intros Hnd Hc Hac.
  destruct (level_edges_build nodes E Hc) as (adj & Hb & Hadj).
  destruct (kahn_run_spec (fun _ a => a) level_hook nodes E
    (fold_left (fun d nid => dset d nid 0) (zero_degree (kahn_build nodes E).2) [])
    (fun c => Ok (default [] (dget adj c))) Hnd) as (order & deg' & Hinv & _ & Hrun).
  { intros n _. rewrite Hadj. by rewrite eff_edges_all. }
  rewrite eff_edges_all in * by done.
  pose proof (proj2 (kahn_inv_acyclic _ _ _ _ Hnd Hc Hinv) Hac) as Hlen.
  destruct Hinv as [Hond Hon _ _ Hot]. rewrite app_nil_r in *.
  assert (Hall : forall n, n ∈ nodes -> n ∈ order) by (by apply NoDup_same_length).
  destruct (level_inv_replay nodes E [] order _ Hc Hon Hond Hot (level_inv_init nodes E Hc Hnd))
    as (lv & Hrep & [Hwf He Hti Hdom]).
  exists lv. split_and!.
  - unfold compute_levels. rewrite Hb. cbn [res_bind fst snd]. rewrite Hrun, Hrep. done.
  - done.
  - intros n. rewrite Hdom. cbn. split; [by intros [? _]|]. intros Hn. split; [done|].
    destruct (has_pred_or_not E n) as [?|[s Hs]]; [by left|]. right. exists s.
    split; [|done]. apply Hall. exact (proj1 (Hc _ _ Hs)).
  - intros s t Hst. apply He; [done|]. apply Hall. exact (proj1 (Hc _ _ Hst)).
  - intros t l Hl. destruct (Hti t l Hl) as [? [?|(s & _ & ? & ?)]]; eauto.
Qed.

(** ** Grouping by level *)

Lemma elem_nodes_at lv l n : dict_wf lv -> n ∈ nodes_at lv l <-> dget lv n = Some l.
Proof.
  intros Hwf. unfold nodes_at. rewrite elem_of_list_to_set, list_elem_of_fmap.
  setoid_rewrite list_elem_of_filter. split.
  - intros ([k v] & -> & ? & Hin). cbn in *. subst. by apply dget_elem.
  - intros H%dget_Some_elem. by exists (n, l).
Qed.

Lemma max_level_ge lv n l : dget lv n = Some l -> l <= max_level lv.
Proof.
  intros H%dget_Some_elem. unfold max_level.
  assert (Hv : l ∈ dvalues lv) by (apply list_elem_of_fmap; by exists (n, l)).
  destruct (dvalues lv) as [|v vs]; [set_solver|].
  assert (Hf : forall vs v, v <= fold_left Z.max vs v /\ forall x, x ∈ vs -> x <= fold_left Z.max vs v).
  { clear. induction vs as [|y vs IH]; intros v; cbn; [split; [lia|set_solver]|].
    destruct (IH (Z.max v y)) as [H1 H2]. split; [lia|].
    intros x [->|Hx]%elem_of_cons; [lia|]. by apply H2. }
  destruct (Hf vs v) as [H1 H2]. apply elem_of_cons in Hv as [->|?]; [done|by apply H2].
Qed.

Lemma max_level_attained lv : lv <> [] -> exists n, n ∈ dkeys lv /\ (n, max_level lv) ∈ lv.
Proof.
  intros Hne. assert (Hv : max_level lv ∈ dvalues lv).
  { unfold max_level. destruct lv as [|[k v] lv]; [done|].
    change (dvalues ((k, v) :: lv)) with (v :: dvalues lv).
    generalize (dvalues lv). clear. intros vs. revert v.
    induction vs as [|y vs IH]; intros v; cbn; [set_solver|].
    destruct (Z.max_spec v y) as [[_ ->]|[_ ->]]; [|specialize (IH v); set_solver].
    specialize (IH y). set_solver. }
  apply list_elem_of_fmap in Hv as ([k v] & Heq & Hin). cbn in Heq. subst.
  exists k. split; [|done]. apply list_elem_of_fmap. by exists (k, max_level lv).
Qed.

Definition gapless (lv : pydict Z) : Prop :=
  forall t l, dget lv t = Some l -> 0 <= l /\ (l = 0 \/ exists s, dget lv s = Some (l - 1)).

Lemma gapless_below lv n t :
  gapless lv -> dget lv t = Some (Z.of_nat n) ->
  forall i, (i <= n)%nat -> exists s, dget lv s = Some (Z.of_nat i).
Proof.
  intros Hg. revert t. induction n as [|n IH]; intros t Ht i Hi.
  - exists t. by replace i with 0%nat by lia.
  - destruct (decide (i = S n)) as [->|]; [by exists t|].
    destruct (Hg _ _ Ht) as [_ [?|[s Hs]]]; [lia|].
    apply (IH s); [|lia]. rewrite Hs. f_equal. lia.
Qed.

(** No level in between is empty, so the [i]-th group is level [i]. *)
Lemma group_levels_lookup lv i L :
  dict_wf lv -> gapless lv ->
  group_levels lv !! i = Some L <-> L = nodes_at lv (Z.of_nat i) /\ L <> ∅.
Proof.
  intros Hwf Hg. destruct (decide (lv = [])) as [->|Hne].
  { cbn. split; [done|]. intros [-> Hne]. by cbn in Hne. }
  destruct (max_level_attained lv Hne) as (m & _ & Hm%(dget_elem _ _ _ Hwf)).
  destruct (Hg _ _ Hm) as [Hm0 _].
  assert (Hfull : forall j, (j <= Z.to_nat (max_level lv))%nat -> nodes_at lv (Z.of_nat j) <> ∅).
  { intros j Hj. destruct (gapless_below lv (Z.to_nat (max_level lv)) m Hg) with (i := j)
      as [s Hs]; [|done|].
    - rewrite Z2Nat.id by done. done.
    - apply elem_nodes_at in Hs; [|done]. set_solver. }
  assert (Hlen : Z.to_nat (max_level lv + 1) = S (Z.to_nat (max_level lv))) by lia.
  unfold group_levels. rewrite filter_all.
  2:{ intros x (j & -> & Hj)%list_elem_of_fmap. apply elem_of_seq in Hj. apply Hfull. lia. }
  rewrite list_lookup_fmap, Hlen. split.
  - intros (j & Hj & ->)%fmap_Some. apply lookup_seq in Hj as [-> Hlt]. cbn.
    split; [done|]. apply Hfull. lia.
  - intros [-> Hne']. destruct (decide (i < S (Z.to_nat (max_level lv)))%nat) as [Hi|Hi].
    + rewrite (proj2 (lookup_seq _ _ i i)) by lia. done.
    + exfalso. apply Hne'. apply leibniz_equiv, elem_of_equiv_empty. intros x Hx.
      apply elem_nodes_at in Hx; [|done]. apply max_level_ge in Hx. lia.
Qed.

(** ** Dependencies *)

Definition preds (E : list (string * string)) (t : string) : list string :=
  map fst (filter (fun e => e.2 = t) E).

Lemma elem_preds E s t : s ∈ preds E t <-> (s, t) ∈ E.
Proof.
  unfold preds. rewrite list_elem_of_fmap. setoid_rewrite list_elem_of_filter.
  split; [intros ([s' t'] & -> & ? & ?); cbn in *; by subst|].
  intros. by exists (s, t).
Qed.

Lemma deps_spec ids E :
  closed ids E ->
  exists deps, res_fold deps_add E (dinit ids []) = Ok deps /\
    forall n, dget deps n = if decide (n ∈ ids) then Some (preds E n) else None.
Proof.
  induction E as [|[s t] E IH] using rev_ind; intros Hc.
  { exists (dinit ids []). split; [done|]. intros n. apply dget_dinit. }
  apply closed_app in Hc as [Hc He]. apply closed_single in He as [Hs Ht].
  destruct (IH Hc) as (deps & Hrun & Hd). rewrite res_fold_app, Hrun. cbn.
  unfold deps_add, dlookup. cbn. rewrite Hd, decide_True by done. cbn.
  eexists. split; [done|]. intros n. rewrite dget_dset, Hd.
  unfold preds. rewrite filter_app, map_app, filter_cons, filter_nil. cbn.
  destruct (decide (t = n)) as [->|].
  - rewrite decide_True by done. done.
  - case_decide; [|done]. cbn. by rewrite app_nil_r.
Qed.

(** ** Topological sort and plan *)

Lemma node_ids_of (nodes : pydict AgentNode) l acc :
  (forall x, x ∈ l -> x ∈ dkeys nodes) ->
  exists ns, res_fold (fun acc nid => n <-? dlookup nodes nid ;; Ok (acc ++ [n])) l acc
      = Ok (acc ++ ns) /\ Forall2 (fun nid n => dget nodes nid = Some n) l ns.
Proof.
  revert acc. induction l as [|x l IH]; intros acc Hl; cbn.
  { exists []. by rewrite app_nil_r. }
  destruct (proj2 (dget_is_Some nodes x) (Hl x ltac:(set_solver))) as [n Hn].
  unfold dlookup at 1. rewrite Hn. cbn.
  destruct (IH (acc ++ [n])) as (ns & Hrun & Hns); [set_solver|].
  exists (n :: ns). split; [rewrite Hrun; by rewrite <- app_assoc|]. by constructor.
Qed.

(** The nodes are stored under their own id. *)
Definition ids_match (nodes : pydict AgentNode) : Prop :=
  forall k n, dget nodes k = Some n -> node_id n = k.

Lemma topological_sort_cases g :
  dict_wf (g_nodes g) -> ids_match (g_nodes g) ->
  let E := real_edges (g_nodes g) (g_edges g) in
  (acyclic E /\ exists ns, topological_sort g = Ok ns /\
     map node_id ns ≡ₚ dkeys (g_nodes g) /\ topo E (map node_id ns) /\
     (forall n, n ∈ ns -> dget (g_nodes g) (node_id n) = Some n))
  \/ (~ acyclic E /\ topological_sort g = Err graph_cycle).
Proof.
  intros Hwf Hids E.
  destruct (kahn_run_spec (fun cur ids => ids ++ [cur]) (fun _ _ a => Ok a)
    (dkeys (g_nodes g)) (pairs (g_edges g)) [] _ Hwf (kahn_build_adj _ _))
    as (order & deg' & Hinv & _ & Hrun).
  pose proof (kahn_inv_acyclic _ _ _ _ Hwf (eff_edges_closed _ _) Hinv) as Hac.
  rewrite replay_no_hook, fold_snoc in Hrun. cbn in Hrun.
  rewrite dkeys_length in Hrun, Hac. fold (real_edges (g_nodes g) (g_edges g)) in *.
  unfold topological_sort. rewrite Hrun. cbn.
  destruct Hinv as [Hnd Hnodes _ _ Ht]. rewrite app_nil_r in *.
  case_decide as Hlen.
  - left. split; [by apply Hac|].
    destruct (node_ids_of (g_nodes g) order [] Hnodes) as (ns & Hns & Hall).
    exists ns. split; [done|].
    assert (Hmap : map node_id ns = order /\
      (forall n, n ∈ ns -> dget (g_nodes g) (node_id n) = Some n)).
    { clear -Hall Hids. induction Hall as [|x n l ns Hx _ [IH1 IH2]]; cbn; [set_solver|].
      pose proof (Hids _ _ Hx) as <-. rewrite IH1. split; [done|].
      intros m [->|?]%elem_of_cons; auto. }
    destruct Hmap as [-> Hstored]. split_and!; [|done|done].
    apply NoDup_Permutation; [done|done|]. intros x. split; [apply Hnodes|].
    apply NoDup_same_length; [done|done|done|]. by rewrite dkeys_length.
  - right. split; [|done]. intros H%Hac. done.
Qed.

(** What an execution plan promises of the graph it was made from. *)
Record plan_spec (g : ExecutionGraph) (p : GraphExecutionPlan) : Prop := PlanSpec {
  ps_order : execution_order p ≡ₚ dkeys (g_nodes g);
  ps_topo : topo (pairs (g_edges g)) (execution_order p);
  ps_cover : forall n, n ∈ dkeys (g_nodes g) <-> exists i L, levels p !! i = Some L /\ n ∈ L;
  ps_edge : forall s t i j Ls Lt, (s, t) ∈ pairs (g_edges g) ->
    levels p !! i = Some Ls -> levels p !! j = Some Lt -> s ∈ Ls -> t ∈ Lt -> (i < j)%nat;
  ps_tight : forall t j Lt, levels p !! S j = Some Lt -> t ∈ Lt ->
    exists s Ls, (s, t) ∈ pairs (g_edges g) /\ levels p !! j = Some Ls /\ s ∈ Ls;
  ps_disjoint : forall n i j Li Lj, levels p !! i = Some Li -> levels p !! j = Some Lj ->
    n ∈ Li -> n ∈ Lj -> i = j;
  ps_nonempty : forall i L, levels p !! i = Some L -> L <> ∅;
  ps_deps : forall n, dget (dependencies p) n
    = if decide (n ∈ dkeys (g_nodes g)) then Some (preds (pairs (g_edges g)) n) else None;
  ps_count : node_count (stats p) = length (execution_order p) /\
             level_count (stats p) = length (levels p)
}.

Lemma elem_group lv n i L :
  dict_wf lv -> gapless lv -> group_levels lv !! i = Some L ->
  n ∈ L <-> dget lv n = Some (Z.of_nat i).
Proof.
  intros Hwf Hg HL. apply group_levels_lookup in HL as [-> _]; [|done..]. by apply elem_nodes_at.
Qed.

Lemma generate_plan_cases g :
  graph_inv g ->
  match generate_plan g with
  | Ok p => check_orphan_nodes (g_nodes g) (g_edges g) = [] /\ plan_spec g p
  | Err e => e = Exn ValidationError (check_orphan_nodes (g_nodes g) (g_edges g)) /\
             check_orphan_nodes (g_nodes g) (g_edges g) <> []
  end.
Proof.
  intros [Hwf Hids Hrefs Hac].
  destruct (detect_cycles_spec (g_nodes g) (g_edges g) Hwf) as (errs & Hdc & Hnil & _).
  rewrite real_edges_closed in Hnil by done. rewrite (proj2 Hnil Hac) in Hdc. clear Hnil errs.
  unfold generate_plan, graph_validate, validate_graph. rewrite Hdc. cbn [res_bind].
  rewrite (proj2 (check_invalid_references_nil _ _) Hrefs). cbn [app].
  destruct (check_orphan_nodes _ _) as [|m ms] eqn:Ho; [|done].
  destruct (topological_sort_cases g Hwf Hids) as [[_ (ns & Hts & Hperm & Htopo & _)]|[Hn _]].
  2:{ by rewrite real_edges_closed in Hn. }
  rewrite real_edges_closed in Htopo by done.
  destruct (deps_spec _ _ Hrefs) as (deps & Hdeps & Hdget).
  destruct (compute_levels_spec _ _ Hwf Hrefs Hac) as (lv & Hlv & Hlwf & Hdom & Hed & Hti).
  rewrite Hts. cbn [res_bind]. rewrite Hdeps. cbn [res_bind]. rewrite Hlv. cbn [res_bind].
  split; [done|].
  assert (Hg : gapless lv) by (intros t l Hl; destruct (Hti t l Hl) as [? [[? _]|(s & _ & ?)]]; eauto).
  pose proof (fun n i L => elem_group lv n i L Hlwf Hg) as Hin.
  split; cbn; [done|done|..].
  - intros n. rewrite <- Hdom. split.
    + intros [l Hl]. destruct (Hti _ _ Hl) as [Hl0 _].
      exists (Z.to_nat l), (nodes_at lv l).
      assert (Hel : n ∈ nodes_at lv l) by (by apply elem_nodes_at). split; [|done].
      apply group_levels_lookup; [done..|]. rewrite Z2Nat.id by done. split; [done|set_solver].
    + intros (i & L & HL & Hn). eapply Hin in Hn; [|exact HL]. by eexists.
  - intros s t i j Ls Lt Hst Hi Hj Hs Ht.
    eapply Hin in Hs; [|exact Hi]. eapply Hin in Ht; [|exact Hj].
    destruct (Hed _ _ Hst) as (ls & lt & ? & ? & ?). simplify_eq. lia.
  - intros t j Lt Hj Ht. eapply Hin in Ht; [|exact Hj].
    destruct (Hti _ _ Ht) as [_ [[? _]|(s & Hst & Hs)]]; [lia|].
    assert (Hs' : s ∈ nodes_at lv (Z.of_nat j))
      by (apply elem_nodes_at; [done|]; rewrite Hs; f_equal; lia).
    exists s, (nodes_at lv (Z.of_nat j)). split_and!; [done| |done].
    apply group_levels_lookup; [done..|]. split; [done|set_solver].
  - intros n i j Li Lj Hi Hj Hni Hnj.
    eapply Hin in Hni; [|exact Hi]. eapply Hin in Hnj; [|exact Hj]. simplify_eq. lia.
  - intros i L HL. by apply group_levels_lookup in HL as [_ ?].
  - intros n. assert (Hg' : forall ids, dget (map (fun nid => (nid, default [] (dget deps nid))) ids) n
      = if decide (n ∈ ids) then Some (default [] (dget deps n)) else None).
    { induction ids as [|x ids IH]; cbn; [by rewrite decide_False by set_solver|].
      rewrite IH. repeat case_decide; set_solver. }
    rewrite Hg', Hdget. by case_decide.
  - split; [|done]. rewrite Hperm. by rewrite dkeys_length.
Qed.

(** ** Serialisation *)

Definition normalize_node (n : AgentNode) : AgentNode :=
  mkNode (node_id n) (node_name n) (parse_type (type_str (node_ty n)))
    (parse_status (status_str (node_st n))) (node_cap n) (node_meta n).

Definition normalize (g : ExecutionGraph) : ExecutionGraph :=
  mkGraph (map (fun p => (p.1, normalize_node p.2)) (g_nodes g)) (g_edges g).

Lemma type_str_parse s : type_str (parse_type s) = s.
Proof.
  unfold parse_type. destruct (NodeType.of_value s) eqn:E; cbn; [|done].
  by apply NodeType_of_value_Some.
Qed.

Lemma status_str_parse s : status_str (parse_status s) = s.
Proof.
  unfold parse_status. destruct (NodeStatus.of_value s) eqn:E; cbn; [|done].
  by apply NodeStatus_of_value_Some.
Qed.

Lemma init_graph_nodes (f : AgentNode -> AgentNode) d :
  dict_wf d -> ids_match d -> (forall n, node_id (f n) = node_id n) ->
  fold_left (fun d n => dset d (node_id n) n) (map f (dvalues d)) []
    = map (fun p => (p.1, f p.2)) d.
Proof.
  intros Hwf Hids Hf.
  assert (Hg : forall d acc, NoDup (dkeys acc ++ dkeys d) ->
    (forall p, p ∈ d -> node_id p.2 = p.1) ->
    fold_left (fun d n => dset d (node_id n) n) (map f (dvalues d)) acc
      = acc ++ map (fun p => (p.1, f p.2)) d).
  { clear d Hwf Hids. induction d as [|[k n] d IH]; intros acc Hnd Hd.
    { cbn. by rewrite app_nil_r. }
    change (dvalues ((k, n) :: d)) with (n :: dvalues d). cbn.
    rewrite Hf. pose proof (Hd (k, n) ltac:(set_solver)) as Hk. cbn in Hk. rewrite Hk.
    assert (Hkn : k ∉ dkeys acc).
    { apply NoDup_app in Hnd as (_ & Hnd & _). intros Hin. apply (Hnd k Hin).
      unfold dkeys. cbn. set_solver. }
    rewrite dkeys_dset_new by done.
    rewrite IH; [by rewrite <- app_assoc| |].
    - unfold dkeys in *. rewrite map_app, <- app_assoc. exact Hnd.
    - intros p Hp. apply Hd. set_solver. }
  rewrite Hg; [done|done|]. intros [k n] Hin. by apply Hids, dget_elem.
Qed.

Lemma node_of_dict_to_dict n : node_of_dict (node_to_dict n) = Ok (normalize_node n).
Proof. done. Qed.

Lemma edge_of_dict_to_dict e : edge_of_dict (edge_to_dict e) = Ok e.
Proof. by destruct e. Qed.

(** ** Properties of the execution graph *)

(** On a graph built by its operations, [add_edge] succeeds exactly when both
    ends are nodes and no path leads from the new edge's target back to its
    source; it then appends the edge.  Otherwise it raises - the reference
    errors of the new edge, or a [CycleError] - and leaves the graph as it was. *)
Theorem add_edge_outcome g e :
  graph_inv g ->
  let ends := edge_source e ∈ dkeys (g_nodes g) /\ edge_target e ∈ dkeys (g_nodes g) in
  let back := rtc (edge_rel (pairs (g_edges g))) (edge_target e) (edge_source e) in
  match add_edge e g with
  | (Ok _, g') => ends /\ ~ back /\ g' = insert_edge e g
  | (Err ex, g') =>
      g' = g /\
      ((exn_cls ex = ExecutionGraphError /\ ~ ends
        /\ exn_msgs ex = reference_errors (g_nodes g) e)
       \/ (exn_cls ex = CycleError /\ ends /\ ~ ~ back))
  end.
Proof. apply add_edge_cases. Qed.

(** Whatever operations are applied to a fresh graph, and whichever of them
    are refused, its ids are unique and are the ids of the nodes stored under
    them, its edges join existing nodes, and it has no cycle. *)
Theorem graph_always_dag ops : graph_inv (run_ops ops empty_graph).
Proof.
  unfold run_ops. generalize graph_inv_empty. generalize empty_graph.
  induction ops as [|op ops IH]; intros g Hg; cbn; [done|]. by apply IH, run_op_inv.
Qed.

(** [topological_sort] returns every node once, each after the sources of
    its incoming edges, when the edges between nodes are acyclic, and raises
    [CycleError] when they are not; it never runs out of work to do or fails
    otherwise. *)
Theorem topological_sort_correct g :
  dict_wf (g_nodes g) -> ids_match (g_nodes g) ->
  let E := real_edges (g_nodes g) (g_edges g) in
  (acyclic E /\ exists ns, topological_sort g = Ok ns /\
     map node_id ns ≡ₚ dkeys (g_nodes g) /\ topo E (map node_id ns) /\
     (forall n, n ∈ ns -> dget (g_nodes g) (node_id n) = Some n))
  \/ (~ acyclic E /\ topological_sort g = Err graph_cycle).
Proof. apply topological_sort_cases. Qed.

(** C38: On a graph built by its operations, [generate_plan] raises exactly the
    orphan [ValidationError], and otherwise returns a plan whose order is
    topological, whose levels partition the nodes into the longest-path layers
    of the DAG, and whose dependencies are the predecessors of each node. *)
Theorem generate_plan_correct g :
  graph_inv g ->
  match generate_plan g with
  | Ok p => check_orphan_nodes (g_nodes g) (g_edges g) = [] /\ plan_spec g p
  | Err e => e = Exn ValidationError (check_orphan_nodes (g_nodes g) (g_edges g)) /\
             check_orphan_nodes (g_nodes g) (g_edges g) <> []
  end.
Proof. apply generate_plan_cases. Qed.

(** [detect_cycles] decides acyclicity of the edges between existing nodes -
    no error exactly when there is no cycle - and the nodes its error lists
    include every node that lies on a cycle. *)
Theorem detect_cycles_decides nodes es :
  dict_wf nodes ->
  exists errs, detect_cycles nodes es = Ok errs /\
    (errs = [] <-> acyclic (real_edges nodes es)) /\
    (forall x, x ∈ dkeys nodes -> tc (edge_rel (real_edges nodes es)) x x ->
      exists cycled, errs = [cycle_msg cycled] /\ x ∈ cycled).
Proof. apply detect_cycles_spec. Qed.

(** Reading back a serialised graph gives the graph itself, up to a type or
    status held as a string that names a member of its enumeration, which
    comes back as that member; a second round trip changes nothing more. *)
Theorem from_dict_to_dict g :
  dict_wf (g_nodes g) -> ids_match (g_nodes g) ->
  from_dict (to_dict g) = Ok (normalize g) /\ to_dict (normalize g) = to_dict g.
Proof.
  intros Hwf Hids. split.
  - change (from_dict (to_dict g)) with
      (nodes <-? res_map node_of_dict (map node_to_dict (dvalues (g_nodes g))) ;;
       es <-? res_map edge_of_dict (map edge_to_dict (g_edges g)) ;;
       Ok (init_graph nodes es)).
    rewrite (res_map_map _ _ _ _ node_of_dict_to_dict). cbn [res_bind].
    rewrite (res_map_map _ _ _ _ edge_of_dict_to_dict). cbn [res_bind].
    unfold init_graph, normalize. rewrite map_id. by rewrite init_graph_nodes.
  - unfold to_dict, normalize, dvalues. cbn. rewrite !map_map. do 2 f_equal.
    apply map_ext. intros [k n]. unfold node_to_dict. cbn.
    by rewrite type_str_parse, status_str_parse.
Qed.

(** ** Concrete graphs *)

Definition demo_node (nid : string) : AgentNode :=
  mkNode nid nid (TypeEnum NodeType.TASK) (StatusEnum NodeStatus.PENDING) "chat" [].
Definition demo_edge (s t : string) : AgentEdge := mkEdge s t "" [].

(** A diamond with a long side: a -> b -> c -> d and a -> d. *)
Definition demo_ops : list graph_op :=
  map (fun i => OpAddNode (demo_node i)) ["a"; "b"; "c"; "d"] ++
  map (fun p => OpAddEdge (demo_edge p.1 p.2)) [("a", "b"); ("b", "c"); ("c", "d"); ("a", "d")].
Definition demo_graph : ExecutionGraph := run_ops demo_ops empty_graph.

Lemma demo_graph_inv : graph_inv demo_graph.
Proof.
  assert (H : forall ops g, graph_inv g -> graph_inv (run_ops ops g)).
  { intros ops. induction ops as [|op ops IH]; intros g Hg; cbn; [done|]. by apply IH, run_op_inv. }
  apply H, graph_inv_empty.
Qed.

Example demo_closing_edge_refused :
  (add_edge (demo_edge "d" "a") demo_graph).1 = Err (Exn CycleError [cycle_msg ["a"; "b"; "c"; "d"]]).
Proof. vm_compute. reflexivity. Qed.

Lemma add_edge_outcome_witness :
  let e := demo_edge "d" "a" in
  ~ ~ rtc (edge_rel (pairs (g_edges demo_graph))) "a" "d" /\ (add_edge e demo_graph).2 = demo_graph.
Proof.
  pose proof (add_edge_outcome demo_graph (demo_edge "d" "a") demo_graph_inv) as H.
  cbn zeta in H. destruct (add_edge (demo_edge "d" "a") demo_graph) as [[[]|ex] g'] eqn:E.
  - exfalso. assert (Hf : (add_edge (demo_edge "d" "a") demo_graph).1 = Ok tt) by (by rewrite E).
    vm_compute in Hf. discriminate.
  - destruct H as [Hg [(Hc & _)|(_ & _ & Hb)]]; [|split; [exact Hb|exact (eq_trans (f_equal snd E) Hg)]].
    exfalso. assert (Hf : (add_edge (demo_edge "d" "a") demo_graph).1 = Err ex) by (by rewrite E).
    rewrite demo_closing_edge_refused in Hf. injection Hf as <-. discriminate Hc.
Defined.

Lemma topological_sort_correct_witness :
  acyclic (real_edges (g_nodes demo_graph) (g_edges demo_graph)) /\
  (exists ns, topological_sort demo_graph = Ok ns /\ map node_id ns = ["a"; "b"; "c"; "d"]).
Proof.
  destruct (topological_sort_correct demo_graph (gi_wf _ demo_graph_inv) (gi_ids _ demo_graph_inv))
    as [[Hac (ns & Hns & _)]|[_ Herr]].
  - split; [exact Hac|]. exists ns. split; [exact Hns|].
    vm_compute in Hns. injection Hns as <-. reflexivity.
  - exfalso. vm_compute in Herr. discriminate.
Defined.

Definition demo_plan : GraphExecutionPlan :=
  match generate_plan demo_graph with
  | Ok p => p
  | Err _ => mkPlan [] [] [] (mkPlanStats 0 0 0 0 0)
  end.

Example demo_plan_generated : generate_plan demo_graph = Ok demo_plan.
Proof. vm_compute. reflexivity. Qed.

Lemma generate_plan_correct_witness :
  plan_spec demo_graph demo_plan /\ levels demo_plan = [{["a"]}; {["b"]}; {["c"]}; {["d"]}].
Proof.
  pose proof (generate_plan_correct demo_graph demo_graph_inv) as H.
  rewrite demo_plan_generated in H. split; [exact (proj2 H)|].
  vm_compute. reflexivity.
Defined.

Lemma detect_cycles_decides_witness :
  ~ acyclic (real_edges (g_nodes demo_graph) [demo_edge "a" "b"; demo_edge "b" "a"]).
Proof.
  destruct (detect_cycles_decides (g_nodes demo_graph) [demo_edge "a" "b"; demo_edge "b" "a"]
    (gi_wf _ demo_graph_inv)) as (errs & Hrun & Hnil & _).
  intros Hac. apply Hnil in Hac. subst errs. vm_compute in Hrun. discriminate.
Defined.

Lemma from_dict_to_dict_witness : from_dict (to_dict demo_graph) = Ok demo_graph.
Proof.
  destruct (from_dict_to_dict demo_graph (gi_wf _ demo_graph_inv) (gi_ids _ demo_graph_inv))
    as [-> _]. vm_compute. reflexivity.
Defined.
