(* ===== verification/Lifecycle.v ===== *)
(** * The agent lifecycle manager ([backend/agent/lifecycle.py])

    [AgentState] and its transition table, [AgentLifecycleManager] and every one
    of its operations, and the properties of its state machine.

    Timestamps and durations are integers of an arbitrary unit (the code's
    floats, without their rounding).  [time.time()] is an oracle [clock] whose
    [i]-th reading is [clock i]; the number of readings is part of the state.
    Event handlers are foreign code: a handler is a name, and the manager's
    state holds the list of the calls made to the handlers. *)
From stdpp Require Import base gmap strings list sets.
From Stdlib Require Import ZArith Lia.
From S2P Require Import Prelude.

(** ** Data *)

Module AgentState.
Inductive t :=
  | CREATED | READY | SCHEDULED | RUNNING | PAUSED | WAITING
  | COMPLETED | FAILED | CANCELLED | TIMEOUT.
#[global] Instance eq_dec : EqDecision t.
Proof. solve_decision. Defined.

Definition value (s : t) : string :=
  match s with
  | CREATED => "created"
  | READY => "ready"
  | SCHEDULED => "scheduled"
  | RUNNING => "running"
  | PAUSED => "paused"
  | WAITING => "waiting"
  | COMPLETED => "completed"
  | FAILED => "failed"
  | CANCELLED => "cancelled"
  | TIMEOUT => "timeout"
  end.
End AgentState.

Module LifecycleEvent.
Inductive t := CREATED | STARTED | PAUSED | RESUMED | COMPLETED | FAILED | CANCELLED | TIMEOUT.
End LifecycleEvent.

Record AgentContext := mkCtx {
  ctx_id : string;
  ctx_mission_id : string;
  ctx_task_id : string;
  ctx_cap : string;
  ctx_runtime : option string;
  ctx_meta : pydict pyval
}.

Record AgentStatistics := mkStats {
  execution_count : Z;
  retries : Z;
  failures : Z;
  total_duration : Z;
  last_execution : option Z;
  stats_meta : pydict pyval
}.

Definition no_stats : AgentStatistics := mkStats 0 0 0 0 None [].

Record AgentInstance := mkAgent {
  agent_id : string;
  agent_state : AgentState.t;
  agent_ctx : AgentContext;
  created_at : Z;
  started_at : option Z;
  finished_at : option Z;
  statistics : AgentStatistics;
  agent_meta : pydict pyval
}.

(** [_ALLOWED_TRANSITIONS] *)
Definition allowed_transitions (s : AgentState.t) : list AgentState.t :=
  match s with
  | AgentState.CREATED => [AgentState.READY]
  | AgentState.READY => [AgentState.SCHEDULED; AgentState.RUNNING]
  | AgentState.SCHEDULED => [AgentState.RUNNING]
  | AgentState.RUNNING =>
      [AgentState.PAUSED; AgentState.COMPLETED; AgentState.FAILED; AgentState.CANCELLED;
       AgentState.TIMEOUT]
  | AgentState.PAUSED => [AgentState.RUNNING; AgentState.CANCELLED; AgentState.TIMEOUT]
  | AgentState.WAITING => [AgentState.RUNNING; AgentState.CANCELLED; AgentState.FAILED]
  | AgentState.COMPLETED | AgentState.FAILED | AgentState.CANCELLED | AgentState.TIMEOUT => []
  end.

(** [_TRANSITION_EVENTS]; nothing in the module reads it. *)
Definition transition_event (s : AgentState.t) : option LifecycleEvent.t :=
  match s with
  | AgentState.READY => Some LifecycleEvent.CREATED
  | AgentState.RUNNING => Some LifecycleEvent.STARTED
  | AgentState.PAUSED => Some LifecycleEvent.PAUSED
  | AgentState.COMPLETED => Some LifecycleEvent.COMPLETED
  | AgentState.FAILED => Some LifecycleEvent.FAILED
  | AgentState.CANCELLED => Some LifecycleEvent.CANCELLED
  | AgentState.TIMEOUT => Some LifecycleEvent.TIMEOUT
  | _ => None
  end.

(** The set [{COMPLETED, FAILED, CANCELLED, TIMEOUT}] the code writes out. *)
Definition terminal (s : AgentState.t) : bool :=
  match s with
  | AgentState.COMPLETED | AgentState.FAILED | AgentState.CANCELLED | AgentState.TIMEOUT => true
  | _ => false
  end.

(** A call [handler(agent_id, from_state, to_state)]. *)
Record handler_call := mkCall {
  call_handler : string;
  call_agent : string;
  call_from : AgentState.t;
  call_to : AgentState.t
}.

Record Manager := mkManager {
  lm_timeout : Z;
  lm_agents : pydict AgentInstance;
  lm_handlers : list string;
  lm_calls : list handler_call;
  lm_reads : nat
}.

Definition new_manager (timeout_s : Z) : Manager := mkManager timeout_s [] [] [] 0.

Definition with_agents (m : Manager) (d : pydict AgentInstance) : Manager :=
  mkManager (lm_timeout m) d (lm_handlers m) (lm_calls m) (lm_reads m).

(** [x or now] on an optional timestamp: 0 counts as absent. *)
Definition or_now (o : option Z) (now : Z) : Z :=
  match o with
  | None => now
  | Some t => if t =? 0 then now else t
  end.

Definition lifecycle_error (template : string) (args : list string) : exn :=
  Exn AgentLifecycleError [Msg template args].

Section operations.
Variable clock : nat -> Z.

Definition time_now : M Manager Z := fun m =>
  (Ok (clock (lm_reads m)),
   mkManager (lm_timeout m) (lm_agents m) (lm_handlers m) (lm_calls m) (S (lm_reads m))).

(** [on_event] *)
Definition on_event (handler : string) : M Manager unit := fun m =>
  (Ok tt, mkManager (lm_timeout m) (lm_agents m) (lm_handlers m ++ [handler]) (lm_calls m)
            (lm_reads m)).

(** [_emit]: every handler is called, whatever the earlier ones raised. *)
Definition emit (aid : string) (from_state to_state : AgentState.t) : M Manager unit := fun m =>
  (Ok tt, mkManager (lm_timeout m) (lm_agents m) (lm_handlers m)
            (lm_calls m ++ map (fun h => mkCall h aid from_state to_state) (lm_handlers m))
            (lm_reads m)).

(** [self._agents[agent_id] = instance] *)
Definition store (aid : string) (a : AgentInstance) : M Manager unit := fun m =>
  (Ok tt, with_agents m (dset (lm_agents m) aid a)).

(** [_get] *)
Definition get_agent (aid : string) : M Manager AgentInstance := fun m =>
  match dget (lm_agents m) aid with
  | Some a => (Ok a, m)
  | None => (Err (lifecycle_error "Agent '{}' not found." [aid]), m)
  end.

(** The guard of [_transition]. *)
Definition transition_guard (aid : string) (current target : AgentState.t) : res unit :=
  if decide (target = AgentState.CANCELLED) then
    if terminal current
    then Err (lifecycle_error "Cannot cancel agent '{}': already in terminal state '{}'."
                [aid; AgentState.value current])
    else Ok tt
  else if decide (target ∈ allowed_transitions current) then Ok tt
  else Err (lifecycle_error "Invalid transition '{}' → '{}' for agent '{}'."
              [AgentState.value current; AgentState.value target; aid]).

(** The instance [_transition] stores. *)
Definition moved (a : AgentInstance) (target : AgentState.t) (now : Z) : AgentInstance :=
  let started :=
    if decide (target = AgentState.RUNNING) then Some (or_now (started_at a) now)
    else started_at a in
  let ends := terminal target in
  let finished := if ends then Some now else finished_at a in
  let s := statistics a in
  let stats :=
    if ends then
      let duration := match started with Some t => now - t | None => 0 end in
      mkStats (execution_count s + 1) (retries s)
        (failures s + (if decide (target = AgentState.FAILED) then 1 else 0))
        (total_duration s + duration) (Some (or_now started now)) (stats_meta s)
    else s in
  mkAgent (agent_id a) target (agent_ctx a) (created_at a) started finished stats (agent_meta a).

(** [_transition] *)
Definition transition (aid : string) (target : AgentState.t) : M Manager AgentInstance :=
  instance <- get_agent aid ;;
  let current := agent_state instance in
  lift (transition_guard aid current target) ;;;
  now <- time_now ;;
  let updated := moved instance target now in
  store aid updated ;;;
  emit aid current target ;;;
  ret updated.

(** [create_agent]; [metadata or {}] *)
Definition create_agent (context : AgentContext) (metadata : option (pydict pyval))
    : M Manager AgentInstance :=
  m <- get ;;
  if dmem (lm_agents m) (ctx_id context)
  then raise (lifecycle_error "Agent '{}' already exists." [ctx_id context])
  else
    now <- time_now ;;
    store (ctx_id context)
      (mkAgent (ctx_id context) AgentState.CREATED context now None None no_stats
         (default [] metadata)) ;;;
    emit (ctx_id context) AgentState.CREATED AgentState.READY ;;;
    transition (ctx_id context) AgentState.READY.

(** [start_agent]: both branches of the test on [SCHEDULED] are the same call. *)
Definition start_agent (aid : string) : M Manager AgentInstance :=
  instance <- get_agent aid ;;
  if decide (agent_state instance = AgentState.SCHEDULED)
  then transition aid AgentState.RUNNING
  else transition aid AgentState.RUNNING.

Definition pause_agent (aid : string) : M Manager AgentInstance :=
  transition aid AgentState.PAUSED.
Definition cancel_agent (aid : string) : M Manager AgentInstance :=
  transition aid AgentState.CANCELLED.
Definition complete_agent (aid : string) : M Manager AgentInstance :=
  transition aid AgentState.COMPLETED.
Definition fail_agent (aid : string) : M Manager AgentInstance :=
  transition aid AgentState.FAILED.

(** [resume_agent] does not go through [_transition]: it emits first, and
    stores an instance of its own making. *)
Definition resume_agent (aid : string) : M Manager AgentInstance :=
  instance <- get_agent aid ;;
  if decide (agent_state instance = AgentState.PAUSED) then
    emit aid (agent_state instance) AgentState.RUNNING ;;;
    now <- time_now ;;
    let updated := mkAgent (agent_id instance) AgentState.RUNNING (agent_ctx instance)
      (created_at instance) (Some (or_now (started_at instance) now)) None
      (statistics instance) (agent_meta instance) in
    store aid updated ;;;
    ret updated
  else raise (lifecycle_error "Cannot resume agent '{}' in state '{}'. Expected 'paused'."
                [aid; AgentState.value (agent_state instance)]).

(** [list_agents] *)
Definition list_agents (m : Manager) (state : option AgentState.t) : list AgentInstance :=
  match state with
  | None => dvalues (lm_agents m)
  | Some s => filter (fun a => agent_state a = s) (dvalues (lm_agents m))
  end.

(** The test of [cleanup]. *)
Definition expired (now max_age_s : Z) (a : AgentInstance) : bool :=
  match finished_at a with
  | Some t => (max_age_s <? now - t) && terminal (agent_state a)
  | None => false
  end.

Definition delete_agent (aid : string) : M Manager unit := fun m =>
  (Ok tt, with_agents m (ddel (lm_agents m) aid)).

(** [cleanup] *)
Definition cleanup (max_age_s : Z) : M Manager Z :=
  now <- time_now ;;
  m <- get ;;
  let to_remove := map fst (filter (fun p => expired now max_age_s p.2 = true) (lm_agents m)) in
  for_each to_remove delete_agent ;;;
  ret (Z.of_nat (length to_remove)).

(** The test of [check_timeouts]. *)
Definition overdue (now timeout_s : Z) (a : AgentInstance) : bool :=
  bool_decide (agent_state a = AgentState.RUNNING) &&
  match started_at a with
  | Some t => timeout_s <? now - t
  | None => false
  end.

Definition is_lifecycle_error (c : exn_class) : bool :=
  bool_decide (c = AgentLifecycleError).

(** The body of the loop of [check_timeouts], on the list [timed_out] so far. *)
Definition timeout_one (now : Z) (acc : list string) (p : string * AgentInstance)
    : M Manager (list string) :=
  m <- get ;;
  if overdue now (lm_timeout m) p.2 then
    catch (transition p.1 AgentState.TIMEOUT ;;; ret (acc ++ [p.1])) is_lifecycle_error
      (fun _ => ret acc)
  else ret acc.

Fixpoint timeout_loop (now : Z) (items : list (string * AgentInstance)) (acc : list string)
    : M Manager (list string) :=
  match items with
  | [] => ret acc
  | p :: items' => acc' <- timeout_one now acc p ;; timeout_loop now items' acc'
  end.

(** [check_timeouts]: the loop runs on a copy of the items. *)
Definition check_timeouts : M Manager (list string) :=
  now <- time_now ;;
  m <- get ;;
  timeout_loop now (lm_agents m) [].
End operations.

(** * Properties *)

Definition state_of (m : Manager) (aid : string) : option AgentState.t :=
  agent_state <$> dget (lm_agents m) aid.

(** The abstract machine of one agent; [None] is an agent the manager does not
    hold. *)
Inductive life_step : option AgentState.t -> option AgentState.t -> Prop :=
  | ls_create : life_step None (Some AgentState.READY)
  | ls_start : life_step (Some AgentState.READY) (Some AgentState.RUNNING)
  | ls_pause : life_step (Some AgentState.RUNNING) (Some AgentState.PAUSED)
  | ls_resume : life_step (Some AgentState.PAUSED) (Some AgentState.RUNNING)
  | ls_complete : life_step (Some AgentState.RUNNING) (Some AgentState.COMPLETED)
  | ls_fail : life_step (Some AgentState.RUNNING) (Some AgentState.FAILED)
  | ls_timeout : life_step (Some AgentState.RUNNING) (Some AgentState.TIMEOUT)
  | ls_cancel s : terminal s = false -> life_step (Some s) (Some AgentState.CANCELLED)
  | ls_cleanup s : terminal s = true -> life_step (Some s) None.

(** What every instance the manager stores satisfies. *)
Record agent_ok (k : string) (a : AgentInstance) : Prop := AgentOk {
  ao_id : agent_id a = k;
  ao_ctx : ctx_id (agent_ctx a) = k;
  ao_state : agent_state a ∉ [AgentState.CREATED; AgentState.SCHEDULED; AgentState.WAITING];
  ao_finished : is_Some (finished_at a) <-> terminal (agent_state a) = true;
  ao_started : (agent_state a = AgentState.RUNNING \/ agent_state a = AgentState.PAUSED) ->
    is_Some (started_at a);
  ao_ready : agent_state a = AgentState.READY -> started_at a = None;
  ao_count : execution_count (statistics a) = (if terminal (agent_state a) then 1 else 0);
  ao_failures : failures (statistics a)
    = (if decide (agent_state a = AgentState.FAILED) then 1 else 0)
}.

Record manager_inv (m : Manager) : Prop := ManagerInv {
  mi_wf : dict_wf (lm_agents m);
  mi_agents : forall k a, dget (lm_agents m) k = Some a -> agent_ok k a
}.

Section proofs.
Variable clock : nat -> Z.

(** ** One transition *)

Definition after_transition (m : Manager) (aid : string) (a : AgentInstance)
    (target : AgentState.t) : Manager :=
  mkManager (lm_timeout m) (dset (lm_agents m) aid (moved a target (clock (lm_reads m))))
    (lm_handlers m)
    (lm_calls m ++ map (fun h => mkCall h aid (agent_state a) target) (lm_handlers m))
    (S (lm_reads m)).

Definition may_move (current target : AgentState.t) : Prop :=
  (target = AgentState.CANCELLED /\ terminal current = false)
  \/ (target <> AgentState.CANCELLED /\ target ∈ allowed_transitions current).

Lemma transition_guard_spec aid current target :
  match transition_guard aid current target with
  | Ok _ => may_move current target
  | Err e => ~ may_move current target /\ exn_cls e = AgentLifecycleError
  end.
Proof.
  unfold transition_guard, may_move. case_decide.
  - destruct (terminal current) eqn:E; [|by left]. split; [|done]. naive_solver.
  - case_decide; [by right|]. split; [|done]. naive_solver.
Qed.

Lemma transition_eq m aid target :
  transition clock aid target m =
  match dget (lm_agents m) aid with
  | None => (Err (lifecycle_error "Agent '{}' not found." [aid]), m)
  | Some a =>
      match transition_guard aid (agent_state a) target with
      | Err e => (Err e, m)
      | Ok _ => (Ok (moved a target (clock (lm_reads m))), after_transition m aid a target)
      end
  end.
Proof.
  unfold transition, get_agent, bind, lift. destruct (dget (lm_agents m) aid) as [a|]; [|done].
  by destruct (transition_guard aid (agent_state a) target).
Qed.

Lemma may_move_target current target :
  current ∉ [AgentState.CREATED; AgentState.SCHEDULED; AgentState.WAITING] ->
  may_move current target ->
  terminal current = false /\
  (target = AgentState.SCHEDULED \/ target = AgentState.RUNNING \/ target = AgentState.PAUSED
   \/ terminal target = true) /\
  (target = AgentState.PAUSED -> current = AgentState.RUNNING).
Proof.
  intros Hc [[-> Ht]|[_ Hin]].
  - split_and!; [done|by right; right; right|done].
  - destruct current; cbn in Hin; try (exfalso; apply Hc; set_solver);
      destruct target; try (exfalso; set_solver); cbn; intuition congruence.
Qed.

Lemma agent_ok_not_finished k a :
  agent_ok k a -> terminal (agent_state a) = false ->
  finished_at a = None /\ execution_count (statistics a) = 0 /\ failures (statistics a) = 0.
Proof.
  intros [_ _ _ Hfin _ _ Hcnt Hfl] Hnt. split_and!.
  - destruct (finished_at a); [|done].
    rewrite (proj1 Hfin) in Hnt; [done|by eexists].
  - by rewrite Hnt in Hcnt.
  - rewrite decide_False in Hfl; [done|]. intros E. by rewrite E in Hnt.
Qed.

Lemma moved_ok k a target now :
  agent_ok k a -> may_move (agent_state a) target -> target <> AgentState.SCHEDULED ->
  agent_ok k (moved a target now).
Proof.
  intros Hok Hm Hns.
  destruct (may_move_target _ _ (ao_state _ _ Hok) Hm) as (Hnt & Htg & Hp).
  destruct (agent_ok_not_finished _ _ Hok Hnt) as (Hfin & Hcnt & Hfl).
  destruct Hok as [Hid Hctx _ _ Hsta _ _ _].
  split; cbn.
  - done.
  - done.
  - intros Hin. destruct target; try set_solver; destruct_or? Htg; done.
  - rewrite Hfin. destruct (terminal target); split;
      first [by intros [? [=]]|by intros _; eexists|done].
  - intros [->| ->]; cbn; [by eexists|]. apply Hsta. left. by apply Hp.
  - intros ->. destruct_or? Htg; done.
  - destruct (terminal target); cbn; lia.
  - destruct (terminal target) eqn:E; cbn; [rewrite Hfl; lia|].
    rewrite decide_False; [done|]. intros ->. done.
Qed.

Lemma manager_inv_store m aid a :
  manager_inv m -> agent_ok aid a ->
  manager_inv (with_agents m (dset (lm_agents m) aid a)).
Proof.
  intros [Hwf Hag] Ha. split; cbn; [by apply dict_wf_dset|].
  intros k b. rewrite dget_dset. case_decide; [by intros [= <-]; subst|apply Hag].
Qed.

(** The invariant only looks at the agents. *)
Lemma manager_inv_agents m m' :
  lm_agents m' = lm_agents m -> manager_inv m -> manager_inv m'.
Proof. intros Heq [Hwf Hag]. split; by rewrite Heq. Qed.

Lemma transition_inv m aid target :
  manager_inv m -> target <> AgentState.SCHEDULED ->
  manager_inv (transition clock aid target m).2.
Proof.
  intros Hm Hns. rewrite transition_eq. destruct (dget (lm_agents m) aid) as [a|] eqn:Ha; [|done].
  pose proof (transition_guard_spec aid (agent_state a) target) as Hg.
  destruct (transition_guard aid (agent_state a) target) as [[]|e]; [|done].
  eapply (manager_inv_agents (with_agents m _)); [done|].
  apply manager_inv_store; [done|]. apply moved_ok; [|done|done]. by apply (mi_agents _ Hm).
Qed.

(** [_get] before [_transition] adds nothing to it. *)
Lemma start_agent_eq aid m :
  start_agent clock aid m = transition clock aid AgentState.RUNNING m.
Proof.
  rewrite transition_eq. unfold start_agent, get_agent, bind.
  destruct (dget (lm_agents m) aid) as [a|] eqn:Ha; [|done].
  case_decide; by rewrite transition_eq, Ha.
Qed.

Definition resumed (a : AgentInstance) (now : Z) : AgentInstance :=
  mkAgent (agent_id a) AgentState.RUNNING (agent_ctx a) (created_at a)
    (Some (or_now (started_at a) now)) None (statistics a) (agent_meta a).

Lemma resume_agent_eq aid m :
  resume_agent clock aid m =
  match dget (lm_agents m) aid with
  | None => (Err (lifecycle_error "Agent '{}' not found." [aid]), m)
  | Some a =>
      if decide (agent_state a = AgentState.PAUSED) then
        (Ok (resumed a (clock (lm_reads m))),
         mkManager (lm_timeout m) (dset (lm_agents m) aid (resumed a (clock (lm_reads m))))
           (lm_handlers m)
           (lm_calls m ++ map (fun h => mkCall h aid AgentState.PAUSED AgentState.RUNNING)
                            (lm_handlers m))
           (S (lm_reads m)))
      else (Err (lifecycle_error "Cannot resume agent '{}' in state '{}'. Expected 'paused'."
                   [aid; AgentState.value (agent_state a)]), m)
  end.
Proof.
  unfold resume_agent, get_agent, bind. destruct (dget (lm_agents m) aid) as [a|]; [|done].
  case_decide as E; [|done]. cbn. by rewrite E.
Qed.

Lemma resumed_ok k a now :
  agent_ok k a -> agent_state a = AgentState.PAUSED -> agent_ok k (resumed a now).
Proof.
  intros Hok Hp. destruct (agent_ok_not_finished _ _ Hok) as (Hfin & Hcnt & Hfl);
    [by rewrite Hp|]. destruct Hok as [Hid Hctx _ _ _ _ _ _].
  split; cbn; try done. set_solver.
Qed.

Lemma resume_agent_inv aid m : manager_inv m -> manager_inv (resume_agent clock aid m).2.
Proof.
  intros Hm. rewrite resume_agent_eq. destruct (dget (lm_agents m) aid) as [a|] eqn:Ha; [|done].
  case_decide; [|done]. eapply (manager_inv_agents (with_agents m _)); [done|].
  apply manager_inv_store; [done|]. apply resumed_ok; [|done]. by apply (mi_agents _ Hm).
Qed.

(** [create_agent] stores a [CREATED] instance and moves it on at once. *)
Definition fresh_agent (c : AgentContext) (meta : option (pydict pyval)) (now : Z)
    : AgentInstance :=
  mkAgent (ctx_id c) AgentState.READY c now None None no_stats (default [] meta).

Lemma create_agent_eq c meta m :
  create_agent clock c meta m =
  if dmem (lm_agents m) (ctx_id c)
  then (Err (lifecycle_error "Agent '{}' already exists." [ctx_id c]), m)
  else
    let a := fresh_agent c meta (clock (lm_reads m)) in
    let notify := map (fun h => mkCall h (ctx_id c) AgentState.CREATED AgentState.READY)
                    (lm_handlers m) in
    (Ok a, mkManager (lm_timeout m) (lm_agents m ++ [(ctx_id c, a)]) (lm_handlers m)
             (lm_calls m ++ notify ++ notify) (S (S (lm_reads m)))).
Proof.
  unfold create_agent, bind, get. cbn.
  destruct (dmem (lm_agents m) (ctx_id c)) eqn:Hm; [done|].
  apply dmem_false in Hm. cbn. rewrite transition_eq. cbn. rewrite dget_dset_eq. cbn.
  unfold after_transition. cbn. rewrite (dkeys_dset_new _ _ _ Hm).
  rewrite <- app_assoc. rewrite dset_app_last by done. done.
Qed.

Lemma create_agent_inv c meta m :
  manager_inv m -> manager_inv (create_agent clock c meta m).2.
Proof.
  intros Hm. rewrite create_agent_eq. destruct (dmem (lm_agents m) (ctx_id c)) eqn:Hin; [done|].
  apply dmem_false in Hin. cbn.
  eapply (manager_inv_agents (with_agents m (dset (lm_agents m) (ctx_id c) _)));
    [cbn; by rewrite (dkeys_dset_new _ _ _ Hin)|].
  apply manager_inv_store; [done|]. split; cbn; try done.
  - set_solver.
  - by intros [?|?].
Qed.

(** ** Cleanup *)

Lemma delete_all ids m :
  dict_wf (lm_agents m) ->
  exists d, for_each ids delete_agent m = (Ok tt, with_agents m d) /\ dict_wf d /\
    forall k, dget d k = if decide (k ∈ ids) then None else dget (lm_agents m) k.
Proof.
  revert m. induction ids as [|x ids IH]; intros m Hwf.
  { exists (lm_agents m). by destruct m. }
  destruct (IH (with_agents m (ddel (lm_agents m) x))) as (d & Hrun & Hd & Hget).
  { by apply dict_wf_ddel. }
  exists d. split_and!; [exact Hrun|done|].
  intros k. rewrite Hget. cbn. rewrite dget_ddel by done.
  repeat case_decide; set_solver.
Qed.

Lemma cleanup_spec max_age m :
  manager_inv m ->
  let now := clock (lm_reads m) in
  let gone := filter (fun p => expired now max_age p.2 = true) (lm_agents m) in
  exists m', cleanup clock max_age m = (Ok (Z.of_nat (length gone)), m') /\
    manager_inv m' /\ lm_calls m' = lm_calls m /\
    forall k, dget (lm_agents m') k =
      match dget (lm_agents m) k with
      | Some a => if expired now max_age a then None else Some a
      | None => None
      end.
Proof.
  intros [Hwf Hag] now gone.
  set (m1 := mkManager (lm_timeout m) (lm_agents m) (lm_handlers m) (lm_calls m) (S (lm_reads m))).
  destruct (delete_all (map fst gone) m1 Hwf) as (d & Hrun & Hd & Hget).
  assert (Hg : forall k, k ∈ map fst gone <->
    exists a, dget (lm_agents m) k = Some a /\ expired now max_age a = true).
  { intros k. rewrite list_elem_of_fmap. unfold gone. setoid_rewrite list_elem_of_filter. split.
    - intros ([k' a] & -> & He & Hin). exists a. split; [by apply dget_elem|done].
    - intros (a & Ha%dget_Some_elem & He). by exists (k, a). }
  assert (Hfin : forall k, dget d k =
    match dget (lm_agents m) k with
    | Some a => if expired now max_age a then None else Some a
    | None => None
    end).
  { intros k. rewrite Hget. case_decide as Hk.
    - apply Hg in Hk as (a & -> & ->). done.
    - cbn. destruct (dget (lm_agents m) k) as [a|] eqn:Ha; [|done].
      destruct (expired now max_age a) eqn:He; [|done]. exfalso. apply Hk, Hg. eauto. }
  exists (with_agents m1 d). split_and!; [|split; cbn; [done|]|done|exact Hfin].
  - unfold cleanup, bind, time_now, get, ret. fold now. cbn.
    fold m1. fold gone. rewrite Hrun. by rewrite length_map.
  - intros k a. rewrite Hfin. destruct (dget (lm_agents m) k) as [b|] eqn:Hb; [|done].
    destruct (expired now max_age b); [done|]. intros [= <-]. by apply Hag.
Qed.

(** ** Timeouts *)

Lemma overdue_running now t a : overdue now t a = true -> agent_state a = AgentState.RUNNING.
Proof. unfold overdue. intros [H _]%andb_true_iff. by apply bool_decide_eq_true in H. Qed.

Lemma timeout_one_eq now acc p m :
  dget (lm_agents m) p.1 = Some p.2 ->
  timeout_one clock now acc p m =
    if overdue now (lm_timeout m) p.2
    then (Ok (acc ++ [p.1]), after_transition m p.1 p.2 AgentState.TIMEOUT)
    else (Ok acc, m).
Proof.
  intros Hp. unfold timeout_one, bind, get, catch. cbn.
  destruct (overdue now (lm_timeout m) p.2) eqn:Ho; [|done].
  rewrite transition_eq, Hp. rewrite (overdue_running _ _ _ Ho). done.
Qed.

Definition timed_out (now : Z) (t : Z) (a : AgentInstance) (m : Manager) : AgentInstance :=
  if overdue now (lm_timeout m) a then moved a AgentState.TIMEOUT t else a.

Lemma timeout_one_spec now acc p m :
  manager_inv m -> dget (lm_agents m) p.1 = Some p.2 ->
  exists m1 t, timeout_one clock now acc p m
      = (Ok (acc ++ if overdue now (lm_timeout m) p.2 then [p.1] else []), m1) /\
    manager_inv m1 /\ lm_timeout m1 = lm_timeout m /\
    (forall k, dget (lm_agents m1) k
      = if decide (k = p.1) then Some (timed_out now t p.2 m) else dget (lm_agents m) k).
Proof.
  intros Hm Hp. rewrite timeout_one_eq by done. unfold timed_out.
  destruct (overdue now (lm_timeout m) p.2) eqn:Ho.
  - exists (after_transition m p.1 p.2 AgentState.TIMEOUT), (clock (lm_reads m)).
    split_and!; [done| |done|].
    + assert (Heq : after_transition m p.1 p.2 AgentState.TIMEOUT
        = (transition clock p.1 AgentState.TIMEOUT m).2).
      { rewrite transition_eq, Hp. by rewrite (overdue_running _ _ _ Ho). }
      rewrite Heq. by apply transition_inv.
    + intros k. cbn. rewrite dget_dset. repeat case_decide; congruence.
  - exists m, 0. rewrite app_nil_r. split_and!; [done..|].
    intros k. case_decide; congruence.
Qed.

Lemma timeout_loop_spec now items acc m :
  NoDup (map fst items) -> manager_inv m ->
  (forall p, p ∈ items -> dget (lm_agents m) p.1 = Some p.2) ->
  exists m', timeout_loop clock now items acc m
      = (Ok (acc ++ map fst (filter (fun p => overdue now (lm_timeout m) p.2 = true) items)), m') /\
    manager_inv m' /\
    (forall k, k ∉ map fst items -> dget (lm_agents m') k = dget (lm_agents m) k) /\
    (forall p, p ∈ items -> exists t,
      dget (lm_agents m') p.1 = Some (timed_out now t p.2 m)).
Proof.
  revert acc m. induction items as [|p items IH]; intros acc m Hnd Hm Hin.
  { exists m. rewrite filter_nil, app_nil_r. split_and!; [done..|]. set_solver. }
  apply NoDup_cons in Hnd as [Hp Hnd].
  destruct (timeout_one_spec now acc p m Hm (Hin p ltac:(set_solver)))
    as (m1 & t & Hone & Hm1 & Hto & Hget).
  destruct (IH (acc ++ if overdue now (lm_timeout m) p.2 then [p.1] else []) m1 Hnd Hm1)
    as (m' & Hl & Hm' & Hout & Hins).
  { intros q Hq. rewrite Hget, decide_False; [apply Hin; set_solver|].
    intros Heq. apply Hp. rewrite <- Heq. apply list_elem_of_fmap. by exists q. }
  unfold timed_out in *. exists m'. rewrite Hto in *. split_and!; [|done|..].
  - rewrite filter_cons. cbn [timeout_loop]. unfold bind. rewrite Hone, Hl, <- app_assoc.
    by destruct (overdue now (lm_timeout m) p.2).
  - intros k Hkn. cbn in Hkn. rewrite Hout, Hget by set_solver.
    rewrite decide_False; [done|set_solver].
  - intros q [->|Hq]%elem_of_cons; [|by apply Hins].
    exists t. rewrite Hout by done. rewrite Hget. by rewrite decide_True.
Qed.

Lemma check_timeouts_spec m :
  manager_inv m ->
  let now := clock (lm_reads m) in
  let late := filter (fun p => overdue now (lm_timeout m) p.2 = true) (lm_agents m) in
  exists m', check_timeouts clock m = (Ok (map fst late), m') /\
    manager_inv m' /\
    (forall k, match dget (lm_agents m) k with
      | Some a => exists t, dget (lm_agents m') k = Some (timed_out now t a m)
      | None => dget (lm_agents m') k = None
      end).
Proof.
  intros Hm now late.
  set (m1 := mkManager (lm_timeout m) (lm_agents m) (lm_handlers m) (lm_calls m) (S (lm_reads m))).
  destruct (timeout_loop_spec now (lm_agents m) [] m1) as (m' & Hl & Hm' & Hout & Hin).
  - apply Hm.
  - eapply manager_inv_agents; [|exact Hm]. done.
  - intros [k a] Hp. by apply dget_elem; [apply Hm|].
  - exists m'. split_and!; [|done|].
    + unfold check_timeouts, bind, time_now, get. fold now. fold m1. cbn. exact Hl.
    + intros k. destruct (dget (lm_agents m) k) as [a|] eqn:Ha.
      * apply dget_Some_elem in Ha. destruct (Hin (k, a) Ha) as [t Ht]. by exists t.
      * rewrite Hout; [done|]. by apply dget_None.
Qed.

(** ** Histories *)

Inductive lm_op :=
  | OpOnEvent (handler : string)
  | OpCreate (c : AgentContext) (meta : option (pydict pyval))
  | OpStart (aid : string)
  | OpPause (aid : string)
  | OpResume (aid : string)
  | OpCancel (aid : string)
  | OpComplete (aid : string)
  | OpFail (aid : string)
  | OpCleanup (max_age : Z)
  | OpCheckTimeouts.

Definition run_lm_op (op : lm_op) : M Manager unit :=
  match op with
  | OpOnEvent h => on_event h
  | OpCreate c meta => discard (create_agent clock c meta)
  | OpStart aid => discard (start_agent clock aid)
  | OpPause aid => discard (pause_agent clock aid)
  | OpResume aid => discard (resume_agent clock aid)
  | OpCancel aid => discard (cancel_agent clock aid)
  | OpComplete aid => discard (complete_agent clock aid)
  | OpFail aid => discard (fail_agent clock aid)
  | OpCleanup age => discard (cleanup clock age)
  | OpCheckTimeouts => discard (check_timeouts clock)
  end.

Definition run_lm_ops (ops : list lm_op) (m : Manager) : Manager :=
  fold_left (fun m op => (run_lm_op op m).2) ops m.

(** How one operation may change what the manager holds under one id. *)
Inductive agent_step : option AgentInstance -> option AgentInstance -> Prop :=
  | as_create c meta now : agent_step None (Some (fresh_agent c meta now))
  | as_move a target now :
      may_move (agent_state a) target -> target <> AgentState.SCHEDULED ->
      (target = AgentState.TIMEOUT -> agent_state a = AgentState.RUNNING) ->
      agent_step (Some a) (Some (moved a target now))
  | as_resume a now :
      agent_state a = AgentState.PAUSED -> agent_step (Some a) (Some (resumed a now)).

Lemma transition_agent_step m aid target k :
  target <> AgentState.SCHEDULED -> target <> AgentState.TIMEOUT ->
  let m' := (transition clock aid target m).2 in
  dget (lm_agents m') k = dget (lm_agents m) k
  \/ agent_step (dget (lm_agents m) k) (dget (lm_agents m') k).
Proof.
  intros Hs Ht. rewrite transition_eq. destruct (dget (lm_agents m) aid) as [a|] eqn:Ha; [|by left].
  pose proof (transition_guard_spec aid (agent_state a) target) as Hg.
  destruct (transition_guard aid (agent_state a) target) as [[]|e]; [|by left].
  cbn. rewrite dget_dset. case_decide as Hk; [|by left]. subst. rewrite Ha.
  right. by constructor.
Qed.

Lemma op_agent_step op m k :
  manager_inv m ->
  let m' := (run_lm_op op m).2 in
  dget (lm_agents m') k = dget (lm_agents m) k
  \/ agent_step (dget (lm_agents m) k) (dget (lm_agents m') k)
  \/ (exists age a, op = OpCleanup age /\ dget (lm_agents m) k = Some a /\
        terminal (agent_state a) = true /\ dget (lm_agents m') k = None).
Proof.
  intros Hm. destruct op as [h|c meta|aid|aid|aid|aid|aid|aid|age|]; unfold run_lm_op;
    cbn zeta; rewrite ?discard_state; [by left|..];
    try (apply or_assoc; left; by apply transition_agent_step).
  - rewrite create_agent_eq. destruct (dmem (lm_agents m) (ctx_id c)) eqn:Hin; [by left|].
    apply dmem_false in Hin. cbn. rewrite <- (dkeys_dset_new _ _ _ Hin), dget_dset.
    case_decide; [|by left]. subst. apply dget_None in Hin. rewrite Hin.
    right. left. constructor.
  - rewrite start_agent_eq. apply or_assoc. left. by apply transition_agent_step.
  - rewrite resume_agent_eq. destruct (dget (lm_agents m) aid) as [a|] eqn:Ha; [|by left].
    case_decide; [|by left]. cbn. rewrite dget_dset. case_decide; [|by left]. subst.
    rewrite Ha. right. left. by constructor.
  - destruct (cleanup_spec age m Hm) as (m' & Hrun & _ & _ & Hget). rewrite Hrun. cbn.
    rewrite Hget. destruct (dget (lm_agents m) k) as [a|] eqn:Ha; [|by left].
    destruct (expired (clock (lm_reads m)) age a) eqn:He; [|by left].
    right. right. exists age, a. split_and!; [done..| |done].
    unfold expired in He. destruct (finished_at a); [|done].
    by apply andb_true_iff in He as [_ ?].
  - destruct (check_timeouts_spec m Hm) as (m' & Hrun & _ & Hget). rewrite Hrun. cbn.
    specialize (Hget k). destruct (dget (lm_agents m) k) as [a|] eqn:Ha; [|by left].
    destruct Hget as [t Ht]. rewrite Ht. unfold timed_out.
    destruct (overdue (clock (lm_reads m)) (lm_timeout m) a) eqn:Ho; [|by left].
    apply overdue_running in Ho. right. left. constructor; [|done|done].
    right. rewrite Ho. split; [done|]. cbn. set_solver.
Qed.

Lemma run_lm_op_inv op m : manager_inv m -> manager_inv (run_lm_op op m).2.
Proof.
  intros Hm. destruct op as [h|c meta|aid|aid|aid|aid|aid|aid|age|]; unfold run_lm_op;
    rewrite ?discard_state; try (by apply transition_inv).
  - by eapply manager_inv_agents; [|exact Hm].
  - by apply create_agent_inv.
  - rewrite start_agent_eq. by apply transition_inv.
  - by apply resume_agent_inv.
  - destruct (cleanup_spec age m Hm) as (m' & -> & ? & _). done.
  - destruct (check_timeouts_spec m Hm) as (m' & -> & ? & _). done.
Qed.

Lemma run_lm_ops_inv ops m : manager_inv m -> manager_inv (run_lm_ops ops m).
Proof.
  unfold run_lm_ops. revert m. induction ops as [|op ops IH]; intros m Hm; cbn; [done|].
  by apply IH, run_lm_op_inv.
Qed.

Lemma new_manager_inv t : manager_inv (new_manager t).
Proof. split; [constructor|done]. Qed.

Lemma life_step_allowed current target :
  current ∉ [AgentState.CREATED; AgentState.SCHEDULED; AgentState.WAITING] ->
  may_move current target -> target <> AgentState.SCHEDULED ->
  (target = AgentState.TIMEOUT -> current = AgentState.RUNNING) ->
  life_step (Some current) (Some target).
Proof.
  intros Hc [[-> ?]|[_ Hin]] Hs Ht; [by constructor|].
  apply (bool_decide_eq_false_2 _) in Hc. apply (bool_decide_eq_true_2 _) in Hin.
  destruct current; try discriminate Hc; destruct target; try discriminate Hin;
    try (by constructor); [done|by specialize (Ht eq_refl)].
Qed.

Lemma agent_step_life k o o' :
  (forall a, o = Some a -> agent_ok k a) -> agent_step o o' ->
  life_step (agent_state <$> o) (agent_state <$> o').
Proof.
  intros Hok Hs. destruct Hs as [c meta now|a target now Hmv Hns Hto|a now Hp]; cbn.
  - constructor.
  - apply life_step_allowed; [|done..]. exact (ao_state _ _ (Hok a eq_refl)).
  - rewrite Hp. constructor.
Qed.
End proofs.

(** ** Properties of the lifecycle *)

(** C39: Every operation of the manager, on any history of it, changes what it
    holds under an id by at most one step of the abstract machine
    [life_step]: the detailed manager refines that machine. *)
Theorem lifecycle_refines clock timeout ops op k :
  let m := run_lm_ops clock ops (new_manager timeout) in
  let m' := (run_lm_op clock op m).2 in
  state_of m' k = state_of m k \/ life_step (state_of m k) (state_of m' k).
Proof.
  intros m m'. pose proof (run_lm_ops_inv clock ops _ (new_manager_inv timeout)) as Hm.
  fold m in Hm. unfold state_of.
  destruct (op_agent_step clock op m k Hm) as [Heq|[Hs|(age & a & _ & Ha & Ht & Hn)]].
  - left. exact (f_equal (fmap agent_state) Heq).
  - right. exact (agent_step_life k _ _ (fun a => mi_agents _ Hm k a) Hs).
  - right. assert (Hn' : dget (lm_agents m') k = None) by exact Hn.
    rewrite Ha, Hn'. by constructor.
Qed.

(** On every history, ids are unique, each agent is stored under its own id,
    none is ever seen CREATED, SCHEDULED or WAITING, [finished_at] is set exactly
    in the terminal states, a running or paused agent has a start time, and the
    execution and failure counters agree with the state. *)
Theorem lifecycle_reachable_inv clock timeout ops :
  manager_inv (run_lm_ops clock ops (new_manager timeout)).
Proof. apply run_lm_ops_inv, new_manager_inv. Qed.

(** A terminal agent is frozen: no operation but [cleanup] changes it. *)
Theorem terminal_absorbing clock op m k a :
  manager_inv m -> dget (lm_agents m) k = Some a -> terminal (agent_state a) = true ->
  (forall age, op <> OpCleanup age) ->
  dget (lm_agents (run_lm_op clock op m).2) k = Some a.
Proof.
  intros Hm Ha Ht Hop.
  destruct (op_agent_step clock op m k Hm) as [Heq|[Hs|(age & _ & -> & _)]];
    [by rewrite Heq| |].
  - exfalso. rewrite Ha in Hs. inversion Hs as [|? ? ? Hmv|? ? Hp]; subst.
    + destruct (may_move_target _ _ (ao_state _ _ (mi_agents _ Hm _ _ Ha)) Hmv) as [Hf _].
      by rewrite Ht in Hf.
    + by rewrite Hp in Ht.
  - by destruct (Hop age).
Qed.

(** A transition succeeds exactly when the agent exists and the table (or the
    rule for cancelling) allows it; it then stores the moved instance under that
    id only and calls every handler once.  A refused transition is an
    [AgentLifecycleError] and changes nothing. *)
Theorem transition_outcome clock m aid target :
  match transition clock aid target m with
  | (Ok a', m') =>
      exists a, dget (lm_agents m) aid = Some a /\ may_move (agent_state a) target /\
        a' = moved a target (clock (lm_reads m)) /\
        (forall k, dget (lm_agents m') k
          = if decide (aid = k) then Some a' else dget (lm_agents m) k) /\
        lm_calls m' = lm_calls m
          ++ map (fun h => mkCall h aid (agent_state a) target) (lm_handlers m)
  | (Err e, m') =>
      m' = m /\ exn_cls e = AgentLifecycleError /\
      forall a, dget (lm_agents m) aid = Some a -> ~ may_move (agent_state a) target
  end.
Proof.
  rewrite transition_eq. destruct (dget (lm_agents m) aid) as [a|] eqn:Ha; [|done].
  pose proof (transition_guard_spec aid (agent_state a) target) as Hg.
  destruct (transition_guard aid (agent_state a) target) as [[]|e].
  - exists a. split_and!; try done. intros k. cbn. by rewrite dget_dset.
  - destruct Hg as [? ?]. split_and!; [done..|]. intros b [= <-]. done.
Qed.

(** [check_timeouts] returns the running agents whose elapsed time exceeds the
    limit, in the order of creation, moves exactly those to [TIMEOUT], and leaves
    every other agent as it is. *)
Theorem check_timeouts_exact clock m :
  manager_inv m ->
  let now := clock (lm_reads m) in
  let late := filter (fun p => overdue now (lm_timeout m) p.2 = true) (lm_agents m) in
  exists m', check_timeouts clock m = (Ok (map fst late), m') /\
    manager_inv m' /\
    (forall k, match dget (lm_agents m) k with
      | Some a => exists t, dget (lm_agents m') k = Some (timed_out now t a m)
      | None => dget (lm_agents m') k = None
      end).
Proof. apply check_timeouts_spec. Qed.

(** [cleanup] removes exactly the terminal agents that finished more than
    [max_age_s] ago, returns their number, and calls no handler. *)
Theorem cleanup_exact clock max_age m :
  manager_inv m ->
  let now := clock (lm_reads m) in
  let gone := filter (fun p => expired now max_age p.2 = true) (lm_agents m) in
  exists m', cleanup clock max_age m = (Ok (Z.of_nat (length gone)), m') /\
    manager_inv m' /\ lm_calls m' = lm_calls m /\
    forall k, dget (lm_agents m') k =
      match dget (lm_agents m) k with
      | Some a => if expired now max_age a then None else Some a
      | None => None
      end.
Proof. apply cleanup_spec. Qed.

(** Creating an agent reports the same move, CREATED to READY, twice to
    every handler. *)
Theorem create_notifies_twice clock c meta m :
  dmem (lm_agents m) (ctx_id c) = false ->
  let notify := map (fun h => mkCall h (ctx_id c) AgentState.CREATED AgentState.READY)
                  (lm_handlers m) in
  lm_calls (create_agent clock c meta m).2 = lm_calls m ++ notify ++ notify /\
  (create_agent clock c meta m).1 = Ok (fresh_agent c meta (clock (lm_reads m))).
Proof. intros Hm. rewrite create_agent_eq, Hm. done. Qed.

(** Cancelling an agent that never started counts one execution and records
    the time of the cancellation as its last execution start. *)
Theorem cancel_before_start_counts clock m aid a :
  manager_inv m -> dget (lm_agents m) aid = Some a -> agent_state a = AgentState.READY ->
  exists a', (cancel_agent clock aid m).1 = Ok a' /\
    started_at a' = None /\ execution_count (statistics a') = 1 /\
    last_execution (statistics a') = Some (clock (lm_reads m)).
Proof.
  intros Hm Ha Hr. unfold cancel_agent. rewrite transition_eq, Ha, Hr. cbn.
  pose proof (mi_agents _ Hm _ _ Ha) as Hok.
  destruct (agent_ok_not_finished _ _ Hok) as (_ & Hcnt & _); [by rewrite Hr|].
  eexists. split; [done|]. cbn. rewrite (ao_ready _ _ Hok Hr), Hcnt. done.
Qed.

(** ** Concrete histories *)

Definition demo_clock (i : nat) : Z := 100 * (Z.of_nat i + 1).
Definition demo_ctx (i : string) : AgentContext := mkCtx i "m1" "t1" "chat" None [].

(** One agent running since 300, one ready, one completed at 700. *)
Definition demo_history : list lm_op :=
  [OpOnEvent "h"; OpCreate (demo_ctx "a") None; OpStart "a"; OpCreate (demo_ctx "b") None;
   OpCreate (demo_ctx "c") None; OpStart "c"; OpComplete "c"].
Definition demo_manager : Manager := run_lm_ops demo_clock demo_history (new_manager 300).

Lemma demo_manager_inv : manager_inv demo_manager.
Proof. apply run_lm_ops_inv, new_manager_inv. Qed.

Example demo_states :
  map (fun p => (p.1, AgentState.value (agent_state p.2))) (lm_agents demo_manager)
    = [("a", "running"); ("b", "ready"); ("c", "completed")].
Proof. vm_compute. reflexivity. Qed.

Lemma terminal_absorbing_witness :
  exists a, agent_state a = AgentState.COMPLETED /\
    dget (lm_agents (run_lm_op demo_clock (OpCancel "c") demo_manager).2) "c" = Some a.
Proof.
  eexists. split; [|apply (terminal_absorbing demo_clock (OpCancel "c") demo_manager "c");
    [exact demo_manager_inv|vm_compute; reflexivity|reflexivity|discriminate]].
  reflexivity.
Defined.

Lemma check_timeouts_exact_witness :
  exists m', check_timeouts demo_clock demo_manager = (Ok ["a"], m') /\ manager_inv m'.
Proof.
  destruct (check_timeouts_exact demo_clock demo_manager demo_manager_inv) as (m' & Hrun & Hm' & _).
  exists m'. split; [|exact Hm']. rewrite Hrun. f_equal.
Defined.

Lemma cleanup_exact_witness :
  exists m', cleanup demo_clock 50 demo_manager = (Ok 1, m') /\ dget (lm_agents m') "c" = None.
Proof.
  destruct (cleanup_exact demo_clock 50 demo_manager demo_manager_inv)
    as (m' & Hrun & _ & _ & Hget).
  exists m'. split; [rewrite Hrun; reflexivity|]. rewrite Hget. vm_compute. reflexivity.
Defined.

Lemma create_notifies_twice_witness :
  lm_calls (create_agent demo_clock (demo_ctx "d") None (mkManager 300 [] ["h"] [] 0)).2
    = [mkCall "h" "d" AgentState.CREATED AgentState.READY;
       mkCall "h" "d" AgentState.CREATED AgentState.READY].
Proof.
  destruct (create_notifies_twice demo_clock (demo_ctx "d") None (mkManager 300 [] ["h"] [] 0)
    eq_refl) as [-> _]. reflexivity.
Defined.

Lemma cancel_before_start_counts_witness :
  exists a', (cancel_agent demo_clock "b" demo_manager).1 = Ok a' /\
    started_at a' = None /\ execution_count (statistics a') = 1.
Proof.
  destruct (dget (lm_agents demo_manager) "b") as [a|] eqn:Ha; [|vm_compute in Ha; discriminate].
  destruct (cancel_before_start_counts demo_clock demo_manager "b" a demo_manager_inv Ha)
    as (a' & Hr & Hs & Hc & _).
  - vm_compute in Ha. injection Ha as <-. reflexivity.
  - exists a'. split; [exact Hr|]. split; [exact Hs|exact Hc].
Defined.
