(* ===== verification/TaskPlanner.v ===== *)
(** * The task planner ([backend/agent/task_planner.py])

    [PlanningValidator] and [TaskPlanner]: what the validation accepts, that the
    graph built from accepted tasks holds every declared dependency, and when
    [create_plan] succeeds.

    A complexity is a float in the code and a rational here (no rounding, no
    NaN).  The iteration order of the sets is a parameter ([SetOrder]). *)
From stdpp Require Import base gmap strings list sets relations sorting.
From Stdlib Require Import ZArith QArith Qminmax Lia Lqa.
From S2P Require Import Prelude.
From S2P Require Import Kahn.
From S2P Require Import ExecutionGraph.
#[local] Open Scope Z_scope.

Module PlanningStrategy.
Inductive t := SEQUENTIAL | BALANCED | PARALLEL | CONSERVATIVE.
#[global] Instance eq_dec : EqDecision t.
Proof. solve_decision. Defined.

Definition value (s : t) : string :=
  match s with
  | SEQUENTIAL => "sequential"
  | BALANCED => "balanced"
  | PARALLEL => "parallel"
  | CONSERVATIVE => "conservative"
  end.
End PlanningStrategy.

Record TaskMission := mkMission {
  tm_id : string;
  tm_title : string;
  tm_description : string;
  tm_objective : string;
  tm_priority : Z;
  tm_meta : pydict pyval
}.

Record PlannedTask := mkTask {
  task_id : string;
  task_title : string;
  task_description : string;
  task_complexity : Q;
  task_cap : string;
  task_deps : gset string;
  task_parallelizable : bool;
  task_meta : pydict pyval
}.

Record TaskPlan := mkTaskPlan {
  plan_mission : TaskMission;
  plan_tasks : list PlannedTask;
  plan_graph : option ExecutionGraph;
  plan_strategy : PlanningStrategy.t;
  plan_duration : Q;
  plan_groups : list (gset string);
  plan_meta : pydict pyval
}.

Definition with_deps (t : PlannedTask) (deps : gset string) : PlannedTask :=
  mkTask (task_id t) (task_title t) (task_description t) (task_complexity t) (task_cap t) deps
    (task_parallelizable t) (task_meta t).

Section planner.
Context `{!SetOrder}.

(** ** PlanningValidator *)

Definition complexity_in_range (c : Q) : bool := Qle_bool 0 c && Qle_bool c 10.

(** One turn of the loop of [validate_tasks]: the errors of [t] and the ids
    seen once [t] has been added. *)
Definition validate_task (st : list message * list string) (t : PlannedTask)
    : list message * list string :=
  let '(errors, ids) := st in
  let dup := if decide (task_id t ∈ ids) then [Msg "Duplicate task id '{}'." [task_id t]] else [] in
  let ids' := task_id t :: ids in
  let range := if complexity_in_range (task_complexity t) then []
               else [Msg "Task '{}': estimated_complexity must be 0-10." [task_id t]] in
  let unknown := map (fun d => Msg "Task '{}' references unknown dependency '{}'." [task_id t; d])
                   (filter (fun d => d ∉ ids') (iter_set (task_deps t))) in
  (errors ++ dup ++ range ++ unknown, ids').

Definition validate_tasks (tasks : list PlannedTask) : list message :=
  (fold_left validate_task tasks ([], [])).1.

(** The edges the cycle check adds; a dependency on an unknown id is skipped. *)
Definition task_edges (tasks : list PlannedTask) : list (string * string) :=
  flat_map (fun t => map (fun d => (d, task_id t)) (iter_set (task_deps t))) tasks.

Definition validate_cycle_among_tasks (tasks : list PlannedTask) : res (list message) :=
  let node_ids := iter_set (list_to_set (map task_id tasks)) in
  let b := kahn_build node_ids (task_edges tasks) in
  r <-? kahn_loop (fun _ visited => visited + 1) (fun _ _ a => Ok a) (dlookup b.1)
          (length node_ids) b.2 (zero_degree b.2) 0 ;;
  if r.2 =? Z.of_nat (length node_ids) then Ok []
  else Ok [Msg "Cycle detected among tasks: {}" (map fst (filter (fun p => 0 < p.2) r.1))].

Definition validate_capabilities (tasks : list PlannedTask)
    (available : option (gset string)) : list message :=
  match available with
  | None => []
  | Some caps =>
      map (fun t => Msg "Task '{}' requires unknown capability '{}'." [task_id t; task_cap t])
        (filter (fun t => task_cap t ∉ caps) tasks)
  end.

Definition validator_validate_plan (tasks : list PlannedTask)
    (available : option (gset string)) : res (list message) :=
  cycles <-? validate_cycle_among_tasks tasks ;;
  Ok (validate_tasks tasks ++ cycles ++ validate_capabilities tasks available).

(** ** TaskPlanner *)

Record TaskPlanner := mkPlanner {
  tp_strategy : PlanningStrategy.t;
  tp_available : option (gset string)
}.

Definition set_strategy (s : PlanningStrategy.t) (p : TaskPlanner) : TaskPlanner :=
  mkPlanner s (tp_available p).

(** [_make_sequential]; [prev] is [tasks[i - 1].id] when [i > 0]. *)
Fixpoint make_sequential_from (prev : option string) (tasks : list PlannedTask)
    : list PlannedTask :=
  match tasks with
  | [] => []
  | t :: ts =>
      with_deps t (match prev with Some i => {[i]} | None => ∅ end)
        :: make_sequential_from (Some (task_id t)) ts
  end.

Definition make_sequential (tasks : list PlannedTask) : list PlannedTask :=
  make_sequential_from None tasks.

(** [_make_conservative] *)
Fixpoint make_conservative_from (all_previous : gset string) (tasks : list PlannedTask)
    : list PlannedTask :=
  match tasks with
  | [] => []
  | t :: ts =>
      with_deps t ((task_deps t ∪ all_previous) ∖ {[task_id t]})
        :: make_conservative_from ({[task_id t]} ∪ all_previous) ts
  end.

Definition make_conservative (tasks : list PlannedTask) : list PlannedTask :=
  make_conservative_from ∅ tasks.

Definition apply_strategy (s : PlanningStrategy.t) (tasks : list PlannedTask)
    : list PlannedTask :=
  match s with
  | PlanningStrategy.SEQUENTIAL => make_sequential tasks
  | PlanningStrategy.CONSERVATIVE => make_conservative tasks
  | _ => tasks
  end.

(** [sorted(task.dependencies)] *)
Definition sorted_deps (t : PlannedTask) : list string :=
  sort_by String.le (iter_set (task_deps t)).

Definition task_node (t : PlannedTask) : AgentNode :=
  mkNode (task_id t) (String.substring 0 200 (task_title t))
    (TypeEnum (if task_parallelizable t then NodeType.PARALLEL else NodeType.TASK))
    (StatusEnum NodeStatus.PENDING) (task_cap t)
    [("description", PStr (task_description t));
     ("estimated_complexity", PFloat (task_complexity t));
     ("original_deps", PList (map PStr (sorted_deps t)))].

Definition any_exception (c : exn_class) : bool := true.

Definition try_add_edge (e : string * string) : M ExecutionGraph unit :=
  catch (add_edge (mkEdge e.1 e.2 "" [])) any_exception (fun _ => ret tt).

(** [_tasks_to_graph] on the graph [graph] under construction. *)
Definition build_graph (tasks : list PlannedTask) : M ExecutionGraph unit :=
  for_each tasks (fun t => add_node (task_node t)) ;;;
  for_each tasks (fun t => for_each (iter_set (task_deps t))
                             (fun dep => try_add_edge (dep, task_id t))).

Definition tasks_to_graph (tasks : list PlannedTask) : res ExecutionGraph :=
  match build_graph tasks empty_graph with
  | (Ok _, g) => Ok g
  | (Err e, _) => Err e
  end.

Definition sum_complexity (tasks : list PlannedTask) : Q :=
  fold_left (fun acc t => acc + task_complexity t)%Q tasks 0%Q.

(** The inner loops of [_estimate_duration]: the first task with this id. *)
Definition level_max (tasks : list PlannedTask) (level : gset string) : Q :=
  fold_left (fun m nid =>
    match List.find (fun t => bool_decide (task_id t = nid)) tasks with
    | Some t => Qmax m (task_complexity t)
    | None => m
    end) (iter_set level) 0%Q.

Definition estimate_duration (tasks : list PlannedTask) (lvls : list (gset string)) : Q :=
  match lvls with
  | [] => sum_complexity tasks
  | _ => fold_left (fun total level => total + level_max tasks level)%Q lvls 0%Q
  end.

Definition planning_error (errors : list message) : exn := Exn PlanningError errors.

(** [create_plan], the clock reading [now]. *)
Definition create_plan (p : TaskPlanner) (now : Z) (mission : TaskMission)
    (tasks : list PlannedTask) : res TaskPlan :=
  errors <-? validator_validate_plan tasks (tp_available p) ;;
  match errors with
  | _ :: _ => Err (planning_error errors)
  | [] =>
      let optimised := apply_strategy (tp_strategy p) tasks in
      graph <-? tasks_to_graph optimised ;;
      g_plan <-? generate_plan graph ;;
      Ok (mkTaskPlan mission optimised (Some graph) (tp_strategy p)
            (estimate_duration optimised (levels g_plan)) (levels g_plan)
            [("created_at", PInt now); ("strategy", PStr (PlanningStrategy.value (tp_strategy p)));
             ("task_count", PInt (Z.of_nat (length optimised)))])
  end.

Definition planner_validate_plan (p : TaskPlanner) (tasks : list PlannedTask)
    : res (list message) := validator_validate_plan tasks (tp_available p).

Definition optimize_plan (p : TaskPlanner) (now : Z) (plan : TaskPlan) : res TaskPlan :=
  create_plan p now (plan_mission plan) (plan_tasks plan).

Definition to_execution_graph (p : TaskPlanner) (tasks : list PlannedTask)
    : res ExecutionGraph :=
  errors <-? validator_validate_plan tasks (tp_available p) ;;
  match errors with
  | _ :: _ => Err (planning_error errors)
  | [] => tasks_to_graph tasks
  end.
End planner.

(** * Properties *)

Section proofs.
Context `{!SetOrder}.
Implicit Types tasks : list PlannedTask.

Definition ids (tasks : list PlannedTask) : list string := map task_id tasks.

(** A dependency names an earlier task, or the task itself. *)
Definition earlier_or_self (tasks : list PlannedTask) : Prop :=
  prefix_all (fun before t => forall d, d ∈ task_deps t -> d ∈ ids before \/ d = task_id t) tasks.

(** A dependency names an earlier task. *)
Definition backward (tasks : list PlannedTask) : Prop :=
  prefix_all (fun before t => forall d, d ∈ task_deps t -> d ∈ ids before) tasks.

Definition no_self_dep (tasks : list PlannedTask) : Prop :=
  forall t, t ∈ tasks -> task_id t ∉ task_deps t.

Definition in_range (tasks : list PlannedTask) : Prop :=
  forall t, t ∈ tasks -> (0 <= task_complexity t <= 10)%Q.

(** ** What the validation accepts *)

Lemma ids_snoc tasks t : ids (tasks ++ [t]) = ids tasks ++ [task_id t].
Proof. apply map_app. Qed.

Lemma complexity_in_range_spec c : complexity_in_range c = true <-> (0 <= c <= 10)%Q.
Proof. unfold complexity_in_range. by rewrite andb_true_iff, !Qle_bool_iff. Qed.

Lemma validate_fold_spec tasks :
  let st := fold_left validate_task tasks ([], []) in
  (forall x, x ∈ st.2 <-> x ∈ ids tasks) /\
  (st.1 = [] <-> NoDup (ids tasks) /\ in_range tasks /\ earlier_or_self tasks).
Proof.
  induction tasks as [|t tasks IH] using rev_ind.
  { cbn. split; [done|]. split; [|done]. intros _. split_and!; [constructor| |].
    - intros t. set_solver.
    - apply prefix_all_nil. }
  rewrite fold_left_app. cbn. destruct (fold_left validate_task tasks ([], [])) as [errors seen].
  destruct IH as [Hseen Herr]. cbn in *.
  assert (Hids : forall x, x ∈ task_id t :: seen <-> x ∈ ids (tasks ++ [t])).
  { intros x. rewrite ids_snoc, elem_of_cons, elem_of_app, list_elem_of_singleton, Hseen. tauto. }
  split; [exact Hids|]. unfold earlier_or_self. rewrite prefix_all_snoc.
  fold (earlier_or_self tasks). rewrite !app_nil, Herr, ids_snoc.
  assert (Hdup : (if decide (task_id t ∈ seen)
    then [Msg "Duplicate task id '{}'." [task_id t]] else []) = [] <-> task_id t ∉ ids tasks).
  { rewrite <- Hseen. case_decide; split; try done. }
  assert (Hrange : (if complexity_in_range (task_complexity t) then []
    else [Msg "Task '{}': estimated_complexity must be 0-10." [task_id t]]) = []
    <-> (0 <= task_complexity t <= 10)%Q).
  { rewrite <- complexity_in_range_spec. destruct (complexity_in_range _); split; done. }
  assert (Hunk : map (fun d => Msg "Task '{}' references unknown dependency '{}'." [task_id t; d])
    (filter (fun d => d ∉ task_id t :: seen) (iter_set (task_deps t))) = []
    <-> forall d, d ∈ task_deps t -> d ∈ ids tasks \/ d = task_id t).
  { split.
    - intros Hm%map_eq_nil d Hd. destruct (decide (d ∈ task_id t :: seen)) as [Hin|Hout].
      + apply Hids in Hin. rewrite ids_snoc in Hin. set_solver.
      + assert (Hf : d ∈ filter (fun d => d ∉ task_id t :: seen) (iter_set (task_deps t))).
        { apply list_elem_of_filter. by rewrite elem_iter_set. }
        rewrite Hm in Hf. set_solver.
    - intros Hall. rewrite filter_none; [done|]. intros d Hd%elem_iter_set Hout. apply Hout.
      apply Hids. rewrite ids_snoc. specialize (Hall d Hd). set_solver. }
  rewrite Hdup, Hrange, Hunk. unfold in_range. split.
  - intros ((Hnd & Hr & He) & Hnew & Hrt & Hd). split_and!; [| |done|done].
    + apply NoDup_app. split_and!; [done| |apply NoDup_singleton]. set_solver.
    + intros u [Hu|Hu%list_elem_of_singleton]%elem_of_app; [by apply Hr|by subst].
  - intros (Hnd%NoDup_app & Hr & He & Hd). destruct Hnd as (Hnd & Hnew & _).
    split_and!; [done| |done| |apply Hr; set_solver|apply Hr; set_solver|done].
    + intros u Hu. apply Hr. set_solver.
    + intros Hin. apply (Hnew _ Hin). set_solver.
Qed.

Lemma validate_tasks_nil tasks :
  validate_tasks tasks = [] <-> NoDup (ids tasks) /\ in_range tasks /\ earlier_or_self tasks.
Proof. apply (validate_fold_spec tasks). Qed.

(** ** Edges of a task list *)

Lemma elem_task_edges tasks s x :
  (s, x) ∈ task_edges tasks <-> exists t, t ∈ tasks /\ task_id t = x /\ s ∈ task_deps t.
Proof.
  unfold task_edges. rewrite list_elem_of_In, in_flat_map. setoid_rewrite <- list_elem_of_In.
  split.
  - intros (t & Ht & Hin). apply list_elem_of_fmap in Hin as (d & Heq & Hd%elem_iter_set).
    simplify_eq. eauto.
  - intros (t & Ht & <- & Hd). exists t. split; [done|].
    apply list_elem_of_fmap. exists s. by rewrite elem_iter_set.
Qed.

Lemma elem_ids tasks x : x ∈ ids tasks <-> exists t, t ∈ tasks /\ task_id t = x.
Proof. unfold ids. rewrite list_elem_of_fmap. naive_solver. Qed.

Lemma backward_closed tasks : backward tasks -> closed (ids tasks) (task_edges tasks).
Proof.
  intros Hb s x (t & Ht & <- & Hd)%elem_task_edges. split; [|apply elem_ids; eauto].
  destruct (list_elem_of_split tasks t Ht) as (l1 & l2 & ->).
  unfold ids. rewrite map_app, elem_of_app. left. by apply (Hb l1 t l2).
Qed.

Lemma backward_topo tasks :
  NoDup (ids tasks) -> backward tasks -> topo (task_edges tasks) (ids tasks).
Proof.
  intros Hnd Hb l1 x l2 Heq s (t & Ht & <- & Hd)%elem_task_edges.
  destruct (list_elem_of_split tasks t Ht) as (k1 & k2 & ->).
  pose proof (Hb k1 t k2 eq_refl s Hd) as Hs. unfold ids in *. rewrite map_app in Heq, Hnd.
  cbn in *. assert (l1 = map task_id k1) as ->; [|done].
  eapply NoDup_split_unique; [exact Hnd|]. by rewrite Heq.
Qed.

Lemma earlier_or_self_backward tasks :
  earlier_or_self tasks -> no_self_dep tasks -> backward tasks.
Proof.
  intros He Hn. eapply prefix_all_mono; [|exact He]. cbn.
  intros l1 t Ht Hd d Hin. destruct (Hd d Hin) as [?| ->]; [done|]. by destruct (Hn t Ht).
Qed.

(** ** The cycle check *)

Definition node_ids (tasks : list PlannedTask) : list string :=
  iter_set (list_to_set (map task_id tasks)).

Lemma elem_node_ids tasks x : x ∈ node_ids tasks <-> x ∈ ids tasks.
Proof. unfold node_ids. by rewrite elem_iter_set, elem_of_list_to_set. Qed.

Lemma validate_cycle_spec tasks :
  exists errs, validate_cycle_among_tasks tasks = Ok errs /\
    (errs = [] <-> acyclic (eff_edges (node_ids tasks) (task_edges tasks))).
Proof.
  pose proof (NoDup_iter_set (list_to_set (map task_id tasks))) as Hnd.
  fold (node_ids tasks) in Hnd.
  destruct (kahn_run_spec (fun _ visited => visited + 1) (fun _ _ a => Ok a)
    (node_ids tasks) (task_edges tasks) 0 _ Hnd (kahn_build_adj _ _))
    as (order & deg' & Hinv & _ & Hrun).
  pose proof (kahn_inv_acyclic _ _ _ _ Hnd (eff_edges_closed _ _) Hinv) as Hac.
  rewrite replay_no_hook, fold_count, Z.add_0_l in Hrun. cbn in Hrun.
  unfold validate_cycle_among_tasks. fold (node_ids tasks). rewrite Hrun. cbn.
  setoid_rewrite <- Hac.
  destruct (Z.eqb_spec (Z.of_nat (length order)) (Z.of_nat (length (node_ids tasks)))) as [Heq|Hne].
  - exists []. split; [done|]. split; [|done]. intros _. by apply Nat2Z.inj.
  - eexists. split; [done|]. split; [done|]. intros Heq. by rewrite Heq in Hne.
Qed.

Lemma closed_node_ids tasks E :
  closed (ids tasks) E -> closed (node_ids tasks) E.
Proof. intros Hc s t Hst. rewrite !elem_node_ids. by apply Hc. Qed.

(** Once [validate_tasks] has accepted the list, the only cycle left to find is
    a task that depends on itself. *)
Lemma cycle_check_self tasks errs :
  validate_tasks tasks = [] -> validate_cycle_among_tasks tasks = Ok errs ->
  errs = [] <-> no_self_dep tasks.
Proof.
  intros (Hnd & _ & He)%validate_tasks_nil Hrun.
  destruct (validate_cycle_spec tasks) as (errs' & Hrun' & Hac).
  rewrite Hrun in Hrun'. injection Hrun' as <-. rewrite Hac. split.
  - intros Hacy t Ht Hself. apply (Hacy (task_id t)). apply tc_once.
    assert (Hin : task_id t ∈ ids tasks) by (apply elem_ids; eauto).
    apply list_elem_of_filter. cbn. rewrite elem_node_ids. split; [done|].
    apply elem_task_edges. eauto.
  - intros Hns. pose proof (earlier_or_self_backward _ He Hns) as Hb.
    rewrite eff_edges_all by (by apply closed_node_ids, backward_closed).
    eapply topo_acyclic; [by apply backward_closed|exact Hnd|done|by apply backward_topo].
Qed.

Definition accepted (tasks : list PlannedTask) : Prop :=
  NoDup (ids tasks) /\ in_range tasks /\ backward tasks.

Lemma backward_no_self tasks : NoDup (ids tasks) -> backward tasks -> no_self_dep tasks.
Proof.
  intros Hnd Hb t Ht Hself. destruct (list_elem_of_split tasks t Ht) as (l1 & l2 & ->).
  pose proof (Hb l1 t l2 eq_refl _ Hself) as Hin. unfold ids in *. rewrite map_app in Hnd.
  apply NoDup_app in Hnd as (_ & Hnd & _). apply (Hnd (task_id t)); [done|]. cbn. set_solver.
Qed.

Lemma validator_spec tasks available :
  exists errors, validator_validate_plan tasks available = Ok errors /\
    (errors = [] <-> accepted tasks /\ validate_capabilities tasks available = []).
Proof.
  unfold validator_validate_plan. destruct (validate_cycle_spec tasks) as (errs & Hrun & _).
  rewrite Hrun. cbn. eexists. split; [done|]. rewrite !app_nil. unfold accepted. split.
  - intros (Hv & Hc & Hcap). split; [|done].
    pose proof (proj1 (cycle_check_self tasks errs Hv Hrun) Hc) as Hns.
    apply validate_tasks_nil in Hv as (Hnd & Hr & He). split_and!; [done..|].
    by apply earlier_or_self_backward.
  - intros ((Hnd & Hr & Hb) & Hcap).
    assert (Hv : validate_tasks tasks = []).
    { apply validate_tasks_nil. split_and!; [done..|]. eapply prefix_all_mono; [|exact Hb].
      cbn. intros l1 t _ Hd d Hin. left. by apply Hd. }
    split_and!; [done| |done]. apply (cycle_check_self tasks errs Hv Hrun).
    by apply backward_no_self.
Qed.

(** ** The graph of a task list *)

Lemma add_nodes_spec tasks g :
  (forall t, t ∈ tasks -> task_id t ∉ dkeys (g_nodes g)) -> NoDup (ids tasks) ->
  for_each tasks (fun t => add_node (task_node t)) g
    = (Ok tt, mkGraph (g_nodes g ++ map (fun t => (task_id t, task_node t)) tasks) (g_edges g)).
Proof.
  revert g. induction tasks as [|t tasks IH]; intros g Hnew Hnd.
  { cbn. rewrite app_nil_r. by destruct g. }
  apply NoDup_cons in Hnd as [Ht Hnd]. cbn. unfold bind at 1.
  assert (Hadd : add_node (task_node t) g
    = (Ok tt, mkGraph (g_nodes g ++ [(task_id t, task_node t)]) (g_edges g))).
  { pose proof (Hnew t ltac:(set_solver)) as Hn. unfold add_node, bind, get. cbn.
    rewrite (proj2 (dmem_false _ _) Hn). unfold put. by rewrite (dkeys_dset_new _ _ _ Hn). }
  rewrite Hadd, IH; cbn; [by rewrite <- app_assoc| |done].
  intros u Hu. unfold dkeys. rewrite map_app. cbn. intros [Hin|Hin]%elem_of_app.
  - by apply (Hnew u); [set_solver|].
  - apply list_elem_of_singleton in Hin. apply Ht, elem_ids. eauto.
Qed.

(** Adding edges that respect a topological order of the nodes never fails. *)
Lemma add_edges_spec (es : list (string * string)) g :
  graph_inv g -> closed (dkeys (g_nodes g)) es ->
  topo (pairs (g_edges g) ++ es) (dkeys (g_nodes g)) ->
  exists g', for_each es try_add_edge g = (Ok tt, g') /\ graph_inv g' /\
    g_nodes g' = g_nodes g /\ pairs (g_edges g') = pairs (g_edges g) ++ es.
Proof.
  revert g. induction es as [|[s t] es IH]; intros g Hg Hc Ht.
  { exists g. by rewrite app_nil_r. }
  assert (Hends : s ∈ dkeys (g_nodes g) /\ t ∈ dkeys (g_nodes g)) by (apply Hc; set_solver).
  set (e := mkEdge s t "" []).
  assert (Hnb : ~ rtc (edge_rel (pairs (g_edges g))) t s).
  { apply acyclic_add_edge; [apply Hg|].
    eapply (topo_acyclic (dkeys (g_nodes g))); [|apply Hg|done|].
    - apply closed_app. split; [apply Hg|]. by apply closed_single.
    - intros l1 x l2 Hl u Hu. apply (Ht l1 x l2 Hl). set_solver. }
  assert (Hadd : try_add_edge (s, t) g = (Ok tt, insert_edge e g)).
  { change (try_add_edge (s, t) g)
      with (match add_edge e g with (Err _, g') => (Ok tt, g') | r => r end).
    pose proof (add_edge_cases g e Hg) as Hcase. cbn zeta in Hcase.
    destruct (add_edge e g) as [[[]|ex] g'].
    - by destruct Hcase as (_ & _ & ->).
    - exfalso. destruct Hcase as (_ & [(_ & Hne & _)|(_ & _ & Hnn)]); auto. }
  destruct (IH (insert_edge e g)) as (g' & Hrun & Hg' & Hn & Hp).
  - by apply insert_edge_inv.
  - intros a b Hab. apply Hc. set_solver.
  - cbn. rewrite pairs_snoc, <- app_assoc. exact Ht.
  - exists g'. split_and!; [|done|done|].
    + cbn. unfold bind. by rewrite Hadd.
    + rewrite Hp. cbn. by rewrite pairs_snoc, <- app_assoc.
Qed.

(** The graph [g] represents [tasks]: a node per task, an edge per dependency. *)
Definition represents (tasks : list PlannedTask) (g : ExecutionGraph) : Prop :=
  graph_inv g /\ g_nodes g = map (fun t => (task_id t, task_node t)) tasks /\
  pairs (g_edges g) = task_edges tasks.

Lemma represents_keys tasks g : represents tasks g -> dkeys (g_nodes g) = ids tasks.
Proof. intros (_ & -> & _). unfold dkeys, ids. by rewrite map_map. Qed.

Lemma nodes_graph_inv tasks :
  NoDup (ids tasks) -> graph_inv (mkGraph (map (fun t => (task_id t, task_node t)) tasks) []).
Proof.
  intros Hnd. split; cbn.
  - unfold dict_wf, dkeys. by rewrite map_map.
  - intros k n (t & Heq & _)%dget_Some_elem%list_elem_of_fmap. by simplify_eq.
  - intros s t. set_solver.
  - intros x [y Hy]%tc_first. unfold edge_rel in Hy. set_solver.
Qed.

Lemma tasks_to_graph_spec tasks :
  NoDup (ids tasks) -> backward tasks ->
  exists g, tasks_to_graph tasks = Ok g /\ represents tasks g.
Proof.
  intros Hnd Hb. set (g0 := mkGraph (map (fun t => (task_id t, task_node t)) tasks) []).
  assert (Hk : dkeys (g_nodes g0) = ids tasks) by (unfold dkeys, ids; cbn; by rewrite map_map).
  destruct (add_edges_spec (task_edges tasks) g0) as (g & Hrun & Hg & Hn & Hp).
  - by apply nodes_graph_inv.
  - rewrite Hk. by apply backward_closed.
  - rewrite Hk. by apply backward_topo.
  - exists g. split; [|done].
    assert (Hnodes : for_each tasks (fun t => add_node (task_node t)) empty_graph = (Ok tt, g0)).
    { rewrite add_nodes_spec; [done|set_solver|done]. }
    assert (Hloop : for_each tasks (fun t => for_each (iter_set (task_deps t))
      (fun dep => try_add_edge (dep, task_id t))) g0 = (Ok tt, g)).
    { rewrite <- Hrun. unfold task_edges. rewrite <- for_each_flat_map. apply for_each_ext.
      intros t u. by rewrite for_each_map. }
    unfold tasks_to_graph, build_graph. rewrite (bind_ok _ _ _ _ _ Hnodes). by rewrite Hloop.
Qed.

(** ** Orphans *)

(** No dependency, and nobody depends on it. *)
Definition isolated (tasks : list PlannedTask) (t : PlannedTask) : Prop :=
  t ∈ tasks /\ task_deps t = ∅ /\ forall u, u ∈ tasks -> task_id t ∉ task_deps u.

Lemma connected_spec es x :
  x ∈ map edge_target es ++ map edge_source es <->
  exists y, (y, x) ∈ pairs es \/ (x, y) ∈ pairs es.
Proof.
  rewrite elem_of_app, !list_elem_of_fmap. setoid_rewrite elem_pairs. split.
  - intros [(e & -> & He)|(e & -> & He)]; eexists; [left|right]; exists e; eauto.
  - intros (y & [(e & He & _ & <-)|(e & He & <- & _)]); [left|right]; exists e; auto.
Qed.

Lemma isolated_not_connected tasks t :
  NoDup (ids tasks) -> t ∈ tasks ->
  isolated tasks t <->
  ~ exists y, (y, task_id t) ∈ task_edges tasks \/ (task_id t, y) ∈ task_edges tasks.
Proof.
  intros Hnd Ht. setoid_rewrite elem_task_edges. split.
  - intros (_ & He & Hno) (y & [(u & Hu & Heq & Hy)|(u & Hu & _ & Hy)]).
    + assert (u = t) as -> by (by eapply NoDup_map_inj). rewrite He in Hy. set_solver.
    + by apply (Hno u).
  - intros Hn. split; [done|]. split.
    + apply leibniz_equiv, elem_of_equiv_empty. intros y Hy. apply Hn. exists y. left. eauto.
    + intros u Hu Hin. apply Hn. exists (task_id u). right. eauto.
Qed.

Lemma orphans_spec tasks g :
  NoDup (ids tasks) -> represents tasks g ->
  check_orphan_nodes (g_nodes g) (g_edges g) <> [] <->
  task_edges tasks <> [] /\ exists t, isolated tasks t.
Proof.
  intros Hnd Hrep. pose proof (represents_keys _ _ Hrep) as Hk.
  destruct Hrep as (Hg & Hn & Hp).
  assert (Horph : forall nid, nid ∈ filter (fun nid => nid ∉ map edge_target (g_edges g)
      ++ map edge_source (g_edges g)) (dkeys (g_nodes g)) <->
    exists t, isolated tasks t /\ task_id t = nid).
  { intros nid. rewrite list_elem_of_filter, connected_spec, Hk, Hp, elem_ids. split.
    - intros [Hc (t & Ht & <-)]. exists t. split; [|done]. by apply isolated_not_connected.
    - intros (t & Hi & <-). pose proof Hi as (Ht & _). split; [|eauto].
      by apply isolated_not_connected. }
  assert (Hes : g_edges g = [] <-> task_edges tasks = []).
  { rewrite <- Hp. unfold pairs. split; [by intros ->|apply map_eq_nil]. }
  unfold check_orphan_nodes. rewrite <- Hes. split.
  - case_decide; [done|]. destruct (g_edges g) as [|e es] eqn:He; [done|]. intros Ho.
    split; [done|]. destruct (filter _ _) as [|x l] eqn:Hf; [done|].
    destruct (proj1 (Horph x)) as (t & Hi & _); [set_solver|]. eauto.
  - intros [Hne (t & Hi)].
    assert (Hin : task_id t ∈ filter (fun nid => nid ∉ map edge_target (g_edges g)
      ++ map edge_source (g_edges g)) (dkeys (g_nodes g))) by (apply Horph; eauto).
    rewrite decide_False.
    + destruct (g_edges g) as [|e es]; [done|]. destruct (filter _ _); [set_solver|done].
    + destruct (g_edges g) as [|e es] eqn:He; [done|]. rewrite <- dkeys_length.
      apply list_elem_of_filter in Hin as [Hout Hin].
      assert (Hs : edge_source e ∈ dkeys (g_nodes g)).
      { apply (gi_refs _ Hg (edge_source e) (edge_target e)). rewrite He. set_solver. }
      assert (edge_source e <> task_id t) by set_solver.
      destruct (dkeys (g_nodes g)) as [|a [|b l]]; [set_solver| |cbn; lia]. set_solver.
Qed.

(** ** The plan *)

Lemma create_plan_cases p now mission tasks :
  let final := apply_strategy (tp_strategy p) tasks in
  NoDup (ids final) -> backward final ->
  validator_validate_plan tasks (tp_available p) = Ok [] ->
  exists g, represents final g /\
    match create_plan p now mission tasks with
    | Ok plan => plan_graph plan = Some g /\ plan_tasks plan = final /\
        exists gp, generate_plan g = Ok gp /\ plan_spec g gp /\ plan_groups plan = levels gp
    | Err e => exn_cls e = ValidationError /\ task_edges final <> [] /\
        exists t, isolated final t
    end.
Proof.
  intros final Hnd Hb Hv. unfold create_plan. rewrite Hv. cbn.
  destruct (tasks_to_graph_spec final Hnd Hb) as (g & Hrun & Hrep).
  fold final. rewrite Hrun. cbn. exists g. split; [done|].
  pose proof (generate_plan_cases g (proj1 Hrep)) as Hgp.
  destruct (generate_plan g) as [gp|e]; cbn.
  - split_and!; [done..|]. exists gp. by destruct Hgp.
  - destruct Hgp as [-> Ho]. split; [done|]. by apply (orphans_spec final g).
Qed.

(** ** Chains: the sequential and conservative strategies *)

(** Each task but the first depends on the one just before it. *)
Definition chained (tasks : list PlannedTask) : Prop :=
  prefix_all (fun before t => forall l x, before = l ++ [x] -> task_id x ∈ task_deps t) tasks.

(** In a DAG whose nodes are chained, the longest-path layers are the single
    nodes, in the order of the chain. *)
Lemma chain_levels g p (l : list string) :
  plan_spec g p -> dkeys (g_nodes g) = l -> NoDup l -> topo (pairs (g_edges g)) l ->
  (forall i x y, l !! i = Some x -> l !! S i = Some y -> (x, y) ∈ pairs (g_edges g)) ->
  levels p = map (fun x => {[x]}) l.
Proof.
  intros Hp Hk Hnd Ht Hch.
  assert (Hat : forall i x, l !! i = Some x -> forall j L, levels p !! j = Some L -> x ∈ L -> j = i).
  { intros i. induction (lt_wf i) as [i _ IH]. intros x Hx j L Hj HxL.
    pose proof (list_elem_of_split_length l i x Hx) as (l1 & l2 & Hl & Hlen).
    assert (Hle : (j <= i)%nat).
    { destruct j as [|j]; [lia|].
      destruct (ps_tight _ _ Hp x j L Hj HxL) as (s & Ls & Hs & HLs & Hin).
      destruct (list_elem_of_lookup_1 l1 s (Ht l1 x l2 Hl s Hs)) as [k Hsk].
      pose proof (lookup_lt_Some _ _ _ Hsk) as Hkl.
      assert (Hsl : l !! k = Some s) by (rewrite Hl; by apply lookup_app_l_Some).
      pose proof (IH k ltac:(lia) s Hsl j Ls HLs Hin). lia. }
    destruct i as [|i]; [lia|].
    destruct (lookup_lt_is_Some_2 l i) as [y Hy].
    { apply lookup_lt_Some in Hx. lia. }
    pose proof (Hch i y x Hy Hx) as Hyx.
    destruct (proj1 (ps_cover _ _ Hp y)) as (k & Lk & HLk & Hyk).
    { rewrite Hk. by eapply list_elem_of_lookup_2. }
    pose proof (IH i ltac:(lia) y Hy k Lk HLk Hyk) as ->.
    pose proof (ps_edge _ _ Hp y x i j Lk L Hyx HLk Hj Hyk HxL). lia. }
  assert (Hlevel : forall j L, levels p !! j = Some L -> exists x, l !! j = Some x /\ L = {[x]}).
  { intros j L HL. pose proof (ps_nonempty _ _ Hp j L HL) as Hne.
    apply set_choose_L in Hne as [x Hx].
    assert (Hin : forall y, y ∈ L -> l !! j = Some y).
    { intros y Hy. assert (Hyl : y ∈ l) by (rewrite <- Hk; apply (ps_cover _ _ Hp); eauto).
      destruct (list_elem_of_lookup_1 l y Hyl) as [i Hi].
      by pose proof (Hat i y Hi j L HL Hy) as ->. }
    exists x. split; [by apply Hin|]. apply leibniz_equiv. intros y.
    rewrite elem_of_singleton. split; [|by intros ->].
    intros Hy%Hin. rewrite (Hin x Hx) in Hy. by injection Hy as ->. }
  apply list_eq. intros j. rewrite list_lookup_fmap.
  destruct (levels p !! j) as [L|] eqn:HL.
  - destruct (Hlevel j L HL) as (x & -> & ->). done.
  - destruct (l !! j) as [x|] eqn:Hx; [|done]. exfalso.
    destruct (proj1 (ps_cover _ _ Hp x)) as (k & Lk & HLk & Hxk).
    { rewrite Hk. by eapply list_elem_of_lookup_2. }
    pose proof (Hat j x Hx k Lk HLk Hxk) as ->. congruence.
Qed.

Lemma chained_lookup tasks i x y :
  chained tasks -> tasks !! i = Some x -> tasks !! S i = Some y -> task_id x ∈ task_deps y.
Proof.
  intros Hc Hx Hy. destruct (list_elem_of_split_length tasks (S i) y Hy) as (l1 & l2 & -> & Hlen).
  rewrite lookup_app_l in Hx by lia.
  apply (Hc l1 y l2 eq_refl (take i l1) x).
  rewrite <- (take_S_r l1 i x Hx), Hlen. by rewrite take_ge.
Qed.

Lemma chain_plan_levels tasks g p :
  NoDup (ids tasks) -> backward tasks -> chained tasks -> represents tasks g ->
  plan_spec g p -> levels p = map (fun x => {[x]}) (ids tasks).
Proof.
  intros Hnd Hb Hc Hrep Hp. pose proof (represents_keys _ _ Hrep) as Hk.
  destruct Hrep as (_ & _ & He). apply (chain_levels g); [done..|by rewrite He; apply backward_topo|].
  intros i x y Hx Hy. unfold ids in *. rewrite list_lookup_fmap in Hx, Hy.
  apply fmap_Some in Hx as (t & Ht & ->). apply fmap_Some in Hy as (u & Hu & ->).
  rewrite He. apply elem_task_edges. exists u. split_and!; [by eapply list_elem_of_lookup_2|done|].
  by eapply chained_lookup.
Qed.

Lemma chained_not_isolated tasks t :
  chained tasks -> isolated tasks t -> task_edges tasks = [].
Proof.
  intros Hc (Ht & Hd & Hno). destruct (list_elem_of_split tasks t Ht) as (l1 & l2 & ->).
  destruct l1 as [|a l1 _] using rev_ind.
  - destruct l2 as [|b l2].
    + unfold task_edges. cbn. rewrite Hd.
      assert (Hnil : iter_set ∅ = []).
      { apply Permutation_nil. by rewrite iter_set_elements, elements_empty. }
      by rewrite Hnil.
    + exfalso. apply (Hno b); [set_solver|]. by apply (Hc [t] b l2 eq_refl [] t).
  - exfalso. pose proof (Hc (l1 ++ [a]) t l2 eq_refl l1 a eq_refl) as Hin. set_solver.
Qed.

(** ** The two chaining strategies *)

Lemma ids_with_deps t d : task_id (with_deps t d) = task_id t.
Proof. done. Qed.

Lemma make_sequential_snoc prev tasks t :
  make_sequential_from prev (tasks ++ [t]) =
  make_sequential_from prev tasks ++
    [with_deps t (match last tasks with
                  | Some x => {[task_id x]}
                  | None => match prev with Some i => {[i]} | None => ∅ end
                  end)].
Proof.
  revert prev. induction tasks as [|x tasks IH]; intros prev; cbn; [done|].
  rewrite IH. do 3 f_equal. rewrite last_cons. by destruct (last tasks).
Qed.

Lemma make_conservative_snoc prev tasks t :
  make_conservative_from prev (tasks ++ [t]) =
  make_conservative_from prev tasks ++
    [with_deps t ((task_deps t ∪ (list_to_set (ids tasks) ∪ prev)) ∖ {[task_id t]})].
Proof.
  revert prev. induction tasks as [|x tasks IH]; intros prev; cbn.
  { assert (Hs : ∅ ∪ prev = prev) by (apply leibniz_equiv; set_solver). by rewrite Hs. }
  rewrite IH. cbn.
  assert (Hs : list_to_set (ids tasks) ∪ ({[task_id x]} ∪ prev)
    = {[task_id x]} ∪ list_to_set (ids tasks) ∪ prev) by (apply leibniz_equiv; set_solver).
  by rewrite Hs.
Qed.

(** What both strategies make of a list of tasks the validation accepts. *)
Lemma make_sequential_spec tasks :
  let final := make_sequential tasks in
  ids final = ids tasks /\ backward final /\ chained final.
Proof.
  unfold make_sequential. induction tasks as [|t tasks IH] using rev_ind.
  { cbn. split_and!; [done|apply prefix_all_nil..]. }
  destruct IH as (Hi & Hb & Hc). rewrite make_sequential_snoc. cbn zeta.
  unfold backward, chained. rewrite !prefix_all_snoc, !ids_snoc, Hi.
  split_and!; [done|exact Hb| |exact Hc|].
  - intros d. destruct (last tasks) as [x|] eqn:Hl; cbn; [|set_solver].
    rewrite elem_of_singleton. intros ->. apply last_Some in Hl as [l ->].
    rewrite ids_snoc. set_solver.
  - intros l x Heq. destruct tasks as [|y tasks _] using rev_ind.
    { cbn in Heq. destruct l; discriminate. }
    rewrite last_snoc. cbn. assert (Hids : ids (l ++ [x]) = ids (tasks ++ [y])) by (by rewrite <- Heq).
    rewrite !ids_snoc in Hids. apply app_inj_tail in Hids as [_ ->]. set_solver.
Qed.

Lemma make_conservative_spec tasks :
  NoDup (ids tasks) -> backward tasks ->
  let final := make_conservative tasks in
  ids final = ids tasks /\ backward final /\ chained final.
Proof.
  unfold make_conservative. induction tasks as [|t tasks IH] using rev_ind; intros Hnd Hbt.
  { cbn. split_and!; [done|apply prefix_all_nil..]. }
  unfold backward in Hbt. rewrite prefix_all_snoc in Hbt. destruct Hbt as [Hbt Hdt].
  rewrite ids_snoc in Hnd. apply NoDup_app in Hnd as (Hnd & Hnew & _).
  destruct (IH Hnd Hbt) as (Hi & Hb & Hc). rewrite make_conservative_snoc. cbn zeta.
  unfold backward, chained. rewrite !prefix_all_snoc, !ids_snoc, Hi.
  split_and!; [done|exact Hb| |exact Hc|].
  - intros d. cbn.
    rewrite elem_of_difference, !elem_of_union, elem_of_list_to_set.
    intros [[?|[?|?%elem_of_empty]] _]; [by apply Hdt|done|done].
  - intros l x Heq. cbn.
    assert (Hx : task_id x ∈ ids tasks).
    { rewrite <- Hi, Heq, ids_snoc. set_solver. }
    rewrite elem_of_difference, !elem_of_union, elem_of_list_to_set, elem_of_singleton.
    split; [tauto|]. intros Heq'. apply (Hnew _ Hx). rewrite Heq'. set_solver.
Qed.

(** ** Every strategy keeps the list acceptable *)

Definition caps_ok tasks (available : option (gset string)) : Prop :=
  forall caps, available = Some caps -> forall t, t ∈ tasks -> task_cap t ∈ caps.

Lemma validate_capabilities_nil tasks available :
  validate_capabilities tasks available = [] <-> caps_ok tasks available.
Proof.
  unfold caps_ok. destruct available as [caps|]; cbn; [|split; [discriminate|done]]. split.
  - intros Hm%map_eq_nil caps' [= <-] t Ht. destruct (decide (task_cap t ∈ caps)); [done|].
    exfalso. assert (Hin : t ∈ filter (fun t => task_cap t ∉ caps) tasks)
      by (by apply list_elem_of_filter). rewrite Hm in Hin. set_solver.
  - intros Hc. rewrite filter_none; [done|]. intros t Ht Hn. by apply Hn, Hc.
Qed.

(** The list the strategy makes: the same tasks but for their dependencies. *)
Definition same_but_deps : list PlannedTask -> list PlannedTask -> Prop :=
  Forall2 (fun t u => u = with_deps t (task_deps u)).

Lemma same_but_deps_sequential prev tasks : same_but_deps tasks (make_sequential_from prev tasks).
Proof. revert prev. induction tasks as [|t ts IH]; intros prev; cbn; constructor; [done|apply IH]. Qed.

Lemma same_but_deps_conservative prev tasks :
  same_but_deps tasks (make_conservative_from prev tasks).
Proof. revert prev. induction tasks as [|t ts IH]; intros prev; cbn; constructor; [done|apply IH]. Qed.

Lemma apply_strategy_same s tasks : same_but_deps tasks (apply_strategy s tasks).
Proof.
  assert (Hrefl : same_but_deps tasks tasks)
    by (unfold same_but_deps; induction tasks as [|[] ts IH]; constructor; done).
  destruct s; cbn; [apply same_but_deps_sequential|done|done|apply same_but_deps_conservative].
Qed.

Lemma same_but_deps_elem tasks tasks' u :
  same_but_deps tasks tasks' -> u ∈ tasks' -> exists t, t ∈ tasks /\ u = with_deps t (task_deps u).
Proof.
  induction 1 as [|t u' ts us Hu _ IH]; [set_solver|]. intros [->|Hin]%elem_of_cons.
  - exists t. split; [set_solver|done].
  - destruct (IH Hin) as (t' & Ht' & ?). exists t'. split; [set_solver|done].
Qed.

Lemma same_but_deps_ids tasks tasks' : same_but_deps tasks tasks' -> ids tasks' = ids tasks.
Proof. induction 1 as [|t u ts us Hu _ IH]; cbn; [done|]. unfold ids in IH. by rewrite IH, Hu. Qed.

Lemma apply_strategy_accepted s tasks available :
  accepted tasks -> caps_ok tasks available ->
  accepted (apply_strategy s tasks) /\ caps_ok (apply_strategy s tasks) available.
Proof.
  intros (Hnd & Hr & Hb) Hc. pose proof (apply_strategy_same s tasks) as Hs. split.
  - split_and!.
    + by rewrite (same_but_deps_ids _ _ Hs).
    + intros u Hu. destruct (same_but_deps_elem _ _ _ Hs Hu) as (t & Ht & Heq). rewrite Heq. exact (Hr t Ht).
    + destruct s; cbn; [apply make_sequential_spec|done|done|by apply make_conservative_spec].
  - intros caps Hav u Hu. destruct (same_but_deps_elem _ _ _ Hs Hu) as (t & Ht & Heq). rewrite Heq.
    exact (Hc caps Hav t Ht).
Qed.

Lemma validator_accepts tasks available :
  validator_validate_plan tasks available = Ok [] <-> accepted tasks /\ caps_ok tasks available.
Proof.
  destruct (validator_spec tasks available) as (errs & -> & Hs).
  rewrite validate_capabilities_nil in Hs. rewrite <- Hs. split; [by intros [= ->]|by intros ->].
Qed.

(** [create_plan] on a list the validation accepts. *)
Lemma create_plan_accepted p now mission tasks :
  let final := apply_strategy (tp_strategy p) tasks in
  accepted tasks -> caps_ok tasks (tp_available p) ->
  exists g, represents final g /\
    match create_plan p now mission tasks with
    | Ok plan => plan_graph plan = Some g /\ plan_tasks plan = final /\
        exists gp, generate_plan g = Ok gp /\ plan_spec g gp /\ plan_groups plan = levels gp
    | Err e => exn_cls e = ValidationError /\ task_edges final <> [] /\
        exists t, isolated final t
    end.
Proof.
  intros final Ha Hc. destruct (apply_strategy_accepted (tp_strategy p) _ _ Ha Hc) as [(? & _ & ?) _].
  apply create_plan_cases; [done..|]. by apply validator_accepts.
Qed.

Lemma create_plan_refused p now mission tasks :
  ~ (accepted tasks /\ caps_ok tasks (tp_available p)) ->
  exists errors, errors <> [] /\ validator_validate_plan tasks (tp_available p) = Ok errors /\
    create_plan p now mission tasks = Err (planning_error errors).
Proof.
  rewrite <- validator_accepts. intros Hn. unfold create_plan.
  destruct (validator_spec tasks (tp_available p)) as (errs & Hrun & _). rewrite Hrun in Hn |- *.
  exists errs. destruct errs; cbn; [done|]. split_and!; done.
Qed.

Lemma apply_strategy_idem s tasks :
  apply_strategy s (apply_strategy s tasks) = apply_strategy s tasks.
Proof.
  destruct s; cbn; [|done|done|].
  - unfold make_sequential. generalize (@None string).
    induction tasks as [|t ts IH]; intros prev; cbn; [done|]. f_equal. apply IH.
  - unfold make_conservative. generalize (∅ : gset string).
    induction tasks as [|t ts IH]; intros prev; cbn; [done|]. rewrite IH. unfold with_deps; cbn.
    assert (Hs : ((task_deps t ∪ prev) ∖ {[task_id t]} ∪ prev) ∖ {[task_id t]}
      = (task_deps t ∪ prev) ∖ {[task_id t]}) by (apply leibniz_equiv; set_solver).
    by rewrite Hs.
Qed.

(** ** Durations *)

Lemma iter_set_singleton (x : string) : iter_set {[x]} = [x].
Proof. apply Permutation_singleton_r. by rewrite iter_set_elements, elements_singleton. Qed.

Lemma level_max_singleton tasks t :
  NoDup (ids tasks) -> t ∈ tasks -> (0 <= task_complexity t)%Q ->
  (level_max tasks {[task_id t]} == task_complexity t)%Q.
Proof.
  intros Hnd Ht Hpos. unfold level_max. rewrite iter_set_singleton. cbn.
  destruct (List.find _ tasks) as [u|] eqn:Hf.
  - apply find_some in Hf as [Hu Heq%bool_decide_eq_true]. rewrite <- list_elem_of_In in Hu.
    assert (u = t) as -> by (by eapply NoDup_map_inj). by apply Q.max_r.
  - exfalso. rewrite list_elem_of_In in Ht. apply (find_none _ _ Hf) in Ht.
    by apply bool_decide_eq_false in Ht.
Qed.

Lemma chain_duration tasks sub acc acc' :
  NoDup (ids tasks) -> in_range tasks -> (forall t, t ∈ sub -> t ∈ tasks) -> (acc == acc')%Q ->
  (fold_left (fun total level => total + level_max tasks level)%Q
     (map (fun x => {[x]}) (ids sub)) acc
   == fold_left (fun a t => a + task_complexity t)%Q sub acc')%Q.
Proof.
  intros Hnd Hr. revert acc acc'. induction sub as [|t sub IH]; intros acc acc' Hsub Hacc; [done|].
  cbn. apply IH; [set_solver|]. assert (Ht : t ∈ tasks) by set_solver.
  rewrite level_max_singleton, Hacc by (done || apply (Hr t Ht)). reflexivity.
Qed.

(** * The properties *)

(** The validation accepts a list of tasks exactly when the ids are
    distinct, every complexity is in 0-10, every dependency names a task
    declared earlier in the list, and every required capability is available. *)
Theorem validator_exact tasks available :
  validator_validate_plan tasks available = Ok [] <->
  (NoDup (map task_id tasks) /\
   (forall t, t ∈ tasks -> (0 <= task_complexity t <= 10)%Q) /\
   (forall l1 t l2, tasks = l1 ++ t :: l2 -> forall d, d ∈ task_deps t -> d ∈ map task_id l1)) /\
  (forall caps, available = Some caps -> forall t, t ∈ tasks -> task_cap t ∈ caps).
Proof. apply validator_accepts. Qed.

(** Behind [validate_tasks] the cycle check has only self-dependencies left
    to refuse: a dependency on a later task is already an unknown dependency. *)
Theorem cycle_check_only_self tasks :
  validate_tasks tasks = [] ->
  exists errors, validate_cycle_among_tasks tasks = Ok errors /\
    (errors <> [] <-> exists t, t ∈ tasks /\ task_id t ∈ task_deps t).
Proof.
  intros Hv. destruct (validate_cycle_spec tasks) as (errs & Hrun & _). exists errs.
  split; [done|]. rewrite (cycle_check_self tasks errs Hv Hrun). unfold no_self_dep. split.
  - intros Hn. destruct (Exists_dec (fun t => task_id t ∈ task_deps t) tasks) as [He|He].
    + apply Exists_exists in He. naive_solver.
    + exfalso. apply Hn. intros t Ht Hin. apply He, Exists_exists. eauto.
  - intros (t & Ht & Hin) Hn. by apply (Hn t Ht).
Qed.

(** On an accepted list the graph [_tasks_to_graph] builds is a DAG with
    one node per task, in order, and one edge per declared dependency: the
    [except Exception: pass] around [add_edge] swallows nothing. *)
Theorem tasks_graph_complete tasks :
  accepted tasks ->
  exists g, tasks_to_graph tasks = Ok g /\ acyclic (pairs (g_edges g)) /\
    g_nodes g = map (fun t => (task_id t, task_node t)) tasks /\
    (forall d x, (d, x) ∈ pairs (g_edges g) <->
       exists t, t ∈ tasks /\ task_id t = x /\ d ∈ task_deps t).
Proof.
  intros (Hnd & _ & Hb). destruct (tasks_to_graph_spec tasks Hnd Hb) as (g & Hrun & Hg & Hn & Hp).
  exists g. split_and!; [done|apply Hg|done|]. intros d x. rewrite Hp. apply elem_task_edges.
Qed.

Lemma create_plan_answers p now mission tasks :
  match create_plan p now mission tasks with
  | Ok plan =>
      accepted tasks /\ caps_ok tasks (tp_available p) /\
      plan_tasks plan = apply_strategy (tp_strategy p) tasks /\
      exists g gp, plan_graph plan = Some g /\ represents (plan_tasks plan) g /\
        generate_plan g = Ok gp /\ plan_spec g gp /\ plan_groups plan = levels gp
  | Err e =>
      (exn_cls e = PlanningError /\ ~ (accepted tasks /\ caps_ok tasks (tp_available p))) \/
      (exn_cls e = ValidationError /\ accepted tasks /\ caps_ok tasks (tp_available p) /\
       task_edges (apply_strategy (tp_strategy p) tasks) <> [] /\
       exists t, isolated (apply_strategy (tp_strategy p) tasks) t)
  end.
Proof.
  destruct (validator_spec tasks (tp_available p)) as (errs & Hrun & Hs).
  rewrite validate_capabilities_nil in Hs. destruct errs as [|m errs].
  - destruct (proj1 Hs eq_refl) as [Ha Hc].
    destruct (create_plan_accepted p now mission tasks Ha Hc) as (g & Hrep & Hcase).
    destruct (create_plan p now mission tasks) as [plan|e];
      [|right; destruct Hcase as (? & ? & ?); split_and!; assumption].
    destruct Hcase as (Hg & Ht & gp & ? & ? & ?). split_and!; [done..|].
    exists g, gp. rewrite Ht. done.
  - assert (Hn : ~ (accepted tasks /\ caps_ok tasks (tp_available p)))
      by (intros Hx; discriminate (proj2 Hs Hx)).
    destruct (create_plan_refused p now mission tasks Hn) as (? & _ & _ & ->). by left.
Qed.

(** What [create_plan] returns or raises.  A [PlanningError] is exactly a
    list the validation refuses; on an accepted list the plan's groups are the
    layers of the graph of the tasks, or a [ValidationError] comes out, and
    then a task has no dependency and no dependent while some other task has. *)
Theorem create_plan_outcome p now mission tasks :
  match create_plan p now mission tasks with
  | Ok plan =>
      accepted tasks /\ caps_ok tasks (tp_available p) /\
      plan_tasks plan = apply_strategy (tp_strategy p) tasks /\
      exists g gp, plan_graph plan = Some g /\ represents (plan_tasks plan) g /\
        generate_plan g = Ok gp /\ plan_spec g gp /\ plan_groups plan = levels gp
  | Err e =>
      (exn_cls e = PlanningError /\ ~ (accepted tasks /\ caps_ok tasks (tp_available p))) \/
      (exn_cls e = ValidationError /\ accepted tasks /\ caps_ok tasks (tp_available p) /\
       task_edges (apply_strategy (tp_strategy p) tasks) <> [] /\
       exists t, isolated (apply_strategy (tp_strategy p) tasks) t)
  end.
Proof. apply create_plan_answers. Qed.

(** The SEQUENTIAL and CONSERVATIVE strategies plan every accepted list:
    one task per group, in the order of the list, and the estimate is the sum
    of the complexities. *)
Theorem create_plan_chain p now mission tasks :
  tp_strategy p = PlanningStrategy.SEQUENTIAL \/ tp_strategy p = PlanningStrategy.CONSERVATIVE ->
  accepted tasks -> caps_ok tasks (tp_available p) ->
  exists plan, create_plan p now mission tasks = Ok plan /\
    plan_groups plan = map (fun t => {[task_id t]}) tasks /\
    (plan_duration plan == sum_complexity tasks)%Q.
Proof.
  intros Hstrat Ha Hc. set (final := apply_strategy (tp_strategy p) tasks).
  pose proof Ha as (Hnd & _ & Hb).
  destruct (apply_strategy_accepted (tp_strategy p) _ _ Ha Hc) as [(Hnd' & Hr' & Hb') _].
  assert (Hchain : chained final).
  { unfold final. destruct Hstrat as [-> | ->]; cbn.
    - apply make_sequential_spec.
    - by apply make_conservative_spec. }
  pose proof (apply_strategy_same (tp_strategy p) tasks) as Hsame. fold final in Hnd', Hr', Hb', Hsame.
  pose proof (same_but_deps_ids _ _ Hsame) as Hids.
  destruct (create_plan_accepted p now mission tasks Ha Hc) as (g & Hrep & Hcase). fold final in Hrep, Hcase.
  destruct (create_plan p now mission tasks) as [plan|e] eqn:Hrun.
  2:{ destruct Hcase as (_ & Hne & t & Hi). by destruct (Hne (chained_not_isolated _ _ Hchain Hi)). }
  destruct Hcase as (Hg & Ht & gp & Hgp & Hspec & Hgr).
  pose proof (chain_plan_levels final g gp Hnd' Hb' Hchain Hrep Hspec) as Hlv.
  exists plan. split; [done|]. split.
  { rewrite Hgr, Hlv, Hids. unfold ids. by rewrite map_map. }
  transitivity (sum_complexity final).
  2:{ unfold sum_complexity. clear -Hsame. generalize 0%Q.
      induction Hsame as [|t u ts us Hu _ IH]; intros q; cbn; [reflexivity|].
      rewrite Hu. apply IH. }
  assert (Hdur : plan_duration plan = estimate_duration final (levels gp)).
  { clear -Hrun Hgp Hg. unfold create_plan in Hrun.
    destruct (validator_validate_plan _ _) as [[|]|]; cbn in Hrun; [|discriminate..].
    fold final in Hrun. destruct (tasks_to_graph final) as [g'|]; cbn in Hrun; [|discriminate].
    destruct (generate_plan g') as [gp'|] eqn:E; cbn in Hrun; [|discriminate].
    injection Hrun as <-. cbn in *. injection Hg as ->. rewrite Hgp in E. by injection E as ->. }
  rewrite Hdur, Hlv. unfold estimate_duration. destruct final as [|t ts] eqn:Hf; [done|].
  cbn [ids map]. rewrite <- (chain_duration (t :: ts) (t :: ts) 0 0) by (done || reflexivity). reflexivity.
Qed.

(** With BALANCED or PARALLEL, an accepted list with a dependency somewhere
    and a task that neither depends nor is depended on makes [create_plan]
    raise the graph's [ValidationError], not the documented [PlanningError]. *)
Theorem create_plan_escapes p now mission tasks :
  tp_strategy p = PlanningStrategy.BALANCED \/ tp_strategy p = PlanningStrategy.PARALLEL ->
  accepted tasks -> caps_ok tasks (tp_available p) ->
  task_edges tasks <> [] -> (exists t, isolated tasks t) ->
  exists e, create_plan p now mission tasks = Err e /\ exn_cls e = ValidationError.
Proof.
  intros Hstrat Ha Hc Hne Hiso.
  assert (Hfinal : apply_strategy (tp_strategy p) tasks = tasks) by (by destruct Hstrat as [-> | ->]).
  destruct (create_plan_accepted p now mission tasks Ha Hc) as (g & Hrep & Hcase).
  rewrite Hfinal in Hrep, Hcase. destruct (create_plan p now mission tasks) as [plan|e].
  - exfalso. destruct Hcase as (_ & _ & gp & Hgp & _). destruct Ha as (Hnd & _).
    pose proof (generate_plan_cases g (proj1 Hrep)) as Hcases. rewrite Hgp in Hcases.
    destruct Hcases as [Ho _]. by apply (proj2 (orphans_spec tasks g Hnd Hrep)).
  - exists e. by destruct Hcase.
Qed.

(** re-planning a plan with the same planner at the same time gives the
    same plan back, for every strategy: [optimize_plan] is idempotent. *)
Theorem replan_idempotent p now mission tasks plan :
  create_plan p now mission tasks = Ok plan -> optimize_plan p now plan = Ok plan.
Proof.
  intros Hrun. pose proof (create_plan_answers p now mission tasks) as Hout. rewrite Hrun in Hout.
  destruct Hout as (Ha & Hc & _).
  pose proof (apply_strategy_accepted (tp_strategy p) _ _ Ha Hc) as Hfin.
  apply validator_accepts in Hfin. unfold optimize_plan, create_plan in *.
  rewrite (proj2 (validator_accepts _ _) (conj Ha Hc)) in Hrun. cbn in Hrun.
  destruct (tasks_to_graph (apply_strategy (tp_strategy p) tasks)) as [g|] eqn:Hg; cbn in Hrun; [|discriminate].
  destruct (generate_plan g) as [gp|] eqn:Hgp; cbn in Hrun; [|discriminate].
  injection Hrun as <-. cbn. rewrite Hfin. cbn. rewrite apply_strategy_idem, Hg. cbn.
  by rewrite Hgp.
Qed.
End proofs.

(** * Witnesses: a mission of four tasks, and one with an isolated task *)

Definition demo_task (id : string) (c : Q) (deps : list string) : PlannedTask :=
  mkTask id id "" c "code" (list_to_set deps) true [].

Definition demo_mission : TaskMission := mkMission "m" "demo" "" "" 5 [].

Definition demo_tasks : list PlannedTask :=
  [demo_task "design" 3 []; demo_task "code" 8 ["design"]; demo_task "docs" 2 ["design"];
   demo_task "review" 1 ["code"; "docs"]].

Definition demo_loop : list PlannedTask := [demo_task "a" 1 ["a"]].

Definition demo_isolated : list PlannedTask :=
  [demo_task "a" 1 []; demo_task "b" 1 ["a"]; demo_task "c" 1 []].

Definition demo_caps : option (gset string) := Some {["code"; "review"]}.

Example demo_tasks_valid : validator_validate_plan demo_tasks demo_caps = Ok [].
Proof. vm_compute. reflexivity. Qed.

Example demo_isolated_valid : validator_validate_plan demo_isolated demo_caps = Ok [].
Proof. vm_compute. reflexivity. Qed.

Example demo_balanced_groups :
  match create_plan (mkPlanner PlanningStrategy.BALANCED demo_caps) 7 demo_mission demo_tasks with
  | Ok plan => map elements (plan_groups plan) = [["design"]; ["code"; "docs"]; ["review"]] /\
      (plan_duration plan == 12)%Q
  | Err _ => False
  end.
Proof. vm_compute. split; reflexivity. Qed.

Lemma demo_tasks_accepted : accepted demo_tasks /\ caps_ok demo_tasks demo_caps.
Proof. apply validator_accepts, demo_tasks_valid. Qed.

Lemma demo_isolated_accepted : accepted demo_isolated /\ caps_ok demo_isolated demo_caps.
Proof. apply validator_accepts, demo_isolated_valid. Qed.

Lemma cycle_check_only_self_witness :
  validate_tasks demo_loop = [] /\
  exists errors, validate_cycle_among_tasks demo_loop = Ok errors /\
    (errors <> [] <-> exists t, t ∈ demo_loop /\ task_id t ∈ task_deps t).
Proof.
  assert (Hv : validate_tasks demo_loop = []) by (vm_compute; reflexivity).
  split; [exact Hv|]. exact (cycle_check_only_self demo_loop Hv).
Defined.

Lemma tasks_graph_complete_witness :
  accepted demo_tasks /\
  exists g, tasks_to_graph demo_tasks = Ok g /\ acyclic (pairs (g_edges g)) /\
    g_nodes g = map (fun t => (task_id t, task_node t)) demo_tasks /\
    (forall d x, (d, x) ∈ pairs (g_edges g) <->
       exists t, t ∈ demo_tasks /\ task_id t = x /\ d ∈ task_deps t).
Proof.
  split; [exact (proj1 demo_tasks_accepted)|].
  exact (tasks_graph_complete demo_tasks (proj1 demo_tasks_accepted)).
Defined.

Lemma create_plan_chain_witness :
  accepted demo_tasks /\
  exists plan, create_plan (mkPlanner PlanningStrategy.CONSERVATIVE demo_caps) 7 demo_mission
      demo_tasks = Ok plan /\
    plan_groups plan = map (fun t => {[task_id t]}) demo_tasks /\
    (plan_duration plan == sum_complexity demo_tasks)%Q.
Proof.
  destruct demo_tasks_accepted as [Ha Hc]. split; [exact Ha|].
  exact (create_plan_chain (mkPlanner PlanningStrategy.CONSERVATIVE demo_caps) 7 demo_mission
           demo_tasks (or_intror eq_refl) Ha Hc).
Defined.

Lemma create_plan_escapes_witness :
  accepted demo_isolated /\
  exists e, create_plan (mkPlanner PlanningStrategy.BALANCED demo_caps) 7 demo_mission
      demo_isolated = Err e /\ exn_cls e = ValidationError.
Proof.
  destruct demo_isolated_accepted as [Ha Hc]. split; [exact Ha|].
  assert (Hne : task_edges demo_isolated <> []) by (vm_compute; discriminate).
  assert (Hiso : exists t, isolated demo_isolated t).
  { exists (demo_task "c" 1 []). split; [right; right; left|]. split; [vm_compute; reflexivity|].
    intros u. change demo_isolated with
      [demo_task "a" 1 []; demo_task "b" 1 ["a"]; demo_task "c" 1 []].
    rewrite !elem_of_cons, elem_of_nil.
    intros [->|[->|[->|[]]]] Hin; unfold demo_task in Hin; cbn [task_deps task_id] in Hin;
      apply elem_of_list_to_set in Hin; pose proof (bool_decide_pack _ Hin) as Hb;
      vm_compute in Hb; exact Hb. }
  exact (create_plan_escapes (mkPlanner PlanningStrategy.BALANCED demo_caps) 7 demo_mission
           demo_isolated (or_introl eq_refl) Ha Hc Hne Hiso).
Defined.

Lemma replan_idempotent_witness :
  exists plan,
    create_plan (mkPlanner PlanningStrategy.BALANCED demo_caps) 7 demo_mission demo_tasks = Ok plan
    /\ optimize_plan (mkPlanner PlanningStrategy.BALANCED demo_caps) 7 plan = Ok plan.
Proof.
  destruct (create_plan (mkPlanner PlanningStrategy.BALANCED demo_caps) 7 demo_mission demo_tasks)
    as [plan|e] eqn:Hrun.
  - exists plan. split; [reflexivity|]. exact (replan_idempotent _ _ _ _ _ Hrun).
  - exfalso. pose proof demo_balanced_groups as Hok. rewrite Hrun in Hok. exact Hok.
Defined.
