(* ===== verification/Supervisor.v ===== *)
(** * The multi-agent supervisor ([backend/agent/supervisor.py])

    [MultiAgentSupervisor] over a [TaskPlanner] and an [AgentLifecycleManager]:
    the mission state machine, planning, and [tick], which turns the ready
    nodes of a mission's graph into agents and the finished agents into
    completed nodes.

    A mission's execution graph is one mutable object that every snapshot of
    the mission points to: its current content is kept under the mission's id
    in [sv_graphs], and the graph inside the stored plan is its content when
    the plan was made.  [time.time()], [uuid.uuid4()] and the runtime selector
    are oracles indexed by the number of calls; [exn_text] is [str(exc)]. *)
From stdpp Require Import base gmap strings list sets relations.
From Stdlib Require Import ZArith QArith Lia.
From S2P Require Import Prelude.
From S2P Require Import Kahn.
From S2P Require Import ExecutionGraph.
From S2P Require Import Lifecycle.
From S2P Require Import TaskPlanner.
#[local] Open Scope Z_scope.

Module MissionState.
Inductive t :=
  | CREATED | PLANNING | READY | RUNNING | PAUSED | COMPLETED | FAILED | CANCELLED.
#[global] Instance eq_dec : EqDecision t.
Proof. solve_decision. Defined.

Definition value (s : t) : string :=
  match s with
  | CREATED => "created"
  | PLANNING => "planning"
  | READY => "ready"
  | RUNNING => "running"
  | PAUSED => "paused"
  | COMPLETED => "completed"
  | FAILED => "failed"
  | CANCELLED => "cancelled"
  end.
End MissionState.

Module SupervisorEvent.
Inductive t :=
  | MISSION_CREATED | MISSION_STARTED | MISSION_PAUSED | MISSION_RESUMED | MISSION_COMPLETED
  | MISSION_FAILED | MISSION_CANCELLED | AGENT_CREATED | AGENT_COMPLETED | AGENT_FAILED
  | TASK_READY | GRAPH_COMPLETED.
#[global] Instance eq_dec : EqDecision t.
Proof. solve_decision. Defined.
End SupervisorEvent.

Record MissionContext := mkMissionCtx {
  mc_id : string;
  mc_title : string;
  mc_objective : string;
  mc_priority : Z;
  mc_meta : pydict pyval
}.

Record SupervisorStatistics := mkSupStats {
  missions_started : Z;
  missions_completed : Z;
  missions_failed : Z;
  agents_created : Z;
  agents_running : Z;
  average_duration : Q;
  sup_stats_meta : pydict pyval
}.

Definition no_sup_stats : SupervisorStatistics := mkSupStats 0 0 0 0 0 0%Q [].

Record MissionInstance := mkMissionInst {
  ms_ctx : MissionContext;
  ms_state : MissionState.t;
  ms_plan : option TaskPlan;
  ms_agents : list string;
  ms_stats : SupervisorStatistics;
  ms_meta : pydict pyval
}.

(** [_MISSION_TRANSITIONS] *)
Definition mission_transitions (s : MissionState.t) : list MissionState.t :=
  match s with
  | MissionState.CREATED => [MissionState.PLANNING; MissionState.CANCELLED]
  | MissionState.PLANNING => [MissionState.READY; MissionState.FAILED; MissionState.CANCELLED]
  | MissionState.READY => [MissionState.RUNNING; MissionState.CANCELLED]
  | MissionState.RUNNING =>
      [MissionState.PAUSED; MissionState.COMPLETED; MissionState.FAILED; MissionState.CANCELLED]
  | MissionState.PAUSED => [MissionState.RUNNING; MissionState.CANCELLED; MissionState.FAILED]
  | MissionState.COMPLETED | MissionState.FAILED | MissionState.CANCELLED => []
  end.

(** [_MISSION_EVENTS] *)
Definition mission_event (s : MissionState.t) : option SupervisorEvent.t :=
  match s with
  | MissionState.CREATED => None
  | MissionState.PLANNING | MissionState.READY => Some SupervisorEvent.MISSION_CREATED
  | MissionState.RUNNING => Some SupervisorEvent.MISSION_STARTED
  | MissionState.PAUSED => Some SupervisorEvent.MISSION_PAUSED
  | MissionState.COMPLETED => Some SupervisorEvent.MISSION_COMPLETED
  | MissionState.FAILED => Some SupervisorEvent.MISSION_FAILED
  | MissionState.CANCELLED => Some SupervisorEvent.MISSION_CANCELLED
  end.

(** A call [handler(event, mission_id)]. *)
Record sup_call := mkSupCall {
  sc_handler : string;
  sc_event : SupervisorEvent.t;
  sc_mission : string
}.

Record Supervisor := mkSup {
  sv_planner : TaskPlanner;
  sv_life : Manager;
  sv_missions : pydict MissionInstance;
  sv_agents : pydict (gset string);
  sv_graphs : pydict ExecutionGraph;
  sv_handlers : list string;
  sv_calls : list sup_call;
  sv_uuids : nat;
  sv_selects : nat
}.

Definition new_supervisor (p : TaskPlanner) (m : Manager) : Supervisor :=
  mkSup p m [] [] [] [] [] 0 0.

Definition with_planner (p : TaskPlanner) (s : Supervisor) : Supervisor :=
  mkSup p (sv_life s) (sv_missions s) (sv_agents s) (sv_graphs s) (sv_handlers s) (sv_calls s)
    (sv_uuids s) (sv_selects s).
Definition with_life (l : Manager) (s : Supervisor) : Supervisor :=
  mkSup (sv_planner s) l (sv_missions s) (sv_agents s) (sv_graphs s) (sv_handlers s) (sv_calls s)
    (sv_uuids s) (sv_selects s).
Definition with_missions (d : pydict MissionInstance) (s : Supervisor) : Supervisor :=
  mkSup (sv_planner s) (sv_life s) d (sv_agents s) (sv_graphs s) (sv_handlers s) (sv_calls s)
    (sv_uuids s) (sv_selects s).
Definition with_mission_agents (d : pydict (gset string)) (s : Supervisor) : Supervisor :=
  mkSup (sv_planner s) (sv_life s) (sv_missions s) d (sv_graphs s) (sv_handlers s) (sv_calls s)
    (sv_uuids s) (sv_selects s).
Definition with_graphs (d : pydict ExecutionGraph) (s : Supervisor) : Supervisor :=
  mkSup (sv_planner s) (sv_life s) (sv_missions s) (sv_agents s) d (sv_handlers s) (sv_calls s)
    (sv_uuids s) (sv_selects s).
Definition with_calls (c : list sup_call) (s : Supervisor) : Supervisor :=
  mkSup (sv_planner s) (sv_life s) (sv_missions s) (sv_agents s) (sv_graphs s) (sv_handlers s) c
    (sv_uuids s) (sv_selects s).

(** [self._mission_agents.get(mission_id, set())] *)
Definition agents_of (s : Supervisor) (mid : string) : gset string :=
  default ∅ (dget (sv_agents s) mid).

Definition graph_of (s : Supervisor) (mid : string) : ExecutionGraph :=
  default empty_graph (dget (sv_graphs s) mid).

Definition supervisor_error (template : string) (args : list string) : exn :=
  Exn SupervisorError [Msg template args].

(** [n.status == st.value or n.status == st] *)
Definition status_is (n : AgentNode) (st : NodeStatus.t) : bool :=
  bool_decide (status_str (node_st n) = NodeStatus.value st).

Definition node_with_status (n : AgentNode) (st : NodeStatus.t) : AgentNode :=
  mkNode (node_id n) (node_name n) (node_ty n) (StatusEnum st) (node_cap n) (node_meta n).

(** [graph._nodes[nid] = type(node)(..., status=st, ...)] *)
Definition set_status (g : ExecutionGraph) (nid : string) (n : AgentNode) (st : NodeStatus.t)
    : ExecutionGraph :=
  mkGraph (dset (g_nodes g) nid (node_with_status n st)) (g_edges g).

(** [{t.id: t for t in plan.tasks}.get(nid)] *)
Definition task_lookup (tasks : list PlannedTask) (nid : string) : option PlannedTask :=
  dget (fold_left (fun d t => dset d (task_id t) t) tasks []) nid.

(** The loop over [deps]: every predecessor exists and is completed. *)
Definition deps_completed (g : ExecutionGraph) (deps : list string) : bool :=
  forallb (fun dep => match get_node g dep with
                      | Ok n => status_is n NodeStatus.COMPLETED
                      | Err _ => false
                      end) deps.

(** [all(... for n in leaves) if leaves else False] *)
Definition all_done (leaves : list AgentNode) : bool :=
  match leaves with
  | [] => false
  | _ => forallb (fun n => status_is n NodeStatus.COMPLETED) leaves
  end.

(** [f"{mission_id}__{node_id}__{uuid.uuid4().hex[:8]}"] *)
Definition agent_name (mid nid hex : string) : string :=
  mid +:+ "__" +:+ nid +:+ "__" +:+ hex.

Section operations.
Context `{!SetOrder}.
Variable clock : nat -> Z.
Variable uuid_hex : nat -> string.
Variable runtime_selector : option (nat -> string -> res (option string)).
Variable exn_text : exn -> string.

(** An operation of the lifecycle manager. *)
Definition life {A} (m : M Manager A) : M Supervisor A := zoom sv_life with_life m.

(** [on_event] *)
Definition sup_on_event (handler : string) : M Supervisor unit := fun s =>
  (Ok tt, mkSup (sv_planner s) (sv_life s) (sv_missions s) (sv_agents s) (sv_graphs s)
            (sv_handlers s ++ [handler]) (sv_calls s) (sv_uuids s) (sv_selects s)).

(** [_emit]: what a handler raises is dropped. *)
Definition sup_emit (ev : SupervisorEvent.t) (mid : string) : M Supervisor unit := fun s =>
  (Ok tt, with_calls (sv_calls s ++ map (fun h => mkSupCall h ev mid) (sv_handlers s)) s).

Definition store_mission (mid : string) (m : MissionInstance) : M Supervisor unit := fun s =>
  (Ok tt, with_missions (dset (sv_missions s) mid m) s).

Definition store_graph (mid : string) (g : ExecutionGraph) : M Supervisor unit := fun s =>
  (Ok tt, with_graphs (dset (sv_graphs s) mid g) s).

(** [_check_mission_exists] *)
Definition check_mission_exists (mid : string) : M Supervisor unit :=
  s <- get ;;
  if dmem (sv_missions s) mid then ret tt
  else raise (supervisor_error "Mission '{}' not found." [mid]).

(** [_get_mission] *)
Definition get_mission (mid : string) : M Supervisor MissionInstance :=
  check_mission_exists mid ;;;
  s <- get ;;
  lift (dlookup (sv_missions s) mid).

Definition emit_state (target : MissionState.t) (mid : string) : M Supervisor unit :=
  match mission_event target with
  | Some ev => sup_emit ev mid
  | None => ret tt
  end.

(** The instance [_transition_mission] stores. *)
Definition moved_mission (m : MissionInstance) (target : MissionState.t) (now : Z)
    : MissionInstance :=
  let st := ms_stats m in
  mkMissionInst (ms_ctx m) target (ms_plan m) (ms_agents m)
    (mkSupStats (missions_started st) (missions_completed st) (missions_failed st)
       (agents_created st) 0 0%Q [])
    (dset (ms_meta m) (MissionState.value target +:+ "_at") (PInt now)).

(** [_transition_mission] *)
Definition transition_mission (mid : string) (target : MissionState.t)
    : M Supervisor MissionInstance :=
  mission <- get_mission mid ;;
  let current := ms_state mission in
  if decide (target ∈ mission_transitions current) then
    now <- life (time_now clock) ;;
    let updated := moved_mission mission target now in
    store_mission mid updated ;;;
    emit_state target mid ;;;
    ret updated
  else raise (supervisor_error "Invalid mission transition '{}' → '{}' for mission '{}'."
                [MissionState.value current; MissionState.value target; mid]).

(** ** Planning *)

(** [self._planner.create_plan(...)]: the clock is read when the plan is built. *)
Definition plan_mission_tasks (context : MissionContext) (tasks : list PlannedTask)
    : M Supervisor TaskPlan :=
  s <- get ;;
  let mission := mkMission (mc_id context) (mc_title context) (mc_objective context)
    (mc_objective context) (mc_priority context) [] in
  match create_plan (sv_planner s) (clock (lm_reads (sv_life s))) mission tasks with
  | Ok plan => life (time_now clock) ;;; ret plan
  | Err e => raise e
  end.

(** [except PlanningError] *)
Definition is_planning_error (c : exn_class) : bool := bool_decide (c = PlanningError).

Definition register_mission (context : MissionContext) : M Supervisor unit := fun s =>
  (Ok tt, with_mission_agents (dset (sv_agents s) (mc_id context) ∅)
            (with_missions (dset (sv_missions s) (mc_id context)
               (mkMissionInst context MissionState.CREATED None [] no_sup_stats [])) s)).

(** The path of [create_mission] after the planner has answered. *)
Definition mission_planned (context : MissionContext) (mission : MissionInstance)
    (plan : TaskPlan) : M Supervisor MissionInstance :=
  now <- life (time_now clock) ;;
  match plan_graph plan with
  | Some g => store_graph (mc_id context) g
  | None => ret tt
  end ;;;
  store_mission (mc_id context)
    (mkMissionInst (ms_ctx mission) (ms_state mission) (Some plan) (ms_agents mission)
       (ms_stats mission) [("plan_generated_at", PInt now)]) ;;;
  transition_mission (mc_id context) MissionState.READY.

Definition mission_refused (context : MissionContext) (e : exn)
    : M Supervisor MissionInstance :=
  mission <- transition_mission (mc_id context) MissionState.FAILED ;;
  ret (mkMissionInst (ms_ctx mission) MissionState.FAILED None [] no_sup_stats
         (dset (ms_meta mission) "planning_error" (PStr (exn_text e)))).

(** [create_mission] *)
Definition create_mission (context : MissionContext) (tasks : list PlannedTask)
    : M Supervisor MissionInstance :=
  s <- get ;;
  if dmem (sv_missions s) (mc_id context)
  then raise (supervisor_error "Mission '{}' already exists." [mc_id context])
  else
    register_mission context ;;;
    sup_emit SupervisorEvent.MISSION_CREATED (mc_id context) ;;;
    mission <- transition_mission (mc_id context) MissionState.PLANNING ;;
    r <- catch (plan <- plan_mission_tasks context tasks ;; ret (inl plan)) is_planning_error
           (fun e => ret (inr e)) ;;
    match r with
    | inl plan => mission_planned context mission plan
    | inr e => mission_refused context e
    end.

(** ** Mission lifecycle *)

Definition start_mission (mid : string) : M Supervisor MissionInstance :=
  check_mission_exists mid ;;; transition_mission mid MissionState.RUNNING.

(** [try: body  except AgentLifecycleError: pass] *)
Definition ignoring_lifecycle (m : M Supervisor unit) : M Supervisor unit :=
  catch m is_lifecycle_error (fun _ => ret tt).

(** Run [op] on the agent if it is in state [st]. *)
Definition if_agent_state (aid : string) (st : AgentState.t) (op : M Manager AgentInstance)
    : M Supervisor unit :=
  ignoring_lifecycle (
    agent <- life (get_agent aid) ;;
    if decide (agent_state agent = st) then life (discard op) else ret tt).

Definition each_agent (mid : string) (body : string -> M Supervisor unit) : M Supervisor unit :=
  s <- get ;; for_each (iter_set (agents_of s mid)) body.

Definition pause_mission (mid : string) : M Supervisor MissionInstance :=
  check_mission_exists mid ;;;
  mission <- transition_mission mid MissionState.PAUSED ;;
  each_agent mid (fun aid => if_agent_state aid AgentState.RUNNING (pause_agent clock aid)) ;;;
  ret mission.

Definition resume_mission (mid : string) : M Supervisor MissionInstance :=
  check_mission_exists mid ;;;
  mission <- transition_mission mid MissionState.RUNNING ;;
  each_agent mid (fun aid => if_agent_state aid AgentState.PAUSED (resume_agent clock aid)) ;;;
  ret mission.

Definition cancel_agents (mid : string) : M Supervisor unit :=
  each_agent mid (fun aid => ignoring_lifecycle (life (discard (cancel_agent clock aid)))).

Definition cancel_mission (mid : string) : M Supervisor MissionInstance :=
  check_mission_exists mid ;;;
  mission <- transition_mission mid MissionState.CANCELLED ;;
  cancel_agents mid ;;;
  ret mission.

(** ** Tick *)

Definition swallow (m : M Supervisor unit) : M Supervisor unit :=
  catch m any_exception (fun _ => ret tt).

(** Mark the node [tid] of the mission's graph and notify. *)
Definition mark_node (mid tid : string) (st : NodeStatus.t) (ev : SupervisorEvent.t)
    : M Supervisor unit :=
  swallow (
    s <- get ;;
    node <- lift (get_node (graph_of s mid) tid) ;;
    store_graph mid (set_status (graph_of s mid) tid node st) ;;;
    sup_emit ev mid).

(** Part 1 of [_tick_mission], for one agent. *)
Definition mark_agent (mid aid : string) : M Supervisor unit :=
  s <- get ;;
  match (get_agent aid (sv_life s)).1 with
  | Err _ => ret tt
  | Ok agent =>
      let tid := ctx_task_id (agent_ctx agent) in
      if decide (tid = "") then ret tt
      else if decide (agent_state agent = AgentState.COMPLETED)
      then mark_node mid tid NodeStatus.COMPLETED SupervisorEvent.AGENT_COMPLETED
      else if decide (agent_state agent = AgentState.FAILED)
      then mark_node mid tid NodeStatus.FAILED SupervisorEvent.AGENT_FAILED
      else ret tt
  end.

(** [self._runtime_selector(task.runtime_capability)] *)
Definition select_runtime (cap : string) : M Supervisor (option string) := fun s =>
  match runtime_selector with
  | None => (Ok None, s)
  | Some f =>
      (f (sv_selects s) cap,
       mkSup (sv_planner s) (sv_life s) (sv_missions s) (sv_agents s) (sv_graphs s)
         (sv_handlers s) (sv_calls s) (sv_uuids s) (S (sv_selects s)))
  end.

Definition next_uuid : M Supervisor string := fun s =>
  (Ok (uuid_hex (sv_uuids s)),
   mkSup (sv_planner s) (sv_life s) (sv_missions s) (sv_agents s) (sv_graphs s)
     (sv_handlers s) (sv_calls s) (S (sv_uuids s)) (sv_selects s)).

(** [self._mission_agents[mission_id].add(agent_id)] *)
Definition add_agent (mid aid : string) : M Supervisor unit :=
  s <- get ;;
  agents <- lift (dlookup (sv_agents s) mid) ;;
  put (with_mission_agents (dset (sv_agents s) mid ({[aid]} ∪ agents)) s).

(** The [try] block that creates and starts an agent for [node]. *)
Definition spawn (mid nid : string) (node : AgentNode) (ctx : AgentContext)
    : M Supervisor unit :=
  swallow (
    agent <- life (create_agent clock ctx None) ;;
    add_agent mid (agent_id agent) ;;;
    life (start_agent clock (agent_id agent)) ;;;
    s <- get ;;
    store_graph mid (set_status (graph_of s mid) nid node NodeStatus.RUNNING) ;;;
    sup_emit SupervisorEvent.AGENT_CREATED mid ;;;
    sup_emit SupervisorEvent.TASK_READY mid).

(** Part 3 of [_tick_mission], for one node. *)
Definition launch (mid : string) (plan : TaskPlan) (gp : GraphExecutionPlan) (nid : string)
    : M Supervisor unit :=
  s <- get ;;
  let g := graph_of s mid in
  match get_node g nid with
  | Err _ => ret tt
  | Ok node =>
      if negb (status_is node NodeStatus.PENDING) then ret tt
      else if negb (deps_completed g (default [] (dget (dependencies gp) nid))) then ret tt
      else match task_lookup (plan_tasks plan) nid with
           | None => ret tt
           | Some task =>
               assigned <- select_runtime (task_cap task) ;;
               hex <- next_uuid ;;
               spawn mid nid node
                 (mkCtx (agent_name mid nid hex) mid nid (task_cap task) assigned [])
           end
  end.

Definition empty_graph_result (g : ExecutionGraph) : bool :=
  bool_decide (length (get_roots g) = 0%nat) && bool_decide (length (get_leaves g) = 0%nat)
  && bool_decide (length (list_nodes g) = 0%nat).

(** [_tick_mission] *)
Definition tick_mission (mid : string) : M Supervisor bool :=
  mission <- get_mission mid ;;
  match ms_plan mission with
  | None => ret false
  | Some plan =>
      match plan_graph plan with
      | None => ret false
      | Some _ =>
          each_agent mid (mark_agent mid) ;;;
          s <- get ;;
          let g := graph_of s mid in
          match generate_plan g with
          | Err _ => ret true
          | Ok gp =>
              if empty_graph_result g then ret false
              else if all_done (get_leaves g) then
                transition_mission mid MissionState.COMPLETED ;;;
                sup_emit SupervisorEvent.GRAPH_COMPLETED mid ;;;
                ret true
              else
                for_each (flat_map iter_set (levels gp)) (launch mid plan gp) ;;;
                ret true
          end
      end
  end.

(** The loop of [tick], on a copy of the items. *)
Fixpoint tick_loop (items : list (string * MissionInstance)) (changed : list string)
    : M Supervisor (list string) :=
  match items with
  | [] => ret changed
  | (mid, mission) :: items' =>
      if decide (ms_state mission = MissionState.RUNNING) then
        b <- tick_mission mid ;;
        tick_loop items' (if b : bool then changed ++ [mid] else changed)
      else tick_loop items' changed
  end.

Definition tick : M Supervisor (list string) :=
  s <- get ;; tick_loop (sv_missions s) [].

(** ** Queries *)

Definition list_missions (s : Supervisor) (state : option MissionState.t)
    : list MissionInstance :=
  match state with
  | None => dvalues (sv_missions s)
  | Some st => filter (fun m => ms_state m = st) (dvalues (sv_missions s))
  end.

Definition count_if {A} (P : A -> bool) (l : list A) : Z := Z.of_nat (length (List.filter P l)).

Definition agent_running (s : Supervisor) (aid : string) : bool :=
  match dget (lm_agents (sv_life s)) aid with
  | Some a => bool_decide (agent_state a = AgentState.RUNNING)
  | None => false
  end.

(** [get_statistics]: [total] and [count] stay 0, hence the average. *)
Definition get_statistics (s : Supervisor) : SupervisorStatistics :=
  let ms := dvalues (sv_missions s) in
  let in_states (l : list MissionState.t) (m : MissionInstance) := bool_decide (ms_state m ∈ l) in
  mkSupStats
    (count_if (in_states [MissionState.COMPLETED; MissionState.RUNNING; MissionState.FAILED]) ms)
    (count_if (in_states [MissionState.COMPLETED]) ms)
    (count_if (in_states [MissionState.FAILED]) ms)
    (fold_left (fun n mid => n + Z.of_nat (size (agents_of s mid))) (dkeys (sv_missions s)) 0)
    (count_if (agent_running s) (flat_map iter_set (dvalues (sv_agents s))))
    0%Q [].

(** ** Cleanup *)

(** [mission.metadata.get("plan_generated_at", now)], always written as a time. *)
Definition planned_at (m : MissionInstance) (now : Z) : Z :=
  match dget (ms_meta m) "plan_generated_at" with
  | Some (PInt t) => t
  | _ => now
  end.

Definition mission_expired (now max_age_s : Z) (m : MissionInstance) : bool :=
  bool_decide (ms_state m ∈
    [MissionState.COMPLETED; MissionState.FAILED; MissionState.CANCELLED])
  && (max_age_s <? now - planned_at m now).

Definition forget_mission (mid : string) : M Supervisor unit := fun s =>
  (Ok tt, with_graphs (ddel (sv_graphs s) mid)
            (with_mission_agents (ddel (sv_agents s) mid)
              (with_missions (ddel (sv_missions s) mid) s))).

Definition cleanup (max_age_s : Z) : M Supervisor Z :=
  now <- life (time_now clock) ;;
  s <- get ;;
  let to_remove :=
    map fst (filter (fun p => mission_expired now max_age_s p.2 = true) (sv_missions s)) in
  for_each to_remove (fun mid => cancel_agents mid ;;; forget_mission mid) ;;;
  ret (Z.of_nat (length to_remove)).

(** ** Histories *)

Inductive sup_op :=
  | SOnEvent (handler : string)
  | SSetStrategy (st : PlanningStrategy.t)
  | SCreate (c : MissionContext) (tasks : list PlannedTask)
  | SStart (mid : string)
  | SPause (mid : string)
  | SResume (mid : string)
  | SCancel (mid : string)
  | STick
  | SCleanup (max_age : Z)
  | SLife (op : lm_op).

Definition run_sup_op (op : sup_op) : M Supervisor unit :=
  match op with
  | SOnEvent h => sup_on_event h
  | SSetStrategy st => fun s => (Ok tt, with_planner (set_strategy st (sv_planner s)) s)
  | SCreate c tasks => discard (create_mission c tasks)
  | SStart mid => discard (start_mission mid)
  | SPause mid => discard (pause_mission mid)
  | SResume mid => discard (resume_mission mid)
  | SCancel mid => discard (cancel_mission mid)
  | STick => discard tick
  | SCleanup age => discard (cleanup age)
  | SLife op => life (run_lm_op clock op)
  end.

Definition run_sup_ops (ops : list sup_op) (s : Supervisor) : Supervisor :=
  fold_left (fun s op => (run_sup_op op s).2) ops s.
End operations.

(** * Properties *)

Section proofs.
Context `{!SetOrder}.
Variable clock : nat -> Z.
Variable uuid_hex : nat -> string.
Variable runtime_selector : option (nat -> string -> res (option string)).
Variable exn_text : exn -> string.

(** ** What the supervisor's calls do to the lifecycle manager *)

(** Agents are kept, with their context, and a finished agent stays so. *)
Definition life_mono (m m' : Manager) : Prop :=
  forall k a, dget (lm_agents m) k = Some a ->
    exists a', dget (lm_agents m') k = Some a' /\ agent_ctx a' = agent_ctx a /\
      (terminal (agent_state a) = true -> agent_state a' = agent_state a).

#[local] Instance life_mono_preorder : PreOrder life_mono.
Proof.
  split.
  - intros m k a Ha. eauto.
  - intros m1 m2 m3 H12 H23 k a Ha. destruct (H12 k a Ha) as (b & Hb & Hcb & Htb).
    destruct (H23 k b Hb) as (c & Hc & Hcc & Htc). exists c. split_and!; [done|congruence|].
    intros Ht. rewrite Htc by (by rewrite Htb). by apply Htb.
Qed.

Lemma agent_step_mono a o :
  agent_step (Some a) o ->
  exists a', o = Some a' /\ agent_ctx a' = agent_ctx a /\
    (terminal (agent_state a) = true -> agent_state a' = agent_state a).
Proof.
  inversion 1 as [|b target now Hm Hs Ht|b now Hp]; subst; eexists; (split; [done|]);
    (split; [done|]); intros Hterm; exfalso.
  - destruct Hm as [[_ Hm]|[_ Hm]]; [congruence|].
    destruct (agent_state a); cbn in *; try discriminate; set_solver.
  - by rewrite Hp in Hterm.
Qed.

Definition no_cleanup (op : lm_op) : bool :=
  match op with OpCleanup _ => false | _ => true end.

Lemma life_op_mono op m :
  manager_inv m -> no_cleanup op = true -> life_mono m (run_lm_op clock op m).2.
Proof.
  intros Hm Hop k a Ha.
  destruct (op_agent_step clock op m k Hm) as [Heq|[Hst|(age & b & -> & _)]]; [| |done].
  - exists a. by rewrite Heq.
  - rewrite Ha in Hst. by apply agent_step_mono.
Qed.

(** [s'] differs from [s] in nothing the missions are made of, and its
    lifecycle manager has only moved on. *)
Record sup_ext (s s' : Supervisor) : Prop := SupExt {
  se_missions : sv_missions s' = sv_missions s;
  se_agents : sv_agents s' = sv_agents s;
  se_graphs : sv_graphs s' = sv_graphs s;
  se_life : manager_inv (sv_life s) -> manager_inv (sv_life s') /\ life_mono (sv_life s) (sv_life s')
}.

#[local] Instance sup_ext_preorder : PreOrder sup_ext.
Proof.
  split.
  - intros s. by split.
  - intros s1 s2 s3 [Hm1 Ha1 Hg1 Hl1] [Hm2 Ha2 Hg2 Hl2]. split; [congruence..|].
    intros Hm. destruct (Hl1 Hm) as [Hm' H12]. destruct (Hl2 Hm') as [Hm'' H23].
    split; [done|]. by etransitivity.
Qed.

(** An operation that only extends the state, wherever it starts. *)
Definition calm {A} (m : M Supervisor A) : Prop := forall s, sup_ext s (m s).2.

Lemma calm_preserves {A} s0 (m : M Supervisor A) : calm m -> preserves (sup_ext s0) m.
Proof. intros Hc s Hs. etransitivity; [exact Hs|apply Hc]. Qed.

Lemma calm_of_preserves {A} (m : M Supervisor A) : (forall s0, preserves (sup_ext s0) m) -> calm m.
Proof. intros Hp s. by apply Hp. Qed.

Lemma calm_bind {A B} (m : M Supervisor A) (f : A -> M Supervisor B) :
  calm m -> (forall a, calm (f a)) -> calm (bind m f).
Proof.
  intros Hm Hf. apply calm_of_preserves. intros s0.
  apply preserves_bind; [by apply calm_preserves|]. intros a. by apply calm_preserves.
Qed.

Lemma calm_ret {A} (a : A) : calm (ret a).
Proof. intros s. cbn. reflexivity. Qed.

Lemma calm_get : calm get.
Proof. intros s. cbn. reflexivity. Qed.

Lemma calm_catch {A} (m : M Supervisor A) handles h :
  calm m -> (forall e, calm (h e)) -> calm (catch m handles h).
Proof.
  intros Hm Hh. apply calm_of_preserves. intros s0.
  apply preserves_catch; [by apply calm_preserves|]. intros e. by apply calm_preserves.
Qed.

Lemma calm_for_each {A} (l : list A) body : (forall x, calm (body x)) -> calm (for_each l body).
Proof.
  intros Hb. apply calm_of_preserves. intros s0. apply preserves_for_each.
  intros x _. by apply calm_preserves.
Qed.

Lemma calm_life_op op : no_cleanup op = true -> calm (life (run_lm_op clock op)).
Proof.
  intros Hop s. unfold life, zoom. pose proof (life_op_mono op (sv_life s)) as Hmono.
  pose proof (run_lm_op_inv clock op (sv_life s)) as Hinv.
  destruct (run_lm_op clock op (sv_life s)) as [r l]. split; [done..|]. cbn in *. auto.
Qed.

(** Reading the clock or an agent changes no agent. *)
Lemma calm_life_same {A} (m : M Manager A) :
  (forall l, lm_agents (m l).2 = lm_agents l) -> calm (life m).
Proof.
  intros Hsame s. unfold life, zoom. specialize (Hsame (sv_life s)).
  destruct (m (sv_life s)) as [r l]. split; [done..|]. cbn in *. intros Hm. split.
  - by eapply manager_inv_agents.
  - intros k a Ha. rewrite Hsame. eauto.
Qed.

Lemma calm_time_now : calm (life (time_now clock)).
Proof. by apply calm_life_same. Qed.

Lemma calm_get_agent aid : calm (life (get_agent aid)).
Proof.
  apply calm_life_same. intros l. unfold get_agent. by destruct (dget (lm_agents l) aid).
Qed.

Lemma calm_emit ev mid : calm (sup_emit ev mid).
Proof. intros s. by split. Qed.

Lemma calm_select cap : calm (select_runtime runtime_selector cap).
Proof. intros s. unfold select_runtime. destruct runtime_selector; by split. Qed.

Lemma calm_next_uuid : calm (next_uuid uuid_hex).
Proof. intros s. by split. Qed.

Lemma calm_if_agent_state aid st op lop :
  no_cleanup lop = true -> run_lm_op clock lop = discard op ->
  calm (if_agent_state aid st op).
Proof.
  intros Hop Heq. unfold if_agent_state, ignoring_lifecycle. apply calm_catch.
  - apply calm_bind; [apply calm_get_agent|]. intros a. case_decide; [|apply calm_ret].
    rewrite <- Heq. by apply calm_life_op.
  - intros e. apply calm_ret.
Qed.

Lemma calm_each_agent mid body : (forall aid, calm (body aid)) -> calm (each_agent mid body).
Proof.
  intros Hb. unfold each_agent. apply calm_bind; [apply calm_get|]. intros s. by apply calm_for_each.
Qed.

Lemma calm_cancel_agents mid : calm (cancel_agents clock mid).
Proof.
  unfold cancel_agents. apply calm_each_agent. intros aid. apply calm_catch.
  - by apply (calm_life_op (OpCancel aid)).
  - intros e. apply calm_ret.
Qed.

Lemma calm_pause_agents mid :
  calm (each_agent mid (fun aid => if_agent_state aid AgentState.RUNNING (pause_agent clock aid))).
Proof. apply calm_each_agent. intros aid. by apply (calm_if_agent_state _ _ _ (OpPause aid)). Qed.

Lemma calm_resume_agents mid :
  calm (each_agent mid (fun aid => if_agent_state aid AgentState.PAUSED (resume_agent clock aid))).
Proof. apply calm_each_agent. intros aid. by apply (calm_if_agent_state _ _ _ (OpResume aid)). Qed.

(** ** Mission transitions *)

Lemma get_mission_eq mid s :
  get_mission mid s =
  match dget (sv_missions s) mid with
  | Some m => (Ok m, s)
  | None => (Err (supervisor_error "Mission '{}' not found." [mid]), s)
  end.
Proof.
  unfold get_mission, check_mission_exists, bind, get, lift, dlookup. cbn. unfold dmem.
  by destruct (dget (sv_missions s) mid) eqn:E; cbn; rewrite ?E.
Qed.

Lemma check_get {A} mid (f : M Supervisor A) s :
  bind (check_mission_exists mid) (fun _ => f) s =
  match dget (sv_missions s) mid with
  | Some _ => f s
  | None => (Err (supervisor_error "Mission '{}' not found." [mid]), s)
  end.
Proof.
  unfold check_mission_exists, bind, get. cbn. unfold dmem.
  by destruct (dget (sv_missions s) mid).
Qed.

(** The state [_transition_mission] leaves when it succeeds. *)
Definition after_move (s : Supervisor) (mid : string) (m : MissionInstance)
    (target : MissionState.t) : Supervisor :=
  let s1 := with_life (time_now clock (sv_life s)).2 s in
  let s2 := with_missions (dset (sv_missions s) mid
              (moved_mission m target (clock (lm_reads (sv_life s))))) s1 in
  (emit_state target mid s2).2.

Lemma transition_mission_eq mid target s :
  transition_mission clock mid target s =
  match dget (sv_missions s) mid with
  | None => (Err (supervisor_error "Mission '{}' not found." [mid]), s)
  | Some m =>
      if decide (target ∈ mission_transitions (ms_state m))
      then (Ok (moved_mission m target (clock (lm_reads (sv_life s)))), after_move s mid m target)
      else (Err (supervisor_error "Invalid mission transition '{}' → '{}' for mission '{}'."
              [MissionState.value (ms_state m); MissionState.value target; mid]), s)
  end.
Proof.
  unfold transition_mission, bind at 1. rewrite get_mission_eq.
  destruct (dget (sv_missions s) mid) as [m|]; [|done]. case_decide; [|done].
  unfold after_move, emit_state. destruct (mission_event target); reflexivity.
Qed.

Lemma after_move_missions s mid m target :
  sv_missions (after_move s mid m target)
  = dset (sv_missions s) mid (moved_mission m target (clock (lm_reads (sv_life s)))).
Proof. unfold after_move, emit_state. by destruct (mission_event target). Qed.

Lemma after_move_rest s mid m target :
  sv_agents (after_move s mid m target) = sv_agents s /\
  sv_graphs (after_move s mid m target) = sv_graphs s /\
  sv_planner (after_move s mid m target) = sv_planner s /\
  sv_uuids (after_move s mid m target) = sv_uuids s /\
  lm_agents (sv_life (after_move s mid m target)) = lm_agents (sv_life s).
Proof. unfold after_move, emit_state. by destruct (mission_event target). Qed.

(** ** The graph of a mission and its agents *)

Definition nstat (g : ExecutionGraph) (t : string) : option node_status :=
  node_st <$> dget (g_nodes g) t.

Definition pending (g : ExecutionGraph) (t : string) : Prop :=
  nstat g t = Some (StatusEnum NodeStatus.PENDING).
Definition completed (g : ExecutionGraph) (t : string) : Prop :=
  nstat g t = Some (StatusEnum NodeStatus.COMPLETED).

Definition task_of (a : AgentInstance) : string := ctx_task_id (agent_ctx a).

(** What holds of a mission's agents [A] and its graph [g]: every agent of the
    mission works on a node that has left PENDING, no two on the same node, a
    node is COMPLETED or FAILED only if its agent is, every node that has left
    PENDING has an agent, and then its predecessors are COMPLETED. *)
Record graph_ok (m : Manager) (A : gset string) (g : ExecutionGraph) : Prop := GraphOk {
  go_inv : graph_inv g;
  go_status : forall t st, nstat g t = Some st -> exists x, st = StatusEnum x /\
    x ∈ [NodeStatus.PENDING; NodeStatus.RUNNING; NodeStatus.COMPLETED; NodeStatus.FAILED];
  go_agent : forall k, k ∈ A -> exists a x, dget (lm_agents m) k = Some a /\
    nstat g (task_of a) = Some (StatusEnum x) /\ x <> NodeStatus.PENDING /\
    (x = NodeStatus.COMPLETED -> agent_state a = AgentState.COMPLETED) /\
    (x = NodeStatus.FAILED -> agent_state a = AgentState.FAILED);
  go_inj : forall k k' a a', k ∈ A -> k' ∈ A ->
    dget (lm_agents m) k = Some a -> dget (lm_agents m) k' = Some a' ->
    task_of a = task_of a' -> k = k';
  go_has : forall t, is_Some (nstat g t) -> ~ pending g t ->
    exists k a, k ∈ A /\ dget (lm_agents m) k = Some a /\ task_of a = t;
  go_deps : forall s t, (s, t) ∈ pairs (g_edges g) -> ~ pending g t -> completed g s
}.

(** [m] is stored with agents [oA] and graph [og]. *)
Definition mission_ok (l : Manager) (oA : option (gset string)) (og : option ExecutionGraph)
    (m : MissionInstance) : Prop :=
  match ms_plan m with
  | None => oA = Some ∅ /\
      ms_state m ∈ [MissionState.CREATED; MissionState.PLANNING; MissionState.FAILED;
                    MissionState.CANCELLED]
  | Some plan =>
      exists A g g0, oA = Some A /\ og = Some g /\ plan_graph plan = Some g0 /\
        NoDup (ids (plan_tasks plan)) /\
        (represents (plan_tasks plan) g0 /\ check_orphan_nodes (g_nodes g0) (g_edges g0) = []) /\
        dkeys (g_nodes g) = dkeys (g_nodes g0) /\ g_edges g = g_edges g0 /\
        graph_ok l A g /\
        ms_state m ∈ [MissionState.PLANNING; MissionState.READY; MissionState.RUNNING;
                      MissionState.PAUSED; MissionState.COMPLETED; MissionState.CANCELLED] /\
        (ms_state m = MissionState.COMPLETED ->
         forall t, t ∈ dkeys (g_nodes g) -> completed g t)
  end.

Record sup_inv (s : Supervisor) : Prop := SupInv {
  si_missions : dict_wf (sv_missions s);
  si_agents : dict_wf (sv_agents s);
  si_graphs : dict_wf (sv_graphs s);
  si_life : manager_inv (sv_life s);
  si_mission : forall k m, dget (sv_missions s) k = Some m ->
    mission_ok (sv_life s) (dget (sv_agents s) k) (dget (sv_graphs s) k) m
}.

Lemma graph_ok_mono m m' A g : life_mono m m' -> graph_ok m A g -> graph_ok m' A g.
Proof.
  intros Hm [Hinv Hst Hag Hinj Hhas Hdeps].
  assert (Hsame : forall k a', k ∈ A -> dget (lm_agents m') k = Some a' ->
    exists a, dget (lm_agents m) k = Some a /\ task_of a = task_of a').
  { intros k a' Hk Ha'. destruct (Hag k Hk) as (a & x & Ha & _).
    destruct (Hm k a Ha) as (b & Hb & Hc & _). exists a. split; [done|].
    rewrite Ha' in Hb. injection Hb as <-. unfold task_of. by rewrite Hc. }
  split; [done..| | | |done].
  - intros k Hk. destruct (Hag k Hk) as (a & x & Ha & Hx & Hnp & Hcmp & Hfl).
    destruct (Hm k a Ha) as (b & Hb & Hc & Ht). exists b, x.
    assert (Htask : task_of b = task_of a) by (unfold task_of; by rewrite Hc).
    rewrite Htask. split_and!; [done..| |].
    + intros Hxc. rewrite Ht by (by rewrite Hcmp). by apply Hcmp.
    + intros Hxf. rewrite Ht by (by rewrite Hfl). by apply Hfl.
  - intros k k' a a' Hk Hk' Ha Ha' Heq.
    destruct (Hsame k a Hk Ha) as (b & Hb & Hbt). destruct (Hsame k' a' Hk' Ha') as (b' & Hb' & Hbt').
    apply (Hinj k k' b b'); [done..|congruence].
  - intros t Hs Hnp. destruct (Hhas t Hs Hnp) as (k & a & Hk & Ha & Hta).
    destruct (Hm k a Ha) as (b & Hb & Hc & _). exists k, b. split_and!; [done..|].
    unfold task_of. by rewrite Hc.
Qed.

Lemma mission_ok_mono l l' oA og m : life_mono l l' -> mission_ok l oA og m -> mission_ok l' oA og m.
Proof.
  intros Hl. unfold mission_ok. destruct (ms_plan m) as [plan|]; [|done].
  intros (A & g & g0 & HA & Hg & Hp & Hnd & [Hrep Horph] & Hk & He & Hok & Hst & Hc).
  exists A, g, g0. split_and!; [done..|by eapply graph_ok_mono|done|done].
Qed.

Lemma sup_ext_inv s s' : sup_ext s s' -> sup_inv s -> sup_inv s'.
Proof.
  intros [Hm Ha Hg Hl] [Hwm Hwa Hwg Hlife Hms]. destruct (Hl Hlife) as [Hlife' Hmono].
  split; [congruence..|done|]. intros k m. rewrite Hm, Ha, Hg. intros Hk.
  eapply mission_ok_mono; [done|]. by apply Hms.
Qed.

Lemma calm_inv {A} (m : M Supervisor A) : calm m -> preserves sup_inv m.
Proof. intros Hc s Hs. by eapply sup_ext_inv; [apply Hc|]. Qed.

(** *** Setting the status of a node *)

Lemma set_status_inv g t n st :
  graph_inv g -> dget (g_nodes g) t = Some n -> graph_inv (set_status g t n st).
Proof.
  intros [Hwf Hids Hrefs Hac] Hn. assert (Hin : t ∈ dkeys (g_nodes g))
    by (apply dget_is_Some; by eexists).
  split; cbn.
  - by apply dict_wf_dset.
  - intros k m. rewrite dget_dset. case_decide; [|by apply Hids]. intros [= <-]. cbn.
    rewrite (Hids _ _ Hn). done.
  - by rewrite dkeys_dset_mem.
  - done.
Qed.

Lemma nstat_set_status g t n st u :
  nstat (set_status g t n st) u = if decide (t = u) then Some (StatusEnum st) else nstat g u.
Proof. unfold nstat. cbn. rewrite dget_dset. by case_decide. Qed.

Lemma dkeys_set_status g t n st :
  dget (g_nodes g) t = Some n -> dkeys (g_nodes (set_status g t n st)) = dkeys (g_nodes g).
Proof. intros Hn. cbn. apply dkeys_dset_mem, dget_is_Some. by eexists. Qed.

Lemma status_is_spec n x st :
  node_st n = StatusEnum x -> status_is n st = true <-> x = st.
Proof.
  intros Hx. unfold status_is. rewrite bool_decide_eq_true, Hx. cbn.
  split; [|by intros ->]. by destruct x, st.
Qed.


(** Nothing in the step undoes a completion. *)
Definition keeps_completed (g g' : ExecutionGraph) : Prop := forall t, completed g t -> completed g' t.

Lemma agent_not_pending m A g k a :
  graph_ok m A g -> k ∈ A -> dget (lm_agents m) k = Some a -> ~ pending g (task_of a).
Proof.
  intros Hok Hk Ha Hp. destruct (go_agent _ _ _ Hok k Hk) as (b & x & Hb & Hx & Hnp & _).
  rewrite Ha in Hb. injection Hb as <-. unfold pending in Hp. rewrite Hx in Hp. by injection Hp.
Qed.

Lemma graph_ok_mark m A g k a n st :
  graph_ok m A g -> k ∈ A -> dget (lm_agents m) k = Some a ->
  dget (g_nodes g) (task_of a) = Some n ->
  (st = NodeStatus.COMPLETED /\ agent_state a = AgentState.COMPLETED \/
   st = NodeStatus.FAILED /\ agent_state a = AgentState.FAILED) ->
  graph_ok m A (set_status g (task_of a) n st) /\
  keeps_completed g (set_status g (task_of a) n st).
Proof.
  intros Hok Hk Ha Hn Hst. set (g' := set_status g (task_of a) n st).
  pose proof (agent_not_pending _ _ _ _ _ Hok Hk Ha) as Hnp.
  destruct Hok as [Hinv Hstat Hag Hinj Hhas Hdeps].
  destruct (Hag k Hk) as (b & x & Hb & Hx & Hxnp & Hxc & Hxf).
  rewrite Ha in Hb. injection Hb as <-.
  assert (Hstnp : st <> NodeStatus.PENDING) by (destruct Hst as [[-> _]|[-> _]]; done).
  assert (Hpend : forall u, pending g' u <-> pending g u).
  { intros u. unfold pending, g'. rewrite nstat_set_status. case_decide; [|done]. subst.
    split; [intros [= Heq]; congruence|done]. }
  assert (Hkeep : keeps_completed g g').
  { intros u Hu. unfold completed, g'. rewrite nstat_set_status. case_decide; [|done]. subst.
    unfold completed in Hu. rewrite Hx in Hu. injection Hu as ->.
    destruct Hst as [[-> _]|[-> Hf]]; [done|]. rewrite Hxc in Hf by done. discriminate. }
  split; [|exact Hkeep]. split.
  - by apply set_status_inv.
  - intros t s. unfold g'. rewrite nstat_set_status. case_decide; [|apply Hstat].
    intros [= <-]. exists st. split; [done|]. destruct Hst as [[-> _]|[-> _]]; set_solver.
  - intros k' Hk'. destruct (Hag k' Hk') as (a' & x' & Ha' & Hx' & Hnp' & Hc' & Hf').
    exists a'. unfold g'. rewrite nstat_set_status. case_decide as Heq; [|by exists x'].
    assert (k' = k) as -> by (by apply (Hinj k' k a' a)).
    rewrite Ha in Ha'. injection Ha' as <-. exists st. split_and!; [done..| |];
      destruct Hst as [[-> ?]|[-> ?]]; done.
  - done.
  - intros t Hs Hp. apply Hhas; [|by rewrite <- Hpend].
    unfold g' in Hs. rewrite nstat_set_status in Hs. case_decide; [subst; by rewrite Hx|done].
  - intros s t He Hp. apply Hkeep, (Hdeps s t He). by rewrite <- Hpend.
Qed.

Lemma graph_ok_spawn m m' A g k b t n :
  graph_ok m A g -> life_mono m m' -> k ∉ dkeys (lm_agents m) ->
  dget (lm_agents m') k = Some b -> task_of b = t ->
  dget (g_nodes g) t = Some n -> pending g t ->
  (forall s, (s, t) ∈ pairs (g_edges g) -> completed g s) ->
  graph_ok m' ({[k]} ∪ A) (set_status g t n NodeStatus.RUNNING) /\
  keeps_completed g (set_status g t n NodeStatus.RUNNING).
Proof.
  intros Hok Hmono Hnew Hb Htb Hn Hpt Hpred. set (g' := set_status g t n NodeStatus.RUNNING).
  apply (graph_ok_mono _ _ _ _ Hmono) in Hok as Hok'.
  assert (HkA : k ∉ A).
  { intros Hk. destruct (go_agent _ _ _ Hok k Hk) as (a & x & Ha & _).
    apply Hnew, dget_is_Some. by eexists. }
  assert (Hold : forall k' a', k' ∈ A -> dget (lm_agents m') k' = Some a' -> task_of a' <> t).
  { intros k' a' Hk' Ha' Heq. apply (agent_not_pending _ _ _ _ _ Hok' Hk' Ha'). by rewrite Heq. }
  destruct Hok' as [Hinv Hstat Hag Hinj Hhas Hdeps].
  assert (Hpend : forall u, pending g' u <-> u <> t /\ pending g u).
  { intros u. unfold pending, g'. rewrite nstat_set_status. case_decide; naive_solver. }
  assert (Hkeep : keeps_completed g g').
  { intros u Hu. unfold completed, g'. rewrite nstat_set_status. case_decide; [|done]. subst.
    unfold completed, pending in *. congruence. }
  split; [|exact Hkeep]. split.
  - by apply set_status_inv.
  - intros u s. unfold g'. rewrite nstat_set_status. case_decide; [|apply Hstat].
    intros [= <-]. exists NodeStatus.RUNNING. split; [done|set_solver].
  - intros k' [->%elem_of_singleton|Hk']%elem_of_union.
    + exists b, NodeStatus.RUNNING. unfold g'. rewrite nstat_set_status, Htb, decide_True by done.
      split_and!; done.
    + destruct (Hag k' Hk') as (a' & x' & Ha' & Hx' & Hnp' & Hc' & Hf').
      exists a', x'. unfold g'. rewrite nstat_set_status, decide_False; [done|].
      intros Heq. by apply (Hold k' a').
  - intros k1 k2 a1 a2 [->%elem_of_singleton|H1]%elem_of_union
      [->%elem_of_singleton|H2]%elem_of_union Ha1 Ha2 Heq; [done|..].
    + exfalso. apply (Hold k2 a2 H2 Ha2). congruence.
    + exfalso. apply (Hold k1 a1 H1 Ha1). congruence.
    + by apply (Hinj k1 k2 a1 a2).
  - intros u Hs Hp. destruct (decide (u = t)) as [->|Hne].
    + exists k, b. split_and!; [set_solver|done..].
    + destruct (Hhas u) as (k' & a' & Hk' & Ha' & Hta').
      * unfold g' in Hs. rewrite nstat_set_status in Hs. by rewrite decide_False in Hs.
      * intros Hpu. apply Hp, Hpend. done.
      * exists k', a'. split_and!; [set_solver|done..].
  - intros s u He Hp. apply Hkeep. destruct (decide (u = t)) as [->|Hne]; [by apply Hpred|].
    apply (Hdeps s u He). intros Hpu. apply Hp, Hpend. done.
Qed.

(** *** One turn of the loops of [_tick_mission] *)

(** What a step on mission [mid] does to the rest: nothing to the missions, to
    the other missions' agents and graphs, or to finished agents. *)
Record tick_ext (mid : string) (s s' : Supervisor) : Prop := TickExt {
  te_missions : sv_missions s' = sv_missions s;
  te_agents : forall k, k <> mid -> dget (sv_agents s') k = dget (sv_agents s) k;
  te_graphs : forall k, k <> mid -> dget (sv_graphs s') k = dget (sv_graphs s) k;
  te_edges : g_edges (graph_of s' mid) = g_edges (graph_of s mid);
  te_keys : dkeys (g_nodes (graph_of s' mid)) = dkeys (g_nodes (graph_of s mid));
  te_life : life_mono (sv_life s) (sv_life s')
}.

#[local] Instance tick_ext_preorder mid : PreOrder (tick_ext mid).
Proof.
  split.
  - intros s. split; try done.
  - intros s1 s2 s3 [] []. split; try congruence.
    + intros k Hk. rewrite te_agents1, te_agents0; done.
    + intros k Hk. rewrite te_graphs1, te_graphs0; done.
    + by etransitivity.
Qed.

Lemma sup_ext_tick_ext mid s s' : manager_inv (sv_life s) -> sup_ext s s' -> tick_ext mid s s'.
Proof.
  intros Hl [Hm Ha Hg Hlife]. split; try done; unfold graph_of; try congruence.
  by apply Hlife.
Qed.

(** The state after mission [mid]'s agents, graph and the lifecycle manager
    have been replaced. *)
Lemma sup_inv_update mid s s' m plan g0 A A' g g' :
  sup_inv s -> tick_ext mid s s' -> manager_inv (sv_life s') ->
  dict_wf (sv_agents s') -> dict_wf (sv_graphs s') ->
  dget (sv_missions s) mid = Some m -> ms_plan m = Some plan -> plan_graph plan = Some g0 ->
  dget (sv_agents s) mid = Some A -> dget (sv_graphs s) mid = Some g ->
  dget (sv_agents s') mid = Some A' -> dget (sv_graphs s') mid = Some g' ->
  graph_ok (sv_life s') A' g' -> keeps_completed g g' ->
  sup_inv s'.
Proof.
  intros Hs [Hm Ha Hg He Hk Hmono] Hl' Hwa Hwg Hmid Hplan Hg0 HA Hgr HA' Hgr' Hok' Hkeep.
  split; [rewrite Hm; apply Hs|done..|]. intros k m' Hm'. rewrite Hm in Hm'.
  destruct (decide (k = mid)) as [->|Hne].
  - rewrite Hmid in Hm'. injection Hm' as <-. pose proof (si_mission _ Hs _ _ Hmid) as Hmok.
    unfold mission_ok in *. rewrite Hplan in *.
    destruct Hmok as (A1 & g1 & g2 & HA1 & Hg1 & Hg2 & Hnd & [Hrep Horph] & Hk1 & He1 & Hok & Hst & Hc).
    rewrite Hgr in Hg1. injection Hg1 as <-. unfold graph_of in He, Hk.
    rewrite Hgr, Hgr' in He, Hk. cbn in He, Hk.
    exists A', g', g2. split_and!; [done..|congruence|congruence|done|done|].
    intros Hc' t Ht. apply Hkeep, Hc; [done|]. by rewrite <- Hk.
  - rewrite Ha, Hg by done. eapply mission_ok_mono; [exact Hmono|]. by apply Hs.
Qed.


Lemma mission_view s mid m plan :
  sup_inv s -> dget (sv_missions s) mid = Some m -> ms_plan m = Some plan ->
  exists A g g0, dget (sv_agents s) mid = Some A /\ dget (sv_graphs s) mid = Some g /\
    agents_of s mid = A /\ graph_of s mid = g /\ plan_graph plan = Some g0 /\
    NoDup (ids (plan_tasks plan)) /\ dkeys (g_nodes g) = ids (plan_tasks plan) /\
    pairs (g_edges g) = task_edges (plan_tasks plan) /\ graph_ok (sv_life s) A g.
Proof.
  intros Hs Hm Hp. pose proof (si_mission _ Hs _ _ Hm) as Hok. unfold mission_ok in Hok.
  rewrite Hp in Hok.
  destruct Hok as (A & g & g0 & HA & Hg & Hg0 & Hnd & [Hrep _] & Hk & He & Hgok & _).
  exists A, g, g0. unfold agents_of, graph_of. rewrite HA, Hg. cbn. split_and!; try done.
  - rewrite Hk. by apply represents_keys.
  - rewrite He. apply Hrep.
Qed.

Lemma mark_node_eq mid tid st ev s :
  mark_node mid tid st ev s =
  match dget (g_nodes (graph_of s mid)) tid with
  | Some n => sup_emit ev mid
                (with_graphs (dset (sv_graphs s) mid (set_status (graph_of s mid) tid n st)) s)
  | None => (Ok tt, s)
  end.
Proof.
  unfold mark_node, swallow, catch, bind, get, lift, get_node. cbn.
  by destruct (dget (g_nodes (graph_of s mid)) tid).
Qed.

Lemma mark_agent_ok mid k s m plan :
  sup_inv s -> dget (sv_missions s) mid = Some m -> ms_plan m = Some plan ->
  k ∈ agents_of s mid ->
  let s' := (mark_agent mid k s).2 in
  sup_inv s' /\ tick_ext mid s s' /\ sv_agents s' = sv_agents s /\
  (mark_agent mid k s).1 = Ok tt /\ sv_life s' = sv_life s /\
  keeps_completed (graph_of s mid) (graph_of s' mid) /\
  (forall a, dget (lm_agents (sv_life s)) k = Some a -> agent_state a = AgentState.COMPLETED ->
     task_of a <> "" -> completed (graph_of s' mid) (task_of a)).
Proof.
  intros Hs Hm Hp Hk s'.
  destruct (mission_view s mid m plan Hs Hm Hp) as (A & g & g0 & HA & Hg & HAo & Hgo & Hg0 & _ & _ & _ & Hok).
  destruct (go_agent _ _ _ Hok k) as (a & x & Ha & Hx & _); [by rewrite <- HAo|].
  assert (Hmark : forall st ev,
    (st = NodeStatus.COMPLETED /\ agent_state a = AgentState.COMPLETED \/
     st = NodeStatus.FAILED /\ agent_state a = AgentState.FAILED) ->
    let s1 := (mark_node mid (task_of a) st ev s).2 in
    sup_inv s1 /\ tick_ext mid s s1 /\ sv_agents s1 = sv_agents s /\
    (mark_node mid (task_of a) st ev s).1 = Ok tt /\ sv_life s1 = sv_life s /\
    keeps_completed (graph_of s mid) (graph_of s1 mid) /\
    nstat (graph_of s1 mid) (task_of a) = Some (StatusEnum st)).
  { intros st ev Hst. rewrite mark_node_eq, Hgo. cbn zeta.
    destruct (dget (g_nodes g) (task_of a)) as [n|] eqn:Hn.
    2:{ unfold nstat in Hx. by rewrite Hn in Hx. }
    cbn -[graph_of set_status].
    destruct (graph_ok_mark (sv_life s) A g k a n st Hok) as [Hok' Hkeep];
      [by rewrite <- HAo|done..|].
    set (g' := set_status g (task_of a) n st) in *.
    set (s1 := with_calls (sv_calls s ++
      map (fun h => mkSupCall h ev mid) (sv_handlers s)) (with_graphs (dset (sv_graphs s) mid g') s)).
    assert (Hg1 : graph_of s1 mid = g') by (unfold graph_of; cbn; by rewrite dget_dset_eq).
    assert (Hte : tick_ext mid s s1).
    { split; try done.
      - intros k' Hk'. cbn. by rewrite dget_dset_ne.
      - by rewrite Hg1, Hgo.
      - rewrite Hg1, Hgo. cbn. by apply dkeys_dset_mem, dget_is_Some; eexists. }
    rewrite Hg1. split_and!; try done.
    - eapply (sup_inv_update mid s _ m plan g0 A A g g'); try done.
      + apply Hs.
      + apply Hs.
      + cbn. apply dict_wf_dset, Hs.
      + cbn. apply dget_dset_eq.
    - unfold g'. rewrite nstat_set_status. by rewrite decide_True. }
  subst s'. unfold mark_agent, bind, get, get_agent. rewrite Ha. cbn [fst snd].
  fold (task_of a). case_decide as Hempty.
  { cbn. split_and!; try done; try (by intros t Ht). intros b [= <-] _ Hne. done. }
  case_decide as Hcompl.
  { destruct (Hmark NodeStatus.COMPLETED SupervisorEvent.AGENT_COMPLETED) as (?&?&?&?&?&?&?);
      [by left|]. split_and!; try done. by intros b [= <-] _ _. }
  case_decide.
  { destruct (Hmark NodeStatus.FAILED SupervisorEvent.AGENT_FAILED) as (?&?&?&?&?&?&?);
      [by right|]. split_and!; try done. by intros b [= <-]. }
  cbn. split_and!; try done; try (by intros t Ht). by intros b [= <-].
Qed.

Lemma mark_loop_ok mid s m plan l :
  sup_inv s -> dget (sv_missions s) mid = Some m -> ms_plan m = Some plan ->
  (forall k, k ∈ l -> k ∈ agents_of s mid) ->
  exists s', for_each l (mark_agent mid) s = (Ok tt, s') /\
    sup_inv s' /\ tick_ext mid s s' /\ sv_agents s' = sv_agents s /\ sv_life s' = sv_life s /\
    keeps_completed (graph_of s mid) (graph_of s' mid) /\
    (forall k a, k ∈ l -> dget (lm_agents (sv_life s)) k = Some a ->
       agent_state a = AgentState.COMPLETED -> task_of a <> "" ->
       completed (graph_of s' mid) (task_of a)).
Proof.
  revert s. induction l as [|k l IH]; intros s Hs Hm Hp Hl.
  { exists s. split_and!; try done; try (by intros t Ht). set_solver. }
  destruct (mark_agent_ok mid k s m plan Hs Hm Hp (Hl k ltac:(set_solver)))
    as (Hs1 & Hte1 & HA1 & Hrun1 & Hlife1 & Hkeep1 & Hc1).
  cbn [for_each]. unfold bind.
  destruct (mark_agent mid k s) as [r s1]. cbn [fst snd] in *. subst r.
  destruct (IH s1 Hs1) as (s' & Hrun & Hs' & Hte & HA & Hlife & Hkeep & Hc).
  - by rewrite (te_missions _ _ _ Hte1).
  - done.
  - intros k' Hk'. unfold agents_of in *. rewrite HA1. apply Hl. set_solver.
  - exists s'. split_and!; [done|done|by etransitivity|congruence|congruence|..].
    + intros t Ht. by apply Hkeep, Hkeep1.
    + intros k' a [->|Hk']%elem_of_cons Ha Hst Hne; [by apply Hkeep, Hc1|].
      apply (Hc k'); [done|by rewrite Hlife1|done|done].
Qed.

Lemma mark_agents_ok mid s m plan :
  sup_inv s -> dget (sv_missions s) mid = Some m -> ms_plan m = Some plan ->
  exists s', each_agent mid (mark_agent mid) s = (Ok tt, s') /\
    sup_inv s' /\ tick_ext mid s s' /\ sv_agents s' = sv_agents s /\ sv_life s' = sv_life s /\
    keeps_completed (graph_of s mid) (graph_of s' mid) /\
    (forall k a, k ∈ agents_of s mid -> dget (lm_agents (sv_life s)) k = Some a ->
       agent_state a = AgentState.COMPLETED -> task_of a <> "" ->
       completed (graph_of s' mid) (task_of a)).
Proof.
  intros Hs Hm Hp. unfold each_agent, bind, get.
  destruct (mark_loop_ok mid s m plan (iter_set (agents_of s mid)) Hs Hm Hp)
    as (s' & ? & ? & ? & ? & ? & ? & Hc).
  { intros k. by rewrite elem_iter_set. }
  exists s'. split_and!; try done. intros k a Hk. apply Hc. by rewrite elem_iter_set.
Qed.

(** *** Launching an agent *)

Lemma with_life_same s : with_life (sv_life s) s = s.
Proof. by destruct s. Qed.

Lemma dget_app_new {V} (d : pydict V) k v : k ∉ dkeys d -> dget (d ++ [(k, v)]) k = Some v.
Proof. intros Hk. rewrite <- (dkeys_dset_new _ _ _ Hk). apply dget_dset_eq. Qed.

(** The lifecycle manager after the agent has been created and started. *)
Lemma create_start_spec ctx l :
  manager_inv l ->
  match create_agent clock ctx None l with
  | (Err _, l1) => l1 = l /\ ctx_id ctx ∈ dkeys (lm_agents l)
  | (Ok a, l1) => agent_id a = ctx_id ctx /\ (ctx_id ctx ∉ dkeys (lm_agents l)) /\
      exists b l2, start_agent clock (ctx_id ctx) l1 = (Ok b, l2) /\ manager_inv l2 /\
        life_mono l l2 /\ dget (lm_agents l2) (ctx_id ctx) = Some b /\ agent_ctx b = ctx /\
        agent_state b = AgentState.RUNNING
  end.
Proof.
  intros Hl. pose proof (life_op_mono (OpCreate ctx None) l Hl eq_refl) as Hm1.
  pose proof (run_lm_op_inv clock (OpCreate ctx None) l Hl) as Hi1.
  unfold run_lm_op in Hm1, Hi1. rewrite discard_state in Hm1, Hi1.
  rewrite create_agent_eq in *. destruct (dmem (lm_agents l) (ctx_id ctx)) eqn:Hin.
  { split; [done|]. by apply dmem_true. }
  apply dmem_false in Hin. cbn zeta in *. cbn [snd] in Hm1, Hi1.
  set (a := fresh_agent ctx None (clock (lm_reads l))) in *.
  match type of Hi1 with manager_inv ?x => set (l1 := x) in * end.
  pose proof (life_op_mono (OpStart (ctx_id ctx)) l1 Hi1 eq_refl) as Hm2.
  pose proof (run_lm_op_inv clock (OpStart (ctx_id ctx)) l1 Hi1) as Hi2.
  unfold run_lm_op in Hm2, Hi2. rewrite discard_state, start_agent_eq in Hm2, Hi2.
  split_and!; [done..|]. rewrite start_agent_eq.
  assert (Hget : dget (lm_agents l1) (ctx_id ctx) = Some a) by (by apply dget_app_new).
  rewrite transition_eq, Hget in *. cbn in Hm2, Hi2 |- *.
  eexists _, _. split_and!; [reflexivity|done|by etransitivity|cbn; apply dget_dset_eq|done..].
Qed.


Lemma spawn_ok mid nid node ctx s m plan :
  sup_inv s -> dget (sv_missions s) mid = Some m -> ms_plan m = Some plan ->
  ctx_task_id ctx = nid -> dget (g_nodes (graph_of s mid)) nid = Some node ->
  pending (graph_of s mid) nid ->
  (forall d, (d, nid) ∈ pairs (g_edges (graph_of s mid)) -> completed (graph_of s mid) d) ->
  exists s', spawn clock mid nid node ctx s = (Ok tt, s') /\ sup_inv s' /\ tick_ext mid s s' /\
  (~ (ctx_id ctx ∈ dkeys (lm_agents (sv_life s))) -> exists b,
     dget (lm_agents (sv_life s')) (ctx_id ctx) = Some b /\ agent_ctx b = ctx /\
     agent_state b = AgentState.RUNNING /\ ctx_id ctx ∈ agents_of s' mid /\
     nstat (graph_of s' mid) nid = Some (StatusEnum NodeStatus.RUNNING)).
Proof.
  intros Hs Hm Hp Hctx Hnode Hpend Hdeps.
  destruct (mission_view s mid m plan Hs Hm Hp)
    as (A & g & g0 & HA & Hg & HAo & Hgo & Hg0 & _ & _ & _ & Hok).
  rewrite Hgo in Hnode, Hpend, Hdeps.
  destruct (spawn clock mid nid node ctx s) as [r s'] eqn:Hs'. exists s'.
  unfold spawn, swallow, catch, bind at 1, life at 1, zoom in Hs'.
  pose proof (create_start_spec ctx (sv_life s) (si_life _ Hs)) as Hcs.
  destruct (create_agent clock ctx None (sv_life s)) as [[a|e] l1].
  2:{ destruct Hcs as [-> Hin]. cbn -[set_status graph_of] in Hs'.
      rewrite with_life_same in Hs'. injection Hs' as <- <-. by split_and!. }
  destruct Hcs as (Hid & Hnew & b & l2 & Hstart & Hl2 & Hmono & Hb & Hbc & Hbs).
  rewrite Hid in Hs'. unfold add_agent, bind, get, lift, dlookup, put, life, zoom in Hs'.
  cbn -[set_status graph_of] in Hs'. rewrite HA in Hs'. cbn -[set_status graph_of] in Hs'.
  rewrite Hstart in Hs'. cbn -[set_status graph_of] in Hs'. injection Hs' as <- <-.
  split; [done|].
  match goal with |- context [set_status (graph_of ?t mid) _ _ _] =>
    assert (Hgt : graph_of t mid = g) by (unfold graph_of; cbn; by rewrite Hg) end.
  rewrite Hgt. clear Hgt.
  destruct (graph_ok_spawn (sv_life s) l2 A g (ctx_id ctx) b nid node Hok Hmono Hnew Hb)
    as [Hok' Hkeep]; [by unfold task_of; rewrite Hbc|done..|].
  match goal with |- sup_inv ?x /\ _ => assert (Hte : tick_ext mid s x) end.
  { split; cbn; try done.
    - intros k Hk. by rewrite dget_dset_ne.
    - intros k Hk. by rewrite dget_dset_ne.
    - unfold graph_of; cbn. by rewrite dget_dset_eq, Hg.
    - unfold graph_of; cbn. rewrite dget_dset_eq, Hg. cbn.
      by apply dkeys_dset_mem, dget_is_Some; eexists. }
  split; [|split; [exact Hte|]].
  - eapply (sup_inv_update mid s _ m plan g0 A _ g _ Hs Hte); try done; cbn.
    + apply dict_wf_dset, Hs.
    + apply dict_wf_dset, Hs.
    + apply dget_dset_eq.
    + apply dget_dset_eq.
  - intros _. exists b. split_and!; try done.
    + unfold agents_of. cbn. rewrite dget_dset_eq. cbn. set_solver.
    + unfold graph_of. cbn -[set_status]. rewrite dget_dset_eq. cbn -[set_status].
      rewrite nstat_set_status. by rewrite decide_True.
Qed.

Lemma deps_completed_spec m A g deps :
  graph_ok m A g -> deps_completed g deps = true -> forall d, d ∈ deps -> completed g d.
Proof.
  intros Hok Hall d Hd. unfold deps_completed in Hall. rewrite forallb_forall in Hall.
  apply list_elem_of_In in Hd. specialize (Hall d Hd). unfold get_node in Hall.
  destruct (dget (g_nodes g) d) as [n|] eqn:Hn; [|done].
  destruct (go_status _ _ _ Hok d (node_st n)) as (x & Hx & _); [unfold nstat; by rewrite Hn|].
  apply (status_is_spec _ x) in Hall as ->; [|done]. unfold completed, nstat. by rewrite Hn, <- Hx.
Qed.

(** The part of a plan the launches use: the predecessors of every node. *)
Definition plan_deps_of (g : ExecutionGraph) (gp : GraphExecutionPlan) : Prop :=
  forall t, t ∈ dkeys (g_nodes g) -> dget (dependencies gp) t = Some (preds (pairs (g_edges g)) t).

Lemma launch_ok mid plan gp nid s m :
  sup_inv s -> dget (sv_missions s) mid = Some m -> ms_plan m = Some plan ->
  plan_deps_of (graph_of s mid) gp ->
  let s' := (launch clock uuid_hex runtime_selector mid plan gp nid s).2 in
  sup_inv s' /\ tick_ext mid s s'.
Proof.
  intros Hs Hm Hp Hgp s'.
  assert (Hsame : sup_inv s /\ tick_ext mid s s) by done.
  destruct (mission_view s mid m plan Hs Hm Hp)
    as (A & g & g0 & HA & Hg & HAo & Hgo & Hg0 & _ & _ & _ & Hok).
  subst s'. unfold launch, bind, get, get_node. rewrite Hgo in *.
  destruct (dget (g_nodes g) nid) as [node|] eqn:Hn; [|done].
  destruct (go_status _ _ _ Hok nid (node_st node)) as (x & Hx & _); [unfold nstat; by rewrite Hn|].
  destruct (status_is node NodeStatus.PENDING) eqn:Hpst; cbn [negb]; [|done].
  apply (status_is_spec _ x) in Hpst as ->; [|done].
  rewrite Hgp by (apply dget_is_Some; by eexists). cbn [default from_option]. unfold id.
  destruct (deps_completed g (preds (pairs (g_edges g)) nid)) eqn:Hdc; cbn [negb]; [|done].
  destruct (task_lookup (plan_tasks plan) nid) as [task|]; [|done].
  assert (Hcalm : calm (bind (select_runtime runtime_selector (task_cap task))
    (fun assigned => bind (next_uuid uuid_hex) (fun hex => ret (assigned, hex))))).
  { apply calm_bind; [apply calm_select|]. intros r.
    apply calm_bind; [apply calm_next_uuid|]. intros h. apply calm_ret. }
  specialize (Hcalm s). unfold bind in Hcalm |- *.
  destruct (select_runtime runtime_selector (task_cap task) s) as [[assigned|e] s1].
  2:{ cbn in *. split; [by eapply sup_ext_inv|]. by eapply sup_ext_tick_ext; [apply Hs|]. }
  destruct (next_uuid uuid_hex s1) as [[hex|e] s2]; cbn in Hcalm.
  2:{ split; [by eapply sup_ext_inv|]. by eapply sup_ext_tick_ext; [apply Hs|]. }
  assert (Hs2 : sup_inv s2) by (by eapply sup_ext_inv).
  assert (Hte : tick_ext mid s s2) by (eapply sup_ext_tick_ext; [apply Hs|done]).
  assert (Hg2 : graph_of s2 mid = g).
  { unfold graph_of. by rewrite (se_graphs _ _ Hcalm), Hg. }
  destruct (spawn_ok mid nid node
    (mkCtx (agent_name mid nid hex) mid nid (task_cap task) assigned []) s2 m plan Hs2)
    as (s3 & Hrun3 & Hs3 & Hte3 & _); rewrite ?Hg2; try done.
  - by rewrite (se_missions _ _ Hcalm).
  - unfold pending, nstat. by rewrite Hn, <- Hx.
  - intros d Hd. eapply deps_completed_spec; [done|exact Hdc|]. by apply elem_preds.
  - rewrite Hrun3. split; [done|]. by etransitivity.
Qed.

Lemma launches_ok mid plan gp nids s m :
  sup_inv s -> dget (sv_missions s) mid = Some m -> ms_plan m = Some plan ->
  plan_deps_of (graph_of s mid) gp ->
  let s' := (for_each nids (launch clock uuid_hex runtime_selector mid plan gp) s).2 in
  sup_inv s' /\ tick_ext mid s s'.
Proof.
  intros Hs Hm Hp Hgp.
  apply (for_each_inv (fun t => sup_inv t /\ tick_ext mid s t)); [|done].
  intros nid t _ (Ht & Hext).
  destruct (launch_ok mid plan gp nid t m Ht) as (? & ?).
  - by rewrite (te_missions _ _ _ Hext).
  - done.
  - intros u. unfold plan_deps_of in Hgp.
    rewrite (te_keys _ _ _ Hext), (te_edges _ _ _ Hext). apply Hgp.
  - split; [done|by etransitivity].
Qed.


(** *** Completion *)

Lemma order_before (E : list (string * string)) l l1 t l2 u :
  NoDup l -> topo E l -> l = l1 ++ t :: l2 -> (t, u) ∈ E -> u ∈ l -> u ∈ l2.
Proof.
  intros Hnd Ht -> He Hu. apply elem_of_app in Hu as [Hu|[->|Hu]%elem_of_cons]; [| |done].
  - exfalso. destruct (list_elem_of_split l1 u Hu) as (a & b & ->).
    rewrite <- app_assoc in Ht, Hnd. cbn in Ht, Hnd.
    pose proof (Ht a u (b ++ t :: l2) eq_refl t He) as Hta.
    apply NoDup_app in Hnd as (_ & Hnd & _). apply (Hnd t Hta). set_solver.
  - exfalso. pose proof (Ht l1 t l2 eq_refl t He) as Htl.
    apply NoDup_app in Hnd as (_ & Hnd & _). apply (Hnd t Htl). set_solver.
Qed.

Lemma all_done_completed m A g gp :
  graph_ok m A g -> generate_plan g = Ok gp -> all_done (get_leaves g) = true ->
  forall t, t ∈ dkeys (g_nodes g) -> completed g t.
Proof.
  intros Hok Hgp Hdone. pose proof (generate_plan_cases g (go_inv _ _ _ Hok)) as Hcase.
  rewrite Hgp in Hcase. destruct Hcase as [_ Hspec].
  pose proof (ps_order _ _ Hspec) as Hperm. pose proof (ps_topo _ _ Hspec) as Htopo.
  assert (Hnd : NoDup (execution_order gp)) by (rewrite Hperm; apply (go_inv _ _ _ Hok)).
  assert (Hleaf : forall t, t ∈ dkeys (g_nodes g) -> t ∉ map edge_source (g_edges g) -> completed g t).
  { intros t Ht Hno. apply dget_is_Some in Ht as [n Hn].
    destruct (go_status _ _ _ Hok t (node_st n)) as (x & Hx & _); [unfold nstat; by rewrite Hn|].
    assert (Hin : n ∈ get_leaves g).
    { apply list_elem_of_filter. rewrite (gi_ids _ (go_inv _ _ _ Hok) t n Hn). split; [done|].
      apply dget_Some_elem in Hn. apply list_elem_of_fmap. by exists (t, n). }
    unfold all_done in Hdone. destruct (get_leaves g) as [|y ys]; [done|].
    rewrite forallb_forall in Hdone. apply list_elem_of_In in Hin.
    specialize (Hdone n Hin). apply (status_is_spec _ x) in Hdone as ->; [|done].
    unfold completed, nstat. by rewrite Hn, <- Hx. }
  assert (Hsuf : forall l2 l1, execution_order gp = l1 ++ l2 -> forall t, t ∈ l2 -> completed g t).
  { induction l2 as [|t l2 IH]; intros l1 Heq u Hu; [set_solver|].
    assert (Hl2 : forall v, v ∈ l2 -> completed g v).
    { apply (IH (l1 ++ [t])). by rewrite <- app_assoc. }
    apply elem_of_cons in Hu as [->|Hu]; [|by apply Hl2].
    destruct (decide (t ∈ map edge_source (g_edges g))) as [Hin|Hout].
    - apply list_elem_of_fmap in Hin as (e & -> & He).
      assert (Hpair : (edge_source e, edge_target e) ∈ pairs (g_edges g))
        by (apply elem_pairs; by exists e).
      assert (Hv : completed g (edge_target e)).
      { apply Hl2. eapply order_before; [exact Hnd|exact Htopo|exact Heq|exact Hpair|].
        rewrite Hperm. by apply (gi_refs _ (go_inv _ _ _ Hok) _ _ Hpair). }
      apply (go_deps _ _ _ Hok _ _ Hpair). unfold completed, pending in *. congruence.
    - apply Hleaf; [|done]. rewrite <- Hperm, Heq. set_solver. }
  intros t Ht. apply (Hsuf (execution_order gp) []); [done|]. by rewrite Hperm.
Qed.

(** *** Moves *)

Lemma after_move_inv s mid m target :
  sup_inv s -> dget (sv_missions s) mid = Some m ->
  match ms_plan m with
  | None => target ∈ [MissionState.PLANNING; MissionState.FAILED; MissionState.CANCELLED]
  | Some _ =>
      target ∈ [MissionState.READY; MissionState.RUNNING; MissionState.PAUSED;
                MissionState.COMPLETED; MissionState.CANCELLED] /\
      (target = MissionState.COMPLETED ->
       forall t, t ∈ dkeys (g_nodes (graph_of s mid)) -> completed (graph_of s mid) t)
  end ->
  sup_inv (after_move s mid m target).
Proof.
  intros Hs Hm Htgt. destruct (after_move_rest s mid m target) as (HA & HG & _ & _ & HL).
  assert (Hmono : life_mono (sv_life s) (sv_life (after_move s mid m target))).
  { intros k a Ha. exists a. by rewrite HL. }
  split.
  - rewrite after_move_missions. apply dict_wf_dset, Hs.
  - rewrite HA. apply Hs.
  - rewrite HG. apply Hs.
  - eapply manager_inv_agents; [exact HL|]. apply Hs.
  - intros k m'. rewrite after_move_missions, dget_dset, HA, HG. case_decide as Hk.
    + subst k. intros [= <-]. eapply mission_ok_mono; [exact Hmono|].
      pose proof (si_mission _ Hs _ _ Hm) as Hok. unfold mission_ok in *.
      cbn. destruct (ms_plan m) as [plan|].
      * destruct Hok as (A & g & g0 & HA' & Hg & ? & ? & [? ?] & ? & ? & Hok & Hst & Hc).
        exists A, g, g0. destruct Htgt as [Htgt Hall].
        unfold graph_of in Hall. rewrite Hg in Hall. cbn in Hall.
        split_and!; try done. set_solver.
      * split; [apply Hok|]. set_solver.
    + intros Hk'. eapply mission_ok_mono; [exact Hmono|]. by apply Hs.
Qed.

(** What an operation may do to the missions in one go: move one of them. *)
Definition moved_one (s s' : Supervisor) (mid : string) (target : MissionState.t) : Prop :=
  exists m m', dget (sv_missions s) mid = Some m /\
    target ∈ mission_transitions (ms_state m) /\ ms_state m' = target /\
    sv_missions s' = dset (sv_missions s) mid m'.

Lemma tick_mission_ok mid s :
  sup_inv s ->
  let s' := (tick_mission clock uuid_hex runtime_selector mid s).2 in
  sup_inv s' /\
  (sv_missions s' = sv_missions s \/ moved_one s s' mid MissionState.COMPLETED).
Proof.
  intros Hs s'.
  assert (Hsame : sup_inv s /\ (sv_missions s = sv_missions s \/
    moved_one s s mid MissionState.COMPLETED)) by auto.
  assert (Hs' : s' = (tick_mission clock uuid_hex runtime_selector mid s).2) by reflexivity.
  clearbody s'. unfold tick_mission, bind at 1 in Hs'. rewrite get_mission_eq in Hs'.
  destruct (dget (sv_missions s) mid) as [m|] eqn:Hm; [|by subst].
  destruct (ms_plan m) as [plan|] eqn:Hp; [|by subst].
  destruct (plan_graph plan); [|by subst].
  destruct (mark_agents_ok mid s m plan Hs Hm Hp) as (s1 & Hmark & Hs1 & Hte1 & _).
  unfold bind at 1 in Hs'. rewrite Hmark in Hs'.
  assert (Hm1 : dget (sv_missions s1) mid = Some m) by (by rewrite (te_missions _ _ _ Hte1)).
  unfold bind at 1, get in Hs'.
  destruct (mission_view s1 mid m plan Hs1 Hm1 Hp)
    as (A & g & g1 & HA & Hg & HAo & Hgo & _ & _ & _ & _ & Hok). rewrite Hgo in Hs'.
  destruct (generate_plan g) as [gp|] eqn:Hgp.
  2:{ subst. split; [done|]. left. apply Hte1. }
  destruct (empty_graph_result g). { subst. split; [done|]. left. apply Hte1. }
  destruct (all_done (get_leaves g)) eqn:Hdone.
  - unfold bind in Hs'. rewrite transition_mission_eq, Hm1 in Hs'. case_decide as Hin.
    + cbn in Hs'.
      assert (Hinv : sup_inv (after_move s1 mid m MissionState.COMPLETED)).
      { apply after_move_inv; [done..|]. rewrite Hp. split; [set_solver|]. intros _.
        rewrite Hgo. by eapply all_done_completed. }
      assert (Hext : sup_ext (after_move s1 mid m MissionState.COMPLETED) s')
        by (subst s'; apply (calm_emit SupervisorEvent.GRAPH_COMPLETED mid)).
      split; [by eapply sup_ext_inv|]. right. eexists m, _. split_and!; [done..| |].
      2:{ rewrite (se_missions _ _ Hext), after_move_missions, (te_missions _ _ _ Hte1).
          reflexivity. }
      done.
    + subst. split; [done|]. left. apply Hte1.
  - pose proof (generate_plan_cases g (go_inv _ _ _ Hok)) as Hcase. rewrite Hgp in Hcase.
    destruct Hcase as [_ Hspec].
    destruct (launches_ok mid plan gp (flat_map iter_set (levels gp)) s1 m Hs1 Hm1 Hp) as (Hs2 & Hte2).
    { intros t Ht. rewrite Hgo in *. rewrite (ps_deps _ _ Hspec). by rewrite decide_True. }
    unfold bind in Hs'. destruct (for_each _ _ s1) as [[[]|e2] s2]; cbn in Hs', Hs2, Hte2; subst s';
      (split; [done|]; left; rewrite (te_missions _ _ _ Hte2); apply Hte1).
Qed.


(** ** The mission state machine *)

Definition mstate (s : Supervisor) (k : string) : option MissionState.t :=
  ms_state <$> dget (sv_missions s) k.

(** The abstract machine of one mission; [None] is a mission the supervisor
    does not hold. *)
Inductive mission_step : option MissionState.t -> option MissionState.t -> Prop :=
  | mt_planned : mission_step None (Some MissionState.READY)
  | mt_refused : mission_step None (Some MissionState.FAILED)
  | mt_stuck : mission_step None (Some MissionState.PLANNING)
  | mt_start : mission_step (Some MissionState.READY) (Some MissionState.RUNNING)
  | mt_resume : mission_step (Some MissionState.PAUSED) (Some MissionState.RUNNING)
  | mt_pause : mission_step (Some MissionState.RUNNING) (Some MissionState.PAUSED)
  | mt_complete : mission_step (Some MissionState.RUNNING) (Some MissionState.COMPLETED)
  | mt_cancel st :
      st ∈ [MissionState.CREATED; MissionState.PLANNING; MissionState.READY;
            MissionState.RUNNING; MissionState.PAUSED] ->
      mission_step (Some st) (Some MissionState.CANCELLED)
  | mt_cleanup st :
      st ∈ [MissionState.COMPLETED; MissionState.FAILED; MissionState.CANCELLED] ->
      mission_step (Some st) None.

Definition may_step (o o' : option MissionState.t) : Prop := o' = o \/ mission_step o o'.

Lemma same_missions_step s s' k : sv_missions s' = sv_missions s -> may_step (mstate s k) (mstate s' k).
Proof. intros Hm. left. unfold mstate. by rewrite Hm. Qed.

Lemma moved_one_step s s' mid target k :
  moved_one s s' mid target ->
  target ∈ [MissionState.RUNNING; MissionState.PAUSED; MissionState.COMPLETED;
            MissionState.CANCELLED] ->
  may_step (mstate s k) (mstate s' k).
Proof.
  intros (m & m' & Hm & Htr & Hst & Heq) Htgt. unfold mstate. rewrite Heq, dget_dset.
  case_decide as Hk; [|by left]. subst k. rewrite Hm. cbn. rewrite Hst. right.
  destruct (ms_state m), target; try const_absurd Htr; try const_absurd Htgt; constructor;
    const_elem.
Qed.

Lemma transition_ok mid target s :
  sup_inv s ->
  target ∈ [MissionState.RUNNING; MissionState.PAUSED; MissionState.CANCELLED] ->
  let s' := (transition_mission clock mid target s).2 in
  sup_inv s' /\ (sv_missions s' = sv_missions s \/ moved_one s s' mid target).
Proof.
  intros Hs Htgt. rewrite transition_mission_eq.
  destruct (dget (sv_missions s) mid) as [m|] eqn:Hm; [|by auto].
  case_decide as Hin; [|by auto]. cbn [snd]. split.
  - apply after_move_inv; [done..|]. pose proof (si_mission _ Hs _ _ Hm) as Hok.
    unfold mission_ok in Hok. destruct (ms_plan m) as [plan|].
    + split; [set_solver|]. intros ->. const_absurd Htgt.
    + destruct Hok as [_ Hst].
      destruct (ms_state m), target; try const_absurd Hst; try const_absurd Hin;
        try const_absurd Htgt; const_elem.
  - right. eexists m, _. split_and!; [done..| |by rewrite after_move_missions]. done.
Qed.

(** A transition, then calm work on the agents. *)
Lemma transition_then_ok mid target (work : M Supervisor unit) s :
  sup_inv s -> calm work ->
  target ∈ [MissionState.RUNNING; MissionState.PAUSED; MissionState.CANCELLED] ->
  let s' := (bind (check_mission_exists mid) (fun _ =>
    bind (transition_mission clock mid target) (fun m => bind work (fun _ => ret m))) s).2 in
  sup_inv s' /\ forall k, may_step (mstate s k) (mstate s' k).
Proof.
  intros Hs Hcalm Htgt. rewrite check_get.
  destruct (dget (sv_missions s) mid) as [m|]; [|by split; [|by left]].
  destruct (transition_ok mid target s Hs Htgt) as [Hs1 Hcase]. unfold bind at 1.
  destruct (transition_mission clock mid target s) as [[m1|e] s1]; cbn [snd] in Hs1, Hcase.
  - assert (Hext : sup_ext s1 (bind work (fun _ => ret m1) s1).2).
    { apply (calm_bind work); [done|]. intros []. apply calm_ret. }
    cbn zeta. split; [by eapply sup_ext_inv|]. intros k.
    unfold mstate at 2. rewrite (se_missions _ _ Hext). fold (mstate s1 k).
    destruct Hcase as [Heq|Hmv]; [by apply same_missions_step|].
    eapply moved_one_step; [done|]. set_solver.
  - cbn. split; [done|]. intros k. destruct Hcase as [Heq|Hmv]; [by apply same_missions_step|].
    eapply moved_one_step; [done|]. set_solver.
Qed.

Lemma start_mission_ok mid s :
  sup_inv s ->
  let s' := (start_mission clock mid s).2 in
  sup_inv s' /\ forall k, may_step (mstate s k) (mstate s' k).
Proof.
  intros Hs. unfold start_mission. rewrite check_get.
  destruct (dget (sv_missions s) mid) as [m|]; [|by split; [|by left]].
  destruct (transition_ok mid MissionState.RUNNING s Hs) as [Hs1 Hcase]; [set_solver|].
  split; [done|]. intros k. destruct Hcase as [Heq|Hmv]; [by apply same_missions_step|].
  eapply moved_one_step; [done|]. set_solver.
Qed.


(** ** Creating a mission *)

(** The state in which the planner is called. *)
Definition planning_state (c : MissionContext) (s : Supervisor) : Supervisor :=
  let s1 := (sup_emit SupervisorEvent.MISSION_CREATED (mc_id c) (register_mission c s).2).2 in
  after_move s1 (mc_id c) (mkMissionInst c MissionState.CREATED None [] no_sup_stats [])
    MissionState.PLANNING.

Definition planning_mission (c : MissionContext) (s : Supervisor) : MissionInstance :=
  moved_mission (mkMissionInst c MissionState.CREATED None [] no_sup_stats [])
    MissionState.PLANNING (clock (lm_reads (sv_life s))).

(** What the planner is asked, and when. *)
Definition plan_answer (c : MissionContext) (tasks : list PlannedTask) (s : Supervisor)
    : res TaskPlan :=
  create_plan (sv_planner s) (clock (S (lm_reads (sv_life s))))
    (mkMission (mc_id c) (mc_title c) (mc_objective c) (mc_objective c) (mc_priority c) []) tasks.

Lemma create_mission_eq c tasks s :
  create_mission clock exn_text c tasks s =
  if dmem (sv_missions s) (mc_id c)
  then (Err (supervisor_error "Mission '{}' already exists." [mc_id c]), s)
  else
    let s1 := planning_state c s in
    match plan_answer c tasks s with
    | Ok plan => mission_planned clock c (planning_mission c s) plan
                   (with_life (time_now clock (sv_life s1)).2 s1)
    | Err e => if is_planning_error (exn_cls e) then mission_refused clock exn_text c e s1
               else (Err e, s1)
    end.
Proof.
  unfold create_mission, bind at 1, get. destruct (dmem (sv_missions s) (mc_id c)); [done|].
  unfold bind at 1. cbn [register_mission]. unfold bind at 1. cbn [sup_emit].
  unfold bind at 1. rewrite transition_mission_eq. cbn [sv_missions with_calls
    with_missions with_mission_agents]. rewrite dget_dset_eq.
  rewrite decide_True by const_elem. unfold bind at 1, catch, plan_mission_tasks.
  unfold bind at 1, bind at 1, get. unfold plan_answer.
  destruct (after_move_rest (with_calls (sv_calls s ++
      map (fun h => mkSupCall h SupervisorEvent.MISSION_CREATED (mc_id c)) (sv_handlers s))
      (with_mission_agents (dset (sv_agents s) (mc_id c) ∅)
        (with_missions (dset (sv_missions s) (mc_id c)
          (mkMissionInst c MissionState.CREATED None [] no_sup_stats [])) s)))
    (mc_id c) (mkMissionInst c MissionState.CREATED None [] no_sup_stats [])
    MissionState.PLANNING) as (_ & _ & Hp & _).
  cbn -[create_plan mission_planned mission_refused planning_state planning_mission].
  destruct (create_plan _ _ _ tasks) as [plan|e]; [reflexivity|]. cbn.
  by destruct (is_planning_error (exn_cls e)).
Qed.

Lemma planning_state_missions c s :
  sv_missions (planning_state c s)
  = dset (dset (sv_missions s) (mc_id c) (mkMissionInst c MissionState.CREATED None [] no_sup_stats []))
      (mc_id c) (planning_mission c s).
Proof. reflexivity. Qed.

Lemma planning_state_inv c s :
  sup_inv s -> dmem (sv_missions s) (mc_id c) = false -> sup_inv (planning_state c s).
Proof.
  intros Hs Hnew. unfold planning_state. apply after_move_inv.
  - eapply sup_ext_inv; [apply calm_emit|]. destruct Hs as [Hwm Hwa Hwg Hl Hms].
    split; cbn; [by apply dict_wf_dset|by apply dict_wf_dset|done..|].
    intros k m. rewrite !dget_dset. case_decide; [|apply Hms]. intros [= <-].
    split; [done|]. const_elem.
  - cbn. apply dget_dset_eq.
  - const_elem.
Qed.

(** A fresh graph: every node is PENDING and no agent exists. *)
Lemma fresh_graph_ok l tasks g : represents tasks g -> graph_ok l ∅ g.
Proof.
  intros (Hinv & Hn & _).
  assert (Hst : forall t st, nstat g t = Some st -> st = StatusEnum NodeStatus.PENDING).
  { intros t st Hs. unfold nstat in Hs. apply fmap_Some in Hs as (n & Hd & ->).
    apply dget_Some_elem in Hd. rewrite Hn in Hd. apply list_elem_of_fmap in Hd as (u & Hu & _).
    by injection Hu as -> ->. }
  split; [done|..].
  - intros t st Hs. exists NodeStatus.PENDING. split; [by eapply Hst|const_elem].
  - intros k. set_solver.
  - intros k k' a a'. set_solver.
  - intros t [st Hs] Hp. exfalso. apply Hp. unfold pending. rewrite Hs. f_equal. by eapply Hst.
  - intros s t He Hp. exfalso. apply Hp.
    assert (Hin : t ∈ dkeys (g_nodes g)) by (apply (gi_refs _ Hinv s t He)).
    apply dget_is_Some in Hin as [n Hd]. unfold pending, nstat. rewrite Hd. cbn. f_equal.
    apply (Hst t). unfold nstat. by rewrite Hd.
Qed.

(** The state [mission_planned] moves to READY from. *)
Definition planned_state (c : MissionContext) (mission : MissionInstance) (plan : TaskPlan)
    (g : ExecutionGraph) (s : Supervisor) : Supervisor :=
  with_missions (dset (sv_missions s) (mc_id c)
      (mkMissionInst (ms_ctx mission) (ms_state mission) (Some plan) (ms_agents mission)
         (ms_stats mission) [("plan_generated_at", PInt (clock (lm_reads (sv_life s))))]))
    (with_graphs (dset (sv_graphs s) (mc_id c) g) (with_life (time_now clock (sv_life s)).2 s)).

Lemma mission_planned_eq c mission plan g s :
  plan_graph plan = Some g ->
  mission_planned clock c mission plan s
  = transition_mission clock (mc_id c) MissionState.READY (planned_state c mission plan g s).
Proof. intros Hg. unfold mission_planned, bind, life, zoom. cbn. by rewrite Hg. Qed.

Lemma planned_state_inv c mission plan g s :
  sup_inv s -> dget (sv_agents s) (mc_id c) = Some ∅ ->
  plan_graph plan = Some g -> represents (plan_tasks plan) g ->
  check_orphan_nodes (g_nodes g) (g_edges g) = [] -> NoDup (ids (plan_tasks plan)) ->
  ms_state mission = MissionState.PLANNING ->
  sup_inv (planned_state c mission plan g s).
Proof.
  intros [Hwm Hwa Hwg Hl Hms] HA Hg Hrep Horph Hnd Hst.
  split; cbn; [by apply dict_wf_dset|done|by apply dict_wf_dset|..].
  - by eapply manager_inv_agents; [|exact Hl].
  - intros k m. rewrite !dget_dset. case_decide as Hk.
    + intros [= <-]. subst k. unfold mission_ok. cbn. exists ∅, g, g.
      split_and!; try done; [by eapply fresh_graph_ok|rewrite Hst; const_elem|by rewrite Hst].
    + intros Hk'. eapply mission_ok_mono; [|by apply Hms]. intros j a Ha. eauto.
Qed.


(** The three ways [create_mission] ends once the id is known to be new. *)
Definition create_outcome (c : MissionContext) (tasks : list PlannedTask) (s : Supervisor)
    (r : res MissionInstance) (s' : Supervisor) : Prop :=
  match plan_answer c tasks s with
  | Ok plan => exists m, r = Ok m /\ ms_state m = MissionState.READY /\ ms_plan m = Some plan /\
      dget (sv_missions s') (mc_id c) = Some m
  | Err e =>
      if is_planning_error (exn_cls e)
      then exists m m', r = Ok m /\ ms_state m = MissionState.FAILED /\
             dget (ms_meta m) "planning_error" = Some (PStr (exn_text e)) /\
             dget (sv_missions s') (mc_id c) = Some m' /\ ms_state m' = MissionState.FAILED /\
             ms_plan m' = None /\ dget (ms_meta m') "plan_generated_at" = None
      else r = Err e /\ exists m', dget (sv_missions s') (mc_id c) = Some m' /\
             ms_state m' = MissionState.PLANNING
  end.

Lemma create_mission_cases c tasks s :
  sup_inv s ->
  let '(r, s') := create_mission clock exn_text c tasks s in
  sup_inv s' /\
  if dmem (sv_missions s) (mc_id c)
  then r = Err (supervisor_error "Mission '{}' already exists." [mc_id c]) /\ s' = s
  else create_outcome c tasks s r s' /\
       forall k, k <> mc_id c -> dget (sv_missions s') k = dget (sv_missions s) k.
Proof.
  intros Hs. rewrite create_mission_eq. destruct (dmem (sv_missions s) (mc_id c)) eqn:Hnew; [done|].
  cbn zeta. pose proof (planning_state_inv c s Hs Hnew) as Hs1.
  pose proof (planning_state_missions c s) as Hms1.
  assert (Hother : forall k, k <> mc_id c ->
    dget (sv_missions (planning_state c s)) k = dget (sv_missions s) k).
  { intros k Hk. rewrite Hms1. by rewrite !dget_dset_ne. }
  assert (Hhere : dget (sv_missions (planning_state c s)) (mc_id c) = Some (planning_mission c s)).
  { rewrite Hms1. apply dget_dset_eq. }
  assert (HA1 : dget (sv_agents (planning_state c s)) (mc_id c) = Some ∅).
  { unfold planning_state. destruct (after_move_rest (sup_emit SupervisorEvent.MISSION_CREATED
      (mc_id c) (register_mission c s).2).2 (mc_id c)
      (mkMissionInst c MissionState.CREATED None [] no_sup_stats []) MissionState.PLANNING)
      as (-> & _). cbn. apply dget_dset_eq. }
  unfold create_outcome. set (s1 := planning_state c s) in *.
  destruct (plan_answer c tasks s) as [plan|e] eqn:Hans.
  - pose proof (create_plan_answers (sv_planner s) (clock (S (lm_reads (sv_life s))))
      (mkMission (mc_id c) (mc_title c) (mc_objective c) (mc_objective c) (mc_priority c) [])
      tasks) as Hout.
    unfold plan_answer in Hans. rewrite Hans in Hout.
    destruct Hout as (Hacc & Hcaps & Hfin & g & gp & Hg & Hrep & Hgp & _).
    assert (Horph : check_orphan_nodes (g_nodes g) (g_edges g) = []).
    { pose proof (generate_plan_cases g (proj1 Hrep)) as Hc. rewrite Hgp in Hc. apply Hc. }
    assert (Hnd : NoDup (ids (plan_tasks plan))).
    { rewrite Hfin. by apply (apply_strategy_accepted (tp_strategy (sv_planner s)) _ _ Hacc Hcaps). }
    rewrite (mission_planned_eq _ _ _ g) by done.
    set (s2 := with_life (time_now clock (sv_life s1)).2 s1).
    assert (Hs2 : sup_inv s2).
    { eapply sup_ext_inv; [|exact Hs1]. exact (calm_time_now s1). }
    assert (Hs3 : sup_inv (planned_state c (planning_mission c s) plan g s2)).
    { by apply planned_state_inv. }
    rewrite transition_mission_eq. unfold planned_state at 1. cbn [sv_missions with_missions].
    rewrite dget_dset_eq. rewrite decide_True by const_elem. split.
    + apply after_move_inv; [done|cbn; apply dget_dset_eq|]. cbn. split; [const_elem|done].
    + split; [|intros k Hk; rewrite after_move_missions; cbn; rewrite !dget_dset_ne by done;
        first [done|by apply Hother]].
      eexists. split_and!; [done..|]. rewrite after_move_missions. apply dget_dset_eq.
  - destruct (is_planning_error (exn_cls e)).
    + unfold mission_refused, bind. rewrite transition_mission_eq, Hhere.
      rewrite decide_True by const_elem. cbn -[after_move]. split.
      * apply after_move_inv; [done..|]. const_elem.
      * split; [|intros k Hk; rewrite after_move_missions, dget_dset_ne by done; by apply Hother].
        eexists _, _. split_and!; [reflexivity|reflexivity|apply dget_dset_eq|
          rewrite after_move_missions; apply dget_dset_eq|reflexivity..].
    + split; [done|]. split; [|done]. split; [done|]. exists (planning_mission c s). done.
Qed.

Lemma create_mission_ok c tasks s :
  sup_inv s ->
  let s' := (create_mission clock exn_text c tasks s).2 in
  sup_inv s' /\ forall k, may_step (mstate s k) (mstate s' k).
Proof.
  intros Hs. pose proof (create_mission_cases c tasks s Hs) as Hcase.
  destruct (create_mission clock exn_text c tasks s) as [r s']. destruct Hcase as [Hs' Hcase].
  split; [done|]. cbn. intros k. destruct (dmem (sv_missions s) (mc_id c)) eqn:Hnew.
  { destruct Hcase as [_ ->]. by left. }
  destruct Hcase as [Hout Hother]. unfold mstate. destruct (decide (k = mc_id c)) as [->|Hne].
  2:{ left. by rewrite Hother. }
  right. apply dmem_false, dget_None in Hnew. rewrite Hnew. cbn. unfold create_outcome in Hout.
  destruct (plan_answer c tasks s) as [plan|e].
  - destruct Hout as (m & _ & Hst & _ & ->). cbn. rewrite Hst. constructor.
  - destruct (is_planning_error (exn_cls e)).
    + destruct Hout as (m & m' & _ & _ & _ & -> & Hst & _). cbn. rewrite Hst. constructor.
    + destruct Hout as (_ & m' & -> & Hst). cbn. rewrite Hst. constructor.
Qed.

(** ** Ticks, cleanup and the lifecycle operations *)

Lemma tick_loop_ok items changed s :
  sup_inv s -> NoDup (map fst items) ->
  (forall p, p ∈ items -> dget (sv_missions s) p.1 = Some p.2) ->
  let s' := (tick_loop clock uuid_hex runtime_selector items changed s).2 in
  sup_inv s' /\
  (forall k, k ∉ map fst items -> dget (sv_missions s') k = dget (sv_missions s) k) /\
  forall k, may_step (mstate s k) (mstate s' k).
Proof.
  revert changed s. induction items as [|[mid m] items IH]; intros changed s Hs Hnd Hin.
  { cbn. split_and!; [done..|by left]. }
  apply NoDup_cons in Hnd as [Hmid Hnd]. cbn [tick_loop].
  assert (Hrest : forall s1 changed', sup_inv s1 ->
    (forall k, k <> mid -> dget (sv_missions s1) k = dget (sv_missions s) k) ->
    may_step (mstate s mid) (mstate s1 mid) ->
    let s' := (tick_loop clock uuid_hex runtime_selector items changed' s1).2 in
    sup_inv s' /\
    (forall k, k ∉ map fst ((mid, m) :: items) -> dget (sv_missions s') k = dget (sv_missions s) k) /\
    forall k, may_step (mstate s k) (mstate s' k)).
  { intros s1 changed' Hs1 Hoth Hstep.
    destruct (IH changed' s1 Hs1 Hnd) as (Hs' & Hout & Hst).
    { intros p Hp. rewrite Hoth; [apply Hin; set_solver|]. intros Heq. apply Hmid.
      rewrite <- Heq. apply list_elem_of_fmap. by exists p. }
    split_and!; [done|..].
    - intros k Hk. cbn in Hk. rewrite Hout by set_solver. apply Hoth. set_solver.
    - intros k. destruct (decide (k = mid)) as [->|Hne].
      + unfold mstate at 2. rewrite Hout by done. done.
      + unfold mstate at 1. rewrite <- Hoth by done. apply Hst. }
  case_decide as Hrun; [|apply Hrest; [done..|by left]].
  unfold bind. destruct (tick_mission_ok mid s Hs) as [Hs1 Hcase].
  destruct (tick_mission clock uuid_hex runtime_selector mid s) as [[b|e] s1];
    cbn [snd] in Hs1, Hcase.
  - apply Hrest; [done|..].
    + intros k Hk. destruct Hcase as [-> |(m1 & m' & _ & _ & _ & ->)]; [done|].
      by rewrite dget_dset_ne.
    + destruct Hcase as [Heq|Hmv]; [by apply same_missions_step|].
      eapply moved_one_step; [done|const_elem].
  - cbn. split_and!; [done|..].
    + intros k Hk. cbn in Hk. destruct Hcase as [-> |(m1 & m' & _ & _ & _ & ->)]; [done|].
      rewrite dget_dset_ne; [done|set_solver].
    + intros k. destruct Hcase as [Heq|Hmv]; [by apply same_missions_step|].
      eapply moved_one_step; [done|const_elem].
Qed.

Lemma tick_ok s :
  sup_inv s ->
  let s' := (tick clock uuid_hex runtime_selector s).2 in
  sup_inv s' /\ forall k, may_step (mstate s k) (mstate s' k).
Proof.
  intros Hs. unfold tick, bind, get.
  destruct (tick_loop_ok (sv_missions s) [] s Hs) as (? & _ & ?); [apply Hs| |done].
  intros [k m] Hp. by apply dget_elem; [apply Hs|].
Qed.


Lemma forget_inv mid s : sup_inv s -> sup_inv (forget_mission mid s).2.
Proof.
  intros [Hwm Hwa Hwg Hl Hms]. split; cbn; [by apply dict_wf_ddel..|done|].
  intros k m. rewrite !dget_ddel by done. case_decide; [done|apply Hms].
Qed.

Lemma cleanup_loop_ok mids s :
  sup_inv s ->
  exists s', for_each mids (fun mid => cancel_agents clock mid ;;; forget_mission mid) s
      = (Ok tt, s') /\ sup_inv s' /\
    forall k, dget (sv_missions s') k
      = if decide (k ∈ mids) then None else dget (sv_missions s) k.
Proof.
  revert s. induction mids as [|mid mids IH]; intros s Hs; [by exists s|].
  assert (Hok : exists s1, cancel_agents clock mid s = (Ok tt, s1) /\ sup_ext s s1).
  { exists (cancel_agents clock mid s).2. split; [|apply calm_cancel_agents].
    unfold cancel_agents, each_agent, bind, get.
    generalize (iter_set (agents_of s mid)). intros l. clear. revert s.
    induction l as [|a l IHl]; intros s; [done|]. cbn [for_each]. unfold bind.
    unfold ignoring_lifecycle, catch, life, zoom, discard, bind, cancel_agent.
    rewrite transition_eq. destruct (dget (lm_agents (sv_life s)) a) as [b|]; cbn -[for_each].
    - pose proof (transition_guard_spec a (agent_state b) AgentState.CANCELLED) as Hg.
      destruct (transition_guard a (agent_state b) AgentState.CANCELLED) as [[]|e];
        cbn -[for_each]; [apply IHl|].
      destruct Hg as [_ He]. unfold is_lifecycle_error. rewrite He. cbn -[for_each]. apply IHl.
    - apply IHl. }
  destruct Hok as (s1 & Hrun & Hext).
  assert (Hs1 : sup_inv s1) by (by eapply sup_ext_inv).
  destruct (IH (forget_mission mid s1).2) as (s' & Hloop & Hs' & Hget); [by apply forget_inv|].
  exists s'. split_and!; [|done|].
  - cbn [for_each]. unfold bind. by rewrite Hrun.
  - intros k. rewrite Hget. cbn. rewrite dget_ddel by apply Hs1.
    rewrite (se_missions _ _ Hext). repeat case_decide; set_solver.
Qed.

Lemma sup_cleanup_spec age s :
  sup_inv s ->
  let now := clock (lm_reads (sv_life s)) in
  exists s', cleanup clock age s
      = (Ok (Z.of_nat (length (filter (fun p => mission_expired now age p.2 = true) (sv_missions s)))),
         s') /\ sup_inv s' /\
    forall k, dget (sv_missions s') k =
      match dget (sv_missions s) k with
      | Some m => if mission_expired now age m then None else Some m
      | None => None
      end.
Proof.
  intros Hs now. set (gone := filter (fun p => mission_expired now age p.2 = true) (sv_missions s)).
  set (s1 := with_life (time_now clock (sv_life s)).2 s).
  assert (Hs1 : sup_inv s1) by (eapply sup_ext_inv; [|exact Hs]; exact (calm_time_now s)).
  destruct (cleanup_loop_ok (map fst gone) s1 Hs1) as (s' & Hrun & Hs' & Hget).
  exists s'. split_and!; [|done|].
  - change (cleanup clock age s) with
      (match for_each (map fst gone) (fun mid => cancel_agents clock mid ;;; forget_mission mid) s1 with
       | (Ok _, t) => (Ok (Z.of_nat (length (map fst gone))), t)
       | (Err e, t) => (Err e, t)
       end). rewrite Hrun. by rewrite length_map.
  - intros k. rewrite Hget. cbn [sv_missions s1 with_life].
    destruct (dget (sv_missions s) k) as [m|] eqn:Hm.
    + assert (Hin : k ∈ map fst gone <-> mission_expired now age m = true).
      { rewrite list_elem_of_fmap. unfold gone. setoid_rewrite list_elem_of_filter. split.
        - intros ([k' m'] & -> & He & Hin). cbn in *.
          apply dget_elem in Hin; [|apply Hs]. by simplify_eq.
        - intros He. exists (k, m). split; [done|]. split; [done|]. by apply dget_Some_elem. }
      destruct (mission_expired now age m); case_decide; naive_solver.
    + by case_decide.
Qed.

Lemma sup_cleanup_ok age s :
  sup_inv s ->
  let s' := (cleanup clock age s).2 in
  sup_inv s' /\ forall k, may_step (mstate s k) (mstate s' k).
Proof.
  intros Hs. destruct (sup_cleanup_spec age s Hs) as (s' & -> & Hs' & Hget). cbn.
  split; [done|]. intros k. unfold mstate. rewrite Hget.
  destruct (dget (sv_missions s) k) as [m|]; [|by left].
  destruct (mission_expired _ age m) eqn:He; [|by left]. right. constructor.
  unfold mission_expired in He. apply andb_true_iff in He as [He _].
  by apply bool_decide_eq_true in He.
Qed.

(** Lifecycle operations other than [AgentLifecycleManager.cleanup], which would
    drop agents the supervisor still refers to. *)
Definition allowed_op (op : sup_op) : bool :=
  match op with SLife lop => no_cleanup lop | _ => true end.

Lemma sup_op_ok op s :
  sup_inv s -> allowed_op op = true ->
  let s' := (run_sup_op clock uuid_hex runtime_selector exn_text op s).2 in
  sup_inv s' /\ forall k, may_step (mstate s k) (mstate s' k).
Proof.
  intros Hs Hop.
  assert (Hcalm : forall m : M Supervisor unit, calm m ->
    sup_inv (m s).2 /\ forall k, may_step (mstate s k) (mstate (m s).2 k)).
  { intros m Hm. split; [by apply calm_inv|]. intros k. apply same_missions_step, Hm. }
  destruct op as [h|st|c tasks|mid|mid|mid|mid| |age|lop]; unfold run_sup_op;
    cbn zeta; rewrite ?discard_state.
  - apply Hcalm. intros t. by split.
  - apply (Hcalm (fun t => (Ok tt, with_planner (set_strategy st (sv_planner t)) t))).
    intros t. by split.
  - by apply create_mission_ok.
  - by apply start_mission_ok.
  - apply transition_then_ok; [done|apply calm_pause_agents|const_elem].
  - apply transition_then_ok; [done|apply calm_resume_agents|const_elem].
  - apply transition_then_ok; [done|apply calm_cancel_agents|const_elem].
  - by apply tick_ok.
  - by apply sup_cleanup_ok.
  - apply Hcalm. by apply calm_life_op.
Qed.

Lemma sup_ops_inv ops s :
  sup_inv s -> forallb allowed_op ops = true ->
  sup_inv (run_sup_ops clock uuid_hex runtime_selector exn_text ops s).
Proof.
  unfold run_sup_ops. revert s. induction ops as [|op ops IH]; intros s Hs Hops; [done|].
  cbn in *. apply andb_true_iff in Hops as [Hop Hops]. apply IH; [|done]. by apply sup_op_ok.
Qed.

Lemma new_supervisor_inv p l : manager_inv l -> sup_inv (new_supervisor p l).
Proof. intros Hl. split; cbn; [constructor..|done|done]. Qed.


(** ** The properties *)

(** A supervisor after a history of operations from a fresh one, none of them
    a [cleanup] of the lifecycle manager. *)
Definition reached (p : TaskPlanner) (timeout : Z) (ops : list sup_op) : Supervisor :=
  run_sup_ops clock uuid_hex runtime_selector exn_text ops (new_supervisor p (new_manager timeout)).

Lemma reached_inv p timeout ops : forallb allowed_op ops = true -> sup_inv (reached p timeout ops).
Proof. intros Hops. apply sup_ops_inv; [|done]. apply new_supervisor_inv, new_manager_inv. Qed.

(** C1: Whatever the history, one operation - successful, refused or cut short
    by an exception - takes each mission at most one step of the abstract
    mission machine. *)
Theorem missions_refine p timeout ops op k :
  forallb allowed_op ops = true -> allowed_op op = true ->
  let s := reached p timeout ops in
  let s' := (run_sup_op clock uuid_hex runtime_selector exn_text op s).2 in
  mstate s' k = mstate s k \/ mission_step (mstate s k) (mstate s' k).
Proof. intros Hops Hop. apply sup_op_ok; [by apply reached_inv|done]. Qed.

(** C35: An agent of a mission works on a task of its plan, alone on it, and
    every task that one depends on has an agent that has completed. *)
Theorem dependencies_respected p timeout ops mid m plan :
  forallb allowed_op ops = true ->
  let s := reached p timeout ops in
  dget (sv_missions s) mid = Some m -> ms_plan m = Some plan ->
  forall k, k ∈ agents_of s mid -> exists a t,
    dget (lm_agents (sv_life s)) k = Some a /\
    t ∈ plan_tasks plan /\ task_id t = ctx_task_id (agent_ctx a) /\
    (forall k' a', k' ∈ agents_of s mid -> dget (lm_agents (sv_life s)) k' = Some a' ->
       ctx_task_id (agent_ctx a') = task_id t -> k' = k) /\
    (forall d, d ∈ task_deps t -> exists k' a', k' ∈ agents_of s mid /\
       dget (lm_agents (sv_life s)) k' = Some a' /\ ctx_task_id (agent_ctx a') = d /\
       agent_state a' = AgentState.COMPLETED).
Proof.
  intros Hops s Hm Hp k Hk.
  destruct (mission_view s mid m plan (reached_inv _ _ _ Hops) Hm Hp)
    as (A & g & g0 & HA & Hg & HAo & Hgo & _ & Hnd & Hkeys & Hedges & Hok).
  rewrite HAo in *. destruct (go_agent _ _ _ Hok k Hk) as (a & x & Ha & Hx & Hnp & _).
  assert (Ht : task_of a ∈ ids (plan_tasks plan)).
  { rewrite <- Hkeys. apply dget_is_Some. unfold nstat in Hx.
    destruct (dget (g_nodes g) (task_of a)); [by eexists|done]. }
  apply elem_ids in Ht as (t & Ht & Hid). exists a, t. split_and!; [done..| |].
  - intros k' a' Hk' Ha' Heq. apply (go_inj _ _ _ Hok k' k a' a); [done..|].
    unfold task_of in *. congruence.
  - intros d Hd.
    assert (Hedge : (d, task_of a) ∈ pairs (g_edges g)).
    { rewrite Hedges. apply elem_task_edges. eauto. }
    assert (Hnpend : ~ pending g (task_of a)).
    { unfold pending. rewrite Hx. by intros [= ->]. }
    pose proof (go_deps _ _ _ Hok d _ Hedge Hnpend) as Hc.
    destruct (go_has _ _ _ Hok d) as (k' & a' & Hk' & Ha' & Htd).
    { unfold completed in Hc. by rewrite Hc. }
    { unfold completed, pending in *. congruence. }
    destruct (go_agent _ _ _ Hok k' Hk') as (b & y & Hb & Hy & _ & Hcmp & _).
    rewrite Ha' in Hb. injection Hb as <-. exists k', a'. split_and!; [done..|].
    apply Hcmp. rewrite Htd in Hy. unfold completed in Hc. rewrite Hc in Hy. by injection Hy.
Qed.

(** A mission is COMPLETED only when every task of its plan has an agent
    that has completed. *)
Theorem completed_mission_done p timeout ops mid m :
  forallb allowed_op ops = true ->
  let s := reached p timeout ops in
  dget (sv_missions s) mid = Some m -> ms_state m = MissionState.COMPLETED ->
  exists plan, ms_plan m = Some plan /\
    forall t, t ∈ plan_tasks plan -> exists k a, k ∈ agents_of s mid /\
      dget (lm_agents (sv_life s)) k = Some a /\ ctx_task_id (agent_ctx a) = task_id t /\
      agent_state a = AgentState.COMPLETED.
Proof.
  intros Hops s Hm Hst. pose proof (reached_inv p timeout ops Hops) as Hs. fold s in Hs.
  pose proof (si_mission _ Hs _ _ Hm) as Hmok. unfold mission_ok in Hmok.
  destruct (ms_plan m) as [plan|] eqn:Hp.
  2:{ destruct Hmok as [_ Hin]. rewrite Hst in Hin. const_absurd Hin. }
  exists plan. split; [done|]. intros t Ht.
  destruct (mission_view s mid m plan Hs Hm Hp)
    as (A & g & g0 & HA & Hg & HAo & Hgo & _ & Hnd & Hkeys & Hedges & Hok).
  destruct Hmok as (A' & g' & _ & HA' & Hg' & _ & _ & _ & _ & _ & _ & _ & Hall).
  rewrite Hg in Hg'. injection Hg' as <-.
  pose proof (Hall Hst (task_id t)) as Hc. rewrite Hkeys in Hc.
  specialize (Hc ltac:(apply elem_ids; eauto)).
  destruct (go_has _ _ _ Hok (task_id t)) as (k & a & Hk & Ha & Hta).
  { unfold completed in Hc. by rewrite Hc. }
  { unfold completed, pending in *. congruence. }
  destruct (go_agent _ _ _ Hok k Hk) as (b & y & Hb & Hy & _ & Hcmp & _).
  rewrite Ha in Hb. injection Hb as <-. exists k, a. rewrite HAo. split_and!; [done..|].
  apply Hcmp. rewrite Hta in Hy. unfold completed in Hc. rewrite Hc in Hy. by injection Hy.
Qed.

(** What [create_mission] does: an existing id is refused and nothing
    changes; a planner that answers gives a READY mission holding the plan; a
    [PlanningError] gives a FAILED one; any other exception of the planner
    comes out and leaves the mission in PLANNING. *)
Theorem create_mission_outcome p timeout ops c tasks :
  forallb allowed_op ops = true ->
  let s := reached p timeout ops in
  let '(r, s') := create_mission clock exn_text c tasks s in
  if dmem (sv_missions s) (mc_id c)
  then r = Err (supervisor_error "Mission '{}' already exists." [mc_id c]) /\ s' = s
  else create_outcome c tasks s r s' /\
       forall k, k <> mc_id c -> dget (sv_missions s') k = dget (sv_missions s) k.
Proof.
  intros Hops s. pose proof (create_mission_cases c tasks s (reached_inv _ _ _ Hops)) as Hc.
  destruct (create_mission clock exn_text c tasks s) as [r s']. apply Hc.
Qed.

(** A FAILED mission was refused by the planner: it holds no plan and no
    agent.  A mission that has started never becomes FAILED, whatever fails. *)
Theorem failed_missions_never_planned p timeout ops mid m :
  forallb allowed_op ops = true ->
  let s := reached p timeout ops in
  dget (sv_missions s) mid = Some m -> ms_state m = MissionState.FAILED ->
  ms_plan m = None /\ agents_of s mid = ∅.
Proof.
  intros Hops s Hm Hst. pose proof (si_mission _ (reached_inv _ _ _ Hops) _ _ Hm) as Hmok.
  unfold mission_ok in Hmok. destruct (ms_plan m) as [plan|].
  - destruct Hmok as (A & g & g0 & _ & _ & _ & _ & _ & _ & _ & _ & Hin & _).
    rewrite Hst in Hin. const_absurd Hin.
  - destruct Hmok as [HA _]. split; [done|]. unfold agents_of. fold s in HA. by rewrite HA.
Qed.

(** [start_mission] of a PAUSED mission is accepted, and no agent is
    resumed. *)
Theorem start_mission_of_paused s mid m :
  dget (sv_missions s) mid = Some m -> ms_state m = MissionState.PAUSED ->
  exists m' s', start_mission clock mid s = (Ok m', s') /\
    dget (sv_missions s') mid = Some m' /\ ms_state m' = MissionState.RUNNING /\
    lm_agents (sv_life s') = lm_agents (sv_life s).
Proof.
  intros Hm Hst. unfold start_mission. rewrite check_get, Hm, transition_mission_eq, Hm, Hst.
  rewrite decide_True by const_elem. eexists _, _. split; [done|].
  rewrite after_move_missions, dget_dset_eq. split_and!; [done..|]. apply after_move_rest.
Qed.

(** [cleanup] removes exactly the finished missions whose plan is older than
    [max_age_s] and returns their number; the others are untouched. *)
Theorem sup_cleanup_exact p timeout ops age :
  forallb allowed_op ops = true ->
  let s := reached p timeout ops in
  let now := clock (lm_reads (sv_life s)) in
  exists s', cleanup clock age s
      = (Ok (Z.of_nat (length (filter (fun p => mission_expired now age p.2 = true) (sv_missions s)))),
         s') /\
    forall k, dget (sv_missions s') k =
      match dget (sv_missions s) k with
      | Some m => if mission_expired now age m then None else Some m
      | None => None
      end.
Proof.
  intros Hops s now. destruct (sup_cleanup_spec age s (reached_inv _ _ _ Hops)) as (s' & ? & _ & ?).
  by exists s'.
Qed.

(** A mission the planner refused has no [plan_generated_at], its age is
    taken to be 0, and no cleanup with a non-negative age ever removes it. *)
Theorem refused_missions_leak p timeout ops c tasks e age :
  forallb allowed_op ops = true -> 0 <= age ->
  let s := reached p timeout ops in
  dmem (sv_missions s) (mc_id c) = false ->
  plan_answer c tasks s = Err e -> exn_cls e = PlanningError ->
  let s1 := (create_mission clock exn_text c tasks s).2 in
  let s2 := (cleanup clock age s1).2 in
  exists m, dget (sv_missions s2) (mc_id c) = Some m /\ ms_state m = MissionState.FAILED.
Proof.
  intros Hops Hage s Hnew Hans He s1 s2.
  pose proof (create_mission_cases c tasks s (reached_inv _ _ _ Hops)) as Hcase.
  subst s2 s1. destruct (create_mission clock exn_text c tasks s) as [r s1]. cbn [snd].
  destruct Hcase as [Hs1 Hcase]. rewrite Hnew in Hcase. destruct Hcase as [Hout _].
  unfold create_outcome in Hout. rewrite Hans, He in Hout. cbn in Hout.
  destruct Hout as (m & m' & _ & _ & _ & Hm & Hst & _ & Hmeta).
  destruct (sup_cleanup_spec age s1 Hs1) as (s2 & -> & _ & Hget). cbn [snd].
  exists m'. split; [|done]. rewrite Hget, Hm. unfold mission_expired, planned_at. rewrite Hmeta.
  rewrite Z.sub_diag. destruct (age <? 0) eqn:Hlt; [apply Z.ltb_lt in Hlt; lia|].
  by rewrite andb_false_r.
Qed.


(** ** Progress *)

Lemma orphan_same g g' :
  dkeys (g_nodes g) = dkeys (g_nodes g') -> g_edges g = g_edges g' ->
  check_orphan_nodes (g_nodes g) (g_edges g) = check_orphan_nodes (g_nodes g') (g_edges g').
Proof.
  intros Hk He. unfold check_orphan_nodes. rewrite Hk, He.
  by rewrite <- !(dkeys_length (g_nodes _)), Hk.
Qed.

(** The graph of a stored mission always has an execution plan. *)
Lemma mission_graph_plan s mid m plan :
  sup_inv s -> dget (sv_missions s) mid = Some m -> ms_plan m = Some plan ->
  exists gp, generate_plan (graph_of s mid) = Ok gp /\ plan_spec (graph_of s mid) gp.
Proof.
  intros Hs Hm Hp. pose proof (si_mission _ Hs _ _ Hm) as Hok. unfold mission_ok in Hok.
  rewrite Hp in Hok.
  destruct Hok as (A & g & g0 & HA & Hg & Hg0 & Hnd & [Hrep Horph] & Hk & He & Hgok & _).
  unfold graph_of. rewrite Hg. cbn. pose proof (generate_plan_cases g (go_inv _ _ _ Hgok)) as Hc.
  destruct (generate_plan g) as [gp|e].
  - exists gp. by destruct Hc.
  - exfalso. destruct Hc as [_ Hne]. apply Hne. by rewrite (orphan_same g g0).
Qed.

Lemma plan_execution_graph s mid m plan :
  sup_inv s -> dget (sv_missions s) mid = Some m -> ms_plan m = Some plan ->
  exists g0, plan_graph plan = Some g0.
Proof. intros Hs Hm Hp. destruct (mission_view s mid m plan Hs Hm Hp) as (?&?&g0&?&?&?&?&?&_). eauto. Qed.

(** A graph with nodes has a leaf. *)
Lemma leaf_exists g gp :
  graph_inv g -> plan_spec g gp -> dkeys (g_nodes g) <> [] -> get_leaves g <> [].
Proof.
  intros Hg Hspec Hne Hl. pose proof (ps_order _ _ Hspec) as Hperm.
  assert (Hnd : NoDup (execution_order gp)) by (rewrite Hperm; apply Hg).
  destruct (execution_order gp) as [|x l _] eqn:Hord using rev_ind.
  { by apply Permutation_nil_l in Hperm. }
  assert (Hx : x ∈ dkeys (g_nodes g)) by (rewrite <- Hperm; set_solver).
  assert (Hno : x ∉ map edge_source (g_edges g)).
  { intros (e & -> & He)%list_elem_of_fmap.
    assert (Hpair : (edge_source e, edge_target e) ∈ pairs (g_edges g))
      by (apply elem_pairs; by exists e).
    assert (Hin : edge_target e ∈ @nil string).
    { eapply (order_before (pairs (g_edges g)) (l ++ [edge_source e]) l (edge_source e) []);
        [done|rewrite <- Hord; apply (ps_topo _ _ Hspec)|done|exact Hpair|].
      rewrite Hperm. by apply (gi_refs _ Hg _ _ Hpair). }
    by apply elem_of_nil in Hin. }
  apply dget_is_Some in Hx as [n Hn].
  assert (Hin : n ∈ get_leaves g).
  { apply list_elem_of_filter. rewrite (gi_ids _ Hg x n Hn). split; [done|].
    apply dget_Some_elem in Hn. apply list_elem_of_fmap. by exists (x, n). }
  rewrite Hl in Hin. by apply elem_of_nil in Hin.
Qed.

Lemma completed_status g n :
  graph_inv g -> n ∈ dvalues (g_nodes g) ->
  (forall t, t ∈ dkeys (g_nodes g) -> completed g t) -> status_is n NodeStatus.COMPLETED = true.
Proof.
  intros Hg Hn Hall. apply list_elem_of_fmap in Hn as ([t n'] & -> & Hin).
  apply dget_elem in Hin; [|apply Hg].
  assert (Ht : t ∈ dkeys (g_nodes g)) by (apply dget_is_Some; by eexists).
  specialize (Hall t Ht). unfold completed, nstat in Hall. rewrite Hin in Hall. injection Hall as Hst.
  by apply (status_is_spec _ NodeStatus.COMPLETED).
Qed.

(** A tick of a RUNNING mission whose tasks all have an agent that has
    completed ends the mission - unless a task has an empty id, which the loop
    over the agents skips. *)
Theorem tick_completes p timeout ops mid m plan :
  forallb allowed_op ops = true ->
  let s := reached p timeout ops in
  dget (sv_missions s) mid = Some m -> ms_state m = MissionState.RUNNING ->
  ms_plan m = Some plan -> plan_tasks plan <> [] ->
  (forall t, t ∈ plan_tasks plan -> task_id t <> "" /\ exists k a, k ∈ agents_of s mid /\
     dget (lm_agents (sv_life s)) k = Some a /\ ctx_task_id (agent_ctx a) = task_id t /\
     agent_state a = AgentState.COMPLETED) ->
  exists s', tick_mission clock uuid_hex runtime_selector mid s = (Ok true, s') /\
    mstate s' mid = Some MissionState.COMPLETED.
Proof.
  intros Hops s Hm Hst Hp Hne Hall. pose proof (reached_inv p timeout ops Hops) as Hs. fold s in Hs.
  destruct (mark_agents_ok mid s m plan Hs Hm Hp)
    as (s1 & Hmark & Hs1 & Hte1 & HA1 & Hl1 & _ & Hcompl).
  assert (Hm1 : dget (sv_missions s1) mid = Some m) by (by rewrite (te_missions _ _ _ Hte1)).
  destruct (mission_graph_plan s1 mid m plan Hs1 Hm1 Hp) as (gp & Hgp & Hspec).
  destruct (plan_execution_graph s mid m plan Hs Hm Hp) as [g0 Hg0].
  destruct (mission_view s1 mid m plan Hs1 Hm1 Hp)
    as (A & g & g1 & HA & Hg & HAo & Hgo & _ & _ & Hkeys & _ & Hok).
  rewrite Hgo in Hgp, Hspec, Hcompl.
  assert (Hdone : forall t, t ∈ dkeys (g_nodes g) -> completed g t).
  { intros x. rewrite Hkeys. intros (t & Ht & <-)%elem_ids.
    destruct (Hall t Ht) as (Hid & k & a & Hk & Ha & Hta & Hsa).
    rewrite <- Hta. apply (Hcompl k a Hk Ha Hsa). unfold task_of. by rewrite Hta. }
  assert (Hkne : dkeys (g_nodes g) <> []).
  { rewrite Hkeys. unfold ids. by intros ?%map_eq_nil. }
  pose proof (leaf_exists g gp (go_inv _ _ _ Hok) Hspec Hkne) as Hleaf.
  assert (Hald : all_done (get_leaves g) = true).
  { unfold all_done. destruct (get_leaves g) as [|y ys] eqn:Hl; [done|]. rewrite <- Hl.
    apply forallb_forall. intros n Hn%list_elem_of_In.
    apply (completed_status g); [apply Hok| |done].
    apply list_elem_of_filter in Hn. apply Hn. }
  assert (Hnempty : empty_graph_result g = false).
  { unfold empty_graph_result. apply andb_false_iff. left. apply andb_false_iff. right.
    apply bool_decide_eq_false. by destruct (get_leaves g). }
  unfold tick_mission, bind at 1. rewrite get_mission_eq, Hm, Hp, Hg0.
  unfold bind at 1. rewrite Hmark. unfold bind at 1, get. rewrite Hgo, Hgp, Hnempty, Hald.
  unfold bind. rewrite transition_mission_eq, Hm1, Hst. rewrite decide_True by const_elem.
  eexists. split; [reflexivity|]. unfold mstate.
  match goal with |- context [sv_missions ?x] =>
    assert (Hmiss : sv_missions x = sv_missions (after_move s1 mid m MissionState.COMPLETED))
      by apply (calm_emit SupervisorEvent.GRAPH_COMPLETED mid) end.
  by rewrite Hmiss, after_move_missions, dget_dset_eq.
Qed.

Lemma task_lookup_spec tasks t :
  NoDup (ids tasks) -> t ∈ tasks -> task_lookup tasks (task_id t) = Some t.
Proof.
  intros Hnd Ht. unfold task_lookup.
  induction tasks as [|u tasks IH] using rev_ind; [set_solver|].
  rewrite ids_snoc in Hnd. apply NoDup_app in Hnd as (Hnd & Hnew & _).
  rewrite fold_left_app. cbn. rewrite dget_dset.
  apply elem_of_app in Ht as [Ht| ->%list_elem_of_singleton]; [|by rewrite decide_True].
  rewrite decide_False; [by apply IH|]. intros Heq.
  apply (Hnew (task_id t)); [apply elem_ids; eauto|]. rewrite Heq. set_solver.
Qed.

(** A task that no agent works on and whose dependencies have all been
    marked completed is started when the tick reaches it, on the runtime the
    selector gives, provided the name drawn for the agent is not taken. *)
Theorem ready_task_launched p timeout ops mid m plan gp t assigned s1 :
  forallb allowed_op ops = true ->
  let s := reached p timeout ops in
  dget (sv_missions s) mid = Some m -> ms_plan m = Some plan -> t ∈ plan_tasks plan ->
  generate_plan (graph_of s mid) = Ok gp ->
  pending (graph_of s mid) (task_id t) ->
  (forall d, d ∈ task_deps t -> completed (graph_of s mid) d) ->
  select_runtime runtime_selector (task_cap t) s = (Ok assigned, s1) ->
  let name := agent_name mid (task_id t) (uuid_hex (sv_uuids s1)) in
  ~ (name ∈ dkeys (lm_agents (sv_life s))) ->
  exists s' a, launch clock uuid_hex runtime_selector mid plan gp (task_id t) s = (Ok tt, s') /\
    dget (lm_agents (sv_life s')) name = Some a /\ agent_state a = AgentState.RUNNING /\
    ctx_task_id (agent_ctx a) = task_id t /\ ctx_runtime (agent_ctx a) = assigned /\
    name ∈ agents_of s' mid /\
    nstat (graph_of s' mid) (task_id t) = Some (StatusEnum NodeStatus.RUNNING).
Proof.
  intros Hops s Hm Hp Ht Hgp Hpend Hdeps Hsel name Hfresh.
  pose proof (reached_inv p timeout ops Hops) as Hs. fold s in Hs.
  destruct (mission_view s mid m plan Hs Hm Hp)
    as (A & g & g0 & HA & Hg & HAo & Hgo & _ & Hnd & Hkeys & Hedges & Hok).
  rewrite Hgo in Hgp, Hpend, Hdeps.
  pose proof (generate_plan_cases g (go_inv _ _ _ Hok)) as Hc. rewrite Hgp in Hc.
  destruct Hc as [_ Hspec].
  assert (Hin : task_id t ∈ dkeys (g_nodes g)) by (rewrite Hkeys; apply elem_ids; eauto).
  destruct (proj2 (dget_is_Some _ _) Hin) as [node Hnode].
  assert (Hpred : forall d, (d, task_id t) ∈ pairs (g_edges g) -> completed g d).
  { intros d. rewrite Hedges. intros (u & Hu & Hid & Hd)%elem_task_edges.
    assert (u = t) as -> by (by eapply NoDup_map_inj). by apply Hdeps. }
  assert (Hst : node_st node = StatusEnum NodeStatus.PENDING).
  { unfold pending, nstat in Hpend. rewrite Hnode in Hpend. by injection Hpend. }
  assert (Hdc : deps_completed g (preds (pairs (g_edges g)) (task_id t)) = true).
  { apply forallb_forall. intros d Hd%list_elem_of_In%elem_preds%Hpred.
    unfold completed, nstat in Hd. unfold get_node.
    destruct (dget (g_nodes g) d) as [n|]; [|done]. cbn in Hd. injection Hd as Hd.
    by apply (status_is_spec _ NodeStatus.COMPLETED). }
  pose proof (calm_select (task_cap t) s) as Hcalm. rewrite Hsel in Hcalm. cbn in Hcalm.
  pose proof (calm_next_uuid s1) as Hcalm2. set (s2 := (next_uuid uuid_hex s1).2) in Hcalm2.
  assert (Hext : sup_ext s s2) by (by etransitivity).
  assert (Hg2 : graph_of s2 mid = g).
  { unfold graph_of. by rewrite (se_graphs _ _ Hext), Hg. }
  assert (Hl2 : sv_life s2 = sv_life s).
  { subst s2. cbn. unfold select_runtime in Hsel. destruct runtime_selector; by simplify_eq/=. }
  destruct (spawn_ok mid (task_id t) node
    (mkCtx name mid (task_id t) (task_cap t) assigned []) s2 m plan) as (s' & Hrun & _ & _ & Hb);
    rewrite ?Hg2; try done.
  { by eapply sup_ext_inv. }
  { by rewrite (se_missions _ _ Hext). }
  rewrite Hl2 in Hb. destruct (Hb Hfresh) as (b & Hbd & Hbc & Hbs & HbA & Hbn).
  exists s', b. rewrite Hbc. split_and!; try done.
  unfold launch, bind, get, get_node. rewrite Hgo, Hnode, (ps_deps _ _ Hspec).
  rewrite decide_True by done. cbn [default from_option]. unfold id. rewrite Hdc.
  rewrite (proj2 (status_is_spec node NodeStatus.PENDING NodeStatus.PENDING Hst)) by done.
  cbn [negb]. rewrite task_lookup_spec by done. rewrite Hsel. exact Hrun.
Qed.

End proofs.

(** * Witnesses: one mission of four tasks carried to its end *)

Definition demo_hex (i : nat) : string := String (Ascii.ascii_of_nat (48 + i)) EmptyString.

Definition demo_text (e : exn) : string := "planning failed".

Definition demo_planner : TaskPlanner := mkPlanner PlanningStrategy.BALANCED None.

Definition demo_mission_ctx (mid : string) : MissionContext := mkMissionCtx mid "demo" "" 5 [].

(** Create, start, and two rounds of ticks: [design] done, [code] and [docs]
    running. *)
Definition demo_ops : list sup_op :=
  [SCreate (demo_mission_ctx "m") demo_tasks; SStart "m"; STick;
   SLife (OpComplete "m__design__0"); STick].

(** The rest of the tasks: the mission ends. *)
Definition demo_end : list sup_op :=
  [SLife (OpComplete "m__code__1"); SLife (OpComplete "m__docs__2"); STick;
   SLife (OpComplete "m__review__3"); STick].

Abbreviation demo_reached ops :=
  (reached demo_clock demo_hex None demo_text demo_planner 300000 ops).

Example demo_run_states :
  map (fun ops => mstate (demo_reached ops) "m") [demo_ops; demo_ops ++ demo_end]
  = [Some MissionState.RUNNING; Some MissionState.COMPLETED].
Proof. vm_compute. reflexivity. Qed.

Example demo_run_agents :
  map (fun p => (p.1, agent_state p.2)) (lm_agents (sv_life (demo_reached demo_ops)))
  = [("m__design__0", AgentState.COMPLETED); ("m__code__1", AgentState.RUNNING);
     ("m__docs__2", AgentState.RUNNING)].
Proof. vm_compute. reflexivity. Qed.

(** A failed task leaves the mission RUNNING: no tick ever ends it. *)
Example demo_failed_task :
  mstate (demo_reached ([SCreate (demo_mission_ctx "m") demo_tasks; SStart "m"; STick;
    SLife (OpFail "m__design__0"); STick; STick; STick])) "m" = Some MissionState.RUNNING.
Proof. vm_compute. reflexivity. Qed.

(** A finished agent is announced again by every tick of a running mission. *)
Example demo_events_repeat :
  map sc_event (sv_calls (demo_reached ([SOnEvent "h"; SCreate (demo_mission_ctx "m") demo_tasks;
    SStart "m"; STick; SLife (OpComplete "m__design__0"); STick; STick])))
  = [SupervisorEvent.MISSION_CREATED; SupervisorEvent.MISSION_CREATED;
     SupervisorEvent.MISSION_CREATED; SupervisorEvent.MISSION_STARTED;
     SupervisorEvent.AGENT_CREATED; SupervisorEvent.TASK_READY;
     SupervisorEvent.AGENT_COMPLETED; SupervisorEvent.AGENT_CREATED; SupervisorEvent.TASK_READY;
     SupervisorEvent.AGENT_CREATED; SupervisorEvent.TASK_READY; SupervisorEvent.AGENT_COMPLETED].
Proof. vm_compute. reflexivity. Qed.

(** An accepted mission with an isolated task is left in PLANNING. *)
Example demo_stuck_mission :
  mstate (demo_reached [SCreate (demo_mission_ctx "m") demo_isolated]) "m"
  = Some MissionState.PLANNING.
Proof. vm_compute. reflexivity. Qed.

Lemma missions_refine_witness :
  (forallb allowed_op demo_ops = true /\ allowed_op STick = true) /\
  let s := demo_reached demo_ops in
  let s' := (run_sup_op demo_clock demo_hex None demo_text STick s).2 in
  mstate s' "m" = mstate s "m" \/ mission_step (mstate s "m") (mstate s' "m").
Proof.
  split; [split; reflexivity|].
  exact (missions_refine demo_clock demo_hex None demo_text demo_planner 300000 demo_ops STick "m"
           eq_refl eq_refl).
Defined.

(** The mission [mid] of [ops], which is known to be stored. *)
Lemma demo_lookup ops mid (P : MissionInstance -> bool) :
  match dget (sv_missions (demo_reached ops)) mid with Some m => P m | None => false end = true ->
  exists m, dget (sv_missions (demo_reached ops)) mid = Some m /\ P m = true.
Proof. destruct (dget _ mid) as [m|]; [|discriminate]. eauto. Qed.

Definition has_plan (m : MissionInstance) : bool :=
  match ms_plan m with Some _ => true | None => false end.

Lemma dependencies_respected_witness :
  exists m plan, dget (sv_missions (demo_reached demo_ops)) "m" = Some m /\ ms_plan m = Some plan /\
    "m__code__1" ∈ agents_of (demo_reached demo_ops) "m" /\
    exists a t, dget (lm_agents (sv_life (demo_reached demo_ops))) "m__code__1" = Some a /\
      t ∈ plan_tasks plan /\ task_id t = ctx_task_id (agent_ctx a) /\
      (forall d, d ∈ task_deps t -> exists k' a', k' ∈ agents_of (demo_reached demo_ops) "m" /\
         dget (lm_agents (sv_life (demo_reached demo_ops))) k' = Some a' /\
         ctx_task_id (agent_ctx a') = d /\ agent_state a' = AgentState.COMPLETED).
Proof.
  destruct (demo_lookup demo_ops "m" has_plan) as (m & Hm & Hp); [vm_compute; reflexivity|].
  unfold has_plan in Hp. destruct (ms_plan m) as [plan|] eqn:Hplan; [|discriminate Hp].
  assert (Hk : "m__code__1" ∈ agents_of (demo_reached demo_ops) "m") by const_elem.
  exists m, plan. split; [exact Hm|]. split; [exact Hplan|]. split; [exact Hk|].
  destruct (dependencies_respected demo_clock demo_hex None demo_text demo_planner 300000 demo_ops
              "m" m plan eq_refl Hm Hplan "m__code__1" Hk) as (a & t & Ha & Ht & Hid & _ & Hd).
  exists a, t. split; [exact Ha|]. split; [exact Ht|]. split; [exact Hid|]. exact Hd.
Defined.

Definition is_completed (m : MissionInstance) : bool :=
  bool_decide (ms_state m = MissionState.COMPLETED).

Lemma completed_mission_done_witness :
  exists m, dget (sv_missions (demo_reached (demo_ops ++ demo_end))) "m" = Some m /\
    ms_state m = MissionState.COMPLETED /\
    exists plan, ms_plan m = Some plan /\
      forall t, t ∈ plan_tasks plan ->
        exists k a, k ∈ agents_of (demo_reached (demo_ops ++ demo_end)) "m" /\
          dget (lm_agents (sv_life (demo_reached (demo_ops ++ demo_end)))) k = Some a /\
          ctx_task_id (agent_ctx a) = task_id t /\ agent_state a = AgentState.COMPLETED.
Proof.
  destruct (demo_lookup (demo_ops ++ demo_end) "m" is_completed) as (m & Hm & Hst);
    [vm_compute; reflexivity|].
  apply bool_decide_eq_true in Hst. exists m. split; [exact Hm|]. split; [exact Hst|].
  exact (completed_mission_done demo_clock demo_hex None demo_text demo_planner 300000
           (demo_ops ++ demo_end) "m" m eq_refl Hm Hst).
Defined.

Lemma create_mission_outcome_witness :
  forallb allowed_op demo_ops = true /\
  let s := demo_reached demo_ops in
  let '(r, s') := create_mission demo_clock demo_text (demo_mission_ctx "n") demo_isolated s in
  if dmem (sv_missions s) "n"
  then r = Err (supervisor_error "Mission '{}' already exists." ["n"]) /\ s' = s
  else create_outcome demo_clock demo_text (demo_mission_ctx "n") demo_isolated s r s' /\
       forall k, k <> "n" -> dget (sv_missions s') k = dget (sv_missions s) k.
Proof.
  split; [reflexivity|].
  exact (create_mission_outcome demo_clock demo_hex None demo_text demo_planner 300000 demo_ops
           (demo_mission_ctx "n") demo_isolated eq_refl).
Defined.

Definition is_failed (m : MissionInstance) : bool := bool_decide (ms_state m = MissionState.FAILED).

Definition demo_refused : list sup_op := [SCreate (demo_mission_ctx "m") demo_loop].

Lemma failed_missions_never_planned_witness :
  exists m, dget (sv_missions (demo_reached demo_refused)) "m" = Some m /\
    ms_state m = MissionState.FAILED /\ ms_plan m = None /\
    agents_of (demo_reached demo_refused) "m" = ∅.
Proof.
  destruct (demo_lookup demo_refused "m" is_failed) as (m & Hm & Hst); [vm_compute; reflexivity|].
  apply bool_decide_eq_true in Hst. exists m. split; [exact Hm|]. split; [exact Hst|].
  exact (failed_missions_never_planned demo_clock demo_hex None demo_text demo_planner 300000
           demo_refused "m" m eq_refl Hm Hst).
Defined.

Definition is_paused (m : MissionInstance) : bool := bool_decide (ms_state m = MissionState.PAUSED).

Lemma start_mission_of_paused_witness :
  exists m, dget (sv_missions (demo_reached (demo_ops ++ [SPause "m"]))) "m" = Some m /\
    ms_state m = MissionState.PAUSED /\
    exists m' s', start_mission demo_clock "m" (demo_reached (demo_ops ++ [SPause "m"]))
        = (Ok m', s') /\
      dget (sv_missions s') "m" = Some m' /\ ms_state m' = MissionState.RUNNING /\
      lm_agents (sv_life s') = lm_agents (sv_life (demo_reached (demo_ops ++ [SPause "m"]))).
Proof.
  destruct (demo_lookup (demo_ops ++ [SPause "m"]) "m" is_paused) as (m & Hm & Hst);
    [vm_compute; reflexivity|].
  apply bool_decide_eq_true in Hst. exists m. split; [exact Hm|]. split; [exact Hst|].
  exact (start_mission_of_paused demo_clock _ "m" m Hm Hst).
Defined.

Lemma sup_cleanup_exact_witness :
  forallb allowed_op (demo_ops ++ demo_end) = true /\
  let s := demo_reached (demo_ops ++ demo_end) in
  let now := demo_clock (lm_reads (sv_life s)) in
  exists s', cleanup demo_clock 10 s
      = (Ok (Z.of_nat (length (filter (fun p => mission_expired now 10 p.2 = true) (sv_missions s)))),
         s') /\
    forall k, dget (sv_missions s') k =
      match dget (sv_missions s) k with
      | Some m => if mission_expired now 10 m then None else Some m
      | None => None
      end.
Proof.
  split; [reflexivity|].
  exact (sup_cleanup_exact demo_clock demo_hex None demo_text demo_planner 300000
           (demo_ops ++ demo_end) 10 eq_refl).
Defined.

Lemma refused_missions_leak_witness :
  exists e, plan_answer demo_clock (demo_mission_ctx "n") demo_loop (demo_reached demo_ops) = Err e /\
    exists m, dget (sv_missions (cleanup demo_clock 10
        (create_mission demo_clock demo_text (demo_mission_ctx "n") demo_loop
           (demo_reached demo_ops)).2).2) "n" = Some m /\ ms_state m = MissionState.FAILED.
Proof.
  assert (Hnew : dmem (sv_missions (demo_reached demo_ops)) "n" = false) by (vm_compute; reflexivity).
  destruct (plan_answer demo_clock (demo_mission_ctx "n") demo_loop (demo_reached demo_ops))
    as [plan|e] eqn:Hans; [vm_compute in Hans; discriminate Hans|].
  assert (He : exn_cls e = PlanningError).
  { vm_compute in Hans. injection Hans as <-. reflexivity. }
  exists e. split; [reflexivity|].
  assert (Hage : 0 <= 10) by lia.
  exact (refused_missions_leak demo_clock demo_hex None demo_text demo_planner 300000 demo_ops
           (demo_mission_ctx "n") demo_loop e 10 eq_refl Hage Hnew Hans He).
Defined.

(** Every task completed, the mission not yet told. *)
Definition demo_almost : list sup_op :=
  demo_ops ++ [SLife (OpComplete "m__code__1"); SLife (OpComplete "m__docs__2"); STick;
               SLife (OpComplete "m__review__3")].

(** The test of one task for [tick_completes]. *)
Definition task_done (s : Supervisor) (mid : string) (t : PlannedTask) : bool :=
  bool_decide (task_id t <> "") &&
  existsb (fun k => match dget (lm_agents (sv_life s)) k with
                    | Some a => bool_decide (ctx_task_id (agent_ctx a) = task_id t) &&
                                bool_decide (agent_state a = AgentState.COMPLETED)
                    | None => false
                    end) (elements (agents_of s mid)).

Lemma task_done_spec s mid t :
  task_done s mid t = true -> task_id t <> "" /\ exists k a, k ∈ agents_of s mid /\
    dget (lm_agents (sv_life s)) k = Some a /\ ctx_task_id (agent_ctx a) = task_id t /\
    agent_state a = AgentState.COMPLETED.
Proof.
  unfold task_done. intros [Hne%bool_decide_eq_true Hex]%andb_true_iff. split; [done|].
  apply existsb_exists in Hex as (k & Hk & Ha). apply list_elem_of_In, elem_of_elements in Hk.
  destruct (dget (lm_agents (sv_life s)) k) as [a|] eqn:Hd; [|done].
  apply andb_true_iff in Ha as [Ht%bool_decide_eq_true Hs%bool_decide_eq_true]. eauto 10.
Qed.

Definition ready_to_complete (s : Supervisor) (m : MissionInstance) : bool :=
  bool_decide (ms_state m = MissionState.RUNNING) &&
  match ms_plan m with
  | Some plan => match plan_tasks plan with [] => false | _ => true end &&
                 forallb (task_done s "m") (plan_tasks plan)
  | None => false
  end.

Lemma ready_to_complete_spec s m :
  ready_to_complete s m = true -> ms_state m = MissionState.RUNNING /\
  exists plan, ms_plan m = Some plan /\ plan_tasks plan <> [] /\
    forall t, t ∈ plan_tasks plan -> task_done s "m" t = true.
Proof.
  unfold ready_to_complete. intros [Hst%bool_decide_eq_true Hp]%andb_true_iff. split; [done|].
  destruct (ms_plan m) as [plan|]; [|done]. apply andb_true_iff in Hp as [Hne Hall].
  exists plan. split; [done|]. split; [by destruct (plan_tasks plan)|].
  rewrite forallb_forall in Hall. intros t Ht%list_elem_of_In. by apply Hall.
Qed.

Lemma tick_completes_witness :
  exists m, dget (sv_missions (demo_reached demo_almost)) "m" = Some m /\
    ms_state m = MissionState.RUNNING /\
    exists s', tick_mission demo_clock demo_hex None "m" (demo_reached demo_almost) = (Ok true, s') /\
      mstate s' "m" = Some MissionState.COMPLETED.
Proof.
  destruct (demo_lookup demo_almost "m" (ready_to_complete (demo_reached demo_almost)))
    as (m & Hm & Hr); [vm_compute; reflexivity|].
  apply ready_to_complete_spec in Hr. destruct Hr as (Hst & plan & Hp & Hne & Hall).
  exists m. split; [exact Hm|]. split; [exact Hst|].
  exact (tick_completes demo_clock demo_hex None demo_text demo_planner 300000 demo_almost "m" m plan
           eq_refl Hm Hst Hp Hne (fun t Ht => task_done_spec _ _ _ (Hall t Ht))).
Defined.

(** After [start_mission], before the first tick: [design] is ready. *)
Definition demo_started : list sup_op := [SCreate (demo_mission_ctx "m") demo_tasks; SStart "m"].

Definition holds_design (m : MissionInstance) : bool :=
  match ms_plan m with
  | Some plan => match plan_tasks plan with
                 | t :: _ => bool_decide (task_id t = "design") && bool_decide (task_deps t = ∅)
                             && bool_decide (task_cap t = "code")
                 | [] => false
                 end
  | None => false
  end.

Lemma holds_design_spec m :
  holds_design m = true -> exists plan t, ms_plan m = Some plan /\ t ∈ plan_tasks plan /\
    task_id t = "design" /\ task_deps t = ∅ /\ task_cap t = "code".
Proof.
  unfold holds_design. destruct (ms_plan m) as [plan|]; [|done].
  destruct (plan_tasks plan) as [|t ts] eqn:Hts; [done|].
  intros [[Hid%bool_decide_eq_true Hd%bool_decide_eq_true]%andb_true_iff
    Hc%bool_decide_eq_true]%andb_true_iff.
  exists plan, t. split_and!; [done| |done..]. rewrite Hts. set_solver.
Qed.

Lemma ready_task_launched_witness :
  exists m plan t gp, dget (sv_missions (demo_reached demo_started)) "m" = Some m /\
    ms_plan m = Some plan /\ t ∈ plan_tasks plan /\
    generate_plan (graph_of (demo_reached demo_started) "m") = Ok gp /\
    exists s' a, launch demo_clock demo_hex None "m" plan gp (task_id t) (demo_reached demo_started)
        = (Ok tt, s') /\
      dget (lm_agents (sv_life s')) (agent_name "m" (task_id t) (demo_hex 0)) = Some a /\
      agent_state a = AgentState.RUNNING.
Proof.
  destruct (demo_lookup demo_started "m" holds_design) as (m & Hm & Hh); [vm_compute; reflexivity|].
  destruct (holds_design_spec m Hh) as (plan & t & Hp & Ht & Hid & Hd & Hc).
  destruct (generate_plan (graph_of (demo_reached demo_started) "m")) as [gp|e] eqn:Hgp;
    [|vm_compute in Hgp; discriminate Hgp].
  exists m, plan, t, gp. split; [exact Hm|]. split; [exact Hp|]. split; [exact Ht|].
  split; [reflexivity|].
  assert (Hpend : pending (graph_of (demo_reached demo_started) "m") (task_id t)).
  { rewrite Hid. unfold pending. vm_compute. reflexivity. }
  assert (Hdeps : forall d, d ∈ task_deps t ->
    completed (graph_of (demo_reached demo_started) "m") d).
  { rewrite Hd. intros d Hin. apply not_elem_of_empty in Hin. destruct Hin. }
  assert (Hfresh : ~ (agent_name "m" (task_id t) (demo_hex 0)
    ∈ dkeys (lm_agents (sv_life (demo_reached demo_started))))).
  { vm_compute. intros Hin. apply elem_of_nil in Hin. exact Hin. }
  destruct (ready_task_launched demo_clock demo_hex None demo_text demo_planner 300000 demo_started
    "m" m plan gp t None (demo_reached demo_started) eq_refl Hm Hp Ht Hgp Hpend Hdeps eq_refl Hfresh)
    as (s' & a & Hrun & Ha & Hst & _).
  exists s', a. split; [exact Hrun|]. split; [exact Ha|exact Hst].
Defined.
