(* ===== verification/MissionGraph.v ===== *)
(** * Missions as graphs ([backend/mission/mission_models.py],
    [mission_graph.py], [dependency_resolver.py])

    The mission and its nodes, the construction and validation of the graph,
    its orders, and the resolution of the dependencies.  The nodes of a mission
    are objects known by their position in its list: two of them may have the
    same id, and a lookup by id finds the first.  Times are integers. *)
From stdpp Require Import base gmap strings list sets sorting.
From Stdlib Require Import ZArith QArith Lia.
From S2P Require Import Prelude.
From S2P Require Import Kahn.
#[local] Open Scope Z_scope.

(** ** Data *)

Module MissionStatus.
Inductive t := CREATED | VALIDATED | READY | RUNNING | PAUSED | COMPLETED | FAILED | CANCELLED.
#[global] Instance eq_dec : EqDecision t.
Proof. solve_decision. Defined.
End MissionStatus.

Module MissionPriority.
Inductive t := CRITICAL | HIGH | NORMAL | BACKGROUND.
#[global] Instance eq_dec : EqDecision t.
Proof. solve_decision. Defined.
End MissionPriority.

Module MissionType.
Inductive t := DEVELOPMENT | RESEARCH | ANALYSIS | DEPLOYMENT | MAINTENANCE | CUSTOM.
#[global] Instance eq_dec : EqDecision t.
Proof. solve_decision. Defined.
End MissionType.

Module NodeStatus.
Inductive t := PENDING | READY | RUNNING | COMPLETED | FAILED | BLOCKED | SKIPPED.
#[global] Instance eq_dec : EqDecision t.
Proof. solve_decision. Defined.
End NodeStatus.

Record MissionEdge := mkMEdge {
  me_id : string;
  me_source : string;
  me_target : string;
  me_type : string
}.

Record MissionNode := mkMNode {
  mn_id : string;
  mn_mission : string;
  mn_title : string;
  mn_description : string;
  mn_type : string;
  mn_priority : MissionPriority.t;
  mn_status : NodeStatus.t;
  mn_agent : string;
  mn_runtime : string;
  mn_profile : string;
  mn_skills : list string;
  mn_resources : pydict pyval;
  mn_estimated : Q;
  mn_depends : list string;
  mn_criteria : list string;
  mn_outputs : list string;
  mn_started : option Z;
  mn_completed : option Z;
  mn_actual : Q;
  mn_summary : string
}.

Record MissionContext := mkMContext {
  mc_project : string;
  mc_user : string;
  mc_repository : string;
  mc_branch : string;
  mc_local_path : string;
  mc_tags : list string;
  mc_metadata : pydict pyval
}.

Record Mission := mkMission {
  mi_id : string;
  mi_title : string;
  mi_description : string;
  mi_objective : string;
  mi_type : MissionType.t;
  mi_priority : MissionPriority.t;
  mi_status : MissionStatus.t;
  mi_context : MissionContext;
  mi_nodes : list MissionNode;
  mi_edges : list MissionEdge;
  mi_metadata : pydict pyval;
  mi_budget : Q;
  mi_created : Z;
  mi_updated : option Z;
  mi_started : option Z;
  mi_completed : option Z
}.

(** [node.status = st] and the other assignments to fields. *)
Definition with_node_status (st : NodeStatus.t) (n : MissionNode) : MissionNode :=
  mkMNode (mn_id n) (mn_mission n) (mn_title n) (mn_description n) (mn_type n) (mn_priority n) st
    (mn_agent n) (mn_runtime n) (mn_profile n) (mn_skills n) (mn_resources n) (mn_estimated n)
    (mn_depends n) (mn_criteria n) (mn_outputs n) (mn_started n) (mn_completed n) (mn_actual n)
    (mn_summary n).

Definition with_depends (deps : list string) (n : MissionNode) : MissionNode :=
  mkMNode (mn_id n) (mn_mission n) (mn_title n) (mn_description n) (mn_type n) (mn_priority n)
    (mn_status n) (mn_agent n) (mn_runtime n) (mn_profile n) (mn_skills n) (mn_resources n)
    (mn_estimated n) deps (mn_criteria n) (mn_outputs n) (mn_started n) (mn_completed n) (mn_actual n)
    (mn_summary n).

Definition with_mission_id (mid : string) (n : MissionNode) : MissionNode :=
  mkMNode (mn_id n) mid (mn_title n) (mn_description n) (mn_type n) (mn_priority n)
    (mn_status n) (mn_agent n) (mn_runtime n) (mn_profile n) (mn_skills n) (mn_resources n)
    (mn_estimated n) (mn_depends n) (mn_criteria n) (mn_outputs n) (mn_started n) (mn_completed n)
    (mn_actual n) (mn_summary n).

Definition with_node_completed (at_ : option Z) (n : MissionNode) : MissionNode :=
  mkMNode (mn_id n) (mn_mission n) (mn_title n) (mn_description n) (mn_type n) (mn_priority n)
    (mn_status n) (mn_agent n) (mn_runtime n) (mn_profile n) (mn_skills n) (mn_resources n)
    (mn_estimated n) (mn_depends n) (mn_criteria n) (mn_outputs n) (mn_started n) at_ (mn_actual n)
    (mn_summary n).

Definition with_nodes (ns : list MissionNode) (m : Mission) : Mission :=
  mkMission (mi_id m) (mi_title m) (mi_description m) (mi_objective m) (mi_type m) (mi_priority m)
    (mi_status m) (mi_context m) ns (mi_edges m) (mi_metadata m) (mi_budget m) (mi_created m)
    (mi_updated m) (mi_started m) (mi_completed m).

Definition with_edges (es : list MissionEdge) (m : Mission) : Mission :=
  mkMission (mi_id m) (mi_title m) (mi_description m) (mi_objective m) (mi_type m) (mi_priority m)
    (mi_status m) (mi_context m) (mi_nodes m) es (mi_metadata m) (mi_budget m) (mi_created m)
    (mi_updated m) (mi_started m) (mi_completed m).

Definition with_status (st : MissionStatus.t) (m : Mission) : Mission :=
  mkMission (mi_id m) (mi_title m) (mi_description m) (mi_objective m) (mi_type m) (mi_priority m)
    st (mi_context m) (mi_nodes m) (mi_edges m) (mi_metadata m) (mi_budget m) (mi_created m)
    (mi_updated m) (mi_started m) (mi_completed m).

Definition with_metadata (d : pydict pyval) (m : Mission) : Mission :=
  mkMission (mi_id m) (mi_title m) (mi_description m) (mi_objective m) (mi_type m) (mi_priority m)
    (mi_status m) (mi_context m) (mi_nodes m) (mi_edges m) d (mi_budget m) (mi_created m)
    (mi_updated m) (mi_started m) (mi_completed m).

Definition with_started (at_ : option Z) (m : Mission) : Mission :=
  mkMission (mi_id m) (mi_title m) (mi_description m) (mi_objective m) (mi_type m) (mi_priority m)
    (mi_status m) (mi_context m) (mi_nodes m) (mi_edges m) (mi_metadata m) (mi_budget m) (mi_created m)
    (mi_updated m) at_ (mi_completed m).

Definition with_completed (at_ : option Z) (m : Mission) : Mission :=
  mkMission (mi_id m) (mi_title m) (mi_description m) (mi_objective m) (mi_type m) (mi_priority m)
    (mi_status m) (mi_context m) (mi_nodes m) (mi_edges m) (mi_metadata m) (mi_budget m) (mi_created m)
    (mi_updated m) (mi_started m) at_.

Definition node_ids (m : Mission) : list string := map mn_id (mi_nodes m).

Definition has_status (st : NodeStatus.t) (n : MissionNode) : bool := bool_decide (mn_status n = st).

Definition count_status (st : NodeStatus.t) (m : Mission) : Z :=
  Z.of_nat (length (List.filter (has_status st) (mi_nodes m))).

Definition total_nodes (m : Mission) : Z := Z.of_nat (length (mi_nodes m)).
Definition completed_nodes (m : Mission) : Z := count_status NodeStatus.COMPLETED m.
Definition failed_nodes (m : Mission) : Z := count_status NodeStatus.FAILED m.

Definition progress_pct (m : Mission) : Q :=
  match mi_nodes m with
  | [] => 0%Q
  | _ => tenths (inject_Z (completed_nodes m) / inject_Z (total_nodes m) * 100)
  end.

(** ** MissionGraph *)

(** [_find_node]: the position of the first node with this id. *)
Fixpoint find_index (id : string) (ns : list MissionNode) : option nat :=
  match ns with
  | [] => None
  | n :: ns' => if decide (mn_id n = id) then Some 0%nat else S <$> find_index id ns'
  end.

Definition find_node (m : Mission) (id : string) : option nat := find_index id (mi_nodes m).

(** An assignment to the node at position [i]. *)
Definition at_node (i : nat) (f : MissionNode -> MissionNode) (m : Mission) : Mission :=
  with_nodes (alter f i (mi_nodes m)) m.

Definition epair (e : MissionEdge) : string * string := (me_source e, me_target e).
Definition epairs (m : Mission) : edges := map epair (mi_edges m).

(** [MissionGraph.build_graph] *)
Definition graph_build (ns : list MissionNode) (es : list MissionEdge) (m : Mission) : Mission :=
  with_edges es
    (with_nodes
       (map (fun n => with_depends
               (map me_source (List.filter (fun e => bool_decide (me_target e = mn_id n)) es)) n) ns) m).

Definition mission_add_node (n : MissionNode) (m : Mission) : Mission :=
  with_nodes (mi_nodes m ++ [n]) m.

(** [add_edge]; the id of the edge is drawn by [uuid4]. *)
Definition mission_add_edge (eid source target : string) (m : Mission)
    : option MissionEdge * Mission :=
  match find_node m source, find_node m target with
  | Some _, Some t =>
      let e := mkMEdge eid source target "depends_on" in
      (Some e, at_node t (fun n => with_depends (mn_depends n ++ [source]) n)
                 (with_edges (mi_edges m ++ [e]) m))
  | _, _ => (None, m)
  end.

(** [adjacency]: a [defaultdict(list)]. *)
Definition adjacency (es : edges) : pydict (list string) :=
  fold_left (fun d e => dset d e.1 (default [] (dget d e.1) ++ [e.2])) es [].

(** [in_degree[v] += 1] of a [defaultdict(int)]. *)
Definition count_in (d : pydict Z) (v : string) : pydict Z := dset d v (default 0 (dget d v) + 1).

(** [in_degree.setdefault(nid, 0)] for each node. *)
Definition degree_defaults (ids : list string) (d : pydict Z) : pydict Z :=
  fold_left (fun d n => if dmem d n then d else dset d n 0) ids d.

(** The loop of Kahn's algorithm from the two dictionaries: the nodes in the
    order they are taken. *)
Definition kahn_order (adj : pydict (list string)) (deg : pydict Z) : res (list string) :=
  r <-? kahn_loop (fun u order => order ++ [u]) (fun _ _ a => Ok a)
          (fun u => Ok (default [] (dget adj u))) (length deg) deg (zero_degree deg) [] ;;
  Ok r.2.

(** The degrees of [_detect_cycles], filled from the adjacency. *)
Definition cycle_degrees (m : Mission) : pydict Z :=
  degree_defaults (node_ids m)
    (fold_left count_in (flat_map (fun u => default [] (dget (adjacency (epairs m)) u))
                           (dkeys (adjacency (epairs m)))) []).

(** [_detect_cycles] *)
Definition mission_detect_cycles (m : Mission) : res bool :=
  order <-? kahn_order (adjacency (epairs m)) (cycle_degrees m) ;;
  Ok (negb (bool_decide (length order = length (mi_nodes m)))).

Definition edge_issues (ids : list string) (e : MissionEdge) : list message :=
  (if decide (me_source e ∈ ids) then [] else [Msg "Edge source '{}' not in nodes" [me_source e]]) ++
  (if decide (me_target e ∈ ids) then [] else [Msg "Edge target '{}' not in nodes" [me_target e]]).

(** [validate_graph]: the issues, and the mission, VALIDATED without any. *)
Definition mission_validate (m : Mission) : res (list message * Mission) :=
  cyclic <-? mission_detect_cycles m ;;
  let issues := flat_map (edge_issues (node_ids m)) (mi_edges m) ++
                (if cyclic : bool then [Msg "Graph contains cycles — must be a DAG" []] else []) in
  Ok (issues, match issues with [] => with_status MissionStatus.VALIDATED m | _ => m end).

(** [topological_sort]: the order found, whatever the cycles. *)
Definition mission_topological_sort (m : Mission) : res (list string) :=
  kahn_order (adjacency (epairs m))
    (degree_defaults (node_ids m) (fold_left count_in (map snd (epairs m)) [])).

(** ** DependencyResolver *)

(** [_dependencies_satisfied] *)
Definition dep_satisfied (m : Mission) (dep : string) : bool :=
  match find_node m dep with
  | Some i => match mi_nodes m !! i with
              | Some d => has_status NodeStatus.COMPLETED d
              | None => false
              end
  | None => false
  end.

Definition dependencies_satisfied (m : Mission) (n : MissionNode) : bool :=
  forallb (dep_satisfied m) (mn_depends n).

(** The statuses [get_ready_nodes] skips. *)
Definition not_startable (n : MissionNode) : bool :=
  bool_decide (mn_status n ∈
    [NodeStatus.COMPLETED; NodeStatus.FAILED; NodeStatus.RUNNING; NodeStatus.BLOCKED]).

Definition is_ready (m : Mission) (n : MissionNode) : bool :=
  negb (not_startable n) && dependencies_satisfied m n.

(** The positions and nodes of the mission that satisfy [P]. *)
Definition positions (P : MissionNode -> bool) (m : Mission) : list (nat * MissionNode) :=
  List.filter (fun p => P p.2) (imap pair (mi_nodes m)).

(** [get_ready_nodes] *)
Definition get_ready_nodes (m : Mission) : list (nat * MissionNode) := positions (is_ready m) m.

(** [get_blocked_nodes] *)
Definition is_blocked (m : Mission) (n : MissionNode) : bool :=
  negb (bool_decide (mn_status n ∈ [NodeStatus.COMPLETED; NodeStatus.FAILED; NodeStatus.BLOCKED])) &&
  negb (dependencies_satisfied m n).

Definition get_blocked_nodes (m : Mission) : list (nat * MissionNode) := positions (is_blocked m) m.

(** [mark_completed], at time [now]. *)
Definition mark_completed (now : Z) (id : string) (m : Mission) : bool * Mission :=
  match find_node m id with
  | None => (false, m)
  | Some i => (true, at_node i (fun n => with_node_completed (Some now)
                                         (with_node_status NodeStatus.COMPLETED n)) m)
  end.

(** [_get_dependents]: the positions of the direct dependents. *)
Definition get_dependents (m : Mission) (id : string) : list nat :=
  omap (find_node m) (map me_target (List.filter (fun e => bool_decide (me_source e = id)) (mi_edges m))).

Definition block_if_pending (n : MissionNode) : MissionNode :=
  if has_status NodeStatus.PENDING n then with_node_status NodeStatus.BLOCKED n else n.

(** [mark_failed] *)
Definition mark_failed (id : string) (m : Mission) : bool * Mission :=
  match find_node m id with
  | None => (false, m)
  | Some i =>
      let m1 := at_node i (with_node_status NodeStatus.FAILED) m in
      (true, fold_left (fun m j => at_node j block_if_pending m) (get_dependents m1 id) m1)
  end.

Record MissionProgress := mkProgress {
  mp_total : Z;
  mp_completed : Z;
  mp_failed : Z;
  mp_ready : Z;
  mp_running : Z;
  mp_blocked : Z;
  mp_skipped : Z;
  mp_pending : Z;
  mp_pct : Q
}.

(** [get_progress] *)
Definition get_progress (m : Mission) : MissionProgress :=
  let total := total_nodes m in
  let completed := completed_nodes m in
  let failed := failed_nodes m in
  let running := count_status NodeStatus.RUNNING m in
  let skipped := count_status NodeStatus.SKIPPED m in
  mkProgress total completed failed (Z.of_nat (length (get_ready_nodes m))) running
    (Z.of_nat (length (get_blocked_nodes m))) skipped
    (total - completed - failed - running - skipped)
    (tenths (inject_Z completed / inject_Z (Z.max total 1) * 100)).

(** ** [get_parallel_groups]

    One level of the breadth-first walk: the degrees left and the next level,
    in the order the nodes reach degree 0. *)
Definition level_step (adj : pydict (list string)) (level : list string) (deg : pydict Z)
    : res (pydict Z * list string) :=
  res_fold (fun (st : pydict Z * list string) v =>
              d <-? dlookup st.1 v ;;
              Ok (dset st.1 v (d - 1), if d - 1 =? 0 then st.2 ++ [v] else st.2))
    (flat_map (fun u => default [] (dget adj u)) level) (deg, []).

Fixpoint group_loop (fuel : nat) (adj : pydict (list string)) (deg : pydict Z) (current : list string)
    (groups : list (list string)) : res (list (list string)) :=
  match current with
  | [] => Ok groups
  | _ =>
      match fuel with
      | O => Ok groups
      | S fuel' =>
          let level := sort_by String.le current in
          st <-? level_step adj level deg ;;
          group_loop fuel' adj st.1 st.2 (groups ++ [level])
      end
  end.

(** The edges are added with [adjacency[source]] and [in_degree[target]], which
    raise [KeyError] on an unknown id. *)
Definition group_add_edge (st : pydict (list string) * pydict Z) (e : string * string)
    : res (pydict (list string) * pydict Z) :=
  ts <-? dlookup st.1 e.1 ;;
  d <-? dlookup st.2 e.2 ;;
  Ok (dset st.1 e.1 (ts ++ [e.2]), dset st.2 e.2 (d + 1)).

Definition get_parallel_groups (m : Mission) : res (list (list string)) :=
  let adj0 := fold_left (fun d n => dset d n []) (node_ids m) [] in
  let deg0 := fold_left (fun d n => dset d n 0) (node_ids m) [] in
  st <-? res_fold group_add_edge (epairs m) (adj0, deg0) ;;
  group_loop (S (length (node_ids m))) st.1 st.2 (zero_degree st.2) [].

(** * Properties *)

(** ** The dictionaries of Kahn's algorithm *)

Lemma dget_count_in vs d n :
  dget (fold_left count_in vs d) n
  = if decide (n ∈ vs) then Some (default 0 (dget d n) + occ n vs) else dget d n.
Proof.
  revert d. induction vs as [|v vs IH]; intros d; [by rewrite decide_False by set_solver|].
  cbn [fold_left occ]. rewrite IH. unfold count_in. rewrite dget_dset.
  pose proof (occ_pos n vs). pose proof (occ_nonneg n vs).
  destruct (decide (v = n)) as [->|Hne].
  - rewrite (decide_True (P := n ∈ n :: vs)) by set_solver. case_decide; f_equal; cbn; [lia|].
    assert (~ 0 < occ n vs) by naive_solver. lia.
  - case_decide; case_decide; try set_solver; f_equal; lia.
Qed.

Lemma wf_count_in vs d : dict_wf d -> dict_wf (fold_left count_in vs d).
Proof.
  revert d. induction vs as [|v vs IH]; intros d Hd; [done|]. cbn. apply IH. by apply dict_wf_dset.
Qed.

Lemma dget_degree_defaults ids d n :
  dget (degree_defaults ids d) n
  = match dget d n with Some x => Some x | None => if decide (n ∈ ids) then Some 0 else None end.
Proof.
  unfold degree_defaults. revert d. induction ids as [|i ids IH]; intros d; cbn.
  { rewrite decide_False by set_solver. by destruct (dget d n). }
  rewrite IH. destruct (dmem d i) eqn:Hm.
  - apply dmem_true in Hm. destruct (dget d n) eqn:Hn; [done|].
    assert (n <> i) by (intros ->; apply dget_is_Some in Hm; rewrite Hn in Hm; by destruct Hm).
    repeat case_decide; set_solver.
  - rewrite dget_dset. destruct (decide (i = n)) as [->|Hne].
    + assert (Hn : dget d n = None).
      { apply eq_None_not_Some. intros Hs%dget_is_Some%dmem_true. congruence. }
      rewrite Hn, decide_True by set_solver. done.
    + destruct (dget d n); [done|]. repeat case_decide; set_solver.
Qed.

Lemma wf_degree_defaults ids d : dict_wf d -> dict_wf (degree_defaults ids d).
Proof.
  unfold degree_defaults. revert d. induction ids as [|i ids IH]; intros d Hd; cbn; [done|].
  apply IH. destruct (dmem d i); [done|]. by apply dict_wf_dset.
Qed.

Lemma adjacency_snoc es e :
  adjacency (es ++ [e]) = dset (adjacency es) e.1 (default [] (dget (adjacency es) e.1) ++ [e.2]).
Proof. unfold adjacency. by rewrite fold_left_app. Qed.

Lemma adjacency_get es n : default [] (dget (adjacency es) n) = succs es n.
Proof.
  induction es as [|e es IH] using rev_ind; [done|].
  rewrite adjacency_snoc, dget_dset, succs_snoc. case_decide; [|done]. subst. cbn. by rewrite IH.
Qed.

Lemma adjacency_wf es : dict_wf (adjacency es).
Proof.
  induction es as [|e es IH] using rev_ind; [constructor|]. rewrite adjacency_snoc. by apply dict_wf_dset.
Qed.

Lemma flat_map_dset (d : pydict (list string)) k x :
  flat_map snd (dset d k (default [] (dget d k) ++ [x])) ≡ₚ flat_map snd d ++ [x].
Proof.
  induction d as [|[k0 v] d IH]; cbn; [done|]. case_decide; cbn.
  - rewrite <- !app_assoc. apply Permutation_app_head. apply Permutation_app_comm.
  - by rewrite IH, app_assoc.
Qed.

Lemma flat_map_keys (d : pydict (list string)) :
  dict_wf d -> flat_map (fun u => default [] (dget d u)) (dkeys d) = flat_map snd d.
Proof.
  unfold dict_wf. induction d as [|[k v] d IH]; [done|].
  change (dkeys ((k, v) :: d)) with (k :: dkeys d). intros [Hk Hd]%NoDup_cons.
  cbn [flat_map]. f_equal; [cbn; by rewrite decide_True|]. rewrite <- IH by done.
  rewrite !flat_map_concat_map. f_equal. apply map_ext_in. intros u Hu%list_elem_of_In. cbn.
  rewrite decide_False; [done|]. by intros ->.
Qed.

Lemma adjacency_targets es :
  flat_map (fun u => default [] (dget (adjacency es) u)) (dkeys (adjacency es)) ≡ₚ map snd es.
Proof.
  rewrite flat_map_keys by apply adjacency_wf.
  induction es as [|e es IH] using rev_ind; [done|].
  rewrite adjacency_snoc, flat_map_dset, IH, map_app. done.
Qed.

Lemma occ_perm n l l' : l ≡ₚ l' -> occ n l = occ n l'.
Proof. induction 1; cbn; lia. Qed.

Lemma occ_targets E t : occ t (map snd E) = indeg E [] t.
Proof.
  induction E as [|e E IH]; cbn; [done|]. rewrite IH. f_equal.
  repeat case_decide; [done| | |done]; naive_solver set_solver.
Qed.

(** The degrees of either routine: those of the edges, for the nodes and the
    targets. *)
Definition degree_keys (m : Mission) : list string := map snd (epairs m) ++ node_ids m.

Lemma degrees_spec m targets :
  targets ≡ₚ map snd (epairs m) ->
  let deg := degree_defaults (node_ids m) (fold_left count_in targets []) in
  dict_wf deg /\
  forall n, dget deg n = if decide (n ∈ degree_keys m) then Some (indeg (epairs m) [] n) else None.
Proof.
  intros Hp deg. split; [apply wf_degree_defaults, wf_count_in; constructor|].
  intros n. unfold deg, degree_keys. rewrite dget_degree_defaults, dget_count_in.
  cbn [dget default]. rewrite (occ_perm _ _ _ Hp), occ_targets.
  assert (Hin : n ∈ targets <-> n ∈ map snd (epairs m)) by (by rewrite Hp).
  assert (Hk : n ∈ map snd (epairs m) ++ node_ids m <-> n ∈ targets \/ n ∈ node_ids m)
    by (by rewrite elem_of_app, Hin).
  destruct (decide (n ∈ targets)) as [Ht|Ht]; [rewrite decide_True by tauto; f_equal; lia|].
  destruct (decide (n ∈ node_ids m)); [rewrite decide_True by tauto|by rewrite decide_False by tauto].
  f_equal. rewrite <- occ_targets. pose proof (occ_pos n (map snd (epairs m))).
  pose proof (occ_nonneg n (map snd (epairs m))). assert (~ 0 < occ n (map snd (epairs m))) by tauto.
  lia.
Qed.

(** ** The order *)

(** What either walk takes: distinct nodes, each after its predecessors, and
    every node whose predecessors have all been taken. *)
Record walk (keys : list string) (E : edges) (order : list string) : Prop := Walk {
  wk_nodup : NoDup order;
  wk_keys : forall n, n ∈ order -> n ∈ keys;
  wk_topo : topo E order;
  wk_max : forall n, n ∈ keys -> (forall s, (s, n) ∈ E -> s ∈ order) -> n ∈ order
}.

Lemma length_dkeys {V} (d : pydict V) : length (dkeys d) = length d.
Proof. apply length_map. Qed.

Lemma kahn_order_spec m targets :
  targets ≡ₚ map snd (epairs m) ->
  exists order,
    kahn_order (adjacency (epairs m)) (degree_defaults (node_ids m) (fold_left count_in targets []))
      = Ok order /\ walk (degree_keys m) (epairs m) order.
Proof.
  intros Hp. destruct (degrees_spec m targets Hp) as [Hwf Hdeg].
  set (deg := degree_defaults (node_ids m) (fold_left count_in targets [])) in *.
  assert (Hkeys : forall n, n ∈ dkeys deg <-> n ∈ degree_keys m).
  { intros n. rewrite <- dget_is_Some, Hdeg. case_decide; split; [done..|by intros []|done]. }
  assert (Hdeg' : forall n, dget deg n = if decide (n ∈ dkeys deg) then Some (indeg (epairs m) [] n) else None).
  { intros n. rewrite Hdeg. pose proof (Hkeys n). repeat case_decide; tauto. }
  destruct (kahn_loop_spec (fun u order => order ++ [u]) (fun _ _ a => Ok a)
    (fun u => Ok (default [] (dget (adjacency (epairs m)) u))) (dkeys deg) (epairs m))
    with (fuel := length deg) (out := @nil string) (q := zero_degree deg) (deg := deg) (a := @nil string)
    as (order & deg' & Hinv & _ & Hrun).
  - intros s t He _. apply Hkeys. unfold degree_keys. apply elem_of_app. left.
    apply list_elem_of_fmap. by exists (s, t).
  - intros n _. by rewrite adjacency_get.
  - by apply kahn_inv_init.
  - rewrite length_dkeys. cbn. lia.
  - rewrite replay_no_hook, fold_snoc in Hrun. unfold kahn_order. rewrite Hrun. cbn.
    exists order. split; [done|]. destruct Hinv as [Hnd Hn _ Hready Ht]. rewrite app_nil_r in *.
    split; [done| |done|].
    + intros n Hin. by apply Hkeys, Hn.
    + intros n Hin%Hkeys Hs. by apply Hready; [|apply indeg_zero].
Qed.

Lemma walk_complete m order :
  closed (node_ids m) (epairs m) -> walk (degree_keys m) (epairs m) order ->
  (forall n, n ∈ node_ids m -> n ∈ order) <-> acyclic (epairs m).
Proof.
  intros Hc [Hnd _ Htopo Hmax]. split.
  - intros Hall. by apply (topo_acyclic (node_ids m) _ order).
  - intros Hac. apply (acyclic_ready_all (node_ids m) (epairs m)); [done..|].
    intros n Hn. apply Hmax. unfold degree_keys. set_solver.
Qed.

Lemma walk_keys m order n :
  closed (node_ids m) (epairs m) -> walk (degree_keys m) (epairs m) order -> n ∈ order -> n ∈ node_ids m.
Proof.
  intros Hc [_ Hk _ _] Hn. specialize (Hk n Hn). unfold degree_keys in Hk.
  apply elem_of_app in Hk as [Hk|Hk]; [|done]. apply list_elem_of_fmap in Hk as ([s t] & -> & He).
  exact (proj2 (Hc s t He)).
Qed.

(** ** Validation *)

Lemma edge_issues_nil ids es :
  flat_map (edge_issues ids) es = [] <-> closed ids (map epair es).
Proof.
  induction es as [|e es IH]; cbn [flat_map map].
  - split; [|done]. intros _ s t He. by apply elem_of_nil in He.
  - unfold edge_issues at 1. split.
    + intros [[Hs Ht]%app_nil Hes]%app_nil. apply IH in Hes.
      intros s t [Heq|He]%elem_of_cons; [|by apply Hes]. injection Heq as -> ->.
      by repeat case_decide.
    + intros Hc. destruct (Hc (me_source e) (me_target e)) as [Hs Ht]; [set_solver|].
      rewrite !decide_True by done. cbn. apply IH. intros s t He. apply Hc. set_solver.
Qed.

Lemma detect_cycles_answers m :
  exists b, mission_detect_cycles m = Ok b /\
    (closed (node_ids m) (epairs m) -> b = false <-> NoDup (node_ids m) /\ acyclic (epairs m)).
Proof.
  unfold mission_detect_cycles, cycle_degrees.
  destruct (kahn_order_spec m _ (adjacency_targets (epairs m))) as (order & -> & Hw). cbn.
  eexists. split; [done|]. intros Hc. rewrite negb_false_iff, bool_decide_eq_true.
  assert (Hlen : length (mi_nodes m) = length (node_ids m)) by (unfold node_ids; by rewrite length_map).
  rewrite Hlen, <- (walk_complete m order Hc Hw). pose proof (walk_keys m order) as Hk.
  pose proof (wk_nodup _ _ _ Hw) as Hnd. split.
  - intros Hl. assert (Hp : order ≡ₚ node_ids m).
    { apply submseteq_length_Permutation; [|lia]. apply NoDup_submseteq; [done|].
      intros n Hn. by apply Hk. }
    split; [by rewrite <- Hp|]. intros n Hn. by rewrite Hp.
  - intros [Hndi Hall]. apply Permutation_length, NoDup_Permutation; [done..|].
    intros n. split; [by apply Hk|by apply Hall].
Qed.

Lemma mission_validate_spec m :
  exists issues m', mission_validate m = Ok (issues, m') /\
    (issues = [] <-> NoDup (node_ids m) /\ closed (node_ids m) (epairs m) /\ acyclic (epairs m)) /\
    ((issues = [] /\ m' = with_status MissionStatus.VALIDATED m) \/ (issues <> [] /\ m' = m)).
Proof.
  destruct (detect_cycles_answers m) as (b & Hb & Hiff). unfold mission_validate. rewrite Hb. cbn [res_bind].
  eexists _, _. split; [reflexivity|]. split; [|by destruct (_ ++ _); [left|right]].
  split.
  - intros [Hrefs Hcyc]%app_nil. apply edge_issues_nil in Hrefs. fold (epairs m) in Hrefs.
    destruct b; [done|]. destruct (proj1 (Hiff Hrefs)); done.
  - intros (Hnd & Hc & Hac). rewrite (proj2 (edge_issues_nil _ _) Hc).
    by rewrite (proj2 (Hiff Hc)).
Qed.

(** validation.  A mission has no issue exactly when its node ids are
    distinct, every edge joins nodes of the mission and there is no cycle; it
    then becomes VALIDATED, and otherwise nothing changes. *)
Theorem mission_validate_exact m :
  exists issues m', mission_validate m = Ok (issues, m') /\
    (issues = [] <-> NoDup (node_ids m) /\ closed (node_ids m) (epairs m) /\ acyclic (epairs m)) /\
    ((issues = [] /\ m' = with_status MissionStatus.VALIDATED m) \/ (issues <> [] /\ m' = m)).
Proof. exact (mission_validate_spec m). Qed.

(** The order of any mission: distinct ids, each after its predecessors, and
    nothing left out whose predecessors are all in it.  When every edge joins
    nodes of the mission, the order is complete exactly without cycles. *)
Theorem mission_order_exact m :
  exists order, mission_topological_sort m = Ok order /\
    NoDup order /\ topo (epairs m) order /\
    (forall n, n ∈ node_ids m -> (forall s, (s, n) ∈ epairs m -> s ∈ order) -> n ∈ order) /\
    (closed (node_ids m) (epairs m) ->
       (forall n, n ∈ order -> n ∈ node_ids m) /\
       ((forall n, n ∈ node_ids m -> n ∈ order) <-> acyclic (epairs m))).
Proof.
  destruct (kahn_order_spec m (map snd (epairs m))) as (order & Hrun & Hw); [done|].
  exists order. split; [exact Hrun|]. split; [apply Hw|]. split; [apply Hw|]. split.
  - intros n Hn. apply (wk_max _ _ _ Hw). unfold degree_keys. set_solver.
  - intros Hc. split; [intros n; by apply (walk_keys m order)|by apply walk_complete].
Qed.

(** ** The parallel groups *)

Lemma group_level_fold ns deg acc :
  relaxable ns deg ->
  res_fold (fun (st : pydict Z * list string) v =>
              d <-? dlookup st.1 v ;; Ok (dset st.1 v (d - 1), if d - 1 =? 0 then st.2 ++ [v] else st.2)) ns (deg, acc)
  = Ok ((relax_degrees ns deg).1, acc ++ (relax_degrees ns deg).2).
Proof.
  revert deg acc. induction ns as [|x ns IH]; intros deg acc Hr; cbn; [by rewrite app_nil_r|].
  apply relaxable_cons in Hr as (d & Hx & _ & Hr). rewrite Hx. unfold dlookup. rewrite Hx. cbn.
  rewrite IH by done. destruct (d - 1 =? 0); cbn; by rewrite <- ?app_assoc.
Qed.

Section levels.
Context (adj : pydict (list string)) (nodes : list string) (E : edges).
Hypothesis Hclosed : out_closed nodes E.
Hypothesis Hadj : forall n, n ∈ nodes -> dget adj n = Some (succs E n).

(** A level taken at once: the next one holds nodes with a predecessor in it. *)
Lemma level_run level out q deg acc :
  kahn_inv nodes E out (level ++ q) deg ->
  exists deg' new,
    res_fold (fun (st : pydict Z * list string) v =>
                d <-? dlookup st.1 v ;; Ok (dset st.1 v (d - 1), if d - 1 =? 0 then st.2 ++ [v] else st.2))
      (flat_map (fun u => default [] (dget adj u)) level) (deg, acc) = Ok (deg', acc ++ new) /\
    kahn_inv nodes E (out ++ level) (q ++ new) deg' /\
    forall n, n ∈ new -> exists s, s ∈ level /\ (s, n) ∈ E.
Proof.
  revert out q deg acc. induction level as [|u level IH]; intros out q deg acc Hinv.
  - exists deg, []. rewrite !app_nil_r. split_and!; [done..|]. intros n Hn. by apply elem_of_nil in Hn.
  - pose proof (kahn_inv_relaxable _ _ _ _ _ _ Hclosed Hinv) as Hr.
    pose proof (kahn_inv_step _ _ _ _ _ _ Hclosed Hinv) as Hinv'. rewrite <- app_assoc in Hinv'.
    assert (Hu : u ∈ nodes) by (apply (ki_nodes _ _ _ _ _ Hinv); set_solver).
    destruct (IH _ _ _ (acc ++ (relax_degrees (succs E u) deg).2) Hinv') as (deg' & new & Hrun & Hi & Hnew).
    exists deg', ((relax_degrees (succs E u) deg).2 ++ new). split_and!.
    + cbn [flat_map]. rewrite Hadj by done. change (default [] (Some (succs E u))) with (succs E u).
      rewrite res_fold_app. rewrite group_level_fold by done. cbn [res_bind]. rewrite Hrun. by rewrite <- app_assoc.
    + by rewrite <- !app_assoc in Hi.
    + intros n [Hn|Hn]%elem_of_app.
      * exists u. split; [set_solver|]. apply elem_succs. by apply (relax_degrees_zero _ _ _ Hr) in Hn as [? _].
      * destruct (Hnew n Hn) as (s & Hs & He). exists s. split; [set_solver|done].
Qed.

Lemma group_loop_spec fuel gs q deg :
  layered E gs -> kahn_inv nodes E (concat gs) q deg -> (length nodes < length (concat gs) + fuel)%nat ->
  (forall n, n ∈ q -> gs = [] \/ exists g' s, last gs = Some g' /\ s ∈ g' /\ (s, n) ∈ E) ->
  exists gs' deg', group_loop fuel adj deg q gs = Ok gs' /\ layered E gs' /\ kahn_inv nodes E (concat gs') [] deg'.
Proof.
  revert gs q deg. induction fuel as [|fuel IH]; intros gs q deg Hl Hinv Hfuel Hlast.
  - destruct Hinv as [Hnd Hn _ _ _]. apply NoDup_subset_length in Hn; [|done]. rewrite length_app in Hn. lia.
  - destruct q as [|u q]; [by exists gs, deg|]. cbn [group_loop]. set (level := sort_by String.le (u :: q)).
    assert (Hp : level ≡ₚ u :: q) by apply sort_by_perm.
    assert (Hinv1 : kahn_inv nodes E (concat gs) (level ++ []) deg)
      by (rewrite app_nil_r; by eapply kahn_inv_queue).
    destruct (level_run level _ [] deg [] Hinv1) as (deg' & new & Hrun & Hi & Hnew).
    unfold level_step. rewrite Hrun. cbn [res_bind app fst snd].
    assert (Hcc : concat (gs ++ [level]) = concat gs ++ level) by (by rewrite concat_app; cbn; rewrite app_nil_r).
    apply (IH (gs ++ [level]) new deg').
    + apply layered_snoc; [done| |apply sort_by_sorted; apply _| |].
      * intros Hnil. rewrite Hnil in Hp. by apply Permutation_nil in Hp.
      * intros n s Hn He. rewrite Hp in Hn.
        apply (proj1 (indeg_zero E (concat gs) n)); [|done].
        apply (ki_ready _ _ _ _ _ Hinv); [apply (ki_nodes _ _ _ _ _ Hinv)|]; set_solver.
      * intros n Hn. apply Hlast. by rewrite <- Hp.
    + by rewrite Hcc.
    + rewrite Hcc, length_app, (Permutation_length Hp). cbn. lia.
    + intros n Hn. right. destruct (Hnew n Hn) as (s & Hs & He). exists level, s. by rewrite last_snoc.
Qed.
End levels.

Lemma group_add_build ids es :
  closed ids es -> res_fold group_add_edge es (dinit ids [], dinit ids 0) = Ok (kahn_build ids es).
Proof.
  unfold kahn_build. induction es as [|e es IH] using rev_ind; intros Hc; [done|].
  assert (Hc' : closed ids es) by (intros s t He; apply Hc; set_solver).
  rewrite res_fold_app, (IH Hc'), fold_left_app. cbn [res_bind res_fold fold_left].
  pose proof (kahn_build_spec ids es) as [Ha Hd]. unfold kahn_build in Ha, Hd.
  destruct (fold_left kahn_add_edge es _) as [adj deg]. cbn [fst snd] in *. destruct e as [s t].
  destruct (Hc s t ltac:(set_solver)) as [Hs Ht]. unfold group_add_edge, kahn_add_edge, dlookup. cbn [fst snd].
  rewrite Ha, Hd, !decide_True by done. done.
Qed.

(** The parallel groups of a valid mission: every node is in one group; each
    group is sorted; the predecessors of a node are in earlier groups, and one
    of them in the group just before. *)
Theorem parallel_groups_exact m :
  NoDup (node_ids m) -> closed (node_ids m) (epairs m) -> acyclic (epairs m) ->
  exists gs, get_parallel_groups m = Ok gs /\ concat gs ≡ₚ node_ids m /\ layered (epairs m) gs.
Proof.
  intros Hnd Hc Hac. unfold get_parallel_groups. rewrite !dinit_fold, group_add_build by done. cbn [res_bind].
  set (E := epairs m) in *. set (ids := node_ids m) in *.
  pose proof (kahn_build_spec ids E) as [Ha Hd]. rewrite (eff_edges_all ids E Hc) in Ha, Hd.
  assert (Hwf : dict_wf (kahn_build ids E).2) by (unfold dict_wf; by rewrite dkeys_kahn_build).
  destruct (group_loop_spec (kahn_build ids E).1 ids E) with (fuel := S (length ids)) (gs := @nil (list string))
    (q := zero_degree (kahn_build ids E).2) (deg := (kahn_build ids E).2) as (gs & deg' & Hrun & Hl & Hinv).
  - by apply closed_out.
  - intros n Hn. by rewrite Ha, decide_True.
  - split; intros; by rewrite ?lookup_nil in *.
  - by apply kahn_inv_init.
  - cbn. lia.
  - intros n _. by left.
  - exists gs. split; [exact Hrun|]. split; [|done].
    pose proof (proj2 (kahn_inv_acyclic _ _ _ _ Hnd Hc Hinv) Hac) as Hlen.
    destruct Hinv as [Hnd' Hn _ _ _]. rewrite app_nil_r in *.
    apply submseteq_length_Permutation; [by apply NoDup_submseteq|lia].
Qed.

(** An edge of an unknown node makes it raise [KeyError]. *)
Lemma parallel_groups_raises m :
  NoDup (node_ids m) -> ~ closed (node_ids m) (epairs m) ->
  exists id, (id ∉ node_ids m) /\ get_parallel_groups m = Err (Exn KeyError [Msg "{}" [id]]).
Proof.
  intros Hnd Hc. unfold get_parallel_groups. rewrite !dinit_fold by done.
  assert (Hfirst : exists es1 e es2, epairs m = es1 ++ e :: es2 /\ closed (node_ids m) es1 /\
    ~ (e.1 ∈ node_ids m /\ e.2 ∈ node_ids m)).
  { induction (epairs m) as [|e es IH]; [destruct Hc; by intros s t ?%elem_of_nil|].
    destruct (decide (e.1 ∈ node_ids m /\ e.2 ∈ node_ids m)) as [He|He]; [|exists [], e, es; split_and!; [done|by intros s t ?%elem_of_nil|done]].
    destruct IH as (es1 & e' & es2 & -> & Hc1 & He').
    - intros Hcl. apply Hc. intros s t [<-|Hin]%elem_of_cons; [done|by apply Hcl].
    - exists (e :: es1), e', es2. split_and!; [done| |done].
      intros s t [<-|Hin]%elem_of_cons; [done|by apply Hc1]. }
  destruct Hfirst as (es1 & [s t] & es2 & -> & Hc1 & He).
  rewrite res_fold_app, group_add_build by done.
  cbn [res_bind res_fold]. unfold group_add_edge, dlookup.
  pose proof (kahn_build_spec (node_ids m) es1) as [Ha Hd]. rewrite Ha, Hd. cbn [fst snd] in *.
  destruct (decide (s ∈ node_ids m)); [|by exists s].
  destruct (decide (t ∈ node_ids m)); [tauto|by exists t].
Qed.

(** ** Nodes and their positions *)

Lemma find_index_Some id ns i :
  find_index id ns = Some i ->
  exists n, ns !! i = Some n /\ mn_id n = id /\
    forall j n', (j < i)%nat -> ns !! j = Some n' -> mn_id n' <> id.
Proof.
  revert i. induction ns as [|n ns IH]; intros i; cbn; [done|]. case_decide as Hid.
  - intros [= <-]. exists n. split_and!; [done..|]. intros j n' Hj. lia.
  - intros (j & Hj & ->)%fmap_Some. destruct (IH j Hj) as (n' & Hn' & Hid' & Hmin).
    exists n'. split_and!; [done..|]. intros [|k] n'' Hk Hn''; [by simplify_eq/=|].
    apply (Hmin k); [lia|done].
Qed.

Lemma find_index_None id ns : find_index id ns = None <-> id ∉ map mn_id ns.
Proof.
  induction ns as [|n ns IH]; cbn; [set_solver|]. case_decide; [set_solver|].
  rewrite fmap_None, IH. set_solver.
Qed.

(** With distinct ids the lookup finds the node itself. *)
Lemma find_index_unique ns i n :
  NoDup (map mn_id ns) -> ns !! i = Some n -> find_index (mn_id n) ns = Some i.
Proof.
  intros Hnd Hi. destruct (find_index (mn_id n) ns) as [j|] eqn:Hf.
  - destruct (find_index_Some _ _ _ Hf) as (n' & Hj & Hid & _). f_equal.
    eapply NoDup_lookup; [exact Hnd| |].
    + rewrite list_lookup_fmap, Hj. cbn. by rewrite Hid.
    + by rewrite list_lookup_fmap, Hi.
  - apply find_index_None in Hf. exfalso. apply Hf. apply list_elem_of_fmap. exists n.
    split; [done|]. by eapply list_elem_of_lookup_2.
Qed.

Lemma elem_positions P m i n :
  (i, n) ∈ positions P m <-> mi_nodes m !! i = Some n /\ P n = true.
Proof.
  unfold positions. rewrite list_elem_of_In, filter_In, <- list_elem_of_In. cbn. f_equiv.
  rewrite elem_of_lookup_imap. naive_solver.
Qed.

Lemma positions_NoDup P m : NoDup (positions P m).*1.
Proof.
  unfold positions. eapply sublist_NoDup.
  2:{ apply fmap_sublist. instantiate (1 := imap pair (mi_nodes m)).
      induction (imap pair (mi_nodes m)) as [|x l IH]; cbn; [constructor|].
      destruct (P x.2); [by apply sublist_skip|by apply sublist_cons]. }
  assert (Hfst : (imap pair (mi_nodes m)).*1 = seq 0 (length (mi_nodes m))).
  { rewrite fmap_imap. rewrite (imap_ext _ (fun i _ => id i)) by done.
    by rewrite imap_seq_0, list_fmap_id. }
  rewrite Hfst. apply NoDup_ListNoDup, seq_NoDup.
Qed.
