(* ===== verification/RetryPolicy.v ===== *)
(** * The second attempt of a mission ([backend/mission/retry_policy.py])

    [decide], the text of its reason and of the brief.  A verification is the
    dictionary that [verify] writes: the entries [tests], [manifeste] and
    [imports], when there are any, are dictionaries. *)
From stdpp Require Import base gmap strings list sets pretty.
From Stdlib Require Import ZArith QArith Ascii Lia.
From S2P Require Import Prelude.
#[local] Open Scope Z_scope.

Definition DEFAULT_MAX_ATTEMPTS : Z := 2.
Definition MAX_SORTIE_TESTS : Z := 1500.

(** [bool(v)] *)
Definition truthy (v : pyval) : bool :=
  match v with
  | PNone => false
  | PBool b => b
  | PInt z => negb (z =? 0)
  | PFloat q => negb (Qeq_bool q 0)
  | PStr s => negb (bool_decide (s = ""))
  | PList l => match l with [] => false | _ => true end
  | PDict d => match d with [] => false | _ => true end
  end.

(** [bool(d.get(k))] *)
Definition holds (d : pydict pyval) (k : string) : bool :=
  match dget d k with Some v => truthy v | None => false end.

(** [d.get(k) is False] *)
Definition is_false (d : pydict pyval) (k : string) : bool :=
  match dget d k with Some (PBool false) => true | _ => false end.

(** [d.get(k) or {}] and [d.get(k) or []] *)
Definition sub_dict (d : pydict pyval) (k : string) : pydict pyval :=
  match dget d k with Some (PDict e) => e | _ => [] end.

Definition sub_list (d : pydict pyval) (k : string) : list pyval :=
  match dget d k with Some (PList l) => l | _ => [] end.

Record RetryDecision := mkRetry {
  rd_should : bool;
  rd_reason : string;
  rd_brief : option string;
  rd_attempt : Z
}.

Definition newline : string := String "010"%char EmptyString.

Definition tests_failed (v : pydict pyval) : bool :=
  holds (sub_dict v "tests") "ran" && is_false (sub_dict v "tests") "passed".

Section texts.
(** [str] of the floats and of the containers. *)
Variable py_str_other : pyval -> string.

Definition py_str (v : pyval) : string :=
  match v with
  | PNone => "None"
  | PBool true => "True"
  | PBool false => "False"
  | PInt z => pretty z
  | PStr s => s
  | _ => py_str_other v
  end.

(** [_motif] *)
Definition motif (v : pydict pyval) : string :=
  if tests_failed v then "reported success but the project's own tests fail"
  else if holds (sub_dict v "manifeste") "manquants"
  then "reported success but announced deliverables are missing"
  else if holds (sub_dict v "imports") "fatals"
  then "reported success but the modules import each other in a fatal cycle"
  else "reported success but the workspace did not change".

(** [str(v.get(k, default))] *)
Definition text_or (v : pydict pyval) (k default_ : string) : string :=
  match dget v k with Some x => py_str x | None => default_ end.

(** [_constats] *)
Definition constats (v : pydict pyval) (workspace : string) : list string :=
  let unchanged :=
    if holds v "created" || holds v "modified" || holds v "deleted" then []
    else ["- " +:+ workspace +:+ " was unchanged: "
          +:+ text_or v "summary" "no file was created, modified or deleted"
          +:+ ". A description of the work is not the work — use your tools."] in
  let missing :=
    match sub_list (sub_dict v "manifeste") "manquants" with
    | [] => []
    | l => ["- These files were announced as deliverables and do not exist on disk: "
            +:+ String.concat ", " (map py_str l) +:+ "."]
    end in
  let tests := sub_dict v "tests" in
  let failing :=
    if tests_failed v then
      let sortie := strip (match dget tests "output" with
                           | Some o => if truthy o then py_str o else ""
                           | None => "" end) in
      ["- The project's own tests were run with " +:+ text_or tests "runner" "the test runner"
       +:+ " and FAILED (exit code " +:+ text_or tests "exit_code" "None"
       +:+ "). This is the real output — fix what it reports, do not guess:" +:+ newline +:+ newline
       +:+ (if decide (sortie = "") then "(no output captured)" else last_chars MAX_SORTIE_TESTS sortie)]
    else [] in
  let cycles :=
    match sub_list (sub_dict v "imports") "fatals" with
    | [] => []
    | l => ["- These modules import each other in a cycle that raises at import time: "
            +:+ String.concat "; " (map py_str l)
            +:+ ". Break the cycle — the files compile, but nothing can load them."]
    end in
  match unchanged ++ missing ++ failing ++ cycles with
  | [] => ["- The check contradicted the reported result without naming a specific cause. "
           +:+ "Re-verify your own output on disk."]
  | l => l
  end.

(** [build_retry_brief] *)
Definition build_retry_brief (objective : string) (v : pydict pyval) : string :=
  let workspace := match dget v "workspace" with
                   | Some w => if truthy w then py_str w else "the workspace"
                   | None => "the workspace"
                   end in
  String.concat newline
    ([strip objective; "";
      "IMPORTANT — this task was already attempted, and the result was checked against the disk. "
      +:+ "Here is what was found."] ++
     [""] ++ constats v workspace ++ [""] ++
     ["Fix exactly what is listed above. What is already correct is on disk — read it rather than "
      +:+ "rewriting it. Then read back your own output from disk to confirm the fix before reporting "
      +:+ "success."]).

Definition no_retry (reason : string) : RetryDecision := mkRetry false reason None 1.

(** [decide] *)
Definition decide_retry (verification : option (pydict pyval)) (objective : string)
    (attempts_made max_attempts : Z) : RetryDecision :=
  match verification with
  | None => no_retry "no verification available"
  | Some v =>
      if negb (holds v "measured") then no_retry "nothing was measured — no workspace to compare"
      else if negb (holds v "contradicted") then no_retry "verification agrees with the reported result"
      else if max_attempts <=? attempts_made
      then no_retry ("already attempted " +:+ pretty attempts_made +:+ " time(s), limit is "
                     +:+ pretty max_attempts)
      else mkRetry true (motif v) (Some (build_retry_brief objective v)) (attempts_made + 1)
  end.
End texts.

(** * Properties *)

(** A mission is retried exactly when it was measured, the disk contradicts
    it and the attempts are not used up; the decision then carries the next
    attempt and the brief, and else none. *)
Theorem decide_retry_exact py_str_other verification objective made max :
  let d := decide_retry py_str_other verification objective made max in
  (rd_should d = true <-> exists v, verification = Some v /\ holds v "measured" = true /\
     holds v "contradicted" = true /\ made < max) /\
  (forall v, verification = Some v -> rd_should d = true ->
     rd_brief d = Some (build_retry_brief py_str_other objective v) /\ rd_attempt d = made + 1 /\
     made + 1 <= max) /\
  (rd_should d = false -> rd_brief d = None).
Proof.
  intros d. subst d. unfold decide_retry. destruct verification as [v|]; [|naive_solver].
  destruct (holds v "measured") eqn:Hm; [|naive_solver].
  destruct (holds v "contradicted") eqn:Hc; [|naive_solver].
  destruct (Z.leb_spec max made); cbn; split_and!; try naive_solver lia.
Qed.

(** Every brief says something: there is always a finding. *)
Lemma constats_nonempty py_str_other v workspace : constats py_str_other v workspace <> [].
Proof. unfold constats. by destruct (_ ++ _). Qed.
