(* ===== verification/GraphExecutor.v ===== *)
(** * The mission graph executor ([backend/mission/graph_executor.py])

    [GraphExecutor] on one mission: building, starting, stepping, cancelling,
    and the preparation of a second attempt.  What the executor is given is
    foreign: the node hook, the gate, the capacity, the store, the disk and the
    clock are oracles of the section [executor].  The workers of a step are run
    in the order of the nodes; a node that did not answer in time has been
    called, but what it writes afterwards is not modelled. *)
From stdpp Require Import base gmap strings list sets sorting.
From Stdlib Require Import ZArith QArith Lia.
From S2P Require Import Prelude.
From S2P Require Import Kahn.
From S2P Require Import MissionGraph.
From S2P Require Import RetryPolicy.
#[local] Open Scope Z_scope.

(** ** State *)

Record MissionEvent := mkMissionEvent {
  mev_type : string;
  mev_payload : pydict pyval;
  mev_severity : string
}.

(** The mission and what the executor has done around it: the readings of the
    clock, the number of steps and verifications begun, the nodes called (step
    and position), the events published and the missions saved. *)
Record Exec := mkExec {
  gx_mission : Mission;
  gx_reads : nat;
  gx_steps : nat;
  gx_verifs : nat;
  gx_runs : list (nat * nat);
  gx_events : list MissionEvent;
  gx_saved : list Mission
}.

Definition on_mission (f : Mission -> Mission) (s : Exec) : Exec :=
  mkExec (f (gx_mission s)) (gx_reads s) (gx_steps s) (gx_verifs s) (gx_runs s) (gx_events s) (gx_saved s).

(** What the node hook writes back on its node. *)
Record RunReport := mkReport {
  rr_duration : Q;
  rr_completed : option Z;
  rr_runtime : option string;
  rr_summary : option string
}.

Definition apply_report (r : RunReport) (n : MissionNode) : MissionNode :=
  mkMNode (mn_id n) (mn_mission n) (mn_title n) (mn_description n) (mn_type n) (mn_priority n)
    (mn_status n) (mn_agent n) (default (mn_runtime n) (rr_runtime r)) (mn_profile n) (mn_skills n)
    (mn_resources n) (mn_estimated n) (mn_depends n) (mn_criteria n) (mn_outputs n) (mn_started n)
    (rr_completed r) (rr_duration r) (default (mn_summary n) (rr_summary r)).

Definition with_objective (objective : string) (m : Mission) : Mission :=
  mkMission (mi_id m) (mi_title m) (mi_description m) objective (mi_type m) (mi_priority m)
    (mi_status m) (mi_context m) (mi_nodes m) (mi_edges m) (mi_metadata m) (mi_budget m) (mi_created m)
    (mi_updated m) (mi_started m) (mi_completed m).

(** [node.status = PENDING; node.result_summary = ""] *)
Definition reset_node (n : MissionNode) : MissionNode :=
  mkMNode (mn_id n) (mn_mission n) (mn_title n) (mn_description n) (mn_type n) (mn_priority n)
    NodeStatus.PENDING (mn_agent n) (mn_runtime n) (mn_profile n) (mn_skills n) (mn_resources n)
    (mn_estimated n) (mn_depends n) (mn_criteria n) (mn_outputs n) (mn_started n) (mn_completed n)
    (mn_actual n) "".

(** [a or b] on strings. *)
Definition str_or (a b : string) : string := if decide (a = "") then b else a.

(** [mission.objective or mission.description or mission.title] *)
Definition objective_of (m : Mission) : string :=
  str_or (mi_objective m) (str_or (mi_description m) (mi_title m)).

(** The environment of the executor.
    - [env_run k i n]: what the hook does with the node [n], of position [i], at
      step [k]: its answer, or the exception it raises, and what it writes.
    - [env_granted k i]: the gate lets it through.
    - [env_timely k i]: in a pool, it answers before the timeout.
    - [env_capacity k]: what the resource manager says, if one is wired.
    - [env_persist]: the store, which may raise, if one is wired.
    - [env_verify], [env_checkpoint]: what the disk says. *)
Record Env := mkEnv {
  env_clock : nat -> Z;
  env_run : nat -> nat -> MissionNode -> res bool * RunReport;
  env_granted : nat -> nat -> bool;
  env_timely : nat -> nat -> bool;
  env_timeout : Q;
  env_capacity : option (nat -> res (option Z));
  env_fallback : Z;
  env_persist : option (nat -> option exn);
  env_listener : bool;
  env_verify : nat -> Mission -> bool -> option (pydict pyval);
  env_checkpoint : Mission -> option (string * res (string * string));
  env_exn_text : exn -> string;
  env_py_str : pyval -> string
}.

Section executor.
Variable env : Env.

(** ** Effects *)

Definition gmission : M Exec Mission := fun s => (Ok (gx_mission s), s).

Definition update (f : Mission -> Mission) : M Exec unit := fun s => (Ok tt, on_mission f s).

Definition now : M Exec Z := fun s =>
  (Ok (env_clock env (gx_reads s)),
   mkExec (gx_mission s) (S (gx_reads s)) (gx_steps s) (gx_verifs s) (gx_runs s) (gx_events s) (gx_saved s)).

(** [if self._on_event: self._on_event(type, payload, severity=severity)] *)
Definition emit_event (type : string) (payload : pydict pyval) (severity : string) : M Exec unit := fun s =>
  (Ok tt,
   if env_listener env
   then mkExec (gx_mission s) (gx_reads s) (gx_steps s) (gx_verifs s) (gx_runs s)
          (gx_events s ++ [mkMissionEvent type payload severity]) (gx_saved s)
   else s).

(** [_rendre_durable] *)
Definition rendre_durable : M Exec unit := fun s =>
  match env_persist env with
  | None => (Ok tt, s)
  | Some store =>
      match store (length (gx_saved s)) with
      | Some e => (Err e, s)
      | None => (Ok tt, mkExec (gx_mission s) (gx_reads s) (gx_steps s) (gx_verifs s) (gx_runs s)
                          (gx_events s) (gx_saved s ++ [gx_mission s]))
      end
  end.

Definition node_event (m : Mission) (n : MissionNode) : pydict pyval :=
  [("mission_id", PStr (mi_id m)); ("node_id", PStr (mn_id n)); ("title", PStr (mn_title n))].

Definition announce_ready : M Exec unit :=
  m <- gmission ;;
  for_each (get_ready_nodes m) (fun p => emit_event "mission.node_ready" (node_event m p.2) "info").

(** ** Lifecycle *)

(** [build_graph] *)
Definition build_mission (ns : list MissionNode) (es : list MissionEdge) : M Exec (list message) :=
  m <- gmission ;;
  update (graph_build (map (with_mission_id (mi_id m)) ns) es) ;;;
  m' <- gmission ;;
  r <- lift (mission_validate m') ;;
  update (fun _ => r.2) ;;;
  match r.1 with [] => update (with_status MissionStatus.READY) | _ => ret tt end ;;;
  emit_event "mission.created"
    [("mission_id", PStr (mi_id m)); ("nodes", PInt (Z.of_nat (length ns)));
     ("edges", PInt (Z.of_nat (length es))); ("valid", PBool (bool_decide (r.1 = [])))] "info" ;;;
  ret r.1.

(** [_snapshot_workspace]: of its three parts, the checkpoint is visible. *)
Definition snapshot_workspace : M Exec unit :=
  m <- gmission ;;
  match env_checkpoint env m with
  | None => ret tt
  | Some (root, Err e) =>
      emit_event "mission.sans_filet"
        [("mission_id", PStr (mi_id m)); ("workspace", PStr root); ("raison", PStr (env_exn_text env e))]
        "warning"
  | Some (root, Ok (point, mecanisme)) =>
      update (fun m => with_metadata (dset (mi_metadata m) "checkpoint" (PStr point)) m) ;;;
      emit_event "mission.checkpoint"
        [("mission_id", PStr (mi_id m)); ("checkpoint", PStr point); ("workspace", PStr root);
         ("mecanisme", PStr mecanisme)] "info"
  end.

(** [start_mission] *)
Definition start_mission : M Exec bool :=
  m <- gmission ;;
  if negb (bool_decide (mi_status m ∈ [MissionStatus.READY; MissionStatus.VALIDATED])) then ret false
  else
    update (with_status MissionStatus.RUNNING) ;;;
    t <- now ;;
    update (with_started (Some t)) ;;;
    rendre_durable ;;;
    snapshot_workspace ;;;
    emit_event "mission.started"
      [("mission_id", PStr (mi_id m)); ("nodes", PInt (Z.of_nat (length (mi_nodes m))))] "info" ;;;
    announce_ready ;;;
    ret true.

(** [cancel_mission] *)
Definition cancel_mission : M Exec bool :=
  m <- gmission ;;
  if decide (mi_status m = MissionStatus.COMPLETED) then ret false
  else
    update (with_status MissionStatus.CANCELLED) ;;;
    t <- now ;;
    update (with_completed (Some t)) ;;;
    rendre_durable ;;;
    emit_event "mission.cancelled" [("mission_id", PStr (mi_id m))] "info" ;;;
    ret true.

(** ** A step *)

(** [_limite_de_concurrence] *)
Definition limite (step : nat) : Z :=
  match env_capacity env with
  | None => Z.max 1 (env_fallback env)
  | Some ask => match ask step with
                | Ok (Some places) => Z.max 1 places
                | _ => Z.max 1 (env_fallback env)
                end
  end.

(** The node at position [i] is called. *)
Definition call_node (step i : nat) (answered : bool) : M Exec bool := fun s =>
  match mi_nodes (gx_mission s) !! i with
  | None => (Ok false, s)
  | Some n =>
      let '(out, report) := env_run env step i n in
      (Ok (match out with Ok b => b | Err _ => false end),
       mkExec (if answered then at_node i (apply_report report) (gx_mission s) else gx_mission s)
         (gx_reads s) (gx_steps s) (gx_verifs s) (gx_runs s ++ [(step, i)]) (gx_events s) (gx_saved s))
  end.

(** [_executer_sous_portillon] *)
Definition executer_sous_portillon (step : nat) (lim : Z) (answered : bool) (p : nat * MissionNode)
    : M Exec bool :=
  if env_granted env step p.1 then call_node step p.1 answered
  else
    emit_event "mission.node_sature"
      [("mission_id", PStr (mn_mission p.2)); ("node_id", PStr (mn_id p.2)); ("title", PStr (mn_title p.2));
       ("limite", PInt lim)] "error" ;;;
    ret false.

(** The workers of a step; [answered] tells which of them are waited for: their
    results are in the dictionary. *)
Fixpoint run_workers (step : nat) (lim : Z) (answered : nat -> bool) (ready : list (nat * MissionNode))
    (results : pydict bool) : M Exec (pydict bool) :=
  match ready with
  | [] => ret results
  | p :: ready' =>
      b <- executer_sous_portillon step lim (answered p.1) p ;;
      run_workers step lim answered ready'
        (if answered p.1 then dset results (mn_id p.2) b else results)
  end.

(** [_recolter_en_parallele] *)
Definition recolter_en_parallele (step : nat) (lim : Z) (ready : list (nat * MissionNode))
    : M Exec (pydict bool) :=
  results <- run_workers step lim (env_timely env step) ready [] ;;
  m <- gmission ;;
  (if forallb (fun p => env_timely env step p.1) ready then ret tt
   else emit_event "mission.step_timeout"
          [("mission_id", PStr (mi_id m)); ("timeout_s", PFloat (env_timeout env));
           ("nodes", PList (map (fun p => PStr (mn_title p.2))
                              (List.filter (fun p => negb (dmem results (mn_id p.2))) ready)))] "error") ;;;
  ret results.

(** The verdict on one node of the step. *)
Definition settle (results : pydict bool) (p : nat * MissionNode) : M Exec unit :=
  m <- gmission ;;
  if default false (dget results (mn_id p.2)) then
    t <- now ;;
    update (fun m => (mark_completed t (mn_id p.2) m).2) ;;;
    rendre_durable ;;;
    emit_event "mission.node_completed" (node_event m p.2) "info"
  else
    update (fun m => (mark_failed (mn_id p.2) m).2) ;;;
    rendre_durable ;;;
    emit_event "mission.node_failed" (node_event m p.2) "error".

(** [_verify_workspace] *)
Definition verify_workspace (success : bool) : M Exec (option (pydict pyval)) := fun s =>
  (Ok (env_verify env (gx_verifs s) (gx_mission s) success),
   mkExec (gx_mission s) (gx_reads s) (gx_steps s) (S (gx_verifs s)) (gx_runs s) (gx_events s) (gx_saved s)).

(** [mission.metadata.get("attempts", 1)], always written as an integer. *)
Definition attempts_of (m : Mission) : Z :=
  match dget (mi_metadata m) "attempts" with Some (PInt z) => z | _ => 1 end.

(** [_suggest_retry] *)
Definition suggest_retry (verification : option (pydict pyval)) : M Exec unit :=
  m <- gmission ;;
  let d := decide_retry (env_py_str env) verification (objective_of m) (attempts_of m) DEFAULT_MAX_ATTEMPTS in
  if negb (rd_should d) then ret tt
  else
    let brief := match rd_brief d with Some b => PStr b | None => PNone end in
    update (fun m => with_metadata (dset (mi_metadata m) "retry_brief" brief) m) ;;;
    emit_event "mission.retry_suggested"
      [("mission_id", PStr (mi_id m)); ("attempt", PInt (rd_attempt d)); ("reason", PStr (rd_reason d));
       ("brief", brief)] "warning".

(** The end of a mission, all its nodes done. *)
Definition finish (failed : Z) : M Exec unit :=
  let all_success := failed =? 0 in
  t <- now ;;
  update (fun m => with_completed (Some t)
            (with_status (if all_success then MissionStatus.COMPLETED else MissionStatus.FAILED) m)) ;;;
  verification <- verify_workspace all_success ;;
  match verification with
  | Some v => update (fun m => with_metadata (dset (mi_metadata m) "verification" (PDict v)) m)
  | None => ret tt
  end ;;;
  suggest_retry verification ;;;
  rendre_durable ;;;
  m <- gmission ;;
  emit_event "mission.completed"
    ([("mission_id", PStr (mi_id m)); ("failed", PInt failed)] ++
     match verification with Some v => [("verification", PDict v)] | None => [] end)
    (if all_success then "info" else "error") ;;;
  match verification with
  | None => ret tt
  | Some v =>
      if holds v "contradicted" then emit_event "mission.unverified" v "warning"
      else if holds v "mesure_impossible" then emit_event "mission.non_mesuree" v "warning"
      else ret tt
  end.

Definition is_finished (p : MissionProgress) : bool := mp_total p <=? mp_completed p + mp_failed p + mp_skipped p.

(** The end of a step that ran some nodes. *)
Definition check_completion : M Exec unit :=
  m <- gmission ;;
  let progress := get_progress m in
  (if is_finished progress &&
      negb (bool_decide (mi_status m ∈ [MissionStatus.FAILED; MissionStatus.COMPLETED]))
   then finish (mp_failed progress) else ret tt) ;;;
  announce_ready.

Definition begin_step : M Exec nat := fun s =>
  (Ok (gx_steps s),
   mkExec (gx_mission s) (gx_reads s) (S (gx_steps s)) (gx_verifs s) (gx_runs s) (gx_events s) (gx_saved s)).

Definition mark_running (ready : list (nat * MissionNode)) (m : Mission) : Mission :=
  fold_left (fun m p => at_node p.1 (with_node_status NodeStatus.RUNNING) m) ready m.

(** [max_workers <= 1] *)
Definition one_worker (step : nat) (ready : list (nat * MissionNode)) : bool :=
  Z.min (Z.of_nat (length ready)) (limite step) <=? 1.

(** [execute_step] *)
Definition execute_step : M Exec Z :=
  step <- begin_step ;;
  m <- gmission ;;
  let ready := get_ready_nodes m in
  update (mark_running ready) ;;;
  results <- (if one_worker step ready
              then run_workers step (limite step) (fun _ => true) ready []
              else recolter_en_parallele step (limite step) ready) ;;
  for_each ready (settle results) ;;;
  (match ready with [] => ret tt | _ => check_completion end) ;;;
  ret (Z.of_nat (length ready)).

(** [preparer_reprise] of [retry_policy.py] *)
Definition preparer_reprise : M Exec bool :=
  m <- gmission ;;
  let brief := dget (mi_metadata m) "retry_brief" in
  update (fun m => with_metadata (ddel (mi_metadata m) "retry_brief") m) ;;;
  match brief with
  | Some (PStr text) =>
      if decide (text = "") then ret false
      else
        update (fun m => with_metadata (dset (mi_metadata m) "attempts" (PInt (attempts_of m + 1))) m) ;;;
        update (fun m => if dmem (mi_metadata m) "original_objective" then m
                         else with_metadata (dset (mi_metadata m) "original_objective"
                                (PStr (str_or (mi_objective m) (mi_description m)))) m) ;;;
        update (with_objective text) ;;;
        update (fun m => with_nodes (map reset_node (mi_nodes m)) m) ;;;
        m' <- gmission ;;
        build_mission (mi_nodes m') (mi_edges m') ;;;
        update (with_status MissionStatus.READY) ;;;
        start_mission
  | _ => ret false
  end.
End executor.

(** * Properties *)

(** ** The graph and the statuses of a mission *)

Definition status_at (m : Mission) (i : nat) : option NodeStatus.t := mn_status <$> mi_nodes m !! i.

Definition same_graph (m m' : Mission) : Prop :=
  mi_edges m' = mi_edges m /\ node_ids m' = node_ids m /\
  map mn_depends (mi_nodes m') = map mn_depends (mi_nodes m).

#[export] Instance same_graph_preorder : PreOrder same_graph.
Proof. split; [done|]. intros m1 m2 m3 (?&?&?) (?&?&?). split_and!; congruence. Qed.

(** What building gives: distinct ids, edges between nodes, no cycle, and the
    dependencies of a node are the sources of its edges. *)
Record built (m : Mission) : Prop := Built {
  bu_nodup : NoDup (node_ids m);
  bu_closed : closed (node_ids m) (epairs m);
  bu_acyclic : acyclic (epairs m);
  bu_depends : forall i n, mi_nodes m !! i = Some n ->
    forall d, d ∈ mn_depends n <-> (d, mn_id n) ∈ epairs m
}.

Lemma lookup_map {A B} (f : A -> B) l i : map f l !! i = f <$> l !! i.
Proof. apply list_lookup_fmap. Qed.

Lemma same_graph_lookup m m' i n :
  same_graph m m' -> mi_nodes m !! i = Some n ->
  exists n', mi_nodes m' !! i = Some n' /\ mn_id n' = mn_id n /\ mn_depends n' = mn_depends n.
Proof.
  intros (_ & Hid & Hdep) Hi. unfold node_ids in Hid.
  pose proof (lookup_map mn_id (mi_nodes m') i) as Hi1.
  pose proof (lookup_map mn_depends (mi_nodes m') i) as Hi2.
  rewrite Hid, lookup_map, Hi in Hi1. rewrite Hdep, lookup_map, Hi in Hi2.
  destruct (mi_nodes m' !! i) as [n'|]; [|done]. exists n'. cbn in *. split_and!; congruence.
Qed.

Lemma same_graph_sym m m' : same_graph m m' -> same_graph m' m.
Proof. intros (?&?&?). split_and!; congruence. Qed.

Lemma built_same m m' : same_graph m m' -> built m -> built m'.
Proof.
  intros Hs [Hnd Hc Hac Hdep]. pose proof Hs as (He & Hid & _).
  assert (Hep : epairs m' = epairs m) by (unfold epairs; by rewrite He).
  split; rewrite ?Hep, ?Hid; [done..|]. intros i n' Hi d.
  destruct (same_graph_lookup m' m i n' (same_graph_sym _ _ Hs) Hi) as (n & Hn & Hidn & Hd).
  rewrite <- Hidn, <- Hd. by apply (Hdep i n).
Qed.

Lemma lookup_at_node i f m j :
  mi_nodes (at_node i f m) !! j = if decide (i = j) then f <$> mi_nodes m !! j else mi_nodes m !! j.
Proof.
  cbn. rewrite list_lookup_alter. case_decide as Hij; [by subst|done].
Qed.

Lemma map_alter {A B} (g : A -> B) (f : A -> A) i l : (forall x, g (f x) = g x) -> map g (alter f i l) = map g l.
Proof.
  intros Hg. apply list_eq. intros j. rewrite !lookup_map, list_lookup_alter.
  case_decide; [|done]. subst. destruct (l !! j); [|done]. cbn. by rewrite Hg.
Qed.

(** An assignment to other fields than the id and the dependencies. *)
Definition keeps_node (f : MissionNode -> MissionNode) : Prop :=
  forall n, mn_id (f n) = mn_id n /\ mn_depends (f n) = mn_depends n.

Lemma at_node_same_graph i f m : keeps_node f -> same_graph m (at_node i f m).
Proof.
  intros Hf. split; [done|]. split; (apply map_alter; intros n; apply Hf).
Qed.

Lemma keeps_status st : keeps_node (with_node_status st).
Proof. by intros n. Qed.
Lemma keeps_completed st t : keeps_node (fun n => with_node_completed (Some t) (with_node_status st n)).
Proof. by intros n. Qed.
Lemma keeps_block : keeps_node block_if_pending.
Proof. intros n. unfold block_if_pending. by destruct (has_status _ n). Qed.
Lemma keeps_report r : keeps_node (apply_report r).
Proof. by intros n. Qed.
#[export] Hint Resolve keeps_status keeps_completed keeps_block keeps_report at_node_same_graph : hermes.

Lemma status_at_node i f m j :
  status_at (at_node i f m) j
  = if decide (i = j) then (fun n => mn_status (f n)) <$> mi_nodes m !! j else status_at m j.
Proof.
  unfold status_at. rewrite lookup_at_node. case_decide; [|done]. by destruct (mi_nodes m !! j).
Qed.

(** ** Marking *)

Lemma mark_running_same l m : same_graph m (mark_running l m).
Proof.
  unfold mark_running. revert m. induction l as [|p l IH]; intros m; [done|]. cbn [fold_left].
  etransitivity; [|apply IH]. auto with hermes.
Qed.

Lemma mark_running_status l m : mi_status (mark_running l m) = mi_status m.
Proof.
  unfold mark_running. revert m. induction l as [|p l IH]; intros m; [done|]. cbn [fold_left]. by rewrite IH.
Qed.

Lemma lookup_mark_running l m j :
  mi_nodes (mark_running l m) !! j
  = if decide (j ∈ l.*1) then with_node_status NodeStatus.RUNNING <$> mi_nodes m !! j else mi_nodes m !! j.
Proof.
  unfold mark_running. revert m. induction l as [|p l IH]; intros m; [done|]. cbn [fold_left].
  rewrite IH, !lookup_at_node. rewrite fmap_cons.
  destruct (decide (p.1 = j)) as [<-|Hne].
  - rewrite (decide_True (P := p.1 ∈ p.1 :: l.*1)) by set_solver.
    case_decide; [|done]. by destruct (mi_nodes m !! p.1).
  - repeat case_decide; try done; set_solver.
Qed.

(** The first node with an id is the only one. *)
Lemma find_node_unique m i n : NoDup (node_ids m) -> mi_nodes m !! i = Some n -> find_node m (mn_id n) = Some i.
Proof. intros. by apply find_index_unique. Qed.

Lemma elem_get_dependents m id j :
  NoDup (node_ids m) ->
  j ∈ get_dependents m id <-> exists n, mi_nodes m !! j = Some n /\ (id, mn_id n) ∈ epairs m.
Proof.
  intros Hnd. unfold get_dependents. rewrite list_elem_of_omap.
  split.
  - intros (t & Ht & Hf). apply list_elem_of_fmap in Ht as (e & -> & He).
    rewrite list_elem_of_In, filter_In, <- list_elem_of_In in He.
    destruct He as [He Hs%bool_decide_eq_true].
    destruct (find_index_Some _ _ _ Hf) as (n & Hn & Hid & _). exists n. split; [done|].
    apply list_elem_of_fmap. exists e. unfold epair. by rewrite Hs, Hid.
  - intros (n & Hn & He). apply list_elem_of_fmap in He as (e & Heq & He). injection Heq as -> Ht.
    exists (me_target e). split; [|rewrite <- Ht; by apply find_node_unique].
    apply list_elem_of_fmap. exists e. split; [done|].
    rewrite list_elem_of_In, filter_In, <- list_elem_of_In. by rewrite bool_decide_eq_true_2.
Qed.

Lemma block_fold_same l m : same_graph m (fold_left (fun m j => at_node j block_if_pending m) l m).
Proof.
  revert m. induction l as [|i l IH]; intros m; [done|]. cbn [fold_left]. etransitivity; [|apply IH].
  auto with hermes.
Qed.

Definition blocked_status (st : NodeStatus.t) : NodeStatus.t :=
  if decide (st = NodeStatus.PENDING) then NodeStatus.BLOCKED else st.

Lemma status_block n : mn_status (block_if_pending n) = blocked_status (mn_status n).
Proof. unfold block_if_pending, has_status, blocked_status. case_bool_decide; by case_decide. Qed.

Lemma blocked_status_idem st : blocked_status (blocked_status st) = blocked_status st.
Proof. by destruct st. Qed.

Lemma status_block_fold l m j :
  status_at (fold_left (fun m j => at_node j block_if_pending m) l m) j
  = if decide (j ∈ l) then blocked_status <$> status_at m j else status_at m j.
Proof.
  revert m. induction l as [|i l IH]; intros m; [by rewrite decide_False by set_solver|]. cbn [fold_left].
  rewrite IH, status_at_node. unfold status_at.
  destruct (decide (i = j)) as [->|Hne].
  - rewrite (decide_True (P := j ∈ j :: l)) by set_solver.
    destruct (mi_nodes m !! j) as [n|]; cbn; [|by case_decide]. rewrite status_block.
    case_decide; [|done]. by rewrite blocked_status_idem.
  - repeat case_decide; try done; set_solver.
Qed.

Lemma mark_completed_spec t m i n :
  NoDup (node_ids m) -> mi_nodes m !! i = Some n ->
  let m' := (mark_completed t (mn_id n) m).2 in
  same_graph m m' /\ mi_status m' = mi_status m /\
  forall j, status_at m' j = if decide (i = j) then Some NodeStatus.COMPLETED else status_at m j.
Proof.
  intros Hnd Hi m'. subst m'. unfold mark_completed. rewrite (find_node_unique m i n Hnd Hi). cbn [snd].
  split; [auto with hermes|]. split; [done|]. intros j. rewrite status_at_node. case_decide; [|done].
  subst. by rewrite Hi.
Qed.

Lemma find_index_ids id ns ns' : map mn_id ns = map mn_id ns' -> find_index id ns = find_index id ns'.
Proof.
  revert ns'. induction ns as [|n ns IH]; intros [|n' ns']; cbn; [done..|]. intros [= -> Hns].
  by rewrite (IH ns').
Qed.

Lemma get_dependents_same m m' id : same_graph m m' -> get_dependents m' id = get_dependents m id.
Proof.
  intros (He & Hid & _). unfold get_dependents. rewrite He. apply list_omap_ext.
  apply Forall2_same_length_lookup_2; [done|]. intros i x y Hx Hy. rewrite Hx in Hy. injection Hy as <-.
  by apply find_index_ids.
Qed.

Lemma mark_failed_spec m i n :
  NoDup (node_ids m) -> mi_nodes m !! i = Some n ->
  let m' := (mark_failed (mn_id n) m).2 in
  same_graph m m' /\ mi_status m' = mi_status m /\
  forall j, status_at m' j =
    if decide (i = j) then Some NodeStatus.FAILED
    else if decide (j ∈ get_dependents m (mn_id n))
    then blocked_status <$> status_at m j else status_at m j.
Proof.
  intros Hnd Hi m'. subst m'. unfold mark_failed. rewrite (find_node_unique m i n Hnd Hi). cbn [snd].
  set (m1 := at_node i _ m). assert (H1 : same_graph m m1) by (apply at_node_same_graph, keeps_status).
  rewrite (get_dependents_same m m1 _ H1). split; [|split].
  - transitivity m1; [done|apply block_fold_same].
  - clear Hnd. assert (Hst : mi_status m1 = mi_status m) by done. rewrite <- Hst. clearbody m1.
    generalize (get_dependents m (mn_id n)). intros l. clear.
    revert m1. induction l as [|j l IH]; intros m1; [done|]. cbn [fold_left]. by rewrite IH.
  - intros j. rewrite status_block_fold. unfold m1. rewrite !status_at_node.
    destruct (decide (i = j)) as [->|]; [|done]. rewrite Hi. cbn. by case_decide.
Qed.

(** ** The effects around the mission *)

Definition frame (s s' : Exec) : Prop :=
  gx_mission s' = gx_mission s /\ gx_runs s' = gx_runs s /\ gx_steps s' = gx_steps s.

#[export] Instance frame_preorder : PreOrder frame.
Proof. split; [done|]. intros s1 s2 s3 (?&?&?) (?&?&?). split_and!; congruence. Qed.

(** The store never raises. *)
Definition reliable (env : Env) : Prop :=
  match env_persist env with Some store => forall k, store k = None | None => True end.

(** The graph and the statuses, of the mission and of its nodes, are the same. *)
Definition calm (m m' : Mission) : Prop :=
  same_graph m m' /\ mi_status m' = mi_status m /\ forall j, status_at m' j = status_at m j.

#[export] Instance calm_preorder : PreOrder calm.
Proof.
  split; [done|]. intros m1 m2 m3 (Hg & Hs & Hn) (Hg' & Hs' & Hn').
  split_and!; [by transitivity m2|congruence|]. intros j. by rewrite Hn', Hn.
Qed.

(** What the hook answers on a node, once the gate lets it through. *)
Definition answer (env : Env) (step i : nat) (n : MissionNode) : bool :=
  env_granted env step i && match (env_run env step i n).1 with Ok b => b | Err _ => false end.

Lemma wp_read {A} (f : Mission -> M Exec A) Q s : wp (f (gx_mission s)) Q s -> wp (bind gmission f) Q s.
Proof. done. Qed.

Lemma wp_update {A} g (f : unit -> M Exec A) Q s :
  wp (f tt) Q (on_mission g s) -> wp (bind (update g) f) Q s.
Proof. done. Qed.

Section effects.
Variable env : Env.

Lemma wp_clock {A} (f : Z -> M Exec A) Q s :
  wp (f (env_clock env (gx_reads s))) Q (now env s).2 -> wp (bind (now env) f) Q s.
Proof. done. Qed.

Lemma wp_emit_event type payload severity s :
  wp (emit_event env type payload severity) (fun _ s' => frame s s') s.
Proof. unfold wp, emit_event. by destruct (env_listener env). Qed.

Lemma wp_now s : wp (now env) (fun _ s' => frame s s') s.
Proof. done. Qed.

Lemma wp_rendre_durable s : reliable env -> wp (rendre_durable env) (fun _ s' => frame s s') s.
Proof.
  unfold reliable, wp, rendre_durable. destruct (env_persist env) as [store|]; [|done].
  intros Hs. by rewrite Hs.
Qed.

Lemma wp_announce_ready s : wp (announce_ready env) (fun _ s' => frame s s') s.
Proof.
  unfold announce_ready. apply wp_read.
  apply (wp_for_each (fun _ s' => frame s s')); [done|]. intros l1 x l2 t _ Ht.
  eapply wp_mono; [apply wp_emit_event|]. intros [] t' Ht'. by transitivity t.
Qed.

(** A worker touches its node only, and neither its status nor the graph. *)
Lemma wp_worker step lim answered p r s :
  mi_nodes (gx_mission s) !! p.1 = Some r ->
  wp (executer_sous_portillon env step lim answered p)
    (fun b s' => b = answer env step p.1 r /\ calm (gx_mission s) (gx_mission s') /\
       (forall j, j <> p.1 -> mi_nodes (gx_mission s') !! j = mi_nodes (gx_mission s) !! j) /\
       gx_steps s' = gx_steps s /\
       gx_runs s' = gx_runs s ++ (if env_granted env step p.1 then [(step, p.1)] else [])) s.
Proof.
  intros Hr. unfold executer_sous_portillon, answer. destruct (env_granted env step p.1); cbn [andb].
  - unfold wp, call_node. rewrite Hr. destruct (env_run env step p.1 r) as [out report]. cbn.
    split; [done|]. destruct answered; [|by split_and!].
    split; [|split; [|done]].
    + split; [apply at_node_same_graph, keeps_report|]. split; [done|]. intros j.
      rewrite status_at_node. unfold status_at. case_decide; [|done]. by destruct (_ !! j).
    + intros j Hj. rewrite lookup_at_node. by case_decide.
  - apply wp_bind. eapply wp_mono; [apply wp_emit_event|]. intros [] s' (Hm & Hru & Hst).
    apply wp_ret. rewrite Hm, Hru, Hst, app_nil_r. by split_and!.
Qed.

Definition node_id_of (p : nat * MissionNode) : string := mn_id p.2.

Lemma wp_run_workers step lim answered ready results s :
  NoDup ready.*1 -> NoDup (map node_id_of ready) ->
  (forall p, p ∈ ready ->
     mi_nodes (gx_mission s) !! p.1 = Some (with_node_status NodeStatus.RUNNING p.2)) ->
  wp (run_workers env step lim answered ready results)
    (fun results' s' => calm (gx_mission s) (gx_mission s') /\ gx_steps s' = gx_steps s /\
       gx_runs s' = gx_runs s ++ map (pair step) (List.filter (env_granted env step) ready.*1) /\
       (forall p, p ∈ ready -> dget results' (mn_id p.2) =
          if answered p.1 then Some (answer env step p.1 (with_node_status NodeStatus.RUNNING p.2))
          else dget results (mn_id p.2)) /\
       (forall id, id ∉ map node_id_of ready -> dget results' id = dget results id)) s.
Proof.
  revert results s. induction ready as [|p ready IH]; intros results s Hnd Hids Hnodes.
  { cbn. rewrite app_nil_r. split_and!; try done. intros p Hp. by apply elem_of_nil in Hp. }
  rewrite fmap_cons in Hnd. apply NoDup_cons in Hnd as [Hp Hnd].
  cbn [map] in Hids. apply NoDup_cons in Hids as [Hid Hids].
  cbn [run_workers]. apply wp_bind.
  eapply wp_mono; [by apply wp_worker, Hnodes, elem_of_cons; left|].
  cbn beta. intros b s1 (-> & Hc1 & Hn1 & Hst1 & Hr1).
  eapply wp_mono; [apply IH; [done..|]|].
  - intros q Hq. rewrite Hn1; [apply Hnodes; by apply elem_of_cons; right|].
    intros Heq. apply Hp. rewrite <- Heq. apply list_elem_of_fmap. eauto.
  - cbn beta. intros res' s2 (Hc2 & Hst2 & Hr2 & Hin & Hout).
    split; [by transitivity (gx_mission s1)|]. split; [congruence|]. split.
    { rewrite Hr2, Hr1, <- app_assoc. f_equal. cbn. by destruct (env_granted env step p.1). }
    split.
    + intros q [->|Hq]%elem_of_cons.
      * rewrite Hout by done. destruct (answered p.1); [|done]. by rewrite dget_dset, decide_True.
      * rewrite Hin by done. destruct (answered q.1); [done|]. destruct (answered p.1); [|done].
        rewrite dget_dset, decide_False; [done|]. intros Heq. apply Hid.
        apply list_elem_of_fmap. by exists q.
    + intros id Hnid. cbn [map] in Hnid. rewrite Hout by set_solver.
      destruct (answered p.1); [|done]. rewrite dget_dset, decide_False; [done|]. set_solver.
Qed.
End effects.

(** ** One step *)

Lemma NoDup_map_filter {A B} (f : A -> B) P l : NoDup (map f l) -> NoDup (map f (List.filter P l)).
Proof.
  induction l as [|x l IH]; cbn; [done|]. intros [Hx Hl]%NoDup_cons. destruct (P x); [|by apply IH].
  cbn. apply NoDup_cons. split; [|by apply IH]. intros (y & Hy & Hin)%list_elem_of_fmap.
  apply Hx, list_elem_of_fmap. exists y. split; [done|].
  by apply list_elem_of_In, filter_In, proj1, list_elem_of_In in Hin.
Qed.

Lemma positions_ids P m : NoDup (node_ids m) -> NoDup (map node_id_of (positions P m)).
Proof.
  intros Hnd. apply NoDup_map_filter. enough (map node_id_of (imap pair (mi_nodes m)) = node_ids m) as -> by done.
  apply list_eq. intros i. unfold node_ids. rewrite !lookup_map, list_lookup_imap.
  by destruct (mi_nodes m !! i).
Qed.

(** The verdict on a ready node: let through, in time if a pool runs it, and
    answered [True]. *)
Definition verdict (env : Env) (step : nat) (ready : list (nat * MissionNode)) (p : nat * MissionNode) : bool :=
  (one_worker env step ready || env_timely env step p.1) &&
  answer env step p.1 (with_node_status NodeStatus.RUNNING p.2).

(** What settling one node does to the status of the node at [j]. *)
Definition settle_one (ok : nat * MissionNode -> bool) (m : Mission) (j : nat) (st : NodeStatus.t)
    (p : nat * MissionNode) : NodeStatus.t :=
  if decide (p.1 = j) then (if ok p then NodeStatus.COMPLETED else NodeStatus.FAILED)
  else if negb (ok p) && bool_decide (j ∈ get_dependents m (mn_id p.2)) then blocked_status st else st.

(** The node at [j] depends on one of [l] that did not succeed. *)
Definition hit (ok : nat * MissionNode -> bool) (m : Mission) (l : list (nat * MissionNode)) (j : nat) : bool :=
  existsb (fun p => negb (ok p) && bool_decide (j ∈ get_dependents m (mn_id p.2))) l.

Lemma settle_fold_others ok m j l st :
  j ∉ l.*1 -> fold_left (settle_one ok m j) l st = if hit ok m l j then blocked_status st else st.
Proof.
  revert st. induction l as [|p l IH]; intros st Hj; [done|]. rewrite fmap_cons in Hj.
  cbn [fold_left hit existsb]. rewrite IH by set_solver. fold (hit ok m l j).
  unfold settle_one. rewrite decide_False by set_solver.
  destruct (negb (ok p) && _); cbn [orb]; [|done]. by destruct (hit ok m l j); rewrite ?blocked_status_idem.
Qed.

Lemma settle_fold_own ok m l st p :
  NoDup l.*1 -> p ∈ l ->
  fold_left (settle_one ok m p.1) l st = if ok p then NodeStatus.COMPLETED else NodeStatus.FAILED.
Proof.
  intros Hnd (l1 & l2 & ->)%list_elem_of_split. rewrite fmap_app, fmap_cons in Hnd.
  apply NoDup_app in Hnd as (_ & _ & [Hp _]%NoDup_cons).
  rewrite fold_left_app. cbn [fold_left]. rewrite settle_fold_others by done.
  generalize (fold_left (settle_one ok m p.1) l1 st). intros st1. unfold settle_one.
  rewrite decide_True by done. destruct (hit _ _ _ _); by destruct (ok p).
Qed.

Section step.
Variable env : Env.
Hypothesis Hreliable : reliable env.

Lemma wp_harvest step ready s :
  NoDup ready.*1 -> NoDup (map node_id_of ready) ->
  (forall p, p ∈ ready ->
     mi_nodes (gx_mission s) !! p.1 = Some (with_node_status NodeStatus.RUNNING p.2)) ->
  wp (if one_worker env step ready then run_workers env step (limite env step) (fun _ => true) ready []
      else recolter_en_parallele env step (limite env step) ready)
    (fun results s' => calm (gx_mission s) (gx_mission s') /\ gx_steps s' = gx_steps s /\
       gx_runs s' = gx_runs s ++ map (pair step) (List.filter (env_granted env step) ready.*1) /\
       forall p, p ∈ ready -> default false (dget results (mn_id p.2)) = verdict env step ready p) s.
Proof.
  intros Hnd Hids Hnodes. unfold verdict. destruct (one_worker env step ready); cbn [orb].
  - eapply wp_mono; [by apply wp_run_workers|]. cbn beta. intros res s' (Hc & Hst & Hr & Hin & _).
    split_and!; [done..|]. intros p Hp. by rewrite Hin.
  - unfold recolter_en_parallele. apply wp_bind. eapply wp_mono; [by apply wp_run_workers|].
    cbn beta. intros res s1 (Hc & Hst & Hr & Hin & _). apply wp_read.
    apply wp_bind. apply (wp_mono _ (fun _ s' => frame s1 s')).
    + destruct (forallb _ ready); [by apply wp_ret|apply wp_emit_event].
    + intros [] s' (Hm & Hru & Hsp). apply wp_ret. rewrite Hm, Hru, Hsp. split_and!; [done..|].
      intros p Hp. rewrite Hin by done. by destruct (env_timely env step p.1).
Qed.

Lemma wp_settle results p n s :
  NoDup (node_ids (gx_mission s)) -> mi_nodes (gx_mission s) !! p.1 = Some n -> mn_id n = mn_id p.2 ->
  wp (settle env results p)
    (fun _ s' => same_graph (gx_mission s) (gx_mission s') /\
       mi_status (gx_mission s') = mi_status (gx_mission s) /\
       gx_runs s' = gx_runs s /\ gx_steps s' = gx_steps s /\
       forall j, status_at (gx_mission s') j
         = (fun st => settle_one (fun _ => default false (dget results (mn_id p.2))) (gx_mission s) j st p)
             <$> status_at (gx_mission s) j) s.
Proof.
  intros Hnd Hn Hid. unfold settle. apply wp_read. unfold settle_one.
  destruct (default false (dget results (mn_id p.2))); cbn [negb andb].
  - apply wp_clock, wp_update.
    destruct (mark_completed_spec (env_clock env (gx_reads s)) (gx_mission s) p.1 n Hnd Hn) as (Hg & Hs & Hst).
    rewrite Hid in *. apply wp_bind. eapply wp_mono; [by apply wp_rendre_durable|].
    intros [] s1 (Hm1 & Hr1 & Hsp1). eapply wp_mono; [apply wp_emit_event|].
    intros [] s2 (Hm2 & Hr2 & Hsp2). cbn in *. rewrite Hm2, Hm1, Hr2, Hr1, Hsp2, Hsp1.
    split_and!; [done..|]. intros j. rewrite Hst. unfold status_at.
    case_decide as Hj; [by rewrite <- Hj, Hn|]. by destruct (mi_nodes (gx_mission s) !! j).
  - apply wp_update.
    destruct (mark_failed_spec (gx_mission s) p.1 n Hnd Hn) as (Hg & Hs & Hst).
    rewrite Hid in *. apply wp_bind. eapply wp_mono; [by apply wp_rendre_durable|].
    intros [] s1 (Hm1 & Hr1 & Hsp1). eapply wp_mono; [apply wp_emit_event|].
    intros [] s2 (Hm2 & Hr2 & Hsp2). cbn in *. rewrite Hm2, Hm1, Hr2, Hr1, Hsp2, Hsp1.
    split_and!; [done..|]. intros j. rewrite Hst. unfold status_at.
    case_decide as Hj; [by rewrite <- Hj, Hn|].
    case_decide; [rewrite bool_decide_eq_true_2 by done|rewrite bool_decide_eq_false_2 by done]; [done|].
    by destruct (mi_nodes (gx_mission s) !! j).
Qed.
Lemma settle_one_same ok m m' j st p : same_graph m m' -> settle_one ok m' j st p = settle_one ok m j st p.
Proof. intros Hg. unfold settle_one. by rewrite (get_dependents_same m m'). Qed.

Lemma wp_settle_all results ready s :
  NoDup (node_ids (gx_mission s)) ->
  (forall p, p ∈ ready -> exists n, mi_nodes (gx_mission s) !! p.1 = Some n /\ mn_id n = mn_id p.2) ->
  wp (for_each ready (settle env results))
    (fun _ s' => same_graph (gx_mission s) (gx_mission s') /\
       mi_status (gx_mission s') = mi_status (gx_mission s) /\
       gx_runs s' = gx_runs s /\ gx_steps s' = gx_steps s /\
       forall j, status_at (gx_mission s') j
         = fold_left (settle_one (fun p => default false (dget results (mn_id p.2))) (gx_mission s) j) ready
             <$> status_at (gx_mission s) j) s.
Proof.
  intros Hnd Hready. apply (wp_for_each (fun l s' => same_graph (gx_mission s) (gx_mission s') /\
       mi_status (gx_mission s') = mi_status (gx_mission s) /\
       gx_runs s' = gx_runs s /\ gx_steps s' = gx_steps s /\
       forall j, status_at (gx_mission s') j
         = fold_left (settle_one (fun p => default false (dget results (mn_id p.2))) (gx_mission s) j) l
             <$> status_at (gx_mission s) j)).
  - split_and!; [done..|]. intros j. by destruct (status_at _ j).
  - intros l1 p l2 t Heq (Hg & Hs & Hr & Hsp & Hst).
    destruct (Hready p) as (n & Hn & Hid); [rewrite Heq; set_solver|].
    destruct (same_graph_lookup _ _ _ _ Hg Hn) as (n' & Hn' & Hid' & _).
    eapply wp_mono; [apply (wp_settle results p n')|].
    + destruct Hg as (_ & Hids & _). by rewrite Hids.
    + done.
    + congruence.
    + cbn beta. intros [] t' (Hg' & Hs' & Hr' & Hsp' & Hst').
      split; [by transitivity (gx_mission t)|]. split_and!; [congruence..|]. intros j.
      rewrite Hst', Hst. destruct (status_at (gx_mission s) j); [|done]. cbn. f_equal.
      rewrite fold_left_app. cbn [fold_left]. by rewrite (settle_one_same _ _ _ _ _ _ Hg).
Qed.

(** What the end of the step leaves alone. *)
Definition end_frame (st : MissionStatus.t) (s s' : Exec) : Prop :=
  mi_nodes (gx_mission s') = mi_nodes (gx_mission s) /\ mi_edges (gx_mission s') = mi_edges (gx_mission s) /\
  mi_status (gx_mission s') = st /\ gx_runs s' = gx_runs s /\ gx_steps s' = gx_steps s.

Lemma end_frame_frame st s s1 s2 : end_frame st s s1 -> frame s1 s2 -> end_frame st s s2.
Proof. unfold end_frame. intros (?&?&?&?&?) (->&->&->). by split_and!. Qed.

Lemma end_frame_trans st s s1 s2 :
  end_frame st s s1 -> end_frame (mi_status (gx_mission s1)) s1 s2 -> end_frame st s s2.
Proof. intros (?&?&?&?&?) (?&?&?&?&?). split_and!; congruence. Qed.

Lemma wp_suggest_retry v s :
  wp (suggest_retry env v) (fun _ s' => end_frame (mi_status (gx_mission s)) s s') s.
Proof.
  unfold suggest_retry. apply wp_read. destruct (negb _); [by apply wp_ret|].
  apply wp_update. eapply wp_mono; [apply wp_emit_event|]. intros [] s'. by apply end_frame_frame.
Qed.

Definition final_status (failed : Z) : MissionStatus.t :=
  if failed =? 0 then MissionStatus.COMPLETED else MissionStatus.FAILED.

Lemma wp_finish failed s : wp (finish env failed) (fun _ s' => end_frame (final_status failed) s s') s.
Proof.
  unfold finish. apply wp_clock, wp_update. apply wp_bind.
  set (s1 := on_mission _ _). assert (H1 : end_frame (final_status failed) s s1) by done. clearbody s1.
  apply (wp_mono _ (fun _ s' => end_frame (mi_status (gx_mission s1)) s1 s')); [done|].
  intros v s2 H2. apply wp_bind.
  apply (wp_mono _ (fun _ s' => end_frame (mi_status (gx_mission s2)) s2 s')); [by destruct v|].
  intros [] s3 H3. apply wp_bind. eapply wp_mono; [apply wp_suggest_retry|]. intros [] s4 H4.
  apply wp_bind. eapply wp_mono; [by apply wp_rendre_durable|]. intros [] s5 H5.
  apply wp_read, wp_bind. eapply wp_mono; [apply wp_emit_event|]. intros [] s6 H6.
  assert (H7 : end_frame (final_status failed) s s6).
  { eapply end_frame_frame, H6. eapply end_frame_frame, H5. eapply end_frame_trans, H4.
    eapply end_frame_trans, H3. eapply end_frame_trans, H2. exact H1. }
  apply (wp_mono _ (fun _ s' => frame s6 s')).
  - destruct v as [v|]; [|by apply wp_ret]. destruct (holds v _); [apply wp_emit_event|].
    destruct (holds v _); [apply wp_emit_event|by apply wp_ret].
  - intros [] s7. by apply end_frame_frame.
Qed.

(** The status of the mission after a step that ran some nodes. *)
Definition closing (m : Mission) : MissionStatus.t :=
  if is_finished (get_progress m) &&
     negb (bool_decide (mi_status m ∈ [MissionStatus.FAILED; MissionStatus.COMPLETED]))
  then final_status (failed_nodes m) else mi_status m.

Lemma wp_check_completion s :
  wp (check_completion env) (fun _ s' => end_frame (closing (gx_mission s)) s s') s.
Proof.
  unfold check_completion. apply wp_read. apply wp_bind.
  apply (wp_mono _ (fun _ s' => end_frame (closing (gx_mission s)) s s')).
  - unfold closing. destruct (_ && _); [apply wp_finish|by apply wp_ret].
  - intros [] s1 H1. eapply wp_mono; [apply wp_announce_ready|]. intros [] s2. by apply end_frame_frame.
Qed.

(** ** The step on statuses: its abstract specification *)

(** The status of each node after the step, from the mission before it. *)
Definition status_after (step : nat) (m : Mission) (j : nat) (n : MissionNode) : NodeStatus.t :=
  let ok := verdict env step (get_ready_nodes m) in
  if is_ready m n then if ok (j, n) then NodeStatus.COMPLETED else NodeStatus.FAILED
  else if hit ok m (get_ready_nodes m) j then blocked_status (mn_status n) else mn_status n.

(** The status of the mission, once the nodes are those of [m']. *)
Definition mission_after (m m' : Mission) : MissionStatus.t :=
  match get_ready_nodes m with
  | [] => mi_status m
  | _ => closing (with_status (mi_status m) m')
  end.

Lemma elem_ready m i n :
  (i, n) ∈ get_ready_nodes m <-> mi_nodes m !! i = Some n /\ is_ready m n = true.
Proof. apply elem_positions. Qed.

Lemma elem_ready_pos m i n :
  mi_nodes m !! i = Some n -> i ∈ (get_ready_nodes m).*1 <-> is_ready m n = true.
Proof.
  intros Hn. rewrite list_elem_of_fmap. split.
  - intros ([j n'] & -> & Hp%elem_ready). cbn in *. destruct Hp as [Hn' Hr]. congruence.
  - intros Hr. exists (i, n). split; [done|]. by apply elem_ready.
Qed.

Lemma ready_running m p :
  p ∈ get_ready_nodes m ->
  mi_nodes (mark_running (get_ready_nodes m) m) !! p.1 = Some (with_node_status NodeStatus.RUNNING p.2).
Proof.
  destruct p as [i n]. intros Hp. pose proof (proj1 (elem_ready m i n) Hp) as [Hn Hr].
  cbn [fst snd]. rewrite lookup_mark_running, decide_True by (by eapply elem_ready_pos). by rewrite Hn.
Qed.

(** A ready node is not blocked by the same step, so settling the others gives
    the specified status. *)
Lemma settle_fold_after step m j n :
  mi_nodes m !! j = Some n ->
  fold_left (settle_one (verdict env step (get_ready_nodes m)) m j) (get_ready_nodes m)
    (if decide (j ∈ (get_ready_nodes m).*1) then NodeStatus.RUNNING else mn_status n)
  = status_after step m j n.
Proof.
  intros Hn. unfold status_after. pose proof (elem_ready_pos m j n Hn) as Hr.
  destruct (is_ready m n) eqn:E.
  - rewrite decide_True by tauto.
    apply (settle_fold_own _ _ _ _ (j, n)); [apply positions_NoDup|by apply elem_ready].
  - rewrite decide_False by (rewrite Hr; done). apply settle_fold_others. rewrite Hr. done.
Qed.

Lemma fold_settle_ext ok ok' m j l st :
  (forall p, p ∈ l -> ok p = ok' p) ->
  fold_left (settle_one ok m j) l st = fold_left (settle_one ok' m j) l st.
Proof.
  revert st. induction l as [|p l IH]; intros st Hok; [done|]. cbn [fold_left].
  unfold settle_one at 2 4. rewrite Hok by set_solver. apply IH. set_solver.
Qed.

Lemma closing_ext m m' : mi_nodes m = mi_nodes m' -> mi_status m = mi_status m' -> closing m = closing m'.
Proof.
  intros Hn Hs. unfold closing, is_finished, get_progress, final_status, failed_nodes, completed_nodes.
  cbn [mp_total mp_completed mp_failed mp_skipped].
  unfold total_nodes, completed_nodes, failed_nodes, count_status. by rewrite Hn, Hs.
Qed.

Lemma fold_settle_same ok m m' j l st :
  same_graph m m' -> fold_left (settle_one ok m' j) l st = fold_left (settle_one ok m j) l st.
Proof.
  intros Hg. revert st. induction l as [|p l IH]; intros st; [done|]. cbn [fold_left].
  by rewrite (settle_one_same _ _ _ _ _ _ Hg), IH.
Qed.

(** What a step does, as a relation between the states around it. *)
Record stepped (s s' : Exec) : Prop := Stepped {
  sp_graph : same_graph (gx_mission s) (gx_mission s');
  sp_count : gx_steps s' = S (gx_steps s);
  sp_runs : gx_runs s' = gx_runs s ++ map (pair (gx_steps s))
    (List.filter (env_granted env (gx_steps s)) (get_ready_nodes (gx_mission s)).*1);
  sp_nodes : forall j n, mi_nodes (gx_mission s) !! j = Some n ->
    status_at (gx_mission s') j = Some (status_after (gx_steps s) (gx_mission s) j n);
  sp_status : mi_status (gx_mission s') = mission_after (gx_mission s) (gx_mission s')
}.

Lemma execute_step_spec s :
  NoDup (node_ids (gx_mission s)) ->
  wp (execute_step env) (fun n s' => n = Z.of_nat (length (get_ready_nodes (gx_mission s))) /\ stepped s s') s.
Proof.
  intros Hnd. unfold execute_step. apply wp_bind.
  apply (wp_mono _ (fun k s' => k = gx_steps s /\ s' = (begin_step s).2)); [done|].
  intros k s0 [-> ->]. apply wp_read. cbn [gx_mission begin_step snd].
  set (m := gx_mission s) in *. set (ready := get_ready_nodes m). apply wp_update, wp_bind.
  set (s1 := on_mission _ _). assert (Hm1 : gx_mission s1 = mark_running ready m) by done.
  pose proof (mark_running_same ready m) as Hg1. rewrite <- Hm1 in Hg1.
  eapply wp_mono; [apply wp_harvest|].
  { apply positions_NoDup. }
  { by apply positions_ids. }
  { intros p Hp. rewrite Hm1. by apply ready_running. }
  cbn beta. intros results s2 (Hc2 & Hsp2 & Hr2 & Hok). destruct Hc2 as (Hg2 & Hs2 & Hst2).
  assert (Hg12 : same_graph m (gx_mission s2)) by (by transitivity (gx_mission s1)).
  apply wp_bind. eapply wp_mono; [apply wp_settle_all|].
  { destruct Hg12 as (_ & Hids & _). by rewrite Hids. }
  { intros [i n] Hp. pose proof (proj1 (elem_ready m i n) Hp) as [Hn _].
    destruct (same_graph_lookup _ _ _ _ Hg12 Hn) as (n' & Hn' & Hid & _). by exists n'. }
  intros [] s3 (Hg3 & Hs3 & Hr3 & Hsp3 & Hst3). apply wp_bind.
  assert (Hg13 : same_graph m (gx_mission s3)) by (by transitivity (gx_mission s2)).
  assert (Hnodes : forall j n, mi_nodes m !! j = Some n ->
    status_at (gx_mission s3) j = Some (status_after (gx_steps s) m j n)).
  { intros j n Hn. rewrite Hst3, Hst2, Hm1. unfold status_at. rewrite lookup_mark_running, Hn.
    rewrite <- (settle_fold_after (gx_steps s) m j n Hn).
    replace (mn_status <$> (if decide (j ∈ ready.*1) then with_node_status NodeStatus.RUNNING <$> Some n else Some n))
      with (Some (if decide (j ∈ ready.*1) then NodeStatus.RUNNING else mn_status n)) by (by case_decide).
    cbn. f_equal.
    rewrite (fold_settle_ext _ _ _ _ _ _ Hok). by apply fold_settle_same. }
  assert (Hst : mi_status (gx_mission s3) = mi_status m).
  { rewrite Hs3, Hs2, Hm1. apply mark_running_status. }
  apply (wp_mono _ (fun _ s' => end_frame (match ready with [] => mi_status m | _ => closing (gx_mission s3) end) s3 s')).
  - destruct ready; [apply wp_ret; by split_and!|apply wp_check_completion].
  - intros [] s4 (Hn4 & He4 & Hs4 & Hr4 & Hsp4). apply wp_ret. split; [done|].
    assert (Hg34 : same_graph (gx_mission s3) (gx_mission s4)) by (unfold same_graph, node_ids; by rewrite Hn4, He4).
    split.
    + by transitivity (gx_mission s3).
    + rewrite Hsp4, Hsp3, Hsp2. done.
    + rewrite Hr4, Hr3, Hr2. done.
    + intros j n Hn. unfold status_at. rewrite Hn4. by apply Hnodes.
    + rewrite Hs4. unfold mission_after. fold m ready. destruct ready; [done|].
      by apply closing_ext.
Qed.
End step.

(** C4: One step.  From any mission with distinct ids, and if the store never
    raises, [execute_step] answers the number of ready nodes and leaves the
    graph alone; every ready node the gate grants is called, once, in order;
    each ends COMPLETED or FAILED after its answer; of the others, the PENDING
    direct dependents of a failed one become BLOCKED and the rest is unchanged;
    and the mission ends when no node is left to run. *)
Theorem execute_step_outcome env s :
  reliable env -> NoDup (node_ids (gx_mission s)) ->
  exists s', execute_step env s = (Ok (Z.of_nat (length (get_ready_nodes (gx_mission s)))), s') /\
    stepped env s s'.
Proof.
  intros Hrel Hnd. destruct (wp_ok _ _ _ (execute_step_spec env Hrel s Hnd)) as (n & s' & Hrun & -> & Hs).
  by exists s'.
Qed.

(** ** Building *)

Lemma graph_build_depends ns es m i n :
  mi_nodes (graph_build ns es m) !! i = Some n ->
  forall d, d ∈ mn_depends n <-> (d, mn_id n) ∈ epairs (graph_build ns es m).
Proof.
  cbn. rewrite lookup_map. intros (n0 & _ & ->)%fmap_Some d. cbn. unfold epairs. cbn.
  rewrite !list_elem_of_fmap. split.
  - intros (e & -> & He). rewrite list_elem_of_In, filter_In, <- list_elem_of_In in He.
    destruct He as [He Ht%bool_decide_eq_true]. exists e. unfold epair. by rewrite Ht.
  - intros (e & [= -> Ht] & He). exists e. split; [done|].
    rewrite list_elem_of_In, filter_In, <- list_elem_of_In. by rewrite bool_decide_eq_true_2.
Qed.

Lemma build_mission_spec env ns es s :
  wp (build_mission env ns es)
    (fun issues s' =>
       let m1 := graph_build (map (with_mission_id (mi_id (gx_mission s))) ns) es (gx_mission s) in
       same_graph m1 (gx_mission s') /\ gx_runs s' = gx_runs s /\
       (issues = [] /\ built (gx_mission s') /\ mi_status (gx_mission s') = MissionStatus.READY \/
        issues <> [] /\ ~ built (gx_mission s') /\ mi_status (gx_mission s') = mi_status (gx_mission s))) s.
Proof.
  unfold build_mission. apply wp_read, wp_update, wp_read, wp_bind. cbn [gx_mission on_mission].
  set (m1 := graph_build _ es _).
  destruct (mission_validate_spec m1) as (issues & m2 & Hval & Hiff & Hcase). rewrite Hval.
  apply (wp_mono _ (fun r t => r = (issues, m2) /\ t = on_mission (graph_build (map (with_mission_id (mi_id (gx_mission s))) ns) es) s)); [done|].
  intros r t [-> ->]. apply wp_update. cbn [fst snd].
  assert (Hb : issues = [] <-> built m1).
  { rewrite Hiff. split; [intros (?&?&?); split; [done..|]; apply graph_build_depends|by intros [? ? ? _]]. }
  assert (Hsame : forall m, mi_nodes m = mi_nodes m1 -> mi_edges m = mi_edges m1 -> same_graph m1 m).
  { intros m Hn He. unfold same_graph, node_ids. by rewrite Hn, He. }
  destruct Hcase as [[-> ->]|[Hne ->]].
  - apply wp_update, wp_bind. eapply wp_mono; [apply wp_emit_event|]. intros [] s' (Hm & Hr & _).
    apply wp_ret. cbn zeta. rewrite Hm, Hr. split; [by apply Hsame|]. split; [done|]. left.
    split; [done|]. split; [|done]. eapply built_same; [|by apply Hb]. by apply Hsame.
  - destruct issues as [|x issues]; [done|]. apply wp_bind, wp_ret, wp_bind.
    eapply wp_mono; [apply wp_emit_event|]. intros [] s' (Hm & Hr & _). apply wp_ret. cbn zeta. rewrite Hm, Hr.
    split; [by apply Hsame|]. split; [done|]. right. split; [done|]. split; [|done].
    intros Hbuilt. apply Hne, Hb. exact Hbuilt.
Qed.

(** The building of a valid graph. *)
Lemma wp_build_valid env ns es x :
  let m1 := graph_build (map (with_mission_id (mi_id (gx_mission x))) ns) es (gx_mission x) in
  built m1 ->
  wp (build_mission env ns es) (fun issues x' => issues = [] /\ gx_runs x' = gx_runs x /\
    gx_mission x' = with_status MissionStatus.READY m1) x.
Proof.
  intros m1 Hb. unfold build_mission. apply wp_read, wp_update, wp_read, wp_bind. cbn [gx_mission on_mission]. fold m1.
  destruct (mission_validate_spec m1) as (issues & m2 & Hval & Hiff & Hcase). rewrite Hval.
  assert (issues = []) as -> by (apply Hiff; destruct Hb as [? ? ? _]; done).
  apply wp_ret, wp_update. cbn [fst snd]. destruct Hcase as [[_ ->]|[? _]]; [|done].
  apply wp_update, wp_bind. eapply wp_mono; [apply wp_emit_event|]. intros [] x' (Hm & Hr & _). apply wp_ret. by rewrite Hm, Hr.
Qed.

(** building.  [build_graph] always answers; without any issue the mission is
    READY, its ids are distinct, its edges join its nodes without a cycle and
    the dependencies of each node are the sources of its edges; with issues it
    is not so, and the status of the mission is the one it had. *)
Theorem build_mission_exact env ns es s :
  exists issues s', build_mission env ns es s = (Ok issues, s') /\
    let m1 := graph_build (map (with_mission_id (mi_id (gx_mission s))) ns) es (gx_mission s) in
    same_graph m1 (gx_mission s') /\ gx_runs s' = gx_runs s /\
    (issues = [] /\ built (gx_mission s') /\ mi_status (gx_mission s') = MissionStatus.READY \/
     issues <> [] /\ ~ built (gx_mission s') /\ mi_status (gx_mission s') = mi_status (gx_mission s)).
Proof. destruct (wp_ok _ _ _ (build_mission_spec env ns es s)) as (issues & s' & H). by exists issues, s'. Qed.

(** ** A concrete mission *)

Definition demo_node (id : string) : MissionNode :=
  mkMNode id "" id "" "task" MissionPriority.NORMAL NodeStatus.PENDING "" "" "" [] [] 0 [] [] [] None None 0 "".

Definition demo_context : MissionContext := mkMContext "" "" "" "" "" [] [].

(** [a] and [c] are ready; [b] waits for [a]. *)
Definition demo_mission : Mission :=
  graph_build (map demo_node ["a"; "b"; "c"]) [mkMEdge "e" "a" "b" "depends_on"]
    (mkMission "m" "demo" "" "" MissionType.CUSTOM MissionPriority.NORMAL MissionStatus.RUNNING demo_context
       [] [] [] 0 0 None None None).

(** Every node succeeds, but those of [failing]. *)
Definition demo_env (failing : list nat) : Env :=
  mkEnv Z.of_nat (fun _ i _ => (Ok (negb (bool_decide (i ∈ failing))), mkReport 1 None None None))
    (fun _ _ => true) (fun _ _ => true) 1200 None 2 None true (fun _ _ _ => None) (fun _ => None)
    (fun _ => "") (fun _ => "").

Definition demo_state : Exec := mkExec demo_mission 0 0 0 [] [] [].

Lemma execute_step_outcome_witness :
  (reliable (demo_env [0%nat]) /\ NoDup (node_ids (gx_mission demo_state))) /\
  exists s', execute_step (demo_env [0%nat]) demo_state = (Ok 2, s') /\ stepped (demo_env [0%nat]) demo_state s'.
Proof.
  assert (Hnd : NoDup (node_ids (gx_mission demo_state))) by (apply (bool_decide_eq_true_1 _); vm_compute; reflexivity).
  split; [by split|]. exact (execute_step_outcome (demo_env [0%nat]) demo_state I Hnd).
Defined.

Lemma demo_built : built demo_mission.
Proof.
  destruct (mission_validate_spec demo_mission) as (issues & m' & Hval & Hiff & _).
  assert (Hi : match mission_validate demo_mission with Ok r => r.1 | Err _ => [Msg "" []] end = [])
    by (vm_compute; reflexivity).
  rewrite Hval in Hi. apply Hiff in Hi as (Hnd & Hc & Hac). split; [done..|]. apply graph_build_depends.
Qed.

Lemma parallel_groups_exact_witness :
  NoDup (node_ids demo_mission) /\
  exists gs, get_parallel_groups demo_mission = Ok gs /\ concat gs ≡ₚ node_ids demo_mission /\
    layered (epairs demo_mission) gs.
Proof.
  destruct demo_built as [Hnd Hc Hac _]. split; [exact Hnd|]. exact (parallel_groups_exact demo_mission Hnd Hc Hac).
Defined.

(** The failure of [a] blocks [b] and lets [c] complete. *)
Example demo_step :
  map mn_status (mi_nodes (gx_mission (execute_step (demo_env [0%nat]) demo_state).2))
  = [NodeStatus.FAILED; NodeStatus.BLOCKED; NodeStatus.COMPLETED].
Proof. reflexivity. Qed.
