(* ===== verification/MissionRuns.v ===== *)
(** * Runs of a mission ([GraphExecutor.execute_step], repeated)

    What holds after any number of steps of the executor: which nodes have been
    called, when nothing is left to call, when the mission completes and when it
    never ends. *)
From stdpp Require Import base gmap strings list sets relations.
From Stdlib Require Import ZArith QArith Lia.
From S2P Require Import Prelude.
From S2P Require Import Kahn.
From S2P Require Import MissionGraph.
From S2P Require Import RetryPolicy.
From S2P Require Import GraphExecutor.
#[local] Open Scope Z_scope.

(** ** Counting *)

(** The three statuses that count as done. *)
Definition done_status (st : NodeStatus.t) : bool :=
  bool_decide (st ∈ [NodeStatus.COMPLETED; NodeStatus.FAILED; NodeStatus.SKIPPED]).

Lemma finished_counts m :
  completed_nodes m + failed_nodes m + count_status NodeStatus.SKIPPED m
  = Z.of_nat (length (List.filter (fun n => done_status (mn_status n)) (mi_nodes m))).
Proof.
  unfold completed_nodes, failed_nodes, count_status. induction (mi_nodes m) as [|n ns IH]; [done|].
  cbn [List.filter].
  assert (Hn : Z.b2z (has_status NodeStatus.COMPLETED n) + Z.b2z (has_status NodeStatus.FAILED n)
    + Z.b2z (has_status NodeStatus.SKIPPED n) = Z.b2z (done_status (mn_status n)))
    by (unfold has_status; by destruct (mn_status n)).
  destruct (has_status NodeStatus.COMPLETED n), (has_status NodeStatus.FAILED n),
    (has_status NodeStatus.SKIPPED n), (done_status (mn_status n)); cbn [length Z.b2z] in *; lia.
Qed.

Lemma is_finished_spec m :
  is_finished (get_progress m) = true <-> forall i n, mi_nodes m !! i = Some n -> done_status (mn_status n) = true.
Proof.
  unfold is_finished, get_progress. cbn [mp_total mp_completed mp_failed mp_skipped].
  rewrite Z.leb_le, finished_counts. unfold total_nodes. generalize (mi_nodes m). intros ns.
  induction ns as [|n ns IH]; cbn [List.filter length].
  { split; [|lia]. intros _ i n Hn. by rewrite lookup_nil in Hn. }
  pose proof (filter_length_le (fun n => done_status (mn_status n)) ns) as Hle.
  destruct (done_status (mn_status n)) eqn:E; cbn [length].
  - transitivity (Z.of_nat (length ns) <= Z.of_nat (length (List.filter (fun n => done_status (mn_status n)) ns)));
      [lia|]. rewrite IH. split; intros Hall.
    + intros [|i] n' Hn'; [by simplify_eq/=|by apply (Hall i)].
    + intros i n' Hn'. by apply (Hall (S i)).
  - split; [lia|]. intros Hall. by rewrite (Hall 0%nat n eq_refl) in E.
Qed.

(** ** Readiness and completion *)

Definition completed (m : Mission) (id : string) : Prop :=
  exists i n, mi_nodes m !! i = Some n /\ mn_id n = id /\ mn_status n = NodeStatus.COMPLETED.

Lemma dep_satisfied_spec m d : NoDup (node_ids m) -> dep_satisfied m d = true <-> completed m d.
Proof.
  intros Hnd. unfold dep_satisfied, completed. destruct (find_node m d) as [i|] eqn:E.
  - destruct (find_index_Some _ _ _ E) as (n & Hn & Hid & _). rewrite Hn. unfold has_status.
    rewrite bool_decide_eq_true. split; [by exists i, n|]. intros (j & n' & Hn' & Hid' & Hst).
    subst d. rewrite <- Hid' in E. unfold find_node in E. rewrite (find_index_unique _ j n' Hnd Hn') in E.
    by simplify_eq.
  - split; [done|]. intros (j & n & Hn & <- & _). unfold find_node in E.
    by rewrite (find_index_unique _ j n Hnd Hn) in E.
Qed.

Lemma is_ready_spec m i n :
  built m -> mi_nodes m !! i = Some n ->
  is_ready m n = true <->
  not_startable n = false /\ forall d, (d, mn_id n) ∈ epairs m -> completed m d.
Proof.
  intros [Hnd _ _ Hdep] Hn. unfold is_ready. rewrite andb_true_iff, negb_true_iff. f_equiv.
  unfold dependencies_satisfied. rewrite forallb_forall. split; intros Hall d Hd.
  - apply dep_satisfied_spec, Hall, list_elem_of_In, (Hdep i n Hn d); done.
  - apply dep_satisfied_spec; [done|]. apply Hall, (Hdep i n Hn d), list_elem_of_In. done.
Qed.

Section runs.
Variable env : Env.

Lemma stepped_node s s' i n :
  stepped env s s' -> mi_nodes (gx_mission s) !! i = Some n ->
  exists n', mi_nodes (gx_mission s') !! i = Some n' /\ mn_id n' = mn_id n /\
    mn_status n' = status_after env (gx_steps s) (gx_mission s) i n.
Proof.
  intros Hs Hn. destruct (same_graph_lookup _ _ _ _ (sp_graph _ _ _ Hs) Hn) as (n' & Hn' & Hid & _).
  exists n'. split; [done|]. split; [done|]. pose proof (sp_nodes _ _ _ Hs i n Hn) as Hst.
  unfold status_at in Hst. rewrite Hn' in Hst. by injection Hst.
Qed.

Lemma stepped_node_back s s' i n' :
  stepped env s s' -> mi_nodes (gx_mission s') !! i = Some n' ->
  exists n, mi_nodes (gx_mission s) !! i = Some n /\ mn_id n = mn_id n' /\
    mn_status n' = status_after env (gx_steps s) (gx_mission s) i n.
Proof.
  intros Hs Hn'.
  destruct (same_graph_lookup _ _ _ _ (same_graph_sym _ _ (sp_graph _ _ _ Hs)) Hn') as (n & Hn & Hid & _).
  exists n. split; [done|]. split; [done|]. destruct (stepped_node s s' i n Hs Hn) as (n'' & Hn'' & _ & Hst).
  by simplify_eq.
Qed.

Lemma blocked_status_cases st :
  blocked_status st = st \/ (st = NodeStatus.PENDING /\ blocked_status st = NodeStatus.BLOCKED).
Proof. destruct st; [right|left..]; done. Qed.

(** A node that may still start has not been run. *)
Lemma status_after_startable k m i n st :
  status_after env k m i n = st ->
  st ∉ [NodeStatus.COMPLETED; NodeStatus.FAILED; NodeStatus.RUNNING; NodeStatus.BLOCKED] ->
  is_ready m n = false /\ not_startable n = false.
Proof.
  intros <- Hst. unfold status_after in Hst. destruct (is_ready m n).
  - exfalso. apply Hst. destruct (verdict _ _ _ _); set_solver.
  - split; [done|]. unfold not_startable. apply bool_decide_eq_false. intros Hn. apply Hst.
    destruct (hit _ _ _ _); [|done]. by destruct (mn_status n); try set_solver.
Qed.

Lemma status_after_completed k m i n :
  status_after env k m i n = NodeStatus.COMPLETED <->
  if is_ready m n then verdict env k (get_ready_nodes m) (i, n) = true else mn_status n = NodeStatus.COMPLETED.
Proof.
  unfold status_after. destruct (is_ready m n); [by destruct (verdict _ _ _ _)|].
  destruct (hit _ _ _ _); [|done]. by destruct (mn_status n).
Qed.

Lemma ready_startable m n : is_ready m n = true -> not_startable n = false.
Proof. unfold is_ready. by intros [H%negb_true_iff _]%andb_true_iff. Qed.

Lemma not_startable_not_ready m n : not_startable n = true -> is_ready m n = false.
Proof. unfold is_ready. by intros ->. Qed.

Lemma completed_mono s s' d : stepped env s s' -> completed (gx_mission s) d -> completed (gx_mission s') d.
Proof.
  intros Hs (i & n & Hn & Hid & Hst). destruct (stepped_node s s' i n Hs Hn) as (n' & Hn' & Hid' & Hst').
  exists i, n'. split; [done|]. split; [congruence|]. rewrite Hst'. apply status_after_completed.
  rewrite not_startable_not_ready; [done|]. apply bool_decide_eq_true_2. rewrite Hst. set_solver.
Qed.

(** ** Any number of steps *)

Fixpoint steps (k : nat) : M Exec unit :=
  match k with
  | O => ret tt
  | S k' => execute_step env ;;; steps k'
  end.

(** What every step keeps holds after [k] steps; [P] may count them. *)
Lemma steps_inv (P : nat -> Exec -> Prop) k s :
  reliable env ->
  (forall j t, P j t -> NoDup (node_ids (gx_mission t))) ->
  (forall j t t', P j t -> stepped env t t' -> P (S j) t') ->
  P 0%nat s -> exists s', steps k s = (Ok tt, s') /\ P k s'.
Proof.
  intros Hrel Hnd Hstep H0. enough (Hgen : forall j s, P j s -> exists s', steps k s = (Ok tt, s') /\ P (k + j)%nat s').
  { destruct (Hgen 0%nat s H0) as (s' & Hrun & HP). rewrite Nat.add_0_r in HP. by exists s'. }
  clear s H0. induction k as [|k IH]; intros j s Hj; [by exists s|]. cbn [steps].
  destruct (wp_ok _ _ _ (execute_step_spec env Hrel s (Hnd j s Hj))) as (n & s1 & Hrun & _ & Hs1).
  destruct (IH (S j) s1 (Hstep j s s1 Hj Hs1)) as (s' & Hrun' & HP). exists s'.
  rewrite (bind_ok _ _ _ _ _ Hrun). split; [done|]. by rewrite Nat.add_succ_r in HP.
Qed.

Lemma built_step s s' : stepped env s s' -> built (gx_mission s) -> built (gx_mission s').
Proof. intros Hs. apply built_same, Hs. Qed.

Lemma step_edges s s' : stepped env s s' -> epairs (gx_mission s') = epairs (gx_mission s).
Proof. intros [(He & _) _ _ _ _]. unfold epairs. by rewrite He. Qed.

(** ** Termination

    A rank grows along the edges: the depth of a node, or its place in a
    topological order. *)
Definition ranked (rk : string -> nat) (m : Mission) : Prop :=
  forall s t, (s, t) ∈ epairs m -> (rk s < rk t)%nat.

Lemma settle_step rk k s s' :
  built (gx_mission s) -> ranked rk (gx_mission s) -> stepped env s s' ->
  (forall i n, mi_nodes (gx_mission s) !! i = Some n -> (rk (mn_id n) < k)%nat ->
     is_ready (gx_mission s) n = false) ->
  forall i n, mi_nodes (gx_mission s') !! i = Some n -> (rk (mn_id n) < S k)%nat ->
    is_ready (gx_mission s') n = false.
Proof.
  intros Hb Hrk Hs Hk i n' Hn' Hlt. apply not_true_iff_false. intros Hready.
  pose proof (built_step _ _ Hs Hb) as Hb'.
  apply (is_ready_spec _ i n' Hb' Hn') in Hready as [Hstart Hdeps].
  destruct (stepped_node_back _ _ _ _ Hs Hn') as (n & Hn & Hid & Hst).
  apply bool_decide_eq_false_1 in Hstart. rewrite <- Hid in *. rewrite (step_edges _ _ Hs) in Hdeps.
  destruct (status_after_startable _ _ _ _ _ (eq_sym Hst)) as [Hnr Hns]; [set_solver|].
  apply not_true_iff_false in Hnr. apply Hnr, (is_ready_spec _ i n Hb Hn). split; [done|].
  intros d Hd. destruct (Hdeps d Hd) as (j & p' & Hp' & Hpid & Hpst).
  destruct (stepped_node_back _ _ _ _ Hs Hp') as (p & Hp & Hidp & Hstp).
  exists j, p. split; [done|]. split; [congruence|].
  rewrite Hpst in Hstp. symmetry in Hstp. apply status_after_completed in Hstp.
  rewrite (Hk j p Hp) in Hstp; [done|]. pose proof (Hrk d (mn_id n) Hd).
  replace (mn_id p) with d by congruence. lia.
Qed.

Definition below (d : nat) (rk : string -> nat) (m : Mission) : Prop :=
  forall id, id ∈ node_ids m -> (rk id < d)%nat.

Lemma not_ready_nil m :
  (forall i n, mi_nodes m !! i = Some n -> is_ready m n = false) -> get_ready_nodes m = [].
Proof.
  intros Hall. destruct (get_ready_nodes m) as [|[i n] l] eqn:E; [done|].
  destruct (proj1 (elem_ready m i n)) as [Hn Hr]; [rewrite E; set_solver|].
  by rewrite (Hall i n Hn) in Hr.
Qed.

Lemma lookup_node_ids m i n : mi_nodes m !! i = Some n -> mn_id n ∈ node_ids m.
Proof. intros Hn. apply list_elem_of_fmap. exists n. split; [done|]. by eapply list_elem_of_lookup_2. Qed.

(** What holds at every step of a run under a rank. *)
Record settling (rk : string -> nat) (k : nat) (m0 : Mission) (s : Exec) : Prop := Settling {
  se_built : built (gx_mission s);
  se_same : same_graph m0 (gx_mission s);
  se_rank : forall i n, mi_nodes (gx_mission s) !! i = Some n -> (rk (mn_id n) < k)%nat ->
     is_ready (gx_mission s) n = false
}.

Lemma same_epairs m m' : same_graph m m' -> epairs m' = epairs m.
Proof. intros (He & _). unfold epairs. by rewrite He. Qed.

Lemma settling_step rk k m0 s s' :
  ranked rk m0 -> settling rk k m0 s -> stepped env s s' -> settling rk (S k) m0 s'.
Proof.
  intros Hrk [Hb Hsame Hk] Hs. split.
  - by apply (built_step _ _ Hs).
  - transitivity (gx_mission s); [done|apply Hs].
  - apply (settle_step rk k s); [done| |done..]. unfold ranked. by rewrite (same_epairs _ _ Hsame).
Qed.

Lemma settling_end rk d m0 s : below d rk m0 -> settling rk d m0 s -> get_ready_nodes (gx_mission s) = [].
Proof.
  intros Hd [Hb (_ & Hids & _) Hk]. apply not_ready_nil. intros i n Hn. apply (Hk i n Hn).
  apply Hd. rewrite <- Hids. by eapply lookup_node_ids.
Qed.

(** termination.  A built mission of [d] dependency levels has nothing left to
    run after [d] steps, whatever the nodes answer. *)
Theorem runs_settle rk d s :
  reliable env -> built (gx_mission s) -> ranked rk (gx_mission s) -> below d rk (gx_mission s) ->
  exists s', steps d s = (Ok tt, s') /\ get_ready_nodes (gx_mission s') = [].
Proof.
  intros Hrel Hb Hrk Hd.
  destruct (steps_inv (fun k => settling rk k (gx_mission s)) d s) as (s' & Hrun & Hs'); [done|..].
  - intros j t Ht. apply Ht.
  - intros j t t'. by apply settling_step.
  - split; [done..|]. intros i n _ Hlt. lia.
  - exists s'. split; [done|]. by eapply settling_end.
Qed.

(** ** Order of the calls *)

(** Every node called so far has answered and had its dependencies completed. *)
Record ordered (s : Exec) : Prop := Ordered {
  od_built : built (gx_mission s);
  od_once : NoDup (map snd (gx_runs s));
  od_called : forall k i, (k, i) ∈ gx_runs s -> exists n, mi_nodes (gx_mission s) !! i = Some n /\
    mn_status n ∈ [NodeStatus.COMPLETED; NodeStatus.FAILED] /\
    forall d, (d, mn_id n) ∈ epairs (gx_mission s) -> completed (gx_mission s) d
}.

Lemma status_after_ended k m i n :
  mn_status n ∈ [NodeStatus.COMPLETED; NodeStatus.FAILED] -> status_after env k m i n = mn_status n.
Proof.
  intros Hst. unfold status_after. rewrite not_startable_not_ready.
  - destruct (hit _ _ _ _); [|done]. destruct (mn_status n); try done; set_solver.
  - apply bool_decide_eq_true_2. set_solver.
Qed.

Lemma status_after_ready k m i n :
  is_ready m n = true -> status_after env k m i n ∈ [NodeStatus.COMPLETED; NodeStatus.FAILED].
Proof. intros Hr. unfold status_after. rewrite Hr. destruct (verdict _ _ _ _); set_solver. Qed.

Lemma called_ready k m i :
  (k, i) ∈ map (pair k) (List.filter (env_granted env k) (get_ready_nodes m).*1) ->
  exists n, mi_nodes m !! i = Some n /\ is_ready m n = true.
Proof.
  intros (j & [= ->] & Hj)%list_elem_of_fmap.
  apply list_elem_of_In, filter_In, proj1, list_elem_of_In, list_elem_of_fmap in Hj as ([j' n] & -> & Hp).
  exists n. by apply elem_ready.
Qed.

Lemma elem_new_runs k0 m k i :
  (k, i) ∈ map (pair k0) (List.filter (env_granted env k0) (get_ready_nodes m).*1) ->
  exists n, mi_nodes m !! i = Some n /\ is_ready m n = true.
Proof.
  intros Hin. pose proof Hin as (j & [= -> _] & _)%list_elem_of_fmap. by apply called_ready in Hin.
Qed.

Lemma NoDup_list_filter {A} (P : A -> bool) l : NoDup l -> NoDup (List.filter P l).
Proof. intros Hnd. rewrite <- (map_id (List.filter P l)). apply NoDup_map_filter. by rewrite map_id. Qed.

Lemma deps_mono s s' d :
  stepped env s s' ->
  (forall x, (x, d) ∈ epairs (gx_mission s) -> completed (gx_mission s) x) ->
  forall x, (x, d) ∈ epairs (gx_mission s') -> completed (gx_mission s') x.
Proof. intros Hs Hd x. rewrite (step_edges _ _ Hs). intros Hx. by apply (completed_mono s s' x Hs), Hd. Qed.

Lemma ordered_step s s' : ordered s -> stepped env s s' -> ordered s'.
Proof.
  intros [Hb Hnd Hcalled] Hs.
  split.
  - by apply (built_step s s').
  - rewrite (sp_runs _ _ _ Hs), map_app, map_map. cbn. rewrite map_id.
    apply NoDup_app. split; [done|]. split.
    + intros i (k & -> & Hki)%list_elem_of_fmap Hi. destruct k as [k i]. cbn in *.
      destruct (Hcalled k i Hki) as (n & Hn & Hst & _).
      apply list_elem_of_In, filter_In, proj1, list_elem_of_In in Hi.
      apply (elem_ready_pos _ i n Hn), ready_startable, bool_decide_eq_false in Hi. set_solver.
    + apply NoDup_list_filter, positions_NoDup.
  - intros k i. rewrite (sp_runs _ _ _ Hs), elem_of_app. intros [Hki|Hki].
    + destruct (Hcalled k i Hki) as (n & Hn & Hst & Hd).
      destruct (stepped_node _ _ _ _ Hs Hn) as (n' & Hn' & Hid & Hst').
      exists n'. split; [done|]. rewrite Hst', Hid, status_after_ended by done. split; [done|].
      by apply (deps_mono s s').
    + destruct (elem_new_runs _ _ _ _ Hki) as (n & Hn & Hr).
      destruct (stepped_node _ _ _ _ Hs Hn) as (n' & Hn' & Hid & Hst').
      exists n'. split; [done|]. rewrite Hst', Hid. split; [by apply status_after_ready|].
      apply (deps_mono s s' _ Hs). by apply (is_ready_spec _ i n Hb Hn).
Qed.

(** C5: safety.  In any number of steps from a built mission, no node is called
    twice, and a node is called only once all its dependencies are COMPLETED. *)
Theorem runs_order k s :
  reliable env -> built (gx_mission s) -> gx_runs s = [] ->
  exists s', steps k s = (Ok tt, s') /\ NoDup (map snd (gx_runs s')) /\
    forall j i, (j, i) ∈ gx_runs s' -> exists n, mi_nodes (gx_mission s') !! i = Some n /\
      mn_status n ∈ [NodeStatus.COMPLETED; NodeStatus.FAILED] /\
      forall d, (d, mn_id n) ∈ epairs (gx_mission s') -> completed (gx_mission s') d.
Proof.
  intros Hrel Hb Hruns.
  destruct (steps_inv (fun _ => ordered) k s) as (s' & Hrun & [_ Hnd Hc]); [done|..].
  - intros _ t Ht. apply Ht.
  - intros _ t t'. apply ordered_step.
  - split; [done|rewrite Hruns; constructor|]. rewrite Hruns. intros ? ? H. by apply elem_of_nil in H.
  - by exists s'.
Qed.

(** ** Missions that never end *)

Definition unfinished (st : NodeStatus.t) : bool := negb (done_status st).

(** [t] waits for a node that failed. *)
Definition doomed (m : Mission) : Prop :=
  exists i f j t, mi_nodes m !! i = Some f /\ mn_status f = NodeStatus.FAILED /\
    mi_nodes m !! j = Some t /\ unfinished (mn_status t) = true /\ (mn_id f, mn_id t) ∈ epairs m.

Lemma failed_not_completed m i f :
  NoDup (node_ids m) -> mi_nodes m !! i = Some f -> mn_status f = NodeStatus.FAILED -> ~ completed m (mn_id f).
Proof.
  intros Hnd Hf Hst (j & n & Hn & Hid & Hst'). assert (j = i) as ->; [|congruence].
  pose proof (find_index_unique _ j n Hnd Hn) as H1. pose proof (find_index_unique _ i f Hnd Hf) as H2.
  rewrite Hid in H1. congruence.
Qed.

Lemma unfinished_status_after k m i n :
  is_ready m n = false -> unfinished (mn_status n) = true -> unfinished (status_after env k m i n) = true.
Proof.
  intros Hr Hu. unfold status_after. rewrite Hr. destruct (hit _ _ _ _); [|done]. by destruct (mn_status n).
Qed.

Lemma doomed_step s s' :
  built (gx_mission s) -> doomed (gx_mission s) -> stepped env s s' ->
  doomed (gx_mission s') /\ mi_status (gx_mission s') = mi_status (gx_mission s).
Proof.
  intros Hb (i & f & j & t & Hf & Hfst & Ht & Hu & He) Hs.
  assert (Hnr : is_ready (gx_mission s) t = false).
  { apply not_true_iff_false. intros Hr. apply (is_ready_spec _ j t Hb Ht) in Hr as [_ Hd].
    exact (failed_not_completed _ i f (bu_nodup _ Hb) Hf Hfst (Hd _ He)). }
  destruct (stepped_node _ _ _ _ Hs Hf) as (f' & Hf' & Hidf & Hstf).
  destruct (stepped_node _ _ _ _ Hs Ht) as (t' & Ht' & Hidt & Hstt).
  rewrite status_after_ended in Hstf by (rewrite Hfst; set_solver).
  pose proof (unfinished_status_after (gx_steps s) (gx_mission s) j t Hnr Hu) as Hu'. rewrite <- Hstt in Hu'.
  split.
  - exists i, f', j, t'. rewrite (step_edges _ _ Hs). split_and!; congruence.
  - rewrite (sp_status _ _ _ Hs). unfold mission_after. destruct (get_ready_nodes _); [done|].
    unfold closing. destruct (is_finished _) eqn:E; [|done]. exfalso.
    pose proof (proj1 (is_finished_spec _) E j t' Ht') as Hd. unfold unfinished in Hu'.
    by rewrite Hd in Hu'.
Qed.

(** A mission that never ends.  Once a node that another one waits for has
    FAILED, no number of steps ends the mission: its status never changes. *)
Theorem runs_stuck k s :
  reliable env -> built (gx_mission s) -> doomed (gx_mission s) ->
  exists s', steps k s = (Ok tt, s') /\ mi_status (gx_mission s') = mi_status (gx_mission s) /\
    doomed (gx_mission s').
Proof.
  intros Hrel Hb Hd.
  destruct (steps_inv (fun _ t => built (gx_mission t) /\ doomed (gx_mission t) /\
    mi_status (gx_mission t) = mi_status (gx_mission s)) k s) as (s' & Hrun & _ & Hd' & Hst); [done|..].
  - by intros _ t [[] _].
  - intros _ t t' (Hbt & Hdt & Hst) Hs. destruct (doomed_step t t' Hbt Hdt Hs) as [Hd' Hst'].
    split_and!; [by apply (built_step t)|done|congruence].
  - done.
  - by exists s'.
Qed.

(** ** Missions that complete *)

(** Every node is let through, answers in time, and succeeds. *)
Definition succeeds : Prop :=
  forall k i n, env_granted env k i = true /\ env_timely env k i = true /\ (env_run env k i n).1 = Ok true.

Lemma succeeds_verdict k l p : succeeds -> verdict env k l p = true.
Proof.
  intros Hs. unfold verdict, answer. destruct (Hs k p.1 (with_node_status NodeStatus.RUNNING p.2)) as (-> & -> & ->).
  by destruct (one_worker _ _ _).
Qed.

Lemma succeeds_hit k m l j : succeeds -> hit (verdict env k (get_ready_nodes m)) m l j = false.
Proof.
  intros Hs. unfold hit. induction l as [|p l IH]; [done|]. cbn [existsb].
  by rewrite succeeds_verdict, IH.
Qed.

(** Either the node is to be run or it has been, once. *)
Record advancing (s : Exec) : Prop := Advancing {
  ad_nodes : forall i n, mi_nodes (gx_mission s) !! i = Some n ->
    mn_status n ∈ [NodeStatus.PENDING; NodeStatus.COMPLETED];
  ad_once : NoDup (map snd (gx_runs s));
  ad_runs : forall i, i ∈ map snd (gx_runs s) <-> status_at (gx_mission s) i = Some NodeStatus.COMPLETED;
  ad_status : mi_status (gx_mission s) ∈ [MissionStatus.RUNNING; MissionStatus.COMPLETED];
  ad_end : (forall i n, mi_nodes (gx_mission s) !! i = Some n -> mn_status n = NodeStatus.COMPLETED) ->
    mi_status (gx_mission s) = MissionStatus.COMPLETED
}.

Lemma succeeds_status_after k m i n :
  succeeds -> status_after env k m i n = if is_ready m n then NodeStatus.COMPLETED else mn_status n.
Proof. intros Hs. unfold status_after. by rewrite succeeds_verdict, succeeds_hit. Qed.

Lemma filter_granted k l : succeeds -> List.filter (env_granted env k) l = l.
Proof.
  intros Hs. induction l as [|i l IH]; [done|]. cbn. destruct (Hs k i (demo_node "")) as [-> _]. by rewrite IH.
Qed.

Lemma advancing_runs s s' :
  succeeds -> advancing s -> stepped env s s' ->
  NoDup (map snd (gx_runs s')) /\
  forall i, i ∈ map snd (gx_runs s') <-> status_at (gx_mission s') i = Some NodeStatus.COMPLETED.
Proof.
  intros Hok [Hnodes Hnd Hruns _ _] Hs.
  assert (Heq : map snd (gx_runs s') = map snd (gx_runs s) ++ (get_ready_nodes (gx_mission s)).*1).
  { rewrite (sp_runs _ _ _ Hs), map_app, map_map, filter_granted by done. cbn. by rewrite map_id. }
  rewrite Heq. split.
  - apply NoDup_app. split; [done|]. split; [|apply positions_NoDup].
    intros i Hi%Hruns Hr%list_elem_of_fmap. destruct Hr as ([j n] & -> & [Hn Hr]%elem_ready).
    unfold status_at in Hi. cbn in Hi. rewrite Hn in Hi. injection Hi as Hst.
    apply ready_startable, bool_decide_eq_false in Hr. rewrite Hst in Hr. set_solver.
  - intros i. rewrite elem_of_app, Hruns. unfold status_at at 2.
    destruct (mi_nodes (gx_mission s') !! i) as [n'|] eqn:Hn'.
    + destruct (stepped_node_back _ _ _ _ Hs Hn') as (n & Hn & _ & Hst). cbn. rewrite Hst.
      rewrite succeeds_status_after, (elem_ready_pos _ i n Hn) by done. unfold status_at. rewrite Hn. cbn.
      destruct (is_ready _ n); (split; [by intros [|]|auto]).
    + split; [|done]. intros Hi. exfalso.
      assert (exists n, mi_nodes (gx_mission s) !! i = Some n) as (n & Hn).
      { destruct Hi as [Hi|Hi]; [unfold status_at in Hi; destruct (mi_nodes (gx_mission s) !! i); [eauto|done]|].
        apply list_elem_of_fmap in Hi as ([j n] & -> & [Hn _]%elem_ready). eauto. }
      destruct (stepped_node _ _ _ _ Hs Hn) as (? & ? & _). congruence.
Qed.

Lemma advancing_step s s' :
  succeeds -> advancing s -> stepped env s s' -> advancing s'.
Proof.
  intros Hok Ha Hs. destruct (advancing_runs s s' Hok Ha Hs) as [Hnd' Hruns'].
  destruct Ha as [Hnodes _ _ Hst Hend].
  assert (Hnodes' : forall i n, mi_nodes (gx_mission s') !! i = Some n ->
    mn_status n ∈ [NodeStatus.PENDING; NodeStatus.COMPLETED]).
  { intros i n' Hn'. destruct (stepped_node_back _ _ _ _ Hs Hn') as (n & Hn & _ & ->).
    rewrite succeeds_status_after by done. destruct (is_ready _ _); [const_elem|by apply (Hnodes i)]. }
  assert (Hfail : failed_nodes (gx_mission s') = 0).
  { unfold failed_nodes, count_status. rewrite list_filter_nil; [done|].
    intros n [i Hi]%list_elem_of_lookup.
    specialize (Hnodes' i n Hi). unfold has_status. apply bool_decide_eq_false_2. intros Hf. rewrite Hf in Hnodes'.
    const_absurd Hnodes'. }
  split; [done..| |].
  - rewrite (sp_status _ _ _ Hs). unfold mission_after. destruct (get_ready_nodes _); [done|].
    unfold closing. destruct (_ && _); [|done]. unfold final_status. cbn [with_status].
    change (failed_nodes (with_status _ ?m)) with (failed_nodes m). rewrite Hfail. const_elem.
  - intros Hall. rewrite (sp_status _ _ _ Hs). unfold mission_after.
    destruct (get_ready_nodes (gx_mission s)) as [|p l] eqn:E.
    + apply Hend. intros i n Hn. destruct (stepped_node _ _ _ _ Hs Hn) as (n' & Hn' & _ & Hst').
      rewrite (Hall i n' Hn'), succeeds_status_after in Hst' by done.
      destruct (is_ready (gx_mission s) n) eqn:Er; [|done].
      pose proof (proj2 (elem_ready (gx_mission s) i n) (conj Hn Er)) as Hin.
      rewrite E in Hin. by apply elem_of_nil in Hin.
    + unfold closing. rewrite (proj2 (is_finished_spec _)).
      * cbn [andb with_status mi_status]. change (failed_nodes (with_status _ ?m)) with (failed_nodes m).
        rewrite Hfail. apply elem_of_cons in Hst as [Hst|Hst%list_elem_of_singleton]; by rewrite Hst.
      * intros i n Hn. by rewrite (Hall i n Hn).
Qed.

Lemma settled_completed m :
  built m -> get_ready_nodes m = [] ->
  (forall i n, mi_nodes m !! i = Some n -> mn_status n ∈ [NodeStatus.PENDING; NodeStatus.COMPLETED]) ->
  forall i n, mi_nodes m !! i = Some n -> mn_status n = NodeStatus.COMPLETED.
Proof.
  intros Hb Hnil Hnodes i n Hn. set (out := map mn_id (List.filter (has_status NodeStatus.COMPLETED) (mi_nodes m))).
  assert (Hout : forall d, d ∈ out <-> completed m d).
  { intros d. unfold out, completed. rewrite list_elem_of_fmap. split.
    - intros (p & -> & Hp). apply list_elem_of_In, filter_In in Hp as [Hp Hst].
      apply list_elem_of_In, list_elem_of_lookup in Hp as [j Hj]. exists j, p.
      split_and!; [done..|]. by apply bool_decide_eq_true in Hst.
    - intros (j & p & Hp & <- & Hst). exists p. split; [done|]. apply list_elem_of_In, filter_In.
      split; [by eapply list_elem_of_In, list_elem_of_lookup_2|]. by apply bool_decide_eq_true. }
  assert (Hall : completed m (mn_id n)).
  { apply Hout, (acyclic_ready_all (node_ids m) (epairs m)); [apply Hb..| |by eapply lookup_node_ids].
    intros id Hid Hpred. apply list_elem_of_fmap in Hid as (p & -> & [j Hj]%list_elem_of_lookup). apply Hout.
    pose proof (Hnodes j p Hj) as [Hst|Hst%list_elem_of_singleton]%elem_of_cons; [|by exists j, p].
    exfalso. assert (Hr : is_ready m p = true).
    { apply (is_ready_spec m j p Hb Hj). split; [unfold not_startable; by rewrite Hst|].
      intros d Hd. by apply Hout, Hpred. }
    pose proof (proj2 (elem_ready m j p) (conj Hj Hr)) as Hin. rewrite Hnil in Hin. by apply elem_of_nil in Hin. }
  destruct Hall as (j & p & Hp & Hid & Hst). enough (j = i) as -> by congruence.
  pose proof (find_index_unique _ j p (bu_nodup _ Hb) Hp) as H1.
  pose proof (find_index_unique _ i n (bu_nodup _ Hb) Hn) as H2. rewrite Hid in H1. congruence.
Qed.

(** A mission that advances and is complete has called each node once. *)
Lemma advancing_all_runs s :
  advancing s -> (forall i n, mi_nodes (gx_mission s) !! i = Some n -> mn_status n = NodeStatus.COMPLETED) ->
  map snd (gx_runs s) ≡ₚ seq 0 (length (mi_nodes (gx_mission s))).
Proof.
  intros Ha Hall. apply NoDup_Permutation; [apply Ha|apply NoDup_seq|].
  intros i. rewrite (ad_runs _ Ha i), elem_of_seq. unfold status_at.
  destruct (mi_nodes (gx_mission s) !! i) as [n|] eqn:Hn; cbn.
  - rewrite (Hall i n Hn). apply lookup_lt_Some in Hn. split; [lia|done].
  - apply lookup_ge_None in Hn. split; [done|lia].
Qed.

(** A running mission to run from its first node. *)
Lemma advancing_start s :
  mi_status (gx_mission s) = MissionStatus.RUNNING -> gx_runs s = [] -> mi_nodes (gx_mission s) <> [] ->
  (forall i n, mi_nodes (gx_mission s) !! i = Some n -> mn_status n = NodeStatus.PENDING) -> advancing s.
Proof.
  intros Hst Hruns Hne Hpend. split.
  - intros i n Hn. rewrite (Hpend i n Hn). const_elem.
  - rewrite Hruns. constructor.
  - intros i. rewrite Hruns. split; [intros Hin; by apply elem_of_nil in Hin|]. unfold status_at.
    destruct (mi_nodes (gx_mission s) !! i) as [n|] eqn:Hn; [|done]. cbn. by rewrite (Hpend i n Hn).
  - rewrite Hst. const_elem.
  - intros Hall. destruct (mi_nodes (gx_mission s)) as [|n ns] eqn:E; [done|].
    specialize (Hall 0%nat n eq_refl). by rewrite (Hpend 0%nat n eq_refl) in Hall.
Qed.

(** liveness.  A running mission whose nodes are all PENDING and all succeed
    is COMPLETED after as many steps as it has dependency levels, with every
    node COMPLETED and called exactly once. *)
Theorem runs_complete rk d s :
  reliable env -> succeeds -> built (gx_mission s) -> ranked rk (gx_mission s) -> below d rk (gx_mission s) ->
  mi_status (gx_mission s) = MissionStatus.RUNNING -> gx_runs s = [] -> mi_nodes (gx_mission s) <> [] ->
  (forall i n, mi_nodes (gx_mission s) !! i = Some n -> mn_status n = NodeStatus.PENDING) ->
  exists s', steps d s = (Ok tt, s') /\ mi_status (gx_mission s') = MissionStatus.COMPLETED /\
    (forall i n, mi_nodes (gx_mission s') !! i = Some n -> mn_status n = NodeStatus.COMPLETED) /\
    map snd (gx_runs s') ≡ₚ seq 0 (length (mi_nodes (gx_mission s'))).
Proof.
  intros Hrel Hok Hb Hrk Hd Hst Hruns Hne Hpend.
  destruct (steps_inv (fun k t => settling rk k (gx_mission s) t /\ advancing t) d s)
    as (s' & Hrun & Hset & Ha); [done|..].
  - intros j t [Ht _]. apply Ht.
  - intros j t t' [Ht Hat] Hs. split; [by apply (settling_step rk j _ t)|by apply (advancing_step t)].
  - split; [split; [done..|]; intros i n _ Hlt; lia|]. by apply advancing_start.
  - exists s'. split; [done|].
    pose proof (settled_completed _ (se_built _ _ _ _ Hset) (settling_end rk d _ s' Hd Hset) (ad_nodes _ Ha)) as Hall.
    split; [by apply (ad_end _ Ha)|]. split; [done|]. by apply advancing_all_runs.
Qed.
End runs.

(** ** The concrete mission *)

Definition demo_rank (id : string) : nat := if decide (id = "b") then 1 else 0.

Lemma demo_ranked : ranked demo_rank demo_mission /\ below 2 demo_rank demo_mission.
Proof.
  split.
  - intros s t He. apply list_elem_of_singleton in He. injection He as -> ->. vm_compute. lia.
  - intros id Hid. unfold demo_rank. case_decide; lia.
Qed.

Lemma runs_settle_witness :
  reliable (demo_env [0%nat]) /\
  exists s', steps (demo_env [0%nat]) 2 demo_state = (Ok tt, s') /\ get_ready_nodes (gx_mission s') = [].
Proof.
  split; [done|].
  exact (runs_settle (demo_env [0%nat]) demo_rank 2 demo_state I demo_built (proj1 demo_ranked) (proj2 demo_ranked)).
Defined.

Lemma runs_order_witness :
  gx_runs demo_state = [] /\
  exists s', steps (demo_env []) 2 demo_state = (Ok tt, s') /\ NoDup (map snd (gx_runs s')) /\
    forall j i, (j, i) ∈ gx_runs s' -> exists n, mi_nodes (gx_mission s') !! i = Some n /\
      mn_status n ∈ [NodeStatus.COMPLETED; NodeStatus.FAILED] /\
      forall d, (d, mn_id n) ∈ epairs (gx_mission s') -> completed (gx_mission s') d.
Proof. split; [reflexivity|]. exact (runs_order (demo_env []) 2 demo_state I demo_built eq_refl). Defined.

(** [b] waits for [a], which failed. *)
Definition demo_failed : Exec := (execute_step (demo_env [0%nat]) demo_state).2.

Lemma demo_failed_built : built (gx_mission demo_failed).
Proof.
  destruct (wp_ok _ _ _ (execute_step_spec (demo_env [0%nat]) I demo_state (bu_nodup _ demo_built)))
    as (n & s' & Hrun & _ & Hs). unfold demo_failed. rewrite Hrun. eapply built_step; [exact Hs|apply demo_built].
Qed.

Lemma demo_doomed : doomed (gx_mission demo_failed).
Proof.
  eexists 0%nat, _, 1%nat, _. split; [reflexivity|]. split; [reflexivity|]. split; [reflexivity|].
  split; [reflexivity|]. const_elem.
Qed.

Lemma runs_stuck_witness :
  mi_status (gx_mission demo_failed) = MissionStatus.RUNNING /\
  exists s', steps (demo_env []) 100 demo_failed = (Ok tt, s') /\
    mi_status (gx_mission s') = mi_status (gx_mission demo_failed) /\ doomed (gx_mission s').
Proof.
  split; [reflexivity|]. exact (runs_stuck (demo_env []) 100 demo_failed I demo_failed_built demo_doomed).
Defined.

Lemma demo_succeeds : succeeds (demo_env []).
Proof. by intros k i n. Qed.

Lemma demo_pending i n : mi_nodes demo_mission !! i = Some n -> mn_status n = NodeStatus.PENDING.
Proof. by destruct i as [|[|[|i]]]; intros [= <-]. Qed.

Lemma runs_complete_witness :
  mi_status (gx_mission demo_state) = MissionStatus.RUNNING /\
  exists s', steps (demo_env []) 2 demo_state = (Ok tt, s') /\
    mi_status (gx_mission s') = MissionStatus.COMPLETED /\
    (forall i n, mi_nodes (gx_mission s') !! i = Some n -> mn_status n = NodeStatus.COMPLETED) /\
    map snd (gx_runs s') ≡ₚ seq 0 (length (mi_nodes (gx_mission s'))).
Proof.
  split; [reflexivity|].
  apply (runs_complete (demo_env []) demo_rank 2 demo_state I demo_succeeds demo_built (proj1 demo_ranked)
           (proj2 demo_ranked) eq_refl eq_refl); [discriminate|exact demo_pending].
Defined.
