(* ===== verification/Aegis.v ===== *)
(** * The security gate ([backend/security/aegis_engine.py],
    [permission_matrix.py], [autonomy.py])

    [AegisEngine.evaluate] over the permission matrix.  Resolving a path is the
    work of the file system: [resolve] gives the parts of the absolute path, or
    raises.  The override file of the autonomy level is the argument [fichier]. *)
From stdpp Require Import base gmap strings list sets.
From Stdlib Require Import ZArith Lia.
From S2P Require Import Prelude.
#[local] Open Scope Z_scope.

(** ** Data *)

Module Verdict.
Inductive t := ALLOW | DENY | REQUIRE_HUMAN_VALIDATION.
#[global] Instance eq_dec : EqDecision t.
Proof. solve_decision. Defined.
End Verdict.

Record ActionRequest := mkAction {
  ar_type : string;
  ar_description : string;
  ar_target : option string;
  ar_agent : string;
  ar_task : option string;
  ar_project : option string;
  ar_discriminants : list (string * string)
}.

Record AegisDecision := mkRuling {
  ad_verdict : Verdict.t;
  ad_reason : message;
  ad_action : string;
  ad_advisory : option string
}.

Record CategoryPolicy := mkCategory {
  ca_name : string;
  ca_mutating : bool;
  ca_path_based : bool;
  ca_mandatory : bool;
  ca_min : option string
}.

Record PermissionMatrix := mkMatrix {
  pm_level : string;
  pm_categories : pydict CategoryPolicy
}.

(** ** The autonomy level ([autonomy.py]) *)

Definition NIVEAUX : list string := ["low"; "medium"; "high"; "full"].

(** [lire_derogation]: [None] for a file that cannot be read, or without a
    level; an unknown level is ignored. *)
Definition lire_derogation (fichier : option string) : option string :=
  match fichier with
  | Some niveau => if decide (niveau ∈ NIVEAUX) then Some niveau else None
  | None => None
  end.

(** [ecrire_derogation]: the level written, and the file. *)
Definition ecrire_derogation (niveau : string) : M (option string) string :=
  if decide (niveau ∈ NIVEAUX) then put (Some niveau) ;;; ret niveau
  else raise (Exn ValueError [Msg "niveau d'autonomie inconnu : {!r} — attendus {}" (niveau :: NIVEAUX)]).

Definition effacer_derogation : M (option string) unit := put None.

(** ** The permission matrix *)

(** The specification of a category in [security.yaml]: a missing key is
    [None]. *)
Record CategorySpec := mkSpec {
  sp_mutating : option bool;
  sp_path_based : option bool;
  sp_mandatory : option bool;
  sp_min : option string
}.

Definition category_of (name : string) (spec : CategorySpec) : CategoryPolicy :=
  mkCategory name (default true (sp_mutating spec)) (default false (sp_path_based spec))
    (default false (sp_mandatory spec)) (sp_min spec).

(** [PermissionMatrix.__init__] *)
Definition new_matrix (fichier autonomy_level : option string) (specs : pydict CategorySpec)
    : PermissionMatrix :=
  mkMatrix
    (match lire_derogation fichier with
     | Some niveau => niveau
     | None => default "low" autonomy_level
     end)
    (fold_left (fun d p => dset d p.1 (category_of p.1 p.2)) specs []).

Definition get_category (m : PermissionMatrix) (action_type : string) : option CategoryPolicy :=
  dget (pm_categories m) action_type.

(** [_AUTONOMY_ORDER] *)
Definition AUTONOMY_ORDER : pydict Z := [("low", 0); ("medium", 1); ("high", 2)].

(** ** The engine *)

Section engine.
(** [Path(p).resolve()], its parts. *)
Variable resolve : string -> res (list string).

(** [AegisEngine.__init__] *)
Fixpoint resolve_all (ps : list string) : res (list (list string)) :=
  match ps with
  | [] => Ok []
  | p :: ps' =>
      r <-? resolve p ;;
      rs <-? resolve_all ps' ;;
      Ok (r :: rs)
  end.

Record AegisEngine := mkAegis {
  ae_matrix : PermissionMatrix;
  ae_allowed : list (list string)
}.

Definition new_aegis (m : PermissionMatrix) (allowed_paths : list string) : res AegisEngine :=
  roots <-? resolve_all allowed_paths ;;
  Ok (mkAegis m roots).

(** [resolved == root or resolved.is_relative_to(root)] *)
Fixpoint is_prefix (root path : list string) : bool :=
  match root, path with
  | [], _ => true
  | r :: root', p :: path' => bool_decide (r = p) && is_prefix root' path'
  | _ :: _, [] => false
  end.

Definition under (root path : list string) : bool := bool_decide (path = root) || is_prefix root path.

(** The extra roots: one whose resolution raises [OSError] or [RuntimeError] is
    left out; any other exception goes through. *)
Fixpoint extra_roots (extra : list string) : res (list (list string)) :=
  match extra with
  | [] => Ok []
  | p :: extra' =>
      match resolve p with
      | Ok r => rs <-? extra_roots extra' ;; Ok (r :: rs)
      | Err x => if decide (exn_cls x ∈ [OSError; RuntimeError]) then extra_roots extra' else Err x
      end
  end.

(** [_is_within_whitelist] *)
Definition is_within_whitelist (e : AegisEngine) (target : string) (extra : list string) : res bool :=
  added <-? extra_roots extra ;;
  match ae_allowed e ++ added with
  | [] => Ok false
  | roots =>
      resolved <-? resolve target ;;
      Ok (existsb (fun root => under root resolved) roots)
  end.

(** [_is_within_path] *)
Definition is_within_path (target root : string) : res bool :=
  resolved <-? resolve target ;;
  resolved_root <-? resolve root ;;
  Ok (under resolved_root resolved).

Definition ruling (a : ActionRequest) (v : Verdict.t) (reason : message) : AegisDecision :=
  mkRuling v reason (ar_type a) None.

(** The checks on the path: a refusal, or nothing to say. *)
Definition path_checks (e : AegisEngine) (a : ActionRequest) (project_root : option string)
    (extra : list string) : res (option AegisDecision) :=
  match ar_target a with
  | None | Some "" =>
      Ok (Some (ruling a Verdict.DENY
                  (Msg "{} requires target_path but none was given." [ar_type a])))
  | Some target =>
      inside <-? is_within_whitelist e target extra ;;
      if negb inside then
        Ok (Some (ruling a Verdict.DENY
                    (Msg ("{!r} is outside ALLOWED_PATHS and outside the workspace this action names — "
                    +:+ "a hard boundary, not negotiable by autonomy level (§17.1). A validated project "
                    +:+ "grants its root only to actions that name it (A-4).") [target])))
      else
        match project_root with
        | None => Ok None
        | Some root =>
            within <-? is_within_path target root ;;
            Ok (if within : bool then None
                else Some (ruling a Verdict.DENY
                             (Msg ("{!r} is inside the whitelist but outside the project's root {!r} — "
                                 +:+ "project scoping only narrows access, it never widens it.")
                                [target; root])))
        end
  end.

(** [category.min_autonomy_for_auto_allow or "high"] *)
Definition required_level (c : CategoryPolicy) : string :=
  match ca_min c with None | Some "" => "high" | Some l => l end.

Definition current_rank (m : PermissionMatrix) : Z := default 0 (dget AUTONOMY_ORDER (pm_level m)).
Definition required_rank (c : CategoryPolicy) : Z := default 2 (dget AUTONOMY_ORDER (required_level c)).

(** The rest of [evaluate], once the path is accepted. *)
Definition autonomy_checks (m : PermissionMatrix) (c : CategoryPolicy) (a : ActionRequest) : AegisDecision :=
  if ca_mandatory c then
    ruling a Verdict.REQUIRE_HUMAN_VALIDATION (Msg "{} always requires human validation (§17.3)." [ar_type a])
  else if negb (ca_mutating c) then
    ruling a Verdict.ALLOW (Msg "{} is read-only and in scope." [ar_type a])
  else if required_rank c <=? current_rank m then
    ruling a Verdict.ALLOW (Msg "{} auto-allowed at autonomy level {!r}." [ar_type a; pm_level m])
  else
    ruling a Verdict.REQUIRE_HUMAN_VALIDATION
      (Msg "{} needs autonomy level {!r} to auto-allow; current level is {!r}."
         [ar_type a; required_level c; pm_level m]).

(** [evaluate] *)
Definition aegis_evaluate (e : AegisEngine) (a : ActionRequest) (project_root : option string)
    (extra : list string) : res AegisDecision :=
  match get_category (ae_matrix e) (ar_type a) with
  | None =>
      Ok (ruling a Verdict.REQUIRE_HUMAN_VALIDATION
            (Msg "Unknown action category {!r} — treated as out of scope (§17.3)." [ar_type a]))
  | Some c =>
      refused <-? (if ca_path_based c then path_checks e a project_root extra else Ok None) ;;
      Ok (match refused with Some d => d | None => autonomy_checks (ae_matrix e) c a end)
  end.

(** * Properties *)

(** The target of the action resolves under one of [roots]. *)
Definition lands_under (roots : list (list string)) (a : ActionRequest) : Prop :=
  exists target path root, ar_target a = Some target /\ target <> "" /\ resolve target = Ok path /\
    root ∈ roots /\ is_prefix root path = true.

Lemma under_prefix root path : under root path = is_prefix root path.
Proof.
  unfold under. destruct (bool_decide (path = root)) eqn:E; [|done]. apply bool_decide_eq_true in E as ->.
  symmetry. induction root as [|r root IH]; [done|]. cbn. by rewrite bool_decide_eq_true_2.
Qed.

Lemma whitelist_spec e target extra :
  is_within_whitelist e target extra = Ok true <->
  exists added path root, extra_roots extra = Ok added /\ resolve target = Ok path /\ root ∈ ae_allowed e ++ added /\
    is_prefix root path = true.
Proof.
  unfold is_within_whitelist. destruct (extra_roots extra) as [added|x]; cbn [res_bind]; [|by split; [|intros (? & ? & ? & ? & _)]].
  transitivity (exists path root, resolve target = Ok path /\ root ∈ ae_allowed e ++ added /\ is_prefix root path = true).
  2: { split; [intros (path & root & ?); by exists added, path, root|intros (? & path & root & [= <-] & ?); by exists path, root]. }
  generalize (ae_allowed e ++ added). intros [|r roots].
  { split; [done|]. intros (? & ? & _ & Hin & _). by apply elem_of_nil in Hin. }
  destruct (resolve target) as [path|err]; cbn [res_bind]; [|by split; [|intros (? & ? & ? & _)]].
  transitivity (existsb (fun root => under root path) (r :: roots) = true); [split; congruence|].
  rewrite existsb_exists. split.
  - intros (root & Hin & Hu). exists path, root. rewrite <- under_prefix. by rewrite list_elem_of_In.
  - intros (path' & root & [= <-] & Hin & Hp). exists root. rewrite under_prefix. by rewrite <- list_elem_of_In.
Qed.

(** The target of the action resolves under an allowed or an extra root, all
    the extra roots having an answer. *)
Definition in_scope (e : AegisEngine) (extra : list string) (a : ActionRequest) : Prop :=
  exists added, extra_roots extra = Ok added /\ lands_under (ae_allowed e ++ added) a.

Lemma path_checks_spec e a project_root extra :
  path_checks e a project_root extra = Ok None <->
  in_scope e extra a /\
  match project_root with
  | None => True
  | Some root => exists parts, resolve root = Ok parts /\ lands_under [parts] a
  end.
Proof.
  unfold path_checks, in_scope, lands_under. destruct (ar_target a) as [target|]; [|by split; [|intros [(? & _ & ? & ? & ? & ? & _) _]]].
  destruct (decide (target = "")) as [->|Hne]; [by split; [|intros [(? & _ & ? & ? & ? & [= <-] & ? & _) _]]|].
  transitivity (is_within_whitelist e target extra = Ok true /\
    match project_root with None => True | Some root => is_within_path target root = Ok true end).
  - destruct target as [|c target]; [done|].
    destruct (is_within_whitelist e _ extra) as [[|]|err]; cbn [res_bind negb]; [|by split; [|intros []]..].
    destruct project_root as [root|]; [|by split].
    destruct (is_within_path _ root) as [[|]|err]; cbn [res_bind]; by (split; [|intros []]).
  - rewrite whitelist_spec. f_equiv; [|destruct project_root as [root|]; [|done]].
    + split.
      * intros (added & path & root & Ha & Hp & Hin & Hpre). exists added. split; [done|]. by exists target, path, root.
      * intros (added & Ha & ? & path & root & [= <-] & _ & Hp & Hin & Hpre). by exists added, path, root.
    + unfold is_within_path. destruct (resolve target) as [path|] eqn:Et; cbn [res_bind].
      2: { split; [done|]. intros (? & _ & ? & ? & ? & [= <-] & _ & ? & _). congruence. }
      destruct (resolve root) as [parts|] eqn:Er; cbn [res_bind]; [|by split; [|intros (? & ? & _)]].
      rewrite under_prefix. split.
      * intros [= Hpre]. exists parts. split; [done|]. exists target, path, parts.
        by rewrite list_elem_of_singleton.
      * intros (? & [= <-] & ? & ? & root' & [= <-] & _ & Hp & ->%list_elem_of_singleton & Hpre).
        rewrite Et in Hp. injection Hp as <-. by rewrite Hpre.
Qed.

(** What the gate lets through. *)
Definition allows (e : AegisEngine) (a : ActionRequest) (project_root : option string) (extra : list string) : Prop :=
  exists d, aegis_evaluate e a project_root extra = Ok d /\ ad_verdict d = Verdict.ALLOW.

Definition permitted (e : AegisEngine) (a : ActionRequest) (project_root : option string)
    (extra : list string) : Prop :=
  exists c, get_category (ae_matrix e) (ar_type a) = Some c /\
    (ca_path_based c = true ->
       in_scope e extra a /\
       match project_root with
       | None => True
       | Some root => exists parts, resolve root = Ok parts /\ lands_under [parts] a
       end) /\
    ca_mandatory c = false /\
    (ca_mutating c = false \/ required_rank c <= current_rank (ae_matrix e)).

Lemma autonomy_allow m c a :
  ad_verdict (autonomy_checks m c a) = Verdict.ALLOW <->
  ca_mandatory c = false /\ (ca_mutating c = false \/ required_rank c <= current_rank m).
Proof.
  unfold autonomy_checks. destruct (ca_mandatory c), (ca_mutating c); cbn [negb].
  1,2: by split; [|intros []].
  - rewrite <- Z.leb_le. destruct (_ <=? _); cbn; naive_solver.
  - cbn. naive_solver.
Qed.

Lemma path_checks_refuses e a project_root extra d :
  path_checks e a project_root extra = Ok (Some d) -> ad_verdict d = Verdict.DENY.
Proof.
  unfold path_checks. destruct (ar_target a) as [[|ch s]|]; [by intros [= <-]| |by intros [= <-]].
  destruct (is_within_whitelist e _ extra) as [[|]|]; cbn [res_bind negb]; [|by intros [= <-]|done].
  destruct project_root as [root|]; [|done].
  destruct (is_within_path _ root) as [[|]|]; cbn [res_bind]; [done|by intros [= <-]|done].
Qed.

Lemma allows_permitted e a project_root extra : allows e a project_root extra <-> permitted e a project_root extra.
Proof.
  unfold allows, permitted, aegis_evaluate. destruct (get_category _ _) as [c|].
  2: { split; [by intros (d & [= <-] & ?)|by intros (? & ? & _)]. }
  transitivity ((ca_path_based c = true -> path_checks e a project_root extra = Ok None) /\
    ad_verdict (autonomy_checks (ae_matrix e) c a) = Verdict.ALLOW).
  - destruct (ca_path_based c).
    + destruct (path_checks e a project_root extra) as [[d|]|err] eqn:E; cbn [res_bind].
      * apply path_checks_refuses in E. split; [intros (? & [= <-] & ?); congruence|].
        intros [Hp _]. by specialize (Hp eq_refl).
      * split; [by intros (? & [= <-] & ?)|]. intros [_ Hv]. eauto.
      * split; [by intros (? & ? & _)|]. intros [Hp _]. by specialize (Hp eq_refl).
    + cbn [res_bind]. split; [by intros (? & [= <-] & ?)|]. intros [_ Hv]. eauto.
  - rewrite autonomy_allow, path_checks_spec. split.
    + intros (Hp & Hm & Hr). by exists c.
    + by intros (? & [= <-] & ?).
Qed.

Lemma lands_under_mono roots roots' a : roots ⊆ roots' -> lands_under roots a -> lands_under roots' a.
Proof. intros Hsub (t & p & r & Ht & Hne & Hr & Hin & Hp). exists t, p, r. split_and!; [done..|by apply Hsub|done]. Qed.

(** monotony.  More allowed roots, a higher autonomy level or no project scope
    never turn an allowed action into a refused one: a project root only
    narrows. *)
Theorem aegis_monotone e e' a project_root extra extra' :
  pm_categories (ae_matrix e') = pm_categories (ae_matrix e) ->
  current_rank (ae_matrix e) <= current_rank (ae_matrix e') ->
  (forall added, extra_roots extra = Ok added ->
     exists added', extra_roots extra' = Ok added' /\ ae_allowed e ++ added ⊆ ae_allowed e' ++ added') ->
  allows e a project_root extra -> allows e' a None extra'.
Proof.
  intros Hcat Hrank Hroots (c & Hc & Hpath & Hm & Hr)%allows_permitted. apply allows_permitted.
  exists c. unfold get_category in *. rewrite Hcat. split; [done|]. split.
  - intros Hp. destruct (Hpath Hp) as [(added & Ha & Hl) _]. split; [|done]. destruct (Hroots added Ha) as (added' & Ha' & Hsub).
    exists added'. split; [done|]. by eapply lands_under_mono.
  - split; [done|]. destruct Hr as [|Hr]; [by left|right; lia].
Qed.

(** The same gate at another level. *)
Definition at_level (level : string) (e : AegisEngine) : AegisEngine :=
  mkAegis (mkMatrix level (pm_categories (ae_matrix e))) (ae_allowed e).

Definition verdict_of (r : res AegisDecision) : option Verdict.t :=
  match r with Ok d => Some (ad_verdict d) | Err _ => None end.

(** The level "full".  It is one of the levels that can be chosen, and the
    gate decides everything under it as under "low". *)
Lemma full_is_low e a project_root extra :
  "full" ∈ NIVEAUX /\
  verdict_of (aegis_evaluate (at_level "full" e) a project_root extra)
  = verdict_of (aegis_evaluate (at_level "low" e) a project_root extra).
Proof.
  split; [const_elem|]. unfold aegis_evaluate. cbn [ae_matrix at_level].
  change (get_category (mkMatrix "full" (pm_categories (ae_matrix e))) (ar_type a))
    with (get_category (mkMatrix "low" (pm_categories (ae_matrix e))) (ar_type a)).
  destruct (get_category _ _) as [c|]; [|done].
  change (path_checks (at_level "full" e) a) with (path_checks (at_level "low" e) a).
  destruct (if ca_path_based c then _ else _) as [[d|]|err]; [done| |done]. cbn [res_bind verdict_of].
  f_equal. unfold autonomy_checks. destruct (ca_mandatory c), (ca_mutating c); try done. cbn [negb].
  change (current_rank (mkMatrix "full" _)) with 0. change (current_rank (mkMatrix "low" _)) with 0.
  by destruct (_ <=? _).
Qed.

(** The rank of a level: of the four that can be chosen, "full" has that of
    "low". *)
Lemma ranks m : current_rank m =
  (if decide (pm_level m = "high") then 2 else if decide (pm_level m = "medium") then 1 else 0).
Proof. unfold current_rank. cbn [AUTONOMY_ORDER dget]. repeat case_decide; congruence || done. Qed.

(** C31: What the gate lets through, and that the level "full" lets no more
    through than "low".  An action is allowed exactly when its category is known
    and not subject to a mandatory validation, it is read-only or the rank of the
    autonomy level reaches the one its category asks for, and, for a category on
    paths, its target resolves under an allowed or an extra root, none of the
    extra ones raising anything but [OSError] or [RuntimeError], and under the
    root of the project when there is one.  The ranks are 2 for "high", 1 for
    "medium" and 0 for any other level: "full", which can be chosen and is
    documented as the same as "high", decides everything as "low" does. *)
Theorem aegis_allows_exact e a project_root extra :
  (allows e a project_root extra <-> permitted e a project_root extra) /\
  current_rank (ae_matrix e) =
    (if decide (pm_level (ae_matrix e) = "high") then 2 else if decide (pm_level (ae_matrix e) = "medium") then 1 else 0) /\
  ("full" ∈ NIVEAUX /\
   verdict_of (aegis_evaluate (at_level "full" e) a project_root extra)
   = verdict_of (aegis_evaluate (at_level "low" e) a project_root extra)).
Proof. split; [apply allows_permitted|]. split; [apply ranks|apply full_is_low]. Qed.
End engine.

(** ** A concrete gate *)

(** Paths resolve to their text, as one part below the root. *)
Definition demo_resolve (p : string) : res (list string) :=
  if decide (p = "ws/a.py") then Ok ["/"; "ws"; "a.py"] else Ok ["/"; p].

Definition demo_gate (level : string) : AegisEngine :=
  mkAegis (new_matrix None (Some level)
             [("file_write", mkSpec (Some true) (Some true) (Some false) (Some "medium"))])
    [["/"; "ws"]].

Definition demo_write : ActionRequest :=
  mkAction "file_write" "Write to ws/a.py" (Some "ws/a.py") "agent" None None [].

Lemma demo_allows : allows demo_resolve (demo_gate "medium") demo_write (Some "ws") [].
Proof. eexists. split; [vm_compute; reflexivity|reflexivity]. Qed.

Lemma aegis_monotone_witness :
  current_rank (ae_matrix (demo_gate "medium")) <= current_rank (ae_matrix (demo_gate "high")) /\
  allows demo_resolve (demo_gate "high") demo_write None ["other"].
Proof.
  assert (Hr : current_rank (ae_matrix (demo_gate "medium")) <= current_rank (ae_matrix (demo_gate "high")))
    by (vm_compute; discriminate).
  assert (Hs : forall added, extra_roots demo_resolve [] = Ok added -> exists added', extra_roots demo_resolve ["other"] = Ok added' /\
            ae_allowed (demo_gate "medium") ++ added ⊆ ae_allowed (demo_gate "high") ++ added').
  { intros added [= <-]. eexists. split; [reflexivity|]. intros x. cbn. set_solver. }
  split; [exact Hr|].
  exact (aegis_monotone demo_resolve (demo_gate "medium") (demo_gate "high") demo_write (Some "ws") [] ["other"]
           eq_refl Hr Hs demo_allows).
Defined.

(** "high" lets the write through, "full" does not. *)
Example demo_full :
  verdict_of (aegis_evaluate demo_resolve (demo_gate "high") demo_write None []) = Some Verdict.ALLOW /\
  verdict_of (aegis_evaluate demo_resolve (demo_gate "full") demo_write None [])
  = Some Verdict.REQUIRE_HUMAN_VALIDATION.
Proof. split; reflexivity. Qed.
