(* ===== verification/MissionDriver.v ===== *)
(** * The walk of a mission and its requests ([backend/mission/routes.py])

    The handlers [/start], [/pause], [/resume] and [/cancel] of one mission, the
    loop [_run_mission_steps] that walks its graph, the second attempt, the gate
    before the start and the records made at the end.  The handlers run on one
    event loop: a walk gives way at [await asyncio.sleep(0)], between two
    steps, and there only.  A walk that gave way is a [Walker]; the requests
    served and the walkers woken, in any order, are a list of [Request]s.

    The mission is known to the registry and the executor is wired.  The
    memory and the metrics are what the code hands over; whether they accept
    it is an oracle, and a refusal is swallowed. *)
From stdpp Require Import base gmap strings list sets relations sorting.
From Stdlib Require Import ZArith QArith Lia.
From S2P Require Import Prelude.
From S2P Require Import Kahn.
From S2P Require Import MissionGraph.
From S2P Require Import RetryPolicy.
From S2P Require Import GraphExecutor.
From S2P Require Import MissionRuns.
From S2P Require Import Aegis.
#[local] Open Scope Z_scope.

Definition MAX_EXECUTION_PASSES : nat := 100.

Definition mission_type_value (t : MissionType.t) : string :=
  match t with
  | MissionType.DEVELOPMENT => "development"
  | MissionType.RESEARCH => "research"
  | MissionType.ANALYSIS => "analysis"
  | MissionType.DEPLOYMENT => "deployment"
  | MissionType.MAINTENANCE => "maintenance"
  | MissionType.CUSTOM => "custom"
  end.

(** ** What is recorded *)

Record Episode := mkEpisode {
  ep_mission : string;
  ep_title : string;
  ep_type : string;
  ep_success : bool;
  ep_total : Z;
  ep_completed : Z;
  ep_failed : Z;
  ep_duration : Z;
  ep_agents : list string;
  ep_runtimes : list string;
  ep_tags : list string
}.

Record Procedure := mkProcedure {
  pc_name : string;
  pc_description : string;
  pc_steps : list string;
  pc_mission : string;
  pc_tags : list string
}.

(** [SystemMetrics]: the rate and the duration, in the unit of the clock. *)
Record Metrics := mkMetrics {
  sm_success : Q;
  sm_duration : Z
}.

(** ** State *)

(** A walk that gave way: its passes, and the nodes executed so far. *)
Record Walker := mkWalker {
  wk_passes : nat;
  wk_executed : Z
}.

Inductive Response :=
  | Denied (text : string) (st : MissionStatus.t) (reason : message)
  | Awaiting (st : MissionStatus.t) (reason : message)
  | Refused (reason : string) (st : MissionStatus.t)
  | Walked (st : MissionStatus.t) (executed : Z) (progress : MissionProgress)
  | Status (st : MissionStatus.t)
  | Raised (e : exn).

(** The executor on the mission, the walkers (a finished one leaves [None]),
    what was recorded, the number of writes tried, and the answers sent. *)
Record Driver := mkDriver {
  dr_exec : Exec;
  dr_walkers : list (option Walker);
  dr_episodes : list Episode;
  dr_procedures : list Procedure;
  dr_metrics : list Metrics;
  dr_writes : nat;
  dr_answers : list Response
}.

Definition with_exec (x : Exec) (s : Driver) : Driver :=
  mkDriver x (dr_walkers s) (dr_episodes s) (dr_procedures s) (dr_metrics s) (dr_writes s) (dr_answers s).

Definition with_walkers (l : list (option Walker)) (s : Driver) : Driver :=
  mkDriver (dr_exec s) l (dr_episodes s) (dr_procedures s) (dr_metrics s) (dr_writes s) (dr_answers s).

Definition answered (r : Response) (s : Driver) : Driver :=
  mkDriver (dr_exec s) (dr_walkers s) (dr_episodes s) (dr_procedures s) (dr_metrics s) (dr_writes s)
    (dr_answers s ++ [r]).

(** What the router is given: the executor's environment, the memory and the
    evolution engine when they are injected ([k] tells whether the [k]-th write
    is accepted), the gate, and the roots of the validated projects. *)
Record Wiring := mkWiring {
  wi_env : Env;
  wi_memory : option (nat -> bool);
  wi_evolution : option (nat -> bool);
  wi_resolve : string -> res (list string);
  wi_gate : AegisEngine;
  wi_roots : list string
}.

(** [STATUTS_TERMINAUX], and the [terminal] of the walk. *)
Definition terminal (st : MissionStatus.t) : bool :=
  bool_decide (st ∈ [MissionStatus.COMPLETED; MissionStatus.FAILED; MissionStatus.CANCELLED]).

Section driver.
Variable w : Wiring.

(** ** Effects *)

Definition on_exec {A} (m : M Exec A) : M Driver A := zoom dr_exec with_exec m.

Definition mission_of (s : Driver) : Mission := gx_mission (dr_exec s).

Definition the_mission : M Driver Mission := fun s => (Ok (mission_of s), s).

Definition set_status (st : MissionStatus.t) : M Driver unit := on_exec (update (with_status st)).

(** One write to a store that may be missing or refuse. *)
Definition write (store : option (nat -> bool)) (f : Driver -> Driver) : M Driver unit := fun s =>
  (Ok tt,
   match store with
   | None => s
   | Some accepts =>
       let s' := mkDriver (dr_exec s) (dr_walkers s) (dr_episodes s) (dr_procedures s) (dr_metrics s)
                   (S (dr_writes s)) (dr_answers s) in
       if accepts (dr_writes s) then f s' else s'
   end).

Definition duration_of (m : Mission) : Z :=
  match mi_started m, mi_completed m with
  | Some a, Some b => b - a
  | _, _ => 0
  end.

(** [sorted({f(n) for n in nodes if f(n)})] *)
Definition names_used (f : MissionNode -> string) (m : Mission) : list string :=
  sort_by String.le (remove_dups (List.filter (fun x => negb (bool_decide (x = ""))) (map f (mi_nodes m)))).

Definition episode_of (m : Mission) : Episode :=
  mkEpisode (mi_id m) (mi_title m) (mission_type_value (mi_type m))
    (bool_decide (mi_status m = MissionStatus.COMPLETED))
    (total_nodes m) (completed_nodes m) (failed_nodes m) (duration_of m)
    (names_used mn_agent m) (names_used mn_runtime m) (mc_tags (mi_context m)).

(** [n.completed_at or mission.created_at] *)
Definition finished_at (m : Mission) (n : MissionNode) : Z := default (mi_created m) (mn_completed n).

Definition finished_before (m : Mission) (a b : MissionNode) : Prop := finished_at m a <= finished_at m b.

#[local] Instance finished_before_dec m : RelDecision (finished_before m).
Proof. intros a b. unfold finished_before. apply _. Defined.

Definition procedure_of (m : Mission) : Procedure :=
  mkProcedure (str_or (mi_title m) (mi_id m)) (str_or (mi_objective m) (mi_description m))
    (List.filter (fun t => negb (bool_decide (t = "")))
       (map mn_title (sort_by (finished_before m) (mi_nodes m))))
    (mi_id m) (mc_tags (mi_context m) ++ [mission_type_value (mi_type m)]).

Definition metrics_of (m : Mission) : Metrics :=
  mkMetrics (if decide (mi_status m = MissionStatus.COMPLETED) then 1 else 1 # 2) (duration_of m).

Definition add_episode (e : Episode) (s : Driver) : Driver :=
  mkDriver (dr_exec s) (dr_walkers s) (dr_episodes s ++ [e]) (dr_procedures s) (dr_metrics s) (dr_writes s)
    (dr_answers s).

Definition add_procedure (p : Procedure) (s : Driver) : Driver :=
  mkDriver (dr_exec s) (dr_walkers s) (dr_episodes s) (dr_procedures s ++ [p]) (dr_metrics s) (dr_writes s)
    (dr_answers s).

Definition add_metrics (x : Metrics) (s : Driver) : Driver :=
  mkDriver (dr_exec s) (dr_walkers s) (dr_episodes s) (dr_procedures s) (dr_metrics s ++ [x]) (dr_writes s)
    (dr_answers s).

(** [_record_procedure] *)
Definition record_procedure (m : Mission) : M Driver unit :=
  write (wi_memory w) (add_procedure (procedure_of m)).

(** [_feed_evolution_engine] *)
Definition feed_evolution_engine (m : Mission) : M Driver unit :=
  write (wi_evolution w) (add_metrics (metrics_of m)).

(** [_record_episode] *)
Definition record_episode : M Driver unit :=
  m <- the_mission ;;
  match wi_memory w with
  | None => ret tt
  | Some _ =>
      write (wi_memory w) (add_episode (episode_of m)) ;;;
      (if decide (mi_status m = MissionStatus.COMPLETED) then record_procedure m else ret tt) ;;;
      feed_evolution_engine m
  end.

(** ** The gate *)

Definition path_request (m : Mission) : ActionRequest :=
  mkAction "file_read" ("mission " +:+ mi_id m +:+ " local_path") (Some (mc_local_path (mi_context m)))
    "unknown" None None [].

Definition start_request (m : Mission) : ActionRequest :=
  mkAction "mission_execute" ("start mission " +:+ mi_id m)
    (if decide (mc_local_path (mi_context m) = "") then None else Some (mc_local_path (mi_context m)))
    "unknown" None None [].

Definition ask (a : ActionRequest) : M Driver AegisDecision :=
  lift (aegis_evaluate (wi_resolve w) (wi_gate w) a None (wi_roots w)).

(** The check on the directory. *)
Definition check_path (m : Mission) : M Driver (option Response) :=
  if decide (mc_local_path (mi_context m) = "") then ret None
  else
    d <- ask (path_request m) ;;
    if decide (ad_verdict d = Verdict.ALLOW) then ret None
    else
      set_status MissionStatus.FAILED ;;;
      ret (Some (Denied "local_path denied by Aegis: {}" MissionStatus.FAILED (ad_reason d))).

(** [_check_mission_security]: a response, or [None] to proceed. *)
Definition check_mission_security : M Driver (option Response) :=
  m <- the_mission ;;
  if bool_decide (mc_local_path (mi_context m) = "") && bool_decide (mc_repository (mi_context m) = "")
  then ret None
  else
    refused <- check_path m ;;
    match refused with
    | Some r => ret (Some r)
    | None =>
        d <- ask (start_request m) ;;
        match ad_verdict d with
        | Verdict.DENY =>
            set_status MissionStatus.FAILED ;;;
            ret (Some (Denied "blocked by Aegis: {}" MissionStatus.FAILED (ad_reason d)))
        | Verdict.REQUIRE_HUMAN_VALIDATION =>
            set_status MissionStatus.PAUSED ;;; ret (Some (Awaiting MissionStatus.PAUSED (ad_reason d)))
        | Verdict.ALLOW => ret None
        end
    end.

(** ** The walk *)

Inductive Turn :=
  | Parked (k : Walker)
  | Returned (executed : Z).

(** The condition of the loop. *)
Definition walkable (m : Mission) (passes : nat) : bool :=
  negb (terminal (mi_status m)) && negb (bool_decide (mi_status m = MissionStatus.PAUSED)) &&
  (passes <? MAX_EXECUTION_PASSES)%nat.

(** One pass of the loop: a walker that gives way, or [None] when the loop is
    over. *)
Definition one_pass (k : Walker) : M Driver (option Walker) :=
  m <- the_mission ;;
  if walkable m (wk_passes k) then
    stepped <- on_exec (execute_step (wi_env w)) ;;
    ret (if stepped =? 0 then None else Some (mkWalker (S (wk_passes k)) (wk_executed k + stepped)))
  else ret None.

(** [_run_mission_steps] and [_run_retry_if_suggested], from the head of the
    loop to the next [await] or the end.  The fuel counts the attempts begun
    without an [await]: two are enough, as [wp_walk] shows. *)
Fixpoint walk (fuel : nat) (k : Walker) : M Driver Turn :=
  match fuel with
  | O => raise (Exn OutOfFuel [])
  | S fuel' =>
      o <- one_pass k ;;
      match o with
      | Some k' => ret (Parked k')
      | None =>
          m <- the_mission ;;
          if terminal (mi_status m) then
            record_episode ;;;
            again <- on_exec (preparer_reprise (wi_env w)) ;;
            if again : bool then walk fuel' (mkWalker 0 (wk_executed k)) else ret (Returned (wk_executed k))
          else ret (Returned (wk_executed k))
      end
  end.

(** What a handler has done when it gives way or ends. *)
Inductive Outcome :=
  | Answer (r : Response)
  | Waiting (k : Walker).

(** The walk of a handler, and the response it ends with. *)
Definition walk_on (k : Walker) : M Driver Outcome :=
  t <- walk 2 k ;;
  match t with
  | Parked k' => ret (Waiting k')
  | Returned executed =>
      m <- the_mission ;;
      ret (Answer (Walked (mi_status m) executed (get_progress m)))
  end.

(** ** The handlers *)

(** [start_mission] *)
Definition start_handler : M Driver Outcome :=
  blocked <- check_mission_security ;;
  match blocked with
  | Some r => ret (Answer r)
  | None =>
      ok <- on_exec (start_mission (wi_env w)) ;;
      if ok : bool then walk_on (mkWalker 0 0)
      else
        m <- the_mission ;;
        ret (Answer (Refused "Cannot start mission in status {}" (mi_status m)))
  end.

(** [pause_mission] *)
Definition pause_handler : M Driver Outcome :=
  m <- the_mission ;;
  if decide (mi_status m = MissionStatus.RUNNING) then
    set_status MissionStatus.PAUSED ;;; ret (Answer (Status MissionStatus.PAUSED))
  else ret (Answer (Refused "Cannot pause mission in status {}" (mi_status m))).

(** [resume_mission] *)
Definition resume_handler : M Driver Outcome :=
  m <- the_mission ;;
  if decide (mi_status m = MissionStatus.PAUSED) then
    set_status MissionStatus.RUNNING ;;;
    match mi_started m with
    | Some _ => ret tt
    | None => t <- on_exec (now (wi_env w)) ;; on_exec (update (with_started (Some t)))
    end ;;;
    walk_on (mkWalker 0 0)
  else ret (Answer (Refused "Cannot resume mission in status {}" (mi_status m))).

(** [cancel_mission] *)
Definition cancel_handler : M Driver Outcome :=
  on_exec (cancel_mission (wi_env w)) ;;;
  m <- the_mission ;;
  (if decide (mi_status m = MissionStatus.CANCELLED) then record_episode else ret tt) ;;;
  ret (Answer (Status (mi_status m))).

(** ** The event loop *)

Inductive Request := Start | Pause | Resume | Cancel | Wake (i : nat).

#[export] Instance request_eq_dec : EqDecision Request.
Proof. solve_decision. Defined.

(** The end of a turn: a walk that gives way waits again, at its place or at a
    new one; the others have answered or raised. *)
Definition conclude (place : option nat) (r : res Outcome * Driver) : Driver :=
  let s := r.2 in
  let ended := match place with Some i => with_walkers (<[i := None]> (dr_walkers s)) s | None => s end in
  match r.1 with
  | Ok (Answer a) => answered a ended
  | Ok (Waiting k) =>
      with_walkers (match place with
                    | Some i => <[i := Some k]> (dr_walkers s)
                    | None => dr_walkers s ++ [Some k]
                    end) s
  | Err e => answered (Raised e) ended
  end.

Definition serve (r : Request) (s : Driver) : Driver :=
  match r with
  | Start => conclude None (start_handler s)
  | Pause => conclude None (pause_handler s)
  | Resume => conclude None (resume_handler s)
  | Cancel => conclude None (cancel_handler s)
  | Wake i => match dr_walkers s !! i with
              | Some (Some k) => conclude (Some i) (walk_on k s)
              | _ => s
              end
  end.

Definition serve_all (rs : list Request) (s : Driver) : Driver := fold_left (fun s r => serve r s) rs s.
End driver.
