(* ===== verification/MissionWalks.v ===== *)
(** * The requests on a mission, in any order ([backend/mission/routes.py])

    Properties of the handlers and walks of [MissionDriver]: walks end, no node
    is called more often than there are attempts, a paused mission stands
    still, the gate is passed before the start, and a start completes its
    mission.  All but the last hold for every sequence of requests. *)
From stdpp Require Import base gmap strings list sets relations sorting.
From Stdlib Require Import ZArith QArith Lia.
From S2P Require Import Prelude.
From S2P Require Import Kahn.
From S2P Require Import MissionGraph.
From S2P Require Import RetryPolicy.
From S2P Require Import GraphExecutor.
From S2P Require Import MissionRuns.
From S2P Require Import Aegis.
From S2P Require Import MissionDriver.
#[local] Open Scope Z_scope.


(** ** The attempts a mission has left

    A brief in the metadata is one attempt to come; after it, [_suggest_retry]
    gives another one only under the limit. *)
Definition suggested (m : Mission) : bool :=
  match dget (mi_metadata m) "retry_brief" with
  | Some (PStr text) => negb (bool_decide (text = ""))
  | _ => false
  end.

Definition retries (m : Mission) : nat :=
  if suggested m then S (Z.to_nat (DEFAULT_MAX_ATTEMPTS - (attempts_of m + 1)))
  else Z.to_nat (DEFAULT_MAX_ATTEMPTS - attempts_of m).

Lemma retries_meta m m' : mi_metadata m' = mi_metadata m -> retries m' = retries m.
Proof. intros Heq. unfold retries, suggested, attempts_of. by rewrite Heq. Qed.

Lemma retries_other k v m :
  k <> "attempts" -> k <> "retry_brief" -> retries (with_metadata (dset (mi_metadata m) k v) m) = retries m.
Proof.
  intros Ha Hb. unfold retries, suggested, attempts_of. cbn [mi_metadata with_metadata].
  by rewrite !dget_dset, !decide_False.
Qed.

Lemma retries_attempts m : (Z.to_nat (DEFAULT_MAX_ATTEMPTS - attempts_of m) <= retries m)%nat.
Proof. unfold retries. destruct (suggested m); lia. Qed.

(** Writing a brief under the limit gives no attempt more. *)
Lemma retries_brief m b :
  attempts_of m < DEFAULT_MAX_ATTEMPTS ->
  (retries (with_metadata (dset (mi_metadata m) "retry_brief" b) m) <= retries m)%nat.
Proof.
  intros Ha. pose proof (retries_attempts m) as Hr.
  assert (Heq : attempts_of (with_metadata (dset (mi_metadata m) "retry_brief" b) m) = attempts_of m).
  { unfold attempts_of. cbn [mi_metadata with_metadata]. by rewrite dget_dset, decide_False. }
  unfold retries at 1. rewrite Heq. destruct (suggested _); lia.
Qed.

Lemma metadata_fold {A} (f : Mission -> A -> Mission) l m :
  (forall m x, mi_metadata (f m x) = mi_metadata m) -> mi_metadata (fold_left f l m) = mi_metadata m.
Proof. intros Hf. revert m. induction l as [|x l IH]; intros m; [done|]. cbn. by rewrite IH, Hf. Qed.

Lemma metadata_mark_failed id m : mi_metadata (mark_failed id m).2 = mi_metadata m.
Proof. unfold mark_failed. destruct (find_node m id); [|done]. cbn [snd]. by rewrite metadata_fold. Qed.

Lemma metadata_mark_completed t id m : mi_metadata (mark_completed t id m).2 = mi_metadata m.
Proof. unfold mark_completed. by destruct (find_node m id). Qed.

(** The disk never contradicts a result. *)
Definition confirmed (env : Env) : Prop :=
  forall k m b v, env_verify env k m b = Some v -> holds v "contradicted" = false.

Lemma suggested_meta m m' : mi_metadata m' = mi_metadata m -> suggested m' = suggested m.
Proof. intros Heq. unfold suggested. by rewrite Heq. Qed.

Section meta.
Variable env : Env.
Variable K : nat.
Variable U : Prop.
Hypothesis HU : U -> confirmed env.

(** The metadata is a dictionary, at most [K] attempts are left, and, under
    [U], none is suggested. *)
Definition few (x : Exec) : Prop :=
  dict_wf (mi_metadata (gx_mission x)) /\ (retries (gx_mission x) <= K)%nat /\
  (U -> suggested (gx_mission x) = false).

Lemma few_same (x x' : Exec) : gx_mission x' = gx_mission x -> few x -> few x'.
Proof. unfold few. by intros ->. Qed.

Lemma keeps_update f :
  (forall m, dict_wf (mi_metadata m) ->
     dict_wf (mi_metadata (f m)) /\ (retries (f m) <= retries m)%nat /\ suggested (f m) = suggested m) ->
  preserves few (update f).
Proof.
  intros Hf x (Hwf & Hx & Hs). unfold few in *. cbn. destruct (Hf (gx_mission x) Hwf) as (? & ? & ->).
  split; [done|]. split; [lia|done].
Qed.

Lemma keeps_update_meta f : (forall m, mi_metadata (f m) = mi_metadata m) -> preserves few (update f).
Proof. intros Hf. apply keeps_update. intros m Hwf.
  by rewrite (retries_meta m (f m)), (suggested_meta m (f m)), Hf.
Qed.

Lemma keeps_update_key k v :
  k <> "attempts" -> k <> "retry_brief" ->
  preserves few (update (fun m => with_metadata (dset (mi_metadata m) k v) m)).
Proof.
  intros Ha Hb. apply keeps_update. intros m Hwf. rewrite retries_other by done.
  split; [by apply dict_wf_dset|]. split; [done|].
  unfold suggested. cbn [mi_metadata with_metadata]. by rewrite dget_dset, decide_False.
Qed.

Lemma keeps_gmission : preserves few gmission.
Proof. by intros x. Qed.

Lemma keeps_now : preserves few (now env).
Proof. by intros x. Qed.

Lemma keeps_begin : preserves few begin_step.
Proof. by intros x. Qed.

Lemma keeps_verify {A} b (f : option (pydict pyval) -> M Exec A) :
  (forall k m, preserves few (f (env_verify env k m b))) -> preserves few (bind (verify_workspace env b) f).
Proof. intros Hf x Hx. by apply Hf. Qed.

Lemma keeps_emit type payload severity : preserves few (emit_event env type payload severity).
Proof. intros x Hx. unfold emit_event. by destruct (env_listener env). Qed.

Lemma keeps_durable : preserves few (rendre_durable env).
Proof. intros x Hx. unfold rendre_durable. destruct (env_persist env); [|done]. by destruct (_ _). Qed.

Lemma keeps_call step i b : preserves few (call_node env step i b).
Proof.
  intros x Hx. unfold call_node. destruct (_ !! i); [|done]. destruct (env_run _ _ _ _) as [out report].
  by destruct b.
Qed.

#[local] Hint Resolve keeps_gmission keeps_now keeps_begin keeps_emit keeps_durable keeps_call : hermes.

Ltac keep := repeat lazymatch goal with |- preserves _ (bind _ _) => apply preserves_bind; [|intros ?] end;
  auto with hermes.

Lemma keeps_announce : preserves few (announce_ready env).
Proof. unfold announce_ready. keep. Qed.

Lemma keeps_worker step lim b p : preserves few (executer_sous_portillon env step lim b p).
Proof. unfold executer_sous_portillon. destruct (env_granted _ _ _); keep. Qed.

Lemma keeps_workers step lim answered ready results : preserves few (run_workers env step lim answered ready results).
Proof.
  revert results. induction ready as [|p ready IH]; intros results; cbn [run_workers]; [auto with hermes|].
  apply preserves_bind; [apply keeps_worker|]. intros b. apply IH.
Qed.
#[local] Hint Resolve keeps_announce keeps_worker keeps_workers : hermes.

Lemma keeps_harvest step lim ready : preserves few (recolter_en_parallele env step lim ready).
Proof. unfold recolter_en_parallele. keep. destruct (forallb _ _); auto with hermes. Qed.

Lemma keeps_settle results p : preserves few (settle env results p).
Proof.
  unfold settle. apply preserves_bind; [auto with hermes|]. intros m. destruct (default _ _); keep.
  - apply keeps_update_meta, metadata_mark_completed.
  - apply keeps_update_meta, metadata_mark_failed.
Qed.

Lemma keeps_suggest k m b : preserves few (suggest_retry env (env_verify env k m b)).
Proof.
  pose proof (fun u : U => HU u k m b) as Hu. revert Hu. generalize (env_verify env k m b). intros v Hu x Hx. unfold suggest_retry, bind at 1, gmission. cbv zeta.
  destruct (rd_should _) eqn:E; cbn [negb]; [|done].
  destruct v as [v|]; [|done]. unfold decide_retry in E.
  destruct (holds v "measured"), (holds v "contradicted") eqn:Ec; try done.
  cbn [negb] in E. destruct (Z.leb_spec DEFAULT_MAX_ATTEMPTS (attempts_of (gx_mission x))); [done|].
  revert x Hx H E. generalize (decide_retry (env_py_str env) (Some v)). intros d x Hx Ha _.
  unfold bind at 1, update. apply keeps_emit. destruct Hx as (Hwf & Hx & _). unfold few. cbn [gx_mission on_mission].
  split; [by apply dict_wf_dset|]. split; [etransitivity; [|exact Hx]; by apply retries_brief|].
  intros u. specialize (Hu u v eq_refl). congruence.
Qed.
#[local] Hint Resolve keeps_harvest keeps_settle keeps_suggest : hermes.

Lemma keeps_finish failed : preserves few (finish env failed).
Proof.
  unfold finish. apply preserves_bind; [auto with hermes|]. intros t.
  apply preserves_bind; [by apply keeps_update_meta|]. intros _. apply keeps_verify. intros k m.
  pose proof (keeps_suggest k m (failed =? 0)). destruct (env_verify env k m _) as [v|]; keep.
  - by apply keeps_update_key.
  - repeat destruct (holds _ _); auto with hermes.
Qed.

Lemma keeps_execute_step : preserves few (execute_step env).
Proof.
  unfold execute_step. keep.
  - apply keeps_update_meta. intros m. by apply metadata_fold.
  - destruct (one_worker _ _ _); auto with hermes.
  - destruct (get_ready_nodes _); [auto with hermes|]. unfold check_completion. keep.
    destruct (_ && _); [apply keeps_finish|auto with hermes].
Qed.

Lemma keeps_snapshot : preserves few (snapshot_workspace env).
Proof.
  unfold snapshot_workspace. apply preserves_bind; [auto with hermes|]. intros m.
  destruct (env_checkpoint env m) as [[root [[point mecanisme]|e]]|]; keep.
  by apply keeps_update_key.
Qed.
#[local] Hint Resolve keeps_snapshot : hermes.

Lemma keeps_start : preserves few (start_mission env).
Proof.
  unfold start_mission. apply preserves_bind; [auto with hermes|]. intros m. destruct (negb _); keep.
  all: by apply keeps_update_meta.
Qed.

Lemma keeps_cancel : preserves few (cancel_mission env).
Proof.
  unfold cancel_mission. apply preserves_bind; [auto with hermes|]. intros m. destruct (decide _); keep.
  all: by apply keeps_update_meta.
Qed.

Lemma keeps_build ns es : preserves few (build_mission env ns es).
Proof.
  intros x Hx. unfold build_mission, bind at 1, gmission. cbv zeta. unfold bind at 1, update.
  set (x1 := on_mission _ x). assert (Hx1 : few x1) by done. clearbody x1. unfold bind at 1.
  destruct (mission_validate_spec (gx_mission x1)) as (issues & m2 & -> & _ & Hm2). unfold bind at 1, lift.
  unfold bind at 1. cbn [snd fst]. set (x2 := on_mission _ x1).
  assert (Hx2 : few x2) by (destruct Hm2 as [[_ ->]|[_ ->]]; done). clearbody x2. revert x2 Hx2.
  change (preserves few (match issues with [] => update (with_status MissionStatus.READY) | _ => ret tt end ;;;
    emit_event env "mission.created"
      [("mission_id", PStr (mi_id (gx_mission x))); ("nodes", PInt (Z.of_nat (length ns)));
       ("edges", PInt (Z.of_nat (length es))); ("valid", PBool (bool_decide (issues = [])))] "info" ;;;
    ret issues)).
  keep. destruct issues; [by apply keeps_update_meta|auto with hermes].
Qed.
End meta.

(** ** What a turn does to the executor *)

(** The nodes, the edges and the calls are the same. *)
Definition touched (x x' : Exec) : Prop :=
  mi_nodes (gx_mission x') = mi_nodes (gx_mission x) /\ mi_edges (gx_mission x') = mi_edges (gx_mission x) /\
  gx_runs x' = gx_runs x.

#[export] Instance touched_preorder : PreOrder touched.
Proof. split; [done|]. intros x1 x2 x3 (?&?&?) (?&?&?). split_and!; congruence. Qed.

Lemma frame_touched x x' : frame x x' -> touched x x'.
Proof. intros (Hm & Hr & _). unfold touched. by rewrite Hm. Qed.

Section moves.
Variable env : Env.
Hypothesis Hrel : reliable env.

(** The metadata stays a dictionary, and no attempt is gained. *)
Definition fewer (x x' : Exec) : Prop :=
  dict_wf (mi_metadata (gx_mission x')) /\ (retries (gx_mission x') <= retries (gx_mission x))%nat.

(** One change of the executor: a step, a change of the mission around its
    nodes, or a second attempt, which takes one of those left. *)
Inductive move : Exec -> Exec -> Prop :=
  | mv_step x x' : stepped env x x' -> fewer x x' -> move x x'
  | mv_touch x x' : touched x x' -> fewer x x' -> move x x'
  | mv_again x x' :
      node_ids (gx_mission x') = node_ids (gx_mission x) -> gx_runs x' = gx_runs x ->
      dict_wf (mi_metadata (gx_mission x')) ->
      (S (retries (gx_mission x')) <= retries (gx_mission x))%nat -> move x x'.

Lemma wp_preserves {S A} (P : S -> Prop) (m : M S A) Q s :
  preserves P m -> P s -> wp m Q s -> wp m (fun a s' => Q a s' /\ P s') s.
Proof.
  intros Hm Hs. specialize (Hm s Hs). unfold wp. destruct (m s) as [[a|e] s']; [|done]. by split.
Qed.

Lemma wp_fewer {A} (m : M Exec A) Q x :
  (forall K, preserves (few K False) m) -> dict_wf (mi_metadata (gx_mission x)) -> wp m Q x ->
  wp m (fun a x' => Q a x' /\ fewer x x') x.
Proof.
  intros Hm Hwf Hwp. eapply wp_mono; [apply (wp_preserves (few (retries (gx_mission x)) False)); [done..|exact Hwp]|].
  intros a x' (HQ & Hwf' & Hr & _). by split_and!.
Qed.

Lemma wp_touch_update {A} g (f : unit -> M Exec A) (Q : A -> Exec -> Prop) x :
  (forall m, mi_nodes (g m) = mi_nodes m /\ mi_edges (g m) = mi_edges m) ->
  (forall x', touched x x' -> wp (f tt) Q x') -> wp (bind (update g) f) Q x.
Proof. intros Hg Hf. apply wp_update, Hf. destruct (Hg (gx_mission x)). by split. Qed.

Lemma wp_snapshot x :
  wp (snapshot_workspace env) (fun _ x' => touched x x' /\ mi_status (gx_mission x') = mi_status (gx_mission x)) x.
Proof.
  unfold snapshot_workspace. apply wp_read. destruct (env_checkpoint env _) as [[root [[point mec]|e]]|].
  - apply wp_update. eapply wp_mono; [apply wp_emit_event|]. intros [] x' (Hm & Hr & _).
    unfold touched. by rewrite Hm, Hr.
  - eapply wp_mono; [apply wp_emit_event|]. intros [] x' (Hm & Hr & _). unfold touched. by rewrite Hm, Hr.
  - by apply wp_ret.
Qed.

Definition startable (st : MissionStatus.t) : bool :=
  bool_decide (st ∈ [MissionStatus.READY; MissionStatus.VALIDATED]).

Lemma wp_start x :
  wp (start_mission env)
    (fun b x' => b = startable (mi_status (gx_mission x)) /\ touched x x' /\
       (b = false -> x' = x) /\ (b = true -> mi_status (gx_mission x') = MissionStatus.RUNNING)) x.
Proof.
  unfold start_mission. apply wp_read. fold (startable (mi_status (gx_mission x))).
  destruct (startable (mi_status (gx_mission x))) eqn:Est; cbn [negb]; [|by apply wp_ret].
  apply wp_update, wp_clock, wp_update, wp_bind.
  set (x1 := on_mission _ _).
  assert (H1 : touched x x1 /\ mi_status (gx_mission x1) = MissionStatus.RUNNING) by done. clearbody x1.
  eapply wp_mono; [by apply wp_rendre_durable|]. intros [] x2 (Hm2 & Hr2 & _). apply wp_bind.
  eapply wp_mono; [apply wp_snapshot|]. intros [] x3 [H3 Hs3]. apply wp_bind.
  eapply wp_mono; [apply wp_emit_event|]. intros [] x4 (Hm4 & Hr4 & _). apply wp_bind.
  eapply wp_mono; [by apply wp_announce_ready|]. intros [] x5 (Hm5 & Hr5 & _). apply wp_ret.
  assert (H2 : touched x1 x2) by (unfold touched; by rewrite Hm2, Hr2).
  assert (H5 : touched x3 x5) by (unfold touched; by rewrite Hm5, Hm4, Hr5, Hr4).
  split; [done|]. split; [|split; [done|intros _; rewrite Hm5, Hm4, Hs3, Hm2; apply H1]].
  transitivity x1; [apply H1|]. transitivity x2; [done|]. by transitivity x3.
Qed.

Lemma wp_cancel x :
  wp (cancel_mission env)
    (fun b x' => touched x x' /\ mi_id (gx_mission x') = mi_id (gx_mission x) /\
       mi_metadata (gx_mission x') = mi_metadata (gx_mission x) /\
       if decide (mi_status (gx_mission x) = MissionStatus.COMPLETED) then x' = x
       else mi_status (gx_mission x') = MissionStatus.CANCELLED) x.
Proof.
  unfold cancel_mission. apply wp_read. destruct (decide _); [by apply wp_ret|].
  apply wp_update, wp_clock, wp_update, wp_bind. eapply wp_mono; [by apply wp_rendre_durable|].
  intros [] x2 (Hm2 & Hr2 & _). apply wp_bind. eapply wp_mono; [apply wp_emit_event|].
  intros [] x3 (Hm3 & Hr3 & _). apply wp_ret. unfold touched. by rewrite Hm3, Hr3, Hm2, Hr2.
Qed.

(** The metadata once the attempt has been taken. *)
Lemma retries_taken m :
  dict_wf (mi_metadata m) -> suggested m = true ->
  let m1 := with_metadata (ddel (mi_metadata m) "retry_brief") m in
  (S (retries (with_metadata (dset (mi_metadata m1) "attempts" (PInt (attempts_of m1 + 1))) m1))
     <= retries m)%nat.
Proof.
  intros Hwf Hs m1. unfold retries at 2. rewrite Hs.
  assert (Ha : attempts_of m1 = attempts_of m).
  { unfold attempts_of, m1. cbn [mi_metadata with_metadata]. by rewrite dget_ddel, decide_False by done. }
  set (m2 := with_metadata _ m1).
  assert (Ha2 : attempts_of m2 = attempts_of m + 1).
  { unfold attempts_of at 1, m2. cbn [mi_metadata with_metadata]. rewrite dget_dset, decide_True by done. by rewrite Ha. }
  assert (Hs2 : suggested m2 = false).
  { unfold suggested, m2, m1. cbn [mi_metadata with_metadata].
    rewrite dget_dset, decide_False by done. by rewrite dget_ddel, decide_True by done. }
  unfold retries. rewrite Hs2, Ha2. lia.
Qed.

Lemma wp_build ns es x :
  wp (build_mission env ns es)
    (fun _ x' => node_ids (gx_mission x') = map mn_id ns /\ gx_runs x' = gx_runs x) x.
Proof.
  eapply wp_mono; [apply build_mission_spec|]. cbn zeta. intros issues x' (Hg & Hr & _). split; [|done].
  destruct Hg as (_ & -> & _). unfold node_ids, graph_build. cbn. by rewrite !map_map.
Qed.

Definition again_tail : M Exec bool :=
  m' <- gmission ;;
  build_mission env (mi_nodes m') (mi_edges m') ;;;
  update (with_status MissionStatus.READY) ;;;
  start_mission env.

Lemma wp_again_tail x :
  dict_wf (mi_metadata (gx_mission x)) ->
  wp again_tail (fun b x' => (b = true /\ node_ids (gx_mission x') = node_ids (gx_mission x) /\ gx_runs x' = gx_runs x /\
       mi_status (gx_mission x') = MissionStatus.RUNNING) /\ fewer x x') x.
Proof.
  intros Hwf. apply wp_fewer; [|done|].
  - intros K. unfold again_tail. pose proof (keeps_build env K False). pose proof (keeps_start env K False).
    apply preserves_bind; [by intros ?|]. intros m. apply preserves_bind; [auto|]. intros _.
    apply preserves_bind; [|auto]. by apply keeps_update_meta.
  - unfold again_tail. apply wp_read, wp_bind. eapply wp_mono; [apply wp_build|]. intros issues x1 [Hid1 Hr1].
    apply wp_update. eapply wp_mono; [apply wp_start|]. intros b x2 (-> & (Hn2 & _ & Hr2) & _ & Hst2).
    specialize (Hst2 eq_refl). unfold node_ids at 1. rewrite Hn2. split; [reflexivity|].
    split; [exact Hid1|]. split; [exact (eq_trans Hr2 Hr1)|exact Hst2].
Qed.

(** A second attempt takes the brief and restarts the mission; without a brief
    there is none. *)
Lemma wp_preparer x :
  dict_wf (mi_metadata (gx_mission x)) ->
  wp (preparer_reprise env)
    (fun b x' => b = suggested (gx_mission x) /\
       if b then move x x' /\ (S (retries (gx_mission x')) <= retries (gx_mission x))%nat /\
                 mi_status (gx_mission x') = MissionStatus.RUNNING
       else touched x x' /\ fewer x x' /\ mi_status (gx_mission x') = mi_status (gx_mission x)) x.
Proof.
  intros Hwf. unfold preparer_reprise. apply wp_read, wp_update. set (x1 := on_mission _ x).
  assert (Hnone : suggested (gx_mission x) = false -> touched x x1 /\ fewer x x1 /\
    mi_status (gx_mission x1) = mi_status (gx_mission x)).
  { intros Hs. split; [done|]. split; [|done]. split; [by apply dict_wf_ddel|].
    unfold retries. rewrite Hs. unfold suggested, attempts_of, x1. cbn [gx_mission on_mission mi_metadata with_metadata].
    rewrite !dget_ddel by done. by rewrite decide_True, decide_False. }
  assert (Hs : suggested (gx_mission x) = match dget (mi_metadata (gx_mission x)) "retry_brief" with
    | Some (PStr text) => negb (bool_decide (text = "")) | _ => false end) by done.
  destruct (dget (mi_metadata (gx_mission x)) "retry_brief") as [[| | | |text| |]|];
    try (apply wp_ret; rewrite Hs; split; [done|]; by apply Hnone).
  destruct (decide (text = "")) as [->|Hne]; [apply wp_ret; rewrite Hs; split; [done|]; by apply Hnone|].
  rewrite bool_decide_eq_false_2 in Hs by done. cbn [negb] in Hs.
  pose proof (retries_taken (gx_mission x) Hwf Hs) as Htaken. cbv zeta in Htaken.
  apply wp_update. set (x2 := on_mission _ x1).
  assert (H2 : few (pred (retries (gx_mission x))) False x2).
  { split; [by apply dict_wf_dset, dict_wf_ddel|]. split; [|done]. unfold x2, x1. cbn [gx_mission on_mission]. lia. }
  assert (Hr2 : (1 <= retries (gx_mission x))%nat) by lia.
  assert (Hg2 : node_ids (gx_mission x2) = node_ids (gx_mission x) /\ gx_runs x2 = gx_runs x) by done.
  clearbody x2. clear x1 Hnone Htaken.
  apply wp_update. set (x3 := on_mission _ x2).
  assert (H3 : few (pred (retries (gx_mission x))) False x3).
  { revert H2. apply (keeps_update (pred (retries (gx_mission x)))). intros m Hm. destruct (dmem _ _); [done|].
    rewrite retries_other by done. split; [by apply dict_wf_dset|]. split; [done|].
    unfold suggested. cbn [mi_metadata with_metadata]. by rewrite dget_dset, decide_False. }
  assert (Hg3 : node_ids (gx_mission x3) = node_ids (gx_mission x) /\ gx_runs x3 = gx_runs x).
  { destruct Hg2 as [<- <-]. unfold x3. cbn. by destruct (dmem _ _). }
  clearbody x3. apply wp_update, wp_update.
  set (x4 := on_mission _ (on_mission _ x3)).
  assert (H4 : few (pred (retries (gx_mission x))) False x4) by done.
  assert (Hg4 : node_ids (gx_mission x4) = node_ids (gx_mission x) /\ gx_runs x4 = gx_runs x).
  { destruct Hg3 as [<- <-]. unfold x4, node_ids. cbn. by rewrite map_map. }
  clearbody x4. destruct H4 as (Hwf4 & Hr4 & _), Hg4 as [Hid4 Hru4].
  eapply (wp_mono again_tail); [by apply wp_again_tail|].
  intros b x5 [(-> & Hid & Hru & Hst) [Hwf5 Hle]]. split; [done|].
  assert ((S (retries (gx_mission x5)) <= retries (gx_mission x))%nat) by lia.
  split; [|done]. apply mv_again; [congruence..|done|done].
Qed.
End moves.

(** ** What a turn of the event loop does *)

Section turns.
Variable w : Wiring.
Hypothesis Hrel : reliable (wi_env w).

(** Distinct ids, and metadata that are a dictionary. *)
Definition sound (x : Exec) : Prop :=
  NoDup (node_ids (gx_mission x)) /\ dict_wf (mi_metadata (gx_mission x)).

Lemma move_sound x x' : move (wi_env w) x x' -> sound x -> sound x'.
Proof.
  intros [y y' Hs Hf|y y' (Hn & _) Hf|y y' Hid _ Hwf _] [Hnd _].
  - destruct (sp_graph _ _ _ Hs) as (_ & Hid & _). split; [by rewrite Hid|apply Hf].
  - split; [unfold node_ids; by rewrite Hn|apply Hf].
  - split; [by rewrite Hid|done].
Qed.

Lemma moves_sound x x' : rtc (move (wi_env w)) x x' -> sound x -> sound x'.
Proof. induction 1; eauto using move_sound. Qed.

Lemma move_fewer x x' : move (wi_env w) x x' -> (retries (gx_mission x') <= retries (gx_mission x))%nat.
Proof. intros [? ? _ []|? ? _ []|]; lia. Qed.

Lemma moves_fewer x x' : rtc (move (wi_env w)) x x' -> (retries (gx_mission x') <= retries (gx_mission x))%nat.
Proof. induction 1 as [|x y z Hm _ IH]; [done|]. apply move_fewer in Hm. lia. Qed.

(** The executor has moved; the walkers and the answers are the same. *)
Definition turned (s s' : Driver) : Prop :=
  rtc (move (wi_env w)) (dr_exec s) (dr_exec s') /\ dr_walkers s' = dr_walkers s /\ dr_answers s' = dr_answers s.

#[local] Instance turned_preorder : PreOrder turned.
Proof.
  split; [done|]. intros s1 s2 s3 (H1 & ? & ?) (H2 & ? & ?). split; [by transitivity (dr_exec s2)|].
  split; congruence.
Qed.

Lemma turned_sound s s' : turned s s' -> sound (dr_exec s) -> sound (dr_exec s').
Proof. intros (Hm & _). by apply moves_sound. Qed.

Lemma turned_fewer s s' : turned s s' -> (retries (mission_of s') <= retries (mission_of s))%nat.
Proof. intros (Hm & _). by apply moves_fewer. Qed.

Lemma wp_on_exec {A} (m : M Exec A) Q s :
  wp m (fun a x => Q a (with_exec x s)) (dr_exec s) -> wp (on_exec m) Q s.
Proof. unfold wp, on_exec, zoom. by destruct (m (dr_exec s)) as [[a|e] x]. Qed.

Lemma turned_exec s x : move (wi_env w) (dr_exec s) x -> turned s (with_exec x s).
Proof. intros Hm. split; [by apply rtc_once|done]. Qed.

Lemma touched_turned s x : touched (dr_exec s) x -> fewer (dr_exec s) x -> turned s (with_exec x s).
Proof. intros Ht Hf. apply turned_exec. by apply mv_touch. Qed.

Lemma wp_mission {A} (f : Mission -> M Driver A) Q s : wp (f (mission_of s)) Q s -> wp (bind the_mission f) Q s.
Proof. done. Qed.

Lemma turned_status st s : dict_wf (mi_metadata (mission_of s)) -> turned s (set_status st s).2.
Proof. intros Hwf. by apply touched_turned. Qed.

Lemma wp_set_status {A} st (f : unit -> M Driver A) Q s :
  wp (f tt) Q (with_exec (on_mission (with_status st) (dr_exec s)) s) -> wp (bind (set_status st) f) Q s.
Proof. done. Qed.

(** Recording leaves the mission alone. *)
Definition recorded (s s' : Driver) : Prop :=
  dr_exec s' = dr_exec s /\ dr_walkers s' = dr_walkers s /\ dr_answers s' = dr_answers s.

Lemma wp_write {A} store f (g : unit -> M Driver A) Q s :
  (forall t, recorded t (f t)) -> (forall s', recorded s s' -> wp (g tt) Q s') -> wp (bind (write store f) g) Q s.
Proof.
  intros Hf Hg. unfold wp, bind, write. destruct store as [accepts|]; [|by apply Hg].
  destruct (accepts _); apply Hg; [|done]. set (t := mkDriver _ _ _ _ _ _ _).
  unfold recorded. by destruct (Hf t) as (-> & -> & ->).
Qed.

Lemma wp_record s : wp (record_episode w) (fun _ s' => recorded s s') s.
Proof.
  unfold record_episode. apply wp_mission. destruct (wi_memory w) as [accepts|] eqn:Em; [|by apply wp_ret].
  apply wp_write; [done|]. intros s1 H1. apply wp_bind.
  apply (wp_mono _ (fun _ s' => recorded s s')).
  - case_decide; [|by apply wp_ret]. unfold record_procedure, wp, write.
    destruct (wi_memory w) as [accepts'|]; [|done]. by destruct (accepts' _).
  - intros [] s2 H2. unfold feed_evolution_engine, wp, write.
    destruct (wi_evolution w) as [accepts'|]; [|done]. by destruct (accepts' _).
Qed.

Lemma recorded_turned s s1 s2 : recorded s s1 -> turned s1 s2 -> turned s s2.
Proof. unfold turned. by intros (-> & -> & ->). Qed.

Lemma wp_one_pass k s :
  sound (dr_exec s) ->
  wp (one_pass w k) (fun o s' => turned s s' /\
    match o with
    | Some k' => walkable (mission_of s) (wk_passes k) = true /\ wk_passes k' = S (wk_passes k) /\
        get_ready_nodes (mission_of s) <> []
    | None => mi_status (mission_of s') = mi_status (mission_of s)
    end) s.
Proof.
  intros [Hnd Hwf]. unfold one_pass. apply wp_mission.
  destruct (walkable (mission_of s) (wk_passes k)) eqn:Ew; [|by apply wp_ret].
  apply wp_bind, wp_on_exec.
  eapply wp_mono; [apply wp_fewer; [intros K; by apply keeps_execute_step|done|by apply execute_step_spec]|].
  intros n x [[-> Hs] Hf]. apply wp_ret. split; [by apply turned_exec, mv_step|].
  destruct (get_ready_nodes (gx_mission (dr_exec s))) as [|p l] eqn:E.
  - change (mi_status (gx_mission x) = mi_status (gx_mission (dr_exec s))).
    rewrite (sp_status _ _ _ Hs). unfold mission_after. by rewrite E.
  - cbn [length]. destruct (Z.eqb_spec (Z.of_nat (S (length l))) 0); [lia|].
    split; [done|]. split; [done|]. unfold mission_of. by rewrite E.
Qed.

(** What is left of a walk: its passes, and those of the attempts to come. *)
Definition weight (k : Walker) (m : Mission) : nat :=
  S (MAX_EXECUTION_PASSES - wk_passes k) + S MAX_EXECUTION_PASSES * retries m.

Definition advanced (k : Walker) (s : Driver) (t : Turn) (s' : Driver) : Prop :=
  turned s s' /\
  match t with Parked k' => (weight k' (mission_of s') < weight k (mission_of s))%nat | Returned _ => True end.

Lemma walkable_passes m p : walkable m p = true -> (p < MAX_EXECUTION_PASSES)%nat.
Proof. unfold walkable. by intros [_ ?%Nat.ltb_lt]%andb_true_iff. Qed.

Lemma advanced_parked k k' s s' :
  turned s s' -> walkable (mission_of s) (wk_passes k) = true -> wk_passes k' = S (wk_passes k) ->
  advanced k s (Parked k') s'.
Proof.
  intros Ht Hw%walkable_passes Hp. split; [done|]. apply turned_fewer in Ht. unfold weight. rewrite Hp. nia.
Qed.

(** From a mission that runs, no attempt is taken before the next [await]. *)
Lemma wp_walk_running f k s :
  sound (dr_exec s) -> mi_status (mission_of s) = MissionStatus.RUNNING ->
  wp (walk w (S f) k) (advanced k s) s.
Proof.
  intros Hsound Hst. cbn [walk]. apply wp_bind. eapply wp_mono; [by apply wp_one_pass|].
  intros [k'|] s1 [Ht Ho]; [by apply wp_ret, advanced_parked; destruct Ho as (? & ? & _)|].
  apply wp_mission. rewrite Ho, Hst. cbn. by apply wp_ret.
Qed.

Lemma wp_walk k s : sound (dr_exec s) -> wp (walk w 2 k) (advanced k s) s.
Proof.
  intros Hsound. cbn [walk]. apply wp_bind. eapply wp_mono; [by apply wp_one_pass|].
  intros [k'|] s1 [Ht Ho]; [by apply wp_ret, advanced_parked; destruct Ho as (? & ? & _)|].
  apply wp_mission. destruct (terminal _); [|by apply wp_ret]. apply wp_bind.
  eapply wp_mono; [apply wp_record|]. intros [] s2 H2. apply wp_bind, wp_on_exec.
  pose proof (turned_sound _ _ Ht Hsound) as Hs1. pose proof H2 as (Hx2 & _).
  rewrite Hx2. eapply wp_mono; [apply wp_preparer; [done|apply Hs1]|].
  intros b x [_ Hb]. destruct b.
  - destruct Hb as (Hm & Hr & Hst). assert (Ht3 : turned s (with_exec x s2)).
    { transitivity s1; [done|]. eapply recorded_turned; [exact H2|]. apply turned_exec. by rewrite Hx2. }
    change (wp (walk w 1 (mkWalker 0 (wk_executed k))) (advanced k s) (with_exec x s2)).
    eapply wp_mono; [apply wp_walk_running; [by eapply turned_sound|done]|].
    intros t s4 [Ht4 Hw]. split; [by transitivity (with_exec x s2)|]. destruct t as [k'|]; [|done].
    apply turned_fewer in Ht. revert Hw. unfold weight. cbn [wk_passes].
    change (mission_of (with_exec x s2)) with (gx_mission x). unfold mission_of in *. nia.
  - destruct Hb as (Hto & Hf & _). apply wp_ret. split; [|done]. transitivity s1; [done|].
    eapply recorded_turned; [exact H2|]. apply touched_turned; by rewrite Hx2.
Qed.

(** ** The handlers

    They raise when a path does not resolve, so this is about the state they
    leave, whatever they answer. *)
Definition turning {A} (m : M Driver A) : Prop := forall s, sound (dr_exec s) -> turned s (m s).2.

Lemma turning_wp {A} (m : M Driver A) s : wp m (fun _ s' => turned s s') s -> turned s (m s).2.
Proof. by intros [_ H]%wp_state. Qed.

Lemma turning_ret {A} (a : A) : turning (ret a).
Proof. by intros s _. Qed.

Lemma turning_lift {A} (r : res A) : turning (lift r).
Proof. by intros s _. Qed.

Lemma turning_mission : turning the_mission.
Proof. by intros s _. Qed.

Lemma turning_bind {A B} (m : M Driver A) (f : A -> M Driver B) :
  turning m -> (forall a, turning (f a)) -> turning (bind m f).
Proof.
  intros Hm Hf s Hs. unfold bind. pose proof (Hm s Hs) as H1. destruct (m s) as [[a|e] s1]; [|done].
  transitivity s1; [done|]. apply Hf. by eapply turned_sound.
Qed.

Lemma turning_status st : turning (set_status st).
Proof. intros s [_ Hwf]. by apply turned_status. Qed.

Lemma turning_record : turning (record_episode w).
Proof.
  intros s _. apply turning_wp. eapply wp_mono; [apply wp_record|]. intros [] s' H.
  by eapply recorded_turned.
Qed.

Lemma turning_exec {A} (m : M Exec A) :
  (forall K, preserves (few K False) m) -> (forall x, wp m (fun _ x' => touched x x') x) -> turning (on_exec m).
Proof.
  intros Hk Hm s [_ Hwf]. apply turning_wp, wp_on_exec. eapply wp_mono; [by apply wp_fewer|].
  intros a x [Ht Hf]. by apply touched_turned.
Qed.

Lemma turning_start : turning (on_exec (start_mission (wi_env w))).
Proof.
  apply turning_exec; [intros K; apply keeps_start|]. intros x. eapply wp_mono; [by apply wp_start|].
  by intros b x' (_ & Ht & _).
Qed.

Lemma turning_cancel : turning (on_exec (cancel_mission (wi_env w))).
Proof.
  apply turning_exec; [intros K; apply keeps_cancel|]. intros x. eapply wp_mono; [by apply wp_cancel|].
  by intros b x' [Ht _].
Qed.

Lemma turning_now : turning (on_exec (now (wi_env w))).
Proof. apply turning_exec; intros ?; [apply keeps_now|]. by apply wp_ret. Qed.

Lemma turning_started t : turning (on_exec (update (with_started t))).
Proof. apply turning_exec; intros ?; [by apply keeps_update_meta|]. by split_and!. Qed.

Lemma wp_walk_on k s :
  sound (dr_exec s) ->
  wp (walk_on w k) (fun o s' => turned s s' /\
    match o with Waiting k' => (weight k' (mission_of s') < weight k (mission_of s))%nat | Answer _ => True end) s.
Proof.
  intros Hs. unfold walk_on. apply wp_bind. eapply wp_mono; [by apply wp_walk|].
  intros [k'|n] s' [Ht Hw]; by apply wp_ret.
Qed.

Lemma turning_walk k : turning (walk_on w k).
Proof. intros s Hs. apply turning_wp. eapply wp_mono; [by apply wp_walk_on|]. by intros o s' []. Qed.

#[local] Hint Resolve turning_ret turning_lift turning_mission turning_status turning_record turning_start
  turning_cancel turning_now turning_started turning_walk : hermes.

Ltac turn := repeat lazymatch goal with
  | |- turning (bind _ _) => apply turning_bind; [|intros ?]
  | |- turning (if ?b then _ else _) => destruct b
  | |- turning (match ?x with _ => _ end) => destruct x
  end; auto with hermes.

Lemma turning_security : turning (check_mission_security w).
Proof. unfold check_mission_security, check_path, ask. turn. Qed.
#[local] Hint Resolve turning_security : hermes.

Lemma turning_start_handler : turning (start_handler w).
Proof. unfold start_handler. turn. Qed.

Lemma turning_pause_handler : turning pause_handler.
Proof. unfold pause_handler. turn. Qed.

Lemma turning_resume_handler : turning (resume_handler w).
Proof. unfold resume_handler. turn. Qed.

Lemma turning_cancel_handler : turning (cancel_handler w).
Proof. unfold cancel_handler. turn. Qed.
#[local] Hint Resolve turning_start_handler turning_pause_handler turning_resume_handler turning_cancel_handler : hermes.

(** ** Requests *)

Lemma exec_conclude place r : dr_exec (conclude place r) = dr_exec r.2.
Proof. unfold conclude. destruct r as [[[a|k]|e] s], place; done. Qed.

Lemma serve_moves r s : sound (dr_exec s) -> rtc (move (wi_env w)) (dr_exec s) (dr_exec (serve w r s)).
Proof.
  intros Hs. destruct r as [| | | |i]; cbn [serve]; rewrite ?exec_conclude.
  - by apply turning_start_handler.
  - by apply turning_pause_handler.
  - by apply turning_resume_handler.
  - by apply turning_cancel_handler.
  - destruct (dr_walkers s !! i) as [[k|]|]; [|done..]. rewrite exec_conclude. by apply turning_walk.
Qed.

Lemma serve_sound r s : sound (dr_exec s) -> sound (dr_exec (serve w r s)).
Proof. intros Hs. eapply moves_sound; [by apply serve_moves|done]. Qed.

Lemma serve_all_moves rs s : sound (dr_exec s) -> rtc (move (wi_env w)) (dr_exec s) (dr_exec (serve_all w rs s)).
Proof.
  revert s. induction rs as [|r rs IH]; intros s Hs; [done|]. cbn.
  transitivity (dr_exec (serve w r s)); [by apply serve_moves|]. by apply IH, serve_sound.
Qed.

(** A request leaves the other walkers as they were. *)
Lemma conclude_new s (o : res Outcome * Driver) i x :
  turned s o.2 -> dr_walkers s !! i = Some x -> dr_walkers (conclude None o) !! i = Some x.
Proof.
  intros (_ & Hw & _) Hi. unfold conclude. destruct o as [[[a|k]|e] s']; cbn in *; rewrite Hw; try done.
  by rewrite lookup_app, Hi.
Qed.

Lemma conclude_other s (o : res Outcome * Driver) j i x :
  j <> i -> turned s o.2 -> dr_walkers s !! i = Some x -> dr_walkers (conclude (Some j) o) !! i = Some x.
Proof.
  intros Hne (_ & Hw & _) Hi. unfold conclude.
  destruct o as [[[a|k]|e] s']; cbn in *; rewrite Hw, list_lookup_insert_ne by done; done.
Qed.

Lemma serve_other r s i x :
  sound (dr_exec s) -> r <> Wake i -> dr_walkers s !! i = Some x -> dr_walkers (serve w r s) !! i = Some x.
Proof.
  intros Hs Hr Hi. destruct r as [| | | |j]; cbn [serve].
  1: apply (conclude_new s); [by apply turning_start_handler|done].
  1: apply (conclude_new s); [by apply turning_pause_handler|done].
  1: apply (conclude_new s); [by apply turning_resume_handler|done].
  1: apply (conclude_new s); [by apply turning_cancel_handler|done].
  destruct (dr_walkers s !! j) as [[k|]|]; [|done..].
  apply (conclude_other s); [congruence|by apply turning_walk|done].
Qed.

(** A walker that is woken ends, or has less left to do. *)
Lemma serve_wake s i k :
  sound (dr_exec s) -> dr_walkers s !! i = Some (Some k) ->
  dr_walkers (serve w (Wake i) s) !! i = Some None \/
  exists k', dr_walkers (serve w (Wake i) s) !! i = Some (Some k') /\
    (weight k' (mission_of (serve w (Wake i) s)) < weight k (mission_of s))%nat.
Proof.
  intros Hs Hi. cbn [serve]. rewrite Hi.
  destruct (wp_ok _ _ _ (wp_walk_on k s Hs)) as (o & s' & Hrun & (_ & Hw & _) & Ho). rewrite Hrun.
  apply lookup_lt_Some in Hi. unfold conclude. cbn. destruct o as [a|k']; [left|right; exists k'; split; [|done]];
    cbn; rewrite Hw; by apply list_lookup_insert_eq.
Qed.

Lemma weight_mono k m m' : (retries m' <= retries m)%nat -> (weight k m' <= weight k m)%nat.
Proof. unfold weight. nia. Qed.

Definition wakes (i : nat) (rs : list Request) : nat :=
  length (List.filter (fun r => match r with Wake j => Nat.eqb i j | _ => false end) rs).

(** C23: termination.  Whatever else is requested in between, a walk ends after a
    number of turns bounded by the passes and the attempts it has left, at most
    101 for each attempt. *)
Theorem walkers_end rs s i k :
  sound (dr_exec s) -> dr_walkers s !! i = Some (Some k) -> (weight k (mission_of s) <= wakes i rs)%nat ->
  dr_walkers (serve_all w rs s) !! i = Some None.
Proof.
  assert (Hdone : forall rs s, sound (dr_exec s) -> dr_walkers s !! i = Some None ->
    dr_walkers (serve_all w rs s) !! i = Some None).
  { clear rs s k. induction rs as [|r rs IH]; intros s Hs Hi; [done|]. cbn. apply IH; [by apply serve_sound|].
    destruct (decide (r = Wake i)) as [->|Hne]; [cbn; by rewrite Hi|by apply serve_other]. }
  revert s k. induction rs as [|r rs IH]; intros s k Hs Hi Hle.
  - cbn in Hle. unfold weight in Hle. lia.
  - cbn. pose proof (serve_sound r s Hs) as Hs'.
    destruct (decide (r = Wake i)) as [->|Hne].
    + destruct (serve_wake s i k Hs Hi) as [He|(k' & Hk' & Hlt)]; [by apply Hdone|].
      apply (IH _ k'); [done..|]. revert Hle Hlt. unfold wakes. cbn [List.filter]. rewrite Nat.eqb_refl. cbn [length]. lia.
    + apply (IH _ k); [done|by apply serve_other|]. etransitivity.
      * apply weight_mono, moves_fewer. by apply serve_moves.
      * revert Hle. unfold wakes. cbn [List.filter]. destruct r as [| | | |j]; try done.
        destruct (Nat.eqb_spec i j); [congruence|done].
Qed.
End turns.

(** ** How often a node is called *)

Section calls.
Variable w : Wiring.
Hypothesis Hrel : reliable (wi_env w).

Definition calls (i : nat) (x : Exec) : nat := count_occ Nat.eq_dec (map snd (gx_runs x)) i.

(** The call the node may still get in this attempt. *)
Definition pending_call (i : nat) (m : Mission) : nat :=
  match mi_nodes m !! i with
  | Some n => if not_startable n then 0 else 1
  | None => 0
  end.

Definition ledger (i : nat) (x : Exec) : nat :=
  calls i x + pending_call i (gx_mission x) + retries (gx_mission x).

Lemma pending_call_le i m : (pending_call i m <= 1)%nat.
Proof. unfold pending_call. destruct (_ !! i) as [n|]; [destruct (not_startable n)|]; lia. Qed.

Lemma count_occ_le_1 l i : NoDup l -> (count_occ Nat.eq_dec l i <= 1)%nat.
Proof. intros Hl. apply NoDup_ListNoDup, (NoDup_count_occ Nat.eq_dec) with (x := i) in Hl. done. Qed.

Lemma calls_step i x x' :
  stepped (wi_env w) x x' ->
  (calls i x' + pending_call i (gx_mission x') <= calls i x + pending_call i (gx_mission x))%nat.
Proof.
  intros Hs. unfold calls. rewrite (sp_runs _ _ _ Hs), map_app, count_occ_app, map_map. cbn [snd]. rewrite map_id.
  set (new := List.filter _ _).
  assert (Hnd : NoDup new) by apply NoDup_list_filter, positions_NoDup.
  assert (Hnew : i ∈ new -> exists n, mi_nodes (gx_mission x) !! i = Some n /\ is_ready (gx_mission x) n = true).
  { intros Hi. apply list_elem_of_In, filter_In, proj1, list_elem_of_In, list_elem_of_fmap in Hi as ([j n] & -> & Hp).
    exists n. by apply elem_ready. }
  pose proof (count_occ_le_1 new i Hnd) as Hle. unfold pending_call.
  destruct (mi_nodes (gx_mission x) !! i) as [n|] eqn:Hn.
  - destruct (stepped_node _ x x' i n Hs Hn) as (n' & -> & _ & Hst).
    destruct (is_ready (gx_mission x) n) eqn:Er.
    + rewrite (ready_startable _ _ Er).
      enough (not_startable n' = true) as -> by lia. unfold not_startable. apply bool_decide_eq_true_2. rewrite Hst.
      pose proof (status_after_ready (wi_env w) (gx_steps x) (gx_mission x) i n Er). set_solver.
    + assert (Hc : count_occ Nat.eq_dec new i = 0%nat).
      { apply count_occ_not_In. intros Hi%list_elem_of_In. destruct (Hnew Hi) as (? & ? & ?). congruence. }
      enough (not_startable n = true -> not_startable n' = true) as Hmono
        by (destruct (not_startable n), (not_startable n'); try lia; by specialize (Hmono eq_refl)).
      unfold not_startable. rewrite Hst. intros Hns. apply bool_decide_eq_true in Hns. apply bool_decide_eq_true_2.
      unfold status_after. rewrite Er. destruct (hit _ _ _ _); [|done].
      destruct (blocked_status_cases (mn_status n)) as [->|[_ ->]]; [done|const_elem].
  - destruct (mi_nodes (gx_mission x') !! i) as [n'|] eqn:Hn'.
    { destruct (stepped_node_back _ x x' i n' Hs Hn') as (? & ? & _). congruence. }
    enough (count_occ Nat.eq_dec new i = 0%nat) by lia.
    apply count_occ_not_In. intros Hi%list_elem_of_In. destruct (Hnew Hi) as (? & ? & ?). congruence.
Qed.

Lemma ledger_move i x x' : move (wi_env w) x x' -> (ledger i x' <= ledger i x)%nat.
Proof.
  unfold ledger. intros [y y' Hs [_ Hf]|y y' (Hn & _ & Hr) [_ Hf]|y y' Hid Hr _ Hf].
  - pose proof (calls_step i y y' Hs). lia.
  - unfold calls, pending_call. rewrite Hn, Hr. lia.
  - unfold calls. rewrite Hr. pose proof (pending_call_le i (gx_mission y')). lia.
Qed.

Lemma ledger_moves i x x' : rtc (move (wi_env w)) x x' -> (ledger i x' <= ledger i x)%nat.
Proof. induction 1 as [|x y z Hm _ IH]; [done|]. apply (ledger_move i) in Hm. lia. Qed.

(** Bounded calls.  Whatever is requested and in whatever order the walks are
    woken, no node is called more often than there are attempts: once, and once
    more for each attempt that was left. *)
Theorem calls_bounded rs s i :
  sound (dr_exec s) ->
  (calls i (dr_exec (serve_all w rs s)) <= calls i (dr_exec s) + 1 + retries (mission_of s))%nat.
Proof.
  intros Hs. pose proof (ledger_moves i _ _ (serve_all_moves w Hrel rs s Hs)) as Hle.
  unfold ledger in Hle. pose proof (pending_call_le i (gx_mission (dr_exec s))). unfold mission_of. lia.
Qed.
End calls.

(** ** A paused mission *)

Definition quiet (r : Request) : bool := match r with Pause | Wake _ => true | _ => false end.

Section requests.
Variable w : Wiring.

Lemma bind_mission {A} (f : Mission -> M Driver A) s : bind the_mission f s = f (mission_of s) s.
Proof. reflexivity. Qed.

(** A walk woken on a paused mission ends without a step. *)
Lemma walk_paused k s :
  mi_status (mission_of s) = MissionStatus.PAUSED ->
  walk_on w k s = (Ok (Answer (Walked MissionStatus.PAUSED (wk_executed k) (get_progress (mission_of s)))), s).
Proof.
  intros Hst. assert (Hnone : one_pass w k s = (Ok None, s)).
  { unfold one_pass, bind at 1, the_mission, walkable. rewrite Hst, (bool_decide_eq_true_2 _ eq_refl).
    by rewrite andb_false_r. }
  assert (Hwalk : walk w 2 k s = (Ok (Returned (wk_executed k)), s)).
  { cbn [walk]. rewrite (bind_ok _ _ _ _ _ Hnone). unfold bind at 1, the_mission. by rewrite Hst. }
  unfold walk_on. rewrite (bind_ok _ _ _ _ _ Hwalk). unfold bind, the_mission, ret. by rewrite Hst.
Qed.

Definition after_wake (r : Request) (i : nat) (x : option (option Walker)) : option (option Walker) :=
  match x with
  | Some (Some k) => if decide (r = Wake i) then Some None else Some (Some k)
  | _ => x
  end.

Lemma serve_paused r s :
  mi_status (mission_of s) = MissionStatus.PAUSED -> quiet r = true ->
  dr_exec (serve w r s) = dr_exec s /\
  forall i, dr_walkers (serve w r s) !! i = after_wake r i (dr_walkers s !! i).
Proof.
  intros Hst Hq. destruct r as [| | | |j]; try done; cbn [serve].
  - unfold pause_handler. rewrite bind_mission, decide_False by (by rewrite Hst). cbn. split; [done|].
    intros i. by destruct (dr_walkers s !! i) as [[k|]|].
  - assert (Hid : forall i, (forall k, dr_walkers s !! j <> Some (Some k)) ->
      dr_walkers s !! i = after_wake (Wake j) i (dr_walkers s !! i)).
    { intros i Hj. unfold after_wake. case_decide as Heq; [|by destruct (dr_walkers s !! i) as [[?|]|]].
      injection Heq as ->. destruct (dr_walkers s !! i) as [[k|]|]; [by destruct (Hj k)|done..]. }
    destruct (dr_walkers s !! j) as [[k|]|] eqn:Ej; [|by (split; [|intros i; apply Hid])..].
    rewrite walk_paused by done. cbn. split; [done|]. intros i. unfold after_wake.
    destruct (decide (j = i)) as [->|Hne].
    + rewrite Ej, decide_True by done. apply list_lookup_insert_eq. by eapply lookup_lt_Some.
    + rewrite list_lookup_insert_ne by congruence. destruct (dr_walkers s !! i) as [[?|]|]; [|done..].
      by rewrite decide_False by congruence.
Qed.

(** pausing.  While a mission is PAUSED, pauses and wakes change nothing of it:
    no node is called, and the walk that is woken ends. *)
Theorem paused_idle rs s :
  mi_status (mission_of s) = MissionStatus.PAUSED -> forallb quiet rs = true ->
  dr_exec (serve_all w rs s) = dr_exec s /\
  forall i k, dr_walkers s !! i = Some (Some k) ->
    dr_walkers (serve_all w rs s) !! i = if decide (Wake i ∈ rs) then Some None else Some (Some k).
Proof.
  intros Hst Hq. enough (Hgen : dr_exec (serve_all w rs s) = dr_exec s /\
    forall i x, dr_walkers s !! i = Some x ->
      dr_walkers (serve_all w rs s) !! i = if decide (Wake i ∈ rs) then Some None else Some x).
  { split; [apply Hgen|]. intros i k. apply Hgen. }
  revert s Hst. induction rs as [|r rs IH]; intros s Hst; [split; [done|]; intros i x Hx; by rewrite decide_False by set_solver|].
  apply andb_true_iff in Hq as [Hr Hq]. specialize (IH Hq). destruct (serve_paused r s Hst Hr) as [Hx Hw].
  cbn [serve_all fold_left]. fold (serve_all w rs (serve w r s)).
  destruct (IH (serve w r s)) as [Hexec Hwalk]; [by unfold mission_of; rewrite Hx|].
  split; [congruence|]. intros i x Hi. specialize (Hw i). rewrite Hi in Hw. cbn in Hw.
  destruct (decide (r = Wake i)) as [->|Hne].
  - rewrite decide_True by set_solver. rewrite (Hwalk i None); [by case_decide|]. by destruct x.
  - rewrite (Hwalk i x); [|by destruct x]. repeat case_decide; set_solver.
Qed.
End requests.

(** ** The gate *)

Section gate.
Variable w : Wiring.

Definition bound (m : Mission) : Prop := mc_local_path (mi_context m) <> "" \/ mc_repository (mi_context m) <> "".

Definition path_open (m : Mission) : Prop :=
  mc_local_path (mi_context m) = "" \/
  permitted (wi_resolve w) (wi_gate w) (path_request m) None (wi_roots w).

(** The mission may start: it is bound to nothing, or Aegis lets its directory
    be read and the mission be executed. *)
Definition gate_open (m : Mission) : Prop :=
  ~ bound m \/ (path_open m /\ permitted (wi_resolve w) (wi_gate w) (start_request m) None (wi_roots w)).

Inductive checked (s : Driver) : res (option Response) * Driver -> Prop :=
  | ck_open : gate_open (mission_of s) -> checked s (Ok None, s)
  | ck_closed st r :
      ~ gate_open (mission_of s) -> st ∈ [MissionStatus.FAILED; MissionStatus.PAUSED] ->
      checked s (Ok (Some r), (set_status st s).2)
  | ck_raised e : ~ gate_open (mission_of s) -> checked s (Err e, s).

Lemma ask_cases a s :
  (exists d, ask w a s = (Ok d, s) /\
     (ad_verdict d = Verdict.ALLOW <-> permitted (wi_resolve w) (wi_gate w) a None (wi_roots w))) \/
  (exists e, ask w a s = (Err e, s) /\ ~ permitted (wi_resolve w) (wi_gate w) a None (wi_roots w)).
Proof.
  pose proof (allows_permitted (wi_resolve w) (wi_gate w) a None (wi_roots w)) as Hp. unfold allows in Hp.
  unfold ask, lift. destruct (aegis_evaluate _ _ a None _) as [d|e]; [left; exists d|right; exists e]; (split; [done|]);
    rewrite <- Hp.
  - split; [by exists d|by intros (? & [= <-] & ?)].
  - by intros (? & ? & _).
Qed.

Lemma check_path_cases m s :
  (path_open m /\ check_path w m s = (Ok None, s)) \/
  (~ path_open m /\ ((exists e, check_path w m s = (Err e, s)) \/
     exists r, check_path w m s = (Ok (Some r), (set_status MissionStatus.FAILED s).2))).
Proof.
  unfold check_path, path_open. destruct (decide (_ = "")) as [Hp|Hp]; [left; by split; [left|]|].
  destruct (ask_cases (path_request m) s) as [(d & Hd & Hv)|(e & He & Hv)].
  - rewrite (bind_ok _ _ _ _ _ Hd). case_decide as Ha; [left; by split; [right; apply Hv|]|].
    right. split; [tauto|]. right. by eexists.
  - rewrite (bind_err _ _ _ _ _ He). right. split; [tauto|]. left. by eexists.
Qed.

Lemma bound_spec m :
  bool_decide (mc_local_path (mi_context m) = "") && bool_decide (mc_repository (mi_context m) = "") = false <-> bound m.
Proof. unfold bound. repeat case_bool_decide; naive_solver. Qed.

Lemma check_security s : checked s (check_mission_security w s).
Proof.
  unfold check_mission_security. rewrite bind_mission.
  destruct (_ && _) eqn:Eb.
  { apply ck_open. left. rewrite <- bound_spec, Eb. done. }
  apply bound_spec in Eb.
  assert (Hgo : gate_open (mission_of s) <->
    path_open (mission_of s) /\ permitted (wi_resolve w) (wi_gate w) (start_request (mission_of s)) None (wi_roots w))
    by (unfold gate_open; tauto).
  destruct (check_path_cases (mission_of s) s) as [[Hpo Hrun]|(Hpo & [[e Hrun]|[r Hrun]])].
  - rewrite (bind_ok _ _ _ _ _ Hrun).
    destruct (ask_cases (start_request (mission_of s)) s) as [(d & Hd & Hv)|(e & He & Hv)].
    + rewrite (bind_ok _ _ _ _ _ Hd). destruct (ad_verdict d).
      * apply ck_open. apply Hgo. split; [done|by apply Hv].
      * apply (ck_closed _ MissionStatus.FAILED); [|const_elem]. rewrite Hgo. intros [_ H]. by apply Hv in H.
      * apply (ck_closed _ MissionStatus.PAUSED); [|const_elem]. rewrite Hgo. intros [_ H]. by apply Hv in H.
    + rewrite (bind_err _ _ _ _ _ He). apply ck_raised. tauto.
  - rewrite (bind_err _ _ _ _ _ Hrun). apply ck_raised. tauto.
  - rewrite (bind_ok _ _ _ _ _ Hrun). apply (ck_closed _ MissionStatus.FAILED); [tauto|const_elem].
Qed.

Lemma security_paused s d :
  bound (mission_of s) -> path_open (mission_of s) ->
  aegis_evaluate (wi_resolve w) (wi_gate w) (start_request (mission_of s)) None (wi_roots w) = Ok d ->
  ad_verdict d = Verdict.REQUIRE_HUMAN_VALIDATION ->
  check_mission_security w s
  = (Ok (Some (Awaiting MissionStatus.PAUSED (ad_reason d))), (set_status MissionStatus.PAUSED s).2).
Proof.
  intros Hb Hp Hd Hv. unfold check_mission_security. rewrite bind_mission, (proj2 (bound_spec _) Hb).
  destruct (check_path_cases (mission_of s) s) as [[_ Hrun]|[]]; [|done].
  rewrite (bind_ok _ _ _ _ _ Hrun). unfold ask, lift, bind at 1. by rewrite Hd, Hv.
Qed.

(** C32: The gate before the start.  A mission bound to a directory or a repository
    that Aegis does not let through is not started: no node is called and no
    walk begins, whatever the gate answers or raises; it ends FAILED or PAUSED,
    or as it was if the gate raised. *)
Theorem start_gated s :
  ~ gate_open (mission_of s) ->
  let s' := serve w Start s in
  gx_runs (dr_exec s') = gx_runs (dr_exec s) /\ mi_nodes (mission_of s') = mi_nodes (mission_of s) /\
  dr_walkers s' = dr_walkers s /\ gx_saved (dr_exec s') = gx_saved (dr_exec s) /\
  (mi_status (mission_of s') ∈ [MissionStatus.FAILED; MissionStatus.PAUSED] \/
   exists e, dr_exec s' = dr_exec s /\ dr_answers s' = dr_answers s ++ [Raised e]).
Proof.
  intros Hg. cbn [serve]. unfold start_handler.
  pose proof (check_security s) as Hc. destruct (check_mission_security w s) as [o s1] eqn:E.
  inversion Hc as [|st r _ Hst|e _]; subst; [done|..].
  - rewrite (bind_ok _ _ _ _ _ E). split_and!; [done..|]. by left.
  - rewrite (bind_err _ _ _ _ _ E). split_and!; [done..|]. right. by exists e.
Qed.
End gate.

(** ** What the concrete handlers do *)

Section errors.
Variable w : Wiring.
Hypothesis Hrel : reliable (wi_env w).

(** A walk on a mission that runs and has nothing ready ends at once. *)
Lemma wp_walk_idle k s :
  sound (dr_exec s) -> mi_status (mission_of s) = MissionStatus.RUNNING -> get_ready_nodes (mission_of s) = [] ->
  wp (walk_on w k) (fun _ s' => mi_status (mission_of s') = MissionStatus.RUNNING) s.
Proof.
  intros Hs Hst Hready. unfold walk_on. apply wp_bind. cbn [walk]. apply wp_bind.
  eapply wp_mono; [by apply wp_one_pass|]. intros [k'|] s1 [Ht Ho]; [by destruct Ho as (_ & _ & [])|].
  apply wp_mission. rewrite Ho, Hst. cbn [terminal]. apply wp_ret, wp_mission, wp_ret. congruence.
Qed.

(** A finished mission reopened.  [/start] asks the gate before it looks at the
    status: when the gate wants a human, a mission that has ended becomes
    PAUSED, and [/resume] then leaves it RUNNING with nothing left to run. *)
Theorem completed_reopened s d :
  sound (dr_exec s) -> mi_status (mission_of s) = MissionStatus.COMPLETED -> get_ready_nodes (mission_of s) = [] ->
  bound (mission_of s) -> path_open w (mission_of s) ->
  aegis_evaluate (wi_resolve w) (wi_gate w) (start_request (mission_of s)) None (wi_roots w) = Ok d ->
  ad_verdict d = Verdict.REQUIRE_HUMAN_VALIDATION ->
  mi_status (mission_of (serve w Start s)) = MissionStatus.PAUSED /\
  mi_status (mission_of (serve_all w [Start; Resume] s)) = MissionStatus.RUNNING.
Proof.
  intros Hs _ Hready Hb Hp Hd Hv.
  set (x1 := on_mission (with_status MissionStatus.PAUSED) (dr_exec s)).
  assert (H1 : dr_exec (serve w Start s) = x1).
  { cbn [serve]. rewrite exec_conclude. unfold start_handler.
    by rewrite (bind_ok _ _ _ _ _ (security_paused w s d Hb Hp Hd Hv)). }
  split; [unfold mission_of; by rewrite H1|].
  cbn [serve_all fold_left]. set (s1 := serve w Start s) in *.
  assert (Hs1 : sound x1) by done. unfold mission_of. cbn [serve]. rewrite exec_conclude.
  change (gx_mission (dr_exec (resume_handler w s1).2)) with (mission_of (resume_handler w s1).2).
  assert (Hwp : wp (resume_handler w) (fun _ s' => mi_status (mission_of s') = MissionStatus.RUNNING) s1).
  { unfold resume_handler. apply wp_mission. rewrite decide_True by (unfold mission_of; by rewrite H1).
    apply wp_set_status, wp_bind. rewrite H1.
    apply (wp_mono _ (fun _ s' => sound (dr_exec s') /\ mi_status (mission_of s') = MissionStatus.RUNNING /\
      get_ready_nodes (mission_of s') = [])).
    - destruct (mi_started _); [by apply wp_ret|]. apply wp_bind, wp_on_exec. by apply wp_on_exec.
    - intros [] s2 (? & ? & ?). by apply wp_walk_idle. }
  by apply wp_state in Hwp as [_ ?].
Qed.

Lemma wp_write_accepted {A} accepts f (g : unit -> M Driver A) Q s :
  (forall n, accepts n = true) -> (forall t, recorded s t -> dr_episodes t = dr_episodes s -> wp (g tt) Q (f t)) ->
  wp (bind (write (Some accepts) f) g) Q s.
Proof. intros Ha Hg. unfold wp, bind, write. rewrite Ha. by apply Hg. Qed.

Lemma wp_record_accepted accepts s :
  wi_memory w = Some accepts -> (forall n, accepts n = true) ->
  wp (record_episode w) (fun _ s' => recorded s s' /\
    dr_episodes s' = dr_episodes s ++ [episode_of (mission_of s)]) s.
Proof.
  intros Hm Ha. unfold record_episode. apply wp_mission. rewrite Hm. apply wp_write_accepted; [done|].
  intros t Ht Het. apply wp_bind.
  apply (wp_mono _ (fun _ s' => recorded s s' /\ dr_episodes s' = dr_episodes s ++ [episode_of (mission_of s)])).
  - case_decide; [|apply wp_ret; cbn; by rewrite Het]. unfold record_procedure, wp, write. rewrite Hm, Ha. cbn. by rewrite Het.
  - intros [] s2 [H2 He2]. unfold feed_evolution_engine, wp, write.
    destruct (wi_evolution w) as [accepts'|]; [|done]. by destruct (accepts' _).
Qed.

(** An ended walk recorded twice.  Cancelling a mission that runs records its
    episode, and the walk records the same one again when it is woken. *)
Theorem cancel_recorded_twice s i k accepts :
  sound (dr_exec s) -> mi_status (mission_of s) = MissionStatus.RUNNING -> suggested (mission_of s) = false ->
  dr_walkers s !! i = Some (Some k) -> wi_memory w = Some accepts -> (forall n, accepts n = true) ->
  exists e, ep_mission e = mi_id (mission_of s) /\ ep_success e = false /\
    dr_episodes (serve_all w [Cancel; Wake i] s) = dr_episodes s ++ [e; e].
Proof.
  intros Hs Hst Hsug Hi Hm Ha.
  assert (Hcancel : wp (cancel_handler w) (fun o s' => mi_status (mission_of s') = MissionStatus.CANCELLED /\
    mi_id (mission_of s') = mi_id (mission_of s) /\ suggested (mission_of s') = false /\
    dict_wf (mi_metadata (mission_of s')) /\
    dr_episodes s' = dr_episodes s ++ [episode_of (mission_of s')] /\ dr_walkers s' = dr_walkers s) s).
  { unfold cancel_handler. apply wp_bind, wp_on_exec. eapply wp_mono; [by apply wp_cancel|].
    intros b x (_ & Hid & Hmeta & Hx). rewrite decide_False in Hx by (unfold mission_of in Hst; by rewrite Hst).
    set (s1 := with_exec x s). apply wp_mission. rewrite decide_True by exact Hx. apply wp_bind.
    eapply wp_mono; [by eapply wp_record_accepted|]. intros [] s2 ((Hex & Hw & _) & He). apply wp_ret.
    unfold mission_of in *. rewrite Hex. split_and!; [done|done| | |done|done].
    - rewrite <- Hsug. by apply suggested_meta.
    - unfold s1, mission_of. cbn [dr_exec with_exec]. rewrite Hmeta. apply Hs. }
  destruct (wp_ok _ _ _ Hcancel) as (o & s1 & Hrun & Hst1 & Hid1 & Hsug1 & Hwf1 & He1 & Hw1).
  exists (episode_of (mission_of s1)). split; [done|]. split; [by unfold episode_of; rewrite Hst1|].
  cbn [serve_all fold_left]. set (s2 := serve w Cancel s).
  assert (H2 : dr_exec s2 = dr_exec s1 /\ dr_episodes s2 = dr_episodes s1 /\ exists k', dr_walkers s2 !! i = Some (Some k')).
  { unfold s2. cbn [serve]. rewrite Hrun. destruct o as [a|k']; (split; [done|split; [done|]]); exists k; cbn; rewrite Hw1;
      [done|by rewrite lookup_app, Hi]. }
  clearbody s2. destruct H2 as (Hx2 & He2 & k' & Hk').
  assert (Hm2 : mission_of s2 = mission_of s1) by (unfold mission_of; by rewrite Hx2).
  cbn [serve]. rewrite Hk'.
  assert (Hwake : wp (walk_on w k') (fun _ s' => dr_episodes s' = dr_episodes s2 ++ [episode_of (mission_of s1)]) s2).
  { unfold walk_on. apply wp_bind. cbn [walk]. apply wp_bind.
    assert (Hnone : one_pass w k' s2 = (Ok None, s2)).
    { unfold one_pass. rewrite bind_mission. unfold walkable. by rewrite Hm2, Hst1. }
    unfold wp at 1. rewrite Hnone. apply wp_mission. rewrite Hm2, Hst1. cbn [terminal].
    apply (wp_bind (record_episode w)). eapply wp_mono; [by eapply wp_record_accepted|].
    intros [] s3 ((Hx3 & _) & He3). rewrite Hm2 in He3. apply wp_bind, wp_on_exec.
    eapply wp_mono; [apply wp_preparer; [done|by rewrite Hx3, Hx2]|].
    intros b x [Hb _]. rewrite Hx3, Hx2 in Hb. unfold mission_of in Hsug1. rewrite Hsug1 in Hb. subst b.
    by apply wp_ret, wp_mission, wp_ret. }
  destruct (wp_ok _ _ _ Hwake) as (o' & s3 & Hrun' & He3).
  transitivity (dr_episodes s3); [by rewrite Hrun'; destruct o'|]. by rewrite He3, He2, He1, <- app_assoc.
Qed.
End errors.

(** ** A start that completes *)

(** A mission of [d] levels that nothing hinders. *)
Section underway.
Variable env : Env.
Hypothesis Hrel : reliable env.
Hypothesis Hok : succeeds env.
Hypothesis Hconf : confirmed env.
Variable rk : string -> nat.
Variable d : nat.
Variable m0 : Mission.
Hypothesis Hrk : ranked rk m0.
Hypothesis Hd : below d rk m0.

(** It has made [j] steps. *)
Record underway (j : nat) (x : Exec) : Prop := Underway {
  un_sound : sound x;
  un_settling : settling rk j m0 x;
  un_advancing : advancing x;
  un_unsuggested : suggested (gx_mission x) = false;
  un_done : mi_status (gx_mission x) = MissionStatus.COMPLETED ->
    forall i n, mi_nodes (gx_mission x) !! i = Some n -> mn_status n = NodeStatus.COMPLETED
}.

Lemma settled_status j x :
  settling rk j m0 x -> advancing x -> get_ready_nodes (gx_mission x) = [] -> mi_status (gx_mission x) = MissionStatus.COMPLETED.
Proof.
  intros Hset Ha Hnil. apply (ad_end _ Ha).
  by apply (settled_completed _ (se_built _ _ _ _ Hset) Hnil (ad_nodes _ Ha)).
Qed.

(** A step ends the mission only when its nodes are done. *)
Lemma step_done x x' :
  mi_status (gx_mission x) = MissionStatus.RUNNING -> stepped env x x' -> advancing x' ->
  mi_status (gx_mission x') = MissionStatus.COMPLETED ->
  forall i n, mi_nodes (gx_mission x') !! i = Some n -> mn_status n = NodeStatus.COMPLETED.
Proof.
  intros Hst Hs Ha. rewrite (sp_status _ _ _ Hs). unfold mission_after, closing.
  destruct (get_ready_nodes _); [by rewrite Hst|]. cbn [mi_status with_status]. rewrite Hst.
  destruct (is_finished _) eqn:E; [|done]. intros _ i n Hn.
  pose proof (proj1 (is_finished_spec _) E i n Hn) as Hdone.
  pose proof (ad_nodes _ Ha i n Hn) as [Hp|Hp%list_elem_of_singleton]%elem_of_cons; [|done].
  by rewrite Hp in Hdone.
Qed.

(** As long as it runs, it has a step to make. *)
Lemma underway_early j x : underway j x -> mi_status (gx_mission x) = MissionStatus.RUNNING -> (j < d)%nat.
Proof.
  intros [_ Hset Ha _ _] Hst. apply Nat.nle_gt. intros Hle. assert (Hset' : settling rk d m0 x).
  { destruct Hset as [Hb Hg Hr]. split; [done..|]. intros i n Hn Hlt. apply (Hr i n Hn). lia. }
  pose proof (settled_status d x Hset' Ha (settling_end rk d m0 _ Hd Hset')). congruence.
Qed.

Lemma wp_underway j x :
  underway j x -> mi_status (gx_mission x) = MissionStatus.RUNNING ->
  wp (execute_step env) (fun n x' => n <> 0 /\ underway (S j) x' /\
    Z.of_nat (length (gx_runs x')) = Z.of_nat (length (gx_runs x)) + n) x.
Proof.
  intros [[Hnd Hwf] Hset Ha Hsug _] Hst.
  eapply wp_mono; [apply (wp_preserves (few (retries (gx_mission x)) True));
    [by apply keeps_execute_step|done|by apply execute_step_spec]|].
  intros n x' [[-> Hstep] (Hwf' & _ & Hsug')]. split; [|split].
  - intros Hz. assert (E : get_ready_nodes (gx_mission x) = []) by (apply length_zero_iff_nil; lia).
    pose proof (settled_status j x Hset Ha E). congruence.
  - split.
    + destruct (sp_graph _ _ _ Hstep) as (_ & Hid & _). split; [by rewrite Hid|done].
    + by apply (settling_step env rk j m0 x).
    + by apply (advancing_step env x).
    + by apply Hsug'.
    + by apply (step_done x), (advancing_step env x).
  - rewrite (sp_runs _ _ _ Hstep), filter_granted by done. rewrite length_app, length_map, length_fmap. lia.
Qed.

Lemma underway_completed j x :
  underway j x -> mi_status (gx_mission x) <> MissionStatus.RUNNING -> mi_status (gx_mission x) = MissionStatus.COMPLETED.
Proof. intros Hu Hne. by pose proof (ad_status _ (un_advancing _ _ Hu)) as [?|?%list_elem_of_singleton]%elem_of_cons. Qed.

(** It starts. *)
Lemma underway_start x :
  mi_status (gx_mission x) = MissionStatus.RUNNING -> same_graph m0 (gx_mission x) -> sound x -> suggested (gx_mission x) = false ->
  built (gx_mission x) -> gx_runs x = [] -> mi_nodes (gx_mission x) <> [] ->
  (forall i n, mi_nodes (gx_mission x) !! i = Some n -> mn_status n = NodeStatus.PENDING) -> underway 0 x.
Proof.
  intros Hst Hg Hs Hsug Hb Hruns Hne Hpend. split; [done| |by apply advancing_start|done|congruence].
  split; [done..|]. intros i n _ Hlt. lia.
Qed.
End underway.

Section liveness.
Variable w : Wiring.
Hypothesis Hrel : reliable (wi_env w).
Hypothesis Hok : succeeds (wi_env w).
Hypothesis Hconf : confirmed (wi_env w).
Variable rk : string -> nat.
Variable d : nat.
Variable m0 : Mission.
Hypothesis Hrk : ranked rk m0.
Hypothesis Hd : below d rk m0.
Hypothesis Hpasses : (d < MAX_EXECUTION_PASSES)%nat.

(** A walk that has made [j] passes. *)
Record walking (j : nat) (k : Walker) (s : Driver) : Prop := Walking {
  wg_underway : underway rk m0 j (dr_exec s);
  wg_passes : wk_passes k = j;
  wg_executed : wk_executed k = Z.of_nat (length (gx_runs (dr_exec s)))
}.

Lemma wp_pass_running j k s :
  walking j k s -> mi_status (mission_of s) = MissionStatus.RUNNING ->
  wp (one_pass w k) (fun o s' => exists k', o = Some k' /\ walking (S j) k' s' /\ (j < d)%nat /\
    dr_walkers s' = dr_walkers s /\ dr_answers s' = dr_answers s) s.
Proof.
  intros [Hu Hp Hex] Hst. pose proof (underway_early rk d m0 Hd j _ Hu Hst) as Hj.
  unfold one_pass. apply wp_mission. unfold walkable. rewrite Hst, Hp.
  replace (j <? MAX_EXECUTION_PASSES)%nat with true by (symmetry; apply Nat.ltb_lt; lia). cbn [terminal].
  apply wp_bind, wp_on_exec. eapply wp_mono; [by apply (wp_underway (wi_env w) Hrel Hok Hconf rk m0 Hrk j)|].
  intros n x (Hn & Hu' & Hlen). apply wp_ret. rewrite (proj2 (Z.eqb_neq _ _) Hn).
  eexists. split; [done|]. split; [|done]. split; [done|done|]. cbn [wk_executed dr_exec with_exec]. lia.
Qed.

(** What the walk leaves when it ends. *)
Definition complete (s0 : Driver) (i : nat) (s : Driver) : Prop :=
  mi_status (mission_of s) = MissionStatus.COMPLETED /\
  (forall j n, mi_nodes (mission_of s) !! j = Some n -> mn_status n = NodeStatus.COMPLETED) /\
  map snd (gx_runs (dr_exec s)) ≡ₚ seq 0 (length (mi_nodes (mission_of s))) /\
  dr_walkers s !! i = Some None /\
  exists p, dr_answers s = dr_answers s0 ++ [Walked MissionStatus.COMPLETED (total_nodes (mission_of s)) p].

Lemma wp_walk_completed k s :
  sound (dr_exec s) -> suggested (mission_of s) = false -> mi_status (mission_of s) = MissionStatus.COMPLETED ->
  wp (walk_on w k) (fun o s' => o = Answer (Walked MissionStatus.COMPLETED (wk_executed k) (get_progress (mission_of s'))) /\
    touched (dr_exec s) (dr_exec s') /\ mi_status (mission_of s') = MissionStatus.COMPLETED /\
    dr_walkers s' = dr_walkers s /\ dr_answers s' = dr_answers s) s.
Proof.
  intros [_ Hwf] Hsug Hst.
  assert (Hnone : one_pass w k s = (Ok None, s)).
  { unfold one_pass. rewrite bind_mission. unfold walkable. by rewrite Hst. }
  unfold walk_on. apply wp_bind. cbn [walk]. apply wp_bind. unfold wp at 1. rewrite Hnone.
  apply wp_mission. rewrite Hst. cbn [terminal]. apply (wp_bind (record_episode w)).
  eapply wp_mono; [apply wp_record|]. intros [] s1 (Hx1 & Hw1 & Ha1). apply wp_bind, wp_on_exec.
  eapply wp_mono; [apply wp_preparer; [done|by rewrite Hx1]|].
  intros b x [Hb Hx]. rewrite Hx1 in Hb. unfold mission_of in Hsug. rewrite Hsug in Hb. subst b. rewrite Hx1 in Hx.
  destruct Hx as (Ht & _ & Hstx). apply wp_ret, wp_mission, wp_ret.
  assert (Hst' : mi_status (mission_of (with_exec x s1)) = MissionStatus.COMPLETED) by exact (eq_trans Hstx Hst).
  rewrite Hst'. by split_and!.
Qed.

Lemma wakes_complete n j k s i :
  walking j k s -> dr_walkers s !! i = Some (Some k) -> (j <= d)%nat -> (d < j + n)%nat ->
  complete s i (serve_all w (replicate n (Wake i)) s).
Proof.
  revert j k s. induction n as [|n IH]; intros j k s Hw Hi Hj Hn; [lia|].
  cbn [replicate serve_all fold_left]. fold (serve_all w (replicate n (Wake i)) (serve w (Wake i) s)).
  cbn [serve]. rewrite Hi.
  pose proof (ad_status _ (un_advancing _ _ _ _ (wg_underway _ _ _ Hw))) as [Hst|Hst%list_elem_of_singleton]%elem_of_cons.
  - assert (Hwp : wp (walk_on w k) (fun o s' => exists k', o = Waiting k' /\ walking (S j) k' s' /\ (j < d)%nat /\
      dr_walkers s' = dr_walkers s /\ dr_answers s' = dr_answers s) s).
    { unfold walk_on. apply wp_bind. cbn [walk]. apply wp_bind. eapply wp_mono; [by eapply wp_pass_running|].
      intros o s' (k' & -> & H). apply wp_ret, wp_ret. by exists k'. }
    destruct (wp_ok _ _ _ Hwp) as (o & s1 & Hrun & k' & -> & Hw1 & Hjd & Hwk & Han). rewrite Hrun.
    set (s2 := conclude (Some i) _). destruct (IH (S j) k' s2) as (H1 & H2 & H3 & H4 & p & H5).
    + destruct Hw1. by split.
    + cbn. rewrite Hwk. apply list_lookup_insert_eq. by eapply lookup_lt_Some.
    + lia.
    + lia.
    + split_and!; [done..|]. exists p. rewrite H5. cbn. by rewrite Han.
  - destruct (wp_ok _ _ _ (wp_walk_completed k s (un_sound _ _ _ _ (wg_underway _ _ _ Hw)) (un_unsuggested _ _ _ _ (wg_underway _ _ _ Hw)) Hst))
      as (o & s1 & Hrun & -> & (Hn1 & _ & Hr1) & Hst1 & Hwk & Han). rewrite Hrun.
    set (s2 := conclude (Some i) _).
    assert (Hnodes : forall j n, mi_nodes (mission_of s) !! j = Some n -> mn_status n = NodeStatus.COMPLETED).
    { by apply (un_done _ _ _ _ (wg_underway _ _ _ Hw)). }
    assert (Hc : complete s i s2).
    { pose proof (advancing_all_runs _ (un_advancing _ _ _ _ (wg_underway _ _ _ Hw)) Hnodes) as Hruns.
      split; [exact Hst1|]. split; [intros j' n'; cbn; unfold mission_of in *; cbn; rewrite Hn1; apply Hnodes|].
      split; [cbn; unfold mission_of; cbn; by rewrite Hr1, Hn1|]. split.
      - cbn. rewrite Hwk. apply list_lookup_insert_eq. by eapply lookup_lt_Some.
      - eexists. cbn. rewrite Han. do 3 f_equal. rewrite (wg_executed _ _ _ Hw). unfold total_nodes, mission_of.
        cbn. rewrite Hn1. apply Permutation_length in Hruns. rewrite length_map, length_seq in Hruns. by rewrite Hruns. }
    assert (Hidle : forall n, serve_all w (replicate n (Wake i)) s2 = s2).
    { clear -Hc. destruct Hc as (_ & _ & _ & Hi & _). induction n as [|n IH]; [done|].
      cbn [replicate serve_all fold_left serve]. rewrite Hi. exact IH. }
    by rewrite Hidle.
Qed.

Lemma security_open s : gate_open w (mission_of s) -> check_mission_security w s = (Ok None, s).
Proof. intros Hg. destruct (check_security w s); [done|by destruct H..]. Qed.

Lemma wp_start_handler s :
  gate_open w (mission_of s) -> startable (mi_status (mission_of s)) = true -> same_graph m0 (mission_of s) ->
  sound (dr_exec s) -> suggested (mission_of s) = false -> built (mission_of s) ->
  gx_runs (dr_exec s) = [] -> mi_nodes (mission_of s) <> [] ->
  (forall i n, mi_nodes (mission_of s) !! i = Some n -> mn_status n = NodeStatus.PENDING) ->
  wp (start_handler w) (fun o s' => exists k, o = Waiting k /\ walking 1 k s' /\ (0 < d)%nat /\
    dr_walkers s' = dr_walkers s /\ dr_answers s' = dr_answers s) s.
Proof.
  intros Hg Hst Hsame [Hnd Hwf] Hsug Hb Hruns Hne Hpend. unfold start_handler.
  apply wp_bind. unfold wp at 1. rewrite (security_open s Hg).
  apply (wp_bind (on_exec _)), wp_on_exec.
  eapply wp_mono; [apply (wp_preserves (few (retries (mission_of s)) True)); [apply keeps_start|done|by apply wp_start]|].
  intros b x [(-> & (Hn & He & Hr) & _ & Hrun) (Hwfx & _ & Hsx)].
  change (startable (mi_status (gx_mission (dr_exec s)))) with (startable (mi_status (mission_of s))) in *.
  rewrite Hst in *. specialize (Hrun eq_refl). specialize (Hsx I).
  assert (Hgx : same_graph (mission_of s) (gx_mission x)) by (unfold same_graph, node_ids; by rewrite Hn, He).
  assert (Hw : walking 0 (mkWalker 0 0) (with_exec x s)).
  { split; [|done|cbn; by rewrite Hr; rewrite Hruns]. apply underway_start; cbn [dr_exec with_exec]; try done.
    - by transitivity (mission_of s).
    - split; [unfold node_ids; by rewrite Hn|done].
    - by eapply built_same.
    - congruence.
    - by rewrite Hn.
    - intros i n. rewrite Hn. apply Hpend. }
  unfold walk_on. apply wp_bind. cbn [walk]. apply wp_bind. eapply wp_mono; [by eapply wp_pass_running|].
  intros o s' (k' & -> & H). apply wp_ret, wp_ret. by exists k'.
Qed.
End liveness.

(** C6: liveness.  A mission of at most [d] levels, fewer than the passes of a walk
    (a hundred), READY or VALIDATED, built, with at least a node, all pending and
    none called yet, without a brief that waits for a second attempt: when the
    gate lets it start, every node is let through and succeeds in time, the store
    refuses nothing and the disk contradicts nothing, once it is started and its
    walk is woken [d] times it ends COMPLETED: each node was called once, the walk
    is over and it has answered the number of nodes. *)
Theorem start_completes w rk d s :
  reliable (wi_env w) -> succeeds (wi_env w) -> confirmed (wi_env w) ->
  ranked rk (mission_of s) -> below d rk (mission_of s) -> (d < MAX_EXECUTION_PASSES)%nat ->
  gate_open w (mission_of s) -> startable (mi_status (mission_of s)) = true ->
  dict_wf (mi_metadata (mission_of s)) -> suggested (mission_of s) = false -> built (mission_of s) ->
  gx_runs (dr_exec s) = [] -> mi_nodes (mission_of s) <> [] ->
  (forall i n, mi_nodes (mission_of s) !! i = Some n -> mn_status n = NodeStatus.PENDING) ->
  let i := length (dr_walkers s) in
  complete s i (serve_all w (Start :: replicate d (Wake i)) s).
Proof.
  intros Hrel Hok Hconf Hrk Hd Hp Hg Hst Hwf Hsug Hb Hruns Hne Hpend i.
  assert (Hs : sound (dr_exec s)) by (split; [apply Hb|done]).
  destruct (wp_ok _ _ _ (wp_start_handler w Hrel Hok Hconf rk d (mission_of s) Hrk Hd Hp s
    Hg Hst (reflexivity _) Hs Hsug Hb Hruns Hne Hpend)) as (o & s1 & Hrun & k & -> & Hw & H0 & Hwk & Han).
  cbn [serve_all fold_left serve]. rewrite Hrun. fold (serve_all w (replicate d (Wake i)) (conclude None (Ok (Waiting k), s1))).
  set (s2 := conclude None _).
  destruct (wakes_complete w Hrel Hok Hconf rk d (mission_of s) Hrk Hd Hp d 1 k s2 i) as (H1 & H2 & H3 & H4 & p & H5).
  - destruct Hw. by split.
  - cbn. rewrite Hwk. unfold i. by rewrite lookup_app_r, Nat.sub_diag by done.
  - lia.
  - lia.
  - split_and!; [done..|]. exists p. rewrite H5. cbn. by rewrite Han.
Qed.

(** ** Concrete walks *)

Definition demo_matrix (level : string) : PermissionMatrix :=
  new_matrix None (Some level)
    [("file_read", mkSpec (Some false) (Some true) (Some false) None);
     ("mission_execute", mkSpec (Some true) (Some false) (Some false) (Some "medium"))].

(** The gate of a team that works under [ws]. *)
Definition demo_wiring (level : string) (failing : list nat) : Wiring :=
  mkWiring (demo_env failing) (Some (fun _ => true)) (Some (fun _ => true)) demo_resolve
    (mkAegis (demo_matrix level) [["/"; "ws"]]) [].

(** The demo mission, bound to a directory, in a given status. *)
Definition demo_bound (path : string) (st : MissionStatus.t) : Mission :=
  let m := demo_mission in
  mkMission (mi_id m) (mi_title m) (mi_description m) (mi_objective m) (mi_type m) (mi_priority m) st
    (mkMContext "" "" "" "" path [] []) (mi_nodes m) (mi_edges m) (mi_metadata m) (mi_budget m) (mi_created m)
    (mi_updated m) (mi_started m) (mi_completed m).

Definition demo_driver (m : Mission) (walkers : list (option Walker)) : Driver :=
  mkDriver (mkExec m 0 0 0 [] [] []) walkers [] [] [] 0 [].

Lemma demo_sound path st walkers : sound (dr_exec (demo_driver (demo_bound path st) walkers)).
Proof. split; [|constructor]. apply (bool_decide_eq_true_1 _). vm_compute. reflexivity. Qed.

Lemma demo_bound_built path st : built (demo_bound path st).
Proof. apply (built_same demo_mission); [done|apply demo_built]. Qed.

Lemma walkers_end_witness :
  let w := demo_wiring "medium" [0%nat] in
  let s := demo_driver (demo_bound "" MissionStatus.RUNNING) [Some (mkWalker 0 0)] in
  (weight (mkWalker 0 0) (mission_of s) <= 404)%nat /\
  dr_walkers (serve_all w (replicate 404 (Wake 0) ++ [Pause; Resume]) s) !! 0%nat = Some None.
Proof.
  intros w s. assert (Hle : (weight (mkWalker 0 0) (mission_of s) <= 404)%nat) by (vm_compute; lia).
  split; [exact Hle|].
  assert (Hn : wakes 0 (replicate 404 (Wake 0) ++ [Pause; Resume]) = 404%nat) by (vm_compute; reflexivity).
  apply (walkers_end w I _ s 0%nat (mkWalker 0 0) (demo_sound "" MissionStatus.RUNNING _) eq_refl).
  by rewrite Hn.
Defined.

Lemma calls_bounded_witness :
  let w := demo_wiring "medium" [0%nat] in
  let s := demo_driver (demo_bound "" MissionStatus.READY) [] in
  (calls 0 (dr_exec (serve_all w [Start; Pause; Wake 0; Resume; Wake 1] s)) <= 0 + 1 + retries (mission_of s))%nat.
Proof. intros w s. exact (calls_bounded w I _ s 0%nat (demo_sound "" MissionStatus.READY [])). Defined.

Lemma paused_idle_witness :
  let w := demo_wiring "medium" [] in
  let s := demo_driver (demo_bound "" MissionStatus.PAUSED) [Some (mkWalker 3 2); Some (mkWalker 0 0)] in
  dr_exec (serve_all w [Wake 1; Pause; Wake 1] s) = dr_exec s /\
  dr_walkers (serve_all w [Wake 1; Pause; Wake 1] s) !! 1%nat = Some None.
Proof.
  intros w s. destruct (paused_idle w [Wake 1; Pause; Wake 1] s eq_refl eq_refl) as [H1 H2].
  split; [exact H1|]. exact (H2 1%nat (mkWalker 0 0) eq_refl).
Defined.

(** A mission whose directory is elsewhere. *)
Lemma start_gated_witness :
  let w := demo_wiring "medium" [] in
  let s := demo_driver (demo_bound "elsewhere" MissionStatus.READY) [] in
  ~ gate_open w (mission_of s) /\ gx_runs (dr_exec (serve w Start s)) = [].
Proof.
  intros w s.
  assert (Hg : ~ gate_open w (mission_of s)).
  { intros Hg. pose proof (security_open w s Hg) as E. vm_compute in E. discriminate. }
  split; [exact Hg|]. exact (proj1 (start_gated w s Hg)).
Defined.

(** The mission runs to its end under "medium"; the level is then lowered. *)
Definition demo_ended : Driver :=
  serve_all (demo_wiring "medium" []) [Start; Wake 0; Wake 0]
    (demo_driver (demo_bound "ws" MissionStatus.READY) []).

Lemma demo_ended_sound : sound (dr_exec demo_ended).
Proof. split; apply (bool_decide_eq_true_1 _); vm_compute; reflexivity. Qed.

Lemma completed_reopened_witness :
  mi_status (mission_of demo_ended) = MissionStatus.COMPLETED /\
  mi_status (mission_of (serve_all (demo_wiring "low" []) [Start; Resume] demo_ended)) = MissionStatus.RUNNING.
Proof.
  assert (Hst : mi_status (mission_of demo_ended) = MissionStatus.COMPLETED) by (vm_compute; reflexivity).
  assert (Hready : get_ready_nodes (mission_of demo_ended) = []) by (vm_compute; reflexivity).
  assert (Hb : bound (mission_of demo_ended)) by (left; vm_compute; discriminate).
  assert (Hp : path_open (demo_wiring "low" []) (mission_of demo_ended)).
  { right. apply allows_permitted. eexists. split; [vm_compute; reflexivity|reflexivity]. }
  split; [exact Hst|].
  eapply (completed_reopened (demo_wiring "low" []) I demo_ended _ demo_ended_sound Hst Hready Hb Hp);
    [vm_compute; reflexivity|reflexivity].
Defined.

Lemma cancel_recorded_twice_witness :
  let w := demo_wiring "medium" [] in
  let s := demo_driver (demo_bound "" MissionStatus.RUNNING) [Some (mkWalker 0 0)] in
  exists e, ep_mission e = "m" /\ ep_success e = false /\ dr_episodes (serve_all w [Cancel; Wake 0] s) = [e; e].
Proof.
  intros w s.
  exact (cancel_recorded_twice w I s 0%nat (mkWalker 0 0) (fun _ => true)
           (demo_sound "" MissionStatus.RUNNING _) eq_refl eq_refl eq_refl eq_refl (fun _ => eq_refl)).
Defined.

Lemma start_completes_witness :
  let w := demo_wiring "medium" [] in
  let s := demo_driver (demo_bound "ws" MissionStatus.READY) [] in
  gate_open w (mission_of s) /\ complete s 0 (serve_all w [Start; Wake 0; Wake 0] s).
Proof.
  intros w s.
  assert (Hg : gate_open w (mission_of s)).
  { right. split; [right|]; apply allows_permitted; (eexists; split; [vm_compute; reflexivity|reflexivity]). }
  assert (Hconf : confirmed (wi_env w)) by (intros k m b v H; discriminate).
  split; [exact Hg|]. apply (start_completes w demo_rank 2 s I demo_succeeds Hconf); try done.
  - exact (proj1 demo_ranked).
  - exact (proj2 demo_ranked).
  - unfold MAX_EXECUTION_PASSES. lia.
  - constructor.
  - apply demo_bound_built.
  - exact demo_pending.
Defined.

(** A walk parked over a pause and a resume is joined by a second one. *)
Example demo_two_walks :
  map (option_map wk_executed)
    (dr_walkers (serve_all (demo_wiring "medium" []) [Start; Pause; Resume]
       (demo_driver (demo_bound "" MissionStatus.READY) [])))
  = [Some 2; Some 1].
Proof. vm_compute. reflexivity. Qed.
