(* ===== verification/Arbitrage.v ===== *)
(** * Who decides the runtime and the model ([backend/ral/arbitrage.py])

    [arbitrer] ranks the opinions it is given in their order and returns one
    decision: the routing authority of the production path. *)
From stdpp Require Import base gmap strings list sets.
From Stdlib Require Import ZArith Lia.
From S2P Require Import Prelude.

Definition NON_CHOISI : list string := [""; "default"; "auto"; "any"; "none"; "null"].

Definition MONTEE_AUTORISEE : string := "openrouter".

(** [_propre]: a choice, or the empty string. *)
Definition propre (valeur : option string) : string :=
  let texte := strip (default "" valeur) in
  if decide (lower texte ∈ NON_CHOISI) then "" else texte.

Record Proposition := mkProposition {
  pr_source : string;
  pr_runtime : option string;
  pr_modele : option string;
  pr_peut_monter : bool
}.

Definition propose_un_runtime (p : Proposition) : bool := negb (bool_decide (propre (pr_runtime p) = "")).
Definition propose_un_modele (p : Proposition) : bool := negb (bool_decide (propre (pr_modele p) = "")).

Record Decision := mkDecision {
  de_runtime : string;
  de_modele : string;
  de_source_runtime : string;
  de_source_modele : string;
  de_repli : string;
  de_impossible : string;
  de_propositions : list Proposition
}.

Definition defaut_source : string := "défaut de l'exécuteur".

(** The first proposition of the list that chooses, or the default. *)
Definition premier (propose : Proposition -> bool) (valeur : Proposition -> option string)
    (ps : list Proposition) (defaut : string) : string * string :=
  match List.find propose ps with
  | Some p => (propre (valeur p), pr_source p)
  | None => (defaut, defaut_source)
  end.

(** [monte]: the first proposition that may climb to the cloud and asks to. *)
Definition demande_montee (p : Proposition) : bool :=
  pr_peut_monter p && bool_decide (propre (pr_runtime p) = MONTEE_AUTORISEE).

(** [f"... {runtime!r} ..."] *)
Definition texte_repli (source runtime : string) : string :=
  MONTEE_AUTORISEE +:+ " demandé par " +:+ source +:+ " mais injoignable — exécuté sur " +:+ runtime.

Definition texte_impossible (source : string) : string :=
  "runtime '" +:+ MONTEE_AUTORISEE +:+ "' was explicitly assigned by " +:+ source
  +:+ " but is unavailable: no cloud provider is configured".

(** The climb: the runtime, its source, and [repli]. *)
Definition monter (ps : list Proposition) (cloud_joignable : bool) (base : string * string)
    : string * string * string :=
  match List.find demande_montee ps with
  | Some p =>
      if decide (base.1 = MONTEE_AUTORISEE) then (base, "")
      else if cloud_joignable then (MONTEE_AUTORISEE, pr_source p, "")
      else (base, texte_repli (pr_source p) base.1)
  | None => (base, "")
  end.

(** [arbitrer] *)
Definition arbitrer (ps : list Proposition) (defaut_runtime defaut_modele : string)
    (cloud_joignable : bool) : Decision :=
  let base := premier propose_un_runtime pr_runtime ps defaut_runtime in
  let modele := premier propose_un_modele pr_modele ps defaut_modele in
  let '(runtime, source_runtime, repli) := monter ps cloud_joignable base in
  let impossible :=
    if bool_decide (runtime = MONTEE_AUTORISEE) && negb cloud_joignable
    then texte_impossible source_runtime else "" in
  mkDecision runtime modele.1 source_runtime modele.2 repli impossible ps.

(** [Decision.to_dict] *)
Definition decision_to_dict (d : Decision) : pydict pyval :=
  [("runtime", PStr (de_runtime d)); ("modele", PStr (de_modele d));
   ("source_runtime", PStr (de_source_runtime d)); ("source_modele", PStr (de_source_modele d))] ++
  (if decide (de_repli d = "") then [] else [("repli", PStr (de_repli d))]) ++
  (if decide (de_impossible d = "") then [] else [("impossible", PStr (de_impossible d))]).

(** * Properties *)

(** The runtime the precedence alone gives: that of the first proposition that
    names one, or the default. *)
Inductive assigned (propose : Proposition -> bool) (valeur : Proposition -> option string)
    (ps : list Proposition) (defaut : string) : string -> string -> Prop :=
  | AssignedBy before p after :
      ps = before ++ p :: after -> Forall (fun q => propose q = false) before -> propose p = true ->
      assigned propose valeur ps defaut (propre (valeur p)) (pr_source p)
  | AssignedDefault :
      Forall (fun q => propose q = false) ps -> assigned propose valeur ps defaut defaut defaut_source.

Lemma premier_assigned propose valeur ps defaut :
  assigned propose valeur ps defaut (premier propose valeur ps defaut).1 (premier propose valeur ps defaut).2.
Proof.
  unfold premier. destruct (List.find propose ps) as [p|] eqn:Hf; cbn.
  - assert (Hs : exists before after, ps = before ++ p :: after /\
      Forall (fun q => propose q = false) before /\ propose p = true).
    { clear defaut. induction ps as [|q ps IH]; [done|]. cbn in Hf. destruct (propose q) eqn:Hq.
      - injection Hf as ->. exists [], ps. by split_and!.
      - destruct (IH Hf) as (before & after & -> & Hb & Hp). exists (q :: before), after.
        split_and!; [done|by constructor|done]. }
    destruct Hs as (before & after & ? & ? & ?). by econstructor.
  - constructor. apply Forall_forall. intros q Hq. apply (find_none _ _ Hf).
    by apply list_elem_of_In.
Qed.

(** Someone who may ask for the cloud asks for it. *)
Definition montee_demandee (ps : list Proposition) : Prop :=
  exists p, p ∈ ps /\ pr_peut_monter p = true /\ propre (pr_runtime p) = MONTEE_AUTORISEE.

Lemma find_montee ps :
  match List.find demande_montee ps with
  | Some p => p ∈ ps /\ montee_demandee ps
  | None => ~ montee_demandee ps
  end.
Proof.
  destruct (List.find demande_montee ps) as [p|] eqn:Hf.
  - apply find_some in Hf as [Hin [Hp Hr%bool_decide_eq_true]%andb_true_iff].
    apply list_elem_of_In in Hin. split; [done|]. by exists p.
  - intros (p & Hin%list_elem_of_In & Hp & Hr). pose proof (find_none _ _ Hf p Hin) as Hno.
    unfold demande_montee in Hno. by rewrite Hp, bool_decide_eq_true_2 in Hno.
Qed.

Lemma texte_repli_nonempty source runtime : texte_repli source runtime <> "".
Proof. done. Qed.

Lemma texte_impossible_nonempty source : texte_impossible source <> "".
Proof. done. Qed.

(** The decision.  The model is that of the first proposition that names
    one, or the default; the runtime is too, unless someone entitled asks for
    the cloud and it answers.  A climb that could not happen is reported in
    [repli] and changes nothing; a cloud assignment that cannot be served is
    kept and reported in [impossible], never replaced. *)
Theorem arbitrer_decides ps defaut_runtime defaut_modele cloud :
  let d := arbitrer ps defaut_runtime defaut_modele cloud in
  assigned propose_un_modele pr_modele ps defaut_modele (de_modele d) (de_source_modele d) /\
  de_propositions d = ps /\
  exists runtime source,
    assigned propose_un_runtime pr_runtime ps defaut_runtime runtime source /\
    ((runtime <> MONTEE_AUTORISEE /\ montee_demandee ps /\ cloud = true /\
        de_runtime d = MONTEE_AUTORISEE /\
        exists p, p ∈ ps /\ pr_peut_monter p = true /\ de_source_runtime d = pr_source p)
     \/ (~ (runtime <> MONTEE_AUTORISEE /\ montee_demandee ps /\ cloud = true) /\
        de_runtime d = runtime /\ de_source_runtime d = source)) /\
    (de_repli d <> "" <-> runtime <> MONTEE_AUTORISEE /\ montee_demandee ps /\ cloud = false) /\
    (de_impossible d <> "" <-> runtime = MONTEE_AUTORISEE /\ cloud = false).
Proof.
  intros d. subst d. unfold arbitrer, monter.
  pose proof (premier_assigned propose_un_runtime pr_runtime ps defaut_runtime) as Hbase.
  destruct (premier propose_un_runtime pr_runtime ps defaut_runtime) as [runtime source]. cbn [fst snd] in *.
  pose proof (find_montee ps) as Hm.
  assert (Hentitled : forall p, List.find demande_montee ps = Some p -> pr_peut_monter p = true).
  { intros p [_ Hp]%find_some. by apply andb_true_iff in Hp as [? _]. }
  split; [destruct (List.find demande_montee ps); repeat case_decide; destruct cloud; apply premier_assigned|].
  split; [destruct (List.find demande_montee ps); repeat case_decide; by destruct cloud|].
  exists runtime, source. split; [exact Hbase|].
  destruct (List.find demande_montee ps) as [p|].
  - destruct Hm as [Hin Hm]. destruct (decide (runtime = MONTEE_AUTORISEE)) as [->|Hne].
    + cbn. destruct cloud; cbn; split_and!; naive_solver.
    + destruct cloud; cbn [andb negb de_runtime de_source_runtime de_repli de_impossible].
      * rewrite bool_decide_eq_true_2 by done. cbn. split_and!; [left|naive_solver..].
        split_and!; [done..|]. exists p. by split_and!; [|apply Hentitled|].
      * rewrite bool_decide_eq_false_2 by done. cbn.
        split_and!; [right; naive_solver| |naive_solver].
        pose proof (texte_repli_nonempty (pr_source p) runtime). naive_solver.
  - cbn. destruct cloud; cbn; case_bool_decide; cbn; split_and!; naive_solver.
Qed.

(** Nobody entitled to it, nothing climbs: the runtime is that of the first
    proposition that names one, whether the cloud answers or not. *)
Theorem assignment_kept before p after defaut_runtime defaut_modele cloud :
  Forall (fun q => propose_un_runtime q = false) before -> propose_un_runtime p = true ->
  Forall (fun q => pr_peut_monter q = false) (before ++ p :: after) ->
  let d := arbitrer (before ++ p :: after) defaut_runtime defaut_modele cloud in
  de_runtime d = propre (pr_runtime p) /\ de_source_runtime d = pr_source p /\ de_repli d = "".
Proof.
  intros Hb Hp Hno d. subst d. unfold arbitrer, monter, premier.
  assert (Hf : List.find propose_un_runtime (before ++ p :: after) = Some p).
  { clear Hno. induction Hb as [|q before Hq _ IH]; cbn; [by rewrite Hp|]. by rewrite Hq. }
  rewrite Hf. pose proof (find_montee (before ++ p :: after)) as Hm.
  destruct (List.find demande_montee (before ++ p :: after)) as [q|]; [|done].
  destruct Hm as [_ (r & Hin & Hr & _)]. rewrite Forall_forall in Hno. by rewrite (Hno r Hin) in Hr.
Qed.

Lemma assignment_kept_witness :
  let d := arbitrer [mkProposition "coordinateur" (Some " default ") None false;
                     mkProposition "tâche" (Some "ollama") (Some "qwen") false]
             "hermes-agent" "" true in
  de_runtime d = "ollama" /\ de_source_runtime d = "tâche" /\ de_repli d = "".
Proof.
  apply (assignment_kept [mkProposition "coordinateur" (Some " default ") None false]
    (mkProposition "tâche" (Some "ollama") (Some "qwen") false) [] "hermes-agent" "" true).
  - repeat constructor.
  - reflexivity.
  - repeat constructor.
Defined.

Example demo_climb :
  arbitrer [mkProposition "assignation" (Some "ollama") None false;
            mkProposition "tâche" (Some "openrouter") None true] "hermes-agent" "m" false
  = mkDecision "ollama" "m" "assignation" defaut_source (texte_repli "tâche" "ollama") ""
      [mkProposition "assignation" (Some "ollama") None false;
       mkProposition "tâche" (Some "openrouter") None true].
Proof. reflexivity. Qed.
