(* ===== verification/RuntimeEvents.v ===== *)
(** * Runtime events and their observers
    ([backend/ral/runtime_events.py], [backend/ral/runtime_performance.py])

    The event bus with its bounded history, and the two observers the package
    subscribes to it: [RuntimeObservability] and [RuntimePerformanceAnalyzer].
    A subscriber is a name and the bus records the deliveries; an observer's
    state is the fold of its handler over what was delivered to it.  Floats
    are rationals. *)
From stdpp Require Import base gmap strings list sets sorting.
From Stdlib Require Import ZArith QArith Qminmax Lia Lqa.
From S2P Require Import Prelude.
#[local] Open Scope Z_scope.

(** ** Events *)

Module RuntimeEventType.
Definition REGISTERED : string := "runtime.registered".
Definition SELECTED : string := "runtime.selected".
Definition STARTED : string := "runtime.started".
Definition COMPLETED : string := "runtime.completed".
Definition FAILED : string := "runtime.failed".
Definition DEGRADED : string := "runtime.degraded".
Definition UNAVAILABLE : string := "runtime.unavailable".
Definition FALLBACK : string := "runtime.fallback".
Definition RECOVERED : string := "runtime.recovered".
Definition CIRCUIT_OPENED : string := "runtime.circuit_opened".
Definition CIRCUIT_CLOSED : string := "runtime.circuit_closed".
End RuntimeEventType.

Module Severity.
Inductive t := DEBUG | INFO | WARNING | ERROR | CRITICAL.
End Severity.

Record RuntimeEvent := mkEvent {
  event_type : string;
  event_runtime : string;
  event_time : Z;
  event_severity : Severity.t;
  event_message : string;
  event_meta : pydict pyval
}.

Record EventBus := mkBus {
  eb_max : Z;
  eb_events : list RuntimeEvent;
  eb_subscribers : list string;
  eb_delivered : list (string * RuntimeEvent)
}.

Definition new_bus (max_events : Z) : EventBus := mkBus max_events [] [] [].

(** [l[-n:]]: Python reads [l[-0:]] as the whole list. *)
Definition slice_last {A} (n : Z) (l : list A) : list A :=
  if n =? 0 then l
  else if 0 <? n then drop (length l - Z.to_nat n) l
  else drop (Z.to_nat (- n)) l.

(** [publish] *)
Definition bus_publish (e : RuntimeEvent) (b : EventBus) : EventBus :=
  let events := eb_events b ++ [e] in
  mkBus (eb_max b)
    (if eb_max b <? Z.of_nat (length events) then slice_last (eb_max b) events else events)
    (eb_subscribers b)
    (eb_delivered b ++ map (fun h => (h, e)) (eb_subscribers b)).

Definition bus_subscribe (handler : string) (b : EventBus) : EventBus :=
  mkBus (eb_max b) (eb_events b) (eb_subscribers b ++ [handler]) (eb_delivered b).

(** [get_events] *)
Definition get_events (b : EventBus) (type name : option string) : list RuntimeEvent :=
  let keep (o : option string) (f : RuntimeEvent -> string) (l : list RuntimeEvent) :=
    match o with
    | None => l
    | Some x => filter (fun e => f e = x) l
    end in
  keep name event_runtime (keep type event_type (eb_events b)).

Definition bus_clear (b : EventBus) : EventBus :=
  mkBus (eb_max b) [] (eb_subscribers b) (eb_delivered b).

(** ** Numbers in the metadata

    [isinstance(v, (int, float))]: a bool is an int. *)
Definition number (v : pyval) : option Q :=
  match v with
  | PInt z => Some (inject_Z z)
  | PFloat q => Some q
  | PBool b => Some (if b then 1 else 0)%Q
  | _ => None
  end.

(** [event.metadata.get("latency_ms", 0)] *)
Definition latency_of (e : RuntimeEvent) : option Q :=
  number (default (PInt 0) (dget (event_meta e) "latency_ms")).

(** [d[k] += n] on a [defaultdict(int)]. *)
Definition dcount (d : pydict Z) (k : string) : Z := default 0 (dget d k).
Definition dincr (d : pydict Z) (k : string) : pydict Z := dset d k (dcount d k + 1).
Definition dsum (d : pydict Q) (k : string) : Q := default 0%Q (dget d k).
Definition dadd (d : pydict Q) (k : string) (q : Q) : pydict Q := dset d k (dsum d k + q)%Q.

(** ** RuntimeObservability *)

Record Observability := mkObs {
  ob_executions : Z;
  ob_successes : Z;
  ob_failures : Z;
  ob_fallbacks : Z;
  ob_latency_total : Q;
  ob_latency_count : Z;
  ob_run_successes : pydict Z;
  ob_run_failures : pydict Z;
  ob_completions : pydict Z
}.

Definition new_observability : Observability := mkObs 0 0 0 0 0 0 [] [] [].

(** [_process_event]; a latency of 0 is not counted. *)
Definition process_event (o : Observability) (e : RuntimeEvent) : Observability :=
  let latency := default 0%Q (latency_of e) in
  let timed := negb (Qeq_bool latency 0) in
  let total := if timed then (ob_latency_total o + latency)%Q else ob_latency_total o in
  let count := if timed then ob_latency_count o + 1 else ob_latency_count o in
  let name := event_runtime e in
  if decide (event_type e = RuntimeEventType.COMPLETED) then
    mkObs (ob_executions o + 1) (ob_successes o + 1) (ob_failures o) (ob_fallbacks o) total count
      (dincr (ob_run_successes o) name) (ob_run_failures o) (dincr (ob_completions o) name)
  else if decide (event_type e = RuntimeEventType.FAILED) then
    mkObs (ob_executions o + 1) (ob_successes o) (ob_failures o + 1) (ob_fallbacks o) total count
      (ob_run_successes o) (dincr (ob_run_failures o) name) (ob_completions o)
  else if decide (event_type e = RuntimeEventType.FALLBACK) then
    mkObs (ob_executions o) (ob_successes o) (ob_failures o) (ob_fallbacks o + 1)
      (ob_latency_total o) (ob_latency_count o)
      (ob_run_successes o) (ob_run_failures o) (ob_completions o)
  else o.

Record ObservedMetrics := mkObsMetrics {
  om_executions : Z;
  om_successes : Z;
  om_failures : Z;
  om_fallbacks : Z;
  om_avg_latency : Q;
  om_most_used : option string;
  om_most_reliable : option string
}.

(** [max(d, key=d.get)]: the first of the largest. *)
Definition first_max (d : pydict Z) : option string :=
  fst <$> fold_left (fun best p =>
    match best with
    | Some b => if snd b <? snd p then Some p else best
    | None => Some p
    end) d None.

Section observers.
Context `{!SetOrder}.

(** The loop over the names; [best] is the name and its ratio. *)
Definition most_reliable (o : Observability) : option string :=
  let step (best : option string * Q) (name : string) :=
    let s := dcount (ob_run_successes o) name in
    let total := s + dcount (ob_run_failures o) name in
    let ratio := if total =? 0 then 1%Q else (inject_Z s / inject_Z total)%Q in
    if Qle_bool ratio best.2 then best else (Some name, ratio) in
  (fold_left step
     (iter_set (list_to_set (dkeys (ob_run_successes o) ++ dkeys (ob_run_failures o))))
     (None, (-1)%Q)).1.

Definition observed_metrics (o : Observability) : ObservedMetrics :=
  mkObsMetrics (ob_executions o) (ob_successes o) (ob_failures o) (ob_fallbacks o)
    (if ob_latency_count o =? 0 then 0%Q
     else (ob_latency_total o / inject_Z (ob_latency_count o))%Q)
    (match ob_completions o with [] => None | d => first_max d end)
    (most_reliable o).

(** ** RuntimePerformanceAnalyzer *)

Record PerformanceMetrics := mkPerf {
  pm_runtime : string;
  pm_executions : Z;
  pm_successes : Z;
  pm_failures : Z;
  pm_fallbacks : Z;
  pm_avg_latency : Q;
  pm_success_rate : Q;
  pm_reliability : Q;
  pm_performance : Q;
  pm_last_execution : option Z
}.

Record Analyzer := mkAnalyzer {
  an_executions : pydict Z;
  an_successes : pydict Z;
  an_failures : pydict Z;
  an_fallbacks : pydict Z;
  an_recoveries : pydict Z;
  an_circuit_opens : pydict Z;
  an_latency_total : pydict Q;
  an_latency_count : pydict Z;
  an_last_execution : pydict Z
}.

Definition new_analyzer : Analyzer := mkAnalyzer [] [] [] [] [] [] [] [] [].

(** The latency of the event, when it is a number and not negative. *)
Definition valid_latency (e : RuntimeEvent) : option Q :=
  match latency_of e with
  | Some q => if Qle_bool 0 q then Some q else None
  | None => None
  end.

Definition add_latency (e : RuntimeEvent) (a : Analyzer) : Analyzer :=
  match valid_latency e with
  | Some q =>
      mkAnalyzer (an_executions a) (an_successes a) (an_failures a) (an_fallbacks a)
        (an_recoveries a) (an_circuit_opens a)
        (dadd (an_latency_total a) (event_runtime e) q)
        (dincr (an_latency_count a) (event_runtime e)) (an_last_execution a)
  | None => a
  end.

(** [record_event] *)
Definition record_event (a : Analyzer) (e : RuntimeEvent) : Analyzer :=
  let name := event_runtime e in
  if decide (event_type e = RuntimeEventType.STARTED) then
    mkAnalyzer (dincr (an_executions a) name) (an_successes a) (an_failures a) (an_fallbacks a)
      (an_recoveries a) (an_circuit_opens a) (an_latency_total a) (an_latency_count a)
      (dset (an_last_execution a) name (event_time e))
  else if decide (event_type e = RuntimeEventType.COMPLETED) then
    add_latency e (mkAnalyzer (an_executions a) (dincr (an_successes a) name) (an_failures a)
      (an_fallbacks a) (an_recoveries a) (an_circuit_opens a) (an_latency_total a)
      (an_latency_count a) (an_last_execution a))
  else if decide (event_type e = RuntimeEventType.FAILED) then
    add_latency e (mkAnalyzer (an_executions a) (an_successes a) (dincr (an_failures a) name)
      (an_fallbacks a) (an_recoveries a) (an_circuit_opens a) (an_latency_total a)
      (an_latency_count a) (an_last_execution a))
  else if decide (event_type e = RuntimeEventType.FALLBACK) then
    mkAnalyzer (an_executions a) (an_successes a) (an_failures a) (dincr (an_fallbacks a) name)
      (an_recoveries a) (an_circuit_opens a) (an_latency_total a) (an_latency_count a)
      (an_last_execution a)
  else if decide (event_type e = RuntimeEventType.RECOVERED) then
    mkAnalyzer (an_executions a) (an_successes a) (an_failures a) (an_fallbacks a)
      (dincr (an_recoveries a) name) (an_circuit_opens a) (an_latency_total a)
      (an_latency_count a) (an_last_execution a)
  else if decide (event_type e = RuntimeEventType.CIRCUIT_OPENED) then
    mkAnalyzer (an_executions a) (an_successes a) (an_failures a) (an_fallbacks a)
      (an_recoveries a) (dincr (an_circuit_opens a) name) (an_latency_total a)
      (an_latency_count a) (an_last_execution a)
  else a.

Definition clamp100 (score : Q) : Q := Qmax 0 (Qmin 100 score).

(** [_reliability_score] *)
Definition reliability_score (success_rate : Q) (circuit_opens fallbacks executions : Z) : Q :=
  let base := (success_rate * 100)%Q in
  let circuit_penalty := Qmin (inject_Z (circuit_opens * 10)) 30 in
  let fallback_penalty := Qmin (inject_Z (fallbacks * 5)) 20 in
  let usage_bonus := Qmin (inject_Z executions * (1 # 2)) 5 in
  clamp100 (base - circuit_penalty - fallback_penalty + usage_bonus)%Q.

(** [_performance_score] *)
Definition performance_score (avg_latency : Q) (successes failures executions : Z) : Q :=
  if executions =? 0 then 0%Q
  else
    let latency_score := Qmax 0 (100 - avg_latency / 10)%Q in
    let total := successes + failures in
    let stability_penalty :=
      if 0 <? total then (inject_Z failures / inject_Z total * 20)%Q else 0%Q in
    clamp100 (latency_score - stability_penalty)%Q.

(** [_calculate_metrics] *)
Definition calculate_metrics (a : Analyzer) (name : string) : PerformanceMetrics :=
  let executions := dcount (an_executions a) name in
  let successes := dcount (an_successes a) name in
  let failures := dcount (an_failures a) name in
  let fallbacks := dcount (an_fallbacks a) name in
  let circuit_opens := dcount (an_circuit_opens a) name in
  let latency_count := dcount (an_latency_count a) name in
  let avg := if latency_count =? 0 then 0%Q
             else (dsum (an_latency_total a) name / inject_Z latency_count)%Q in
  let rate := if executions =? 0 then 0%Q else (inject_Z successes / inject_Z executions)%Q in
  mkPerf name executions successes failures fallbacks avg rate
    (reliability_score rate circuit_opens fallbacks executions)
    (performance_score avg successes failures executions)
    (dget (an_last_execution a) name).

(** Reading a [defaultdict] at an absent key stores the default there. *)
Definition dtouch (d : pydict Z) (k : string) : pydict Z := dset d k (dcount d k).
Definition touch_analyzer (a : Analyzer) (name : string) : Analyzer :=
  mkAnalyzer (dtouch (an_executions a) name) (dtouch (an_successes a) name)
    (dtouch (an_failures a) name) (dtouch (an_fallbacks a) name) (an_recoveries a)
    (dtouch (an_circuit_opens a) name)
    (if dcount (an_latency_count a) name =? 0 then an_latency_total a
     else dset (an_latency_total a) name (dsum (an_latency_total a) name))
    (dtouch (an_latency_count a) name) (an_last_execution a).

(** [get_metrics]: the metrics, and the analyzer the read leaves. *)
Definition get_metrics (a : Analyzer) (name : string) : PerformanceMetrics * Analyzer :=
  (calculate_metrics a name, touch_analyzer a name).

(** The names [get_all_metrics] reports. *)
Definition known_runtimes (a : Analyzer) : gset string :=
  list_to_set (dkeys (an_executions a) ++ dkeys (an_successes a) ++ dkeys (an_failures a)).

(** [get_all_metrics]: each read leaves its trace in the counters. *)
Definition get_all_metrics (a : Analyzer) : list (string * PerformanceMetrics) * Analyzer :=
  fold_left (fun acc name => let '(m, a') := get_metrics acc.2 name in (acc.1 ++ [(name, m)], a'))
    (iter_set (known_runtimes a)) ([], a).

(** [key(x) >= key(y)] on the pair of scores, lexicographically. *)
Definition better_ranked (x y : string * PerformanceMetrics) : Prop :=
  (pm_reliability y.2 < pm_reliability x.2)%Q \/
  ((pm_reliability y.2 == pm_reliability x.2)%Q /\ (pm_performance y.2 <= pm_performance x.2)%Q).

#[export] Instance better_ranked_dec : RelDecision better_ranked.
Proof.
  intros x y. unfold better_ranked.
  destruct (Qlt_le_dec (pm_reliability y.2) (pm_reliability x.2)) as [Hlt|Hle]; [left; by left|].
  destruct (Qeq_dec (pm_reliability y.2) (pm_reliability x.2)) as [Heq|Hne].
  - destruct (Qlt_le_dec (pm_performance x.2) (pm_performance y.2)) as [Hp|Hp].
    + right. intros [?|[_ ?]]; [by apply (Qle_not_lt _ _ Hle)|by apply (Qlt_not_le _ _ Hp)].
    + left. by right.
  - right. intros [?|[? _]]; [by apply (Qle_not_lt _ _ Hle)|done].
Defined.

(** [rank_runtimes] *)
Definition rank_runtimes (a : Analyzer) (min_executions : Z)
    : list (string * PerformanceMetrics) :=
  sort_by better_ranked
    (filter (fun p => min_executions <= pm_executions p.2) (get_all_metrics a).1).
End observers.

(** * Properties *)

(** ** The history of the bus *)

Definition publish_all (evs : list RuntimeEvent) (b : EventBus) : EventBus :=
  fold_left (fun b e => bus_publish e b) evs b.

Lemma publish_all_snoc evs e b : publish_all (evs ++ [e]) b = bus_publish e (publish_all evs b).
Proof. unfold publish_all. by rewrite fold_left_app. Qed.

Lemma publish_all_max evs b : eb_max (publish_all evs b) = eb_max b.
Proof. induction evs as [|e evs IH] using rev_ind; [done|]. by rewrite publish_all_snoc. Qed.

Lemma drop_snoc_suffix {A} (n : nat) (l : list A) x :
  (0 < n)%nat ->
  drop (length (drop (length l - n) l ++ [x]) - n) (drop (length l - n) l ++ [x])
  = drop (length (l ++ [x]) - n) (l ++ [x]).
Proof.
  intros Hn. rewrite !length_app, length_drop. cbn.
  destruct (decide (length l < n)%nat) as [Hlt|Hge].
  - replace (length l - n)%nat with 0%nat by lia. rewrite drop_0, Nat.sub_0_r. reflexivity.
  - replace (length l - (length l - n) + 1 - n)%nat with 1%nat by lia.
    replace (length l + 1 - n)%nat with (S (length l - n)) by lia.
    rewrite !drop_app_le by (rewrite ?length_drop; lia). by rewrite drop_drop, Nat.add_1_r.
Qed.

(** With a positive bound the bus keeps exactly the last [max_events]
    published events, in order. *)
Theorem bus_keeps_last max evs :
  0 < max ->
  eb_events (publish_all evs (new_bus max)) = drop (length evs - Z.to_nat max) evs.
Proof.
  intros Hmax. induction evs as [|e evs IH] using rev_ind; [done|].
  rewrite publish_all_snoc. unfold bus_publish. cbn [eb_events].
  rewrite publish_all_max, IH. cbn [eb_max new_bus].
  rewrite <- drop_snoc_suffix by lia.
  destruct (Z.ltb_spec max (Z.of_nat (length (drop (length evs - Z.to_nat max) evs ++ [e])))) as [Hlt|Hge].
  - unfold slice_last. rewrite (proj2 (Z.eqb_neq max 0)) by lia.
    by rewrite (proj2 (Z.ltb_lt 0 max)).
  - assert (Hz : (length (drop (length evs - Z.to_nat max) evs ++ [e]) - Z.to_nat max)%nat = 0%nat)
      by lia. by rewrite Hz, drop_0.
Qed.

(** With the bound 0 nothing is ever discarded. *)
Theorem bus_zero_keeps_all evs : eb_events (publish_all evs (new_bus 0)) = evs.
Proof.
  induction evs as [|e evs IH] using rev_ind; [done|]. rewrite publish_all_snoc.
  unfold bus_publish. cbn [eb_events]. rewrite publish_all_max, IH. cbn.
  by destruct (0 <? _).
Qed.

(** ** The counters of the analyzer *)

Lemma dcount_dincr d k k' : dcount (dincr d k) k' = dcount d k' + (if decide (k = k') then 1 else 0).
Proof. unfold dcount, dincr. rewrite dget_dset. case_decide; subst; cbn; unfold dcount; lia. Qed.

Lemma dcount_dtouch d k k' : dcount (dtouch d k) k' = dcount d k'.
Proof. unfold dtouch, dcount. rewrite dget_dset. case_decide; subst; done. Qed.

(** The events of one type on one runtime. *)
Definition is_about (type name : string) (e : RuntimeEvent) : bool :=
  bool_decide (event_type e = type) && bool_decide (event_runtime e = name).

Definition count_events (type name : string) (evs : list RuntimeEvent) : Z :=
  Z.of_nat (length (List.filter (is_about type name) evs)).

Definition analyze (evs : list RuntimeEvent) : Analyzer := fold_left record_event evs new_analyzer.

Lemma count_events_snoc type name evs e :
  count_events type name (evs ++ [e])
  = count_events type name evs + (if is_about type name e then 1 else 0).
Proof.
  unfold count_events. rewrite List.filter_app, length_app. cbn.
  destruct (is_about type name e); cbn; lia.
Qed.

(** The finished executions whose latency is a non-negative number. *)
Definition timed_event (name : string) (e : RuntimeEvent) : option Q :=
  if is_about RuntimeEventType.COMPLETED name e || is_about RuntimeEventType.FAILED name e
  then valid_latency e else None.

Definition is_timed (name : string) (e : RuntimeEvent) : bool :=
  match timed_event name e with Some _ => true | None => false end.

Definition latencies (name : string) (evs : list RuntimeEvent) : list Q := omap (timed_event name) evs.

Lemma latencies_snoc name evs e :
  latencies name (evs ++ [e])
  = latencies name evs ++ match timed_event name e with Some q => [q] | None => [] end.
Proof. unfold latencies. rewrite omap_app. cbn. by destruct (timed_event name e). Qed.

Definition sum_q (l : list Q) : Q := fold_left Qplus l 0%Q.

Lemma sum_q_snoc l q : sum_q (l ++ [q]) = (sum_q l + q)%Q.
Proof. unfold sum_q. by rewrite fold_left_app. Qed.

(** What the counters of [a] are after the events [evs]. *)
Record counts (name : string) (evs : list RuntimeEvent) (a : Analyzer) : Prop := Counts {
  co_exec : dcount (an_executions a) name = count_events RuntimeEventType.STARTED name evs;
  co_succ : dcount (an_successes a) name = count_events RuntimeEventType.COMPLETED name evs;
  co_fail : dcount (an_failures a) name = count_events RuntimeEventType.FAILED name evs;
  co_fall : dcount (an_fallbacks a) name = count_events RuntimeEventType.FALLBACK name evs;
  co_reco : dcount (an_recoveries a) name = count_events RuntimeEventType.RECOVERED name evs;
  co_open : dcount (an_circuit_opens a) name = count_events RuntimeEventType.CIRCUIT_OPENED name evs;
  co_lcnt : dcount (an_latency_count a) name = Z.of_nat (length (latencies name evs));
  co_ltot : dsum (an_latency_total a) name = sum_q (latencies name evs)
}.

Lemma dsum_dadd d k k' q :
  dsum (dadd d k q) k' = if decide (k = k') then (dsum d k' + q)%Q else dsum d k'.
Proof. unfold dsum, dadd. rewrite dget_dset. case_decide; subst; done. Qed.

(** Which counter an event moves. *)
Ltac type_clash :=
  exfalso; unfold RuntimeEventType.STARTED, RuntimeEventType.COMPLETED, RuntimeEventType.FAILED,
    RuntimeEventType.FALLBACK, RuntimeEventType.RECOVERED, RuntimeEventType.CIRCUIT_OPENED in *;
  congruence.
Ltac counter_cases a e :=
  unfold record_event, add_latency; destruct (valid_latency e);
  repeat case_decide; cbn; solve [done | type_clash].

Definition bump (type : string) (e : RuntimeEvent) (d : pydict Z) : pydict Z :=
  if decide (event_type e = type) then dincr d (event_runtime e) else d.

Lemma record_executions a e :
  an_executions (record_event a e) = bump RuntimeEventType.STARTED e (an_executions a).
Proof. unfold bump. counter_cases a e. Qed.
Lemma record_successes a e :
  an_successes (record_event a e) = bump RuntimeEventType.COMPLETED e (an_successes a).
Proof. unfold bump. counter_cases a e. Qed.
Lemma record_failures a e :
  an_failures (record_event a e) = bump RuntimeEventType.FAILED e (an_failures a).
Proof. unfold bump. counter_cases a e. Qed.
Lemma record_fallbacks a e :
  an_fallbacks (record_event a e) = bump RuntimeEventType.FALLBACK e (an_fallbacks a).
Proof. unfold bump. counter_cases a e. Qed.
Lemma record_recoveries a e :
  an_recoveries (record_event a e) = bump RuntimeEventType.RECOVERED e (an_recoveries a).
Proof. unfold bump. counter_cases a e. Qed.
Lemma record_circuit_opens a e :
  an_circuit_opens (record_event a e) = bump RuntimeEventType.CIRCUIT_OPENED e (an_circuit_opens a).
Proof. unfold bump. counter_cases a e. Qed.

Lemma dcount_bump type e d name :
  dcount (bump type e d) name = dcount d name + (if is_about type name e then 1 else 0).
Proof.
  unfold bump, is_about. case_decide as Ht.
  - rewrite dcount_dincr, bool_decide_eq_true_2 by done. cbn.
    case_decide; [rewrite bool_decide_eq_true_2 by done|rewrite bool_decide_eq_false_2 by done]; done.
  - rewrite bool_decide_eq_false_2 by done. cbn. lia.
Qed.

Lemma record_latency a e name :
  dcount (an_latency_count (record_event a e)) name
    = dcount (an_latency_count a) name + (if is_timed name e then 1 else 0) /\
  dsum (an_latency_total (record_event a e)) name
    = match timed_event name e with
      | Some q => (dsum (an_latency_total a) name + q)%Q
      | None => dsum (an_latency_total a) name
      end.
Proof.
  assert (Hother : forall b, an_latency_count b = an_latency_count a ->
    an_latency_total b = an_latency_total a -> timed_event name e = None ->
    dcount (an_latency_count b) name
      = dcount (an_latency_count a) name + (if is_timed name e then 1 else 0) /\
    dsum (an_latency_total b) name
      = match timed_event name e with
        | Some q => (dsum (an_latency_total a) name + q)%Q
        | None => dsum (an_latency_total a) name
        end).
  { unfold is_timed. intros b -> -> ->. split; [lia|done]. }
  assert (Hadd : forall b, an_latency_count b = an_latency_count a ->
    an_latency_total b = an_latency_total a ->
    timed_event name e = (if decide (event_runtime e = name) then valid_latency e else None) ->
    dcount (an_latency_count (add_latency e b)) name
      = dcount (an_latency_count a) name + (if is_timed name e then 1 else 0) /\
    dsum (an_latency_total (add_latency e b)) name
      = match timed_event name e with
        | Some q => (dsum (an_latency_total a) name + q)%Q
        | None => dsum (an_latency_total a) name
        end).
  { unfold is_timed. intros b Hc Ht ->. unfold add_latency.
    destruct (valid_latency e) as [q|]; cbn [an_latency_count an_latency_total].
    - rewrite Hc, Ht, dcount_dincr, dsum_dadd. case_decide; split; try done; lia.
    - rewrite Hc, Ht. case_decide; split; try done; lia. }
  assert (Htimed : timed_event name e =
    if decide (event_type e = RuntimeEventType.COMPLETED \/ event_type e = RuntimeEventType.FAILED)
    then if decide (event_runtime e = name) then valid_latency e else None else None).
  { unfold timed_event, is_about.
    destruct (decide (event_runtime e = name)) as [Hn|Hn];
      [rewrite (bool_decide_eq_true_2 _ Hn)|rewrite (bool_decide_eq_false_2 _ Hn)];
      destruct (bool_decide_reflect (event_type e = RuntimeEventType.COMPLETED)),
        (bool_decide_reflect (event_type e = RuntimeEventType.FAILED)),
        (decide (event_type e = RuntimeEventType.COMPLETED \/
                 event_type e = RuntimeEventType.FAILED)); cbn; done || tauto. }
  unfold record_event.
  destruct (decide (event_type e = RuntimeEventType.COMPLETED \/
                    event_type e = RuntimeEventType.FAILED)) as [[Ht|Ht]|Hnot];
    repeat case_decide; try type_clash; try (exfalso; tauto);
    (apply Hadd || apply Hother); done.
Qed.

Lemma record_event_counts name evs e a :
  counts name evs a -> counts name (evs ++ [e]) (record_event a e).
Proof.
  intros []. destruct (record_latency a e name) as [Hlc Hlt].
  split; rewrite ?count_events_snoc, ?latencies_snoc,
    ?record_executions, ?record_successes, ?record_failures, ?record_fallbacks,
    ?record_recoveries, ?record_circuit_opens, ?dcount_bump; try congruence.
  - rewrite Hlc, length_app, co_lcnt0. unfold is_timed. destruct (timed_event name e); cbn; lia.
  - rewrite Hlt, co_ltot0. destruct (timed_event name e); [by rewrite sum_q_snoc|by rewrite app_nil_r].
Qed.

Lemma analyze_counts name evs : counts name evs (analyze evs).
Proof.
  unfold analyze. induction evs as [|e evs IH] using rev_ind; [done|].
  rewrite fold_left_app. by apply record_event_counts.
Qed.

(** After any sequence of events the metrics of a runtime are those of its
    own events: the counters count them by type, and the average latency is
    that of the finished executions whose latency is a non-negative number. *)
Theorem analyzer_exact name evs :
  let m := calculate_metrics (analyze evs) name in
  pm_executions m = count_events RuntimeEventType.STARTED name evs /\
  pm_successes m = count_events RuntimeEventType.COMPLETED name evs /\
  pm_failures m = count_events RuntimeEventType.FAILED name evs /\
  pm_fallbacks m = count_events RuntimeEventType.FALLBACK name evs /\
  pm_avg_latency m =
    match latencies name evs with
    | [] => 0%Q
    | l => (sum_q l / inject_Z (Z.of_nat (length l)))%Q
    end.
Proof.
  destruct (analyze_counts name evs). unfold calculate_metrics. cbn [pm_executions pm_successes
    pm_failures pm_fallbacks pm_avg_latency]. split_and!; [done..|].
  rewrite co_lcnt0, co_ltot0. by destruct (latencies name evs).
Qed.

(** ** Reading the metrics *)

Lemma calculate_touch a name k : calculate_metrics (touch_analyzer a name) k = calculate_metrics a k.
Proof.
  unfold calculate_metrics. cbn [an_executions an_successes an_failures an_fallbacks an_circuit_opens
    an_latency_total an_latency_count an_last_execution touch_analyzer].
  rewrite !dcount_dtouch.
  assert (Hs : dsum (if dcount (an_latency_count a) name =? 0 then an_latency_total a
    else dset (an_latency_total a) name (dsum (an_latency_total a) name)) k
    = dsum (an_latency_total a) k).
  { destruct (_ =? 0); [done|]. unfold dsum. rewrite dget_dset. case_decide; subst; done. }
  by rewrite Hs.
Qed.

Lemma known_touch a name : name ∈ known_runtimes (touch_analyzer a name).
Proof.
  unfold known_runtimes. rewrite elem_of_list_to_set, !elem_of_app. left. cbn. unfold dtouch.
  apply elem_dkeys_dset. by left.
Qed.

(** Reading the metrics of a runtime changes no metrics, but it makes the
    runtime known, even one no event was ever recorded for. *)
Theorem query_makes_known a name :
  let '(m, a') := get_metrics a name in
  m = calculate_metrics a name /\ (forall k, calculate_metrics a' k = calculate_metrics a k) /\
  name ∈ known_runtimes a'.
Proof. cbn. split_and!; [done|apply calculate_touch|apply known_touch]. Qed.

Definition demo_event (latency : Z) : RuntimeEvent :=
  mkEvent RuntimeEventType.COMPLETED "alpha" 0 Severity.INFO "" [("latency_ms", PInt latency)].

Lemma bus_keeps_last_witness :
  eb_events (publish_all [demo_event 1; demo_event 2; demo_event 3] (new_bus 2))
  = [demo_event 2; demo_event 3].
Proof. exact (bus_keeps_last 2 [demo_event 1; demo_event 2; demo_event 3] eq_refl). Defined.
