(* ===== verification/RuntimeRegistry.v ===== *)
(** * Runtimes, their registry and their selection
    ([backend/ral/runtime.py], [runtime_registry.py], [runtime_factory.py],
    [runtime_selector.py], [runtime_context.py])

    A runtime is an object known by its reference; what it exposes (name,
    capabilities, status) is kept in a heap, since adapters change their status
    while other objects hold references to them.  [World] is the state the
    objects of the package share.
*)
From stdpp Require Import base gmap strings list sets sorting.
From Stdlib Require Import ZArith QArith Lia.
From S2P Require Import Prelude.
From S2P Require Import RuntimeEvents.
#[local] Open Scope Z_scope.

(** ** Runtimes *)

Module RuntimeStatus.
Inductive t := STARTING | STARTED | STOPPING | STOPPED | ERROR.
#[global] Instance eq_dec : EqDecision t.
Proof. solve_decision. Defined.
End RuntimeStatus.

(** What a [RuntimeInterface] exposes; its [capabilities] may be [None]. *)
Record Runtime := mkRuntime {
  rt_name : string;
  rt_caps : option (gset string);
  rt_status : RuntimeStatus.t
}.

Definition heap := nat -> Runtime.

(** [RuntimeLifecycle.health_check] *)
Definition health_check (h : heap) (r : nat) : bool :=
  bool_decide (rt_status (h r) = RuntimeStatus.STARTED).

(** ** RuntimeRegistry *)

Definition Registry := pydict nat.

Definition not_registered (name : string) : exn :=
  Exn KeyError [Msg "Runtime '{}' is not registered." [name]].

Definition register (name : string) (r : nat) (reg : Registry) : Registry := dset reg name r.

Definition reg_get (reg : Registry) (name : string) : res nat :=
  match dget reg name with
  | Some r => Ok r
  | None => Err (not_registered name)
  end.

Definition list_available (reg : Registry) : list string := sort_by String.le (dkeys reg).

Definition reg_remove (name : string) : M Registry unit := fun reg =>
  if dmem reg name then (Ok tt, ddel reg name) else (Err (not_registered name), reg).

(** [find_name]: the first entry, in registration order, that is this object. *)
Definition find_name (reg : Registry) (r : nat) : option string :=
  fst <$> List.find (fun p => bool_decide (p.2 = r)) reg.

(** ** RuntimeFactory

    A builder is foreign code: the object [builder] returns for the call. *)
Definition factory_create (builders : pydict (nat -> res nat)) (has_registry : bool)
    (type : string) (call : nat) : M Registry nat := fun reg =>
  match dget builders type with
  | None => (Err (Exn ValueError [Msg "Unknown runtime type '{}'. Available types: {}"
                                    (type :: sort_by String.le (dkeys builders))]), reg)
  | Some build =>
      match build call with
      | Err e => (Err e, reg)
      | Ok r => (Ok r, if has_registry then register type r reg else reg)
      end
  end.

(** ** RuntimeSelector *)

Definition selection_error (template : string) (args : list string) : exn :=
  Exn RuntimeSelectionError [Msg template args].

Definition has_capability (h : heap) (cap : string) (r : nat) : bool :=
  match rt_caps (h r) with
  | None => false
  | Some caps => bool_decide (cap ∈ caps)
  end.

Definition preference_tag (h : heap) (tag : string) (r : nat) : bool :=
  contains (lower tag) (lower (rt_name (h r))).

Definition rules (h : heap) (cap : string) (preference : option string) : list (nat -> bool) :=
  [has_capability h cap; health_check h] ++
  match preference with Some tag => [preference_tag h tag] | None => [] end.

Definition fits (h : heap) (cap : string) (preference : option string) (r : nat) : bool :=
  forallb (fun rule => rule r) (rules h cap preference).

(** [[registry.get(name) for name in registry.list_available()]] *)
Definition candidates (reg : Registry) : res (list nat) := res_map (reg_get reg) (list_available reg).

Definition no_runtime (cap : string) (preference : option string) : exn :=
  selection_error "No runtime available for capability '{}'{}."
    [cap; match preference with
          | Some p => if decide (p = "") then "" else " with preference '" +:+ p +:+ "'"
          | None => ""
          end].

(** The second priority of [select]: the first candidate that fits. *)
Definition select_first (h : heap) (reg : Registry) (cap : string) (preference : option string)
    : res nat :=
  cs <-? candidates reg ;;
  match List.find (fits h cap preference) cs with
  | Some r => Ok r
  | None => Err (no_runtime cap preference)
  end.

(** [select] *)
Definition select (h : heap) (reg : Registry) (cap : string)
    (preference preferred_name : option string) : res nat :=
  match preferred_name with
  | None => select_first h reg cap preference
  | Some n =>
      match reg_get reg n with
      | Err _ => Err (selection_error "Preferred runtime '{}' is not registered." [n])
      | Ok r => if has_capability h cap r && health_check h r then Ok r
                else select_first h reg cap preference
      end
  end.

(** [list_compatible] *)
Definition list_compatible (h : heap) (reg : Registry) (cap : string) (preference : option string)
    : res (list nat) :=
  cs <-? candidates reg ;; Ok (List.filter (fits h cap preference) cs).

(** ** ActiveRuntimeContext

    The holder's content is [cx_active]; reading it empty raises [RuntimeError]. *)
Record RuntimeContext := mkContext {
  cx_active : option nat;
  cx_fallback : option string
}.

Definition set_active (reg : Registry) (name : string) : M RuntimeContext nat := fun c =>
  match reg_get reg name with
  | Err e => (Err e, c)
  | Ok r => (Ok r, mkContext (Some r) (cx_fallback c))
  end.

Definition set_fallback (reg : Registry) (name : option string) : M RuntimeContext unit := fun c =>
  match name with
  | None => (Ok tt, mkContext (cx_active c) None)
  | Some n =>
      match reg_get reg n with
      | Err e => (Err e, c)
      | Ok _ => (Ok tt, mkContext (cx_active c) (Some n))
      end
  end.

(** [get_active_name]: the first name, in sorted order, of the active object. *)
Definition get_active_name (reg : Registry) (c : RuntimeContext) : option string :=
  match cx_active c with
  | None => None
  | Some r => List.find (fun n => bool_decide (dget reg n = Some r)) (list_available reg)
  end.

(** ** The state the package shares *)

Module CircuitState.
Inductive t := CLOSED | OPEN | HALF_OPEN.
#[global] Instance eq_dec : EqDecision t.
Proof. solve_decision. Defined.
End CircuitState.

Record CircuitBreaker := mkBreaker {
  cb_threshold : Z;
  cb_timeout : Z;
  cb_state : CircuitState.t;
  cb_failures : Z;
  cb_opened : option Z
}.

Record RuntimeMetrics := mkMetrics {
  mt_runtime : string;
  mt_executions : Z;
  mt_failures : Z;
  mt_latency : Z;
  mt_last_error : option string;
  mt_last_check : option Z
}.

(** Objects of the package share the registry, the breakers of the recovery
    manager, the metrics of the health monitor, and event buses.  [w_calls]
    lists the executions asked of the runtimes, [w_reads] counts the readings
    of the clocks. *)
Record World := mkWorld {
  w_heap : heap;
  w_registry : Registry;
  w_breakers : pydict CircuitBreaker;
  w_metrics : pydict RuntimeMetrics;
  w_buses : nat -> EventBus;
  w_calls : list nat;
  w_reads : nat
}.

Definition with_heap (h : heap) (w : World) : World :=
  mkWorld h (w_registry w) (w_breakers w) (w_metrics w) (w_buses w) (w_calls w) (w_reads w).
Definition with_breakers (d : pydict CircuitBreaker) (w : World) : World :=
  mkWorld (w_heap w) (w_registry w) d (w_metrics w) (w_buses w) (w_calls w) (w_reads w).
Definition with_metrics (d : pydict RuntimeMetrics) (w : World) : World :=
  mkWorld (w_heap w) (w_registry w) (w_breakers w) d (w_buses w) (w_calls w) (w_reads w).
Definition with_bus (i : nat) (b : EventBus) (w : World) : World :=
  mkWorld (w_heap w) (w_registry w) (w_breakers w) (w_metrics w)
    (fun j => if decide (i = j) then b else w_buses w j) (w_calls w) (w_reads w).

(** A reading of one of the clocks. *)
Definition read_clock (clock : nat -> Z) : M World Z := fun w =>
  (Ok (clock (w_reads w)),
   mkWorld (w_heap w) (w_registry w) (w_breakers w) (w_metrics w) (w_buses w) (w_calls w)
     (S (w_reads w))).

(** [_publish] on the bus [bus], if there is one; [wall] is [time.time()]. *)
Definition publish (wall : nat -> Z) (bus : option nat) (type runtime : string) (sev : Severity.t)
    (msg : string) (meta : pydict pyval) : M World unit :=
  match bus with
  | None => ret tt
  | Some i =>
      now <- read_clock wall ;;
      w <- get ;;
      put (with_bus i (bus_publish (mkEvent type runtime now sev msg meta) (w_buses w i)) w)
  end.

(** An operation that asks nothing of the runtimes leaves them, the registry and
    the calls made alone. *)
Definition same_world (w w' : World) : Prop :=
  w_heap w' = w_heap w /\ w_registry w' = w_registry w /\ w_calls w' = w_calls w.

#[export] Instance same_world_preorder : PreOrder same_world.
Proof. split; [by intros w|]. intros w1 w2 w3 (?&?&?) (?&?&?). split_and!; congruence. Qed.

Definition quiet {A} (m : M World A) : Prop := forall w, same_world w (m w).2.

Lemma quiet_ret {A} (a : A) : quiet (ret a).
Proof. by intros w. Qed.
Lemma quiet_raise {A} e : quiet (raise (A:=A) e).
Proof. by intros w. Qed.
Lemma quiet_get : quiet get.
Proof. by intros w. Qed.
Lemma quiet_read clock : quiet (read_clock clock).
Proof. by intros w. Qed.
Lemma quiet_bind {A B} (m : M World A) (f : A -> M World B) :
  quiet m -> (forall a, quiet (f a)) -> quiet (bind m f).
Proof.
  intros Hm Hf w. unfold bind. pose proof (Hm w) as H1.
  destruct (m w) as [[a|e] w1]; [|done]. etransitivity; [exact H1|apply Hf].
Qed.
Lemma quiet_lift {A} (r : res A) : quiet (lift r).
Proof. by intros w. Qed.

#[export] Hint Resolve quiet_ret quiet_raise quiet_get quiet_read quiet_bind quiet_lift : hermes.

(** * Properties *)

Lemma quiet_publish wall bus type runtime sev msg meta :
  quiet (publish wall bus type runtime sev msg meta).
Proof. unfold publish. destruct bus as [i|]; [|apply quiet_ret]. intros w. by split_and!. Qed.
#[export] Hint Resolve quiet_publish : hermes.

Lemma list_available_perm reg : list_available reg ≡ₚ dkeys reg.
Proof. apply sort_by_perm. Qed.

Lemma elem_list_available reg n : n ∈ list_available reg <-> n ∈ dkeys reg.
Proof. by rewrite list_available_perm. Qed.

(** The candidates are the registered objects in the order of their names. *)
Lemma candidates_spec reg :
  exists cs, candidates reg = Ok cs /\ Forall2 (fun n r => dget reg n = Some r) (list_available reg) cs.
Proof.
  unfold candidates.
  assert (Hall : forall n, n ∈ list_available reg -> is_Some (dget reg n))
    by (intros n; rewrite elem_list_available; apply dget_is_Some).
  induction (list_available reg) as [|n l IH]; [by exists []|].
  destruct IH as (cs & Hcs & Hf); [set_solver|].
  destruct (Hall n ltac:(set_solver)) as [r Hr]. exists (r :: cs). split; [|by constructor].
  cbn. unfold reg_get. rewrite Hr. cbn. unfold reg_get in Hcs. by rewrite Hcs.
Qed.

Lemma find_first {A} (f : A -> bool) l x :
  List.find f l = Some x <->
  exists l1 l2, l = l1 ++ x :: l2 /\ f x = true /\ forall y, y ∈ l1 -> f y = false.
Proof.
  induction l as [|y l IH]; cbn.
  - split; [done|]. intros ([|] & l2 & ? & _); done.
  - destruct (f y) eqn:Hy.
    + split.
      * intros [= <-]. exists [], l. split_and!; [done..|set_solver].
      * intros ([|z l1] & l2 & [= ? ?] & Hx & Hn); subst; [done|].
        rewrite Hn in Hy; [done|set_solver].
    + rewrite IH. split.
      * intros (l1 & l2 & -> & Hx & Hn). exists (y :: l1), l2. split_and!; [done..|].
        intros z [->|Hz]%elem_of_cons; [done|by apply Hn].
      * intros ([|z l1] & l2 & [= ? ?] & Hx & Hn); subst; [congruence|].
        exists l1, l2. split_and!; [done..|]. intros z' Hz. apply Hn. set_solver.
Qed.

Lemma fits_spec h cap pref r :
  fits h cap pref r = true <->
  has_capability h cap r = true /\ health_check h r = true /\
  (forall tag, pref = Some tag -> preference_tag h tag r = true).
Proof.
  unfold fits, rules. destruct pref as [tag|]; cbn;
    rewrite !andb_true_iff; split; naive_solver.
Qed.

(** The first priority of [select] applies. *)
Definition preferred_usable (h : heap) (reg : Registry) (cap : string) (pname : option string)
    (r : nat) : Prop :=
  exists n, pname = Some n /\ dget reg n = Some r /\
    has_capability h cap r = true /\ health_check h r = true.

Lemma select_first_spec h reg cap pref :
  match select_first h reg cap pref with
  | Ok r => exists l1 n l2, list_available reg = l1 ++ n :: l2 /\ dget reg n = Some r /\
      fits h cap pref r = true /\
      forall n' r', n' ∈ l1 -> dget reg n' = Some r' -> fits h cap pref r' = false
  | Err e => exn_cls e = RuntimeSelectionError /\
      forall n r, dget reg n = Some r -> fits h cap pref r = false
  end.
Proof.
  unfold select_first. destruct (candidates_spec reg) as (cs & -> & Hf). cbn.
  destruct (List.find (fits h cap pref) cs) as [r|] eqn:Hfind.
  - apply find_first in Hfind as (c1 & c2 & -> & Hfit & Hno).
    apply Forall2_app_inv_r in Hf as (l1 & l2' & Hf1 & Hf2 & Hl).
    inversion Hf2 as [|n ? l2 ? Hn Hf3]; subst.
    exists l1, n, l2. split_and!; [done..|]. intros n' r' Hin Hr'.
    destruct (list_elem_of_lookup_1 _ _ Hin) as [i Hi].
    destruct (Forall2_lookup_l _ _ _ _ _ Hf1 Hi) as (r'' & Hr'' & Hd).
    rewrite Hd in Hr'. injection Hr' as <-. apply Hno. by eapply list_elem_of_lookup_2.
  - split; [done|]. intros n r Hn.
    assert (Hin : n ∈ list_available reg) by (apply elem_list_available, dget_is_Some; by eexists).
    destruct (list_elem_of_lookup_1 _ _ Hin) as [i Hi].
    destruct (Forall2_lookup_l _ _ _ _ _ Hf Hi) as (r' & Hr' & Hd).
    rewrite Hn in Hd. injection Hd as <-.
    apply (find_none _ _ Hfind). apply list_elem_of_In. by eapply list_elem_of_lookup_2.
Qed.

Lemma select_spec h reg cap pref pname :
  match select h reg cap pref pname with
  | Ok r => preferred_usable h reg cap pname r \/
      (~ (exists r', preferred_usable h reg cap pname r') /\
       exists l1 n l2, list_available reg = l1 ++ n :: l2 /\ dget reg n = Some r /\
         fits h cap pref r = true /\
         forall n' r', n' ∈ l1 -> dget reg n' = Some r' -> fits h cap pref r' = false)
  | Err e => exn_cls e = RuntimeSelectionError /\
      ((exists n, pname = Some n /\ dget reg n = None) \/
       forall n r, dget reg n = Some r -> fits h cap pref r = false)
  end.
Proof.
  pose proof (select_first_spec h reg cap pref) as Hfirst. unfold select, reg_get.
  destruct pname as [n|].
  - destruct (dget reg n) as [r|] eqn:Hn; [|by split; [|left; eauto]].
    destruct (has_capability h cap r && health_check h r) eqn:Hu.
    + left. exists n. apply andb_true_iff in Hu as [? ?]. done.
    + assert (Hnot : ~ exists r', preferred_usable h reg cap (Some n) r').
      { intros (r' & n' & [= <-] & Hr' & Hc & Hh). rewrite Hn in Hr'. injection Hr' as <-.
        by rewrite Hc, Hh in Hu. }
      destruct (select_first h reg cap pref); [by right|]. destruct Hfirst. by split; [|right].
  - assert (Hnot : ~ exists r', preferred_usable h reg cap None r') by (intros (r' & n & ? & _); done).
    destruct (select_first h reg cap pref); [by right|]. destruct Hfirst. by split; [|right].
Qed.

(** What [select] returns.  A runtime returned is the preferred one if that
    one is capable and healthy, and else the first in the order of the names
    that is capable, healthy and tagged as preferred.  The error means that
    none fits - or that the preferred name is not registered, whatever the
    other runtimes could do. *)
Theorem select_outcome h reg cap pref pname :
  match select h reg cap pref pname with
  | Ok r => preferred_usable h reg cap pname r \/
      (~ (exists r', preferred_usable h reg cap pname r') /\
       exists l1 n l2, list_available reg = l1 ++ n :: l2 /\ dget reg n = Some r /\
         fits h cap pref r = true /\
         forall n' r', n' ∈ l1 -> dget reg n' = Some r' -> fits h cap pref r' = false)
  | Err e => exn_cls e = RuntimeSelectionError /\
      ((exists n, pname = Some n /\ dget reg n = None) \/
       forall n r, dget reg n = Some r -> fits h cap pref r = false)
  end.
Proof. exact (select_spec h reg cap pref pname). Qed.

(** [list_compatible] returns the registered runtimes that fit, all of
    them, in the order of their names. *)
Lemma list_compatible_exact h reg cap pref :
  exists rs, list_compatible h reg cap pref = Ok rs /\
    (forall r, r ∈ rs <-> (exists n, dget reg n = Some r) /\ fits h cap pref r = true) /\
    exists cs, Forall2 (fun n r => dget reg n = Some r) (list_available reg) cs /\ rs `sublist_of` cs.
Proof.
  unfold list_compatible. destruct (candidates_spec reg) as (cs & -> & Hf). cbn. eexists.
  split; [done|]. split.
  - intros r. rewrite list_elem_of_In, filter_In, <- list_elem_of_In. f_equiv. split.
    + intros (i & Hi)%list_elem_of_lookup_1.
      destruct (Forall2_lookup_r _ _ _ _ _ Hf Hi) as (n & _ & Hn). eauto.
    + intros (n & Hn).
      assert (Hin : n ∈ list_available reg) by (apply elem_list_available, dget_is_Some; by eexists).
      destruct (list_elem_of_lookup_1 _ _ Hin) as [i Hi].
      destruct (Forall2_lookup_l _ _ _ _ _ Hf Hi) as (r' & Hr' & Hd).
      rewrite Hn in Hd. injection Hd as <-. by eapply list_elem_of_lookup_2.
  - exists cs. split; [done|]. clear Hf. induction cs as [|c cs IH]; cbn [List.filter]; [constructor|].
    destruct (fits h cap pref c); by apply sublist_skip || by apply sublist_cons.
Qed.

Lemma find_name_Some reg r n : find_name reg r = Some n -> dict_wf reg -> dget reg n = Some r.
Proof.
  unfold find_name. intros (p & Hp & ->)%fmap_Some Hwf.
  apply find_some in Hp as [Hin Heq%bool_decide_eq_true].
  apply dget_elem; [done|]. apply list_elem_of_In in Hin. destruct p; cbn in *. by subst.
Qed.

Lemma find_name_None reg r n : find_name reg r = None -> dget reg n <> Some r.
Proof.
  unfold find_name. intros Hn%fmap_None Hd%dget_Some_elem%list_elem_of_In.
  apply (find_none _ _ Hn) in Hd. cbn in Hd. by rewrite bool_decide_eq_true_2 in Hd.
Qed.
