(* ===== verification/RuntimeRecovery.v ===== *)
(** * Circuit breakers and failover ([backend/ral/runtime_recovery.py])

    [CircuitBreaker] and [RuntimeRecoveryManager] on the shared [World].
    [time.monotonic()] and [time.time()] are oracles indexed by the number of
    clock readings; times are integers of an arbitrary unit. *)
From stdpp Require Import base gmap strings list sets sorting.
From Stdlib Require Import ZArith QArith Lia.
From S2P Require Import Prelude.
From S2P Require Import RuntimeEvents.
From S2P Require Import RuntimeRegistry.
#[local] Open Scope Z_scope.

(** ** CircuitBreaker *)

Definition new_breaker (threshold timeout : Z) : CircuitBreaker :=
  mkBreaker threshold timeout CircuitState.CLOSED 0 None.

Definition with_state (cb : CircuitBreaker) (st : CircuitState.t) : CircuitBreaker :=
  mkBreaker (cb_threshold cb) (cb_timeout cb) st (cb_failures cb) (cb_opened cb).

(** [record_success] and [reset] *)
Definition succeeded (cb : CircuitBreaker) : CircuitBreaker :=
  mkBreaker (cb_threshold cb) (cb_timeout cb) CircuitState.CLOSED 0 None.

(** A failure recorded now opens the circuit. *)
Definition opens (cb : CircuitBreaker) : bool :=
  bool_decide (cb_state cb = CircuitState.HALF_OPEN) || (cb_threshold cb <=? cb_failures cb + 1).

(** [record_failure] at time [now]; the clock is read only when the circuit
    opens. *)
Definition failed (cb : CircuitBreaker) (now : Z) : CircuitBreaker :=
  if opens cb
  then mkBreaker (cb_threshold cb) (cb_timeout cb) CircuitState.OPEN (cb_failures cb + 1) (Some now)
  else mkBreaker (cb_threshold cb) (cb_timeout cb) (cb_state cb) (cb_failures cb + 1) (cb_opened cb).

(** ** ExecutionTrace *)

Record ExecutionTrace := mkTrace {
  tr_initial : string;
  tr_final : string;
  tr_retries : Z;
  tr_reason : option string
}.

Definition trace_as_dict (t : ExecutionTrace) : pydict pyval :=
  [("runtime_initial", PStr (tr_initial t)); ("runtime_final", PStr (tr_final t));
   ("retries", PInt (tr_retries t));
   ("fallback_reason", match tr_reason t with Some r => PStr r | None => PNone end)].

(** ** RuntimeRecoveryManager *)

(** The constructor's arguments. *)
Record RecoveryConfig := mkRecovery {
  rc_threshold : Z;
  rc_timeout : Z;
  rc_bus : option nat
}.

Section operations.
Variables mono wall : nat -> Z.
Variable cfg : RecoveryConfig.

Definition store_breaker (name : string) (cb : CircuitBreaker) : M World unit := fun w =>
  (Ok tt, with_breakers (dset (w_breakers w) name cb) w).

(** [_get_breaker] *)
Definition get_breaker (name : string) : M World CircuitBreaker := fun w =>
  match dget (w_breakers w) name with
  | Some cb => (Ok cb, w)
  | None =>
      let cb := new_breaker (rc_threshold cfg) (rc_timeout cfg) in
      (Ok cb, with_breakers (dset (w_breakers w) name cb) w)
  end.

(** [should_retry]: [is_allowed] on the breaker of [name]. *)
Definition should_retry (name : string) : M World bool :=
  cb <- get_breaker name ;;
  match cb_state cb with
  | CircuitState.CLOSED | CircuitState.HALF_OPEN => ret true
  | CircuitState.OPEN =>
      match cb_opened cb with
      | None => ret false
      | Some opened =>
          now <- read_clock mono ;;
          if cb_timeout cb <=? now - opened
          then store_breaker name (with_state cb CircuitState.HALF_OPEN) ;;; ret true
          else ret false
      end
  end.

(** [CircuitBreaker.record_failure] on the breaker of [name]. *)
Definition breaker_failure (name : string) (cb : CircuitBreaker) : M World CircuitBreaker :=
  now <- (if opens cb then read_clock mono else ret 0) ;;
  store_breaker name (failed cb now) ;;;
  ret (failed cb now).

Definition record_failure (name : string) : M World unit :=
  cb <- get_breaker name ;;
  cb' <- breaker_failure name cb ;;
  if bool_decide (cb_state cb' = CircuitState.OPEN) &&
     negb (bool_decide (cb_state cb = CircuitState.OPEN))
  then publish wall (rc_bus cfg) RuntimeEventType.CIRCUIT_OPENED name Severity.WARNING
         "Circuit breaker opened after consecutive failures." []
  else ret tt.

Definition record_success (name : string) : M World unit :=
  cb <- get_breaker name ;;
  store_breaker name (succeeded cb) ;;;
  if negb (bool_decide (cb_state cb = CircuitState.CLOSED))
  then publish wall (rc_bus cfg) RuntimeEventType.CIRCUIT_CLOSED name Severity.INFO
         "Circuit breaker closed after successful execution." []
  else ret tt.

Definition reset_breaker (name : string) : M World unit :=
  cb <- get_breaker name ;;
  store_breaker name (succeeded cb).

(** [recover] *)
Definition recover (name : string) : M World string :=
  record_failure name ;;;
  cb <- get_breaker name ;;
  ret (if decide (cb_state cb = CircuitState.OPEN) then "circuit_open" else "runtime_failure").

(** The loop of [select_fallback]. *)
Fixpoint fallback_loop (exclude : gset string) (cs : list nat) : M World (option nat) :=
  match cs with
  | [] => ret None
  | c :: cs' =>
      w <- get ;;
      match find_name (w_registry w) c with
      | None => fallback_loop exclude cs'
      | Some name =>
          if decide (name ∈ exclude) then fallback_loop exclude cs'
          else
            allowed <- should_retry name ;;
            w' <- get ;;
            if negb allowed then fallback_loop exclude cs'
            else if negb (health_check (w_heap w') c) then fallback_loop exclude cs'
            else ret (Some c)
      end
  end.

(** [select_fallback]; the code adds the failed name to the caller's [exclude]
    when that set is not empty. *)
Definition select_fallback (failed_name cap : string) (preference : option string)
    (exclude : gset string) : M World nat :=
  w <- get ;;
  cs <- lift (list_compatible (w_heap w) (w_registry w) cap preference) ;;
  o <- fallback_loop ({[failed_name]} ∪ exclude) cs ;;
  match o with
  | Some c => ret c
  | None => raise (Exn RuntimeRecoveryError
      [Msg "No fallback runtime available for capability '{}' after '{}' failed."
         [cap; failed_name]])
  end.
End operations.

(** * Properties *)

(** ** When a breaker opens *)

(** The outcomes recorded on a breaker: [None] is a success, [Some t] a failure
    at time [t]. *)
Definition record (cb : CircuitBreaker) (o : option Z) : CircuitBreaker :=
  match o with None => succeeded cb | Some t => failed cb t end.

Definition outcomes (threshold timeout : Z) (os : list (option Z)) : CircuitBreaker :=
  fold_left record os (new_breaker threshold timeout).

Lemma outcomes_snoc k t os o : outcomes k t (os ++ [o]) = record (outcomes k t os) o.
Proof. unfold outcomes. by rewrite fold_left_app. Qed.

Lemma outcomes_config k t os :
  cb_threshold (outcomes k t os) = k /\ cb_timeout (outcomes k t os) = t.
Proof.
  induction os as [|o os [IHk IHt]] using rev_ind; [done|]. rewrite outcomes_snoc.
  destruct o as [now|]; cbn; [|done]. unfold failed. by destruct (opens _).
Qed.

(** The failures since the last success. *)
Definition failing_tail (os l : list (option Z)) : Prop :=
  exists before, os = before ++ l /\ Forall (fun o => o <> None) l /\
    (before = [] \/ exists b, before = b ++ [None]).

Lemma outcomes_count k t os :
  exists l, failing_tail os l /\ cb_failures (outcomes k t os) = Z.of_nat (length l) /\
    cb_state (outcomes k t os)
    = (if decide (l <> [] /\ k <= Z.of_nat (length l)) then CircuitState.OPEN else CircuitState.CLOSED).
Proof.
  induction os as [|o os (l & (before & -> & Hf & Hb) & Hc & Hs)] using rev_ind.
  { exists []. split_and!; [|done|].
    - exists []. split_and!; [done|constructor|by left].
    - by rewrite decide_False by (by intros [? _]). }
  rewrite outcomes_snoc. destruct o as [now|].
  - exists (l ++ [Some now]). split.
    { exists before. rewrite <- app_assoc. split_and!; [done| |done].
      apply Forall_app. split; [done|]. by repeat constructor. }
    set (cb := outcomes k t (before ++ l)) in *. cbn [record].
    destruct (outcomes_config k t (before ++ l)) as [Hk _]. fold cb in Hk.
    rewrite length_app. cbn [length]. unfold failed, opens. rewrite Hk, Hc, Hs.
    assert (Hno : bool_decide ((if decide (l <> [] /\ k <= Z.of_nat (length l))
      then CircuitState.OPEN else CircuitState.CLOSED) = CircuitState.HALF_OPEN) = false).
    { apply bool_decide_eq_false. by case_decide. }
    rewrite Hno. cbn [orb]. split.
    { destruct (k <=? _); cbn; lia. }
    destruct (Z.leb_spec k (Z.of_nat (length l) + 1)) as [Hle|Hgt]; cbn.
    + rewrite decide_True; [done|]. split; [by destruct l|lia].
    + rewrite !decide_False; [done|lia|lia].
  - exists []. split_and!; [|done|].
    + exists ((before ++ l) ++ [None]). rewrite app_nil_r. split_and!; [done|done|right; eauto].
    + cbn. by rewrite decide_False by (by intros [? _]).
Qed.

(** Without a probe, a breaker is OPEN exactly when the outcomes recorded
    end with at least [failure_threshold] failures in a row (and at least
    one), and CLOSED otherwise. *)
Theorem breaker_opens_iff threshold timeout os :
  exists l, failing_tail os l /\
    cb_state (outcomes threshold timeout os)
    = (if decide (l <> [] /\ threshold <= Z.of_nat (length l))
       then CircuitState.OPEN else CircuitState.CLOSED).
Proof. destruct (outcomes_count threshold timeout os) as (l & Ht & _ & Hs). by exists l. Qed.

Section proofs.
Variables mono wall : nat -> Z.
Variable cfg : RecoveryConfig.

(** The breaker [should_retry] looks at. *)
Definition breaker_of (w : World) (name : string) : CircuitBreaker :=
  default (new_breaker (rc_threshold cfg) (rc_timeout cfg)) (dget (w_breakers w) name).

(** The circuit refuses: OPEN, and the recovery timeout has not elapsed. *)
Definition refuses (cb : CircuitBreaker) (now : Z) : bool :=
  bool_decide (cb_state cb = CircuitState.OPEN) &&
  match cb_opened cb with Some t => now - t <? cb_timeout cb | None => true end.

Lemma get_breaker_spec name w :
  exists w1, get_breaker cfg name w = (Ok (breaker_of w name), w1) /\ same_world w w1 /\
    w_buses w1 = w_buses w /\ w_reads w1 = w_reads w /\
    w_breakers w1 = (match dget (w_breakers w) name with
                     | Some _ => w_breakers w
                     | None => dset (w_breakers w) name (breaker_of w name)
                     end) /\
    dget (w_breakers w1) name = Some (breaker_of w name).
Proof.
  unfold get_breaker, breaker_of. destruct (dget (w_breakers w) name) as [cb|] eqn:Hd; cbn.
  - exists w. split_and!; try done.
  - eexists. split; [reflexivity|]. cbn. split_and!; try done. apply dget_dset_eq.
Qed.

Lemma should_retry_spec name w :
  let cb := breaker_of w name in
  exists w', should_retry mono cfg name w = (Ok (negb (refuses cb (mono (w_reads w)))), w') /\
    same_world w w' /\ w_buses w' = w_buses w /\
    dget (w_breakers w') name =
      Some (if bool_decide (cb_state cb = CircuitState.OPEN) && negb (refuses cb (mono (w_reads w)))
            then with_state cb CircuitState.HALF_OPEN else cb) /\
    forall other, other <> name -> dget (w_breakers w') other = dget (w_breakers w) other.
Proof.
  intros cb. destruct (get_breaker_spec name w) as (w1 & Hrun & Hsame & Hbus & Hreads & Hbr & Hget).
  assert (Hother : forall other, other <> name ->
    dget (w_breakers w1) other = dget (w_breakers w) other).
  { intros other Hne. rewrite Hbr. destruct (dget (w_breakers w) name); [done|].
    by rewrite dget_dset_ne. }
  unfold should_retry, bind at 1. rewrite Hrun. fold cb. fold cb in Hget.
  unfold refuses. destruct (cb_state cb) eqn:Hst; cbn [andb bool_decide].
  - exists w1. by split_and!.
  - destruct (cb_opened cb) as [opened|] eqn:Ho.
    + unfold bind at 1, read_clock. rewrite Hreads.
      destruct (Z.leb_spec (cb_timeout cb) (mono (w_reads w) - opened)) as [Hle|Hgt].
      * replace (mono (w_reads w) - opened <? cb_timeout cb) with false
          by (symmetry; apply Z.ltb_ge; lia).
        eexists. split; [reflexivity|]. cbn. split_and!; try done; try apply Hsame.
        -- apply dget_dset_eq.
        -- intros other Hne. rewrite dget_dset_ne by done. by apply Hother.
      * replace (mono (w_reads w) - opened <? cb_timeout cb) with true
          by (symmetry; apply Z.ltb_lt; lia).
        eexists. split; [reflexivity|]. cbn. by split_and!; try apply Hsame.
    + exists w1. by split_and!.
  - exists w1. by split_and!.
Qed.

(** [should_retry] answers no exactly when the circuit is OPEN and less
    than [recovery_timeout] has passed since it opened; when the timeout has
    passed the circuit moves to HALF_OPEN, and nothing else changes but the
    record of the breaker asked for. *)
Theorem should_retry_exact name w :
  let cb := breaker_of w name in
  exists w', should_retry mono cfg name w = (Ok (negb (refuses cb (mono (w_reads w)))), w') /\
    same_world w w' /\ w_buses w' = w_buses w /\
    dget (w_breakers w') name =
      Some (if bool_decide (cb_state cb = CircuitState.OPEN) && negb (refuses cb (mono (w_reads w)))
            then with_state cb CircuitState.HALF_OPEN else cb) /\
    forall other, other <> name -> dget (w_breakers w') other = dget (w_breakers w) other.
Proof. exact (should_retry_spec name w). Qed.

(** A number of calls of [should_retry] in a row, no outcome in between. *)
Fixpoint asks (name : string) (n : nat) : M World (list bool) :=
  match n with
  | O => ret []
  | S n' => b <- should_retry mono cfg name ;; bs <- asks name n' ;; ret (b :: bs)
  end.

Lemma asks_admitted name n w :
  cb_state (breaker_of w name) <> CircuitState.OPEN ->
  (asks name n w).1 = Ok (repeat true n).
Proof.
  revert w. induction n as [|n IH]; intros w Hst; [done|]. cbn [asks].
  destruct (should_retry_spec name w) as (w' & Hrun & _ & _ & Hget & _).
  unfold refuses in *. rewrite (bool_decide_eq_false_2 _ Hst) in *. cbn [andb negb] in *.
  unfold bind. rewrite Hrun. specialize (IH w'). unfold breaker_of at 1 in IH. rewrite Hget in IH.
  specialize (IH Hst). destruct (asks name n w') as [r w2]. cbn in *. by subst.
Qed.

(** Once a call is admitted, any number of calls are, until an outcome is
    recorded: a HALF_OPEN circuit is not limited to a single probe. *)
Theorem half_open_admits_all name n w :
  refuses (breaker_of w name) (mono (w_reads w)) = false ->
  (asks name n w).1 = Ok (repeat true n).
Proof.
  intros Hno. destruct n as [|n]; [done|]. cbn [asks].
  destruct (should_retry_spec name w) as (w' & Hrun & _ & _ & Hget & _).
  rewrite Hno in *. cbn [negb] in *. rewrite andb_true_r in Hget. unfold bind. rewrite Hrun.
  pose proof (asks_admitted name n w') as Hn. unfold breaker_of at 1 in Hn. rewrite Hget in Hn.
  cbn [default from_option id] in Hn.
  assert (Hst : cb_state (if bool_decide (cb_state (breaker_of w name) = CircuitState.OPEN)
    then with_state (breaker_of w name) CircuitState.HALF_OPEN else breaker_of w name)
    <> CircuitState.OPEN) by (by case_bool_decide).
  specialize (Hn Hst). destruct (asks name n w') as [r w2]. cbn in *. by subst.
Qed.

(** ** Failover *)

(** The circuit of the runtime named [name] lets it through. *)
Definition admitted (w : World) (now : Z) (name : string) : Prop :=
  refuses (breaker_of w name) now = false.

Lemma breaker_of_same w w' name :
  dget (w_breakers w') name = dget (w_breakers w) name -> breaker_of w' name = breaker_of w name.
Proof. unfold breaker_of. by intros ->. Qed.

(** What the loop knows about a candidate it has passed over. *)
Definition passed_over (exclude : gset string) (w : World) (c : nat) : Prop :=
  match find_name (w_registry w) c with
  | None => True
  | Some name => name ∈ exclude \/ health_check (w_heap w) c = false \/
      exists wk, same_world w wk /\ refuses (breaker_of wk name) (mono (w_reads wk)) = true
  end.

Lemma passed_over_same exclude w w' c : same_world w w' -> passed_over exclude w' c -> passed_over exclude w c.
Proof.
  intros Hs. pose proof Hs as (Hh & Hr & _). unfold passed_over. rewrite Hr, Hh.
  destruct (find_name (w_registry w) c) as [name|]; [|done].
  intros [?|[?|(wk & Hk & ?)]]; [by left|by right; left|]. right. right. exists wk.
  split; [by etransitivity|done].
Qed.

Lemma fallback_loop_spec exclude cs w :
  exists o w', fallback_loop mono cfg exclude cs w = (Ok o, w') /\ same_world w w' /\
    match o with
    | Some c => exists c1 c2 name, cs = c1 ++ c :: c2 /\ (forall x, x ∈ c1 -> passed_over exclude w x) /\
        find_name (w_registry w) c = Some name /\ (name ∉ exclude) /\
        health_check (w_heap w) c = true /\
        cb_state (breaker_of w' name) <> CircuitState.OPEN
    | None => forall x, x ∈ cs -> passed_over exclude w x
    end.
Proof.
  revert w. induction cs as [|c cs IH]; intros w.
  { exists None, w. split_and!; try done. set_solver. }
  cbn [fallback_loop]. unfold bind at 1, get.
  assert (Hskip : forall w1, same_world w w1 -> passed_over exclude w c ->
    exists o w', fallback_loop mono cfg exclude cs w1 = (Ok o, w') /\ same_world w w' /\
    match o with
    | Some d => exists c1 c2 name, c :: cs = c1 ++ d :: c2 /\
        (forall x, x ∈ c1 -> passed_over exclude w x) /\
        find_name (w_registry w) d = Some name /\ (name ∉ exclude) /\
        health_check (w_heap w) d = true /\ cb_state (breaker_of w' name) <> CircuitState.OPEN
    | None => forall x, x ∈ c :: cs -> passed_over exclude w x
    end).
  { intros w1 Hs Hp. destruct (IH w1) as (o & w' & Hrun & Hs' & Ho). exists o, w'.
    split; [done|]. split; [by etransitivity|]. pose proof Hs as (Hh & Hr & _).
    destruct o as [d|].
    - destruct Ho as (c1 & c2 & name & -> & Hc1 & Hn & Hex & Hhc & Hst).
      exists (c :: c1), c2, name. rewrite Hh in Hhc. rewrite Hr in Hn. split_and!; try done.
      intros x [->|Hx]%elem_of_cons; [done|]. eapply passed_over_same; [exact Hs|by apply Hc1].
    - intros x [->|Hx]%elem_of_cons; [done|]. eapply passed_over_same; [exact Hs|by apply Ho]. }
  destruct (find_name (w_registry w) c) as [name|] eqn:Hname.
  2:{ apply Hskip; [reflexivity|]. unfold passed_over. by rewrite Hname. }
  case_decide as Hex.
  { apply Hskip; [reflexivity|]. unfold passed_over. rewrite Hname. by left. }
  unfold bind at 1. destruct (should_retry_spec name w) as (w1 & Hrun & Hs1 & _ & Hget & _).
  rewrite Hrun. unfold bind at 1. destruct (refuses (breaker_of w name) (mono (w_reads w))) eqn:Href;
    cbn [negb].
  { apply Hskip; [done|]. unfold passed_over. rewrite Hname. right. right. exists w.
    split; [reflexivity|done]. }
  destruct (health_check (w_heap w1) c) eqn:Hh; cbn [negb].
  - exists (Some c), w1. split_and!; [done|apply Hs1..|].
    exists [], cs, name. split_and!; try done.
    + set_solver.
    + pose proof Hs1 as (Hheap & _). by rewrite Hheap in Hh.
    + unfold breaker_of. rewrite Hget. cbn [default from_option id negb]. rewrite andb_true_r.
      by case_bool_decide.
  - apply Hskip; [done|]. unfold passed_over. rewrite Hname. right. left.
    pose proof Hs1 as (Hheap & _). by rewrite Hheap in Hh.
Qed.

(** The fallback returned is a registered, capable and healthy runtime,
    neither the failed one nor an excluded one, and its circuit is not OPEN;
    when there is none, every compatible runtime is excluded, unhealthy, or
    was refused by its circuit. *)
Theorem select_fallback_outcome failed_name cap pref exclude w :
  let banned := {[failed_name]} ∪ exclude in
  exists r w', select_fallback mono cfg failed_name cap pref exclude w = (r, w') /\
    same_world w w' /\
    match r with
    | Ok c => fits (w_heap w) cap pref c = true /\
        exists name, find_name (w_registry w) c = Some name /\ (name ∉ banned) /\
          cb_state (breaker_of w' name) <> CircuitState.OPEN
    | Err e => exn_cls e = RuntimeRecoveryError /\
        forall c, (exists n, dget (w_registry w) n = Some c) -> fits (w_heap w) cap pref c = true ->
          passed_over banned w c
    end.
Proof.
  intros banned. unfold select_fallback, bind at 1, get, bind at 1, lift.
  destruct (list_compatible_exact (w_heap w) (w_registry w) cap pref) as (cs & -> & Hcs & _).
  unfold bind. fold banned.
  destruct (fallback_loop_spec banned cs w) as (o & w' & Hrun & Hs & Ho). rewrite Hrun.
  destruct o as [c|]; unfold ret, raise.
  - exists (Ok c), w'. split; [done|]. split; [exact Hs|].
    destruct Ho as (c1 & c2 & name & -> & _ & Hn & Hex & _ & Hst). split.
    + apply (proj1 (Hcs c)). set_solver.
    + exists name. done.
  - eexists _, w'. split; [done|]. split; [exact Hs|]. split; [done|].
    intros c Hreg Hfit. apply Ho, Hcs. done.
Qed.
End proofs.

(** ** A circuit whose timeout has passed *)

Definition demo_open_world : World :=
  mkWorld (fun _ => mkRuntime "alpha" None RuntimeStatus.STARTED) []
    [("alpha", mkBreaker 3 30 CircuitState.OPEN 3 (Some 0))] [] (fun _ => new_bus 10) [] 0.

Lemma half_open_admits_all_witness :
  (asks (fun _ => 40) (mkRecovery 3 30 None) "alpha" 5 demo_open_world).1
  = Ok [true; true; true; true; true].
Proof.
  exact (half_open_admits_all (fun _ => 40) (mkRecovery 3 30 None) "alpha" 5 demo_open_world eq_refl).
Defined.
