(* ===== verification/RuntimeHealth.v ===== *)
(** * The runtime health monitor ([backend/ral/runtime_health.py])

    [RuntimeHealthMonitor] on the shared [World]: the status of a runtime and
    the metrics of its executions.  An error is its rendered text. *)
From stdpp Require Import base gmap strings list sets sorting.
From Stdlib Require Import ZArith QArith Lia.
From S2P Require Import Prelude.
From S2P Require Import RuntimeEvents.
From S2P Require Import RuntimeRegistry.
#[local] Open Scope Z_scope.

Module RuntimeHealthStatus.
Inductive t := AVAILABLE | DEGRADED | UNAVAILABLE | UNKNOWN.
#[global] Instance eq_dec : EqDecision t.
Proof. solve_decision. Defined.
End RuntimeHealthStatus.

Definition new_metrics (name : string) : RuntimeMetrics := mkMetrics name 0 0 0 None None.

Definition avg_latency_ms (m : RuntimeMetrics) : Q :=
  if mt_executions m =? 0 then 0%Q else (inject_Z (mt_latency m) / inject_Z (mt_executions m))%Q.

Definition failure_rate (m : RuntimeMetrics) : Q :=
  if mt_executions m =? 0 then 0%Q else (inject_Z (mt_failures m) / inject_Z (mt_executions m))%Q.

Definition FAILURE_THRESHOLD : Z := 3.
Definition FAILURE_RATE_THRESHOLD : Q := 1 # 2.

Definition health_error (name : string) : exn :=
  Exn RuntimeHealthError [Msg "Runtime '{}' is not registered." [name]].

(** One recorded execution. *)
Record execution := mkExec {
  ex_latency : Z;
  ex_success : bool;
  ex_error : option string
}.

(** The entry [record_execution] stores. *)
Definition with_execution (m : RuntimeMetrics) (name : string) (x : execution) : RuntimeMetrics :=
  mkMetrics name (mt_executions m + 1) (mt_failures m + (if ex_success x then 0 else 1))
    (mt_latency m + ex_latency x)
    (if negb (ex_success x) then match ex_error x with Some e => Some e | None => mt_last_error m end
     else mt_last_error m)
    (mt_last_check m).

Section operations.
Variable wall : nat -> Z.

(** [self._metrics.get(runtime_name)], or an empty entry. *)
Definition metrics_of (w : World) (name : string) : RuntimeMetrics :=
  default (new_metrics name) (dget (w_metrics w) name).

Definition store_metrics (name : string) (m : RuntimeMetrics) : M World unit := fun w =>
  (Ok tt, with_metrics (dset (w_metrics w) name m) w).

(** [_touch] *)
Definition touch (name : string) : M World unit :=
  now <- read_clock wall ;;
  w <- get ;;
  match dget (w_metrics w) name with
  | None => store_metrics name (mkMetrics name 0 0 0 None (Some now))
  | Some m => store_metrics name
      (mkMetrics (mt_runtime m) (mt_executions m) (mt_failures m) (mt_latency m) (mt_last_error m)
         (Some now))
  end.

(** The status as the code derives it from the runtime. *)
Definition health_of (rt : Runtime) : RuntimeHealthStatus.t :=
  match rt_caps rt with
  | None => RuntimeHealthStatus.DEGRADED
  | Some caps =>
      if decide (caps = ∅) then RuntimeHealthStatus.DEGRADED
      else match rt_status rt with
           | RuntimeStatus.STARTED => RuntimeHealthStatus.AVAILABLE
           | RuntimeStatus.STARTING => RuntimeHealthStatus.DEGRADED
           | RuntimeStatus.STOPPED | RuntimeStatus.STOPPING | RuntimeStatus.ERROR =>
               RuntimeHealthStatus.UNAVAILABLE
           end
  end.

(** [check_runtime] *)
Definition check_runtime (name : string) : M World RuntimeHealthStatus.t :=
  w <- get ;;
  match reg_get (w_registry w) name with
  | Err _ => raise (health_error name)
  | Ok r => touch name ;;; ret (health_of (w_heap w r))
  end.

Definition is_status (st : RuntimeHealthStatus.t) (name : string) : M World bool :=
  h <- check_runtime name ;; ret (bool_decide (h = st)).

Definition is_available (name : string) : M World bool :=
  is_status RuntimeHealthStatus.AVAILABLE name.
Definition is_degraded (name : string) : M World bool :=
  is_status RuntimeHealthStatus.DEGRADED name.
Definition is_unavailable (name : string) : M World bool :=
  is_status RuntimeHealthStatus.UNAVAILABLE name.

(** [get_metrics] *)
Definition health_metrics (name : string) : M World RuntimeMetrics :=
  w <- get ;;
  match reg_get (w_registry w) name with
  | Err _ => raise (health_error name)
  | Ok _ => ret (metrics_of w name)
  end.

(** The test of [is_error_prone]. *)
Definition error_prone (m : RuntimeMetrics) : bool :=
  (FAILURE_THRESHOLD <? mt_failures m) || negb (Qle_bool (failure_rate m) FAILURE_RATE_THRESHOLD).

Definition is_error_prone (name : string) : M World bool :=
  m <- health_metrics name ;; ret (error_prone m).

(** [record_execution] *)
Definition record_execution (name : string) (x : execution) : M World unit :=
  w <- get ;; store_metrics name (with_execution (metrics_of w name) name x).

Definition list_metrics (w : World) : list RuntimeMetrics := dvalues (w_metrics w).
End operations.

(** * Properties *)

Section proofs.
Variable wall : nat -> Z.

Lemma quiet_check_runtime name : quiet (check_runtime wall name).
Proof.
  unfold check_runtime. apply quiet_bind; [apply quiet_get|]. intros w.
  case_match; [|apply quiet_raise]. apply quiet_bind; [|intros; apply quiet_ret].
  unfold touch. apply quiet_bind; [apply quiet_read|]. intros now.
  apply quiet_bind; [apply quiet_get|]. intros w'. case_match; by intros ?.
Qed.

(** The operations of the monitor, on runtimes of any name. *)
Inductive health_op :=
  | HCheck (name : string)
  | HRecord (name : string) (x : execution)
  | HErrorProne (name : string).

Definition run_health_op (op : health_op) : M World unit :=
  match op with
  | HCheck n => discard (check_runtime wall n)
  | HRecord n x => record_execution n x
  | HErrorProne n => discard (is_error_prone n)
  end.

Definition run_health_ops (ops : list health_op) (w : World) : World :=
  fold_left (fun w op => (run_health_op op w).2) ops w.

(** The executions recorded for one runtime. *)
Definition recorded (name : string) (ops : list health_op) : list execution :=
  omap (fun op => match op with
                  | HRecord n x => if decide (n = name) then Some x else None
                  | _ => None
                  end) ops.

Lemma recorded_snoc name ops op :
  recorded name (ops ++ [op])
  = recorded name ops ++ match op with
                         | HRecord n x => if decide (n = name) then [x] else []
                         | _ => []
                         end.
Proof.
  unfold recorded. rewrite omap_app. cbn. destruct op as [| |]; cbn; [done| |done]. by case_decide.
Qed.

Definition failures_in (xs : list execution) : Z :=
  Z.of_nat (length (List.filter (fun x => negb (ex_success x)) xs)).
Definition latency_in (xs : list execution) : Z := fold_left (fun n x => n + ex_latency x) xs 0.

(** The metrics [m] are those of the executions [xs]. *)
Record metrics_are (m : RuntimeMetrics) (xs : list execution) : Prop := MetricsAre {
  ma_exec : mt_executions m = Z.of_nat (length xs);
  ma_fail : mt_failures m = failures_in xs;
  ma_lat : mt_latency m = latency_in xs
}.

Lemma metrics_are_record m xs name x :
  metrics_are m xs -> metrics_are (with_execution m name x) (xs ++ [x]).
Proof.
  intros []. unfold failures_in, latency_in in *. split; cbn.
  - rewrite length_app. cbn. lia.
  - unfold failures_in. rewrite List.filter_app, length_app, ma_fail0. cbn.
    destruct (ex_success x); cbn; lia.
  - unfold latency_in. rewrite fold_left_app. cbn. lia.
Qed.

Lemma touch_metrics name w k :
  exists w', touch wall name w = (Ok tt, w') /\ w_registry w' = w_registry w /\
    w_heap w' = w_heap w /\
    mt_executions (metrics_of w' k) = mt_executions (metrics_of w k) /\
    mt_failures (metrics_of w' k) = mt_failures (metrics_of w k) /\
    mt_latency (metrics_of w' k) = mt_latency (metrics_of w k).
Proof.
  unfold touch, bind, read_clock, get, store_metrics. cbn.
  destruct (dget (w_metrics w) name) as [m|] eqn:Hm; eexists; (split; [reflexivity|]); cbn;
    unfold metrics_of; cbn; rewrite dget_dset; (split; [done|split; [done|]]);
    case_decide; subst; rewrite ?Hm; done.
Qed.

Lemma check_runtime_spec name w k :
  exists w', check_runtime wall name w
      = (match dget (w_registry w) name with
         | Some r => Ok (health_of (w_heap w r))
         | None => Err (health_error name)
         end, w') /\
    w_registry w' = w_registry w /\ w_heap w' = w_heap w /\
    mt_executions (metrics_of w' k) = mt_executions (metrics_of w k) /\
    mt_failures (metrics_of w' k) = mt_failures (metrics_of w k) /\
    mt_latency (metrics_of w' k) = mt_latency (metrics_of w k).
Proof.
  unfold check_runtime, bind, get, reg_get. destruct (dget (w_registry w) name) as [r|].
  - destruct (touch_metrics name w k) as (w' & Hrun & ?). exists w'. rewrite Hrun. done.
  - exists w. by split_and!.
Qed.

Lemma health_metrics_state name w : (health_metrics name w).2 = w.
Proof. unfold health_metrics, bind, get, reg_get. by destruct (dget (w_registry w) name). Qed.

Lemma run_health_op_metrics op w name xs :
  metrics_are (metrics_of w name) xs ->
  metrics_are (metrics_of (run_health_op op w).2 name)
    (xs ++ match op with
           | HRecord n x => if decide (n = name) then [x] else []
           | _ => []
           end).
Proof.
  intros Hm. destruct op as [n|n x|n]; unfold run_health_op.
  - rewrite discard_state, app_nil_r.
    destruct (check_runtime_spec n w name) as (w' & -> & _ & _ & He & Hf & Hl). cbn.
    destruct Hm. split; congruence.
  - unfold record_execution, bind, get, store_metrics. cbn. unfold metrics_of at 1. cbn.
    rewrite dget_dset. case_decide as Hn; subst; cbn.
    + by apply metrics_are_record.
    + by rewrite app_nil_r.
  - rewrite discard_state, app_nil_r. unfold is_error_prone, bind.
    pose proof (health_metrics_state n w) as Hs. destruct (health_metrics n w) as [[m|e] w'];
      cbn in *; by subst.
Qed.

Lemma run_health_ops_metrics ops w name :
  w_metrics w = [] -> metrics_are (metrics_of (run_health_ops ops w) name) (recorded name ops).
Proof.
  intros Hw. unfold run_health_ops. induction ops as [|op ops IH] using rev_ind.
  - cbn. unfold metrics_of. by rewrite Hw.
  - rewrite fold_left_app, recorded_snoc. by apply run_health_op_metrics.
Qed.

(** From a monitor without metrics, whatever the checks in between, the
    metrics of a runtime are those of the executions recorded for it. *)
Theorem health_metrics_exact ops w name :
  w_metrics w = [] ->
  let m := metrics_of (run_health_ops ops w) name in
  let xs := recorded name ops in
  mt_executions m = Z.of_nat (length xs) /\ mt_failures m = failures_in xs /\
  mt_latency m = latency_in xs.
Proof. intros Hw m xs. by destruct (run_health_ops_metrics ops w name Hw). Qed.

Lemma failures_in_app xs ys : failures_in (xs ++ ys) = failures_in xs + failures_in ys.
Proof. unfold failures_in. rewrite List.filter_app, length_app. lia. Qed.

Lemma failures_in_nonneg xs : 0 <= failures_in xs.
Proof. unfold failures_in. lia. Qed.

(** Four failures make a runtime error-prone for ever: no number of later
    successes changes the answer, since the counters are never reset. *)
Theorem error_prone_for_ever before after w name :
  w_metrics w = [] -> FAILURE_THRESHOLD < failures_in (recorded name before) ->
  error_prone (metrics_of (run_health_ops (before ++ after) w) name) = true.
Proof.
  intros Hw Hf.
  destruct (run_health_ops_metrics (before ++ after) w name Hw) as [_ Hfl _].
  unfold error_prone. rewrite Hfl. unfold recorded. rewrite omap_app, failures_in_app.
  fold (recorded name before). fold (recorded name after).
  pose proof (failures_in_nonneg (recorded name after)).
  apply orb_true_iff. left. apply Z.ltb_lt. lia.
Qed.
End proofs.

(** ** Four failures, then successes *)

Definition demo_health_world : World :=
  mkWorld (fun _ => mkRuntime "alpha" (Some {["chat"]}) RuntimeStatus.STARTED) [("alpha", 0%nat)] [] []
    (fun _ => new_bus 10) [] 0.

Definition demo_failures : list health_op :=
  repeat (HRecord "alpha" (mkExec 5 false (Some "boom"))) 4.

Definition demo_successes : list health_op :=
  repeat (HRecord "alpha" (mkExec 7 true None)) 10 ++ [HCheck "alpha"].

Lemma health_metrics_exact_witness :
  let m := metrics_of (run_health_ops Z.of_nat (demo_failures ++ demo_successes) demo_health_world) "alpha" in
  mt_executions m = 14 /\ mt_failures m = 4 /\ mt_latency m = 90.
Proof.
  exact (health_metrics_exact Z.of_nat (demo_failures ++ demo_successes) demo_health_world "alpha" eq_refl).
Defined.

Lemma error_prone_for_ever_witness :
  error_prone (metrics_of (run_health_ops Z.of_nat (demo_failures ++ demo_successes) demo_health_world)
    "alpha") = true.
Proof. apply error_prone_for_ever; [reflexivity|vm_compute; reflexivity]. Defined.
