(* ===== verification/RuntimePolicy.v ===== *)
(** * The runtime policy engine ([backend/ral/runtime_policy.py])

    Rules, policies and their evaluation.  Floats are rationals; the text of a
    mismatch is its template and the names in it. *)
From stdpp Require Import base gmap strings list sets sorting.
From Stdlib Require Import ZArith QArith Lia.
From S2P Require Import Prelude.
From S2P Require Import RuntimeRegistry.
#[local] Open Scope Z_scope.

Record RuntimePolicyRule := mkRule {
  allowed_runtimes : option (gset string);
  denied_runtimes : option (gset string);
  required_capabilities : option (gset string);
  local_only : option bool;
  cloud_allowed : option bool;
  preferred_runtime : option string;
  preferred_provider : option string;
  confidential : option bool;
  max_latency_ms : option Q;
  min_reliability : option Q;
  rule_meta : pydict pyval
}.

Definition empty_rule : RuntimePolicyRule :=
  mkRule None None None None None None None None None None [].

Record RuntimePolicy := mkPolicy {
  policy_name : string;
  policy_enabled : bool;
  policy_priority : Z;
  policy_description : string;
  policy_rules : list RuntimePolicyRule
}.

Record RuntimePolicyResult := mkResult {
  res_allowed : bool;
  res_policy : string;
  res_reason : option message;
  res_preferred_runtime : option string;
  res_preferred_provider : option string;
  res_applied_rules : Z;
  res_meta : pydict pyval
}.

Definition default_result : RuntimePolicyResult := mkResult true "" None None None 0 [].

Record RuntimeExecutionContext := mkExecCtx {
  ec_capability : string;
  ec_runtime : option string;
  ec_provider : option string;
  ec_project : option string;
  ec_confidential : option bool;
  ec_preference : option string;
  ec_complexity : option Q;
  ec_latency : option Q;
  ec_reliability : option Q;
  ec_meta : pydict pyval
}.

Section policies.
Context `{!SetOrder}.

(** [str(name)] of an optional name in a message. *)
Definition show_name (o : option string) : string := default "None" o.

Definition sorted_set (s : gset string) : list string := sort_by String.le (iter_set s).

(** ** [_match_rule]: one check per criterion, [Some reason] on a mismatch *)

Definition check_allowed (rule : RuntimePolicyRule) (ctx : RuntimeExecutionContext)
    : option message :=
  match allowed_runtimes rule with
  | None => None
  | Some s =>
      match ec_runtime ctx with
      | Some n => if decide (n ∈ s) then None
                  else Some (Msg "Runtime '{}' is not in allowed set {}." (n :: sorted_set s))
      | None => Some (Msg "Runtime '{}' is not in allowed set {}." ("None" :: sorted_set s))
      end
  end.

Definition check_denied (rule : RuntimePolicyRule) (ctx : RuntimeExecutionContext)
    : option message :=
  match denied_runtimes rule, ec_runtime ctx with
  | Some s, Some n =>
      if decide (n ∈ s) then Some (Msg "Runtime '{}' is explicitly denied." [n]) else None
  | _, _ => None
  end.

Definition check_capability (rule : RuntimePolicyRule) (ctx : RuntimeExecutionContext)
    : option message :=
  match required_capabilities rule with
  | None => None
  | Some s =>
      if decide (ec_capability ctx ∈ s) then None
      else Some (Msg "Capability '{}' is not in required set {}."
                   (ec_capability ctx :: sorted_set s))
  end.

Definition is_cloud (provider : string) : bool := contains "cloud" (lower provider).

Definition check_local (rule : RuntimePolicyRule) (ctx : RuntimeExecutionContext)
    : option message :=
  match local_only rule, ec_provider ctx with
  | Some true, Some p => if is_cloud p then Some (Msg "Provider '{}' is not local." [p]) else None
  | _, _ => None
  end.

(** The code tests ["cloud" not in provider]. *)
Definition check_cloud (rule : RuntimePolicyRule) (ctx : RuntimeExecutionContext)
    : option message :=
  match cloud_allowed rule, ec_provider ctx with
  | Some false, Some p =>
      if negb (is_cloud p) then Some (Msg "Cloud providers are disallowed by policy." []) else None
  | _, _ => None
  end.

Definition check_confidential (rule : RuntimePolicyRule) (ctx : RuntimeExecutionContext)
    : option message :=
  match confidential rule with
  | Some true =>
      if decide (ec_confidential ctx = Some true) then None
      else Some (Msg "Runtime does not support confidential processing." [])
  | _ => None
  end.

Definition check_latency (rule : RuntimePolicyRule) (ctx : RuntimeExecutionContext)
    : option message :=
  match max_latency_ms rule, ec_latency ctx with
  | Some m, Some l =>
      if negb (Qle_bool l m)
      then Some (Msg "Average latency {}ms exceeds maximum {}ms." [fixed 0 l; fixed 0 m])
      else None
  | _, _ => None
  end.

Definition check_reliability (rule : RuntimePolicyRule) (ctx : RuntimeExecutionContext)
    : option message :=
  match min_reliability rule, ec_reliability ctx with
  | Some m, Some r =>
      if negb (Qle_bool m r)
      then Some (Msg "Reliability {}/100 is below minimum {}/100." [fixed 0 r; fixed 0 m])
      else None
  | _, _ => None
  end.

(** The first mismatch, in the order of the checks; [None] is a match. *)
Definition match_rule (rule : RuntimePolicyRule) (ctx : RuntimeExecutionContext)
    : option message :=
  let checks := [check_allowed; check_denied; check_capability; check_local; check_cloud;
                 check_confidential; check_latency; check_reliability] in
  fold_left (fun found check => match found with Some m => Some m | None => check rule ctx end)
    checks None.

(** ** RuntimePolicyEngine *)

Definition Engine := pydict RuntimePolicy.

Definition init_engine (policies : list RuntimePolicy) : Engine :=
  fold_left (fun d p => dset d (policy_name p) p) policies [].

Definition register_policy (p : RuntimePolicy) : M Engine unit := fun d =>
  match policy_rules p with
  | [] => (Err (Exn RuntimePolicyError [Msg "Policy '{}' has no rules." [policy_name p]]), d)
  | _ => (Ok tt, dset d (policy_name p) p)
  end.

Definition remove_policy (name : string) : M Engine unit := fun d =>
  if dmem d name then (Ok tt, ddel d name)
  else (Err (Exn RuntimePolicyError [Msg "Policy '{}' is not registered." [name]]), d).

(** [key=lambda p: (-p.priority, p.name)] *)
Definition before (p q : RuntimePolicy) : Prop :=
  policy_priority q < policy_priority p \/
  (policy_priority p = policy_priority q /\ String.le (policy_name p) (policy_name q)).

#[export] Instance before_dec : RelDecision before.
Proof. intros p q. unfold before. apply _. Defined.

Definition list_policies (d : Engine) : list RuntimePolicy := sort_by before (dvalues d).

Definition clear_policies (d : Engine) : Engine := [].

(** What the loop over the rules of a policy finds. *)
Record verdict := mkVerdict {
  vd_reason : option message;
  vd_runtime : option string;
  vd_provider : option string;
  vd_applied : Z
}.

(** [x if x is not None else y] *)
Definition or_else {A} (x y : option A) : option A := match x with Some _ => x | None => y end.

Fixpoint check_rules (rules : list RuntimePolicyRule) (ctx : RuntimeExecutionContext)
    (v : verdict) : verdict :=
  match rules with
  | [] => v
  | r :: rules' =>
      match match_rule r ctx with
      | Some reason => mkVerdict (Some reason) (vd_runtime v) (vd_provider v) (vd_applied v + 1)
      | None =>
          check_rules rules' ctx
            (mkVerdict None (or_else (preferred_runtime r) (vd_runtime v))
               (or_else (preferred_provider r) (vd_provider v)) (vd_applied v + 1))
      end
  end.

(** The loop over the enabled policies; a policy that neither allows nor has a
    reason is skipped. *)
Fixpoint evaluate_loop (ps : list RuntimePolicy) (ctx : RuntimeExecutionContext) (applied : Z)
    : RuntimePolicyResult :=
  match ps with
  | [] => default_result
  | p :: ps' =>
      let v := check_rules (policy_rules p) ctx (mkVerdict None None None applied) in
      let allowed := match vd_reason v with None => true | Some _ => false end in
      if allowed || match vd_reason v with Some _ => true | None => false end then
        mkResult allowed (policy_name p) (vd_reason v) (vd_runtime v) (vd_provider v)
          (vd_applied v) [("policy_priority", PInt (policy_priority p))]
      else evaluate_loop ps' ctx (vd_applied v)
  end.

(** [evaluate] *)
Definition evaluate (d : Engine) (ctx : RuntimeExecutionContext) : RuntimePolicyResult :=
  evaluate_loop (filter (fun p => policy_enabled p = true) (list_policies d)) ctx 0.

(** * Properties *)

Lemma check_rules_reason rules ctx v :
  vd_reason v = None ->
  vd_reason (check_rules rules ctx v) = None <-> forall r, r ∈ rules -> match_rule r ctx = None.
Proof.
  revert v. induction rules as [|r rules IH]; intros v Hv; cbn [check_rules].
  { split; [|done]. intros _ r. by rewrite elem_of_nil. }
  destruct (match_rule r ctx) as [m|] eqn:Hr; cbn [vd_reason].
  - split; [done|]. intros Hall. rewrite Hall in Hr; [done|set_solver].
  - rewrite IH by done. split.
    + intros Hall x [->|Hx]%elem_of_cons; [done|by apply Hall].
    + intros Hall x Hx. apply Hall. set_solver.
Qed.

#[export] Instance before_trans : Transitive before.
Proof.
  intros p q r [Hpq|[Hpq Hn]] [Hqr|[Hqr Hm]]; unfold before; [left; lia|left; lia|left; lia|].
  right. split; [lia|]. by transitivity (policy_name q).
Qed.

#[export] Instance before_total : Total before.
Proof.
  intros p q. unfold before.
  destruct (Z.lt_trichotomy (policy_priority p) (policy_priority q)) as [?|[Heq|?]];
    [right; by left| |left; by left].
  destruct (total String.le (policy_name p) (policy_name q)); [left|right]; right; by split.
Qed.

Lemma filter_sorted (P : RuntimePolicy -> Prop) `{!forall p, Decision (P p)} l :
  StronglySorted before l -> StronglySorted before (filter P l).
Proof.
  induction 1 as [|p l Hl IH Hp]; [constructor|]. rewrite filter_cons. case_decide; [|done].
  constructor; [done|]. rewrite Forall_forall in *. intros q [_ Hq]%list_elem_of_filter. by apply Hp.
Qed.

(** One enabled policy decides alone: the one of highest priority, the
    first by name among equals.  It allows exactly when all its rules match;
    the first rule that does not denies, and no other policy is looked at.
    Only without any enabled policy is the default answer given. *)
Theorem evaluate_decided_by_first d ctx :
  let result := evaluate d ctx in
  (result = default_result /\ forall p, p ∈ dvalues d -> policy_enabled p = false) \/
  exists p, p ∈ dvalues d /\ policy_enabled p = true /\
    (forall q, q ∈ dvalues d -> policy_enabled q = true -> q = p \/ before p q) /\
    res_policy result = policy_name p /\
    (res_allowed result = true <-> forall r, r ∈ policy_rules p -> match_rule r ctx = None) /\
    (res_allowed result = true <-> res_reason result = None).
Proof.
  intros result. subst result. unfold evaluate.
  pose proof (filter_sorted (fun p => policy_enabled p = true) (list_policies d)
    (sort_by_sorted before (dvalues d))) as Hsorted.
  assert (Hin : forall p, p ∈ filter (fun p => policy_enabled p = true) (list_policies d) <->
    p ∈ dvalues d /\ policy_enabled p = true).
  { intros p. rewrite list_elem_of_filter. unfold list_policies. rewrite (sort_by_perm before). tauto. }
  destruct (filter _ (list_policies d)) as [|p ps] eqn:Hf.
  - left. split; [done|]. intros p Hp. destruct (policy_enabled p) eqn:He; [|done].
    exfalso. assert (Hnil : p ∈ @nil RuntimePolicy) by (by apply Hin). by apply elem_of_nil in Hnil.
  - right. exists p. destruct (proj1 (Hin p)) as [Hp He]; [set_solver|].
    split_and!; [done|done| |..].
    + intros q Hq Heq. assert (Hqin : q ∈ p :: ps) by (by apply Hin).
      apply elem_of_cons in Hqin as [->|Hqin]; [by left|right]. by eapply StronglySorted_head.
    + cbn [evaluate_loop]. by destruct (vd_reason _).
    + cbn [evaluate_loop].
      rewrite <- (check_rules_reason (policy_rules p) ctx (mkVerdict None None None 0)) by done.
      by destruct (vd_reason _).
    + cbn [evaluate_loop]. by destruct (vd_reason _).
Qed.

(** A rule with [cloud_allowed] alone. *)
Definition cloud_rule (b : bool) : RuntimePolicyRule :=
  mkRule None None None None (Some b) None None None None None [].

(** A rule that only says [cloud_allowed=False] accepts the cloud providers
    and refuses the others; together with [local_only=True] it refuses every
    known provider. *)
Theorem cloud_forbidden_is_inverted p ctx :
  ec_provider ctx = Some p ->
  (match_rule (cloud_rule false) ctx = None <-> is_cloud p = true) /\
  match_rule (mkRule None None None (Some true) (Some false) None None None None None []) ctx <> None.
Proof.
  intros Hp. unfold match_rule, cloud_rule. cbn -[is_cloud].
  unfold check_cloud, check_local. cbn -[is_cloud]. rewrite Hp.
  destruct (is_cloud p); cbn; (split; [by split|done]).
Qed.

(** Registering a policy without rules is refused; any other one is stored
    under its name and leaves the others alone. *)
Theorem register_policy_outcome p d :
  let '(r, d') := register_policy p d in
  (policy_rules p = [] /\ d' = d /\ exists e, r = Err e /\ exn_cls e = RuntimePolicyError) \/
  (policy_rules p <> [] /\ r = Ok tt /\
   forall k, dget d' k = if decide (policy_name p = k) then Some p else dget d k).
Proof.
  unfold register_policy. destruct (policy_rules p); [left|right].
  - split_and!; [done..|]. eexists. done.
  - split_and!; [done..|]. intros k. apply dget_dset.
Qed.
End policies.

Definition demo_ctx (provider : string) : RuntimeExecutionContext :=
  mkExecCtx "chat" (Some "alpha") (Some provider) None None None None None None [].

Lemma cloud_forbidden_is_inverted_witness :
  (match_rule (cloud_rule false) (demo_ctx "local") = None <-> is_cloud "local" = true) /\
  match_rule (mkRule None None None (Some true) (Some false) None None None None None [])
    (demo_ctx "local") <> None.
Proof. exact (cloud_forbidden_is_inverted "local" (demo_ctx "local") eq_refl). Defined.

(** A policy that forbids the cloud lets a cloud provider through and refuses a
    local one. *)
Example demo_cloud_forbidden :
  let p := mkPolicy "no-cloud" true 0 "" [cloud_rule false] in
  (res_allowed (evaluate [("no-cloud", p)] (demo_ctx "cloud")),
   res_allowed (evaluate [("no-cloud", p)] (demo_ctx "local"))) = (true, false).
Proof. vm_compute. reflexivity. Qed.
