(* ===== verification/RuntimeRouter.v ===== *)
(** * The runtime execution router ([backend/ral/runtime_router.py])

    [RuntimeRouter]: the resolution of a runtime and the execution loop with
    failover.  An execution is foreign code: [executor k r h] is what the
    [k]-th call made to runtime [r] gives, and the heap it leaves; the calls
    are recorded in [w_calls].  Clocks are in milliseconds. *)
From stdpp Require Import base gmap strings list sets sorting pretty.
From Stdlib Require Import ZArith QArith Lia.
From S2P Require Import Prelude.
From S2P Require Import RuntimeEvents.
From S2P Require Import RuntimeRegistry.
From S2P Require Import RuntimeRecovery.
From S2P Require Import RuntimeHealth.
#[local] Open Scope Z_scope.

(** The constructor's arguments; [max(max_retries, 0)]. *)
Record RouterConfig := mkRouter {
  ro_context : RuntimeContext;
  ro_health : bool;
  ro_recovery : option RecoveryConfig;
  ro_bus : option nat;
  ro_retries : Z
}.

Definition max_retries (cfg : RouterConfig) : Z := Z.max (ro_retries cfg) 0.

Definition execution_error (template : string) (args : list string) : exn :=
  Exn RuntimeExecutionError [Msg template args].

Definition unavailable (cap : string) : exn :=
  execution_error "No runtime available for capability '{}'." [cap].

Section router.
Variables mono wall : nat -> Z.
Variable cfg : RouterConfig.
Variable exn_text : exn -> string.
Context {A : Type}.
Variable executor : nat -> nat -> heap -> res A * heap.

(** ** Resolution *)

(** [_try_get_runtime] *)
Definition try_get (name : string) : M World (option nat) :=
  w <- get ;; ret (dget (w_registry w) name).

(** [_name_of] *)
Definition name_of (r : nat) : M World (option string) :=
  w <- get ;; ret (find_name (w_registry w) r).

(** The monitor's part of [_can_handle]. *)
Definition monitor_allows (name : string) : M World bool :=
  if ro_health cfg then
    available <- is_available wall name ;;
    if negb available then ret false
    else bad <- is_error_prone name ;; ret (negb bad)
  else ret true.

(** [_can_handle] *)
Definition can_handle (r : nat) (cap : string) : M World bool :=
  w <- get ;;
  if negb (health_check (w_heap w) r) then ret false
  else if negb (has_capability (w_heap w) cap r) then ret false
  else
    name <- name_of r ;;
    match name with
    | None => ret false
    | Some n =>
        ok <- monitor_allows n ;;
        if negb ok then ret false
        else match ro_recovery cfg with
             | None => ret true
             | Some rc => should_retry mono rc n
             end
    end.

(** [name in exclude] for an optional name. *)
Definition excluded (exclude : gset string) (name : option string) : bool :=
  match name with Some n => bool_decide (n ∈ exclude) | None => false end.

(** A candidate of the first three steps: use it, or go on. *)
Definition use_if (skip : bool) (r : nat) (cap : string) (next : M World nat) : M World nat :=
  if skip then next
  else ok <- can_handle r cap ;; if (ok : bool) then ret r else next.

(** The loop over the compatible runtimes. *)
Fixpoint first_usable (exclude : gset string) (selected : nat) (cap : string) (cs : list nat)
    : M World nat :=
  match cs with
  | [] => raise (unavailable cap)
  | c :: cs' =>
      name <- name_of c ;;
      if excluded exclude name then first_usable exclude selected cap cs'
      else if decide (c = selected) then first_usable exclude selected cap cs'
      else ok <- can_handle c cap ;;
           if (ok : bool) then ret c else first_usable exclude selected cap cs'
  end.

(** Step 4: the selector. *)
Definition resolve_selected (cap : string) (exclude : gset string)
    (pname preference : option string) : M World nat :=
  w <- get ;;
  match select (w_heap w) (w_registry w) cap preference pname with
  | Err _ => raise (unavailable cap)
  | Ok r =>
      name <- name_of r ;;
      use_if (excluded exclude name) r cap (
        w' <- get ;;
        cs <- lift (list_compatible (w_heap w') (w_registry w') cap preference) ;;
        first_usable exclude r cap cs)
  end.

(** Steps 3, 2 and 1. *)
Definition resolve_preferred (cap : string) (exclude : gset string)
    (pname preference : option string) : M World nat :=
  let next := resolve_selected cap exclude pname preference in
  match pname with
  | None => next
  | Some n =>
      if decide (n ∈ exclude) then next
      else o <- try_get n ;;
           match o with
           | None => next
           | Some r => use_if false r cap next
           end
  end.

Definition resolve_fallback (cap : string) (exclude : gset string)
    (pname preference : option string) (allow_fallback : bool) : M World nat :=
  let next := resolve_preferred cap exclude pname preference in
  match (if allow_fallback then cx_fallback (ro_context cfg) else None) with
  | None => next
  | Some n =>
      o <- try_get n ;;
      match o with
      | None => next
      | Some r => use_if (bool_decide (n ∈ exclude)) r cap next
      end
  end.

(** [_resolve_runtime] *)
Definition resolve_runtime (cap : string) (exclude : gset string)
    (pname preference : option string) (allow_fallback : bool) : M World nat :=
  let next := resolve_fallback cap exclude pname preference allow_fallback in
  match cx_active (ro_context cfg) with
  | None => next
  | Some r =>
      w <- get ;;
      use_if (excluded exclude (get_active_name (w_registry w) (ro_context cfg))) r cap next
  end.

(** ** Execution *)

Definition publish_event (type name : string) (sev : Severity.t) (msg : string)
    (meta : pydict pyval) : M World unit :=
  publish wall (ro_bus cfg) type name sev msg meta.

(** [await executor(runtime)] *)
Definition run_on (r : nat) : M World (res A) := fun w =>
  let '(out, h) := executor (length (w_calls w)) r (w_heap w) in
  (Ok out, mkWorld h (w_registry w) (w_breakers w) (w_metrics w) (w_buses w) (w_calls w ++ [r])
             (w_reads w)).

(** The [except Exception] branch: the reason for the trace. *)
Definition attempt_failed (cap name : string) (retries latency : Z) (e : exn)
    (reason : option string) : M World (option string) :=
  publish_event RuntimeEventType.FAILED name Severity.ERROR (exn_text e)
    [("capability", PStr cap); ("latency_ms", PInt latency)] ;;;
  reason' <- match ro_recovery cfg with
             | None => ret reason
             | Some rc => s <- recover mono wall rc name ;; ret (Some s)
             end ;;
  (if retries + 1 <=? max_retries cfg
   then publish_event RuntimeEventType.FALLBACK name Severity.WARNING ""
          [("capability", PStr cap); ("attempt", PInt (retries + 1));
           ("reason", match reason' with Some s => PStr s | None => PNone end)]
   else ret tt) ;;;
  ret reason'.

(** The end of the loop's body after a success. *)
Definition attempt_succeeded (cap name initial : string) (retries : Z) (reason : option string)
    (a : A) : M World (A * ExecutionTrace) :=
  match ro_recovery cfg with
  | None => ret tt
  | Some rc => record_success wall rc name
  end ;;;
  (if decide (name = initial) then ret tt
   else publish_event RuntimeEventType.RECOVERED name Severity.INFO ""
          [("capability", PStr cap); ("runtime_initial", PStr initial);
           ("runtime_final", PStr name)]) ;;;
  ret (a, mkTrace initial name (Z.max 0 retries) reason).

(** [while retries <= max_retries]; [n] is the number of turns left. *)
Fixpoint attempts (n : nat) (cap : string) (pname preference : option string)
    (allow_fallback : bool) (attempted : gset string) (initial : option string) (retries : Z)
    (reason : option string) : M World (A * ExecutionTrace) :=
  match n with
  | O => raise (execution_error
      "Execution failed for capability '{}' after {} fallback attempt(s)."
      [cap; pretty (max_retries cfg)])
  | S n' =>
      r <- catch (resolve_runtime cap attempted pname preference allow_fallback)
             (fun c => bool_decide (c = RuntimeExecutionError))
             (fun _ => raise (execution_error
                "No runtime available for capability '{}' after {} retry attempt(s)."
                [cap; pretty retries])) ;;
      name <- name_of r ;;
      match name with
      | None => raise (execution_error "Resolved runtime does not belong to the registry." [])
      | Some nm =>
          let initial' := default nm initial in
          publish_event RuntimeEventType.SELECTED nm Severity.INFO "" [("capability", PStr cap)] ;;;
          publish_event RuntimeEventType.STARTED nm Severity.INFO "" [("capability", PStr cap)] ;;;
          start <- read_clock mono ;;
          out <- run_on r ;;
          stop <- read_clock mono ;;
          match out with
          | Ok a =>
              publish_event RuntimeEventType.COMPLETED nm Severity.INFO ""
                [("capability", PStr cap); ("latency_ms", PInt (stop - start))] ;;;
              attempt_succeeded cap nm initial' retries reason a
          | Err e =>
              reason' <- attempt_failed cap nm retries (stop - start) e reason ;;
              attempts n' cap pname preference allow_fallback ({[nm]} ∪ attempted)
                (Some initial') (retries + 1) reason'
          end
      end
  end.

(** [_execute_with_recovery] *)
Definition execute_with_recovery (cap : string) (pname preference : option string)
    (allow_fallback : bool) : M World (A * ExecutionTrace) :=
  attempts (Z.to_nat (max_retries cfg + 1)) cap pname preference allow_fallback ∅ None 0 None.
End router.

(** ** The public calls

    [runtime.get(name)] gives a capability object or [None]; [satisfies] is the
    check of its protocol, and [call] what awaiting its method does. *)
Definition get_capability {I : Type} (instance : nat -> string -> option I)
    (satisfies : string -> I -> bool) (h : heap) (r : nat) (cap type : string) : res I :=
  match instance r cap with
  | None => Err (execution_error "Runtime '{}' does not expose capability '{}'."
      [rt_name (h r); cap])
  | Some i =>
      if satisfies type i then Ok i
      else Err (execution_error "Runtime '{}' capability '{}' does not satisfy {}."
             [rt_name (h r); cap; type])
  end.

(** [_get_chat_call] and [_get_tool_call] *)
Definition capability_call {I A : Type} (instance : nat -> string -> option I)
    (satisfies : string -> I -> bool) (call : nat -> I -> heap -> res A * heap)
    (cap type : string) : nat -> nat -> heap -> res A * heap := fun k r h =>
  match get_capability instance satisfies h r cap type with
  | Err e => (Err e, h)
  | Ok i => call k i h
  end.

Record ChatResponse := mkChat { ch_content : string; ch_metadata : pydict pyval }.

Record ToolResult := mkTool {
  to_output : pyval;
  to_is_error : bool;
  to_metadata : pydict pyval
}.

(** [{**metadata, "execution_trace": trace.as_dict()}] *)
Definition traced (meta : pydict pyval) (t : ExecutionTrace) : pydict pyval :=
  dset meta "execution_trace" (PDict (trace_as_dict t)).

(** [chat] *)
Definition chat {I : Type} (mono wall : nat -> Z) (cfg : RouterConfig) (exn_text : exn -> string)
    (instance : nat -> string -> option I) (satisfies : string -> I -> bool)
    (call : nat -> I -> heap -> res ChatResponse * heap)
    (pname preference : option string) (allow_fallback : bool) : M World ChatResponse :=
  p <- execute_with_recovery mono wall cfg exn_text
         (capability_call instance satisfies call "chat" "ChatCapability")
         "chat" pname preference allow_fallback ;;
  ret (match ro_recovery cfg with
       | None => p.1
       | Some _ => mkChat (ch_content p.1) (traced (ch_metadata p.1) p.2)
       end).

(** [invoke_tool] *)
Definition invoke_tool {I : Type} (mono wall : nat -> Z) (cfg : RouterConfig)
    (exn_text : exn -> string) (instance : nat -> string -> option I)
    (satisfies : string -> I -> bool) (call : nat -> I -> heap -> res ToolResult * heap)
    (pname preference : option string) (allow_fallback : bool) : M World ToolResult :=
  p <- execute_with_recovery mono wall cfg exn_text
         (capability_call instance satisfies call "tools" "ToolsCapability")
         "tools" pname preference allow_fallback ;;
  ret (match ro_recovery cfg with
       | None => p.1
       | Some _ => mkTool (to_output p.1) (to_is_error p.1) (traced (to_metadata p.1) p.2)
       end).

(** * Properties *)

Section proofs.
Variables mono wall : nat -> Z.
Variable cfg : RouterConfig.

(** ** Operations that answer

    Only an execution calls a runtime; the operations around it answer and
    leave the runtimes alone. *)

(** An operation that does not fail and changes nothing the runtimes see. *)
Definition answers {B} (m : M World B) (w : World) : Prop :=
  exists b w', m w = (Ok b, w') /\ same_world w w'.

Lemma answers_bind {B C} (m : M World B) (f : B -> M World C) w :
  answers m w -> (forall b w', same_world w w' -> answers (f b) w') -> answers (bind m f) w.
Proof.
  intros (b & w1 & Hm & Hs) Hf. destruct (Hf b w1 Hs) as (c & w2 & Hf2 & Hs2).
  exists c, w2. split; [|by etransitivity]. unfold bind. by rewrite Hm.
Qed.

Lemma answers_ret {B} (b : B) w : answers (ret b) w.
Proof. by exists b, w. Qed.

Lemma answers_should_retry rc n w : answers (should_retry mono rc n) w.
Proof. destruct (should_retry_spec mono rc n w) as (w1 & Hr & Hs & _). by eexists _, w1. Qed.

Lemma answers_quiet {B} (m : M World B) w : quiet m -> (exists b, (m w).1 = Ok b) -> answers m w.
Proof. intros Hq [b Hb]. exists b, (m w).2. split; [|apply Hq]. by rewrite <- Hb, <- surjective_pairing. Qed.

Lemma answers_check n w r : dget (w_registry w) n = Some r -> answers (check_runtime wall n) w.
Proof.
  intros Hr. apply answers_quiet; [apply quiet_check_runtime|]. exists (health_of (w_heap w r)).
  unfold check_runtime, bind at 1, get, reg_get. rewrite Hr.
  unfold touch, bind, read_clock, get. cbn [w_metrics].
  destruct (dget (w_metrics w) n); reflexivity.
Qed.

Lemma answers_monitor n w : is_Some (dget (w_registry w) n) -> answers (monitor_allows wall cfg n) w.
Proof.
  intros [r Hr]. unfold monitor_allows, is_available, is_status. destruct (ro_health cfg); [|apply answers_ret].
  apply answers_bind.
  - apply answers_bind; [|intros; apply answers_ret]. by eapply answers_check.
  - intros b w' (_ & Hreg & _). destruct b; cbn [negb]; [|apply answers_ret].
    apply answers_bind; [|intros; apply answers_ret].
    unfold answers, is_error_prone, health_metrics, bind, get, reg_get. cbn. rewrite Hreg, Hr.
    by eexists _, w'.
Qed.

Lemma can_handle_answers r cap w :
  dict_wf (w_registry w) ->
  exists b w', can_handle mono wall cfg r cap w = (Ok b, w') /\ same_world w w' /\
    (b = true -> has_capability (w_heap w) cap r = true /\ health_check (w_heap w) r = true /\
       is_Some (find_name (w_registry w) r)).
Proof.
  intros Hwf. unfold can_handle, name_of, bind at 1, get.
  destruct (health_check (w_heap w) r) eqn:Hh; cbn [negb]; [|by exists false, w].
  destruct (has_capability (w_heap w) cap r) eqn:Hc; cbn [negb]; [|by exists false, w].
  unfold bind at 1, bind at 1, get, ret at 1.
  destruct (find_name (w_registry w) r) as [n|] eqn:Hn; [|by exists false, w].
  assert (Ha : answers (ok <- monitor_allows wall cfg n ;;
    if negb ok then ret false
    else match ro_recovery cfg with None => ret true | Some rc => should_retry mono rc n end) w).
  { apply answers_bind; [apply answers_monitor; eexists; by apply find_name_Some|].
    intros b w' _. destruct b; cbn [negb]; [|apply answers_ret].
    destruct (ro_recovery cfg); [apply answers_should_retry|apply answers_ret]. }
  destruct Ha as (b & w' & Hrun & Hs). exists b, w'. split; [exact Hrun|]. split; [exact Hs|].
  intros _. split_and!; [done..|by eexists].
Qed.

(** The registry gives no object two names. *)
Definition unaliased (reg : Registry) : Prop :=
  dict_wf reg /\ forall n1 n2 r, dget reg n1 = Some r -> dget reg n2 = Some r -> n1 = n2.

Lemma unaliased_name reg r n : unaliased reg -> dget reg n = Some r -> find_name reg r = Some n.
Proof.
  intros [Hwf Hinj] Hn. destruct (find_name reg r) as [m|] eqn:Hm.
  - f_equal. eapply Hinj; [|exact Hn]. by apply find_name_Some.
  - by apply (find_name_None _ _ n) in Hm.
Qed.

Section resolution.
Variable w0 : World.
Variables (cap : string) (exclude : gset string).
Hypothesis Hreg : unaliased (w_registry w0).

(** What a resolved runtime satisfies, and what a refused one met. *)
Definition usable (r : nat) : Prop :=
  exists n, dget (w_registry w0) n = Some r /\ (n ∉ exclude) /\
    has_capability (w_heap w0) cap r = true /\ health_check (w_heap w0) r = true.

Definition refused (r : nat) : Prop :=
  exists wk, same_world w0 wk /\ (can_handle mono wall cfg r cap wk).1 = Ok false.

(** [m] resolves a usable runtime, or raises while [Q] holds. *)
Definition resolves (Q : Prop) (m : M World nat) : Prop :=
  forall w, same_world w0 w -> exists o w', m w = (o, w') /\ same_world w0 w' /\
    match o with
    | Ok r => usable r
    | Err e => exn_cls e = RuntimeExecutionError /\ Q
    end.

Lemma resolves_weaken (Q Q' : Prop) m : resolves Q m -> (Q -> Q') -> resolves Q' m.
Proof.
  intros Hm HQ w Hw. destruct (Hm w Hw) as (o & w' & ? & ? & Ho). exists o, w'.
  split_and!; try done. destruct o; [done|]. destruct Ho. split; [done|by apply HQ].
Qed.

Lemma handle_or r (Q : Prop) next :
  (forall n, find_name (w_registry w0) r = Some n -> n ∉ exclude) ->
  resolves Q next ->
  resolves (refused r /\ Q) (ok <- can_handle mono wall cfg r cap ;; if (ok : bool) then ret r else next).
Proof.
  intros Hex Hnext w Hw. pose proof Hw as (Hheap & Hregw & _).
  destruct (can_handle_answers r cap w) as (b & w1 & Hrun & Hs & Hb).
  { rewrite Hregw. apply Hreg. }
  unfold bind. rewrite Hrun. destruct b.
  - destruct (Hb eq_refl) as (Hc & Hh & [n Hn]). rewrite Hheap in Hc, Hh. rewrite Hregw in Hn.
    exists (Ok r), w1. split_and!; try done; [by etransitivity|]. exists n.
    split_and!; try done; [|by apply Hex]. apply find_name_Some; [done|apply Hreg].
  - destruct (Hnext w1) as (o & w2 & Hrun2 & Hs2 & Ho); [by etransitivity|].
    exists o, w2. split_and!; try done. destruct o as [|e]; [done|]. destruct Ho as [He HQ].
    split; [done|]. split; [|done]. exists w. split; [exact Hw|]. by rewrite Hrun.
Qed.

Lemma use_if_resolves skip r (Q : Prop) next :
  (skip = false -> forall n, find_name (w_registry w0) r = Some n -> n ∉ exclude) ->
  resolves Q next -> resolves Q (use_if mono wall cfg skip r cap next).
Proof.
  intros Hex Hnext. unfold use_if. destruct skip; [done|].
  eapply resolves_weaken; [apply handle_or; [by apply Hex|exact Hnext]|]. by intros [_ ?].
Qed.

(** The names of these runtimes, when not excluded, were refused. *)
Definition all_refused (rs : list nat) : Prop :=
  forall r n, r ∈ rs -> find_name (w_registry w0) r = Some n -> n ∉ exclude -> refused r.

Lemma first_usable_resolves selected cs :
  resolves (all_refused [selected] -> all_refused cs) (first_usable mono wall cfg exclude selected cap cs).
Proof.
  induction cs as [|c cs IH]; cbn [first_usable].
  { intros w Hw. eexists _, w. split; [reflexivity|]. split; [exact Hw|]. split; [done|].
    intros _ r n Hr. by apply not_elem_of_nil in Hr. }
  assert (Hnext : forall Q : Prop, (Q -> all_refused [selected] -> all_refused [c]) ->
    forall m, resolves ((all_refused [selected] -> all_refused cs) /\ Q) m ->
    resolves (all_refused [selected] -> all_refused (c :: cs)) m).
  { intros Q HQ m Hm. eapply resolves_weaken; [exact Hm|]. intros [Hcs Hq] Hsel r n Hin.
    apply elem_of_cons in Hin as [->|Hin]; [|by apply Hcs].
    apply HQ; [done..|]. by apply list_elem_of_singleton. }
  intros w Hw. unfold bind at 1, name_of at 1, bind at 1, get, ret at 1.
  pose proof Hw as (_ & Hregw & _). rewrite Hregw.
  unfold excluded. destruct (find_name (w_registry w0) c) as [n|] eqn:Hn.
  - case_bool_decide as Hex.
    { refine (Hnext True _ _ _ w Hw); [|eapply resolves_weaken; [exact IH|done]].
      intros _ _ r n' ->%list_elem_of_singleton Hn'. rewrite Hn in Hn'. by injection Hn' as <-. }
    case_decide as Hsel.
    { subst c. refine (Hnext True _ _ _ w Hw); [done|eapply resolves_weaken; [exact IH|done]]. }
    refine (Hnext (refused c) _ _ _ w Hw).
    + intros Hr _ r n' ->%list_elem_of_singleton _ _. exact Hr.
    + eapply resolves_weaken; [apply handle_or; [|exact IH]|tauto].
      intros n' Hn'. rewrite Hn in Hn'. by injection Hn' as <-.
  - assert (Hc : all_refused [selected] -> all_refused [c]).
    { intros _ r n' ->%list_elem_of_singleton Hn'. congruence. }
    case_decide as Hsel.
    + refine (Hnext True _ _ _ w Hw); [done|eapply resolves_weaken; [exact IH|done]].
    + refine (Hnext True _ _ _ w Hw); [done|].
      eapply resolves_weaken; [apply handle_or; [|exact IH]|tauto]. congruence.
Qed.

(** Resolution gave up: the selector was asked for an unknown runtime, or each
    runtime that fits the request was excluded or refused. *)
Definition exhausted (pname preference : option string) : Prop :=
  (exists n, pname = Some n /\ dget (w_registry w0) n = None) \/
  forall n r, dget (w_registry w0) n = Some r -> fits (w_heap w0) cap preference r = true ->
    n ∉ exclude -> refused r.

Lemma resolve_selected_resolves pname preference :
  resolves (exhausted pname preference) (resolve_selected mono wall cfg cap exclude pname preference).
Proof.
  intros w Hw. pose proof Hw as (Hheap & Hregw & _). unfold resolve_selected, bind at 1, get.
  rewrite Hheap, Hregw.
  pose proof (select_spec (w_heap w0) (w_registry w0) cap preference pname) as Hsel.
  destruct (select (w_heap w0) (w_registry w0) cap preference pname) as [r|e].
  2:{ eexists _, w. split; [reflexivity|]. split; [exact Hw|]. split; [done|].
      destruct Hsel as [_ [?|Hno]]; [by left|]. right. intros n r Hr Hf. by rewrite (Hno n r Hr) in Hf. }
  clear Hsel. unfold bind at 1, name_of at 1, bind at 1, get, ret at 1. rewrite Hregw.
  destruct (list_compatible_exact (w_heap w0) (w_registry w0) cap preference) as (cs & Hcs & Hin & _).
  assert (Hloop : resolves (all_refused [r] -> exhausted pname preference)
    (w' <- get ;; cs <- lift (list_compatible (w_heap w') (w_registry w') cap preference) ;;
     first_usable mono wall cfg exclude r cap cs)).
  { intros w1 Hw1. pose proof Hw1 as (Hheap1 & Hreg1 & _).
    unfold bind at 1, get, bind at 1, lift. rewrite Hheap1, Hreg1, Hcs.
    refine (resolves_weaken _ _ _ (first_usable_resolves r cs) _ w1 Hw1).
    intros Hall Hr. right. intros n c Hc Hf Hex. apply (Hall Hr c n); [|by apply unaliased_name|done].
    apply Hin. eauto. }
  destruct (excluded exclude (find_name (w_registry w0) r)) eqn:Hx; unfold use_if.
  - refine (resolves_weaken _ _ _ Hloop _ w Hw). intros Hr. apply Hr.
    intros r' n ->%list_elem_of_singleton Hn Hex. rewrite Hn in Hx. cbn in Hx.
    by apply bool_decide_eq_true in Hx.
  - refine (resolves_weaken _ _ _ (handle_or r _ _ _ Hloop) _ w Hw).
    + intros n Hn. rewrite Hn in Hx. cbn in Hx. by apply bool_decide_eq_false in Hx.
    + intros [Href Hr]. apply Hr. by intros r' n ->%list_elem_of_singleton _ _.
Qed.

Lemma by_name_resolves (n : string) skip Q next :
  (skip = false -> n ∉ exclude) -> resolves Q next ->
  resolves Q (o <- try_get n ;;
    match o with None => next | Some r => use_if mono wall cfg skip r cap next end).
Proof.
  intros Hskip Hnext w Hw. pose proof Hw as (_ & Hregw & _).
  unfold bind at 1, try_get, bind at 1, get, ret at 1. rewrite Hregw.
  destruct (dget (w_registry w0) n) as [r|] eqn:Hr; [|by apply Hnext].
  refine (use_if_resolves skip r Q next _ Hnext w Hw). intros Hs m Hm.
  rewrite (unaliased_name _ _ _ Hreg Hr) in Hm. injection Hm as <-. by apply Hskip.
Qed.

Lemma resolve_resolves pname preference allow :
  resolves (exhausted pname preference)
    (resolve_runtime mono wall cfg cap exclude pname preference allow).
Proof.
  assert (Hpref : resolves (exhausted pname preference)
    (resolve_preferred mono wall cfg cap exclude pname preference)).
  { unfold resolve_preferred. destruct pname as [n|]; [|apply resolve_selected_resolves].
    case_decide; [apply resolve_selected_resolves|].
    by apply by_name_resolves; [|apply resolve_selected_resolves]. }
  assert (Hfall : resolves (exhausted pname preference)
    (resolve_fallback mono wall cfg cap exclude pname preference allow)).
  { unfold resolve_fallback. destruct (if allow then _ else _) as [n|]; [|done].
    apply by_name_resolves; [|done]. by intros ?%bool_decide_eq_false. }
  unfold resolve_runtime. destruct (cx_active (ro_context cfg)) as [r|] eqn:Ha; [|done].
  intros w Hw. unfold bind at 1, get. pose proof Hw as (_ & Hregw & _). rewrite Hregw.
  refine (use_if_resolves _ r _ _ _ Hfall w Hw). unfold get_active_name. rewrite Ha.
  intros Hx n Hn. apply find_name_Some in Hn as Hd; [|apply Hreg].
  destruct (List.find _ (list_available (w_registry w0))) as [m|] eqn:Hm.
  - apply List.find_some in Hm as [_ Hm%bool_decide_eq_true].
    destruct Hreg as [_ Hinj]. rewrite (Hinj n m r Hd Hm). by apply bool_decide_eq_false in Hx.
  - pose proof (List.find_none _ _ Hm n) as Hno. rewrite <- list_elem_of_In in Hno.
    rewrite bool_decide_eq_true_2 in Hno by done. discriminate Hno.
    apply elem_list_available, dget_is_Some. by eexists.
Qed.
End resolution.
(** A resolved runtime is registered, not excluded, healthy and capable;
    and resolution gives up only when the preferred name is unknown or every
    runtime that fits the request was excluded or refused. *)
Theorem resolve_outcome cap exclude pname preference allow w :
  unaliased (w_registry w) ->
  exists o w', resolve_runtime mono wall cfg cap exclude pname preference allow w = (o, w') /\
    same_world w w' /\
    match o with
    | Ok r => usable w cap exclude r
    | Err e => exn_cls e = RuntimeExecutionError /\ exhausted w cap exclude pname preference
    end.
Proof. intros Hreg. by apply (resolve_resolves w cap exclude Hreg pname preference allow w). Qed.

(** ** The execution loop *)

Variable exn_text : exn -> string.
Context {A : Type}.
Variable executor : nat -> nat -> heap -> res A * heap.

Lemma answers_get w : answers get w.
Proof. by exists w, w. Qed.

Lemma answers_read clock w : answers (read_clock clock) w.
Proof. eexists _, _. by split. Qed.

Lemma answers_publish bus type name sev msg meta w : answers (publish wall bus type name sev msg meta) w.
Proof. apply answers_quiet; [apply quiet_publish|]. destruct bus; by eexists. Qed.

Lemma answers_get_breaker rc n w : answers (get_breaker rc n) w.
Proof. destruct (get_breaker_spec rc n w) as (w1 & Hr & Hs & _). by eexists _, w1. Qed.

Lemma answers_store n cb w : answers (store_breaker n cb) w.
Proof. eexists _, _. by split. Qed.

Ltac answer := repeat first
  [ apply answers_bind | apply answers_ret | apply answers_get | apply answers_read
  | apply answers_publish | apply answers_get_breaker | apply answers_store
  | progress intros | case_match ].

Lemma answers_recover rc n w : answers (recover mono wall rc n) w.
Proof. unfold recover, record_failure, breaker_failure. answer. Qed.

Lemma answers_success rc n w : answers (record_success wall rc n) w.
Proof. unfold record_success. answer. Qed.

Lemma answers_failed cap name retries latency e reason w :
  answers (attempt_failed mono wall cfg exn_text cap name retries latency e reason) w.
Proof.
  unfold attempt_failed, publish_event. answer; apply answers_recover.
Qed.

Lemma succeeded_answers cap name initial retries reason (a : A) w :
  exists w', attempt_succeeded wall cfg cap name initial retries reason a w
    = (Ok (a, mkTrace initial name (Z.max 0 retries) reason), w') /\ same_world w w'.
Proof.
  unfold attempt_succeeded, publish_event.
  set (m1 := match ro_recovery cfg with Some _ => _ | None => _ end).
  set (m2 := if decide (name = initial) then _ else _).
  assert (H1 : answers m1 w) by (unfold m1; answer; apply answers_success).
  destruct H1 as (u & w1 & H1 & Hs1).
  assert (H2 : answers m2 w1) by (unfold m2; answer).
  destruct H2 as (v & w2 & H2 & Hs2). exists w2.
  unfold bind. rewrite H1, H2. split; [done|]. by etransitivity.
Qed.

(** The call number [k] went to [r], capable and healthy then, and gave [o]. *)
Definition called (cap : string) (k : nat) (r : nat) (o : res A) : Prop :=
  exists h h', has_capability h cap r = true /\ health_check h r = true /\ executor k r h = (o, h').

Definition all_failed (cap : string) (k : nat) (l : list nat) : Prop :=
  forall i r, l !! i = Some r -> exists e, called cap (k + i) r (Err e).

(** The runtimes called: registered, not attempted before, all different. *)
Definition fresh_calls (reg : Registry) (attempted : gset string) (l : list nat) : Prop :=
  NoDup l /\ forall r, r ∈ l -> exists n, find_name reg r = Some n /\ n ∉ attempted.

Definition names_of (reg : Registry) (l : list nat) : gset string :=
  list_to_set (omap (find_name reg) l).

(** What the loop left to do. *)
Definition nothing_left (reg : Registry) (cap : string) (attempted : gset string)
    (pname preference : option string) (l : list nat) : Prop :=
  exists w1, w_registry w1 = reg /\
    exhausted w1 cap (names_of reg l ∪ attempted) pname preference.

Lemma all_failed_cons cap k r l e :
  called cap k r (Err e) -> all_failed cap (S k) l -> all_failed cap k (r :: l).
Proof.
  intros Hr Hl [|i] x Hx; cbn in Hx.
  - injection Hx as <-. exists e. by rewrite Nat.add_0_r.
  - destruct (Hl i x Hx) as [e' He]. exists e'. by rewrite Nat.add_succ_r.
Qed.

Lemma fresh_calls_cons reg attempted r n l :
  find_name reg r = Some n -> (n ∉ attempted) -> fresh_calls reg ({[n]} ∪ attempted) l ->
  fresh_calls reg attempted (r :: l).
Proof.
  intros Hn Hnew [Hnd Hl]. split.
  - constructor; [|done]. intros Hin. destruct (Hl r Hin) as (m & Hm & Hnot).
    rewrite Hn in Hm. injection Hm as <-. apply Hnot. set_solver.
  - intros x [->|Hx]%elem_of_cons; [by exists n|]. destruct (Hl x Hx) as (m & Hm & Hnot).
    exists m. split; [done|set_solver].
Qed.

(** What the loop gives from [k] calls made: the result, the calls it adds. *)
Definition loop_post (reg : Registry) (k n : nat) (cap : string) (attempted : gset string)
    (initial : option string) (retries : Z) (pname preference : option string)
    (o : res (A * ExecutionTrace)) (l : list nat) : Prop :=
  fresh_calls reg attempted l /\ (length l <= n)%nat /\
  match o with
  | Ok (a, tr) => exists l' r first_name, l = l' ++ [r] /\ all_failed cap k l' /\
      called cap (k + length l') r (Ok a) /\ find_name reg r = Some (tr_final tr) /\
      (l !! 0%nat ≫= find_name reg) = Some first_name /\
      tr_initial tr = default first_name initial /\
      tr_retries tr = retries + Z.of_nat (length l')
  | Err e => exn_cls e = RuntimeExecutionError /\ all_failed cap k l /\
      (length l = n \/ nothing_left reg cap attempted pname preference l)
  end.

Lemma loop_post_fail reg k n cap attempted initial retries pname preference o l r nm e :
  find_name reg r = Some nm -> (nm ∉ attempted) -> called cap k r (Err e) ->
  loop_post reg (S k) n cap ({[nm]} ∪ attempted) (Some (default nm initial)) (retries + 1)
    pname preference o l ->
  loop_post reg k (S n) cap attempted initial retries pname preference o (r :: l).
Proof.
  intros Hn Hnew Hcall (Hfresh & Hlen & Ho). split; [by eapply fresh_calls_cons|].
  split; [cbn; lia|]. destruct o as [[a tr]|e'].
  - destruct Ho as (l' & r' & nm' & -> & Hf & Hc & Hfin & _ & Hini & Hret).
    exists (r :: l'), r', nm. split; [done|]. split; [by eapply all_failed_cons|].
    cbn [length]. rewrite Nat.add_succ_r. split_and!; try done. rewrite Hret. lia.
  - destruct Ho as (Hcls & Hf & Hend). split; [done|]. split; [by eapply all_failed_cons|].
    destruct Hend as [<-|(w1 & Hw1 & Hex)]; [by left|]. right. exists w1. split; [done|].
    replace (names_of reg (r :: l) ∪ attempted) with (names_of reg l ∪ ({[nm]} ∪ attempted)); [done|].
    unfold names_of. cbn [omap list_omap]. rewrite Hn. set_solver.
Qed.

Lemma loop_post_raise reg k n cap attempted initial retries pname preference e :
  exn_cls e = RuntimeExecutionError ->
  (0%nat = n \/ nothing_left reg cap attempted pname preference []) ->
  loop_post reg k n cap attempted initial retries pname preference (Err e) [].
Proof.
  intros Hcls Hend. split; [|split; [cbn; lia|split; [done|split; [|done]]]].
  - split; [constructor|]. by intros r Hr%not_elem_of_nil.
  - by intros i r Hi.
Qed.

Lemma loop_post_success reg k n cap attempted initial reason retries pname preference r nm a :
  find_name reg r = Some nm -> (nm ∉ attempted) -> called cap k r (Ok a) -> 0 <= retries ->
  loop_post reg k (S n) cap attempted initial retries pname preference
    (Ok (a, mkTrace (default nm initial) nm (Z.max 0 retries) reason)) [r].
Proof.
  intros Hn Hnew Hcall Hret. split; [|split; [cbn; lia|]].
  - split; [apply NoDup_singleton|]. intros x ->%list_elem_of_singleton. by exists nm.
  - exists [], r, nm. cbn. rewrite Nat.add_0_r, Hn. split_and!; try done. lia.
Qed.

Lemma bind_answer {B C} (m : M World B) (f : B -> M World C) w :
  answers m w -> exists b w1, same_world w w1 /\ bind m f w = f b w1.
Proof. intros (b & w1 & Hm & Hs). exists b, w1. split; [done|]. unfold bind. by rewrite Hm. Qed.

(** Step over the operations that answer, keeping that the world is the same. *)
Ltac step_answer tac :=
  match goal with
  | |- context [bind ?m ?f ?w] =>
      let b := fresh "b" in let w1 := fresh "w" in
      let Hs := fresh "Hs" in let Hrun := fresh "Hrun" in
      destruct (bind_answer m f w) as (b & w1 & Hs & Hrun); [tac|rewrite Hrun; clear Hrun]
  end.

Lemma attempts_spec cap pname preference allow n :
  forall attempted initial retries reason w, unaliased (w_registry w) -> 0 <= retries ->
  exists o w' l,
    attempts mono wall cfg exn_text executor n cap pname preference allow attempted initial retries
      reason w = (o, w') /\
    w_registry w' = w_registry w /\ w_calls w' = w_calls w ++ l /\
    loop_post (w_registry w) (length (w_calls w)) n cap attempted initial retries pname preference o l.
Proof.
  induction n as [|n IH]; intros attempted initial retries reason w Hreg Hret.
  { eexists _, w, []. cbn [attempts]. split; [reflexivity|]. rewrite app_nil_r.
    split_and!; try done. apply loop_post_raise; [done|by left]. }
  cbn [attempts]. unfold bind at 1, catch.
  destruct (resolve_resolves w cap attempted Hreg pname preference allow w) as (o & w1 & Hres & Hs1 & Ho);
    [reflexivity|]. rewrite Hres. destruct o as [r|e].
  2:{ destruct Ho as [Hcls Hex]. rewrite bool_decide_eq_true_2 by done.
      eexists _, w1, []. split; [reflexivity|]. destruct Hs1 as (_ & Hr1 & Hc1).
      rewrite app_nil_r. split_and!; try done. apply loop_post_raise; [done|right].
      exists w. split; [done|]. unfold names_of. cbn [omap list_omap list_to_set].
      by rewrite (left_id_L ∅ (∪)). }
  destruct Ho as (nm & Hd & Hnew & Hcap & Hh).
  pose proof (unaliased_name _ _ _ Hreg Hd) as Hn. pose proof Hs1 as (Hh1 & Hr1 & Hc1).
  unfold bind at 1, name_of at 1, bind at 1, get, ret at 1. rewrite Hr1, Hn.
  unfold publish_event. step_answer ltac:(apply answers_publish).
  step_answer ltac:(apply answers_publish). step_answer ltac:(apply answers_read).
  assert (Hsame : same_world w w3) by (do 3 (etransitivity; [eassumption|]); done).
  clear Hs Hs0 Hs2. destruct Hsame as (Hh4 & Hr4 & Hc4).
  unfold bind at 1, run_on. rewrite Hh4, Hr4, Hc4.
  destruct (executor (length (w_calls w)) r (w_heap w)) as [out h'] eqn:Hexec.
  assert (Hcalled : called cap (length (w_calls w)) r out) by (exists (w_heap w), h'; done).
  step_answer ltac:(apply answers_read). destruct out as [a|e].
  - step_answer ltac:(apply answers_publish).
    match goal with |- context [attempt_succeeded _ _ _ _ ?i _ _ _ ?wk] =>
      destruct (succeeded_answers cap nm i retries reason a wk) as (w' & Hrun & Hs') end.
    rewrite Hrun. eexists _, w', [r]. split; [reflexivity|].
    assert (Hsw : same_world (mkWorld h' (w_registry w) (w_breakers w3) (w_metrics w3) (w_buses w3)
      (w_calls w ++ [r]) (w_reads w3)) w') by (do 2 (etransitivity; [eassumption|]); done).
    destruct Hsw as (_ & Hr' & Hc'). split; [exact Hr'|]. split; [exact Hc'|].
    by apply loop_post_success.
  - step_answer ltac:(apply answers_failed).
    assert (Hsw : same_world (mkWorld h' (w_registry w) (w_breakers w3) (w_metrics w3) (w_buses w3)
      (w_calls w ++ [r]) (w_reads w3)) w5) by (etransitivity; eassumption).
    destruct Hsw as (_ & Hr' & Hc'). cbn in Hr', Hc'.
    destruct (IH ({[nm]} ∪ attempted) (Some (default nm initial)) (retries + 1) b3 w5) as
      (o & w' & l & Hrun & Hreg' & Hcalls' & Hpost); [by rewrite Hr'|lia|].
    exists o, w', (r :: l). split; [exact Hrun|]. split; [congruence|].
    split; [by rewrite Hcalls', Hc', <- app_assoc|].
    rewrite Hr', Hc', length_app, Nat.add_comm in Hpost.
    by eapply loop_post_fail.
Qed.
(** Execution with failover.  No runtime is called twice and at most
    [max_retries + 1] are called, each of them capable and healthy when it is.
    On success the last call succeeded, the ones before it failed, and the trace
    names the first and the last and counts the failures.  On failure every
    call failed, and either the budget is spent or nothing was left to try. *)
Theorem execution_outcome cap pname preference allow w :
  let reg := w_registry w in
  let k := length (w_calls w) in
  unaliased reg ->
  exists o w' l,
    execute_with_recovery mono wall cfg exn_text executor cap pname preference allow w = (o, w') /\
    w_registry w' = reg /\ w_calls w' = w_calls w ++ l /\
    NoDup l /\ Z.of_nat (length l) <= max_retries cfg + 1 /\
    match o with
    | Ok (a, tr) => exists l' r, l = l' ++ [r] /\ all_failed cap k l' /\
        called cap (k + length l') r (Ok a) /\
        (l !! 0%nat ≫= find_name reg) = Some (tr_initial tr) /\
        find_name reg r = Some (tr_final tr) /\ tr_retries tr = Z.of_nat (length l')
    | Err e => exn_cls e = RuntimeExecutionError /\ all_failed cap k l /\
        (Z.of_nat (length l) = max_retries cfg + 1 \/ nothing_left reg cap ∅ pname preference l)
    end.
Proof.
  intros reg k Hreg. unfold execute_with_recovery.
  assert (Hn : Z.of_nat (Z.to_nat (max_retries cfg + 1)) = max_retries cfg + 1)
    by (unfold max_retries; lia).
  destruct (attempts_spec cap pname preference allow (Z.to_nat (max_retries cfg + 1)) ∅ None 0 None w
    Hreg) as (o & w' & l & Hrun & Hr & Hc & [Hnd _] & Hlen & Ho); [lia|].
  exists o, w', l. split_and!; try done; [lia|]. destruct o as [[a tr]|e].
  - destruct Ho as (l' & r & nm & Hl & Hf & Hcall & Hfin & Hini & Hin & Hret).
    exists l', r. split_and!; try done. rewrite Hin. exact Hini.
  - destruct Ho as (? & ? & [Hl|?]); split_and!; try done; [left; lia|by right].
Qed.
End proofs.

(** ** Two runtimes, the first of which fails *)

Definition demo_runtime (name : string) : Runtime :=
  mkRuntime name (Some {["chat"]}) RuntimeStatus.STARTED.

Definition demo_world (reg : Registry) : World :=
  mkWorld (fun r => demo_runtime (if decide (r = 0%nat) then "alpha" else "beta")) reg [] []
    (fun _ => new_bus 10) [] 0.

Definition demo_router : RouterConfig :=
  mkRouter (mkContext (Some 0%nat) (Some "beta")) true (Some (mkRecovery 3 30000 None)) (Some 0%nat) 2.

Definition demo_executor : nat -> nat -> heap -> res string * heap := fun k r h =>
  (if decide (r = 0%nat) then Err (Exn ForeignError []) else Ok "done", h).

Definition demo_execute (reg : Registry) : res (string * ExecutionTrace) * World :=
  execute_with_recovery Z.of_nat Z.of_nat demo_router (fun _ => "boom") demo_executor "chat" None None
    true (demo_world reg).

Lemma demo_unaliased : unaliased [("alpha", 0%nat); ("beta", 1%nat)].
Proof.
  split; [by apply (bool_decide_unpack _)|]. intros n1 n2 r. cbn.
  repeat case_decide; intros; simplify_eq/=; done.
Qed.

(** The failed runtime is left for the fallback. *)
Example demo_failover :
  (demo_execute [("alpha", 0%nat); ("beta", 1%nat)]).1
  = Ok ("done", mkTrace "alpha" "beta" 1 (Some "runtime_failure")).
Proof. vm_compute. reflexivity. Qed.

(** An object registered under two names is called again after it failed: the
    names tried are those of [find_name], while the fallback is skipped by its
    own name. *)
Example demo_alias_called_twice :
  w_calls (demo_execute [("alpha", 0%nat); ("beta", 0%nat)]).2 = [0%nat; 0%nat; 0%nat].
Proof. vm_compute. reflexivity. Qed.

Lemma resolve_outcome_witness :
  exists o w', resolve_runtime Z.of_nat Z.of_nat demo_router "chat" {["alpha"]} None None true
      (demo_world [("alpha", 0%nat); ("beta", 1%nat)]) = (o, w') /\
    same_world (demo_world [("alpha", 0%nat); ("beta", 1%nat)]) w' /\
    match o with
    | Ok r => usable (demo_world [("alpha", 0%nat); ("beta", 1%nat)]) "chat" {["alpha"]} r
    | Err e => exn_cls e = RuntimeExecutionError /\
        exhausted Z.of_nat Z.of_nat demo_router (demo_world [("alpha", 0%nat); ("beta", 1%nat)])
          "chat" {["alpha"]} None None
    end.
Proof. apply resolve_outcome. exact demo_unaliased. Defined.

Lemma execution_outcome_witness :
  exists o w' l,
    demo_execute [("alpha", 0%nat); ("beta", 1%nat)] = (o, w') /\
    w_calls w' = l /\ NoDup l /\ Z.of_nat (length l) <= 3.
Proof.
  destruct (execution_outcome Z.of_nat Z.of_nat demo_router (fun _ => "boom") demo_executor "chat" None
    None true (demo_world [("alpha", 0%nat); ("beta", 1%nat)]) demo_unaliased)
    as (o & w' & l & Hrun & _ & Hcalls & Hnd & Hlen & _).
  exists o, w', l. split; [exact Hrun|]. split; [exact Hcalls|]. by split.
Defined.
