(* ===== verification/RuntimeDecision.v ===== *)
(** * The adaptive decision engine ([backend/ral/runtime_decision.py])

    [RuntimeDecisionEngine]: every registered runtime is scored from its
    health, its performance metrics, its capabilities, the preferences and its
    circuit; the best score is selected.  The engine reads the shared [World]
    and the performance analyzer, and both reads leave traces in them.  Floats
    are rationals. *)
From stdpp Require Import base gmap strings list sets sorting pretty.
From Stdlib Require Import ZArith QArith Qminmax Ascii Lia Lqa.
From S2P Require Import Prelude.
From S2P Require Import RuntimeEvents.
From S2P Require Import RuntimeRegistry.
From S2P Require Import RuntimeRecovery.
From S2P Require Import RuntimeHealth.
From S2P Require Import RuntimePolicy.
#[local] Open Scope Z_scope.

Record DecisionScore := mkScore {
  sc_runtime : string;
  sc_final : Q;
  sc_health : Q;
  sc_reliability : Q;
  sc_performance : Q;
  sc_capability : Q;
  sc_policy : Q;
  sc_circuit : Q;
  sc_meta : pydict pyval
}.

Record RuntimeDecision := mkDecision {
  de_selected : string;
  de_confidence : Q;
  de_score : Q;
  de_reason : string;
  de_candidates : list DecisionScore;
  de_time : Z
}.

Record DecisionWeights := mkWeights {
  wt_health : Q;
  wt_performance : Q;
  wt_reliability : Q;
  wt_capability : Q;
  wt_policy : Q;
  wt_circuit : Q
}.

Definition default_weights : DecisionWeights := mkWeights 1 1 1 1 1 1.

(** The engine's collaborators that its calls do not change. *)
Record DecisionConfig := mkDecisionCfg {
  dc_recovery : RecoveryConfig;
  dc_policies : option Engine;
  dc_weights : DecisionWeights
}.

(** What its calls read and change. *)
Record DecisionState := mkDecisionState {
  ds_world : World;
  ds_perf : Analyzer
}.

Definition decision_error (template : string) (args : list string) : exn :=
  Exn RuntimeDecisionError [Msg template args].

Definition health_value (s : RuntimeHealthStatus.t) : string :=
  match s with
  | RuntimeHealthStatus.AVAILABLE => "available"
  | RuntimeHealthStatus.DEGRADED => "degraded"
  | RuntimeHealthStatus.UNAVAILABLE => "unavailable"
  | RuntimeHealthStatus.UNKNOWN => "unknown"
  end.

Definition health_points (s : RuntimeHealthStatus.t) : Q :=
  match s with
  | RuntimeHealthStatus.AVAILABLE => 200
  | RuntimeHealthStatus.DEGRADED => 80
  | RuntimeHealthStatus.UNAVAILABLE => 0
  | RuntimeHealthStatus.UNKNOWN => 20
  end.

(** [policy_score] *)
Definition preference_points (name : string) (preference pname policy_preferred : option string) : Q :=
  let p1 := match pname with Some n => if decide (name = n) then 100%Q else 0%Q | None => 0%Q end in
  let p2 := match preference with
            | Some p => if contains (lower p) (lower name) then Qmax p1 50 else p1
            | None => p1
            end in
  match policy_preferred with
  | Some n => if decide (name = n) then Qmax p2 100 else p2
  | None => p2
  end.

(** The provider of the context: the preference, when it is a known one. *)
Definition context_provider (preference : option string) : option string :=
  match preference with
  | Some p => if decide (lower p = "local") then Some "local"
              else if decide (lower p = "cloud") then Some "cloud" else None
  | None => None
  end.

Section operations.
Context `{!SetOrder}.
Variables mono wall : nat -> Z.
Variable cfg : DecisionConfig.
Variable exn_text : exn -> string.

Definition in_world {A} (m : M World A) : M DecisionState A :=
  zoom ds_world (fun w s => mkDecisionState w (ds_perf s)) m.

(** [self._performance_analyzer.get_metrics(name)] *)
Definition perf_metrics (name : string) : M DecisionState PerformanceMetrics := fun s =>
  let '(m, a) := get_metrics (ds_perf s) name in (Ok m, mkDecisionState (ds_world s) a).

(** The context of [_build_context] from the metrics it reads. *)
Definition context_of (perf : PerformanceMetrics) (name cap : string) (preference : option string)
    : RuntimeExecutionContext :=
  mkExecCtx cap (Some name) (context_provider preference) None None None None
    (if 0 <? pm_executions perf then Some (pm_avg_latency perf) else None)
    (Some (pm_reliability perf)) [].

(** [_build_context] *)
Definition build_context (name cap : string) (preference : option string)
    : M DecisionState RuntimeExecutionContext :=
  perf <- perf_metrics name ;; ret (context_of perf name cap preference).

(** The policy part: the preferred runtime and the reason of the policy. *)
Definition policy_part (name cap : string) (preference : option string)
    : M DecisionState (option string * option string) :=
  match dc_policies cfg with
  | None => ret (None, None)
  | Some engine =>
      ctx <- build_context name cap preference ;;
      let result := evaluate engine ctx in
      if negb (res_allowed result)
      then raise (decision_error "Runtime '{}' rejected by policy '{}': {}"
             [name; res_policy result; default "None" (render <$> res_reason result)])
      else ret (res_preferred_runtime result, render <$> res_reason result)
  end.

(** [try: check_runtime  except Exception]: the status, and the error's text. *)
Definition health_part (name : string)
    : M DecisionState (RuntimeHealthStatus.t * option string) :=
  catch (h <- in_world (check_runtime wall name) ;; ret (h, None)) (fun _ => true)
    (fun e => ret (RuntimeHealthStatus.UNKNOWN, Some (exn_text e))).

Definition opt_item (key : string) (o : option string) : pydict pyval :=
  match o with Some v => [(key, PStr v)] | None => [] end.

(** The score built from what was read. *)
Definition score_of (rt : Runtime) (name cap : string) (preference pname policy_preferred : option string)
    (reason : option string) (health : RuntimeHealthStatus.t * option string)
    (perf : PerformanceMetrics) (allowed : bool) : DecisionScore :=
  let w := dc_weights cfg in
  let reliability := (pm_reliability perf * (5 # 2))%Q in
  let performance := (pm_performance perf * 2)%Q in
  let capability := if match rt_caps rt with
                       | Some caps => bool_decide (cap ∈ caps)
                       | None => false
                       end then 150%Q else 0%Q in
  let policy := preference_points name preference pname policy_preferred in
  let penalty := if negb allowed then (100 * wt_circuit w)%Q else 0%Q in
  let raw := (health_points health.1 * wt_health w + reliability * wt_reliability w
              + performance * wt_performance w + capability * wt_capability w
              + policy * wt_policy w - penalty)%Q in
  mkScore name (Qmax 0 raw) (health_points health.1 * wt_health w) (reliability * wt_reliability w)
    (performance * wt_performance w) (capability * wt_capability w) (policy * wt_policy w) penalty
    (opt_item "policy_preferred" policy_preferred ++ opt_item "policy_reason" reason ++
     opt_item "health_error" health.2 ++ [("health_status", PStr (health_value health.1))] ++
     (if negb allowed then [("circuit_state", PStr "open")] else []) ++
     [("executions", PInt (pm_executions perf)); ("successes", PInt (pm_successes perf));
      ("failures", PInt (pm_failures perf))]).

(** [evaluate_runtime] *)
Definition evaluate_runtime (name cap : string) (preference pname : option string)
    : M DecisionState DecisionScore :=
  s <- get ;;
  match reg_get (w_registry (ds_world s)) name with
  | Err _ => raise (decision_error "Runtime '{}' is not registered." [name])
  | Ok r =>
      policy <- policy_part name cap preference ;;
      health <- health_part name ;;
      perf <- perf_metrics name ;;
      allowed <- in_world (should_retry mono (dc_recovery cfg) name) ;;
      s' <- get ;;
      ret (score_of (w_heap (ds_world s') r) name cap preference pname policy.1
             policy.2 health perf allowed)
  end.

Definition is_decision_error (c : exn_class) : bool := bool_decide (c = RuntimeDecisionError).

(** The loop of [rank_candidates]. *)
Fixpoint score_all (names : list string) (cap : string) (preference pname : option string)
    : M DecisionState (list DecisionScore) :=
  match names with
  | [] => ret []
  | n :: names' =>
      o <- catch (sc <- evaluate_runtime n cap preference pname ;; ret (Some sc)) is_decision_error
             (fun _ => ret None) ;;
      rest <- score_all names' cap preference pname ;;
      ret (option_list o ++ rest)
  end.

(** [sort(key=final_score, reverse=True)], a stable sort. *)
Definition scored_higher (x y : DecisionScore) : Prop := (sc_final y <= sc_final x)%Q.

#[export] Instance scored_higher_dec : RelDecision scored_higher.
Proof.
  intros x y. unfold scored_higher.
  destruct (Qlt_le_dec (sc_final x) (sc_final y)) as [Hlt|Hle]; [right|by left].
  intros Hle. by apply (Qlt_not_le _ _ Hlt).
Defined.

(** [rank_candidates] *)
Definition rank_candidates (cap : string) (preference pname : option string)
    : M DecisionState (list DecisionScore) :=
  s <- get ;;
  scores <- score_all (list_available (w_registry (ds_world s))) cap preference pname ;;
  ret (sort_by scored_higher scores).

(** [explain_decision] *)
Definition part_if (q : Q) (text : string) : list string :=
  if Qle_bool q 0 then [] else [text].

Definition explain_decision (chosen : DecisionScore) (candidates : list DecisionScore) : string :=
  let head := "Selected runtime '" +:+ sc_runtime chosen +:+ "' (final score: "
              +:+ fixed 1 (sc_final chosen) +:+ "/1000)." in
  let parts :=
    part_if (sc_health chosen) ("health=" +:+ fixed 0 (sc_health chosen) +:+ "/200") ++
    part_if (sc_reliability chosen) ("reliability=" +:+ fixed 0 (sc_reliability chosen) +:+ "/250") ++
    part_if (sc_performance chosen) ("performance=" +:+ fixed 0 (sc_performance chosen) +:+ "/200") ++
    part_if (sc_capability chosen) ("capability=" +:+ fixed 0 (sc_capability chosen) +:+ "/150") ++
    part_if (sc_policy chosen) ("policy=" +:+ fixed 0 (sc_policy chosen) +:+ "/100") ++
    part_if (sc_circuit chosen) ("circuit_penalty=-" +:+ fixed 0 (sc_circuit chosen)) in
  let others := List.filter (fun s => negb (String.eqb (sc_runtime s) (sc_runtime chosen))) candidates in
  let runners := match others with
                 | [] => []
                 | _ => "  Runners-up:"
                        :: map (fun s => "    - " +:+ sc_runtime s +:+ ": " +:+ fixed 1 (sc_final s)
                                         +:+ "/1000") (take 3 others)
                 end in
  String.concat (String "010" EmptyString)
    ([head] ++
     match parts with [] => [] | _ => ["  Scores: " +:+ String.concat ", " parts] end ++
     runners ++
     ["Evaluated " +:+ pretty (length candidates) +:+ " candidate(s) for the requested capability."]).

(** The confidence in the first of the ranked candidates. *)
Definition confidence_of (best : DecisionScore) (others : list DecisionScore) : Q :=
  let alone := if Qle_bool (sc_final best) 0 then 0%Q else (sc_final best / 1000)%Q in
  match others with
  | [] => alone
  | second :: _ =>
      if Qle_bool (sc_final second) 0 then alone
      else Qmin (sc_final best / Qmax (sc_final second) 1 / 2) 1
  end.

(** [select_runtime] *)
Definition select_runtime (cap : string) (preference pname : option string) (min_confidence : Q)
    : M DecisionState RuntimeDecision :=
  candidates <- rank_candidates cap preference pname ;;
  match candidates with
  | [] => raise (decision_error "No candidate runtime available for capability '{}'{}."
            [cap; match preference with
                  | Some p => if decide (p = "") then "" else " with preference '" +:+ p +:+ "'"
                  | None => ""
                  end])
  | best :: others =>
      let confidence := confidence_of best others in
      if negb (Qle_bool min_confidence confidence)
      then raise (decision_error
             "Best candidate '{}' (score={}) does not meet minimum confidence threshold {}."
             [sc_runtime best; fixed 1 (sc_final best); fixed 2 min_confidence])
      else
        now <- in_world (read_clock wall) ;;
        ret (mkDecision (sc_runtime best) (Qmin confidence 1) (sc_final best)
               (explain_decision best candidates) candidates now)
  end.
End operations.

(** * Properties *)

#[export] Instance scored_higher_trans : Transitive scored_higher.
Proof. intros x y z Hxy Hyz. by apply (Qle_trans _ (sc_final y)). Qed.

#[export] Instance scored_higher_total : Total scored_higher.
Proof.
  intros x y. unfold scored_higher. destruct (Qlt_le_dec (sc_final x) (sc_final y)) as [Hlt|Hle];
    [right; by apply Qlt_le_weak|by left].
Qed.

Section proofs.
Context `{!SetOrder}.
Variables mono wall : nat -> Z.
Variable cfg : DecisionConfig.
Variable exn_text : exn -> string.

(** Two states that score runtimes alike, the circuits apart. *)
Definition same_scoring (s s' : DecisionState) : Prop :=
  same_world (ds_world s) (ds_world s') /\
  forall k, calculate_metrics (ds_perf s') k = calculate_metrics (ds_perf s) k.

#[local] Instance same_scoring_preorder : PreOrder same_scoring.
Proof.
  split; [intros s; split; [reflexivity|done]|].
  intros s1 s2 s3 [Hw Hp] [Hw' Hp']. split; [by etransitivity|]. intros k. by rewrite Hp'.
Qed.

Lemma perf_metrics_spec name s :
  exists s', perf_metrics name s = (Ok (calculate_metrics (ds_perf s) name), s') /\ same_scoring s s'.
Proof.
  eexists. split; [reflexivity|]. split; [reflexivity|]. intros k. apply calculate_touch.
Qed.

Lemma in_world_spec {A} (m : M World A) s a w' :
  m (ds_world s) = (Ok a, w') -> same_world (ds_world s) w' ->
  exists s', in_world m s = (Ok a, s') /\ same_scoring s s'.
Proof.
  intros Hm Hs. unfold in_world, zoom. rewrite Hm. eexists. split; [reflexivity|]. by split.
Qed.

(** The policies let the runtime through. *)
Definition allowed_by_policy (s : DecisionState) (cap : string) (preference : option string)
    (name : string) : bool :=
  match dc_policies cfg with
  | None => true
  | Some engine =>
      res_allowed (evaluate engine (context_of (calculate_metrics (ds_perf s) name) name cap preference))
  end.

(** The runtime the policies prefer. *)
Definition policy_preferred (s : DecisionState) (cap : string) (preference : option string)
    (name : string) : option string :=
  match dc_policies cfg with
  | None => None
  | Some engine => res_preferred_runtime
      (evaluate engine (context_of (calculate_metrics (ds_perf s) name) name cap preference))
  end.

Lemma allowed_by_policy_same s s' cap preference name :
  same_scoring s s' -> allowed_by_policy s' cap preference name = allowed_by_policy s cap preference name.
Proof. intros [_ Hp]. unfold allowed_by_policy. by rewrite Hp. Qed.

Lemma policy_preferred_same s s' cap preference name :
  same_scoring s s' -> policy_preferred s' cap preference name = policy_preferred s cap preference name.
Proof. intros [_ Hp]. unfold policy_preferred. by rewrite Hp. Qed.

Lemma policy_part_spec name cap preference s :
  exists o s', policy_part cfg name cap preference s = (o, s') /\ same_scoring s s' /\
    match o with
    | Ok p => allowed_by_policy s cap preference name = true /\
        p.1 = policy_preferred s cap preference name
    | Err e => allowed_by_policy s cap preference name = false /\ exn_cls e = RuntimeDecisionError
    end.
Proof.
  unfold policy_part, allowed_by_policy, policy_preferred. destruct (dc_policies cfg) as [engine|].
  2:{ by eexists _, s. }
  unfold build_context, bind at 1, bind at 1.
  destruct (perf_metrics_spec name s) as (s1 & -> & Hs). unfold ret at 1.
  destruct (evaluate engine _) as [al pol rea prun ppro nap meta]. cbn.
  destruct al; cbn; eexists _, s1; (split; [reflexivity|done]).
Qed.

Lemma health_part_spec name r s :
  dget (w_registry (ds_world s)) name = Some r ->
  exists s', health_part wall exn_text name s = (Ok (health_of (w_heap (ds_world s) r), None), s') /\
    same_scoring s s'.
Proof.
  intros Hr. destruct (check_runtime_spec wall name (ds_world s) name) as (w' & Hrun & _).
  rewrite Hr in Hrun.
  assert (Hs : same_world (ds_world s) w').
  { pose proof (quiet_check_runtime wall name (ds_world s)) as Hq. by rewrite Hrun in Hq. }
  destruct (in_world_spec (check_runtime wall name) s _ _ Hrun Hs) as (s' & Hin & Hss).
  exists s'. split; [|done]. unfold health_part, catch, bind. by rewrite Hin.
Qed.

(** What [evaluate_runtime] answers for a registered runtime. *)
Lemma evaluate_runtime_spec name cap preference pname s r :
  dget (w_registry (ds_world s)) name = Some r ->
  exists o s', evaluate_runtime mono wall cfg exn_text name cap preference pname s = (o, s') /\
    same_scoring s s' /\
    match o with
    | Ok sc => allowed_by_policy s cap preference name = true /\ exists reason circuit_closed,
        sc = score_of cfg (w_heap (ds_world s) r) name cap preference pname
               (policy_preferred s cap preference name) reason
               (health_of (w_heap (ds_world s) r), None) (calculate_metrics (ds_perf s) name) circuit_closed
    | Err e => allowed_by_policy s cap preference name = false /\ exn_cls e = RuntimeDecisionError
    end.
Proof.
  intros Hr. unfold evaluate_runtime, bind at 1, get, reg_get. rewrite Hr. unfold bind at 1.
  destruct (policy_part_spec name cap preference s) as (o & s1 & Hrun & Hs1 & Ho). rewrite Hrun.
  destruct o as [p|e]; [|by eexists _, s1]. destruct Ho as [Hal Hp].
  assert (Hreg1 : w_registry (ds_world s1) = w_registry (ds_world s)) by apply Hs1.
  unfold bind at 1. destruct (health_part_spec name r s1) as (s2 & -> & Hs2); [by rewrite Hreg1|].
  unfold bind at 1. destruct (perf_metrics_spec name s2) as (s3 & -> & Hs3).
  unfold bind at 1. destruct (should_retry_spec mono (dc_recovery cfg) name (ds_world s3))
    as (w4 & Hretry & Hw4 & _).
  destruct (in_world_spec _ s3 _ _ Hretry Hw4) as (s4 & -> & Hs4).
  unfold bind at 1, get, ret.
  assert (Hs : same_scoring s s4) by (do 3 (etransitivity; [eassumption|]); done).
  eexists _, s4. split; [reflexivity|]. split; [done|]. split; [done|].
  assert (Hheap4 : w_heap (ds_world s4) = w_heap (ds_world s)) by apply Hs.
  assert (Hheap1 : w_heap (ds_world s1) = w_heap (ds_world s)) by apply Hs1.
  assert (Hperf : calculate_metrics (ds_perf s2) name = calculate_metrics (ds_perf s) name).
  { by destruct (transitivity Hs1 Hs2) as [_ ->]. }
  rewrite Hheap4, Hheap1, Hperf, Hp. by eexists _, _.
Qed.

(** The scores of the runtimes [names] that the policies let through. *)
Definition scored_from (s : DecisionState) (cap : string) (preference pname : option string)
    (sc : DecisionScore) : Prop :=
  exists r reason circuit_closed, dget (w_registry (ds_world s)) (sc_runtime sc) = Some r /\
    sc = score_of cfg (w_heap (ds_world s) r) (sc_runtime sc) cap preference pname
           (policy_preferred s cap preference (sc_runtime sc)) reason
           (health_of (w_heap (ds_world s) r), None)
           (calculate_metrics (ds_perf s) (sc_runtime sc)) circuit_closed.

Lemma scored_from_same s s' cap preference pname sc :
  same_scoring s s' -> scored_from s' cap preference pname sc -> scored_from s cap preference pname sc.
Proof.
  intros Hs (r & reason & closed & Hr & Hsc). pose proof Hs as [(Hh & Hreg & _) Hp].
  exists r, reason, closed. split; [by rewrite <- Hreg|].
  by rewrite Hh, Hp, (policy_preferred_same s s' _ _ _ Hs) in Hsc.
Qed.

Lemma score_all_spec names cap preference pname s :
  (forall n, n ∈ names -> is_Some (dget (w_registry (ds_world s)) n)) ->
  exists scores s', score_all mono wall cfg exn_text names cap preference pname s = (Ok scores, s') /\
    same_scoring s s' /\
    map sc_runtime scores = List.filter (allowed_by_policy s cap preference) names /\
    forall sc, sc ∈ scores -> scored_from s cap preference pname sc.
Proof.
  revert s. induction names as [|n names IH]; intros s Hreg.
  { exists [], s. split_and!; try done. by intros sc Hsc%not_elem_of_nil. }
  destruct (Hreg n ltac:(set_solver)) as [r Hr].
  destruct (evaluate_runtime_spec n cap preference pname s r Hr) as (o & s1 & Hrun & Hs1 & Ho).
  destruct (IH s1) as (rest & s2 & Hrest & Hs2 & Hnames & Hscored).
  { intros m Hm. destruct Hs1 as [(_ & -> & _) _]. apply Hreg. set_solver. }
  assert (Hs : same_scoring s s2) by (etransitivity; eassumption).
  assert (Hfilter : List.filter (allowed_by_policy s1 cap preference) names
    = List.filter (allowed_by_policy s cap preference) names).
  { apply List.filter_ext. intros m. by apply allowed_by_policy_same. }
  assert (Hback : forall sc, sc ∈ rest -> scored_from s cap preference pname sc).
  { intros sc Hsc. eapply scored_from_same; [exact Hs1|by apply Hscored]. }
  cbn [score_all]. unfold bind at 1, catch, bind at 1. rewrite Hrun. destruct o as [sc|e].
  - destruct Ho as (Hal & reason & closed & Hsc). unfold ret at 1, bind. rewrite Hrest.
    exists (sc :: rest), s2. split_and!; [done|done| |].
    + cbn. rewrite Hal, Hnames, Hfilter. by subst sc.
    + intros sc' [->|Hin]%elem_of_cons; [|by apply Hback].
      exists r, reason, closed. by subst sc.
  - destruct Ho as (Hal & He). unfold is_decision_error. rewrite bool_decide_eq_true_2 by done.
    unfold ret at 1, bind. rewrite Hrest. exists rest, s2. split_and!; [done|done| |exact Hback].
    cbn. by rewrite Hal, Hnames, Hfilter.
Qed.

Lemma rank_candidates_spec cap preference pname s :
  exists scores s', rank_candidates mono wall cfg exn_text cap preference pname s = (Ok scores, s') /\
    same_scoring s s' /\ StronglySorted scored_higher scores /\
    map sc_runtime scores
      ≡ₚ List.filter (allowed_by_policy s cap preference) (list_available (w_registry (ds_world s))) /\
    forall sc, sc ∈ scores -> scored_from s cap preference pname sc.
Proof.
  destruct (score_all_spec (list_available (w_registry (ds_world s))) cap preference pname s)
    as (scores & s' & Hrun & Hs & Hnames & Hscored).
  { intros n Hn. by apply dget_is_Some, elem_list_available. }
  exists (sort_by scored_higher scores), s'. unfold rank_candidates, bind at 1, get, bind. rewrite Hrun.
  split_and!; [done|done|exact (sort_by_sorted scored_higher scores)| |].
  - rewrite <- Hnames. apply Permutation_map, sort_by_perm.
  - intros sc Hsc. rewrite (sort_by_perm scored_higher) in Hsc. by apply Hscored.
Qed.
(** A registered runtime that the policies let through. *)
Definition candidate (s : DecisionState) (cap : string) (preference : option string) (n : string) : Prop :=
  is_Some (dget (w_registry (ds_world s)) n) /\ allowed_by_policy s cap preference n = true.

Lemma ranked_candidate s cap preference scores n :
  map sc_runtime scores
    ≡ₚ List.filter (allowed_by_policy s cap preference) (list_available (w_registry (ds_world s))) ->
  candidate s cap preference n <-> exists sc, sc ∈ scores /\ sc_runtime sc = n.
Proof.
  intros Hperm. unfold candidate.
  transitivity (n ∈ List.filter (allowed_by_policy s cap preference)
    (list_available (w_registry (ds_world s)))).
  - rewrite list_elem_of_In, filter_In, <- list_elem_of_In, elem_list_available, dget_is_Some. done.
  - rewrite <- Hperm, list_elem_of_fmap. split; intros (sc & ? & ?); exists sc; done.
Qed.

(** It raises [RuntimeDecisionError] and nothing else. *)
Lemma select_runtime_raises cap preference pname min s e s' :
  select_runtime mono wall cfg exn_text cap preference pname min s = (Err e, s') -> exn_cls e = RuntimeDecisionError.
Proof.
  destruct (rank_candidates_spec cap preference pname s) as (scores & s1 & Hrun & _).
  unfold select_runtime, bind at 1. rewrite Hrun. destruct scores as [|best others]; [by intros [= <- _]|].
  destruct (Qle_bool min (confidence_of best others)); cbn [negb]; [|by intros [= <- _]].
  unfold bind, in_world, read_clock, zoom. cbn. discriminate.
Qed.

(** The decision.  The runtime selected is a candidate - registered and
    let through by the policies - scored from its own health, metrics and
    capabilities, no candidate has a higher score, and every candidate is
    listed.  The error means that there is no candidate or that the
    confidence in the best one is below the threshold. *)
Theorem select_runtime_outcome cap preference pname min s :
  exists o s', select_runtime mono wall cfg exn_text cap preference pname min s = (o, s') /\
    same_scoring s s' /\
    match o with
    | Ok d => exists best others, de_candidates d = best :: others /\
        de_selected d = sc_runtime best /\ de_score d = sc_final best /\
        (min <= confidence_of best others)%Q /\
        (forall n, candidate s cap preference n <->
           exists sc, sc ∈ de_candidates d /\ sc_runtime sc = n) /\
        forall sc, sc ∈ de_candidates d -> scored_from s cap preference pname sc /\
          (sc_final sc <= sc_final best)%Q
    | Err e => exn_cls e = RuntimeDecisionError /\
        ((forall n, ~ candidate s cap preference n) \/
         exists best others, scored_from s cap preference pname best /\
           (confidence_of best others < min)%Q)
    end.
Proof.
  destruct (rank_candidates_spec cap preference pname s)
    as (scores & s1 & Hrun & Hs & Hsorted & Hnames & Hscored).
  unfold select_runtime, bind at 1. rewrite Hrun.
  pose proof (fun n => ranked_candidate s cap preference scores n Hnames) as Hcand.
  destruct scores as [|best others].
  { eexists _, s1. split; [reflexivity|]. split; [done|]. split; [done|]. left. intros n Hn.
    apply Hcand in Hn as (sc & Hin & _). by apply elem_of_nil in Hin. }
  destruct (Qle_bool min (confidence_of best others)) eqn:Hc; cbn [negb].
  - destruct (in_world_spec (read_clock wall) s1 _ _ eq_refl (quiet_read wall (ds_world s1)))
      as (s2 & Hread & Hs2).
    unfold bind at 1. rewrite Hread. eexists _, s2. split; [reflexivity|].
    split; [by etransitivity|]. exists best, others. split_and!; try done.
    + by apply Qle_bool_iff.
    + intros sc Hin. split; [by apply Hscored|].
      apply elem_of_cons in Hin as [->|Hin]; [apply Qle_refl|].
      by apply (StronglySorted_head scored_higher best others).
  - eexists _, s1. split; [reflexivity|]. split; [done|]. split; [done|]. right.
    exists best, others. split; [apply Hscored; set_solver|].
    apply Qnot_le_lt. intros Hle%Qle_bool_iff. congruence.
Qed.

(** ** The range of the scores *)

Lemma clamp100_bounds q : (0 <= clamp100 q <= 100)%Q.
Proof.
  unfold clamp100. split; [apply Q.le_max_l|].
  apply Q.max_lub; [lra|apply Q.le_min_l].
Qed.

Lemma preference_points_bounds name preference pname preferred :
  (0 <= preference_points name preference pname preferred <= 100)%Q.
Proof.
  unfold preference_points.
  assert (Hmax : forall a b : Q, (0 <= a <= 100)%Q -> (0 <= b <= 100)%Q -> (0 <= Qmax a b <= 100)%Q).
  { intros a b [? ?] [? ?]. split; [|by apply Q.max_lub].
    eapply Qle_trans; [|apply Q.le_max_l]. done. }
  repeat case_match; repeat apply Hmax; lra.
Qed.

Lemma performance_score_bounds avg s f e : (0 <= performance_score avg s f e <= 100)%Q.
Proof. unfold performance_score. destruct (e =? 0); [split; lra|apply clamp100_bounds]. Qed.

Lemma score_of_bounds rt name cap preference pname pp reason health perf closed :
  dc_weights cfg = default_weights ->
  (0 <= pm_reliability perf <= 100)%Q -> (0 <= pm_performance perf <= 100)%Q ->
  (0 <= sc_final (score_of cfg rt name cap preference pname pp reason health perf closed) <= 900)%Q.
Proof.
  intros Hw Hrel Hperf. unfold score_of. rewrite Hw. cbn [sc_final default_weights wt_health
    wt_performance wt_reliability wt_capability wt_policy wt_circuit].
  pose proof (preference_points_bounds name preference pname pp).
  split; [apply Q.le_max_l|]. apply Q.max_lub; [lra|].
  assert (Hh : (health_points health.1 <= 200)%Q) by (destruct health.1; cbn; lra).
  assert (Hcap : ((if match rt_caps rt with Some caps => bool_decide (cap ∈ caps) | None => false end
    then 150 else 0) <= 150)%Q) by (repeat case_match; lra).
  destruct closed; cbn [negb]; lra.
Qed.

(** With the default weights a score is between 0 and 900, whatever was
    recorded for the runtime: the documented maximum of 1000 is never
    reached, nor is a confidence above 9/10 in a lone candidate. *)
Theorem score_bounds name cap preference pname s sc s' :
  dc_weights cfg = default_weights ->
  evaluate_runtime mono wall cfg exn_text name cap preference pname s = (Ok sc, s') ->
  (0 <= sc_final sc <= 900)%Q /\ (confidence_of sc [] <= 9 # 10)%Q.
Proof.
  intros Hw Hrun.
  destruct (dget (w_registry (ds_world s)) name) as [r|] eqn:Hr.
  2:{ unfold evaluate_runtime, bind at 1, get, reg_get in Hrun. rewrite Hr in Hrun. done. }
  destruct (evaluate_runtime_spec name cap preference pname s r Hr) as (o & s1 & Hrun1 & _ & Ho).
  rewrite Hrun in Hrun1. injection Hrun1 as <- <-. destruct Ho as (_ & reason & closed & ->).
  pose proof (score_of_bounds (w_heap (ds_world s) r) name cap preference pname
    (policy_preferred s cap preference name) reason (health_of (w_heap (ds_world s) r), None)
    (calculate_metrics (ds_perf s) name) closed Hw (clamp100_bounds _) (performance_score_bounds _ _ _ _))
    as Hfin.
  set (sc := score_of _ _ _ _ _ _ _ _ _ _ _) in *. split; [exact Hfin|]. unfold confidence_of.
  destruct (Qle_bool _ 0); [lra|].
  apply Qle_shift_div_r; lra.
Qed.
End proofs.

(** ** A runtime without the capability is selected

    [alpha] does not chat but has succeeded before; [beta] chats, is healthy,
    and has no history. *)

Definition demo_config : DecisionConfig := mkDecisionCfg (mkRecovery 3 30 None) None default_weights.

Definition demo_history : list RuntimeEvent :=
  [mkEvent RuntimeEventType.STARTED "alpha" 0 Severity.INFO "" [];
   mkEvent RuntimeEventType.COMPLETED "alpha" 0 Severity.INFO "" [("latency_ms", PInt 20)]].

Definition demo_state : DecisionState :=
  mkDecisionState
    (mkWorld (fun r => if decide (r = 0%nat) then mkRuntime "alpha" (Some {["vision"]}) RuntimeStatus.STARTED
                       else mkRuntime "beta" (Some {["chat"]}) RuntimeStatus.STARTED)
       [("alpha", 0%nat); ("beta", 1%nat)] [] [] (fun _ => new_bus 10) [] 0)
    (analyze demo_history).

Definition demo_select : res RuntimeDecision :=
  (select_runtime Z.of_nat Z.of_nat demo_config (fun _ => "boom") "chat" None None 0 demo_state).1.

Example demo_selects_incapable :
  match demo_select with
  | Ok d => de_selected d = "alpha" /\ map (fun sc => Qeq_bool (sc_capability sc) 0) (de_candidates d) = [true; false]
  | Err _ => False
  end.
Proof. vm_compute. done. Qed.

Example demo_explanation :
  match demo_select with
  | Ok d => String.prefix "Selected runtime 'alpha' (final score: 646.0/1000)." (de_reason d) = true
  | Err _ => False
  end.
Proof. vm_compute. reflexivity. Qed.

Lemma score_bounds_witness :
  match (evaluate_runtime Z.of_nat Z.of_nat demo_config (fun _ => "boom") "alpha" "chat" None None
           demo_state).1 with
  | Ok sc => (0 <= sc_final sc <= 900)%Q /\ (confidence_of sc [] <= 9 # 10)%Q
  | Err _ => False
  end.
Proof.
  destruct (evaluate_runtime Z.of_nat Z.of_nat demo_config (fun _ => "boom") "alpha" "chat" None None
    demo_state) as [[sc|e] s'] eqn:Hrun.
  - exact (score_bounds Z.of_nat Z.of_nat demo_config (fun _ => "boom") "alpha" "chat" None None demo_state
      sc s' eq_refl Hrun).
  - vm_compute in Hrun. discriminate Hrun.
Defined.
