(* ===== verification/AgentEngine.v ===== *)
(** * The execution engine of agents ([backend/agent/execution_engine.py])

    [ExecutionScheduler] and [ExecutionEngine], which drives the graph of a plan
    over the [MultiAgentSupervisor], the lifecycle manager the supervisor
    shares, a planner of its own and a decision engine.  What the engine asks of
    the decision engine is the class [Chooser]; [RuntimeDecisionEngine] is an
    instance.  [time.time()] is the clock of the lifecycle manager;
    [uuid.uuid4()] is an oracle.  Handlers are recorded calls.

    The engine's graph is a graph of its own, planned beside the supervisor's;
    both dispatch the nodes, to agents of one manager. *)
From stdpp Require Import base gmap strings list sets relations.
From Stdlib Require Import ZArith QArith Lia.
From S2P Require Import Prelude.
From S2P Require Import Kahn.
From S2P Require Import ExecutionGraph.
From S2P Require Import Lifecycle.
From S2P Require Import TaskPlanner.
From S2P Require Import Supervisor.
From S2P Require Import RuntimeDecision.
#[local] Open Scope Z_scope.

Module ExecutionState.
Inductive t :=
  | IDLE | INITIALIZING | RUNNING | WAITING | PAUSED | RECOVERING | COMPLETED | FAILED | CANCELLED.
#[global] Instance eq_dec : EqDecision t.
Proof. solve_decision. Defined.

Definition value (s : t) : string :=
  match s with
  | IDLE => "idle"
  | INITIALIZING => "initializing"
  | RUNNING => "running"
  | WAITING => "waiting"
  | PAUSED => "paused"
  | RECOVERING => "recovering"
  | COMPLETED => "completed"
  | FAILED => "failed"
  | CANCELLED => "cancelled"
  end.
End ExecutionState.

Module ExecutionEvent.
Inductive t :=
  | EXECUTION_STARTED | TASK_READY | TASK_STARTED | TASK_COMPLETED | TASK_FAILED | TASK_SKIPPED
  | EXECUTION_PAUSED | EXECUTION_RESUMED | EXECUTION_COMPLETED | EXECUTION_FAILED
  | EXECUTION_RECOVERED | NODE_BLOCKED.
#[global] Instance eq_dec : EqDecision t.
Proof. solve_decision. Defined.
End ExecutionEvent.

(** ** Data *)

Record ExecutionContext := mkExecCtx {
  xc_id : string;
  xc_mission : string;
  xc_graph : string;
  xc_created : Z;
  xc_meta : pydict pyval
}.

(** Times are in milliseconds, in the unit of the clock times 1000. *)
Record ExecutionResult := mkExecResult {
  xr_success : bool;
  xr_completed : Z;
  xr_failed : Z;
  xr_skipped : Z;
  xr_time : Z;
  xr_runtimes : pydict pyval;
  xr_meta : pydict pyval
}.

Record ExecutionStatistics := mkExecStats {
  xs_started : Z;
  xs_completed : Z;
  xs_failed : Z;
  xs_tasks : Z;
  xs_parallel : Z;
  xs_avg_time : Q;
  xs_success : Q;
  xs_avg_wait : Q;
  xs_recoveries : Z;
  xs_meta : pydict pyval
}.

Definition no_exec_stats : ExecutionStatistics := mkExecStats 0 0 0 0 0 0 1 0 0 [].

(** A call [handler(event, payload)]. *)
Record engine_call := mkEngCall {
  ec_handler : string;
  ec_event : ExecutionEvent.t;
  ec_payload : pydict pyval
}.

(** What the engine asks of a decision engine: a runtime for a capability, or a
    [RuntimeDecisionError] and no other exception. *)
Class Chooser (D : Type) := {
  choose : string -> M D string;
  choose_raises : forall cap d e d', choose cap d = (Err e, d') -> exn_cls e = RuntimeDecisionError
}.

(** [RuntimeDecisionEngine.select_runtime] with its default arguments. *)
#[export] Instance decision_chooser `{!SetOrder} (mono wall : nat -> Z) (cfg : DecisionConfig)
    (exn_text : exn -> string) : Chooser DecisionState.
Proof.
  refine {| choose cap := r <- RuntimeDecision.select_runtime mono wall cfg exn_text cap None None 0 ;;
                          ret (de_selected r) |}.
  intros cap d e d'. unfold bind.
  destruct (RuntimeDecision.select_runtime mono wall cfg exn_text cap None None 0 d) as [[r|x] s'] eqn:Hrun;
    [discriminate|]. intros [= -> ->]. by eapply select_runtime_raises.
Defined.

Record Engine (D : Type) := mkEngine {
  en_sup : Supervisor;
  en_decisions : D;
  en_hermes : bool;
  en_planner : TaskPlanner;
  en_state : ExecutionState.t;
  en_context : option ExecutionContext;
  en_graph : option ExecutionGraph;
  en_plan : option GraphExecutionPlan;
  en_start : option Z;
  en_result : option ExecutionResult;
  en_stats : ExecutionStatistics;
  en_handlers : list string;
  en_calls : list engine_call;
  en_starts : pydict Z;
  en_durations : pydict Z;
  en_uuids : nat
}.
Arguments mkEngine {D}.
Arguments en_sup {D}.
Arguments en_decisions {D}.
Arguments en_hermes {D}.
Arguments en_planner {D}.
Arguments en_state {D}.
Arguments en_context {D}.
Arguments en_graph {D}.
Arguments en_plan {D}.
Arguments en_start {D}.
Arguments en_result {D}.
Arguments en_stats {D}.
Arguments en_handlers {D}.
Arguments en_calls {D}.
Arguments en_starts {D}.
Arguments en_durations {D}.
Arguments en_uuids {D}.

(** [__init__]; the default planner is a BALANCED one. *)
Definition new_engine {D} (s : Supervisor) (d : D) (hermes : bool) (planner : option TaskPlanner) : Engine D :=
  mkEngine s d hermes (default (mkPlanner PlanningStrategy.BALANCED None) planner) ExecutionState.IDLE
    None None None None None no_exec_stats [] [] [] [] 0.

Section setters.
Context {D : Type}.
Implicit Types e : Engine D.

Definition with_sup (x : Supervisor) e : Engine D :=
  mkEngine x (en_decisions e) (en_hermes e) (en_planner e) (en_state e) (en_context e) (en_graph e) (en_plan e)
    (en_start e) (en_result e) (en_stats e) (en_handlers e) (en_calls e) (en_starts e) (en_durations e) (en_uuids e).
Definition with_decisions (x : D) e : Engine D :=
  mkEngine (en_sup e) x (en_hermes e) (en_planner e) (en_state e) (en_context e) (en_graph e) (en_plan e)
    (en_start e) (en_result e) (en_stats e) (en_handlers e) (en_calls e) (en_starts e) (en_durations e) (en_uuids e).
Definition with_engine_state (x : ExecutionState.t) e : Engine D :=
  mkEngine (en_sup e) (en_decisions e) (en_hermes e) (en_planner e) x (en_context e) (en_graph e) (en_plan e)
    (en_start e) (en_result e) (en_stats e) (en_handlers e) (en_calls e) (en_starts e) (en_durations e) (en_uuids e).
Definition with_context (x : option ExecutionContext) e : Engine D :=
  mkEngine (en_sup e) (en_decisions e) (en_hermes e) (en_planner e) (en_state e) x (en_graph e) (en_plan e)
    (en_start e) (en_result e) (en_stats e) (en_handlers e) (en_calls e) (en_starts e) (en_durations e) (en_uuids e).
Definition with_graph (x : option ExecutionGraph) e : Engine D :=
  mkEngine (en_sup e) (en_decisions e) (en_hermes e) (en_planner e) (en_state e) (en_context e) x (en_plan e)
    (en_start e) (en_result e) (en_stats e) (en_handlers e) (en_calls e) (en_starts e) (en_durations e) (en_uuids e).
Definition with_plan (x : option GraphExecutionPlan) e : Engine D :=
  mkEngine (en_sup e) (en_decisions e) (en_hermes e) (en_planner e) (en_state e) (en_context e) (en_graph e) x
    (en_start e) (en_result e) (en_stats e) (en_handlers e) (en_calls e) (en_starts e) (en_durations e) (en_uuids e).
Definition with_start (x : option Z) e : Engine D :=
  mkEngine (en_sup e) (en_decisions e) (en_hermes e) (en_planner e) (en_state e) (en_context e) (en_graph e) (en_plan e)
    x (en_result e) (en_stats e) (en_handlers e) (en_calls e) (en_starts e) (en_durations e) (en_uuids e).
Definition with_result (x : option ExecutionResult) e : Engine D :=
  mkEngine (en_sup e) (en_decisions e) (en_hermes e) (en_planner e) (en_state e) (en_context e) (en_graph e) (en_plan e)
    (en_start e) x (en_stats e) (en_handlers e) (en_calls e) (en_starts e) (en_durations e) (en_uuids e).
Definition with_stats (x : ExecutionStatistics) e : Engine D :=
  mkEngine (en_sup e) (en_decisions e) (en_hermes e) (en_planner e) (en_state e) (en_context e) (en_graph e) (en_plan e)
    (en_start e) (en_result e) x (en_handlers e) (en_calls e) (en_starts e) (en_durations e) (en_uuids e).
Definition with_handlers (x : list string) e : Engine D :=
  mkEngine (en_sup e) (en_decisions e) (en_hermes e) (en_planner e) (en_state e) (en_context e) (en_graph e) (en_plan e)
    (en_start e) (en_result e) (en_stats e) x (en_calls e) (en_starts e) (en_durations e) (en_uuids e).
Definition with_engine_calls (x : list engine_call) e : Engine D :=
  mkEngine (en_sup e) (en_decisions e) (en_hermes e) (en_planner e) (en_state e) (en_context e) (en_graph e) (en_plan e)
    (en_start e) (en_result e) (en_stats e) (en_handlers e) x (en_starts e) (en_durations e) (en_uuids e).
Definition with_starts (x : pydict Z) e : Engine D :=
  mkEngine (en_sup e) (en_decisions e) (en_hermes e) (en_planner e) (en_state e) (en_context e) (en_graph e) (en_plan e)
    (en_start e) (en_result e) (en_stats e) (en_handlers e) (en_calls e) x (en_durations e) (en_uuids e).
Definition with_durations (x : pydict Z) e : Engine D :=
  mkEngine (en_sup e) (en_decisions e) (en_hermes e) (en_planner e) (en_state e) (en_context e) (en_graph e) (en_plan e)
    (en_start e) (en_result e) (en_stats e) (en_handlers e) (en_calls e) (en_starts e) x (en_uuids e).
Definition with_uuids (x : nat) e : Engine D :=
  mkEngine (en_sup e) (en_decisions e) (en_hermes e) (en_planner e) (en_state e) (en_context e) (en_graph e) (en_plan e)
    (en_start e) (en_result e) (en_stats e) (en_handlers e) (en_calls e) (en_starts e) (en_durations e) x.
End setters.

(** ** The scheduler *)

Section scheduler.
Context `{!SetOrder}.

(** The loop over the predecessors of one node. *)
Definition node_ready (g : ExecutionGraph) (plan : GraphExecutionPlan) (nid : string) : option AgentNode :=
  match get_node g nid with
  | Err _ => None
  | Ok n =>
      if negb (status_is n NodeStatus.PENDING) then None
      else if deps_completed g (default [] (dget (dependencies plan) nid)) then Some n else None
  end.

Definition get_ready_tasks (g : ExecutionGraph) (plan : GraphExecutionPlan) : list AgentNode :=
  omap (node_ready g plan) (flat_map iter_set (levels plan)).

Definition pending_node (g : ExecutionGraph) (nid : string) : option AgentNode :=
  match get_node g nid with
  | Err _ => None
  | Ok n => if status_is n NodeStatus.PENDING then Some n else None
  end.

(** [if group: groups.append(group)] *)
Definition get_parallel_groups (g : ExecutionGraph) (plan : GraphExecutionPlan) : list (list AgentNode) :=
  List.filter (fun group => match group with [] => false | _ => true end)
    (map (fun level => omap (pending_node g) (iter_set level)) (levels plan)).

Definition blocks (g : ExecutionGraph) (dep : string) : bool :=
  match get_node g dep with
  | Ok n => negb (status_is n NodeStatus.COMPLETED)
  | Err _ => true
  end.

(** [estimate_wait_time]; 1000.0 is the default of the last argument. *)
Definition estimate_wait_time (g : ExecutionGraph) (plan : GraphExecutionPlan) (nid : string) (avg : Q) : Q :=
  inject_Z (Z.of_nat (length (List.filter (blocks g) (default [] (dget (dependencies plan) nid))))) * avg.
End scheduler.

(** ** The tests on the graph *)

Definition status_in (n : AgentNode) (l : list NodeStatus.t) : bool := existsb (status_is n) l.

(** [n.status in terminal or n.status.value in terminal]: a status held as a
    string has no [value]. *)
Definition in_statuses (l : list NodeStatus.t) (n : AgentNode) : res bool :=
  if status_in n l then Ok true
  else match node_st n with
       | StatusEnum _ => Ok false
       | StatusStr _ => Err (Exn AttributeError [Msg "'str' object has no attribute 'value'" []])
       end.

(** [all(f(x) for x in l)] and [any(f(x) for x in l)], up to the first answer. *)
Fixpoint res_all {A} (f : A -> res bool) (l : list A) : res bool :=
  match l with
  | [] => Ok true
  | x :: l' => b <-? f x ;; if b : bool then res_all f l' else Ok false
  end.

Fixpoint res_any {A} (f : A -> res bool) (l : list A) : res bool :=
  match l with
  | [] => Ok false
  | x :: l' => b <-? f x ;; if b : bool then Ok true else res_any f l'
  end.

Definition is_graph_finished (g : ExecutionGraph) : res bool :=
  match list_nodes g with
  | [] => Ok false
  | nodes => res_all (in_statuses [NodeStatus.COMPLETED; NodeStatus.FAILED; NodeStatus.SKIPPED]) nodes
  end.

Definition node_is_terminal_failure (g : ExecutionGraph) (nid : string) : bool :=
  match get_node g nid with
  | Ok n => status_is n NodeStatus.FAILED
  | Err _ => false
  end.

(** A pending node, all of whose predecessors have failed. *)
Definition hopeless (g : ExecutionGraph) (plan : GraphExecutionPlan) (n : AgentNode) : bool :=
  status_is n NodeStatus.PENDING &&
  match default [] (dget (dependencies plan) (node_id n)) with
  | [] => false
  | deps => forallb (node_is_terminal_failure g) deps
  end.

Definition has_graph_failed (g : ExecutionGraph) (plan : option GraphExecutionPlan) : res bool :=
  match list_nodes g with
  | [] => Ok false
  | nodes =>
      any_failed <-? res_any (in_statuses [NodeStatus.FAILED; NodeStatus.SKIPPED]) nodes ;;
      Ok (any_failed && match plan with
                        | Some p => existsb (hopeless g p) nodes
                        | None => false
                        end)
  end.

Definition count_status (g : option ExecutionGraph) (st : NodeStatus.t) : Z :=
  match g with
  | Some g => Z.of_nat (length (List.filter (fun n => status_is n st) (list_nodes g)))
  | None => 0
  end.

Definition engine_error (template : string) (args : list string) : exn :=
  Exn ExecutionEngineError [Msg template args].

(** [except (PlanningError, SupervisorError)] *)
Definition is_start_error (c : exn_class) : bool := bool_decide (c ∈ [PlanningError; SupervisorError]).
Definition is_supervisor_error (c : exn_class) : bool := bool_decide (c = SupervisorError).
Definition is_decision_error (c : exn_class) : bool := bool_decide (c = RuntimeDecisionError).

(** The first agent of the manager with this task, of whichever mission. *)
Definition agent_for (m : Manager) (nid : string) : option AgentInstance :=
  List.find (fun a => bool_decide (ctx_task_id (agent_ctx a) = nid)) (dvalues (lm_agents m)).

Definition pstr_opt (o : option string) : pyval := match o with Some s => PStr s | None => PNone end.

Section operations.
Context `{!SetOrder}.
Variable clock : nat -> Z.
Variable uuid_hex uuid4 : nat -> string.
Variable runtime_selector : option (nat -> string -> res (option string)).
Variable exn_text : exn -> string.
Context {D : Type} `{!Chooser D}.

(** ** Effects *)

Definition sup {A} (m : M Supervisor A) : M (Engine D) A := zoom en_sup with_sup m.
Definition eng_now : M (Engine D) Z := sup (life (time_now clock)).
Definition update_engine (f : Engine D -> Engine D) : M (Engine D) unit := fun e => (Ok tt, f e).
Definition set_state (st : ExecutionState.t) : M (Engine D) unit := update_engine (with_engine_state st).

Definition new_uuid : M (Engine D) string := fun e =>
  (Ok (uuid4 (en_uuids e)), with_uuids (S (en_uuids e)) e).

(** [on_event] *)
Definition eng_on_event (h : string) : M (Engine D) unit :=
  update_engine (fun e => with_handlers (en_handlers e ++ [h]) e).

(** [_emit]: what a handler raises is dropped. *)
Definition eng_emit (ev : ExecutionEvent.t) (payload : pydict pyval) : M (Engine D) unit :=
  update_engine (fun e =>
    with_engine_calls (en_calls e ++ map (fun h => mkEngCall h ev payload) (en_handlers e)) e).

Definition the_graph (e : Engine D) : ExecutionGraph := default empty_graph (en_graph e).

Definition context_id (e : Engine D) : string := match en_context e with Some c => xc_id c | None => "" end.

(** ** Results *)

(** [_build_result]: the success rate is that of before this execution. *)
Definition build_result (success : bool) : M (Engine D) ExecutionResult :=
  e <- get ;;
  let completed := count_status (en_graph e) NodeStatus.COMPLETED in
  let failed := count_status (en_graph e) NodeStatus.FAILED in
  let skipped := count_status (en_graph e) NodeStatus.SKIPPED in
  elapsed <- (match en_start e with
              | Some t => if decide (t = 0) then ret 0 else now <- eng_now ;; ret ((now - t) * 1000)
              | None => ret 0
              end) ;;
  update_engine (fun e =>
    let x := en_stats e in
    with_stats (mkExecStats (xs_started x + 1) (xs_completed x + (if success then 1 else 0))
                  (xs_failed x + (if success then 0 else 1)) (xs_tasks x + completed) (xs_parallel x)
                  (xs_avg_time x) (inject_Z (xs_completed x) / inject_Z (Z.max (xs_started x + 1) 1))
                  (xs_avg_wait x) (xs_recoveries x) []) e) ;;;
  ret (mkExecResult success completed failed skipped elapsed [] []).

(** [self._result = self._build_result(success=...)] *)
Definition conclude_result (success : bool) : M (Engine D) ExecutionResult :=
  r <- build_result success ;; update_engine (with_result (Some r)) ;;; ret r.

(** ** Lifecycle *)

(** The engine's planner; the clock is read when the plan is built. *)
Definition plan_own (context : MissionContext) (tasks : list PlannedTask) : M (Engine D) TaskPlan :=
  e <- get ;;
  let mission := mkMission (mc_id context) (mc_title context) "" (mc_objective context) (mc_priority context) [] in
  match create_plan (en_planner e) (clock (lm_reads (sv_life (en_sup e)))) mission tasks with
  | Ok plan => eng_now ;;; ret plan
  | Err x => raise x
  end.

(** The [try] block of [start]. *)
Definition begin_execution (context : MissionContext) (tasks : list PlannedTask) (execution_id : option string)
    (metadata : option (pydict pyval)) : M (Engine D) ExecutionContext :=
  eid <- (match execution_id with
          | Some x => if decide (x = "") then new_uuid else ret x
          | None => new_uuid
          end) ;;
  plan <- plan_own context tasks ;;
  match plan_graph plan with
  | None => raise (engine_error "Planner returned a plan with no graph." [])
  | Some g =>
      sup (discard (create_mission clock exn_text context tasks)) ;;;
      gid <- new_uuid ;;
      now <- eng_now ;;
      let ctx := mkExecCtx eid (mc_id context) gid now (default [] metadata) in
      update_engine (with_context (Some ctx)) ;;;
      update_engine (with_graph (Some g)) ;;;
      gp <- lift (generate_plan g) ;;
      update_engine (with_plan (Some gp)) ;;;
      set_state ExecutionState.RUNNING ;;;
      eng_emit ExecutionEvent.EXECUTION_STARTED
        [("execution_id", PStr eid); ("mission_id", PStr (mc_id context));
         ("task_count", PInt (Z.of_nat (length tasks)))] ;;;
      sup (discard (start_mission clock (mc_id context))) ;;;
      ret ctx
  end.

(** [start] *)
Definition start (context : MissionContext) (tasks : list PlannedTask) (execution_id : option string)
    (metadata : option (pydict pyval)) : M (Engine D) ExecutionContext :=
  e <- get ;;
  if decide (en_state e = ExecutionState.IDLE) then
    set_state ExecutionState.INITIALIZING ;;;
    now <- eng_now ;;
    update_engine (with_start (Some now)) ;;;
    catch (begin_execution context tasks execution_id metadata) is_start_error (fun x =>
      set_state ExecutionState.FAILED ;;;
      eng_emit ExecutionEvent.EXECUTION_FAILED [("error", PStr (exn_text x))] ;;;
      raise (engine_error "{}" [exn_text x]))
  else raise (engine_error "Cannot start: engine is in '{}' state." [ExecutionState.value (en_state e)]).

(** What the operations do on the supervisor's mission, when there is one. *)
Definition on_mission (op : string -> M Supervisor unit) (ev : ExecutionEvent.t) : M (Engine D) unit :=
  e <- get ;;
  match en_context e with
  | Some c => sup (op (xc_mission c)) ;;; eng_emit ev [("execution_id", PStr (xc_id c))]
  | None => ret tt
  end.

(** [pause] *)
Definition pause : M (Engine D) unit :=
  e <- get ;;
  if decide (en_state e = ExecutionState.RUNNING) then
    set_state ExecutionState.PAUSED ;;;
    on_mission (fun mid => discard (pause_mission clock mid)) ExecutionEvent.EXECUTION_PAUSED
  else raise (engine_error "Cannot pause: engine is in '{}' state." [ExecutionState.value (en_state e)]).

(** [resume] *)
Definition resume : M (Engine D) unit :=
  e <- get ;;
  if decide (en_state e = ExecutionState.PAUSED) then
    set_state ExecutionState.RUNNING ;;;
    on_mission (fun mid => discard (resume_mission clock mid)) ExecutionEvent.EXECUTION_RESUMED
  else raise (engine_error "Cannot resume: engine is in '{}' state." [ExecutionState.value (en_state e)]).

Definition engine_terminal (st : ExecutionState.t) : bool :=
  bool_decide (st ∈ [ExecutionState.COMPLETED; ExecutionState.FAILED; ExecutionState.CANCELLED]).

(** [cancel] *)
Definition cancel : M (Engine D) unit :=
  e <- get ;;
  if engine_terminal (en_state e) then
    raise (engine_error "Cannot cancel: engine is in terminal state '{}'." [ExecutionState.value (en_state e)])
  else
    set_state ExecutionState.CANCELLED ;;;
    match en_context e with
    | Some c =>
        sup (discard (cancel_mission clock (xc_mission c))) ;;;
        discard (conclude_result false) ;;;
        eng_emit ExecutionEvent.EXECUTION_FAILED
          [("execution_id", PStr (xc_id c)); ("reason", PStr "cancelled")]
    | None => ret tt
    end.

Definition count_recovery (e : Engine D) : Engine D :=
  let x := en_stats e in
  with_stats (mkExecStats (xs_started x) (xs_completed x) (xs_failed x) (xs_tasks x) (xs_parallel x)
                (xs_avg_time x) (xs_success x) (xs_avg_wait x) (xs_recoveries x + 1) []) e.

(** The mission is resumed if the supervisor has it FAILED or PAUSED. *)
Definition recover_mission : M (Engine D) unit :=
  e <- get ;;
  match en_context e with
  | Some c =>
      m <- sup (get_mission (xc_mission c)) ;;
      if bool_decide (ms_state m ∈ [MissionState.FAILED; MissionState.PAUSED])
      then sup (discard (resume_mission clock (xc_mission c)))
      else ret tt
  | None => ret tt
  end.

(** [recover] *)
Definition recover : M (Engine D) bool :=
  e <- get ;;
  if decide (en_state e = ExecutionState.FAILED) then
    set_state ExecutionState.RECOVERING ;;;
    catch (recover_mission ;;;
           set_state ExecutionState.RUNNING ;;;
           update_engine count_recovery ;;;
           eng_emit ExecutionEvent.EXECUTION_RECOVERED [("execution_id", PStr (context_id e))] ;;;
           ret true)
      is_supervisor_error (fun _ => set_state ExecutionState.FAILED ;;; ret false)
  else ret false.

(** ** The nodes of the graph *)

(** [graph._nodes[nid] = AgentNode(...)] *)
Definition put_node (nid : string) (n : AgentNode) : M (Engine D) unit :=
  update_engine (fun e => with_graph (Some (mkGraph (dset (g_nodes (the_graph e)) nid n) (g_edges (the_graph e)))) e).

(** [try: node = graph.get_node(nid); ...  except ExecutionGraphError: pass] *)
Definition mark (nid : string) (f : AgentNode -> AgentNode) (ev : ExecutionEvent.t) (payload : pydict pyval)
    : M (Engine D) unit :=
  e <- get ;;
  match get_node (the_graph e) nid with
  | Ok n => put_node nid (f n) ;;; eng_emit ev payload
  | Err _ => ret tt
  end.

Definition node_failed (reason : string) (n : AgentNode) : AgentNode :=
  mkNode (node_id n) (node_name n) (node_ty n) (StatusEnum NodeStatus.FAILED) (node_cap n)
    (dset (node_meta n) "failure_reason" (PStr reason)).

Definition node_dispatched (runtime : option string) (n : AgentNode) : AgentNode :=
  mkNode (node_id n) (node_name n) (node_ty n) (StatusEnum NodeStatus.RUNNING) (node_cap n)
    (dset (node_meta n) "runtime" (pstr_opt runtime)).

Definition mark_node_completed (nid : string) : M (Engine D) unit :=
  mark nid (fun n => node_with_status n NodeStatus.COMPLETED) ExecutionEvent.TASK_COMPLETED [("node_id", PStr nid)].

Definition mark_node_failed (nid reason : string) : M (Engine D) unit :=
  mark nid (node_failed reason) ExecutionEvent.TASK_FAILED [("node_id", PStr nid); ("reason", PStr reason)].

Definition mark_node_skipped (nid : string) : M (Engine D) unit :=
  mark nid (fun n => node_with_status n NodeStatus.SKIPPED) ExecutionEvent.TASK_SKIPPED [("node_id", PStr nid)].

(** The duration of a completed node: the clock is read twice. *)
Definition record_duration (nid : string) : M (Engine D) unit :=
  t <- eng_now ;;
  t' <- eng_now ;;
  update_engine (fun e => with_durations (dset (en_durations e) nid (t - default t' (dget (en_starts e) nid))) e).

(** The body of the loop of [_sync_agent_states]. *)
Definition sync_node (n : AgentNode) : M (Engine D) unit :=
  if status_is n NodeStatus.RUNNING then
    e <- get ;;
    match agent_for (sv_life (en_sup e)) (node_id n) with
    | Some a =>
        match agent_state a with
        | AgentState.COMPLETED => mark_node_completed (node_id n) ;;; record_duration (node_id n)
        | AgentState.FAILED | AgentState.TIMEOUT => mark_node_failed (node_id n) "agent_failed"
        | AgentState.CANCELLED => mark_node_skipped (node_id n)
        | _ => ret tt
        end
    | None => ret tt
    end
  else ret tt.

(** [_sync_agent_states]: the loop runs on a list of the nodes. *)
Definition sync_agent_states : M (Engine D) unit :=
  e <- get ;; for_each (list_nodes (the_graph e)) sync_node.

(** ** Dispatch *)

(** The runtime the decision engine chooses, if any. *)
Definition choose_runtime (cap : string) : M (Engine D) (option string) :=
  catch (r <- zoom en_decisions with_decisions (choose cap) ;; ret (Some r)) is_decision_error
    (fun _ => ret None).

Definition execute_via_hermes (aid nid : string) : M (Engine D) unit :=
  eng_emit ExecutionEvent.TASK_READY
    [("node_id", PStr nid); ("via", PStr "hermes-agent"); ("agent_id", PStr aid)].

Definition execute_via_router (aid nid : string) (runtime : option string) : M (Engine D) unit :=
  eng_emit ExecutionEvent.TASK_READY
    [("node_id", PStr nid); ("via", PStr "runtime-router"); ("runtime", pstr_opt runtime);
     ("agent_id", PStr aid)].

(** The [try] block of [_dispatch_task]. *)
Definition run_agent (ctx : AgentContext) (nid : string) (runtime : option string) : M (Engine D) unit :=
  agent <- sup (life (create_agent clock ctx None)) ;;
  sup (life (discard (start_agent clock (agent_id agent)))) ;;;
  e <- get ;;
  (if bool_decide (runtime = Some "hermes-agent") && en_hermes e
   then execute_via_hermes (agent_id agent) nid
   else execute_via_router (agent_id agent) nid runtime) ;;;
  eng_emit ExecutionEvent.TASK_STARTED [("node_id", PStr nid); ("runtime", pstr_opt runtime)].

(** [_dispatch_task] *)
Definition dispatch_task (n : AgentNode) : M (Engine D) unit :=
  e <- get ;;
  let mid := match en_context e with Some c => xc_mission c | None => "" end in
  runtime <- choose_runtime (node_cap n) ;;
  put_node (node_id n) (node_dispatched runtime n) ;;;
  now <- eng_now ;;
  update_engine (fun e => with_starts (dset (en_starts e) (node_id n) now) e) ;;;
  hex <- new_uuid ;;
  catch (run_agent (mkCtx (agent_name "exec" (node_id n) (String.substring 0 8 hex)) mid (node_id n)
                      (node_cap n) runtime []) (node_id n) runtime)
    any_exception (fun x => mark_node_failed (node_id n) (exn_text x)).

(** ** Tick *)

Definition finish_execution : M (Engine D) unit :=
  set_state ExecutionState.COMPLETED ;;;
  r <- conclude_result true ;;
  e <- get ;;
  eng_emit ExecutionEvent.EXECUTION_COMPLETED
    [("execution_id", PStr (context_id e));
     ("result", PDict [("completed_tasks", PInt (xr_completed r)); ("failed_tasks", PInt (xr_failed r))])].

Definition fail_execution : M (Engine D) unit :=
  set_state ExecutionState.FAILED ;;;
  discard (conclude_result false) ;;;
  e <- get ;;
  eng_emit ExecutionEvent.EXECUTION_FAILED
    [("execution_id", PStr (context_id e)); ("reason", PStr "graph_has_failed_tasks")].

(** Steps 2 to 5 of [tick], once there is a graph and a plan. *)
Definition tick_graph (plan : GraphExecutionPlan) : M (Engine D) (list string) :=
  sync_agent_states ;;;
  e <- get ;;
  let ready := get_ready_tasks (the_graph e) plan in
  for_each ready dispatch_task ;;;
  e <- get ;;
  finished <- lift (is_graph_finished (the_graph e)) ;;
  (if finished : bool then finish_execution else ret tt) ;;;
  e <- get ;;
  failed <- lift (has_graph_failed (the_graph e) (en_plan e)) ;;
  (if failed : bool then fail_execution else ret tt) ;;;
  ret (map (fun n => "dispatched:" +:+ node_id n) ready
       ++ (if finished : bool then ["execution_completed"] else [])
       ++ (if failed : bool then ["execution_failed"] else [])).

(** [tick], and [step]; what the supervisor raises is dropped. *)
Definition tick : M (Engine D) (list string) :=
  e <- get ;;
  if decide (en_state e = ExecutionState.RUNNING) then
    catch (sup (discard (Supervisor.tick clock uuid_hex runtime_selector))) any_exception (fun _ => ret tt) ;;;
    e <- get ;;
    match en_graph e, en_plan e with
    | Some _, Some plan => tick_graph plan
    | _, _ => ret []
    end
  else ret [].

(** ** Queries *)

Definition is_finished (e : Engine D) : bool := engine_terminal (en_state e).

Record EngineStatus := mkEngStatus {
  es_state : string;
  es_execution : option string;
  es_mission : option string;
  es_total : Z;
  es_completed : Z;
  es_failed : Z;
  es_running : Z;
  es_pending : Z;
  es_elapsed : Z;
  es_stats : ExecutionStatistics
}.

(** [get_status] *)
Definition get_status : M (Engine D) EngineStatus :=
  e <- get ;;
  elapsed <- (match en_start e with
              | Some t => if decide (t = 0) then ret 0 else now <- eng_now ;; ret ((now - t) * 1000)
              | None => ret 0
              end) ;;
  ret (mkEngStatus (ExecutionState.value (en_state e)) (xc_id <$> en_context e) (xc_mission <$> en_context e)
         (Z.of_nat (length (list_nodes (the_graph e))))
         (count_status (en_graph e) NodeStatus.COMPLETED) (count_status (en_graph e) NodeStatus.FAILED)
         (count_status (en_graph e) NodeStatus.RUNNING) (count_status (en_graph e) NodeStatus.PENDING)
         elapsed (en_stats e)).

(** ** Histories *)

(** The operations of the engine, and those others do on the supervisor and the
    lifecycle manager in between. *)
Inductive eng_op :=
  | EOnEvent (h : string)
  | EStart (c : MissionContext) (tasks : list PlannedTask) (xid : option string) (meta : option (pydict pyval))
  | EPause
  | EResume
  | ECancel
  | ERecover
  | ETick
  | ESup (op : sup_op).

Definition run_eng_op (op : eng_op) : M (Engine D) unit :=
  match op with
  | EOnEvent h => eng_on_event h
  | EStart c tasks xid meta => discard (start c tasks xid meta)
  | EPause => pause
  | EResume => resume
  | ECancel => cancel
  | ERecover => discard recover
  | ETick => discard tick
  | ESup op => sup (run_sup_op clock uuid_hex runtime_selector exn_text op)
  end.

Definition run_eng_ops (ops : list eng_op) (e : Engine D) : Engine D :=
  fold_left (fun e op => (run_eng_op op e).2) ops e.
End operations.
