(* ===== verification/EngineRuns.v ===== *)
(** * Runs of the execution engine ([backend/agent/execution_engine.py])

    What the operations of [AgentEngine] keep in any order: the state machine
    of the engine, the one-way life of a node, the dependencies between nodes,
    the outcome of a tick, and when a run cannot end. *)
From stdpp Require Import base gmap strings list sets relations.
From Stdlib Require Import ZArith QArith Lia.
From S2P Require Import Prelude.
From S2P Require Import Kahn.
From S2P Require Import ExecutionGraph.
From S2P Require Import Lifecycle.
From S2P Require Import TaskPlanner.
From S2P Require Import Supervisor.
From S2P Require Import RuntimeDecision.
From S2P Require Import AgentEngine.
#[local] Open Scope Z_scope.

(** ** The life of a node *)

Inductive node_step : NodeStatus.t -> NodeStatus.t -> Prop :=
  | ns_dispatch : node_step NodeStatus.PENDING NodeStatus.RUNNING
  | ns_complete : node_step NodeStatus.RUNNING NodeStatus.COMPLETED
  | ns_fail : node_step NodeStatus.RUNNING NodeStatus.FAILED
  | ns_skip : node_step NodeStatus.RUNNING NodeStatus.SKIPPED.

Definition ended : list NodeStatus.t := [NodeStatus.COMPLETED; NodeStatus.FAILED; NodeStatus.SKIPPED].

Lemma ended_absorbing x y : x ∈ ended -> rtc node_step x y -> y = x.
Proof.
  intros Hx Hxy. destruct Hxy as [|x y z Hs _]; [done|]. exfalso.
  destruct Hs; unfold ended in Hx; const_absurd Hx.
Qed.

Lemma not_pending_again x y : rtc node_step x y -> y = NodeStatus.PENDING -> x = NodeStatus.PENDING.
Proof. intros Hxy ->. apply rtc_inv_r in Hxy as [->|(z & _ & Hs)]; [done|inversion Hs]. Qed.

(** From [g] to [g'] the same nodes have gone their way. *)
Record advanced (g g' : ExecutionGraph) : Prop := Advanced {
  av_edges : g_edges g' = g_edges g;
  av_keys : dkeys (g_nodes g') = dkeys (g_nodes g);
  av_node : forall t x, nstat g t = Some (StatusEnum x) ->
    exists y, nstat g' t = Some (StatusEnum y) /\ rtc node_step x y
}.

#[export] Instance advanced_preorder : PreOrder advanced.
Proof.
  split.
  - intros g. split; [done..|]. intros t x Hx. exists x. by split.
  - intros g1 g2 g3 [He Hk Hn] [He' Hk' Hn']. split; [congruence..|]. intros t x Hx.
    destruct (Hn t x Hx) as (y & Hy & Hxy). destruct (Hn' t y Hy) as (z & Hz & Hyz).
    exists z. split; [done|]. by transitivity y.
Qed.

(** A graph under execution: its statuses are members of the enumeration, and
    a node that has left PENDING has all its predecessors COMPLETED. *)
Record running_graph (g : ExecutionGraph) : Prop := RunningGraph {
  rg_inv : graph_inv g;
  rg_typed : forall t st, nstat g t = Some st -> exists x, st = StatusEnum x;
  rg_deps : forall s t, (s, t) ∈ pairs (g_edges g) -> ~ pending g t -> completed g s
}.

(** The part of the plan that the ticks use. *)
Record plan_fits (g : ExecutionGraph) (p : GraphExecutionPlan) : Prop := PlanFits {
  pf_deps : plan_deps_of g p;
  pf_nodes : forall n, n ∈ dkeys (g_nodes g) <-> exists i L, levels p !! i = Some L /\ n ∈ L;
  pf_disjoint : forall n i j Li Lj, levels p !! i = Some Li -> levels p !! j = Some Lj ->
    n ∈ Li -> n ∈ Lj -> i = j
}.

Lemma plan_fits_spec g p : plan_spec g p -> plan_fits g p.
Proof.
  intros Hp. split; [|apply (ps_cover _ _ Hp)|apply (ps_disjoint _ _ Hp)].
  intros t Ht. by rewrite (ps_deps _ _ Hp), decide_True.
Qed.

Lemma plan_fits_advanced g g' p : advanced g g' -> plan_fits g p -> plan_fits g' p.
Proof.
  intros [He Hk _] [Hd Hn Hj]. split; [|by rewrite Hk|done]. intros t. rewrite Hk, He. apply Hd.
Qed.

Lemma completed_advanced g g' t : advanced g g' -> completed g t -> completed g' t.
Proof.
  intros Ha Hc. destruct (av_node _ _ Ha t _ Hc) as (y & Hy & Hxy).
  apply ended_absorbing in Hxy as ->; [done|]. unfold ended. const_elem.
Qed.

Lemma pending_advanced g g' t : running_graph g -> advanced g g' -> pending g' t -> pending g t.
Proof.
  intros Hg Ha Hp. destruct (nstat g t) as [st|] eqn:Hst.
  - destruct (rg_typed _ Hg t st Hst) as [x ->]. destruct (av_node _ _ Ha t x Hst) as (y & Hy & Hxy).
    unfold pending in *. rewrite Hy in Hp. injection Hp as ->.
    by rewrite Hst, (not_pending_again _ _ Hxy eq_refl).
  - exfalso. unfold pending, nstat in *. apply fmap_None in Hst. apply dget_None in Hst.
    rewrite <- (av_keys _ _ Ha) in Hst. apply dget_None in Hst. by rewrite Hst in Hp.
Qed.

(** ** Writing one node *)

Definition write_node (g : ExecutionGraph) (t : string) (n : AgentNode) : ExecutionGraph :=
  mkGraph (dset (g_nodes g) t n) (g_edges g).

Lemma nstat_write g t n u : nstat (write_node g t n) u = if decide (t = u) then Some (node_st n) else nstat g u.
Proof. unfold nstat. cbn. rewrite dget_dset. by case_decide. Qed.

Lemma write_node_inv g t n n' :
  graph_inv g -> dget (g_nodes g) t = Some n -> node_id n' = t -> graph_inv (write_node g t n').
Proof.
  intros [Hwf Hids Hrefs Hac] Hn Hid.
  assert (Hin : t ∈ dkeys (g_nodes g)) by (apply dget_is_Some; by eexists).
  split; cbn; [by apply dict_wf_dset| |by rewrite dkeys_dset_mem|done].
  intros k m. rewrite dget_dset. case_decide; [|by apply Hids]. intros [= <-]. congruence.
Qed.

(** One step of one node; if it leaves PENDING its predecessors are COMPLETED. *)
Lemma write_node_step g t n n' x y :
  running_graph g -> dget (g_nodes g) t = Some n -> node_st n = StatusEnum x ->
  node_id n' = t -> node_st n' = StatusEnum y -> node_step x y ->
  (x = NodeStatus.PENDING -> forall s, (s, t) ∈ pairs (g_edges g) -> completed g s) ->
  running_graph (write_node g t n') /\ advanced g (write_node g t n').
Proof.
  intros Hg Hn Hx Hid Hy Hs Hp. set (g' := write_node g t n').
  assert (Hnt : nstat g t = Some (StatusEnum x)) by (unfold nstat; by rewrite Hn, <- Hx).
  assert (Ha : advanced g g').
  { split; [done|cbn; by apply dkeys_dset_mem, dget_is_Some; eexists|]. intros u z Hz. unfold g'.
    rewrite nstat_write. case_decide as Heq; [|by exists z]. subst u. rewrite Hnt in Hz. injection Hz as <-.
    exists y. split; [by rewrite Hy|]. by apply rtc_once. }
  split; [|exact Ha]. split.
  - eapply write_node_inv; [apply Hg|done..].
  - intros u st. unfold g'. rewrite nstat_write. case_decide; [|apply Hg]. intros [= <-]. by exists y.
  - intros s u He Hnp. apply (completed_advanced _ _ _ Ha). change (g_edges g') with (g_edges g) in He.
    destruct (decide (t = u)) as [<-|Hne].
    + destruct (decide (x = NodeStatus.PENDING)) as [Hxp|Hxp]; [by apply Hp|].
      apply (rg_deps _ Hg s t He). unfold pending. rewrite Hnt. congruence.
    + apply (rg_deps _ Hg s u He). intros Hpu. apply Hnp. unfold pending, g'.
      by rewrite nstat_write, decide_False.
Qed.

Lemma status_is_of g t n st :
  running_graph g -> dget (g_nodes g) t = Some n -> status_is n st = true <-> nstat g t = Some (StatusEnum st).
Proof.
  intros Hg Hn. destruct (rg_typed _ Hg t (node_st n)) as [x Hx]; [unfold nstat; by rewrite Hn|].
  rewrite (status_is_spec n x st Hx). unfold nstat. rewrite Hn. cbn. rewrite Hx. split; [by intros ->|by intros [= ->]].
Qed.

Lemma deps_completed_iff g deps :
  running_graph g -> deps_completed g deps = true <-> forall d, d ∈ deps -> completed g d.
Proof.
  intros Hg. unfold deps_completed. rewrite forallb_forall. setoid_rewrite <- list_elem_of_In.
  apply forall_proper. intros d. apply forall_proper. intros _. unfold get_node, completed.
  destruct (dget (g_nodes g) d) as [n|] eqn:Hn; [by apply status_is_of|].
  unfold nstat. by rewrite Hn.
Qed.

(** ** The tasks that are ready *)

Section ready.
Context `{!SetOrder}.

Lemma elem_planned p n : n ∈ flat_map iter_set (levels p) <-> exists i L, levels p !! i = Some L /\ n ∈ L.
Proof.
  rewrite list_elem_of_In, in_flat_map. split.
  - intros (L & HL%list_elem_of_In & Hn). apply list_elem_of_lookup in HL as [i Hi]. exists i, L. split; [done|].
    by apply elem_iter_set, list_elem_of_In.
  - intros (i & L & Hi & Hn). exists L. split; [apply list_elem_of_In; by eapply list_elem_of_lookup_2|].
    by apply list_elem_of_In, elem_iter_set.
Qed.

Lemma NoDup_planned (ls : list (gset string)) :
  (forall n i j Li Lj, ls !! i = Some Li -> ls !! j = Some Lj -> n ∈ Li -> n ∈ Lj -> i = j) ->
  NoDup (flat_map iter_set ls).
Proof.
  induction ls as [|L ls IH]; intros Hd; cbn; [constructor|]. apply NoDup_app. split_and!.
  - apply NoDup_iter_set.
  - intros n Hn%elem_iter_set (L' & HL'%list_elem_of_In & Hn')%list_elem_of_In%in_flat_map.
    apply list_elem_of_lookup in HL' as [j Hj].
    assert (0%nat = S j) by (eapply (Hd n 0%nat (S j)); [done|exact Hj|done|by apply elem_iter_set, list_elem_of_In]).
    done.
  - apply IH. intros n i j Li Lj Hi Hj Hn Hn'.
    assert (S i = S j) by (by eapply (Hd n (S i) (S j))). lia.
Qed.

Definition ready_node (g : ExecutionGraph) (t : string) : Prop :=
  pending g t /\ forall s, (s, t) ∈ pairs (g_edges g) -> completed g s.

Lemma node_ready_spec g p t n :
  running_graph g -> plan_fits g p ->
  node_ready g p t = Some n <-> dget (g_nodes g) t = Some n /\ ready_node g t.
Proof.
  intros Hg Hp. unfold node_ready, get_node. destruct (dget (g_nodes g) t) as [m|] eqn:Hm; [|naive_solver].
  assert (Hin : t ∈ dkeys (g_nodes g)) by (apply dget_is_Some; by eexists).
  rewrite (pf_deps _ _ Hp t Hin). change (default [] (Some ?l)) with l.
  pose proof (status_is_of g t m NodeStatus.PENDING Hg Hm) as Hpend.
  pose proof (deps_completed_iff g (preds (pairs (g_edges g)) t) Hg) as Hd.
  setoid_rewrite elem_preds in Hd. unfold ready_node, pending.
  destruct (status_is m NodeStatus.PENDING); cbn [negb]; [|naive_solver].
  destruct (deps_completed g _); naive_solver.
Qed.

Lemma ready_tasks_elem g p n :
  running_graph g -> plan_fits g p ->
  n ∈ get_ready_tasks g p <-> dget (g_nodes g) (node_id n) = Some n /\ ready_node g (node_id n).
Proof.
  intros Hg Hp. unfold get_ready_tasks. rewrite list_elem_of_omap. split.
  - intros (t & _ & Hr). apply node_ready_spec in Hr as [Hn Hr]; [|done..].
    by rewrite (gi_ids _ (rg_inv _ Hg) _ _ Hn).
  - intros [Hn Hr]. exists (node_id n). split; [|by apply node_ready_spec].
    apply elem_planned, (pf_nodes _ _ Hp), dget_is_Some. by eexists.
Qed.

Lemma ready_tasks_NoDup g p : running_graph g -> plan_fits g p -> NoDup (map node_id (get_ready_tasks g p)).
Proof.
  intros Hg Hp. unfold get_ready_tasks. pose proof (NoDup_planned _ (pf_disjoint _ _ Hp)) as Hnd.
  induction (flat_map iter_set (levels p)) as [|t l IH]; [constructor|].
  apply NoDup_cons in Hnd as [Ht Hnd]. cbn [omap list_omap].
  destruct (node_ready g p t) as [n|] eqn:Hr; [|by apply IH]. cbn [map]. apply NoDup_cons. split; [|by apply IH].
  apply node_ready_spec in Hr as [Hn _]; [|done..]. rewrite (gi_ids _ (rg_inv _ Hg) _ _ Hn).
  intros (m & Hm & (u & Hu & Hmu)%list_elem_of_omap)%list_elem_of_fmap.
  apply node_ready_spec in Hmu as [Hmu _]; [|done..]. rewrite (gi_ids _ (rg_inv _ Hg) _ _ Hmu) in Hm. by subst.
Qed.
End ready.

#[local] Instance node_status_eq_dec : EqDecision node_status.
Proof. solve_decision. Defined.

Lemma nstat_key g t x : nstat g t = Some x -> t ∈ dkeys (g_nodes g).
Proof. intros Hx. apply dget_is_Some. unfold nstat in Hx. by destruct (dget (g_nodes g) t). Qed.

(** Without a cycle, a node that waits stands behind one that is ready. *)
Lemma ready_exists g t :
  graph_inv g -> (forall u, u ∈ dkeys (g_nodes g) -> pending g u \/ completed g u) -> pending g t ->
  exists u, ready_node g u.
Proof.
  intros Hg Hall Hpt. set (E := pairs (g_edges g)).
  set (waits := fun u => nstat g u = Some (StatusEnum NodeStatus.PENDING) /\
    Forall (fun p : string * string => p.2 = u -> nstat g p.1 = Some (StatusEnum NodeStatus.COMPLETED)) E).
  destruct (decide (Exists waits (dkeys (g_nodes g)))) as [Hex|Hno].
  - apply Exists_exists in Hex as (u & _ & Hu & Hp). exists u. split; [done|]. intros s Hs.
    rewrite Forall_forall in Hp. by apply (Hp (s, u) Hs).
  - exfalso.
    set (out := List.filter (fun u => bool_decide (nstat g u = Some (StatusEnum NodeStatus.COMPLETED))) (dkeys (g_nodes g))).
    assert (Hout : forall u, u ∈ out <-> u ∈ dkeys (g_nodes g) /\ completed g u).
    { intros u. unfold out. rewrite list_elem_of_In, filter_In, <- list_elem_of_In, bool_decide_eq_true. done. }
    assert (Hin : t ∈ out).
    { apply (acyclic_ready_all (dkeys (g_nodes g)) E out); [apply Hg|apply Hg| |by eapply nstat_key].
      intros n Hn Hpre. apply Hout. split; [done|]. destruct (Hall n Hn) as [Hp|]; [|done]. exfalso.
      apply Hno, Exists_exists. exists n. split; [done|]. split; [exact Hp|]. apply Forall_forall.
      intros [s n'] Hs Heq. cbn in Heq. subst n'. by apply Hout, Hpre. }
    apply Hout in Hin as [_ Hc]. unfold completed, pending in *. congruence.
Qed.

(** ** What the effects leave alone *)

Section engine.
Context `{!SetOrder}.
Variable clock : nat -> Z.
Variable uuid_hex uuid4 : nat -> string.
Variable runtime_selector : option (nat -> string -> res (option string)).
Variable exn_text : exn -> string.
Context {D : Type} `{!Chooser D}.
Implicit Types e : Engine D.

(** The engine itself is the same, but for its graph. *)
Record apart (e e' : Engine D) : Prop := Apart {
  ap_plan : en_plan e' = en_plan e;
  ap_state : en_state e' = en_state e;
  ap_context : en_context e' = en_context e;
  ap_result : en_result e' = en_result e;
  ap_stats : en_stats e' = en_stats e;
  ap_start : en_start e' = en_start e
}.

#[local] Instance apart_preorder : PreOrder apart.
Proof. split; [by split|]. intros e1 e2 e3 [] []. split; congruence. Qed.

Definition same e e' : Prop := apart e e' /\ en_graph e' = en_graph e.

#[local] Instance same_preorder : PreOrder same.
Proof.
  split; [by split|]. intros e1 e2 e3 [Ha Hg] [Ha' Hg']. split; [by transitivity e2|congruence].
Qed.

Definition quiet {A} (m : M (Engine D) A) : Prop := forall e, same e (m e).2.

(** It returns, and is quiet. *)
Definition answers {A} (m : M (Engine D) A) : Prop := forall e, wp m (fun _ e' => same e e') e.

Lemma quiet_sup {A} (m : M Supervisor A) : quiet (sup m).
Proof. intros e. unfold sup, zoom. by destruct (m (en_sup e)). Qed.

Lemma eng_quiet_bind {A B} (m : M (Engine D) A) (f : A -> M (Engine D) B) :
  quiet m -> (forall a, quiet (f a)) -> quiet (bind m f).
Proof.
  intros Hm Hf e. unfold bind. pose proof (Hm e) as He. destruct (m e) as [[a|x] e']; [|done].
  etransitivity; [exact He|apply Hf].
Qed.

Lemma eng_quiet_catch {A} (m : M (Engine D) A) handles h :
  quiet m -> (forall x, quiet (h x)) -> quiet (catch m handles h).
Proof.
  intros Hm Hh e. unfold catch. pose proof (Hm e) as He. destruct (m e) as [[a|x] e']; [done|].
  destruct (handles (exn_cls x)); [|done]. etransitivity; [exact He|apply Hh].
Qed.

Lemma eng_quiet_get : quiet get.
Proof. by intros e. Qed.

Lemma eng_quiet_ret {A} (a : A) : quiet (ret a).
Proof. by intros e. Qed.

Lemma eng_answers_quiet {A} (m : M (Engine D) A) : answers m -> quiet m.
Proof. intros Hm e. specialize (Hm e). unfold wp in Hm. by destruct (m e) as [[a|x] e']. Qed.

Lemma answers_update f : (forall e, same e (f e)) -> answers (update_engine f).
Proof. intros Hf e. apply Hf. Qed.

Lemma answers_now : answers (eng_now clock).
Proof. done. Qed.

Lemma answers_emit ev payload : answers (eng_emit ev payload).
Proof. by apply answers_update. Qed.

Lemma answers_uuid : answers (new_uuid uuid4).
Proof. done. Qed.

Lemma answers_choose cap : answers (choose_runtime cap).
Proof.
  intros e. unfold choose_runtime, wp, catch, bind, zoom.
  destruct (choose cap (en_decisions e)) as [[r|x] d] eqn:Hc; [done|].
  unfold is_decision_error. by rewrite bool_decide_eq_true_2 by (by eapply choose_raises).
Qed.

Lemma answers_duration nid : answers (record_duration clock nid).
Proof. done. Qed.

(** What follows an answer. *)
Lemma wp_answers {A B} (m : M (Engine D) A) (f : A -> M (Engine D) B) Q e :
  answers m -> (forall a e', same e e' -> wp (f a) Q e') -> wp (bind m f) Q e.
Proof. intros Hm Hf. apply wp_bind. eapply wp_mono; [apply Hm|]. exact Hf. Qed.

Lemma wp_get {A} (f : Engine D -> M (Engine D) A) Q e : wp (f e) Q e -> wp (bind get f) Q e.
Proof. done. Qed.

(** Whatever the supervisor does, the engine goes on. *)
Lemma answers_ignored (m : M Supervisor unit) :
  answers (catch (sup m) any_exception (fun _ => ret tt)).
Proof.
  intros e. pose proof (quiet_sup m e) as Hq. unfold wp, catch. destruct (sup m e) as [[a|x] e']; [done|].
  by cbn.
Qed.

(** ** Marking a node *)

(** The engine runs the graph [g]. *)
Definition holding (g : ExecutionGraph) e : Prop := en_graph e = Some g /\ running_graph g.

Definition wrote e t n e' : Prop := apart e e' /\ en_graph e' = Some (write_node (the_graph e) t n).

Lemma wp_mark t f ev payload e n :
  dget (g_nodes (the_graph e)) t = Some n ->
  wp (mark t f ev payload) (fun _ e' => wrote e t (f n) e' /\ en_sup e' = en_sup e) e.
Proof. intros Hn. unfold mark. apply wp_get. unfold get_node. by rewrite Hn. Qed.

(** The graph has gone from [g] to that of [e'], at the node [t] only. *)
Record moved_at (g : ExecutionGraph) (t : string) (g' : ExecutionGraph) : Prop := MovedAt {
  ma_running : running_graph g';
  ma_advanced : advanced g g';
  ma_other : forall u, u <> t -> dget (g_nodes g') u = dget (g_nodes g) u
}.

Lemma moved_same g t : running_graph g -> moved_at g t g.
Proof. by split. Qed.

Lemma moved_write g t n n' x y :
  running_graph g -> dget (g_nodes g) t = Some n -> node_st n = StatusEnum x ->
  node_id n' = t -> node_st n' = StatusEnum y -> node_step x y ->
  (x = NodeStatus.PENDING -> forall s, (s, t) ∈ pairs (g_edges g) -> completed g s) ->
  moved_at g t (write_node g t n') /\ nstat (write_node g t n') t = Some (StatusEnum y).
Proof.
  intros Hg Hn Hx Hid Hy Hs Hp. destruct (write_node_step g t n n' x y) as [Hr Ha]; [done..|].
  split; [|by rewrite nstat_write, decide_True, Hy]. split; [done..|]. intros u Hu. cbn. by rewrite dget_dset_ne.
Qed.

Lemma moved_trans g t g1 g2 : moved_at g t g1 -> moved_at g1 t g2 -> moved_at g t g2.
Proof.
  intros [_ Ha Ho] [Hr Ha' Ho']. split; [done|by transitivity g1|]. intros u Hu. by rewrite Ho', Ho.
Qed.

(** ** Synchronisation *)

(** The status of a node once the agents have been looked at. *)
Definition synced (m : Manager) (t : string) (st : option node_status) : option node_status :=
  match st with
  | Some (StatusEnum NodeStatus.RUNNING) =>
      match agent_state <$> agent_for m t with
      | Some AgentState.COMPLETED => Some (StatusEnum NodeStatus.COMPLETED)
      | Some AgentState.FAILED | Some AgentState.TIMEOUT => Some (StatusEnum NodeStatus.FAILED)
      | Some AgentState.CANCELLED => Some (StatusEnum NodeStatus.SKIPPED)
      | _ => st
      end
  | _ => st
  end.

Definition agents_now e : pydict AgentInstance := lm_agents (sv_life (en_sup e)).

Lemma agent_for_same m m' t : lm_agents m' = lm_agents m -> agent_for m' t = agent_for m t.
Proof. unfold agent_for. by intros ->. Qed.

Definition sync_one g t e e' : Prop :=
  apart e e' /\ agents_now e' = agents_now e /\
  exists g', en_graph e' = Some g' /\ moved_at g t g' /\ nstat g' t = synced (sv_life (en_sup e)) t (nstat g t).

Lemma sync_marked g t n f ev payload y (k : unit -> M (Engine D) unit) e :
  holding g e -> dget (g_nodes g) t = Some n -> node_st n = StatusEnum NodeStatus.RUNNING ->
  node_id (f n) = t -> node_st (f n) = StatusEnum y -> node_step NodeStatus.RUNNING y ->
  synced (sv_life (en_sup e)) t (nstat g t) = Some (StatusEnum y) ->
  (forall e', wp (k tt) (fun _ e'' => same e' e'' /\ agents_now e'' = agents_now e') e') ->
  wp (bind (mark t f ev payload) k) (fun _ e' => sync_one g t e e') e.
Proof.
  intros [Hg Hr] Hn Hx Hid Hy Hs Hsy Hk. apply wp_bind.
  assert (Hn' : dget (g_nodes (the_graph e)) t = Some n) by (unfold the_graph; by rewrite Hg).
  eapply wp_mono; [by apply (wp_mark t f ev payload e n)|]. intros [] e1 [[Ha1 Hg1] Hs1].
  eapply wp_mono; [apply Hk|]. intros [] e2 [[Ha2 Hg2] Hag2].
  destruct (moved_write g t n (f n) NodeStatus.RUNNING y) as [Hmv Hst]; [done..|].
  split; [by transitivity e1|]. split; [unfold agents_now in *; congruence|].
  exists (write_node g t (f n)). unfold the_graph in Hg1. rewrite Hg in Hg1.
  split; [by rewrite Hg2, Hg1|]. split; [done|]. congruence.
Qed.

Lemma sync_idle g t e :
  holding g e -> synced (sv_life (en_sup e)) t (nstat g t) = nstat g t -> sync_one g t e e.
Proof. intros [Hg Hr] Hsy. split; [done|]. split; [done|]. exists g. split_and!; [done|by apply moved_same|done]. Qed.

Lemma wp_sync_node g t n e :
  holding g e -> dget (g_nodes g) t = Some n -> node_id n = t ->
  wp (sync_node clock n) (fun _ e' => sync_one g t e e') e.
Proof.
  intros Hh Hn Hid. pose proof Hh as [Hg Hr]. unfold sync_node.
  pose proof (status_is_of g t n NodeStatus.RUNNING Hr Hn) as Hrun.
  assert (Hst : nstat g t = Some (node_st n)) by (unfold nstat; by rewrite Hn).
  destruct (status_is n NodeStatus.RUNNING) eqn:Hs.
  2:{ apply wp_ret, sync_idle; [done|]. destruct (rg_typed _ Hr t _ Hst) as [x Hx]. unfold synced. rewrite Hst, Hx.
      destruct x; try done. exfalso. rewrite Hst, Hx in Hrun. by discriminate (proj2 Hrun eq_refl). }
  rewrite (proj1 Hrun eq_refl) in Hst. injection Hst as Hst. symmetry in Hst. apply wp_get. rewrite Hid.
  assert (Hsy : synced (sv_life (en_sup e)) t (nstat g t)
    = match agent_state <$> agent_for (sv_life (en_sup e)) t with
      | Some AgentState.COMPLETED => Some (StatusEnum NodeStatus.COMPLETED)
      | Some AgentState.FAILED | Some AgentState.TIMEOUT => Some (StatusEnum NodeStatus.FAILED)
      | Some AgentState.CANCELLED => Some (StatusEnum NodeStatus.SKIPPED)
      | _ => Some (StatusEnum NodeStatus.RUNNING)
      end) by (by rewrite (proj1 Hrun eq_refl)).
  assert (Hrt : forall e', wp (ret tt) (fun _ e'' => same e' e'' /\ agents_now e'' = agents_now e') e')
    by (intros e'; by apply wp_ret).
  destruct (agent_for (sv_life (en_sup e)) t) as [a|]; cbn [fmap option_fmap option_map] in Hsy.
  2:{ apply wp_ret, sync_idle; [done|]. by rewrite Hsy, (proj1 Hrun eq_refl). }
  assert (Hidle : synced (sv_life (en_sup e)) t (nstat g t) = Some (StatusEnum NodeStatus.RUNNING) ->
    wp (ret tt) (fun _ e' => sync_one g t e e') e).
  { intros Hy. apply wp_ret, sync_idle; [done|]. by rewrite Hy, (proj1 Hrun eq_refl). }
  assert (Hlast : forall f ev payload y, node_id (f n) = t -> node_st (f n) = StatusEnum y ->
    node_step NodeStatus.RUNNING y -> synced (sv_life (en_sup e)) t (nstat g t) = Some (StatusEnum y) ->
    wp (mark t f ev payload) (fun _ e' => sync_one g t e e') e).
  { intros f ev payload y Hi Hy Hstep Hsync.
    pose proof (sync_marked g t n f ev payload y ret e Hh Hn Hst Hi Hy Hstep Hsync Hrt) as Hw.
    unfold wp, bind in Hw |- *. by destruct (mark t f ev payload e) as [[[]|x] e']. }
  destruct (agent_state a); try (by apply Hidle).
  - by apply (sync_marked g t n _ _ _ NodeStatus.COMPLETED); try constructor.
  - by apply (Hlast _ _ _ NodeStatus.FAILED); try constructor.
  - by apply (Hlast _ _ _ NodeStatus.SKIPPED); try constructor.
  - by apply (Hlast _ _ _ NodeStatus.FAILED); try constructor.
Qed.

(** The ids of the nodes met so far, in a loop over a list of nodes. *)
Lemma list_nodes_ids g : graph_inv g -> map node_id (list_nodes g) = dkeys (g_nodes g).
Proof.
  intros Hg. unfold list_nodes, dvalues, dkeys. rewrite map_map. apply map_ext_in.
  intros [k n] Hin%list_elem_of_In. cbn. apply (gi_ids _ Hg). by apply dget_elem; [apply Hg|].
Qed.

Lemma list_nodes_get g n : graph_inv g -> n ∈ list_nodes g -> dget (g_nodes g) (node_id n) = Some n.
Proof.
  intros Hg (p & -> & Hin)%list_elem_of_fmap. destruct p as [k n].
  apply dget_elem in Hin; [|apply Hg]. cbn. by rewrite (gi_ids _ Hg _ _ Hin).
Qed.

(** What a loop over nodes of [g] has done to the graph after the ids [ts]. *)
Record loop_done (P : string -> ExecutionGraph -> Prop) (g : ExecutionGraph) (ts : list string)
    (g' : ExecutionGraph) : Prop := LoopDone {
  ld_running : running_graph g';
  ld_advanced : advanced g g';
  ld_rest : forall u, u ∉ ts -> dget (g_nodes g') u = dget (g_nodes g) u;
  ld_met : forall u, u ∈ ts -> P u g'
}.

Lemma loop_done_nil P g : running_graph g -> loop_done P g [] g.
Proof. intros Hg. split; [done..|]. intros u Hu. by apply elem_of_nil in Hu. Qed.

Lemma loop_done_snoc P g ts t g1 g2 :
  (forall u h h', dget (g_nodes h') u = dget (g_nodes h) u -> P u h -> P u h') ->
  loop_done P g ts g1 -> t ∉ ts -> moved_at g1 t g2 -> P t g2 -> loop_done P g (ts ++ [t]) g2.
Proof.
  intros HP [Hr Ha Ho Hm] Ht [Hr2 Ha2 Ho2] Hp. split; [done|by transitivity g1| |].
  - intros u Hu. rewrite Ho2, Ho; [done|set_solver|set_solver].
  - intros u [Hu| ->%list_elem_of_singleton]%elem_of_app; [|done].
    apply (HP u g1); [apply Ho2; set_solver|by apply Hm].
Qed.

Lemma nodup_split (f : AgentNode -> string) l1 n l2 :
  NoDup (map f (l1 ++ n :: l2)) -> f n ∉ map f l1.
Proof.
  rewrite map_app, NoDup_app. intros (_ & Hd & _) Hin. apply (Hd _ Hin). cbn. set_solver.
Qed.

(** [_sync_agent_states] returns; every RUNNING node takes the outcome of the
    first agent with its id, and the other nodes are left alone. *)
Lemma wp_sync g e :
  holding g e ->
  wp (sync_agent_states clock) (fun _ e' => apart e e' /\ agents_now e' = agents_now e /\
    exists g', en_graph e' = Some g' /\ running_graph g' /\ advanced g g' /\
      forall t, nstat g' t = synced (sv_life (en_sup e)) t (nstat g t)) e.
Proof.
  intros Hh. pose proof Hh as [Hg Hr]. unfold sync_agent_states. apply wp_get.
  assert (Hgr : the_graph e = g) by (unfold the_graph; by rewrite Hg). rewrite Hgr.
  set (P := fun t h => nstat h t = synced (sv_life (en_sup e)) t (nstat g t)).
  eapply wp_mono; [apply (wp_for_each (fun l1 e' => apart e e' /\ agents_now e' = agents_now e /\
    exists g', en_graph e' = Some g' /\ loop_done P g (map node_id l1) g'))|].
  - split_and!; [done..|]. exists g. split; [done|by apply loop_done_nil].
  - intros l1 n l2 e1 Hl (Ha1 & Hag1 & g1 & Hg1 & Hd1).
    assert (Hnd : node_id n ∉ map node_id l1).
    { apply (nodup_split _ _ _ l2). rewrite <- Hl, (list_nodes_ids g) by apply Hr. apply Hr. }
    assert (Hn : dget (g_nodes g) (node_id n) = Some n).
    { apply list_nodes_get; [apply Hr|]. rewrite Hl. set_solver. }
    pose proof (ld_rest _ _ _ _ Hd1 _ Hnd) as Hsame. rewrite Hn in Hsame.
    eapply wp_mono; [apply (wp_sync_node g1 (node_id n) n); [split; [done|apply Hd1]|done|done]|].
    intros [] e2 (Ha2 & Hag2 & g2 & Hg2 & Hmv & Hst2). split; [by transitivity e1|]. split; [congruence|].
    exists g2. split; [done|]. rewrite map_app. apply (loop_done_snoc _ _ _ _ g1); [|done..|].
    + intros u h h' Hu. unfold P, nstat. by rewrite Hu.
    + unfold P. rewrite Hst2. unfold synced, nstat. rewrite Hsame, Hn.
      by rewrite (agent_for_same (sv_life (en_sup e)) _ _ Hag1).
  - intros [] e' (Ha & Hag & g' & Hg' & Hd). split_and!; [done..|]. exists g'.
    split_and!; [done|apply Hd|apply Hd|]. intros t.
    destruct (decide (t ∈ dkeys (g_nodes g))) as [Ht|Ht].
    + apply (ld_met _ _ _ _ Hd). by rewrite (list_nodes_ids g) by apply Hr.
    + assert (Hn : dget (g_nodes g) t = None) by by apply dget_None.
      assert (Hn' : dget (g_nodes g') t = None).
      { rewrite (ld_rest _ _ _ _ Hd); [done|]. by rewrite (list_nodes_ids g) by apply Hr. }
      unfold nstat. by rewrite Hn, Hn'.
Qed.

(** ** Dispatch *)

Lemma quiet_run_agent ctx t runtime : quiet (run_agent clock ctx t runtime).
Proof.
  unfold run_agent. apply eng_quiet_bind; [apply quiet_sup|]. intros a. apply eng_quiet_bind; [apply quiet_sup|].
  intros _. apply eng_quiet_bind; [apply eng_quiet_get|]. intros e. apply eng_quiet_bind.
  - case_match; apply eng_answers_quiet, answers_emit.
  - intros _. apply eng_answers_quiet, answers_emit.
Qed.

(** The graph of [e'] has moved at [t] from [g], which [e] ran. *)
Definition dispatched_one g t e e' : Prop :=
  apart e e' /\ exists g', en_graph e' = Some g' /\ moved_at g t g' /\
    (nstat g' t = Some (StatusEnum NodeStatus.RUNNING) \/ nstat g' t = Some (StatusEnum NodeStatus.FAILED)).

(** A dispatch returns: the node is RUNNING, or FAILED if its agent could not
    be started. *)
Lemma wp_dispatch g n e :
  holding g e -> dget (g_nodes g) (node_id n) = Some n -> ready_node g (node_id n) ->
  wp (dispatch_task clock uuid4 exn_text n) (fun _ e' => dispatched_one g (node_id n) e e') e.
Proof.
  intros [Hg Hr] Hn [Hp Hdeps]. unfold dispatch_task. apply wp_get.
  apply wp_answers; [apply answers_choose|]. intros runtime e1 [Ha1 Hg1].
  assert (Hx : node_st n = StatusEnum NodeStatus.PENDING).
  { unfold pending, nstat in Hp. rewrite Hn in Hp. by injection Hp. }
  destruct (moved_write g (node_id n) n (node_dispatched runtime n) NodeStatus.PENDING NodeStatus.RUNNING)
    as [Hmv Hst]; [done..|constructor|done|].
  set (g2 := write_node g (node_id n) (node_dispatched runtime n)) in *.
  apply wp_bind. unfold put_node, wp at 1, update_engine. cbn [fst snd].
  set (e2 := with_graph _ e1). assert (Hh2 : apart e e2 /\ holding g2 e2).
  { split; [by destruct Ha1; split|]. split; [|apply Hmv]. cbn. unfold the_graph. by rewrite Hg1, Hg. }
  clearbody e2. destruct Hh2 as [Ha2 [Hg2 Hr2]].
  apply wp_answers; [apply answers_now|]. intros now e3 [Ha3 Hg3].
  apply wp_answers; [by apply answers_update|]. intros [] e4 [Ha4 Hg4].
  apply wp_answers; [apply answers_uuid|]. intros hex e5 [Ha5 Hg5].
  assert (Ha : apart e e5) by (transitivity e2; [done|]; transitivity e3; [done|]; by transitivity e4).
  assert (Hg' : en_graph e5 = Some g2) by congruence. clear Ha3 Hg3 Ha4 Hg4 Ha5 Hg5.
  unfold wp, catch. pose proof (quiet_run_agent (mkCtx (agent_name "exec" (node_id n) (String.substring 0 8 hex))
    match en_context e with Some c => xc_mission c | None => "" end (node_id n) (node_cap n) runtime [])
    (node_id n) runtime e5) as Hq.
  destruct (run_agent _ _ _ _ e5) as [[[]|x] e6]; destruct Hq as [Ha6 Hg6]; cbn [fst snd] in *.
  - split; [by transitivity e5|]. exists g2. split_and!; [congruence|done|by left].
  - cbn. change (wp (mark_node_failed (node_id n) (exn_text x)) (fun _ e' => dispatched_one g (node_id n) e e') e6).
    assert (Hn6 : dget (g_nodes (the_graph e6)) (node_id n) = Some (node_dispatched runtime n)).
    { unfold the_graph. rewrite Hg6, Hg'. cbn. apply dget_dset_eq. }
    eapply wp_mono; [by apply wp_mark|]. intros [] e7 [[Ha7 Hg7] _].
    split; [transitivity e6; [by transitivity e5|done]|].
    destruct (moved_write g2 (node_id n) (node_dispatched runtime n) (node_failed (exn_text x) (node_dispatched runtime n))
      NodeStatus.RUNNING NodeStatus.FAILED) as [Hmv2 Hst2]; [done|cbn; apply dget_dset_eq|done..|constructor|done|].
    eexists. split; [rewrite Hg7; unfold the_graph; by rewrite Hg6, Hg'|].
    split; [by eapply moved_trans|by right].
Qed.

(** Every ready task is dispatched; no other node changes. *)
Lemma wp_dispatch_all g p e :
  holding g e -> plan_fits g p ->
  wp (for_each (get_ready_tasks g p) (dispatch_task clock uuid4 exn_text)) (fun _ e' => apart e e' /\
    exists g', en_graph e' = Some g' /\ running_graph g' /\ advanced g g' /\
      (forall t, ready_node g t ->
         nstat g' t = Some (StatusEnum NodeStatus.RUNNING) \/ nstat g' t = Some (StatusEnum NodeStatus.FAILED)) /\
      forall t, ~ ready_node g t -> nstat g' t = nstat g t) e.
Proof.
  intros [Hg Hr] Hp.
  set (P := fun t h => nstat h t = Some (StatusEnum NodeStatus.RUNNING) \/ nstat h t = Some (StatusEnum NodeStatus.FAILED)).
  eapply wp_mono; [apply (wp_for_each (fun l1 e' => apart e e' /\
    exists g', en_graph e' = Some g' /\ loop_done P g (map node_id l1) g'))|].
  - split; [done|]. exists g. split; [done|by apply loop_done_nil].
  - intros l1 n l2 e1 Hl (Ha1 & g1 & Hg1 & Hd1).
    assert (Hin : n ∈ get_ready_tasks g p) by (rewrite Hl; set_solver).
    apply ready_tasks_elem in Hin as [Hn [Hpe Hde]]; [|done..].
    assert (Hnd : node_id n ∉ map node_id l1).
    { apply (nodup_split _ _ _ l2). rewrite <- Hl. by apply ready_tasks_NoDup. }
    pose proof (ld_rest _ _ _ _ Hd1 _ Hnd) as Hsame. pose proof (ld_advanced _ _ _ _ Hd1) as Hadv.
    eapply wp_mono; [apply (wp_dispatch g1 n)|].
    + split; [done|apply Hd1].
    + congruence.
    + split; [unfold pending, nstat; by rewrite Hsame|]. intros s. rewrite (av_edges _ _ Hadv). intros Hs.
      by eapply completed_advanced, Hde.
    + intros [] e2 (Ha2 & g2 & Hg2 & Hmv & Hst2). split; [by transitivity e1|].
      exists g2. split; [done|]. rewrite map_app. apply (loop_done_snoc _ _ _ _ g1); [|done..].
      intros u h h' Hu. unfold P, nstat. by rewrite Hu.
  - intros [] e' (Ha & g' & Hg' & Hd). split; [done|]. exists g'. split_and!; [done|apply Hd|apply Hd| |].
    + intros t Ht. pose proof Ht as [Hpe _]. unfold pending, nstat in Hpe.
      destruct (dget (g_nodes g) t) as [n|] eqn:Hn; [|done].
      pose proof (gi_ids _ (rg_inv _ Hr) _ _ Hn) as Hid. subst t.
      apply (ld_met _ _ _ _ Hd), list_elem_of_fmap. exists n. split; [done|]. by apply ready_tasks_elem.
    + intros t Ht. unfold nstat. rewrite (ld_rest _ _ _ _ Hd); [done|].
      intros (n & -> & [_ Hn]%ready_tasks_elem)%list_elem_of_fmap; done.
Qed.

(** ** The end of a run *)

Definition all_ended (g : ExecutionGraph) : Prop :=
  dkeys (g_nodes g) <> [] /\
  forall t, t ∈ dkeys (g_nodes g) -> exists x, nstat g t = Some (StatusEnum x) /\ x ∈ ended.

Definition failed (g : ExecutionGraph) (t : string) : Prop := nstat g t = Some (StatusEnum NodeStatus.FAILED).

(** A pending node has predecessors, and all of them have failed. *)
Definition stuck (g : ExecutionGraph) : Prop :=
  exists t, pending g t /\ (exists s, (s, t) ∈ pairs (g_edges g)) /\
    forall s, (s, t) ∈ pairs (g_edges g) -> failed g s.

Lemma stuck_not_ended g : stuck g -> ~ all_ended g.
Proof.
  intros (t & Hp & _) [_ Hall]. unfold pending in Hp. destruct (Hall t) as (x & Hx & Hin).
  - apply dget_is_Some. unfold nstat in Hp. by destruct (dget (g_nodes g) t).
  - rewrite Hp in Hx. injection Hx as <-. unfold ended in Hin. const_absurd Hin.
Qed.

Lemma in_statuses_spec g n l :
  running_graph g -> n ∈ list_nodes g ->
  exists b, in_statuses l n = Ok b /\
    (b = true <-> exists x, nstat g (node_id n) = Some (StatusEnum x) /\ x ∈ l).
Proof.
  intros Hg Hn. apply list_nodes_get in Hn; [|apply Hg].
  destruct (rg_typed _ Hg (node_id n) (node_st n)) as [x Hx]; [unfold nstat; by rewrite Hn|].
  assert (Hst : nstat g (node_id n) = Some (StatusEnum x)) by (unfold nstat; by rewrite Hn, <- Hx).
  assert (Hiff : status_in n l = true <-> x ∈ l).
  { unfold status_in. rewrite existsb_exists. setoid_rewrite (status_is_spec n x _ Hx).
    setoid_rewrite <- list_elem_of_In. naive_solver. }
  unfold in_statuses. destruct (status_in n l).
  - exists true. split; [done|]. rewrite Hst. naive_solver.
  - rewrite Hx. exists false. split; [done|]. rewrite Hst. naive_solver.
Qed.

Lemma res_all_spec {A} (f : A -> res bool) (P : A -> Prop) l :
  (forall x, x ∈ l -> exists b, f x = Ok b /\ (b = true <-> P x)) ->
  exists b, res_all f l = Ok b /\ (b = true <-> forall x, x ∈ l -> P x).
Proof.
  induction l as [|x l IH]; intros Hf; cbn; [exists true; split; [done|]; set_solver|].
  destruct (Hf x ltac:(set_solver)) as (b & -> & Hb). cbn.
  destruct IH as (b' & Hr & Hb'); [intros y Hy; apply Hf; set_solver|].
  destruct b.
  - exists b'. split; [done|]. rewrite Hb'. split; [|set_solver].
    intros Hall y [->|Hy]%elem_of_cons; [by apply Hb|by apply Hall].
  - exists false. split; [done|]. split; [done|]. intros Hall. apply Hb, Hall. set_solver.
Qed.

Lemma res_any_spec {A} (f : A -> res bool) (P : A -> Prop) l :
  (forall x, x ∈ l -> exists b, f x = Ok b /\ (b = true <-> P x)) ->
  exists b, res_any f l = Ok b /\ (b = true <-> exists x, x ∈ l /\ P x).
Proof.
  induction l as [|x l IH]; intros Hf; cbn; [exists false; split; [done|]; set_solver|].
  destruct (Hf x ltac:(set_solver)) as (b & -> & Hb). cbn.
  destruct IH as (b' & Hr & Hb'); [intros y Hy; apply Hf; set_solver|].
  destruct b.
  - exists true. split; [done|]. split; [|done]. intros _. exists x. split; [set_solver|by apply Hb].
  - exists b'. split; [done|]. rewrite Hb'. split; [set_solver|].
    intros (y & [->|Hy]%elem_of_cons & HP); [by apply Hb in HP|set_solver].
Qed.

Lemma keys_nodes g t : graph_inv g -> t ∈ dkeys (g_nodes g) <-> exists n, n ∈ list_nodes g /\ node_id n = t.
Proof.
  intros Hg. rewrite <- (list_nodes_ids g Hg), list_elem_of_fmap. split; intros (n & ? & ?); exists n; done.
Qed.

Lemma finished_spec g :
  running_graph g -> exists b, is_graph_finished g = Ok b /\ (b = true <-> all_ended g).
Proof.
  intros Hg. unfold is_graph_finished, all_ended. pose proof (keys_nodes g) as Hk.
  rewrite <- (list_nodes_ids g) by apply Hg.
  destruct (list_nodes g) as [|n l] eqn:Hl; [exists false; naive_solver|]. rewrite <- Hl in *.
  destruct (res_all_spec (in_statuses ended)
    (fun n => exists x, nstat g (node_id n) = Some (StatusEnum x) /\ x ∈ ended) (list_nodes g)) as (b & Hrun & Hb).
  { intros m Hm. by apply in_statuses_spec. }
  exists b. split; [exact Hrun|]. rewrite Hb. split.
  - intros Hall. split; [by rewrite Hl|]. intros t Ht. rewrite (list_nodes_ids g) in Ht by apply Hg.
    apply Hk in Ht as (m & Hm & <-); [by apply Hall|apply Hg].
  - intros [_ Hall] m Hm. apply Hall. apply list_elem_of_fmap. by exists m.
Qed.

Lemma terminal_failure_spec g t : running_graph g -> node_is_terminal_failure g t = true <-> failed g t.
Proof.
  intros Hg. unfold node_is_terminal_failure, get_node. destruct (dget (g_nodes g) t) as [n|] eqn:Hn.
  - by apply status_is_of.
  - unfold failed, nstat. by rewrite Hn.
Qed.

Lemma hopeless_spec g p n :
  running_graph g -> plan_fits g p -> n ∈ list_nodes g ->
  hopeless g p n = true <-> pending g (node_id n) /\ (exists s, (s, node_id n) ∈ pairs (g_edges g)) /\
    forall s, (s, node_id n) ∈ pairs (g_edges g) -> failed g s.
Proof.
  intros Hg Hp Hn. pose proof (list_nodes_get g n (rg_inv _ Hg) Hn) as Hget. unfold hopeless.
  assert (Hin : node_id n ∈ dkeys (g_nodes g)) by (apply dget_is_Some; by eexists).
  rewrite (pf_deps _ _ Hp _ Hin). change (default [] (Some ?l)) with l.
  pose proof (status_is_of g _ n NodeStatus.PENDING Hg Hget) as Hpe. fold (pending g (node_id n)) in Hpe.
  pose proof (elem_preds (pairs (g_edges g))) as He. destruct (preds (pairs (g_edges g)) (node_id n)) as [|s l] eqn:Hl.
  - split; [by rewrite andb_false_r|]. intros (_ & [s Hs] & _). apply He in Hs. rewrite Hl in Hs. by apply elem_of_nil in Hs.
  - rewrite <- Hl. assert (Hall : forallb (node_is_terminal_failure g) (preds (pairs (g_edges g)) (node_id n)) = true <->
      forall s, (s, node_id n) ∈ pairs (g_edges g) -> failed g s).
    { rewrite forallb_forall. setoid_rewrite <- list_elem_of_In. setoid_rewrite He.
      setoid_rewrite (terminal_failure_spec g _ Hg). done. }
    rewrite andb_true_iff, Hpe, Hall. split; [|tauto]. intros [H1 H2]. split_and!; [done| |done].
    exists s. apply He. rewrite Hl. set_solver.
Qed.

Lemma graph_failed_spec g p :
  running_graph g -> plan_fits g p -> exists b, has_graph_failed g (Some p) = Ok b /\ (b = true <-> stuck g).
Proof.
  intros Hg Hp. unfold has_graph_failed. destruct (list_nodes g) as [|n0 l0] eqn:Hl.
  { exists false. split; [done|]. split; [done|]. intros (t & Hpe & _). exfalso.
    unfold pending, nstat in Hpe. destruct (dget (g_nodes g) t) as [n|] eqn:Hn; [|done].
    assert (Hin : t ∈ dkeys (g_nodes g)) by (apply dget_is_Some; by eexists).
    apply keys_nodes in Hin as (m & Hm & _); [|apply Hg]. rewrite Hl in Hm. by apply elem_of_nil in Hm. }
  rewrite <- Hl. destruct (res_any_spec (in_statuses [NodeStatus.FAILED; NodeStatus.SKIPPED])
    (fun n => exists x, nstat g (node_id n) = Some (StatusEnum x) /\ x ∈ [NodeStatus.FAILED; NodeStatus.SKIPPED])
    (list_nodes g)) as (b & Hrun & Hb).
  { intros m Hm. by apply in_statuses_spec. }
  rewrite Hrun. cbn [res_bind]. eexists. split; [reflexivity|]. rewrite andb_true_iff, Hb, existsb_exists.
  setoid_rewrite <- list_elem_of_In. split.
  - intros (_ & n & Hn & Hh). apply hopeless_spec in Hh as (H1 & H2 & H3); [|done..]. by exists (node_id n).
  - intros (t & Hpe & [s Hs] & Hall). pose proof (gi_refs _ (rg_inv _ Hg) s t Hs) as [Hsk Htk].
    apply keys_nodes in Hsk as (m & Hm & <-); [|apply Hg]. apply keys_nodes in Htk as (n & Hn & <-); [|apply Hg]. split.
    + exists m. split; [done|]. exists NodeStatus.FAILED. split; [by apply Hall|const_elem].
    + exists n. split; [done|]. apply hopeless_spec; [done..|]. split_and!; [done| |done]. by eexists.
Qed.

(** The run has ended: [e'] is [e] in the state [st], with a result. *)
Record concluded (st : ExecutionState.t) (success : bool) e e' : Prop := Concluded {
  cd_state : en_state e' = st;
  cd_graph : en_graph e' = en_graph e;
  cd_plan : en_plan e' = en_plan e;
  cd_context : en_context e' = en_context e;
  cd_result : exists r, en_result e' = Some r /\ xr_success r = success /\
    xr_completed r = count_status (en_graph e) NodeStatus.COMPLETED /\
    xr_failed r = count_status (en_graph e) NodeStatus.FAILED /\
    xr_skipped r = count_status (en_graph e) NodeStatus.SKIPPED;
  cd_started : xs_started (en_stats e') = xs_started (en_stats e) + 1;
  cd_success : xs_success (en_stats e')
    = (inject_Z (xs_completed (en_stats e)) / inject_Z (Z.max (xs_started (en_stats e) + 1) 1))%Q
}.

Lemma wp_discarded {A} (m : M (Engine D) A) P (Q : Engine D -> Prop) e :
  wp m P e -> (forall a e', P a e' -> Q e') -> wp (discard m) (fun _ => Q) e.
Proof. intros Hm HQ. unfold discard. apply wp_bind. eapply wp_mono; [exact Hm|]. intros a e' Hp. by eapply wp_ret, HQ. Qed.

Lemma wp_conclude success st e :
  wp (conclude_result clock success) (fun r e' => en_result e' = Some r /\
    (en_state e = st -> concluded st success e e') /\ en_handlers e' = en_handlers e) e.
Proof.
  unfold conclude_result, build_result, wp, bind, get.
  destruct (en_start e) as [t|]; [destruct (decide (t = 0))|]; cbn;
    (split; [done|split; [|done]]; intros <-; split; try done; by eexists).
Qed.

Lemma wp_finish_execution e : wp (finish_execution clock) (fun _ e' => concluded ExecutionState.COMPLETED true e e') e.
Proof.
  unfold finish_execution, set_state. apply wp_bind. unfold wp at 1, update_engine. cbn [fst snd].
  apply wp_bind. eapply wp_mono; [apply (wp_conclude true ExecutionState.COMPLETED)|].
  intros r e1 (_ & Hc & _). destruct (Hc eq_refl) as [H1 H2 H3 H4 H5 H6 H7]. apply wp_get.
  eapply wp_mono; [apply answers_emit|]. intros [] e2 [[A1 A2 A3 A4 A5 A6] Hg]. cbn in *.
  split; cbn; first [congruence|by rewrite A4|by rewrite A5].
Qed.

Lemma wp_fail_execution e : wp (fail_execution clock) (fun _ e' => concluded ExecutionState.FAILED false e e') e.
Proof.
  unfold fail_execution, set_state. apply wp_bind. unfold wp at 1, update_engine. cbn [fst snd].
  apply wp_bind. eapply wp_mono.
  { eapply wp_discarded; [apply (wp_conclude false ExecutionState.FAILED)|]. intros r e1 (_ & Hc & _). exact (Hc eq_refl). }
  intros [] e1 [H1 H2 H3 H4 H5 H6 H7]. apply wp_get.
  eapply wp_mono; [apply answers_emit|]. intros [] e2 [[A1 A2 A3 A4 A5 A6] Hg]. cbn in *.
  split; cbn; first [congruence|by rewrite A4|by rewrite A5].
Qed.

(** ** A tick *)

(** The graph after a tick, from what the manager [m] says of the agents. *)
Definition ticked (m : Manager) (g g' : ExecutionGraph) : Prop :=
  exists g1, running_graph g1 /\ advanced g g1 /\ (forall t, nstat g1 t = synced m t (nstat g t)) /\
    running_graph g' /\ advanced g1 g' /\
    (forall t, ready_node g1 t ->
       nstat g' t = Some (StatusEnum NodeStatus.RUNNING) \/ nstat g' t = Some (StatusEnum NodeStatus.FAILED)) /\
    forall t, ~ ready_node g1 t -> nstat g' t = nstat g1 t.

(** How the engine goes on, from the graph it is left with. *)
Definition tick_verdict (g' : ExecutionGraph) e e' : Prop :=
  (all_ended g' /\ concluded ExecutionState.COMPLETED true (with_graph (Some g') e) e') \/
  (stuck g' /\ concluded ExecutionState.FAILED false (with_graph (Some g') e) e') \/
  (~ all_ended g' /\ ~ stuck g' /\ apart e e' /\ en_graph e' = Some g').

Lemma wp_tick_graph g p e :
  holding g e -> en_plan e = Some p -> plan_fits g p ->
  wp (tick_graph clock uuid4 exn_text p) (fun _ e' => exists g',
    ticked (sv_life (en_sup e)) g g' /\ tick_verdict g' e e') e.
Proof.
  intros Hh Hplan Hp. unfold tick_graph. apply wp_bind. eapply wp_mono; [by apply wp_sync|].
  intros [] e1 (Ha1 & _ & g1 & Hg1 & Hr1 & Hadv1 & Hst1). apply wp_get.
  assert (Hgr1 : the_graph e1 = g1) by (unfold the_graph; by rewrite Hg1). rewrite Hgr1.
  assert (Hp1 : plan_fits g1 p) by (by eapply plan_fits_advanced).
  apply wp_bind. eapply wp_mono; [by apply wp_dispatch_all|].
  intros [] e2 (Ha2 & g2 & Hg2 & Hr2 & Hadv2 & Hready & Hother). apply wp_get.
  assert (Hgr2 : the_graph e2 = g2) by (unfold the_graph; by rewrite Hg2). rewrite Hgr2.
  assert (Ha : apart e e2) by (by transitivity e1).
  assert (Hp2 : plan_fits g2 p) by (by eapply plan_fits_advanced).
  assert (Ht : ticked (sv_life (en_sup e)) g g2) by (exists g1; split_and!; done).
  destruct (finished_spec g2 Hr2) as (b & Hb & Hfin). rewrite Hb.
  apply wp_bind. change (wp (lift (Ok b)) ?Q e2) with (Q b e2). cbv beta.
  destruct (graph_failed_spec g2 p Hr2 Hp2) as (b' & Hb' & Hstk).
  assert (Hback : forall st s x e', concluded st s e2 x -> en_state e' = en_state x -> en_graph e' = en_graph x ->
    en_plan e' = en_plan x -> en_context e' = en_context x -> en_result e' = en_result x ->
    en_stats e' = en_stats x -> concluded st s (with_graph (Some g2) e) e').
  { intros st s x e' [H1 H2 H3 H4 H5 H6 H7] E1 E2 E3 E4 E5 E6. destruct Ha as [A1 A2 A3 A4 A5 A6].
    split; cbn; rewrite ?E1, ?E2, ?E3, ?E4, ?E5, ?E6; try congruence. by rewrite Hg2 in H5. }
  destruct b.
  - apply wp_bind. eapply wp_mono; [apply wp_finish_execution|]. intros [] e3 Hc. apply wp_get.
    assert (Hgr3 : the_graph e3 = g2) by (unfold the_graph; by rewrite (cd_graph _ _ _ _ Hc), Hg2).
    rewrite Hgr3, (cd_plan _ _ _ _ Hc), (ap_plan _ _ Ha), Hplan, Hb'.
    assert (b' = false) as ->.
    { destruct b'; [|done]. exfalso. by apply (stuck_not_ended g2); [apply Hstk|apply Hfin]. }
    apply wp_bind. cbn. exists g2. split; [done|]. left. split; [by apply Hfin|]. by apply (Hback _ _ e3).
  - apply wp_bind. change (wp (ret tt) ?Q e2) with (Q tt e2). cbv beta. apply wp_get.
    rewrite Hgr2, (ap_plan _ _ Ha), Hplan, Hb'. apply wp_bind.
    change (wp (lift (Ok b')) ?Q e2) with (Q b' e2). cbv beta. destruct b'.
    + apply wp_bind. eapply wp_mono; [apply wp_fail_execution|]. intros [] e3 Hc. apply wp_ret.
      exists g2. split; [done|]. right. left. split; [by apply Hstk|]. by apply (Hback _ _ e3).
    + apply wp_bind. cbn. exists g2. split; [done|]. right. right. split_and!; [|  |done..].
      * intros Hx. by discriminate (proj2 Hfin Hx).
      * intros Hx. by discriminate (proj2 Hstk Hx).
Qed.

(** ** Operations that may raise *)

Definition ends {A} (m : M (Engine D) A) (Q : res A -> Engine D -> Prop) e : Prop := Q (m e).1 (m e).2.

Lemma ends_bind {A B} (m : M (Engine D) A) (f : A -> M (Engine D) B) Q e :
  ends m (fun r e' => match r with Ok a => ends (f a) Q e' | Err x => Q (Err x) e' end) e -> ends (bind m f) Q e.
Proof. unfold ends, bind. by destruct (m e) as [[a|x] e']. Qed.

Lemma ends_mono {A} (m : M (Engine D) A) (P Q : res A -> Engine D -> Prop) e :
  ends m P e -> (forall r e', P r e' -> Q r e') -> ends m Q e.
Proof. unfold ends. auto. Qed.

Lemma ends_wp {A} (m : M (Engine D) A) P (Q : res A -> Engine D -> Prop) e :
  wp m P e -> (forall a e', P a e' -> Q (Ok a) e') -> ends m Q e.
Proof. unfold ends, wp. destruct (m e) as [[a|x] e']; [|done]. intros Hp Hq. by apply Hq. Qed.

Lemma ends_quiet {A B} (m : M (Engine D) A) (f : A -> M (Engine D) B) Q e :
  quiet m -> (forall a e', same e e' -> ends (f a) Q e') -> (forall x e', same e e' -> Q (Err x) e') ->
  ends (bind m f) Q e.
Proof.
  intros Hm Hf Hx. apply ends_bind. unfold ends at 1. specialize (Hm e).
  destruct (m e) as [[a|x] e']; [by apply Hf|by apply Hx].
Qed.

Lemma ends_answers {A B} (m : M (Engine D) A) (f : A -> M (Engine D) B) Q e :
  answers m -> (forall a e', same e e' -> ends (f a) Q e') -> ends (bind m f) Q e.
Proof.
  intros Hm Hf. apply ends_bind. eapply ends_wp; [apply Hm|]. exact Hf.
Qed.

Lemma ends_update {A} g (f : unit -> M (Engine D) A) Q e :
  ends (f tt) Q (g e) -> ends (bind (update_engine g) f) Q e.
Proof. done. Qed.

(** A fresh graph is ready to be run. *)
Lemma fresh_running tasks g : represents tasks g -> running_graph g /\ forall t, t ∈ dkeys (g_nodes g) -> pending g t.
Proof.
  intros Hrep. pose proof (fresh_graph_ok (new_manager 0) tasks g Hrep) as [Hinv Hst _ _ _ Hdeps].
  split.
  - split; [done| |done]. intros t st Hs. destruct (Hst t st Hs) as (x & -> & _). by exists x.
  - intros t [n Hn]%dget_is_Some. destruct Hrep as (_ & Hnodes & _). apply dget_Some_elem in Hn as Hin.
    rewrite Hnodes in Hin. apply list_elem_of_fmap in Hin as (u & [= -> ->] & _).
    unfold pending, nstat. by rewrite Hn.
Qed.

(** A run has begun: the tasks are planned, none is dispatched. *)
Definition begun e' : Prop :=
  exists g gp, en_graph e' = Some g /\ running_graph g /\ (forall t, t ∈ dkeys (g_nodes g) -> pending g t) /\
    en_plan e' = Some gp /\ plan_fits g gp /\ en_state e' = ExecutionState.RUNNING.

Lemma begun_same e e' : same e e' -> begun e -> begun e'.
Proof.
  intros [[Hp Hs _ _ _ _] Hg] (g & gp & H1 & H2 & H3 & H4 & H5 & H6). exists g, gp.
  rewrite Hg, Hp, Hs. by split_and!.
Qed.

Lemma plan_own_spec context tasks e :
  ends (plan_own clock context tasks) (fun r e' => same e e' /\
    match r with
    | Ok plan => exists g gp, plan_graph plan = Some g /\ represents (plan_tasks plan) g /\
        generate_plan g = Ok gp /\ plan_spec g gp
    | Err _ => True
    end) e.
Proof.
  pose proof (create_plan_answers (en_planner e) (clock (lm_reads (sv_life (en_sup e))))
    (mkMission (mc_id context) (mc_title context) "" (mc_objective context) (mc_priority context) []) tasks) as Hc.
  unfold plan_own, ends, bind, get. cbn [fst snd]. destruct (create_plan _ _ _ tasks) as [plan|x]; [|done].
  cbn. split; [done|]. naive_solver.
Qed.

Lemma begin_spec context tasks xid meta e :
  ends (begin_execution clock uuid4 exn_text context tasks xid meta)
    (fun r e' => (same e e' /\ exists x, r = Err x) \/ begun e') e.
Proof.
  unfold begin_execution. apply ends_answers.
  { destruct xid as [x|]; [case_decide|]; [apply answers_uuid|by intros ?|apply answers_uuid]. }
  intros eid e1 Hs1. apply ends_bind. eapply ends_mono; [apply plan_own_spec|].
  intros [plan|x] e2 [Hs12 Hc]; [|left; split; [by transitivity e1|by eexists]].
  destruct Hc as (g & gp & Hg & Hrep & Hgp & Hspec). rewrite Hg.
  assert (Hs2 : same e e2) by (by transitivity e1).
  apply ends_quiet; [apply quiet_sup| |intros x e3 Hs3; left; split; [by transitivity e2|by eexists]].
  intros [] e3 Hs3. apply ends_answers; [apply answers_uuid|]. intros gid e4 Hs4.
  apply ends_answers; [apply answers_now|]. intros now e5 Hs5.
  destruct (fresh_running _ _ Hrep) as [Hrun Hpend].
  apply ends_update. set (e6 := with_context _ e5).
  apply ends_update. set (e7 := with_graph _ e6).
  apply ends_bind. unfold ends at 1. cbn [lift fst snd]. rewrite Hgp.
  apply ends_update. set (e8 := with_plan _ e7).
  apply ends_update. set (e9 := with_engine_state _ e8).
  assert (Hb : begun e9) by (exists g, gp; split_and!; try done; by apply plan_fits_spec).
  clearbody e9. apply ends_answers; [apply answers_emit|]. intros [] e10 Hs10.
  apply ends_quiet; [apply quiet_sup| |].
  - intros [] e11 Hs11. right. eapply begun_same; [|exact Hb]. by transitivity e10.
  - intros x e11 Hs11. right. eapply begun_same; [|exact Hb]. by transitivity e10.
Qed.

(** ** The state machine of the engine *)

Inductive engine_step : ExecutionState.t -> ExecutionState.t -> Prop :=
  | gs_started : engine_step ExecutionState.IDLE ExecutionState.RUNNING
  | gs_refused : engine_step ExecutionState.IDLE ExecutionState.FAILED
  | gs_escaped : engine_step ExecutionState.IDLE ExecutionState.INITIALIZING
  | gs_paused : engine_step ExecutionState.RUNNING ExecutionState.PAUSED
  | gs_resumed : engine_step ExecutionState.PAUSED ExecutionState.RUNNING
  | gs_cancelled s : engine_terminal s = false -> engine_step s ExecutionState.CANCELLED
  | gs_recovered : engine_step ExecutionState.FAILED ExecutionState.RUNNING
  | gs_completed : engine_step ExecutionState.RUNNING ExecutionState.COMPLETED
  | gs_failed : engine_step ExecutionState.RUNNING ExecutionState.FAILED.

(** The graph and the plan go together; there is none before the start. *)
Record engine_ok e : Prop := EngineOk {
  eo_graph : match en_graph e with
             | Some g => running_graph g /\ exists p, en_plan e = Some p /\ plan_fits g p
             | None => en_plan e = None
             end;
  eo_idle : en_state e = ExecutionState.IDLE -> en_graph e = None
}.

(** What one operation makes of the engine. *)
Record op_done e e' : Prop := OpDone {
  od_ok : engine_ok e';
  od_state : en_state e' = en_state e \/ engine_step (en_state e) (en_state e');
  od_graph : forall g, en_graph e = Some g -> exists g', en_graph e' = Some g' /\ advanced g g'
}.

Lemma same_ok e e' : same e e' -> engine_ok e -> engine_ok e'.
Proof.
  intros [Ha Hg] [Ho Hi]. split; rewrite Hg; [|by rewrite (ap_state _ _ Ha)].
  by rewrite (ap_plan _ _ Ha).
Qed.

Lemma same_done e e' : engine_ok e -> same e e' -> op_done e e'.
Proof.
  intros Ho Hs. split; [by eapply same_ok|left; apply Hs|]. intros g Hg. exists g.
  destruct Hs as [_ ->]. by split.
Qed.

(** The same engine, in another state. *)
Definition restated (st : ExecutionState.t) e e' : Prop :=
  en_state e' = st /\ en_graph e' = en_graph e /\ en_plan e' = en_plan e.

Lemma restated_ok st e e' : st <> ExecutionState.IDLE -> engine_ok e -> restated st e e' -> engine_ok e'.
Proof. intros Hst [Ho Hi] (Hs & Hg & Hp). split; rewrite Hg; [by rewrite Hp|congruence]. Qed.

Lemma restated_done st e e' :
  engine_ok e -> st <> ExecutionState.IDLE -> engine_step (en_state e) st -> restated st e e' -> op_done e e'.
Proof.
  intros Ho Hst Hstep Hr. split; [by eapply restated_ok|right|].
  - by destruct Hr as [-> _].
  - intros g Hg. exists g. destruct Hr as (_ & -> & _). by split.
Qed.

Lemma restated_same st e e1 e2 : restated st e e1 -> same e1 e2 -> restated st e e2.
Proof. intros (Hs & Hg & Hp) [Ha Hg']. split_and!; [rewrite (ap_state _ _ Ha)|congruence|rewrite (ap_plan _ _ Ha)]; done. Qed.

Lemma restated_set st e : restated st e (with_engine_state st e).
Proof. done. Qed.

(** ** The operations *)

Lemma quiet_on_mission op ev : quiet (on_mission op ev).
Proof.
  unfold on_mission. apply eng_quiet_bind; [apply eng_quiet_get|]. intros e. destruct (en_context e) as [c|]; [|apply eng_quiet_ret].
  apply eng_quiet_bind; [apply quiet_sup|]. intros _. apply eng_answers_quiet, answers_emit.
Qed.

(** A change of state, then something quiet. *)
Lemma set_state_quiet {A} st (f : unit -> M (Engine D) A) e :
  (forall u, quiet (f u)) -> restated st e (bind (set_state st) f e).2.
Proof.
  intros Hf. cbn. eapply restated_same; [apply restated_set|apply Hf].
Qed.

Lemma start_done context tasks xid meta e :
  engine_ok e -> op_done e (start clock uuid4 exn_text context tasks xid meta e).2.
Proof.
  intros Ho. unfold start. unfold bind at 1, get at 1.
  destruct (decide (en_state e = ExecutionState.IDLE)) as [Hidle|]; [|by apply same_done].
  pose proof (eo_idle _ Ho Hidle) as Hng. pose proof (eo_graph _ Ho) as Hnp. rewrite Hng in Hnp.
  unfold bind at 1, set_state, update_engine at 1. set (e1 := with_engine_state _ e).
  change (ends (now <- eng_now clock ;; update_engine (with_start (Some now)) ;;;
    catch (begin_execution clock uuid4 exn_text context tasks xid meta) is_start_error (fun x =>
      set_state ExecutionState.FAILED ;;; eng_emit ExecutionEvent.EXECUTION_FAILED [("error", PStr (exn_text x))] ;;;
      raise (engine_error "{}" [exn_text x]))) (fun _ e' => op_done e e') e1).
  apply ends_answers; [apply answers_now|]. intros now e2 [Ha2 Hg2].
  apply ends_update. set (e3 := with_start (Some now) e2).
  assert (H3 : restated ExecutionState.INITIALIZING e e3).
  { split_and!; [exact (ap_state _ _ Ha2)|exact Hg2|exact (ap_plan _ _ Ha2)]. }
  clearbody e3. clear e1 e2 Ha2 Hg2. pose proof (begin_spec context tasks xid meta e3) as Hb.
  unfold ends in *. unfold catch.
  destruct (begin_execution clock uuid4 exn_text context tasks xid meta e3) as [r e4]. cbn [fst snd] in *.
  destruct Hb as [[Hs [x ->]]|Hb].
  - assert (H4 : restated ExecutionState.INITIALIZING e e4) by (by eapply restated_same).
    destruct (is_start_error (exn_cls x)).
    + apply (restated_done ExecutionState.FAILED); [done..|rewrite Hidle; constructor|].
      destruct H4 as (_ & Hg & Hp). by split_and!.
    + apply (restated_done ExecutionState.INITIALIZING); [done..|rewrite Hidle; constructor|exact H4].
  - assert (Hdone : forall st, st ∈ [ExecutionState.RUNNING; ExecutionState.FAILED] ->
      forall e', restated st e4 e' -> op_done e e').
    { intros st Hst e' (Hs' & Hg' & Hp'). destruct Hb as (g & gp & Hg & Hr & _ & Hp & Hfit & _). split.
      - split; rewrite Hg', Hg; [|intros Hi; rewrite Hs' in Hi; rewrite Hi in Hst; const_absurd Hst].
        split; [done|]. exists gp. by rewrite Hp'.
      - right. rewrite Hidle, Hs'. apply elem_of_cons in Hst as [->| ->%list_elem_of_singleton]; constructor.
      - intros g0. by rewrite Hng. }
    assert (Hrun : op_done e e4).
    { apply (Hdone ExecutionState.RUNNING); [const_elem|]. destruct Hb as (? & ? & ? & ? & ? & ? & ? & ?). by split_and!. }
    destruct r as [c|x]; [done|]. destruct (is_start_error (exn_cls x)); [|done].
    apply (Hdone ExecutionState.FAILED); [const_elem|by split_and!].
Qed.

Lemma pause_done e : engine_ok e -> op_done e (pause clock e).2.
Proof.
  intros Ho. unfold pause. unfold bind at 1, get at 1. case_decide as Hst; [|by apply same_done].
  apply (restated_done ExecutionState.PAUSED); [done..|rewrite Hst; constructor|].
  apply set_state_quiet. intros u. apply quiet_on_mission.
Qed.

Lemma resume_done e : engine_ok e -> op_done e (resume clock e).2.
Proof.
  intros Ho. unfold resume. unfold bind at 1, get at 1. case_decide as Hst; [|by apply same_done].
  apply (restated_done ExecutionState.RUNNING); [done..|rewrite Hst; constructor|].
  apply set_state_quiet. intros u. apply quiet_on_mission.
Qed.

Lemma cancel_done e : engine_ok e -> op_done e (cancel clock e).2.
Proof.
  intros Ho. unfold cancel. unfold bind at 1, get at 1.
  destruct (engine_terminal (en_state e)) eqn:Ht; [by apply same_done|].
  apply (restated_done ExecutionState.CANCELLED); [done..|by constructor|].
  unfold set_state. unfold bind at 1, update_engine at 1. set (e1 := with_engine_state _ e).
  assert (H1 : restated ExecutionState.CANCELLED e e1) by done. clearbody e1.
  destruct (en_context e) as [c|]; [|done].
  change (ends (sup (discard (cancel_mission clock (xc_mission c))) ;;; discard (conclude_result clock false) ;;;
    eng_emit ExecutionEvent.EXECUTION_FAILED [("execution_id", PStr (xc_id c)); ("reason", PStr "cancelled")])
    (fun _ e' => restated ExecutionState.CANCELLED e e') e1).
  apply ends_quiet; [apply quiet_sup| |intros x e2 Hs2; by eapply restated_same].
  intros [] e2 Hs2. assert (H2 : restated ExecutionState.CANCELLED e e2) by (by eapply restated_same).
  apply ends_bind. eapply ends_wp.
  { eapply (wp_discarded _ _ (concluded ExecutionState.CANCELLED false e2)); [apply (wp_conclude false ExecutionState.CANCELLED)|].
    intros r e3 (_ & Hc & _). by apply Hc, H2. }
  intros [] e3 [C1 C2 C3 C4 _ _ _]. eapply ends_wp; [apply answers_emit|]. intros [] e4 Hs4. eapply restated_same; [|exact Hs4].
  destruct H2 as (_ & Hg & Hp). split_and!; [done|congruence|congruence].
Qed.

(** Resuming a mission raises [SupervisorError] and nothing else. *)
Lemma resume_agents_answer aids (s : Supervisor) :
  exists s', for_each aids (fun aid => if_agent_state aid AgentState.PAUSED (resume_agent clock aid)) s = (Ok tt, s').
Proof.
  revert s. induction aids as [|aid aids IH]; intros s; [by exists s|]. cbn [for_each].
  assert (Hone : exists s', if_agent_state aid AgentState.PAUSED (resume_agent clock aid) s = (Ok tt, s')).
  { unfold if_agent_state, ignoring_lifecycle, catch, bind at 1, life, zoom. unfold get_agent.
    destruct (dget (lm_agents (sv_life s)) aid) as [a|] eqn:Ha; [|by eexists].
    destruct (decide (agent_state a = AgentState.PAUSED)) as [Hp|]; [|by eexists].
    unfold discard, bind. cbn [sv_life with_life].
    rewrite resume_agent_eq, Ha, decide_True by done. by eexists. }
  destruct Hone as [s1 Hs1]. unfold bind. rewrite Hs1. apply IH.
Qed.

Lemma resume_mission_raises mid (s : Supervisor) x s' :
  resume_mission clock mid s = (Err x, s') -> exn_cls x = SupervisorError.
Proof.
  unfold resume_mission. rewrite check_get. destruct (dget (sv_missions s) mid) as [m|] eqn:Hm; [|by intros [= <- _]].
  unfold bind at 1. rewrite transition_mission_eq, Hm. case_decide; [|by intros [= <- _]].
  unfold bind, each_agent, bind, get.
  destruct (resume_agents_answer (iter_set (agents_of (after_move clock s mid m MissionState.RUNNING) mid))
    (after_move clock s mid m MissionState.RUNNING)) as [s1 ->]. cbn. discriminate.
Qed.

Lemma recover_mission_raises e x e' : recover_mission clock e = (Err x, e') -> exn_cls x = SupervisorError.
Proof.
  unfold recover_mission, bind at 1, get at 1. destruct (en_context e) as [c|]; [|discriminate].
  unfold bind, sup, zoom. rewrite get_mission_eq.
  destruct (dget (sv_missions (en_sup e)) (xc_mission c)) as [m|]; [|by intros [= <- _]].
  destruct (bool_decide _); [|discriminate]. cbn [en_sup with_sup]. unfold discard, bind.
  destruct (resume_mission clock (xc_mission c) (en_sup e)) as [[r|y] s1] eqn:Hr; [discriminate|].
  intros [= -> _]. by eapply resume_mission_raises.
Qed.

Lemma quiet_recover_mission : quiet (recover_mission clock).
Proof.
  unfold recover_mission. apply eng_quiet_bind; [apply eng_quiet_get|]. intros e.
  destruct (en_context e) as [c|]; [|apply eng_quiet_ret]. apply eng_quiet_bind; [apply quiet_sup|]. intros m.
  case_match; [apply quiet_sup|apply eng_quiet_ret].
Qed.

Lemma recover_eq e :
  recover clock e =
  if decide (en_state e = ExecutionState.FAILED) then
    match recover_mission clock (with_engine_state ExecutionState.RECOVERING e) with
    | (Ok _, e2) =>
        (Ok true, (eng_emit ExecutionEvent.EXECUTION_RECOVERED [("execution_id", PStr (context_id e))]
                     (count_recovery (with_engine_state ExecutionState.RUNNING e2))).2)
    | (Err x, e2) =>
        if is_supervisor_error (exn_cls x) then (Ok false, with_engine_state ExecutionState.FAILED e2) else (Err x, e2)
    end
  else (Ok false, e).
Proof.
  unfold recover, bind at 1, get. case_decide; [|done]. unfold catch, bind, set_state, update_engine.
  by destruct (recover_mission clock (with_engine_state ExecutionState.RECOVERING e)) as [[[]|x] e2].
Qed.

(** [recover] answers: the engine runs again, or it is left FAILED. *)
Lemma recover_spec e :
  ends (recover clock) (fun r e' => exists b, r = Ok b /\
    if b then en_state e = ExecutionState.FAILED /\ restated ExecutionState.RUNNING e e' /\ en_context e' = en_context e
    else restated (en_state e) e e') e.
Proof.
  unfold ends. rewrite recover_eq. case_decide as Hst; [|by exists false].
  set (e1 := with_engine_state ExecutionState.RECOVERING e).
  pose proof (quiet_recover_mission e1) as Hq. pose proof (recover_mission_raises e1) as Hx.
  destruct (recover_mission clock e1) as [[[]|x] e2]; cbn [fst snd] in *;
    destruct Hq as [[H1 H2 H3 H4 H5 H6] Hg].
  - exists true. split; [done|]. by split_and!.
  - unfold is_supervisor_error. rewrite bool_decide_eq_true_2 by (by eapply Hx).
    exists false. split; [done|]. rewrite Hst. by split_and!.
Qed.

Lemma recover_done e : engine_ok e -> op_done e (recover clock e).2.
Proof.
  intros Ho. pose proof (recover_spec e) as Hr. unfold ends in Hr.
  destruct Hr as (b & _ & Hb). destruct b.
  - destruct Hb as (Hst & Hr & _). apply (restated_done ExecutionState.RUNNING); [done..|rewrite Hst; constructor|done].
  - destruct Hb as (Hs & Hg & Hp). pose proof Ho as [Hog Hoi]. split.
    + split; rewrite Hg; [by rewrite Hp|by rewrite Hs].
    + by left.
    + intros g Hgr. exists g. by rewrite Hg.
Qed.

(** [tick] answers; when the engine runs a graph it is [ticked]. *)
Lemma wp_tick e :
  engine_ok e ->
  wp (tick clock uuid_hex uuid4 runtime_selector exn_text) (fun evs e' =>
    match en_graph e with
    | Some g =>
        if decide (en_state e = ExecutionState.RUNNING) then
          exists m g', ticked m g g' /\
            m = sv_life (discard (Supervisor.tick clock uuid_hex runtime_selector) (en_sup e)).2 /\
            tick_verdict g' e e'
        else evs = [] /\ e' = e
    | None => evs = [] /\ same e e'
    end) e.
Proof.
  intros Ho. unfold tick. apply wp_get. case_decide as Hst.
  2:{ apply wp_ret. by destruct (en_graph e). }
  apply wp_bind. unfold wp at 1, catch, sup, zoom.
  destruct (discard (Supervisor.tick clock uuid_hex runtime_selector) (en_sup e)) as [r s1] eqn:Hs.
  assert (Hgo : wp (e0 <- get ;; match en_graph e0, en_plan e0 with
                       | Some _, Some plan => tick_graph clock uuid4 exn_text plan
                       | _, _ => ret []
                       end)
    (fun evs e' => match en_graph e with
    | Some g => exists m g', ticked m g g' /\
            m = sv_life (discard (Supervisor.tick clock uuid_hex runtime_selector) (en_sup e)).2 /\ tick_verdict g' e e'
    | None => evs = [] /\ same e e' end) (with_sup s1 e)).
  { apply wp_get. cbn [en_graph en_plan with_sup]. pose proof (eo_graph _ Ho) as Hg.
    destruct (en_graph e) as [g|] eqn:Heg; [|by apply wp_ret].
    destruct Hg as (Hr & p & Hp & Hfit). rewrite Hp.
    eapply wp_mono; [apply (wp_tick_graph g p (with_sup s1 e))|]; [done..|].
    intros evs e' (g' & Ht & Hv). exists (sv_life s1), g'. split; [exact Ht|]. rewrite Hs. split; [done|].
    destruct Hv as [[He [C1 C2 C3 C4 C5 C6 C7]]|[[He [C1 C2 C3 C4 C5 C6 C7]]|(He & Hn & [A1 A2 A3 A4 A5 A6] & Hg')]].
    - left. by split.
    - right. left. by split.
    - right. right. by split_and!. }
  rewrite Hs in Hgo. destruct r as [[]|x]; cbn; exact Hgo.
Qed.

Lemma ticked_advanced m g g' : ticked m g g' -> running_graph g' /\ advanced g g'.
Proof. intros (g1 & _ & H1 & _ & H2 & H3 & _). split; [done|by transitivity g1]. Qed.

Lemma tick_done e : engine_ok e -> op_done e (tick clock uuid_hex uuid4 runtime_selector exn_text e).2.
Proof.
  intros Ho. destruct (wp_state _ _ _ (wp_tick e Ho)) as [evs Hq]. revert Hq.
  set (e' := (tick clock uuid_hex uuid4 runtime_selector exn_text e).2). pose proof (eo_graph _ Ho) as Hg.
  destruct (en_graph e) as [g|] eqn:Heg; [|intros [_ Hs]; by apply same_done].
  destruct (decide (en_state e = ExecutionState.RUNNING)) as [Hst|]; [|intros [_ ->]; by apply same_done].
  intros (m & g' & Ht & _ & Hv). apply ticked_advanced in Ht as [Hr Ha].
  destruct Hg as (_ & p & Hp & Hfit). assert (Hfit' : plan_fits g' p) by (by eapply plan_fits_advanced).
  assert (Hend : forall st, st <> ExecutionState.IDLE -> (st = ExecutionState.RUNNING \/ engine_step ExecutionState.RUNNING st) ->
    en_state e' = st -> en_graph e' = Some g' -> en_plan e' = Some p -> op_done e e').
  { intros st Hni Hs H1 H2 H3. split.
    - split; rewrite H2; [|congruence]. split; [done|]. by exists p.
    - rewrite H1, Hst. destruct Hs as [->|Hs]; [by left|by right].
    - intros g0. rewrite Heg. intros [= <-]. by exists g'. }
  destruct Hv as [[_ [C1 C2 C3 _ _ _ _]]|[[_ [C1 C2 C3 _ _ _ _]]|(_ & _ & Hap & Hg')]].
  - apply (Hend ExecutionState.COMPLETED); [done|right; constructor|done|done|]. by rewrite C3.
  - apply (Hend ExecutionState.FAILED); [done|right; constructor|done|done|]. by rewrite C3.
  - apply (Hend ExecutionState.RUNNING); [done|by left|by rewrite (ap_state _ _ Hap)|done|]. by rewrite (ap_plan _ _ Hap).
Qed.

Lemma discard_done {A} (m : M (Engine D) A) e : op_done e (m e).2 -> op_done e (discard m e).2.
Proof. by rewrite discard_state. Qed.

Lemma eng_op_done op e :
  engine_ok e -> op_done e (run_eng_op clock uuid_hex uuid4 runtime_selector exn_text op e).2.
Proof.
  intros Ho. destruct op; cbn [run_eng_op].
  - by apply same_done.
  - by apply discard_done, start_done.
  - by apply pause_done.
  - by apply resume_done.
  - by apply cancel_done.
  - by apply discard_done, recover_done.
  - by apply discard_done, tick_done.
  - apply same_done; [done|apply quiet_sup].
Qed.

Lemma eng_ops_done ops e :
  engine_ok e -> let e' := run_eng_ops clock uuid_hex uuid4 runtime_selector exn_text ops e in
  engine_ok e' /\ rtc engine_step (en_state e) (en_state e') /\
  forall g, en_graph e = Some g -> exists g', en_graph e' = Some g' /\ advanced g g'.
Proof.
  revert e. induction ops as [|op ops IH]; intros e Ho; [split_and!; [done..|]; intros g Hg; by exists g|].
  cbn. destruct (eng_op_done op e Ho) as [Ho' Hs Hg].
  destruct (IH _ Ho') as (Ho'' & Hs' & Hg'). split; [done|]. split.
  - destruct Hs as [Hs|Hs]; [by rewrite <- Hs|by eapply rtc_l].
  - intros g Hgr. destruct (Hg g Hgr) as (g1 & Hg1 & Ha1). destruct (Hg' g1 Hg1) as (g2 & Hg2 & Ha2).
    exists g2. split; [done|by transitivity g1].
Qed.

Lemma new_engine_ok s d h p : engine_ok (new_engine s d h p).
Proof. by split. Qed.
End engine.

(** * Properties *)

Section theorems.
Context `{!SetOrder}.
Variable clock : nat -> Z.
Variable uuid_hex uuid4 : nat -> string.
Variable runtime_selector : option (nat -> string -> res (option string)).
Variable exn_text : exn -> string.
Context {D : Type} `{!Chooser D}.
Implicit Types e : Engine D.
#[local] Abbreviation run_op := (run_eng_op (D := D) clock uuid_hex uuid4 runtime_selector exn_text).
#[local] Abbreviation run_ops := (run_eng_ops (D := D) clock uuid_hex uuid4 runtime_selector exn_text).
#[local] Abbreviation eng_tick := (tick (D := D) clock uuid_hex uuid4 runtime_selector exn_text).

(** C2: Refinement of the engine.  Whatever has been done with a new engine, the
    supervisor and the agents, one more operation moves the engine along its
    state machine, keeps the nodes and edges of its graph, and moves each node
    along PENDING, RUNNING and one of COMPLETED, FAILED and SKIPPED, never
    back. *)
Theorem engine_refines s d hermes planner ops op :
  let e := run_ops ops (new_engine s d hermes planner) in
  let e' := (run_op op e).2 in
  (en_state e' = en_state e \/ engine_step (en_state e) (en_state e')) /\
  forall g, en_graph e = Some g -> exists g', en_graph e' = Some g' /\ advanced g g'.
Proof.
  intros e e'. destruct (eng_ops_done clock uuid_hex uuid4 runtime_selector exn_text ops
    (new_engine s d hermes planner) (new_engine_ok s d hermes planner)) as [Ho _].
  destruct (eng_op_done clock uuid_hex uuid4 runtime_selector exn_text op e Ho) as [_ Hs Hg]. by split.
Qed.

(** C30: dependencies.  In every reachable state a node that has left PENDING has
    all its predecessors COMPLETED. *)
Theorem engine_dependencies s d hermes planner ops g x y :
  en_graph (run_eng_ops (D := D) clock uuid_hex uuid4 runtime_selector exn_text ops (new_engine s d hermes planner)) = Some g ->
  (x, y) ∈ pairs (g_edges g) -> ~ pending g y -> completed g x.
Proof.
  intros Hg. destruct (eng_ops_done clock uuid_hex uuid4 runtime_selector exn_text ops
    (new_engine s d hermes planner) (new_engine_ok s d hermes planner)) as [[Ho _] _].
  rewrite Hg in Ho. apply (rg_deps _ (proj1 Ho)).
Qed.

(** C3: A tick of a running engine answers, whatever the supervisor raises.  Every
    RUNNING node takes the outcome of the first agent with its id; every node
    that is then ready is dispatched, and the others are left alone; the run is
    COMPLETED exactly when every node has ended - with success, whatever has
    failed -, FAILED exactly when a pending node has only failed predecessors,
    and goes on otherwise. *)
Theorem tick_outcome e g :
  engine_ok e -> en_state e = ExecutionState.RUNNING -> en_graph e = Some g ->
  exists evs e' g', eng_tick e = (Ok evs, e') /\
    ticked (sv_life (discard (Supervisor.tick clock uuid_hex runtime_selector) (en_sup e)).2) g g' /\
    tick_verdict g' e e'.
Proof.
  intros Ho Hst Hg. destruct (wp_ok _ _ _ (wp_tick clock uuid_hex uuid4 runtime_selector exn_text e Ho))
    as (evs & e' & Hrun & Hq). rewrite Hg, decide_True in Hq by done. destruct Hq as (m & g' & Ht & -> & Hv).
  by exists evs, e', g'.
Qed.

(** ** Progress *)

(** progress.  When nothing runs and nothing has failed, a tick of an engine
    that has a pending node dispatches one. *)
Theorem tick_progress e g t :
  engine_ok e -> en_state e = ExecutionState.RUNNING -> en_graph e = Some g ->
  (forall u, u ∈ dkeys (g_nodes g) -> pending g u \/ completed g u) -> pending g t ->
  exists evs e' g' u, eng_tick e = (Ok evs, e') /\ pending g u /\
    nstat g' u ∈ [Some (StatusEnum NodeStatus.RUNNING); Some (StatusEnum NodeStatus.FAILED)] /\
    tick_verdict g' e e'.
Proof.
  intros Ho Hst Hg Hall Hpt. destruct (wp_ok _ _ _ (wp_tick clock uuid_hex uuid4 runtime_selector exn_text e Ho))
    as (evs & e' & Hrun & Hq). rewrite Hg, decide_True in Hq by done.
  destruct Hq as (m & g' & (g1 & Hr1 & Ha1 & Hs1 & _ & _ & Hd & _) & _ & Hv).
  pose proof (eo_graph _ Ho) as Hog. rewrite Hg in Hog. destruct Hog as [Hr _].
  assert (Hsame : forall u, u ∈ dkeys (g_nodes g) -> nstat g1 u = nstat g u).
  { intros u Hu. rewrite Hs1. by destruct (Hall u Hu) as [-> | ->]. }
  destruct (ready_exists g t (rg_inv _ Hr) Hall Hpt) as (u & Hu & Hpre). exists evs, e', g', u. split_and!; [done..| |done].
  destruct (Hd u) as [-> | ->]; [|set_solver..]. split.
  - unfold pending. rewrite Hsame; [done|by eapply nstat_key].
  - intros s. rewrite (av_edges _ _ Ha1). intros Hs. unfold completed. rewrite Hsame; [by apply Hpre|].
    by eapply nstat_key, Hpre.
Qed.

(** ** Runs that cannot end *)

Lemma ticked_failed m g g' t : ticked m g g' -> failed g t -> failed g' t.
Proof.
  intros Ht Hf. apply ticked_advanced in Ht as [_ Ha]. destruct (av_node _ _ Ha t _ Hf) as (y & Hy & Hxy).
  apply ended_absorbing in Hxy as ->; [done|]. unfold ended. const_elem.
Qed.

(** A pending node behind one that has not completed and never will. *)
Lemma ticked_pending m g g' s t :
  running_graph g -> ticked m g g' -> pending g t -> (s, t) ∈ pairs (g_edges g) -> failed g s -> pending g' t.
Proof.
  intros Hr (g1 & Hr1 & Ha1 & Hs1 & _ & _ & _ & Ho) Hp He Hf.
  assert (Hp1 : pending g1 t) by (unfold pending; rewrite Hs1; by rewrite Hp).
  unfold pending. rewrite Ho; [exact Hp1|]. intros [_ Hall].
  assert (Hc : completed g1 s) by (apply Hall; by rewrite (av_edges _ _ Ha1)).
  unfold completed in Hc. rewrite Hs1, Hf in Hc. discriminate.
Qed.

Lemma stuck_ticked m g g' : running_graph g -> ticked m g g' -> stuck g -> stuck g'.
Proof.
  intros Hr Ht (t & Hp & [s Hs] & Hall). pose proof (ticked_advanced _ _ _ Ht) as [_ Ha].
  exists t. rewrite (av_edges _ _ Ha). split_and!.
  - by eapply (ticked_pending m g g' s t Hr Ht Hp Hs), Hall.
  - by exists s.
  - intros u Hu. by eapply ticked_failed, Hall.
Qed.

(** A recovery is in vain.  Once a pending node has only failed predecessors,
    a tick of the engine fails the run, and so does the first tick after a
    recovery. *)
Theorem recovery_futile e g :
  engine_ok e -> en_state e = ExecutionState.FAILED -> en_graph e = Some g -> stuck g ->
  en_state (eng_tick (recover clock e).2).2 = ExecutionState.FAILED.
Proof.
  intros Ho Hst Hg Hstk. pose proof (recover_done clock e Ho) as [Ho1 _ _].
  pose proof (recover_spec clock e) as (b & _ & Hb).
  set (e1 := (recover clock e).2) in *. assert (Hg1 : en_graph e1 = Some g).
  { destruct b; [destruct Hb as (_ & (_ & -> & _) & _)|destruct Hb as (_ & -> & _)]; done. }
  destruct (wp_state _ _ _ (wp_tick clock uuid_hex uuid4 runtime_selector exn_text e1 Ho1)) as [evs Hq].
  rewrite Hg1 in Hq. case_decide as Hr1.
  - destruct Hq as (m & g' & Ht & _ & Hv). pose proof (eo_graph _ Ho1) as Hog. rewrite Hg1 in Hog.
    pose proof (stuck_ticked m g g' (proj1 Hog) Ht Hstk) as Hstk'.
    destruct Hv as [[He _]|[[_ Hc]|(_ & Hn & _)]]; [by destruct (stuck_not_ended g')|apply Hc|done].
  - destruct Hq as [_ ->]. destruct b; [|by destruct Hb as (-> & _)].
    destruct Hb as (_ & (Hs & _) & _). congruence.
Qed.

(** The requests between two ticks that leave the engine alone. *)
Definition passive (op : eng_op) : bool :=
  match op with ETick | ESup _ | EOnEvent _ => true | _ => false end.

(** A node waits, and every node that waits has a predecessor that has failed
    and one that has ended otherwise. *)
Definition dead (g : ExecutionGraph) : Prop :=
  (exists t, pending g t) /\
  forall t, pending g t ->
    (exists s, (s, t) ∈ pairs (g_edges g) /\ failed g s) /\
    exists s x, (s, t) ∈ pairs (g_edges g) /\ nstat g s = Some (StatusEnum x) /\
      x ∈ [NodeStatus.COMPLETED; NodeStatus.SKIPPED].

Lemma dead_ticked m g g' : running_graph g -> ticked m g g' -> dead g -> dead g'.
Proof.
  intros Hr Ht [[t Hp] Hall]. pose proof (ticked_advanced _ _ _ Ht) as [_ Ha]. split.
  - exists t. destruct (Hall t Hp) as [(s & Hs & Hf) _]. by eapply ticked_pending.
  - intros u Hu. destruct (Hall u) as [(s & Hs & Hf) (s' & x & Hs' & Hx & Hin)]; [by eapply pending_advanced|].
    rewrite (av_edges _ _ Ha). split; [exists s; split; [done|by eapply ticked_failed]|].
    exists s', x. split_and!; [done| |done]. destruct (av_node _ _ Ha s' x Hx) as (y & Hy & Hxy).
    apply ended_absorbing in Hxy as ->; [done|]. unfold ended. set_solver.
Qed.

Lemma dead_not_ended g : dead g -> ~ all_ended g /\ ~ stuck g.
Proof.
  intros [[t Hp] Hall]. split.
  - intros [_ He]. destruct (He t) as (x & Hx & Hin).
    + apply dget_is_Some. unfold pending, nstat in Hp. by destruct (dget (g_nodes g) t).
    + unfold pending in Hp. rewrite Hp in Hx. injection Hx as <-. unfold ended in Hin. const_absurd Hin.
  - intros (u & Hu & _ & Hf). destruct (Hall u Hu) as [_ (s & x & Hs & Hx & Hin)].
    specialize (Hf s Hs). unfold failed in Hf. rewrite Hx in Hf. injection Hf as ->. const_absurd Hin.
Qed.

(** A run that never ends.  When every pending node has both a failed
    predecessor and one that has completed or been skipped, the engine stays
    RUNNING through any ticks, whatever the agents and the supervisor do. *)
Theorem run_never_ends ops e g :
  engine_ok e -> en_state e = ExecutionState.RUNNING -> en_graph e = Some g -> dead g ->
  forallb passive ops = true -> en_state (run_ops ops e) = ExecutionState.RUNNING.
Proof.
  revert e g. induction ops as [|op ops IH]; intros e g Ho Hst Hg Hd Hp; [done|].
  apply andb_true_iff in Hp as [Hop Hp]. cbn. set (e1 := (run_eng_op _ _ _ _ _ op e).2).
  destruct (eng_op_done clock uuid_hex uuid4 runtime_selector exn_text op e Ho) as [Ho1 _ _]. fold e1 in Ho1.
  assert (Hnext : en_state e1 = ExecutionState.RUNNING /\ exists g1, en_graph e1 = Some g1 /\ dead g1).
  { destruct op; try discriminate; cbn in e1.
    - split; [done|by exists g].
    - pose proof (wp_state _ _ _ (wp_tick clock uuid_hex uuid4 runtime_selector exn_text e Ho)) as [evs Hq].
      unfold e1. rewrite discard_state. rewrite Hg, decide_True in Hq by done.
      destruct Hq as (m & g' & Ht & _ & Hv). pose proof (eo_graph _ Ho) as Hog. rewrite Hg in Hog.
      pose proof (dead_ticked m g g' (proj1 Hog) Ht Hd) as Hd'. destruct (dead_not_ended g' Hd') as [Hne Hns].
      destruct Hv as [[? _]|[[? _]|(_ & _ & Ha & Hg')]]; [done..|]. split; [by rewrite (ap_state _ _ Ha)|by exists g'].
    - destruct (quiet_sup (run_sup_op clock uuid_hex runtime_selector exn_text op) e) as [Ha Hg'].
      split; [exact (eq_trans (ap_state _ _ Ha) Hst)|]. exists g. split; [exact (eq_trans Hg' Hg)|done]. }
  destruct Hnext as (Hst1 & g1 & Hg1 & Hd1). by apply (IH e1 g1).
Qed.

(** Recovery of nothing.  An engine whose start was refused has no graph;
    [recover] makes it RUNNING, and no tick ends it. *)
Theorem recovered_without_graph ops e :
  engine_ok e -> en_state e = ExecutionState.FAILED -> en_graph e = None -> en_context e = None ->
  forallb passive ops = true ->
  (recover clock e).1 = Ok true /\ en_state (run_ops ops (recover clock e).2) = ExecutionState.RUNNING.
Proof.
  intros Ho Hst Hg Hc Hp. assert (Hrec : exists e1, recover clock e = (Ok true, e1) /\
    restated ExecutionState.RUNNING e e1).
  { rewrite recover_eq, decide_True by done. unfold recover_mission, bind, get. cbn [en_context with_engine_state].
    rewrite Hc. eexists. split; [reflexivity|]. by split_and!. }
  destruct Hrec as (e1 & Hr & Hs1 & Hg1 & Hp1). pose proof (recover_done clock e Ho) as [Ho1 _ _].
  rewrite Hr in Ho1 |- *. cbn [fst snd] in *. split; [done|]. rewrite Hg in Hg1. clear Hr Hp1.
  revert e1 Ho1 Hs1 Hg1 Hp. induction ops as [|op ops IH]; intros e1 Ho1 Hs1 Hg1 Hp; [done|].
  apply andb_true_iff in Hp as [Hop Hp]. cbn. set (e2 := (run_eng_op _ _ _ _ _ op e1).2).
  destruct (eng_op_done clock uuid_hex uuid4 runtime_selector exn_text op e1 Ho1) as [Ho2 _ _]. fold e2 in Ho2.
  assert (Hsame : same e1 e2).
  { destruct op; try discriminate; cbn in e2.
    - done.
    - unfold e2. rewrite discard_state.
      pose proof (wp_state _ _ _ (wp_tick clock uuid_hex uuid4 runtime_selector exn_text e1 Ho1)) as [evs Hq].
      rewrite Hg1 in Hq. apply Hq.
    - apply quiet_sup. }
  destruct Hsame as [Ha Hgr]. apply (IH e2); [done|by rewrite (ap_state _ _ Ha)|by rewrite Hgr|done].
Qed.
End theorems.

(** ** A concrete run *)

(** A decision engine that always answers the same runtime. *)
#[local] Instance demo_chooser : Chooser unit.
Proof.
  refine {| choose cap := ret "local" |}. intros cap d e d' [=].
Defined.

Definition demo_uuid (i : nat) : string := "0000000" +:+ demo_hex i.

Abbreviation demo_run ops :=
  (run_eng_ops demo_clock demo_hex demo_uuid None demo_text ops
     (new_engine (new_supervisor demo_planner (new_manager 300000)) tt false None)).

Definition demo_start (tasks : list PlannedTask) : eng_op := EStart (demo_mission_ctx "m") tasks (Some "x") None.

Definition demo_complete (aid : string) : eng_op := ESup (SLife (OpComplete aid)).
Definition demo_fail (aid : string) : eng_op := ESup (SLife (OpFail aid)).

Definition demo_statuses (ops : list eng_op) : list (string * string) :=
  map (fun n => (node_id n, status_str (node_st n))) (list_nodes (the_graph (demo_run ops))).

(** The four tasks, their agents completed in turn. *)
Definition demo_course : list eng_op :=
  [demo_start demo_tasks; ETick; demo_complete "m__design__0"; ETick; demo_complete "m__code__1";
   demo_complete "m__docs__2"; ETick; demo_complete "m__review__3"; ETick].

Example demo_course_ends :
  en_state (demo_run demo_course) = ExecutionState.COMPLETED /\
  option_map xr_completed (en_result (demo_run demo_course)) = Some 4 /\
  xs_success (en_stats (demo_run demo_course)) = (0 / 1)%Q.
Proof. vm_compute. done. Qed.

(** The agents of the supervisor come first: the engine does not look at those
    it has started itself. *)
Example demo_own_agent_ignored :
  demo_statuses [demo_start demo_tasks; ETick; demo_complete "exec__design__00000001"; ETick; ETick]
  = [("design", "running"); ("code", "pending"); ("docs", "pending"); ("review", "pending")].
Proof. vm_compute. reflexivity. Qed.

(** A task of another mission with the same id completes the node. *)
Example demo_foreign_agent :
  demo_statuses [ESup (SCreate (demo_mission_ctx "old") demo_tasks); ESup (SStart "old"); ESup STick;
                 demo_complete "old__design__0"; demo_start demo_tasks; ETick; ETick]
  = [("design", "completed"); ("code", "running"); ("docs", "running"); ("review", "pending")].
Proof. vm_compute. reflexivity. Qed.

(** A run all of whose tasks have failed is a success. *)
Example demo_failure_succeeds :
  let e := demo_run [demo_start [demo_task "a" 1 []]; ETick; demo_fail "m__a__0"; ETick] in
  en_state e = ExecutionState.COMPLETED /\
  option_map (fun r => (xr_success r, xr_completed r, xr_failed r)) (en_result e) = Some (true, 0, 1).
Proof. vm_compute. done. Qed.

(** A [ValidationError] escapes from the start: the engine is left INITIALIZING. *)
Example demo_start_escapes : en_state (demo_run [demo_start demo_isolated; ETick]) = ExecutionState.INITIALIZING.
Proof. vm_compute. reflexivity. Qed.

(** A mission the supervisor has completed cannot be paused: the engine is left
    PAUSED, and [pause] raises. *)
Definition demo_late_pause : list eng_op :=
  [demo_start demo_tasks; ETick; demo_complete "m__design__0"; ETick; demo_complete "m__code__1";
   demo_complete "m__docs__2"; ETick; demo_complete "m__review__3"; ESup STick; EPause].

Example demo_pause_raises :
  en_state (demo_run demo_late_pause) = ExecutionState.PAUSED /\
  en_state (demo_run (demo_late_pause ++ [EResume; ETick])) = ExecutionState.COMPLETED.
Proof. vm_compute. done. Qed.

(** ** Witnesses *)

Lemma demo_ok ops : engine_ok (demo_run ops).
Proof.
  exact (proj1 (eng_ops_done demo_clock demo_hex demo_uuid None demo_text ops
    (new_engine (new_supervisor demo_planner (new_manager 300000)) tt false None) (new_engine_ok _ _ _ _))).
Qed.

(** The graph of a run that has one. *)
Lemma demo_graph_of ops : is_Some (en_graph (demo_run ops)) -> en_graph (demo_run ops) = Some (the_graph (demo_run ops)).
Proof. intros [g Hg]. unfold the_graph. by rewrite Hg. Qed.

Definition demo_ended_graph : ExecutionGraph := the_graph (demo_run demo_course).

Lemma demo_course_graph : en_graph (demo_run demo_course) = Some demo_ended_graph.
Proof. apply demo_graph_of. vm_compute. by eexists. Qed.

Lemma demo_course_edge : ("design", "code") ∈ pairs (g_edges demo_ended_graph).
Proof. apply (bool_decide_eq_true_1 _). vm_compute. reflexivity. Qed.

Lemma demo_course_left : ~ pending demo_ended_graph "code".
Proof. unfold pending. vm_compute. discriminate. Qed.

Lemma engine_dependencies_witness :
  en_graph (demo_run demo_course) = Some demo_ended_graph /\ completed demo_ended_graph "design".
Proof.
  split; [exact demo_course_graph|].
  exact (engine_dependencies demo_clock demo_hex demo_uuid None demo_text
    (new_supervisor demo_planner (new_manager 300000)) tt false None demo_course demo_ended_graph "design" "code"
    demo_course_graph demo_course_edge demo_course_left).
Defined.

Definition demo_first : list eng_op := [demo_start demo_tasks; ETick; demo_complete "m__design__0"].

Lemma tick_outcome_witness :
  en_state (demo_run demo_first) = ExecutionState.RUNNING /\
  exists evs e' g', tick demo_clock demo_hex demo_uuid None demo_text (demo_run demo_first) = (Ok evs, e') /\
    ticked (sv_life (discard (Supervisor.tick demo_clock demo_hex None) (en_sup (demo_run demo_first))).2)
      (the_graph (demo_run demo_first)) g' /\
    tick_verdict g' (demo_run demo_first) e'.
Proof.
  assert (Hs : en_state (demo_run demo_first) = ExecutionState.RUNNING) by (vm_compute; reflexivity).
  split; [exact Hs|].
  refine (tick_outcome demo_clock demo_hex demo_uuid None demo_text _ _ (demo_ok demo_first) Hs _).
  apply demo_graph_of. vm_compute. by eexists.
Defined.

Lemma tick_progress_witness :
  pending (the_graph (demo_run [demo_start demo_tasks])) "review" /\
  exists evs e' g' u, tick demo_clock demo_hex demo_uuid None demo_text (demo_run [demo_start demo_tasks]) = (Ok evs, e') /\
    pending (the_graph (demo_run [demo_start demo_tasks])) u /\
    nstat g' u ∈ [Some (StatusEnum NodeStatus.RUNNING); Some (StatusEnum NodeStatus.FAILED)] /\
    tick_verdict g' (demo_run [demo_start demo_tasks]) e'.
Proof.
  assert (Hp : pending (the_graph (demo_run [demo_start demo_tasks])) "review") by (vm_compute; reflexivity).
  split; [exact Hp|].
  refine (tick_progress demo_clock demo_hex demo_uuid None demo_text _ _ "review" (demo_ok [demo_start demo_tasks]) _ _ _ Hp).
  - vm_compute. reflexivity.
  - apply demo_graph_of. vm_compute. by eexists.
  - intros u Hu. left. assert (Hk : dkeys (g_nodes (the_graph (demo_run [demo_start demo_tasks])))
      = ["design"; "code"; "docs"; "review"]) by (vm_compute; reflexivity).
    rewrite Hk in Hu. repeat (apply elem_of_cons in Hu as [->|Hu]; [vm_compute; reflexivity|]).
    exfalso. by apply elem_of_nil in Hu.
Defined.

(** [design] fails: [code] and [docs] can only fail. *)
Definition demo_failed_run : list eng_op := [demo_start demo_tasks; ETick; demo_fail "m__design__0"; ETick].

Lemma recovery_futile_witness :
  en_state (demo_run demo_failed_run) = ExecutionState.FAILED /\ stuck (the_graph (demo_run demo_failed_run)) /\
  en_state (tick demo_clock demo_hex demo_uuid None demo_text (recover demo_clock (demo_run demo_failed_run)).2).2
  = ExecutionState.FAILED.
Proof.
  assert (Hs : en_state (demo_run demo_failed_run) = ExecutionState.FAILED) by (vm_compute; reflexivity).
  assert (Hstk : stuck (the_graph (demo_run demo_failed_run))).
  { assert (He : pairs (g_edges (the_graph (demo_run demo_failed_run)))
      = [("design", "code"); ("design", "docs"); ("code", "review"); ("docs", "review")]) by (vm_compute; reflexivity).
    exists "code". rewrite He. split; [vm_compute; reflexivity|]. split; [exists "design"; const_elem|].
    intros s Hin. repeat (apply elem_of_cons in Hin as [Heq|Hin]; [injection Heq; intros; subst; first [vm_compute; reflexivity|discriminate]|]).
    exfalso. by apply elem_of_nil in Hin. }
  split; [exact Hs|]. split; [exact Hstk|].
  refine (recovery_futile demo_clock demo_hex demo_uuid None demo_text _ _ (demo_ok demo_failed_run) Hs _ Hstk).
  apply demo_graph_of. vm_compute. by eexists.
Defined.

(** [code] fails and [docs] completes: [review] waits for ever. *)
Definition demo_half : list eng_op :=
  [demo_start demo_tasks; ETick; demo_complete "m__design__0"; ETick; demo_fail "m__code__1";
   demo_complete "m__docs__2"; ETick].

Lemma demo_half_dead : dead (the_graph (demo_run demo_half)).
Proof.
  assert (Hn : map (fun p => (p.1, node_st p.2)) (g_nodes (the_graph (demo_run demo_half)))
    = [("design", StatusEnum NodeStatus.COMPLETED); ("code", StatusEnum NodeStatus.FAILED);
       ("docs", StatusEnum NodeStatus.COMPLETED); ("review", StatusEnum NodeStatus.PENDING)]) by (vm_compute; reflexivity).
  assert (He : pairs (g_edges (the_graph (demo_run demo_half)))
    = [("design", "code"); ("design", "docs"); ("code", "review"); ("docs", "review")]) by (vm_compute; reflexivity).
  set (g := the_graph (demo_run demo_half)) in *. clearbody g.
  assert (Hst : forall t, nstat g t = dget (map (fun p => (p.1, node_st p.2)) (g_nodes g)) t).
  { clear Hn. intros t. unfold nstat. induction (g_nodes g) as [|[k n] d IH]; [done|]. cbn. case_decide; [done|exact IH]. }
  rewrite Hn in Hst. unfold dead, pending, failed. rewrite He. split; [exists "review"; by rewrite Hst|].
  intros t Ht. rewrite Hst in Ht. cbn in Ht. repeat (case_decide; [subst; try discriminate Ht|]); [|done].
  split.
  - exists "code". split; [const_elem|by rewrite Hst].
  - exists "docs", NodeStatus.COMPLETED. split; [const_elem|]. split; [by rewrite Hst|const_elem].
Qed.

Lemma run_never_ends_witness :
  en_state (demo_run demo_half) = ExecutionState.RUNNING /\
  en_state (run_eng_ops demo_clock demo_hex demo_uuid None demo_text
    [ETick; ESup STick; ETick; ETick] (demo_run demo_half)) = ExecutionState.RUNNING.
Proof.
  assert (Hs : en_state (demo_run demo_half) = ExecutionState.RUNNING) by (vm_compute; reflexivity).
  split; [exact Hs|].
  refine (run_never_ends demo_clock demo_hex demo_uuid None demo_text [ETick; ESup STick; ETick; ETick] _ _
    (demo_ok demo_half) Hs _ demo_half_dead eq_refl).
  apply demo_graph_of. vm_compute. by eexists.
Defined.

(** The planner refuses a task that waits for itself. *)
Lemma recovered_without_graph_witness :
  en_state (demo_run [demo_start demo_loop]) = ExecutionState.FAILED /\
  en_state (run_eng_ops demo_clock demo_hex demo_uuid None demo_text [ETick; ETick]
    (recover demo_clock (demo_run [demo_start demo_loop])).2) = ExecutionState.RUNNING.
Proof.
  assert (Hs : en_state (demo_run [demo_start demo_loop]) = ExecutionState.FAILED) by (vm_compute; reflexivity).
  assert (Hg : en_graph (demo_run [demo_start demo_loop]) = None) by (vm_compute; reflexivity).
  assert (Hc : en_context (demo_run [demo_start demo_loop]) = None) by (vm_compute; reflexivity).
  split; [exact Hs|].
  exact (proj2 (recovered_without_graph demo_clock demo_hex demo_uuid None demo_text [ETick; ETick] _
    (demo_ok [demo_start demo_loop]) Hs Hg Hc eq_refl)).
Defined.
