(* ===== verification/Approvals.v ===== *)
(** * Human approvals ([backend/security/approvals.py], [empreinte.py])

    The queue of pending approvals: recording, deciding, consuming, and the
    fingerprint that identifies an action.  The table is the list of its rows in
    insertion order; two rows decided at the same instant are read in that order.
    The clock, the ids, the digest, the JSON text and the file system are oracles. *)
From stdpp Require Import base gmap strings list sets sorting pretty.
From Stdlib Require Import ZArith Ascii Lia.
From S2P Require Import Prelude.
#[local] Open Scope Z_scope.

(** ** Data *)

Definition DEFAULT_TTL_MINUTES : Z := 15.
Definition PORTEE_ACTION : string := "action".
Definition PORTEE_ARBORESCENCE : string := "arborescence".
Definition TTL_PORTEE_MINUTES : Z := 5.
Definition MAX_USAGES_PORTEE : Z := 50.

Module ApprovalStatus.
Inductive t := PENDING | APPROVED | REFUSED | USED.
#[global] Instance eq_dec : EqDecision t.
Proof. solve_decision. Defined.
End ApprovalStatus.

Record PendingApproval := mkApproval {
  pa_id : string;
  pa_fingerprint : string;
  pa_action_type : string;
  pa_description : string;
  pa_target : option string;
  pa_agent : string;
  pa_reason : string;
  pa_status : ApprovalStatus.t;
  pa_task : option string;
  pa_project : option string;
  pa_created : Z;
  pa_decided : option Z;
  pa_expires : option Z;
  pa_portee : option string;
  pa_racine : option string;
  pa_usages : option Z;
  pa_discriminants : option string
}.

(** What a caller asks for. *)
Record Demand := mkDemand {
  dm_action_type : string;
  dm_description : string;
  dm_reason : string;
  dm_target : option string;
  dm_agent : string;
  dm_task : option string;
  dm_project : option string;
  dm_discriminants : pydict pyval
}.

(** A human decision. *)
Record Choice := mkChoice {
  ch_approved : bool;
  ch_ttl : option Z;
  ch_portee : string;
  ch_racine : option string;
  ch_usages : option Z
}.

(** The table, what has been read of the clock and of the ids, and the rows
    published. *)
Record Queue := mkQueue {
  qu_rows : list PendingApproval;
  qu_reads : nat;
  qu_uuids : nat;
  qu_events : list PendingApproval
}.

Section approvals.

(** [Path(c).resolve()] as text, [os.path.normpath], [os.path.normcase], the
    separators of the system, [json.dumps], [hashlib.sha256], the clock and
    [uuid4]. *)
Record World := mkWorldA {
  wa_resolve : string -> res string;
  wa_normpath : string -> string;
  wa_normcase : string -> string;
  wa_sep : ascii;
  wa_altsep : option ascii;
  wa_dumps : pydict pyval -> string;
  wa_sha256 : string -> string;
  wa_clock : nat -> Z;
  wa_uuid : nat -> string
}.
Variable w : World.

(** ** The fingerprint ([empreinte.py]) *)

Definition SEPARATEUR : ascii := "031"%char.

(** [texte.replace(c, d)] for one character. *)
Fixpoint replace_char (c d : ascii) (s : string) : string :=
  match s with
  | EmptyString => EmptyString
  | String x s' => String (if decide (x = c) then d else x) (replace_char c d s')
  end.

Definition canoniser_chemin (chemin : option string) : string :=
  match chemin with
  | None | Some "" => ""
  | Some c =>
      let texte := match wa_resolve w c with Ok t => t | Err _ => wa_normpath w c end in
      let texte := replace_char (wa_sep w) "/" (wa_normcase w texte) in
      match wa_altsep w with Some a => replace_char a "/" texte | None => texte end
  end.

(** The keys in order, each with its value. *)
Definition canoniser_discriminants (d : pydict pyval) : string :=
  match d with
  | [] => ""
  | _ => wa_dumps w (flat_map (fun k => match dget d k with Some v => [(k, v)] | None => [] end)
                       (sort_by String.le (dkeys d)))
  end.

(** The text that is hashed. *)
Definition brut (action_type : string) (target : option string) (d : pydict pyval) : string :=
  lower (strip action_type) +:+ String SEPARATEUR
    (canoniser_chemin target +:+ String SEPARATEUR (canoniser_discriminants d)).

Definition empreinte (action_type : string) (target : option string) (d : pydict pyval) : string :=
  wa_sha256 w (brut action_type target d).

(** [fingerprint_for]: the description is ignored. *)
Definition fingerprint_for (action_type : string) (target : option string) (description : string)
    (d : pydict pyval) : string := empreinte action_type target d.

(** [PurePosixPath(s)]: its root, and the other parts. *)
Fixpoint split_slash (cur s : string) : list string :=
  match s with
  | EmptyString => [cur]
  | String c s' => if decide (c = "/"%char) then cur :: split_slash "" s'
                   else split_slash (cur +:+ String c "") s'
  end.

Definition posix_root (s : string) : string :=
  if String.prefix "///" s then "/" else if String.prefix "//" s then "//"
  else if String.prefix "/" s then "/" else "".

Definition posix_parts (s : string) : list string :=
  filter (fun p => p <> "" /\ p <> ".") (split_slash "" s).

Fixpoint parts_prefix (root path : list string) : bool :=
  match root, path with
  | [], _ => true
  | r :: root', p :: path' => bool_decide (r = p) && parts_prefix root' path'
  | _ :: _, [] => false
  end.

(** [couvre]: the same path, or one of its parents. *)
Definition couvre (racine chemin : string) : bool :=
  if decide (racine = "" \/ chemin = "") then false
  else
    let a := canoniser_chemin (Some racine) in
    let b := canoniser_chemin (Some chemin) in
    if decide (a = "" \/ b = "") then false
    else bool_decide (posix_root a = posix_root b) && parts_prefix (posix_parts a) (posix_parts b).

(** ** The table *)

(** [_now] *)
Definition now : M Queue Z := fun s =>
  (Ok (wa_clock w (qu_reads s)), mkQueue (qu_rows s) (S (qu_reads s)) (qu_uuids s) (qu_events s)).

Definition uuid4 : M Queue string := fun s =>
  (Ok (wa_uuid w (qu_uuids s)), mkQueue (qu_rows s) (qu_reads s) (S (qu_uuids s)) (qu_events s)).

Definition rows : M Queue (list PendingApproval) := fun s => (Ok (qu_rows s), s).

Definition on_rows (f : list PendingApproval -> list PendingApproval) : M Queue unit := fun s =>
  (Ok tt, mkQueue (f (qu_rows s)) (qu_reads s) (qu_uuids s) (qu_events s)).

Definition publish_row (r : PendingApproval) : M Queue unit := fun s =>
  (Ok tt, mkQueue (qu_rows s) (qu_reads s) (qu_uuids s) (qu_events s ++ [r])).

Definition minutes (n : Z) : Z := n * 60000000.

(** [session.get(PendingApproval, id)] *)
Definition row_of (id : string) (l : list PendingApproval) : option PendingApproval :=
  List.find (fun r => bool_decide (pa_id r = id)) l.

(** The commit of one row. *)
Definition write_row (r : PendingApproval) (l : list PendingApproval) : list PendingApproval :=
  map (fun x => if decide (pa_id x = pa_id r) then r else x) l.

Definition is_pending_for (fp : string) (r : PendingApproval) : bool :=
  bool_decide (pa_fingerprint r = fp /\ pa_status r = ApprovalStatus.PENDING).

(** [record_pending]; the id is the primary key of the table. *)
Definition record_pending (d : Demand) : M Queue PendingApproval :=
  let fp := fingerprint_for (dm_action_type d) (dm_target d) (dm_description d) (dm_discriminants d) in
  l <- rows ;;
  match List.filter (is_pending_for fp) l with
  | _ :: _ :: _ => raise (Exn ForeignError [Msg "Multiple rows were found when one or none was required" []])
  | [r] => ret r
  | [] =>
      id <- uuid4 ;;
      t <- now ;;
      let discr := canoniser_discriminants (dm_discriminants d) in
      let r := mkApproval id fp (dm_action_type d) (dm_description d) (dm_target d) (dm_agent d)
                 (dm_reason d) ApprovalStatus.PENDING (dm_task d) (dm_project d) t None None
                 (Some PORTEE_ACTION) None None (if decide (discr = "") then None else Some discr) in
      if decide (id ∈ map pa_id l) then raise (Exn ForeignError [Msg "UNIQUE constraint failed: pending_approvals.id" []])
      else
        on_rows (fun l => l ++ [r]) ;;;
        publish_row r ;;;
        ret r
  end.

(** [list_approvals]: the most recent first. *)
Definition newer (a b : PendingApproval) : Prop := pa_created b <= pa_created a.
#[export] Instance newer_dec : RelDecision newer.
Proof. intros a b. unfold newer. apply _. Defined.

Definition list_approvals (status : option ApprovalStatus.t) (project : option string)
    (l : list PendingApproval) : list PendingApproval :=
  sort_by newer
    (List.filter (fun r => match status with Some st => bool_decide (pa_status r = st) | None => true end &&
                           match project with Some p => bool_decide (pa_project r = Some p) | None => true end) l).

Definition get_approval (id : string) (l : list PendingApproval) : option PendingApproval := row_of id l.

(** ** [decide] *)

Definition with_scope (portee : string) (racine : option string) (usages : Z) (r : PendingApproval)
    : PendingApproval :=
  mkApproval (pa_id r) (pa_fingerprint r) (pa_action_type r) (pa_description r) (pa_target r)
    (pa_agent r) (pa_reason r) (pa_status r) (pa_task r) (pa_project r) (pa_created r) (pa_decided r)
    (pa_expires r) (Some portee) racine (Some usages) (pa_discriminants r).

Definition with_decision (st : ApprovalStatus.t) (decided : Z) (expires : option Z) (r : PendingApproval)
    : PendingApproval :=
  mkApproval (pa_id r) (pa_fingerprint r) (pa_action_type r) (pa_description r) (pa_target r)
    (pa_agent r) (pa_reason r) st (pa_task r) (pa_project r) (pa_created r) (Some decided)
    expires (pa_portee r) (pa_racine r) (pa_usages r) (pa_discriminants r).

(** The scope asked for, with its default time to live. *)
Definition scoped (c : Choice) (r : PendingApproval) : res (PendingApproval * Z) :=
  if ch_approved c && bool_decide (ch_portee c = PORTEE_ARBORESCENCE) then
    match ch_racine c with
    | None | Some "" => Err (Exn ValueError [Msg "une portee d'arborescence exige une racine" []])
    | Some racine =>
        let budget := default MAX_USAGES_PORTEE (ch_usages c) in
        if budget <? 1 then Err (Exn ValueError [Msg "une portee sans usage n'autorise rien" []])
        else Ok (with_scope PORTEE_ARBORESCENCE (Some (canoniser_chemin (Some racine)))
                   (Z.min budget MAX_USAGES_PORTEE) r, TTL_PORTEE_MINUTES)
    end
  else Ok (with_scope PORTEE_ACTION (pa_racine r) 1 r, DEFAULT_TTL_MINUTES).

Definition decide_approval (id : string) (c : Choice) : M Queue (option PendingApproval) :=
  l <- rows ;;
  match row_of id l with
  | None => ret None
  | Some r =>
      if decide (pa_status r = ApprovalStatus.PENDING) then
        s <- lift (scoped c r) ;;
        let delai := default s.2 (ch_ttl c) in
        decided <- now ;;
        expires <- (if ch_approved c then t <- now ;; ret (Some (t + minutes delai)) else ret None) ;;
        let r' := with_decision (if ch_approved c then ApprovalStatus.APPROVED else ApprovalStatus.REFUSED)
                    decided expires s.1 in
        on_rows (write_row r') ;;;
        ret (Some r')
      else ret (Some r)
  end.

(** ** [consume_approval] *)

(** [_vivante] *)
Definition vivante (r : PendingApproval) : M Queue bool :=
  let usable := match pa_usages r with None => true | Some u => 0 <? u end in
  match pa_expires r with
  | Some e => t <- now ;; ret (if e <? t then false else usable)
  | None => ret usable
  end.

(** One use less; USED when none is left. *)
Definition spent (r : PendingApproval) : PendingApproval :=
  let usages := option_map (fun u => u - 1) (pa_usages r) in
  let st := match usages with
            | None => ApprovalStatus.USED
            | Some u => if u <=? 0 then ApprovalStatus.USED else pa_status r
            end in
  mkApproval (pa_id r) (pa_fingerprint r) (pa_action_type r) (pa_description r) (pa_target r)
    (pa_agent r) (pa_reason r) st (pa_task r) (pa_project r) (pa_created r) (pa_decided r)
    (pa_expires r) (pa_portee r) (pa_racine r) usages (pa_discriminants r).

(** [_depenser] *)
Definition depenser (r : PendingApproval) : M Queue PendingApproval :=
  on_rows (write_row (spent r)) ;;; ret (spent r).

Definition decided_later (a b : PendingApproval) : Prop :=
  match pa_decided a, pa_decided b with
  | Some x, Some y => y <= x
  | _, None => True
  | None, Some _ => False
  end.
#[export] Instance decided_later_dec : RelDecision decided_later.
Proof. intros a b. unfold decided_later. destruct (pa_decided a), (pa_decided b); apply _. Defined.

Definition exact_for (fp : string) (r : PendingApproval) : bool :=
  bool_decide (pa_fingerprint r = fp /\ pa_status r = ApprovalStatus.APPROVED).

Definition scope_for (action_type : string) (r : PendingApproval) : bool :=
  bool_decide (pa_action_type r = action_type /\ pa_portee r = Some PORTEE_ARBORESCENCE /\
               pa_status r = ApprovalStatus.APPROVED).

(** [entry.portee_racine and couvre(entry.portee_racine, target_path)] *)
Definition racine_couvre (r : PendingApproval) (target : string) : bool :=
  match pa_racine r with Some racine => couvre racine target | None => false end.

Fixpoint scope_loop (target : string) (candidates : list PendingApproval) : M Queue (option PendingApproval) :=
  match candidates with
  | [] => ret None
  | r :: candidates' =>
      live <- vivante r ;;
      if live && racine_couvre r target then r' <- depenser r ;; ret (Some r')
      else scope_loop target candidates'
  end.

(** [_consommer_une_portee] *)
Definition consommer_une_portee (action_type : string) (target : option string)
    : M Queue (option PendingApproval) :=
  match target with
  | None | Some "" => ret None
  | Some t =>
      l <- rows ;;
      scope_loop t (sort_by decided_later (List.filter (scope_for action_type) l))
  end.

Definition consume_approval (action_type : string) (target : option string) (description : string)
    (d : pydict pyval) : M Queue (option PendingApproval) :=
  let fp := fingerprint_for action_type target description d in
  l <- rows ;;
  match sort_by decided_later (List.filter (exact_for fp) l) with
  | r :: _ =>
      live <- vivante r ;;
      if live : bool then r' <- depenser r ;; ret (Some r')
      else consommer_une_portee action_type target
  | [] => consommer_une_portee action_type target
  end.

(** * Properties *)

(** ** One row of the table *)

Lemma row_of_Some id l r : row_of id l = Some r -> r ∈ l /\ pa_id r = id.
Proof. intros [Hin Hid%bool_decide_eq_true]%find_some. split; [by apply list_elem_of_In|done]. Qed.

Lemma row_of_elem l r : NoDup (map pa_id l) -> r ∈ l -> row_of (pa_id r) l = Some r.
Proof.
  intros Hnd Hr. destruct (row_of (pa_id r) l) as [r'|] eqn:E.
  - apply row_of_Some in E as [Hr' Hid]. f_equal. by apply (NoDup_map_inj pa_id l).
  - pose proof (find_none _ _ E r (proj1 (list_elem_of_In _ _) Hr)) as Hb. cbn in Hb. by rewrite bool_decide_eq_true_2 in Hb.
Qed.

Lemma row_of_write id r l :
  row_of id (write_row r l)
  = if decide (pa_id r = id) then (fun _ => r) <$> row_of id l else row_of id l.
Proof.
  unfold row_of, write_row. induction l as [|x l IH]; cbn [map List.find]; [by case_decide|].
  destruct (decide (pa_id x = pa_id r)) as [Hx|Hx], (decide (pa_id r = id)) as [Hr|Hr];
    repeat case_bool_decide; try congruence; done.
Qed.

Lemma write_row_ids r l : map pa_id (write_row r l) = map pa_id l.
Proof. unfold write_row. rewrite map_map. apply map_ext. intros x. by case_decide. Qed.

Lemma elem_write_row r l x : x ∈ write_row r l -> x = r \/ x ∈ l.
Proof. intros (y & -> & Hy)%list_elem_of_fmap. case_decide; [by left|by right]. Qed.

(** ** The invariant of the queue *)

(** An accord has a budget and a date; the exact one is for one use. *)
Definition row_ok (r : PendingApproval) : Prop :=
  pa_status r = ApprovalStatus.APPROVED ->
  exists u, pa_usages r = Some u /\ 1 <= u <= MAX_USAGES_PORTEE /\ is_Some (pa_expires r) /\
    (pa_portee r = Some PORTEE_ACTION /\ u = 1 \/ pa_portee r = Some PORTEE_ARBORESCENCE).

Record queue_inv (l : list PendingApproval) : Prop := QueueInv {
  qi_ids : NoDup (map pa_id l);
  qi_pending : forall fp, (length (List.filter (is_pending_for fp) l) <= 1)%nat;
  qi_rows : forall r, r ∈ l -> row_ok r
}.

(** Rewriting a row with one that is no longer pending keeps at most one
    pending row. *)
Lemma pending_write fp r l :
  pa_status r <> ApprovalStatus.PENDING ->
  (length (List.filter (is_pending_for fp) (write_row r l)) <= length (List.filter (is_pending_for fp) l))%nat.
Proof.
  intros Hr. unfold write_row. induction l as [|x l IH]; cbn; [lia|]. case_decide.
  - assert (Hn : is_pending_for fp r = false) by (apply bool_decide_eq_false_2; tauto). rewrite Hn.
    destruct (is_pending_for fp x); cbn; lia.
  - destruct (is_pending_for fp x); cbn; lia.
Qed.

Lemma inv_write r l :
  queue_inv l -> pa_status r <> ApprovalStatus.PENDING -> row_ok r -> queue_inv (write_row r l).
Proof.
  intros [Hids Hp Hrows] Hst Hok. split.
  - by rewrite write_row_ids.
  - intros fp. pose proof (pending_write fp r l Hst). specialize (Hp fp). lia.
  - intros x [->|Hx]%elem_write_row; [done|by apply Hrows].
Qed.

Lemma spent_ok r : row_ok r -> pa_status r = ApprovalStatus.APPROVED ->
  row_ok (spent r) /\ pa_status (spent r) <> ApprovalStatus.PENDING.
Proof.
  intros Hok Hst. destruct (Hok Hst) as (u & Hu & Hrange & He & Hp).
  unfold row_ok, spent. cbn. rewrite Hu. cbn. destruct (u - 1 <=? 0) eqn:E; [done|].
  apply Z.leb_gt in E. rewrite Hst. split; [|done]. intros _. exists (u - 1).
  split_and!; [done|lia..|done|]. destruct Hp as [[_ ->]|Hp]; [lia|by right].
Qed.

Lemma scoped_status c r r' d : scoped c r = Ok (r', d) -> pa_id r' = pa_id r /\
  exists u, pa_usages r' = Some u /\ 1 <= u <= MAX_USAGES_PORTEE /\
    (pa_portee r' = Some PORTEE_ACTION /\ u = 1 \/ pa_portee r' = Some PORTEE_ARBORESCENCE).
Proof.
  unfold scoped, MAX_USAGES_PORTEE. destruct (ch_approved c && _).
  - destruct (ch_racine c) as [[|ch s]|]; [done| |done]. destruct (_ <? 1) eqn:E; [done|].
    apply Z.ltb_ge in E. intros [= <- <-]. split; [done|]. eexists. split; [reflexivity|].
    split; [unfold MAX_USAGES_PORTEE in *; lia|by right].
  - intros [= <- <-]. split; [done|]. exists 1. split; [done|]. split; [lia|by left].
Qed.

(** ** The queue as a state machine

    What may happen to the table: nothing, a new request, a human decision on a
    pending one, or one use of an accord, which the label names. *)
Inductive row_step (l : list PendingApproval) : list PendingApproval -> option string -> Prop :=
  | rs_same : row_step l l None
  | rs_asked r :
      pa_id r ∉ map pa_id l -> pa_status r = ApprovalStatus.PENDING ->
      List.filter (is_pending_for (pa_fingerprint r)) l = [] ->
      row_step l (l ++ [r]) None
  | rs_decided r r' :
      r ∈ l -> pa_status r = ApprovalStatus.PENDING -> pa_id r' = pa_id r ->
      pa_status r' <> ApprovalStatus.PENDING -> row_ok r' ->
      row_step l (write_row r' l) None
  | rs_used r :
      r ∈ l -> pa_status r = ApprovalStatus.APPROVED ->
      row_step l (write_row (spent r) l) (Some (pa_id r)).

Lemma record_step d s : row_step (qu_rows s) (qu_rows (record_pending d s).2) None.
Proof.
  unfold record_pending. unfold bind at 1, rows. destruct (List.filter _ (qu_rows s)) as [|r [|r' l]] eqn:E.
  - cbn. case_decide as Hid; [constructor|]. cbn. by apply rs_asked.
  - constructor.
  - constructor.
Qed.

Lemma decide_step id c s : row_step (qu_rows s) (qu_rows (decide_approval id c s).2) None.
Proof.
  unfold decide_approval. unfold bind at 1, rows. destruct (row_of id (qu_rows s)) as [r|] eqn:E; [|constructor].
  apply row_of_Some in E as [Hr Hid]. case_decide as Hst; [|constructor].
  unfold bind at 1, lift. destruct (scoped c r) as [[r1 ttl]|e] eqn:Es; [|constructor].
  apply scoped_status in Es as (Hid1 & u & Hu & Hrange & Hp). destruct (ch_approved c); cbn.
  - eapply (rs_decided _ r (with_decision _ _ _ r1)); [done|done|exact Hid1|done|].
    intros _. exists u. cbn. split_and!; [done|lia|lia|by eexists|done].
  - by eapply (rs_decided _ r (with_decision _ _ _ r1)).
Qed.

(** An accord that may be used: a use left, and in time at a reading of the
    clock made between two states. *)
Definition alive (s s' : Queue) (r : PendingApproval) : Prop :=
  (forall u, pa_usages r = Some u -> 0 < u) /\
  (forall e, pa_expires r = Some e ->
     exists n, (qu_reads s <= n < qu_reads s')%nat /\ wa_clock w n <= e).

Lemma alive_mono s1 s1' s2 s2' r :
  (qu_reads s2 <= qu_reads s1)%nat -> (qu_reads s1' <= qu_reads s2')%nat -> alive s1 s1' r -> alive s2 s2' r.
Proof.
  intros H1 H2 [Hu He]. split; [done|]. intros e Heq. destruct (He e Heq) as (n & Hn & Hc).
  exists n. split; [lia|done].
Qed.

(** A step that leaves the table and only reads the clock. *)
Definition only_reads (s s' : Queue) : Prop := qu_rows s' = qu_rows s /\ (qu_reads s <= qu_reads s')%nat.

Lemma wp_vivante r s :
  wp (vivante r) (fun b s' => only_reads s s' /\ (b = true -> alive s s' r)) s.
Proof.
  unfold vivante, alive, only_reads. destruct (pa_expires r) as [e|].
  - unfold wp, bind, now, ret. cbn. split; [split; [done|lia]|]. destruct (e <? _) eqn:E; [done|].
    intros Hu. split; [intros u Heq; rewrite Heq in Hu; by apply Z.ltb_lt|].
    intros e' [= <-]. exists (qu_reads s). apply Z.ltb_ge in E. split; lia.
  - unfold wp, ret. cbn. split; [done|]. intros Hu. split; [|done]. intros u Heq. rewrite Heq in Hu. by apply Z.ltb_lt.
Qed.

(** The consent covers the action: the same fingerprint, or a scope over the
    path for the same type of action. *)
Definition covers (action_type : string) (target : option string) (d : pydict pyval) (r : PendingApproval)
    : Prop :=
  pa_fingerprint r = empreinte action_type target d \/
  pa_portee r = Some PORTEE_ARBORESCENCE /\ pa_action_type r = action_type /\
  exists racine t, pa_racine r = Some racine /\ target = Some t /\ couvre racine t = true.

Lemma elem_sorted_filter P l r :
  r ∈ sort_by decided_later (List.filter P l) -> r ∈ l /\ P r = true.
Proof. rewrite sort_by_perm, list_elem_of_In, filter_In, <- list_elem_of_In. done. Qed.

Lemma wp_scope_loop action_type target l s :
  (forall r, r ∈ l -> r ∈ qu_rows s /\ scope_for action_type r = true) ->
  wp (scope_loop target l)
    (fun o s' => (qu_reads s <= qu_reads s')%nat /\ match o with
       | None => qu_rows s' = qu_rows s
       | Some r' => exists r, r ∈ qu_rows s /\ pa_status r = ApprovalStatus.APPROVED /\ alive s s' r /\
           r' = spent r /\ qu_rows s' = write_row (spent r) (qu_rows s) /\
           pa_portee r = Some PORTEE_ARBORESCENCE /\ pa_action_type r = action_type /\
           racine_couvre r target = true
       end) s.
Proof.
  revert s. induction l as [|r l IH]; intros s Hl; [done|]. cbn [scope_loop]. apply wp_bind.
  eapply wp_mono; [apply wp_vivante|]. intros live s1 [[Hrows Hreads] Hlive].
  destruct (Hl r) as [Hr Hs]; [set_solver|]. apply bool_decide_eq_true in Hs as (Hat & Hp & Hst).
  assert (Hrest : wp (scope_loop target l) (fun o s' => (qu_reads s <= qu_reads s')%nat /\ match o with
       | None => qu_rows s' = qu_rows s
       | Some r' => exists r, r ∈ qu_rows s /\ pa_status r = ApprovalStatus.APPROVED /\ alive s s' r /\
           r' = spent r /\ qu_rows s' = write_row (spent r) (qu_rows s) /\
           pa_portee r = Some PORTEE_ARBORESCENCE /\ pa_action_type r = action_type /\
           racine_couvre r target = true
       end) s1).
  { eapply wp_mono; [apply IH; intros x Hx; rewrite Hrows; apply Hl; set_solver|].
    rewrite Hrows. intros [r'|] s2 [Hreads2 H]; (split; [lia|]); [|done].
    destruct H as (x & ? & ? & Ha & ?). exists x. split_and!; try tauto. by eapply alive_mono, Ha. }
  destruct live; cbn [andb]; [|done]. destruct (racine_couvre r target) eqn:Ec; [|done].
  unfold depenser, wp, bind, on_rows, ret. cbn. split; [done|]. exists r. rewrite Hrows.
  split_and!; try done; [|by apply Hlive..]. by eapply alive_mono, Hlive.
Qed.

(** What [consume_approval] promises. *)
Definition consumes (action_type : string) (target : option string) (d : pydict pyval)
    (s : Queue) (o : option PendingApproval) (s' : Queue) : Prop :=
  match o with
  | None => qu_rows s' = qu_rows s
  | Some r' => exists r, r ∈ qu_rows s /\ pa_status r = ApprovalStatus.APPROVED /\ alive s s' r /\
      covers action_type target d r /\ r' = spent r /\ qu_rows s' = write_row (spent r) (qu_rows s)
  end.

Lemma consumes_after action_type target d s s1 o s' :
  only_reads s s1 -> consumes action_type target d s1 o s' -> consumes action_type target d s o s'.
Proof.
  intros [Hrows Hreads]. unfold consumes. rewrite Hrows. destruct o as [r'|]; [|done].
  intros (r & ? & ? & Ha & ?). exists r. split_and!; try tauto. by eapply alive_mono, Ha.
Qed.

Lemma wp_consommer_une_portee action_type target d s :
  wp (consommer_une_portee action_type target)
    (fun o s' => consumes action_type target d s o s') s.
Proof.
  unfold consommer_une_portee. destruct target as [[|ch t]|]; [done| |done].
  unfold wp, bind at 1, rows. eapply wp_mono; [apply (wp_scope_loop action_type)|].
  - intros r Hr. by apply elem_sorted_filter in Hr.
  - intros [r'|] s'; cbn [consumes]; [|by intros [_ ?]].
    intros (_ & r & Hr & Hst & Ha & -> & Hrows & Hp & Hat & Hc). exists r. split_and!; try done.
    right. split_and!; [done..|]. unfold racine_couvre in Hc. destruct (pa_racine r) as [racine|]; [|done].
    by exists racine, (String ch t).
Qed.

Lemma wp_consume action_type target descr d s :
  wp (consume_approval action_type target descr d)
    (fun o s' => consumes action_type target d s o s') s.
Proof.
  unfold consume_approval. unfold wp, bind at 1, rows.
  set (fp := fingerprint_for _ _ _ _).
  destruct (sort_by decided_later _) as [|r l] eqn:E; [apply wp_consommer_une_portee|].
  assert (Hr : r ∈ qu_rows s /\ exact_for fp r = true) by (apply elem_sorted_filter; rewrite E; set_solver).
  destruct Hr as [Hr [Hfp Hst]%bool_decide_eq_true].
  apply (wp_bind (vivante r)). eapply wp_mono; [apply wp_vivante|]. intros [|] s1 [Hread Hlive].
  - unfold depenser, wp, bind, on_rows, ret. cbn. destruct Hread as [Hrows _]. exists r. rewrite Hrows.
    split_and!; try done; [by apply Hlive|by left].
  - eapply wp_mono; [apply (wp_consommer_une_portee action_type target d)|]. intros o s2. by apply consumes_after.
Qed.

Lemma consume_step action_type target descr d s :
  exists o, (consume_approval action_type target descr d s).1 = Ok o /\
    row_step (qu_rows s) (qu_rows (consume_approval action_type target descr d s).2) (pa_id <$> o).
Proof.
  destruct (wp_ok _ _ _ (wp_consume action_type target descr d s)) as (o & s' & -> & Hc). cbn. exists o.
  split; [done|]. destruct o as [r'|]; cbn in Hc.
  - destruct Hc as (r & Hr & Hst & _ & _ & -> & ->). by apply (rs_used _ r).
  - rewrite Hc. constructor.
Qed.

(** ** Invariant and budget *)

Lemma row_ok_not_approved r : pa_status r <> ApprovalStatus.APPROVED -> row_ok r.
Proof. by intros ? ?. Qed.

Lemma inv_step l l' o : queue_inv l -> row_step l l' o -> queue_inv l'.
Proof.
  intros Hinv [|r Hid Hst Hnone|r r' Hr Hst Hid Hst' Hok|r Hr Hst]; [done|..].
  - destruct Hinv as [Hids Hp Hrows]. split.
    + rewrite map_app. apply NoDup_app. split; [done|]. split; [|apply NoDup_singleton].
      intros x Hx ->%list_elem_of_singleton. done.
    + intros fp. rewrite List.filter_app, length_app. cbn. specialize (Hp fp).
      destruct (is_pending_for fp r) eqn:E; cbn; [|lia].
      apply bool_decide_eq_true in E as [<- _]. rewrite Hnone. cbn. lia.
    + intros x [Hx| ->%list_elem_of_singleton]%elem_of_app; [by apply Hrows|].
      apply row_ok_not_approved. by rewrite Hst.
  - by apply inv_write.
  - pose proof (qi_rows _ Hinv r Hr) as Hok. destruct (spent_ok r Hok Hst). by apply inv_write.
Qed.

(** The uses an entry can still give: one for an exact accord, what is left of
    a scope, the largest scope for a request that waits. *)
Definition potential (r : PendingApproval) : Z :=
  match pa_status r with
  | ApprovalStatus.PENDING => MAX_USAGES_PORTEE
  | ApprovalStatus.APPROVED => default 1 (pa_usages r)
  | _ => 0
  end.

Definition budget (id : string) (l : list PendingApproval) : Z :=
  match row_of id l with Some r => potential r | None => MAX_USAGES_PORTEE end.

Lemma potential_bounds r : row_ok r -> 0 <= potential r <= MAX_USAGES_PORTEE.
Proof.
  intros Hok. unfold potential, MAX_USAGES_PORTEE, row_ok in *.
  destruct (pa_status r); try lia. destruct (Hok eq_refl) as (u & -> & Hu & _). unfold MAX_USAGES_PORTEE in Hu. cbn. lia.
Qed.

Lemma potential_spent r :
  row_ok r -> pa_status r = ApprovalStatus.APPROVED -> potential (spent r) + 1 <= potential r.
Proof.
  intros Hok Hst. destruct (Hok Hst) as (u & Hu & Hrange & _). unfold potential, spent. cbn. rewrite Hst, Hu.
  cbn. destruct (u - 1 <=? 0) eqn:E; cbn; [|lia]. lia.
Qed.

Lemma budget_nonneg id l : queue_inv l -> 0 <= budget id l.
Proof.
  intros Hinv. unfold budget. destruct (row_of id l) as [r|] eqn:E; [|done].
  apply row_of_Some in E as [Hr _]. by apply potential_bounds, (qi_rows _ Hinv).
Qed.

Lemma row_of_snoc id l r :
  row_of id (l ++ [r])
  = match row_of id l with Some x => Some x | None => if decide (pa_id r = id) then Some r else None end.
Proof.
  unfold row_of. induction l as [|x l IH]; cbn; [case_bool_decide; by case_decide|]. by case_bool_decide.
Qed.

Lemma budget_step id l l' o :
  queue_inv l -> row_step l l' o -> budget id l' + Z.b2z (bool_decide (o = Some id)) <= budget id l.
Proof.
  intros Hinv [|r Hid Hst Hnone|r r' Hr Hst Hid Hst' Hok|r Hr Hst]; unfold budget;
    try (rewrite (bool_decide_eq_false_2 (None = Some id)) by done; cbn [Z.b2z]; rewrite Z.add_0_r).
  - done.
  - rewrite row_of_snoc. destruct (row_of id l); [done|]. case_decide; [|done].
    unfold potential. by rewrite Hst.
  - rewrite row_of_write. case_decide as Hd; [|done].
    pose proof (row_of_elem l r (qi_ids _ Hinv) Hr) as Hf. rewrite <- Hid, Hd in Hf. rewrite Hf. cbn.
    unfold potential at 2. rewrite Hst. pose proof (potential_bounds r' Hok). lia.
  - rewrite row_of_write. cbn [spent pa_id]. pose proof (row_of_elem l r (qi_ids _ Hinv) Hr) as Hf.
    pose proof (potential_spent r (qi_rows _ Hinv r Hr) Hst). case_decide as Hd.
    + rewrite <- Hd, Hf. rewrite bool_decide_eq_true_2 by done. cbn. lia.
    + rewrite bool_decide_eq_false_2 by congruence. cbn. lia.
Qed.

(** ** Sequences of operations *)

Inductive Operation :=
  | Ask (d : Demand)
  | Settle (id : string) (c : Choice)
  | Spend (action_type : string) (target : option string) (description : string) (d : pydict pyval).

(** The entry used, if any, and the queue after the operation, which may raise. *)
Definition run_operation (op : Operation) (s : Queue) : option string * Queue :=
  match op with
  | Ask d => (None, (record_pending d s).2)
  | Settle id c => (None, (decide_approval id c s).2)
  | Spend a t descr d =>
      let '(r, s') := consume_approval a t descr d s in
      (match r with Ok (Some e) => Some (pa_id e) | _ => None end, s')
  end.

Fixpoint run_operations (ops : list Operation) (s : Queue) : list string * Queue :=
  match ops with
  | [] => ([], s)
  | op :: ops' =>
      let '(o, s1) := run_operation op s in
      let '(used, s2) := run_operations ops' s1 in
      (match o with Some id => id :: used | None => used end, s2)
  end.

Lemma operation_step op s : row_step (qu_rows s) (qu_rows (run_operation op s).2) (run_operation op s).1.
Proof.
  destruct op as [d|id c|a t descr d]; cbn [run_operation fst snd].
  - apply record_step.
  - apply decide_step.
  - destruct (consume_step a t descr d s) as (o & Ho & Hs).
    destruct (consume_approval a t descr d s) as [r s']. cbn in *. subst r. by destruct o.
Qed.

Lemma operations_inv ops s : queue_inv (qu_rows s) -> queue_inv (qu_rows (run_operations ops s).2).
Proof.
  revert s. induction ops as [|op ops IH]; intros s Hinv; [done|]. cbn [run_operations].
  pose proof (operation_step op s) as Hs. destruct (run_operation op s) as [o s1]. cbn in Hs.
  pose proof (IH s1 (inv_step _ _ _ Hinv Hs)) as HI. by destruct (run_operations ops s1).
Qed.

(** C34: The state machine.  Every operation, whether it answers or raises, does one
    of the four things the table allows, and names the entry it uses. *)
Theorem approvals_refine op s :
  row_step (qu_rows s) (qu_rows (run_operation op s).2) (run_operation op s).1.
Proof. apply operation_step. Qed.

(** The invariant of the queue.  After any operations on an empty table the ids
    are distinct, an action waits at most once, and every accord in force has a
    date and a budget of at most fifty uses, one for an exact accord. *)
Theorem approvals_invariant ops s :
  qu_rows s = [] -> queue_inv (qu_rows (run_operations ops s).2).
Proof. intros Hs. apply operations_inv. rewrite Hs. split; [constructor|cbn; lia|set_solver]. Qed.

(** C27: Bounded consent.  Over any sequence of operations, an entry is used at most
    as many times as it can still give: once for an exact accord, never for one
    refused or used up, fifty times at most for any request. *)
Theorem consents_bounded ops s id :
  queue_inv (qu_rows s) ->
  Z.of_nat (count_occ String.string_dec (run_operations ops s).1 id) <= budget id (qu_rows s).
Proof.
  revert s. induction ops as [|op ops IH]; intros s Hinv; [by apply budget_nonneg|]. cbn [run_operations].
  pose proof (operation_step op s) as Hs. destruct (run_operation op s) as [o s1]. cbn in Hs.
  pose proof (budget_step id _ _ _ Hinv Hs) as Hb. specialize (IH s1 (inv_step _ _ _ Hinv Hs)).
  destruct (run_operations ops s1) as [used s2]. cbn in *. destruct o as [id'|]; cbn in *; [|destruct (bool_decide _); cbn in Hb; lia].
  destruct (String.string_dec id' id) as [->|Hne].
  - rewrite bool_decide_eq_true_2 in Hb by done. cbn in Hb. lia.
  - rewrite bool_decide_eq_false_2 in Hb by congruence. cbn in Hb. lia.
Qed.

(** No borrowed consent.  [consume_approval] always answers; an entry is used
    only if it is approved, in time, with a use left, and covers the action: the
    same fingerprint, or a scope granted for this type of action above its
    path.  Without an answer the table is as it was. *)
Theorem consume_sound action_type target descr d s :
  exists o s', consume_approval action_type target descr d s = (Ok o, s') /\
    consumes action_type target d s o s'.
Proof. exact (wp_ok _ _ _ (wp_consume action_type target descr d s)). Qed.

(** ** What a fingerprint and a scope identify *)

Fixpoint no_char (c : ascii) (s : string) : bool :=
  match s with
  | EmptyString => true
  | String x s' => negb (bool_decide (x = c)) && no_char c s'
  end.

Lemma split_separator c a a' b b' :
  no_char c a = true -> no_char c a' = true ->
  a +:+ String c b = a' +:+ String c b' -> a = a' /\ b = b'.
Proof.
  revert a'. induction a as [|x a IH]; intros [|y a']; cbn; intros Ha Ha'.
  - by intros [= ->].
  - intros [= <- _]. by rewrite bool_decide_eq_true_2 in Ha'.
  - intros [= -> _]. by rewrite bool_decide_eq_true_2 in Ha.
  - intros [= -> Heq]. apply andb_true_iff in Ha as [_ Ha], Ha' as [_ Ha'].
    by destruct (IH a' Ha Ha' Heq) as [-> ->].
Qed.

Lemma parts_prefix_spec root path : parts_prefix root path = true <-> exists rest, path = root ++ rest.
Proof.
  revert path. induction root as [|r root IH]; intros path; cbn; [split; [by exists path|done]|].
  destruct path as [|p path]; [split; [done|by intros []]|].
  rewrite andb_true_iff, bool_decide_eq_true, IH. split; [intros [-> [rest ->]]; by exists rest|].
  intros [rest [= -> ->]]. split; [done|by exists rest].
Qed.

(** The scope of a consent.  A scope covers a path exactly when the names of
    its root are the first names of the path, both made canonical: a directory
    whose name only begins like the root is outside. *)
Theorem couvre_exact racine chemin :
  couvre racine chemin = true <->
  racine <> "" /\ chemin <> "" /\
  let a := canoniser_chemin (Some racine) in let b := canoniser_chemin (Some chemin) in
  a <> "" /\ b <> "" /\ posix_root a = posix_root b /\ exists rest, posix_parts b = posix_parts a ++ rest.
Proof.
  unfold couvre. cbn zeta.
  generalize (canoniser_chemin (Some racine)) (canoniser_chemin (Some chemin)). intros a b.
  destruct (decide (racine = "" \/ chemin = "")); [by split; [|tauto]|].
  destruct (decide (a = "" \/ b = "")); [by split; [|tauto]|].
  rewrite andb_true_iff, bool_decide_eq_true, parts_prefix_spec. tauto.
Qed.

(** The identity of an action.  If the digest does not collide on the two texts
    and neither type nor path holds the separator, two actions have the same
    fingerprint exactly when they have the same type up to case and spaces, the
    same canonical path and the same discriminants: the description never counts. *)
Theorem fingerprint_identifies a1 t1 descr1 d1 a2 t2 descr2 d2 :
  (wa_sha256 w (brut a1 t1 d1) = wa_sha256 w (brut a2 t2 d2) -> brut a1 t1 d1 = brut a2 t2 d2) ->
  no_char SEPARATEUR (lower (strip a1)) = true -> no_char SEPARATEUR (lower (strip a2)) = true ->
  no_char SEPARATEUR (canoniser_chemin t1) = true -> no_char SEPARATEUR (canoniser_chemin t2) = true ->
  fingerprint_for a1 t1 descr1 d1 = fingerprint_for a2 t2 descr2 d2 <->
  lower (strip a1) = lower (strip a2) /\ canoniser_chemin t1 = canoniser_chemin t2 /\
  canoniser_discriminants d1 = canoniser_discriminants d2.
Proof.
  intros Hsha Ha1 Ha2 Ht1 Ht2. unfold fingerprint_for, empreinte. split.
  - intros Heq%Hsha. unfold brut in Heq. apply split_separator in Heq as [Ha Heq]; [|done..].
    by apply split_separator in Heq as [Ht Hd].
  - intros (Ha & Ht & Hd). unfold brut. by rewrite Ha, Ht, Hd.
Qed.
End approvals.

(** ** A concrete queue *)

Definition demo_world : World :=
  mkWorldA (fun p => Ok p) (fun p => p) (fun p => p) "/"%char None (fun _ => "{}") (fun s => s)
    Z.of_nat (fun n => pretty n).

Definition demo_queue : Queue := mkQueue [] 0 0 [].

Definition demo_demand : Demand :=
  mkDemand "file_delete" "Delete /ws/a.py" "always requires human validation" (Some "/ws/a.py") "agent" None None [].

Definition demo_ops : list Operation :=
  [Ask demo_demand; Ask demo_demand; Settle "0" (mkChoice true None "action" None None);
   Spend "file_delete" (Some "/ws/a.py") "another wording" [];
   Spend "file_delete" (Some "/ws/a.py") "another wording" []].

(** One request, one accord, one use. *)
Example demo_one_shot : (run_operations demo_world demo_ops demo_queue).1 = ["0"].
Proof. vm_compute. reflexivity. Qed.

(** A scope on [/ws] covers [/ws/a.py], not [/ws-bis/a.py], and ends after its
    budget. *)
Example demo_scope :
  (run_operations demo_world
     [Ask demo_demand; Settle "0" (mkChoice true None "arborescence" (Some "/ws") (Some 2));
      Spend "file_delete" (Some "/ws/b.py") "" []; Spend "file_delete" (Some "/ws-bis/b.py") "" [];
      Spend "file_delete" (Some "/ws/c.py") "" []; Spend "file_delete" (Some "/ws/d.py") "" []]
     demo_queue).1 = ["0"; "0"].
Proof. vm_compute. reflexivity. Qed.

Lemma approvals_invariant_witness :
  qu_rows demo_queue = [] /\ queue_inv (qu_rows (run_operations demo_world demo_ops demo_queue).2).
Proof. split; [reflexivity|]. exact (approvals_invariant demo_world demo_ops demo_queue eq_refl). Defined.

Lemma demo_queue_inv : queue_inv (qu_rows demo_queue).
Proof. split; [constructor|cbn; lia|]. intros r Hr. by apply elem_of_nil in Hr. Qed.

Lemma consents_bounded_witness :
  queue_inv (qu_rows demo_queue) /\
  Z.of_nat (count_occ String.string_dec (run_operations demo_world demo_ops demo_queue).1 "0")
  <= budget "0" (qu_rows demo_queue).
Proof. split; [exact demo_queue_inv|]. exact (consents_bounded demo_world demo_ops demo_queue "0" demo_queue_inv). Defined.

Lemma fingerprint_identifies_witness :
  lower (strip " File_Delete ") = lower (strip "file_delete") /\
  fingerprint_for demo_world " File_Delete " (Some "/ws/a.py") "one" []
  = fingerprint_for demo_world "file_delete" (Some "/ws/a.py") "two" [].
Proof.
  split; [reflexivity|].
  apply (fingerprint_identifies demo_world " File_Delete " (Some "/ws/a.py") "one" []
           "file_delete" (Some "/ws/a.py") "two" []); vm_compute; auto.
Defined.
