(* ===== verification/StreamWatch.v ===== *)
(** * Watching the output of an agent ([backend/security/surveillance_flux.py])

    [SurveillanceFlux] on one stream: blocks are pushed, ticks happen, alerts
    are raised.  The clock is an oracle; the callback is a recorded call. *)
From stdpp Require Import base gmap strings list sets.
From Stdlib Require Import ZArith QArith Lia.
From S2P Require Import Prelude.
#[local] Open Scope Z_scope.

Definition REPORT : Z := 512.
Definition SILENCE_S : Q := 120.
Definition LONGUEUR_MIN_SECRET : nat := 8.

Module Motif.
Inductive t := CANARY | SECRET | SILENCE | COUT.
#[global] Instance eq_dec : EqDecision t.
Proof. solve_decision. Defined.
End Motif.

Record Alerte := mkAlerte {
  al_motif : Motif.t;
  al_detail : message;
  al_a : Q
}.

(** What the watch is given. *)
Record Watch := mkWatch {
  wt_canary : string;
  wt_secrets : list string;
  wt_listener : bool;
  wt_silence : Q;
  wt_cout_max : option Q
}.

Record Flux := mkFlux {
  fx_watch : Watch;
  fx_report : string;
  fx_last : Q;
  fx_told : bool;
  fx_alertes : list Alerte;
  fx_reads : nat;
  fx_calls : list Alerte
}.

(** The secrets that are looked for. *)
Definition known_secrets (secrets : list string) : list string :=
  List.filter (fun s => bool_decide (s <> "") && (LONGUEUR_MIN_SECRET <=? String.length s)%nat) secrets.

(** [environnement_avec_canary] *)
Definition environnement_avec_canary (base : pydict string) (canary nom : string) : pydict string :=
  dset base nom canary.

Section watch.
(** [time.monotonic()] *)
Variable clock : nat -> Q.
(** The texts of the numbers in the details. *)
Variable show : Q -> string.

(** [SurveillanceFlux.__init__] *)
Definition new_flux (canary : string) (secrets : list string) (listener : bool) (silence : Q)
    (cout_max : option Q) : Flux :=
  mkFlux (mkWatch canary (known_secrets secrets) listener silence cout_max) "" (clock 0) false [] 1 [].

Definition monotonic : M Flux Q := fun s =>
  (Ok (clock (fx_reads s)),
   mkFlux (fx_watch s) (fx_report s) (fx_last s) (fx_told s) (fx_alertes s) (S (fx_reads s)) (fx_calls s)).

(** [_lever], after the alert has read the clock. *)
Definition lever (motif : Motif.t) (detail : message) : M Flux (option Alerte) :=
  a <- monotonic ;;
  let alerte := mkAlerte motif detail a in
  fun s => (Ok (Some alerte),
    mkFlux (fx_watch s) (fx_report s) (fx_last s) (fx_told s) (fx_alertes s ++ [alerte]) (fx_reads s)
      (if wt_listener (fx_watch s) then fx_calls s ++ [alerte] else fx_calls s)).

Definition received (fenetre : string) (now : Q) : M Flux unit := fun s =>
  (Ok tt,
   mkFlux (fx_watch s) (last_chars REPORT fenetre) now false (fx_alertes s) (fx_reads s) (fx_calls s)).

Definition canary_detail : message :=
  Msg ("la valeur témoin plantée dans l'environnement est ressortie — l'agent lit et recrache son "
       +:+ "environnement, donc les vrais secrets sont exposés de la même façon") [].

Definition secret_detail (s : string) : message :=
  Msg "un secret connu de {} caractères est apparu dans la sortie" [show (inject_Z (Z.of_nat (String.length s)))].

(** [bloc] *)
Definition bloc (texte : string) : M Flux (option Alerte) :=
  if decide (texte = "") then ret None
  else
    now <- monotonic ;;
    s <- get ;;
    let fenetre := fx_report s +:+ texte in
    received fenetre now ;;;
    if negb (bool_decide (wt_canary (fx_watch s) = "")) && contains (wt_canary (fx_watch s)) fenetre then
      lever Motif.CANARY canary_detail
    else
      match List.find (fun x => contains x fenetre) (wt_secrets (fx_watch s)) with
      | Some x => lever Motif.SECRET (secret_detail x)
      | None => ret None
      end.

Definition too_expensive (cout : option Q) (w : Watch) : option (Q * Q) :=
  match cout, wt_cout_max w with
  | Some c, Some m => if Qle_bool c m then None else Some (c, m)
  | _, _ => None
  end.

Definition tell_silence : M Flux unit := fun s =>
  (Ok tt, mkFlux (fx_watch s) (fx_report s) (fx_last s) true (fx_alertes s) (fx_reads s) (fx_calls s)).

(** [tic] *)
Definition tic (cout : option Q) : M Flux (option Alerte) :=
  s <- get ;;
  match too_expensive cout (fx_watch s) with
  | Some (c, m) => lever Motif.COUT (Msg "{:.4f} dépasse le plafond de {:.4f}" [show c; show m])
  | None =>
      t <- monotonic ;;
      let silence := (t - fx_last s)%Q in
      if Qle_bool (wt_silence (fx_watch s)) silence && negb (fx_told s) then
        tell_silence ;;;
        lever Motif.SILENCE (Msg ("aucune sortie depuis {:.0f} s — un agent qui se tait n'échoue pas, il attend, "
                                    +:+ "et l'attente ressemble au travail") [show silence])
      else ret None
  end.

(** [coupee] *)
Definition coupee (s : Flux) : bool :=
  existsb (fun a => bool_decide (al_motif a ∈ [Motif.CANARY; Motif.SECRET])) (fx_alertes s).

(** * Properties *)

(** What is pushed to the watch, and what it answers. *)
Inductive Push := Bloc (texte : string) | Tic (cout : option Q).

Definition push (p : Push) : M Flux (option Alerte) :=
  match p with Bloc t => bloc t | Tic c => tic c end.

Fixpoint pushes (ps : list Push) (s : Flux) : Flux :=
  match ps with
  | [] => s
  | p :: ps' => pushes ps' (push p s).2
  end.

(** All the text of the stream. *)
Fixpoint stream (ps : list Push) : string :=
  match ps with
  | [] => ""
  | Bloc t :: ps' => t +:+ stream ps'
  | Tic _ :: ps' => stream ps'
  end.

Lemma wp_lever motif detail s :
  wp (lever motif detail)
    (fun o s' => exists a, o = Some a /\ al_motif a = motif /\ fx_watch s' = fx_watch s /\
       fx_report s' = fx_report s /\ fx_alertes s' = fx_alertes s ++ [a]) s.
Proof. exists (mkAlerte motif detail (clock (fx_reads s))). by split_and!. Qed.

Lemma contains_app_r sub a b : contains sub b = true -> contains sub (a +:+ b) = true.
Proof.
  intros (p & q & ->)%contains_spec. apply contains_spec. exists (a +:+ p), q. by rewrite string_app_assoc.
Qed.

(** Nothing is lost between two blocks: what shows up with the new block is in
    the window. *)
Lemma window_enough sub t b :
  (String.length sub <= S (Z.to_nat REPORT))%nat ->
  contains sub (t +:+ b) = true -> contains sub t = true \/ contains sub (last_chars REPORT t +:+ b) = true.
Proof.
  intros Hlen (p & q & Hpq)%contains_spec. destruct (last_chars_spec REPORT t) as (t0 & Ht & Hlast).
  rewrite Ht, string_app_assoc in Hpq. apply string_app_cut in Hpq as [(k & Ht0 & Hk)|(k & -> & Hk)].
  2: { right. rewrite Hk. apply contains_spec. by exists k, q. }
  destruct k as [|c k].
  { right. apply contains_spec. exists "", q. symmetry. exact Hk. }
  left. rewrite <- string_app_assoc in Hk.
  assert (Hin : exists k', String c k +:+ last_chars REPORT t = sub +:+ k').
  { symmetry in Hk. apply string_app_cut in Hk as [(k' & Hk' & _)|(k' & Hsub & _)]; [by exists k'|].
    exists "". rewrite string_app_nil, Hsub. destruct k' as [|c' k']; [by rewrite string_app_nil|]. exfalso.
    pose proof (f_equal String.length Hsub) as Hl. pose proof (f_equal String.length Ht) as Hlt.
    rewrite Ht0 in Hlt. rewrite !string_length_app in Hl, Hlt. cbn in Hl, Hlt. lia. }
  destruct Hin as (k' & Hk'). rewrite Ht, Ht0. apply contains_spec. exists p, k'.
  by rewrite string_app_assoc, Hk'.
Qed.

Lemma suffix_unique (a b x y : string) :
  a +:+ x = b +:+ y -> String.length x = String.length y -> x = y.
Proof.
  intros [(k & _ & ->)|(k & _ & ->)]%string_app_cut Hl; rewrite string_length_app in Hl;
    destruct k as [|c k]; [done|cbn in Hl; lia|done|cbn in Hl; lia].
Qed.

Lemma last_chars_window t b : last_chars REPORT (last_chars REPORT t +:+ b) = last_chars REPORT (t +:+ b).
Proof.
  destruct (last_chars_spec REPORT t) as (p & Ht & Hl).
  destruct (last_chars_spec REPORT (last_chars REPORT t +:+ b)) as (p1 & H1 & Hl1).
  destruct (last_chars_spec REPORT (t +:+ b)) as (p2 & H2 & Hl2).
  apply (suffix_unique (p +:+ p1) p2).
  - by rewrite string_app_assoc, <- H1, <- string_app_assoc, <- Ht, <- H2.
  - rewrite Hl1, Hl2, !string_length_app, Hl. lia.
Qed.

(** ** What the watch detects *)

Definition leaked (w : Watch) (t : string) : Prop :=
  wt_canary w <> "" /\ contains (wt_canary w) t = true \/
  exists x, x ∈ wt_secrets w /\ contains x t = true.

(** The values looked for fit in the window. *)
Definition short (w : Watch) : Prop :=
  forall x, x = wt_canary w \/ x ∈ wt_secrets w -> (String.length x <= S (Z.to_nat REPORT))%nat.

Lemma contains_app_l sub a b : contains sub a = true -> contains sub (a +:+ b) = true.
Proof.
  intros (p & q & ->)%contains_spec. apply contains_spec. exists p, (q +:+ b). by rewrite !string_app_assoc.
Qed.

Lemma contains_window sub t b :
  (String.length sub <= S (Z.to_nat REPORT))%nat ->
  contains sub (t +:+ b) = true <-> contains sub t = true \/ contains sub (last_chars REPORT t +:+ b) = true.
Proof.
  intros Hlen. split; [by apply window_enough|]. intros [H|H]; [by apply contains_app_l|].
  destruct (last_chars_spec REPORT t) as (p & Ht & _). rewrite Ht, string_app_assoc. by apply contains_app_r.
Qed.

Lemma leaked_window w t b :
  short w -> leaked w (t +:+ b) <-> leaked w t \/ leaked w (last_chars REPORT t +:+ b).
Proof.
  intros Hs. unfold leaked. rewrite contains_window by (apply Hs; by left). split.
  - intros [[Hc [H|H]]|(x & Hx & [H|H]%contains_window)]; [tauto|tauto| | |apply Hs; by right].
    + left. right. by exists x.
    + right. right. by exists x.
  - intros [[[Hc H]|(x & Hx & H)]|[[Hc H]|(x & Hx & H)]]; [tauto| |tauto|]; right; exists x; (split; [done|]);
      apply contains_window; auto.
Qed.

(** A leak has been told. *)
Definition alarm (a : Alerte) : bool := bool_decide (al_motif a ∈ [Motif.CANARY; Motif.SECRET]).

Lemma coupee_snoc s l a : fx_alertes s = l ++ [a] -> coupee s = existsb alarm l || alarm a.
Proof. unfold coupee. intros ->. rewrite existsb_app. cbn. by rewrite orb_false_r. Qed.

Lemma wp_bloc texte s :
  wp (bloc texte)
    (fun _ s' => fx_watch s' = fx_watch s /\
       (texte <> "" -> fx_report s' = last_chars REPORT (fx_report s +:+ texte)) /\
       (texte = "" -> fx_report s' = fx_report s) /\
       (coupee s' = true <-> coupee s = true \/ texte <> "" /\ leaked (fx_watch s) (fx_report s +:+ texte))) s.
Proof.
  unfold bloc. case_decide as Ht; [apply wp_ret; split_and!; tauto|].
  unfold wp, bind at 1, monotonic. unfold bind at 1, get. unfold bind at 1, received.
  cbn [fx_watch fx_report fx_last fx_told fx_alertes fx_reads fx_calls].
  set (fenetre := fx_report s +:+ texte). unfold leaked.
  destruct (decide (wt_canary (fx_watch s) = "")) as [Hc|Hc];
    [rewrite bool_decide_eq_true_2 by done|rewrite bool_decide_eq_false_2 by done]; cbn [negb andb].
  2: destruct (contains (wt_canary (fx_watch s)) fenetre) eqn:Ec.
  2: { eapply wp_mono; [apply wp_lever|]. cbn. intros o s' (a & -> & Hm & Hw & Hr & Ha).
       split_and!; [done..|]. rewrite (coupee_snoc _ _ _ Ha). unfold alarm at 2. rewrite Hm.
       rewrite (bool_decide_eq_true_2 (Motif.CANARY ∈ _)) by const_elem. rewrite orb_true_r. tauto. }
  all: destruct (List.find _ (wt_secrets (fx_watch s))) as [x|] eqn:Ef.
  1,3: apply find_some in Ef as [Hx Hin]; apply list_elem_of_In in Hx;
    eapply wp_mono; [apply wp_lever|]; cbn; intros o s' (a & -> & Hm & Hw & Hr & Ha);
    (split_and!; [done..|]); rewrite (coupee_snoc _ _ _ Ha); unfold alarm at 2; rewrite Hm;
    rewrite (bool_decide_eq_true_2 (Motif.SECRET ∈ _)) by const_elem; rewrite orb_true_r;
    split; [intros _; right; split; [done|]; right; by exists x|done].
  all: cbn; (split_and!; [done..|]); split; [by left|]; intros [H|[_ H]]; [done|]; exfalso;
    destruct H as [[? ?]|(x & Hx & Hin)]; [congruence|];
    pose proof (find_none _ _ Ef x (proj1 (list_elem_of_In _ _) Hx)) as Hb; cbn in Hb; congruence.
Qed.

Lemma wp_tic cout s :
  wp (tic cout)
    (fun _ s' => fx_watch s' = fx_watch s /\ fx_report s' = fx_report s /\ (coupee s' = coupee s)) s.
Proof.
  unfold tic. unfold wp, bind at 1, get. destruct (too_expensive _ _) as [[c m]|].
  - eapply wp_mono; [apply wp_lever|]. cbn. intros o s' (a & -> & Hm & Hw & Hr & Ha).
    split_and!; [done..|]. rewrite (coupee_snoc _ _ _ Ha). unfold alarm at 2. rewrite Hm.
    rewrite (bool_decide_eq_false_2 (Motif.COUT ∈ _)) by (intros H; const_absurd H). by rewrite orb_false_r.
  - unfold bind at 1, monotonic. destruct (_ && _); [|by cbn].
    unfold bind at 1, tell_silence. eapply wp_mono; [apply wp_lever|]. cbn. intros o s' (a & -> & Hm & Hw & Hr & Ha).
    split_and!; [done..|]. rewrite (coupee_snoc _ _ _ Ha). unfold alarm at 2. rewrite Hm.
    rewrite (bool_decide_eq_false_2 (Motif.SILENCE ∈ _)) by (intros H; const_absurd H). by rewrite orb_false_r.
Qed.

Lemma pushes_spec w t ps s :
  short w -> fx_watch s = w -> fx_report s = last_chars REPORT t -> (coupee s = true <-> leaked w t) ->
  coupee (pushes ps s) = true <-> leaked w (t +:+ stream ps).
Proof.
  intros Hs. revert t s. induction ps as [|p ps IH]; intros t s Hw Hr Hc; cbn [pushes stream].
  { by rewrite string_app_nil. }
  destruct p as [b|c]; cbn [push stream].
  - destruct (wp_state _ _ _ (wp_bloc b s)) as (_ & Hw' & Hr' & Hr0 & Hc').
    destruct (decide (b = "")) as [->|Hb].
    + apply IH; [congruence|by rewrite Hr0|]. rewrite Hc', Hc. by split; [intros [|[? _]]|auto].
    + rewrite <- string_app_assoc. apply IH; [congruence|by rewrite Hr', Hr, last_chars_window by done|].
      rewrite Hc', Hc, Hw, Hr, (leaked_window w t b Hs). tauto.
  - destruct (wp_state _ _ _ (wp_tic c s)) as (_ & Hw' & Hr' & Hc').
    apply IH; [congruence..|]. by rewrite Hc'.
Qed.

Lemma contains_nil x : contains x "" = true -> x = "".
Proof. by destruct x. Qed.

Lemma leaked_nil w : (forall x, x ∈ wt_secrets w -> x <> "") -> ~ leaked w "".
Proof.
  intros Hw [[Hc H%contains_nil]|(x & Hx & H%contains_nil)]; [done|]. by apply (Hw x).
Qed.

Lemma known_secrets_spec secrets x :
  x ∈ known_secrets secrets <-> x ∈ secrets /\ (LONGUEUR_MIN_SECRET <= String.length x)%nat.
Proof.
  unfold known_secrets. rewrite list_elem_of_In, filter_In, <- list_elem_of_In, andb_true_iff, Nat.leb_le.
  rewrite bool_decide_eq_true. split; [tauto|]. intros [Hx Hl]. split_and!; [done| |done].
  intros ->. cbn in Hl. unfold LONGUEUR_MIN_SECRET in Hl. lia.
Qed.

(** leaks.  However a stream is cut in blocks, and whatever the ticks, a leak is
    told exactly when the canary or a known secret appears in the whole text,
    as long as none of them is longer than the window and one character. *)
Theorem leak_told_exactly canary secrets listener silence cout_max ps :
  let w := mkWatch canary (known_secrets secrets) listener silence cout_max in
  short w ->
  coupee (pushes ps (new_flux canary secrets listener silence cout_max)) = true <-> leaked w (stream ps).
Proof.
  intros w Hs. rewrite (pushes_spec w "" ps); [done|done|done|done|].
  split; [done|]. intros Hl. exfalso. revert Hl. apply leaked_nil. intros x Hx ->.
  apply known_secrets_spec in Hx as [_ Hl]. unfold LONGUEUR_MIN_SECRET in Hl. cbn in Hl. lia.
Qed.
End watch.

(** A canary cut in two by the blocks. *)
Definition demo_pushes : list Push := [Bloc "the value is hos-can"; Tic None; Bloc "ary-1 and more"].

Lemma leak_told_exactly_witness :
  short (mkWatch "hos-canary-1" (known_secrets ["abcdefgh"]) false SILENCE_S None) /\
  coupee (pushes (fun _ => 0%Q) (fun _ => "") demo_pushes
            (new_flux (fun _ => 0%Q) "hos-canary-1" ["abcdefgh"] false SILENCE_S None)) = true.
Proof.
  assert (Hs : short (mkWatch "hos-canary-1" (known_secrets ["abcdefgh"]) false SILENCE_S None)).
  { intros x [->|Hx]; [vm_compute; lia|].
    apply known_secrets_spec in Hx as [->%list_elem_of_singleton _]. vm_compute. lia. }
  split; [exact Hs|].
  apply (leak_told_exactly (fun _ => 0%Q) (fun _ => "") "hos-canary-1" ["abcdefgh"] false SILENCE_S None demo_pushes Hs).
  left. split; [discriminate|vm_compute; reflexivity].
Defined.

(** Each block of the next 512 characters tells the same leak again. *)
Example demo_told_again :
  length (fx_alertes (pushes (fun _ => 0%Q) (fun _ => "") [Bloc "hos-canary-1"; Bloc "a"; Bloc "b"]
    (new_flux (fun _ => 0%Q) "hos-canary-1" [] false SILENCE_S None))) = 3%nat.
Proof. reflexivity. Qed.
