(* ===== verification/SecurityEngine.v ===== *)
(** * Permissions, trust and threats ([backend/security/permission_manager.py],
    [agent_trust_engine.py], [threat_detector.py], [security_engine.py])

    The four stores of [SecurityEngine] in one state, and [check_access], which
    composes them.  A threat is an object that [_threats] and [_incidents] share:
    [se_incidents] holds positions in [se_threats].  Clocks and ids are oracles,
    floats are rationals. *)
From stdpp Require Import base gmap strings list sets sorting pretty.
From Stdlib Require Import ZArith QArith Qround Qminmax Lia Lqa.
From S2P Require Import Prelude.
#[local] Open Scope Z_scope.

(** ** Data ([security_models.py]) *)

Module TrustLevel.
Inductive t := UNKNOWN | LOW | MEDIUM | HIGH | VERIFIED.
#[global] Instance eq_dec : EqDecision t.
Proof. solve_decision. Defined.
Definition all : list t := [UNKNOWN; LOW; MEDIUM; HIGH; VERIFIED].
Definition value (l : t) : string :=
  match l with
  | UNKNOWN => "unknown" | LOW => "low" | MEDIUM => "medium" | HIGH => "high" | VERIFIED => "verified"
  end.
End TrustLevel.

Module ThreatLevel.
Inductive t := NONE | LOW | MEDIUM | HIGH | CRITICAL.
#[global] Instance eq_dec : EqDecision t.
Proof. solve_decision. Defined.
Definition all : list t := [NONE; LOW; MEDIUM; HIGH; CRITICAL].
Definition value (l : t) : string :=
  match l with
  | NONE => "none" | LOW => "low" | MEDIUM => "medium" | HIGH => "high" | CRITICAL => "critical"
  end.
End ThreatLevel.

Module PermissionAction.
Inductive t := ALLOW | DENY | REVIEW.
#[global] Instance eq_dec : EqDecision t.
Proof. solve_decision. Defined.
End PermissionAction.

Module ResourceType.
Inductive t := AGENT | SKILL | TOOL | WORKSPACE | RUNTIME | FILE | NETWORK | MEMORY | CONFIG.
#[global] Instance eq_dec : EqDecision t.
Proof. solve_decision. Defined.
Definition value (r : t) : string :=
  match r with
  | AGENT => "agent" | SKILL => "skill" | TOOL => "tool" | WORKSPACE => "workspace"
  | RUNTIME => "runtime" | FILE => "file" | NETWORK => "network" | MEMORY => "memory"
  | CONFIG => "config"
  end.
End ResourceType.

(** The conditions a policy is matched on; others are ignored. *)
Record Conditions := mkConditions {
  co_principal : option string;
  co_resource : option string
}.

Record SecurityPolicy := mkPolicyS {
  po_id : string;
  po_name : string;
  po_resource_type : ResourceType.t;
  po_action : PermissionAction.t;
  po_conditions : Conditions;
  po_priority : Z;
  po_enabled : bool
}.

Record Permission := mkPermission {
  pe_id : string;
  pe_principal : string;
  pe_resource_type : ResourceType.t;
  pe_resource : string;
  pe_allowed : bool;
  pe_granted_by : string;
  pe_expires : option Q
}.

Record AgentTrustScore := mkTrust {
  ts_agent : string;
  ts_score : Q;
  ts_level : TrustLevel.t;
  ts_total : Z;
  ts_success : Z;
  ts_failure : Z;
  ts_violations : Z;
  ts_approvals : Z;
  ts_recent : Q
}.

Record ThreatDetection := mkThreat {
  td_id : string;
  td_level : ThreatLevel.t;
  td_source : string;
  td_principal : string;
  td_type : string;
  td_description : message;
  td_severity : Q;
  td_mitigated : bool;
  td_action : string
}.

Record HistoryEntry := mkHistory {
  hi_action : string;
  hi_permission : option string;
  hi_principal : string;
  hi_resource : string
}.

Record Published := mkPublished {
  pb_type : string;
  pb_payload : pydict pyval;
  pb_severity : string
}.

Record Security := mkSecurity {
  se_permissions : pydict Permission;
  se_policies : pydict SecurityPolicy;
  se_history : list HistoryEntry;
  se_scores : pydict AgentTrustScore;
  se_threats : list ThreatDetection;
  se_incidents : list nat;
  se_usage : pydict (list (Q * Q));
  se_calls : pydict (list Q);
  se_reads : nat;
  se_uuids : nat;
  se_events : list Published
}.

Definition new_security : Security := mkSecurity [] [] [] [] [] [] [] [] 0 0 [].

(** Assignments to the fields. *)
Definition with_permissions d (s : Security) : Security :=
  mkSecurity d (se_policies s) (se_history s) (se_scores s) (se_threats s) (se_incidents s) (se_usage s)
    (se_calls s) (se_reads s) (se_uuids s) (se_events s).
Definition with_policies d (s : Security) : Security :=
  mkSecurity (se_permissions s) d (se_history s) (se_scores s) (se_threats s) (se_incidents s) (se_usage s)
    (se_calls s) (se_reads s) (se_uuids s) (se_events s).
Definition add_history h (s : Security) : Security :=
  mkSecurity (se_permissions s) (se_policies s) (deque_append 500 (se_history s) h) (se_scores s)
    (se_threats s) (se_incidents s) (se_usage s) (se_calls s) (se_reads s) (se_uuids s) (se_events s).
Definition with_scores d (s : Security) : Security :=
  mkSecurity (se_permissions s) (se_policies s) (se_history s) d (se_threats s) (se_incidents s)
    (se_usage s) (se_calls s) (se_reads s) (se_uuids s) (se_events s).
Definition with_usage d (s : Security) : Security :=
  mkSecurity (se_permissions s) (se_policies s) (se_history s) (se_scores s) (se_threats s)
    (se_incidents s) d (se_calls s) (se_reads s) (se_uuids s) (se_events s).
Definition with_calls d (s : Security) : Security :=
  mkSecurity (se_permissions s) (se_policies s) (se_history s) (se_scores s) (se_threats s)
    (se_incidents s) (se_usage s) d (se_reads s) (se_uuids s) (se_events s).
Definition with_threats l (s : Security) : Security :=
  mkSecurity (se_permissions s) (se_policies s) (se_history s) (se_scores s) l (se_incidents s)
    (se_usage s) (se_calls s) (se_reads s) (se_uuids s) (se_events s).
(** [_record_threat] *)
Definition record_threat t (s : Security) : Security :=
  mkSecurity (se_permissions s) (se_policies s) (se_history s) (se_scores s) (se_threats s ++ [t])
    (deque_append 500 (se_incidents s) (length (se_threats s))) (se_usage s) (se_calls s) (se_reads s)
    (se_uuids s) (se_events s).

Section security.
(** [time.time()] and [datetime.now()], [uuid4().hex[:8]], and whether a handler of
    events is wired. *)
Variable clock : nat -> Q.
Variable uuid8 : nat -> string.
Variable listener : bool.
(** [f"{x:.0f}"] *)
Variable show : Q -> string.

Definition now : M Security Q := fun s =>
  (Ok (clock (se_reads s)),
   mkSecurity (se_permissions s) (se_policies s) (se_history s) (se_scores s) (se_threats s)
     (se_incidents s) (se_usage s) (se_calls s) (S (se_reads s)) (se_uuids s) (se_events s)).

Definition next_id : M Security string := fun s =>
  (Ok (uuid8 (se_uuids s)),
   mkSecurity (se_permissions s) (se_policies s) (se_history s) (se_scores s) (se_threats s)
     (se_incidents s) (se_usage s) (se_calls s) (se_reads s) (S (se_uuids s)) (se_events s)).

Definition modify (f : Security -> Security) : M Security unit := fun s => (Ok tt, f s).

(** [_publish] *)
Definition publish (type : string) (payload : pydict pyval) (severity : string) : M Security unit := fun s =>
  (Ok tt,
   if listener
   then mkSecurity (se_permissions s) (se_policies s) (se_history s) (se_scores s) (se_threats s)
          (se_incidents s) (se_usage s) (se_calls s) (se_reads s) (se_uuids s)
          (se_events s ++ [mkPublished type payload severity])
   else s).

(** ** PermissionManager *)

(** The key [f"{principal_id}:{resource_type.value}:{resource_id}"] *)
Definition permission_key (principal : string) (rt : ResourceType.t) (resource : string) : string :=
  principal +:+ ":" +:+ ResourceType.value rt +:+ ":" +:+ resource.

Definition grant_permission (principal : string) (rt : ResourceType.t) (resource : string) (allowed : bool)
    (granted_by : string) (expires : option Q) : M Security Permission :=
  id <- next_id ;;
  let p := mkPermission ("perm_" +:+ id) principal rt resource allowed granted_by expires in
  modify (fun s => with_permissions (dset (se_permissions s) (permission_key principal rt resource) p) s) ;;;
  modify (add_history (mkHistory "grant" (Some (pe_id p)) principal resource)) ;;;
  ret p.

Definition revoke_permission (principal : string) (rt : ResourceType.t) (resource : string) : M Security bool :=
  s <- get ;;
  let key := permission_key principal rt resource in
  if dmem (se_permissions s) key then
    modify (fun s => with_permissions (ddel (se_permissions s) key) s) ;;;
    modify (add_history (mkHistory "revoke" None principal resource)) ;;;
    ret true
  else ret false.

(** [Permission.is_expired] *)
Definition is_expired (p : Permission) : M Security bool :=
  match pe_expires p with
  | None => ret false
  | Some e => t <- now ;; ret (negb (Qle_bool t e))
  end.

Definition check_permission (principal : string) (rt : ResourceType.t) (resource : string) : M Security bool :=
  s <- get ;;
  let key := permission_key principal rt resource in
  match dget (se_permissions s) key with
  | None => ret false
  | Some p =>
      expired <- is_expired p ;;
      if expired : bool then
        modify (fun s => with_permissions (ddel (se_permissions s) key) s) ;;; ret false
      else ret (pe_allowed p)
  end.

Definition list_permissions (principal : option string) (s : Security) : list Permission :=
  match principal with
  | None | Some "" => dvalues (se_permissions s)
  | Some p => List.filter (fun x => bool_decide (pe_principal x = p)) (dvalues (se_permissions s))
  end.

Definition add_policy (p : SecurityPolicy) : M Security bool :=
  s <- get ;;
  if dmem (se_policies s) (po_id p) then ret false
  else modify (fun s => with_policies (dset (se_policies s) (po_id p) p) s) ;;; ret true.

(** [sorted(..., key=priority, reverse=True)], which keeps the order of equal
    priorities. *)
Definition higher (a b : SecurityPolicy) : Prop := po_priority b <= po_priority a.
#[export] Instance higher_dec : RelDecision higher.
Proof. intros a b. unfold higher. apply _. Defined.

Definition condition_holds (c : option string) (v : string) : bool :=
  match c with Some x => bool_decide (x = v) | None => true end.

Definition policy_matches (principal : string) (rt : ResourceType.t) (resource : string) (p : SecurityPolicy)
    : bool :=
  bool_decide (po_resource_type p = rt) && condition_holds (co_principal (po_conditions p)) principal &&
  condition_holds (co_resource (po_conditions p)) resource.

Definition evaluate_policies (principal : string) (rt : ResourceType.t) (resource : string) (s : Security)
    : PermissionAction.t * option SecurityPolicy :=
  match List.find (policy_matches principal rt resource)
          (sort_by higher (List.filter po_enabled (dvalues (se_policies s)))) with
  | Some p => (po_action p, Some p)
  | None => (PermissionAction.DENY, None)
  end.

Definition get_policies (rt : option ResourceType.t) (s : Security) : list SecurityPolicy :=
  sort_by higher
    (match rt with
     | Some r => List.filter (fun p => bool_decide (po_resource_type p = r)) (dvalues (se_policies s))
     | None => dvalues (se_policies s)
     end).

(** [list(self._history)[-limit:]], for a positive limit. *)
Definition get_history (limit : nat) (s : Security) : list HistoryEntry :=
  drop (length (se_history s) - limit) (se_history s).

(** ** AgentTrustEngine *)

Definition new_score (agent : string) : AgentTrustScore := mkTrust agent 50 TrustLevel.UNKNOWN 0 0 0 0 0 1.

Definition level_of (score : Q) : TrustLevel.t :=
  if Qle_bool 85 score then TrustLevel.VERIFIED
  else if Qle_bool 60 score then TrustLevel.HIGH
  else if Qle_bool 35 score then TrustLevel.MEDIUM
  else if Qle_bool 15 score then TrustLevel.LOW
  else TrustLevel.UNKNOWN.

Definition zq (z : Z) : Q := inject_Z z.

Definition raw_score (t : AgentTrustScore) : Q :=
  (zq (ts_success t) / zq (Z.max (ts_total t) 1) * (30 # 100)
   + Qmax 0 (1 - zq (ts_violations t) / zq (Z.max (ts_total t + ts_violations t) 1)) * (25 # 100)
   + Qmin 1 (zq (ts_approvals t) / zq (Z.max (ts_total t) 1) * 2) * (15 # 100)
   + ts_recent t * (20 # 100)
   + Qmin 1 (zq (ts_total t) / 100) * (10 # 100))%Q.

(** [_recalculate] *)
Definition recalculate (t : AgentTrustScore) : AgentTrustScore :=
  let score := tenths (raw_score t * 100) in
  mkTrust (ts_agent t) score (level_of score) (ts_total t) (ts_success t) (ts_failure t) (ts_violations t)
    (ts_approvals t) (ts_recent t).

(** [_update_recent_behavior], the task counted. *)
Definition recent_after (t : AgentTrustScore) (success : bool) : Q :=
  let latest := if success then 1%Q else 0%Q in
  if 1 <? ts_total t then
    let n := Z.min (ts_total t) 10 in
    ((ts_recent t * zq (n - 1) + latest) / zq n)%Q
  else latest.

Definition count_result (success : bool) (t : AgentTrustScore) : AgentTrustScore :=
  let t1 := mkTrust (ts_agent t) (ts_score t) (ts_level t) (ts_total t + 1)
              (ts_success t + Z.b2z success) (ts_failure t + Z.b2z (negb success)) (ts_violations t)
              (ts_approvals t) (ts_recent t) in
  recalculate (mkTrust (ts_agent t1) (ts_score t1) (ts_level t1) (ts_total t1) (ts_success t1)
                 (ts_failure t1) (ts_violations t1) (ts_approvals t1) (recent_after t1 success)).

Definition count_violation (t : AgentTrustScore) : AgentTrustScore :=
  recalculate (mkTrust (ts_agent t) (ts_score t) (ts_level t) (ts_total t) (ts_success t) (ts_failure t)
                 (ts_violations t + 1) (ts_approvals t) (ts_recent t)).

Definition count_approval (t : AgentTrustScore) : AgentTrustScore :=
  recalculate (mkTrust (ts_agent t) (ts_score t) (ts_level t) (ts_total t) (ts_success t) (ts_failure t)
                 (ts_violations t) (ts_approvals t + 1) (ts_recent t)).

(** [get_score]: an unknown agent is created. *)
Definition get_score (agent : string) : M Security AgentTrustScore :=
  s <- get ;;
  match dget (se_scores s) agent with
  | Some t => ret t
  | None => modify (fun s => with_scores (dset (se_scores s) agent (new_score agent)) s) ;;; ret (new_score agent)
  end.

(** [_handle_trust_update] *)
Definition notify_trust (agent : string) (t : AgentTrustScore) : M Security unit :=
  publish "security.agent.trust.updated"
    [("agent_id", PStr agent); ("score", PFloat (ts_score t)); ("level", PStr (TrustLevel.value (ts_level t)))]
    "info".

(** A change of the score of an agent, and its notification. *)
Definition change_score (f : AgentTrustScore -> AgentTrustScore) (agent : string) : M Security unit :=
  t <- get_score agent ;;
  modify (fun s => with_scores (dset (se_scores s) agent (f t)) s) ;;;
  notify_trust agent (f t).

Definition record_result (agent : string) (success : bool) : M Security unit :=
  change_score (count_result success) agent.
Definition record_policy_violation (agent : string) : M Security unit := change_score count_violation agent.
Definition record_human_approval (agent : string) : M Security unit := change_score count_approval agent.

(** [get_threshold] *)
Definition get_threshold (required : TrustLevel.t) : Q :=
  match required with
  | TrustLevel.UNKNOWN => 0
  | TrustLevel.LOW => 20
  | TrustLevel.MEDIUM => 40
  | TrustLevel.HIGH => 70
  | TrustLevel.VERIFIED => 90
  end.

Definition meets_threshold (agent : string) (required : TrustLevel.t) : M Security bool :=
  t <- get_score agent ;; ret (Qle_bool (get_threshold required) (ts_score t)).

(** ** ThreatDetector *)

(** [f"threat_{int(time.time())}"] *)
Definition threat_id : M Security string := t <- now ;; ret ("threat_" +:+ pretty (Qfloor t)).

Definition raise_threat (level : ThreatLevel.t) (source principal type : string) (description : message)
    (severity : Q) : M Security ThreatDetection :=
  id <- threat_id ;;
  let t := mkThreat id level source principal type description severity false "" in
  modify (record_threat t) ;;; ret t.

Definition check_file_access (principal file_path : string) (allowed_paths : list string)
    : M Security (option ThreatDetection) :=
  if existsb (fun p => String.prefix p file_path) allowed_paths then ret None
  else
    t <- raise_threat ThreatLevel.MEDIUM "file_system" principal "unauthorized_file_access"
           (Msg "Unauthorized file access: {}" [file_path]) (6 # 10) ;;
    ret (Some t).

(** The readings of the last [window] seconds: the clock is read for each. *)
Fixpoint recent_within {A} (window : Q) (at_ : A -> Q) (l : list A) : M Security (list A) :=
  match l with
  | [] => ret []
  | x :: l' =>
      t <- now ;;
      rest <- recent_within window at_ l' ;;
      ret (if Qle_bool window (t - at_ x) then rest else x :: rest)
  end.

Definition max_resource_per_sec : Q := 1000.

Definition sum_q (l : list Q) : Q := fold_left Qplus l 0%Q.

Definition check_resource_usage (principal resource : string) (usage : Q) : M Security (option ThreatDetection) :=
  t <- now ;;
  s <- get ;;
  let d := deque_append 100 (default [] (dget (se_usage s) principal)) (t, usage) in
  modify (fun s => with_usage (dset (se_usage s) principal d) s) ;;;
  recent <- recent_within 10 fst d ;;
  let usages := map snd recent in
  if negb (bool_decide (usages = [])) && negb (Qle_bool (sum_q usages) (max_resource_per_sec * 3)) then
    t <- raise_threat ThreatLevel.HIGH "resource_monitor" principal "excessive_resource_usage"
           (Msg "Excessive {} usage: {:.0f} in 10s" [resource; show (sum_q usages)]) (8 # 10) ;;
    ret (Some t)
  else ret None.

Definition suspicious_tools : list string := ["exec"; "shell"; "subprocess"; "eval"; "compile"].

(** The last rule of [check_tool_call]. *)
Definition flag_execution (principal tool : string) : M Security (option ThreatDetection) :=
  if contains "exec" (lower tool) || contains "shell" (lower tool) then
    t <- raise_threat ThreatLevel.MEDIUM "tool_monitor" principal "suspicious_tool_call"
           (Msg "Execution tool called: {}" [tool]) (5 # 10) ;;
    ret (Some t)
  else ret None.

Definition check_tool_call (principal tool : string) : M Security (option ThreatDetection) :=
  if existsb (fun t => contains t (lower tool)) suspicious_tools then
    t <- now ;;
    s <- get ;;
    let d := deque_append 50 (default [] (dget (se_calls s) principal)) t in
    modify (fun s => with_calls (dset (se_calls s) principal d) s) ;;;
    recent <- recent_within 60 (fun x => x) d ;;
    if (10 <? length recent)%nat then
      t <- raise_threat ThreatLevel.HIGH "tool_monitor" principal "suspicious_tool_call"
             (Msg "Suspicious tool ({}) called {}x in 60s" [tool; pretty (length recent)]) (7 # 10) ;;
      ret (Some t)
    else flag_execution principal tool
  else flag_execution principal tool.

Definition check_sandbox_violation (principal violation : string) : M Security ThreatDetection :=
  raise_threat ThreatLevel.CRITICAL "sandbox" principal "sandbox_violation"
    (Msg "Sandbox violation: {}" [violation]) (95 # 100).

Definition incidents (s : Security) : list ThreatDetection := omap (fun i => se_threats s !! i) (se_incidents s).

Definition get_threats (principal : option string) (level : option ThreatLevel.t) (limit : nat) (s : Security)
    : list ThreatDetection :=
  let l := List.filter (fun t => match principal with
                                 | None | Some "" => true
                                 | Some p => bool_decide (td_principal t = p)
                                 end &&
                                 match level with None => true | Some v => bool_decide (td_level t = v) end)
             (incidents s) in
  drop (length l - limit) l.

Definition mitigate (action : string) (t : ThreatDetection) : ThreatDetection :=
  mkThreat (td_id t) (td_level t) (td_source t) (td_principal t) (td_type t) (td_description t)
    (td_severity t) true action.

(** The first threat of [_threats] with this id that is not mitigated; every
    incident is one of them. *)
Fixpoint mitigate_first (id action : string) (l : list ThreatDetection) : option (list ThreatDetection) :=
  match l with
  | [] => None
  | t :: l' =>
      if bool_decide (td_id t = id) && negb (td_mitigated t) then Some (mitigate action t :: l')
      else (cons t) <$> mitigate_first id action l'
  end.

Definition mitigate_threat (id action : string) : M Security bool :=
  s <- get ;;
  match mitigate_first id action (se_threats s) with
  | Some l => modify (with_threats l) ;;; ret true
  | None => ret false
  end.

(** ** SecurityEngine *)

(** The context of a request: a non-empty dictionary. *)
Record AccessContext := mkAccess {
  cx_file_path : string;
  cx_allowed_paths : list string
}.

Record Access := mkAnswer {
  an_allowed : bool;
  an_reason : string;
  an_policy : option string;
  an_review : bool;
  an_trust : option (Q * TrustLevel.t);
  an_threat : option ThreatLevel.t
}.

Definition deny (reason : string) (policy : option string) (review : bool) : Access :=
  mkAnswer false reason policy review None None.

(** Step 4: the level of the threat. *)
Definition threat_step (principal operation : string) (context : option AccessContext)
    : M Security ThreatLevel.t :=
  match context with
  | Some c =>
      if contains "file" operation then
        threat <- check_file_access principal (cx_file_path c) (cx_allowed_paths c) ;;
        match threat with
        | Some t =>
            publish "security.threat.detected"
              [("principal", PStr principal); ("threat", PStr (td_id t))] "critical" ;;;
            ret (td_level t)
        | None => ret ThreatLevel.NONE
        end
      else ret ThreatLevel.NONE
  | None => ret ThreatLevel.NONE
  end.

Definition denied_event (principal resource reason : string) (policy : option string) : M Security unit :=
  publish "security.permission.denied"
    ([("principal", PStr principal); ("resource", PStr resource); ("reason", PStr reason)] ++
     match policy with Some p => [("policy", PStr p)] | None => [] end) "warning".

(** [check_access] *)
Definition check_access (principal : string) (rt : ResourceType.t) (resource operation : string)
    (context : option AccessContext) : M Security Access :=
  s <- get ;;
  let '(action, policy) := evaluate_policies principal rt resource s in
  match action with
  | PermissionAction.DENY =>
      denied_event principal resource "Policy denied"
        (Some (match policy with Some p => po_id p | None => "" end)) ;;;
      ret (deny "Policy denied" (Some (match policy with Some p => po_id p | None => "default_deny" end)) false)
  | PermissionAction.REVIEW => ret (deny "Review required" None true)
  | PermissionAction.ALLOW =>
      has_perm <- check_permission principal rt resource ;;
      if negb has_perm then
        denied_event principal resource "No explicit permission" None ;;;
        ret (deny "Permission denied" None false)
      else
        t <- get_score principal ;;
        level <- threat_step principal operation context ;;
        publish "security.permission.checked"
          [("principal", PStr principal); ("resource", PStr resource); ("operation", PStr operation);
           ("trust_score", PFloat (ts_score t)); ("threat_level", PStr (ThreatLevel.value level))] "info" ;;;
        let allowed := Qle_bool 20 (ts_score t) &&
                       negb (bool_decide (level ∈ [ThreatLevel.HIGH; ThreatLevel.CRITICAL])) in
        ret (mkAnswer allowed (if allowed then "Access granted" else "Trust too low or threat detected")
               None false (Some (ts_score t, ts_level t)) (Some level))
  end.
End security.

(** * Properties *)

(** ** Policies *)

(** The policy that decides.  It is an enabled policy that matches and none
    that matches has a higher priority; when none matches the answer is DENY. *)
Theorem policies_first_match principal rt resource s :
  let l := List.filter (fun p => po_enabled p && policy_matches principal rt resource p) (dvalues (se_policies s)) in
  (l = [] /\ evaluate_policies principal rt resource s = (PermissionAction.DENY, None)) \/
  exists p, p ∈ l /\ (forall q, q ∈ l -> po_priority q <= po_priority p) /\
    evaluate_policies principal rt resource s = (po_action p, Some p).
Proof.
  intros l. unfold evaluate_policies. set (enabled := List.filter po_enabled (dvalues (se_policies s))).
  assert (Hl : forall p, p ∈ l <-> p ∈ sort_by higher enabled /\ policy_matches principal rt resource p = true).
  { intros p. rewrite sort_by_perm. unfold l, enabled.
    rewrite !list_elem_of_In, !filter_In, andb_true_iff. tauto. }
  assert (Hsorted : StronglySorted higher (sort_by higher enabled)).
  { refine (sort_by_sorted higher enabled); [intros a b c; unfold higher; lia|intros a b; unfold higher; lia]. }
  clearbody l. revert Hl Hsorted. generalize (sort_by higher enabled). intros k. revert l.
  induction k as [|p k IH]; intros l Hl Hsorted; cbn [List.find].
  - left. split; [|done]. destruct l as [|p l]; [done|]. destruct (proj1 (Hl p)) as [H _]; [set_solver|].
    by apply elem_of_nil in H.
  - destruct (policy_matches principal rt resource p) eqn:E.
    + right. exists p. split; [apply Hl; split; [set_solver|done]|]. split; [|done].
      intros q Hq. apply Hl in Hq as [[->|Hq]%elem_of_cons _]; [lia|].
      exact (StronglySorted_head higher p k q Hsorted Hq).
    + apply IH; [|by inversion Hsorted]. intros q. rewrite Hl, elem_of_cons. split; [|tauto].
      intros [[->|Hq] Hm]; [congruence|done].
Qed.

(** ** Access *)

(** The permission is there, in time at the reading [t] of the clock, and
    grants the access. *)
Definition permitted_at (t : Q) (principal : string) (rt : ResourceType.t) (resource : string) (s : Security)
    : Prop :=
  exists p, dget (se_permissions s) (permission_key principal rt resource) = Some p /\
    pe_allowed p = true /\ forall e, pe_expires p = Some e -> (t <= e)%Q.

(** The score [get_score] answers. *)
Definition score_of (agent : string) (s : Security) : Q :=
  match dget (se_scores s) agent with Some t => ts_score t | None => 50 end.

Section access.
Variable clock : nat -> Q.
Variable listener : bool.

Lemma wp_publish type payload severity (s : Security) :
  wp (publish listener type payload severity)
    (fun _ s' => se_permissions s' = se_permissions s /\ se_scores s' = se_scores s) s.
Proof. unfold wp, publish. by destruct listener. Qed.

Lemma wp_check_permission principal rt resource s :
  wp (check_permission clock principal rt resource)
    (fun b s' => se_scores s' = se_scores s /\
       (b = true <-> permitted_at (clock (se_reads s)) principal rt resource s)) s.
Proof.
  unfold check_permission, permitted_at. unfold wp, bind at 1, get.
  destruct (dget (se_permissions s) _) as [p|]; [|cbn; split; [done|]; split; [done|by intros (? & ? & _)]].
  unfold is_expired. destruct (pe_expires p) as [e|] eqn:Ee.
  - unfold bind at 1 2, now, ret at 1. destruct (Qle_bool (clock (se_reads s)) e) eqn:Eq; cbn.
    + apply Qle_bool_iff in Eq. split; [done|]. split.
      * intros Ha. exists p. split_and!; [done..|]. rewrite Ee. by intros ? [= <-].
      * by intros (? & [= <-] & Ha & _).
    + split; [done|]. split; [done|]. intros (? & [= <-] & _ & Ht). specialize (Ht e Ee).
      apply Qle_bool_iff in Ht. congruence.
  - cbn. split; [done|]. split; [intros Ha; exists p; rewrite Ee; by split_and!|by intros (? & [= <-] & Ha & _)].
Qed.

Lemma wp_get_score agent s :
  wp (get_score agent) (fun t _ => ts_score t = score_of agent s) s.
Proof. unfold wp, get_score, score_of, bind at 1, get. by destruct (dget (se_scores s) agent). Qed.

Lemma wp_threat_step principal operation context s :
  wp (threat_step clock listener principal operation context)
    (fun level _ => level ∉ [ThreatLevel.HIGH; ThreatLevel.CRITICAL]) s.
Proof.
  assert (Hnone : ThreatLevel.NONE ∉ [ThreatLevel.HIGH; ThreatLevel.CRITICAL]) by (intros H; const_absurd H).
  unfold threat_step. destruct context as [c|]; [|done]. destruct (contains _ _); [|done].
  apply wp_bind. unfold check_file_access. destruct (existsb _ _); [done|].
  unfold raise_threat, threat_id, wp, bind, now, ret, modify. cbn. intros H. const_absurd H.
Qed.

Lemma check_access_spec principal rt resource operation context s :
  wp (check_access clock listener principal rt resource operation context)
    (fun a _ => an_allowed a = true <->
       (evaluate_policies principal rt resource s).1 = PermissionAction.ALLOW /\
       permitted_at (clock (se_reads s)) principal rt resource s /\ (20 <= score_of principal s)%Q) s.
Proof.
  unfold check_access. unfold wp, bind at 1, get. destruct (evaluate_policies _ _ _ _) as [[] policy]; cbn [fst].
  - apply (wp_bind (check_permission clock principal rt resource)).
    eapply wp_mono; [apply wp_check_permission|]. cbn beta. intros b s1 [Hs1 Hb]. destruct b; cbn [negb].
    + apply wp_bind. eapply wp_mono; [apply wp_get_score|]. cbn beta. intros t s2 Ht.
      apply wp_bind. eapply wp_mono; [apply wp_threat_step|]. cbn beta. intros level s3 Hl.
      apply wp_bind. eapply wp_mono; [apply wp_publish|]. intros [] s4 _. apply wp_ret. cbn.
      rewrite (bool_decide_eq_false_2 _ Hl), andb_true_r, Qle_bool_iff, Ht.
      unfold score_of. rewrite Hs1. split; [intros H; split_and!; [done|by apply Hb|done]|by intros (_ & _ & H)].
    + apply wp_bind. eapply wp_mono; [apply wp_publish|]. intros [] s2 _. apply wp_ret. cbn.
      split; [done|]. intros (_ & H & _). by apply Hb in H.
  - apply (wp_bind (denied_event listener _ _ _ _)). eapply wp_mono; [apply wp_publish|]. intros [] s2 _.
    apply wp_ret. cbn. by split; [|intros (? & _)].
  - cbn. by split; [|intros (? & _)].
Qed.

(** Who gets in.  [check_access] always answers; it allows an access exactly
    when the deciding policy says ALLOW, a permission is recorded under the key
    of the request, grants it and has not expired, and the trust score is at
    least 20.  The operation and its context never change the answer: a file
    outside the allowed paths is a MEDIUM threat, and only HIGH ones refuse. *)
Theorem check_access_exact principal rt resource operation context s :
  exists a s', check_access clock listener principal rt resource operation context s = (Ok a, s') /\
    (an_allowed a = true <->
       (evaluate_policies principal rt resource s).1 = PermissionAction.ALLOW /\
       permitted_at (clock (se_reads s)) principal rt resource s /\ (20 <= score_of principal s)%Q).
Proof. exact (wp_ok _ _ _ (check_access_spec principal rt resource operation context s)). Qed.
End access.

(** ** Trust *)

Lemma round_half_even_ge a q : (inject_Z a <= q)%Q -> a <= round_half_even q.
Proof.
  intros Ha. assert (Hf : a <= Qfloor q) by (rewrite <- (Qfloor_Z a); by apply Qfloor_resp_le).
  unfold round_half_even. destruct (_ ?= _)%Q; [destruct (Z.even _)|..]; lia.
Qed.

Lemma round_half_even_le b q : (q <= inject_Z b)%Q -> round_half_even q <= b.
Proof.
  intros Hb. assert (Hf : Qfloor q <= b) by (rewrite <- (Qfloor_Z b); by apply Qfloor_resp_le).
  assert (Hup : (inject_Z (Qfloor q) + (1 # 2) <= q)%Q -> Qfloor q + 1 <= b).
  { intros Hq. enough (Qfloor q < b) by lia. rewrite Zlt_Qlt. lra. }
  unfold round_half_even. destruct (_ ?= _)%Q eqn:E.
  - apply Qeq_alt in E. destruct (Z.even _); [lia|]. apply Hup. lra.
  - lia.
  - apply Qgt_alt in E. apply Hup. lra.
Qed.

Lemma ratio_bounds a b : 0 <= a <= b -> 0 < b -> (0 <= zq a / zq b <= 1)%Q.
Proof.
  intros Ha Hb. assert (Hpos : (0 < zq b)%Q) by (unfold zq; change 0%Q with (inject_Z 0); by rewrite <- Zlt_Qlt).
  split.
  - apply Qle_shift_div_l; [done|]. rewrite Qmult_0_l. unfold zq. change 0%Q with (inject_Z 0). rewrite <- Zle_Qle. lia.
  - apply Qle_shift_div_r; [done|]. rewrite Qmult_1_l. unfold zq. rewrite <- Zle_Qle. lia.
Qed.

Lemma ratio_nonneg a b : 0 <= a -> 0 < b -> (0 <= zq a / zq b)%Q.
Proof.
  intros Ha Hb. assert (Hpos : (0 < zq b)%Q) by (unfold zq; change 0%Q with (inject_Z 0); by rewrite <- Zlt_Qlt).
  apply Qle_shift_div_l; [done|]. rewrite Qmult_0_l. unfold zq. change 0%Q with (inject_Z 0). by rewrite <- Zle_Qle.
Qed.

Lemma Qmin_bounds q : (0 <= q)%Q -> (0 <= Qmin 1 q <= 1)%Q.
Proof. intros Hq. destruct (Q.min_spec 1 q) as [[? ->]|[? ->]]; lra. Qed.

Lemma Qmax_bounds q : (q <= 1)%Q -> (0 <= Qmax 0 q <= 1)%Q.
Proof. intros Hq. destruct (Q.max_spec 0 q) as [[? ->]|[? ->]]; lra. Qed.

(** The counters of a score. *)
Record counted (t : AgentTrustScore) : Prop := Counted {
  cn_success : 0 <= ts_success t;
  cn_failure : 0 <= ts_failure t;
  cn_total : ts_total t = ts_success t + ts_failure t;
  cn_violations : 0 <= ts_violations t;
  cn_approvals : 0 <= ts_approvals t;
  cn_recent : (0 <= ts_recent t <= 1)%Q
}.

(** A score of the engine: consistent counters, a score between 0 and 100, the
    level the score gives, unless nothing was recorded yet. *)
Definition score_ok (t : AgentTrustScore) : Prop :=
  counted t /\ (0 <= ts_score t <= 100)%Q /\
  (ts_level t = level_of (ts_score t) \/ t = new_score (ts_agent t)).

Lemma raw_bounds t : counted t -> (0 <= raw_score t <= 1)%Q.
Proof.
  intros [Hs Hf Ht Hv Ha Hr]. unfold raw_score.
  pose proof (ratio_bounds (ts_success t) (Z.max (ts_total t) 1) ltac:(lia) ltac:(lia)) as H1.
  pose proof (ratio_bounds (ts_violations t) (Z.max (ts_total t + ts_violations t) 1) ltac:(lia) ltac:(lia)) as H2.
  pose proof (ratio_nonneg (ts_approvals t) (Z.max (ts_total t) 1) ltac:(lia) ltac:(lia)) as H3.
  pose proof (ratio_nonneg (ts_total t) 100 ltac:(lia) ltac:(lia)) as H4. change (zq 100) with 100%Q in H4.
  revert H1 H2 H3 H4 Hr.
  generalize (zq (ts_success t) / zq (Z.max (ts_total t) 1))%Q (zq (ts_violations t) / zq (Z.max (ts_total t + ts_violations t) 1))%Q
    (zq (ts_approvals t) / zq (Z.max (ts_total t) 1))%Q (zq (ts_total t) / 100)%Q (ts_recent t).
  intros a v p n r H1 H2 H3 H4 Hr.
  pose proof (Qmax_bounds (1 - v) ltac:(lra)) as H5. pose proof (Qmin_bounds (p * 2) ltac:(lra)) as H6.
  pose proof (Qmin_bounds n H4) as H7. revert H5 H6 H7.
  generalize (Qmax 0 (1 - v)) (Qmin 1 (p * 2)) (Qmin 1 n). intros. lra.
Qed.

Lemma tenths_bounds q : (0 <= q <= 1)%Q -> (0 <= tenths (q * 100) <= 100)%Q.
Proof.
  intros Hq. unfold tenths.
  pose proof (round_half_even_ge 0 (q * 100 * 10) ltac:(change (inject_Z 0) with 0%Q; lra)) as H0.
  pose proof (round_half_even_le 1000 (q * 100 * 10) ltac:(change (inject_Z 1000) with 1000%Q; lra)) as H1.
  revert H0 H1. generalize (round_half_even (q * 100 * 10)). intros z H0 H1.
  rewrite Zle_Qle in H0; rewrite Zle_Qle in H1. change (inject_Z 0) with 0%Q in H0. change (inject_Z 1000) with 1000%Q in H1.
  revert H0 H1. generalize (inject_Z z). intros x H0 H1. split.
  - apply Qle_shift_div_l; lra.
  - apply Qle_shift_div_r; lra.
Qed.

Lemma recalculate_ok t : counted t -> score_ok (recalculate t).
Proof.
  intros Hc. split; [by destruct Hc; split|]. split; [by apply tenths_bounds, raw_bounds|by left].
Qed.

Lemma recent_bounds t b : 0 <= ts_total t -> (0 <= ts_recent t <= 1)%Q -> (0 <= recent_after t b <= 1)%Q.
Proof.
  intros Ht Hr. unfold recent_after. destruct (1 <? ts_total t) eqn:E; [|destruct b; lra].
  apply Z.ltb_lt in E. set (n := Z.min (ts_total t) 10). assert (Hn : 2 <= n) by lia.
  assert (Hq : (2 <= zq n)%Q) by (unfold zq; change 2%Q with (inject_Z 2); by rewrite <- Zle_Qle).
  assert (Hn1 : (zq (n - 1) == zq n - 1)%Q).
  { unfold zq. rewrite <- (Z.add_opp_r n 1), inject_Z_plus. reflexivity. }
  clearbody n. assert (Hprod : (0 <= ts_recent t * (zq n - 1) <= zq n - 1)%Q) by nra.
  assert (Hl : (0 <= (if b then 1 else 0) <= 1)%Q) by (destruct b; lra).
  split; [apply Qle_shift_div_l; [lra|]|apply Qle_shift_div_r; [lra|]]; rewrite Hn1; lra.
Qed.

Lemma count_result_ok b t : counted t -> score_ok (count_result b t).
Proof.
  intros [Hs Hf Ht Hv Ha Hr]. apply recalculate_ok. destruct b; split; cbn; try lia; apply recent_bounds; cbn; (lia || done).
Qed.

Lemma count_violation_ok t : counted t -> score_ok (count_violation t).
Proof. intros [Hs Hf Ht Hv Ha Hr]. apply recalculate_ok. split; cbn; (lia || done). Qed.

Lemma count_approval_ok t : counted t -> score_ok (count_approval t).
Proof. intros [Hs Hf Ht Hv Ha Hr]. apply recalculate_ok. split; cbn; (lia || done). Qed.

Lemma new_score_ok agent : score_ok (new_score agent).
Proof. split; [split; cbn; (lia || lra)|]. split; [cbn; lra|by right]. Qed.

Definition scores_ok (s : Security) : Prop :=
  forall agent t, dget (se_scores s) agent = Some t -> score_ok t.

Inductive TrustOp := Result (agent : string) (success : bool) | Violation (agent : string)
  | Approval (agent : string) | Score (agent : string).

Definition run_trust (listener : bool) (op : TrustOp) : M Security unit :=
  match op with
  | Result a b => record_result listener a b
  | Violation a => record_policy_violation listener a
  | Approval a => record_human_approval listener a
  | Score a => discard (get_score a)
  end.

Lemma scores_ok_dset s agent t :
  scores_ok s -> score_ok t -> scores_ok (with_scores (dset (se_scores s) agent t) s).
Proof. intros Hs Ht a t'. cbn. rewrite dget_dset. case_decide; [by intros [= <-]|by apply Hs]. Qed.

Lemma wp_get_score_ok agent s :
  scores_ok s -> wp (get_score agent) (fun t s' => score_ok t /\ scores_ok s') s.
Proof.
  intros Hs. unfold wp, get_score, bind at 1, get. destruct (dget (se_scores s) agent) as [t|] eqn:E.
  - split; [by apply (Hs agent)|done].
  - split; [apply new_score_ok|]. apply scores_ok_dset; [done|apply new_score_ok].
Qed.

Lemma wp_change_score listener f agent s :
  (forall t, counted t -> score_ok (f t)) -> scores_ok s ->
  wp (change_score listener f agent) (fun _ s' => scores_ok s') s.
Proof.
  intros Hf Hs. unfold change_score. apply wp_bind. eapply wp_mono; [by apply wp_get_score_ok|].
  intros t s1 [Ht Hs1]. apply wp_bind. unfold wp at 1, modify.
  assert (Hs2 : scores_ok (with_scores (dset (se_scores s1) agent (f t)) s1))
    by (apply scores_ok_dset; [done|apply Hf, Ht]).
  eapply wp_mono; [apply (wp_publish listener)|]. intros [] s3 [_ Heq] a t'. rewrite Heq. apply Hs2.
Qed.

(** C40: The trust scores.  After any sequence of results, violations and approvals,
    every score is between 0 and 100, its level is the one its value gives, and
    its counters agree. *)
Theorem trust_invariant listener ops :
  scores_ok (for_each ops (run_trust listener) new_security).2.
Proof.
  apply for_each_inv; [|by intros a t]. intros op s _ Hs.
  assert (Hwp : wp (run_trust listener op) (fun _ s' => scores_ok s') s).
  { destruct op as [a b|a|a|a]; cbn [run_trust].
    - apply wp_change_score; [intros; by apply count_result_ok|done].
    - apply wp_change_score; [intros; by apply count_violation_ok|done].
    - apply wp_change_score; [intros; by apply count_approval_ok|done].
    - unfold discard. apply wp_bind. eapply wp_mono; [by apply wp_get_score_ok|]. by intros t s1 [_ Hs1]. }
  by apply wp_state in Hwp as [_ Hs'].
Qed.

(** ** What the concrete engine does *)

(** The keys of two different requests are the same: a permission on one grants
    the other. *)
Theorem permission_keys_collide :
  permission_key "a" ResourceType.FILE "b:file:c" = permission_key "a:file:b" ResourceType.FILE "c" /\
  ("a", "b:file:c") <> ("a:file:b", "c").
Proof. split; [reflexivity|discriminate]. Qed.

(** An agent of a level that does not meet the threshold of that level. *)
Theorem level_below_threshold :
  level_of 65 = TrustLevel.HIGH /\ Qle_bool (get_threshold TrustLevel.HIGH) 65 = false.
Proof. split; reflexivity. Qed.

Definition demo_sec : Security :=
  snd ((add_policy (mkPolicyS "p" "files" ResourceType.FILE PermissionAction.ALLOW (mkConditions None None) 1 true) ;;;
        grant_permission (fun _ => "0") "agent" ResourceType.FILE "repo" true "system" None) new_security).

(** A file outside the allowed paths is reported, and the access is granted. *)
Example demo_threat_granted :
  match check_access (fun _ => 0%Q) true "agent" ResourceType.FILE "repo" "file_read"
          (Some (mkAccess "/etc/shadow" ["/ws"])) demo_sec with
  | (Ok a, s) => an_allowed a && (length (se_threats s) =? 1)%nat
  | _ => false
  end = true.
Proof. vm_compute. reflexivity. Qed.
