(* ===== verification/Workflows.v ===== *)
(** * Workflows ([backend/workflows/schema.py], [engine.py], [run_store.py])

    A workflow is a graph of calls of tools.  The definition is validated when
    it is made; [run] executes the graph in waves, stops at the nodes that wait
    for a human, records the run and resumes it; [simulate] computes the waves
    without calling anything. *)
From stdpp Require Import base gmap strings list sets relations sorting.
From Stdlib Require Import ZArith QArith Ascii Lia.
From S2P Require Import Prelude.
From S2P Require Import Kahn.
#[local] Open Scope Z_scope.

(** ** Definitions ([schema.py]) *)

(** The parameters are JSON values. *)
Record WorkflowNode := mkWfNode {
  wn_id : string;
  wn_action : string;
  wn_params : pydict pyval;
  wn_validation : bool
}.

Record WorkflowEdge := mkWfEdge { we_from : string; we_to : string; we_condition : string }.

Record WorkflowDefinition := mkWf {
  wd_id : string;
  wd_name : string;
  wd_description : string;
  wd_nodes : list WorkflowNode;
  wd_edges : list WorkflowEdge;
  wd_project : option string
}.

Definition VALID_CONDITIONS : list string := ["always"; "on_success"; "on_failure"].

Definition workflow_error (template : string) (args : list string) : exn :=
  Exn InvalidWorkflowError [Msg template args].

(** [WorkflowDefinition.node] *)
Definition wf_node (w : WorkflowDefinition) (nid : string) : res WorkflowNode :=
  match List.find (fun n => bool_decide (wn_id n = nid)) (wd_nodes w) with
  | Some n => Ok n
  | None => Err (workflow_error "No such node {!r} in workflow {!r}" [nid; wd_id w])
  end.

Definition outgoing_edges (w : WorkflowDefinition) (nid : string) : list WorkflowEdge :=
  List.filter (fun e => bool_decide (we_from e = nid)) (wd_edges w).

Definition incoming_edges (w : WorkflowDefinition) (nid : string) : list WorkflowEdge :=
  List.filter (fun e => bool_decide (we_to e = nid)) (wd_edges w).

Definition wf_ids (w : WorkflowDefinition) : list string := map wn_id (wd_nodes w).

Module Color.
Inductive t := WHITE | GRAY | BLACK.
#[global] Instance eq_dec : EqDecision t.
Proof. solve_decision. Defined.
End Color.

(** The body of the loop of [visit], [go] being the recursive call. *)
Definition visit_edge (w : WorkflowDefinition) (go : string -> pydict Color.t -> res (pydict Color.t))
    (c : pydict Color.t) (e : WorkflowEdge) : res (pydict Color.t) :=
  k <-? dlookup c (we_to e) ;;
  match k with
  | Color.GRAY => Err (workflow_error "Workflow {!r} has a cycle involving {!r}." [wd_id w; we_to e])
  | Color.WHITE => go (we_to e) c
  | Color.BLACK => Ok c
  end.

(** [visit] of [_check_acyclic]: a depth-first search that raises on an edge to
    a node whose visit is not over.  The fuel is the depth of the recursion; it
    is assumed that Python's own limit is not met. *)
Fixpoint visit (fuel : nat) (w : WorkflowDefinition) (nid : string) (color : pydict Color.t)
    : res (pydict Color.t) :=
  match fuel with
  | O => Err (Exn OutOfFuel [])
  | S fuel' =>
      color' <-? res_fold (visit_edge w (visit fuel' w)) (outgoing_edges w nid) (dset color nid Color.GRAY) ;;
      Ok (dset color' nid Color.BLACK)
  end.

Definition check_acyclic (w : WorkflowDefinition) : res unit :=
  _ <-? res_fold (fun c n =>
      k <-? dlookup c (wn_id n) ;;
      match k with
      | Color.WHITE => visit (length (wd_nodes w)) w (wn_id n) c
      | _ => Ok c
      end)
    (wd_nodes w) (fold_left (fun c nid => dset c nid Color.WHITE) (wf_ids w) []) ;;
  Ok tt.

(** The loop over the edges of [_validate]. *)
Definition check_edge (w : WorkflowDefinition) (u : unit) (e : WorkflowEdge) : res unit :=
  if negb (bool_decide (we_condition e ∈ VALID_CONDITIONS)) then
    Err (workflow_error "Edge {!r} -> {!r} has unknown condition {!r}. Valid: {}"
           ([we_from e; we_to e; we_condition e] ++ sort_by String.le VALID_CONDITIONS))
  else if negb (bool_decide (we_from e ∈ wf_ids w)) then
    Err (workflow_error "Edge references unknown node {!r}." [we_from e])
  else if negb (bool_decide (we_to e ∈ wf_ids w)) then
    Err (workflow_error "Edge references unknown node {!r}." [we_to e])
  else Ok tt.

(** [_validate] *)
Definition wf_validate (w : WorkflowDefinition) : res unit :=
  match wd_nodes w with
  | [] => Err (workflow_error "Workflow {!r} has no nodes." [wd_id w])
  | _ =>
      if negb (length (remove_dups (wf_ids w)) =? length (wd_nodes w))%nat then
        Err (workflow_error "Workflow {!r} has duplicate node ids." [wd_id w])
      else
        _ <-? res_fold (check_edge w) (wd_edges w) tt ;;
        check_acyclic w
  end.

(** [WorkflowDefinition(...)]: the dataclass validates itself. *)
Definition make_workflow (w : WorkflowDefinition) : res WorkflowDefinition :=
  _ <-? wf_validate w ;; Ok w.

(** The documents [from_dict] reads: any key may be missing. *)
Record RawNode := mkRawNode {
  rn_id : option string;
  rn_action : option string;
  rn_params : option (pydict pyval);
  rn_validation : option bool
}.

Record RawEdge := mkRawEdge { re_from : option string; re_to : option string; re_condition : option string }.

Record RawWorkflow := mkRawWf {
  rw_id : option string;
  rw_name : option string;
  rw_description : option string;
  rw_project : option string;
  rw_nodes : option (list RawNode);
  rw_edges : option (list RawEdge)
}.

(** [d[key]], in the [try] of [from_dict]. *)
Definition wf_required {A} (key : string) (o : option A) : res A :=
  match o with
  | Some a => Ok a
  | None => Err (workflow_error "Workflow definition missing required field: {!r}" [key])
  end.

Definition node_from_raw (n : RawNode) : res WorkflowNode :=
  i <-? wf_required "id" (rn_id n) ;;
  a <-? wf_required "action" (rn_action n) ;;
  Ok (mkWfNode i a (default [] (rn_params n)) (default false (rn_validation n))).

Definition edge_from_raw (e : RawEdge) : res WorkflowEdge :=
  f <-? wf_required "from" (re_from e) ;;
  t <-? wf_required "to" (re_to e) ;;
  Ok (mkWfEdge f t (default "always" (re_condition e))).

(** [WorkflowDefinition.from_dict] *)
Definition workflow_from_dict (d : RawWorkflow) : res WorkflowDefinition :=
  nodes <-? res_map node_from_raw (default [] (rw_nodes d)) ;;
  es <-? res_map edge_from_raw (default [] (rw_edges d)) ;;
  i <-? wf_required "id" (rw_id d) ;;
  make_workflow (mkWf i (default i (rw_name d)) (default "" (rw_description d)) nodes es (rw_project d)).

(** [to_dict] *)
Definition node_to_raw (n : WorkflowNode) : RawNode :=
  mkRawNode (Some (wn_id n)) (Some (wn_action n)) (Some (wn_params n)) (Some (wn_validation n)).

Definition edge_to_raw (e : WorkflowEdge) : RawEdge :=
  mkRawEdge (Some (we_from e)) (Some (we_to e)) (Some (we_condition e)).

Definition workflow_to_dict (w : WorkflowDefinition) : RawWorkflow :=
  mkRawWf (Some (wd_id w)) (Some (wd_name w)) (Some (wd_description w)) (wd_project w)
    (Some (map node_to_raw (wd_nodes w))) (Some (map edge_to_raw (wd_edges w))).

(** ** The dry run ([engine.py]) *)

Definition wf_edge_pairs (w : WorkflowDefinition) : edges := map (fun e => (we_from e, we_to e)) (wd_edges w).

(** [in_degree[edge.to_node] += 1] *)
Definition count_edge (deg : pydict Z) (e : WorkflowEdge) : res (pydict Z) :=
  d <-? dlookup deg (we_to e) ;; Ok (dset deg (we_to e) (d + 1)).

Definition in_degrees (w : WorkflowDefinition) : res (pydict Z) :=
  res_fold count_edge (wd_edges w) (fold_left (fun d nid => dset d nid 0) (wf_ids w) []).

(** One turn of the loop over the outgoing edges of a node. *)
Definition lower_degree (st : pydict Z * list string) (e : WorkflowEdge) : res (pydict Z * list string) :=
  d <-? dlookup st.1 (we_to e) ;;
  Ok (dset st.1 (we_to e) (d - 1), if d - 1 =? 0 then st.2 ++ [we_to e] else st.2).

(** The loop of [_topological_order]. *)
Fixpoint order_loop (fuel : nat) (w : WorkflowDefinition) (deg : pydict Z) (frontier order : list string)
    : res (list string) :=
  match frontier with
  | [] => Ok order
  | nid :: frontier' =>
      match fuel with
      | O => Err (Exn OutOfFuel [])
      | S fuel' =>
          st <-? res_fold lower_degree (outgoing_edges w nid) (deg, []) ;;
          order_loop fuel' w st.1 (sort_by String.le (frontier' ++ st.2)) (order ++ [nid])
      end
  end.

(** [_topological_order] *)
Definition wf_topological_order (w : WorkflowDefinition) : res (list string) :=
  deg <-? in_degrees w ;;
  order_loop (length (wd_nodes w)) w deg (sort_by String.le (zero_degree deg)) [].

(** One node of a wave: [del remaining[node_id]] and its edges. *)
Definition wave_node (w : WorkflowDefinition) (rem : pydict Z) (nid : string) : pydict Z :=
  fold_left (fun r e => match dget r (we_to e) with
                        | Some d => dset r (we_to e) (d - 1)
                        | None => r
                        end)
    (outgoing_edges w nid) (ddel rem nid).

(** The loop of [_structural_waves]. *)
Fixpoint waves_loop (fuel : nat) (w : WorkflowDefinition) (rem : pydict Z) (waves : list (list string))
    : list (list string) :=
  match rem, fuel with
  | [], _ => waves
  | _, O => waves
  | _, S fuel' =>
      match sort_by String.le (zero_degree rem) with
      | [] => waves
      | wave => waves_loop fuel' w (fold_left (wave_node w) wave rem) (waves ++ [wave])
      end
  end.

(** [_structural_waves] *)
Definition structural_waves (w : WorkflowDefinition) : res (list (list string)) :=
  deg <-? in_degrees w ;; Ok (waves_loop (length (wd_nodes w)) w deg []).

Record SimulationResult := mkSim {
  sr_workflow : string;
  sr_order : list string;
  sr_validations : list string;
  sr_waves : list (list string);
  sr_parallel : Z
}.

(** [simulate] *)
Definition simulate (max_parallel : Z) (w : WorkflowDefinition) : res SimulationResult :=
  waves <-? structural_waves w ;;
  order <-? wf_topological_order w ;;
  Ok (mkSim (wd_id w) order (map wn_id (List.filter wn_validation (wd_nodes w))) waves max_parallel).

(** ** Runs *)

Module StepStatus.
Inductive t := SUCCESS | FAILED | SKIPPED | AWAITING_VALIDATION.
#[global] Instance eq_dec : EqDecision t.
Proof. solve_decision. Defined.
Definition value (s : t) : string :=
  match s with
  | SUCCESS => "success"
  | FAILED => "failed"
  | SKIPPED => "skipped"
  | AWAITING_VALIDATION => "awaiting_validation"
  end.
End StepStatus.

Module WorkflowStatus.
Inductive t := COMPLETED | FAILED | PARTIALLY_SUCCESSFUL | AWAITING_VALIDATION.
#[global] Instance eq_dec : EqDecision t.
Proof. solve_decision. Defined.
Definition value (s : t) : string :=
  match s with
  | COMPLETED => "completed"
  | FAILED => "failed"
  | PARTIALLY_SUCCESSFUL => "partially_successful"
  | AWAITING_VALIDATION => "awaiting_validation"
  end.
End WorkflowStatus.

(** The error is its message; no result is [None]. *)
Record NodeResult := mkNodeResult {
  nr_node : string;
  nr_status : StepStatus.t;
  nr_result : pyval;
  nr_error : option message
}.

Definition failed_result (nid : string) (error : message) : NodeResult :=
  mkNodeResult nid StepStatus.FAILED PNone (Some error).

Record WorkflowRun := mkRun {
  wr_id : string;
  wr_workflow : string;
  wr_status : WorkflowStatus.t;
  wr_results : pydict NodeResult;
  wr_pending : list string;
  wr_project : option string
}.

(** What a tool answers: a JSON value, an object of a type that [json.dumps]
    refuses, or an exception and its text. *)
Inductive tool_answer :=
  | Value (v : pyval)
  | Object (type_name : string)
  | Raised (text : string).

(** [run_store.WorkflowRunRecord]; the JSON columns hold what they were given. *)
Record RunRecord := mkRunRecord {
  rr_workflow : string;
  rr_project : option string;
  rr_status : WorkflowStatus.t;
  rr_results : pydict NodeResult;
  rr_pending : list string;
  rr_approved : list string;
  rr_created : Z;
  rr_updated : Z
}.

Inductive payload :=
  | Delegated (node : string) (params : pydict pyval)
  | Returned (node : string) (v : pyval)
  | Refused (node : string) (text : string).

Record BusMessage := mkBusMessage {
  bm_from : string;
  bm_to : string;
  bm_type : string;
  bm_payload : payload;
  bm_task : string;
  bm_project : option string
}.

(** A call of a tool: the run, the node, the action and the parameters. *)
Record tool_call := mkToolCall {
  tc_run : string;
  tc_node : string;
  tc_action : string;
  tc_params : pydict pyval
}.

(** What the runs share: the table of the runs, the messages of the bus, the
    calls of the tools, and how often the clock and the uuids were read. *)
Record WfState := mkWfState {
  ws_rows : pydict RunRecord;
  ws_bus : list BusMessage;
  ws_calls : list tool_call;
  ws_reads : nat;
  ws_uuids : nat
}.

Definition with_rows (x : pydict RunRecord) (s : WfState) : WfState :=
  mkWfState x (ws_bus s) (ws_calls s) (ws_reads s) (ws_uuids s).
Definition with_bus (x : list BusMessage) (s : WfState) : WfState :=
  mkWfState (ws_rows s) x (ws_calls s) (ws_reads s) (ws_uuids s).
Definition with_tool_calls (x : list tool_call) (s : WfState) : WfState :=
  mkWfState (ws_rows s) (ws_bus s) x (ws_reads s) (ws_uuids s).

(** ** Placeholders *)

(** [s.split(".", 1)]: what precedes the first point and what follows. *)
Fixpoint split_point (s : string) : option (string * string) :=
  match s with
  | EmptyString => None
  | String c s' =>
      if bool_decide (c = "."%char) then Some (EmptyString, s')
      else match split_point s' with
           | Some (a, b) => Some (String c a, b)
           | None => None
           end
  end.

Definition wf_execution_error (template : string) (args : list string) : exn :=
  Exn WorkflowExecutionError [Msg template args].

(** [_resolve_value] of a string. *)
Definition resolve_string (value : string) (results : pydict NodeResult) : res pyval :=
  if String.prefix "$steps." value then
    match split_point (drop_chars (String.length "$steps.") value) with
    | None => Err (wf_execution_error "Malformed placeholder {!r}; expected $steps.<node_id>.<key>" [value])
    | Some (nid, key) =>
        let missing := Err (wf_execution_error
          "Placeholder {!r} references node {!r}, which hasn't completed successfully." [value; nid]) in
        match dget results nid with
        | None => missing
        | Some r =>
            if bool_decide (nr_status r = StepStatus.SUCCESS) then
              let absent := Err (wf_execution_error "Placeholder {!r}: node {!r}'s result has no key {!r}."
                                   [value; nid; key]) in
              match nr_result r with
              | PDict d => match dget d key with Some v => Ok v | None => absent end
              | _ => absent
              end
            else missing
        end
    end
  else Ok (PStr value).

Definition resolve_value (v : pyval) (results : pydict NodeResult) : res pyval :=
  match v with
  | PStr s => resolve_string s results
  | _ => Ok v
  end.

(** [_resolve_params] *)
Definition resolve_params (params : pydict pyval) (results : pydict NodeResult) : res (pydict pyval) :=
  res_map (fun p => v <-? resolve_value p.2 results ;; Ok (p.1, v)) params.

(** ** The walk of the graph *)

Definition edge_satisfied (results : pydict NodeResult) (e : WorkflowEdge) : bool :=
  if bool_decide (we_condition e = "always") then true
  else match dget results (we_from e) with
       | None => false
       | Some r =>
           if bool_decide (we_condition e = "on_success") then bool_decide (nr_status r = StepStatus.SUCCESS)
           else if bool_decide (we_condition e = "on_failure") then bool_decide (nr_status r = StepStatus.FAILED)
           else false
       end.

(** The body of the loop of [_ready_nodes]. *)
Definition wf_ready (w : WorkflowDefinition) (done : gset string) (results : pydict NodeResult) (nid : string) : bool :=
  match incoming_edges w nid with
  | [] => true
  | incoming =>
      bool_decide (Forall (fun e => we_from e ∈ done) incoming) &&
      existsb (edge_satisfied results) incoming
  end.

(** [sorted(s)] of a set. *)
Definition sorted_ids (s : gset string) : list string := sort_by String.le (elements s).

(** [_ready_nodes] *)
Definition ready_nodes (w : WorkflowDefinition) (done : gset string) (results : pydict NodeResult)
    (remaining : gset string) : list string :=
  List.filter (wf_ready w done results) (sorted_ids remaining).

(** [_overall_status] *)
Definition overall_status (results : pydict NodeResult) (pending : list string) : WorkflowStatus.t :=
  match pending with
  | _ :: _ => WorkflowStatus.AWAITING_VALIDATION
  | [] =>
      let statuses := map nr_status (dvalues results) in
      if forallb (fun s => bool_decide (s ∈ [StepStatus.SUCCESS; StepStatus.SKIPPED])) statuses
      then WorkflowStatus.COMPLETED
      else if bool_decide (StepStatus.SUCCESS ∈ statuses) then WorkflowStatus.PARTIALLY_SUCCESSFUL
      else WorkflowStatus.FAILED
  end.

Definition is_executed (r : NodeResult) : bool :=
  bool_decide (nr_status r ∈ [StepStatus.SUCCESS; StepStatus.FAILED]).

(** [{nid for nid, r in results.items() if ...}] *)
Definition executed_ids (results : pydict NodeResult) : gset string :=
  list_to_set (map fst (List.filter (fun p => is_executed p.2) results)).

Section engine.
Context `{!SetOrder}.
(** The registry of the tools, what the [i]-th call of a tool answers, the
    clock and the uuids. *)
Variable registered : string -> bool.
Variable answer : nat -> string -> pydict pyval -> tool_answer.
Variable clock : nat -> Z.
Variable uuid4 : nat -> string.

Definition update (f : WfState -> WfState) : M WfState unit := fun s => (Ok tt, f s).

(** [bus.publish]: the handlers of the bus are not called back. *)
Definition bus_publish (from to ty : string) (p : payload) (task : string) (project : option string)
    : M WfState unit :=
  update (fun s => with_bus (ws_bus s ++ [mkBusMessage from to ty p task project]) s).

(** [json.dumps] of the payload, before the message is stored. *)
Definition json_error (type_name : string) : exn :=
  Exn TypeError [Msg "Object of type {} is not JSON serializable" [type_name]].

(** [tool(...)]: called with the resolved parameters. *)
Definition call_tool (x : string) (n : WorkflowNode) (params : pydict pyval) : M WfState tool_answer := fun s =>
  (Ok (answer (length (ws_calls s)) (wn_action n) params),
   with_tool_calls (ws_calls s ++ [mkToolCall x (wn_id n) (wn_action n) params]) s).

Definition exn_message (e : exn) : message := default (Msg "" []) (head (exn_msgs e)).

Definition lookup_tool (n : WorkflowNode) (results : pydict NodeResult) : res (pydict pyval) :=
  if registered (wn_action n) then resolve_params (wn_params n) results
  else Err (wf_execution_error "Unknown action {!r}" [wn_action n]).

(** [_execute_node] *)
Definition execute_node (w : WorkflowDefinition) (n : WorkflowNode) (results : pydict NodeResult) (x : string)
    : M WfState NodeResult :=
  let me := "workflow:" +:+ wd_id w in
  match lookup_tool n results with
  | Err e => ret (failed_result (wn_id n) (exn_message e))
  | Ok params =>
      bus_publish me (wn_action n) "TASK_DELEGATION" (Delegated (wn_id n) params) x (wd_project w) ;;;
      a <- call_tool x n params ;;
      match a with
      | Raised text =>
          bus_publish (wn_action n) me "TASK_RESULT" (Refused (wn_id n) text) x (wd_project w) ;;;
          ret (failed_result (wn_id n) (Msg "{}" [text]))
      | Value v =>
          bus_publish (wn_action n) me "TASK_RESULT" (Returned (wn_id n) v) x (wd_project w) ;;;
          ret (mkNodeResult (wn_id n) StepStatus.SUCCESS v None)
      | Object ty => raise (json_error ty)
      end
  end.

(** [run_one], and what [gather] makes of an exception. *)
Definition run_one (w : WorkflowDefinition) (results : pydict NodeResult) (x nid : string)
    : M WfState NodeResult :=
  catch (n <- lift (wf_node w nid) ;; execute_node w n results x) (fun _ => true)
    (fun e => ret (failed_result nid (exn_message e))).

Fixpoint gather (w : WorkflowDefinition) (results : pydict NodeResult) (x : string) (ids : list string)
    : M WfState (pydict NodeResult) :=
  match ids with
  | [] => ret []
  | nid :: ids' => r <- run_one w results x nid ;; rs <- gather w results x ids' ;; ret ((nid, r) :: rs)
  end.

(** [_execute_wave]: the tools of a wave read the same [results], so that their
    answers do not depend on how they interleave; they are called in the order
    of the wave, and an awaitable answer is awaited where it is. *)
Definition execute_wave (w : WorkflowDefinition) (ids : list string) (results : pydict NodeResult) (x : string)
    : M WfState (pydict NodeResult) :=
  match ids with
  | [] => ret []
  | [nid] => n <- lift (wf_node w nid) ;; r <- execute_node w n results x ;; ret [(nid, r)]
  | _ => gather w results x ids
  end.

(** What the loop of [run] holds. *)
Record Walk := mkWalk {
  wk_done : gset string;
  wk_results : pydict NodeResult;
  wk_remaining : gset string;
  wk_pending : list string
}.

Definition gated (w : WorkflowDefinition) (approved : gset string) (nid : string) : res bool :=
  n <-? wf_node w nid ;; Ok (wn_validation n && bool_decide (nid ∉ approved)).

(** The loop over the ready nodes: the runnable ones, in order. *)
Fixpoint triage (w : WorkflowDefinition) (approved : gset string) (ready : list string) (k : Walk)
    (runnable : list string) : res (Walk * list string) :=
  match ready with
  | [] => Ok (k, runnable)
  | nid :: ready' =>
      let remaining := wk_remaining k ∖ {[nid]} in
      stop <-? gated w approved nid ;;
      if stop : bool then
        triage w approved ready'
          (mkWalk (wk_done k)
             (dset (wk_results k) nid (mkNodeResult nid StepStatus.AWAITING_VALIDATION PNone None))
             remaining (wk_pending k ++ [nid])) runnable
      else triage w approved ready' (mkWalk (wk_done k) (wk_results k) remaining (wk_pending k))
             (runnable ++ [nid])
  end.

(** [for node_id in runnable: results[node_id] = wave[node_id]; done.add(node_id)] *)
Definition write_back (wave : pydict NodeResult) (k : Walk) (nid : string) : res Walk :=
  r <-? dlookup wave nid ;;
  Ok (mkWalk (wk_done k ∪ {[nid]}) (dset (wk_results k) nid r) (wk_remaining k) (wk_pending k)).

(** [while remaining: ...] *)
Fixpoint run_loop (fuel : nat) (w : WorkflowDefinition) (x : string) (approved : gset string) (k : Walk)
    : M WfState Walk :=
  if decide (wk_remaining k = ∅) then ret k
  else match fuel with
  | O => raise (Exn OutOfFuel [])
  | S fuel' =>
      match ready_nodes w (wk_done k) (wk_results k) (wk_remaining k) with
      | [] => ret k
      | ready =>
          kr <- lift (triage w approved ready k []) ;;
          wave <- execute_wave w kr.2 (wk_results kr.1) x ;;
          k' <- lift (res_fold (write_back wave) kr.2 kr.1) ;;
          run_loop fuel' w x approved k'
      end
  end.

Definition skip (results : pydict NodeResult) (nid : string) : pydict NodeResult :=
  dset results nid (mkNodeResult nid StepStatus.SKIPPED PNone None).

(** [run_store.save_run] *)
Definition save_run (r : WorkflowRun) (approved : gset string) : M WfState unit := fun s =>
  let now := clock (ws_reads s) in
  let created := match dget (ws_rows s) (wr_id r) with Some row => rr_created row | None => now end in
  let row := mkRunRecord (wr_workflow r) (wr_project r) (wr_status r) (wr_results r) (wr_pending r)
               (sorted_ids approved) created now in
  (Ok tt, mkWfState (dset (ws_rows s) (wr_id r) row) (ws_bus s) (ws_calls s) (S (ws_reads s)) (ws_uuids s)).

(** The state a run starts from: a new one, or that of the row. *)
Definition open_run (run_id : option string) (newly : gset string)
    : M WfState (string * pydict NodeResult * gset string) :=
  s <- get ;;
  match run_id with
  | Some x =>
      match dget (ws_rows s) x with
      | None => raise (wf_execution_error
          "No persisted run {!r} to resume — check the id, or omit run_id to start a fresh run." [x])
      | Some row => ret (x, rr_results row, list_to_set (rr_approved row) ∪ newly)
      end
  | None =>
      put (mkWfState (ws_rows s) (ws_bus s) (ws_calls s) (ws_reads s) (S (ws_uuids s))) ;;;
      ret (uuid4 (ws_uuids s), [], newly)
  end.

(** The rest of [run]. *)
Definition run_from (w : WorkflowDefinition) (x : string) (results : pydict NodeResult) (approved : gset string)
    : M WfState WorkflowRun :=
  let done := executed_ids results in
  k <- run_loop (length (wd_nodes w)) w x approved
         (mkWalk done results (list_to_set (wf_ids w) ∖ done) []) ;;
  let results' := fold_left skip (iter_set (wk_remaining k)) (wk_results k) in
  let r := mkRun x (wd_id w) (overall_status results' (wk_pending k)) results' (wk_pending k) (wd_project w) in
  save_run r approved ;;;
  ret r.

(** [run] *)
Definition run (w : WorkflowDefinition) (run_id : option string) (newly : gset string) : M WfState WorkflowRun :=
  o <- open_run run_id newly ;;
  run_from w o.1.1 o.1.2 o.2.

(** [get_run] *)
Definition get_run (x : string) (s : WfState) : option WorkflowRun :=
  match dget (ws_rows s) x with
  | Some row =>
      Some (mkRun x (rr_workflow row) (rr_status row) (rr_results row) (rr_pending row) (rr_project row))
  | None => None
  end.
End engine.
