(* ===== verification/WorkflowPlans.v ===== *)
(** * Workflows: validation, documents and the dry run

    What [Workflows] promises before anything is executed: the validation
    accepts exactly the acyclic graphs with known nodes, a document is read
    back as the workflow it was made from, and the dry run is exact. *)
From stdpp Require Import base gmap strings list sets relations sorting.
From Stdlib Require Import ZArith QArith Lia.
From S2P Require Import Prelude.
From S2P Require Import Kahn.
From S2P Require Import Workflows.
#[local] Open Scope Z_scope.

(** ** The validation *)

Record wf_valid (w : WorkflowDefinition) : Prop := WfValid {
  wv_nodes : wd_nodes w <> [];
  wv_ids : NoDup (wf_ids w);
  wv_conditions : forall e, e ∈ wd_edges w -> we_condition e ∈ VALID_CONDITIONS;
  wv_closed : closed (wf_ids w) (wf_edge_pairs w);
  wv_acyclic : acyclic (wf_edge_pairs w)
}.

Definition invalid {A} (r : res A) : Prop := exists m, r = Err (Exn InvalidWorkflowError [m]).

Lemma elem_wf_pairs w s t : (s, t) ∈ wf_edge_pairs w <-> exists e, e ∈ wd_edges w /\ we_from e = s /\ we_to e = t.
Proof.
  unfold wf_edge_pairs. rewrite list_elem_of_fmap. split; [intros (e & [= -> ->] & He)|intros (e & He & <- & <-)]; eauto.
Qed.

Lemma elem_outgoing w nid e : e ∈ outgoing_edges w nid <-> e ∈ wd_edges w /\ we_from e = nid.
Proof.
  unfold outgoing_edges. rewrite !list_elem_of_In, filter_In, bool_decide_eq_true. done.
Qed.

Lemma outgoing_succs w nid : map we_to (outgoing_edges w nid) = succs (wf_edge_pairs w) nid.
Proof.
  unfold outgoing_edges, wf_edge_pairs. induction (wd_edges w) as [|e es IH]; [done|].
  cbn [map List.filter]. rewrite succs_cons. cbn. destruct (decide (we_from e = nid)) as [Hd|Hd].
  - rewrite bool_decide_eq_true_2 by done. cbn. by rewrite IH.
  - by rewrite bool_decide_eq_false_2.
Qed.

Section dfs.
Context (w : WorkflowDefinition).
Hypothesis Hids : NoDup (wf_ids w).
Hypothesis Hclosed : closed (wf_ids w) (wf_edge_pairs w).
#[local] Abbreviation E := (wf_edge_pairs w).

Definition marked (k : Color.t) (c : pydict Color.t) (n : string) : Prop := dget c n = Some k.

(** What is behind a black node is black, and no cycle meets it. *)
Record dfs_ok (c : pydict Color.t) : Prop := DfsOk {
  do_keys : forall n, n ∈ wf_ids w -> exists k, dget c n = Some k;
  do_black : forall n s, marked Color.BLACK c n -> (n, s) ∈ E -> marked Color.BLACK c s;
  do_acyclic : forall n, marked Color.BLACK c n -> ~ tc (edge_rel E) n n
}.

Definition whites (c : pydict Color.t) : list string :=
  filter (fun n => dget c n = Some Color.WHITE) (wf_ids w).

(** From [c] to [c'] some white nodes have become black. *)
Record dfs_step (c c' : pydict Color.t) : Prop := DfsStep {
  dt_black : forall m, marked Color.BLACK c m -> marked Color.BLACK c' m;
  dt_gray : forall m, marked Color.GRAY c' m <-> marked Color.GRAY c m;
  dt_white : forall m, marked Color.WHITE c' m -> marked Color.WHITE c m
}.

#[local] Instance dfs_step_preorder : PreOrder dfs_step.
Proof.
  split; [by intros c; split|]. intros c1 c2 c3 [Hb Hg Hw] [Hb' Hg' Hw']. split; [by eauto| |by eauto].
  intros m. by rewrite Hg'.
Qed.

Lemma whites_step c c' : dfs_step c c' -> (length (whites c') <= length (whites c))%nat.
Proof.
  intros Hs. apply NoDup_subset_length; [by apply NoDup_filter|]. intros n.
  unfold whites. rewrite !list_elem_of_filter. intros [Hn ?]. split; [by apply (dt_white _ _ Hs)|done].
Qed.

Lemma whites_gray c n :
  n ∈ wf_ids w -> marked Color.WHITE c n -> (S (length (whites (dset c n Color.GRAY))) <= length (whites c))%nat.
Proof.
  intros Hn Hw. change (S (length (whites (dset c n Color.GRAY)))) with (length (n :: whites (dset c n Color.GRAY))).
  apply NoDup_subset_length.
  - apply NoDup_cons. split; [|by apply NoDup_filter]. unfold whites. rewrite list_elem_of_filter, dget_dset_eq. by intros [[=] _].
  - intros m [->|Hm]%elem_of_cons; unfold whites in *; rewrite list_elem_of_filter in *; [done|].
    destruct Hm as [Hm ?]. split; [|done]. rewrite dget_dset in Hm. by case_decide.
Qed.

(** The fate of a visit from [c]: a step after which [Q] holds, or a cycle. *)
Definition dfs_result (c : pydict Color.t) (Q : pydict Color.t -> Prop) (r : res (pydict Color.t)) : Prop :=
  (exists c', r = Ok c' /\ dfs_ok c' /\ dfs_step c c' /\ Q c') \/
  (invalid r /\ exists x, tc (edge_rel E) x x).

Definition visits (f : string -> pydict Color.t -> res (pydict Color.t)) (bound : nat) : Prop :=
  forall n c, n ∈ wf_ids w -> dfs_ok c -> marked Color.WHITE c n ->
    (forall g, marked Color.GRAY c g -> tc (edge_rel E) g n) -> (length (whites c) <= bound)%nat ->
    dfs_result c (fun c' => marked Color.BLACK c' n) (f n c).

(** The loop over the edges out of the gray node [n]. *)
Lemma visit_edges f bound n es c :
  visits f bound -> (forall e, e ∈ es -> e ∈ wd_edges w /\ we_from e = n) ->
  dfs_ok c -> marked Color.GRAY c n -> (forall g, marked Color.GRAY c g -> rtc (edge_rel E) g n) ->
  (length (whites c) <= bound)%nat ->
  dfs_result c (fun c' => forall e, e ∈ es -> marked Color.BLACK c' (we_to e))
    (res_fold (visit_edge w f) es c).
Proof.
  intros Hf. revert c. induction es as [|e es IH]; intros c Hes Hok Hn Hg Hb.
  { left. exists c. split_and!; [done..|]. by intros e He%elem_of_nil. }
  destruct (Hes e ltac:(set_solver)) as [He Hfrom].
  assert (Hedge : (n, we_to e) ∈ E) by (apply elem_wf_pairs; eauto).
  destruct (do_keys _ Hok (we_to e)) as [k Hk]; [apply (Hclosed _ _ Hedge)|]. cbn [res_fold].
  unfold visit_edge at 1. rewrite (dlookup_Some _ _ _ Hk). cbn [res_bind].
  assert (Hnext : forall c1, dfs_ok c1 -> dfs_step c c1 -> marked Color.BLACK c1 (we_to e) ->
    dfs_result c (fun c' => forall e', e' ∈ e :: es -> marked Color.BLACK c' (we_to e')) (res_fold (visit_edge w f) es c1)).
  { intros c1 Hok1 Hs1 He1. destruct (IH c1) as [(c2 & -> & Hok2 & Hs2 & Hall)|Herr].
    - intros e' He'. apply Hes. set_solver.
    - done.
    - by apply (dt_gray _ _ Hs1).
    - intros g Hgg. apply Hg. by apply (dt_gray _ _ Hs1).
    - pose proof (whites_step _ _ Hs1). lia.
    - left. exists c2. split_and!; [done..|by transitivity c1|].
      intros e' [->|He']%elem_of_cons; [by apply (dt_black _ _ Hs2)|by apply Hall].
    - by right. }
  destruct k.
  - destruct (Hf (we_to e) c) as [(c1 & Hrun & Hok1 & Hs1 & He1)|[[m Hm] Hcyc]]; [apply (Hclosed _ _ Hedge)|done..| |done| |].
    + intros g Hgg. eapply tc_rtc_l; [by apply Hg|by apply tc_once].
    + rewrite Hrun. cbn [res_bind]. by apply Hnext.
    + rewrite Hm. cbn [res_bind]. right. split; [by eexists|done].
  - cbn [res_bind]. right. split; [by eexists|]. exists n. eapply tc_rtc_r; [by apply tc_once|by apply Hg].
  - cbn [res_bind]. apply Hnext; done.
Qed.

Lemma dfs_ok_gray c n : dfs_ok c -> ~ marked Color.BLACK c n -> dfs_ok (dset c n Color.GRAY).
Proof.
  intros [Hk Hb Ha] Hn. split.
  - intros m Hm. rewrite dget_dset. case_decide; eauto.
  - intros m s. unfold marked. rewrite !dget_dset. case_decide; [done|]. intros Hm He. case_decide as Heq; [|by eapply Hb].
    subst s. destruct Hn. by eapply Hb.
  - intros m. unfold marked. rewrite dget_dset. case_decide; [done|]. apply Ha.
Qed.

Lemma dfs_ok_black c n :
  dfs_ok c -> ~ marked Color.BLACK c n -> (forall s, (n, s) ∈ E -> marked Color.BLACK c s) ->
  dfs_ok (dset c n Color.BLACK).
Proof.
  intros [Hk Hb Ha] Hn Hs. assert (Hup : forall m, marked Color.BLACK c m -> marked Color.BLACK (dset c n Color.BLACK) m).
  { intros m Hm. unfold marked. rewrite dget_dset. by case_decide. }
  split.
  - intros m Hm. rewrite dget_dset. case_decide; eauto.
  - intros m s Hm He. apply Hup. unfold marked in Hm. rewrite dget_dset in Hm. case_decide as Heq; [subst m; by apply Hs|by eapply Hb].
  - intros m. unfold marked. rewrite dget_dset. case_decide as Heq; [subst m|by intros Hm; apply Ha]. intros _ Hcyc.
    apply Hn. revert Hcyc. generalize n at 2 3. apply tc_ind_r; [exact Hs|]. intros y z _ Hyz Hy. by eapply Hb.
Qed.

(** With as much fuel as there are white nodes a visit never runs out of it. *)
Lemma visit_spec fuel : visits (visit fuel w) fuel.
Proof.
  induction fuel as [|fuel IH]; intros n c Hn Hok Hw Hg Hb.
  { assert (Hin : n ∈ whites c) by (by apply list_elem_of_filter). destruct (whites c); [by apply elem_of_nil in Hin|cbn in Hb; lia]. }
  assert (Hnb : ~ marked Color.BLACK c n) by (unfold marked in *; congruence).
  set (c0 := dset c n Color.GRAY). assert (Hg0 : forall m, marked Color.GRAY c0 m <-> m = n \/ marked Color.GRAY c m).
  { intros m. unfold marked, c0. rewrite dget_dset. case_decide; naive_solver. }
  destruct (visit_edges (visit fuel w) fuel n (outgoing_edges w n) c0 IH) as [(c1 & Hrun & Hok1 & [Hb1 Hg1 Hw1] & Hall)|[[m Hm] Hcyc]].
  - intros e. by rewrite elem_outgoing.
  - by apply dfs_ok_gray.
  - by apply Hg0; left.
  - intros g [->|Hgg]%Hg0; [done|by apply tc_rtc, Hg].
  - pose proof (whites_gray c n Hn Hw). fold c0 in H. lia.
  - left. exists (dset c1 n Color.BLACK). cbn [visit]. fold c0. rewrite Hrun. cbn [res_bind].
    assert (Hn1 : marked Color.GRAY c1 n) by (apply Hg1, Hg0; by left).
    split; [done|]. split.
    { apply dfs_ok_black; [done|unfold marked in *; congruence|]. intros s (e & He & Hf & <-)%elem_wf_pairs.
      apply Hall, elem_outgoing. done. }
    split; [|by unfold marked; rewrite dget_dset_eq]. split.
    + intros m Hm. unfold marked. rewrite dget_dset. case_decide; [done|]. apply Hb1. unfold c0, marked.
      by rewrite dget_dset_ne.
    + intros m. unfold marked at 1. rewrite dget_dset. case_decide as Heq.
      * subst m. split; [done|]. unfold marked in *. congruence.
      * change (dget c1 m = Some Color.GRAY) with (marked Color.GRAY c1 m). rewrite Hg1, Hg0. naive_solver.
    + intros m. unfold marked at 1. rewrite dget_dset. case_decide; [done|]. intros Hm%Hw1. unfold marked, c0 in Hm.
      by rewrite dget_dset_ne in Hm.
  - right. split; [|done]. exists m. cbn [visit]. fold c0. by rewrite Hm.
Qed.

(** The loop of [_check_acyclic] over the nodes. *)
Lemma check_nodes ns c :
  (forall n, n ∈ ns -> wn_id n ∈ wf_ids w) -> dfs_ok c -> (forall m, ~ marked Color.GRAY c m) ->
  dfs_result c (fun c' => forall n, n ∈ ns -> marked Color.BLACK c' (wn_id n))
    (res_fold (fun c n => k <-? dlookup c (wn_id n) ;;
       match k with Color.WHITE => visit (length (wd_nodes w)) w (wn_id n) c | _ => Ok c end) ns c).
Proof.
  revert c. induction ns as [|n ns IH]; intros c Hns Hok Hg.
  { left. exists c. split_and!; [done..|]. by intros n Hn%elem_of_nil. }
  cbn [res_fold]. assert (Hin : wn_id n ∈ wf_ids w) by (apply Hns; set_solver).
  destruct (do_keys _ Hok _ Hin) as [k Hk]. rewrite (dlookup_Some _ _ _ Hk). cbn [res_bind].
  assert (Hstep : dfs_result c (fun c' => marked Color.BLACK c' (wn_id n))
    (match k with Color.WHITE => visit (length (wd_nodes w)) w (wn_id n) c | _ => Ok c end)).
  { destruct k; [|by destruct (Hg (wn_id n))|left; by exists c].
    apply visit_spec; [done..| |].
    - intros g Hgg. by destruct (Hg g).
    - unfold whites. rewrite <- (length_map wn_id (wd_nodes w)). apply length_filter. }
  destruct Hstep as [(c1 & -> & Hok1 & Hs1 & Hb1)|[[m ->] Hcyc]]; cbn [res_bind].
  - destruct (IH c1) as [(c2 & Hrun & Hok2 & Hs2 & Hall)|Herr]; [intros; apply Hns; set_solver|done| | |by right].
    { intros m. by rewrite (dt_gray _ _ Hs1). }
    left. exists c2. split_and!; [done..|by transitivity c1|].
    intros x [->|Hx]%elem_of_cons; [by apply (dt_black _ _ Hs2)|by apply Hall].
  - right. split; [by eexists|done].
Qed.

Lemma check_acyclic_spec :
  (check_acyclic w = Ok tt /\ acyclic E) \/ (invalid (check_acyclic w) /\ exists x, tc (edge_rel E) x x).
Proof.
  unfold check_acyclic. rewrite dinit_fold by done.
  destruct (check_nodes (wd_nodes w) (dinit (wf_ids w) Color.WHITE)) as [(c & -> & Hok & _ & Hall)|[[m ->] Hcyc]].
  - intros n Hn. by apply list_elem_of_fmap_2.
  - split.
    + intros n Hn. exists Color.WHITE. by rewrite dget_dinit, decide_True.
    + intros n s. unfold marked. rewrite dget_dinit. by case_decide.
    + intros n. unfold marked. rewrite dget_dinit. by case_decide.
  - intros m. unfold marked. rewrite dget_dinit. by case_decide.
  - left. split; [done|]. intros x Hx. destruct (tc_first _ _ _ Hx) as [y Hy].
    apply Hclosed in Hy as [(n & -> & Hn)%list_elem_of_fmap _]. exact (do_acyclic _ Hok _ (Hall n Hn) Hx).
  - right. split; [by eexists|done].
Qed.
End dfs.

Lemma check_edge_spec w e :
  (check_edge w tt e = Ok tt /\ we_condition e ∈ VALID_CONDITIONS /\ we_from e ∈ wf_ids w /\ we_to e ∈ wf_ids w) \/
  (invalid (check_edge w tt e) /\ ~ (we_condition e ∈ VALID_CONDITIONS /\ we_from e ∈ wf_ids w /\ we_to e ∈ wf_ids w)).
Proof.
  unfold check_edge. repeat (case_bool_decide; cbn [negb]; [|right; split; [by eexists|naive_solver]]). by left.
Qed.

Lemma check_edges_spec w es :
  (res_fold (check_edge w) es tt = Ok tt /\
   forall e, e ∈ es -> we_condition e ∈ VALID_CONDITIONS /\ we_from e ∈ wf_ids w /\ we_to e ∈ wf_ids w) \/
  (invalid (res_fold (check_edge w) es tt) /\
   ~ (forall e, e ∈ es -> we_condition e ∈ VALID_CONDITIONS /\ we_from e ∈ wf_ids w /\ we_to e ∈ wf_ids w)).
Proof.
  induction es as [|e es IH]; [left; split; [done|]; by intros e He%elem_of_nil|]. cbn [res_fold].
  destruct (check_edge_spec w e) as [[-> He]|[[m ->] He]]; cbn [res_bind].
  - destruct IH as [[-> Hall]|[Hm Hn]]; [left; split; [done|]|right; split; [done|]].
    + intros e' [->|?]%elem_of_cons; [done|by apply Hall].
    + intros Hall. apply Hn. intros e' ?. apply Hall. set_solver.
  - right. split; [by eexists|]. intros Hall. apply He, Hall. set_solver.
Qed.

Lemma wf_validate_spec w : (wf_validate w = Ok tt /\ wf_valid w) \/ (invalid (wf_validate w) /\ ~ wf_valid w).
Proof.
  unfold wf_validate. destruct (wd_nodes w) as [|n0 ns0] eqn:Hn0.
  { right. split; [by eexists|]. intros [Hne _ _ _ _]. done. }
  rewrite <- Hn0. assert (Hne : wd_nodes w <> []) by (by rewrite Hn0). clear Hn0.
  destruct (decide (NoDup (wf_ids w))) as [Hnd|Hnd].
  - assert (Hl : length (remove_dups (wf_ids w)) = length (wd_nodes w)).
    { rewrite <- (length_map wn_id (wd_nodes w)). apply Permutation_length, NoDup_Permutation; [apply NoDup_remove_dups|done|].
      intros x. apply elem_of_remove_dups. }
    rewrite Hl, Nat.eqb_refl. cbn [negb]. destruct (check_edges_spec w (wd_edges w)) as [[-> Hall]|[[m ->] Hall]]; cbn [res_bind].
    + assert (Hc : closed (wf_ids w) (wf_edge_pairs w)).
      { intros s t (e & He & <- & <-)%elem_wf_pairs. by apply (Hall e He). }
      destruct (check_acyclic_spec w Hnd Hc) as [[-> Hac]|[[m ->] [x Hx]]]; [left|right].
      * split; [done|]. split; [done..| |done|done]. intros e He. by apply Hall.
      * split; [by eexists|]. intros [_ _ _ _ Hac]. by apply (Hac x).
    + right. split; [by eexists|]. intros [_ _ Hcond Hc _]. apply Hall. intros e He. split; [by apply Hcond|].
      apply Hc, elem_wf_pairs. eauto.
  - right. assert (Hl : length (remove_dups (wf_ids w)) <> length (wd_nodes w)).
    { intros Hl. apply Hnd. rewrite <- (length_map wn_id (wd_nodes w)) in Hl.
      assert (Hp : remove_dups (wf_ids w) ≡ₚ wf_ids w).
      { apply submseteq_length_Permutation; [|unfold wf_ids in *; lia]. apply NoDup_submseteq; [apply NoDup_remove_dups|].
        intros x. by rewrite elem_of_remove_dups. }
      rewrite <- Hp. apply NoDup_remove_dups. }
    apply Nat.eqb_neq in Hl. rewrite Hl. cbn [negb]. split; [by eexists|]. by intros [_ ? _ _ _].
Qed.

(** ** The dry run *)

Lemma count_edges_build ids es :
  closed ids (map (fun e => (we_from e, we_to e)) es) ->
  res_fold count_edge es (dinit ids 0) = Ok (kahn_build ids (map (fun e => (we_from e, we_to e)) es)).2.
Proof.
  induction es as [|e es IH] using rev_ind; intros Hc; [done|]. rewrite map_app in Hc |- *.
  assert (Hc' : closed ids (map (fun e => (we_from e, we_to e)) es)) by (intros s t He; apply Hc; set_solver).
  rewrite res_fold_app, (IH Hc'). cbn [res_bind res_fold map].
  pose proof (kahn_build_spec ids (map (fun e => (we_from e, we_to e)) es)) as [Ha Hd]. unfold kahn_build in *.
  rewrite fold_left_app. destruct (fold_left kahn_add_edge _ _) as [adj deg]. cbn [fst snd fold_left] in *.
  destruct (Hc (we_from e) (we_to e) ltac:(set_solver)) as [Hs Ht]. unfold count_edge, kahn_add_edge, dlookup.
  cbn [fst snd]. by rewrite Ha, Hd, !decide_True by done.
Qed.

Lemma lower_degrees es deg acc :
  relaxable (map we_to es) deg ->
  res_fold lower_degree es (deg, acc)
  = Ok ((relax_degrees (map we_to es) deg).1, acc ++ (relax_degrees (map we_to es) deg).2).
Proof.
  revert deg acc. induction es as [|e es IH]; intros deg acc Hr; cbn [map res_fold]; [cbn; by rewrite app_nil_r|].
  apply relaxable_cons in Hr as (d & Hx & _ & Hr). unfold lower_degree at 1. cbn [fst snd relax_degrees].
  rewrite (dlookup_Some _ _ _ Hx). cbn [res_bind]. rewrite IH, Hx by done. cbn [fst snd].
  destruct (d - 1 =? 0); cbn; by rewrite <- ?app_assoc.
Qed.

Section dry_run.
Context (w : WorkflowDefinition).
Hypothesis Hv : wf_valid w.
#[local] Abbreviation E := (wf_edge_pairs w).
#[local] Abbreviation ids := (wf_ids w).

(** [x] is the least node that may come after the nodes of [l]. *)
Definition least_ready (l : list string) (x : string) : Prop :=
  forall y, y ∈ ids -> y ∉ l -> (forall s, (s, y) ∈ E -> s ∈ l) -> String.le x y.

Lemma in_degrees_build : in_degrees w = Ok (kahn_build ids E).2.
Proof. unfold in_degrees. rewrite dinit_fold by apply Hv. apply count_edges_build, Hv. Qed.

Lemma initial_inv : kahn_inv ids E [] (zero_degree (kahn_build ids E).2) (kahn_build ids E).2.
Proof.
  apply kahn_inv_init; [unfold dict_wf; rewrite dkeys_kahn_build; apply Hv|].
  pose proof (kahn_build_spec ids E) as [_ Hd]. by rewrite (eff_edges_all ids E (wv_closed _ Hv)) in Hd.
Qed.

Lemma order_loop_spec fuel deg q out :
  kahn_inv ids E out q deg -> StronglySorted String.le q -> prefix_all least_ready out ->
  (length ids <= length out + fuel)%nat ->
  exists out' deg', order_loop fuel w deg q out = Ok out' /\ kahn_inv ids E out' [] deg' /\ prefix_all least_ready out'.
Proof.
  revert deg q out. induction fuel as [|fuel IH]; intros deg q out Hi Hs Hp Hf; (destruct q as [|u q]; [by exists out, deg|]).
  { destruct Hi as [Hnd Hn _ _ _]. apply NoDup_subset_length in Hn; [|done]. rewrite length_app in Hn. cbn in Hn. lia. }
  cbn [order_loop]. pose proof (closed_out _ _ (wv_closed _ Hv)) as Hc.
  pose proof (kahn_inv_relaxable _ _ _ _ _ _ Hc Hi) as Hr. pose proof (kahn_inv_step _ _ _ _ _ _ Hc Hi) as Hi'.
  rewrite lower_degrees; rewrite outgoing_succs; [|done]. cbn [res_bind fst snd]. apply IH.
  - eapply kahn_inv_queue; [symmetry; apply sort_by_perm|done].
  - apply sort_by_sorted; apply _.
  - apply prefix_all_snoc. split; [done|]. intros y Hy Hn Hpre.
    assert (Hq : y ∈ u :: q).
    { apply (indeg_zero E out y) in Hpre. apply (ki_ready _ _ _ _ _ Hi y Hy) in Hpre. set_solver. }
    apply elem_of_cons in Hq as [->|Hq]; [done|by eapply StronglySorted_head].
  - rewrite length_app. cbn. lia.
Qed.

Lemma order_exact :
  exists order, wf_topological_order w = Ok order /\ order ≡ₚ ids /\ topo E order /\ prefix_all least_ready order.
Proof.
  unfold wf_topological_order. rewrite in_degrees_build. cbn [res_bind].
  destruct (order_loop_spec (length (wd_nodes w)) (kahn_build ids E).2 (sort_by String.le (zero_degree (kahn_build ids E).2)) [])
    as (order & deg & Hrun & Hi & Hp).
  - eapply kahn_inv_queue; [symmetry; apply sort_by_perm|apply initial_inv].
  - apply sort_by_sorted; apply _.
  - apply prefix_all_nil.
  - unfold wf_ids. rewrite length_map. cbn. lia.
  - exists order. split; [done|]. pose proof (proj2 (kahn_inv_acyclic _ _ _ _ (wv_ids _ Hv) (wv_closed _ Hv) Hi) (wv_acyclic _ Hv)).
    destruct Hi as [Hnd Hn _ _ Ht]. rewrite app_nil_r in *. split; [|done].
    apply submseteq_length_Permutation; [by apply NoDup_submseteq|lia].
Qed.

(** What remains when the nodes of [out] have been put in waves. *)
Record wave_inv (out : list string) (rem : pydict Z) : Prop := WaveInv {
  wi_wf : dict_wf rem;
  wi_nodup : NoDup out;
  wi_out : forall n, n ∈ out -> n ∈ ids;
  wi_deg : forall n, dget rem n = if decide (n ∈ ids /\ n ∉ out) then Some (indeg E out n) else None
}.

Lemma lower_present es rem :
  dict_wf rem ->
  let rem' := fold_left (fun r e => match dget r (we_to e) with
                                    | Some d => dset r (we_to e) (d - 1)
                                    | None => r
                                    end) es rem in
  dict_wf rem' /\ forall n, dget rem' n = (fun d => d - occ n (map we_to es)) <$> dget rem n.
Proof.
  revert rem. induction es as [|e es IH]; intros rem Hwf; cbn [fold_left map].
  { split; [done|]. intros n. destruct (dget rem n); cbn; [f_equal; lia|done]. }
  destruct (dget rem (we_to e)) as [d|] eqn:Hd.
  - destruct (IH (dset rem (we_to e) (d - 1))) as [Hwf' Hg]; [by apply dict_wf_dset|]. split; [done|].
    intros n. rewrite Hg, dget_dset. cbn. case_decide as Heq; [subst n; rewrite Hd; cbn; f_equal; lia|].
    destruct (dget rem n); cbn; [f_equal; lia|done].
  - destruct (IH rem Hwf) as [Hwf' Hg]. split; [done|]. intros n. rewrite Hg. cbn. case_decide as Heq; [subst n; by rewrite Hd|].
    destruct (dget rem n); cbn; [f_equal; lia|done].
Qed.

Lemma wave_node_inv out rem u :
  wave_inv out rem -> u ∈ ids -> u ∉ out -> wave_inv (out ++ [u]) (wave_node w rem u).
Proof.
  intros [Hwf Hnd Ho Hd] Hu Hout. unfold wave_node.
  destruct (lower_present (outgoing_edges w u) (ddel rem u)) as [Hwf' Hg]; [by apply dict_wf_ddel|].
  split; [done| | |].
  - apply NoDup_app. split_and!; [done|set_solver|apply NoDup_singleton].
  - intros n [?| ->%list_elem_of_singleton]%elem_of_app; [by apply Ho|done].
  - intros n. rewrite Hg, dget_ddel by done. rewrite outgoing_succs, Hd. destruct (decide (u = n)) as [<-|Hne].
    + rewrite decide_False by set_solver. done.
    + destruct (decide (n ∈ ids /\ n ∉ out)) as [[Hn Hno]|Hno].
      * rewrite decide_True by set_solver. cbn. by rewrite indeg_snoc_out.
      * rewrite decide_False by set_solver. done.
Qed.

Lemma wave_nodes_inv wave out rem :
  wave_inv out rem -> NoDup (out ++ wave) -> (forall n, n ∈ wave -> n ∈ ids) ->
  wave_inv (out ++ wave) (fold_left (wave_node w) wave rem).
Proof.
  revert out rem. induction wave as [|u wave IH]; intros out rem Hi Hnd Hn; [by rewrite app_nil_r|]. cbn [fold_left].
  replace (out ++ u :: wave) with ((out ++ [u]) ++ wave) in * by (by rewrite <- app_assoc). apply IH; [|done|set_solver].
  apply wave_node_inv; [done|set_solver|]. apply NoDup_app in Hnd as [Hnd _]. apply NoDup_app in Hnd as (_ & Hnd & _).
  intros Hin. apply (Hnd u Hin). set_solver.
Qed.

Lemma elem_wave out rem n :
  wave_inv out rem ->
  n ∈ sort_by String.le (zero_degree rem) <-> (n ∈ ids /\ (n ∉ out) /\ (forall s, (s, n) ∈ E -> s ∈ out)).
Proof.
  intros [Hwf _ _ Hd]. rewrite sort_by_perm, (elem_zero_degree _ _ Hwf), Hd, <- indeg_zero.
  case_decide as Hn; [|naive_solver]. split; [intros [= H]; naive_solver|by intros (_ & _ & ->)].
Qed.

Lemma wave_exists out rem : wave_inv out rem -> sort_by String.le (zero_degree rem) = [] -> rem = [].
Proof.
  intros Hi Hnil. destruct rem as [|[k d] rem]; [done|]. exfalso.
  assert (Hk : k ∈ ids /\ k ∉ out).
  { pose proof (wi_deg _ _ Hi k) as Hk. cbn in Hk. rewrite decide_True in Hk by done. by case_decide. }
  destruct Hk as [Hk Hko]. apply Hko.
  apply (acyclic_ready_all ids E out (wv_closed _ Hv) (wv_acyclic _ Hv)); [|done].
  intros n Hn Hpre. destruct (decide (n ∈ out)) as [|Hno]; [done|]. exfalso.
  assert (Hin : n ∈ sort_by String.le (zero_degree ((k, d) :: rem))) by (by apply (elem_wave out)).
  rewrite Hnil in Hin. by apply elem_of_nil in Hin.
Qed.

Lemma waves_loop_spec fuel rem waves :
  wave_inv (concat waves) rem -> layered E waves ->
  (forall n, n ∈ ids -> n ∉ concat waves -> (forall s, (s, n) ∈ E -> s ∈ concat waves) ->
     waves = [] \/ exists g s, last waves = Some g /\ s ∈ g /\ (s, n) ∈ E) ->
  (length ids <= length (concat waves) + fuel)%nat ->
  exists waves', waves_loop fuel w rem waves = waves' /\ concat waves' ≡ₚ ids /\ layered E waves'.
Proof.
  revert rem waves. induction fuel as [|fuel IH]; intros rem waves Hi Hl Hlast Hf.
  all: assert (Hdone : rem = [] -> concat waves ≡ₚ ids).
  1, 3: intros ->; apply submseteq_length_Permutation; [by apply NoDup_submseteq; [apply Hi|apply (wi_out _ _ Hi)]|];
    apply NoDup_subset_length; [apply Hv|]; intros n Hn; pose proof (wi_deg _ _ Hi n) as Hd; cbn in Hd;
    case_decide as Hno; [done|]; destruct (decide (n ∈ concat waves)); [done|naive_solver].
  - exists waves. split; [by destruct rem|]. split; [|done]. destruct rem as [|p rem]; [by apply Hdone|].
    apply submseteq_length_Permutation; [by apply NoDup_submseteq; [apply Hi|apply (wi_out _ _ Hi)]|]. lia.
  - destruct rem as [|p rem]; [exists waves; split_and!; [done|by apply Hdone|done]|]. cbn [waves_loop].
    set (wave := sort_by String.le (zero_degree (p :: rem))) in *.
    pose proof (fun n => elem_wave _ _ n Hi) as Hw. fold wave in Hw.
    destruct wave as [|u wave'] eqn:Hwave; [by apply (wave_exists _ _ Hi) in Hwave|]. rewrite <- Hwave in *.
    assert (Hcc : concat (waves ++ [wave]) = concat waves ++ wave) by (by rewrite concat_app; cbn; rewrite app_nil_r).
    apply IH.
    + rewrite Hcc. apply wave_nodes_inv; [done| |naive_solver]. apply NoDup_app. split_and!; [apply Hi|naive_solver|].
      unfold wave. rewrite sort_by_perm. apply NoDup_zero_degree, Hi.
    + apply layered_snoc; [done|by rewrite Hwave|apply sort_by_sorted; apply _| |].
      * intros n s Hn He. apply Hw in Hn as (_ & _ & Hn). by apply Hn.
      * intros n (Hn & Hno & Hp)%Hw. by apply Hlast.
    + intros n Hn Hno Hp. right. rewrite Hcc in Hno, Hp. rewrite last_snoc.
      destruct (decide (Exists (fun s => (s, n) ∈ E) wave)) as [(s & Hs & He)%Exists_exists|Hne]; [by exists wave, s|].
      exfalso. apply Hno, elem_of_app. right. apply Hw. split_and!; [done|set_solver|]. intros s Hs.
      specialize (Hp s Hs). apply elem_of_app in Hp as [?|Hp]; [done|]. destruct Hne. apply Exists_exists. eauto.
    + rewrite Hcc, length_app, Hwave. cbn. lia.
Qed.

Lemma waves_exact : exists waves, structural_waves w = Ok waves /\ concat waves ≡ₚ ids /\ layered E waves.
Proof.
  unfold structural_waves. rewrite in_degrees_build. cbn [res_bind].
  destruct (waves_loop_spec (length (wd_nodes w)) (kahn_build ids E).2 []) as (waves & Hrun & Hp & Hl).
  - pose proof (kahn_build_spec ids E) as [_ Hd]. rewrite (eff_edges_all ids E (wv_closed _ Hv)) in Hd.
    split; [unfold dict_wf; rewrite dkeys_kahn_build; apply Hv|constructor|by intros n Hn%elem_of_nil|].
    intros n. rewrite Hd. cbn. repeat case_decide; set_solver.
  - split; intros; by rewrite ?lookup_nil in *.
  - intros n _ _ _. by left.
  - unfold wf_ids. rewrite length_map. cbn. lia.
  - exists waves. by rewrite Hrun.
Qed.
End dry_run.

(** ** Properties *)

(** validation.  A workflow is made exactly when it has nodes, distinct ids,
    known conditions, edges between its nodes and no cycle; any other
    definition is refused with [InvalidWorkflowError]. *)
Theorem workflow_validate_exact w :
  (make_workflow w = Ok w /\ wf_valid w) \/ (invalid (make_workflow w) /\ ~ wf_valid w).
Proof.
  unfold make_workflow. destruct (wf_validate_spec w) as [[-> Hv]|[[m ->] Hv]]; cbn [res_bind]; [by left|].
  right. split; [by eexists|done].
Qed.

Lemma make_workflow_same w w' : make_workflow w = Ok w' -> w' = w.
Proof. unfold make_workflow. destruct (wf_validate w); cbn; [by intros [= ->]|done]. Qed.

Lemma from_dict_made d w : workflow_from_dict d = Ok w -> make_workflow w = Ok w.
Proof.
  unfold workflow_from_dict. destruct (res_map node_from_raw (default [] (rw_nodes d))) as [ns|]; cbn [res_bind]; [|done].
  destruct (res_map edge_from_raw (default [] (rw_edges d))) as [es|]; cbn [res_bind]; [|done]. destruct (wf_required "id" (rw_id d)); cbn [res_bind]; [|done].
  intros Hm. pose proof (make_workflow_same _ _ Hm) as ->. exact Hm.
Qed.

(** documents.  A workflow that was read from a document is read back, the
    same, from the document that it is written to. *)
Theorem workflow_roundtrip d w :
  workflow_from_dict d = Ok w -> workflow_from_dict (workflow_to_dict w) = Ok w.
Proof.
  intros Hw%from_dict_made. unfold workflow_from_dict. cbn [workflow_to_dict rw_nodes rw_edges rw_id rw_name rw_description rw_project].
  change (default [] (Some ?l)) with l.
  rewrite (res_map_map node_to_raw node_from_raw (fun n => n)), map_id by (by intros []).
  cbn [res_bind]. rewrite (res_map_map edge_to_raw edge_from_raw (fun e => e)), map_id by (by intros []). cbn [res_bind wf_required].
  by destruct w.
Qed.

(** The dry run.  For a valid workflow the order is the topological one that
    takes the least possible id at each place; the waves hold every node once,
    each wave is sorted, the predecessors of a node are in earlier waves and
    one of them in the wave just before. *)
Theorem simulate_exact max_parallel w :
  wf_valid w ->
  exists order waves,
    simulate max_parallel w
      = Ok (mkSim (wd_id w) order (map wn_id (List.filter wn_validation (wd_nodes w))) waves max_parallel) /\
    (order ≡ₚ wf_ids w /\ topo (wf_edge_pairs w) order /\ prefix_all (least_ready w) order) /\
    (concat waves ≡ₚ wf_ids w /\ layered (wf_edge_pairs w) waves).
Proof.
  intros Hv. destruct (order_exact w Hv) as (order & Ho & Hos). destruct (waves_exact w Hv) as (waves & Hw & Hws).
  exists order, waves. unfold simulate. rewrite Hw. cbn [res_bind]. rewrite Ho. by cbn [res_bind].
Qed.

(** ** Examples *)

Definition wf_step (nid : string) (gate : bool) : WorkflowNode :=
  mkWfNode nid "verify" [("text", PStr ("$steps." +:+ nid +:+ ".text"))] gate.

(** Two branches that exclude each other, and their join. *)
Definition demo_wf : WorkflowDefinition :=
  mkWf "w" "w" "" [mkWfNode "ask" "research" [] false; mkWfNode "good" "verify" [("t", PStr "$steps.ask.text")] false;
                   mkWfNode "bad" "verify" [] false; mkWfNode "end" "verify" [] true]
    [mkWfEdge "ask" "good" "on_success"; mkWfEdge "ask" "bad" "on_failure";
     mkWfEdge "good" "end" "always"; mkWfEdge "bad" "end" "always"] None.

Lemma demo_wf_valid : wf_valid demo_wf.
Proof.
  destruct (wf_validate_spec demo_wf) as [[_ Hv]|[[m Hm] _]]; [done|]. vm_compute in Hm. discriminate.
Qed.

Example demo_simulate :
  simulate 4 demo_wf = Ok (mkSim "w" ["ask"; "bad"; "good"; "end"] ["end"] [["ask"]; ["bad"; "good"]; ["end"]] 4).
Proof. vm_compute. reflexivity. Qed.

Example demo_cycle :
  wf_validate (mkWf "w" "w" "" [wf_step "a" false; wf_step "b" false; wf_step "c" false]
    [mkWfEdge "a" "b" "always"; mkWfEdge "b" "c" "always"; mkWfEdge "c" "b" "on_failure"] None)
  = Err (workflow_error "Workflow {!r} has a cycle involving {!r}." ["w"; "b"]).
Proof. vm_compute. reflexivity. Qed.

Lemma workflow_roundtrip_witness :
  workflow_from_dict (workflow_to_dict demo_wf) = Ok demo_wf /\
  workflow_from_dict (workflow_to_dict demo_wf) = Ok demo_wf.
Proof.
  assert (H : workflow_from_dict (workflow_to_dict demo_wf) = Ok demo_wf) by (vm_compute; reflexivity).
  split; [exact H|exact (workflow_roundtrip (workflow_to_dict demo_wf) demo_wf H)].
Defined.

Lemma simulate_exact_witness :
  wf_valid demo_wf /\ exists order waves, simulate 4 demo_wf = Ok (mkSim "w" order ["end"] waves 4) /\
    order ≡ₚ wf_ids demo_wf /\ concat waves ≡ₚ wf_ids demo_wf.
Proof.
  split; [exact demo_wf_valid|]. destruct (simulate_exact 4 demo_wf demo_wf_valid) as (order & waves & Hs & [Ho _] & [Hw _]).
  by exists order, waves.
Defined.
