(* ===== verification/WorkflowRuns.v ===== *)
(** * Workflows: what a run and its resumptions do

    [run] of [Workflows] computes the one solution of a system that does not
    mention waves: a node is executed when its predecessors are, one of its
    edges is satisfied and its gate is open; it waits when only its gate is
    closed; it is skipped otherwise.  That holds through any history of runs of
    any valid workflows ([runs]), each resumed with its own. *)
From stdpp Require Import base gmap strings list sets relations sorting pretty.
From Stdlib Require Import ZArith QArith Lia.
From S2P Require Import Prelude.
From S2P Require Import Kahn.
From S2P Require Import Workflows.
From S2P Require Import WorkflowPlans.
#[local] Open Scope Z_scope.

(** ** Solutions *)

Definition executed (R : pydict NodeResult) (n : string) : Prop :=
  exists r, dget R n = Some r /\ is_executed r = true.

Definition awaiting (n : string) : NodeResult := mkNodeResult n StepStatus.AWAITING_VALIDATION PNone None.
Definition skipped (n : string) : NodeResult := mkNodeResult n StepStatus.SKIPPED PNone None.

(** The predecessors of [n] are executed and an edge of [n] is satisfied. *)
Definition reached (w : WorkflowDefinition) (R : pydict NodeResult) (n : string) : Prop :=
  (forall e, e ∈ incoming_edges w n -> executed R (we_from e)) /\
  (incoming_edges w n = [] \/ exists e, e ∈ incoming_edges w n /\ edge_satisfied R e = true).

(** The node waits for a human who has not approved it. *)
Definition closed_gate (approved : gset string) (node : WorkflowNode) : bool :=
  wn_validation node && bool_decide (wn_id node ∉ approved).

Record settled (w : WorkflowDefinition) (approved : gset string) (R : pydict NodeResult) : Prop := Settled {
  se_wf : dict_wf R;
  se_keys : forall n, n ∈ dkeys R <-> n ∈ wf_ids w;
  se_executed : forall node, node ∈ wd_nodes w -> reached w R (wn_id node) -> closed_gate approved node = false ->
    executed R (wn_id node);
  se_awaiting : forall node, node ∈ wd_nodes w -> reached w R (wn_id node) -> closed_gate approved node = true ->
    dget R (wn_id node) = Some (awaiting (wn_id node));
  se_skipped : forall node, node ∈ wd_nodes w -> ~ reached w R (wn_id node) ->
    dget R (wn_id node) = Some (skipped (wn_id node))
}.

(** What is executed had to be. *)
Definition sound (w : WorkflowDefinition) (approved : gset string) (R : pydict NodeResult) : Prop :=
  forall node, node ∈ wd_nodes w -> executed R (wn_id node) ->
    reached w R (wn_id node) /\ closed_gate approved node = false.

(** What is executed in [R] is, with the same result, in [R']. *)
Definition grows (R R' : pydict NodeResult) : Prop :=
  forall n r, dget R n = Some r -> is_executed r = true -> dget R' n = Some r.

#[export] Instance grows_preorder : PreOrder grows.
Proof. split; [by intros R n r|]. intros R1 R2 R3 H1 H2 n r Hn Hr. apply H2; [by apply H1|done]. Qed.

#[export] Instance executed_dec R n : Decision (executed R n).
Proof.
  destruct (dget R n) as [r|] eqn:Hr; [|right; intros (r & Hr' & _); congruence].
  destruct (is_executed r) eqn:He; [left; by exists r|right; intros (r' & Hr' & He'); congruence].
Defined.

Lemma executed_grows R R' n : grows R R' -> executed R n -> executed R' n.
Proof. intros Hg (r & Hr & He). exists r. split; [by apply Hg|done]. Qed.

(** On executed predecessors the condition of an edge does not change. *)
Lemma edge_satisfied_grows R R' e :
  grows R R' -> executed R (we_from e) -> edge_satisfied R' e = edge_satisfied R e.
Proof. intros Hg (r & Hr & He). unfold edge_satisfied. by rewrite (Hg _ _ Hr He), Hr. Qed.

Lemma reached_grows w R R' n : grows R R' -> reached w R n -> reached w R' n.
Proof.
  intros Hg [Hp Hs]. split; [intros e He; by eapply executed_grows, Hp|].
  destruct Hs as [?|(e & He & Hse)]; [by left|right]. exists e. split; [done|].
  by rewrite (edge_satisfied_grows R R' e Hg (Hp e He)).
Qed.

Lemma reached_same w R R' n : grows R R' -> grows R' R -> reached w R n <-> reached w R' n.
Proof. intros H1 H2. split; by apply reached_grows. Qed.

Lemma sound_approved w A B R : A ⊆ B -> sound w A R -> sound w B R.
Proof.
  intros HAB Hs node Hn He. destruct (Hs node Hn He) as [Hr Hc]. split; [done|].
  unfold closed_gate in *. apply andb_false_iff in Hc as [->|Hc]; [done|]. apply andb_false_iff. right.
  rewrite bool_decide_eq_false in *. set_solver.
Qed.

Lemma not_executed R n r : dget R n = Some r -> is_executed r = false -> ~ executed R n.
Proof. intros Hr He (r' & Hr' & He'). congruence. Qed.

#[export] Instance reached_dec w R n : Decision (reached w R n).
Proof.
  refine (cast_if (decide (Forall (fun e => executed R (we_from e)) (incoming_edges w n) /\
    (incoming_edges w n = [] \/ Exists (fun e => edge_satisfied R e = true) (incoming_edges w n)))));
    unfold reached; rewrite Forall_forall, Exists_exists in *; done.
Defined.

Lemma settled_sound w A R : settled w A R -> sound w A R.
Proof.
  intros Hs node Hn He. destruct (decide (reached w R (wn_id node))) as [Hr|Hr].
  - split; [done|]. destruct (closed_gate A node) eqn:Hc; [|done]. exfalso.
    by apply (not_executed _ _ _ (se_awaiting _ _ _ Hs node Hn Hr Hc) eq_refl).
  - exfalso. by apply (not_executed _ _ _ (se_skipped _ _ _ Hs node Hn Hr) eq_refl).
Qed.

(** ** Nodes and edges *)

Lemma elem_incoming w n e : e ∈ incoming_edges w n <-> e ∈ wd_edges w /\ we_to e = n.
Proof. unfold incoming_edges. by rewrite !list_elem_of_In, filter_In, bool_decide_eq_true. Qed.

Section graph.
Context (w : WorkflowDefinition).
Hypothesis Hv : wf_valid w.

Lemma node_of n : n ∈ wf_ids w -> exists node, wf_node w n = Ok node /\ node ∈ wd_nodes w /\ wn_id node = n.
Proof.
  intros (node & -> & Hn)%list_elem_of_fmap. unfold wf_node.
  destruct (List.find _ (wd_nodes w)) as [m|] eqn:Hf.
  - apply find_some in Hf as [Hm Heq%bool_decide_eq_true]. exists m. by rewrite list_elem_of_In.
  - exfalso. apply list_elem_of_In in Hn. by apply (find_none _ _ Hf), bool_decide_eq_false in Hn.
Qed.

Lemma node_by_id node node' :
  node ∈ wd_nodes w -> node' ∈ wd_nodes w -> wn_id node = wn_id node' -> node = node'.
Proof. intros ? ? ?. eapply NoDup_map_inj; [apply Hv|done..]. Qed.

(** With what is executed are its ancestors. *)
Lemma ancestors_executed A R n m :
  sound w A R -> (forall e, e ∈ incoming_edges w n -> executed R (we_from e)) ->
  tc (edge_rel (wf_edge_pairs w)) m n -> executed R m.
Proof.
  intros Hs Hp Ht. revert Hp. induction Ht as [m n Hmn|m k n Hmk _ IH]; intros Hp.
  - apply elem_wf_pairs in Hmn as (e & He & <- & <-). by apply Hp, elem_incoming.
  - specialize (IH Hp). apply elem_wf_pairs in Hmk as Hmk'. destruct Hmk' as (e & He & <- & Hk).
    destruct (wv_closed _ Hv _ _ Hmk) as [_ (node & -> & Hn)%list_elem_of_fmap].
    destruct (Hs node Hn IH) as [[Hp' _] _]. apply Hp', elem_incoming. done.
Qed.

(** ** One turn of the loop *)

(** The node with this id stops at its gate. *)
Definition stops (approved : gset string) (n : string) : bool :=
  match wf_node w n with Ok node => closed_gate approved node | Err _ => false end.

Lemma stops_node approved node : node ∈ wd_nodes w -> stops approved (wn_id node) = closed_gate approved node.
Proof.
  intros Hn. unfold stops. destruct (node_of (wn_id node)) as (m & -> & Hm & Hid); [by apply list_elem_of_fmap_2|].
  by rewrite (node_by_id m node Hm Hn Hid).
Qed.

Definition await_all (ns : list string) (R : pydict NodeResult) : pydict NodeResult :=
  fold_left (fun R n => dset R n (awaiting n)) ns R.

Lemma triage_spec approved ready k runnable :
  (forall n, n ∈ ready -> n ∈ wf_ids w) ->
  triage w approved ready k runnable
  = Ok (mkWalk (wk_done k) (await_all (List.filter (stops approved) ready) (wk_results k))
          (wk_remaining k ∖ list_to_set ready) (wk_pending k ++ List.filter (stops approved) ready),
        runnable ++ List.filter (fun n => negb (stops approved n)) ready).
Proof.
  revert k runnable. induction ready as [|n ready IH]; intros k runnable Hids; cbn [triage].
  - cbn. rewrite !app_nil_r, difference_empty_L. by destruct k.
  - destruct (node_of n) as (node & Hnode & Hin & Hid); [apply Hids; set_solver|].
    assert (Hst : stops approved n = wn_validation node && bool_decide (n ∉ approved)).
    { unfold stops, closed_gate. by rewrite Hnode, Hid. }
    unfold gated. rewrite Hnode. cbn [res_bind List.filter]. rewrite <- Hst.
    assert (Hset : wk_remaining k ∖ {[n]} ∖ list_to_set ready = wk_remaining k ∖ list_to_set (n :: ready))
      by (cbn [list_to_set]; set_solver).
    destruct (stops approved n); cbn [negb]; rewrite IH by set_solver; cbn [wk_done wk_results wk_remaining wk_pending];
      by rewrite Hset, <- app_assoc.
Qed.

Lemma dget_fold {V} (f : string -> V) ns (d : pydict V) n :
  dget (fold_left (fun d m => dset d m (f m)) ns d) n = if decide (n ∈ ns) then Some (f n) else dget d n.
Proof.
  revert d. induction ns as [|m ns IH]; intros d; cbn [fold_left]; [by rewrite decide_False by apply not_elem_of_nil|].
  rewrite IH, dget_dset. repeat case_decide; subst; set_solver.
Qed.

Lemma dict_wf_fold {V} (f : string -> V) ns (d : pydict V) :
  dict_wf d -> dict_wf (fold_left (fun d m => dset d m (f m)) ns d).
Proof. revert d. induction ns as [|m ns IH]; intros d Hd; [done|]. by apply IH, dict_wf_dset. Qed.

Lemma dkeys_fold {V} (f : string -> V) ns (d : pydict V) n :
  n ∈ dkeys (fold_left (fun d m => dset d m (f m)) ns d) <-> n ∈ ns \/ n ∈ dkeys d.
Proof.
  rewrite <- !dget_is_Some, dget_fold. case_decide; [|naive_solver]. split; [by left|by eauto].
Qed.

Lemma write_back_spec wave ns k :
  (forall n, n ∈ ns -> is_Some (dget wave n)) ->
  res_fold (write_back wave) ns k
  = Ok (mkWalk (wk_done k ∪ list_to_set ns)
          (fold_left (fun R n => dset R n (default (awaiting n) (dget wave n))) ns (wk_results k))
          (wk_remaining k) (wk_pending k)).
Proof.
  revert k. induction ns as [|n ns IH]; intros k Hns; cbn [res_fold fold_left].
  - cbn. rewrite union_empty_r_L. by destruct k.
  - destruct (Hns n ltac:(set_solver)) as [r Hr]. unfold write_back at 1. rewrite (dlookup_Some _ _ _ Hr). cbn [res_bind].
    rewrite IH by set_solver. cbn [wk_done wk_results wk_remaining wk_pending list_to_set]. rewrite Hr.
    change (default (awaiting n) (Some r)) with r. do 2 f_equal. set_solver.
Qed.

(** ** The answers of a wave *)

Section answers.
Context `{!SetOrder}.
Variable registered : string -> bool.
Variable answer : nat -> string -> pydict pyval -> tool_answer.
Variable clock : nat -> Z.
Variable uuid4 : nat -> string.

(** No tool answers an object that JSON does not know. *)
Definition encodable : Prop := forall i action params ty, answer i action params <> Object ty.

(** The result of a node when its tool is called as the [i]-th one. *)
Definition outcome (i : nat) (node : WorkflowNode) (R : pydict NodeResult) : NodeResult :=
  match lookup_tool registered node R with
  | Err e => failed_result (wn_id node) (exn_message e)
  | Ok params =>
      match answer i (wn_action node) params with
      | Raised text => failed_result (wn_id node) (Msg "{}" [text])
      | Value v => mkNodeResult (wn_id node) StepStatus.SUCCESS v None
      | Object ty => failed_result (wn_id node) (exn_message (json_error ty))
      end
  end.

Lemma outcome_executed i node R : is_executed (outcome i node R) = true.
Proof. unfold outcome. destruct (lookup_tool _ _ _); [destruct (answer _ _ _)|]; reflexivity. Qed.

(** From [s] to [s'] the run [x] has called tools for nodes of [ns], once each,
    and nothing else has changed but the bus. *)
Definition called (x : string) (ns : list string) (s s' : WfState) : Prop :=
  ws_rows s' = ws_rows s /\ ws_uuids s' = ws_uuids s /\ ws_reads s' = ws_reads s /\
  exists cs, ws_calls s' = ws_calls s ++ cs /\ (forall c, c ∈ cs -> tc_run c = x) /\ sublist (map tc_node cs) ns.

Lemma called_refl x s : called x [] s s.
Proof. split_and!; [done..|]. exists []. rewrite app_nil_r. split_and!; [done|by intros c ?%elem_of_nil|constructor]. Qed.

Lemma called_app x ns1 ns2 s1 s2 s3 : called x ns1 s1 s2 -> called x ns2 s2 s3 -> called x (ns1 ++ ns2) s1 s3.
Proof.
  intros (Hr & Hu & Ht & cs & Hc & Hx & Hs) (Hr' & Hu' & Ht' & cs' & Hc' & Hx' & Hs'). split_and!; [congruence..|].
  exists (cs ++ cs'). rewrite Hc', Hc, <- app_assoc. split_and!; [done|set_solver|]. rewrite map_app. by apply sublist_app.
Qed.

Lemma wp_execute_node node R x s :
  encodable ->
  wp (execute_node registered answer w node R x)
     (fun r s' => called x [wn_id node] s s' /\ exists i, r = outcome i node R) s.
Proof.
  intros Henc. unfold execute_node, outcome. destruct (lookup_tool registered node R) as [params|e].
  - unfold wp, bus_publish, update, call_tool, bind, ret, raise. cbn [ws_calls with_bus ws_rows].
    set (i := length (ws_calls s)).
    assert (Hcall : forall b, called x [wn_id node] s (with_bus b (with_tool_calls
      (ws_calls s ++ [mkToolCall x (wn_id node) (wn_action node) params]) s))).
    { intros b. split_and!; [done..|]. exists [mkToolCall x (wn_id node) (wn_action node) params].
      split_and!; [done|by intros c ->%list_elem_of_singleton|done]. }
    destruct (answer i (wn_action node) params) as [v|ty|text] eqn:Ha; [|by destruct (Henc i (wn_action node) params ty)|];
      (split; [apply Hcall|]); exists i; by rewrite Ha.
  - split; [|by exists 0%nat]. pose proof (called_refl x s) as (? & ? & ? & cs & ? & ? & Hs). split_and!; [done..|].
    exists cs. split_and!; [done..|]. etrans; [exact Hs|apply sublist_nil_l].
Qed.

Definition answered (R : pydict NodeResult) (n : string) (r : NodeResult) : Prop :=
  exists node i, node ∈ wd_nodes w /\ wn_id node = n /\ r = outcome i node R.

Lemma wp_run_one R x n s :
  encodable -> n ∈ wf_ids w ->
  wp (run_one registered answer w R x n) (fun r s' => called x [n] s s' /\ answered R n r) s.
Proof.
  intros Henc Hn. destruct (node_of n Hn) as (node & Hnode & Hin & <-).
  pose proof (wp_execute_node node R x s Henc) as Hw. unfold run_one, wp, catch, bind, lift in *. rewrite Hnode.
  destruct (execute_node registered answer w node R x s) as [[r|e] s']; [|done].
  destruct Hw as (Hc & i & ->). split; [done|]. by exists node, i.
Qed.

Definition wave_ok (R : pydict NodeResult) (ids : list string) (wave : pydict NodeResult) : Prop :=
  dkeys wave = ids /\ forall n r, (n, r) ∈ wave -> answered R n r.

Lemma wp_gather R x ids s :
  encodable -> (forall n, n ∈ ids -> n ∈ wf_ids w) ->
  wp (gather registered answer w R x ids) (fun wave s' => called x ids s s' /\ wave_ok R ids wave) s.
Proof.
  intros Henc. revert s. induction ids as [|n ids IH]; intros s Hids; cbn [gather].
  { apply wp_ret. split; [apply called_refl|]. split; [done|]. by intros n r ?%elem_of_nil. }
  apply wp_bind. eapply wp_mono; [apply wp_run_one; [done|set_solver]|]. intros r s1 [Hc1 Hr].
  apply wp_bind. eapply wp_mono; [apply IH; set_solver|]. intros wave s2 [Hc2 [Hk Ha]]. apply wp_ret. split.
  - by apply (called_app x [n] ids s s1 s2).
  - split; [unfold dkeys in *; cbn; by rewrite Hk|]. intros m q [[= -> ->]|Hm]%elem_of_cons; [done|by apply Ha].
Qed.

Lemma wp_execute_wave R x ids s :
  encodable -> (forall n, n ∈ ids -> n ∈ wf_ids w) ->
  wp (execute_wave registered answer w ids R x) (fun wave s' => called x ids s s' /\ wave_ok R ids wave) s.
Proof.
  intros Henc Hids. destruct ids as [|n [|n' ids]]; [..|by apply wp_gather].
  - apply wp_ret. split; [apply called_refl|]. split; [done|]. by intros n r ?%elem_of_nil.
  - destruct (node_of n) as (node & Hnode & Hin & <-); [apply Hids; set_solver|]. unfold execute_wave. rewrite Hnode.
    apply wp_bind. change (lift (Ok node)) with (ret (S := WfState) node). apply wp_ret, wp_bind. eapply wp_mono; [apply wp_execute_node, Henc|]. intros r s' (Hc & i & ->). apply wp_ret. split; [done|].
    split; [done|]. intros m q [= -> ->]%list_elem_of_singleton. by exists node, i.
Qed.

(** ** The loop *)

Record walk_inv (approved : gset string) (k : Walk) : Prop := WalkInv {
  vi_wf : dict_wf (wk_results k);
  vi_keys : forall n, n ∈ dkeys (wk_results k) -> n ∈ wf_ids w;
  vi_done : forall n, n ∈ wk_done k <-> executed (wk_results k) n;
  vi_remaining : forall n, n ∈ wk_remaining k <-> n ∈ wf_ids w /\ ~ executed (wk_results k) n /\ n ∉ wk_pending k;
  vi_pending : forall n, n ∈ wk_pending k ->
    n ∈ wf_ids w /\ reached w (wk_results k) n /\ stops approved n = true /\ dget (wk_results k) n = Some (awaiting n);
  vi_nodup : NoDup (wk_pending k);
  vi_sound : sound w approved (wk_results k)
}.

Lemma wf_ready_spec done R n :
  (forall m, m ∈ done <-> executed R m) -> wf_ready w done R n = true <-> reached w R n.
Proof.
  intros Hd. unfold wf_ready, reached. destruct (incoming_edges w n) as [|e es] eqn:Hin.
  { split; [|done]. intros _. split; [by intros e ?%elem_of_nil|by left]. }
  rewrite <- Hin. rewrite andb_true_iff, bool_decide_eq_true, Forall_forall, existsb_exists.
  setoid_rewrite Hd. setoid_rewrite <- list_elem_of_In.
  split; intros [Hp Hs]; (split; [done|]); [by right|]. destruct Hs as [Hs|Hs]; [congruence|done].
Qed.

Lemma elem_sorted_ids s n : n ∈ sorted_ids s <-> n ∈ s.
Proof. unfold sorted_ids. rewrite sort_by_perm. apply elem_of_elements. Qed.

Lemma elem_wf_ready approved k n :
  walk_inv approved k ->
  n ∈ ready_nodes w (wk_done k) (wk_results k) (wk_remaining k) <-> n ∈ wk_remaining k /\ reached w (wk_results k) n.
Proof.
  intros Hi. unfold ready_nodes. rewrite list_elem_of_In, filter_In, <- list_elem_of_In, elem_sorted_ids.
  by rewrite (wf_ready_spec _ _ _ (vi_done _ _ Hi)).
Qed.

Lemma NoDup_List_filter {A} (f : A -> bool) l : NoDup l -> NoDup (List.filter f l).
Proof.
  induction 1 as [|x l Hx Hl IH]; cbn; [constructor|]. destruct (f x); [|done].
  constructor; [|done]. rewrite list_elem_of_In, filter_In, <- list_elem_of_In. naive_solver.
Qed.

Lemma NoDup_ready approved k : walk_inv approved k -> NoDup (ready_nodes w (wk_done k) (wk_results k) (wk_remaining k)).
Proof.
  intros Hi. apply NoDup_List_filter. unfold sorted_ids. rewrite sort_by_perm. apply NoDup_elements.
Qed.

Lemma elem_List_filter {A} (f : A -> bool) l x : x ∈ List.filter f l <-> x ∈ l /\ f x = true.
Proof. by rewrite !list_elem_of_In, filter_In. Qed.

Section turn.
Variables (approved : gset string) (k : Walk) (wave : pydict NodeResult).
#[local] Abbreviation ready := (ready_nodes w (wk_done k) (wk_results k) (wk_remaining k)).
#[local] Abbreviation held := (List.filter (stops approved) ready).
#[local] Abbreviation runnable := (List.filter (fun n => negb (stops approved n)) ready).
#[local] Abbreviation R1 := (await_all held (wk_results k)).
Hypothesis Hi : walk_inv approved k.
Hypothesis Hwave : wave_ok R1 runnable wave.

Definition next_walk : Walk :=
  mkWalk (wk_done k ∪ list_to_set runnable)
    (fold_left (fun R n => dset R n (default (awaiting n) (dget wave n))) runnable R1)
    (wk_remaining k ∖ list_to_set ready) (wk_pending k ++ held).

#[local] Abbreviation R := (wk_results k).
#[local] Abbreviation R' := (wk_results next_walk).

Lemma wave_answer n : n ∈ runnable -> exists r, dget wave n = Some r /\ answered R1 n r.
Proof.
  destruct Hwave as [Hk Ha]. intros Hn. rewrite <- Hk in Hn. apply dget_is_Some in Hn as [r Hr]. exists r.
  split; [done|]. by apply Ha, dget_Some_elem.
Qed.

Lemma ready_fresh n : n ∈ ready -> n ∈ wf_ids w /\ ~ executed R n /\ (n ∉ wk_pending k) /\ reached w R n.
Proof. rewrite (elem_wf_ready approved) by done. intros [Hr Hp]. apply (vi_remaining _ _ Hi) in Hr. naive_solver. Qed.

Lemma dget_next n :
  dget R' n = if decide (n ∈ runnable) then Some (default (awaiting n) (dget wave n))
              else if decide (n ∈ held) then Some (awaiting n) else dget R n.
Proof. cbn [next_walk wk_results]. unfold await_all. by rewrite !dget_fold. Qed.

Lemma next_keeps n : n ∉ ready -> dget R' n = dget R n.
Proof. intros Hn. rewrite dget_next, !decide_False; [done|..]; by intros [? _]%elem_List_filter. Qed.

Lemma next_executed n : executed R' n <-> executed R n \/ n ∈ runnable.
Proof.
  unfold executed. rewrite dget_next. destruct (decide (n ∈ runnable)) as [Hn|Hn].
  - destruct (wave_answer n Hn) as (r & -> & node & i & _ & _ & ->). split; [by right|]. intros _.
    eexists. split; [done|]. apply outcome_executed.
  - destruct (decide (n ∈ held)) as [Hh|Hh]; [|naive_solver]. split; [by intros (r & [= <-] & ?)|].
    intros [He|?]; [|done]. apply elem_List_filter in Hh as [Hh _]. by apply ready_fresh in Hh as (_ & ? & _).
Qed.

Lemma next_grows : grows R R'.
Proof.
  intros n r Hr He. rewrite next_keeps; [done|]. intros (_ & Hn & _)%ready_fresh. apply Hn. by exists r.
Qed.

Lemma held_grows : grows R R1 /\ grows R1 R.
Proof.
  assert (Hg : forall n, dget R1 n = if decide (n ∈ held) then Some (awaiting n) else dget R n)
    by (intros n; unfold await_all; by rewrite dget_fold).
  split; intros n r; rewrite Hg; case_decide as Hn; [| |by intros [= <-]|done]; [|done].
  apply elem_List_filter in Hn as [(_ & Hn & _)%ready_fresh _]. intros Hr He. destruct Hn. by exists r.
Qed.

Lemma next_walk_inv : walk_inv approved next_walk.
Proof.
  pose proof next_grows as Hg. split.
  - cbn [next_walk wk_results]. unfold await_all. by apply dict_wf_fold, dict_wf_fold, Hi.
  - intros n. cbn [next_walk wk_results]. unfold await_all. rewrite !dkeys_fold, !elem_List_filter.
    intros [[Hn _]|[[Hn _]|Hn]]; [by apply ready_fresh in Hn as [? _]..|by apply (vi_keys _ _ Hi)].
  - intros n. rewrite next_executed. cbn [next_walk wk_done]. rewrite elem_of_union, elem_of_list_to_set.
    by rewrite (vi_done _ _ Hi).
  - intros n. rewrite next_executed. cbn [next_walk wk_remaining wk_pending].
    rewrite elem_of_difference, elem_of_list_to_set, elem_of_app, !elem_List_filter, negb_true_iff.
    rewrite (vi_remaining _ _ Hi n). destruct (stops approved n); naive_solver.
  - intros n. cbn [next_walk wk_pending]. intros [Hn|Hn]%elem_of_app.
    + destruct (vi_pending _ _ Hi n Hn) as (Hid & Hr & Hs & Ha). split_and!; [done|by eapply reached_grows|done|].
      rewrite next_keeps; [done|]. intros Hrdy. by apply ready_fresh in Hrdy as (_ & _ & ? & _).
    + apply elem_List_filter in Hn as Hn'. destruct Hn' as [Hrdy Hs]. destruct (ready_fresh n Hrdy) as (Hid & _ & _ & Hr).
      split_and!; [done|by eapply reached_grows|done|]. rewrite dget_next, decide_False, decide_True; [done|done|].
      rewrite elem_List_filter, Hs. by intros [_ [=]].
  - cbn [next_walk wk_pending]. apply NoDup_app. split_and!; [apply Hi| |by eapply NoDup_List_filter, NoDup_ready].
    intros n Hn Hh. apply elem_List_filter in Hh as [(_ & _ & Hh & _)%ready_fresh _]. done.
  - intros node Hnode [He|Hn]%next_executed.
    + destruct (vi_sound _ _ Hi node Hnode He) as [Hr Hc]. split; [by eapply reached_grows|done].
    + apply elem_List_filter in Hn as [Hrdy Hs%negb_true_iff]. split; [eapply reached_grows; [done|by apply ready_fresh]|].
      by rewrite <- stops_node.
Qed.
End turn.

(** ** Answers that do not depend on the waves *)

(** The node that a parameter refers to. *)
Definition reference (v : pyval) : option string :=
  match v with
  | PStr s => if String.prefix "$steps." s
              then fst <$> split_point (drop_chars (String.length "$steps.") s) else None
  | _ => None
  end.

(** Nodes refer to their ancestors only. *)
Definition ancestral : Prop :=
  forall node p m, node ∈ wd_nodes w -> p ∈ wn_params node -> reference p.2 = Some m ->
    tc (edge_rel (wf_edge_pairs w)) m (wn_id node).

Lemma resolve_value_agree R R' v :
  (forall m, reference v = Some m -> dget R m = dget R' m) -> resolve_value v R = resolve_value v R'.
Proof.
  intros Hm. destruct v; try reflexivity. cbn [resolve_value reference] in *. unfold resolve_string.
  destruct (String.prefix _ _); [|done]. destruct (split_point _) as [[m key]|]; [|done]. by rewrite (Hm m eq_refl).
Qed.

Lemma resolve_params_agree R R' params :
  (forall p m, p ∈ params -> reference p.2 = Some m -> dget R m = dget R' m) ->
  resolve_params params R = resolve_params params R'.
Proof.
  unfold resolve_params. induction params as [|p params IH]; intros Hm; [done|]. cbn [res_map].
  rewrite (resolve_value_agree R R' p.2), IH; [done|set_solver|]. intros m. apply Hm. set_solver.
Qed.

Lemma outcome_agree i node R R' :
  (forall p m, p ∈ wn_params node -> reference p.2 = Some m -> dget R m = dget R' m) ->
  outcome i node R = outcome i node R'.
Proof. intros Hm. unfold outcome, lookup_tool. by rewrite (resolve_params_agree R R'). Qed.

Lemma ancestors_agree approved node R R' R'' :
  ancestral -> node ∈ wd_nodes w -> sound w approved R -> reached w R (wn_id node) ->
  grows R R' -> grows R R'' ->
  forall p m, p ∈ wn_params node -> reference p.2 = Some m -> dget R' m = dget R'' m.
Proof.
  intros Hanc Hn Hs [Hp _] H1 H2 p m Hin Href. destruct (ancestors_executed approved R (wn_id node) m) as (r & Hr & He);
    [done..|by eapply Hanc|]. by rewrite (H1 m r Hr He), (H2 m r Hr He).
Qed.

Definition true_answers (R : pydict NodeResult) : Prop :=
  forall node, node ∈ wd_nodes w -> executed R (wn_id node) -> exists i, dget R (wn_id node) = Some (outcome i node R).

Lemma next_true approved k wave :
  walk_inv approved k ->
  let ready := ready_nodes w (wk_done k) (wk_results k) (wk_remaining k) in
  wave_ok (await_all (List.filter (stops approved) ready) (wk_results k))
    (List.filter (fun n => negb (stops approved n)) ready) wave ->
  ancestral -> true_answers (wk_results k) -> true_answers (wk_results (next_walk approved k wave)).
Proof.
  intros Hi ready Hw Hanc Ht node Hn [He|Hr]%next_executed; [..|done|done].
  - pose proof (next_grows approved k wave Hi) as Hg. destruct (Ht node Hn He) as [i Hd]. exists i.
    rewrite (Hg _ _ Hd (outcome_executed _ _ _)). f_equal. apply outcome_agree.
    destruct (vi_sound _ _ Hi node Hn He) as [Hr _]. by eapply ancestors_agree; [..|apply Hi|exact Hr| |].
  - destruct (wave_answer approved k wave Hw _ Hr) as (r & Hd & node' & i & Hn' & Hid & ->).
    rewrite (node_by_id node' node Hn' Hn Hid) in Hd. exists i.
    rewrite dget_next, decide_True by done. rewrite Hd. change (default ?a (Some ?b)) with b. f_equal. apply outcome_agree.
    apply elem_List_filter in Hr as [Hr _]. destruct (ready_fresh approved k Hi _ Hr) as (_ & _ & _ & Hreach).
    eapply ancestors_agree; [..|exact Hreach| |]; [done..|apply Hi|by apply (held_grows approved k Hi)|by apply next_grows].
Qed.

(** What a walk that is over has done. *)
Record walked (approved : gset string) (x : string) (k k' : Walk) (s s' : WfState) : Prop := Walked {
  wd_inv : walk_inv approved k';
  wd_grows : grows (wk_results k) (wk_results k');
  wd_true : ancestral -> true_answers (wk_results k) -> true_answers (wk_results k');
  wd_called : exists ns, called x ns s s' /\ NoDup ns /\
    forall n, n ∈ ns -> ~ executed (wk_results k) n /\ executed (wk_results k') n
}.

Lemma walked_refl approved x k s : walk_inv approved k -> walked approved x k k s s.
Proof.
  intros Hi. split; [done..|]. exists []. split_and!; [apply called_refl|constructor|by intros n ?%elem_of_nil].
Qed.

Lemma walked_next approved x k wave k' s s1 s' :
  walk_inv approved k ->
  let ready := ready_nodes w (wk_done k) (wk_results k) (wk_remaining k) in
  let runnable := List.filter (fun n => negb (stops approved n)) ready in
  wave_ok (await_all (List.filter (stops approved) ready) (wk_results k)) runnable wave ->
  called x runnable s s1 ->
  walked approved x (next_walk approved k wave) k' s1 s' -> walked approved x k k' s s'.
Proof.
  intros Hi ready runnable Hw Hc [Hi' Hg Ht (ns & Hc' & Hnd & Hns)].
  pose proof (next_grows approved k wave Hi) as Hg1. split; [done|by etrans| |].
  - intros Ha Hta. apply Ht; [done|]. by apply next_true.
  - exists (runnable ++ ns). split_and!; [by eapply called_app| |].
    + apply NoDup_app. split_and!; [by eapply NoDup_List_filter, NoDup_ready| |done]. intros n Hn Hn'.
      apply (Hns n Hn'). apply next_executed; [done..|]. by right.
    + intros n [Hn|Hn]%elem_of_app.
      * split; [|eapply executed_grows; [done|]; apply next_executed; [done..|by right]].
        apply elem_List_filter in Hn as [Hn _]. by apply (ready_fresh approved k Hi).
      * destruct (Hns n Hn) as [Hne He]. split; [|done]. intros Hex. apply Hne. by eapply executed_grows.
Qed.

Lemma wp_run_loop fuel x approved k s :
  encodable -> walk_inv approved k -> (size (wk_remaining k) <= fuel)%nat ->
  wp (run_loop registered answer fuel w x approved k)
     (fun k' s' => walked approved x k k' s s' /\ forall n, n ∈ wk_remaining k' -> ~ reached w (wk_results k') n) s.
Proof.
  intros Henc. revert k s. induction fuel as [|fuel IH]; intros k s Hi Hf; cbn [run_loop].
  - case_decide as Hr; [|exfalso; apply Hr, leibniz_equiv, size_empty_inv; lia].
    apply wp_ret. split; [by apply walked_refl|]. rewrite Hr. set_solver.
  - case_decide as Hr; [apply wp_ret; split; [by apply walked_refl|]; rewrite Hr; set_solver|].
    set (ready := ready_nodes w (wk_done k) (wk_results k) (wk_remaining k)).
    destruct ready as [|n0 ready0] eqn:Hready.
    { apply wp_ret. split; [by apply walked_refl|]. intros n Hn Hp.
      assert (n ∈ ready) as Hin by (by apply (elem_wf_ready approved)). rewrite Hready in Hin. by apply elem_of_nil in Hin. }
    rewrite <- Hready. assert (Hsub : forall n, n ∈ ready -> n ∈ wf_ids w) by (intros n Hn; by apply (ready_fresh approved k Hi)).
    apply wp_bind. rewrite triage_spec by done. unfold lift, wp at 1. cbn [fst snd wk_results].
    apply wp_bind. eapply wp_mono; [apply wp_execute_wave; [done|]|].
    { intros n [Hn _]%elem_List_filter. by apply Hsub. }
    intros wave s1 [Hc Hw]. rewrite app_nil_l in *. apply wp_bind. rewrite write_back_spec.
    2:{ intros n Hn. destruct (wave_answer approved k wave Hw n Hn) as (r & -> & _). done. }
    unfold lift, wp at 1. cbn [wk_done wk_results wk_remaining wk_pending].
    eapply wp_mono; [apply (IH (next_walk approved k wave)); [by apply next_walk_inv|]|].
    + cbn [next_walk wk_remaining]. fold ready.
      assert (Hlt : (size (wk_remaining k ∖ list_to_set ready) < size (wk_remaining k))%nat); [|lia].
      apply subset_size. split; [set_solver|]. intros Hss.
      assert (Hn0 : n0 ∈ ready) by (rewrite Hready; set_solver).
      apply (elem_wf_ready approved k n0 Hi) in Hn0 as Hn0'. destruct Hn0' as [Hrem _]. apply Hss in Hrem. set_solver.
    + intros k' s' [Hwd Hlast]. split; [|done]. by eapply walked_next.
Qed.

(** ** The end of a run *)

Lemma elem_executed_ids R n : dict_wf R -> n ∈ executed_ids R <-> executed R n.
Proof.
  intros Hwf. unfold executed_ids, executed. rewrite elem_of_list_to_set, list_elem_of_fmap.
  setoid_rewrite elem_List_filter. split.
  - intros ([m r] & -> & Hin & He). exists r. split; [by apply dget_elem|done].
  - intros (r & Hr%dget_Some_elem & He). by exists (n, r).
Qed.

(** What a run may start from. *)
Record startable (approved : gset string) (R : pydict NodeResult) : Prop := Startable {
  sa_wf : dict_wf R;
  sa_keys : forall n, n ∈ dkeys R -> n ∈ wf_ids w;
  sa_sound : sound w approved R
}.

Definition first_walk (R : pydict NodeResult) : Walk :=
  mkWalk (executed_ids R) R (list_to_set (wf_ids w) ∖ executed_ids R) [].

Lemma first_walk_inv approved R : startable approved R -> walk_inv approved (first_walk R).
Proof.
  intros [Hwf Hk Hs]. split; cbn [first_walk wk_results wk_done wk_remaining wk_pending]; [done|done| | | |constructor|done].
  - intros n. by apply elem_executed_ids.
  - intros n. rewrite elem_of_difference, elem_of_list_to_set, elem_executed_ids by done. set_solver.
  - by intros n ?%elem_of_nil.
Qed.

Definition finish (k : Walk) : pydict NodeResult := fold_left skip (iter_set (wk_remaining k)) (wk_results k).

Lemma dget_finish k n :
  dget (finish k) n = if decide (n ∈ wk_remaining k) then Some (skipped n) else dget (wk_results k) n.
Proof.
  unfold finish. change skip with (fun (R : pydict NodeResult) m => dset R m (skipped m)). rewrite dget_fold.
  repeat case_decide; rewrite ?elem_iter_set in *; naive_solver.
Qed.

Section finish.
Variables (approved : gset string) (k : Walk).
Hypothesis Hi : walk_inv approved k.
Hypothesis Hlast : forall n, n ∈ wk_remaining k -> ~ reached w (wk_results k) n.

Lemma finish_grows : grows (wk_results k) (finish k) /\ grows (finish k) (wk_results k).
Proof.
  split; intros n r; rewrite dget_finish; case_decide as Hn; [|done| |done].
  - intros Hr He. apply (vi_remaining _ _ Hi) in Hn as (_ & Hn & _). destruct Hn. by exists r.
  - by intros [= <-].
Qed.

Lemma finish_reached n : reached w (finish k) n <-> reached w (wk_results k) n.
Proof. apply reached_same; apply finish_grows. Qed.

Lemma finish_cases node :
  node ∈ wd_nodes w -> executed (wk_results k) (wn_id node) \/ wn_id node ∈ wk_pending k \/ wn_id node ∈ wk_remaining k.
Proof.
  intros Hn. destruct (decide (executed (wk_results k) (wn_id node))) as [|He]; [by left|right].
  destruct (decide (wn_id node ∈ wk_pending k)) as [|Hp]; [by left|right]. apply (vi_remaining _ _ Hi).
  split_and!; [by apply list_elem_of_fmap_2|done..].
Qed.

Lemma finish_settled : settled w approved (finish k).
Proof.
  assert (Hpend : forall node, node ∈ wd_nodes w -> wn_id node ∈ wk_pending k ->
    reached w (wk_results k) (wn_id node) /\ closed_gate approved node = true /\
    dget (finish k) (wn_id node) = Some (awaiting (wn_id node))).
  { intros node Hn Hp. destruct (vi_pending _ _ Hi _ Hp) as (_ & Hr & Hs & Hd). rewrite stops_node in Hs by done.
    split_and!; [done..|]. rewrite dget_finish, decide_False; [done|]. rewrite (vi_remaining _ _ Hi). naive_solver. }
  split.
  - unfold finish. change skip with (fun (R : pydict NodeResult) m => dset R m (skipped m)). apply dict_wf_fold, Hi.
  - intros n. split.
    + rewrite <- dget_is_Some, dget_finish. case_decide as Hn; [intros _; by apply (vi_remaining _ _ Hi)|].
      intros ?%dget_is_Some. by apply (vi_keys _ _ Hi).
    + intros (node & -> & Hn)%list_elem_of_fmap. rewrite <- dget_is_Some.
      destruct (finish_cases node Hn) as [(r & Hr & He)|[Hp|Hr]].
      * rewrite (proj1 finish_grows _ r); done.
      * by rewrite (proj2 (proj2 (Hpend node Hn Hp))).
      * rewrite dget_finish, decide_True by done. done.
  - intros node Hn Hr%finish_reached Hc. destruct (finish_cases node Hn) as [He|[Hp|Hrem]].
    + eapply executed_grows; [apply finish_grows|done].
    + destruct (Hpend node Hn Hp) as (_ & Hc' & _). congruence.
    + by destruct (Hlast _ Hrem).
  - intros node Hn Hr%finish_reached Hc. destruct (finish_cases node Hn) as [He|[Hp|Hrem]].
    + destruct (vi_sound _ _ Hi node Hn He) as [_ Hc']. congruence.
    + by destruct (Hpend node Hn Hp) as (_ & _ & ?).
    + by destruct (Hlast _ Hrem).
  - intros node Hn Hr. rewrite finish_reached in Hr. destruct (finish_cases node Hn) as [He|[Hp|Hrem]].
    + destruct (vi_sound _ _ Hi node Hn He) as [? _]. done.
    + by destruct (Hpend node Hn Hp) as (? & _).
    + by rewrite dget_finish, decide_True.
Qed.

Lemma finish_pending n : n ∈ wk_pending k <-> dget (finish k) n = Some (awaiting n).
Proof.
  rewrite dget_finish. split.
  - intros Hp. destruct (vi_pending _ _ Hi _ Hp) as (_ & _ & _ & Hd). rewrite decide_False; [done|].
    rewrite (vi_remaining _ _ Hi). naive_solver.
  - case_decide as Hn; [done|]. intros Hd. assert (Hid : n ∈ wf_ids w) by (apply (vi_keys _ _ Hi), dget_is_Some; eauto).
    rewrite (vi_remaining _ _ Hi) in Hn. destruct (decide (n ∈ wk_pending k)) as [|Hp]; [done|]. destruct Hn.
    split_and!; [done| |done]. by eapply not_executed.
Qed.
End finish.

Definition has_status (R : pydict NodeResult) (st : StepStatus.t) : Prop :=
  exists n r, dget R n = Some r /\ nr_status r = st.

(** The status of a run, told from the results. *)
Definition status_exact (R : pydict NodeResult) (st : WorkflowStatus.t) : Prop :=
  match st with
  | WorkflowStatus.AWAITING_VALIDATION => has_status R StepStatus.AWAITING_VALIDATION
  | _ => ~ has_status R StepStatus.AWAITING_VALIDATION /\
      match st with
      | WorkflowStatus.PARTIALLY_SUCCESSFUL => has_status R StepStatus.FAILED /\ has_status R StepStatus.SUCCESS
      | WorkflowStatus.FAILED => has_status R StepStatus.FAILED /\ ~ has_status R StepStatus.SUCCESS
      | _ => ~ has_status R StepStatus.FAILED
      end
  end.

Lemma elem_statuses R st : dict_wf R -> st ∈ map nr_status (dvalues R) <-> has_status R st.
Proof.
  intros Hwf. unfold dvalues, has_status. rewrite map_map, list_elem_of_fmap. split.
  - intros ([n r] & -> & Hin). exists n, r. split; [by apply dget_elem|done].
  - intros (n & r & Hr%dget_Some_elem & <-). by exists (n, r).
Qed.

Lemma overall_status_exact R pending :
  dict_wf R -> (pending <> [] <-> has_status R StepStatus.AWAITING_VALIDATION) -> status_exact R (overall_status R pending).
Proof.
  intros Hwf Hp. unfold overall_status. destruct pending as [|p ps]; [|by apply Hp].
  assert (Hna : ~ has_status R StepStatus.AWAITING_VALIDATION) by (by intros Ha%Hp).
  pose proof (fun st => elem_statuses R st Hwf) as Hst. destruct (forallb _ _) eqn:Hall.
  - split; [done|]. intros Hf%Hst. rewrite list_elem_of_In in Hf. rewrite forallb_forall in Hall.
    specialize (Hall _ Hf). by apply bool_decide_eq_true in Hall; const_absurd Hall.
  - assert (Hfail : has_status R StepStatus.FAILED).
    { apply not_true_iff_false in Hall. destruct (decide (StepStatus.FAILED ∈ map nr_status (dvalues R))) as [|Hn]; [by apply Hst|].
      exfalso. apply Hall, forallb_forall. intros [] Hin%list_elem_of_In; try reflexivity; [done|].
      by apply Hst in Hin. }
    case_bool_decide as Hs; rewrite Hst in Hs; by split_and!.
Qed.

(** ** A run *)

(** What a run of [x] from the results [R0] has done when it answers [r]. *)
Record ran (approved : gset string) (x : string) (R0 : pydict NodeResult) (r : WorkflowRun) (s s' : WfState) : Prop := Ran {
  rn_id : wr_id r = x;
  rn_settled : settled w approved (wr_results r);
  rn_grows : grows R0 (wr_results r);
  rn_pending : NoDup (wr_pending r) /\
    forall n, n ∈ wr_pending r <-> dget (wr_results r) n = Some (awaiting n);
  rn_status : status_exact (wr_results r) (wr_status r);
  rn_true : ancestral -> true_answers R0 -> true_answers (wr_results r);
  rn_row : exists row, ws_rows s' = dset (ws_rows s) x row /\ rr_results row = wr_results r /\
    list_to_set (rr_approved row) =@{gset string} approved /\ get_run x s' = Some r;
  rn_called : ws_uuids s' = ws_uuids s /\ exists cs, ws_calls s' = ws_calls s ++ cs /\
    (forall c, c ∈ cs -> tc_run c = x) /\ NoDup (map tc_node cs) /\
    forall c, c ∈ cs -> ~ executed R0 (tc_node c) /\ executed (wr_results r) (tc_node c)
}.

Lemma pending_status approved k :
  walk_inv approved k -> (forall n, n ∈ wk_remaining k -> ~ reached w (wk_results k) n) ->
  wk_pending k <> [] <-> has_status (finish k) StepStatus.AWAITING_VALIDATION.
Proof.
  intros Hi Hl. pose proof (finish_settled approved k Hi Hl) as Hs. split.
  - intros Hne. destruct (wk_pending k) as [|n ps] eqn:Hp; [done|]. exists n, (awaiting n). split; [|done].
    apply (finish_pending approved k Hi). rewrite Hp. apply elem_of_cons. by left.
  - intros (n & r & Hr & Hst) Hnil. assert (Hid : n ∈ wf_ids w) by (apply (se_keys _ _ _ Hs), dget_is_Some; eauto).
    apply list_elem_of_fmap in Hid as (node & -> & Hn). destruct (decide (reached w (finish k) (wn_id node))) as [Hre|Hre].
    + destruct (closed_gate approved node) eqn:Hc.
      * apply (se_awaiting _ _ _ Hs node Hn Hre), (finish_pending approved k Hi) in Hc. rewrite Hnil in Hc. by apply elem_of_nil in Hc.
      * destruct (se_executed _ _ _ Hs node Hn Hre Hc) as (r' & Hr' & He). rewrite Hr in Hr'. injection Hr' as <-.
        unfold is_executed in He. rewrite Hst in He. done.
    + rewrite (se_skipped _ _ _ Hs node Hn Hre) in Hr. by injection Hr as <-.
Qed.

Lemma wp_run_from approved x R0 s :
  encodable -> startable approved R0 ->
  wp (run_from registered answer clock w x R0 approved) (fun r s' => ran approved x R0 r s s') s.
Proof.
  intros Henc Hst. unfold run_from. apply wp_bind. eapply wp_mono.
  { apply (wp_run_loop _ x approved (first_walk R0) s Henc (first_walk_inv _ _ Hst)). cbn [first_walk wk_remaining].
    etrans; [apply subseteq_size, subseteq_difference_l; reflexivity|].
    rewrite size_list_to_set by apply Hv. unfold wf_ids. by rewrite length_map. }
  intros k s1 [[Hi Hg Ht (ns & (Hrows & Hu & Hrd & cs & Hcs & Hx & Hsub) & Hnd & Hns)] Hlast]. cbv zeta.
  pose proof (finish_settled approved k Hi Hlast) as Hset. pose proof (finish_grows approved k Hi) as [Hg1 Hg2].
  change (fold_left skip (iter_set (wk_remaining k)) (wk_results k)) with (finish k).
  apply wp_bind. unfold wp at 1, save_run. apply wp_ret. cbn [wr_id wr_results wr_pending wr_status ws_rows ws_calls ws_uuids].
  split; cbn [wr_id wr_results wr_pending wr_status ws_rows ws_calls ws_uuids].
  - done.
  - done.
  - by transitivity (wk_results k).
  - split; [apply Hi|]. intros n. by apply (finish_pending approved).
  - apply overall_status_exact; [apply Hset|by eapply pending_status].
  - intros Ha Hta. specialize (Ht Ha Hta). intros node Hn He.
    assert (He' : executed (wk_results k) (wn_id node)) by (by eapply executed_grows).
    destruct (Ht node Hn He') as [i Hd]. exists i. rewrite (Hg1 _ _ Hd (outcome_executed _ _ _)). f_equal.
    apply outcome_agree. destruct (vi_sound _ _ Hi node Hn He') as [Hr _]. by eapply ancestors_agree; [..|apply Hi|exact Hr| |].
  - eexists. rewrite Hrows. split; [done|]. cbn [rr_results rr_approved]. split_and!; [done| |].
    + apply set_eq. intros n. by rewrite elem_of_list_to_set, elem_sorted_ids.
    + unfold get_run. cbn [ws_rows]. by rewrite dget_dset_eq.
  - split; [done|]. exists cs. split_and!; [done..|by eapply sublist_NoDup|]. intros c Hc.
    assert (Hin : tc_node c ∈ ns) by (eapply elem_of_sublist; [by apply list_elem_of_fmap_2|done]).
    destruct (Hns _ Hin) as [? He]. split; [done|]. by eapply executed_grows.
Qed.

(** ** Histories of runs

    [own] tells with which workflow each run was begun. *)

Definition empty_state : WfState := mkWfState [] [] [] 0 0.

(** What the record of a run holds before it is resumed. *)
Definition stored (s : WfState) (run_id : option string) : pydict NodeResult * gset string :=
  match run_id with
  | Some x => match dget (ws_rows s) x with
              | Some row => (rr_results row, list_to_set (rr_approved row))
              | None => ([], ∅)
              end
  | None => ([], ∅)
  end.

(** What was begun after a call: a call without an id begins a run. *)
Definition begun (v : WorkflowDefinition) (run_id : option string) (own : pydict WorkflowDefinition) (s : WfState)
    : pydict WorkflowDefinition :=
  match run_id with Some _ => own | None => dset own (uuid4 (ws_uuids s)) v end.

(** A run is resumed with the workflow it was begun with. *)
Definition resumes_own (v : WorkflowDefinition) (run_id : option string) (own : pydict WorkflowDefinition) : Prop :=
  match run_id with Some x => forall u, dget own x = Some u -> u = v | None => True end.

Record hist_inv (own : pydict WorkflowDefinition) (s : WfState) : Prop := HistInv {
  hi_rows : forall x row, dget (ws_rows s) x = Some row ->
    exists v, dget own x = Some v /\ settled v (list_to_set (rr_approved row)) (rr_results row);
  hi_ids : forall x, x ∈ dkeys (ws_rows s) -> exists i, (i < ws_uuids s)%nat /\ x = uuid4 i;
  hi_calls : forall c, c ∈ ws_calls s ->
    exists row, dget (ws_rows s) (tc_run c) = Some row /\ executed (rr_results row) (tc_node c);
  hi_once : NoDup (map (fun c => (tc_run c, tc_node c)) (ws_calls s))
}.

Lemma settled_startable A R : settled w A R -> startable A R.
Proof. intros Hs. split; [apply Hs|intros n; apply Hs|by apply settled_sound]. Qed.

Lemma startable_approved A B R : A ⊆ B -> startable A R -> startable B R.
Proof. intros HAB [? ? Hs]. split; [done..|]. by eapply sound_approved. Qed.

Lemma nil_startable A : startable A [].
Proof.
  split; [constructor|by intros n ?%elem_of_nil|]. intros node _ (r & Hr & _). done.
Qed.

(** Either the record does not exist, or the run answers. *)
Lemma run_cases own run_id newly s :
  encodable -> hist_inv own s -> resumes_own w run_id own ->
  let R0 := (stored s run_id).1 in
  let approved := (stored s run_id).2 ∪ newly in
  (exists x, run_id = Some x /\ dget (ws_rows s) x = None /\
     exists m, run registered answer clock uuid4 w run_id newly s = (Err (Exn WorkflowExecutionError [m]), s)) \/
  exists r s0 s' x, run registered answer clock uuid4 w run_id newly s = (Ok r, s') /\ ran approved x R0 r s0 s' /\
    ws_rows s0 = ws_rows s /\ ws_calls s0 = ws_calls s /\
    match run_id with
    | Some y => x = y /\ s0 = s /\ y ∈ dkeys (ws_rows s)
    | None => x = uuid4 (ws_uuids s) /\ ws_uuids s0 = S (ws_uuids s)
    end.
Proof.
  intros Henc Hi Hown R0 approved. unfold run, open_run. destruct run_id as [x|]; cbn [stored] in *.
  - destruct (dget (ws_rows s) x) as [row|] eqn:Hrow; cbn [fst snd] in *.
    + right. assert (Hst : startable approved R0).
      { destruct (hi_rows _ _ Hi _ _ Hrow) as (v & Hv' & Hset). rewrite (Hown _ Hv') in Hset.
        eapply startable_approved; [|apply settled_startable, Hset]. unfold approved. set_solver. }
      pose proof (wp_run_from approved x R0 s Henc Hst) as Hw. apply wp_ok in Hw as (r & s' & Hrun & Hran). exists r, s, s', x.
      unfold bind at 1, bind at 1, get. rewrite Hrow. unfold ret at 1. cbn [fst snd]. split; [exact Hrun|].
      split_and!; [done..|]. apply dget_is_Some. by rewrite Hrow.
    + left. exists x. split_and!; [done..|]. unfold bind, get, raise. rewrite Hrow. by eexists.
  - right. set (s0 := mkWfState (ws_rows s) (ws_bus s) (ws_calls s) (ws_reads s) (S (ws_uuids s))).
    pose proof (wp_run_from approved (uuid4 (ws_uuids s)) R0 s0 Henc (nil_startable _)) as Hw.
    apply wp_ok in Hw as (r & s' & Hrun & Hran). exists r, s0, s', (uuid4 (ws_uuids s)).
    assert (Happ : approved = newly) by (unfold approved; set_solver). rewrite Happ in Hrun.
    split; [exact Hrun|]. by split_and!.
Qed.

(** ** The solution is unique *)

Definition stable_tools : Prop := forall i j action params, answer i action params = answer j action params.

Lemma outcome_stable i j node R : stable_tools -> outcome i node R = outcome j node R.
Proof. intros Hs. unfold outcome. destruct (lookup_tool _ _ _) as [params|]; [|done]. by rewrite (Hs i j). Qed.

Lemma reached_agree R R' n :
  (forall m, (m, n) ∈ wf_edge_pairs w -> dget R m = dget R' m) -> reached w R n -> reached w R' n.
Proof.
  intros Hm [Hp Hs]. assert (He : forall e, e ∈ incoming_edges w n -> dget R (we_from e) = dget R' (we_from e)).
  { intros e [He <-]%elem_incoming. apply Hm, elem_wf_pairs. eauto. }
  split; [intros e Hin; unfold executed; rewrite <- (He e Hin); by apply Hp|].
  destruct Hs as [?|(e & Hin & Hse)]; [by left|right]. exists e. split; [done|].
  unfold edge_satisfied in *. by rewrite <- (He e Hin).
Qed.

Lemma settled_unique A R R' :
  stable_tools -> ancestral -> settled w A R -> settled w A R' -> true_answers R -> true_answers R' ->
  forall n, n ∈ wf_ids w -> dget R n = dget R' n.
Proof.
  intros Hst Hanc Hs Hs' Ht Ht'.
  enough (forall n, n ∈ wf_ids w -> forall m, rtc (edge_rel (wf_edge_pairs w)) m n -> dget R m = dget R' m) as Hall
    by (intros n Hn; by apply (Hall n)).
  apply (acyclic_ind (wf_ids w) (wf_edge_pairs w) (fun n => forall m, rtc (edge_rel (wf_edge_pairs w)) m n -> dget R m = dget R' m)
    (wv_closed _ Hv) (wv_acyclic _ Hv)). intros n Hn IH m [->|(s & Hms & Hsn)]%rtc_inv_r; [|by apply (IH s)].
  assert (Hpred : forall m, (m, n) ∈ wf_edge_pairs w -> dget R m = dget R' m) by (intros m Hm; by apply (IH m)).
  apply list_elem_of_fmap in Hn as (node & -> & Hin).
  assert (Hiff : reached w R (wn_id node) <-> reached w R' (wn_id node)).
  { split; apply reached_agree; [done|]. intros m Hm. by rewrite Hpred. }
  destruct (decide (reached w R (wn_id node))) as [Hr|Hr].
  - destruct (closed_gate A node) eqn:Hc.
    + rewrite (se_awaiting _ _ _ Hs node Hin Hr Hc). symmetry. apply (se_awaiting _ _ _ Hs'); [done|by apply Hiff|done].
    + destruct (Ht node Hin (se_executed _ _ _ Hs node Hin Hr Hc)) as [i ->].
      destruct (Ht' node Hin) as [j ->]; [apply (se_executed _ _ _ Hs'); [done|by apply Hiff|done]|].
      rewrite (outcome_stable i j) by done. f_equal. apply outcome_agree. intros p m Hp Href.
      apply (Hanc node p m Hin Hp) in Href. apply tc_rtc in Href as Hm.
      apply rtc_inv_r in Hm as [->|(s & Hms & Hsn)]; [|by apply (IH s)]. exfalso. by apply (wv_acyclic _ Hv (wn_id node)).
  - rewrite (se_skipped _ _ _ Hs node Hin Hr). symmetry. apply (se_skipped _ _ _ Hs'); [done|]. by rewrite <- Hiff.
Qed.

Lemma has_status_agree R R' st :
  (forall n, dget R n = dget R' n) -> has_status R st <-> has_status R' st.
Proof. intros Hd. unfold has_status. by setoid_rewrite Hd. Qed.

Lemma status_exact_unique R R' st st' :
  (forall n, dget R n = dget R' n) -> status_exact R st -> status_exact R' st' -> st = st'.
Proof.
  intros Hd. pose proof (fun st => has_status_agree R R' st Hd) as Hi.
  destruct st, st'; cbn; rewrite !Hi; intuition congruence.
Qed.

(** ** Properties *)

(** C15: resuming.  When the tools are functions of their parameters and the nodes
    refer to their ancestors only, a run with [A] resumed with [B] ends with the
    results and the status of one run with both. *)
Theorem resume_equivalent A B s :
  encodable -> stable_tools -> ancestral ->
  exists r1 s1 r2 s2 r3 s3,
    run registered answer clock uuid4 w None A s = (Ok r1, s1) /\
    run registered answer clock uuid4 w (Some (wr_id r1)) B s1 = (Ok r2, s2) /\
    run registered answer clock uuid4 w None (A ∪ B) s2 = (Ok r3, s3) /\
    (forall n, dget (wr_results r2) n = dget (wr_results r3) n) /\ wr_status r2 = wr_status r3.
Proof.
  intros Henc Hst Hanc.
  assert (Hfresh : forall A s, exists r s0 s', run registered answer clock uuid4 w None A s = (Ok r, s') /\
    ran A (uuid4 (ws_uuids s)) [] r s0 s').
  { intros A' s'. destruct (wp_ok _ _ _ (wp_run_from A' (uuid4 (ws_uuids s')) []
      (mkWfState (ws_rows s') (ws_bus s') (ws_calls s') (ws_reads s') (S (ws_uuids s'))) Henc (nil_startable _)))
      as (r & s'' & Hrun & Hran). by exists r, (mkWfState (ws_rows s') (ws_bus s') (ws_calls s') (ws_reads s') (S (ws_uuids s'))), s''. }
  assert (Hnil : true_answers []) by (intros node _ (r & Hr & _); done).
  destruct (Hfresh A s) as (r1 & s0 & s1 & Hrun1 & [Hid1 Hset1 _ _ _ Ht1 (row & Hrows & Hres & Happ & _) _]).
  assert (Hstart : startable (A ∪ B) (wr_results r1)).
  { eapply startable_approved; [|by apply settled_startable]. set_solver. }
  destruct (wp_ok _ _ _ (wp_run_from (A ∪ B) (wr_id r1) (wr_results r1) s1 Henc Hstart)) as (r2 & s2 & Hrun2 & Hran2).
  destruct Hran2 as [_ Hset2 _ _ Hst2 Ht2 _ _].
  destruct (Hfresh (A ∪ B) s2) as (r3 & s0' & s3 & Hrun3 & [_ Hset3 _ _ Hst3 Ht3 _ _]).
  assert (Hall : forall n, dget (wr_results r2) n = dget (wr_results r3) n).
  { intros n. destruct (decide (n ∈ wf_ids w)) as [Hn|Hn].
    - eapply settled_unique; [done|done|exact Hset2|exact Hset3|by apply Ht2, Ht1|by apply Ht3|done].
    - rewrite !(proj2 (dget_None _ _)); [done|..]; by rewrite ?(se_keys _ _ _ Hset2), ?(se_keys _ _ _ Hset3). }
  exists r1, s1, r2, s2, r3, s3. split_and!; [done| |done|done|by eapply status_exact_unique].
  unfold run, open_run, bind at 1, bind at 1, get. rewrite Hrows, Hid1, dget_dset_eq. unfold ret at 1. cbn [fst snd].
  rewrite Hres, Happ, <- Hid1. exact Hrun2.
Qed.
Section distinct_ids.
Hypothesis Huuid : forall i j, uuid4 i = uuid4 j -> i = j.

Lemma run_hist own run_id newly s :
  encodable -> hist_inv own s -> resumes_own w run_id own ->
  hist_inv (begun w run_id own s) (run registered answer clock uuid4 w run_id newly s).2.
Proof.
  intros Henc Hi Hown. destruct (run_cases own run_id newly s Henc Hi Hown) as
    [(x & -> & _ & m & ->)|(r & s0 & s' & x & -> & Hran & Hrows & Hcalls & Hid)]; [done|]. cbn [snd].
  destruct Hran as [_ Hset Hg _ _ _ (row & Hrow & Hres & Happ & _) (Hu & cs & Hcs & Hrun & Hnd & Hex)].
  rewrite Hrows in Hrow. rewrite Hcalls in Hcs.
  assert (Hold : forall row0, dget (ws_rows s) x = Some row0 -> rr_results row0 = (stored s run_id).1).
  { intros row0 Hr0. destruct run_id as [y|]; [destruct Hid as (-> & _); cbn; by rewrite Hr0|].
    destruct Hid as [-> _]. destruct (hi_ids _ _ Hi (uuid4 (ws_uuids s))) as (i & Hlt & Heq%Huuid); [by apply dget_is_Some; eauto|lia]. }
  split.
  - intros y row'. rewrite Hrow, dget_dset. case_decide as Heq.
    + intros [= <-]. rewrite Hres, Happ. exists w. split; [|done]. subst y. destruct run_id as [z|]; cbn [begun].
      * destruct Hid as (-> & _ & Hin). apply dget_is_Some in Hin as [row0 Hr0].
        destruct (hi_rows _ _ Hi _ _ Hr0) as (v & Hv' & _). by rewrite Hv', (Hown _ Hv').
      * destruct Hid as [-> _]. apply dget_dset_eq.
    + intros Hr0. destruct (hi_rows _ _ Hi _ _ Hr0) as (v & Hv' & Hset'). exists v. split; [|done].
      destruct run_id as [z|]; cbn [begun]; [done|]. destruct Hid as [-> _]. by rewrite dget_dset_ne.
  - intros y. rewrite Hrow, elem_dkeys_dset, Hu. destruct run_id as [z|].
    + destruct Hid as (-> & -> & Hin). intros [->|Hy]; by apply Hi.
    + destruct Hid as [-> ->]. intros [->|Hy]; [exists (ws_uuids s); split; [lia|done]|].
      destruct (hi_ids _ _ Hi _ Hy) as (i & Hlt & ->). exists i. split; [lia|done].
  - intros c. rewrite Hcs, Hrow. setoid_rewrite dget_dset. intros [Hc|Hc]%elem_of_app.
    + destruct (hi_calls _ _ Hi c Hc) as (row0 & Hr0 & He). case_decide as Heq; [|by exists row0]. subst x. exists row.
      split; [done|]. rewrite Hres. eapply executed_grows; [exact Hg|]. by rewrite <- (Hold _ Hr0).
    + rewrite decide_True by (symmetry; by apply Hrun). exists row. split; [done|]. rewrite Hres. by apply Hex.
  - rewrite Hcs, map_app. apply NoDup_app. split_and!; [apply Hi| |].
    + intros p (c & -> & Hc)%list_elem_of_fmap (c' & Heq & Hc')%list_elem_of_fmap. injection Heq as Heq1 Heq2.
      destruct (hi_calls _ _ Hi c Hc) as (row0 & Hr0 & He). destruct (Hex c' Hc') as [Hn _]. apply Hn.
      rewrite <- Heq2, <- (Hold row0); [done|]. by rewrite <- (Hrun _ Hc'), <- Heq1.
    + assert (Hmap : map (fun c => (tc_run c, tc_node c)) cs = map (fun n => (x, n)) (map tc_node cs)).
      { rewrite map_map. apply map_ext_in. intros c Hc. by rewrite (Hrun c) by by apply list_elem_of_In. }
      rewrite Hmap. apply NoDup_fmap_2; [|done]. by intros n n' [= ->].
Qed.
End distinct_ids.
End answers.
End graph.

(** ** Any number of workflows *)

Section histories.
Context `{!SetOrder}.
Variable registered : string -> bool.
Variable answer : nat -> string -> pydict pyval -> tool_answer.
Variable clock : nat -> Z.
Variable uuid4 : nat -> string.
Hypothesis Huuid : forall i j, uuid4 i = uuid4 j -> i = j.

(** The states that runs of valid workflows reach, each run resumed with the
    workflow it was begun with. *)
Inductive runs : pydict WorkflowDefinition -> WfState -> Prop :=
  | runs_none : runs [] empty_state
  | runs_one own s v run_id newly :
      runs own s -> wf_valid v -> resumes_own v run_id own ->
      runs (begun uuid4 v run_id own s) (run registered answer clock uuid4 v run_id newly s).2.

Lemma runs_hist own s : encodable answer -> runs own s -> hist_inv uuid4 own s.
Proof.
  intros Henc. induction 1 as [|own s v run_id newly _ IH Hv Hown]; [|by apply run_hist].
  split; [done|by intros x ?%elem_of_nil|by intros c ?%elem_of_nil|constructor].
Qed.

(** C14: A run.  In any state that runs of valid workflows reach, each resumed
    with the workflow it was begun with, a run of a valid workflow, new or
    resumed with its own workflow, answers, unless it resumes a record that does
    not exist; provided that the tools answer JSON values and no id is given
    twice.  Its results are the settled ones for all that has been approved: a
    node is executed when its predecessors are executed, one of its edges is
    satisfied and its gate is open, waits when only the gate is closed, and is
    skipped otherwise.  What was executed before keeps its result; the pending
    nodes are those that wait; the status says what the results say; and the run
    is recorded.  [demo_other_workflow] and [demo_lone_raises] show the two
    cases that are left out. *)
Theorem run_outcome w own s run_id newly :
  encodable answer -> runs own s -> wf_valid w -> resumes_own w run_id own ->
  let approved := (stored s run_id).2 ∪ newly in
  (exists x, run_id = Some x /\ dget (ws_rows s) x = None /\
    exists m, run registered answer clock uuid4 w run_id newly s = (Err (Exn WorkflowExecutionError [m]), s)) \/
  exists r s', run registered answer clock uuid4 w run_id newly s = (Ok r, s') /\
    settled w approved (wr_results r) /\ grows (stored s run_id).1 (wr_results r) /\
    (forall n, n ∈ wr_pending r <-> dget (wr_results r) n = Some (awaiting n)) /\
    status_exact (wr_results r) (wr_status r) /\ get_run (wr_id r) s' = Some r.
Proof.
  intros Henc Hs Hv Hown approved.
  destruct (run_cases w Hv registered answer clock uuid4 own run_id newly s Henc (runs_hist _ _ Henc Hs) Hown)
    as [?|(r & s0 & s' & x & Hrun & Hran & _)]; [by left|right].
  exists r, s'. destruct Hran as [Hid Hset Hg [_ Hp] Hst _ (row & _ & _ & _ & Hget) _]. rewrite Hid. by split_and!.
Qed.

(** No repetition.  However often runs are begun and resumed, no tool is called
    twice for one node of one run. *)
Theorem called_once own s :
  encodable answer -> runs own s -> NoDup (map (fun c => (tc_run c, tc_node c)) (ws_calls s)).
Proof. intros Henc Hs. by eapply hi_once, runs_hist. Qed.
End histories.

(** ** Examples *)

Definition demo_answer (i : nat) (action : string) (params : pydict pyval) : tool_answer :=
  if bool_decide (action = "research") then Value (PDict [("text", PStr "found")])
  else if bool_decide (action = "break") then Raised "broken" else Value (PBool true).

Definition demo_registered (action : string) : bool :=
  bool_decide (action ∈ ["research"; "verify"; "break"; "open"]).

(** A tool of the name "open" answers an object that is not JSON. *)
Definition demo_opaque (i : nat) (action : string) (params : pydict pyval) : tool_answer :=
  if bool_decide (action = "open") then Object "file" else demo_answer i action params.

Abbreviation demo_run ans w run_id newly s :=
  (run demo_registered ans (fun i => Z.of_nat i) pretty w run_id newly s).

Definition statuses (r : WorkflowRun) : list (string * string) :=
  map (fun p => (p.1, StepStatus.value (nr_status p.2))) (wr_results r).

Definition demo_told (o : res WorkflowRun * WfState) : option (string * list (string * string)) :=
  match o.1 with Ok r => Some (WorkflowStatus.value (wr_status r), statuses r) | Err _ => None end.

(** The join of two branches that exclude each other is never executed: the
    skipped branch is not done.  The run is nevertheless completed. *)
Example demo_join_skipped :
  demo_told (demo_run demo_answer demo_wf None {["end"]} empty_state)
  = Some ("completed", [("ask", "success"); ("good", "success"); ("end", "skipped"); ("bad", "skipped")]).
Proof. vm_compute. reflexivity. Qed.

(** A tool whose answer is not JSON: alone in its wave it makes the run raise,
    and nothing is recorded; beside another one it is a node that failed. *)
Definition demo_lone : WorkflowDefinition := mkWf "w" "w" "" [mkWfNode "a" "open" [] false] [] None.
Definition demo_pair : WorkflowDefinition :=
  mkWf "w" "w" "" [mkWfNode "a" "open" [] false; mkWfNode "b" "verify" [] false] [] None.

Example demo_lone_raises :
  (demo_run demo_opaque demo_lone None ∅ empty_state).1 = Err (json_error "file") /\
  ws_rows (demo_run demo_opaque demo_lone None ∅ empty_state).2 = [] /\
  length (ws_calls (demo_run demo_opaque demo_lone None ∅ empty_state).2) = 1%nat.
Proof. vm_compute. done. Qed.

Example demo_pair_fails :
  demo_told (demo_run demo_opaque demo_pair None ∅ empty_state)
  = Some ("partially_successful", [("a", "failed"); ("b", "success")]).
Proof. vm_compute. reflexivity. Qed.

(** A run is resumed with another workflow: a node of the same name, with
    another action, is taken over as it is. *)
Example demo_other_workflow :
  demo_told (demo_run demo_answer (mkWf "other" "" "" [mkWfNode "a" "break" [] false; mkWfNode "c" "verify" [] false] [] None)
    (Some "0") ∅ (demo_run demo_answer demo_pair None ∅ empty_state).2)
  = Some ("completed", [("a", "success"); ("b", "success"); ("c", "success")]).
Proof. vm_compute. reflexivity. Qed.

(** A gate before a node: the run waits, and is resumed. *)
Definition demo_gate : WorkflowDefinition :=
  mkWf "g" "g" "" [mkWfNode "a" "research" [] false; mkWfNode "b" "verify" [("t", PStr "$steps.a.text")] true]
    [mkWfEdge "a" "b" "on_success"] None.

Lemma demo_gate_valid : wf_valid demo_gate.
Proof. destruct (wf_validate_spec demo_gate) as [[_ Hv]|[[m Hm] _]]; [done|]. vm_compute in Hm. discriminate. Qed.

Lemma demo_encodable : encodable demo_answer.
Proof. intros i action params ty. unfold demo_answer. by repeat case_bool_decide. Qed.

Lemma demo_stable : stable_tools demo_answer.
Proof. by intros i j action params. Qed.

Lemma demo_ancestral : ancestral demo_gate.
Proof.
  intros node p m Hn Hp. cbn in Hn. repeat (apply elem_of_cons in Hn as [->|Hn]); [..|by apply elem_of_nil in Hn].
  - by apply elem_of_nil in Hp.
  - apply list_elem_of_singleton in Hp as ->. vm_compute. intros [= <-]. apply tc_once, list_elem_of_here.
Qed.

(** Two workflows, each run once, then the second one resumed. *)
Lemma demo_pair_valid : wf_valid demo_pair.
Proof. destruct (wf_validate_spec demo_pair) as [[_ Hv]|[[m Hm] _]]; [done|]. vm_compute in Hm. discriminate. Qed.

Definition demo_first : WfState := (demo_run demo_answer demo_pair None ∅ empty_state).2.
Definition demo_second : WfState := (demo_run demo_answer demo_gate None ∅ demo_first).2.
Definition demo_third : WfState := (demo_run demo_answer demo_gate (Some "1") {["b"]} demo_second).2.
Definition demo_own : pydict WorkflowDefinition := [("0", demo_pair); ("1", demo_gate)].

#[local] Abbreviation demo_runs := (runs demo_registered demo_answer (fun i => Z.of_nat i) pretty).

Lemma demo_first_runs : demo_runs [("0", demo_pair)] demo_first.
Proof.
  replace [("0", demo_pair)] with (begun pretty demo_pair None [] empty_state) by (by vm_compute).
  apply runs_one; [apply runs_none|apply demo_pair_valid|done].
Qed.

Lemma demo_second_runs : demo_runs demo_own demo_second.
Proof.
  replace demo_own with (begun pretty demo_gate None [("0", demo_pair)] demo_first) by (by vm_compute).
  apply runs_one; [apply demo_first_runs|apply demo_gate_valid|done].
Qed.

Lemma demo_resumes_own : resumes_own demo_gate (Some "1") demo_own.
Proof. by intros u [= <-]. Qed.

Lemma demo_third_runs : demo_runs demo_own demo_third.
Proof.
  apply (runs_one _ _ _ _ demo_own _ demo_gate (Some "1")); [apply demo_second_runs|apply demo_gate_valid|apply demo_resumes_own].
Qed.

Lemma run_outcome_witness :
  encodable demo_answer /\
  ((exists x, Some "1" = Some x /\ dget (ws_rows demo_second) x = None /\
     exists m, demo_run demo_answer demo_gate (Some "1") {["b"]} demo_second = (Err (Exn WorkflowExecutionError [m]), demo_second)) \/
   exists r s', demo_run demo_answer demo_gate (Some "1") {["b"]} demo_second = (Ok r, s') /\
     settled demo_gate ((stored demo_second (Some "1")).2 ∪ {["b"]}) (wr_results r) /\
     grows (stored demo_second (Some "1")).1 (wr_results r) /\
     (forall n, n ∈ wr_pending r <-> dget (wr_results r) n = Some (awaiting n)) /\
     status_exact (wr_results r) (wr_status r) /\ get_run (wr_id r) s' = Some r).
Proof.
  split; [exact demo_encodable|].
  exact (run_outcome demo_registered demo_answer (fun i => Z.of_nat i) pretty (fun i j => inj pretty i j) demo_gate demo_own
    demo_second (Some "1") {["b"]} demo_encodable demo_second_runs demo_gate_valid demo_resumes_own).
Defined.

(** It is the second case: the run answers, and has executed both nodes. *)
Example demo_resumed :
  demo_told (demo_run demo_answer demo_gate (Some "1") {["b"]} demo_second) = Some ("completed", [("a", "success"); ("b", "success")]).
Proof. vm_compute. reflexivity. Qed.

Lemma called_once_witness :
  encodable demo_answer /\ NoDup (map (fun c => (tc_run c, tc_node c)) (ws_calls demo_third)).
Proof.
  split; [exact demo_encodable|].
  exact (called_once demo_registered demo_answer (fun i => Z.of_nat i) pretty (fun i j => inj pretty i j) demo_own demo_third
    demo_encodable demo_third_runs).
Defined.

Lemma resume_equivalent_witness :
  (encodable demo_answer /\ stable_tools demo_answer /\ ancestral demo_gate) /\
  exists r1 s1 r2 s2 r3 s3,
    demo_run demo_answer demo_gate None ∅ empty_state = (Ok r1, s1) /\
    demo_run demo_answer demo_gate (Some (wr_id r1)) {["b"]} s1 = (Ok r2, s2) /\
    demo_run demo_answer demo_gate None (∅ ∪ {["b"]}) s2 = (Ok r3, s3) /\
    (forall n, dget (wr_results r2) n = dget (wr_results r3) n) /\ wr_status r2 = wr_status r3.
Proof.
  split; [exact (conj demo_encodable (conj demo_stable demo_ancestral))|].
  exact (resume_equivalent demo_gate demo_gate_valid demo_registered demo_answer (fun i => Z.of_nat i) pretty
    ∅ {["b"]} empty_state demo_encodable demo_stable demo_ancestral).
Defined.
