(* ===== verification/Resources.v ===== *)
(** * Resources ([backend/runtime/resources/])

    The models ([resource_models.py]), the allocation policies
    ([allocation_policy.py]), the memory readings ([memory_manager.py]) and the
    manager of reservations ([resource_manager.py]).  A policy is an interface,
    [AllocationPolicy], which the two policies of the code implement; the manager
    and its theorems speak of any policy. *)
From stdpp Require Import base gmap strings list sets pretty.
From Stdlib Require Import ZArith QArith Lia Lqa.
From S2P Require Import Prelude.
#[local] Open Scope Z_scope.

(** ** Models *)

Module ResourceType.
Inductive t := VRAM | RAM | CPU | GPU_TEMP | MODEL_WEIGHT.
#[global] Instance eq_dec : EqDecision t.
Proof. solve_decision. Defined.
Definition value (x : t) : string :=
  match x with
  | VRAM => "vram"
  | RAM => "ram"
  | CPU => "cpu"
  | GPU_TEMP => "gpu_temp"
  | MODEL_WEIGHT => "model_weight"
  end.
End ResourceType.

Module ResourceStatus.
Inductive t := HEALTHY | WARNING | CRITICAL | UNAVAILABLE.
#[global] Instance eq_dec : EqDecision t.
Proof. solve_decision. Defined.
Definition value (x : t) : string :=
  match x with
  | HEALTHY => "healthy"
  | WARNING => "warning"
  | CRITICAL => "critical"
  | UNAVAILABLE => "unavailable"
  end.
End ResourceStatus.

(** Floats are rationals. *)
Record GPUInfo := mkGPU {
  gi_name : string;
  gi_vendor : string;
  gi_total : Z;
  gi_used : Z;
  gi_free : Z;
  gi_temperature : option Q;
  gi_hotspot : option Q;
  gi_utilization : option Q;
  gi_available : bool;
  gi_measured : bool
}.

Record ResourceLimit := mkLimit {
  rl_type : ResourceType.t;
  rl_total : Z;
  rl_warning : Q;
  rl_critical : Q
}.

(** The date of a snapshot, which nothing reads, is left out. *)
Record ResourceSnapshot := mkSnapshot {
  sn_type : ResourceType.t;
  sn_total : Z;
  sn_used : Z;
  sn_free : Z;
  sn_status : ResourceStatus.t
}.

(** [usage_pct] *)
Definition usage_pct (s : ResourceSnapshot) : Q :=
  if decide (sn_total s = 0) then 0%Q else (inject_Z (sn_used s) / inject_Z (sn_total s))%Q.

(** [with_limits] *)
Definition with_limits (s : ResourceSnapshot) (l : ResourceLimit) : ResourceStatus.t :=
  if Qle_bool (rl_critical l) (usage_pct s) then ResourceStatus.CRITICAL
  else if Qle_bool (rl_warning l) (usage_pct s) then ResourceStatus.WARNING
  else ResourceStatus.HEALTHY.

Record ResourceAllocation := mkAllocation {
  al_id : string;
  al_runtime : string;
  al_type : ResourceType.t;
  al_requested : Z;
  al_allocated : Z;
  al_model : option string;
  al_created : Z;
  al_released : bool;
  al_priority : Z
}.

(** [release] *)
Definition release (a : ResourceAllocation) : ResourceAllocation :=
  mkAllocation (al_id a) (al_runtime a) (al_type a) (al_requested a) (al_allocated a) (al_model a)
    (al_created a) true (al_priority a).

Record AllocationResult := mkResult {
  ar_success : bool;
  ar_allocation : option ResourceAllocation;
  ar_reason : option message;
  ar_fallback : option string;
  ar_suggested : option string
}.

Definition refused (reason : message) (fallback suggested : option string) : AllocationResult :=
  mkResult false None (Some reason) fallback suggested.

(** ** Policies *)

(** A request: the bytes, the runtime, the model and the priority. *)
Record Request := mkRequest {
  rq_bytes : Z;
  rq_runtime : string;
  rq_model : option string;
  rq_priority : Z
}.

(** [AllocationPolicy.can_allocate].  The id and the date are those the new
    allocation would take. *)
Class AllocationPolicy (P : Type) := {
  policy_can_allocate : P -> string -> Z -> ResourceSnapshot -> GPUInfo -> Request -> AllocationResult
}.

Definition granted (id : string) (now : Z) (t : ResourceType.t) (rq : Request) (reason : option message)
    : AllocationResult :=
  mkResult true
    (Some (mkAllocation id (rq_runtime rq) t (rq_bytes rq) (rq_bytes rq) (rq_model rq) now false (rq_priority rq)))
    reason None None.

Record DefaultAllocationPolicy := mkDefaultPolicy { dp_max_vram : Q; dp_max_ram : Q }.

Definition default_policy : DefaultAllocationPolicy := mkDefaultPolicy (9 # 10) (85 # 100).

Definition GiB : Z := 1024 * 1024 * 1024.

Definition tiers : list (string * Z) :=
  [("Tier 1 (1B)", GiB); ("Tier 2 (3B)", 3 * GiB); ("Tier 3 (7B)", 7 * GiB); ("Tier 4 (14B)", 14 * GiB);
   ("Tier 5 (32B)", 32 * GiB)].

(** [_suggest_smaller_model] *)
Definition suggest_smaller_model (requested available : Z) : option string :=
  fst <$> List.find (fun t => t.2 <=? available) tiers.

Definition percent (q : Q) : string := fixed 0 (q * 100).

(** [after / total] exceeds the threshold. *)
Definition exceeds (after total : Z) (threshold : Q) : bool :=
  negb (Qle_bool (inject_Z after / inject_Z total) threshold).

(** [DefaultAllocationPolicy.can_allocate] *)
Definition default_can_allocate (p : DefaultAllocationPolicy) (id : string) (now : Z) (s : ResourceSnapshot)
    (g : GPUInfo) (rq : Request) : AllocationResult :=
  let grant := granted id now (sn_type s) rq in
  if decide (sn_type s = ResourceType.VRAM) then
    if decide (gi_total g = 0) then grant (Some (Msg "no gpu detected — skip vram check" []))
    else if negb (gi_measured g) then
      refused (Msg "occupation VRAM non mesurée sur {!r} — aucune sonde physique n'a répondu ; l'admission refuse plutôt que de supposer la carte libre" [gi_name g])
        None None
    else
      let after := gi_used g + rq_bytes rq in
      if exceeds after (gi_total g) (dp_max_vram p) then
        refused (Msg "VRAM would reach {}% > {}%"
                   [percent (inject_Z after / inject_Z (gi_total g)); percent (dp_max_vram p)])
          None (suggest_smaller_model (rq_bytes rq) (gi_free g))
      else grant None
  else if decide (sn_type s = ResourceType.RAM) then
    let after := sn_used s + rq_bytes rq in
    let total := Z.max (sn_total s) 1 in
    if exceeds after total (dp_max_ram p) then
      refused (Msg "RAM would reach {}% > {}%" [percent (inject_Z after / inject_Z total); percent (dp_max_ram p)])
        None None
    else grant None
  else grant None.

#[export] Instance default_allocation : AllocationPolicy DefaultAllocationPolicy :=
  {| policy_can_allocate := default_can_allocate |}.

Record VramAwarePolicy := mkVramAware {
  vp_base : DefaultAllocationPolicy;
  vp_max_temp : Q;
  vp_max_util : Q
}.

Definition above (o : option Q) (q : Q) : bool :=
  match o with Some x => negb (Qle_bool x q) | None => false end.

(** [VramAwareAllocationPolicy.can_allocate] *)
Definition vram_aware_can_allocate (p : VramAwarePolicy) (id : string) (now : Z) (s : ResourceSnapshot)
    (g : GPUInfo) (rq : Request) : AllocationResult :=
  if above (gi_temperature g) (vp_max_temp p) then
    refused (Msg "GPU temperature {}°C > {}°C — throttling"
               [fixed 0 (default 0%Q (gi_temperature g)); fixed 0 (vp_max_temp p)]) (Some "cpu") None
  else if above (gi_utilization g) (vp_max_util p) then
    refused (Msg "GPU utilisation {}% > {}% — busy"
               [fixed 0 (default 0%Q (gi_utilization g)); fixed 0 (vp_max_util p)]) None None
  else default_can_allocate (vp_base p) id now s g rq.

#[export] Instance vram_aware_allocation : AllocationPolicy VramAwarePolicy :=
  {| policy_can_allocate := vram_aware_can_allocate |}.

(** The manager may change the class of its policy. *)
#[export] Instance either_allocation {P Q : Type} `{!AllocationPolicy P, !AllocationPolicy Q} : AllocationPolicy (P + Q) :=
  {| policy_can_allocate p := match p with
                              | inl p => policy_can_allocate p
                              | inr q => policy_can_allocate q
                              end |}.

(** ** Memory readings *)

(** The fields of [/proc/meminfo], in bytes; a field that is missing is 0. *)
Record MemInfo := mkMemInfo {
  mf_total : Z;
  mf_available : Z;
  mf_free : Z;
  mf_buffers : Z;
  mf_cached : Z
}.

(** [_read_meminfo]: the file, or what psutil answers when there is none. *)
Definition read_meminfo (file : option MemInfo) (psutil : option (Z * Z)) : Z * Z :=
  match file with
  | Some f =>
      let used := if 0 <? mf_available f then mf_total f - mf_available f
                  else mf_total f - mf_free f - mf_buffers f - mf_cached f in
      (mf_total f, Z.max 0 used)
  | None => default (0, 0) psutil
  end.

Record MemoryManager := mkMemory {
  mm_snapshot : option ResourceSnapshot;
  mm_last : option Z
}.

(** [_poll_now] *)
Definition poll_now (file : option MemInfo) (psutil : option (Z * Z)) : ResourceSnapshot :=
  let '(total, used) := read_meminfo file psutil in
  mkSnapshot ResourceType.RAM total used (Z.max 0 (total - used)) ResourceStatus.HEALTHY.

(** [_update_interval_s], in the microseconds of the clock. *)
Definition update_interval : Z := 1000000.

(** [poll]: a reading less than a second old is kept. *)
Definition memory_poll (now : Z) (fresh : ResourceSnapshot) (m : MemoryManager) : ResourceSnapshot * MemoryManager :=
  match mm_last m with
  | Some t =>
      if decide (now - t < update_interval) then (default fresh (mm_snapshot m), m)
      else (fresh, mkMemory (Some fresh) (Some now))
  | None => (fresh, mkMemory (Some fresh) (Some now))
  end.

(** ** The manager *)

(** A call of [on_event]. *)
Record resource_event := mkResEvent { re_type : string; re_payload : pydict pyval; re_severity : string }.

Record ResourceManager (P : Type) := mkManager {
  rm_memory : MemoryManager;
  rm_policy : P;
  rm_listening : bool;
  rm_allocations : pydict ResourceAllocation;
  rm_limits : list (ResourceType.t * ResourceLimit);
  rm_events : list resource_event;
  rm_polls : nat;
  rm_reads : nat;
  rm_uuids : nat
}.
Arguments mkManager {P}.
Arguments rm_memory {P}.
Arguments rm_policy {P}.
Arguments rm_listening {P}.
Arguments rm_allocations {P}.
Arguments rm_limits {P}.
Arguments rm_events {P}.
Arguments rm_polls {P}.
Arguments rm_reads {P}.
Arguments rm_uuids {P}.

Definition default_limits : list (ResourceType.t * ResourceLimit) :=
  [(ResourceType.VRAM, mkLimit ResourceType.VRAM (16 * GiB) (85 # 100) (95 # 100));
   (ResourceType.RAM, mkLimit ResourceType.RAM (32 * GiB) (85 # 100) (95 # 100))].

Definition new_manager {P} (policy : P) (listening : bool) : ResourceManager P :=
  mkManager (mkMemory None None) policy listening [] default_limits [] 0 0 0.

Section setters.
Context {P : Type}.
Implicit Types m : ResourceManager P.

Definition with_memory x m : ResourceManager P :=
  mkManager x (rm_policy m) (rm_listening m) (rm_allocations m) (rm_limits m) (rm_events m) (rm_polls m)
    (rm_reads m) (rm_uuids m).
Definition with_policy x m : ResourceManager P :=
  mkManager (rm_memory m) x (rm_listening m) (rm_allocations m) (rm_limits m) (rm_events m) (rm_polls m)
    (rm_reads m) (rm_uuids m).
Definition with_listening x m : ResourceManager P :=
  mkManager (rm_memory m) (rm_policy m) x (rm_allocations m) (rm_limits m) (rm_events m) (rm_polls m)
    (rm_reads m) (rm_uuids m).
Definition with_allocations x m : ResourceManager P :=
  mkManager (rm_memory m) (rm_policy m) (rm_listening m) x (rm_limits m) (rm_events m) (rm_polls m)
    (rm_reads m) (rm_uuids m).
Definition with_limits_of x m : ResourceManager P :=
  mkManager (rm_memory m) (rm_policy m) (rm_listening m) (rm_allocations m) x (rm_events m) (rm_polls m)
    (rm_reads m) (rm_uuids m).
Definition with_res_events x m : ResourceManager P :=
  mkManager (rm_memory m) (rm_policy m) (rm_listening m) (rm_allocations m) (rm_limits m) x (rm_polls m)
    (rm_reads m) (rm_uuids m).
End setters.

(** [_octets_reserves] *)
Definition active (a : ResourceAllocation) : bool := negb (al_released a).

Definition sum_Z (l : list Z) : Z := fold_right Z.add 0 l.

Definition octets_reserves (allocs : pydict ResourceAllocation) (t : ResourceType.t) : Z :=
  sum_Z (map al_requested
    (List.filter (fun a => active a && bool_decide (al_type a = t)) (dvalues allocs))).

(** The view of the card that is shown to the policy. *)
Definition reserved_gpu (g : GPUInfo) (r : Z) : GPUInfo :=
  mkGPU (gi_name g) (gi_vendor g) (gi_total g) (gi_used g + r) (Z.max 0 (gi_free g - r)) (gi_temperature g)
    (gi_hotspot g) (gi_utilization g) (gi_available g) (gi_measured g).

Definition reserved_vram (g : GPUInfo) (r : Z) : ResourceSnapshot :=
  mkSnapshot ResourceType.VRAM (gi_total g) (gi_used g + r) (Z.max 0 (gi_free g - r)) ResourceStatus.HEALTHY.

Definition reserved_ram (base : ResourceSnapshot) (r : Z) : ResourceSnapshot :=
  mkSnapshot ResourceType.RAM (sn_total base) (sn_used base + r) (Z.max 0 (sn_free base - r)) ResourceStatus.HEALTHY.

Fixpoint limit_of (l : list (ResourceType.t * ResourceLimit)) (t : ResourceType.t) : option ResourceLimit :=
  match l with
  | [] => None
  | (t', x) :: l' => if decide (t' = t) then Some x else limit_of l' t
  end.

Fixpoint set_limit_of (l : list (ResourceType.t * ResourceLimit)) (t : ResourceType.t) (x : ResourceLimit)
    : list (ResourceType.t * ResourceLimit) :=
  match l with
  | [] => [(t, x)]
  | (t', y) :: l' => if decide (t' = t) then (t', x) :: l' else (t', y) :: set_limit_of l' t x
  end.

Section manager.
(** What the card answers when it is polled, what the memory holds, the clock,
    the uuids, and what the listener raises at its [i]-th call, if anything. *)
Variable gpu : nat -> GPUInfo.
Variable meminfo : nat -> option MemInfo * option (Z * Z).
Variable clock : nat -> Z.
Variable uuid_hex : nat -> string.
Variable listener : nat -> option exn.
(** The text of a reason. *)
Variable text : message -> string.
Context {P : Type} `{!AllocationPolicy P}.

(** [get_gpu_info] *)
Definition get_gpu_info : M (ResourceManager P) GPUInfo := fun m =>
  (Ok (gpu (rm_polls m)),
   mkManager (rm_memory m) (rm_policy m) (rm_listening m) (rm_allocations m) (rm_limits m) (rm_events m)
     (S (rm_polls m)) (rm_reads m) (rm_uuids m)).

(** [get_memory_snapshot] *)
Definition get_memory_snapshot : M (ResourceManager P) ResourceSnapshot := fun m =>
  let i := rm_reads m in
  let '(s, mem) := memory_poll (clock i) (poll_now (meminfo i).1 (meminfo i).2) (rm_memory m) in
  (Ok s,
   mkManager mem (rm_policy m) (rm_listening m) (rm_allocations m) (rm_limits m) (rm_events m)
     (rm_polls m) (S i) (rm_uuids m)).

(** The answer of the policy; an allocation takes a date and a uuid. *)
Definition ask_policy (s : ResourceSnapshot) (g : GPUInfo) (rq : Request) : M (ResourceManager P) AllocationResult :=
  fun m =>
    let r := policy_can_allocate (rm_policy m) (uuid_hex (rm_uuids m)) (clock (rm_reads m)) s g rq in
    (Ok r,
     match ar_allocation r with
     | Some _ => mkManager (rm_memory m) (rm_policy m) (rm_listening m) (rm_allocations m) (rm_limits m)
                   (rm_events m) (rm_polls m) (S (rm_reads m)) (S (rm_uuids m))
     | None => m
     end).

(** [can_allocate] *)
Definition can_allocate (t : ResourceType.t) (rq : Request) : M (ResourceManager P) AllocationResult :=
  g <- get_gpu_info ;;
  m <- get ;;
  let reserves := octets_reserves (rm_allocations m) t in
  if decide (t = ResourceType.RAM) then
    base <- get_memory_snapshot ;;
    ask_policy (reserved_ram base reserves) g rq
  else ask_policy (reserved_vram g reserves) (reserved_gpu g reserves) rq.

(** [PLACES_MAX], and the loop of [places_disponibles] after [places] turns. *)
Definition PLACES_MAX : nat := 16.

Fixpoint places_loop (left places : nat) (octets : Z) (rid : string) (t : ResourceType.t)
    : M (ResourceManager P) nat :=
  match left with
  | O => ret places
  | S left' =>
      essai <- can_allocate t (mkRequest (octets * (Z.of_nat places + 1)) rid None 0) ;;
      if ar_success essai then places_loop left' (S places) octets rid t else ret places
  end.

(** [places_disponibles] *)
Definition places_disponibles (octets : Z) (rid : string) (t : ResourceType.t) : M (ResourceManager P) nat :=
  if decide (octets <= 0) then ret 0%nat else places_loop PLACES_MAX 0 octets rid t.

(** [self._on_event(...)]: the listener may raise. *)
Definition on_event (ev : string) (payload : pydict pyval) (severity : string) : M (ResourceManager P) unit := fun m =>
  if rm_listening m then
    (match listener (length (rm_events m)) with Some e => Err e | None => Ok tt end,
     with_res_events (rm_events m ++ [mkResEvent ev payload severity]) m)
  else (Ok tt, m).

Definition pstr_option (o : option string) : pyval := match o with Some s => PStr s | None => PNone end.

(** [reserve_resources] *)
Definition reserve_resources (t : ResourceType.t) (rq : Request) : M (ResourceManager P) AllocationResult :=
  r <- can_allocate t rq ;;
  match ar_success r, ar_allocation r with
  | true, Some a =>
      (fun m => (Ok tt, with_allocations (dset (rm_allocations m) (al_id a) a) m)) ;;;
      on_event (ResourceType.value t +:+ ".allocated")
        [("allocation_id", PStr (al_id a)); ("runtime_id", PStr (rq_runtime rq));
         ("model_name", pstr_option (rq_model rq)); ("bytes", PInt (rq_bytes rq))] "info" ;;;
      ret r
  | true, None => ret r
  | false, _ =>
      on_event "resource.allocation_failed"
        [("runtime_id", PStr (rq_runtime rq));
         ("reason", PStr (match ar_reason r with Some x => text x | None => "" end));
         ("resource_type", PStr (ResourceType.value t)); ("bytes_requested", PInt (rq_bytes rq))] "warning" ;;;
      ret r
  end.

(** [release_resources] *)
Definition release_resources (id : string) : M (ResourceManager P) (option Z) :=
  m <- get ;;
  match dget (rm_allocations m) id with
  | None => ret None
  | Some a =>
      if al_released a then ret None
      else
        (fun m => (Ok tt, with_allocations (dset (rm_allocations m) id (release a)) m)) ;;;
        on_event "resource.released"
          [("allocation_id", PStr id); ("runtime_id", PStr (al_runtime a)); ("bytes", PInt (al_allocated a))] "info" ;;;
        ret (Some (al_allocated a))
  end.

(** [get_current_allocations] *)
Definition get_current_allocations (m : ResourceManager P) : list ResourceAllocation :=
  List.filter active (dvalues (rm_allocations m)).

(** The alerts on the card and on the memory. *)
Definition gpu_alerts (g : GPUInfo) (limit : option ResourceLimit) : list (string * string) :=
  if gi_available g && (0 <? gi_total g) && gi_measured g then
    let pct := (inject_Z (gi_used g) / inject_Z (gi_total g))%Q in
    match limit with
    | Some l =>
        if Qle_bool (rl_critical l) pct then [("vram.limit_reached", "critical")]
        else if Qle_bool (rl_warning l) pct then [("memory.warning", "warning")] else []
    | None => []
    end ++
    (if above (gi_temperature g) 85 then [("resource.warning", "warning")] else [])
  else [].

Definition ram_alerts (s : ResourceSnapshot) (limit : option ResourceLimit) : list (string * string) :=
  if 0 <? sn_total s then
    match limit with
    | Some l =>
        if Qle_bool (rl_critical l) (usage_pct s) then [("memory.warning", "critical")]
        else if Qle_bool (rl_warning l) (usage_pct s) then [("memory.warning", "warning")] else []
    | None => []
    end
  else [].

(** [check_thresholds] *)
Definition check_thresholds : M (ResourceManager P) (list (string * string)) :=
  g <- get_gpu_info ;;
  mem <- get_memory_snapshot ;;
  m <- get ;;
  let alerts := gpu_alerts g (limit_of (rm_limits m) ResourceType.VRAM)
                ++ ram_alerts mem (limit_of (rm_limits m) ResourceType.RAM) in
  for_each alerts (fun a =>
    on_event a.1
      [("gpu_vram_pct",
        if 0 <? gi_total g then PFloat (tenths (inject_Z (gi_used g) / inject_Z (Z.max (gi_total g) 1) * 100))
        else PInt 0);
       ("ram_pct", PFloat (tenths (usage_pct mem * 100)));
       ("gpu_temp", match gi_temperature g with Some t => PFloat t | None => PNone end)] a.2) ;;;
  ret alerts.

Record ResourceReport := mkReport {
  rp_gpu : GPUInfo;
  rp_ram : ResourceSnapshot;
  rp_ram_pct : Q;
  rp_allocations : nat;
  rp_allocated : Z
}.

(** [get_status] *)
Definition get_status : M (ResourceManager P) ResourceReport :=
  g <- get_gpu_info ;;
  mem <- get_memory_snapshot ;;
  m <- get ;;
  let l := get_current_allocations m in
  ret (mkReport g mem (tenths (usage_pct mem * 100)) (length l) (sum_Z (map al_allocated l))).

(** [set_limit], [set_policy] and [set_event_callback] *)
Definition set_limit (t : ResourceType.t) (l : ResourceLimit) : M (ResourceManager P) unit := fun m =>
  (Ok tt, with_limits_of (set_limit_of (rm_limits m) t l) m).
Definition set_policy (p : P) : M (ResourceManager P) unit := fun m => (Ok tt, with_policy p m).
Definition set_event_callback (b : bool) : M (ResourceManager P) unit := fun m => (Ok tt, with_listening b m).
End manager.

(** ** What a policy promises

    [policy_fits] is its decision, without the allocation it makes. *)
Class PolicyLaws (P : Type) `{!AllocationPolicy P} := {
  policy_fits : P -> ResourceSnapshot -> GPUInfo -> Z -> bool;
  policy_cap : P -> Q;
  (** it succeeds when the bytes fit, and then allocates what was asked *)
  law_success : forall p id now s g rq,
    ar_success (policy_can_allocate p id now s g rq) = policy_fits p s g (rq_bytes rq);
  law_allocation : forall p id now s g rq,
    ar_allocation (policy_can_allocate p id now s g rq) =
      if policy_fits p s g (rq_bytes rq)
      then Some (mkAllocation id (rq_runtime rq) (sn_type s) (rq_bytes rq) (rq_bytes rq) (rq_model rq) now false
                   (rq_priority rq))
      else None;
  (** what is reserved counts as what is asked *)
  law_linear : forall p g r b,
    policy_fits p (reserved_vram g r) (reserved_gpu g r) b = policy_fits p (reserved_vram g 0) (reserved_gpu g 0) (r + b);
  (** less fits where more does *)
  law_mono : forall p s g b b', 0 <= sn_total s -> 0 <= gi_total g -> b' <= b ->
    policy_fits p s g b = true -> policy_fits p s g b' = true;
  (** on a card the bytes stay under the cap *)
  law_cap : forall p g r b, 0 < gi_total g -> policy_fits p (reserved_vram g r) (reserved_gpu g r) b = true ->
    (inject_Z (gi_used g + r + b) <= policy_cap p * inject_Z (gi_total g))%Q
}.

Section default_laws.
Implicit Type p : DefaultAllocationPolicy.

Definition default_fits p (s : ResourceSnapshot) (g : GPUInfo) (b : Z) : bool :=
  match sn_type s with
  | ResourceType.VRAM =>
      bool_decide (gi_total g = 0) || gi_measured g && negb (exceeds (gi_used g + b) (gi_total g) (dp_max_vram p))
  | ResourceType.RAM => negb (exceeds (sn_used s + b) (Z.max (sn_total s) 1) (dp_max_ram p))
  | _ => true
  end.

Lemma default_outcome p id now s g rq :
  ar_success (default_can_allocate p id now s g rq) = default_fits p s g (rq_bytes rq) /\
  ar_allocation (default_can_allocate p id now s g rq) =
    if default_fits p s g (rq_bytes rq)
    then Some (mkAllocation id (rq_runtime rq) (sn_type s) (rq_bytes rq) (rq_bytes rq) (rq_model rq) now false
                 (rq_priority rq))
    else None.
Proof.
  unfold default_can_allocate, default_fits. destruct (sn_type s).
  - rewrite decide_True by done. case_decide; [by rewrite bool_decide_eq_true_2|]. rewrite bool_decide_eq_false_2 by done.
    cbn [orb]. destruct (gi_measured g); [|done]. cbn [negb andb]. by destruct (exceeds _ _ _).
  - rewrite decide_False, decide_True by done. by destruct (exceeds _ _ _).
  - by rewrite !decide_False.
  - by rewrite !decide_False.
  - by rewrite !decide_False.
Qed.

Lemma exceeds_false after total q :
  0 < total -> exceeds after total q = false <-> (inject_Z after <= q * inject_Z total)%Q.
Proof.
  intros Ht. assert (Htq : (0 < inject_Z total)%Q) by (change 0%Q with (inject_Z 0); by rewrite <- Zlt_Qlt).
  unfold exceeds. rewrite negb_false_iff, Qle_bool_iff. split.
  - intros H. apply (Qmult_le_compat_r _ _ (inject_Z total)) in H; [|by apply Qlt_le_weak].
    rewrite <- Qmult_div_r with (y := inject_Z total) (x := inject_Z after).
    + rewrite Qmult_comm. exact H.
    + intros H0. rewrite H0 in Htq. by apply Qlt_irrefl in Htq.
  - intros H. by apply Qle_shift_div_r.
Qed.

Lemma exceeds_mono after after' total q :
  0 <= total -> after' <= after -> exceeds after total q = false -> exceeds after' total q = false.
Proof.
  intros Ht Ha. destruct (decide (total = 0)) as [->|Hne].
  - unfold exceeds. rewrite !negb_false_iff, !Qle_bool_iff. intros H.
    assert (Hz : forall z, (inject_Z z / inject_Z 0 == 0)%Q) by (intros z; unfold Qdiv; cbn; ring). by rewrite Hz in *.
  - intros H. apply exceeds_false in H; [|lia]. apply exceeds_false; [lia|].
    eapply Qle_trans; [|exact H]. by rewrite <- Zle_Qle.
Qed.

#[export] Instance default_laws_hold : PolicyLaws DefaultAllocationPolicy.
Proof.
  refine {| policy_fits := default_fits; policy_cap := dp_max_vram |}.
  - intros. apply default_outcome.
  - intros. apply default_outcome.
  - intros p g r b. unfold default_fits. cbn [reserved_vram reserved_gpu sn_type gi_total gi_used gi_measured].
    by replace (gi_used g + r + b) with (gi_used g + 0 + (r + b)) by lia.
  - intros p s g b b' Hs Hg Hb. unfold default_fits. destruct (sn_type s); try done.
    + rewrite !orb_true_iff, !andb_true_iff, !negb_true_iff. intros [?|[? H]]; [by left|right]. split; [done|].
      eapply exceeds_mono; [..|exact H]; lia.
    + rewrite !negb_true_iff. apply exceeds_mono; lia.
  - intros p g r b Hg. unfold default_fits. cbn [reserved_vram reserved_gpu sn_type gi_total gi_used gi_measured].
    rewrite bool_decide_eq_false_2 by lia. cbn [orb]. intros [_ H%negb_true_iff]%andb_true_iff.
    by apply exceeds_false in H.
Defined.
End default_laws.

Definition cool (p : VramAwarePolicy) (g : GPUInfo) : bool :=
  negb (above (gi_temperature g) (vp_max_temp p)) && negb (above (gi_utilization g) (vp_max_util p)).

#[export] Instance vram_aware_laws : PolicyLaws VramAwarePolicy.
Proof.
  assert (Hout : forall p id now s g rq,
    ar_success (vram_aware_can_allocate p id now s g rq) = cool p g && default_fits (vp_base p) s g (rq_bytes rq) /\
    ar_allocation (vram_aware_can_allocate p id now s g rq) =
      if cool p g && default_fits (vp_base p) s g (rq_bytes rq)
      then Some (mkAllocation id (rq_runtime rq) (sn_type s) (rq_bytes rq) (rq_bytes rq) (rq_model rq) now false
                   (rq_priority rq)) else None).
  { intros. unfold vram_aware_can_allocate, cool. destruct (above _ (vp_max_temp p)); [done|].
    destruct (above _ (vp_max_util p)); [done|]. cbn [negb andb]. apply default_outcome. }
  refine {| policy_fits p s g b := cool p g && default_fits (vp_base p) s g b; policy_cap p := dp_max_vram (vp_base p) |}.
  - intros. apply Hout.
  - intros. apply Hout.
  - intros p g r b. change (cool p (reserved_gpu g r)) with (cool p (reserved_gpu g 0)). f_equal.
    exact (law_linear (P := DefaultAllocationPolicy) (vp_base p) g r b).
  - intros p s g b b' Hs Hg Hb [Hc Hf]%andb_true_iff. rewrite Hc.
    exact (law_mono (P := DefaultAllocationPolicy) (vp_base p) s g b b' Hs Hg Hb Hf).
  - intros p g r b Hg [_ Hf]%andb_true_iff. exact (law_cap (P := DefaultAllocationPolicy) (vp_base p) g r b Hg Hf).
Defined.
