(* ===== verification/ResourceRuns.v ===== *)
(** * Resources: what the reservations promise

    Theorems on [Resources] for any policies that keep [PolicyLaws]: under what
    share a reservation leaves the card, what is given back, and, on a card that
    answers the same at every poll, the places that are announced and where the
    share can be got around. *)
From stdpp Require Import base gmap strings list sets pretty.
From Stdlib Require Import ZArith QArith Lia Lqa.
From S2P Require Import Prelude.
From S2P Require Import Resources.
#[local] Open Scope Z_scope.

(** ** The sum of the reservations *)

Definition contribution (t : ResourceType.t) (a : ResourceAllocation) : Z :=
  if active a && bool_decide (al_type a = t) then al_requested a else 0.

Lemma sum_Z_cons x l : sum_Z (x :: l) = x + sum_Z l.
Proof. done. Qed.

Lemma octets_sum d t : octets_reserves d t = sum_Z (map (contribution t) (dvalues d)).
Proof.
  unfold octets_reserves, contribution. induction (dvalues d) as [|a l IH]; [done|]. cbn [map List.filter].
  rewrite sum_Z_cons. destruct (active a && _); cbn [map]; rewrite <- IH, ?sum_Z_cons; lia.
Qed.

Lemma octets_dset d t k a :
  octets_reserves (dset d k a) t
  = octets_reserves d t - match dget d k with Some old => contribution t old | None => 0 end + contribution t a.
Proof.
  rewrite !octets_sum. unfold dvalues. induction d as [|[k' v] d IH]; cbn [dset dget map snd]; [cbn; lia|].
  destruct (decide (k' = k)); cbn [map snd]; rewrite !sum_Z_cons; [lia|]. rewrite IH. lia.
Qed.

Lemma contribution_nonneg t a : 0 <= al_requested a -> 0 <= contribution t a.
Proof. unfold contribution. destruct (_ && _); lia. Qed.

Lemma octets_nonneg d t : (forall a, a ∈ dvalues d -> 0 <= al_requested a) -> 0 <= octets_reserves d t.
Proof.
  rewrite octets_sum. induction (dvalues d) as [|a l IH]; intros Ha; [done|]. cbn [map]. rewrite sum_Z_cons.
  pose proof (contribution_nonneg t a (Ha a ltac:(set_solver))). assert (0 <= sum_Z (map (contribution t) l)) by (apply IH; set_solver). lia.
Qed.

Lemma elem_dset {V} (d : pydict V) k v x : x ∈ dvalues (dset d k v) -> x = v \/ x ∈ dvalues d.
Proof.
  unfold dvalues. induction d as [|[k' v'] d IH]; cbn; [set_solver|]. case_decide; cbn; set_solver.
Qed.

Lemma dget_dvalues {V} (d : pydict V) k v : dget d k = Some v -> v ∈ dvalues d.
Proof. intros Hk%dget_Some_elem. unfold dvalues. apply list_elem_of_fmap. by exists (k, v). Qed.

(** ** Histories *)

Inductive res_op (P : Type) :=
  | RReserve (t : ResourceType.t) (rq : Request)
  | RRelease (id : string)
  | RCan (t : ResourceType.t) (rq : Request)
  | RPlaces (octets : Z) (rid : string) (t : ResourceType.t)
  | RCheck
  | RStatus
  | RLimit (t : ResourceType.t) (l : ResourceLimit)
  | RPolicy (p : P)
  | RListen (b : bool).
Arguments RReserve {P}.
Arguments RRelease {P}.
Arguments RCan {P}.
Arguments RPlaces {P}.
Arguments RCheck {P}.
Arguments RStatus {P}.
Arguments RLimit {P}.
Arguments RPolicy {P}.
Arguments RListen {P}.

(** A request is of a number of bytes. *)
Definition sized {P} (op : res_op P) : bool :=
  match op with RReserve _ rq => 0 <=? rq_bytes rq | _ => true end.

(** Requests of memory or of the card, of a number of bytes. *)
Definition regular {P} (op : res_op P) : bool :=
  match op with
  | RReserve t rq => bool_decide (t ∈ [ResourceType.VRAM; ResourceType.RAM]) && (0 <=? rq_bytes rq)
  | _ => true
  end.

Section runs.
Variable gpu : nat -> GPUInfo.
Variable meminfo : nat -> option MemInfo * option (Z * Z).
Variable clock : nat -> Z.
Variable uuid_hex : nat -> string.
Variable listener : nat -> option exn.
Variable text : message -> string.
Context {P : Type} `{!AllocationPolicy P, !PolicyLaws P}.
Implicit Types m : ResourceManager P.

#[local] Abbreviation can := (can_allocate (P := P) gpu meminfo clock uuid_hex).
#[local] Abbreviation reserve := (reserve_resources (P := P) gpu meminfo clock uuid_hex listener text).
#[local] Abbreviation reserved m t := (octets_reserves (rm_allocations m) t).

Definition run_res_op (op : res_op P) : M (ResourceManager P) unit :=
  match op with
  | RReserve t rq => discard (reserve t rq)
  | RRelease id => discard (release_resources listener id)
  | RCan t rq => discard (can t rq)
  | RPlaces o rid t => discard (places_disponibles gpu meminfo clock uuid_hex o rid t)
  | RCheck => discard (check_thresholds gpu meminfo clock listener)
  | RStatus => discard (get_status gpu meminfo clock)
  | RLimit t l => set_limit t l
  | RPolicy p => set_policy p
  | RListen b => set_event_callback b
  end.

Definition run_res_ops (ops : list (res_op P)) m : ResourceManager P :=
  fold_left (fun m op => (run_res_op op m).2) ops m.

(** Readings leave the allocations and the policy alone. *)
Definition reads (m m' : ResourceManager P) : Prop :=
  rm_allocations m' = rm_allocations m /\ rm_policy m' = rm_policy m /\ rm_listening m' = rm_listening m /\
  (rm_uuids m <= rm_uuids m')%nat.

#[global] Instance reads_preorder : PreOrder reads.
Proof. split; [by intros m|]. intros m1 m2 m3 (? & ? & ? & ?) (? & ? & ? & ?). split_and!; congruence || lia. Qed.

(** What the card answers when it is polled next. *)
Definition card m : GPUInfo := gpu (rm_polls m).

(** The decision on a request. *)
Definition view_fits m (t : ResourceType.t) (base : ResourceSnapshot) (b : Z) : bool :=
  if decide (t = ResourceType.RAM) then policy_fits (rm_policy m) (reserved_ram base (reserved m t)) (card m) b
  else policy_fits (rm_policy m) (reserved_vram (card m) (reserved m t)) (reserved_gpu (card m) (reserved m t)) b.

(** The type under which a request is recorded. *)
Definition recorded_type (t : ResourceType.t) : ResourceType.t :=
  if decide (t = ResourceType.RAM) then ResourceType.RAM else ResourceType.VRAM.

Lemma can_allocate_spec t rq m :
  wp (can t rq) (fun r m' => exists base, reads m m' /\
    ar_success r = view_fits m t base (rq_bytes rq) /\
    match ar_allocation r with
    | Some a => ar_success r = true /\ al_requested a = rq_bytes rq /\ al_allocated a = rq_bytes rq /\
        al_released a = false /\ al_type a = recorded_type t /\
        al_id a = uuid_hex (rm_uuids m) /\ rm_uuids m' = S (rm_uuids m)
    | None => ar_success r = false
    end) m.
Proof.
  unfold can_allocate, wp, get_gpu_info, get_memory_snapshot, ask_policy, get, bind, view_fits, recorded_type. fold (card m).
  cbn [rm_allocations rm_memory rm_policy rm_uuids rm_reads].
  destruct (decide (t = ResourceType.RAM)) as [->|Hne].
  - destruct (memory_poll _ _ _) as [base mem]. cbn [rm_allocations rm_policy rm_uuids rm_reads].
    set (r := policy_can_allocate _ _ _ _ _ _). exists base.
    pose proof (law_success (rm_policy m) (uuid_hex (rm_uuids m)) (clock (S (rm_reads m))) (reserved_ram base (reserved m ResourceType.RAM)) (card m) rq) as Hs.
    pose proof (law_allocation (rm_policy m) (uuid_hex (rm_uuids m)) (clock (S (rm_reads m))) (reserved_ram base (reserved m ResourceType.RAM)) (card m) rq) as Ha.
    fold r in Hs, Ha. rewrite Ha, <- Hs. destruct (ar_success r); (split; [split_and!; cbn; lia || done|]); by split_and!.
  - cbn [rm_allocations rm_policy rm_uuids rm_reads]. set (r := policy_can_allocate _ _ _ _ _ _). exists (reserved_vram (card m) 0).
    pose proof (law_success (rm_policy m) (uuid_hex (rm_uuids m)) (clock (rm_reads m)) (reserved_vram (card m) (reserved m t)) (reserved_gpu (card m) (reserved m t)) rq) as Hs.
    pose proof (law_allocation (rm_policy m) (uuid_hex (rm_uuids m)) (clock (rm_reads m)) (reserved_vram (card m) (reserved m t)) (reserved_gpu (card m) (reserved m t)) rq) as Ha.
    fold r in Hs, Ha. rewrite Ha, <- Hs. destruct (ar_success r); (split; [split_and!; cbn; lia || done|]); by split_and!.
Qed.

(** Nobody listens, or who listens does not raise. *)
Definition quiet m : Prop := rm_listening m = false \/ forall i, listener i = None.

Lemma quiet_eq m m' : rm_listening m' = rm_listening m -> quiet m -> quiet m'.
Proof. unfold quiet. by intros ->. Qed.

(** Telling the listener leaves the manager alone, and answers what follows
    unless the listener raises. *)
Lemma told_spec {A} ev payload sev (x : A) m :
  let o := (on_event listener ev payload sev ;;; ret x) m in
  rm_allocations o.2 = rm_allocations m /\ rm_policy o.2 = rm_policy m /\ rm_listening o.2 = rm_listening m /\
  rm_uuids o.2 = rm_uuids m /\ (quiet m -> o.1 = Ok x).
Proof.
  unfold on_event, bind, quiet.
  destruct (rm_listening m) eqn:Hl; [destruct (listener _) eqn:Hi|]; cbn; split_and!; try done.
  intros [?|Hq]; [done|]. by rewrite Hq in Hi.
Qed.

(** A reservation: the answer is that of [can_allocate], and what it allocates
    is recorded, even when the listener raises. *)
Lemma reserve_spec t rq m :
  exists r base, ar_success r = view_fits m t base (rq_bytes rq) /\
    let o := reserve t rq m in
    rm_policy o.2 = rm_policy m /\ rm_listening o.2 = rm_listening m /\ (quiet m -> o.1 = Ok r) /\
    match ar_allocation r with
    | Some a => ar_success r = true /\ al_requested a = rq_bytes rq /\ al_released a = false /\
        al_type a = recorded_type t /\ al_id a = uuid_hex (rm_uuids m) /\ rm_uuids o.2 = S (rm_uuids m) /\
        rm_allocations o.2 = dset (rm_allocations m) (al_id a) a
    | None => ar_success r = false /\ rm_allocations o.2 = rm_allocations m /\ (rm_uuids m <= rm_uuids o.2)%nat
    end.
Proof.
  destruct (wp_ok _ _ _ (can_allocate_spec t rq m)) as (r & m1 & Hrun & base & (Ha & Hp & Hl & Hu) & Hs & Hr).
  exists r, base. split; [done|]. cbv zeta. unfold reserve_resources. rewrite (bind_ok _ _ _ _ _ Hrun).
  destruct (ar_allocation r) as [a|].
  - destruct Hr as (Hok & Hreq & _ & Hrel & Hty & Hid & Hu1). rewrite Hok.
    set (m2 := with_allocations (dset (rm_allocations m1) (al_id a) a) m1).
    match goal with |- context [bind (on_event listener ?e ?pl ?sv)] => pose proof (told_spec e pl sv r m2) as (Ha2 & Hp2 & Hl2 & Hu2 & Hq) end.
    match goal with |- context [bind ?f ?k m1] => change (bind f k m1) with (k tt m2); cbv beta end. subst m2. cbn [with_allocations rm_allocations rm_policy rm_listening rm_uuids] in *.
    split_and!; [congruence|congruence|intros Hquiet; apply Hq; eapply quiet_eq; [|exact Hquiet]; exact Hl|congruence..|by rewrite <- Ha].
  - rewrite Hr.
    match goal with |- context [bind (on_event listener ?e ?pl ?sv)] => pose proof (told_spec e pl sv r m1) as (Ha2 & Hp2 & Hl2 & Hu2 & Hq) end.
    split_and!; [congruence|congruence|intros Hquiet; apply Hq; eapply quiet_eq; [|exact Hquiet]; exact Hl|congruence..|lia].
Qed.

(** ** Operations that only read *)

Definition only_reads {A} (x : M (ResourceManager P) A) : Prop := forall m, reads m (x m).2.

Lemma only_reads_ret {A} (a : A) : only_reads (ret a).
Proof. by intros m. Qed.

Lemma only_reads_get : only_reads get.
Proof. by intros m. Qed.

Lemma only_reads_bind {A B} (x : M (ResourceManager P) A) (f : A -> M (ResourceManager P) B) :
  only_reads x -> (forall a, only_reads (f a)) -> only_reads (bind x f).
Proof.
  intros Hx Hf m. unfold bind. specialize (Hx m). destruct (x m) as [[a|e] m1]; cbn in *; [|exact Hx].
  etransitivity; [exact Hx|apply Hf].
Qed.

Lemma only_reads_for_each {A} (l : list A) body : (forall a, only_reads (body a)) -> only_reads (for_each l body).
Proof.
  intros Hb. induction l as [|a l IH]; [exact (only_reads_ret tt)|]. cbn.
  apply only_reads_bind; [apply Hb|intros []; exact IH].
Qed.

Lemma only_reads_event ev payload sev : only_reads (on_event listener ev payload sev).
Proof. intros m. unfold on_event. destruct (rm_listening m); by split_and!. Qed.

Lemma only_reads_gpu : only_reads (get_gpu_info gpu).
Proof. intros m. by split_and!. Qed.

Lemma only_reads_memory : only_reads (get_memory_snapshot meminfo clock).
Proof. intros m. unfold get_memory_snapshot. destruct (memory_poll _ _ _). by split_and!. Qed.

Lemma only_reads_can t rq : only_reads (can t rq).
Proof. intros m. destruct (wp_ok _ _ _ (can_allocate_spec t rq m)) as (r & m1 & -> & base & Hr & _). exact Hr. Qed.

Lemma only_reads_places left places o rid t :
  only_reads (places_loop gpu meminfo clock uuid_hex left places o rid t).
Proof.
  revert places. induction left as [|left IH]; intros places; cbn [places_loop]; [apply only_reads_ret|].
  apply only_reads_bind; [apply only_reads_can|]. intros r. destruct (ar_success r); [apply IH|apply only_reads_ret].
Qed.

Lemma only_reads_places_free o rid t : only_reads (places_disponibles gpu meminfo clock uuid_hex o rid t).
Proof. unfold places_disponibles. case_decide; [apply only_reads_ret|apply only_reads_places]. Qed.

#[local] Hint Resolve only_reads_ret only_reads_get only_reads_for_each only_reads_event only_reads_gpu
  only_reads_memory : hermes.

Ltac only_reads := repeat (apply only_reads_bind; [auto with hermes|intros ?]); auto with hermes.

Lemma only_reads_check : only_reads (check_thresholds gpu meminfo clock listener).
Proof. unfold check_thresholds. only_reads. Qed.

Lemma only_reads_status : only_reads (get_status gpu meminfo clock).
Proof. unfold get_status. only_reads. Qed.

(** ** What the operations do to the reservations

    An operation records a reservation under the id it made, or marks one as
    released, or leaves them as they are. *)
Variant op_effect (op : res_op P) m m' : Prop :=
  | EffectNone : rm_allocations m' = rm_allocations m -> (rm_uuids m <= rm_uuids m')%nat -> op_effect op m m'
  | EffectReserved t rq a base : op = RReserve t rq -> view_fits m t base (rq_bytes rq) = true ->
      al_requested a = rq_bytes rq -> al_released a = false -> al_type a = recorded_type t ->
      al_id a = uuid_hex (rm_uuids m) -> rm_uuids m' = S (rm_uuids m) ->
      rm_allocations m' = dset (rm_allocations m) (al_id a) a -> op_effect op m m'
  | EffectReleased id a : dget (rm_allocations m) id = Some a -> al_released a = false -> rm_uuids m' = rm_uuids m ->
      rm_allocations m' = dset (rm_allocations m) id (release a) -> op_effect op m m'.

Lemma effect_reads op m m' : reads m m' -> op_effect op m m' /\ rm_policy m' = rm_policy m.
Proof. intros (? & ? & _ & ?). split; [by apply EffectNone|done]. Qed.

Lemma release_eq id m :
  release_resources listener id m =
  match dget (rm_allocations m) id with
  | None => (Ok None, m)
  | Some a =>
      if al_released a then (Ok None, m)
      else (on_event listener "resource.released"
              [("allocation_id", PStr id); ("runtime_id", PStr (al_runtime a)); ("bytes", PInt (al_allocated a))] "info" ;;;
            ret (Some (al_allocated a))) (with_allocations (dset (rm_allocations m) id (release a)) m)
  end.
Proof.
  unfold release_resources. rewrite (bind_ok get _ m m m eq_refl). destruct (dget _ id) as [a|]; [|done]. by destruct (al_released a).
Qed.

Lemma effect_release op id m :
  let m' := (release_resources listener id m).2 in op_effect op m m' /\ rm_policy m' = rm_policy m.
Proof.
  cbv zeta. rewrite release_eq. destruct (dget (rm_allocations m) id) as [a|] eqn:Hid; [|by apply effect_reads].
  destruct (al_released a) eqn:Hrel; [by apply effect_reads|]. set (m2 := with_allocations (dset (rm_allocations m) id (release a)) m).
  match goal with |- context [bind (on_event listener ?e ?pl ?sv)] =>
    pose proof (told_spec e pl sv (Some (al_allocated a)) m2) as (Ha2 & Hp2 & _ & Hu2 & _) end.
  split; [|by rewrite Hp2]. by apply (EffectReleased _ _ _ id a).
Qed.

(** Only [set_policy] changes the policy. *)
Definition policy_after (op : res_op P) m : P := match op with RPolicy p => p | _ => rm_policy m end.

Lemma run_res_op_effect op m :
  op_effect op m (run_res_op op m).2 /\ rm_policy (run_res_op op m).2 = policy_after op m.
Proof.
  destruct op as [t rq|id|t rq|o rid t| | |t l|p|b]; cbn [run_res_op policy_after]; rewrite ?discard_state;
    try (apply effect_reads; first [apply only_reads_can|apply only_reads_places_free|apply only_reads_check|apply only_reads_status]);
    try (split; [by apply EffectNone|done]).
  - destruct (reserve_spec t rq m) as (r & base & Hs & Hp & _ & _ & Hr). split; [|done].
    destruct (ar_allocation r) as [a|]; [|by apply EffectNone; apply Hr].
    destruct Hr as (Hok & ? & ? & ? & ? & ? & ?). rewrite Hok in Hs. by apply (EffectReserved _ _ _ t rq a base).
  - apply effect_release.
Qed.

Lemma contribution_recorded t a :
  al_released a = false -> al_type a = recorded_type t ->
  contribution ResourceType.VRAM a = if decide (t = ResourceType.RAM) then 0 else al_requested a.
Proof.
  intros Hrel Hty. unfold contribution, active. rewrite Hrel, Hty. unfold recorded_type. by case_decide.
Qed.

(** ** The bound *)

(** Requests are of numbers of bytes. *)
Definition nonneg m : Prop := forall a, a ∈ dvalues (rm_allocations m) -> 0 <= al_requested a.

Lemma old_nonneg d k t :
  (forall a, a ∈ dvalues d -> 0 <= al_requested a) ->
  0 <= match dget d k with Some old => contribution t old | None => 0 end.
Proof.
  intros Hn. destruct (dget d k) as [old|] eqn:Hk; [|lia]. by apply contribution_nonneg, Hn, (dget_dvalues _ k).
Qed.

Lemma effect_nonneg (op : res_op P) m m' : sized op = true -> op_effect op m m' -> nonneg m -> nonneg m'.
Proof.
  intros Hs [Ha _|t rq a base -> _ Hreq _ _ _ _ Ha|id a Hid _ _ Ha] Hn; unfold nonneg; rewrite Ha; [done| |].
  - cbn in Hs. apply Z.leb_le in Hs. intros b [->|Hb]%elem_dset; [lia|by apply Hn].
  - intros b [->|Hb]%elem_dset; [|by apply Hn]. cbn. by apply Hn, (dget_dvalues _ id).
Qed.

(** A grant on the card: it was asked, it adds its bytes at most, and, when there
    is a card, what it uses when it is polled for the grant, what is reserved
    under the type that is asked and the bytes stay together under the share of
    the policy in force.
    On the card that is all that is then reserved; nothing is reserved under
    the processor or another type, whose requests see the card's use alone. *)
Definition grant (op : res_op P) m m' : Prop :=
  exists t rq, op = RReserve t rq /\ t <> ResourceType.RAM /\
    reserved m' ResourceType.VRAM <= reserved m ResourceType.VRAM + rq_bytes rq /\
    (0 < gi_total (card m) ->
     (inject_Z (gi_used (card m) + reserved m t + rq_bytes rq) <= policy_cap (rm_policy m) * inject_Z (gi_total (card m)))%Q /\
     (t = ResourceType.VRAM ->
      (inject_Z (gi_used (card m) + reserved m' ResourceType.VRAM) <= policy_cap (rm_policy m) * inject_Z (gi_total (card m)))%Q)).

Lemma effect_bound op m m' :
  nonneg m -> op_effect op m m' ->
  reserved m' ResourceType.VRAM <= reserved m ResourceType.VRAM \/ grant op m m'.
Proof.
  intros Hn [Ha _|t rq a base -> Hs Hreq Hrel Hty _ _ Ha|id a Hid Hrel _ Ha].
  - left. by rewrite Ha.
  - pose proof (old_nonneg (rm_allocations m) (al_id a) ResourceType.VRAM Hn) as Hold.
    pose proof (octets_dset (rm_allocations m) ResourceType.VRAM (al_id a) a) as Hsum. rewrite <- Ha in Hsum.
    rewrite (contribution_recorded t) in Hsum by done. rewrite Hreq in Hsum.
    unfold view_fits in Hs. case_decide as Hram; [left; lia|right].
    exists t, rq. split_and!; [done|done|lia|]. intros Hcard. apply law_cap in Hs; [|done]. split; [exact Hs|].
    intros ->. eapply Qle_trans; [|exact Hs]. rewrite <- Zle_Qle. lia.
  - left. assert (0 <= contribution ResourceType.VRAM a) by (by apply contribution_nonneg, Hn, (dget_dvalues _ id)).
    rewrite Ha, octets_dset, Hid. cbn. lia.
Qed.

Lemma new_nonneg p listening : nonneg (new_manager p listening).
Proof. by intros a ?%elem_of_nil. Qed.

Lemma run_res_ops_nonneg ops m : forallb sized ops = true -> nonneg m -> nonneg (run_res_ops ops m).
Proof.
  revert m. induction ops as [|op ops IH]; intros m Hs Hn; [done|]. cbn in Hs. apply andb_true_iff in Hs as [Ho Hs].
  cbn. apply IH; [done|]. eapply effect_nonneg; [exact Ho|apply run_res_op_effect|done].
Qed.

Lemma regular_sized (op : res_op P) : regular op = true -> sized op = true.
Proof. destruct op; try done. cbn. by intros [_ ?]%andb_true_iff. Qed.

(** ** Ids *)

(** Nothing is recorded yet under the ids to come. *)
Definition fresh m : Prop := forall i, (rm_uuids m <= i)%nat -> dget (rm_allocations m) (uuid_hex i) = None.

(** What is recorded is of the card or of memory. *)
Definition two_types m : Prop := forall a, a ∈ dvalues (rm_allocations m) -> al_type a ∈ [ResourceType.VRAM; ResourceType.RAM].

Lemma effect_fresh op m m' : Inj (=) (=) uuid_hex -> op_effect op m m' -> fresh m -> fresh m'.
Proof.
  intros Hinj [Ha Hu|t rq a base _ _ _ _ _ Hid Hu Ha|id a Hid _ Hu Ha] Hf i Hi; rewrite Ha.
  - apply Hf. lia.
  - rewrite Hid, dget_dset_ne; [apply Hf; lia|]. intros Heq%Hinj. lia.
  - rewrite dget_dset_ne; [apply Hf; lia|]. intros ->. rewrite Hf in Hid by lia. done.
Qed.

Lemma effect_two_types op m m' : op_effect op m m' -> two_types m -> two_types m'.
Proof.
  intros [Ha Hu|t rq a base _ _ _ _ Hty _ _ Ha|id a Hid _ _ Ha] Ht b; rewrite Ha; [apply Ht| |].
  - intros [->|Hb]%elem_dset; [|by apply Ht]. rewrite Hty. unfold recorded_type. case_decide; set_solver.
  - intros [->|Hb]%elem_dset; [|by apply Ht]. cbn. by apply Ht, (dget_dvalues _ id).
Qed.

Lemma run_res_ops_inv (I : ResourceManager P -> Prop) ops m :
  (forall op m m', op_effect op m m' -> I m -> I m') -> I m -> I (run_res_ops ops m).
Proof.
  intros Hop. revert m. induction ops as [|op ops IH]; intros m Hm; [done|]. cbn. apply IH.
  eapply Hop; [apply run_res_op_effect|done].
Qed.

Lemma new_fresh p listening : fresh (new_manager p listening).
Proof. done. Qed.

Lemma new_two_types p listening : two_types (new_manager p listening).
Proof. by intros a ?%elem_of_nil. Qed.

(** ** What is promised *)

(** C19: In any state that the operations reach, if the requests made so far were
    of a number of bytes, whatever the card answers each time it is polled and
    whatever policies are set on the way: an operation makes what is reserved on
    the card grow only if it is a reservation, not of memory, and by its bytes at
    most; and, unless there is no card, only if what the card uses when it is
    polled for it, what is reserved under the type that is asked and the bytes
    stay together under the share that the policy in force allows.  Right after
    a reservation of the card, what the card then used and all that is reserved on
    it are so together under that share; a reservation of the processor or of
    another type is counted on the card too, and sees nothing of what is reserved
    there ([cpu_overbooks]). *)
Theorem reservations_bounded p listening ops op :
  forallb sized ops = true ->
  let m := run_res_ops ops (new_manager p listening) in
  let m' := (run_res_op op m).2 in
  reserved m' ResourceType.VRAM <= reserved m ResourceType.VRAM \/ grant op m m'.
Proof.
  intros Hs m m'. apply effect_bound; [|apply run_res_op_effect]. apply run_res_ops_nonneg; [done|apply new_nonneg].
Qed.

(** The policies that an operation sets allow a share at most. *)
Definition modest (share : Q) (op : res_op P) : Prop :=
  match op with RPolicy p => (policy_cap p <= share)%Q | _ => True end.

(** At no time is more reserved than the greatest share leaves: on a card of
    [total] bytes of which at least [used] are used at every poll, under policies
    whose shares are at most [share], when only the card and memory are asked. *)
Theorem reserved_under_share p listening ops total used share :
  (forall i, gi_total (gpu i) = total /\ used <= gi_used (gpu i)) -> 0 < total ->
  (policy_cap p <= share)%Q -> Forall (modest share) ops -> forallb regular ops = true ->
  let m := run_res_ops ops (new_manager p listening) in
  reserved m ResourceType.VRAM = 0 \/ (inject_Z (used + reserved m ResourceType.VRAM) <= share * inject_Z total)%Q.
Proof.
  intros Hgpu Htot Hp Hops Hr. cbv zeta.
  enough (H : forall m, nonneg m -> (policy_cap (rm_policy m) <= share)%Q ->
    (reserved m ResourceType.VRAM = 0 \/ (inject_Z (used + reserved m ResourceType.VRAM) <= share * inject_Z total)%Q) ->
    reserved (run_res_ops ops m) ResourceType.VRAM = 0 \/
    (inject_Z (used + reserved (run_res_ops ops m) ResourceType.VRAM) <= share * inject_Z total)%Q)
    by (apply H; [apply new_nonneg|done|by left]).
  induction Hops as [|op ops Hop Hops IH]; intros m Hn Hc Hm; [done|]. cbn in Hr. apply andb_true_iff in Hr as [Ho Hr].
  cbn. destruct (run_res_op_effect op m) as [He Hpol]. pose proof (Hgpu (rm_polls m)) as [Ht Hu].
  pose proof (effect_nonneg op m _ (regular_sized _ Ho) He Hn) as Hn'. apply IH; [done|done| |].
  - rewrite Hpol. by destruct op.
  - pose proof (octets_nonneg _ ResourceType.VRAM Hn') as H0.
    destruct (effect_bound op m _ Hn He) as [Hle|(t & rq & -> & Hram & _ & Hb)].
    + destruct Hm as [Hm|Hm]; [left; lia|right]. eapply Qle_trans; [|exact Hm]. rewrite <- Zle_Qle. lia.
    + right. cbn in Ho. apply andb_true_iff in Ho as [Hty%bool_decide_eq_true _].
      destruct (Hb ltac:(unfold card; lia)) as [_ Hcap]. specialize (Hcap ltac:(set_solver)). unfold card in Hcap. rewrite Ht in Hcap. eapply Qle_trans; [|eapply Qle_trans; [exact Hcap|]].
      * rewrite <- Zle_Qle. lia.
      * apply Qmult_le_compat_r; [done|]. change 0%Q with (inject_Z 0). rewrite <- Zle_Qle. lia.
Qed.

(** A reservation is given back once: releasing one that is active answers
    its bytes and takes what was asked off what is reserved under its type, and
    off no other; released again, or unknown, it answers nothing and changes
    nothing. *)
Theorem released_once id m :
  quiet m ->
  let o := release_resources listener id m in
  match dget (rm_allocations m) id with
  | Some a =>
      if active a then
        o.1 = Ok (Some (al_allocated a)) /\
        (forall t, reserved o.2 t = reserved m t - if decide (t = al_type a) then al_requested a else 0) /\
        release_resources listener id o.2 = (Ok None, o.2)
      else o = (Ok None, m)
  | None => o = (Ok None, m)
  end.
Proof.
  intros Hq. cbv zeta. rewrite (release_eq id m).
  destruct (dget (rm_allocations m) id) as [a|] eqn:Hid; [|done]. unfold active. destruct (al_released a) eqn:Hrel; [done|]. cbn [negb].
  set (m2 := with_allocations (dset (rm_allocations m) id (release a)) m).
  match goal with |- context [bind (on_event listener ?e ?pl ?sv)] =>
    pose proof (told_spec e pl sv (Some (al_allocated a)) m2) as (Ha2 & _ & _ & _ & Hok) end.
  destruct (bind _ _ m2) as [r m3] eqn:Hrun. cbn [fst snd] in *. split; [by apply Hok; eapply quiet_eq|]. split.
  - intros t. rewrite Ha2. cbn [m2 with_allocations rm_allocations]. rewrite octets_dset, Hid. unfold contribution, active.
    rewrite Hrel. cbn. case_decide as Ht; [rewrite bool_decide_eq_true_2 by done|rewrite bool_decide_eq_false_2 by congruence]; lia.
  - rewrite release_eq, Ha2. cbn [m2 with_allocations rm_allocations].
    by rewrite dget_dset_eq.
Qed.
End runs.

(** ** A card that answers the same at every poll *)

Section steady.
Variable g : GPUInfo.
Variable meminfo : nat -> option MemInfo * option (Z * Z).
Variable clock : nat -> Z.
Variable uuid_hex : nat -> string.
Variable listener : nat -> option exn.
Variable text : message -> string.
Context {P : Type} `{!AllocationPolicy P, !PolicyLaws P}.
Implicit Types m : ResourceManager P.

#[local] Abbreviation steady := (fun _ : nat => g).
#[local] Abbreviation can := (can_allocate (P := P) steady meminfo clock uuid_hex).
#[local] Abbreviation reserve := (reserve_resources (P := P) steady meminfo clock uuid_hex listener text).
#[local] Abbreviation reserved m t := (octets_reserves (rm_allocations m) t).
#[local] Abbreviation run_res_ops := (run_res_ops (P := P) steady meminfo clock uuid_hex listener text).
#[local] Abbreviation run_res_op := (run_res_op (P := P) steady meminfo clock uuid_hex listener text).
#[local] Abbreviation fresh := (fresh (P := P) uuid_hex).
#[local] Abbreviation quiet := (quiet (P := P) listener).

(** ** Reservations in a row *)

(** [n] reservations, one after the other, all granted or not. *)
Fixpoint book (n : nat) (t : ResourceType.t) (rq : Request) m : bool * ResourceManager P :=
  match n with
  | O => (true, m)
  | S n' => match reserve t rq m with
            | (Ok r, m') => if ar_success r then book n' t rq m' else (false, m')
            | (Err _, m') => (false, m')
            end
  end.

(** The bytes fit on the card beside what is reserved. *)
Definition card_fits m (r b : Z) : bool := policy_fits (rm_policy m) (reserved_vram g r) (reserved_gpu g r) b.

(** One reservation that is not of memory. *)
Lemma reserve_card t rq m :
  t <> ResourceType.RAM -> quiet m -> fresh m -> Inj (=) (=) uuid_hex ->
  exists r m', reserve t rq m = (Ok r, m') /\ ar_success r = card_fits m (reserved m t) (rq_bytes rq) /\
    rm_policy m' = rm_policy m /\ quiet m' /\ fresh m' /\ (two_types m -> two_types m') /\
    (ar_success r = true -> reserved m' ResourceType.VRAM = reserved m ResourceType.VRAM + rq_bytes rq).
Proof.
  intros Hne Hq Hf Hinj. destruct (reserve_spec steady meminfo clock uuid_hex listener text t rq m) as (r & base & Hs & Hp & Hl & Hok & Hr).
  destruct (run_res_op_effect steady meminfo clock uuid_hex listener text (RReserve t rq) m) as [He _]. cbn [run_res_op] in He. rewrite discard_state in He.
  specialize (Hok Hq). destruct (reserve t rq m) as [r' m'] eqn:Hrun. cbn [fst snd] in *. subst r'.
  exists r, m'. split; [done|]. split; [by rewrite Hs; unfold view_fits; rewrite decide_False|].
  split; [done|]. split; [by eapply quiet_eq|]. split; [by eapply effect_fresh|]. split; [by apply (effect_two_types steady uuid_hex (RReserve t rq))|].
  intros Hsucc. destruct (ar_allocation r) as [a|]; [|by destruct Hr as [Hr _]; rewrite Hsucc in Hr].
  destruct Hr as (_ & Hreq & Hrel & Hty & Hid & _ & ->).
  rewrite octets_dset, Hid, Hf by lia. rewrite (contribution_recorded t), decide_False, Hreq by done. lia.
Qed.

Lemma card_fits_linear m r b : card_fits m r b = card_fits m 0 (r + b).
Proof. apply law_linear. Qed.

Lemma reserved_none m t : t ∉ [ResourceType.VRAM; ResourceType.RAM] -> two_types m -> reserved m t = 0.
Proof.
  intros Ht Hm. rewrite octets_sum. unfold two_types in Hm. induction (dvalues (rm_allocations m)) as [|a l IH]; [done|].
  cbn [map]. rewrite sum_Z_cons, IH by set_solver. unfold contribution. rewrite bool_decide_eq_false_2, andb_false_r; [done|].
  intros <-. apply Ht, Hm. set_solver.
Qed.

(** Reservations on the card are all granted when each sum fits. *)
Lemma book_card n rq m :
  quiet m -> fresh m -> Inj (=) (=) uuid_hex ->
  (book n ResourceType.VRAM rq m).1 = true <->
  forall i, (i < n)%nat -> card_fits m 0 (reserved m ResourceType.VRAM + (Z.of_nat i + 1) * rq_bytes rq) = true.
Proof.
  revert m. induction n as [|n IH]; intros m Hq Hf Hinj; [split; [lia|done]|].
  destruct (reserve_card ResourceType.VRAM rq m) as (r & m' & Hrun & Hs & Hp & Hq' & Hf' & _ & Hsum); [done..|].
  cbn [book]. rewrite Hrun. rewrite card_fits_linear in Hs. destruct (ar_success r) eqn:Hr.
  - rewrite (IH m' Hq' Hf' Hinj), Hsum by done. unfold card_fits at 1. rewrite Hp. split; intros Hall i Hi.
    + destruct i as [|i]; [rewrite Hs; f_equal; lia|]. rewrite <- (Hall i) by lia. unfold card_fits. f_equal. lia.
    + specialize (Hall (S i) ltac:(lia)). rewrite <- Hall. unfold card_fits. f_equal. lia.
  - split; [done|]. intros Hall. specialize (Hall 0%nat ltac:(lia)). cbn [fst]. rewrite <- Hall, Hs. f_equal. lia.
Qed.

(** Reservations of a type that nothing is recorded under are all granted when
    the first one is. *)
Lemma book_untracked n t rq m :
  t ∉ [ResourceType.VRAM; ResourceType.RAM] -> quiet m -> fresh m -> two_types m -> Inj (=) (=) uuid_hex ->
  card_fits m 0 (rq_bytes rq) = true ->
  let o := book n t rq m in
  o.1 = true /\ reserved o.2 ResourceType.VRAM = reserved m ResourceType.VRAM + Z.of_nat n * rq_bytes rq.
Proof.
  intros Ht. cbv zeta. revert m. induction n as [|n IH]; intros m Hq Hf H2 Hinj Hfit; [cbn; split; [done|lia]|].
  destruct (reserve_card t rq m) as (r & m' & Hrun & Hs & Hp & Hq' & Hf' & H2' & Hsum); [set_solver|done..|].
  rewrite reserved_none, Hfit in Hs by done. cbn [book]. rewrite Hrun, Hs.
  assert (Hfit' : card_fits m' 0 (rq_bytes rq) = true) by (unfold card_fits; by rewrite Hp).
  destruct (IH m' Hq' Hf' (H2' H2) Hinj Hfit') as [-> ->]. split; [done|]. rewrite Hsum by done. lia.
Qed.

(** The places counted from [places] on. *)
Lemma places_loop_spec left places o rid t m :
  t <> ResourceType.RAM -> exists k m', places_loop steady meminfo clock uuid_hex left places o rid t m = (Ok k, m') /\ reads m m' /\
    (places <= k <= places + left)%nat /\
    (forall i, (places <= i < k)%nat -> card_fits m 0 (reserved m t + (Z.of_nat i + 1) * o) = true) /\
    ((k < places + left)%nat -> card_fits m 0 (reserved m t + (Z.of_nat k + 1) * o) = false).
Proof.
  intros Ht. revert places m. induction left as [|left IH]; intros places m; cbn [places_loop].
  { exists places, m. split_and!; [done|done|lia..]. }
  match goal with |- context [bind (can t ?rq) _ m] => destruct (wp_ok _ _ _ (can_allocate_spec steady meminfo clock uuid_hex t rq m)) as (r & m1 & Hrun & base & Hreads & Hs & _) end.
  rewrite (bind_ok _ _ _ _ _ Hrun). unfold view_fits in Hs. rewrite decide_False in Hs by done.
  assert (Hfit : ar_success r = card_fits m 0 (reserved m t + (Z.of_nat places + 1) * o)).
  { rewrite Hs. etransitivity; [apply card_fits_linear|]. f_equal. cbn. lia. }
  destruct (ar_success r).
  - destruct (IH (S places) m1) as (k & m' & Hk & Hr' & Hle & Hin & Hout).
    assert (Heq : forall x, card_fits m1 0 (reserved m1 t + x) = card_fits m 0 (reserved m t + x)).
    { destruct Hreads as (Ha & Hp & _). intros x. unfold card_fits. by rewrite Ha, Hp. }
    exists k, m'. split; [done|]. split; [by etransitivity|]. split; [lia|]. split.
    + intros i Hi. destruct (decide (i = places)) as [->|]; [done|]. rewrite <- Heq. apply Hin. lia.
    + intros Hlt. rewrite <- Heq. apply Hout. lia.
  - exists places, m1. split_and!; [done|done|lia|lia|lia|done].
Qed.

(** The places announced are those there are: in any state that the
    operations reach, up to the sixteen that are counted, [n] reservations of
    the same size are granted one after the other on the card exactly when [n]
    is at most the places announced. *)
Theorem places_reservable p listening ops rid rq :
  Inj (=) (=) uuid_hex -> 0 <= gi_total g -> 0 < rq_bytes rq ->
  let m := run_res_ops ops (new_manager p listening) in
  quiet m ->
  exists k m', places_disponibles steady meminfo clock uuid_hex (rq_bytes rq) rid ResourceType.VRAM m = (Ok k, m') /\
    (k <= PLACES_MAX)%nat /\
    forall n, (n <= PLACES_MAX)%nat -> (book n ResourceType.VRAM rq m').1 = true <-> (n <= k)%nat.
Proof.
  intros Hinj Hg Hb m Hq. assert (Hf : fresh m).
  { eapply run_res_ops_inv; [|apply new_fresh]. intros op m1 m2. by apply effect_fresh. }
  unfold places_disponibles. rewrite decide_False by lia.
  destruct (places_loop_spec PLACES_MAX 0 (rq_bytes rq) rid ResourceType.VRAM m) as (k & m' & Hrun & Hreads & Hk & Hin & Hout); [done|].
  exists k, m'. split; [done|]. split; [lia|]. intros n Hn. destruct Hreads as (Ha & Hp & Hl & Hu).
  rewrite book_card; [|by eapply quiet_eq|intros i Hi; rewrite Ha; apply Hf; lia|done].
  unfold card_fits in *. rewrite Ha, Hp. split.
  - intros Hall. destruct (decide (n <= k)%nat) as [|Hlt]; [done|]. rewrite Hall in Hout; [discriminate Hout|]; lia.
  - intros Hle i Hi. apply Hin. lia.
Qed.

(** A request of the processor is shown the card alone and is recorded as
    bytes of the card: in any state that the operations reach, if one such
    request fits on the card with nothing reserved, then any number of them is
    granted, and they are all counted on the card. *)
Theorem cpu_overbooks p listening ops n t rq :
  Inj (=) (=) uuid_hex -> t ∉ [ResourceType.VRAM; ResourceType.RAM] ->
  let m := run_res_ops ops (new_manager p listening) in
  policy_fits (rm_policy m) (reserved_vram g 0) (reserved_gpu g 0) (rq_bytes rq) = true ->
  quiet m ->
  let o := book n t rq m in
  o.1 = true /\ reserved o.2 ResourceType.VRAM = reserved m ResourceType.VRAM + Z.of_nat n * rq_bytes rq.
Proof.
  intros Hinj Ht m Hfit Hq. apply book_untracked; [done|done| | |done|].
  - eapply run_res_ops_inv; [|apply new_fresh]. intros op m1 m2. by apply effect_fresh.
  - eapply run_res_ops_inv; [|apply new_two_types]. intros op m1 m2. apply effect_two_types.
  - exact Hfit.
Qed.
End steady.

(** ** Witnesses: a card of sixteen gibibytes, two of them used *)

Definition demo_gpu : GPUInfo := mkGPU "RX 9070" "amd" (16 * GiB) (2 * GiB) (14 * GiB) (Some 50%Q) None (Some 10%Q) true true.
Definition demo_meminfo (_ : nat) : option MemInfo * option (Z * Z) :=
  (Some (mkMemInfo (32 * GiB) (20 * GiB) (10 * GiB) 0 0), None).
Definition demo_clock (i : nat) : Z := 2000000 * Z.of_nat i.
Definition demo_uuid (i : nat) : string := pretty i.
Definition demo_listener (_ : nat) : option exn := None.
Definition demo_text (m : message) : string := "reason".
Definition demo_vram (b : Z) : Request := mkRequest b "ollama" (Some "qwen") 0.

#[local] Instance demo_uuid_inj : Inj (=) (=) demo_uuid.
Proof. unfold demo_uuid. apply _. Qed.

#[local] Abbreviation demo_run ops := (run_res_ops (fun _ => demo_gpu) demo_meminfo demo_clock demo_uuid demo_listener demo_text ops
  (new_manager default_policy true)).

Definition demo_ops : list (res_op DefaultAllocationPolicy) :=
  [RReserve ResourceType.VRAM (demo_vram (5 * GiB)); RReserve ResourceType.VRAM (demo_vram (5 * GiB));
   RReserve ResourceType.VRAM (demo_vram (5 * GiB)); RRelease "0"; RCheck].

(** The third is refused, the first is given back. *)
Example demo_reserved : octets_reserves (rm_allocations (demo_run demo_ops)) ResourceType.VRAM = 5 * GiB.
Proof. vm_compute. reflexivity. Qed.

Example demo_places :
  (places_disponibles (fun _ => demo_gpu) demo_meminfo demo_clock demo_uuid (3 * GiB) "r" ResourceType.VRAM (demo_run demo_ops)).1 = Ok 2%nat.
Proof. vm_compute. reflexivity. Qed.

(** A model that does not fit is answered by the smallest tier, whatever room
    there is. *)
Example demo_suggested :
  ar_suggested (default_can_allocate default_policy "id" 0 (reserved_vram demo_gpu 0) (reserved_gpu demo_gpu 0)
    (demo_vram (13 * GiB))) = Some "Tier 1 (1B)".
Proof. vm_compute. reflexivity. Qed.

Lemma demo_quiet {P} (m : ResourceManager P) : quiet demo_listener m.
Proof. by right. Qed.

Lemma demo_not_tracked : ResourceType.CPU ∉ [ResourceType.VRAM; ResourceType.RAM].
Proof. by apply (bool_decide_unpack _). Qed.

(** A card that fills as models are loaded. *)
Definition demo_filling (i : nat) : GPUInfo :=
  mkGPU "RX 9070" "amd" (16 * GiB) ((2 + Z.of_nat i) * GiB) ((14 - Z.of_nat i) * GiB) (Some 50%Q) None (Some 10%Q) true true.

(** A tighter policy is set, then a third model is asked that still fits. *)
Definition demo_change : list (res_op DefaultAllocationPolicy) :=
  [RReserve ResourceType.VRAM (demo_vram (2 * GiB)); RReserve ResourceType.VRAM (demo_vram (3 * GiB));
   RPolicy (mkDefaultPolicy (7 # 10) (85 # 100))].

#[local] Abbreviation demo_filled ops := (run_res_ops demo_filling demo_meminfo demo_clock demo_uuid demo_listener demo_text ops
  (new_manager default_policy true)).

Example demo_filled_grows :
  octets_reserves (rm_allocations (demo_filled demo_change)) ResourceType.VRAM = 5 * GiB /\
  octets_reserves (rm_allocations (demo_filled (demo_change ++ [RReserve ResourceType.VRAM (demo_vram (2 * GiB))])))
    ResourceType.VRAM = 7 * GiB.
Proof. vm_compute. done. Qed.

Lemma reservations_bounded_witness :
  let m := demo_filled demo_change in
  let op := RReserve ResourceType.VRAM (demo_vram (2 * GiB)) in
  let m' := (run_res_op demo_filling demo_meminfo demo_clock demo_uuid demo_listener demo_text op m).2 in
  octets_reserves (rm_allocations m') ResourceType.VRAM <= octets_reserves (rm_allocations m) ResourceType.VRAM \/
  grant demo_filling op m m'.
Proof.
  exact (reservations_bounded demo_filling demo_meminfo demo_clock demo_uuid demo_listener demo_text default_policy true
    demo_change (RReserve ResourceType.VRAM (demo_vram (2 * GiB))) eq_refl).
Defined.

Lemma demo_filling_polls i : gi_total (demo_filling i) = 16 * GiB /\ 2 * GiB <= gi_used (demo_filling i).
Proof. split; [done|]. cbn [demo_filling gi_used]. unfold GiB. lia. Qed.

Lemma demo_change_modest : Forall (modest (P := DefaultAllocationPolicy) (9 # 10)) demo_change.
Proof. repeat constructor; cbn; lra. Qed.

Lemma reserved_under_share_witness :
  let r := octets_reserves (rm_allocations (demo_filled demo_change)) ResourceType.VRAM in
  r = 0 \/ (inject_Z (2 * GiB + r) <= (9 # 10) * inject_Z (16 * GiB))%Q.
Proof.
  exact (reserved_under_share demo_filling demo_meminfo demo_clock demo_uuid demo_listener demo_text default_policy true
    demo_change (16 * GiB) (2 * GiB) (9 # 10)%Q demo_filling_polls eq_refl (Qle_refl (9 # 10)%Q) demo_change_modest eq_refl).
Defined.

Lemma places_reservable_witness :
  exists k m', places_disponibles (fun _ => demo_gpu) demo_meminfo demo_clock demo_uuid (3 * GiB) "r" ResourceType.VRAM
      (demo_run demo_ops) = (Ok k, m') /\
    (k <= PLACES_MAX)%nat /\
    forall n, (n <= PLACES_MAX)%nat ->
      (book demo_gpu demo_meminfo demo_clock demo_uuid demo_listener demo_text n ResourceType.VRAM (demo_vram (3 * GiB)) m').1 = true
      <-> (n <= k)%nat.
Proof.
  exact (places_reservable demo_gpu demo_meminfo demo_clock demo_uuid demo_listener demo_text default_policy true demo_ops "r"
    (demo_vram (3 * GiB)) demo_uuid_inj ltac:(vm_compute; discriminate) eq_refl (demo_quiet _)).
Defined.

(** Ten requests of ten gibibytes for the processor, on a card of sixteen. *)
Lemma cpu_overbooks_witness :
  let m := demo_run demo_ops in
  let o := book demo_gpu demo_meminfo demo_clock demo_uuid demo_listener demo_text 10 ResourceType.CPU (demo_vram (10 * GiB)) m in
  o.1 = true /\ octets_reserves (rm_allocations o.2) ResourceType.VRAM = octets_reserves (rm_allocations m) ResourceType.VRAM + 10 * (10 * GiB).
Proof.
  exact (cpu_overbooks demo_gpu demo_meminfo demo_clock demo_uuid demo_listener demo_text default_policy true demo_ops 10
    ResourceType.CPU (demo_vram (10 * GiB)) demo_uuid_inj demo_not_tracked eq_refl (demo_quiet _)).
Defined.

Lemma released_once_witness :
  let m := demo_run demo_ops in
  let o := release_resources demo_listener "1" m in
  match dget (rm_allocations m) "1" with
  | Some a =>
      if active a then
        o.1 = Ok (Some (al_allocated a)) /\
        (forall t, octets_reserves (rm_allocations o.2) t
           = octets_reserves (rm_allocations m) t - if decide (t = al_type a) then al_requested a else 0) /\
        release_resources demo_listener "1" o.2 = (Ok None, o.2)
      else o = (Ok None, m)
  | None => o = (Ok None, m)
  end.
Proof. intros m. exact (released_once demo_listener "1" m (demo_quiet m)). Defined.
