(* ===== verification/MissionDocuments.v ===== *)
(** * The documents of the missions ([backend/mission/persistance.py] and
    [graph_serializer.py])

    The conversions are reflective: they walk the fields that a dataclass
    declares and read the texts of their annotations.  [obj] is the objects that
    they meet, [class_fields] what the four dataclasses declare, and [mission_obj]
    the object of a mission of [MissionGraph].  A document is a JSON value; its
    text is identified with it. *)
From stdpp Require Import base gmap strings list sets pretty.
From Stdlib Require Import ZArith QArith Ascii Lia.
From S2P Require Import Prelude.
From S2P Require Import MissionGraph.
From S2P Require Import RetryPolicy.
#[local] Open Scope Z_scope.

(** ** Enumerations *)

Module Enumeration.
Inductive cls := Status | Priority | Type_ | Node.
Inductive t :=
  | OfStatus (x : MissionStatus.t)
  | OfPriority (x : MissionPriority.t)
  | OfType (x : MissionType.t)
  | OfNode (x : NodeStatus.t).
#[global] Instance eq_dec : EqDecision t.
Proof. solve_decision. Defined.

Definition value (e : t) : string :=
  match e with
  | OfStatus MissionStatus.CREATED => "created"
  | OfStatus MissionStatus.VALIDATED => "validated"
  | OfStatus MissionStatus.READY => "ready"
  | OfStatus MissionStatus.RUNNING => "running"
  | OfStatus MissionStatus.PAUSED => "paused"
  | OfStatus MissionStatus.COMPLETED => "completed"
  | OfStatus MissionStatus.FAILED => "failed"
  | OfStatus MissionStatus.CANCELLED => "cancelled"
  | OfPriority MissionPriority.CRITICAL => "critical"
  | OfPriority MissionPriority.HIGH => "high"
  | OfPriority MissionPriority.NORMAL => "normal"
  | OfPriority MissionPriority.BACKGROUND => "background"
  | OfType MissionType.DEVELOPMENT => "development"
  | OfType MissionType.RESEARCH => "research"
  | OfType MissionType.ANALYSIS => "analysis"
  | OfType MissionType.DEPLOYMENT => "deployment"
  | OfType MissionType.MAINTENANCE => "maintenance"
  | OfType MissionType.CUSTOM => "custom"
  | OfNode NodeStatus.PENDING => "pending"
  | OfNode NodeStatus.READY => "ready"
  | OfNode NodeStatus.RUNNING => "running"
  | OfNode NodeStatus.COMPLETED => "completed"
  | OfNode NodeStatus.FAILED => "failed"
  | OfNode NodeStatus.BLOCKED => "blocked"
  | OfNode NodeStatus.SKIPPED => "skipped"
  end.

Definition members (c : cls) : list t :=
  match c with
  | Status => map OfStatus [MissionStatus.CREATED; MissionStatus.VALIDATED; MissionStatus.READY; MissionStatus.RUNNING;
                            MissionStatus.PAUSED; MissionStatus.COMPLETED; MissionStatus.FAILED; MissionStatus.CANCELLED]
  | Priority => map OfPriority [MissionPriority.CRITICAL; MissionPriority.HIGH; MissionPriority.NORMAL;
                                MissionPriority.BACKGROUND]
  | Type_ => map OfType [MissionType.DEVELOPMENT; MissionType.RESEARCH; MissionType.ANALYSIS; MissionType.DEPLOYMENT;
                         MissionType.MAINTENANCE; MissionType.CUSTOM]
  | Node => map OfNode [NodeStatus.PENDING; NodeStatus.READY; NodeStatus.RUNNING; NodeStatus.COMPLETED; NodeStatus.FAILED;
                        NodeStatus.BLOCKED; NodeStatus.SKIPPED]
  end.

(** [enumeration(value)]; [None] is the [ValueError]. *)
Definition of_value (c : cls) (v : pyval) : option t :=
  match v with
  | PStr s => List.find (fun e => bool_decide (value e = s)) (members c)
  | _ => None
  end.

Definition cls_of (e : t) : cls :=
  match e with OfStatus _ => Status | OfPriority _ => Priority | OfType _ => Type_ | OfNode _ => Node end.
End Enumeration.

(** ** Objects and classes *)

Inductive mclass := CMission | CContext | CNode | CEdge.

(** A JSON value, an enumeration, a date, an instance of a dataclass with its
    fields, or a list of objects. *)
Inductive obj :=
  | OVal (v : pyval)
  | OEnum (e : Enumeration.t)
  | ODate (t : Z)
  | OInst (c : mclass) (fields : list (string * obj))
  | OList (l : list obj).

(** The fields that the dataclasses declare, with the texts of their annotations. *)
Definition class_fields (c : mclass) : list (string * string) :=
  match c with
  | CMission =>
      [("mission_id", "str"); ("title", "str"); ("description", "str"); ("objective", "str"); ("type", "MissionType");
       ("priority", "MissionPriority"); ("status", "MissionStatus"); ("context", "MissionContext");
       ("nodes", "list[MissionNode]"); ("edges", "list[MissionEdge]"); ("metadata", "dict[str, Any]");
       ("max_duration_seconds", "float"); ("created_at", "datetime"); ("updated_at", "Optional[datetime]");
       ("started_at", "Optional[datetime]"); ("completed_at", "Optional[datetime]")]
  | CContext =>
      [("project_id", "str"); ("user_id", "str"); ("repository", "str"); ("branch", "str"); ("local_path", "str");
       ("tags", "list[str]"); ("metadata", "dict[str, Any]")]
  | CNode =>
      [("node_id", "str"); ("mission_id", "str"); ("title", "str"); ("description", "str"); ("type", "str");
       ("priority", "MissionPriority"); ("status", "NodeStatus"); ("preferred_agent", "str"); ("preferred_runtime", "str");
       ("benchmark_profile", "str"); ("required_skills", "list[str]"); ("estimated_resources", "dict[str, Any]");
       ("estimated_duration_ms", "float"); ("depends_on", "list[str]"); ("validation_criteria", "list[str]");
       ("expected_outputs", "list[str]"); ("started_at", "Optional[datetime]"); ("completed_at", "Optional[datetime]");
       ("actual_duration_ms", "float"); ("result_summary", "str")]
  | CEdge => [("edge_id", "str"); ("source_id", "str"); ("target_id", "str"); ("type", "str")]
  end.

Definition strs (l : list string) : pyval := PList (map PStr l).
Definition odate (o : option Z) : obj := match o with Some t => ODate t | None => OVal PNone end.

(** The object of a mission. *)
Definition context_obj (c : MissionContext) : obj :=
  OInst CContext
    [("project_id", OVal (PStr (mc_project c))); ("user_id", OVal (PStr (mc_user c)));
     ("repository", OVal (PStr (mc_repository c))); ("branch", OVal (PStr (mc_branch c)));
     ("local_path", OVal (PStr (mc_local_path c))); ("tags", OVal (strs (mc_tags c)));
     ("metadata", OVal (PDict (mc_metadata c)))].

Definition node_obj (n : MissionNode) : obj :=
  OInst CNode
    [("node_id", OVal (PStr (mn_id n))); ("mission_id", OVal (PStr (mn_mission n))); ("title", OVal (PStr (mn_title n)));
     ("description", OVal (PStr (mn_description n))); ("type", OVal (PStr (mn_type n)));
     ("priority", OEnum (Enumeration.OfPriority (mn_priority n))); ("status", OEnum (Enumeration.OfNode (mn_status n)));
     ("preferred_agent", OVal (PStr (mn_agent n))); ("preferred_runtime", OVal (PStr (mn_runtime n)));
     ("benchmark_profile", OVal (PStr (mn_profile n))); ("required_skills", OVal (strs (mn_skills n)));
     ("estimated_resources", OVal (PDict (mn_resources n))); ("estimated_duration_ms", OVal (PFloat (mn_estimated n)));
     ("depends_on", OVal (strs (mn_depends n))); ("validation_criteria", OVal (strs (mn_criteria n)));
     ("expected_outputs", OVal (strs (mn_outputs n))); ("started_at", odate (mn_started n));
     ("completed_at", odate (mn_completed n)); ("actual_duration_ms", OVal (PFloat (mn_actual n)));
     ("result_summary", OVal (PStr (mn_summary n)))].

Definition edge_obj (e : MissionEdge) : obj :=
  OInst CEdge
    [("edge_id", OVal (PStr (me_id e))); ("source_id", OVal (PStr (me_source e))); ("target_id", OVal (PStr (me_target e)));
     ("type", OVal (PStr (me_type e)))].

Definition mission_fields (m : Mission) : list (string * obj) :=
    [("mission_id", OVal (PStr (mi_id m))); ("title", OVal (PStr (mi_title m)));
     ("description", OVal (PStr (mi_description m))); ("objective", OVal (PStr (mi_objective m)));
     ("type", OEnum (Enumeration.OfType (mi_type m))); ("priority", OEnum (Enumeration.OfPriority (mi_priority m)));
     ("status", OEnum (Enumeration.OfStatus (mi_status m))); ("context", context_obj (mi_context m));
     ("nodes", OList (map node_obj (mi_nodes m))); ("edges", OList (map edge_obj (mi_edges m)));
     ("metadata", OVal (PDict (mi_metadata m))); ("max_duration_seconds", OVal (PFloat (mi_budget m)));
     ("created_at", ODate (mi_created m)); ("updated_at", odate (mi_updated m)); ("started_at", odate (mi_started m));
     ("completed_at", odate (mi_completed m))].

Definition mission_obj (m : Mission) : obj := OInst CMission (mission_fields m).

(** ** Conversions *)

(** The ids and the dates that the default factories have drawn. *)
Record Draws := mkDraws { dr_uuids : nat; dr_nows : nat }.

Fixpoint m_map {S A B} (f : A -> M S B) (l : list A) : M S (list B) :=
  match l with
  | [] => ret []
  | x :: l' => y <- f x ;; ys <- m_map f l' ;; ret (y :: ys)
  end.

(** [for v in (valeur or [])]: the elements of a list, the keys of a dict, the
    characters of a string. *)
Definition iterate (v : pyval) : res (list pyval) :=
  if truthy v then
    match v with
    | PList l => Ok l
    | PDict d => Ok (map (fun p => PStr p.1) d)
    | PStr s => Ok (map (fun c => PStr (String c EmptyString)) (String.list_ascii_of_string s))
    | _ => Err (Exn TypeError [Msg "object is not iterable" []])
    end
  else Ok [].

(** The enumerations of [_convertir], in the order they are tried. *)
Definition enumerations : list (string * Enumeration.cls) :=
  [("MissionStatus", Enumeration.Status); ("MissionPriority", Enumeration.Priority); ("MissionType", Enumeration.Type_);
   ("NodeStatus", Enumeration.Node)].

Definition BUDGET_MISSION_PAR_DEFAUT_S : Q := 3600.

Definition empty_context : MissionContext := mkMContext "" "" "" "" "" [] [].

Section conversions.
(** The texts of dates, the ids and the clock. *)
Variable isoformat : Z -> string.
Variable fromisoformat : string -> option Z.
Variable uuid_hex : nat -> string.
Variable now : nat -> Z.

(** [_en_brut] *)
Fixpoint en_brut (o : obj) : pyval :=
  match o with
  | ODate t => PStr (isoformat t)
  | OEnum e => PStr (Enumeration.value e)
  | OInst _ fields => PDict (map (fun p => (p.1, en_brut p.2)) fields)
  | OList l => PList (map en_brut l)
  | OVal v => v
  end.

(** The defaults of the dataclasses; the factories draw. *)
Definition fresh_id : M Draws obj := fun d =>
  (Ok (OVal (PStr (uuid_hex (dr_uuids d)))), mkDraws (S (dr_uuids d)) (dr_nows d)).
Definition fresh_date : M Draws obj := fun d => (Ok (ODate (now (dr_nows d))), mkDraws (dr_uuids d) (S (dr_nows d))).

Definition class_defaults (c : mclass) : list (string * M Draws obj) :=
  match c with
  | CMission =>
      [("mission_id", fresh_id); ("type", ret (OEnum (Enumeration.OfType MissionType.CUSTOM)));
       ("priority", ret (OEnum (Enumeration.OfPriority MissionPriority.NORMAL)));
       ("status", ret (OEnum (Enumeration.OfStatus MissionStatus.CREATED))); ("context", ret (context_obj empty_context));
       ("nodes", ret (OList [])); ("edges", ret (OList [])); ("metadata", ret (OVal (PDict [])));
       ("max_duration_seconds", ret (OVal (PFloat BUDGET_MISSION_PAR_DEFAUT_S))); ("created_at", fresh_date);
       ("updated_at", ret (OVal PNone)); ("started_at", ret (OVal PNone)); ("completed_at", ret (OVal PNone))]
  | CContext => [("tags", ret (OVal (PList []))); ("metadata", ret (OVal (PDict [])))]
  | CNode =>
      [("node_id", fresh_id); ("type", ret (OVal (PStr "task")));
       ("priority", ret (OEnum (Enumeration.OfPriority MissionPriority.NORMAL)));
       ("status", ret (OEnum (Enumeration.OfNode NodeStatus.PENDING))); ("required_skills", ret (OVal (PList [])));
       ("estimated_resources", ret (OVal (PDict []))); ("estimated_duration_ms", ret (OVal (PFloat 0)));
       ("depends_on", ret (OVal (PList []))); ("validation_criteria", ret (OVal (PList [])));
       ("expected_outputs", ret (OVal (PList []))); ("started_at", ret (OVal PNone)); ("completed_at", ret (OVal PNone));
       ("actual_duration_ms", ret (OVal (PFloat 0)))]
  | CEdge => [("edge_id", fresh_id); ("type", ret (OVal (PStr "depends_on")))]
  end.

(** The other fields are texts whose default is empty. *)
Definition field_default (c : mclass) (name : string) : M Draws obj :=
  default (ret (OVal (PStr ""))) (dget (class_defaults c) name).

(** The class called on its values. *)
Definition instantiate (c : mclass) (valeurs : list (string * obj)) : M Draws obj :=
  fields <- m_map (fun f => o <- match dget valeurs f.1 with
                                 | Some o => ret o
                                 | None => field_default c f.1
                                 end ;; ret (f.1, o)) (class_fields c) ;;
  ret (OInst c fields).

Section convertir.
(** [_en_objet] on the classes below. *)
Variable lire : mclass -> pyval -> M Draws obj.

(** [_convertir] *)
Definition convertir (texte : string) (valeur : pyval) : M Draws obj :=
  match valeur with
  | PNone => ret (OVal PNone)
  | _ =>
      match List.find (fun p => contains p.1 texte) enumerations with
      | Some (_, k) => ret (match Enumeration.of_value k valeur with Some e => OEnum e | None => OVal PNone end)
      | None =>
          if contains "MissionContext" texte then lire CContext valeur
          else if contains "MissionNode" texte then
            l <- lift (iterate valeur) ;; os <- m_map (lire CNode) l ;; ret (OList os)
          else if contains "MissionEdge" texte then
            l <- lift (iterate valeur) ;; os <- m_map (lire CEdge) l ;; ret (OList os)
          else
            match contains "datetime" texte, valeur with
            | true, PStr s => ret (match fromisoformat s with Some t => ODate t | None => OVal PNone end)
            | _, _ => ret (OVal valeur)
            end
      end
  end.

(** The loop over the items of the document. *)
Fixpoint read_items (c : mclass) (items : list (string * pyval)) (valeurs : list (string * obj))
    : M Draws (list (string * obj)) :=
  match items with
  | [] => ret valeurs
  | (nom, valeur) :: items' =>
      match dget (class_fields c) nom with
      | None => read_items c items' valeurs
      | Some texte => o <- convertir texte valeur ;; read_items c items' (dset valeurs nom o)
      end
  end.
End convertir.

(** [_en_objet]; the classes are nested two deep. *)
Fixpoint en_objet (depth : nat) (c : mclass) (brut : pyval) : M Draws obj :=
  match depth with
  | O => raise (Exn OutOfFuel [])
  | S depth' =>
      match brut with
      | PDict items => valeurs <- read_items (en_objet depth') c items [] ;; instantiate c valeurs
      | _ => ret (OVal brut)
      end
  end.
End conversions.

(** ** The exports of [GraphSerializer] *)

Definition SCHEMA_VERSION : string := "1.0.0".

Section serializer.
Variable isoformat : Z -> string.
Variable uuid_hex : nat -> string.
Variable now : nat -> Z.

(** [_mission_to_dict] *)
Definition node_to_dict (n : MissionNode) : pyval :=
  PDict
    [("node_id", PStr (mn_id n)); ("title", PStr (mn_title n)); ("description", PStr (mn_description n));
     ("type", PStr (mn_type n)); ("priority", PStr (Enumeration.value (Enumeration.OfPriority (mn_priority n))));
     ("status", PStr (Enumeration.value (Enumeration.OfNode (mn_status n)))); ("preferred_agent", PStr (mn_agent n));
     ("preferred_runtime", PStr (mn_runtime n)); ("benchmark_profile", PStr (mn_profile n));
     ("required_skills", strs (mn_skills n)); ("estimated_resources", PDict (mn_resources n));
     ("estimated_duration_ms", PFloat (mn_estimated n)); ("depends_on", strs (mn_depends n));
     ("validation_criteria", strs (mn_criteria n)); ("expected_outputs", strs (mn_outputs n))].

Definition edge_to_dict (e : MissionEdge) : pyval :=
  PDict [("edge_id", PStr (me_id e)); ("source_id", PStr (me_source e)); ("target_id", PStr (me_target e))].

Definition mission_to_dict (m : Mission) : pydict pyval :=
  [("schema_version", PStr SCHEMA_VERSION); ("mission_id", PStr (mi_id m)); ("title", PStr (mi_title m));
   ("description", PStr (mi_description m)); ("objective", PStr (mi_objective m));
   ("type", PStr (Enumeration.value (Enumeration.OfType (mi_type m))));
   ("priority", PStr (Enumeration.value (Enumeration.OfPriority (mi_priority m))));
   ("status", PStr (Enumeration.value (Enumeration.OfStatus (mi_status m))));
   ("context",
    PDict [("project_id", PStr (mc_project (mi_context m))); ("user_id", PStr (mc_user (mi_context m)));
           ("repository", PStr (mc_repository (mi_context m))); ("branch", PStr (mc_branch (mi_context m)));
           ("tags", strs (mc_tags (mi_context m))); ("metadata", PDict (mc_metadata (mi_context m)))]);
   ("nodes", PList (map node_to_dict (mi_nodes m))); ("edges", PList (map edge_to_dict (mi_edges m)));
   ("metadata", PDict (mi_metadata m)); ("created_at", PStr (isoformat (mi_created m)));
   ("updated_at", match mi_updated m with Some t => PStr (isoformat t) | None => PNone end)].

(** [data.get(name, default)] as the value of a field, and of an enumeration. *)
Definition get_field (d : pydict pyval) (name : string) (dflt : pyval) : string * obj :=
  (name, OVal (default dflt (dget d name))).

Definition get_enum (k : Enumeration.cls) (d : pydict pyval) (name dflt : string) : res (string * obj) :=
  match Enumeration.of_value k (default (PStr dflt) (dget d name)) with
  | Some e => Ok (name, OEnum e)
  | None => Err (Exn ValueError [Msg "{!r} is not a valid member" [name]])
  end.

(** [x.get], which only dicts have. *)
Definition as_dict (v : pyval) : res (pydict pyval) :=
  match v with
  | PDict d => Ok d
  | _ => Err (Exn AttributeError [Msg "object has no attribute 'get'" []])
  end.

(** The loop over a value that is not guarded by [or []]. *)
Definition iterate_strict (v : pyval) : res (list pyval) :=
  match v with
  | PNone | PBool _ | PInt _ | PFloat _ => Err (Exn TypeError [Msg "object is not iterable" []])
  | _ => iterate v
  end.

Definition dict_to_node (v : pyval) : M Draws obj :=
  n <- lift (as_dict v) ;;
  priority <- lift (get_enum Enumeration.Priority n "priority" "normal") ;;
  status <- lift (get_enum Enumeration.Node n "status" "pending") ;;
  instantiate uuid_hex now CNode
    [get_field n "node_id" (PStr ""); get_field n "title" (PStr ""); get_field n "description" (PStr "");
     get_field n "type" (PStr "task"); priority; status; get_field n "preferred_agent" (PStr "");
     get_field n "preferred_runtime" (PStr ""); get_field n "benchmark_profile" (PStr "");
     get_field n "required_skills" (PList []); get_field n "estimated_resources" (PDict []);
     get_field n "estimated_duration_ms" (PFloat 0); get_field n "depends_on" (PList []);
     get_field n "validation_criteria" (PList []); get_field n "expected_outputs" (PList [])].

Definition dict_to_edge (v : pyval) : M Draws obj :=
  e <- lift (as_dict v) ;;
  instantiate uuid_hex now CEdge
    [get_field e "edge_id" (PStr ""); get_field e "source_id" (PStr ""); get_field e "target_id" (PStr "")].

(** [mission.x = v] *)
Definition set_field (name : string) (v : obj) (o : obj) : obj :=
  match o with
  | OInst c fields => OInst c (dset fields name v)
  | _ => o
  end.

(** [_dict_to_mission] *)
Definition dict_to_mission (data : pydict pyval) : M Draws obj :=
  ty <- lift (get_enum Enumeration.Type_ data "type" "custom") ;;
  priority <- lift (get_enum Enumeration.Priority data "priority" "normal") ;;
  status <- lift (get_enum Enumeration.Status data "status" "created") ;;
  mission <- instantiate uuid_hex now CMission
    [get_field data "mission_id" (PStr ""); get_field data "title" (PStr ""); get_field data "description" (PStr "");
     get_field data "objective" (PStr ""); ty; priority; status; get_field data "metadata" (PDict [])] ;;
  ctx <- lift (as_dict (default (PDict []) (dget data "context"))) ;;
  context <- instantiate uuid_hex now CContext
    [get_field ctx "project_id" (PStr ""); get_field ctx "user_id" (PStr ""); get_field ctx "repository" (PStr "");
     get_field ctx "branch" (PStr ""); get_field ctx "tags" (PList []); get_field ctx "metadata" (PDict [])] ;;
  ns <- lift (iterate_strict (default (PList []) (dget data "nodes"))) ;;
  nodes <- m_map dict_to_node ns ;;
  es <- lift (iterate_strict (default (PList []) (dget data "edges"))) ;;
  edges <- m_map dict_to_edge es ;;
  ret (set_field "edges" (OList edges) (set_field "nodes" (OList nodes) (set_field "context" context mission))).
End serializer.

(** ** The mission of an object *)

Definition as_text (o : option obj) : option string := match o with Some (OVal (PStr s)) => Some s | _ => None end.
Definition as_float (o : option obj) : option Q := match o with Some (OVal (PFloat q)) => Some q | _ => None end.
Definition as_fields (o : option obj) : option (pydict pyval) := match o with Some (OVal (PDict d)) => Some d | _ => None end.
Definition as_day (o : option obj) : option (option Z) :=
  match o with Some (ODate t) => Some (Some t) | Some (OVal PNone) => Some None | _ => None end.
Definition as_texts (o : option obj) : option (list string) :=
  match o with Some (OVal (PList l)) => mapM (fun v => as_text (Some (OVal v))) l | _ => None end.

Definition obj_context (o : option obj) : option MissionContext :=
  match o with
  | Some (OInst CContext fs) =>
      project ← as_text (dget fs "project_id"); user ← as_text (dget fs "user_id");
      repository ← as_text (dget fs "repository"); branch ← as_text (dget fs "branch");
      local_path ← as_text (dget fs "local_path"); tags ← as_texts (dget fs "tags");
      metadata ← as_fields (dget fs "metadata");
      Some (mkMContext project user repository branch local_path tags metadata)
  | _ => None
  end.

Definition obj_edge (o : obj) : option MissionEdge :=
  match o with
  | OInst CEdge fs =>
      i ← as_text (dget fs "edge_id"); source ← as_text (dget fs "source_id"); target ← as_text (dget fs "target_id");
      ty ← as_text (dget fs "type"); Some (mkMEdge i source target ty)
  | _ => None
  end.

Definition obj_node (o : obj) : option MissionNode :=
  match o with
  | OInst CNode fs =>
      match dget fs "priority", dget fs "status" with
      | Some (OEnum (Enumeration.OfPriority priority)), Some (OEnum (Enumeration.OfNode status)) =>
          i ← as_text (dget fs "node_id"); mission ← as_text (dget fs "mission_id"); title ← as_text (dget fs "title");
          description ← as_text (dget fs "description"); ty ← as_text (dget fs "type");
          agent ← as_text (dget fs "preferred_agent"); runtime ← as_text (dget fs "preferred_runtime");
          profile ← as_text (dget fs "benchmark_profile"); skills ← as_texts (dget fs "required_skills");
          resources ← as_fields (dget fs "estimated_resources"); estimated ← as_float (dget fs "estimated_duration_ms");
          depends ← as_texts (dget fs "depends_on"); criteria ← as_texts (dget fs "validation_criteria");
          outputs ← as_texts (dget fs "expected_outputs"); started ← as_day (dget fs "started_at");
          completed ← as_day (dget fs "completed_at"); actual ← as_float (dget fs "actual_duration_ms");
          summary ← as_text (dget fs "result_summary");
          Some (mkMNode i mission title description ty priority status agent runtime profile skills resources estimated
                  depends criteria outputs started completed actual summary)
      | _, _ => None
      end
  | _ => None
  end.

Definition as_objs {A} (f : obj -> option A) (o : option obj) : option (list A) :=
  match o with Some (OList l) => mapM f l | _ => None end.

(** The mission that an object is, when each field has the type it declares. *)
Definition obj_mission (o : obj) : option Mission :=
  match o with
  | OInst CMission fs =>
      match dget fs "type", dget fs "priority", dget fs "status", dget fs "created_at" with
      | Some (OEnum (Enumeration.OfType ty)), Some (OEnum (Enumeration.OfPriority priority)),
        Some (OEnum (Enumeration.OfStatus status)), Some (ODate created) =>
          i ← as_text (dget fs "mission_id"); title ← as_text (dget fs "title");
          description ← as_text (dget fs "description"); objective ← as_text (dget fs "objective");
          context ← obj_context (dget fs "context"); nodes ← as_objs obj_node (dget fs "nodes");
          edges ← as_objs obj_edge (dget fs "edges"); metadata ← as_fields (dget fs "metadata");
          budget ← as_float (dget fs "max_duration_seconds"); updated ← as_day (dget fs "updated_at");
          started ← as_day (dget fs "started_at"); completed ← as_day (dget fs "completed_at");
          Some (mkMission i title description objective ty priority status context nodes edges metadata budget created
                  updated started completed)
      | _, _, _, _ => None
      end
  | _ => None
  end.

(** ** Reading what was written *)

Lemma m_map_ret {S A B} (f : A -> M S B) (g : A -> B) l s :
  (forall x, x ∈ l -> f x s = (Ok (g x), s)) -> m_map f l s = (Ok (map g l), s).
Proof.
  induction l as [|x l IH]; intros Hf; [done|]. cbn [m_map map]. rewrite (bind_ok _ _ _ _ _ (Hf x ltac:(set_solver))).
  by rewrite (bind_ok _ _ _ _ _ (IH ltac:(set_solver))).
Qed.

Lemma of_value_value e : Enumeration.of_value (Enumeration.cls_of e) (PStr (Enumeration.value e)) = Some e.
Proof. destruct e as [[]|[]|[]|[]]; reflexivity. Qed.

Lemma mapM_map {A B} (f : A -> B) (g : B -> option A) l : (forall x, g (f x) = Some x) -> mapM g (map f l) = Some l.
Proof. intros Hg. induction l as [|x l IH]; [done|]. cbn. rewrite Hg. cbn. by rewrite IH. Qed.

Lemma as_objs_map {A} (f : A -> obj) g l : (forall x, g (f x) = Some x) -> as_objs g (Some (OList (map f l))) = Some l.
Proof. apply mapM_map. Qed.

Lemma as_texts_strs l : as_texts (Some (OVal (strs l))) = Some l.
Proof. apply mapM_map. done. Qed.

Lemma as_day_odate o : as_day (Some (odate o)) = Some o.
Proof. by destruct o. Qed.

Lemma obj_context_obj c : obj_context (Some (context_obj c)) = Some c.
Proof. destruct c. lazy -[as_texts strs]. by rewrite as_texts_strs. Qed.

Lemma obj_edge_obj e : obj_edge (edge_obj e) = Some e.
Proof. by destruct e. Qed.

Lemma obj_node_obj n : obj_node (node_obj n) = Some n.
Proof. destruct n. lazy -[as_texts strs as_day odate]. by rewrite !as_texts_strs, !as_day_odate. Qed.

Lemma obj_mission_obj m : obj_mission (mission_obj m) = Some m.
Proof.
  destruct m. lazy -[obj_context as_objs as_day odate context_obj map obj_node obj_edge node_obj edge_obj].
  rewrite obj_context_obj, (as_objs_map _ _ _ obj_node_obj), (as_objs_map _ _ _ obj_edge_obj).
  by rewrite !as_day_odate.
Qed.

Section reading.
Variable isoformat : Z -> string.
Variable fromisoformat : string -> option Z.
Variable uuid_hex : nat -> string.
Variable now : nat -> Z.
#[local] Abbreviation write := (en_brut isoformat).
#[local] Abbreviation read := (en_objet fromisoformat uuid_hex now).
#[local] Abbreviation convert := (convertir fromisoformat).

(** Instances whose fields are all given draw nothing. *)
Lemma instantiate_all c fs d :
  map fst fs = map fst (class_fields c) -> instantiate uuid_hex now c fs d = (Ok (OInst c fs), d).
Proof.
  intros Hfs. unfold instantiate.
  rewrite (bind_ok _ _ d d fs); [done|].
  assert (Hget : forall f, f ∈ class_fields c -> exists o, dget fs f.1 = Some o).
  { intros f Hf. apply dget_is_Some. unfold dkeys. rewrite Hfs. apply list_elem_of_fmap. by exists f. }
  rewrite (m_map_ret _ (fun f => (f.1, default (OVal PNone) (dget fs f.1)))).
  - f_equal. f_equal. assert (Hnd : dict_wf fs).
    { unfold dict_wf, dkeys. rewrite Hfs. by destruct c; apply (bool_decide_unpack _). }
    rewrite <- (map_map fst (fun n => (n, default (OVal PNone) (dget fs n)))), <- Hfs, map_map.
    etransitivity; [|apply map_id]. apply map_ext_in. intros [n o] Hin%list_elem_of_In. cbn.
    by rewrite (dget_elem _ _ _ Hnd Hin).
  - intros f Hf. destruct (Hget f Hf) as [o Ho]. by rewrite Ho.
Qed.

(** The items of a document, one after the other, give the fields. *)
Definition item_reads (lire : mclass -> pyval -> M Draws obj) (c : mclass) (p : string * pyval) (q : string * obj) : Prop :=
  p.1 = q.1 /\ exists texte, dget (class_fields c) p.1 = Some texte /\ forall d, convert lire texte p.2 d = (Ok q.2, d).

Lemma read_items_spec lire c raws (fs done_ : list (string * obj)) d :
  Forall2 (item_reads lire c) raws fs -> NoDup (map fst (done_ ++ fs)) ->
  read_items fromisoformat lire c raws done_ d = (Ok (done_ ++ fs), d).
Proof.
  intros Hall. revert done_. induction Hall as [|[n v] [n' o] raws fs (Hn & texte & Ht & Hc) _ IH]; intros done_ Hnd;
    [by rewrite app_nil_r|].
  cbn [fst snd] in *. subst n'. cbn [read_items]. rewrite Ht.
  rewrite (bind_ok _ _ d d o) by apply Hc. rewrite dkeys_dset_new.
  - rewrite IH; [by rewrite <- app_assoc|]. by rewrite <- app_assoc.
  - rewrite map_app in Hnd. apply NoDup_app in Hnd as (_ & Hdis & _). intros Hin. apply (Hdis n Hin). cbn. set_solver.
Qed.

Lemma class_wf c : dict_wf (class_fields c).
Proof. by destruct c; apply (bool_decide_unpack _). Qed.

(** A document with all the fields is read. *)
Lemma read_document depth c raws fs d :
  map fst fs = map fst (class_fields c) -> Forall2 (item_reads (read depth) c) raws fs ->
  read (S depth) c (PDict raws) d = (Ok (OInst c fs), d).
Proof.
  intros Hkeys Hall. cbn [en_objet]. rewrite (bind_ok _ _ d d fs); [by apply instantiate_all|].
  apply (read_items_spec (read depth) c raws fs []); [done|]. cbn. rewrite Hkeys. apply class_wf.
Qed.

(** A field is read back when its annotation converts what was written. *)
Definition reads_back (lire : mclass -> pyval -> M Draws obj) (f : string * string) (p : string * obj) : Prop :=
  f.1 = p.1 /\ forall d, convert lire f.2 (write p.2) d = (Ok p.2, d).

Lemma reads_back_item lire c l fs :
  Forall2 (reads_back lire) l fs -> l ⊆ class_fields c ->
  Forall2 (item_reads lire c) (map (fun p => (p.1, write p.2)) fs) fs.
Proof.
  intros Hall. induction Hall as [|[n texte] [n' o] l fs [Hn Hc] _ IH]; intros Hl; [constructor|]. cbn in Hn. subst n'.
  constructor; [|apply IH; set_solver]. split; [done|]. exists texte. split; [|done].
  apply dget_elem; [apply class_wf|]. apply Hl. set_solver.
Qed.

(** An instance is read back when its fields are. *)
Lemma read_inst depth c fs d :
  Forall2 (reads_back (read depth)) (class_fields c) fs -> read (S depth) c (write (OInst c fs)) d = (Ok (OInst c fs), d).
Proof.
  intros Hall. cbn [en_brut]. apply read_document; [|by eapply reads_back_item].
  induction Hall as [|f p l1 l2 [Hfp _] _ IH]; cbn; [done|]. by rewrite IH, Hfp.
Qed.

Hypothesis fromisoformat_isoformat : forall t, fromisoformat (isoformat t) = Some t.

Lemma read_date lire o d :
  convert lire "Optional[datetime]" (write (odate o)) d = (Ok (odate o), d).
Proof. destruct o as [t|]; [|done]. cbn. by rewrite fromisoformat_isoformat. Qed.

Lemma read_day lire t d : convert lire "datetime" (write (ODate t)) d = (Ok (ODate t), d).
Proof. cbn. by rewrite fromisoformat_isoformat. Qed.

Lemma read_enum lire texte e d :
  List.find (fun p => contains p.1 texte) enumerations = Some (texte, Enumeration.cls_of e) ->
  convert lire texte (write (OEnum e)) d = (Ok (OEnum e), d).
Proof. intros Hf. unfold convertir. cbn [en_brut]. rewrite Hf. by rewrite of_value_value. Qed.

Ltac read_fields :=
  repeat first [apply Forall2_nil; exact I | apply Forall2_cons; split]; try done;
  try (split; [reflexivity|intros ?; cbn [fst snd]; first [apply read_date|apply read_day|apply read_enum; reflexivity|reflexivity]]).

Lemma read_node depth n d : read (S depth) CNode (write (node_obj n)) d = (Ok (node_obj n), d).
Proof. apply read_inst. read_fields. Qed.

Lemma read_edge depth e d : read (S depth) CEdge (write (edge_obj e)) d = (Ok (edge_obj e), d).
Proof. apply read_inst. read_fields. Qed.

Lemma iterate_list l : iterate (PList l) = Ok l.
Proof. by destruct l. Qed.

(** A list of instances. *)
Lemma read_objs {A} (f : A -> obj) depth c texte l d :
  convert (read (S depth)) texte (write (OList (map f l)))
    = (vs <- lift (iterate (write (OList (map f l)))) ;; os <- m_map (read (S depth) c) vs ;; ret (OList os)) ->
  (forall x d, read (S depth) c (write (f x)) d = (Ok (f x), d)) ->
  convert (read (S depth)) texte (write (OList (map f l))) d = (Ok (OList (map f l)), d).
Proof.
  intros -> Hf. cbn [en_brut]. rewrite iterate_list. rewrite (bind_ok _ _ d d (map write (map f l))) by done.
  rewrite (bind_ok _ _ d d (map f l)); [done|].
  assert (Hgen : forall l, m_map (read (S depth) c) (map write (map f l)) d = (Ok (map f l), d)); [|apply Hgen].
  clear l. induction l as [|x l IH]; [done|]. cbn [map m_map]. rewrite (bind_ok _ _ _ _ _ (Hf x d)).
  by rewrite (bind_ok _ _ _ _ _ IH).
Qed.

Lemma mission_reads_back depth m : Forall2 (reads_back (read (S depth))) (class_fields CMission) (mission_fields m).
Proof.
  unfold mission_fields. read_fields.
  - split; [reflexivity|]. intros d'. cbn [fst snd]. apply read_objs with (c := CNode); [reflexivity|]. intros. apply read_node.
  - split; [reflexivity|]. intros d'. cbn [fst snd]. apply read_objs with (c := CEdge); [reflexivity|]. intros. apply read_edge.
Qed.

Lemma read_mission depth m d : read (S (S depth)) CMission (write (mission_obj m)) d = (Ok (mission_obj m), d).
Proof. apply read_inst, mission_reads_back. Qed.

(** Another value under one of the names. *)
Lemma item_reads_dset lire c raws fs n v o :
  Forall2 (item_reads lire c) raws fs -> item_reads lire c (n, v) (n, o) ->
  Forall2 (item_reads lire c) (dset raws n v) (dset fs n o).
Proof.
  intros Hall Hn. induction Hall as [|[n1 v1] [n2 o1] raws fs Hi Hall IH]; cbn [dset]; [by constructor|].
  destruct Hi as [Hk Hi]. cbn in Hk. subst n2. case_decide as Hd; [subst n1|]; (constructor; [|done]); [done|by split].
Qed.

(** Fields of other names are ignored. *)
Lemma read_items_known lire c items vs d :
  read_items fromisoformat lire c items vs d
  = read_items fromisoformat lire c (List.filter (fun p => dmem (class_fields c) p.1) items) vs d.
Proof.
  revert vs d. induction items as [|[n v] items IH]; intros vs d; [done|]. cbn [read_items List.filter fst]. unfold dmem at 1.
  destruct (dget (class_fields c) n) as [texte|] eqn:Hn; [|apply IH]. cbn [read_items]. rewrite Hn.
  unfold bind. destruct (convert lire texte v d) as [[o|e] d']; [apply IH|done].
Qed.

(** The registry reads what it writes: [_depuis] of the document of a mission. *)
Definition depuis (document : pyval) : option Mission :=
  match read 2 CMission document (mkDraws 0 0) with
  | (Ok o, _) => obj_mission o
  | _ => None
  end.

Lemma depuis_written m : depuis (write (mission_obj m)) = Some m.
Proof. unfold depuis. rewrite read_mission. apply obj_mission_obj. Qed.

(** ** Properties *)

(** C37: documents.  A mission that is written is read back the same, whatever its
    fields hold; no default factory is called. *)
Theorem document_roundtrip m d :
  read 2 CMission (write (mission_obj m)) d = (Ok (mission_obj m), d) /\ obj_mission (mission_obj m) = Some m.
Proof. split; [apply read_mission|apply obj_mission_obj]. Qed.

(** A later version.  A document whose status is unknown to this version is
    read, with the status [None] and everything else as it was written; and the
    fields that this version does not declare are ignored. *)
Theorem unknown_tolerated m st items d :
  Enumeration.of_value Enumeration.Status (PStr st) = None ->
  (forall p, p ∈ items -> dget (class_fields CMission) p.1 = None) ->
  exists raws, write (mission_obj m) = PDict raws /\
    read 2 CMission (PDict (dset raws "status" (PStr st) ++ items)) d
      = (Ok (set_field "status" (OVal PNone) (mission_obj m)), d).
Proof.
  intros Hst Hitems. exists (map (fun p => (p.1, write p.2)) (mission_fields m)). split; [done|].
  assert (Hall : Forall2 (item_reads (read 1) CMission) (dset (map (fun p => (p.1, write p.2)) (mission_fields m)) "status" (PStr st))
    (dset (mission_fields m) "status" (OVal PNone))).
  { apply item_reads_dset; [by eapply reads_back_item; [apply mission_reads_back|]|]. split; [done|].
    exists "MissionStatus". split; [done|]. intros d'. cbn [fst snd].
    transitivity (ret (S := Draws) (match Enumeration.of_value Enumeration.Status (PStr st) with
                                    | Some e => OEnum e
                                    | None => OVal PNone
                                    end) d'); [reflexivity|by rewrite Hst]. }
  assert (Hkeys : map fst (dset (mission_fields m) "status" (OVal PNone)) = map fst (class_fields CMission)).
  { etransitivity; [apply (dkeys_dset_mem (V := obj))|reflexivity]. by apply dmem_true. }
  change (set_field "status" (OVal PNone) (mission_obj m)) with (OInst CMission (dset (mission_fields m) "status" (OVal PNone))).
  rewrite <- (read_document 1 CMission _ (dset (mission_fields m) "status" (OVal PNone)) d Hkeys Hall).
  set (raws := dset (map _ _) _ _). cbn [en_objet]. unfold bind.
  rewrite (read_items_known _ _ (raws ++ items)), (read_items_known _ _ raws), List.filter_app, (list_filter_nil _ items).
  - by rewrite app_nil_r.
  - intros p Hp. unfold dmem. by rewrite Hitems.
Qed.
End reading.

(** ** Exports *)

(** What an export keeps: not the local path, the mission, the dates and the
    durations of the nodes, the types of the edges, the budget and the dates. *)
Definition exported_node (n : MissionNode) : MissionNode :=
  mkMNode (mn_id n) "" (mn_title n) (mn_description n) (mn_type n) (mn_priority n) (mn_status n) (mn_agent n)
    (mn_runtime n) (mn_profile n) (mn_skills n) (mn_resources n) (mn_estimated n) (mn_depends n) (mn_criteria n)
    (mn_outputs n) None None 0 "".

Definition exported_edge (e : MissionEdge) : MissionEdge := mkMEdge (me_id e) (me_source e) (me_target e) "depends_on".

Definition exported_context (c : MissionContext) : MissionContext :=
  mkMContext (mc_project c) (mc_user c) (mc_repository c) (mc_branch c) "" (mc_tags c) (mc_metadata c).

Definition exported (m : Mission) (created : Z) : Mission :=
  mkMission (mi_id m) (mi_title m) (mi_description m) (mi_objective m) (mi_type m) (mi_priority m) (mi_status m)
    (exported_context (mi_context m)) (map exported_node (mi_nodes m)) (map exported_edge (mi_edges m)) (mi_metadata m)
    BUDGET_MISSION_PAR_DEFAUT_S created None None None.

Section exports.
Variable isoformat : Z -> string.
Variable uuid_hex : nat -> string.
Variable now : nat -> Z.

Lemma get_enum_written d e name dflt :
  dget d name = Some (PStr (Enumeration.value e)) -> get_enum (Enumeration.cls_of e) d name dflt = Ok (name, OEnum e).
Proof. intros Hd. unfold get_enum. rewrite Hd. cbn [default]. by rewrite of_value_value. Qed.

Lemma dict_to_node_written n d :
  dict_to_node uuid_hex now (node_to_dict n) d = (Ok (node_obj (exported_node n)), d).
Proof.
  unfold dict_to_node. cbn [node_to_dict as_dict]. set (items := [_; _; _; _; _; _; _; _; _; _; _; _; _; _; _]).
  rewrite (bind_ok _ _ d d items) by done.
  rewrite (bind_ok _ _ d d ("priority", OEnum (Enumeration.OfPriority (mn_priority n)))).
  2:{ unfold lift. f_equal. by apply (get_enum_written items (Enumeration.OfPriority (mn_priority n))). }
  rewrite (bind_ok _ _ d d ("status", OEnum (Enumeration.OfNode (mn_status n)))).
  2:{ unfold lift. f_equal. by apply (get_enum_written items (Enumeration.OfNode (mn_status n))). }
  reflexivity.
Qed.

Lemma dict_to_edge_written e d :
  dict_to_edge uuid_hex now (edge_to_dict e) d = (Ok (edge_obj (exported_edge e)), d).
Proof. reflexivity. Qed.

Lemma m_map_written {A} (f : A -> pyval) (g : A -> obj) (h : pyval -> M Draws obj) l d :
  (forall x d, h (f x) d = (Ok (g x), d)) -> m_map h (map f l) d = (Ok (map g l), d).
Proof.
  intros Hh. induction l as [|x l IH]; [done|]. cbn [map m_map]. rewrite (bind_ok _ _ _ _ _ (Hh x d)).
  by rewrite (bind_ok _ _ _ _ _ IH).
Qed.

Lemma iterate_strict_list l : iterate_strict (PList l) = Ok l.
Proof. apply iterate_list. Qed.

(** exports.  A mission that is exported and imported is [exported]: its ids,
    its texts, its graph and its statuses are kept; the local path, the budget
    and the dates are not. *)
Theorem export_import m d :
  dict_to_mission uuid_hex now (mission_to_dict isoformat m) d
    = (Ok (mission_obj (exported m (now (dr_nows d)))), mkDraws (dr_uuids d) (S (dr_nows d))).
Proof.
  unfold dict_to_mission. set (data := mission_to_dict isoformat m).
  rewrite (bind_ok _ _ d d ("type", OEnum (Enumeration.OfType (mi_type m)))).
  2:{ unfold lift. f_equal. by apply (get_enum_written data (Enumeration.OfType (mi_type m))). }
  rewrite (bind_ok _ _ d d ("priority", OEnum (Enumeration.OfPriority (mi_priority m)))).
  2:{ unfold lift. f_equal. by apply (get_enum_written data (Enumeration.OfPriority (mi_priority m))). }
  rewrite (bind_ok _ _ d d ("status", OEnum (Enumeration.OfStatus (mi_status m)))).
  2:{ unfold lift. f_equal. by apply (get_enum_written data (Enumeration.OfStatus (mi_status m))). }
  set (d' := mkDraws (dr_uuids d) (S (dr_nows d))).
  erewrite (bind_ok _ _ d d') by reflexivity. erewrite (bind_ok _ _ d' d') by reflexivity.
  erewrite (bind_ok _ _ d' d') by reflexivity.
  rewrite (bind_ok _ _ d' d' (map node_to_dict (mi_nodes m))).
  2:{ unfold lift. f_equal. apply (iterate_strict_list (map node_to_dict (mi_nodes m))). }
  rewrite (bind_ok _ _ _ _ _ (m_map_written _ _ _ (mi_nodes m) d' dict_to_node_written)).
  rewrite (bind_ok _ _ d' d' (map edge_to_dict (mi_edges m))).
  2:{ unfold lift. f_equal. apply (iterate_strict_list (map edge_to_dict (mi_edges m))). }
  rewrite (bind_ok _ _ _ _ _ (m_map_written _ _ _ (mi_edges m) d' dict_to_edge_written)).
  unfold mission_obj, mission_fields, exported. cbn [mi_nodes mi_edges]. by rewrite !map_map.
Qed.
End exports.

(** ** What the documents promise to the registry *)

Class Document (D : Type) := {
  doc_write : Mission -> D;
  doc_read : D -> option Mission;
  doc_read_write m : doc_read (doc_write m) = Some m
}.

Section json.
Variable isoformat : Z -> string.
Variable fromisoformat : string -> option Z.
Variable uuid_hex : nat -> string.
Variable now : nat -> Z.
Hypothesis fromisoformat_isoformat : forall t, fromisoformat (isoformat t) = Some t.

#[export] Instance json_document : Document pyval := {|
  doc_write m := en_brut isoformat (mission_obj m);
  doc_read := depuis fromisoformat uuid_hex now;
  doc_read_write := depuis_written isoformat fromisoformat uuid_hex now fromisoformat_isoformat
|}.
End json.

(** ** Witnesses *)

(** Dates written in base one. *)
Fixpoint bars (n : nat) : string := match n with O => "" | S n' => String "|" (bars n') end.
Definition demo_isoformat (t : Z) : string := bars (encode_nat t).
Definition demo_fromisoformat (s : string) : option Z := decode_nat (String.length s).

Lemma demo_iso t : demo_fromisoformat (demo_isoformat t) = Some t.
Proof.
  unfold demo_fromisoformat, demo_isoformat. assert (Hl : forall n, String.length (bars n) = n).
  { intros n. induction n as [|n IH]; [done|]. cbn. by rewrite IH. }
  rewrite Hl. apply decode_encode_nat.
Qed.

Definition demo_node : MissionNode :=
  mkMNode "n" "m" "write" "" "task" MissionPriority.HIGH NodeStatus.COMPLETED "" "ollama" "" ["python"] [("vram", PInt 8)]
    (5 # 2) ["d"] [] ["a.py"] (Some 2) (Some 3) 1 "done".

Definition demo_mission : Mission :=
  mkMission "m" "Site" "" "a site" MissionType.DEVELOPMENT MissionPriority.NORMAL MissionStatus.RUNNING
    (mkMContext "p" "u" "" "main" "/work/site" ["web"] []) [demo_node] [mkMEdge "e" "d" "n" "depends_on"]
    [("decomposition_method", PStr "llm")] 3600 1 None (Some 2) None.

Lemma document_roundtrip_witness :
  en_objet demo_fromisoformat (fun _ => "") (fun _ => 0) 2 CMission (en_brut demo_isoformat (mission_obj demo_mission)) (mkDraws 0 0)
    = (Ok (mission_obj demo_mission), mkDraws 0 0) /\
  obj_mission (mission_obj demo_mission) = Some demo_mission.
Proof. exact (document_roundtrip demo_isoformat demo_fromisoformat (fun _ => "") (fun _ => 0) demo_iso demo_mission (mkDraws 0 0)). Defined.

Lemma demo_unknown_status : Enumeration.of_value Enumeration.Status (PStr "archived") = None.
Proof. reflexivity. Qed.

Lemma demo_unknown_fields : forall p, p ∈ [("owner", PStr "u")] -> dget (class_fields CMission) p.1 = None.
Proof. by intros p ->%list_elem_of_singleton. Qed.

Lemma unknown_tolerated_witness :
  exists raws, en_brut demo_isoformat (mission_obj demo_mission) = PDict raws /\
    en_objet demo_fromisoformat (fun _ => "") (fun _ => 0) 2 CMission
        (PDict (dset raws "status" (PStr "archived") ++ [("owner", PStr "u")])) (mkDraws 0 0)
      = (Ok (set_field "status" (OVal PNone) (mission_obj demo_mission)), mkDraws 0 0).
Proof.
  exact (unknown_tolerated demo_isoformat demo_fromisoformat (fun _ => "") (fun _ => 0) demo_iso demo_mission "archived"
    [("owner", PStr "u")] (mkDraws 0 0) demo_unknown_status demo_unknown_fields).
Defined.

(** What the gate was asked about is lost by an export. *)
Example demo_exported_path :
  mc_local_path (mi_context demo_mission) = "/work/site" /\ mc_local_path (mi_context (exported demo_mission 9)) = "".
Proof. split; reflexivity. Qed.
