(* ===== verification/MissionRegistry.v ===== *)
(** * The registry of missions ([_RegistreMissions] of [backend/mission/routes.py]
    and [MagasinMissions] of [persistance.py])

    A bounded cache in front of a table.  Missions are objects that the cache
    and its callers share: the cache holds references to a heap, and a caller
    that mutates a mission mutates what the cache shows.  What a document is is
    an interface ([Document]), which [MissionDocuments] implements. *)
From stdpp Require Import base gmap strings list sets sorting pretty.
From Stdlib Require Import ZArith Lia.
From S2P Require Import Prelude.
From S2P Require Import MissionGraph.
From S2P Require Import MissionDriver.
From S2P Require Import MissionDocuments.
#[local] Open Scope Z_scope.

(** ** State *)

(** A row of the table [missions], under its [mission_id]. *)
Record Ligne (D : Type) := mkLigne {
  li_titre : string;
  li_statut : string;
  li_type : string;
  li_priorite : string;
  li_projet : string;
  li_cree_le : string;
  li_maj_le : option string;
  li_document : D
}.
Arguments mkLigne {D}.
Arguments li_titre {D}.
Arguments li_statut {D}.
Arguments li_type {D}.
Arguments li_priorite {D}.
Arguments li_projet {D}.
Arguments li_cree_le {D}.
Arguments li_maj_le {D}.
Arguments li_document {D}.

(** The objects, the cache, whether it was filled, the table ([None] when it
    could not be opened) in the order of the rowids, and the queries made. *)
Record Registre (D : Type) := mkRegistre {
  rg_objets : list Mission;
  rg_missions : pydict nat;
  rg_hydrate : bool;
  rg_table : option (pydict (Ligne D));
  rg_appels : nat
}.
Arguments mkRegistre {D}.
Arguments rg_objets {D}.
Arguments rg_missions {D}.
Arguments rg_hydrate {D}.
Arguments rg_table {D}.
Arguments rg_appels {D}.

(** [__init__] over a table. *)
Definition nouveau_registre {D} (table : option (pydict (Ligne D))) : Registre D := mkRegistre [] [] false table 0.

(** [MAX_MISSIONS_EN_MEMOIRE] *)
Definition MAX_MISSIONS_EN_MEMOIRE : nat := 200.

Section registre.
Context {D : Type} `{!Document D}.
(** The bound of the cache, the texts of dates, and what the [i]-th query
    raises, if it does. *)
Variable maximum : nat.
Variable isoformat : Z -> string.
Variable refuse : nat -> option exn.
Implicit Types s : Registre D.
Implicit Types t : pydict (Ligne D).

Definition with_missions x s : Registre D := mkRegistre (rg_objets s) x (rg_hydrate s) (rg_table s) (rg_appels s).
Definition with_hydrate x s : Registre D := mkRegistre (rg_objets s) (rg_missions s) x (rg_table s) (rg_appels s).

(** ** The objects *)

(** A mission is made, and mutated by who holds it. *)
Definition nouveau (m : Mission) : M (Registre D) nat := fun s =>
  (Ok (length (rg_objets s)),
   mkRegistre (rg_objets s ++ [m]) (rg_missions s) (rg_hydrate s) (rg_table s) (rg_appels s)).

Definition muter (r : nat) (f : Mission -> Mission) : M (Registre D) unit := fun s =>
  (Ok tt, mkRegistre (alter f r (rg_objets s)) (rg_missions s) (rg_hydrate s) (rg_table s) (rg_appels s)).

(** The mission that a reference is. *)
Definition objet (r : nat) : M (Registre D) Mission := fun s =>
  match rg_objets s !! r with
  | Some m => (Ok m, s)
  | None => (Err (Exn KeyError []), s)
  end.

(** ** MagasinMissions *)

(** A query: it raises, and changes nothing, or answers. *)
Definition requete {A} (q : pydict (Ligne D) -> A * pydict (Ligne D)) : M (Registre D) A := fun s =>
  let s' tb := mkRegistre (rg_objets s) (rg_missions s) (rg_hydrate s) tb (S (rg_appels s)) in
  match rg_table s with
  | None => (Err (Exn AttributeError []), s)
  | Some t =>
      match refuse (rg_appels s) with
      | Some e => (Err e, s' (Some t))
      | None => let '(a, t') := q t in (Ok a, s' (Some t'))
      end
  end.

Definition ligne (m : Mission) : Ligne D :=
  mkLigne (mi_title m) (Enumeration.value (Enumeration.OfStatus (mi_status m)))
    (Enumeration.value (Enumeration.OfType (mi_type m))) (Enumeration.value (Enumeration.OfPriority (mi_priority m)))
    (mc_project (mi_context m)) (isoformat (mi_created m)) (isoformat <$> mi_updated m) (doc_write m).

(** [enregistrer] *)
Definition enregistrer (r : nat) : M (Registre D) unit :=
  m <- objet r ;; requete (fun t => (tt, dmove t (mi_id m) (ligne m))).

(** [supprimer], [vider] *)
Definition supprimer (mid : string) : M (Registre D) unit := requete (fun t => (tt, ddel t mid)).
Definition vider : M (Registre D) unit := requete (fun _ => (tt, [])).

(** [lire] *)
Definition lire (mid : string) : M (Registre D) (option Mission) :=
  requete (fun t => (l ← dget t mid; doc_read (li_document l), t)).

(** [_ORDRE]: the last created first, then the last rowid. *)
Definition plus_recente (x y : string * Ligne D) : Prop := String.le (li_cree_le y.2) (li_cree_le x.2).
#[export] Instance plus_recente_dec : RelDecision plus_recente.
Proof. intros x y. unfold plus_recente. apply _. Defined.

Definition dans_l_ordre t : list (string * Ligne D) := sort_by plus_recente (rev t).

(** [tous], [identifiants] and [nombre] *)
Definition tous : M (Registre D) (list Mission) :=
  requete (fun t => (omap (fun p => doc_read (li_document p.2)) (dans_l_ordre t), t)).
Definition identifiants : M (Registre D) (list string) := requete (fun t => (map fst (dans_l_ordre t), t)).
Definition nombre : M (Registre D) nat := requete (fun t => (length t, t)).

(** ** _RegistreMissions *)

Definition sans_magasin s : bool := match rg_table s with None => true | Some _ => false end.

(** [try: ... except Exception], answering [a] instead. *)
Definition sauf {A} (x : M (Registre D) A) (a : A) : M (Registre D) A := catch x (fun _ => true) (fun _ => ret a).

Definition est_terminale s (r : nat) : bool :=
  match rg_objets s !! r with Some m => terminal (mi_status m) | None => false end.

(** The loop of [_evincer] over a copy of the items. *)
Fixpoint evincer_loop (fini : nat -> bool) (items cache : pydict nat) : pydict nat :=
  match items with
  | [] => cache
  | (mid, r) :: items' =>
      if decide (length cache <= maximum)%nat then cache
      else evincer_loop fini items' (if fini r then ddel cache mid else cache)
  end.

(** [_evincer] *)
Definition evincer : M (Registre D) unit := fun s =>
  (Ok tt, with_missions (evincer_loop (est_terminale s) (rg_missions s) (rg_missions s)) s).

(** The mission under an id, at the end, then the eviction. *)
Definition poser (mid : string) (r : nat) : M (Registre D) unit :=
  (fun s => (Ok tt, with_missions (dmove (rg_missions s) mid r) s)) ;;; evincer.

(** [__setitem__] *)
Definition setitem (mid : string) (r : nat) : M (Registre D) unit :=
  s <- get ;;
  (if sans_magasin s then ret tt else sauf (enregistrer r) tt) ;;;
  poser mid r.

(** [persister] *)
Definition persister (r : nat) : M (Registre D) unit :=
  s <- get ;;
  (if sans_magasin s then ret tt else enregistrer r) ;;;
  m <- objet r ;;
  poser (mi_id m) r.

(** [_relire] *)
Definition relire (mid : string) : M (Registre D) (option nat) :=
  s <- get ;;
  if sans_magasin s then ret None
  else
    trouve <- sauf (lire mid) None ;;
    match trouve with
    | None => ret None
    | Some m => r <- nouveau m ;; poser mid r ;;; ret (Some r)
    end.

(** [__getitem__] *)
Definition getitem (mid : string) : M (Registre D) nat :=
  s <- get ;;
  match dget (rg_missions s) mid with
  | Some r => ret r
  | None =>
      relu <- relire mid ;;
      match relu with
      | Some r => ret r
      | None => raise (Exn KeyError [Msg "{}" [mid]])
      end
  end.

(** [get] *)
Definition get_default (mid : string) : M (Registre D) (option nat) :=
  catch (r <- getitem mid ;; ret (Some r)) (fun c => bool_decide (c = KeyError)) (fun _ => ret None).

(** [__contains__] *)
Definition contains_key (mid : string) : M (Registre D) bool :=
  s <- get ;;
  if dmem (rg_missions s) mid then ret true
  else relu <- relire mid ;; ret (match relu with Some _ => true | None => false end).

(** [__delitem__] *)
Definition delitem (mid : string) : M (Registre D) unit :=
  s <- get ;;
  let present := dmem (rg_missions s) mid in
  (if present then fun s => (Ok tt, with_missions (ddel (rg_missions s) mid) s) else ret tt) ;;;
  if sans_magasin s then
    (if present then ret tt else raise (Exn KeyError [Msg "{}" [mid]]))
  else
    absent <- (if present then ret false
               else trouve <- lire mid ;; ret (match trouve with Some _ => false | None => true end)) ;;
    if absent : bool then raise (Exn KeyError [Msg "{}" [mid]]) else supprimer mid.

(** [pop], with a default or without *)
Definition pop (mid : string) (defaut : option (option nat)) : M (Registre D) (option nat) :=
  trouve <- catch (r <- getitem mid ;; ret (Some r)) (fun c => bool_decide (c = KeyError))
              (fun e => match defaut with Some _ => ret None | None => raise e end) ;;
  match trouve with
  | Some r => delitem mid ;;; ret (Some r)
  | None => ret (default None defaut)
  end.

(** [clear] *)
Definition clear : M (Registre D) unit :=
  (fun s => (Ok tt, with_hydrate false (with_missions [] s))) ;;;
  s <- get ;;
  if sans_magasin s then ret tt else sauf vider tt.

(** The missions of the table, the oldest first, that the cache lacks. *)
Definition completer (m : Mission) : M (Registre D) unit :=
  s <- get ;;
  if dmem (rg_missions s) (mi_id m) then ret tt
  else r <- nouveau m ;; fun s => (Ok tt, with_missions (dset (rg_missions s) (mi_id m) r) s).

(** [_hydrater] *)
Definition hydrater : M (Registre D) unit :=
  s <- get ;;
  if rg_hydrate s then ret tt
  else
    (fun s => (Ok tt, with_hydrate true s)) ;;;
    if sans_magasin s then ret tt
    else
      lues <- sauf (l <- tous ;; ret (Some (take maximum l))) None ;;
      match lues with
      | None => ret tt
      | Some recentes => for_each (rev recentes) completer ;;; evincer
      end.

(** [__len__], [values] and [items] *)
Definition longueur : M (Registre D) nat := hydrater ;;; s <- get ;; ret (length (rg_missions s)).
Definition values : M (Registre D) (list nat) := hydrater ;;; s <- get ;; ret (dvalues (rg_missions s)).
Definition items : M (Registre D) (list (string * nat)) := hydrater ;;; s <- get ;; ret (rg_missions s).

(** [total] *)
Definition total_ : M (Registre D) nat :=
  s <- get ;;
  if sans_magasin s then ret (length (rg_missions s))
  else
    n <- sauf (n <- nombre ;; ret (Some n)) None ;;
    match n with
    | Some n => ret n
    | None => s <- get ;; ret (length (rg_missions s))
    end.
End registre.
