(* ===== verification/RegistryRuns.v ===== *)
(** * The registry of missions: what it promises

    Theorems on [MissionRegistry] for any documents that are read back: what the
    eviction takes, the refinement of a map that survives restarts, the bound of
    the cache, the filling of the cache after a restart, the identity of the
    objects of active missions, and what a refused write leaves in memory. *)
From stdpp Require Import base gmap strings list sets sorting pretty.
From Stdlib Require Import ZArith Lia.
From S2P Require Import Prelude.
From S2P Require Import MissionGraph.
From S2P Require Import MissionDriver.
From S2P Require Import MissionDocuments.
From S2P Require Import MissionRegistry.
#[local] Open Scope Z_scope.

(** ** What the eviction takes *)

(** The [n] first entries that are finished, or all of them when there are
    fewer, are taken out. *)
Fixpoint drop_oldest (fini : nat -> bool) (n : nat) (l : pydict nat) : pydict nat :=
  match n, l with
  | O, _ => l
  | _, [] => []
  | S n', (mid, r) :: l' => if fini r then drop_oldest fini n' l' else (mid, r) :: drop_oldest fini n l'
  end.

Lemma drop_oldest_0 fini l : drop_oldest fini 0 l = l.
Proof. by destruct l. Qed.

Lemma drop_oldest_sublist fini n l : sublist (drop_oldest fini n l) l.
Proof.
  revert n. induction l as [|[mid r] l IH]; intros [|n]; cbn; try done. destruct (fini r).
  - by apply sublist_cons.
  - by apply sublist_skip.
Qed.

Lemma drop_oldest_keeps fini n l mid r : (mid, r) ∈ l -> fini r = false -> (mid, r) ∈ drop_oldest fini n l.
Proof.
  revert n. induction l as [|[mid' r'] l IH]; intros [|n] Hin Hr; [by apply elem_of_nil in Hin..|done|]. cbn.
  apply elem_of_cons in Hin as [[= <- <-]|Hin]; [rewrite Hr; by left|]. destruct (fini r'); [by apply IH|right; by apply IH].
Qed.

(** Fewer are left, or none that is finished. *)
Lemma drop_oldest_bound fini n l :
  length (drop_oldest fini n l) = (length l - n)%nat \/ forall mid r, (mid, r) ∈ drop_oldest fini n l -> fini r = false.
Proof.
  revert n. induction l as [|[mid r] l IH]; intros [|n]; cbn [drop_oldest].
  - by left.
  - left. done.
  - left. cbn. lia.
  - destruct (fini r) eqn:Hr.
    + destruct (IH n) as [->|Hn]; [by left|by right].
    + destruct (IH (S n)) as [Hl|Hn].
      * destruct (decide (n < length l)%nat); [left; cbn; rewrite Hl; lia|right].
        intros mid' r' [[= -> ->]|Hin]%elem_of_cons; [done|]. destruct (drop_oldest fini (S n) l); [by apply elem_of_nil in Hin|].
        cbn in Hl. lia.
      * right. intros mid' r' [[= -> ->]|Hin]%elem_of_cons; [done|by eapply Hn].
Qed.

Lemma evincer_loop_spec maximum fini items kept :
  dict_wf (kept ++ items) ->
  evincer_loop maximum fini items (kept ++ items) = kept ++ drop_oldest fini (length (kept ++ items) - maximum) items.
Proof.
  revert kept. induction items as [|[mid r] items IH]; intros kept Hwf.
  { cbn [evincer_loop]. by destruct (length _ - _)%nat. }
  cbn [evincer_loop]. case_decide as Hle; [by replace (length (kept ++ (mid, r) :: items) - maximum)%nat with 0%nat by lia|].
  destruct (length (kept ++ (mid, r) :: items) - maximum)%nat as [|n] eqn:Hn; [lia|]. cbn [drop_oldest].
  rewrite length_app in Hn. cbn in Hn. destruct (fini r).
  - assert (Hk : mid ∉ dkeys kept).
    { unfold dict_wf in Hwf. rewrite dkeys_app in Hwf. apply NoDup_app in Hwf as (_ & Hdis & _). intros Hin.
      apply (Hdis mid Hin). cbn. unfold dkeys. set_solver. }
    rewrite ddel_app by done. cbn [ddel]. rewrite decide_True by done. rewrite IH.
    + f_equal. f_equal. rewrite length_app. lia.
    + eapply (sublist_NoDup (dkeys (kept ++ items)) (dkeys (kept ++ (mid, r) :: items))); [done|].
      unfold dkeys. rewrite !map_app. apply sublist_app; [done|]. by apply sublist_cons.
  - replace (kept ++ (mid, r) :: items) with ((kept ++ [(mid, r)]) ++ items) in * by by rewrite <- app_assoc.
    rewrite IH by done. rewrite <- app_assoc. f_equal. cbn. do 2 f_equal. rewrite !length_app. cbn. lia.
Qed.

(** ** Histories *)

Inductive api :=
  | ACreer (m : Mission)
  | AModifier (mid : string) (f : Mission -> Mission)
  | AObtenir (mid : string)
  | AContient (mid : string)
  | ASupprimer (mid : string)
  | ARetirer (mid : string)
  | AValeurs
  | ATotal
  | AVider
  | ARedemarrer.

Inductive reponse :=
  | RRien
  | RMission (m : option Mission)
  | RBool (b : bool)
  | RNat (n : nat)
  | RMissions (l : list Mission).

(** What is promised: a map from ids to missions, whatever is in memory. *)
Definition spec_state (op : api) (A : gmap string Mission) : gmap string Mission :=
  match op with
  | ACreer m => <[mi_id m := m]> A
  | AModifier mid f => alter f mid A
  | ASupprimer mid | ARetirer mid => delete mid A
  | AVider => ∅
  | _ => A
  end.

Definition key_error {A} (r : res A) : Prop := exists l, r = Err (Exn KeyError l).

Definition spec_answer (op : api) (A : gmap string Mission) (r : res reponse) : Prop :=
  match op with
  | ACreer _ | AVider | ARedemarrer => r = Ok RRien
  | AModifier mid _ | ASupprimer mid => match A !! mid with Some _ => r = Ok RRien | None => key_error r end
  | AObtenir mid => r = Ok (RMission (A !! mid))
  | AContient mid => r = Ok (RBool (bool_decide (is_Some (A !! mid))))
  | ARetirer mid => match A !! mid with Some m => r = Ok (RMission (Some m)) | None => key_error r end
  | AValeurs => exists l, r = Ok (RMissions l) /\ NoDup (map mi_id l) /\ Forall (fun m => A !! mi_id m = Some m) l
  | ATotal => r = Ok (RNat (size A))
  end.

Fixpoint spec_accepts (ops : list api) (A : gmap string Mission) (rs : list (res reponse)) : Prop :=
  match ops, rs with
  | [], [] => True
  | op :: ops', r :: rs' => spec_answer op A r /\ spec_accepts ops' (spec_state op A) rs'
  | _, _ => False
  end.

(** A modification keeps the id. *)
Definition keeps_id (op : api) : Prop :=
  match op with AModifier _ f => forall m, mi_id (f m) = mi_id m | _ => True end.

Section runs.
Context {D : Type} `{!Document D}.
Variable maximum : nat.
Variable isoformat : Z -> string.
Variable refuse : nat -> option exn.
Implicit Types s : Registre D.
Implicit Types t : pydict (Ligne D).
Implicit Types A : gmap string Mission.

#[local] Abbreviation getitem := (getitem maximum refuse).
#[local] Abbreviation setitem := (setitem maximum isoformat refuse).
#[local] Abbreviation persister := (persister maximum isoformat refuse).
#[local] Abbreviation poser := (poser (D := D) maximum).
#[local] Abbreviation hydrater := (hydrater maximum refuse).

(** The process restarts: the memory is lost, the table is not. *)
Definition redemarrer : M (Registre D) unit := fun s => (Ok tt, mkRegistre [] [] false (rg_table s) (rg_appels s)).

Definition run_api (op : api) : M (Registre D) reponse :=
  match op with
  | ACreer m => r <- nouveau m ;; setitem (mi_id m) r ;;; ret RRien
  | AModifier mid f => r <- getitem mid ;; muter r f ;;; persister r ;;; ret RRien
  | AObtenir mid =>
      o <- get_default maximum refuse mid ;;
      match o with
      | Some r => m <- objet r ;; ret (RMission (Some m))
      | None => ret (RMission None)
      end
  | AContient mid => b <- contains_key maximum refuse mid ;; ret (RBool b)
  | ASupprimer mid => delitem refuse mid ;;; ret RRien
  | ARetirer mid =>
      o <- pop maximum refuse mid None ;;
      match o with
      | Some r => m <- objet r ;; ret (RMission (Some m))
      | None => ret (RMission None)
      end
  | AValeurs => l <- values maximum refuse ;; ms <- m_map objet l ;; ret (RMissions ms)
  | ATotal => n <- total_ refuse ;; ret (RNat n)
  | AVider => clear refuse ;;; ret RRien
  | ARedemarrer => redemarrer ;;; ret RRien
  end.

Fixpoint run_apis (ops : list api) s : list (res reponse) * Registre D :=
  match ops with
  | [] => ([], s)
  | op :: ops' =>
      let '(r, s') := run_api op s in
      let '(rs, s'') := run_apis ops' s' in (r :: rs, s'')
  end.

(** ** What holds of the memory *)

(** The rows are the missions of [A], under their ids. *)
Definition represents t A : Prop :=
  dict_wf t /\ (forall mid, (fun l => doc_read (li_document l)) <$> dget t mid = Some <$> A !! mid) /\
  forall mid m, A !! mid = Some m -> mi_id m = mid.

(** The cache shows the missions of [A]. *)
Definition shows s A (mid : string) (r : nat) : Prop := exists m, rg_objets s !! r = Some m /\ A !! mid = Some m.

(** The cache is bounded, up to the missions that are active. *)
Definition bounded s : Prop :=
  (length (rg_missions s) <= maximum)%nat \/
  forall mid r, dget (rg_missions s) mid = Some r -> est_terminale s r = false.

Record coherent s A : Prop := Coherent {
  co_table : exists t, rg_table s = Some t /\ represents t A;
  co_cache : dict_wf (rg_missions s);
  co_shows : forall mid r, dget (rg_missions s) mid = Some r -> shows s A mid r;
  co_bounded : bounded s
}.


(** The eviction from a well-formed cache. *)
Lemma evincer_eq s :
  dict_wf (rg_missions s) ->
  evincer maximum s
  = (Ok tt, with_missions (drop_oldest (est_terminale s) (length (rg_missions s) - maximum) (rg_missions s)) s).
Proof.
  intros Hwf. unfold evincer. pose proof (evincer_loop_spec maximum (est_terminale s) (rg_missions s) [] Hwf) as He.
  cbn [app] in He. by rewrite He.
Qed.

Lemma evincer_bounded s : dict_wf (rg_missions s) -> bounded (evincer maximum s).2.
Proof.
  intros Hwf. rewrite evincer_eq by done. unfold bounded. cbn.
  destruct (drop_oldest_bound (est_terminale s) (length (rg_missions s) - maximum) (rg_missions s)) as [Hl|Hl].
  - left. rewrite Hl. lia.
  - right. intros mid r Hr%dget_Some_elem. by eapply Hl.
Qed.

Lemma drop_oldest_dget fini n (d : pydict nat) mid r :
  dict_wf d -> dget (drop_oldest fini n d) mid = Some r -> dget d mid = Some r.
Proof.
  intros Hd Hr%dget_Some_elem. apply dget_elem; [done|]. by eapply elem_of_sublist; [|apply drop_oldest_sublist].
Qed.

Lemma drop_oldest_wf fini n (d : pydict nat) : dict_wf d -> dict_wf (drop_oldest fini n d).
Proof. intros Hd. eapply sublist_NoDup; [exact Hd|]. unfold dkeys. apply (fmap_sublist fst), drop_oldest_sublist. Qed.

(** Putting the mission under its id makes the memory coherent. *)
Lemma poser_coherent mid r s A t m :
  rg_table s = Some t -> represents t A -> dict_wf (rg_missions s) ->
  (forall k r', k <> mid -> dget (rg_missions s) k = Some r' -> shows s A k r') ->
  rg_objets s !! r = Some m -> A !! mid = Some m ->
  exists s', poser mid r s = (Ok tt, s') /\ coherent s' A /\ rg_objets s' = rg_objets s.
Proof.
  intros Ht Hrep Hwf Hshow Hr HA. set (s1 := with_missions (dmove (rg_missions s) mid r) s).
  assert (Hwf1 : dict_wf (rg_missions s1)) by by apply dict_wf_dmove.
  exists (evincer maximum s1).2. pose proof (evincer_bounded s1 Hwf1) as Hb. split.
  { change (poser mid r s) with (evincer maximum s1). by rewrite evincer_eq. }
  rewrite evincer_eq in * by done. cbn [snd] in *. split; [|done]. split.
  - by exists t.
  - by apply drop_oldest_wf.
  - intros k r' Hk. cbn in Hk. apply drop_oldest_dget in Hk; [|done]. cbn in Hk. rewrite dget_dmove in Hk by done.
    case_decide as Hd; [|by eapply Hshow].
    injection Hk as <-. subst k. by exists m.
  - done.
Qed.

Lemma shows_distinct s t A k1 k2 r :
  represents t A -> shows s A k1 r -> shows s A k2 r -> k1 = k2.
Proof.
  intros (_ & _ & Hids) (m1 & Hm1 & HA1) (m2 & Hm2 & HA2). rewrite Hm1 in Hm2. injection Hm2 as <-.
  by rewrite <- (Hids _ _ HA1), <- (Hids _ _ HA2).
Qed.

(** What a new object, or a query, leaves. *)
Lemma coherent_more s s' A :
  coherent s A -> rg_missions s' = rg_missions s -> rg_table s' = rg_table s -> rg_objets s `prefix_of` rg_objets s' ->
  coherent s' A.
Proof.
  intros [Ht Hwf Hshow Hb] Hm Htab Hobj. split; rewrite ?Hm, ?Htab; [done|done| |].
  - intros mid r Hr. destruct (Hshow mid r Hr) as (m & Hrm & HA). exists m. split; [|done]. by eapply prefix_lookup_Some.
  - unfold bounded in *. rewrite Hm. destruct Hb as [Hb|Hb]; [by left|right]. intros mid r Hr. specialize (Hb mid r Hr).
    destruct (Hshow mid r Hr) as (m & Hrm & _). unfold est_terminale in *. rewrite Hrm in Hb.
    by rewrite (prefix_lookup_Some _ _ _ _ Hrm Hobj).
Qed.

(** ** The table *)

Lemma represents_lookup t A mid : represents t A -> (l ← dget t mid; doc_read (li_document l)) = A !! mid.
Proof.
  intros (_ & Ht & _). specialize (Ht mid). destruct (dget t mid) as [l|], (A !! mid) as [m|]; cbn in *; congruence.
Qed.

Lemma represents_write t A m :
  represents t A -> represents (dmove t (mi_id m) (ligne isoformat m)) (<[mi_id m := m]> A).
Proof.
  intros (Hwf & Ht & Hids). split; [by apply dict_wf_dmove|]. split.
  - intros mid. rewrite dget_dmove, lookup_insert by done. case_decide; [|apply Ht]. cbn. by rewrite doc_read_write.
  - intros mid m' [[<- <-]|[_ Hm]]%lookup_insert_Some; [done|by apply Hids].
Qed.

Lemma represents_delete t A mid : represents t A -> represents (ddel t mid) (delete mid A).
Proof.
  intros (Hwf & Ht & Hids). split; [by apply dict_wf_ddel|]. split.
  - intros k. rewrite dget_ddel, lookup_delete by done. case_decide; [done|apply Ht].
  - intros k m [_ Hm]%lookup_delete_Some. by apply Hids.
Qed.

Lemma represents_size t A : represents t A -> length t = size A.
Proof.
  intros (Hwf & Ht & _). rewrite <- (dkeys_length t), <- (size_list_to_set (C := gset string) (dkeys t)) by apply Hwf.
  rewrite <- size_dom. f_equal. apply leibniz_equiv. intros k. rewrite elem_of_list_to_set, elem_of_dom, <- dget_is_Some.
  specialize (Ht k). destruct (dget t k), (A !! k); cbn in Ht; try done; split; (done || by intros [? ?]).
Qed.

Lemma stored s t : rg_table s = Some t -> sans_magasin s = false.
Proof. unfold sans_magasin. by intros ->. Qed.

(** ** The operations, when the database refuses nothing *)

Section quiet.
Hypothesis quiet : forall i, refuse i = None.

Lemma requete_ok {B : Type} (q : pydict (Ligne D) -> B * pydict (Ligne D)) s t :
  rg_table s = Some t ->
  requete refuse q s
  = (Ok (q t).1, mkRegistre (rg_objets s) (rg_missions s) (rg_hydrate s) (Some (q t).2) (S (rg_appels s))).
Proof. intros Ht. unfold requete. rewrite Ht, quiet. by destruct (q t). Qed.

Lemma enregistrer_ok r s t m :
  rg_table s = Some t -> rg_objets s !! r = Some m ->
  enregistrer isoformat refuse r s
  = (Ok tt, mkRegistre (rg_objets s) (rg_missions s) (rg_hydrate s) (Some (dmove t (mi_id m) (ligne isoformat m)))
              (S (rg_appels s))).
Proof.
  intros Ht Hr. unfold enregistrer. rewrite (bind_ok _ _ s s m) by (unfold objet; by rewrite Hr).
  by rewrite (requete_ok _ s t).
Qed.

(** The cache is right but for what is about to be written. *)
Lemma written_coherent r s A t m :
  rg_table s = Some t -> represents t A -> dict_wf (rg_missions s) -> rg_objets s !! r = Some m ->
  (forall k r', k <> mi_id m -> dget (rg_missions s) k = Some r' -> shows s A k r') ->
  exists s', persister r s = (Ok tt, s') /\ setitem (mi_id m) r s = (Ok tt, s') /\ coherent s' (<[mi_id m := m]> A).
Proof.
  intros Ht Hrep Hwf Hr Hshow. pose proof (represents_write t A m Hrep) as Hrep'.
  set (s1 := mkRegistre (rg_objets s) (rg_missions s) (rg_hydrate s) (Some (dmove t (mi_id m) (ligne isoformat m))) (S (rg_appels s))).
  destruct (poser_coherent (mi_id m) r s1 (<[mi_id m := m]> A) _ m eq_refl Hrep' Hwf) as (s' & Hp & Hc & _).
  - intros k r' Hk Hd. destruct (Hshow k r' Hk Hd) as (m' & Hm' & HA). exists m'. split; [done|].
    by rewrite lookup_insert_ne.
  - done.
  - by rewrite lookup_insert_eq.
  - exists s'. pose proof (enregistrer_ok r s t m Ht Hr) as He. fold s1 in He. split; [|split; [|done]].
    + unfold MissionRegistry.persister. rewrite (bind_ok get _ s s s) by done. rewrite (stored s t) by done.
      rewrite (bind_ok _ _ _ _ _ He). rewrite (bind_ok _ _ s1 s1 m); [done|]. unfold objet. cbn. by rewrite Hr.
    + unfold MissionRegistry.setitem. rewrite (bind_ok get _ s s s) by done. rewrite (stored s t) by done.
      rewrite (bind_ok _ _ s s1 tt); [done|]. unfold sauf, catch. by rewrite He.
Qed.

Lemma relire_spec mid s A :
  coherent s A ->
  exists o s', relire maximum refuse mid s = (Ok o, s') /\ coherent s' A /\
    match A !! mid with
    | Some m => exists r, o = Some r /\ rg_objets s' !! r = Some m
    | None => o = None
    end.
Proof.
  intros Hco. destruct (co_table _ _ Hco) as (t & Ht & Hrep). unfold relire.
  rewrite (bind_ok get _ s s s) by done. rewrite (stored s t) by done.
  set (s1 := mkRegistre (rg_objets s) (rg_missions s) (rg_hydrate s) (Some t) (S (rg_appels s))).
  rewrite (bind_ok _ _ s s1 (A !! mid)).
  2:{ unfold sauf, catch, lire. rewrite (requete_ok _ s t) by done. cbn. by rewrite (represents_lookup t A). }
  assert (Hco1 : coherent s1 A) by by apply (coherent_more s).
  destruct (A !! mid) as [m|] eqn:HA; [|by exists None, s1].
  set (r := length (rg_objets s1)). set (s2 := mkRegistre (rg_objets s1 ++ [m]) (rg_missions s1) (rg_hydrate s1) (rg_table s1) (rg_appels s1)).
  rewrite (bind_ok _ _ s1 s2 r) by done. assert (Hr : rg_objets s2 !! r = Some m) by by apply list_lookup_middle.
  assert (Hco2 : coherent s2 A) by (apply (coherent_more s1); try done; by apply prefix_app_r).
  destruct (poser_coherent mid r s2 A t m eq_refl Hrep (co_cache _ _ Hco2)) as (s' & Hp & Hc & Hobj).
  - intros k r' _. apply (co_shows _ _ Hco2).
  - done.
  - done.
  - rewrite (bind_ok _ _ _ _ _ Hp). exists (Some r), s'. split; [done|]. split; [done|]. exists r. by rewrite Hobj.
Qed.

Lemma getitem_spec mid s A :
  coherent s A ->
  match A !! mid with
  | Some m => exists r s', getitem mid s = (Ok r, s') /\ coherent s' A /\ rg_objets s' !! r = Some m
  | None => exists l s', getitem mid s = (Err (Exn KeyError l), s') /\ coherent s' A
  end.
Proof.
  intros Hco. unfold MissionRegistry.getitem. rewrite !(bind_ok get _ s s s) by done.
  destruct (dget (rg_missions s) mid) as [r|] eqn:Hd.
  - destruct (co_shows _ _ Hco mid r Hd) as (m & Hr & HA). rewrite HA. by exists r, s.
  - destruct (relire_spec mid s A Hco) as (o & s' & Hrun & Hc & Ho). rewrite !(bind_ok _ _ _ _ _ Hrun).
    destruct (A !! mid) as [m|]; [destruct Ho as (r & -> & Hr); by exists r, s'|subst o]. by eexists _, s'.
Qed.

Lemma get_default_spec mid s A :
  coherent s A ->
  exists o s', get_default maximum refuse mid s = (Ok o, s') /\ coherent s' A /\
    match A !! mid with
    | Some m => exists r, o = Some r /\ rg_objets s' !! r = Some m
    | None => o = None
    end.
Proof.
  intros Hco. pose proof (getitem_spec mid s A Hco) as Hg. unfold get_default, catch, bind.
  destruct (A !! mid) as [m|].
  - destruct Hg as (r & s' & -> & Hc & Hr). exists (Some r), s'. split; [done|]. split; [done|]. by exists r.
  - destruct Hg as (l & s' & -> & Hc). by exists None, s'.
Qed.

Lemma contains_key_spec mid s A :
  coherent s A ->
  exists s', contains_key maximum refuse mid s = (Ok (bool_decide (is_Some (A !! mid))), s') /\ coherent s' A.
Proof.
  intros Hco. unfold contains_key. rewrite (bind_ok get _ s s s) by done. unfold dmem.
  destruct (dget (rg_missions s) mid) as [r|] eqn:Hd.
  - destruct (co_shows _ _ Hco mid r Hd) as (m & Hr & HA). rewrite HA. by exists s.
  - destruct (relire_spec mid s A Hco) as (o & s' & Hrun & Hc & Ho). rewrite (bind_ok _ _ _ _ _ Hrun). exists s'. split; [|done].
    destruct (A !! mid) as [m|]; [by destruct Ho as (r & -> & _)|by subst o].
Qed.

Lemma delitem_spec mid s A :
  coherent s A ->
  match A !! mid with
  | Some _ => exists s', delitem refuse mid s = (Ok tt, s') /\ coherent s' (delete mid A) /\ rg_objets s' = rg_objets s
  | None => exists l s', delitem refuse mid s = (Err (Exn KeyError l), s') /\ coherent s' A
  end.
Proof.
  intros Hco. destruct (co_table _ _ Hco) as (t & Ht & Hrep). pose proof (represents_delete t A mid Hrep) as Hrep'.
  assert (Hgone : forall cache n, (forall k r, dget cache k = Some r -> k <> mid /\ dget (rg_missions s) k = Some r) ->
    dict_wf cache -> bounded (with_missions cache s) ->
    coherent (mkRegistre (rg_objets s) cache (rg_hydrate s) (Some (ddel t mid)) n) (delete mid A)).
  { intros cache n Hsub Hwf Hb. split; [by exists (ddel t mid)|done| |done]. intros k r Hk. destruct (Hsub k r Hk) as [Hne Hk'].
    destruct (co_shows _ _ Hco k r Hk') as (m & Hr & HA). exists m. split; [done|]. by rewrite lookup_delete_ne. }
  unfold delitem. rewrite !(bind_ok get _ s s s) by done. unfold dmem. destruct (dget (rg_missions s) mid) as [r|] eqn:Hd.
  - destruct (co_shows _ _ Hco mid r Hd) as (m & Hr & HA). rewrite HA.
    set (s1 := with_missions (ddel (rg_missions s) mid) s). rewrite (bind_ok _ _ s s1 tt) by done.
    change (sans_magasin s) with (sans_magasin s1). rewrite (stored s1 t) by done. rewrite (bind_ok _ _ s1 s1 false) by done.
    unfold supprimer. rewrite (requete_ok _ s1 t) by done. eexists. split; [done|]. split; [|done]. apply Hgone.
    + intros k r' Hk. cbn in Hk. rewrite dget_ddel in Hk by apply Hco. case_decide; [done|]. split; [congruence|done].
    + apply dict_wf_ddel, Hco.
    + destruct (co_bounded _ _ Hco) as [Hl|Hl]; [left|right].
      * cbn. pose proof (length_ddel_le (rg_missions s) mid). lia.
      * intros k r' Hk. cbn in Hk. rewrite dget_ddel in Hk by apply Hco. case_decide; [done|]. by apply (Hl k).
  - rewrite !(bind_ok _ _ s s tt) by done. rewrite (stored s t) by done.
    set (s1 := mkRegistre (rg_objets s) (rg_missions s) (rg_hydrate s) (Some t) (S (rg_appels s))).
    assert (Hlire : lire refuse mid s = (Ok (A !! mid), s1)).
    { unfold lire. rewrite (requete_ok _ s t) by done. cbn. by rewrite (represents_lookup t A). }
    rewrite !(bind_ok _ _ s s1 (match A !! mid with Some _ => false | None => true end)).
    2: rewrite (bind_ok _ _ _ _ _ Hlire); done.
    destruct (A !! mid) as [m|] eqn:HA.
    + unfold supprimer. rewrite (requete_ok _ s1 t) by done. eexists. split; [done|]. split; [|done]. apply Hgone.
      * intros k r' Hk. cbn in Hk. split; [congruence|done].
      * apply Hco.
      * apply Hco.
    + eexists _, s1. split; [done|]. by apply (coherent_more s).
Qed.

Lemma pop_spec mid s A :
  coherent s A ->
  match A !! mid with
  | Some m => exists r s', pop maximum refuse mid None s = (Ok (Some r), s') /\ coherent s' (delete mid A) /\ rg_objets s' !! r = Some m
  | None => exists l s', pop maximum refuse mid None s = (Err (Exn KeyError l), s') /\ coherent s' A
  end.
Proof.
  intros Hco. pose proof (getitem_spec mid s A Hco) as Hg.
  assert (Hfound : forall r s1, getitem mid s = (Ok r, s1) -> pop maximum refuse mid None s = (delitem refuse mid ;;; ret (Some r)) s1)
    by (intros r s1 Hrun; unfold pop, catch, bind; by rewrite Hrun).
  assert (Hlost : forall l s1, getitem mid s = (Err (Exn KeyError l), s1) ->
    pop maximum refuse mid None s = (Err (Exn KeyError l), s1)) by (intros l s1 Hrun; unfold pop, catch, bind; by rewrite Hrun).
  destruct (A !! mid) as [m|] eqn:HA.
  - destruct Hg as (r & s1 & Hrun & Hc1 & Hr). pose proof (delitem_spec mid s1 A Hc1) as Hd. rewrite HA in Hd.
    destruct Hd as (s' & Hdel & Hc & Hobj). exists r, s'. split; [|split; [done|by rewrite Hobj]].
    rewrite (Hfound r s1) by done. by rewrite (bind_ok _ _ _ _ _ Hdel).
  - destruct Hg as (l & s1 & Hrun & Hc1). exists l, s1. split; [|done]. by apply Hlost.
Qed.

(** *** Filling the cache *)

Definition sound s A : Prop :=
  (exists t, rg_table s = Some t /\ represents t A) /\ dict_wf (rg_missions s) /\
  forall mid r, dget (rg_missions s) mid = Some r -> shows s A mid r.

Lemma evincer_coherent s A : sound s A -> exists s', evincer maximum s = (Ok tt, s') /\ coherent s' A.
Proof.
  intros (Ht & Hwf & Hshow). pose proof (evincer_bounded s Hwf) as Hb. eexists. split; [by apply evincer_eq|].
  rewrite evincer_eq in Hb by done. split; [done|by apply drop_oldest_wf| |done].
  intros mid r Hr. cbn in Hr. by apply Hshow, (drop_oldest_dget _ _ _ _ _ Hwf Hr).
Qed.

Lemma completer_sound m s A :
  sound s A -> A !! mi_id m = Some m -> exists s', completer m s = (Ok tt, s') /\ sound s' A /\ rg_hydrate s' = rg_hydrate s.
Proof.
  intros (Ht & Hwf & Hshow) HA. unfold completer. rewrite (bind_ok get _ s s s) by done.
  destruct (dmem (rg_missions s) (mi_id m)) eqn:Hm; [by exists s|]. apply dmem_false in Hm.
  eexists. split; [reflexivity|]. split; [|done]. split; [done|]. cbn. split; [by apply dict_wf_dset|].
  intros mid r. rewrite dget_dset. case_decide as Hd.
  - intros [= <-]. subst mid. exists m. split; [|done]. by apply list_lookup_middle.
  - intros Hr. destruct (Hshow mid r Hr) as (m' & Hm' & HA'). exists m'. split; [|done]. cbn. by apply lookup_app_l_Some.
Qed.

Lemma elem_dans_l_ordre t p : p ∈ dans_l_ordre t <-> p ∈ t.
Proof. unfold dans_l_ordre. by rewrite sort_by_perm, <- Permutation_rev. Qed.

(** The missions that [tous] reads. *)
Definition lues t : list Mission := omap (fun p => doc_read (li_document p.2)) (dans_l_ordre t).

Lemma elem_lues t A m : represents t A -> m ∈ lues t -> A !! mi_id m = Some m.
Proof.
  intros Hrep (p & Hp & Hm)%list_elem_of_omap. apply (elem_dans_l_ordre t) in Hp. destruct p as [mid l].
  pose proof (represents_lookup t A mid Hrep) as HA. rewrite (dget_elem t mid l (proj1 Hrep) Hp) in HA. cbn in *.
  rewrite Hm in HA. destruct Hrep as (_ & _ & Hids). by rewrite (Hids mid m).
Qed.

Lemma hydrater_spec s A :
  coherent s A -> exists s', hydrater s = (Ok tt, s') /\ coherent s' A /\ rg_hydrate s' = true.
Proof.
  intros Hco. destruct (co_table _ _ Hco) as (t & Ht & Hrep). unfold MissionRegistry.hydrater.
  rewrite !(bind_ok get _ s s s) by done. destruct (rg_hydrate s) eqn:Hh; [by exists s|].
  set (s1 := with_hydrate true s). rewrite (bind_ok _ _ s s1 tt) by done. change (sans_magasin s) with (sans_magasin s1).
  rewrite (stored s1 t) by done.
  set (s2 := mkRegistre (rg_objets s1) (rg_missions s1) (rg_hydrate s1) (Some t) (S (rg_appels s1))).
  rewrite (bind_ok _ _ s1 s2 (Some (take maximum (lues t)))).
  2:{ unfold sauf, catch, tous, bind. by rewrite (requete_ok _ s1 t). }
  destruct (wp_ok (for_each (rev (take maximum (lues t))) completer) (fun _ s' => sound s' A /\ rg_hydrate s' = true) s2)
    as ([] & s3 & Hrun & Hs3 & Hh3).
  - apply (wp_for_each (fun _ s' => sound s' A /\ rg_hydrate s' = true)).
    + split; [|done]. split; [by exists t|]. split; apply Hco.
    + intros l1 m l2 s' Hl [Hs' Hh']. destruct (completer_sound m s' A Hs') as (s4 & Hrun & Hs4 & Hh4).
      * apply (elem_lues t A); [done|]. assert (Hin : m ∈ rev (take maximum (lues t))) by (rewrite Hl; set_solver).
        rewrite <- Permutation_rev in Hin. by eapply elem_of_sublist; [|apply sublist_take].
      * unfold wp. rewrite Hrun. split; [done|congruence].
  - rewrite (bind_ok _ _ _ _ _ Hrun). destruct (evincer_coherent s3 A Hs3) as (s4 & He & Hc). exists s4. split; [done|].
    split; [done|]. unfold evincer in He. injection He as <-. done.
Qed.

Lemma objets_spec l s ms :
  Forall2 (fun r m => rg_objets s !! r = Some m) l ms -> m_map objet l s = (Ok ms, s).
Proof.
  induction 1 as [|r m l ms Hr _ IH]; [done|]. cbn [m_map]. rewrite (bind_ok _ _ s s m) by (unfold objet; by rewrite Hr).
  by rewrite (bind_ok _ _ _ _ _ IH).
Qed.

(** The missions of a coherent cache. *)
Lemma cache_missions s A :
  coherent s A ->
  exists ms, Forall2 (fun r m => rg_objets s !! r = Some m) (dvalues (rg_missions s)) ms /\
    map mi_id ms = dkeys (rg_missions s) /\ Forall (fun m => A !! mi_id m = Some m) ms.
Proof.
  intros Hco. destruct (co_table _ _ Hco) as (t & _ & _ & _ & Hids).
  pose proof (co_shows _ _ Hco) as Hshow. pose proof (co_cache _ _ Hco) as Hwf.
  assert (Hin : forall p, p ∈ rg_missions s -> shows s A p.1 p.2) by (intros [k r] Hp; by apply Hshow, dget_elem).
  clear Hshow Hwf. unfold dvalues, dkeys. induction (rg_missions s) as [|p l IH]; [by exists []|].
  destruct IH as (ms & H1 & H2 & H3); [set_solver|]. destruct (Hin p ltac:(set_solver)) as (m & Hr & HA).
  exists (m :: ms). cbn. rewrite (Hids _ _ HA), H2. split; [by constructor|]. split; [done|].
  constructor; [by rewrite (Hids _ _ HA)|done].
Qed.

Lemma values_spec s A :
  coherent s A ->
  exists ms s', run_api AValeurs s = (Ok (RMissions ms), s') /\ coherent s' A /\
    NoDup (map mi_id ms) /\ Forall (fun m => A !! mi_id m = Some m) ms.
Proof.
  intros Hco. destruct (hydrater_spec s A Hco) as (s' & Hh & Hc & _).
  destruct (cache_missions s' A Hc) as (ms & Hms & Hids & HA). exists ms, s'.
  assert (Hv : values maximum refuse s = (Ok (dvalues (rg_missions s')), s')) by (unfold values; by rewrite (bind_ok _ _ _ _ _ Hh)).
  cbn [run_api]. rewrite (bind_ok _ _ _ _ _ Hv). rewrite (bind_ok _ _ _ _ _ (objets_spec _ _ _ Hms)).
  split; [done|]. split; [done|]. split; [|done]. rewrite Hids. apply Hc.
Qed.

Lemma empty_coherent s t A :
  rg_table s = Some t -> represents t A -> rg_missions s = [] -> coherent s A.
Proof.
  intros Ht Hrep Hm. split; rewrite ?Hm; [by exists t|constructor|done|]. unfold bounded. rewrite Hm. left. cbn. lia.
Qed.

(** ** One operation *)

Lemma alter_present (f : Mission -> Mission) mid A m : A !! mid = Some m -> alter f mid A = <[mid := f m]> A.
Proof.
  intros HA. apply map_eq. intros k. rewrite lookup_alter, lookup_insert. case_decide; [subst; by rewrite HA|done].
Qed.

Lemma alter_absent (f : Mission -> Mission) mid A : A !! mid = None -> alter f mid A = A.
Proof. intros HA. apply map_eq. intros k. rewrite lookup_alter. case_decide; [subst; by rewrite HA|done]. Qed.

Lemma run_api_spec op s A :
  coherent s A -> keeps_id op ->
  exists r s', run_api op s = (r, s') /\ spec_answer op A r /\ coherent s' (spec_state op A).
Proof.
  intros Hco Hid. destruct (co_table _ _ Hco) as (t & Ht & Hrep).
  destruct op as [m|mid f|mid|mid|mid|mid| | | |]; cbn [run_api spec_answer spec_state].
  - set (s1 := mkRegistre (rg_objets s ++ [m]) (rg_missions s) (rg_hydrate s) (rg_table s) (rg_appels s)).
    set (r := length (rg_objets s)). assert (Hc1 : coherent s1 A) by (apply (coherent_more s); try done; by apply prefix_app_r).
    destruct (written_coherent r s1 A t m) as (s' & _ & Hset & Hc'); [done|done|apply Hco|by apply list_lookup_middle| |].
    { intros k r' _. apply (co_shows _ _ Hc1). }
    rewrite (bind_ok _ _ s s1 r) by done. rewrite (bind_ok _ _ _ _ _ Hset). by eexists _, s'.
  - pose proof (getitem_spec mid s A Hco) as Hg. destruct (A !! mid) as [m|] eqn:HA.
    + destruct Hg as (r & s1 & Hrun & Hc1 & Hr). rewrite (bind_ok _ _ _ _ _ Hrun).
      set (s2 := mkRegistre (alter f r (rg_objets s1)) (rg_missions s1) (rg_hydrate s1) (rg_table s1) (rg_appels s1)).
      rewrite (bind_ok _ _ s1 s2 tt) by done. destruct (co_table _ _ Hc1) as (t1 & Ht1 & Hrep1).
      assert (Hm : mi_id m = mid) by by apply Hrep1.
      destruct (written_coherent r s2 A t1 (f m)) as (s' & Hp & _ & Hc'); [done|done|apply Hc1| | |].
      * cbn. by rewrite list_lookup_alter_eq, Hr.
      * intros k r' Hk Hd. rewrite (Hid m), Hm in Hk. destruct (co_shows _ _ Hc1 k r' Hd) as (m' & Hr' & HA').
        exists m'. split; [|done]. cbn. rewrite list_lookup_alter_ne; [done|]. intros <-. rewrite Hr in Hr'. injection Hr' as <-.
        apply Hk. rewrite <- Hm. symmetry. by apply Hrep1.
      * rewrite (bind_ok _ _ _ _ _ Hp). eexists _, s'. split; [done|]. split; [done|].
        rewrite (Hid m), Hm in Hc'. by rewrite (alter_present f mid A m).
    + destruct Hg as (l & s1 & Hrun & Hc1). rewrite (bind_err _ _ _ _ _ Hrun). eexists _, s1. split; [done|]. split; [by exists l|].
      by rewrite alter_absent.
  - destruct (get_default_spec mid s A Hco) as (o & s' & Hrun & Hc & Ho). rewrite (bind_ok _ _ _ _ _ Hrun).
    destruct (A !! mid) as [m|]; [destruct Ho as (r & -> & Hr)|subst o; by eexists _, s'].
    rewrite (bind_ok _ _ s' s' m) by (unfold objet; by rewrite Hr). by eexists _, s'.
  - destruct (contains_key_spec mid s A Hco) as (s' & Hrun & Hc). rewrite (bind_ok _ _ _ _ _ Hrun). by eexists _, s'.
  - pose proof (delitem_spec mid s A Hco) as Hd. destruct (A !! mid) as [m|] eqn:HA.
    + destruct Hd as (s' & Hrun & Hc & _). rewrite (bind_ok _ _ _ _ _ Hrun). by eexists _, s'.
    + destruct Hd as (l & s' & Hrun & Hc). rewrite (bind_err _ _ _ _ _ Hrun). eexists _, s'. split; [done|]. split; [by exists l|].
      by rewrite delete_id.
  - pose proof (pop_spec mid s A Hco) as Hp. destruct (A !! mid) as [m|] eqn:HA.
    + destruct Hp as (r & s' & Hrun & Hc & Hr). rewrite (bind_ok _ _ _ _ _ Hrun).
      rewrite (bind_ok _ _ s' s' m) by (unfold objet; by rewrite Hr). by eexists _, s'.
    + destruct Hp as (l & s' & Hrun & Hc). rewrite (bind_err _ _ _ _ _ Hrun). eexists _, s'. split; [done|]. split; [by exists l|].
      by rewrite delete_id.
  - destruct (values_spec s A Hco) as (ms & s' & Hrun & Hc & Hnd & HA). cbn [run_api] in Hrun. rewrite Hrun.
    eexists _, s'. split; [done|]. split; [by exists ms|done].
  - unfold total_. rewrite (bind_ok _ _ s (mkRegistre (rg_objets s) (rg_missions s) (rg_hydrate s) (Some t) (S (rg_appels s))) (length t)).
    2:{ rewrite (bind_ok get _ s s s) by done. rewrite (stored s t) by done. unfold sauf, catch, nombre, bind. by rewrite (requete_ok _ s t). }
    eexists _, _. split; [done|]. split; [by rewrite (represents_size t A)|]. by apply (coherent_more s).
  - unfold clear. set (s1 := with_hydrate false (with_missions [] s)).
    rewrite (bind_ok _ _ s (mkRegistre (rg_objets s) [] false (Some []) (S (rg_appels s))) tt).
    2:{ rewrite (bind_ok _ _ s s1 tt) by done. rewrite (bind_ok get _ s1 s1 s1) by done. rewrite (stored s1 t) by done.
        unfold sauf, catch, vider. by rewrite (requete_ok _ s1 t). }
    eexists _, _. split; [done|]. split; [done|]. apply (empty_coherent _ []); [done| |done].
    split; [constructor|]. split; [intros mid; by rewrite lookup_empty|intros mid m; by rewrite lookup_empty].
  - eexists _, _. split; [done|]. split; [done|]. by apply (empty_coherent _ t).
Qed.

Lemma run_apis_spec ops s A :
  coherent s A -> Forall keeps_id ops ->
  spec_accepts ops A (run_apis ops s).1 /\ coherent (run_apis ops s).2 (fold_left (fun A op => spec_state op A) ops A).
Proof.
  intros Hco Hops. revert s A Hco. induction Hops as [|op ops Hid _ IH]; intros s A Hco; [done|].
  destruct (run_api_spec op s A Hco Hid) as (r & s' & Hrun & Hans & Hc). cbn [run_apis]. rewrite Hrun.
  destruct (IH s' _ Hc) as [Hacc Hc']. destruct (run_apis ops s') as [rs s'']. cbn in *. split; [by split|done].
Qed.

Lemma fresh_coherent t A : represents t A -> coherent (nouveau_registre (Some t)) A.
Proof. intros Hrep. by apply (empty_coherent _ t). Qed.

(** ** What is promised *)

(** C11: The registry.  Over a table that refuses nothing, whatever is evicted from
    memory and however often the process restarts, the registry answers as a map
    from ids to missions does, and its table holds that map; a list of missions
    shows each of them as it is in the map. *)
Theorem registry_refines ops t A :
  represents t A -> Forall keeps_id ops ->
  let o := run_apis ops (nouveau_registre (Some t)) in
  spec_accepts ops A o.1 /\
  exists t', rg_table o.2 = Some t' /\ represents t' (fold_left (fun A op => spec_state op A) ops A).
Proof.
  intros Hrep Hops. cbv zeta. destruct (run_apis_spec ops _ A (fresh_coherent t A Hrep) Hops) as [Hacc Hco].
  split; [done|]. apply Hco.
Qed.

(** The bound.  After any operations the cache holds no more missions than its
    bound, or none of those it holds is finished. *)
Theorem cache_bounded ops t A :
  represents t A -> Forall keeps_id ops ->
  let s := (run_apis ops (nouveau_registre (Some t))).2 in
  (length (rg_missions s) <= maximum)%nat \/
  forall mid r, dget (rg_missions s) mid = Some r -> est_terminale s r = false.
Proof. intros Hrep Hops. by apply (run_apis_spec ops _ A (fresh_coherent t A Hrep) Hops). Qed.

Lemma ids_lues t A : represents t A -> map mi_id (lues t) = map fst (dans_l_ordre t).
Proof.
  intros Hrep. assert (Hin : forall p, p ∈ dans_l_ordre t -> exists m, doc_read (li_document p.2) = Some m /\ mi_id m = p.1).
  { intros [mid l] Hp%(elem_dans_l_ordre t). destruct Hrep as (Hwf & Ht & Hids). specialize (Ht mid).
    rewrite (dget_elem _ _ _ Hwf Hp) in Ht. destruct (A !! mid) as [m|] eqn:HA; [|done]. exists m. cbn in *.
    split; [congruence|by apply Hids]. }
  unfold lues. induction (dans_l_ordre t) as [|p l IH]; [done|]. destruct (Hin p ltac:(set_solver)) as (m & Hm & Hid).
  cbn [omap list_omap map]. rewrite Hm. cbn. rewrite Hid. f_equal. apply IH. set_solver.
Qed.

Lemma fill_empty l s :
  rg_missions s = [] -> NoDup (map mi_id l) ->
  wp (for_each l completer)
    (fun _ s' => dkeys (rg_missions s') = map mi_id l /\
                 Forall2 (fun r m => rg_objets s' !! r = Some m) (dvalues (rg_missions s')) l) s.
Proof.
  intros Hs Hnd. apply (wp_for_each (fun l1 s' => dkeys (rg_missions s') = map mi_id l1 /\
    Forall2 (fun r m => rg_objets s' !! r = Some m) (dvalues (rg_missions s')) l1)); [by rewrite Hs|].
  intros l1 m l2 s' Hl [Hk Hv]. unfold wp, completer. rewrite (bind_ok get _ s' s' s') by done.
  assert (Hm : mi_id m ∉ dkeys (rg_missions s')).
  { rewrite Hk. rewrite Hl, map_app in Hnd. apply NoDup_app in Hnd as (_ & Hdis & _). intros Hin. apply (Hdis _ Hin). cbn. set_solver. }
  rewrite (proj2 (dmem_false _ _) Hm). cbn. rewrite (dkeys_dset_new _ _ _ Hm). split.
  - rewrite dkeys_app, Hk, map_app. done.
  - unfold dvalues. rewrite map_app. apply Forall2_app; [|repeat constructor; by apply list_lookup_middle].
    eapply Forall2_impl; [exact Hv|]. cbn. intros r m' Hr. by apply lookup_app_l_Some.
Qed.

(** A restart.  The first list after a restart shows the missions last created,
    as many as the cache holds, the oldest of them first. *)
Theorem values_after_restart t A n :
  represents t A ->
  (run_api AValeurs (mkRegistre [] [] false (Some t) n)).1 = Ok (RMissions (rev (take maximum (lues t)))).
Proof.
  intros Hrep. set (s := mkRegistre [] [] false (Some t) n). cbn [run_api]. unfold values, MissionRegistry.hydrater.
  set (s1 := mkRegistre (rg_objets s) (rg_missions s) true (Some t) (S (rg_appels s))).
  assert (Hnd : NoDup (map mi_id (rev (take maximum (lues t))))).
  { rewrite <- Permutation_rev. apply (sublist_NoDup _ (map mi_id (lues t))); [|apply (fmap_sublist mi_id), sublist_take].
    rewrite (ids_lues t A Hrep). unfold dans_l_ordre. rewrite sort_by_perm, <- Permutation_rev. apply Hrep. }
  destruct (wp_ok _ _ _ (fill_empty (rev (take maximum (lues t))) s1 eq_refl Hnd)) as ([] & s2 & Hrun & Hk & Hv).
  assert (Hwf : dict_wf (rg_missions s2)) by (unfold dict_wf; by rewrite Hk).
  assert (Hlen : (length (rg_missions s2) <= maximum)%nat).
  { rewrite <- dkeys_length, Hk, length_map, length_rev, length_take. lia. }
  assert (Hev : evincer maximum s2 = (Ok tt, s2)).
  { rewrite evincer_eq by done. replace (length (rg_missions s2) - maximum)%nat with 0%nat by lia.
    rewrite drop_oldest_0. by destruct s2. }
  rewrite (bind_ok _ _ s s2 (dvalues (rg_missions s2))).
  - by rewrite (bind_ok _ _ _ _ _ (objets_spec _ _ _ Hv)).
  - rewrite (bind_ok _ _ s s2 tt); [done|]. rewrite !(bind_ok get _ s s s) by done. cbn [rg_hydrate s].
    rewrite (bind_ok _ _ s (with_hydrate true s) tt) by done. cbn [sans_magasin rg_table s].
    rewrite (bind_ok _ _ _ s1 (Some (take maximum (lues t)))).
    + by rewrite (bind_ok _ _ _ _ _ Hrun).
    + unfold sauf, catch, tous, bind. by rewrite (requete_ok _ (with_hydrate true s) t).
Qed.
End quiet.

(** ** The objects of active missions

    Who walks a mission holds its object for as long as it runs, whatever the
    database refuses in the meantime. *)

Section held.
Variable mid : string.
Variable r : nat.

(** Every row is read as a mission with the id it is stored under. *)
Definition table_ok t : Prop := dict_wf t /\ forall k l m, dget t k = Some l -> doc_read (li_document l) = Some m -> mi_id m = k.

(** Every cached object is a mission with the id it is cached under; [r] is the
    one cached for [mid], and is active. *)
Record held s : Prop := Held {
  hd_cache : dict_wf (rg_missions s);
  hd_ids : forall k r', dget (rg_missions s) k = Some r' -> exists m, rg_objets s !! r' = Some m /\ mi_id m = k;
  hd_table : forall t, rg_table s = Some t -> table_ok t;
  hd_kept : dget (rg_missions s) mid = Some r;
  hd_active : est_terminale s r = false
}.

(** [x] keeps the object, whatever it answers, and answers as [Q] says. *)
Definition keeps_at {B : Type} (x : M (Registre D) B) (Q : B -> Registre D -> Prop) s : Prop :=
  held (x s).2 /\ forall b, (x s).1 = Ok b -> Q b (x s).2.

Definition keeps {B : Type} (x : M (Registre D) B) (Q : B -> Registre D -> Prop) : Prop :=
  forall s, held s -> keeps_at x Q s.

Definition any {B : Type} (_ : B) s : Prop := True.

Lemma keeps_bind {B C : Type} (x : M (Registre D) B) (f : B -> M (Registre D) C) Q R :
  keeps x Q -> (forall b s, held s -> Q b s -> keeps_at (f b) R s) -> keeps (bind x f) R.
Proof.
  intros Hx Hf s Hs. unfold keeps_at, bind. destruct (Hx s Hs) as [Hs' HQ]. destruct (x s) as [[b|e] s']; cbn in *; [|done].
  apply Hf; [done|by apply HQ].
Qed.

Lemma keeps_any {B : Type} (x : M (Registre D) B) Q : keeps x Q -> keeps x any.
Proof. intros Hx s Hs. split; [by apply Hx|done]. Qed.

Lemma keeps_ret {B : Type} (b : B) (Q : B -> Registre D -> Prop) : (forall s, held s -> Q b s) -> keeps (ret b) Q.
Proof. intros HQ s Hs. split; [done|]. intros b' [= <-]. by apply HQ. Qed.

Lemma keeps_raise {B : Type} e (Q : B -> Registre D -> Prop) : keeps (raise e) Q.
Proof. intros s Hs. by split. Qed.

Lemma keeps_sauf {B : Type} (x : M (Registre D) B) b (Q : B -> Registre D -> Prop) :
  keeps x Q -> (forall s, held s -> Q b s) -> keeps (sauf x b) Q.
Proof.
  intros Hx Hb s Hs. unfold keeps_at, sauf, catch. destruct (Hx s Hs) as [Hs' HQ]. destruct (x s) as [[b'|e] s']; cbn in *; [done|].
  split; [done|]. intros b' [= <-]. by apply Hb.
Qed.

(** Other objects, and queries. *)
Lemma held_more s s' :
  held s -> rg_missions s' = rg_missions s -> rg_objets s `prefix_of` rg_objets s' ->
  (forall t, rg_table s' = Some t -> table_ok t) -> held s'.
Proof.
  intros [Hwf Hids _ Hk Ha] Hm Hobj Ht. split; rewrite ?Hm; [done| |done|done|].
  - intros k r' Hk'. destruct (Hids k r' Hk') as (m & Hr & Hid). exists m. split; [|done]. by eapply prefix_lookup_Some.
  - destruct (Hids mid r Hk) as (m & Hr & _). unfold est_terminale in *. rewrite Hr in Ha.
    by rewrite (prefix_lookup_Some _ _ _ _ Hr Hobj).
Qed.

Lemma keeps_requete {B : Type} (q : pydict (Ligne D) -> B * pydict (Ligne D)) (Q : B -> Prop) :
  (forall t, table_ok t -> table_ok (q t).2 /\ Q (q t).1) -> keeps (requete refuse q) (fun b _ => Q b).
Proof.
  intros Hq s Hs. unfold keeps_at, requete. destruct (rg_table s) as [t|] eqn:Ht; [|by split].
  pose proof (hd_table _ Hs t Ht) as Htok. destruct (refuse (rg_appels s)) as [e|].
  - split; [|done]. apply (held_more s); [done|done|done|]. by intros ? [= <-].
  - destruct (Hq t Htok) as [Ht' HQ]. destruct (q t) as [b t']; cbn in *. split; [|by intros b' [= <-]].
    apply (held_more s); [done|done|done|]. by intros ? [= <-].
Qed.

Lemma keeps_objet k : keeps (objet k) (fun m s => rg_objets s !! k = Some m).
Proof. intros s Hs. unfold keeps_at, objet. destruct (rg_objets s !! k) eqn:Hk; cbn; (split; [done|]); [by intros ? [= <-]|done]. Qed.

Lemma keeps_get : keeps get (fun s' s => s' = s).
Proof. intros s Hs. split; [done|]. by intros s' [= <-]. Qed.

Lemma keeps_nouveau m : keeps (nouveau m) (fun k s => rg_objets s !! k = Some m).
Proof.
  intros s Hs. split.
  - apply (held_more s); [done|done|by apply prefix_app_r|apply Hs].
  - intros k [= <-]. by apply list_lookup_middle.
Qed.

(** Evicting keeps it, since it is active. *)
Lemma held_evincer s : held s -> held (evincer maximum s).2.
Proof.
  intros Hs. rewrite evincer_eq by apply Hs. destruct Hs as [Hwf Hids Ht Hk Ha]. split; cbn.
  - by apply drop_oldest_wf.
  - intros k r' Hk'. by apply Hids, (drop_oldest_dget _ _ _ _ _ Hwf Hk').
  - done.
  - apply dget_elem; [by apply drop_oldest_wf|]. apply drop_oldest_keeps; [by apply dget_Some_elem|done].
  - done.
Qed.

(** A mission put under its id, which is another one or the object itself. *)
Lemma held_poser k r' m s :
  held s -> rg_objets s !! r' = Some m -> mi_id m = k -> (k = mid -> r' = r) -> held (poser k r' s).2.
Proof.
  intros Hs Hr' Hid Hsame. set (s1 := with_missions (dmove (rg_missions s) k r') s).
  change (poser k r' s) with (evincer maximum s1). apply held_evincer.
  destruct Hs as [Hwf Hids Ht Hk Ha]. split; cbn.
  - by apply dict_wf_dmove.
  - intros k' r2. rewrite dget_dmove by done. case_decide; [intros [= <-]; exists m; by subst|apply Hids].
  - done.
  - rewrite dget_dmove by done. case_decide as Hd; [by rewrite Hsame|done].
  - done.
Qed.

Lemma table_ok_dmove t m : table_ok t -> table_ok (dmove t (mi_id m) (ligne isoformat m)).
Proof.
  intros [Hwf Ht]. split; [by apply dict_wf_dmove|]. intros k l m'. rewrite dget_dmove by done. case_decide; [|apply Ht].
  intros [= <-]. cbn. rewrite doc_read_write. by intros [= <-].
Qed.

Lemma table_ok_ddel t k : table_ok t -> table_ok (ddel t k).
Proof.
  intros [Hwf Ht]. split; [by apply dict_wf_ddel|]. intros k' l m. rewrite dget_ddel by done. case_decide; [done|apply Ht].
Qed.

Lemma keeps_enregistrer k : keeps (enregistrer isoformat refuse k) any.
Proof.
  unfold enregistrer. eapply keeps_bind; [apply keeps_objet|]. intros m s Hs _.
  eapply keeps_any; [|done]. apply (keeps_requete _ (fun _ => True)). intros t Ht. split; [by apply table_ok_dmove|done].
Qed.

Lemma enregistrer_objets k s : rg_objets (enregistrer isoformat refuse k s).2 = rg_objets s.
Proof.
  unfold enregistrer, bind, objet. destruct (rg_objets s !! k) as [m|]; [|done]. unfold requete. destruct (rg_table s) as [t|]; [|done].
  by destruct (refuse _).
Qed.

(** Writing the object of another mission, or the object itself. *)
Lemma held_persister k m s :
  held s -> rg_objets s !! k = Some m -> (mi_id m = mid -> k = r) -> held (persister k s).2.
Proof.
  intros Hs Hm Hsame. unfold MissionRegistry.persister. rewrite (bind_ok get _ s s s) by done.
  assert (Hend : forall s', held s' -> rg_objets s' = rg_objets s -> held ((m <- objet k ;; poser (mi_id m) k) s').2).
  { intros s' Hs' Ho. rewrite (bind_ok _ _ s' s' m) by (unfold objet; by rewrite Ho, Hm).
    by apply held_poser with m; [|rewrite Ho| |]. }
  destruct (sans_magasin s); [by apply Hend|]. destruct (keeps_enregistrer k s Hs) as [Hs' _].
  pose proof (enregistrer_objets k s) as Ho. unfold bind at 1. destruct (enregistrer isoformat refuse k s) as [[[]|e] s']; [|done].
  by apply Hend.
Qed.

Lemma held_setitem k m s :
  held s -> rg_objets s !! k = Some m -> mi_id m <> mid -> held (setitem (mi_id m) k s).2.
Proof.
  intros Hs Hm Hne. unfold MissionRegistry.setitem. rewrite (bind_ok get _ s s s) by done.
  assert (Hend : forall s', held s' -> rg_objets s' = rg_objets s -> held (poser (mi_id m) k s').2).
  { intros s' Hs' Ho. by apply held_poser with m; [|rewrite Ho| |]. }
  destruct (sans_magasin s); [by apply Hend|]. destruct (keeps_enregistrer k s Hs) as [Hs' _].
  pose proof (enregistrer_objets k s) as Ho. unfold bind, sauf, catch. destruct (enregistrer isoformat refuse k s) as [[[]|e] s']; by apply Hend.
Qed.

Lemma held_muter k f s :
  held s -> (forall m, mi_id (f m) = mi_id m) ->
  (k = r -> forall m, terminal (mi_status m) = false -> terminal (mi_status (f m)) = false) -> held (muter k f s).2.
Proof.
  intros [Hwf Hids Ht Hk Ha] Hid Hf. split; cbn; [done| |done|done|].
  - intros k' r' Hk'. destruct (Hids k' r' Hk') as (m & Hr & Hm). destruct (decide (k = r')) as [->|Hne].
    + exists (f m). rewrite list_lookup_alter_eq, Hr. by rewrite Hid.
    + exists m. by rewrite list_lookup_alter_ne.
  - destruct (Hids mid r Hk) as (m & Hr & _). unfold est_terminale in *. rewrite Hr in Ha. cbn.
    destruct (decide (k = r)) as [->|Hne]; [rewrite list_lookup_alter_eq, Hr; cbn; by apply Hf|by rewrite list_lookup_alter_ne, Hr].
Qed.

(** What is found under an id. *)
Definition found (k : string) (r' : nat) s : Prop :=
  (exists m, rg_objets s !! r' = Some m /\ mi_id m = k) /\ (k = mid -> r' = r).

Lemma keeps_lire k : keeps (lire refuse k) (fun o _ => forall m, o = Some m -> mi_id m = k).
Proof.
  apply keeps_requete. intros t [Hwf Ht]. split; [done|]. cbn. intros m. destruct (dget t k) as [l|] eqn:Hk; [|done].
  cbn. by apply Ht.
Qed.

Lemma keeps_relire k :
  k <> mid -> keeps (relire maximum refuse k) (fun o s => forall r', o = Some r' -> found k r' s).
Proof.
  intros Hne. unfold relire. eapply keeps_bind; [apply keeps_get|]. intros s0 s Hs ->.
  destruct (sans_magasin s); [by apply keeps_ret|].
  eapply keeps_bind; [by apply keeps_sauf; [apply keeps_lire|]| |done]. clear s Hs. intros o s Hs Ho.
  destruct o as [m|]; [|by apply keeps_ret]. specialize (Ho m eq_refl).
  eapply keeps_bind; [apply keeps_nouveau| |done]. clear s Hs. intros r0 s Hs Hr0.
  assert (Hp : held (poser k r0 s).2) by (by apply held_poser with m).
  split; [exact Hp|]. intros o [= <-] r' [= <-]. split; [|done]. by exists m.
Qed.

Lemma keeps_getitem k : keeps (getitem k) (found k).
Proof.
  unfold MissionRegistry.getitem. eapply keeps_bind; [apply keeps_get|]. intros s0 s Hs ->.
  destruct (dget (rg_missions s) k) as [r'|] eqn:Hk.
  - split; [done|]. intros r2 [= <-]. split; [by apply Hs|]. intros ->. pose proof (hd_kept _ Hs) as Hkept. congruence.
  - assert (k <> mid) by (intros ->; pose proof (hd_kept _ Hs); congruence).
    eapply keeps_bind; [by apply keeps_relire| |done]. clear s Hs Hk. intros [r'|] s Hs Hfound; [|by apply keeps_raise].
    split; [done|]. intros r2 [= <-]. by apply Hfound.
Qed.

Lemma keeps_catch_getitem k handles h :
  (forall e, keeps (h e) (fun o s => forall r', o = Some r' -> found k r' s)) ->
  keeps (catch (r' <- getitem k ;; ret (Some r')) handles h) (fun o s => forall r', o = Some r' -> found k r' s).
Proof.
  intros Hh s Hs. destruct (keeps_getitem k s Hs) as [Hs' HQ]. unfold keeps_at, catch, bind.
  destruct (getitem k s) as [[r'|e] s']; cbn in *.
  - split; [done|]. intros o [= <-] r2 [= <-]. by apply HQ.
  - destruct (handles (exn_cls e)); [by apply Hh|done].
Qed.

Lemma keeps_delitem k : k <> mid -> keeps (delitem refuse k) any.
Proof.
  intros Hne. unfold delitem. eapply keeps_bind; [apply keeps_get|]. intros s0 s Hs ->. set (present := dmem (rg_missions s) k).
  eapply (keeps_bind _ _ any any); [| |done].
  - clear Hs. clearbody present. intros s1 Hs1. destruct present; [|by apply keeps_ret].
    split; [|done]. destruct Hs1 as [Hwf Hids Ht Hk Ha]. split; cbn; [by apply dict_wf_ddel| |done| |done].
    + intros k' r'. rewrite dget_ddel by done. case_decide; [done|apply Hids].
    + by rewrite dget_ddel, decide_False by done.
  - intros [] s1 Hs1 _. destruct (sans_magasin s); [destruct present; [by apply keeps_ret|by apply keeps_raise]|].
    eapply (keeps_bind _ _ any any); [| |done].
    + destruct present; [by apply keeps_ret|]. eapply keeps_bind; [apply keeps_lire|]. intros. by apply keeps_ret.
    + intros absent s2 Hs2 _. destruct absent; [by apply keeps_raise|]. eapply keeps_any; [|done].
      apply (keeps_requete _ (fun _ => True)). intros t Ht. split; [by apply table_ok_ddel|done].
Qed.

Lemma keeps_completer m : keeps (completer m) any.
Proof.
  unfold completer. eapply keeps_bind; [apply keeps_get|]. intros s0 s Hs ->.
  destruct (dmem (rg_missions s) (mi_id m)) eqn:Hm; [by apply keeps_ret|]. apply dmem_false in Hm.
  split; [|done]. cbn. destruct Hs as [Hwf Hids Ht Hk Ha]. split; cbn; [by apply dict_wf_dset| |done| |].
  - intros k r'. rewrite dget_dset. case_decide as Hd; [intros [= <-]; exists m; split; [by apply list_lookup_middle|done]|].
    intros Hk'. destruct (Hids k r' Hk') as (m' & Hr & Hid). exists m'. split; [by apply lookup_app_l_Some|done].
  - rewrite dget_dset_ne; [done|]. intros Heq. apply Hm. rewrite Heq. apply dget_is_Some. by exists r.
  - destruct (Hids mid r Hk) as (m' & Hr & _). unfold est_terminale in *. rewrite Hr in Ha. cbn. by rewrite (lookup_app_l_Some _ _ _ _ Hr).
Qed.

Lemma keeps_for_each {B : Type} (l : list B) body : (forall b, keeps (body b) any) -> keeps (for_each l body) any.
Proof.
  intros Hb. induction l as [|b l IH]; [by apply keeps_ret|]. cbn. eapply keeps_bind; [apply Hb|]. intros [] s Hs _. by apply IH.
Qed.

Lemma keeps_hydrater : keeps hydrater any.
Proof.
  unfold MissionRegistry.hydrater. eapply keeps_bind; [apply keeps_get|]. intros s0 s Hs ->. destruct (rg_hydrate s); [by apply keeps_ret|].
  eapply (keeps_bind _ _ any any); [| |done].
  - clear s Hs. intros s Hs. split; [|done]. by apply (held_more s); [..|apply Hs].
  - clear Hs. intros [] s1 Hs1 _. destruct (sans_magasin s); [by apply keeps_ret|].
    eapply (keeps_bind _ _ any any); [| |done].
    + apply keeps_sauf; [|done]. eapply keeps_bind; [eapply keeps_any; apply (keeps_requete _ (fun _ => True)); by intros t Ht|].
      intros. by apply keeps_ret.
    + intros [recentes|] s2 Hs2 _; [|by apply keeps_ret]. eapply keeps_bind; [apply keeps_for_each; intros; apply keeps_completer| |done].
      intros [] s3 Hs3 _. split; [by apply held_evincer|done].
Qed.

(** An operation, or a mutation by who holds an object. *)
Inductive step :=
  | SApi (op : api)
  | STouch (k : nat) (f : Mission -> Mission).

Definition run_step (st : step) s : Registre D :=
  match st with
  | SApi op => (run_api op s).2
  | STouch k f => (muter k f s).2
  end.

(** It neither ends the mission, nor deletes it, nor makes another with its id,
    nor empties the memory. *)
Definition spares (st : step) : Prop :=
  match st with
  | SApi (ACreer m) => mi_id m <> mid
  | SApi (AModifier k f) =>
      (forall m, mi_id (f m) = mi_id m) /\
      (k = mid -> forall m, terminal (mi_status m) = false -> terminal (mi_status (f m)) = false)
  | SApi (ASupprimer k) | SApi (ARetirer k) => k <> mid
  | SApi AVider | SApi ARedemarrer => False
  | SApi _ => True
  | STouch k f =>
      (forall m, mi_id (f m) = mi_id m) /\
      (k = r -> forall m, terminal (mi_status m) = false -> terminal (mi_status (f m)) = false)
  end.

Lemma keeps_state {B : Type} (x : M (Registre D) B) (f : B -> M (Registre D) reponse) Q s :
  keeps x Q -> held s -> (forall b s', (f b s').2 = s') -> held (bind x f s).2.
Proof.
  intros Hx Hs Hf. destruct (Hx s Hs) as [Hs' _]. unfold bind. destruct (x s) as [[b|e] s']; [|done]. by rewrite Hf.
Qed.

Lemma objet_state k s : (objet k s).2 = s.
Proof. unfold objet. by destruct (_ !! _). Qed.

Lemma m_map_objet_state l s : (m_map objet l s).2 = s.
Proof.
  induction l as [|k l IH]; [done|]. cbn [m_map]. unfold bind at 1. pose proof (objet_state k s) as Hk.
  destruct (objet k s) as [[m|e] s']; cbn in *; subst s'; [|done]. unfold bind. by destruct (m_map objet l s) as [[ms|e] s'].
Qed.

Lemma held_api op s : held s -> spares (SApi op) -> held (run_api op s).2.
Proof.
  intros Hs Hop. destruct op as [m|k f|k|k|k|k| | | |]; cbn [run_api spares] in *; try done.
  - destruct (keeps_nouveau m s Hs) as [Hs1 Hr]. specialize (Hr _ eq_refl). set (s1 := (nouveau m s).2) in *.
    rewrite (bind_ok (nouveau m) _ s s1 (length (rg_objets s))) by done. pose proof (held_setitem _ m s1 Hs1 Hr Hop) as Hs2.
    unfold bind. by destruct (setitem _ _ s1) as [[[]|e] s2].
  - destruct Hop as [Hid Hact]. destruct (keeps_getitem k s Hs) as [Hs1 Hr]. unfold bind at 1.
    destruct (getitem k s) as [[r'|e] s1]; cbn [fst snd] in *; [|done]. destruct (Hr r' eq_refl) as [(m & Hm & Hk) Hsame].
    assert (Hs2 : held (muter r' f s1).2).
    { apply held_muter; [done|done|]. intros ->. apply Hact. destruct (hd_ids _ Hs1 mid r (hd_kept _ Hs1)) as (m' & Hm' & <-). congruence. }
    set (s2 := (muter r' f s1).2) in *. rewrite (bind_ok (muter r' f) _ s1 s2 tt) by done.
    assert (Hs3 : held (persister r' s2).2).
    { apply held_persister with (f m); [done| |].
      - cbn. by rewrite list_lookup_alter_eq, Hm.
      - intros Heq. apply Hsame. by rewrite <- Hk, <- (Hid m). }
    unfold bind. by destruct (persister r' s2) as [[[]|e] s3].
  - eapply (keeps_state _ _ _ s); [apply keeps_catch_getitem; intros; by apply keeps_ret|done|].
    intros [r'|] s'; [|done]. unfold bind. pose proof (objet_state r' s') as Ho. by destruct (objet r' s') as [[m|e] s''].
  - eapply (keeps_state _ _ any s); [|done|done]. unfold contains_key. eapply keeps_bind; [apply keeps_get|].
    intros s0 s' Hs' ->. destruct (dmem _ _) eqn:Hk; [by apply keeps_ret|]. eapply keeps_bind; [apply keeps_relire| |done].
    + intros ->. apply dmem_false in Hk. apply Hk, dget_is_Some. exists r. apply Hs'.
    + intros. by apply keeps_ret.
  - eapply (keeps_state _ _ any s); [by apply keeps_delitem|done|done].
  - eapply (keeps_state _ _ any s); [|done|].
    + unfold pop. eapply keeps_bind; [apply keeps_catch_getitem; intros; by apply keeps_raise|]. intros [r'|] s' Hs' _; [|by apply keeps_ret].
      eapply keeps_bind; [by apply keeps_delitem| |done]. intros. by apply keeps_ret.
    + intros [r'|] s'; [|done]. unfold bind. pose proof (objet_state r' s') as Ho. by destruct (objet r' s') as [[m|e] s''].
  - eapply (keeps_state _ _ any s); [|done|].
    + unfold values. eapply keeps_bind; [apply keeps_hydrater|]. intros [] s' Hs' _. by eapply keeps_bind; [apply keeps_get|intros; apply keeps_ret|].
    + intros l s'. unfold bind. pose proof (m_map_objet_state l s') as Ho. by destruct (m_map objet l s') as [[m|e] s''].
  - eapply (keeps_state _ _ any s); [|done|done]. unfold total_. eapply keeps_bind; [apply keeps_get|]. intros s0 s' Hs' ->.
    destruct (sans_magasin s'); [by apply keeps_ret|]. eapply (keeps_bind _ _ any any); [| |done].
    + apply keeps_sauf; [|done]. eapply keeps_bind; [eapply keeps_any; apply (keeps_requete _ (fun _ => True)); by intros t Ht|].
      intros. by apply keeps_ret.
    + intros [n|] s1 Hs1 _; [by apply keeps_ret|]. by eapply keeps_bind; [apply keeps_get|intros; apply keeps_ret|].
Qed.

(** C33: identity.  As long as a mission is active, and is not deleted, made again or
    lost with the memory, the cache keeps the very object that its walker
    holds: through any operations on any missions and any mutations of any
    objects, and even when the database refuses. *)
Theorem active_object_kept steps s :
  held s -> Forall spares steps -> dget (rg_missions (fold_left (fun s st => run_step st s) steps s)) mid = Some r.
Proof.
  intros Hs Hst. apply hd_kept. revert s Hs. induction Hst as [|st steps Hsp _ IH]; intros s Hs; [done|]. cbn. apply IH.
  destruct st as [op|k f]; [by apply held_api|]. destruct Hsp as [Hid Hf]. by apply held_muter.
Qed.
End held.

(** A refused write.  When the database refuses the write of a mutation,
    [persister] raises and the table is as before; the cache, whose object the
    caller mutated, shows the mutation all the same. *)
Theorem refused_write_shown mid r m f e s t :
  dget (rg_missions s) mid = Some r -> rg_objets s !! r = Some m -> rg_table s = Some t -> refuse (rg_appels s) = Some e ->
  exists s', (muter r f ;;; persister r) s = (Err e, s') /\ rg_table s' = Some t /\
    getitem mid s' = (Ok r, s') /\ rg_objets s' !! r = Some (f m).
Proof.
  intros Hk Hr Ht He.
  exists (mkRegistre (alter f r (rg_objets s)) (rg_missions s) (rg_hydrate s) (Some t) (S (rg_appels s))).
  assert (Hr' : alter f r (rg_objets s) !! r = Some (f m)) by (rewrite list_lookup_alter_eq; by rewrite Hr).
  set (s1 := (muter r f s).2). rewrite (bind_ok (muter r f) _ s s1 tt) by done. split; [|split; [done|split; [|done]]].
  - unfold MissionRegistry.persister. rewrite (bind_ok get _ s1 s1 s1) by done. rewrite (stored s1 t) by done.
    eapply bind_err. unfold enregistrer. rewrite (bind_ok _ _ s1 s1 (f m)) by (unfold objet; cbn; by rewrite Hr').
    unfold requete. cbn. by rewrite Ht, He.
  - unfold MissionRegistry.getitem. rewrite (bind_ok get _ _ _ _ eq_refl). cbn [rg_missions]. by rewrite Hk.
Qed.
End runs.

(** ** Examples *)

(** A mission of this id, created at this date, with this status. *)
Definition demo_m (mid : string) (created : Z) (st : MissionStatus.t) : Mission :=
  mkMission mid "" "" "" MissionType.CUSTOM MissionPriority.NORMAL st empty_context [] [] [] BUDGET_MISSION_PAR_DEFAUT_S created None None None.

#[local] Instance demo_documents : Document pyval :=
  json_document demo_isoformat demo_fromisoformat (fun _ => "") (fun _ => 0) demo_iso.

Definition demo_quiet_db (_ : nat) : option exn := None.
(** The database refuses this query. *)
Definition demo_refuses (n i : nat) : option exn :=
  if decide (i = n) then Some (Exn ForeignError [Msg "database is locked" []]) else None.

#[local] Abbreviation demo_runs max refuse ops := (run_apis max demo_isoformat refuse ops (nouveau_registre (D := pyval) (Some []))).

Definition show (r : res reponse) : list string :=
  match r with
  | Ok (RMission (Some m)) => [mi_id m; Enumeration.value (Enumeration.OfStatus (mi_status m))]
  | Ok (RMissions l) => map mi_id l
  | Ok (RNat n) => [pretty n]
  | Ok _ => []
  | Err _ => ["raised"]
  end.

(** Four missions in a cache of two; a restart.  The first list is made when the
    cache already holds "d": the older "c" is put after it. *)
Definition demo_history : list api :=
  [ACreer (demo_m "a" 1 MissionStatus.COMPLETED); ACreer (demo_m "b" 2 MissionStatus.RUNNING);
   ACreer (demo_m "c" 3 MissionStatus.FAILED); ACreer (demo_m "d" 4 MissionStatus.READY);
   AModifier "b" (with_status MissionStatus.COMPLETED); AObtenir "a"; AValeurs; ATotal; ARedemarrer; AValeurs; AObtenir "b"].

Example demo_registry :
  map show (demo_runs 2 demo_quiet_db demo_history).1
  = [[]; []; []; []; []; ["a"; "completed"]; ["d"; "c"]; ["4"]; []; ["c"; "d"]; ["b"; "completed"]].
Proof. vm_compute. reflexivity. Qed.

(** When the others are active, each reading of a finished mission makes another
    object. *)
Example demo_two_objects :
  let s := (demo_runs 1 demo_quiet_db [ACreer (demo_m "a" 1 MissionStatus.COMPLETED); ACreer (demo_m "b" 2 MissionStatus.RUNNING)]).2 in
  let o := getitem 1 demo_quiet_db "a" s in
  (o.1, (getitem 1 demo_quiet_db "a" o.2).1) = (Ok 2%nat, Ok 3%nat).
Proof. vm_compute. reflexivity. Qed.

(** The end of "a" is refused by the database: the memory shows it, and a
    restart brings back the mission as it was. *)
Example demo_refused_end :
  map show (demo_runs 2 (demo_refuses 1)
    [ACreer (demo_m "a" 1 MissionStatus.RUNNING); AModifier "a" (with_status MissionStatus.COMPLETED); AObtenir "a";
     ARedemarrer; AObtenir "a"]).1
  = [[]; ["raised"]; ["a"; "completed"]; []; ["a"; "running"]].
Proof. vm_compute. reflexivity. Qed.

(** One query refused after a restart, and the list stays empty. *)
Example demo_never_filled :
  map show (demo_runs 2 (demo_refuses 1) [ACreer (demo_m "a" 1 MissionStatus.RUNNING); ARedemarrer; AValeurs; AValeurs; ATotal]).1
  = [[]; []; []; []; ["1"]].
Proof. vm_compute. reflexivity. Qed.

(** Of two missions of one date, the first made comes back as the last when it
    was written again. *)
Example demo_rewritten :
  map show (demo_runs 2 demo_quiet_db
    [ACreer (demo_m "a" 1 MissionStatus.RUNNING); ACreer (demo_m "b" 1 MissionStatus.RUNNING);
     AModifier "a" (with_status MissionStatus.PAUSED); ARedemarrer; AValeurs]).1
  = [[]; []; []; []; ["b"; "a"]].
Proof. vm_compute. reflexivity. Qed.

(** ** Witnesses *)

Lemma demo_represents : represents (D := pyval) [] ∅.
Proof. split; [constructor|]. split; [intros k; by rewrite lookup_empty|intros k m; by rewrite lookup_empty]. Qed.

Lemma demo_keeps_id : Forall keeps_id demo_history.
Proof. repeat (apply Forall_cons; split; [done|]). apply Forall_nil. exact I. Qed.

Lemma registry_refines_witness :
  let o := demo_runs 2 demo_quiet_db demo_history in
  spec_accepts demo_history ∅ o.1 /\
  exists t', rg_table o.2 = Some t' /\ represents t' (fold_left (fun A op => spec_state op A) demo_history ∅).
Proof. exact (registry_refines 2 demo_isoformat demo_quiet_db (fun _ => eq_refl) demo_history [] ∅ demo_represents demo_keeps_id). Defined.

Lemma cache_bounded_witness :
  let s := (demo_runs 2 demo_quiet_db demo_history).2 in
  (length (rg_missions s) <= 2)%nat \/ forall mid r, dget (rg_missions s) mid = Some r -> est_terminale s r = false.
Proof. exact (cache_bounded 2 demo_isoformat demo_quiet_db (fun _ => eq_refl) demo_history [] ∅ demo_represents demo_keeps_id). Defined.

Lemma values_after_restart_witness :
  (run_api 2 demo_isoformat demo_quiet_db AValeurs (mkRegistre [] [] false (Some []) 7)).1
  = Ok (RMissions (rev (take 2 (lues (D := pyval) [])))).
Proof. exact (values_after_restart 2 demo_isoformat demo_quiet_db (fun _ => eq_refl) [] ∅ 7 demo_represents). Defined.

Definition demo_b : Mission := demo_m "b" 2 MissionStatus.RUNNING.
Definition demo_row (m : Mission) : Ligne pyval := ligne demo_isoformat m.
Definition demo_walked : Registre pyval := mkRegistre [demo_b] [("b", 0%nat)] true (Some [("b", demo_row demo_b)]) 3.

Lemma demo_held : held "b" 0 demo_walked.
Proof.
  split.
  - by apply (bool_decide_unpack _).
  - intros k r' [[= <- <-]|[]]%dget_Some_elem%list_elem_of_In. by exists demo_b.
  - intros t [= <-]. split; [by apply (bool_decide_unpack _)|]. intros k l m [[= <- <-]|[]]%dget_Some_elem%list_elem_of_In.
    cbn [li_document demo_row ligne]. rewrite doc_read_write. by intros [= <-].
  - done.
  - done.
Qed.

(** Others are made and end, a list is read, the mission itself is paused, and
    the database refuses a write. *)
Definition demo_steps : list step :=
  [SApi (ACreer (demo_m "a" 1 MissionStatus.COMPLETED)); SApi AValeurs; STouch 0 (with_status MissionStatus.PAUSED);
   SApi (AModifier "b" (with_status MissionStatus.RUNNING)); SApi (ASupprimer "a")].

Lemma demo_spared : Forall (spares "b" 0) demo_steps.
Proof. repeat (apply Forall_cons; split; [done|]). by apply Forall_nil. Qed.

Lemma active_object_kept_witness :
  dget (rg_missions (fold_left (fun s st => run_step 1 demo_isoformat (demo_refuses 3) st s) demo_steps demo_walked)) "b" = Some 0%nat.
Proof. exact (active_object_kept 1 demo_isoformat (demo_refuses 3) "b" 0 demo_steps demo_walked demo_held demo_spared). Defined.

Lemma refused_write_shown_witness :
  exists s', (muter 0 (with_status MissionStatus.COMPLETED) ;;; persister 1 demo_isoformat (demo_refuses 3) 0) demo_walked
      = (Err (Exn ForeignError [Msg "database is locked" []]), s') /\
    rg_table s' = Some [("b", demo_row demo_b)] /\
    getitem 1 (demo_refuses 3) "b" s' = (Ok 0%nat, s') /\ rg_objets s' !! 0%nat = Some (with_status MissionStatus.COMPLETED demo_b).
Proof.
  exact (refused_write_shown 1 demo_isoformat (demo_refuses 3) "b" 0 demo_b (with_status MissionStatus.COMPLETED)
    (Exn ForeignError [Msg "database is locked" []]) demo_walked [("b", demo_row demo_b)] eq_refl eq_refl eq_refl eq_refl).
Defined.
