(* ===== verification/RunLedger.v ===== *)
(** * The ledger of runs ([backend/runs/registre.py] and [reconciliation.py])

    A run is a row of the table [runs], known by the names of its columns, as
    the keyword arguments of the operations know them.  Closed runs are frozen
    by the queries themselves; the runs of processes that have died are found at
    start-up. *)
From stdpp Require Import base gmap strings list sets sorting pretty.
From Stdlib Require Import ZArith QArith Qabs Ascii Lia.
From S2P Require Import Prelude.
From S2P Require Import RetryPolicy.
#[local] Open Scope Z_scope.

(** ** Data *)

Module Statut.
Inductive t := EN_ATTENTE | EN_COURS | REUSSI | ECHOUE | ABANDONNE | PERDU.
#[global] Instance eq_dec : EqDecision t.
Proof. solve_decision. Defined.
Definition value (x : t) : string :=
  match x with
  | EN_ATTENTE => "en_attente"
  | EN_COURS => "en_cours"
  | REUSSI => "reussi"
  | ECHOUE => "echoue"
  | ABANDONNE => "abandonne"
  | PERDU => "perdu"
  end.
Definition all : list t := [EN_ATTENTE; EN_COURS; REUSSI; ECHOUE; ABANDONNE; PERDU].
(** [Statut(v)] *)
Definition of_value (v : string) : option t := List.find (fun x => bool_decide (value x = v)) all.
End Statut.

Module Cause.
Inductive t :=
  | MODELE | FOURNISSEUR | QUOTA | RESSOURCE | CONTEXTE | OUTIL | SEMANTIQUE | VERIFICATION | POLITIQUE | SECURITE
  | PROCESSUS | BUDGET | INCONNUE.
#[global] Instance eq_dec : EqDecision t.
Proof. solve_decision. Defined.
Definition value (x : t) : string :=
  match x with
  | MODELE => "modele"
  | FOURNISSEUR => "fournisseur"
  | QUOTA => "quota"
  | RESSOURCE => "ressource"
  | CONTEXTE => "contexte"
  | OUTIL => "outil"
  | SEMANTIQUE => "semantique"
  | VERIFICATION => "verification"
  | POLITIQUE => "politique"
  | SECURITE => "securite"
  | PROCESSUS => "processus"
  | BUDGET => "budget"
  | INCONNUE => "inconnue"
  end.
Definition all : list t :=
  [MODELE; FOURNISSEUR; QUOTA; RESSOURCE; CONTEXTE; OUTIL; SEMANTIQUE; VERIFICATION; POLITIQUE; SECURITE; PROCESSUS; BUDGET;
   INCONNUE].
Definition of_value (v : string) : option t := List.find (fun x => bool_decide (value x = v)) all.
End Cause.

Definition TERMINAUX : list Statut.t := [Statut.REUSSI; Statut.ECHOUE; Statut.ABANDONNE; Statut.PERDU].

(** A run is the values of its fields, a row those of its columns. *)
Definition Run : Type := pydict pyval.
Definition Ligne : Type := pydict pyval.

(** The fields of [Run] with their defaults; the first and [cree_le] are drawn. *)
Definition run_fields : list (string * option pyval) :=
  [("identifiant", None); ("mission", Some (PStr "")); ("parent", Some PNone); ("tentative", Some (PInt 1));
   ("objectif", Some (PStr "")); ("agent", Some (PStr "")); ("modele", Some (PStr "")); ("runtime", Some (PStr ""));
   ("fournisseur", Some (PStr "")); ("workspace", Some (PStr "")); ("utilisateur", Some (PStr "local"));
   ("projet", Some (PStr "")); ("statut", Some (PStr (Statut.value Statut.EN_ATTENTE))); ("cause", Some PNone);
   ("raison", Some (PStr "")); ("motif_de_reprise", Some (PStr "")); ("jetons_entree", Some (PInt 0));
   ("jetons_sortie", Some (PInt 0)); ("cout", Some (PFloat 0)); ("vram_reservee_octets", Some PNone);
   ("vram_machine_debut_octets", Some PNone); ("vram_machine_pic_octets", Some PNone); ("exclusif", Some PNone);
   ("contrat", Some (PStr "")); ("decision", Some (PStr "")); ("cree_le", None); ("demarre_le", Some PNone);
   ("fini_le", Some PNone)].

(** The table in the order of the insertions, the queries made, and the ids and
    dates drawn. *)
Record Base := mkBase {
  ba_runs : pydict Ligne;
  ba_appels : nat;
  ba_uuids : nat;
  ba_dates : nat
}.

Definition empty_base : Base := mkBase [] 0 0 0.

Definition col (l : Ligne) (nom : string) : pyval := default PNone (dget l nom).

(** A text column. *)
Definition texte_de (v : pyval) : string := match v with PStr s => s | _ => "" end.

(** [statut IN (...)] *)
Definition est_terminal (l : Ligne) : bool := bool_decide (texte_de (col l "statut") ∈ map Statut.value TERMINAUX).

(** [SET nom = CASE WHEN statut IN (...) THEN nom ELSE ? END, ...]: the values
    of the columns are those before the update. *)
Definition figer (extra : list (string * pyval)) (l : Ligne) : Ligne :=
  if est_terminal l then l else fold_left (fun l p => dset l p.1 p.2) extra l.

(** [UPDATE ... WHERE identifiant = ?] *)
Definition mettre_a_jour (id : string) (f : Ligne -> Ligne) (t : pydict Ligne) : pydict Ligne :=
  map (fun p => if decide (p.1 = id) then (p.1, f p.2) else p) t.

(** The columns that [constater] and [mesurer] write. *)
Definition FAITS : list string := ["runtime"; "modele"; "fournisseur"; "agent"; "decision"].
Definition MESURES : list string :=
  ["vram_reservee_octets"; "vram_machine_debut_octets"; "vram_machine_pic_octets"; "exclusif"].

(** What a retry does not inherit. *)
Definition JETABLES : list string :=
  ["identifiant"; "statut"; "cause"; "raison"; "cree_le"; "demarre_le"; "fini_le"; "jetons_entree"; "jetons_sortie"; "cout";
   "decision"; "modele"; "fournisseur"; "vram_reservee_octets"; "vram_machine_debut_octets"; "vram_machine_pic_octets";
   "exclusif"].

Record Bilan := mkBilan { bi_perdus : list string; bi_vivants : list string; bi_indecidables : list string }.

Definition examines (b : Bilan) : nat := length (bi_perdus b) + length (bi_vivants b) + length (bi_indecidables b).

(** What psutil answers of a pid. *)
Inductive processus_vu :=
  | Absent
  | Ne (naissance : Q)
  | Disparu
  | Inaccessible.

Definition TOLERANCE_S : Q := 1.

Section ledger.
(** Ids, dates, what the [i]-th query raises, the mark of the process that
    writes, the numbers that texts are, and what psutil answers. *)
Variable uuid_hex : nat -> string.
Variable maintenant : nat -> string.
Variable refuse : nat -> option exn.
Variable empreinte_du_processus : string.
Variable int_of : string -> option Z.
Variable float_of : string -> option Q.
Variable psutil : Z -> processus_vu.

Definition date : M Base string := fun s =>
  (Ok (maintenant (ba_dates s)), mkBase (ba_runs s) (ba_appels s) (ba_uuids s) (S (ba_dates s))).

Definition uuid : M Base string := fun s =>
  (Ok (uuid_hex (ba_uuids s)), mkBase (ba_runs s) (ba_appels s) (S (ba_uuids s)) (ba_dates s)).

(** A query: it raises, and changes nothing, or answers. *)
Definition requete {A} (q : pydict Ligne -> res A * pydict Ligne) : M Base A := fun s =>
  let s' t := mkBase t (S (ba_appels s)) (ba_uuids s) (ba_dates s) in
  match refuse (ba_appels s) with
  | Some e => (Err e, s' (ba_runs s))
  | None => let '(r, t) := q (ba_runs s) in (r, s' t)
  end.

Definition integrity_error (m : string) : exn := Exn ForeignError [Msg m []].

(** [INSERT], with the primary key and the foreign key of the parent. *)
Definition inserer (id : string) (l : Ligne) (t : pydict Ligne) : res unit * pydict Ligne :=
  if dmem t id then (Err (integrity_error "UNIQUE constraint failed: runs.identifiant"), t)
  else
    match col l "parent" with
    | PStr p => if dmem t p || bool_decide (p = id) then (Ok tt, t ++ [(id, l)])
                else (Err (integrity_error "FOREIGN KEY constraint failed"), t)
    | _ => (Ok tt, t ++ [(id, l)])
    end.

(** The instance of [Run] made of keyword arguments. *)
Fixpoint remplir (fields : list (string * option pyval)) (champs : pydict pyval) : M Base Run :=
  match fields with
  | [] => ret []
  | (nom, dflt) :: fields' =>
      v <- match dget champs nom, dflt with
           | Some v, _ => ret v
           | None, Some v => ret v
           | None, None => x <- (if decide (nom = "identifiant") then uuid else date) ;; ret (PStr x)
           end ;;
      l <- remplir fields' champs ;; ret ((nom, v) :: l)
  end.

Definition nouveau_run (champs : pydict pyval) : M Base Run :=
  match List.find (fun p => negb (dmem run_fields p.1)) champs with
  | Some p => raise (Exn TypeError [Msg "Run.__init__() got an unexpected keyword argument '{}'" [p.1]])
  | None => remplir run_fields champs
  end.

(** [ouvrir] *)
Definition ouvrir (champs : pydict pyval) : M Base Run :=
  run <- nouveau_run champs ;;
  requete (inserer (texte_de (col run "identifiant")) (run ++ [("processus", PStr empreinte_du_processus)])) ;;;
  ret run.

(** [_changer_sans_statut] and [_changer] *)
Definition changer_sans_statut (id : string) (extra : list (string * pyval)) : M Base unit :=
  requete (fun t => (Ok tt, mettre_a_jour id (figer extra) t)).

Definition changer (id : string) (st : Statut.t) (extra : list (string * pyval)) : M Base unit :=
  requete (fun t => (Ok tt, mettre_a_jour id (figer (("statut", PStr (Statut.value st)) :: extra)) t)).

(** [demarrer] *)
Definition demarrer (id : string) : M Base unit :=
  d <- date ;; changer id Statut.EN_COURS [("demarre_le", PStr d)].

(** [terminer] *)
Definition optionnel {A} (nom : string) (f : A -> pyval) (o : option A) : list (string * pyval) :=
  match o with Some x => [(nom, f x)] | None => [] end.

Definition terminer (id : string) (st : Statut.t) (cause : option Cause.t) (raison : string) (cout : option Q)
    (jetons_entree jetons_sortie : option Z) : M Base unit :=
  d <- date ;;
  changer id st
    ([("fini_le", PStr d)] ++ optionnel "cause" (fun c => PStr (Cause.value c)) cause
     ++ (if decide (raison = "") then [] else [("raison", PStr raison)]) ++ optionnel "cout" PFloat cout
     ++ optionnel "jetons_entree" PInt jetons_entree ++ optionnel "jetons_sortie" PInt jetons_sortie).

(** [constater] *)
Definition inconnus (l : pydict pyval) (connus : list string) : list string :=
  List.filter (fun n => bool_decide (n ∉ connus)) (dkeys l).

Definition constater (id : string) (faits : pydict pyval) : M Base unit :=
  match inconnus faits FAITS with
  | _ :: _ as l => raise (Exn ValueError [Msg "`constater` n'écrit que des faits d'exécution ; {} n'en sont pas" l])
  | [] =>
      match List.filter (fun p => truthy p.2) faits with
      | [] => ret tt
      | f => changer_sans_statut id f
      end
  end.

(** [mesurer] *)
Definition non_none (p : string * pyval) : bool := match p.2 with PNone => false | _ => true end.

Definition en_sql (p : string * pyval) : string * pyval :=
  if decide (p.1 = "exclusif") then (p.1, PInt (if truthy p.2 then 1 else 0)) else p.

Definition mesurer (id : string) (mesures : pydict pyval) : M Base unit :=
  match inconnus mesures MESURES with
  | _ :: _ as l => raise (Exn ValueError [Msg "`mesurer` n'écrit que des mesures physiques ; {} n'en sont pas" l])
  | [] =>
      match List.filter non_none mesures with
      | [] => ret tt
      | a_ecrire => changer_sans_statut id (map en_sql a_ecrire)
      end
  end.

(** ** Reading *)

(** [d.get("statut") or "en_attente"] *)
Definition statut_lu (l : Ligne) : string :=
  match col l "statut" with
  | PStr "" | PNone => Statut.value Statut.EN_ATTENTE
  | v => texte_de v
  end.

(** [_depuis] *)
Definition depuis (l : Ligne) : res Run :=
  let statut := statut_lu l in
  match Statut.of_value statut with
  | None => Err (Exn ValueError [Msg "{!r} is not a valid Statut" [statut]])
  | Some _ =>
      match (if truthy (col l "cause") then Cause.of_value (texte_de (col l "cause")) else Some Cause.INCONNUE) with
      | None => Err (Exn ValueError [Msg "{!r} is not a valid Cause" [texte_de (col l "cause")]])
      | Some _ =>
          let l := dset (ddel l "processus") "statut" (PStr statut) in
          let l := if truthy (col l "cause") then l else dset l "cause" PNone in
          Ok (dset l "exclusif" (match col l "exclusif" with PNone => PNone | v => PBool (truthy v) end))
      end
  end.

(** [lire] *)
Definition lire (id : string) : M Base (option Run) :=
  l <- requete (fun t => (Ok (dget t id), t)) ;;
  match l with
  | None => ret None
  | Some l => r <- lift (depuis l) ;; ret (Some r)
  end.

(** The rows that a condition selects. *)
Definition choisir (P : Ligne -> bool) : M Base (list Run) :=
  ls <- requete (fun t => (Ok (List.filter P (dvalues t)), t)) ;;
  lift (res_map depuis ls).

(** [de_la_mission], in the order of [cree_le] *)
Definition plus_ancienne (x y : Ligne) : Prop := String.le (texte_de (col x "cree_le")) (texte_de (col y "cree_le")).
#[export] Instance plus_ancienne_dec : RelDecision plus_ancienne.
Proof. intros x y. unfold plus_ancienne. apply _. Defined.

Definition de_la_mission (mission : string) : M Base (list Run) :=
  ls <- requete (fun t => (Ok (sort_by plus_ancienne
                                 (List.filter (fun l => bool_decide (texte_de (col l "mission") = mission)) (dvalues t))), t)) ;;
  lift (res_map depuis ls).

(** [en_cours] and [non_termines] *)
Definition en_cours : M Base (list Run) :=
  choisir (fun l => bool_decide (texte_de (col l "statut") = Statut.value Statut.EN_COURS)).
Definition non_termines : M Base (list Run) := choisir (fun l => negb (est_terminal l)).

(** [processus_de] *)
Definition processus_de (id : string) : M Base (option string) :=
  requete (fun t =>
    (Ok (match dget t id with
         | Some l => match col l "processus" with PStr "" => None | PStr p => Some p | _ => None end
         | None => None
         end), t)).

(** [lignee]: the loop, from a run on. *)
Fixpoint remonter (fuel : nat) (courant : option Run) (vus : gset string) (chaine : list Run) : M Base (list Run) :=
  match courant with
  | None => ret (rev chaine)
  | Some run =>
      let id := texte_de (col run "identifiant") in
      if decide (id ∈ vus) then ret (rev chaine)
      else
        match fuel with
        | O => raise (Exn OutOfFuel [])
        | S fuel' =>
            suivant <- match col run "parent" with
                       | PStr "" => ret None
                       | PStr p => lire p
                       | _ => ret None
                       end ;;
            remonter fuel' suivant ({[id]} ∪ vus) (chaine ++ [run])
        end
  end.

(** The chain is no longer than the table. *)
Definition lignee (id : string) : M Base (list Run) :=
  courant <- lire id ;; s <- get ;; remonter (length (ba_runs s)) courant ∅ [].

(** [champs.pop(nom, None)] and [champs.update(d)] *)
Definition dpop (l : pydict pyval) (nom : string) : pydict pyval := ddel l nom.
Definition dupdate (l d : pydict pyval) : pydict pyval := fold_left (fun l p => dset l p.1 p.2) d l.

Definition tentative_de (r : Run) : Z := match col r "tentative" with PInt n => n | _ => 0 end.

(** [reprendre] *)
Definition reprendre (id motif : string) (remplacements : pydict pyval) : M Base Run :=
  if decide (strip motif = "") then
    raise (Exn ValueError [Msg "une reprise doit dire pourquoi — sans motif, la lignée ne répond pas à « pourquoi le premier essai a échoué ? »" []])
  else
    parent <- lire id ;;
    match parent with
    | None => raise (Exn KeyError [Msg "aucun run {!r}" [id]])
    | Some parent =>
        let champs := dupdate (fold_left dpop JETABLES parent) remplacements in
        ouvrir (dset (dset (dset champs "parent" (col parent "identifiant")) "tentative" (PInt (tentative_de parent + 1)))
                  "motif_de_reprise" (PStr motif))
    end.

(** ** Reconciliation *)

(** [str.partition(":")] *)
Fixpoint partition_colon (s : string) : option (string * string) :=
  match s with
  | EmptyString => None
  | String c s' =>
      if decide (c = ":"%char) then Some (EmptyString, s')
      else match partition_colon s' with
           | Some (a, b) => Some (String c a, b)
           | None => None
           end
  end.

(** [processus_vivant]: alive, dead, or undecidable. *)
Definition processus_vivant (empreinte : string) : option bool :=
  match partition_colon empreinte with
  | None => None
  | Some (tete, queue) =>
      match int_of tete with
      | None => None
      | Some pid =>
          match psutil pid with
          | Absent | Disparu => Some false
          | Inaccessible => None
          | Ne naissance =>
              if decide (queue = "") then None
              else match float_of queue with
                   | None => None
                   | Some attendue => Some (Qle_bool (Qabs (naissance - attendue)) TOLERANCE_S)
                   end
          end
      end
  end.

Definition ajouter_perdu (id : string) (b : Bilan) : Bilan := mkBilan (bi_perdus b ++ [id]) (bi_vivants b) (bi_indecidables b).
Definition ajouter_vivant (id : string) (b : Bilan) : Bilan := mkBilan (bi_perdus b) (bi_vivants b ++ [id]) (bi_indecidables b).
Definition ajouter_indecidable (id : string) (b : Bilan) : Bilan :=
  mkBilan (bi_perdus b) (bi_vivants b) (bi_indecidables b ++ [id]).

Definition raison_perdu (empreinte : string) : string :=
  "le processus porteur " +:+ empreinte +:+ " n'existe plus ; ce qu'il avait fait avant de disparaître n'est pas connu".

(** One run of [reconcilier]. *)
Definition examiner (courante id : string) (b : Bilan) : M Base Bilan :=
  empreinte <- catch (processus_de id) (fun _ => true) (fun _ => ret None) ;;
  match empreinte with
  | None => ret (ajouter_indecidable id b)
  | Some e =>
      if decide (e = courante) then ret (ajouter_vivant id b)
      else match processus_vivant e with
           | Some true => ret (ajouter_vivant id b)
           | None => ret (ajouter_indecidable id b)
           | Some false =>
               terminer id Statut.PERDU (Some Cause.PROCESSUS) (raison_perdu e) None None None ;;;
               ret (ajouter_perdu id b)
           end
  end.

Fixpoint examiner_tous (courante : string) (ids : list string) (b : Bilan) : M Base Bilan :=
  match ids with
  | [] => ret b
  | id :: ids' => b' <- examiner courante id b ;; examiner_tous courante ids' b'
  end.

(** [reconcilier] *)
Definition reconcilier (courante : string) : M Base Bilan :=
  candidats <- catch (l <- non_termines ;; ret (Some l)) (fun _ => true) (fun _ => ret None) ;;
  match candidats with
  | None => ret (mkBilan [] [] [])
  | Some l => examiner_tous courante (map (fun r => texte_de (col r "identifiant")) l) (mkBilan [] [] [])
  end.
End ledger.
