(* ===== verification/LedgerRuns.v ===== *)
(** * What the ledger of runs promises

    Every operation, whether the database accepts or refuses it, rewrites rows
    by a few transitions of the table ([transition]).  By induction on them: a
    closed run is frozen, the columns that say where a run comes from never
    change, and the table stays well formed ([bien_forme]).  On such a table
    [lignee] ends and answers the chain of the attempts, [reprendre] links the
    new run to the one it resumes, and [reconcilier] closes the runs of dead
    processes and no others. *)
From stdpp Require Import base gmap strings list sets sorting pretty relations.
From Stdlib Require Import ZArith QArith Lia.
From S2P Require Import Prelude.
From S2P Require Import RetryPolicy.
From S2P Require Import RunLedger.
#[local] Open Scope Z_scope.

(** ** Rows *)

(** The columns that no operation rewrites. *)
Definition ORIGINE : list string :=
  ["identifiant"; "mission"; "parent"; "tentative"; "objectif"; "workspace"; "utilisateur"; "projet"; "motif_de_reprise";
   "contrat"; "cree_le"; "processus"].

Definition statut_valide (v : pyval) : Prop := exists x, v = PStr (Statut.value x).
Definition cause_valide (v : pyval) : Prop := v = PNone \/ exists x, v = PStr (Cause.value x).

(** The columns of the table. *)
Definition COLONNES : list string := dkeys run_fields ++ ["processus"].

(** A column that an update may write. *)
Definition ecrit_permis (p : string * pyval) : Prop :=
  (p.1 ∈ COLONNES /\ p.1 ∉ ORIGINE) /\ (p.1 = "statut" -> statut_valide p.2) /\ (p.1 = "cause" -> cause_valide p.2).

Definition ligne_valide (id : string) (l : Ligne) : Prop :=
  dkeys l = COLONNES /\ col l "identifiant" = PStr id /\ statut_valide (col l "statut") /\ cause_valide (col l "cause")
  /\ (col l "parent" = PNone \/ exists p, col l "parent" = PStr p).

(** One statement that the database has run. *)
Inductive transition (t : pydict Ligne) : pydict Ligne -> Prop :=
  | maj id extra : Forall ecrit_permis extra -> transition t (mettre_a_jour id (figer extra) t)
  | insertion id l :
      id ∉ dkeys t -> ligne_valide id l ->
      (forall p, col l "parent" = PStr p -> p ∈ dkeys t \/ p = id) -> transition t (t ++ [(id, l)]).

(** The rows are valid, and a parent was there before its child, unless a run
    is its own parent. *)
Definition bien_forme (t : pydict Ligne) : Prop :=
  dict_wf t
  /\ forall i id l, t !! i = Some (id, l) ->
       ligne_valide id l
       /\ forall p, col l "parent" = PStr p -> p = id \/ exists j l', (j < i)%nat /\ t !! j = Some (p, l').

(** ** Columns after an update *)

Lemma col_dset l nom v nom' : col (dset l nom v) nom' = if decide (nom = nom') then v else col l nom'.
Proof. unfold col. rewrite dget_dset. by case_decide. Qed.

Lemma col_fold extra l nom :
  nom ∉ map fst extra -> col (fold_left (fun l p => dset l p.1 p.2) extra l) nom = col l nom.
Proof.
  revert l. induction extra as [|[n v] extra IH]; intros l Hn; [done|]. cbn [fold_left map fst snd] in *. rewrite IH by set_solver.
  rewrite col_dset. rewrite decide_False by set_solver. done.
Qed.

Lemma col_fold_value (P : pyval -> Prop) extra l nom :
  Forall (fun p => p.1 = nom -> P p.2) extra -> P (col l nom) -> P (col (fold_left (fun l p => dset l p.1 p.2) extra l) nom).
Proof.
  revert l. induction extra as [|[n v] extra IH]; intros l He Hl; [done|]. apply Forall_cons_1 in He as [Hn He]. cbn [fold_left fst snd] in *.
  apply IH; [done|]. rewrite col_dset. case_decide; auto.
Qed.

Lemma figer_terminal extra l : est_terminal l = true -> figer extra l = l.
Proof. unfold figer. by intros ->. Qed.

Lemma figer_origine extra l nom : Forall ecrit_permis extra -> nom ∈ ORIGINE -> col (figer extra l) nom = col l nom.
Proof.
  intros He Hn. unfold figer. destruct (est_terminal l); [done|]. apply col_fold.
  intros ([n v] & -> & Hp)%list_elem_of_fmap. rewrite Forall_forall in He. by destruct (He _ Hp) as [[_ Hno] _].
Qed.

Lemma dkeys_figer extra l : Forall ecrit_permis extra -> dkeys l = COLONNES -> dkeys (figer extra l) = COLONNES.
Proof.
  unfold figer. destruct (est_terminal l); [done|]. revert l. induction extra as [|[n v] extra IH]; intros l He Hl; [done|].
  apply Forall_cons_1 in He as [[[Hn _] _] He]. cbn [fold_left fst snd] in *. apply IH; [done|].
  rewrite dkeys_dset_mem; [done|by rewrite Hl].
Qed.

Lemma figer_valide id extra l : Forall ecrit_permis extra -> ligne_valide id l -> ligne_valide id (figer extra l).
Proof.
  intros He (Hk & Hi & Hs & Hc & Hp). split; [by apply dkeys_figer|]. split; [rewrite figer_origine; [done|done|const_elem]|].
  rewrite (figer_origine _ _ "parent"); [|done|const_elem]. split_and!; [| |done].
  - unfold figer. destruct (est_terminal l); [done|]. apply (col_fold_value statut_valide); [|done].
    eapply Forall_impl; [done|]. by intros p (_ & H & _).
  - unfold figer. destruct (est_terminal l); [done|]. apply (col_fold_value cause_valide); [|done].
    eapply Forall_impl; [done|]. by intros p (_ & _ & H).
Qed.

Lemma dget_maj id f t k : dget (mettre_a_jour id f t) k = (if decide (k = id) then f else fun l => l) <$> dget t k.
Proof.
  induction t as [|[k' l] t IH]; [done|]. cbn. destruct (decide (k' = id)) as [->|Hk]; cbn;
    destruct (decide (_ = k)) as [<-|Hk'].
  - by rewrite decide_True.
  - exact IH.
  - by rewrite decide_False.
  - exact IH.
Qed.

Lemma dkeys_maj id f t : dkeys (mettre_a_jour id f t) = dkeys t.
Proof. unfold dkeys, mettre_a_jour. rewrite map_map. apply map_ext. intros [k l]. cbn. by case_decide. Qed.

Lemma lookup_maj id f t i :
  mettre_a_jour id f t !! i = (fun p => if decide (p.1 = id) then (p.1, f p.2) else p) <$> t !! i.
Proof. apply list_lookup_fmap. Qed.

Lemma dget_app_row (t : pydict Ligne) id l k : id ∉ dkeys t ->
  dget (t ++ [(id, l)]) k = if decide (k = id) then Some l else dget t k.
Proof.
  intros Hid. rewrite <- (dkeys_dset_new _ _ l) by done. rewrite dget_dset. repeat case_decide; congruence.
Qed.

(** ** Transitions *)

Lemma transition_bien_forme t t' : transition t t' -> bien_forme t -> bien_forme t'.
Proof.
  intros [id extra He|id l Hid Hl Hp] [Hwf Ht].
  - split; [unfold dict_wf; by rewrite dkeys_maj|]. intros i k l'. rewrite lookup_maj.
    destruct (t !! i) as [[k0 l0]|] eqn:E; cbn; [|done]. destruct (Ht i k0 l0 E) as [Hv Hpar].
    assert (Hmaj : forall j q lq, t !! j = Some (q, lq) -> exists l', mettre_a_jour id (figer extra) t !! j = Some (q, l')).
    { intros j q lq Hj. rewrite lookup_maj, Hj. cbn. case_decide; eauto. }
    intros Hk. assert (k0 = k /\ ligne_valide k l' /\ col l' "parent" = col l0 "parent") as (-> & Hv' & Hp).
    { case_decide; simplify_eq; [|done]. split_and!; [done|by apply figer_valide|]. apply figer_origine; [done|const_elem]. }
    split; [done|]. rewrite Hp. intros p Hpp. destruct (Hpar p Hpp) as [->|(j & lq & Hj & E')]; [by left|].
    destruct (Hmaj _ _ _ E') as [l1 H1]. right. by exists j, l1.
  - split.
    + unfold dict_wf. rewrite <- (dkeys_dset_new _ _ l) by done. by apply dict_wf_dset.
    + assert (Hin : forall q, q ∈ dkeys t -> exists j lq, (j < length t)%nat /\ (t ++ [(id, l)]) !! j = Some (q, lq)).
      { intros q ([k lq] & -> & Hq)%list_elem_of_fmap. apply list_elem_of_lookup in Hq as [j Hj]. exists j, lq.
        pose proof (lookup_lt_Some _ _ _ Hj). split; [done|]. by rewrite lookup_app_l. }
      intros i k l' Hi. apply lookup_app_Some in Hi as [Hi|[Hlen Hi]].
      * destruct (Ht i k l' Hi) as [Hv Hpar]. split; [done|]. intros p Hpp.
        destruct (Hpar p Hpp) as [->|(j & lq & Hj & E')]; [by left|]. right. exists j, lq. split; [done|].
        by apply lookup_app_l_Some.
      * apply list_lookup_singleton_Some in Hi as [Hz Hi]. injection Hi as <- <-. split; [done|]. intros p Hpp.
        destruct (Hp p Hpp) as [Hin'| ->]; [|by left]. right. destruct (Hin p Hin') as (j & lq & Hj & E'). exists j, lq.
        split; [lia|done].
Qed.

(** What an existing row becomes. *)
Definition suit (l l' : Ligne) : Prop :=
  (est_terminal l = true -> l' = l) /\ forall nom, nom ∈ ORIGINE -> col l' nom = col l nom.

#[export] Instance suit_preorder : PreOrder suit.
Proof.
  split; [by split|]. intros l1 l2 l3 [H12 O12] [H23 O23]. split.
  - intros Hl. rewrite <- (H12 Hl). apply H23. by rewrite (H12 Hl).
  - intros nom Hn. by rewrite O23, O12.
Qed.

Lemma transition_suit t t' id l :
  transition t t' -> dget t id = Some l -> exists l', dget t' id = Some l' /\ suit l l'.
Proof.
  intros [id' extra He|id' l0 Hid Hl Hp] Hg.
  - rewrite dget_maj, Hg. cbn. eexists; split; [done|]. case_decide; [|done]. split.
    + apply figer_terminal.
    + intros nom. by apply figer_origine.
  - rewrite dget_app_row, decide_False by (done || (intros ->; apply Hid; apply dget_is_Some; eauto)).
    exists l. by split.
Qed.

Lemma transitions_suit t t' id l :
  rtc transition t t' -> dget t id = Some l -> exists l', dget t' id = Some l' /\ suit l l'.
Proof.
  intros Hr. revert l. induction Hr as [|t1 t2 t3 H12 _ IH]; intros l Hg; [by exists l|].
  destruct (transition_suit _ _ _ _ H12 Hg) as (l2 & H2 & S2). destruct (IH _ H2) as (l3 & H3 & S3).
  exists l3. split; [done|]. by transitivity l2.
Qed.

Lemma transitions_bien_forme t t' : rtc transition t t' -> bien_forme t -> bien_forme t'.
Proof. induction 1 as [|t1 t2 t3 H12 _ IH]; [done|]. intros H. by eapply IH, transition_bien_forme. Qed.

Lemma bien_forme_nil : bien_forme [].
Proof. split; [apply NoDup_nil_2|]. intros i id l Hi. by destruct i. Qed.

(** ** Operations *)

(** Keyword arguments of the declared types. *)
Definition typee (champs : pydict pyval) : Prop :=
  dict_wf champs
  /\ (forall v, dget champs "identifiant" = Some v -> exists id, v = PStr id)
  /\ (forall v, dget champs "parent" = Some v -> v = PNone \/ exists p, v = PStr p)
  /\ (forall v, dget champs "statut" = Some v -> statut_valide v)
  /\ (forall v, dget champs "cause" = Some v -> cause_valide v).

(** [m] only makes transitions of the table. *)
Definition agit {A} (m : M Base A) : Prop :=
  forall s, bien_forme (ba_runs s) -> rtc transition (ba_runs s) (ba_runs (m s).2).

(** [m] leaves the table as it is. *)
Definition lit {A} (m : M Base A) : Prop := forall s, ba_runs (m s).2 = ba_runs s.

Section agit.
Context {A B : Type}.

Lemma agit_lit (m : M Base A) : lit m -> agit m.
Proof. intros Hm s _. rewrite Hm. reflexivity. Qed.

Lemma agit_bind (m : M Base A) (f : A -> M Base B) : agit m -> (forall a, agit (f a)) -> agit (bind m f).
Proof.
  intros Hm Hf s Hs. unfold bind. pose proof (Hm s Hs) as H. destruct (m s) as [[a|e] s']; cbn in *; [|done].
  etransitivity; [done|]. apply Hf. by eapply transitions_bien_forme.
Qed.

Lemma agit_catch (m : M Base A) h k : agit m -> (forall e, agit (k e)) -> agit (catch m h k).
Proof.
  intros Hm Hk s Hs. unfold catch. pose proof (Hm s Hs) as H. destruct (m s) as [[a|e] s']; cbn in *; [done|].
  destruct (h _); [|done]. etransitivity; [done|]. apply Hk. by eapply transitions_bien_forme.
Qed.

Lemma lit_bind (m : M Base A) (f : A -> M Base B) : lit m -> (forall a, lit (f a)) -> lit (bind m f).
Proof.
  intros Hm Hf s. unfold bind. pose proof (Hm s) as H. destruct (m s) as [[a|e] s']; cbn in *; [|done].
  by rewrite Hf.
Qed.

Lemma lit_catch (m : M Base A) h k : lit m -> (forall e, lit (k e)) -> lit (catch m h k).
Proof.
  intros Hm Hk s. unfold catch. pose proof (Hm s) as H. destruct (m s) as [[a|e] s']; cbn in *; [done|].
  destruct (h _); [|done]. by rewrite Hk.
Qed.

Lemma lit_ret (a : A) : lit (ret a).
Proof. done. Qed.

Lemma lit_raise e : lit (raise (A:=A) e).
Proof. done. Qed.

Lemma lit_lift (r : res A) : lit (lift r).
Proof. done. Qed.
End agit.

Create HintDb ledger.
#[export] Hint Resolve agit_lit agit_bind agit_catch lit_bind lit_catch lit_ret lit_raise lit_lift : ledger.

(** The fields of a new run: those given, and the defaults. *)
Section remplir.
Context (uuid_hex maintenant : nat -> string).

Lemma remplir_spec fields champs s :
  exists run s', remplir uuid_hex maintenant fields champs s = (Ok run, s') /\ ba_runs s' = ba_runs s
    /\ ba_appels s' = ba_appels s /\ dkeys run = dkeys fields
    /\ forall nom, nom ∈ dkeys fields ->
         dget run nom = match dget champs nom, dget fields nom with
                        | Some v, _ => Some v
                        | None, Some (Some v) => Some v
                        | _, _ => dget run nom
                        end
         /\ (dget champs nom = None -> dget fields nom = Some None ->
             exists x, dget run nom = Some (PStr x) /\ (nom = "identifiant" -> exists n, (ba_uuids s <= n)%nat /\ x = uuid_hex n)).
Proof.
  revert s. induction fields as [|[n d] fields IH]; intros s.
  { exists [], s. split_and!; try done. intros nom Hn. by apply elem_of_nil in Hn. }
  cbn [remplir]. set (v := match dget champs n, d with Some v, _ => ret v | _, _ => _ end).
  assert (exists x s1, v s = (Ok x, s1) /\ ba_runs s1 = ba_runs s /\ ba_appels s1 = ba_appels s
    /\ Some x = match dget champs n, d with Some v, _ => Some v | None, Some v => Some v | _, _ => Some x end
    /\ (dget champs n = None -> d = None -> exists t, x = PStr t /\ (n = "identifiant" -> exists k, (ba_uuids s <= k)%nat /\ t = uuid_hex k))
    /\ (ba_uuids s <= ba_uuids s1)%nat) as (x & s1 & Ev & H1 & A1 & Hx & Hn & Hu).
  { subst v. destruct (dget champs n) as [y|]; [by eexists _, _|]. destruct d as [y|]; [by eexists _, _|].
    unfold uuid, date, bind. case_decide; eexists _, _; split_and!; try done; try (cbn; lia); intros _ _; eexists; (split; [done|]); [by eauto|done]. }
  destruct (IH s1) as (run & s2 & Er & H2 & A2 & Hk & Hf). exists ((n, x) :: run), s2.
  split; [rewrite (bind_ok _ _ s s1 x) by done; by rewrite (bind_ok _ _ s1 s2 run) by done|].
  split_and!; [congruence|congruence|unfold dkeys in *; cbn; congruence|]. intros nom Hnom. cbn. case_decide as E.
  - subst nom. split; [|intros Hc [= ->]; destruct (Hn Hc eq_refl) as (y & -> & Hy); by exists y].
    rewrite Hx at 1. destruct (dget champs n); [done|]. by destruct d.
  - assert (nom ∈ dkeys fields) as Hin by (unfold dkeys in *; cbn in Hnom; set_solver). destruct (Hf nom Hin) as [Hg Hd].
    split; [done|]. intros Hc Hn'. destruct (Hd Hc Hn') as (y & Hy & Hid). exists y. split; [done|]. intros H'.
    destruct (Hid H') as (k & Hk' & ->). exists k. split; [lia|done].
Qed.
End remplir.

(** The fields whose values are drawn. *)
Lemma dget_run_fields_none nom : dget run_fields nom = Some None -> nom = "identifiant" \/ nom = "cree_le".
Proof.
  unfold run_fields. intros H. repeat (cbn [dget] in H; destruct (decide (_ = nom)) as [<-|]; [try discriminate H; auto|]).
  discriminate H.
Qed.

(** The row of a new run. *)
Definition ligne_de (run : Run) (empreinte : string) : Ligne := run ++ [("processus", PStr empreinte)].

Lemma col_ligne_de run e nom : nom <> "processus" -> col (ligne_de run e) nom = col run nom.
Proof.
  intros Hn. unfold ligne_de, col. f_equal. induction run as [|[k v] run IH]; cbn.
  - by rewrite decide_False by congruence.
  - case_decide; [done|]. exact IH.
Qed.

(** ** Rows and runs *)

(** What [depuis] keeps of a row. *)
Lemma dget_ddel_ne {V} (d : pydict V) k k' : k <> k' -> dget (ddel d k) k' = dget d k'.
Proof.
  intros Hk. induction d as [|[k0 v0] d IH]; cbn; [done|]. destruct (decide (k0 = k)) as [->|]; cbn.
  - by rewrite decide_False.
  - by rewrite IH.
Qed.

Lemma depuis_col l r nom : depuis l = Ok r -> nom ∉ ["processus"; "statut"; "cause"; "exclusif"] -> col r nom = col l nom.
Proof.
  unfold depuis. intros H Hn. destruct (Statut.of_value _); [|done]. destruct (if truthy _ then _ else _); [|done].
  injection H as <-. rewrite col_dset, decide_False by set_solver.
  assert (H : col (dset (ddel l "processus") "statut" (PStr (statut_lu l))) nom = col l nom).
  { rewrite col_dset, decide_False by set_solver. unfold col. by rewrite dget_ddel_ne by set_solver. }
  destruct (truthy _); [done|]. by rewrite col_dset, decide_False by set_solver.
Qed.

Lemma statut_of_value x : Statut.of_value (Statut.value x) = Some x.
Proof. by destruct x. Qed.

Lemma cause_of_value x : Cause.of_value (Cause.value x) = Some x.
Proof. by destruct x. Qed.

Lemma depuis_valide id l : ligne_valide id l -> exists r, depuis l = Ok r.
Proof.
  intros (_ & _ & [x Hs] & Hc & _). unfold depuis.
  assert (statut_lu l = Statut.value x) as -> by (unfold statut_lu; rewrite Hs; by destruct x).
  rewrite statut_of_value. destruct Hc as [->|[y ->]]; cbn [truthy texte_de].
  - by eexists.
  - rewrite cause_of_value. destruct (negb _); by eexists.
Qed.

(** A row read from a well formed table. *)
Lemma bien_forme_ligne t id l : bien_forme t -> dget t id = Some l -> ligne_valide id l.
Proof. intros [_ Ht] Hg%dget_Some_elem. apply list_elem_of_lookup in Hg as [i Hi]. by apply (Ht i). Qed.

Lemma dict_wf_pops noms d : dict_wf d -> dict_wf (fold_left dpop noms d).
Proof. revert d. induction noms as [|n noms IH]; intros d Hd; [done|]. cbn. apply IH. by apply dict_wf_ddel. Qed.

Lemma dget_pops noms d nom : dict_wf d -> dget (fold_left dpop noms d) nom = if decide (nom ∈ noms) then None else dget d nom.
Proof.
  revert d. induction noms as [|n noms IH]; intros d Hd; cbn [fold_left]; [by rewrite decide_False by set_solver|].
  rewrite IH by by apply dict_wf_ddel. unfold dpop. rewrite dget_ddel by done. repeat case_decide; set_solver.
Qed.

Lemma dict_wf_dupdate d' d : dict_wf d -> dict_wf (dupdate d d').
Proof. unfold dupdate. revert d. induction d' as [|[k v] d' IH]; intros d Hd; [done|]. cbn. apply IH. by apply dict_wf_dset. Qed.

Lemma dget_dupdate d' d nom : dict_wf d' -> dget (dupdate d d') nom = match dget d' nom with Some v => Some v | None => dget d nom end.
Proof.
  unfold dupdate, dict_wf. revert d. induction d' as [|[k v] d' IH]; intros d Hd; [done|]. cbn. apply NoDup_cons in Hd as [Hk Hd].
  rewrite IH by done. rewrite dget_dset. case_decide; [subst|done].
  assert (dget d' nom = None) as -> by by apply dget_None. done.
Qed.

(** The arguments of a resumption. *)
Definition champs_de_reprise (r : Run) (motif : string) (remplacements : pydict pyval) : pydict pyval :=
  dset (dset (dset (dupdate (fold_left dpop JETABLES r) remplacements) "parent" (col r "identifiant"))
          "tentative" (PInt (tentative_de r + 1))) "motif_de_reprise" (PStr motif).

Lemma dget_champs_de_reprise r motif remplacements nom : dict_wf r -> dict_wf remplacements ->
  dget (champs_de_reprise r motif remplacements) nom =
    if decide (nom = "parent") then Some (col r "identifiant")
    else if decide (nom = "tentative") then Some (PInt (tentative_de r + 1))
    else if decide (nom = "motif_de_reprise") then Some (PStr motif)
    else match dget remplacements nom with
         | Some v => Some v
         | None => if decide (nom ∈ JETABLES) then None else dget r nom
         end.
Proof.
  intros Hr Hp. unfold champs_de_reprise. rewrite !dget_dset, dget_dupdate, dget_pops by done.
  repeat case_decide; congruence.
Qed.

Lemma champs_de_reprise_typee id r motif remplacements :
  dict_wf r -> col r "identifiant" = PStr id -> typee remplacements -> typee (champs_de_reprise r motif remplacements).
Proof.
  intros Hr Hi (Hw & Ti & Tp & Ts & Tc). split.
  { unfold champs_de_reprise. repeat apply dict_wf_dset. by apply dict_wf_dupdate, dict_wf_pops. }
  repeat setoid_rewrite dget_champs_de_reprise; [|done..]. cbn. split_and!; intros v.
  - destruct (dget remplacements "identifiant"); [|done]. by auto.
  - intros [= <-]. right. eauto.
  - destruct (dget remplacements "statut"); [|done]. by auto.
  - destruct (dget remplacements "cause"); [|done]. by auto.
Qed.

Lemma depuis_wf l r : dict_wf l -> depuis l = Ok r -> dict_wf r.
Proof.
  unfold depuis. intros Hl. destruct (Statut.of_value _); [|done]. destruct (if truthy _ then _ else _); [|done].
  intros [= <-]. apply dict_wf_dset. destruct (truthy _); repeat apply dict_wf_dset; by apply dict_wf_ddel.
Qed.

Lemma ligne_wf id l : ligne_valide id l -> dict_wf l.
Proof. intros (Hk & _). unfold dict_wf. rewrite Hk. by apply (bool_decide_unpack _). Qed.

(** A run read from a valid row. *)
Lemma depuis_run id l r : ligne_valide id l -> depuis l = Ok r -> dict_wf r /\ col r "identifiant" = PStr id.
Proof.
  intros Hl Hr. split; [eapply depuis_wf; [by eapply ligne_wf|done]|].
  rewrite (depuis_col _ _ _ Hr); [|by apply (bool_decide_unpack _)]. by destruct Hl as (_ & ? & _).
Qed.

Definition ident (r : Run) : string := texte_de (col r "identifiant").

Definition parent_de (r : Run) : option string :=
  match col r "parent" with PStr "" => None | PStr p => Some p | _ => None end.

(** [r] is what the table says of its run. *)
Definition lu (t : pydict Ligne) (r : Run) : Prop := exists l, dget t (ident r) = Some l /\ depuis l = Ok r.

(** From a run to its first attempt. *)
Inductive remonte (t : pydict Ligne) : list Run -> Prop :=
  | premiere r : lu t r -> parent_de r = None \/ parent_de r = Some (ident r) -> remonte t [r]
  | reprise r p c : lu t r -> parent_de r = Some (ident p) -> remonte t (p :: c) -> remonte t (r :: p :: c).

Lemma bien_forme_dget t i id l : bien_forme t -> t !! i = Some (id, l) -> dget t id = Some l.
Proof. intros [Hw _] Hi. apply dget_elem; [done|]. by eapply list_elem_of_lookup_2. Qed.

Lemma dkeys_lookup (t : pydict Ligne) i id l : t !! i = Some (id, l) -> dkeys t !! i = Some id.
Proof. intros Hi. exact (eq_trans (list_lookup_fmap fst t i) (f_equal (fmap fst) Hi)). Qed.

Lemma bien_forme_inj t i j id l l' : bien_forme t -> t !! i = Some (id, l) -> t !! j = Some (id, l') -> i = j.
Proof.
  intros [Hw _] Hi Hj. apply (NoDup_lookup (dkeys t) i j id Hw); by eapply dkeys_lookup.
Qed.

(** The fields of a run read from a valid row are those of [Run]. *)
Lemma depuis_champs id l r nom : ligne_valide id l -> depuis l = Ok r -> nom ∈ dkeys r <-> nom ∈ dkeys run_fields.
Proof.
  intros Hl Hr. unfold depuis in Hr. destruct (Statut.of_value _); [|done]. destruct (if truthy _ then _ else _); [|done].
  injection Hr as <-. pose proof (ligne_wf _ _ Hl) as Hw. destruct Hl as (Hk & _).
  assert (Hdel : forall x, x ∈ dkeys (ddel l "processus") <-> x ∈ dkeys run_fields).
  { intros x. rewrite elem_dkeys_ddel, Hk by done. unfold COLONNES. rewrite elem_of_app, list_elem_of_singleton.
    split; [by intros [? [?|?]]|]. intros H. split; [|by left]. intros ->. by apply (bool_decide_unpack (_ ∉ _)) in H || const_absurd H. }
  destruct (truthy _); rewrite !elem_dkeys_dset, Hdel; split; try tauto; intros H; repeat (destruct H as [->|H]; [const_elem|]); done.
Qed.

Lemma tentative_lue l r : depuis l = Ok r -> tentative_de r = tentative_de l.
Proof.
  intros Hr. unfold tentative_de. rewrite (depuis_col l r "tentative" Hr); [done|]. by apply (bool_decide_unpack _).
Qed.

(** What a resumption inherits is the column of the parent. *)
Lemma dget_herite id l r nom : ligne_valide id l -> depuis l = Ok r -> nom ∈ dkeys run_fields -> nom ∉ JETABLES ->
  dget r nom = Some (col l nom).
Proof.
  intros Hl Hr Hn Hj. rewrite <- (depuis_col l r nom Hr).
  - unfold col. apply (depuis_champs id l r nom Hl Hr), dget_is_Some in Hn as [v Hv]. by rewrite Hv.
  - intros Hin. repeat (apply elem_of_cons in Hin as [->|Hin]; [solve [const_absurd Hn | apply Hj; const_elem]|]).
    by apply elem_of_nil in Hin.
Qed.

Definition porteur (l : Ligne) : option string :=
  match col l "processus" with PStr "" => None | PStr p => Some p | _ => None end.

(** What a reconciliation writes of a lost run. *)
Definition perte (d e : string) : list (string * pyval) :=
  [("statut", PStr (Statut.value Statut.PERDU)); ("fini_le", PStr d); ("cause", PStr (Cause.value Cause.PROCESSUS));
   ("raison", PStr (raison_perdu e))].

Definition perdu_de (l l' : Ligne) : Prop := exists d e, porteur l = Some e /\ l' = figer (perte d e) l.

Lemma raison_perdu_ne e : raison_perdu e <> "".
Proof. done. Qed.

(** The rows that are not closed, as [non_termines] reads them. *)
Definition ouverts (t : pydict Ligne) : pydict Ligne := List.filter (fun p => negb (est_terminal p.2)) t.

Lemma filter_dvalues (P : Ligne -> bool) (t : pydict Ligne) :
  List.filter P (dvalues t) = dvalues (List.filter (fun p => P p.2) t).
Proof.
  unfold dvalues. induction t as [|[k l] t IH]; [done|]. cbn. destruct (P l); cbn; by rewrite IH.
Qed.

Lemma elem_ouverts t p : p ∈ ouverts t -> p ∈ t /\ est_terminal p.2 = false.
Proof. intros [H%list_elem_of_In Hp]%list_elem_of_In%filter_In. split; [done|]. by apply negb_true_iff in Hp. Qed.

Lemma idents_lus (ps : pydict Ligne) : (forall id l, (id, l) ∈ ps -> ligne_valide id l) ->
  exists rs, res_map depuis (dvalues ps) = Ok rs /\ map (fun r => texte_de (col r "identifiant")) rs = dkeys ps.
Proof.
  induction ps as [|[id l] ps IH]; intros Hv; [by exists []|]. destruct IH as (rs & Hrs & Hid); [intros; apply Hv; set_solver|].
  destruct (depuis_valide id l) as [r Hr]; [apply Hv; set_solver|]. exists (r :: rs).
  change (dvalues ((id, l) :: ps)) with (l :: dvalues ps). cbn [res_map]. rewrite Hr. cbn [res_bind]. rewrite Hrs.
  split; [done|]. cbn [map]. rewrite Hid. destruct (depuis_run id l r) as [_ Hi]; [apply Hv; set_solver|done|]. by rewrite Hi.
Qed.

Lemma dict_wf_filter {V} P (t : pydict V) : dict_wf t -> dict_wf (List.filter P t).
Proof.
  unfold dict_wf, dkeys. induction t as [|[k v] t IH]; [done|]. cbn. intros [Hk Ht]%NoDup_cons.
  destruct (P (k, v)); [|by apply IH]. cbn. apply NoDup_cons. split; [|by apply IH].
  intros ([k' v'] & -> & [Hin%list_elem_of_In _]%list_elem_of_In%filter_In)%list_elem_of_fmap. apply Hk.
  apply list_elem_of_fmap. by exists (k', v').
Qed.

Lemma filter_filter {A} (f g : A -> bool) (l : list A) : List.filter f (List.filter g l) = List.filter (fun x => g x && f x) l.
Proof. induction l as [|x l IH]; [done|]. cbn. destruct (g x); cbn; [destruct (f x)|]; by rewrite IH. Qed.

Lemma elem_ouverts_iff t id l (P : Prop) : bien_forme t -> dget t id = Some l ->
  (id ∈ dkeys (ouverts t) /\ P) <-> (est_terminal l = false /\ P).
Proof.
  intros Ht Hl. apply and_iff_compat_r. split.
  - intros ([k l'] & -> & [Hin Ho]%elem_ouverts)%list_elem_of_fmap. cbn in *.
    by assert (l' = l) as -> by (pose proof (dget_elem t k l' (proj1 Ht) Hin); congruence).
  - intros Ho. apply list_elem_of_fmap. exists (id, l). split; [done|]. apply list_elem_of_In, filter_In. cbn [snd].
    rewrite Ho. split; [|done]. by apply list_elem_of_In, dget_Some_elem.
Qed.

Lemma perte_terminal d e l : est_terminal l = false -> est_terminal (figer (perte d e) l) = true.
Proof.
  intros Hl. unfold figer. rewrite Hl. unfold est_terminal, perte. cbn [fold_left fst snd].
  rewrite !col_dset. by apply (bool_decide_unpack _).
Qed.

Section operations.
Context (uuid_hex maintenant : nat -> string) (refuse : nat -> option exn) (empreinte_du_processus : string)
  (int_of : string -> option Z) (float_of : string -> option Q) (psutil : Z -> processus_vu).

Lemma lit_requete {A} (q : pydict Ligne -> res A * pydict Ligne) : (forall t, (q t).2 = t) -> lit (requete refuse q).
Proof.
  intros Hq s. unfold requete. destruct (refuse _); [done|]. pose proof (Hq (ba_runs s)) as H. by destruct (q (ba_runs s)).
Qed.

Lemma agit_requete {A} (q : pydict Ligne -> res A * pydict Ligne) :
  (forall t, bien_forme t -> rtc transition t (q t).2) -> agit (requete refuse q).
Proof.
  intros Hq s Hs. unfold requete. destruct (refuse _); [done|]. pose proof (Hq _ Hs) as H. by destruct (q (ba_runs s)).
Qed.

Lemma lit_date : lit (date maintenant).
Proof. done. Qed.

Lemma lit_lire id : lit (lire refuse id).
Proof.
  apply lit_bind; [by apply lit_requete|]. intros [l|]; [|apply lit_ret].
  apply lit_bind; [apply lit_lift|]. intros r. apply lit_ret.
Qed.

Lemma lit_choisir P : lit (choisir refuse P).
Proof. apply lit_bind; [by apply lit_requete|]. intros ls. apply lit_lift. Qed.

Lemma lit_processus_de id : lit (processus_de refuse id).
Proof. by apply lit_requete. Qed.

Lemma agit_sans_statut id extra : Forall ecrit_permis extra -> agit (changer_sans_statut refuse id extra).
Proof. intros He. apply agit_requete. intros t _. apply rtc_once. by apply maj. Qed.

Lemma statut_permis st : ecrit_permis ("statut", PStr (Statut.value st)).
Proof. split; [by apply (bool_decide_unpack _)|]. split; [by exists st|done]. Qed.

Lemma agit_changer id st extra : Forall ecrit_permis extra -> agit (changer refuse id st extra).
Proof. intros He. apply agit_requete. intros t _. apply rtc_once. apply maj. constructor; [apply statut_permis|done]. Qed.

(** A column that is neither of the origin nor an enumeration. *)
Definition libre (nom : string) : Prop := (nom ∈ COLONNES /\ nom ∉ ORIGINE) /\ nom <> "statut" /\ nom <> "cause".
#[local] Instance libre_dec nom : Decision (libre nom).
Proof. unfold libre. apply _. Defined.

Lemma ecrit_libre nom v : libre nom -> ecrit_permis (nom, v).
Proof. intros (? & ? & ?). split; [done|]. by split; cbn; intros. Qed.

Lemma agit_demarrer id : agit (demarrer maintenant refuse id).
Proof.
  apply agit_bind; [apply agit_lit, lit_date|]. intros d. apply agit_changer. constructor; [|done].
  apply ecrit_libre. by apply (bool_decide_unpack _).
Qed.

Lemma optionnel_permis {A} nom (f : A -> pyval) o :
  (forall x, ecrit_permis (nom, f x)) -> Forall ecrit_permis (optionnel nom f o).
Proof. intros H. destruct o; cbn; [|done]. constructor; [apply H|done]. Qed.

Lemma agit_terminer id st cause raison cout je js : agit (terminer maintenant refuse id st cause raison cout je js).
Proof.
  apply agit_bind; [apply agit_lit, lit_date|]. intros d. apply agit_changer.
  rewrite !Forall_app. split_and!; try (apply optionnel_permis; intros x).
  - constructor; [by apply ecrit_libre, (bool_decide_unpack _)|done].
  - split; [by apply (bool_decide_unpack _)|]. split; [done|]. intros _. right. by exists x.
  - case_decide; constructor; [by apply ecrit_libre, (bool_decide_unpack _)|done].
  - by apply ecrit_libre, (bool_decide_unpack _).
  - by apply ecrit_libre, (bool_decide_unpack _).
  - by apply ecrit_libre, (bool_decide_unpack _).
Qed.

(** Names of a list disjoint from the protected ones. *)
Lemma connus_permis (d : pydict pyval) connus :
  inconnus d connus = [] -> Forall libre connus ->
  Forall ecrit_permis d.
Proof.
  intros Hi Hc. apply Forall_forall. intros [nom v] Hin.
  assert (nom ∈ connus) as Hn.
  { apply dec_stable. intros Hno. assert (nom ∈ inconnus d connus) as H; [|rewrite Hi in H; by apply elem_of_nil in H].
    apply list_elem_of_In, filter_In. split; [|by apply bool_decide_eq_true].
    apply list_elem_of_In, list_elem_of_fmap. by exists (nom, v). }
  rewrite Forall_forall in Hc. by apply ecrit_libre, Hc.
Qed.

Lemma Forall_list_filter {A} (P : A -> Prop) f (l : list A) : Forall P l -> Forall P (List.filter f l).
Proof. rewrite !Forall_forall. intros H x Hx%list_elem_of_In. apply filter_In in Hx as [Hx%list_elem_of_In _]. auto. Qed.

Lemma agit_constater id faits : agit (constater refuse id faits).
Proof.
  unfold constater. destruct (inconnus faits FAITS) eqn:E; [|apply agit_lit, lit_raise].
  assert (Forall ecrit_permis faits) as Hf by (eapply connus_permis; [done|by apply (bool_decide_unpack _)]).
  pose proof (Forall_list_filter _ (fun p => truthy p.2) _ Hf) as H. destruct (List.filter _ faits); [apply agit_lit, lit_ret|].
  by apply agit_sans_statut.
Qed.

Lemma agit_mesurer id mesures : agit (mesurer refuse id mesures).
Proof.
  unfold mesurer. destruct (inconnus mesures MESURES) eqn:E; [|apply agit_lit, lit_raise].
  assert (Forall ecrit_permis mesures) as Hf by (eapply connus_permis; [done|by apply (bool_decide_unpack _)]).
  pose proof (Forall_list_filter _ non_none _ Hf) as H. destruct (List.filter _ mesures); [apply agit_lit, lit_ret|].
  apply agit_sans_statut. apply Forall_fmap. eapply Forall_impl; [done|]. intros [nom v] ((Hk & Hno) & Hs & Hc). unfold en_sql, compose.
  cbn [fst snd]. case_decide; [|done]. subst. by split_and!.
Qed.

(** The instance made of typed arguments, with its mark, is a valid row. *)
Lemma nouveau_run_spec champs s :
  typee champs ->
  (exists e, nouveau_run uuid_hex maintenant champs s = (Err e, s) /\ exists nom, nom ∈ dkeys champs /\ nom ∉ dkeys run_fields)
  \/ exists run s', nouveau_run uuid_hex maintenant champs s = (Ok run, s') /\ ba_runs s' = ba_runs s /\ ba_appels s' = ba_appels s
       /\ ligne_valide (texte_de (col run "identifiant")) (ligne_de run empreinte_du_processus)
       /\ (dget champs "identifiant" = None -> exists n, (ba_uuids s <= n)%nat /\ col run "identifiant" = PStr (uuid_hex n))
       /\ forall nom v, nom ∈ dkeys run_fields ->
            match dget champs nom with Some v => Some v | None => default None (dget run_fields nom) end = Some v ->
            col run nom = v.
Proof.
  intros (_ & Ti & Tp & Ts & Tc). unfold nouveau_run. destruct (List.find _ champs) as [p|] eqn:Ef; [left|right].
  { apply find_some in Ef as [Hin%list_elem_of_In Hp%negb_true_iff%dmem_false]. eexists. split; [done|]. exists p.1. split; [|done].
    apply list_elem_of_fmap. by exists p. }
  destruct (remplir_spec uuid_hex maintenant run_fields champs s) as (run & s' & -> & H1 & H2 & Hk & Hf).
  exists run, s'. split; [done|]. split; [done|]. split; [done|].
  assert (Hcol : forall nom v, nom ∈ dkeys run_fields ->
    match dget champs nom with Some v => Some v | None => default None (dget run_fields nom) end = Some v -> col run nom = v).
  { intros nom v Hn Hv. unfold col. destruct (Hf nom Hn) as [-> _]. destruct (dget champs nom); [by simplify_eq|].
    destruct (dget run_fields nom) as [[w|]|]; cbn in Hv; by simplify_eq. }
  split; [|split; [|done]].
  2: { intros Hno. destruct (Hf "identifiant") as [_ H]; [const_elem|]. destruct (H Hno eq_refl) as (x & Hx & Hu).
       destruct (Hu eq_refl) as (n & Hle & ->). exists n. split; [done|]. unfold col. by rewrite Hx. }
  unfold ligne_valide. rewrite !col_ligne_de by done. split_and!.
  - unfold ligne_de, COLONNES, dkeys in *. rewrite map_app. by rewrite Hk.
  - destruct (dget champs "identifiant") as [v|] eqn:E.
    + destruct (Ti v eq_refl) as [id ->]. rewrite (Hcol "identifiant" (PStr id)); [done|const_elem|by rewrite E].
    + destruct (Hf "identifiant") as [_ H]; [const_elem|]. destruct (H E eq_refl) as (x & Hx & _). unfold col. by rewrite Hx.
  - destruct (dget champs "statut") as [v|] eqn:E.
    + rewrite (Hcol "statut" v); [by apply Ts|const_elem|by rewrite E].
    + rewrite (Hcol "statut" (PStr (Statut.value Statut.EN_ATTENTE))); [by eexists|const_elem|by rewrite E].
  - destruct (dget champs "cause") as [v|] eqn:E.
    + rewrite (Hcol "cause" v); [by apply Tc|const_elem|by rewrite E].
    + rewrite (Hcol "cause" PNone); [by left|const_elem|by rewrite E].
  - destruct (dget champs "parent") as [v|] eqn:E.
    + rewrite (Hcol "parent" v); [by apply Tp|const_elem|by rewrite E].
    + rewrite (Hcol "parent" PNone); [by left|const_elem|by rewrite E].
Qed.

Lemma inserer_transition id l t : ligne_valide id l -> rtc transition t (inserer id l t).2.
Proof.
  intros Hv. unfold inserer. destruct (dmem t id) eqn:E; [done|]. apply dmem_false in E.
  destruct Hv as (Hk & Hi & Hs & Hc & [Hp|[p Hp]]) eqn:Hval; rewrite Hp.
  - apply rtc_once. apply insertion; [done..|]. by rewrite Hp.
  - destruct (dmem t p || bool_decide (p = id)) eqn:E'; [|done]. apply rtc_once. apply insertion; [done..|]. rewrite Hp.
    intros ? [= <-]. apply orb_true_iff in E' as [?%dmem_true|?%bool_decide_eq_true]; auto.
Qed.

Lemma agit_ouvrir champs : typee champs -> agit (ouvrir uuid_hex maintenant refuse empreinte_du_processus champs).
Proof.
  intros Ht s Hs. unfold ouvrir. destruct (nouveau_run_spec champs s Ht) as [(e & H & _)|(run & s1 & H & H1 & _ & Hv & _)].
  - rewrite (bind_err _ _ _ _ _ H). reflexivity.
  - rewrite (bind_ok _ _ _ _ _ H). rewrite <- H1 in Hs |- *.
    refine (agit_bind (requete refuse _) (fun _ => ret run) _ _ s1 Hs).
    + apply agit_requete. intros t _. by apply inserer_transition.
    + intros _. apply agit_lit, lit_ret.
Qed.

Lemma lire_spec id s : bien_forme (ba_runs s) ->
  exists s', ba_runs s' = ba_runs s /\ ba_uuids s' = ba_uuids s /\ ba_appels s' = S (ba_appels s) /\
    ((exists e, refuse (ba_appels s) = Some e /\ lire refuse id s = (Err e, s'))
     \/ refuse (ba_appels s) = None /\
        match dget (ba_runs s) id with
        | None => lire refuse id s = (Ok None, s')
        | Some l => exists r, depuis l = Ok r /\ lire refuse id s = (Ok (Some r), s')
        end).
Proof.
  intros Hs. eexists (mkBase (ba_runs s) (S (ba_appels s)) (ba_uuids s) (ba_dates s)). do 3 (split; [done|]).
  unfold lire, requete, bind. destruct (refuse (ba_appels s)) as [e|]; [left; by exists e|right]. split; [done|].
  destruct (dget (ba_runs s) id) as [l|] eqn:E; [|done]. destruct (depuis_valide id l) as [r Hr]; [by eapply bien_forme_ligne|].
  exists r. split; [done|]. unfold lift. by rewrite Hr.
Qed.

Lemma agit_reprendre id motif remplacements : typee remplacements ->
  agit (reprendre uuid_hex maintenant refuse empreinte_du_processus id motif remplacements).
Proof.
  intros Ht s Hs. unfold reprendre. case_decide; [done|]. unfold bind.
  destruct (lire_spec id s Hs) as (s' & Hr & _ & _ & [(e & _ & ->)|[_ Hg]]); [cbn [snd]; by rewrite Hr|].
  destruct (dget (ba_runs s) id) as [l|] eqn:E; [|rewrite Hg; cbn [raise snd]; by rewrite Hr].
  destruct Hg as (r & Hd & ->). rewrite <- Hr in Hs |- *.
  destruct (depuis_run id l r) as [Hw Hi]; [rewrite Hr in Hs; by eapply bien_forme_ligne|done|].
  apply agit_ouvrir; [|done]. by apply (champs_de_reprise_typee id).
Qed.

Lemma agit_examiner courante id b : agit (examiner maintenant refuse int_of float_of psutil courante id b).
Proof.
  apply agit_bind; [apply agit_lit, lit_catch; [apply lit_processus_de|intros; apply lit_ret]|].
  intros [e|]; [|apply agit_lit, lit_ret]. case_decide; [apply agit_lit, lit_ret|].
  destruct (processus_vivant _ _ _ _) as [[]|]; [apply agit_lit, lit_ret| |apply agit_lit, lit_ret].
  apply agit_bind; [apply agit_terminer|]. intros _. apply agit_lit, lit_ret.
Qed.

Lemma agit_reconcilier courante : agit (reconcilier maintenant refuse int_of float_of psutil courante).
Proof.
  apply agit_bind.
  { apply agit_lit, lit_catch; [|intros; apply lit_ret]. apply lit_bind; [apply lit_choisir|]. intros; apply lit_ret. }
  intros [l|]; [|apply agit_lit, lit_ret]. generalize (map (fun r => texte_de (col r "identifiant")) l) (mkBilan [] [] []).
  intros ids. induction ids as [|id ids IH]; intros b; [apply agit_lit, lit_ret|]. cbn [examiner_tous].
  apply agit_bind; [apply agit_examiner|exact IH].
Qed.

End operations.

(** ** Histories *)

Section histories.
Context (uuid_hex maintenant : nat -> string) (refuse : nat -> option exn) (int_of : string -> option Z)
  (float_of : string -> option Q) (psutil : Z -> processus_vu).

(** A call made to the ledger, by a process whose mark is [e]. *)
Inductive appel :=
  | Ouvrir (e : string) (champs : pydict pyval)
  | Demarrer (id : string)
  | Terminer (id : string) (st : Statut.t) (cause : option Cause.t) (raison : string) (cout : option Q)
      (jetons_entree jetons_sortie : option Z)
  | Constater (id : string) (faits : pydict pyval)
  | Mesurer (id : string) (mesures : pydict pyval)
  | Reprendre (e id motif : string) (remplacements : pydict pyval)
  | Reconcilier (courante : string).

Definition appel_type (a : appel) : Prop :=
  match a with Ouvrir _ champs | Reprendre _ _ _ champs => typee champs | _ => True end.

(** The object after a call, whatever the call answers. *)
Definition apres (s : Base) (a : appel) : Base :=
  match a with
  | Ouvrir e champs => (ouvrir uuid_hex maintenant refuse e champs s).2
  | Demarrer id => (demarrer maintenant refuse id s).2
  | Terminer id st cause raison cout je js => (terminer maintenant refuse id st cause raison cout je js s).2
  | Constater id faits => (constater refuse id faits s).2
  | Mesurer id mesures => (mesurer refuse id mesures s).2
  | Reprendre e id motif r => (reprendre uuid_hex maintenant refuse e id motif r s).2
  | Reconcilier courante => (reconcilier maintenant refuse int_of float_of psutil courante s).2
  end.

Definition executer (appels : list appel) (s : Base) : Base := fold_left apres appels s.

Lemma apres_transitions s a : appel_type a -> bien_forme (ba_runs s) -> rtc transition (ba_runs s) (ba_runs (apres s a)).
Proof.
  destruct a; cbn; intros Ht Hs.
  - by apply agit_ouvrir.
  - by apply agit_demarrer.
  - by apply agit_terminer.
  - by apply agit_constater.
  - by apply agit_mesurer.
  - by apply agit_reprendre.
  - by apply agit_reconcilier.
Qed.

Lemma executer_transitions appels s : Forall appel_type appels -> bien_forme (ba_runs s) ->
  rtc transition (ba_runs s) (ba_runs (executer appels s)).
Proof.
  unfold executer. revert s. induction appels as [|a appels IH]; intros s Ha Hs; [done|].
  apply Forall_cons_1 in Ha as [Ha Hl]. cbn. pose proof (apres_transitions s a Ha Hs) as H.
  etransitivity; [done|]. apply IH; [done|]. by eapply transitions_bien_forme.
Qed.

Lemma executer_bien_forme appels : Forall appel_type appels -> bien_forme (ba_runs (executer appels empty_base)).
Proof.
  intros Ha. eapply transitions_bien_forme; [apply executer_transitions; [done|]|]; apply bien_forme_nil.
Qed.

Lemma executer_app a1 a2 s : executer (a1 ++ a2) s = executer a2 (executer a1 s).
Proof. apply fold_left_app. Qed.


(** ** The chain of the attempts *)

(** The database accepts every query from [s] on. *)
Definition accepte (s : Base) : Prop := forall n, (ba_appels s <= n)%nat -> refuse n = None.

Lemma lire_accepte id l s : bien_forme (ba_runs s) -> accepte s -> dget (ba_runs s) id = Some l ->
  exists r s', depuis l = Ok r /\ ident r = id /\ lire refuse id s = (Ok (Some r), s') /\ ba_runs s' = ba_runs s /\ accepte s'
    /\ ba_uuids s' = ba_uuids s.
Proof.
  intros Hs Ha Hl. destruct (lire_spec refuse id s Hs) as (s' & Hr & Hu & Hn & [(e & He & _)|[_ Hg]]).
  - rewrite Ha in He by done. done.
  - rewrite Hl in Hg. destruct Hg as (r & Hd & Hg). exists r, s'. split_and!; try done.
    + unfold ident. by rewrite (proj2 (depuis_run id l r (bien_forme_ligne _ _ _ Hs Hl) Hd)).
    + intros n Hle. apply Ha. lia.
Qed.

(** The loop climbs to earlier and earlier rows. *)
Lemma remonter_spec i : forall id l r chaine vus fuel s,
  bien_forme (ba_runs s) -> accepte s -> ba_runs s !! i = Some (id, l) -> depuis l = Ok r ->
  (forall j id' l', (j <= i)%nat -> ba_runs s !! j = Some (id', l') -> id' ∉ vus) -> (i < fuel)%nat ->
  exists c s', remonter refuse fuel (Some r) vus chaine s = (Ok (rev (chaine ++ r :: c)), s') /\ ba_runs s' = ba_runs s
    /\ remonte (ba_runs s) (r :: c) /\ NoDup (map ident (r :: c))
    /\ forall x, x ∈ c -> exists j l', (j < i)%nat /\ ba_runs s !! j = Some (ident x, l').
Proof.
  induction (lt_wf i) as [i _ IH]. intros id l r chaine vus fuel s Hs Ha Hi Hr Hvus Hf.
  pose proof (bien_forme_dget _ _ _ _ Hs Hi) as Hl.
  destruct (depuis_run id l r (bien_forme_ligne _ _ _ Hs Hl) Hr) as [_ Hid].
  assert (ident r = id) as Hident by (unfold ident; by rewrite Hid).
  assert (lu (ba_runs s) r) as Hlu by (exists l; by rewrite Hident).
  destruct fuel as [|fuel]; [lia|]. cbn [remonter]. fold (ident r). rewrite Hident.
  rewrite decide_False by by eapply Hvus.
  assert (Hstop : forall s', remonter refuse fuel None ({[id]} ∪ vus) (chaine ++ [r]) s' = (Ok (rev (chaine ++ [r])), s'))
    by by destruct fuel.
  assert (Hpar : col r "parent" = col l "parent") by (apply (depuis_col _ _ _ Hr); by apply (bool_decide_unpack _)).
  destruct (parent_de r) as [p|] eqn:Hp; unfold parent_de in Hp.
  - assert (col r "parent" = PStr p /\ p <> "") as [Hc Hne].
    { destruct (col r "parent") as [| | | |[|a q]| |]; simplify_eq; by split. }
    assert (Hlire : match col r "parent" with PStr "" => ret None | PStr p => lire refuse p | _ => ret None end = lire refuse p)
      by (rewrite Hc; by destruct p).
    rewrite Hlire. destruct (proj2 (proj2 Hs i id l Hi) p) as [->|(j & l' & Hj & E')]; [congruence| |].
    + destruct (lire_accepte id l s Hs Ha Hl) as (r' & s' & Hr' & Hid' & E & Hrs & _). rewrite (bind_ok _ _ _ _ _ E).
      exists [], s'. split_and!; [|done| |apply NoDup_singleton|by intros x ?%elem_of_nil].
      * assert (r' = r) as -> by congruence. destruct fuel; cbn [remonter]; fold (ident r); rewrite Hident;
          by rewrite decide_True by set_solver.
      * apply premiere; [done|]. right. unfold parent_de. rewrite Hc, Hident. by destruct id.
    + pose proof (bien_forme_dget _ _ _ _ Hs E') as Hl'.
      destruct (lire_accepte p l' s Hs Ha Hl') as (r' & s' & Hr' & Hid' & E & Hrs & Ha' & _). rewrite (bind_ok _ _ _ _ _ E).
      destruct (IH j Hj p l' r' (chaine ++ [r]) ({[id]} ∪ vus) fuel s') as (c & s2 & E2 & H2 & Hc2 & Hnd & Hpos);
        rewrite ?Hrs in *; try done; [|lia|].
      { intros k id' lk Hk Hlk [->%elem_of_singleton|Hin]%elem_of_union.
        - pose proof (bien_forme_inj _ _ _ _ _ _ Hs Hi Hlk). lia.
        - eapply (Hvus k); [lia|done|done]. }
      assert (Hbefore : forall x, x ∈ r' :: c -> exists j l', (j < i)%nat /\ ba_runs s !! j = Some (ident x, l')).
      { intros x [->|Hx]%elem_of_cons; [exists j, l'; by rewrite Hid'|].
        destruct (Hpos x Hx) as (k & lk & Hk & Elk). exists k, lk. split; [lia|done]. }
      exists (r' :: c), s2. split_and!; [| | | |done].
      * rewrite E2. do 3 f_equal. by rewrite <- app_assoc.
      * done.
      * apply reprise; [done| |done]. unfold parent_de. rewrite Hc, Hid'. by destruct p.
      * change (NoDup (ident r :: map ident (r' :: c))). apply NoDup_cons. split; [|done]. rewrite Hident. intros (x & Hx & Hin)%list_elem_of_fmap.
        destruct (Hbefore x Hin) as (k & lk & Hk & Elk). rewrite <- Hx in Elk.
        pose proof (bien_forme_inj _ _ _ _ _ _ Hs Hi Elk). lia.
  - assert (Hlire : match col r "parent" with PStr "" => ret None | PStr p => lire refuse p | _ => ret None end = ret None).
    { by destruct (col r "parent") as [| | | |[|a q]| |]. }
    rewrite Hlire. exists [], s. split_and!; [apply Hstop|done| |apply NoDup_singleton|by intros x ?%elem_of_nil].
    apply premiere; [done|]. by left.
Qed.


(** The chain of a run of the table: [c] from the run up. *)
Lemma lignee_bien_forme id l s : bien_forme (ba_runs s) -> accepte s -> dget (ba_runs s) id = Some l ->
  exists c s', lignee refuse id s = (Ok (rev c), s') /\ ba_runs s' = ba_runs s /\ ident <$> head c = Some id
    /\ remonte (ba_runs s) c /\ NoDup (map ident c).
Proof.
  intros Hs Ha Hl. destruct (lire_accepte id l s Hs Ha Hl) as (r & s1 & Hr & Hid & E & H1 & Ha1 & _).
  unfold lignee. rewrite (bind_ok _ _ _ _ _ E). rewrite (bind_ok get _ s1 s1 s1) by done.
  pose proof (dget_Some_elem _ _ _ Hl) as [i Hi]%list_elem_of_lookup. rewrite <- H1 in Hs, Hi |- *.
  destruct (remonter_spec i id l r [] ∅ (length (ba_runs s1)) s1) as (c & s2 & E2 & H2 & Hc & Hnd & _); try done.
  - by eapply lookup_lt_Some.
  - exists (r :: c), s2. split_and!; try done. cbn. by rewrite Hid.
Qed.


(** ** The runs of dead processes *)

(** Whether the process of a row is alive, when that can be told. *)
Definition vivant (courante : string) (l : Ligne) : option bool :=
  match porteur l with
  | None => None
  | Some e => if decide (e = courante) then Some true else processus_vivant int_of float_of psutil e
  end.

(** The rows that a reconciliation examines, by what is known of their process. *)
Definition tries (courante : string) (v : option bool) (t : pydict Ligne) : list string :=
  dkeys (List.filter (fun p => negb (est_terminal p.2) && bool_decide (vivant courante p.2 = v)) t).

Definition bilan_de (courante : string) (t : pydict Ligne) : Bilan :=
  mkBilan (tries courante (Some false) t) (tries courante (Some true) t) (tries courante None t).

(** What a reconciliation has done once [ids] are examined. *)
Definition traite (courante : string) (ids : list string) (t t' : pydict Ligne) : Prop :=
  dkeys t' = dkeys t
  /\ forall id l, dget t id = Some l ->
       exists l', dget t' id = Some l' /\
         if decide (id ∈ ids /\ vivant courante l = Some false) then perdu_de l l' else l' = l.

Definition ranger (courante : string) (t : pydict Ligne) (id : string) (b : Bilan) : Bilan :=
  match default None (vivant courante <$> dget t id) with
  | Some true => ajouter_vivant id b
  | Some false => ajouter_perdu id b
  | None => ajouter_indecidable id b
  end.

Lemma accepte_requete {A} (q : pydict Ligne -> res A * pydict Ligne) s : accepte s ->
  exists s', requete refuse q s = ((q (ba_runs s)).1, s') /\ ba_runs s' = (q (ba_runs s)).2 /\ accepte s'.
Proof.
  intros Ha. unfold requete. rewrite (Ha (ba_appels s)) by done. destruct (q (ba_runs s)) as [r t]. eexists. split_and!; [done..|].
  intros n Hn. apply Ha. cbn in Hn. lia.
Qed.

Lemma examiner_spec courante id l b s : accepte s -> dget (ba_runs s) id = Some l ->
  exists s', examiner maintenant refuse int_of float_of psutil courante id b s = (Ok (ranger courante (ba_runs s) id b), s')
    /\ accepte s'
    /\ if decide (vivant courante l = Some false)
       then exists d e, porteur l = Some e
              /\ ba_runs s' = mettre_a_jour id (figer (perte d e)) (ba_runs s)
       else ba_runs s' = ba_runs s.
Proof.
  intros Ha Hl. unfold examiner, ranger. rewrite Hl. cbn [fmap option_fmap option_map default from_option].
  destruct (accepte_requete (fun t => (Ok (match dget t id with
    | Some l => match col l "processus" with PStr "" => None | PStr p => Some p | _ => None end | None => None end), t)) s Ha)
    as (s1 & E & H1 & Ha1). cbn [fst snd] in *. rewrite Hl in E. fold (porteur l) in E.
  rewrite (bind_ok _ _ s s1 (porteur l)) by (unfold catch, processus_de; by rewrite E).
  unfold vivant. destruct (porteur l) as [e|] eqn:Hp; [|exists s1; by rewrite decide_False].
  case_decide as Hc; [exists s1; by rewrite decide_False|].
  destruct (processus_vivant int_of float_of psutil e) as [[]|]; [exists s1; by rewrite decide_False| |exists s1; by rewrite decide_False].
  case_decide as Hf; [clear Hf|done]. unfold terminer. rewrite (decide_False (P:=raison_perdu e = "")) by apply raison_perdu_ne.
  destruct (date maintenant s1) as [[d|] s2] eqn:Ed; [|done]. injection Ed as <- <-.
  set (s2 := mkBase (ba_runs s1) (ba_appels s1) (ba_uuids s1) (S (ba_dates s1))). assert (accepte s2) as Ha2 by done.
  destruct (accepte_requete (fun t => (Ok tt, mettre_a_jour id (figer (perte (maintenant (ba_dates s1)) e)) t)) s2 Ha2) as (s3 & E3 & H3 & Ha3).
  exists s3. split; [|split; [done|]].
  - rewrite (bind_ok _ _ s1 s3 tt); [done|]. rewrite (bind_ok _ _ s1 s2 (maintenant (ba_dates s1))) by done. exact E3.
  - exists (maintenant (ba_dates s1)), e. split; [done|]. rewrite H3. cbn [snd]. by rewrite <- H1.
Qed.


Lemma traite_nil courante t : traite courante [] t t.
Proof. split; [done|]. intros id l Hl. exists l. split; [done|]. by rewrite decide_False by set_solver. Qed.

Lemma traite_snoc courante ids id l t0 t t' :
  dget t0 id = Some l -> id ∉ ids -> traite courante ids t0 t ->
  (if decide (vivant courante l = Some false)
   then exists d e, porteur l = Some e /\ t' = mettre_a_jour id (figer (perte d e)) t else t' = t) ->
  traite courante (ids ++ [id]) t0 t'.
Proof.
  intros Hl Hid [Hk Ht] Hstep. destruct (decide (vivant courante l = Some false)) as [Hm|Hm].
  - destruct Hstep as (d & e & Hp & ->). split; [by rewrite dkeys_maj|]. intros k lk Hlk.
    destruct (Ht k lk Hlk) as (l' & Hl' & H'). rewrite dget_maj, Hl'. destruct (decide (k = id)) as [->|Hne].
    + assert (lk = l) as -> by congruence. rewrite decide_False in H' by tauto. subst l'. exists (figer (perte d e) l).
      split; [done|]. rewrite decide_True by (split; [set_solver|done]). by exists d, e.
    + exists l'. split; [done|]. destruct (decide (k ∈ ids /\ _)) as [Hin|Hout].
      * by rewrite decide_True by set_solver.
      * rewrite decide_False; [done|]. intros [[Hin| ->%list_elem_of_singleton]%elem_of_app Hv]; tauto.
  - subst t'. split; [done|]. intros k lk Hlk. destruct (Ht k lk Hlk) as (l' & Hl' & H'). exists l'. split; [done|].
    destruct (decide (k ∈ ids /\ _)) as [Hin|Hout].
    + by rewrite decide_True by set_solver.
    + rewrite decide_False; [done|]. intros [[Hin| ->%list_elem_of_singleton]%elem_of_app Hv]; [tauto|]. congruence.
Qed.

Lemma examiner_tous_spec courante rest : forall faits t0 b s,
  NoDup (faits ++ rest) -> (forall id, id ∈ rest -> id ∈ dkeys t0) -> accepte s -> traite courante faits t0 (ba_runs s) ->
  exists s', examiner_tous maintenant refuse int_of float_of psutil courante rest b s
             = (Ok (fold_left (fun b id => ranger courante t0 id b) rest b), s')
    /\ accepte s' /\ traite courante (faits ++ rest) t0 (ba_runs s').
Proof.
  induction rest as [|id rest IH]; intros faits t0 b s Hnd Hin Ha Ht.
  { exists s. by rewrite app_nil_r. }
  destruct (proj2 (dget_is_Some t0 id)) as [l Hl]; [apply Hin; set_solver|].
  assert (id ∉ faits) as Hid by (apply NoDup_app in Hnd as (_ & H & _); set_solver).
  assert (dget (ba_runs s) id = Some l) as Hs.
  { destruct Ht as [_ Ht]. destruct (Ht id l Hl) as (l' & Hl' & H'). by rewrite decide_False in H' by tauto; subst. }
  destruct (examiner_spec courante id l b s Ha Hs) as (s1 & E & Ha1 & Hstep). cbn [examiner_tous].
  rewrite (bind_ok _ _ _ _ _ E). assert (ranger courante (ba_runs s) id b = ranger courante t0 id b) as ->.
  { unfold ranger. by rewrite Hs, Hl. }
  destruct (IH (faits ++ [id]) t0 (ranger courante t0 id b) s1) as (s2 & E2 & Ha2 & Ht2).
  - by rewrite <- app_assoc.
  - intros k Hk. apply Hin. set_solver.
  - done.
  - by eapply traite_snoc.
  - exists s2. split; [done|]. split; [done|]. by rewrite <- app_assoc in Ht2.
Qed.

Lemma ranger_tous courante t (ps : pydict Ligne) : forall b,
  dict_wf t -> (forall p, p ∈ ps -> p ∈ t) ->
  let f v := dkeys (List.filter (fun p => bool_decide (vivant courante p.2 = v)) ps) in
  fold_left (fun b id => ranger courante t id b) (dkeys ps) b
  = mkBilan (bi_perdus b ++ f (Some false)) (bi_vivants b ++ f (Some true)) (bi_indecidables b ++ f None).
Proof.
  cbn zeta. induction ps as [|[id l] ps IH]; intros b Hw Hin; [cbn; rewrite !app_nil_r; by destruct b|].
  change (dkeys ((id, l) :: ps)) with (id :: dkeys ps). cbn [fold_left List.filter snd].
  rewrite IH by (done || set_solver). unfold ranger.
  rewrite (dget_elem t id l) by (done || (apply Hin; set_solver)). cbn [fmap option_fmap option_map default from_option].
  change (Datatypes.id (vivant courante l)) with (vivant courante l). destruct (vivant courante l) as [[]|] eqn:E; cbn [ajouter_perdu ajouter_vivant ajouter_indecidable
    bi_perdus bi_vivants bi_indecidables]; repeat case_bool_decide; try done; by rewrite <- !app_assoc.
Qed.


(** What a reconciliation does and answers on a well formed table. *)
Lemma reconcilier_spec courante s : bien_forme (ba_runs s) -> accepte s ->
  exists s', reconcilier maintenant refuse int_of float_of psutil courante s = (Ok (bilan_de courante (ba_runs s)), s')
    /\ accepte s' /\ traite courante (dkeys (ouverts (ba_runs s))) (ba_runs s) (ba_runs s').
Proof.
  intros Hs Ha. set (t := ba_runs s). destruct (idents_lus (ouverts t)) as (rs & Hrs & Hids).
  { intros id l [Hin _]%elem_ouverts. eapply bien_forme_ligne; [done|]. by apply dget_elem; [destruct Hs|]. }
  destruct (accepte_requete (fun t => (Ok (List.filter (fun l => negb (est_terminal l)) (dvalues t)), t)) s Ha)
    as (s1 & E & H1 & Ha1). cbn [fst snd] in *. fold t in E, H1. rewrite filter_dvalues in E. fold (ouverts t) in E.
  unfold reconcilier. rewrite (bind_ok _ _ s s1 (Some rs)).
  2: { unfold catch, non_termines, choisir. rewrite bind_assoc, (bind_ok _ _ _ _ _ E). unfold lift, bind. by rewrite Hrs. }
  rewrite Hids.
  destruct (examiner_tous_spec courante (dkeys (ouverts t)) [] t (mkBilan [] [] []) s1) as (s2 & E2 & Ha2 & Ht2); try done.
  - cbn. apply dict_wf_filter. by destruct Hs.
  - intros id ([k l] & -> & [Hin _]%elem_ouverts)%list_elem_of_fmap. apply list_elem_of_fmap. by exists (k, l).
  - rewrite H1. apply traite_nil.
  - exists s2. split; [|done]. rewrite E2. do 2 f_equal. rewrite ranger_tous; [|by destruct Hs|by intros p [? _]%elem_ouverts].
    unfold bilan_de, tries, ouverts. cbn [app bi_perdus bi_vivants bi_indecidables]. by rewrite !filter_filter.
Qed.

(** Once a reconciliation is done, no open run has a dead process. *)
Lemma traite_plus_de_perdus courante t t' : dict_wf t' ->
  traite courante (dkeys (ouverts t)) t t' -> tries courante (Some false) t' = [].
Proof.
  intros Hw [Hk Ht]. unfold tries. rewrite list_filter_nil; [done|]. intros [id l'] Hin. cbn [snd].
  apply andb_false_iff. pose proof (dget_elem t' id l' Hw Hin) as Hl'.
  assert (id ∈ dkeys t) as [l Hl]%dget_is_Some.
  { rewrite <- Hk. apply list_elem_of_fmap. by exists (id, l'). }
  destruct (Ht id l Hl) as (l2 & Hl2 & H'). assert (l2 = l') as -> by congruence.
  destruct (decide (id ∈ dkeys (ouverts t) /\ vivant courante l = Some false)) as [[Hop Hd]|Hno].
  - left. destruct H' as (d & e & _ & ->). destruct (est_terminal l) eqn:E.
    + by rewrite figer_terminal, E by done.
    + by rewrite perte_terminal.
  - subst l'. destruct (est_terminal l) eqn:E; [by left|right]. apply bool_decide_eq_false. intros Hd. apply Hno. split; [|done].
    apply list_elem_of_fmap. exists (id, l). split; [done|]. apply list_elem_of_In, filter_In. cbn [snd]. rewrite E.
    split; [|done]. by apply list_elem_of_In, dget_Some_elem.
Qed.


(** The run that a resumption opens. *)
Lemma ouvrir_reprise e id l r motif remplacements s :
  bien_forme (ba_runs s) -> accepte s -> dget (ba_runs s) id = Some l -> depuis l = Ok r -> typee remplacements ->
  (forall nom, nom ∈ dkeys remplacements -> nom ∈ dkeys run_fields /\ nom <> "identifiant") ->
  (forall n, (ba_uuids s <= n)%nat -> uuid_hex n ∉ dkeys (ba_runs s)) ->
  let champs := champs_de_reprise r motif remplacements in
  exists run s', ouvrir uuid_hex maintenant refuse e champs s = (Ok run, s')
    /\ ba_runs s' = ba_runs s ++ [(ident run, ligne_de run e)]
    /\ forall nom v, nom ∈ dkeys run_fields ->
         match dget champs nom with Some v => Some v | None => default None (dget run_fields nom) end = Some v ->
         col run nom = v.
Proof.
  intros Hs Ha Hl Hr Ht Hk Hfresh champs. pose proof (bien_forme_ligne _ _ _ Hs Hl) as Hv.
  destruct (depuis_run id l r Hv Hr) as [Hw Hid].
  assert (Hg : forall nom, dget champs nom = _) by (intros nom; by apply dget_champs_de_reprise; [|apply Ht]).
  assert (typee champs) as Htc by by apply (champs_de_reprise_typee id).
  destruct (nouveau_run_spec uuid_hex maintenant e champs s Htc) as [(x & _ & nom & Hin & Hno)|(run & s1 & E & H1 & A1 & Hval & Hu & Hcol)].
  { exfalso. apply Hno. apply dget_is_Some in Hin. rewrite Hg in Hin. repeat (case_decide; [subst; const_elem|]).
    destruct (dget remplacements nom) as [v|] eqn:Ev; [by apply Hk, dget_is_Some|]. case_decide; [by destruct Hin|].
    by eapply depuis_champs, dget_is_Some. }
  assert (ident run ∉ dkeys (ba_runs s)) as Hnew.
  { destruct Hu as (n & Hle & Hn).
    - rewrite Hg. cbn. assert (dget remplacements "identifiant" = None) as ->; [|done].
      apply dget_None. intros Hin. by destruct (Hk _ Hin).
    - unfold ident. rewrite Hn. by apply Hfresh. }
  assert (col (ligne_de run e) "parent" = PStr id) as Hp.
  { rewrite col_ligne_de by done. apply Hcol; [const_elem|]. by rewrite Hg, Hid. }
  destruct (accepte_requete (inserer (ident run) (ligne_de run e)) s1) as (s2 & E2 & H2 & _).
  { intros n Hn. apply Ha. congruence. }
  assert (inserer (ident run) (ligne_de run e) (ba_runs s1)
          = (Ok tt, ba_runs s ++ [(ident run, ligne_de run e)])) as Hins.
  { unfold inserer. rewrite H1, (proj2 (dmem_false _ _) Hnew), Hp, (proj2 (dmem_true _ _)) by (apply dget_is_Some; eauto). done. }
  rewrite Hins in E2, H2. exists run, s2. split; [|done]. unfold ouvrir. rewrite (bind_ok _ _ _ _ _ E). unfold ident in E2.
  by rewrite (bind_ok _ _ _ _ _ E2).
Qed.

(** ** The properties *)

(** C13: A closed run is closed for good.  Whatever calls are made of the
    ledger, in any order and whichever of its queries the database refuses, a
    row is never deleted; once its status is terminal no column of it changes
    any more; and even before, the columns that say where the run comes from
    (mission, parent, attempt, motive, process, date of creation) never do. *)
Theorem ledger_history avant suite id l :
  Forall appel_type avant -> Forall appel_type suite ->
  dget (ba_runs (executer avant empty_base)) id = Some l ->
  exists l', dget (ba_runs (executer (avant ++ suite) empty_base)) id = Some l'
    /\ (est_terminal l = true -> l' = l) /\ forall nom, nom ∈ ORIGINE -> col l' nom = col l nom.
Proof.
  intros Ha Hs Hl. rewrite executer_app. eapply transitions_suit; [|done].
  apply executer_transitions; [done|]. by apply executer_bien_forme.
Qed.

(** [lignee] ends, and answers the chain of the attempts.  On the table
    that any calls have left, for a run of the table, the loop stops within as
    many turns as there are rows and its answer, read backwards, starts with
    the run, goes from each run to its parent as the table has them, ends at a
    run without a parent (or its own parent), and meets no run twice. *)
Theorem lignee_exact appels id l :
  Forall appel_type appels -> let s := executer appels empty_base in
  accepte s -> dget (ba_runs s) id = Some l ->
  exists c s', lignee refuse id s = (Ok (rev c), s') /\ ba_runs s' = ba_runs s /\ ident <$> head c = Some id
    /\ remonte (ba_runs s) c /\ NoDup (map ident c).
Proof. intros Ha s Hacc Hl. apply (lignee_bien_forme id l); [by apply executer_bien_forme|done|done]. Qed.

(** C21: [reconcilier] loses exactly the runs of dead processes.  When the
    database answers, it returns every open run under exactly one of the three
    heads of its report, lost when its mark is that of a dead process, living
    when its process lives or is the current one, undecidable otherwise; it
    closes the lost ones with the cause and the reason, leaves every other row
    as it was, and a second call finds nothing to lose and changes nothing. *)
Theorem reconcilier_exact appels courante :
  Forall appel_type appels -> let s := executer appels empty_base in
  accepte s ->
  exists s', reconcilier maintenant refuse int_of float_of psutil courante s = (Ok (bilan_de courante (ba_runs s)), s')
    /\ dkeys (ba_runs s') = dkeys (ba_runs s)
    /\ (forall id l, dget (ba_runs s) id = Some l ->
          exists l', dget (ba_runs s') id = Some l' /\
            if decide (est_terminal l = false /\ vivant courante l = Some false) then perdu_de l l' else l' = l)
    /\ exists b s'', reconcilier maintenant refuse int_of float_of psutil courante s' = (Ok b, s'')
         /\ bi_perdus b = [] /\ forall id, dget (ba_runs s'') id = dget (ba_runs s') id.
Proof.
  intros Ha s Hacc. pose proof (executer_bien_forme appels Ha) as Hs. fold s in Hs.
  destruct (reconcilier_spec courante s Hs Hacc) as (s1 & E1 & Ha1 & Ht1). exists s1. split; [done|].
  assert (bien_forme (ba_runs s1)) as Hs1.
  { replace s1 with (reconcilier maintenant refuse int_of float_of psutil courante s).2 by by rewrite E1.
    eapply transitions_bien_forme; [by apply agit_reconcilier|done]. }
  destruct (reconcilier_spec courante s1 Hs1 Ha1) as (s2 & E2 & _ & Ht2).
  assert (tries courante (Some false) (ba_runs s1) = []) as Hnone by (by eapply traite_plus_de_perdus; [destruct Hs1|]).
  split; [apply Ht1|]. split.
  - intros id l Hl. destruct (proj2 Ht1 id l Hl) as (l' & Hl' & H'). exists l'. split; [done|].
    by rewrite (decide_ext _ _ _ _ (elem_ouverts_iff (ba_runs s) id l _ Hs Hl)) in H'.
  - eexists _, s2. split; [done|]. split; [done|]. intros id. destruct (dget (ba_runs s1) id) as [l|] eqn:Hl.
    + destruct (proj2 Ht2 id l Hl) as (l' & Hl' & H'). rewrite Hl'. f_equal. rewrite decide_False in H'; [done|].
      intros Hd. rewrite (elem_ouverts_iff _ _ _ _ Hs1 Hl) in Hd. destruct Hd as [Ho Hd].
      assert (id ∈ tries courante (Some false) (ba_runs s1)) as Hin; [|rewrite Hnone in Hin; by apply elem_of_nil in Hin].
      apply list_elem_of_fmap. exists (id, l). split; [done|]. apply list_elem_of_In, filter_In. cbn [snd]. rewrite Ho.
      split; [by apply list_elem_of_In, dget_Some_elem|]. by apply bool_decide_eq_true.
    + apply dget_None. rewrite (proj1 Ht2). by apply dget_None.
Qed.

(** A resumption is linked to the run it resumes.  Without a motive it
    raises [ValueError] and asks nothing of the database; with one, on a run of
    the table and when the database answers, the run it opens has that run as
    its parent, the next attempt number and the motive; nothing that was
    measured or concluded is inherited, every such field having its default
    unless it is replaced; every other field is the parent's, or its
    replacement; and the row of the parent is left as it was. *)
Theorem reprendre_exact appels e id l motif remplacements :
  Forall appel_type appels -> typee remplacements ->
  (forall nom, nom ∈ dkeys remplacements -> nom ∈ dkeys run_fields /\ nom <> "identifiant") ->
  let s := executer appels empty_base in
  accepte s -> dget (ba_runs s) id = Some l ->
  (forall n, (ba_uuids s <= n)%nat -> uuid_hex n ∉ dkeys (ba_runs s)) ->
  if decide (strip motif = "") then
    exists x, reprendre uuid_hex maintenant refuse e id motif remplacements s = (Err x, s)
      /\ exn_cls x = ValueError
  else
    exists run s', reprendre uuid_hex maintenant refuse e id motif remplacements s = (Ok run, s')
      /\ ba_runs s' = ba_runs s ++ [(ident run, ligne_de run e)]
      /\ col run "parent" = PStr id /\ col run "tentative" = PInt (tentative_de l + 1) /\ col run "motif_de_reprise" = PStr motif
      /\ forall nom, nom ∈ dkeys run_fields -> nom ∉ ["identifiant"; "cree_le"; "parent"; "tentative"; "motif_de_reprise"] ->
           col run nom = match dget remplacements nom with
                         | Some v => v
                         | None => if decide (nom ∈ JETABLES) then default PNone (default None (dget run_fields nom)) else col l nom
                         end.
Proof.
  intros Ha Ht Hk s Hacc Hl Hfresh. unfold reprendre. case_decide; [by eexists|].
  pose proof (executer_bien_forme appels Ha) as Hs. fold s in Hs.
  destruct (lire_accepte id l s Hs Hacc Hl) as (r & s1 & Hr & Hid & E & H1 & Ha1 & Hu1).
  rewrite (bind_ok _ _ _ _ _ E). rewrite <- H1 in Hs, Hl, Hfresh |- *. rewrite <- Hu1 in Hfresh. pose proof (bien_forme_ligne _ _ _ Hs Hl) as Hv.
  destruct (depuis_run id l r Hv Hr) as [Hw Hrid].
  destruct (ouvrir_reprise e id l r motif remplacements s1) as (run & s2 & E2 & H2 & Hcol); try done.
  assert (Hg : forall nom, dget (champs_de_reprise r motif remplacements) nom = _)
    by (intros nom; by apply dget_champs_de_reprise; [|apply Ht]).
  pose proof (tentative_lue l r Hr) as Htent.
  exists run, s2. split; [exact E2|]. split; [done|]. split_and!.
  - apply Hcol; [const_elem|]. by rewrite Hg, Hrid.
  - apply Hcol; [const_elem|]. by rewrite Hg, Htent.
  - apply Hcol; [const_elem|]. by rewrite Hg.
  - intros nom Hn Hno. apply Hcol; [done|].
    assert (nom <> "parent" /\ nom <> "tentative" /\ nom <> "motif_de_reprise") as (? & ? & ?)
      by (split_and!; intros ->; apply Hno; const_elem).
    rewrite Hg, !decide_False by done.
    destruct (dget remplacements nom) as [v|]; [done|]. case_decide as Hj.
    + apply dget_is_Some in Hn as [[v|] Hn]; rewrite Hn; [done|]. apply dget_run_fields_none in Hn as [-> | ->]; exfalso; apply Hno; const_elem.
    + by rewrite (dget_herite id l r nom).
Qed.

End histories.

(** ** Examples *)

Definition demo_uuid (n : nat) : string := "r" +:+ pretty n.
Definition demo_date (n : nat) : string := "t" +:+ pretty n.
Definition demo_int (s : string) : option Z := if decide (s = "1") then Some 1 else if decide (s = "2") then Some 2 else None.
Definition demo_float (s : string) : option Q := if decide (s = "0") then Some 0%Q else None.
Definition demo_psutil (pid : Z) : processus_vu := if decide (pid = 1) then Ne 0 else Absent.
Definition demo_refuse (n : nat) : option exn := None.

(** The process ["1:0"] opens a run, which fails, and resumes it; the process
    ["2:0"], which is dead, had opened another. *)
Definition demo_avant : list appel :=
  [Ouvrir "1:0" [("mission", PStr "m")]; Demarrer "r0"; Terminer "r0" Statut.ECHOUE (Some Cause.QUOTA) "429" None None None;
   Reprendre "1:0" "r0" "autre fournisseur" [("fournisseur", PStr "b")]; Ouvrir "2:0" [("mission", PStr "m")]].
Definition demo_suite : list appel :=
  [Terminer "r0" Statut.REUSSI None "" None None None; Constater "r1" [("modele", PStr "x")]; Reconcilier "3:0"].

Abbreviation demo_executer := (executer demo_uuid demo_date demo_refuse demo_int demo_float demo_psutil).
Definition demo_table : pydict Ligne := Eval vm_compute in ba_runs (demo_executer demo_avant empty_base).

Example demo_table_exact : ba_runs (demo_executer demo_avant empty_base) = demo_table.
Proof. vm_compute. reflexivity. Qed.

Example demo_reprise :
  (fun p => (p.1, texte_de (col p.2 "statut"), col p.2 "parent", col p.2 "tentative", col p.2 "fournisseur")) <$> demo_table
  = [("r0", "echoue", PNone, PInt 1, PStr ""); ("r1", "en_attente", PStr "r0", PInt 2, PStr "b");
     ("r2", "en_attente", PNone, PInt 1, PStr "")].
Proof. vm_compute. reflexivity. Qed.

Example demo_reconcilie :
  (fun p => (p.1, texte_de (col p.2 "statut"), col p.2 "cause", col p.2 "modele"))
    <$> ba_runs (demo_executer (demo_avant ++ demo_suite) empty_base)
  = [("r0", "echoue", PStr "quota", PStr ""); ("r1", "en_attente", PNone, PStr "x"); ("r2", "perdu", PStr "processus", PStr "")].
Proof. vm_compute. reflexivity. Qed.

(** [reconcilier] does raise: when the query that closes a lost run is refused,
    nothing catches it. *)
Example demo_reconcilier_leve :
  let s := demo_executer demo_avant empty_base in
  let refuse n := if decide (n = ba_appels s + 3)%nat then Some (integrity_error "locked") else None in
  (reconcilier demo_date refuse demo_int demo_float demo_psutil "3:0" s).1 = Err (integrity_error "locked").
Proof. vm_compute. reflexivity. Qed.

Lemma typee_mission m : typee [("mission", PStr m)].
Proof. split_and!; [apply NoDup_singleton|by intros v..]. Qed.

Lemma typee_fournisseur m : typee [("fournisseur", PStr m)].
Proof. split_and!; [apply NoDup_singleton|by intros v..]. Qed.

Lemma demo_typed : Forall appel_type demo_avant.
Proof.
  unfold demo_avant. repeat (apply Forall_cons_2; [exact I || apply typee_mission || apply typee_fournisseur|]). apply Forall_nil_2.
Qed.

Lemma demo_suite_typed : Forall appel_type demo_suite.
Proof. by repeat constructor. Qed.

Lemma demo_accepte s : accepte demo_refuse s.
Proof. done. Qed.

Lemma demo_row id : id ∈ ["r0"; "r1"; "r2"] ->
  dget (ba_runs (demo_executer demo_avant empty_base)) id = Some (default [] (dget demo_table id)).
Proof.
  intros H. rewrite demo_table_exact. repeat (apply elem_of_cons in H as [->|H]; [vm_compute; reflexivity|]).
  by apply elem_of_nil in H.
Qed.

Lemma demo_uuid_fresh n : (3 <= n)%nat -> demo_uuid n ∉ dkeys demo_table.
Proof.
  change (dkeys demo_table) with [demo_uuid 0; demo_uuid 1; demo_uuid 2]. unfold demo_uuid. intros Hn H.
  repeat (apply elem_of_cons in H as [H|H]; [apply (inj (String.append "r")), (inj pretty) in H; lia|]).
  by apply elem_of_nil in H.
Qed.

Lemma ledger_history_witness :
  exists l', dget (ba_runs (demo_executer (demo_avant ++ demo_suite) empty_base)) "r0" = Some l'
    /\ (est_terminal (default [] (dget demo_table "r0")) = true -> l' = default [] (dget demo_table "r0"))
    /\ forall nom, nom ∈ ORIGINE -> col l' nom = col (default [] (dget demo_table "r0")) nom.
Proof. exact (ledger_history _ _ _ _ _ _ _ _ _ _ demo_typed demo_suite_typed (demo_row "r0" ltac:(const_elem))). Defined.

Lemma lignee_exact_witness :
  let s := demo_executer demo_avant empty_base in
  exists c s', lignee demo_refuse "r1" s = (Ok (rev c), s') /\ ba_runs s' = ba_runs s /\ ident <$> head c = Some "r1"
    /\ remonte (ba_runs s) c /\ NoDup (map ident c).
Proof. exact (lignee_exact _ _ _ _ _ _ _ _ _ demo_typed (demo_accepte _) (demo_row "r1" ltac:(const_elem))). Defined.

Example demo_lignee :
  (let '(r, _) := lignee demo_refuse "r1" (demo_executer demo_avant empty_base) in
   match r with Ok c => map ident c | Err _ => [] end) = ["r0"; "r1"].
Proof. vm_compute. reflexivity. Qed.

Lemma reconcilier_exact_witness :
  let s := demo_executer demo_avant empty_base in
  exists s', reconcilier demo_date demo_refuse demo_int demo_float demo_psutil "3:0" s
             = (Ok (bilan_de demo_int demo_float demo_psutil "3:0" (ba_runs s)), s').
Proof.
  intros s. destruct (reconcilier_exact demo_uuid demo_date demo_refuse demo_int demo_float demo_psutil demo_avant "3:0"
    demo_typed (demo_accepte _)) as (s' & E & _). exists s'. exact E.
Defined.

Example demo_bilan :
  bilan_de demo_int demo_float demo_psutil "3:0" demo_table = mkBilan ["r2"] ["r1"] [].
Proof. vm_compute. reflexivity. Qed.

Lemma reprendre_exact_witness :
  let s := demo_executer demo_avant empty_base in
  exists run s', reprendre demo_uuid demo_date demo_refuse "1:0" "r1" "encore" [("fournisseur", PStr "c")] s = (Ok run, s')
    /\ col run "parent" = PStr "r1" /\ col run "tentative" = PInt 3.
Proof.
  intros s. assert (forall n, (ba_uuids s <= n)%nat -> demo_uuid n ∉ dkeys (ba_runs s)) as Hfresh.
  { intros n Hn. assert (ba_runs s = demo_table) as -> by exact demo_table_exact. apply demo_uuid_fresh.
    assert (ba_uuids s = 3%nat) as Hu by (vm_compute; reflexivity). lia. }
  destruct (reprendre_exact demo_uuid demo_date demo_refuse demo_int demo_float demo_psutil demo_avant "1:0" "r1"
    (default [] (dget demo_table "r1")) "encore" [("fournisseur", PStr "c")] demo_typed (typee_fournisseur "c")
    ltac:(intros nom Hn; apply list_elem_of_singleton in Hn as ->; split; [const_elem|done]) (demo_accepte _)
    (demo_row "r1" ltac:(const_elem)) Hfresh) as (run & s' & E & _ & Hp & Ht & _).
  exists run, s'. split; [exact E|]. split; [exact Hp|exact Ht].
Defined.
