(* ===== verification/FailureTaxonomy.v ===== *)
(** * Why a run failed ([backend/runs/taxonomie.py])

    A failure is put under a cause on evidence: what the runtime says of its
    answer, an HTTP code, or a pattern found in the message.  The patterns of the
    table are alternatives of literals, between word boundaries or not, so the
    search of Python is written out.  Texts are in UTF-8; what the Unicode
    database says of the characters beyond ASCII is a parameter. *)
From stdpp Require Import base strings list sets.
From Stdlib Require Import ZArith QArith Ascii Lia.
From S2P Require Import Prelude.
From S2P Require Import RunLedger.
#[local] Open Scope Z_scope.

(** ** Characters *)

(** The number of bytes of the character that [c] starts. *)
Definition taille (c : ascii) : nat :=
  let n := nat_of_ascii c in
  if (n <? 192)%nat then 1 else if (n <? 224)%nat then 2 else if (n <? 240)%nat then 3 else 4.

(** The characters of a text: [reste] bytes of the first are still to come. *)
Fixpoint decouper (reste : nat) (s : string) : list string :=
  match s with
  | EmptyString => []
  | String c s' =>
      match reste with
      | S (S n) => match decouper (S n) s' with
                   | x :: l => String c x :: l
                   | [] => [String c EmptyString]
                   end
      | S O => String c EmptyString :: decouper 0 s'
      | O => match taille c with
             | S (S n) => match decouper (S n) s' with
                          | x :: l => String c x :: l
                          | [] => [String c EmptyString]
                          end
             | _ => String c EmptyString :: decouper 0 s'
             end
      end
  end.

Definition caracteres (s : string) : list string := decouper 0 s.
Definition texte (l : list string) : string := String.concat "" l.

Definition en_ascii (c : string) : option ascii :=
  match c with String a EmptyString => if (nat_of_ascii a <? 128)%nat then Some a else None | _ => None end.

Definition mot_ascii (a : ascii) : bool :=
  let n := nat_of_ascii a in
  ((48 <=? n) && (n <=? 57) || (65 <=? n) && (n <=? 90) || (97 <=? n) && (n <=? 122) || (n =? 95))%nat.

(** ** Patterns *)

(** [re.compile(r"\b(a|b|...)\b", re.I)], or without the boundaries. *)
Record Motif := mkMotif { mo_borne : bool; mo_alternatives : list (list string) }.

Definition motif_de (borne : bool) (alternatives : list string) : Motif := mkMotif borne (map caracteres alternatives).

(** [_MOTIFS]: optional letters and groups are spelled out, in the order in
    which they are tried. *)
Definition MOTIFS : list (Motif * Cause.t * string) := [
  (motif_de false ["budget de mission atteint"], Cause.BUDGET, "budget de mission atteint");
  (motif_de false ["no vram admission"], Cause.RESSOURCE, "message d'admission VRAM");
  (motif_de true ["out of memory"; "oom"; "cuda out of memory"; "insufficient memory"], Cause.RESSOURCE, "message de mémoire");
  (motif_de true ["rate limit"; "too many requests"; "quota exceeded"; "insufficient_quota"; "insufficient quota"; "credit"],
    Cause.QUOTA, "message de quota");
  (motif_de true ["context length"; "maximum context"; "context window"; "token limit"; "prompt is too long";
                  "reduce the length"], Cause.CONTEXTE, "message de fenêtre de contexte");
  (motif_de true ["outside allowed_paths"; "permission denied"; "not authorised"; "not authorized"; "refusé"; "refuse";
                  "requires human validation"; "protected branch"], Cause.POLITIQUE, "message de refus de politique");
  (motif_de true ["canary"; "secret leak"; "fuite de secret"; "derive de workspace"; "dérive de workspace"], Cause.SECURITE,
    "message de sécurité");
  (motif_de false ["the local fallback also failed"], Cause.FOURNISSEUR, "cloud et repli local tous deux en échec");
  (motif_de true ["connection refused"; "connection error"; "connection reset"; "unavailable"; "unreachable";
                  "service unavailable"; "bad gateway"; "name or service not known"], Cause.FOURNISSEUR,
    "message d'indisponibilité du fournisseur");
  (motif_de true ["timed out"; "timedout"; "time out"; "timeout"], Cause.FOURNISSEUR, "délai de runtime dépassé");
  (motif_de true ["returned an empty completion"; "empty response"], Cause.MODELE, "réponse vide");
  (motif_de true ["no such tool"; "unknown tool"; "tool call failed"; "could not start the executor event loop"], Cause.OUTIL,
    "message d'outil")].

Definition CODES : list (Z * (Cause.t * string)) := [
  (400, (Cause.OUTIL, "HTTP 400 — la requête est malformée, pas le modèle"));
  (401, (Cause.POLITIQUE, "HTTP 401"));
  (403, (Cause.POLITIQUE, "HTTP 403"));
  (404, (Cause.OUTIL, "HTTP 404"));
  (408, (Cause.FOURNISSEUR, "HTTP 408"));
  (413, (Cause.CONTEXTE, "HTTP 413 — charge trop grosse"));
  (429, (Cause.QUOTA, "HTTP 429"));
  (500, (Cause.FOURNISSEUR, "HTTP 500"));
  (502, (Cause.FOURNISSEUR, "HTTP 502"));
  (503, (Cause.FOURNISSEUR, "HTTP 503"));
  (504, (Cause.FOURNISSEUR, "HTTP 504"))].

Fixpoint code_de (n : Z) (l : list (Z * (Cause.t * string))) : option (Cause.t * string) :=
  match l with
  | [] => None
  | (k, x) :: l' => if decide (k = n) then Some x else code_de n l'
  end.

Record Classement := mkClassement { cl_cause : Cause.t; cl_indice : string }.

Definition classe (c : Classement) : bool := negb (bool_decide (cl_cause c = Cause.INCONNUE)).

Section recherche.
(** Of characters beyond ASCII: is one a word character, do two match when case
    is ignored. *)
Variable mot_hors_ascii : string -> bool.
Variable equivaut : string -> string -> bool.

Definition mot (c : string) : bool := match en_ascii c with Some a => mot_ascii a | None => mot_hors_ascii c end.

(** [\b] between two characters, of which one may be missing. *)
Definition frontiere (avant apres : option string) : bool :=
  xorb (from_option mot false avant) (from_option mot false apres).

(** The character [c] of the text against the character [p] of a pattern, with
    [re.I]. *)
Definition meme (c p : string) : bool :=
  match en_ascii c, en_ascii p with
  | Some a, Some b => bool_decide (lower_ascii a = lower_ascii b)
  | _, _ => bool_decide (c = p) || equivaut c p
  end.

(** What a literal takes at the start of a text, and the rest. *)
Fixpoint prendre (lit txt : list string) : option (list string * list string) :=
  match lit, txt with
  | [], _ => Some ([], txt)
  | p :: lit', c :: txt' =>
      if meme c p then match prendre lit' txt' with Some (g, r) => Some (c :: g, r) | None => None end else None
  | _ :: _, [] => None
  end.

(** One alternative tried at a place. *)
Definition essayer (m : Motif) (avant : option string) (txt lit : list string) : option (list string) :=
  match prendre lit txt with
  | Some (g, r) =>
      if negb (mo_borne m) || frontiere avant (head txt) && frontiere (last (option_list avant ++ g)) (head r) then Some g else None
  | None => None
  end.

Fixpoint premier_qui {A B} (f : A -> option B) (l : list A) : option B :=
  match l with
  | [] => None
  | x :: l' => match f x with Some y => Some y | None => premier_qui f l' end
  end.

(** [motif.search(texte)]: the leftmost place, and there the first alternative. *)
Fixpoint chercher (m : Motif) (avant : option string) (txt : list string) : option (list string) :=
  match premier_qui (essayer m avant txt) (mo_alternatives m) with
  | Some g => Some g
  | None => match txt with
            | [] => None
            | c :: txt' => chercher m (Some c) txt'
            end
  end.

(** ** Classification *)

(** [" ".join(filter(None, [message or "", str(exception or "")]))] *)
Definition joindre (message : string) (exception : option string) : string :=
  String.concat " " (List.filter (fun s => negb (bool_decide (s = ""))) [message; default "" exception]).

(** [classer] *)
Definition classer (message : string) (statut_http : option Z) (done_reason : option string) (exception : option string)
    : Classement :=
  if decide (lower (strip (default "" done_reason)) = "length") then
    mkClassement Cause.CONTEXTE "done_reason=length — la fenêtre s'est fermée"
  else
    match (n ← statut_http; code_de n CODES) with
    | Some (cause, indice) => mkClassement cause indice
    | None =>
        let t := joindre message exception in
        if decide (strip t = "") then mkClassement Cause.INCONNUE ""
        else
          match premier_qui (fun '(m, cause, indice) =>
                           trouve ← chercher m None (caracteres t);
                           Some (mkClassement cause (indice +:+ " : « " +:+ texte trouve +:+ " »"))) MOTIFS with
          | Some c => c
          | None => mkClassement Cause.INCONNUE ""
          end
    end.
End recherche.

(** ** Remedies *)

Record Remede := mkRemede {
  re_reessayer : bool;
  re_explication : string;
  re_changer_de_modele : bool;
  re_reduire_le_modele : bool;
  re_elargir_le_contexte : bool;
  re_changer_de_fournisseur : bool;
  re_attendre_s : Q
}.

(** [_REMEDES], and the one of [INCONNUE] for a cause it does not hold. *)
Definition REMEDES : list (Cause.t * Remede) := [
  (Cause.RESSOURCE, mkRemede true "la VRAM manque : un autre modèle de même taille échouera pareil, il en faut un plus petit — ou laisser un modèle résident se libérer" false true false false 15);
  (Cause.CONTEXTE, mkRemede true "la fenêtre s'est fermée sur le modèle : changer de modèle ne répare rien, il faut plus de contexte servi ou moins de prompt" false false true false 0);
  (Cause.QUOTA, mkRemede true "le quota est dépassé : réessayer tout de suite chez le même fournisseur échoue par construction" false false false true 60);
  (Cause.FOURNISSEUR, mkRemede true "le service n'a pas répondu ; le modèle n'est pas en cause" false false false true 10);
  (Cause.MODELE, mkRemede true "le modèle a produit une sortie inutilisable — le seul cas où changer de modèle est le bon remède" true false false false 0);
  (Cause.OUTIL, mkRemede true "un outil ou une requête est malformé : c'est un défaut d'ici, pas du modèle, et il ne se répare pas en réessayant plus fort" false false false false 0);
  (Cause.SEMANTIQUE, mkRemede true "le travail est faux : la reprise doit porter les preuves, pas relancer le même prompt" false false false false 0);
  (Cause.VERIFICATION, mkRemede true "la vérification a démenti le résultat annoncé" false false false false 0);
  (Cause.POLITIQUE, mkRemede false "l'action a été refusée ou attend un accord humain : la reprise viendra de cet accord, pas de la boucle — qui ne ferait qu'inonder la file" false false false false 0);
  (Cause.SECURITE, mkRemede false "un contrôle de sécurité s'est déclenché : réessayer reviendrait à contourner ce qui vient de protéger" false false false false 0);
  (Cause.BUDGET, mkRemede false "le budget de temps de la mission est atteint : reprendre le consommerait immédiatement une seconde fois. La suite vient d'un budget révisé par l'opérateur, pas de la boucle" false false false false 0);
  (Cause.INCONNUE, mkRemede true "aucun indice ne dit pourquoi : on reprend une fois, sans rien changer qu'on ne saurait justifier" false false false false 0)].

Fixpoint remede_de (c : Cause.t) (l : list (Cause.t * Remede)) : option Remede :=
  match l with
  | [] => None
  | (k, r) :: l' => if decide (k = c) then Some r else remede_de c l'
  end.

(** The remedy of [INCONNUE], an entry of the table. *)
Definition remede_inconnue : Remede :=
  mkRemede true "aucun indice ne dit pourquoi : on reprend une fois, sans rien changer qu'on ne saurait justifier" false false false
    false 0.

(** [remede] *)
Definition remede (c : Cause.t) : Remede := default remede_inconnue (remede_de c REMEDES).

(** [depuis_l_erreur] *)
Definition depuis_l_erreur (mot_hors_ascii : string -> bool) (equivaut : string -> string -> bool) (message : string)
    (statut_http : option Z) (done_reason exception : option string) : Cause.t * Remede * string :=
  let c := classer mot_hors_ascii equivaut message statut_http done_reason exception in
  (cl_cause c, remede (cl_cause c), cl_indice c).

(** ** What the search finds *)

Section proprietes.
Context (mot_hors_ascii : string -> bool) (equivaut : string -> string -> bool).

(** [g] stands in [txt] after [avant], and the pattern matches it there. *)
Definition occurrence (m : Motif) (txt avant g : list string) : Prop :=
  exists lit apres, lit ∈ mo_alternatives m /\ txt = avant ++ g ++ apres
    /\ Forall2 (fun c p => meme equivaut c p = true) g lit
    /\ (mo_borne m = true ->
        frontiere mot_hors_ascii (last avant) (head (g ++ apres)) = true
        /\ frontiere mot_hors_ascii (last (avant ++ g)) (head apres) = true).

Definition absent (m : Motif) (txt : list string) : Prop := forall avant g, ~ occurrence m txt avant g.

Lemma prendre_spec lit txt g r :
  prendre equivaut lit txt = Some (g, r) <-> txt = g ++ r /\ Forall2 (fun c p => meme equivaut c p = true) g lit.
Proof.
  revert txt g r. induction lit as [|p lit IH]; intros txt g r.
  - cbn. destruct txt; (split; [by intros [= <- <-]|]); intros [H0 H]; inversion H; subst; cbn in H0; congruence.
  - destruct txt as [|c txt]; cbn [prendre].
    { split; [done|]. intros [H1 H2]. destruct g; [inversion H2|done]. }
    assert (Hinv : c :: txt = g ++ r /\ Forall2 (fun c p => meme equivaut c p = true) g (p :: lit) <->
      exists g', g = c :: g' /\ meme equivaut c p = true /\ prendre equivaut lit txt = Some (g', r)).
    { split.
      - intros [H1 H2]. apply Forall2_cons_inv_r in H2 as (c' & g' & Hm & Hf & ->). injection H1 as <- H1.
        exists g'. split_and!; [done|done|]. by apply IH.
      - intros (g' & -> & Hm & H). apply IH in H as [-> Hf]. split; [done|]. by constructor. }
    rewrite Hinv. destruct (meme equivaut c p); [|split; [done|by intros (? & _ & ? & _)]].
    destruct (prendre equivaut lit txt) as [[g' r']|]; split.
    + intros [= <- <-]. by exists g'.
    + by intros (? & -> & _ & [= <- <-]).
    + done.
    + by intros (? & _ & _ & ?).
Qed.

Lemma essayer_spec m avant txt lit g : lit ∈ mo_alternatives m ->
  essayer mot_hors_ascii equivaut m (last avant) txt lit = Some g -> occurrence m (avant ++ txt) avant g.
Proof.
  intros Hl. unfold essayer. destruct (prendre equivaut lit txt) as [[g' r]|] eqn:E; [|done].
  apply prendre_spec in E as [-> Hf]. destruct (negb (mo_borne m) || _) eqn:Eb; [|done]. intros [= <-].
  exists lit, r. split_and!; [done|done|done|]. intros Hb. rewrite Hb in Eb. apply andb_true_iff in Eb as [H1 H2].
  split; [done|]. replace (last (avant ++ g')) with (last (option_list (last avant) ++ g')); [done|].
  rewrite !last_app. by destruct (last g'), (last avant).
Qed.

Lemma essayer_complete m avant txt g lit apres : lit ∈ mo_alternatives m -> txt = g ++ apres ->
  Forall2 (fun c p => meme equivaut c p = true) g lit ->
  (mo_borne m = true -> frontiere mot_hors_ascii (last avant) (head (g ++ apres)) = true
                        /\ frontiere mot_hors_ascii (last (avant ++ g)) (head apres) = true) ->
  essayer mot_hors_ascii equivaut m (last avant) txt lit = Some g.
Proof.
  intros Hl -> Hf Hb. unfold essayer. rewrite (proj2 (prendre_spec lit (g ++ apres) g apres)) by done.
  replace (last (option_list (last avant) ++ g)) with (last (avant ++ g))
    by (rewrite !last_app; by destruct (last g), (last avant)).
  destruct (mo_borne m); [|done]. destruct Hb as [-> ->]; done.
Qed.

Lemma premier_some {A B} (f : A -> option B) l y : premier_qui f l = Some y ->
  exists k x, l !! k = Some x /\ f x = Some y /\ forall j z, (j < k)%nat -> l !! j = Some z -> f z = None.
Proof.
  induction l as [|x l IH]; [done|]. cbn. destruct (f x) as [y'|] eqn:E.
  - intros [= ->]. exists 0%nat, x. split_and!; [done|done|]. intros j z Hj. lia.
  - intros (k & z & Hk & Hz & Hn)%IH. exists (S k), z. split_and!; [done|done|]. intros [|j] w Hj Hw; [by injection Hw as <-|].
    apply (Hn j); [lia|done].
Qed.

Lemma premier_none {A B} (f : A -> option B) l : premier_qui f l = None <-> forall x, x ∈ l -> f x = None.
Proof.
  induction l as [|x l IH]; cbn; [split; [by intros _ x ?%elem_of_nil|done]|]. destruct (f x) eqn:E.
  - split; [done|]. intros H. rewrite H in E; [done|]. set_solver.
  - rewrite IH. set_solver.
Qed.

(** The search from a place of the text. *)
Lemma chercher_from m avant txt :
  match chercher mot_hors_ascii equivaut m (last avant) txt with
  | Some g => exists p, occurrence m (avant ++ txt) p g /\ prefix avant p
                /\ forall p' g', occurrence m (avant ++ txt) p' g' -> (length avant <= length p')%nat -> (length p <= length p')%nat
  | None => forall p g, occurrence m (avant ++ txt) p g -> (length p < length avant)%nat
  end.
Proof.
  revert avant. induction txt as [|c txt IH]; intros avant.
  all: cbn [chercher]; destruct (premier_qui _ (mo_alternatives m)) as [g|] eqn:E.
  1, 3: apply premier_some in E as (k & lit & Hk & He & _); exists avant; split_and!; [|done|done];
    eapply essayer_spec; [by eapply list_elem_of_lookup_2|done].
  all: rewrite premier_none in E.
  all: assert (Hnone : forall p g, occurrence m (avant ++ _) p g -> length p <> length avant)
    by (intros p g (lit & apres & Hl & Ht & Hf & Hb) Hlen; apply app_inj_1 in Ht as [<- Ht]; [|done];
        pose proof (E lit Hl) as E'; erewrite essayer_complete in E'; [discriminate E'|exact Hl|exact Ht|exact Hf|];
        by rewrite ?Ht).
  - intros p g Ho. pose proof (Hnone p g Ho). destruct Ho as (lit & apres & _ & Ht & _).
    apply (f_equal length) in Ht. rewrite !length_app in Ht. cbn in Ht. lia.
  - specialize (IH (avant ++ [c])). rewrite last_snoc, <- app_assoc in IH. cbn [app] in IH.
    destruct (chercher _ _ m (Some c) txt) as [g|].
    + destruct IH as (p & Ho & Hp & Hm). exists p. split; [done|]. split; [by eapply prefix_app_l|].
      intros p' g' Ho' Hle. pose proof (Hnone p' g' Ho'). apply (Hm p' g'); [done|]. rewrite length_app. cbn. lia.
    + intros p g Ho. pose proof (Hnone p g Ho). specialize (IH p g Ho). rewrite length_app in IH. cbn in IH. lia.
Qed.

Lemma chercher_some m txt g : chercher mot_hors_ascii equivaut m None txt = Some g ->
  exists p, occurrence m txt p g /\ forall p' g', occurrence m txt p' g' -> (length p <= length p')%nat.
Proof.
  intros E. pose proof (chercher_from m [] txt) as H. cbn [last app] in H. rewrite E in H.
  destruct H as (p & Ho & _ & Hm). exists p. split; [done|]. intros p' g' H. apply (Hm p' g' H). cbn. lia.
Qed.

Lemma chercher_none m txt : chercher mot_hors_ascii equivaut m None txt = None <-> absent m txt.
Proof.
  pose proof (chercher_from m [] txt) as H. cbn [last app] in H. split.
  - intros E p g Ho. rewrite E in H. specialize (H p g Ho). cbn in H. lia.
  - intros Ha. destruct (chercher _ _ m None txt) as [g|]; [|done]. destruct H as (p & Ho & _). by destruct (Ha p g).
Qed.

(** What may be said of a failure, and on what evidence. *)
Inductive preuve (message : string) (statut_http : option Z) (done_reason exception : option string) : Classement -> Prop :=
  | par_le_runtime :
      lower (strip (default "" done_reason)) = "length" ->
      preuve message statut_http done_reason exception
        (mkClassement Cause.CONTEXTE "done_reason=length — la fenêtre s'est fermée")
  | par_le_code n cause indice :
      lower (strip (default "" done_reason)) <> "length" -> statut_http = Some n -> code_de n CODES = Some (cause, indice) ->
      preuve message statut_http done_reason exception (mkClassement cause indice)
  | par_un_motif k m cause indice avant trouve :
      lower (strip (default "" done_reason)) <> "length" -> (n ← statut_http; code_de n CODES) = None ->
      strip (joindre message exception) <> "" ->
      let txt := caracteres (joindre message exception) in
      MOTIFS !! k = Some (m, cause, indice) -> occurrence m txt avant trouve ->
      (forall avant' g', occurrence m txt avant' g' -> (length avant <= length avant')%nat) ->
      (forall j m' c' i', (j < k)%nat -> MOTIFS !! j = Some (m', c', i') -> absent m' txt) ->
      preuve message statut_http done_reason exception (mkClassement cause (indice +:+ " : « " +:+ texte trouve +:+ " »"))
  | sans_indice :
      lower (strip (default "" done_reason)) <> "length" -> (n ← statut_http; code_de n CODES) = None ->
      strip (joindre message exception) = ""
      \/ (forall m c i, (m, c, i) ∈ MOTIFS -> absent m (caracteres (joindre message exception))) ->
      preuve message statut_http done_reason exception (mkClassement Cause.INCONNUE "").

Definition cherche_motif (txt : list string) (x : Motif * Cause.t * string) : option Classement :=
  let '(m, cause, indice) := x in
  trouve ← chercher mot_hors_ascii equivaut m None txt;
  Some (mkClassement cause (indice +:+ " : « " +:+ texte trouve +:+ " »")).

Lemma cherche_motif_none txt m c i : cherche_motif txt (m, c, i) = None <-> absent m txt.
Proof. rewrite <- chercher_none. unfold cherche_motif. by destruct (chercher _ _ m None txt). Qed.

Lemma classer_preuve message statut_http done_reason exception :
  preuve message statut_http done_reason exception
    (classer mot_hors_ascii equivaut message statut_http done_reason exception).
Proof.
  unfold classer. case_decide as Hd; [by apply par_le_runtime|].
  destruct (n ← statut_http; code_de n CODES) as [[cause indice]|] eqn:Hc.
  { apply bind_Some in Hc as (n & -> & Hc). by eapply par_le_code. }
  case_decide as Ht; [apply sans_indice; auto|].
  change (fun '(m, cause, indice) => _) with (cherche_motif (caracteres (joindre message exception))).
  destruct (premier_qui _ MOTIFS) as [c|] eqn:E.
  - apply premier_some in E as (k & [[m cause] indice] & Hk & Hf & Hn). unfold cherche_motif in Hf.
    apply bind_Some in Hf as (g & Hg & [= <-]). destruct (chercher_some _ _ _ Hg) as (p & Ho & Hm).
    eapply par_un_motif; try done. intros j m' c' i' Hj Hm'. by apply (cherche_motif_none _ m' c' i'), (Hn j).
  - apply sans_indice; [done..|]. right. intros m c i Hin. apply (cherche_motif_none _ m c i).
    by apply (proj1 (premier_none _ _) E).
Qed.

(** No evidence of the tables speaks for [INCONNUE], and none is empty. *)
Lemma code_connu n cause indice : code_de n CODES = Some (cause, indice) -> cause <> Cause.INCONNUE /\ indice <> "".
Proof.
  unfold CODES. intros H. repeat (cbn [code_de] in H; destruct (decide (_ = n)); [injection H as <- <-; by split|]). done.
Qed.

Lemma motif_connu m cause indice : (m, cause, indice) ∈ MOTIFS -> cause <> Cause.INCONNUE.
Proof.
  intros H. unfold MOTIFS in H. repeat (apply elem_of_cons in H as [H|H]; [injection H as _ -> _; done|]).
  by apply elem_of_nil in H.
Qed.

(** A failure is classified on evidence, and on the strongest there is: the
    runtime's own word that its window closed, else the HTTP code if the table
    holds it, else the leftmost place where the first pattern of the table that
    occurs in the message does; when none of these speaks the cause is
    [INCONNUE]; and a known cause always comes with its evidence. *)
Theorem classer_exact message statut_http done_reason exception :
  let c := classer mot_hors_ascii equivaut message statut_http done_reason exception in
  preuve message statut_http done_reason exception c /\ (classe c = true <-> cl_indice c <> "").
Proof.
  intros c. pose proof (classer_preuve message statut_http done_reason exception) as H. fold c in H. split; [done|].
  unfold classe. rewrite negb_true_iff, bool_decide_eq_false.
  destruct H as [|n cause indice _ _ Hc|k m cause indice avant trouve _ _ _ txt Hk|]; cbn.
  - done.
  - by pose proof (code_connu _ _ _ Hc) as [? ?].
  - apply list_elem_of_lookup_2, motif_connu in Hk. split; [intros _|done]. intros Hs. apply (f_equal String.length) in Hs.
    rewrite !string_length_app in Hs. cbn in Hs. lia.
  - done.
Qed.

(** [search] finds a pattern exactly when it occurs.  The text matched is
    the one at the leftmost occurrence of the pattern, case ignored, between
    word boundaries when the pattern asks for them; nothing is found only when
    no alternative of the pattern stands anywhere in the text. *)
Theorem chercher_exact m txt :
  match chercher mot_hors_ascii equivaut m None txt with
  | Some g => exists p, occurrence m txt p g /\ forall p' g', occurrence m txt p' g' -> (length p <= length p')%nat
  | None => absent m txt
  end.
Proof.
  destruct (chercher _ _ m None txt) eqn:E; [by apply chercher_some|by apply chercher_none].
Qed.
End proprietes.

(** ** Remedies *)

(** What a remedy asks depends on the cause alone: nothing is retried after
    a refusal, a security stop or a spent budget; another model is asked of the
    model's own failures only, a smaller one of missing memory, more context of
    a closed window, another provider (and a delay) of a quota or of a provider
    that does not answer; the cause [PROCESSUS], which the table does not hold,
    is treated as an unknown one. *)
Theorem remede_exact c :
  let r := remede c in
  (re_reessayer r = false <-> c ∈ [Cause.POLITIQUE; Cause.SECURITE; Cause.BUDGET])
  /\ (re_changer_de_modele r = true <-> c = Cause.MODELE)
  /\ (re_reduire_le_modele r = true <-> c = Cause.RESSOURCE)
  /\ (re_elargir_le_contexte r = true <-> c = Cause.CONTEXTE)
  /\ (re_changer_de_fournisseur r = true <-> c ∈ [Cause.QUOTA; Cause.FOURNISSEUR])
  /\ (Qle_bool (re_attendre_s r) 0 = false <-> c ∈ [Cause.RESSOURCE; Cause.QUOTA; Cause.FOURNISSEUR])
  /\ remede Cause.PROCESSUS = remede Cause.INCONNUE.
Proof.
  destruct c; split_and!; try reflexivity; split; intros H; solve [const_elem | const_absurd H].
Qed.

(** ** Examples *)

Abbreviation demo_classer message := (classer (fun _ => true) (fun _ _ => false) message None None None).

Example demo_quota : demo_classer "Erreur : Rate Limit exceeded" = mkClassement Cause.QUOTA "message de quota : « Rate Limit »".
Proof. vm_compute. reflexivity. Qed.

(** A word boundary is asked for: a zoom is no [oom]. *)
Example demo_zoom : demo_classer "zoom failed" = mkClassement Cause.INCONNUE "".
Proof. vm_compute. reflexivity. Qed.

(** The first pattern of the table decides, not the first in the text. *)
Example demo_ordre : cl_cause (demo_classer "timed out: quota exceeded") = Cause.QUOTA.
Proof. vm_compute. reflexivity. Qed.

Example demo_accent : demo_classer "accès refusé" = mkClassement Cause.POLITIQUE "message de refus de politique : « refusé »".
Proof. vm_compute. reflexivity. Qed.
