(* ===== verification/RunUsage.v ===== *)
(** * What a run cost the machine ([backend/runs/consommation.py])

    Readings taken of the resource manager while a run lasts, what they say of
    it, and what the run keeps of those of its tasks.  The manager is that of
    [Resources]; what is kept is written by [mesurer] of [RunLedger]. *)
From stdpp Require Import base gmap strings list sets sorting.
From Stdlib Require Import ZArith QArith Qround Lia.
From S2P Require Import Prelude.
From S2P Require Import RetryPolicy.
From S2P Require Import Resources.
From S2P Require Import RunLedger.
#[local] Open Scope Z_scope.

(** ** Readings *)

Record ObservationPhysique := mkObservation {
  ob_reservee : option Z;
  ob_debut : option Z;
  ob_pic : option Z;
  ob_autres : option Z
}.

Definition nouvelle_observation : ObservationPhysique := mkObservation None None None None.

(** [exclusif] *)
Definition exclusif (o : ObservationPhysique) : option bool := (fun n => n =? 0) <$> ob_autres o.

Section relever.
Context (gpu : nat -> GPUInfo) {P : Type}.

(** What a reading makes of the card. *)
Definition noter_la_carte (g : GPUInfo) (ligne_de_base : bool) (o : ObservationPhysique) : ObservationPhysique :=
  if gi_available g && gi_measured g then
    mkObservation (ob_reservee o)
      (if ligne_de_base && bool_decide (ob_debut o = None) then Some (gi_used g) else ob_debut o)
      (match ob_pic o with
       | None => Some (gi_used g)
       | Some p => Some (if p <? gi_used g then gi_used g else p)
       end)
      (ob_autres o)
  else o.

(** [sum(1 for a in actives if a.allocation_id != notre_allocation)] *)
Definition autres_que (notre : option string) (l : list ResourceAllocation) : Z :=
  Z.of_nat (length (List.filter (fun a => negb (bool_decide (Some (al_id a) = notre))) l)).

Definition noter_les_autres (autres : Z) (o : ObservationPhysique) : ObservationPhysique :=
  mkObservation (ob_reservee o) (ob_debut o) (ob_pic o) (Some (Z.max (default 0 (ob_autres o)) autres)).

(** [_relever] *)
Definition relever_ (notre : option string) (ligne_de_base : bool) (o : ObservationPhysique)
    : M (ResourceManager P) ObservationPhysique :=
  g <- get_gpu_info gpu ;;
  m <- get ;;
  ret (noter_les_autres (autres_que notre (get_current_allocations m)) (noter_la_carte g ligne_de_base o)).

(** [relever]: of the same observation when the manager cannot be read. *)
Definition relever (notre : option string) (ligne_de_base : bool) (o : ObservationPhysique)
    : M (ResourceManager P) ObservationPhysique :=
  catch (relever_ notre ligne_de_base o) (fun _ => true) (fun _ => ret o).
End relever.

(** [noter_la_reservation] *)
Definition noter_la_reservation (octets : option Z) (o : ObservationPhysique) : ObservationPhysique :=
  match octets with
  | Some n => if 0 <? n then mkObservation (Some n) (ob_debut o) (ob_pic o) (ob_autres o) else o
  | None => o
  end.

(** [to_dict] *)
Definition observation_to_dict (o : ObservationPhysique) : pydict pyval :=
  optionnel "vram_reservee_octets" PInt (ob_reservee o) ++ optionnel "vram_machine_debut_octets" PInt (ob_debut o)
  ++ optionnel "vram_machine_pic_octets" PInt (ob_pic o) ++ optionnel "exclusif" PBool (exclusif o).

(** ** What a run keeps of its tasks *)

Section agreger.
(** [int(s)] of a text. *)
Variable int_of : string -> option Z.

(** [int(x)] *)
Definition py_int (v : pyval) : res Z :=
  match v with
  | PInt n => Ok n
  | PBool b => Ok (if b then 1 else 0)
  | PFloat q => Ok (if Qle_bool 0 q then Qfloor q else Qceiling q)
  | PStr s => match int_of s with
              | Some n => Ok n
              | None => Err (Exn ValueError [Msg "invalid literal for int() with base 10: {!r}" [s]])
              end
  | PNone | PList _ | PDict _ => Err (Exn TypeError [Msg "int() argument must be a string, a bytes-like object or a real number" []])
  end.

(** [valeurs(cle)] *)
Definition valeurs (cle : string) (observations : list pyval) : list pyval :=
  omap (fun o => match o with
                 | PDict d => match dget d cle with Some PNone | None => None | Some v => Some v end
                 | _ => None
                 end) observations.

(** [max] and [min] of a list that is not empty. *)
Definition reduire (f : Z -> Z -> Z) (l : list Z) : Z := match l with [] => 0 | x :: l' => fold_left f l' x end.

(** The key, when some task has a value for it. *)
Definition agreger_entiers (cle : string) (f : Z -> Z -> Z) (observations : list pyval) : res (pydict pyval) :=
  match valeurs cle observations with
  | [] => Ok []
  | v => ns <-? res_map py_int v ;; Ok [(cle, PInt (reduire f ns))]
  end.

(** [agreger] *)
Definition agreger (observations : list pyval) : res (pydict pyval) :=
  a <-? agreger_entiers "vram_reservee_octets" Z.max observations ;;
  b <-? agreger_entiers "vram_machine_debut_octets" Z.min observations ;;
  c <-? agreger_entiers "vram_machine_pic_octets" Z.max observations ;;
  let d := match valeurs "exclusif" observations with
           | [] => []
           | v => [("exclusif", PBool (forallb truthy v))]
           end in
  Ok (a ++ b ++ c ++ d).
End agreger.

(** ** Sequences of readings *)

(** One reading: our allocation, whether it is a base line, the card and the
    allocations then. *)
Record Point := mkPoint { pt_notre : option string; pt_base : bool; pt_carte : GPUInfo; pt_actives : list ResourceAllocation }.

Definition point (o : ObservationPhysique) (p : Point) : ObservationPhysique :=
  noter_les_autres (autres_que (pt_notre p) (pt_actives p)) (noter_la_carte (pt_carte p) (pt_base p) o).

Definition mesure (p : Point) : bool := gi_available (pt_carte p) && gi_measured (pt_carte p).

(** What the card was seen to hold. *)
Definition mesures (l : list Point) : list Z := map (fun p => gi_used (pt_carte p)) (List.filter mesure l).

Definition seul (p : Point) : Prop := forall a, a ∈ pt_actives p -> Some (al_id a) = pt_notre p.

Lemma relever_point gpu {P} notre base o (m : ResourceManager P) :
  (relever gpu notre base o m).1
  = Ok (point o (mkPoint notre base (gpu (rm_polls m)) (get_current_allocations m))).
Proof. done. Qed.

Lemma autres_que_0 notre l : autres_que notre l = 0 <-> forall a, a ∈ l -> Some (al_id a) = notre.
Proof.
  unfold autres_que. rewrite (Nat2Z.inj_iff _ 0), length_zero_iff_nil. split.
  - intros Hn a Ha. apply dec_stable. intros Hne. assert (a ∈ List.filter (fun a => negb (bool_decide (Some (al_id a) = notre))) l) as H.
    + apply list_elem_of_In, filter_In. split; [by apply list_elem_of_In|]. by rewrite bool_decide_eq_false_2.
    + rewrite Hn in H. by apply elem_of_nil in H.
  - intros H. apply list_filter_nil. intros a Ha. by rewrite bool_decide_eq_true_2 by by apply H.
Qed.

Definition est_max (l : list Z) (x : Z) : Prop := x ∈ l /\ forall y, y ∈ l -> y <= x.
Definition est_min (l : list Z) (x : Z) : Prop := x ∈ l /\ forall y, y ∈ l -> x <= y.

(** What the observation says after the readings [l]. *)
Definition decrit (l : list Point) (o : ObservationPhysique) : Prop :=
  match ob_pic o with Some x => est_max (mesures l) x | None => mesures l = [] end
  /\ ob_debut o = (fun p => gi_used (pt_carte p)) <$> head (List.filter (fun p => mesure p && pt_base p) l)
  /\ match exclusif o with Some b => l <> [] /\ (b = true <-> Forall seul l) | None => l = [] end
  /\ match ob_autres o with Some n => 0 <= n | None => True end.

Lemma mesures_snoc l p : mesures (l ++ [p]) = mesures l ++ (if mesure p then [gi_used (pt_carte p)] else []).
Proof. unfold mesures. rewrite List.filter_app, map_app. cbn. by destruct (mesure p). Qed.

Lemma decrit_snoc l o p : decrit l o -> decrit (l ++ [p]) (point o p).
Proof.
  intros (Hp & Hd & He & Ha). unfold point, noter_la_carte. fold (mesure p). split_and!.
  - rewrite mesures_snoc. destruct (mesure p); cbn; [|by rewrite app_nil_r].
    destruct (ob_pic o) as [x|]; [|rewrite Hp; cbn; split; [by left|intros y ->%list_elem_of_singleton; lia]].
    destruct Hp as [Hin Hmax]. destruct (Z.ltb_spec x (gi_used (pt_carte p))); (split; [set_solver|]).
    + intros y [Hy| ->%list_elem_of_singleton]%elem_of_app; [specialize (Hmax y Hy)|]; lia.
    + intros y [Hy| ->%list_elem_of_singleton]%elem_of_app; [by apply Hmax|lia].
  - rewrite List.filter_app. cbn. destruct (mesure p); cbn; [|by rewrite app_nil_r]. rewrite Hd.
    destruct (List.filter _ l) as [|q l']; cbn; destruct (pt_base p); cbn; done.
  - unfold exclusif, noter_les_autres. cbn [ob_autres]. assert (ob_autres (if mesure p then _ else o) = ob_autres o) as ->
      by by destruct (mesure p).
    cbn [fmap option_fmap option_map]. split; [by destruct l|]. rewrite Z.eqb_eq, Forall_app, Forall_singleton. unfold seul at 2.
    rewrite <- autres_que_0. unfold exclusif in He. assert (0 <= autres_que (pt_notre p) (pt_actives p)) by (unfold autres_que; lia).
    destruct (ob_autres o) as [n|]; cbn in He, Ha |- *.
    + destruct He as [_ He]. rewrite <- He, Z.eqb_eq. lia.
    + subst l. split; [intros Hz; split; [done|lia]|intros [_ ?]; lia].
  - cbn. unfold autres_que. lia.
Qed.

(** What an observation says of a run.  After any readings of the manager,
    the peak is the highest use of the card among those that measured it, and
    unknown when none did; the starting point is the first base line measured;
    and the run was alone exactly when every reading saw no active allocation
    but its own, which is unknown only before the first. *)
Theorem observation_exact l : decrit l (fold_left point l nouvelle_observation).
Proof.
  induction l as [|p l IH] using rev_ind; [by split_and!|]. rewrite fold_left_app. cbn [fold_left]. by apply decrit_snoc.
Qed.

(** ** Aggregates *)

Lemma reduire_max l : l <> [] -> est_max l (reduire Z.max l).
Proof.
  destruct l as [|x l]; [done|intros _]. cbn. revert x. induction l as [|y l IH]; intros x; cbn.
  - split; [by left|]. intros z ->%list_elem_of_singleton. lia.
  - destruct (IH (Z.max x y)) as [Hin Hmax]. split.
    + apply elem_of_cons in Hin as [ ->|Hin]; [|set_solver]. destruct (Z.max_spec x y) as [[_ ->]|[_ ->]]; set_solver.
    + intros z Hz. pose proof (Hmax (Z.max x y) ltac:(by left)). apply elem_of_cons in Hz as [ ->|[ ->|Hz]%elem_of_cons]; [lia|lia|].
      apply Hmax. by right.
Qed.

Lemma reduire_min l : l <> [] -> est_min l (reduire Z.min l).
Proof.
  destruct l as [|x l]; [done|intros _]. cbn. revert x. induction l as [|y l IH]; intros x; cbn.
  - split; [by left|]. intros z ->%list_elem_of_singleton. lia.
  - destruct (IH (Z.min x y)) as [Hin Hmin]. split.
    + apply elem_of_cons in Hin as [ ->|Hin]; [|set_solver]. destruct (Z.min_spec x y) as [[_ ->]|[_ ->]]; set_solver.
    + intros z Hz. pose proof (Hmin (Z.min x y) ltac:(by left)). apply elem_of_cons in Hz as [ ->|[ ->|Hz]%elem_of_cons]; [lia|lia|].
      apply Hmin. by right.
Qed.

Definition observe (o : ObservationPhysique) : pyval := PDict (observation_to_dict o).

Lemma valeurs_observe cle (f : ObservationPhysique -> option pyval) os :
  (forall o, dget (observation_to_dict o) cle = f o /\ f o <> Some PNone) -> valeurs cle (map observe os) = omap f os.
Proof.
  intros Hf. unfold valeurs. induction os as [|o os IH]; [done|]. cbn [map omap list_omap observe].
  destruct (Hf o) as [-> Hn]. rewrite IH. destruct (f o) as [v|]; [|done]. by destruct v.
Qed.

Lemma omap_fmap_some {A B C} (f : A -> option B) (g : B -> C) l : omap (fun x => g <$> f x) l = map g (omap f l).
Proof. induction l as [|x l IH]; [done|]. cbn. destruct (f x); cbn; by rewrite IH. Qed.

Section agreger_properties.
Context (int_of : string -> option Z).

Lemma res_map_int ns : res_map (py_int int_of) (map PInt ns) = Ok ns.
Proof. rewrite (res_map_map PInt (py_int int_of) (fun n => n)) by done. by rewrite map_id. Qed.

(** The value kept of one measure. *)
Definition garde (cle : string) (f : Z -> Z -> Z) (l : list Z) : pydict pyval :=
  match l with [] => [] | _ => [(cle, PInt (reduire f l))] end.

Lemma agreger_entiers_spec cle f (g : ObservationPhysique -> option Z) os :
  (forall o, dget (observation_to_dict o) cle = PInt <$> g o) ->
  agreger_entiers int_of cle f (map observe os) = Ok (garde cle f (omap g os)).
Proof.
  intros Hg. unfold agreger_entiers.
  rewrite (valeurs_observe cle (fun o => PInt <$> g o)) by (intros o; split; [apply Hg|by destruct (g o)]).
  rewrite omap_fmap_some. pose proof (res_map_int (omap g os)) as H. destruct (omap g os) as [|n l]; [done|].
  cbn [map] in *. by rewrite H.
Qed.

Lemma agreger_observe os :
  agreger int_of (map observe os) =
    Ok (garde "vram_reservee_octets" Z.max (omap ob_reservee os) ++ garde "vram_machine_debut_octets" Z.min (omap ob_debut os)
        ++ garde "vram_machine_pic_octets" Z.max (omap ob_pic os)
        ++ match omap exclusif os with [] => [] | l => [("exclusif", PBool (forallb (fun b => b) l))] end).
Proof.
  unfold agreger.
  rewrite (agreger_entiers_spec _ _ ob_reservee) by (by intros [[] [] [] []]).
  rewrite (agreger_entiers_spec _ _ ob_debut) by (by intros [[] [] [] []]).
  rewrite (agreger_entiers_spec _ _ ob_pic) by (by intros [[] [] [] []]).
  rewrite (valeurs_observe "exclusif" (fun o => PBool <$> exclusif o)) by (by intros [[] [] [] []]).
  rewrite omap_fmap_some. cbn [res_bind]. do 4 f_equal. destruct (omap exclusif os) as [|b l]; [done|]. cbn [map].
  do 3 f_equal. cbn [forallb]. f_equal. clear. induction l as [|b l IH]; [done|]. cbn. by rewrite IH.
Qed.

(** What a run keeps of its tasks, and that the ledger takes it.  Of the
    observations of any tasks the greatest reservation, the least starting
    point and the highest peak are kept, each one exactly when some task has it;
    the run was alone exactly when every task that looked was; and [mesurer]
    writes the answer as it is, refusing nothing of it. *)
Theorem agreger_exact os refuse id s :
  exists d, agreger int_of (map observe os) = Ok d
    /\ (match dget d "vram_reservee_octets" with
        | Some v => exists x, v = PInt x /\ est_max (omap ob_reservee os) x
        | None => omap ob_reservee os = []
        end)
    /\ (match dget d "vram_machine_debut_octets" with
        | Some v => exists x, v = PInt x /\ est_min (omap ob_debut os) x
        | None => omap ob_debut os = []
        end)
    /\ (match dget d "vram_machine_pic_octets" with
        | Some v => exists x, v = PInt x /\ est_max (omap ob_pic os) x
        | None => omap ob_pic os = []
        end)
    /\ (match dget d "exclusif" with
        | Some v => exists b, v = PBool b /\ omap exclusif os <> [] /\ (b = true <-> forall x, x ∈ omap exclusif os -> x = true)
        | None => omap exclusif os = []
        end)
    /\ mesurer refuse id d s = match d with [] => (Ok tt, s) | _ => changer_sans_statut refuse id (map en_sql d) s end.
Proof.
  rewrite agreger_observe. eexists. split; [done|].
  pose proof (reduire_max (omap ob_reservee os)) as Ha. pose proof (reduire_min (omap ob_debut os)) as Hb.
  pose proof (reduire_max (omap ob_pic os)) as Hc.
  assert (Hd : forall b l, forallb (fun b => b) (b :: l) = true <-> forall x, x ∈ b :: l -> x = true).
  { intros b l. rewrite forallb_forall. by setoid_rewrite list_elem_of_In. }
  destruct (omap ob_reservee os) as [|a la], (omap ob_debut os) as [|b lb], (omap ob_pic os) as [|c lc], (omap exclusif os) as [|e le];
    (split_and!; try done; cbn [garde app dget]; eexists; (split; [done|]); auto).
Qed.
End agreger_properties.

(** ** Examples *)

Example demo_agregat :
  agreger (fun _ => None) [observe (mkObservation (Some 4) (Some 10) (Some 20) (Some 0)); observe nouvelle_observation;
                           observe (mkObservation None (Some 8) (Some 15) (Some 1)); PStr "?"]
  = Ok [("vram_reservee_octets", PInt 4); ("vram_machine_debut_octets", PInt 8); ("vram_machine_pic_octets", PInt 20);
        ("exclusif", PBool false)].
Proof. vm_compute. reflexivity. Qed.
