(* ===== verification/RunContracts.v ===== *)
(** * What a mission commits to ([backend/runs/contrat.py])

    A contract is a list of criteria, each with the verifier that must judge it.
    The fields hold whatever a document gave them; the verdicts of the verifiers
    are recorded one by one. *)
From stdpp Require Import base gmap strings list sets pretty.
From Stdlib Require Import ZArith Lia.
From S2P Require Import Prelude.
From S2P Require Import RetryPolicy.
#[local] Open Scope Z_scope.

(** ** Data *)

Module Genre.
Inductive t := ACCEPTATION | NON_OBJECTIF | CONTRAINTE.
#[global] Instance eq_dec : EqDecision t.
Proof. solve_decision. Defined.
Definition value (x : t) : string :=
  match x with ACCEPTATION => "acceptation" | NON_OBJECTIF => "non_objectif" | CONTRAINTE => "contrainte" end.
Definition of_value (v : string) : option t :=
  List.find (fun x => bool_decide (value x = v)) [ACCEPTATION; NON_OBJECTIF; CONTRAINTE].
End Genre.

Module EtatCritere.
Inductive t := NON_ATTEINT | ATTEINT | INVERIFIABLE | VIOLE.
#[global] Instance eq_dec : EqDecision t.
Proof. solve_decision. Defined.
Definition value (x : t) : string :=
  match x with
  | NON_ATTEINT => "non_atteint"
  | ATTEINT => "atteint"
  | INVERIFIABLE => "inverifiable"
  | VIOLE => "viole"
  end.
Definition of_value (v : string) : option t :=
  List.find (fun x => bool_decide (value x = v)) [NON_ATTEINT; ATTEINT; INVERIFIABLE; VIOLE].
End EtatCritere.

Module VerdictCritere.
Inductive t := REUSSI | ECHOUE | INDISPONIBLE.
#[global] Instance eq_dec : EqDecision t.
Proof. solve_decision. Defined.
End VerdictCritere.

Record Critere := mkCritere {
  cr_texte : pyval;
  cr_genre : Genre.t;
  cr_verificateur : pyval;
  cr_etat : EtatCritere.t;
  cr_identifiant : pyval
}.

Record Contrat := mkContrat {
  co_objectif : pyval;
  co_criteres : list Critere;
  co_ressources : list pyval;
  co_conditions : list pyval;
  co_budget : pydict pyval;
  co_risque : pyval
}.

(** [tenu] of a criterion *)
Definition critere_tenu (c : Critere) : bool :=
  if decide (cr_genre c = Genre.NON_OBJECTIF) then negb (bool_decide (cr_etat c = EtatCritere.VIOLE))
  else bool_decide (cr_etat c = EtatCritere.ATTEINT).

(** [tenu] of a contract *)
Definition contrat_tenu (k : Contrat) : bool :=
  negb (bool_decide (co_criteres k = [])) && forallb critere_tenu (co_criteres k).

Definition dans_l_etat (e : EtatCritere.t) (k : Contrat) : list Critere :=
  List.filter (fun c => bool_decide (cr_etat c = e)) (co_criteres k).

(** [inverifiables] and [violes] *)
Definition inverifiables (k : Contrat) : list Critere := dans_l_etat EtatCritere.INVERIFIABLE k.
Definition violes (k : Contrat) : list Critere := dans_l_etat EtatCritere.VIOLE k.

(** [resume] of a contract *)
Definition resume_contrat (k : Contrat) : string :=
  match co_criteres k with
  | [] => "contrat sans critère"
  | l =>
      let compte (n : nat) := pretty (Z.of_nat n) in
      compte (length (List.filter critere_tenu l)) +:+ "/" +:+ compte (length l) +:+ " critère(s) tenu(s)"
      +:+ (match violes k with [] => "" | v => " — " +:+ compte (length v) +:+ " non-objectif(s) VIOLÉ(s)" end)
      +:+ (match inverifiables k with
           | [] => ""
           | v => " — " +:+ compte (length v) +:+ " invérifiable(s), ce qui n'est pas un succès"
           end)
  end.

(** ** Validation *)

(** [s.strip()] and [" | ".join(l)], of values that may not be texts. *)
Definition strip_val (v : pyval) : res string :=
  match v with PStr s => Ok (strip s) | _ => Err (Exn AttributeError [Msg "object has no attribute 'strip'" []]) end.

Definition join_vals (sep : string) (l : list pyval) : res string :=
  ts <-? res_map (fun v => match v with
                           | PStr s => Ok s
                           | _ => Err (Exn TypeError [Msg "sequence item: expected str instance" []])
                           end) l ;;
  Ok (String.concat sep ts).

Definition contrat_invalide (m : message) : exn := Exn ValueError [m].

Definition acceptation (k : Contrat) : list Critere :=
  List.filter (fun c => bool_decide (cr_genre c = Genre.ACCEPTATION)) (co_criteres k).

Definition sans_verificateur (k : Contrat) : list pyval :=
  map cr_texte (List.filter (fun c => negb (truthy (cr_verificateur c))) (acceptation k)).

(** [valider] *)
Definition valider (k : Contrat) : res unit :=
  o <-? strip_val (co_objectif k) ;;
  if decide (o = "") then Err (contrat_invalide (Msg "un contrat sans objectif n'engage à rien" []))
  else
    match acceptation k with
    | [] => Err (contrat_invalide (Msg "aucun critère d'acceptation : ce contrat serait tenu quoi qu'il arrive, puisque rien ne pourrait le contredire" []))
    | _ =>
        match sans_verificateur k with
        | [] => Ok tt
        | l => t <-? join_vals " | " (take 3 l) ;;
               Err (contrat_invalide (Msg "critère(s) sans vérificateur nommé : {} — sans lui, « invérifiable » ne dirait pas ce qui manque" [t]))
        end
    end.

(** ** Verdicts *)

Definition porte_id (id : string) (c : Critere) : bool :=
  match cr_identifiant c with PStr s => bool_decide (s = id) | _ => false end.

(** The state that a verdict gives. *)
Definition etat_de (g : Genre.t) (v : VerdictCritere.t) : EtatCritere.t :=
  match v with
  | VerdictCritere.INDISPONIBLE => EtatCritere.INVERIFIABLE
  | _ =>
      if decide (g = Genre.NON_OBJECTIF) then
        if decide (v = VerdictCritere.REUSSI) then EtatCritere.VIOLE else EtatCritere.ATTEINT
      else if decide (v = VerdictCritere.REUSSI) then EtatCritere.ATTEINT else EtatCritere.NON_ATTEINT
  end.

Definition juge (v : VerdictCritere.t) (c : Critere) : Critere :=
  mkCritere (cr_texte c) (cr_genre c) (cr_verificateur c) (etat_de (cr_genre c) v) (cr_identifiant c).

(** The first criterion of an id, changed. *)
Fixpoint juger_le_premier (id : string) (v : VerdictCritere.t) (l : list Critere) : option (Critere * list Critere) :=
  match l with
  | [] => None
  | c :: l' =>
      if porte_id id c then Some (juge v c, juge v c :: l')
      else match juger_le_premier id v l' with Some (x, l'') => Some (x, c :: l'') | None => None end
  end.

Definition avec_criteres (k : Contrat) (l : list Critere) : Contrat :=
  mkContrat (co_objectif k) l (co_ressources k) (co_conditions k) (co_budget k) (co_risque k).

(** [enregistrer] of a verdict *)
Definition enregistrer_verdict (id : string) (v : VerdictCritere.t) : M Contrat Critere := fun k =>
  match juger_le_premier id v (co_criteres k) with
  | None => (Err (Exn KeyError [Msg "aucun critère {!r} dans ce contrat" [id]]), k)
  | Some (c, l) => (Ok c, avec_criteres k l)
  end.

(** ** Documents *)

(** [Critere.to_dict] and [Contrat.to_dict] *)
Definition critere_to_dict (c : Critere) : pydict pyval :=
  [("identifiant", cr_identifiant c); ("texte", cr_texte c); ("genre", PStr (Genre.value (cr_genre c)));
   ("verificateur", cr_verificateur c); ("etat", PStr (EtatCritere.value (cr_etat c)))].

Definition contrat_to_dict (k : Contrat) : pydict pyval :=
  [("objectif", co_objectif k); ("criteres", PList (map (fun c => PDict (critere_to_dict c)) (co_criteres k)));
   ("ressources_autorisees", PList (co_ressources k)); ("conditions_d_arret", PList (co_conditions k));
   ("budget", PDict (co_budget k)); ("niveau_de_risque", co_risque k)].

Section documents.
(** The ids drawn, and [list(v)] and [dict(v)] of what is neither a list nor a
    dict. *)
Variable uuid_hex : nat -> string.
Variable liste_de : pyval -> res (list pyval).
Variable dict_de : pyval -> res (pydict pyval).

Definition enum_de {A} (of_value : string -> option A) (nom : string) (v : pyval) : res A :=
  match (match v with PStr s => of_value s | _ => None end) with
  | Some x => Ok x
  | None => Err (Exn ValueError [Msg ("{!r} is not a valid " +:+ nom) []])
  end.

(** [Critere.from_dict] *)
Definition critere_from_dict (v : pyval) : M nat Critere := fun n =>
  match v with
  | PDict d =>
      let r :=
        t <-? dlookup d "texte" ;;
        g <-? enum_de Genre.of_value "Genre" (default (PStr "acceptation") (dget d "genre")) ;;
        e <-? enum_de EtatCritere.of_value "EtatCritere" (default (PStr "non_atteint") (dget d "etat")) ;;
        Ok (mkCritere t g (default (PStr "") (dget d "verificateur")) e) in
      match r with
      | Err x => (Err x, n)
      | Ok mk => let id := default PNone (dget d "identifiant") in
                 if truthy id then (Ok (mk id), n) else (Ok (mk (PStr (uuid_hex n))), S n)
      end
  | _ => (Err (Exn TypeError [Msg "indices must be integers or slices, not str" []]), n)
  end.

Fixpoint criteres_from (l : list pyval) : M nat (list Critere) :=
  match l with
  | [] => ret []
  | v :: l' => c <- critere_from_dict v ;; cs <- criteres_from l' ;; ret (c :: cs)
  end.

(** [d.get(k) or []], as a list. *)
Definition liste_ou (d : pydict pyval) (k : string) : res (list pyval) :=
  match default PNone (dget d k) with
  | PList l => Ok l
  | v => if truthy v then liste_de v else Ok []
  end.

Definition dict_ou (d : pydict pyval) (k : string) : res (pydict pyval) :=
  match default PNone (dget d k) with
  | PDict l => Ok l
  | v => if truthy v then dict_de v else Ok []
  end.

(** [Contrat.from_dict] *)
Definition contrat_from_dict (d : pydict pyval) : M nat Contrat :=
  l <- lift (liste_ou d "criteres") ;;
  cs <- criteres_from l ;;
  ra <- lift (liste_ou d "ressources_autorisees") ;;
  ca <- lift (liste_ou d "conditions_d_arret") ;;
  b <- lift (dict_ou d "budget") ;;
  ret (mkContrat (default (PStr "") (dget d "objectif")) cs ra ca b (default (PStr "moyen") (dget d "niveau_de_risque"))).

(** A contract that is written is read back the same, and no id is drawn,
    as long as its criteria have one. *)
Theorem contrat_roundtrip k n :
  Forall (fun c => truthy (cr_identifiant c) = true) (co_criteres k) ->
  contrat_from_dict (contrat_to_dict k) n = (Ok k, n).
Proof.
  intros Hids. assert (Hcs : criteres_from (map (fun c => PDict (critere_to_dict c)) (co_criteres k)) n = (Ok (co_criteres k), n)).
  { induction (co_criteres k) as [|c l IH]; [done|]. apply Forall_cons_1 in Hids as [Hc Hl]. cbn [map criteres_from].
    assert (critere_from_dict (PDict (critere_to_dict c)) n = (Ok c, n)) as E.
    { destruct c as [t g v e id]. cbn in Hc. destruct g, e; lazy -[truthy]; by rewrite Hc. }
    rewrite (bind_ok _ _ _ _ _ E), (bind_ok _ _ _ _ _ (IH Hl)). done. }
  destruct k as [o cs ra ca b r]. unfold contrat_from_dict, contrat_to_dict. cbn [co_criteres] in *.
  rewrite (bind_ok (lift _) _ n n (map (fun c => PDict (critere_to_dict c)) cs)) by done.
  by rewrite (bind_ok _ _ _ _ _ Hcs).
Qed.
End documents.

(** ** What a contract promises *)

(** The verdicts recorded, one after the other. *)
Definition enregistrer_tous (l : list (string * VerdictCritere.t)) : M Contrat unit :=
  for_each l (fun p => discard (enregistrer_verdict p.1 p.2)).

(** What the verdict of a criterion must be for the contract to be held. *)
Definition verdict_favorable (g : Genre.t) (v : VerdictCritere.t) : Prop :=
  if decide (g = Genre.NON_OBJECTIF) then v <> VerdictCritere.REUSSI else v = VerdictCritere.REUSSI.

Lemma juge_tenu v c : critere_tenu (juge v c) = true <-> verdict_favorable (cr_genre c) v.
Proof.
  unfold critere_tenu, verdict_favorable, juge, etat_de. cbn [cr_genre cr_etat].
  destruct (decide (cr_genre c = Genre.NON_OBJECTIF)); destruct v; cbn; split; intros H; congruence || done.
Qed.

Definition ids_de (k : Contrat) : list pyval := map cr_identifiant (co_criteres k).

Lemma porte_id_true id c : porte_id id c = true <-> cr_identifiant c = PStr id.
Proof. unfold porte_id. destruct (cr_identifiant c); rewrite ?bool_decide_eq_true; split; congruence. Qed.

Lemma juger_le_premier_middle id v l1 c l2 :
  cr_identifiant c = PStr id -> PStr id ∉ map cr_identifiant l1 ->
  juger_le_premier id v (l1 ++ c :: l2) = Some (juge v c, l1 ++ juge v c :: l2).
Proof.
  intros Hc. induction l1 as [|c1 l1 IH]; cbn; intros Hn.
  - by rewrite (proj2 (porte_id_true id c) Hc).
  - destruct (porte_id id c1) eqn:E; [apply porte_id_true in E; set_solver|]. rewrite IH by set_solver. done.
Qed.

(** The calls that record a verdict for each criterion. *)
Definition verdicts_de (vs : list (Critere * VerdictCritere.t)) : list (string * VerdictCritere.t) :=
  map (fun p => (match cr_identifiant p.1 with PStr s => s | _ => "" end, p.2)) vs.

(** The contract once its first criteria are judged. *)
Lemma enregistrer_suite (vs : list (Critere * VerdictCritere.t)) : forall faits k,
  co_criteres k = faits ++ map fst vs -> Forall (fun p => exists id, cr_identifiant p.1 = PStr id) vs -> NoDup (ids_de k) ->
  enregistrer_tous (verdicts_de vs) k
  = (Ok tt, avec_criteres k (faits ++ map (fun p => juge p.2 p.1) vs)).
Proof.
  induction vs as [|[c v] vs IH]; intros faits k Hk Hids Hnd.
  { cbn in *. rewrite app_nil_r in *. destruct k; cbn in *; by subst. }
  apply Forall_cons_1 in Hids as [[id Hid] Hids]. cbn in Hid. unfold verdicts_de, enregistrer_tous.
  cbn [map for_each fst snd]. rewrite Hid. cbn [map fst] in Hk.
  assert (enregistrer_verdict id v k = (Ok (juge v c), avec_criteres k (faits ++ juge v c :: map fst vs))) as E.
  { unfold enregistrer_verdict. rewrite Hk, juger_le_premier_middle; [done|done|].
    unfold ids_de in Hnd. rewrite Hk, map_app in Hnd. apply NoDup_app in Hnd as (_ & H & _). intros Hin.
    apply (H _ Hin). rewrite <- Hid. by left. }
  rewrite (bind_ok _ _ k (avec_criteres k (faits ++ juge v c :: map fst vs)) tt) by (unfold discard; by rewrite (bind_ok _ _ _ _ _ E)).
  fold (verdicts_de vs). fold (enregistrer_tous (verdicts_de vs)). rewrite (IH (faits ++ [juge v c])).
  - by rewrite <- app_assoc.
  - cbn. by rewrite <- app_assoc.
  - done.
  - unfold ids_de in *. cbn. rewrite Hk in Hnd. rewrite !map_app in *. exact Hnd.
Qed.

(** When a contract is held.  Of a valid contract whose criteria have
    distinct ids, once every criterion has had the verdict of its verifier: the
    contract is held exactly when every criterion of acceptance and every
    constraint was judged met, and no verifier of a forbidden thing says that it
    was done. *)
Theorem contrat_tenu_exact k vs :
  valider k = Ok tt -> co_criteres k = map fst vs -> Forall (fun p => exists id, cr_identifiant p.1 = PStr id) vs ->
  NoDup (ids_de k) ->
  exists k', enregistrer_tous (verdicts_de vs) k = (Ok tt, k')
    /\ (contrat_tenu k' = true <-> forall c v, (c, v) ∈ vs -> verdict_favorable (cr_genre c) v).
Proof.
  intros Hval Hk Hids Hnd. eexists. split; [by apply (enregistrer_suite vs [] k)|].
  unfold contrat_tenu, avec_criteres. cbn [co_criteres app].
  assert (vs <> []) as Hne.
  { intros ->. unfold valider in Hval. destruct (strip_val (co_objectif k)); [|done]. cbn in Hval. case_decide; [done|].
    unfold acceptation in Hval. by rewrite Hk in Hval. }
  rewrite bool_decide_eq_false_2 by by destruct vs. cbn [negb andb]. rewrite forallb_forall. setoid_rewrite <- list_elem_of_In.
  split.
  - intros H c v Hin. apply juge_tenu, H. apply list_elem_of_fmap. by exists (c, v).
  - intros H x ([c v] & -> & Hin)%list_elem_of_fmap. by apply juge_tenu, H.
Qed.

(** What a contract must have to be accepted.  [valider] accepts exactly a
    contract with an objective that is not blank and at least one criterion of
    acceptance, when each criterion of acceptance names its verifier; nothing is
    asked of constraints and of forbidden things. *)
Theorem valider_exact k :
  valider k = Ok tt <->
  (exists o, co_objectif k = PStr o /\ strip o <> "")
  /\ (exists c, c ∈ co_criteres k /\ cr_genre c = Genre.ACCEPTATION)
  /\ (forall c, c ∈ co_criteres k -> cr_genre c = Genre.ACCEPTATION -> truthy (cr_verificateur c) = true).
Proof.
  assert (Hin : forall c, c ∈ acceptation k <-> c ∈ co_criteres k /\ cr_genre c = Genre.ACCEPTATION).
  { intros c. unfold acceptation. rewrite list_elem_of_In, filter_In, bool_decide_eq_true. by rewrite list_elem_of_In. }
  assert (Hsans : sans_verificateur k = [] <-> forall c, c ∈ acceptation k -> truthy (cr_verificateur c) = true).
  { clear Hin. unfold sans_verificateur. induction (acceptation k) as [|c l IH]; [by split; [intros _ c ?%elem_of_nil|]|]. cbn.
    destruct (truthy (cr_verificateur c)) eqn:E; cbn.
    - rewrite IH. set_solver.
    - split; [done|]. intros H. rewrite H in E; [done|by left]. }
  unfold valider. destruct (co_objectif k) as [| | | |o| |]; cbn [strip_val res_bind];
    try (split; [done|by intros ((? & ? & _) & _)]).
  case_decide as Ho; [split; [done|intros ((? & [= <-] & ?) & _); done]|].
  setoid_rewrite <- Hin. destruct (acceptation k) as [|c l] eqn:Ea.
  { split; [done|]. intros (_ & (c & Hc) & _). by apply elem_of_nil in Hc. }
  destruct (sans_verificateur k) as [|t ts] eqn:Es.
  - split; [intros _|done]. split; [by exists o|]. split; [exists c; by left|]. intros x Hx Hg. apply Hsans; [done|]. by rewrite Hin.
  - split.
    + by destruct (join_vals _ _).
    + intros (_ & _ & H). assert (t :: ts = []); [|done]. apply Hsans. intros x Hx. apply H; by apply Hin.
Qed.

(** ** Examples *)

Definition demo_critere (id : string) (g : Genre.t) : Critere :=
  mkCritere (PStr id) g (PStr "v") EtatCritere.NON_ATTEINT (PStr id).

Definition demo_contrat : Contrat :=
  mkContrat (PStr "o") [demo_critere "a" Genre.ACCEPTATION; demo_critere "n" Genre.NON_OBJECTIF] [] [] [] (PStr "moyen").

Definition demo_verdicts : list (Critere * VerdictCritere.t) :=
  [(demo_critere "a" Genre.ACCEPTATION, VerdictCritere.REUSSI); (demo_critere "n" Genre.NON_OBJECTIF, VerdictCritere.INDISPONIBLE)].

(** A forbidden thing that nobody could look for is counted as not done: the
    contract is held, although one of its criteria is not verifiable. *)
Example demo_tenu_sans_mesure :
  let k := (enregistrer_tous [("a", VerdictCritere.REUSSI); ("n", VerdictCritere.INDISPONIBLE)] demo_contrat).2 in
  contrat_tenu k = true /\ length (inverifiables k) = 1%nat
  /\ resume_contrat k = "2/2 critère(s) tenu(s) — 1 invérifiable(s), ce qui n'est pas un succès".
Proof. vm_compute. done. Qed.

Lemma contrat_tenu_exact_witness :
  exists k', enregistrer_tous [("a", VerdictCritere.REUSSI); ("n", VerdictCritere.INDISPONIBLE)] demo_contrat = (Ok tt, k')
    /\ (contrat_tenu k' = true <-> forall c v, (c, v) ∈ demo_verdicts -> verdict_favorable (cr_genre c) v).
Proof.
  refine (contrat_tenu_exact demo_contrat demo_verdicts eq_refl eq_refl _ _).
  - repeat constructor; by eexists.
  - apply NoDup_cons. split; [by intros [=]%list_elem_of_singleton|apply NoDup_singleton].
Defined.

Lemma contrat_roundtrip_witness :
  contrat_from_dict (fun _ => "") (fun _ => Ok []) (fun _ => Ok []) (contrat_to_dict demo_contrat) 0%nat = (Ok demo_contrat, 0%nat).
Proof. apply contrat_roundtrip. by repeat constructor. Defined.
