(* ===== verification/TaskScheduler.v ===== *)
(** * The scheduler of tasks ([backend/execution/task_scheduler.py])

    The registry of the tasks of every execution of the process, bounded, with
    what their predecessors are.  Tasks are objects shared with those who
    registered them: the registry holds references into a heap. *)
From stdpp Require Import base gmap strings list sets sorting pretty.
From Stdlib Require Import ZArith QArith Lia.
From S2P Require Import Prelude.
#[local] Open Scope Z_scope.

(** ** Tasks ([backend/execution/execution_models.py]) *)

Module TaskStatus.
Inductive t := PENDING | SCHEDULED | RUNNING | WAITING | VALIDATING | COMPLETED | FAILED | SKIPPED.
#[global] Instance eq_dec : EqDecision t.
Proof. solve_decision. Defined.
Definition value (x : t) : string :=
  match x with
  | PENDING => "pending"
  | SCHEDULED => "scheduled"
  | RUNNING => "running"
  | WAITING => "waiting"
  | VALIDATING => "validating"
  | COMPLETED => "completed"
  | FAILED => "failed"
  | SKIPPED => "skipped"
  end.
End TaskStatus.

Module ValidationOutcome.
Inductive t := PASS | FAIL | RETRY | NEEDS_REVIEW.
#[global] Instance eq_dec : EqDecision t.
Proof. solve_decision. Defined.
Definition value (x : t) : string :=
  match x with PASS => "pass" | FAIL => "fail" | RETRY => "retry" | NEEDS_REVIEW => "needs_review" end.
End ValidationOutcome.

(** Floats are rationals; dates are numbers of seconds. *)
Record TaskExecution := mkTaskExec {
  tx_id : string;
  tx_title : string;
  tx_type : string;
  tx_preferred_agent : string;
  tx_status : TaskStatus.t;
  tx_agent : string;
  tx_runtime : string;
  tx_model : string;
  tx_provider : string;
  tx_decision : string;
  tx_skills : list string;
  tx_tools : list string;
  tx_tools_used : list string;
  tx_result : option pyval;
  tx_errors : list string;
  tx_retries : Z;
  tx_started : option Q;
  tx_completed : option Q;
  tx_duration : Q;
  tx_resources : pydict pyval;
  tx_physiques : pydict pyval;
  tx_outcome : option ValidationOutcome.t
}.

Definition tx_with_status (s : TaskStatus.t) (t : TaskExecution) : TaskExecution :=
  mkTaskExec (tx_id t) (tx_title t) (tx_type t) (tx_preferred_agent t) s (tx_agent t) (tx_runtime t) (tx_model t) (tx_provider t)
    (tx_decision t) (tx_skills t) (tx_tools t) (tx_tools_used t) (tx_result t) (tx_errors t) (tx_retries t) (tx_started t)
    (tx_completed t) (tx_duration t) (tx_resources t) (tx_physiques t) (tx_outcome t).

Definition tx_with_result (r : option pyval) (t : TaskExecution) : TaskExecution :=
  mkTaskExec (tx_id t) (tx_title t) (tx_type t) (tx_preferred_agent t) (tx_status t) (tx_agent t) (tx_runtime t) (tx_model t)
    (tx_provider t) (tx_decision t) (tx_skills t) (tx_tools t) (tx_tools_used t) r (tx_errors t) (tx_retries t) (tx_started t)
    (tx_completed t) (tx_duration t) (tx_resources t) (tx_physiques t) (tx_outcome t).

Definition heap : Type := list TaskExecution.

(** ** The scheduler *)

Definition MAX_RETAINED_TASKS : nat := 512.
Definition EVICT_RESCUE_LIMIT : nat := 16.
Definition TERMINAL : list TaskStatus.t := [TaskStatus.COMPLETED; TaskStatus.SKIPPED; TaskStatus.FAILED].

Record Scheduler := mkScheduler { sc_tasks : pydict nat; sc_deps : pydict (gset string) }.

Definition empty_scheduler : Scheduler := mkScheduler [] [].

Record SchedulePlan := mkSchedPlan { sp_waves : list (list string); sp_blocked : list string; sp_total : nat; sp_ready : nat }.

Section scheduler.
Context `{!SetOrder}.
Implicit Types (h : heap) (s : Scheduler).

Definition task_status h (r : nat) : option TaskStatus.t := tx_status <$> h !! r.

Definition has_status h (r : nat) (l : list TaskStatus.t) : bool :=
  match task_status h r with Some x => bool_decide (x ∈ l) | None => false end.

(** [get_task] *)
Definition get_task s (tid : string) : option nat := dget (sc_tasks s) tid.

(** The loop of [_evict_oldest]: each turn drops a task or rescues one. *)
Fixpoint evict_loop h (fuel overflow rescued : nat) s : Scheduler :=
  match fuel with
  | O => s
  | S fuel' =>
      match overflow, sc_tasks s with
      | S n, (tid, r) :: tasks =>
          if negb (has_status h r TERMINAL) && (rescued <? EVICT_RESCUE_LIMIT)%nat
          then evict_loop h fuel' overflow (S rescued) (mkScheduler (dset tasks tid r) (sc_deps s))
          else evict_loop h fuel' n rescued (mkScheduler tasks (ddel (sc_deps s) tid))
      | _, _ => s
      end
  end.

(** [_evict_oldest] *)
Definition evict_oldest h s : Scheduler :=
  let overflow := (length (sc_tasks s) - MAX_RETAINED_TASKS)%nat in
  evict_loop h (overflow + EVICT_RESCUE_LIMIT) overflow 0 s.

(** [register_task] of the object [r] *)
Definition register_task h (tid : string) (r : nat) (dependencies : list string) s : Scheduler :=
  evict_oldest h (mkScheduler (dmove (sc_tasks s) tid r) (dset (sc_deps s) tid (list_to_set dependencies))).

(** [update_task]: the object is shared. *)
Definition update_task (tid : string) (st : TaskStatus.t) (result : option pyval) s h : heap :=
  match get_task s tid with
  | Some r => alter (fun t => let t := tx_with_status st t in
                              match result with Some v => tx_with_result (Some v) t | None => t end) r h
  | None => h
  end.

(** [_is_dep_satisfied] *)
Definition is_dep_satisfied h s (dep : string) : bool :=
  match get_task s dep with
  | Some r => has_status h r [TaskStatus.COMPLETED; TaskStatus.SKIPPED]
  | None => false
  end.

Definition deps_of s (tid : string) : gset string := default ∅ (dget (sc_deps s) tid).

Definition all_satisfied h s (deps : gset string) : bool := forallb (is_dep_satisfied h s) (elements deps).

(** [_priority_value]: the same for every task. *)
Definition priority_value (t : string) : Z := 2.

(** [l[:n]] *)
Definition slice_to {A} (n : option Z) (l : list A) : list A :=
  match n with
  | None => l
  | Some n => if 0 <=? n then take (Z.to_nat n) l else take (length l - Z.to_nat (- n)) l
  end.

(** [ready.sort(key=lambda x: -x[1])] *)
Definition more_urgent (x y : string * Z) : Prop := - x.2 <= - y.2.
#[export] Instance more_urgent_dec : RelDecision more_urgent.
Proof. intros x y. unfold more_urgent. apply _. Defined.

(** [get_ready_tasks] *)
Definition get_ready_tasks h s (max_count : option Z) : list string :=
  let ready := map (fun p => (p.1, priority_value p.1))
                 (List.filter (fun p => has_status h p.2 [TaskStatus.PENDING] && all_satisfied h s (deps_of s p.1)) (sc_tasks s)) in
  map fst (slice_to max_count (sort_by more_urgent ready)).

(** [get_blocked_tasks] *)
Definition get_blocked_tasks h s : list string :=
  map fst (List.filter (fun p => match get_task s p.1 with
                                 | Some r => has_status h r [TaskStatus.PENDING] && negb (bool_decide (p.2 = ∅))
                                             && negb (all_satisfied h s p.2)
                                 | None => false
                                 end) (sc_deps s)).

(** One wave of [build_plan]. *)
Definition in_wave h s (done : gset string) (tid : string) : bool :=
  bool_decide (deps_of s tid ⊆ done) &&
  match get_task s tid with Some r => has_status h r [TaskStatus.PENDING] | None => false end.

Definition wave h s (remaining done : gset string) : list string :=
  List.filter (in_wave h s done) (merge_sort String.le (elements remaining)).

Fixpoint plan_loop h s (fuel : nat) (remaining done : gset string) (waves : list (list string))
    : list (list string) * list string :=
  match fuel with
  | O => (waves, iter_set remaining)
  | S fuel' =>
      if decide (remaining = ∅) then (waves, [])
      else
        match wave h s remaining done with
        | [] => (waves, iter_set remaining)
        | w => plan_loop h s fuel' (remaining ∖ list_to_set w) (done ∪ list_to_set w) (waves ++ [w])
        end
  end.

(** [build_plan]: a turn takes at least a task. *)
Definition build_plan h s : SchedulePlan :=
  let '(waves, blocked) := plan_loop h s (S (length (sc_tasks s))) (list_to_set (dkeys (sc_tasks s))) ∅ [] in
  mkSchedPlan waves blocked (length (sc_tasks s)) (length (concat waves)).

Record Progress := mkProgress { pr_total : Z; pr_completed : Z; pr_failed : Z; pr_running : Z; pr_pending : Z; pr_percent : Q }.

Definition count_status h s (l : list TaskStatus.t) : Z :=
  Z.of_nat (length (List.filter (fun r => has_status h r l) (dvalues (sc_tasks s)))).

(** [get_progress] *)
Definition get_progress h s : Progress :=
  let total := Z.of_nat (length (sc_tasks s)) in
  let completed := count_status h s [TaskStatus.COMPLETED; TaskStatus.SKIPPED] in
  let failed := count_status h s [TaskStatus.FAILED] in
  let running := count_status h s [TaskStatus.RUNNING] in
  mkProgress total completed failed running (total - completed - failed - running)
    (if decide (total = 0) then 0%Q else tenths (inject_Z completed / inject_Z total * 100)).

(** [is_all_done] *)
Definition is_all_done h s : bool := forallb (fun r => has_status h r TERMINAL) (dvalues (sc_tasks s)).

(** [all_done] of some tasks *)
Definition all_done h s (ids : list string) : bool :=
  match ids with
  | [] => false
  | _ => forallb (fun tid => match get_task s tid with Some r => has_status h r TERMINAL | None => false end) ids
  end.
End scheduler.

(** ** The registry *)

Section registry.
Context `{!SetOrder}.
Implicit Types (h : heap) (s : Scheduler).

(** Tasks and predecessors are kept for the same ids. *)
Definition sched_wf s : Prop :=
  dict_wf (sc_tasks s) /\ dict_wf (sc_deps s) /\ forall k, k ∈ dkeys (sc_deps s) <-> k ∈ dkeys (sc_tasks s).

Lemma sched_wf_empty : sched_wf empty_scheduler.
Proof. split_and!; [apply NoDup_nil_2|apply NoDup_nil_2|done]. Qed.

Lemma dset_new (d : pydict nat) k v : dict_wf ((k, v) :: d) -> dset d k v = d ++ [(k, v)].
Proof. intros [Hk _]%NoDup_cons. by apply dkeys_dset_new. Qed.

(** One turn of the eviction keeps the registry well formed. *)
Lemma sched_wf_rescue tid r tasks deps :
  sched_wf (mkScheduler ((tid, r) :: tasks) deps) -> sched_wf (mkScheduler (dset tasks tid r) deps).
Proof.
  intros (Ht & Hd & Hk). cbn in *. split_and!; [|done|].
  - apply dict_wf_dset. by apply NoDup_cons in Ht as [_ ?].
  - intros k. cbn. rewrite Hk, elem_dkeys_dset. unfold dkeys. cbn. set_solver.
Qed.

Lemma sched_wf_drop tid r tasks deps :
  sched_wf (mkScheduler ((tid, r) :: tasks) deps) -> sched_wf (mkScheduler tasks (ddel deps tid)).
Proof.
  intros (Ht & Hd & Hk). cbn in *. apply NoDup_cons in Ht as [Hn Ht]. split_and!; [done|by apply dict_wf_ddel|].
  intros k. cbn. rewrite elem_dkeys_ddel, Hk by done. unfold dkeys in *. cbn. set_solver.
Qed.

(** The loop has turns enough, and drops as many tasks as it must. *)
Lemma evict_loop_spec h fuel overflow rescued s :
  sched_wf s -> (rescued <= EVICT_RESCUE_LIMIT)%nat -> (overflow + EVICT_RESCUE_LIMIT <= fuel + rescued)%nat ->
  let s' := evict_loop h fuel overflow rescued s in
  sched_wf s' /\ length (sc_tasks s') = (length (sc_tasks s) - overflow)%nat
  /\ forall k r, dget (sc_tasks s') k = Some r -> dget (sc_tasks s) k = Some r.
Proof.
  revert overflow rescued s. induction fuel as [|fuel IH]; intros overflow rescued [tasks deps] Hs Hr Hf.
  { cbn. split_and!; [done|lia|done]. }
  cbn [evict_loop sc_tasks sc_deps]. destruct overflow as [|n]; [split_and!; [done|cbn; lia|done]|].
  destruct tasks as [|[tid r] tasks]; [by split_and!|].
  pose proof Hs as (Ht & _ & _). cbn in Ht. pose proof Ht as [Hn _]%NoDup_cons.
  destruct (negb (has_status h r TERMINAL) && (rescued <? EVICT_RESCUE_LIMIT)%nat) eqn:E.
  - apply andb_true_iff in E as [_ E%Nat.ltb_lt]. destruct (IH (S n) (S rescued) (mkScheduler (dset tasks tid r) deps)) as (Hw & Hl & Hk).
    + by apply sched_wf_rescue.
    + lia.
    + lia.
    + split_and!; [done| |].
      * rewrite Hl. cbn. rewrite (dkeys_dset_new tasks tid r) by done. rewrite length_app. cbn. lia.
      * intros k r' Hg. apply Hk in Hg. cbn in *. rewrite dget_dset in Hg. by case_decide.
  - destruct (IH n rescued (mkScheduler tasks (ddel deps tid))) as (Hw & Hl & Hk).
    + by eapply sched_wf_drop.
    + done.
    + lia.
    + split_and!; [done|cbn in *; lia|]. intros k r' Hg. apply Hk in Hg. cbn in *. case_decide; [subst|done].
      exfalso. apply Hn. apply dget_is_Some. eauto.
Qed.

Lemma sched_wf_moved tid r deps s : sched_wf s -> sched_wf (mkScheduler (dmove (sc_tasks s) tid r) (dset (sc_deps s) tid deps)).
Proof.
  intros (Ht & Hd & Hk). split_and!; [by apply dict_wf_dmove|by apply dict_wf_dset|]. intros k. cbn.
  rewrite elem_dkeys_dset, <- !dget_is_Some, dget_dmove by done. rewrite dget_is_Some, Hk, <- dget_is_Some.
  case_decide; subst; split; naive_solver.
Qed.

(** Enough of the oldest tasks are passed before the new one that it stays. *)
Lemma evict_keeps_late h fuel overflow rescued s k r :
  sched_wf s -> (rescued <= EVICT_RESCUE_LIMIT)%nat ->
  (exists before after, sc_tasks s = before ++ (k, r) :: after
     /\ (overflow = 0 \/ overflow + EVICT_RESCUE_LIMIT <= length before + rescued)%nat) ->
  dget (sc_tasks (evict_loop h fuel overflow rescued s)) k = Some r.
Proof.
  revert overflow rescued s. induction fuel as [|fuel IH]; intros overflow rescued [tasks deps] Hs Hr (before & after & Ht & Hl).
  all: cbn in Ht; subst tasks; pose proof Hs as (Hw & _ & _); cbn in Hw.
  - cbn. apply dget_elem; [done|]. set_solver.
  - cbn [evict_loop sc_tasks sc_deps]. destruct overflow as [|n]; [apply dget_elem; [done|cbn; set_solver]|].
    destruct before as [|[tid r'] before]; [cbn in Hl; lia|]. cbn [app].
    destruct (negb (has_status h r' TERMINAL) && (rescued <? EVICT_RESCUE_LIMIT)%nat) eqn:E.
    + apply andb_true_iff in E as [_ E%Nat.ltb_lt]. apply IH; [by apply sched_wf_rescue|lia|].
      exists before, (after ++ [(tid, r')]). cbn. pose proof Hw as [Hn _]%NoDup_cons. rewrite dkeys_dset_new by done.
      rewrite <- app_assoc. split; [done|]. cbn in Hl. lia.
    + apply IH; [by eapply sched_wf_drop|done|]. exists before, after. split; [done|]. cbn in Hl. lia.
Qed.

(** Registering in a registry within its bound. *)
Lemma register_task_spec h tid r deps s :
  sched_wf s -> (length (sc_tasks s) <= MAX_RETAINED_TASKS)%nat ->
  let s' := register_task h tid r deps s in
  sched_wf s' /\ (length (sc_tasks s') <= MAX_RETAINED_TASKS)%nat /\ get_task s' tid = Some r
  /\ forall k r', k <> tid -> get_task s' k = Some r' -> get_task s k = Some r'.
Proof.
  intros Hs Hl. unfold register_task, evict_oldest.
  set (s1 := mkScheduler (dmove (sc_tasks s) tid r) _). assert (Hs1 : sched_wf s1) by by apply sched_wf_moved.
  set (n := (length (sc_tasks s1) - MAX_RETAINED_TASKS)%nat).
  destruct (evict_loop_spec h (n + EVICT_RESCUE_LIMIT) n 0 s1) as (Hw & Hlen & Hk); [done|unfold EVICT_RESCUE_LIMIT; lia|lia|].
  assert (length (sc_tasks s1) = S (length (ddel (sc_tasks s) tid))) as Hl1 by (cbn; unfold dmove; rewrite length_app; cbn; lia).
  pose proof (length_ddel_le (sc_tasks s) tid). split_and!; [done|subst n; lia| |].
  - apply evict_keeps_late; [done|unfold EVICT_RESCUE_LIMIT; lia|]. exists (ddel (sc_tasks s) tid), []. split; [done|].
    subst n. unfold EVICT_RESCUE_LIMIT, MAX_RETAINED_TASKS in *. lia.
  - intros k r' Hne Hg. apply Hk in Hg. cbn in Hg. destruct Hs as (Hwf & _ & _). rewrite dget_dmove in Hg by done.
    by rewrite decide_False in Hg.
Qed.
End registry.

(** ** The plan *)

Section plan.
Context `{!SetOrder} (h : heap) (s : Scheduler).

Definition is_pending (tid : string) : Prop := exists r, get_task s tid = Some r /\ task_status h r = Some TaskStatus.PENDING.

Lemma has_status_pending r : has_status h r [TaskStatus.PENDING] = true <-> task_status h r = Some TaskStatus.PENDING.
Proof.
  unfold has_status. destruct (task_status h r) as [x|]; [|done]. rewrite bool_decide_eq_true, list_elem_of_singleton.
  split; congruence.
Qed.

Lemma in_wave_spec done tid : in_wave h s done tid = true <-> deps_of s tid ⊆ done /\ is_pending tid.
Proof.
  unfold in_wave, is_pending. rewrite andb_true_iff, bool_decide_eq_true. apply and_iff_compat_l.
  destruct (get_task s tid) as [r|]; [|naive_solver]. rewrite has_status_pending. naive_solver.
Qed.

Lemma elem_sched_wave remaining done tid :
  tid ∈ wave h s remaining done <-> tid ∈ remaining /\ deps_of s tid ⊆ done /\ is_pending tid.
Proof.
  unfold wave. rewrite list_elem_of_In, filter_In, <- list_elem_of_In, in_wave_spec, merge_sort_Permutation, elem_of_elements.
  done.
Qed.

(** Tasks of a wave come in the order of their ids. *)
Definition wave_sorted (w : list string) : Prop := StronglySorted String.le w.

Lemma StronglySorted_list_filter {A} (R : relation A) P (l : list A) : StronglySorted R l -> StronglySorted R (List.filter P l).
Proof.
  induction 1 as [|x l Hl IH Hx]; [constructor|]. cbn. destruct (P x); [|done]. constructor; [done|].
  rewrite Forall_forall in *. intros y [Hy _]%list_elem_of_In%filter_In. apply Hx. by apply list_elem_of_In.
Qed.

Lemma wave_ordered remaining done : wave_sorted (wave h s remaining done) /\ NoDup (wave h s remaining done).
Proof.
  unfold wave, wave_sorted. split; [apply StronglySorted_list_filter, StronglySorted_merge_sort; apply _|].
  apply NoDup_ListNoDup, List.NoDup_filter, NoDup_ListNoDup. rewrite merge_sort_Permutation. apply NoDup_elements.
Qed.

Lemma size_of_list_le (l : list string) : (size (list_to_set l : gset string) <= length l)%nat.
Proof.
  induction l as [|x l IH]; [done|]. cbn [list_to_set length]. rewrite size_union_alt, size_singleton.
  assert (size (list_to_set l ∖ {[x]} : gset string) <= size (list_to_set l : gset string))%nat by (apply subseteq_size; set_solver).
  lia.
Qed.

(** What the loop keeps: the waves so far and what remains. *)
Definition plan_inv (all remaining done : gset string) (waves : list (list string)) : Prop :=
  done = list_to_set (concat waves) /\ remaining = all ∖ done /\ done ⊆ all /\ NoDup (concat waves)
  /\ forall w1 w w2, waves = w1 ++ w :: w2 -> w <> [] /\ wave_sorted w /\
       forall tid, tid ∈ w -> is_pending tid /\ deps_of s tid ⊆ list_to_set (concat w1).

Lemma plan_inv_step all remaining done waves :
  plan_inv all remaining done waves -> wave h s remaining done <> [] ->
  plan_inv all (remaining ∖ list_to_set (wave h s remaining done)) (done ∪ list_to_set (wave h s remaining done))
    (waves ++ [wave h s remaining done]).
Proof.
  intros (Hd & Hr & Hsub & Hnd & Hw) Hne. set (w := wave h s remaining done) in *.
  destruct (wave_ordered remaining done) as [Hsort Hndw]. fold w in Hsort, Hndw.
  assert (Hin : forall tid, tid ∈ w -> tid ∈ remaining) by (intros tid Hx; by apply elem_sched_wave in Hx as [? _]).
  assert (Hcat : concat (waves ++ [w]) = concat waves ++ w) by (rewrite concat_app; cbn; by rewrite app_nil_r).
  split_and!.
  - rewrite Hcat, list_to_set_app_L. by rewrite Hd.
  - subst remaining. set_solver.
  - subst remaining. set_solver.
  - rewrite Hcat. apply NoDup_app. split_and!; [done| |done]. intros tid H1 H2%Hin. subst remaining done. set_solver.
  - intros w1 w' w2 Heq. destruct w2 as [|w3 w2 _] using rev_ind.
    + apply app_inj_tail in Heq as [<- <-]. split_and!; [done|done|]. intros tid (_ & H1 & H2)%elem_sched_wave. by rewrite <- Hd.
    + rewrite app_comm_cons, app_assoc in Heq. apply app_inj_tail in Heq as [-> _]. by eapply Hw.
Qed.

Lemma plan_loop_spec all fuel remaining done waves :
  plan_inv all remaining done waves -> (size remaining < fuel)%nat ->
  exists remaining' done' waves', plan_loop h s fuel remaining done waves = (waves', if decide (remaining' = ∅) then [] else iter_set remaining')
    /\ plan_inv all remaining' done' waves' /\ wave h s remaining' done' = [].
Proof.
  revert remaining done waves. induction fuel as [|fuel IH]; intros remaining done waves Hi Hf; [lia|]. cbn [plan_loop].
  case_decide as Hz.
  { exists remaining, done, waves. rewrite decide_True by done. split_and!; [done|done|]. subst.
    destruct (wave h s ∅ done) as [|t w] eqn:E; [done|]. assert (t ∈ wave h s ∅ done) as [Ht _]%elem_sched_wave by (rewrite E; by left).
    set_solver. }
  destruct (wave h s remaining done) as [|t w] eqn:E.
  { exists remaining, done, waves. by rewrite decide_False. }
  rewrite <- E. apply IH; [apply plan_inv_step; [done|by rewrite E]|].
  assert (t ∈ wave h s remaining done) as [Ht _]%elem_sched_wave by (rewrite E; by left).
  assert (size (remaining ∖ list_to_set (wave h s remaining done)) < size remaining)%nat; [|lia].
  apply subset_size. split; [set_solver|]. intros Hsub. apply (Hsub t) in Ht. rewrite E in Ht. set_solver.
Qed.

(** What a plan is.  The waves hold once each of the registered tasks that
    are pending and whose predecessors are all in the waves, and no other; the
    predecessors of a task are in earlier waves; no wave is empty and each is
    sorted; the tasks that are in no wave, finished ones included, are the
    blocked ones.  So a task whose predecessor has already completed is said to
    be blocked. *)
Theorem plan_exact :
  let p := build_plan h s in
  NoDup (concat (sp_waves p))
  /\ (forall tid, tid ∈ concat (sp_waves p) <->
        tid ∈ dkeys (sc_tasks s) /\ is_pending tid /\ forall d, d ∈ deps_of s tid -> d ∈ concat (sp_waves p))
  /\ (forall w1 w w2, sp_waves p = w1 ++ w :: w2 ->
        w <> [] /\ wave_sorted w /\ forall tid d, tid ∈ w -> d ∈ deps_of s tid -> d ∈ concat w1)
  /\ NoDup (sp_blocked p)
  /\ (forall tid, tid ∈ sp_blocked p <-> tid ∈ dkeys (sc_tasks s) /\ tid ∉ concat (sp_waves p))
  /\ sp_total p = length (sc_tasks s) /\ sp_ready p = length (concat (sp_waves p)).
Proof.
  unfold build_plan. set (all := list_to_set (dkeys (sc_tasks s)) : gset string).
  destruct (plan_loop_spec all (S (length (sc_tasks s))) all ∅ []) as (rem & dn & waves & -> & (Hd & Hr & Hsub & Hnd & Hw) & Hno).
  { split_and!; [done|set_solver|set_solver|apply NoDup_nil_2|]. intros w1 w w2 Hx. by destruct w1. }
  { rewrite <- (dkeys_length (sc_tasks s)). pose proof (size_of_list_le (dkeys (sc_tasks s))). unfold all. lia. }
  cbn [sp_waves sp_blocked sp_total sp_ready]. split_and!; try done.
  - intros tid. split.
    + intros Hin. assert (tid ∈ all) as Hall by (apply Hsub; rewrite Hd; by apply elem_of_list_to_set).
      split; [by apply elem_of_list_to_set in Hall|]. apply elem_of_list_to_set in Hall.
      apply list_elem_of_In, in_concat in Hin as (w & Hw1%list_elem_of_In & Ht%list_elem_of_In).
      apply list_elem_of_split in Hw1 as (w1 & w2 & Heq). destruct (Hw _ _ _ Heq) as (_ & _ & Hx). destruct (Hx tid Ht) as [Hp Hdeps].
      split; [done|]. intros d Hin%Hdeps%elem_of_list_to_set. rewrite Heq, concat_app. set_solver.
    + intros (Hin & Hp & Hdeps). apply dec_stable. intros Hout. assert (tid ∈ wave h s rem dn) as Hx; [|rewrite Hno in Hx; by apply elem_of_nil in Hx].
      apply elem_sched_wave. split_and!; [|set_solver|done]. subst rem dn. apply elem_of_difference.
      split; [by apply elem_of_list_to_set|]. by rewrite elem_of_list_to_set.
  - intros w1 w w2 Heq. destruct (Hw _ _ _ Heq) as (H1 & H2 & H3). split_and!; [done|done|]. intros tid d Ht Hin.
    destruct (H3 tid Ht) as [_ Hx]. by apply Hx, elem_of_list_to_set in Hin.
  - case_decide; [apply NoDup_nil_2|apply NoDup_iter_set].
  - intros tid. assert (Hb : tid ∈ (if decide (rem = ∅) then [] else iter_set rem) <-> tid ∈ rem).
    { case_decide; [subst; set_solver|]. apply elem_iter_set. }
    rewrite Hb, Hr, Hd, elem_of_difference, elem_of_list_to_set. unfold all. by rewrite elem_of_list_to_set.
Qed.
End plan.

(** ** What is ready, what is blocked, what is dropped *)

Section registrations.
Context `{!SetOrder}.
Implicit Types (h : heap) (s : Scheduler).

(** All the priorities are equal: the sort of the ready tasks leaves them as
    they were registered. *)
Lemma sort_by_equal (l : list string) :
  sort_by more_urgent (map (fun k => (k, priority_value k)) l) = map (fun k => (k, priority_value k)) l.
Proof.
  unfold sort_by. induction l as [|x l IH]; [done|]. cbn [map foldr]. rewrite IH. destruct l as [|y l]; [done|].
  cbn [map insert_by]. rewrite decide_True; [done|]. unfold more_urgent, priority_value. cbn. lia.
Qed.

Lemma ready_pairs h s :
  map (fun p => (p.1, priority_value p.1))
    (List.filter (fun p => has_status h p.2 [TaskStatus.PENDING] && all_satisfied h s (deps_of s p.1)) (sc_tasks s))
  = map (fun k => (k, priority_value k))
      (map fst (List.filter (fun p => has_status h p.2 [TaskStatus.PENDING] && all_satisfied h s (deps_of s p.1)) (sc_tasks s))).
Proof. by rewrite map_map. Qed.

Lemma slice_to_map {A B} (f : A -> B) n l : map f (slice_to n l) = slice_to n (map f l).
Proof.
  destruct n as [n|]; [|done]. cbn. rewrite length_map. case_match; apply (fmap_take f).
Qed.

(** A registered task is pending in the sense of [is_pending]. *)
Lemma elem_tasks_pending h s k r : sched_wf s -> (k, r) ∈ sc_tasks s -> get_task s k = Some r.
Proof. intros (Hw & _ & _) Hin. by apply dget_elem. Qed.

Lemma elem_ready_tasks h s k : sched_wf s ->
  k ∈ get_ready_tasks h s None <-> is_pending h s k /\ all_satisfied h s (deps_of s k) = true.
Proof.
  intros Hs. unfold get_ready_tasks. rewrite ready_pairs, sort_by_equal. cbn [slice_to]. rewrite map_map. cbn. rewrite map_id. split.
  - intros ([k' r] & -> & [Hin Hb]%list_elem_of_In%filter_In)%list_elem_of_fmap. cbn in *. apply andb_true_iff in Hb as [Hp Ha].
    split; [|done]. exists r. split; [by apply elem_tasks_pending, list_elem_of_In|by apply has_status_pending].
  - intros [(r & Hg & Hp) Ha]. apply list_elem_of_fmap. exists (k, r). split; [done|]. apply list_elem_of_In, filter_In.
    split; [by apply list_elem_of_In, dget_Some_elem|]. cbn. by rewrite (proj2 (has_status_pending h r) Hp), Ha.
Qed.

Lemma elem_blocked h s k : sched_wf s ->
  k ∈ get_blocked_tasks h s <-> is_pending h s k /\ all_satisfied h s (deps_of s k) = false.
Proof.
  intros (_ & Hd & Hk). unfold get_blocked_tasks, is_pending, deps_of. split.
  - intros ([k' d] & -> & [Hin%list_elem_of_In Hb]%list_elem_of_In%filter_In)%list_elem_of_fmap. cbn in *.
    rewrite (dget_elem _ _ _ Hd Hin). destruct (get_task s k') as [r|]; [|done]. apply andb_true_iff in Hb as [[Hp _]%andb_true_iff Ha].
    apply negb_true_iff in Ha. split; [exists r; split; [done|by apply has_status_pending]|done].
  - intros [(r & Hg & Hp) Ha]. assert (k ∈ dkeys (sc_deps s)) as [d Hdk]%dget_is_Some by (apply Hk, dget_is_Some; by exists r).
    rewrite Hdk in Ha. cbn in Ha. apply list_elem_of_fmap. exists (k, d). split; [done|]. apply list_elem_of_In, filter_In.
    split; [by apply list_elem_of_In, dget_Some_elem|]. cbn. rewrite Hg, (proj2 (has_status_pending h r) Hp), Ha, andb_true_r. cbn.
    apply negb_true_iff, bool_decide_eq_false. intros ->. unfold all_satisfied in Ha. by rewrite elements_empty in Ha.
Qed.

(** The registry after registrations, each with the tasks as they are then. *)
Definition registrations (l : list (heap * string * nat * list string)) : Scheduler :=
  fold_left (fun s p => let '(h, tid, r, deps) := p in register_task h tid r deps s) l empty_scheduler.

Lemma registrations_wf l : sched_wf (registrations l) /\ (length (sc_tasks (registrations l)) <= MAX_RETAINED_TASKS)%nat.
Proof.
  unfold registrations. induction l as [|[[[h tid] r] deps] l IH] using rev_ind.
  - cbn [fold_left]. split; [apply sched_wf_empty|]. apply (Nat.le_0_l MAX_RETAINED_TASKS).
  - rewrite fold_left_app. cbn [fold_left]. destruct IH as [Hw Hl].
    by destruct (register_task_spec h tid r deps _ Hw Hl) as (? & ? & _).
Qed.

(** The registry through any registrations.  It never holds more than 512
    tasks, each with its predecessors, and the last one registered is always
    there; at any time the pending tasks it holds are each either ready or
    blocked and not both, the ready ones being those whose predecessors have
    completed or been skipped, in the order of registration, whatever the
    priorities; and a task that has been evicted satisfies no dependency. *)
Theorem registry_exact l h :
  let s := registrations l in
  (length (sc_tasks s) <= MAX_RETAINED_TASKS)%nat /\ sched_wf s
  /\ (match last l with Some (_, tid, r, _) => get_task s tid = Some r | None => True end)
  /\ (forall k, is_pending h s k <-> k ∈ get_ready_tasks h s None \/ k ∈ get_blocked_tasks h s)
  /\ (forall k, k ∈ get_ready_tasks h s None -> k ∉ get_blocked_tasks h s)
  /\ (forall k d, k ∈ get_ready_tasks h s None -> d ∈ deps_of s k ->
        exists r, get_task s d = Some r /\ has_status h r [TaskStatus.COMPLETED; TaskStatus.SKIPPED] = true)
  /\ get_ready_tasks h s None `sublist_of` dkeys (sc_tasks s)
  /\ forall n, 0 <= n -> get_ready_tasks h s (Some n) = take (Z.to_nat n) (get_ready_tasks h s None).
Proof.
  intros s. destruct (registrations_wf l) as [Hw Hl]. fold s in Hw, Hl. split_and!; [done|done| | | | | |].
  - subst s. destruct l as [|[[[h' tid] r] deps] l _] using rev_ind; [done|]. rewrite last_snoc. unfold registrations.
    rewrite fold_left_app. cbn [fold_left]. destruct (registrations_wf l) as [Hw' Hl'].
    by destruct (register_task_spec h' tid r deps _ Hw' Hl') as (_ & _ & ? & _).
  - intros k. rewrite elem_ready_tasks, elem_blocked by done. destruct (all_satisfied h s (deps_of s k)); naive_solver.
  - intros k. rewrite elem_ready_tasks, elem_blocked by done. intros [_ ->] [_ [=]].
  - intros k d [_ Ha]%elem_ready_tasks Hd; [|done]. unfold all_satisfied in Ha. rewrite forallb_forall in Ha.
    specialize (Ha d ltac:(by apply list_elem_of_In, elem_of_elements)). unfold is_dep_satisfied in Ha.
    destruct (get_task s d) as [r|]; [by exists r|done].
  - unfold get_ready_tasks. rewrite ready_pairs, sort_by_equal. cbn [slice_to]. rewrite map_map. cbn. rewrite map_id.
    apply (fmap_sublist fst). generalize (sc_tasks s). intros t. induction t as [|p t IH]; [done|]. cbn. destruct (_ && _); by constructor.
  - intros n Hn. unfold get_ready_tasks. rewrite ready_pairs, sort_by_equal, !slice_to_map. unfold slice_to. by destruct (Z.leb_spec 0 n); [|lia].
Qed.

(** Tasks that are not finished are moved behind the others. *)
Lemma evict_rotate h before : forall fuel rescued after deps,
  dict_wf (before ++ after) -> Forall (fun p => has_status h p.2 TERMINAL = false) before ->
  (length before + rescued <= EVICT_RESCUE_LIMIT)%nat -> (length before <= fuel)%nat ->
  evict_loop h fuel 1 rescued (mkScheduler (before ++ after) deps)
  = evict_loop h (fuel - length before) 1 (rescued + length before) (mkScheduler (after ++ before) deps).
Proof.
  induction before as [|[k r] before IH]; intros fuel rescued after deps Hw Hb Hl Hf.
  { cbn [app length]. by rewrite app_nil_r, Nat.sub_0_r, Nat.add_0_r. }
  destruct fuel as [|fuel]; [cbn in Hf; lia|]. apply Forall_cons_1 in Hb as [Hr Hb]. cbn in Hr, Hl, Hf.
  cbn [app evict_loop sc_tasks sc_deps]. rewrite Hr. cbn [negb andb]. rewrite (proj2 (Nat.ltb_lt _ _)) by lia.
  pose proof Hw as [Hn Hw']%NoDup_cons. rewrite dkeys_dset_new by done. rewrite <- app_assoc, IH; try done.
  - cbn [length]. rewrite <- (app_assoc after). cbn [app]. f_equal; lia.
  - unfold dict_wf in *. rewrite app_assoc, dkeys_app. apply NoDup_app. split; [done|]. split; [|apply NoDup_singleton].
    intros x Hx ->%list_elem_of_singleton. by apply Hn.
  - lia.
  - lia.
Qed.

(** What a full registry drops.  Registering one more task drops exactly
    one: the first finished one, if there is one among the seventeen oldest, and
    otherwise the seventeenth, finished or not; the unfinished ones that were
    passed over go to the back of the registry, behind the new task. *)
Theorem eviction_exact h tid r deps s before k x after :
  sched_wf s -> tid ∉ dkeys (sc_tasks s) -> length (sc_tasks s) = MAX_RETAINED_TASKS ->
  sc_tasks s = before ++ (k, x) :: after ->
  Forall (fun p => has_status h p.2 TERMINAL = false) before -> (length before <= EVICT_RESCUE_LIMIT)%nat ->
  has_status h x TERMINAL = true \/ length before = EVICT_RESCUE_LIMIT ->
  sc_tasks (register_task h tid r deps s) = after ++ [(tid, r)] ++ before
  /\ sc_deps (register_task h tid r deps s) = ddel (dset (sc_deps s) tid (list_to_set deps)) k.
Proof.
  intros Hs Hnew Hfull Ht Hb Hle Hx. unfold register_task, evict_oldest. cbn [sc_tasks].
  assert (dmove (sc_tasks s) tid r = sc_tasks s ++ [(tid, r)]) as Hmove.
  { unfold dmove. f_equal. clear -Hnew. unfold dkeys in Hnew. induction (sc_tasks s) as [|[k' v] d IH]; [done|]. cbn in *.
    rewrite decide_False by set_solver. f_equal. apply IH. set_solver. }
  rewrite Hmove, length_app, Hfull. cbn [length].
  replace (MAX_RETAINED_TASKS + 1 - MAX_RETAINED_TASKS)%nat with 1%nat by lia. rewrite Ht, <- app_assoc.
  assert (Hw : dict_wf (before ++ ((k, x) :: after) ++ [(tid, r)])).
  { rewrite app_assoc, <- Ht. pose proof (sched_wf_moved tid r ∅ s Hs) as (Hw & _ & _). cbn in Hw. by rewrite Hmove in Hw. }
  rewrite evict_rotate; [|done|done|lia|lia].
  destruct (1 + EVICT_RESCUE_LIMIT - length before)%nat as [|fuel] eqn:Ef; [lia|].
  cbn [app evict_loop sc_tasks sc_deps]. rewrite Nat.add_0_l.
  assert (negb (has_status h x TERMINAL) && (length before <? EVICT_RESCUE_LIMIT)%nat = false) as ->.
  { apply andb_false_iff. destruct Hx as [->|Hx]; [by left|right]. apply Nat.ltb_ge. lia. }
  rewrite <- app_assoc. by destruct fuel.
Qed.
End registrations.

(** ** Examples *)

Definition demo_task (tid : string) (st : TaskStatus.t) : TaskExecution :=
  mkTaskExec tid tid "" "" st "" "" "" "" "" [] [] [] None [] 0 None None 0 [] [] None.

(** [b] waits for [a], which has completed: it is ready, and the plan says that
    it is blocked, and [a] with it. *)
Definition demo_heap : heap := [demo_task "a" TaskStatus.COMPLETED; demo_task "b" TaskStatus.PENDING].
Definition demo_scheduler : Scheduler := registrations [(demo_heap, "a", 0%nat, []); (demo_heap, "b", 1%nat, ["a"])].

Example demo_plan_blocks_ready :
  get_ready_tasks demo_heap demo_scheduler None = ["b"] /\ sp_waves (build_plan demo_heap demo_scheduler) = []
  /\ elements (list_to_set (sp_blocked (build_plan demo_heap demo_scheduler)) : gset string) = ["a"; "b"].
Proof. vm_compute. done. Qed.

(** The plan of tasks just registered. *)
Example demo_plan_diamond :
  let h := [demo_task "a" TaskStatus.PENDING; demo_task "b" TaskStatus.PENDING; demo_task "c" TaskStatus.PENDING;
            demo_task "d" TaskStatus.PENDING; demo_task "e" TaskStatus.PENDING] in
  let s := registrations [(h, "d", 3%nat, ["b"; "c"]); (h, "c", 2%nat, ["a"]); (h, "b", 1%nat, ["a"]); (h, "a", 0%nat, []);
                          (h, "e", 4%nat, ["?"])] in
  sp_waves (build_plan h s) = [["a"]; ["b"; "c"]; ["d"]] /\ sp_blocked (build_plan h s) = ["e"].
Proof. vm_compute. done. Qed.


(** A full registry of unfinished tasks. *)
Definition full_key (i : nat) : string := "t" +:+ pretty i.
Definition full_range (from n : nat) : pydict nat := map (fun i => (full_key i, 0%nat)) (seq from n).
Definition full_scheduler : Scheduler :=
  mkScheduler (full_range 0 512) (map (fun i => (full_key i, ∅)) (seq 0 512)).

Lemma full_keys_NoDup from n : NoDup (map full_key (seq from n)).
Proof.
  apply (NoDup_fmap_2 full_key), NoDup_seq.
Qed.

Lemma full_scheduler_wf : sched_wf full_scheduler.
Proof.
  assert (dkeys (sc_tasks full_scheduler) = map full_key (seq 0 512)) as Ht by (unfold dkeys; cbn [sc_tasks full_scheduler]; apply map_map).
  assert (dkeys (sc_deps full_scheduler) = map full_key (seq 0 512)) as Hd by (unfold dkeys; cbn [sc_deps full_scheduler]; apply map_map).
  unfold sched_wf, dict_wf. rewrite Ht, Hd. split_and!; [apply full_keys_NoDup|apply full_keys_NoDup|done].
Qed.

Lemma full_split : sc_tasks full_scheduler = full_range 0 16 ++ (full_key 16, 0%nat) :: full_range 17 495.
Proof. vm_compute. reflexivity. Qed.

Lemma new_not_full : "new" ∉ dkeys (sc_tasks full_scheduler).
Proof. intros H%dmem_true. vm_compute in H. done. Qed.

Lemma full_running : Forall (fun p => has_status [demo_task "t" TaskStatus.RUNNING] p.2 TERMINAL = false) (full_range 0 16).
Proof. apply Forall_fmap, Forall_forall. by intros i _. Qed.

Lemma eviction_exact_witness :
  let h := [demo_task "t" TaskStatus.RUNNING] in
  sc_tasks (register_task h "new" 0 [] full_scheduler) = full_range 17 495 ++ [("new", 0%nat)] ++ full_range 0 16
  /\ sc_deps (register_task h "new" 0 [] full_scheduler)
     = ddel (dset (sc_deps full_scheduler) "new" (list_to_set [])) (full_key 16).
Proof.
  intros h. refine (eviction_exact h "new" 0 [] full_scheduler (full_range 0 16) (full_key 16) 0 (full_range 17 495)
    full_scheduler_wf new_not_full _ full_split full_running _ (or_intror _)); vm_compute; try reflexivity; repeat constructor.
Defined.
