(* ===== verification/ExecutionStates.v ===== *)
(** * The state machine of an execution and its budget
    ([backend/execution/execution_state.py], [execution_models.py])

    One machine per execution of a mission: its transitions and their history,
    its checkpoints, and the time it may spend, counted from its making on a
    monotonic clock and from the start of its mission before that. *)
From stdpp Require Import base gmap strings list sets relations.
From Stdlib Require Import ZArith QArith Qminmax Lqa Lia.
From S2P Require Import Prelude.
#[local] Open Scope Z_scope.

(** ** States *)

Module MissionState.
Inductive t :=
  | CREATED | PLANNING | READY | RUNNING | WAITING_APPROVAL | PAUSED | VALIDATING | COMPLETED | FAILED | CANCELLED.
#[global] Instance eq_dec : EqDecision t.
Proof. solve_decision. Defined.
Definition value (x : t) : string :=
  match x with
  | CREATED => "created"
  | PLANNING => "planning"
  | READY => "ready"
  | RUNNING => "running"
  | WAITING_APPROVAL => "waiting_approval"
  | PAUSED => "paused"
  | VALIDATING => "validating"
  | COMPLETED => "completed"
  | FAILED => "failed"
  | CANCELLED => "cancelled"
  end.
End MissionState.
Import MissionState.

(** [VALID_TRANSITIONS] *)
Definition VALID_TRANSITIONS (s : MissionState.t) : list MissionState.t :=
  match s with
  | CREATED => [PLANNING; CANCELLED]
  | PLANNING => [READY; FAILED; CANCELLED]
  | READY => [RUNNING; CANCELLED]
  | RUNNING => [PAUSED; WAITING_APPROVAL; VALIDATING; FAILED; COMPLETED; CANCELLED]
  | WAITING_APPROVAL => [RUNNING; FAILED; CANCELLED]
  | PAUSED => [RUNNING; CANCELLED]
  | VALIDATING => [COMPLETED; RUNNING; FAILED; CANCELLED]
  | COMPLETED => []
  | FAILED => [RUNNING; CANCELLED]
  | CANCELLED => []
  end.

(** ** The budget *)

Definition BUDGET_MISSION_PAR_DEFAUT_S : Q := 3600.

(** [budget_de] of what an object has under [max_duration_seconds]; [None] when
    it has nothing. *)
Definition budget_de (brut : option Q) : res Q :=
  match brut with
  | None => Ok BUDGET_MISSION_PAR_DEFAUT_S
  | Some v =>
      if negb (Qle_bool 0 v) then
        Err (Exn ValueError [Msg "budget de mission invalide : {} s. Il n'existe pas de valeur « illimitée »" []])
      else Ok (if Qeq_bool v 0 then BUDGET_MISSION_PAR_DEFAUT_S else v)
  end.

(** [ExecutionMeta]: what the engine reads of it. *)
Record ExecutionMeta := mkExecMeta {
  em_id : string;
  em_mission : string;
  em_goal : string;
  em_max_duration : option Q;
  em_max_retries : Z;
  em_tags : list string
}.

(** What the registry of missions answers: the budget and the start of the
    mission, or nothing. *)
Definition mission_vue : Type := option (option Q * option Q).

Module CheckpointType.
Inductive t := AUTO | PAUSE | PRE_VALIDATION | PRE_TOOL | MANUAL.
End CheckpointType.

Record Checkpoint := mkCheckpoint {
  ck_id : string;
  ck_execution : string;
  ck_type : CheckpointType.t;
  ck_state : MissionState.t;
  ck_metadata : pydict pyval;
  ck_created : Q
}.

Record Machine := mkMachine {
  ms_state : MissionState.t;
  ms_history : list (MissionState.t * MissionState.t * string);
  ms_checkpoints : pydict Checkpoint;
  ms_meta : ExecutionMeta;
  ms_t0 : Q;
  ms_offset : Q
}.

Definition max_q (x y : Q) : Q := if Qle_bool x y then y else x.

(** [_offset_missionnel]: what the mission had spent before this machine. *)
Definition offset_missionnel (mission : mission_vue) (maintenant : Q) : Q :=
  match mission with
  | Some (_, Some depart) => max_q 0 (maintenant - depart)
  | _ => 0
  end.

(** [__init__] *)
Definition nouvelle_machine (meta : ExecutionMeta) (mission : mission_vue) (maintenant perf : Q) : res Machine :=
  _ <-? budget_de (em_max_duration meta) ;;
  Ok (mkMachine CREATED [] [] meta perf (offset_missionnel mission maintenant)).

(** [budget_s]: the mission decides when there is one. *)
Definition budget_s (mission : mission_vue) (m : Machine) : res Q :=
  match mission with
  | Some (b, _) => budget_de b
  | None => budget_de (em_max_duration (ms_meta m))
  end.

(** [budget_consomme_s] *)
Definition budget_consomme_s (perf : Q) (m : Machine) : Q := ms_offset m + (perf - ms_t0 m).

(** [budget_depasse] *)
Definition budget_depasse (mission : mission_vue) (perf : Q) (m : Machine) : res bool :=
  b <-? budget_s mission m ;; Ok (Qle_bool b (budget_consomme_s perf m)).

(** ** Transitions *)

(** [can_transition] *)
Definition can_transition (target : MissionState.t) (m : Machine) : bool :=
  bool_decide (target ∈ VALID_TRANSITIONS (ms_state m)).

Definition passer (target : MissionState.t) (reason : string) (m : Machine) : Machine :=
  mkMachine target (ms_history m ++ [(ms_state m, target, reason)]) (ms_checkpoints m) (ms_meta m) (ms_t0 m) (ms_offset m).

(** [transition]: to the current state it is recorded and nothing else. *)
Definition transition (target : MissionState.t) (reason : string) : M Machine MissionState.t := fun m =>
  if decide (target = ms_state m) then (Ok (ms_state m), passer target reason m)
  else if can_transition target m then (Ok target, passer target reason m)
  else (Err (Exn ValueError [Msg "Invalid transition: {} → {}. Allowed: {}"
                               [MissionState.value (ms_state m); MissionState.value target]]), m).

(** [is_terminal] and [is_active] *)
Definition is_terminal (m : Machine) : bool := bool_decide (ms_state m ∈ [COMPLETED; FAILED; CANCELLED]).
Definition is_active (m : Machine) : bool := bool_decide (ms_state m ∈ [RUNNING; VALIDATING]).

(** ** Checkpoints *)

(** [save_checkpoint], the id and the date being drawn. *)
Definition save_checkpoint (id : string) (created : Q) (ty : CheckpointType.t) (metadata : pydict pyval) : M Machine Checkpoint := fun m =>
  let cp := mkCheckpoint id (em_id (ms_meta m)) ty (ms_state m) metadata created in
  (Ok cp, mkMachine (ms_state m) (ms_history m) (dset (ms_checkpoints m) id cp) (ms_meta m) (ms_t0 m) (ms_offset m)).

(** [get_checkpoint] *)
Definition get_checkpoint (id : string) (m : Machine) : option Checkpoint := dget (ms_checkpoints m) id.

(** [max(l, key=created_at)]: the first of the greatest. *)
Definition plus_recent (a b : Checkpoint) : Checkpoint := if Qle_bool (ck_created b) (ck_created a) then a else b.

(** [get_last_checkpoint] *)
Definition get_last_checkpoint (m : Machine) : option Checkpoint :=
  match rev (dvalues (ms_checkpoints m)) with
  | [] => None
  | c :: l => Some (fold_left plus_recent l c)
  end.

(** ** What the machine promises *)

(** A recorded step: a valid one, or a state entered again. *)
Definition pas (p : MissionState.t * MissionState.t * string) : Prop :=
  p.1.2 = p.1.1 \/ p.1.2 ∈ VALID_TRANSITIONS p.1.1.

(** The history is a walk of the machine from [a] to [b]. *)
Inductive parcours : MissionState.t -> list (MissionState.t * MissionState.t * string) -> MissionState.t -> Prop :=
  | parcours_nil a : parcours a [] a
  | parcours_cons a b c r l : pas (a, b, r) -> parcours b l c -> parcours a ((a, b, r) :: l) c.

Lemma parcours_snoc a l b c r : parcours a l b -> pas (b, c, r) -> parcours a (l ++ [(b, c, r)]) c.
Proof. induction 1 as [|a b' c' r' l Hp Hl IH]; intros H; cbn; [constructor; [done|constructor]|]. constructor; [done|by apply IH]. Qed.

Lemma parcours_app a l1 l2 c : parcours a (l1 ++ l2) c -> exists b, parcours a l1 b /\ parcours b l2 c.
Proof.
  revert a. induction l1 as [|p l1 IH]; intros a H; cbn in *; [exists a; by split; [constructor|]|].
  inversion H as [|a' b c' r l Hp Hl]; subst. destruct (IH _ Hl) as (b' & H1 & H2). exists b'. split; [by constructor|done].
Qed.

(** Attempts, whether they raise or not. *)
Definition tenter (l : list (MissionState.t * string)) (m : Machine) : Machine :=
  fold_left (fun m p => (transition p.1 p.2 m).2) l m.

Lemma transition_cases target reason m :
  (exists r, transition target reason m = (Ok r, passer target reason m) /\ pas (ms_state m, target, reason) /\ r = target)
  \/ exists e, transition target reason m = (Err e, m) /\ exn_cls e = ValueError
       /\ target <> ms_state m /\ target ∉ VALID_TRANSITIONS (ms_state m).
Proof.
  unfold transition. case_decide as Heq; [left; exists (ms_state m); split_and!; [done|by left|done]|].
  unfold can_transition. case_bool_decide; [left; exists target; split_and!; [done|by right|done]|]. right. by eexists.
Qed.

Lemma tenter_parcours a l m : parcours a (ms_history m) (ms_state m) ->
  parcours a (ms_history (tenter l m)) (ms_state (tenter l m)) /\ exists suite, ms_history (tenter l m) = ms_history m ++ suite.
Proof.
  unfold tenter. revert m. induction l as [|p l IH]; intros m Hm; [split; [done|]; exists []; by rewrite app_nil_r|].
  cbn [fold_left]. destruct (transition_cases p.1 p.2 m) as [(r & E & Hp & _)|(e & E & _)]; rewrite E; cbn [snd]; [|by apply IH].
  destruct (IH (passer p.1 p.2 m)) as (Hh & suite & Hs); [by apply parcours_snoc|]. split; [done|].
  exists ((ms_state m, p.1, p.2) :: suite). rewrite Hs. cbn [ms_history passer]. by rewrite <- app_assoc.
Qed.

(** No step leaves a closed state. *)
Lemma parcours_ferme a l b : a ∈ [COMPLETED; CANCELLED] -> parcours a l b -> b = a.
Proof.
  intros Ha H. induction H as [|a b c r l Hp Hl IH]; [done|]. destruct Hp as [Hp|Hp]; cbn in Hp.
  - subst b. by apply IH.
  - repeat (apply elem_of_cons in Ha as [->|Ha]; [by apply elem_of_nil in Hp|]). by apply elem_of_nil in Ha.
Qed.

(** The machine of an execution.  Whatever transitions are attempted, its
    history is a walk of the table from CREATED to its state, each step valid or
    a state entered again, and is only ever added to; an attempt raises
    [ValueError] and changes nothing exactly when its target is neither the
    state nor a successor of it; and a completed or cancelled execution stays
    so, whatever is attempted next. *)
Theorem machine_exact meta perf offset l1 l2 target reason :
  let m0 := mkMachine CREATED [] [] meta perf offset in
  let m := tenter l1 m0 in
  parcours CREATED (ms_history m) (ms_state m)
  /\ (exists suite, ms_history (tenter l2 m) = ms_history m ++ suite /\ parcours (ms_state m) suite (ms_state (tenter l2 m)))
  /\ (target = ms_state m \/ target ∈ VALID_TRANSITIONS (ms_state m) <->
        transition target reason m = (Ok target, passer target reason m))
  /\ (is_ok (transition target reason m).1 = false -> (transition target reason m).2 = m)
  /\ (ms_state m ∈ [COMPLETED; CANCELLED] -> ms_state (tenter l2 m) = ms_state m).
Proof.
  intros m0 m. destruct (tenter_parcours CREATED l1 m0) as [H1 _]; [constructor|]. fold m in H1.
  destruct (tenter_parcours CREATED l2 m H1) as [H2 (suite & Hs)]. rewrite Hs in H2.
  apply parcours_app in H2 as (b & Hb & Hsuite).
  assert (b = ms_state m) as ->.
  { clear -H1 Hb. revert b Hb. induction H1 as [a|a b' c r l Hp Hl IH]; intros b Hb; inversion Hb; subst; [done|by apply IH]. }
  split_and!; [done|by exists suite| | |].
  - destruct (transition_cases target reason m) as [(r & -> & Hp & ->)|(e & -> & _ & Hne & Hno)]; [|naive_solver].
    split; [done|]. intros _. destruct Hp; auto.
  - by destruct (transition_cases target reason m) as [(r & -> & _)|(e & -> & _)].
  - intros Hc. by eapply parcours_ferme.
Qed.

(** The budget.  A machine is made only of a budget that is not negative;
    the budget that applies is that of the mission when there is one, else that
    of the execution, an absent one or zero standing for the default of an hour,
    and never unlimited; it is spent exactly when what the mission had used
    before and what has passed since on the monotonic clock reach it; and once
    spent it stays so. *)
Theorem budget_exact meta mission maintenant perf m perf' b :
  nouvelle_machine meta mission maintenant perf = Ok m -> budget_s mission m = Ok b ->
  (0 < b)%Q
  /\ (exists brut, (mission = None /\ brut = em_max_duration meta \/ exists d, mission = Some (brut, d))
        /\ match brut with
           | Some v => (0 <= v)%Q /\ (v == 0 /\ b = BUDGET_MISSION_PAR_DEFAUT_S \/ 0 < v /\ b = v)%Q
           | None => b = BUDGET_MISSION_PAR_DEFAUT_S
           end)
  /\ (0 <= ms_offset m)%Q
  /\ (budget_depasse mission perf' m = Ok true <-> (b <= ms_offset m + (perf' - perf))%Q)
  /\ (forall perf'', (perf' <= perf'')%Q -> budget_depasse mission perf' m = Ok true -> budget_depasse mission perf'' m = Ok true).
Proof.
  unfold nouvelle_machine. intros Hm Hb. assert (m = mkMachine CREATED [] [] meta perf (offset_missionnel mission maintenant)) as ->
    by (destruct (budget_de (em_max_duration meta)); cbn in Hm; by simplify_eq).
  assert (Hspec : forall brut, budget_de brut = Ok b -> (0 < b)%Q /\ match brut with
      | Some v => (0 <= v)%Q /\ (v == 0 /\ b = BUDGET_MISSION_PAR_DEFAUT_S \/ 0 < v /\ b = v)%Q
      | None => b = BUDGET_MISSION_PAR_DEFAUT_S end).
  { intros [v|]; cbn; [|by intros [= <-]]. destruct (Qle_bool 0 v) eqn:E; cbn; [|done]. apply Qle_bool_iff in E.
    destruct (Qeq_bool v 0) eqn:E'; intros [= <-].
    - apply Qeq_bool_eq in E'. split; [done|]. split; [done|]. by left.
    - apply Qeq_bool_neq in E'. assert (0 < v)%Q by (apply Qle_lteq in E as [?|E]; [done|by destruct E'; symmetry]).
      split; [done|]. split; [done|]. by right. }
  assert (Hd : forall p, budget_depasse mission p (mkMachine CREATED [] [] meta perf (offset_missionnel mission maintenant)) = Ok true
    <-> (b <= offset_missionnel mission maintenant + (p - perf))%Q).
  { intros p. unfold budget_depasse. rewrite Hb. cbn [res_bind]. unfold budget_consomme_s. cbn [ms_offset ms_t0].
    rewrite <- Qle_bool_iff. destruct (Qle_bool _ _); split; congruence. }
  cbn [ms_offset]. split_and!.
  - unfold budget_s in Hb. destruct mission as [[brut d]|]; by apply Hspec in Hb as [? _].
  - unfold budget_s in Hb. destruct mission as [[brut d]|]; apply Hspec in Hb as [_ ?].
    + exists brut. split; [right; by exists d|done].
    + exists (em_max_duration meta). split; [by left|done].
  - unfold offset_missionnel, max_q. destruct mission as [[brut [d|]]|]; [|done|done].
    destruct (Qle_bool 0 (maintenant - d)) eqn:E; [by apply Qle_bool_iff|done].
  - apply Hd.
  - intros p Hp. rewrite !Hd. intros H. lra.
Qed.

Lemma budget_exact_witness :
  let meta := mkExecMeta "e" "m" "" (Some 0%Q) 3 [] in
  let mission := Some (Some 100%Q, Some 5%Q) in
  exists m, nouvelle_machine meta mission 45 7 = Ok m /\ budget_s mission m = Ok 100%Q /\ ms_offset m = 40%Q
    /\ (budget_depasse mission 67 m = Ok true <-> (100 <= ms_offset m + (67 - 7))%Q).
Proof.
  intros meta mission. eexists. split; [reflexivity|]. split; [reflexivity|]. split; [reflexivity|].
  exact (proj1 (proj2 (proj2 (proj2 (budget_exact meta mission 45 7 _ 67 100 eq_refl eq_refl))))).
Defined.

Example demo_last_checkpoint :
  let m0 := mkMachine CREATED [] [] (mkExecMeta "e" "" "" None 3 []) 0 0 in
  let m := (save_checkpoint "b" 1 CheckpointType.PAUSE [] (save_checkpoint "a" 1 CheckpointType.AUTO [] m0).2).2 in
  ck_id <$> get_last_checkpoint m = Some "b".
Proof. vm_compute. reflexivity. Qed.
