(* ===== verification/AgentCoordination.v ===== *)
(** * Agents, validation and feedback of an execution
    ([backend/execution/agent_coordinator.py], [validation_engine.py],
    [feedback_loop.py], [optimization_engine.py])

    The collaborators of the mission executor: who does a task, what its result
    is worth, and what is kept of a finished execution. *)
From stdpp Require Import base gmap strings list sets sorting pretty.
From Stdlib Require Import ZArith QArith Qminmax Ascii Lia.
From S2P Require Import Prelude.
From S2P Require Import RetryPolicy.
From S2P Require Import TaskScheduler.
From S2P Require Import ExecutionStates.
#[local] Open Scope Z_scope.

(** [s.split()] *)
Fixpoint words_aux (cur : string) (s : string) : list string :=
  match s with
  | EmptyString => if decide (cur = "") then [] else [cur]
  | String c s' =>
      if is_space c then (if decide (cur = "") then words_aux "" s' else cur :: words_aux "" s')
      else words_aux (cur +:+ String c "") s'
  end.

Definition words (s : string) : list string := words_aux "" s.

(** [while len(d) > n: d.popitem(last=False)] *)
Definition keep_last {V} (n : nat) (d : pydict V) : pydict V := drop (length d - n) d.

(** ** The coordinator *)

Record Agent := mkCoordAgent { ag_capabilities : list string; ag_runtime : string }.

Record AgentAssignment := mkAssignment {
  as_task : string;
  as_agent : string;
  as_runtime : string;
  as_skills : list string;
  as_tools : list string;
  as_confidence : Q;
  as_reasoning : string
}.

(** The metadata of skills and tools are texts. *)
Record Coordinator := mkCoordinator {
  cd_agents : pydict Agent;
  cd_runtimes : pydict (pydict pyval);
  cd_skills : pydict (pydict string);
  cd_tools : pydict (pydict string);
  cd_loads : pydict Z;
  cd_assignments : pydict AgentAssignment;
  cd_asked : nat
}.

Definition empty_coordinator : Coordinator := mkCoordinator [] [] [] [] [] [] 0.
Definition MAX_RETAINED_ASSIGNMENTS : nat := 2000.

Definition load_of (c : Coordinator) (agent : string) : Z := default 0 (dget (cd_loads c) agent).

(** [register_agent], [register_runtime], [register_skill], [register_tool] *)
Definition register_coord_agent (id : string) (capabilities : list string) (preferred : string) (c : Coordinator) : Coordinator :=
  mkCoordinator (dset (cd_agents c) id (mkCoordAgent capabilities preferred)) (cd_runtimes c) (cd_skills c) (cd_tools c)
    (if dmem (cd_loads c) id then cd_loads c else dset (cd_loads c) id 0) (cd_assignments c) (cd_asked c).
Definition register_coord_runtime (id : string) (specs : pydict pyval) (c : Coordinator) : Coordinator :=
  mkCoordinator (cd_agents c) (dset (cd_runtimes c) id specs) (cd_skills c) (cd_tools c) (cd_loads c) (cd_assignments c) (cd_asked c).
Definition register_coord_skill (id : string) (meta : pydict string) (c : Coordinator) : Coordinator :=
  mkCoordinator (cd_agents c) (cd_runtimes c) (dset (cd_skills c) id meta) (cd_tools c) (cd_loads c) (cd_assignments c) (cd_asked c).
Definition register_coord_tool (id : string) (meta : pydict string) (c : Coordinator) : Coordinator :=
  mkCoordinator (cd_agents c) (cd_runtimes c) (cd_skills c) (dset (cd_tools c) id meta) (cd_loads c) (cd_assignments c) (cd_asked c).

(** What the capability matcher is asked, and the name it answers. *)
Definition Matcher : Type := nat -> string -> list string -> string -> string -> option string.

Section coordinator.
(** The matcher, when one is wired. *)
Variable matcher : option Matcher.

Definition keywords_of (t : TaskExecution) : list string := words (lower (tx_title t)).

(** The score of an agent for a task. *)
Definition agent_score (c : Coordinator) (t : TaskExecution) (id : string) (a : Agent) : Q :=
  let keywords : gset string := list_to_set (keywords_of t ++ [lower (tx_title t)]) in
  let caps : gset string := list_to_set (map lower (ag_capabilities a)) in
  (inject_Z (Z.of_nat (size (keywords ∩ caps))) / inject_Z (Z.max (Z.of_nat (size keywords)) 1)
   - inject_Z (load_of c id) * (1 # 10))%Q.

Fixpoint best_agent (c : Coordinator) (t : TaskExecution) (l : pydict Agent) (best : string) (best_score : Q) : string :=
  match l with
  | [] => best
  | (id, a) :: l' =>
      if Qle_bool (agent_score c t id a) best_score then best_agent c t l' best best_score
      else best_agent c t l' id (agent_score c t id a)
  end.

(** [_select_best_agent] *)
Definition select_best_agent (c : Coordinator) (t : TaskExecution) : string * Coordinator :=
  let by_keywords := let b := best_agent c t (cd_agents c) "" (-1) in if decide (b = "") then "default" else b in
  match matcher with
  | None => (by_keywords, c)
  | Some f =>
      let c' := mkCoordinator (cd_agents c) (cd_runtimes c) (cd_skills c) (cd_tools c) (cd_loads c) (cd_assignments c) (S (cd_asked c)) in
      match f (cd_asked c) (if decide (tx_type t = "") then "task" else tx_type t) (tx_skills t) (tx_runtime t) (tx_preferred_agent t) with
      | Some name => (name, c')
      | None => (by_keywords, c')
      end
  end.

(** [_select_runtime] *)
Definition select_coord_runtime (c : Coordinator) (agent : string) : string :=
  let preferred := match dget (cd_agents c) agent with Some a => ag_runtime a | None => "auto" end in
  if bool_decide (preferred <> "auto") && dmem (cd_runtimes c) preferred then preferred
  else match cd_runtimes c with (rid, _) :: _ => rid | [] => "default" end.

(** [_select_skills] and [_select_tools]: those whose text holds a keyword. *)
Definition by_keyword (field : string) (n : nat) (t : TaskExecution) (d : pydict (pydict string)) : list string :=
  take n (map fst (List.filter (fun p =>
    let text := lower (p.1 +:+ " " +:+ default "" (dget p.2 "description") +:+ " " +:+ default "" (dget p.2 field)) in
    existsb (fun kw => contains kw text) (keywords_of t)) d)).

Definition select_skills (c : Coordinator) (t : TaskExecution) : list string := by_keyword "domain" 5 t (cd_skills c).
Definition select_tools (c : Coordinator) (t : TaskExecution) : list string := by_keyword "category" 3 t (cd_tools c).

Definition min_q (x y : Q) : Q := if Qle_bool x y then x else y.

(** [_calculate_confidence] *)
Definition calculate_confidence (c : Coordinator) (agent runtime : string) : Q :=
  let known (s : string) : Q := if bool_decide (s <> "") && bool_decide (s <> "default") then (1 # 10)%Q else 0%Q in
  max_q (1 # 10) (min_q 1 ((7 # 10) + known agent + known runtime - min_q (inject_Z (load_of c agent) * (5 # 100)) (3 # 10))).

(** [assign] *)
Definition assign (t : TaskExecution) (c : Coordinator) : AgentAssignment * Coordinator :=
  let '(agent, c) := select_best_agent c t in
  let runtime := select_coord_runtime c agent in
  let confidence := calculate_confidence c agent runtime in
  let a := mkAssignment (tx_id t) agent runtime (select_skills c t) (select_tools c t) confidence
             ("Agent " +:+ agent +:+ " selected for task '" +:+ tx_title t +:+ "' (confidence: " +:+ fixed 2 confidence +:+ ")") in
  (a, mkCoordinator (cd_agents c) (cd_runtimes c) (cd_skills c) (cd_tools c)
        (match dget (cd_loads c) agent with Some n => dset (cd_loads c) agent (n + 1) | None => cd_loads c end)
        (keep_last MAX_RETAINED_ASSIGNMENTS (dmove (cd_assignments c) (tx_id t) a)) (cd_asked c)).

(** [release_agent] *)
Definition release_agent (tid : string) (c : Coordinator) : Coordinator :=
  match dget (cd_assignments c) tid with
  | Some a =>
      match dget (cd_loads c) (as_agent a) with
      | Some n => mkCoordinator (cd_agents c) (cd_runtimes c) (cd_skills c) (cd_tools c)
                    (dset (cd_loads c) (as_agent a) (Z.max 0 (n - 1))) (cd_assignments c) (cd_asked c)
      | None => c
      end
  | None => c
  end.
End coordinator.

(** ** Validation *)

Definition MAX_RETAINED_VALIDATIONS : nat := 2000.

(** What the history keeps of a validation: the task, the outcome, the last
    errors and whether there was a result. *)
Record Validation := mkValidation { vd_task : string; vd_outcome : ValidationOutcome.t; vd_errors : list string; vd_result : bool }.

Record Validator := mkValidator {
  vl_criteria : pydict (list string);
  vl_results : pydict ValidationOutcome.t;
  vl_history : list Validation
}.

Definition empty_validator : Validator := mkValidator [] [] [].

(** [set_criteria] *)
Definition set_criteria (tid : string) (criteria : list string) (v : Validator) : Validator :=
  mkValidator (keep_last MAX_RETAINED_VALIDATIONS (dmove (vl_criteria v) tid criteria)) (vl_results v) (vl_history v).

Definition no_result (t : TaskExecution) : bool := match tx_result t with None => true | Some PNone => true | _ => false end.
Definition no_errors (t : TaskExecution) : bool := match tx_errors t with [] => true | _ => false end.

(** The loop over the criteria. *)
Fixpoint check_criteria (t : TaskExecution) (criteria : list string) : option ValidationOutcome.t :=
  match criteria with
  | [] => None
  | c :: l =>
      if bool_decide (c = "result_present") && no_result t then Some ValidationOutcome.FAIL
      else if bool_decide (c = "no_errors") && negb (no_errors t) then Some ValidationOutcome.FAIL
      else if bool_decide (c = "needs_human_review") && negb (no_result t) then Some ValidationOutcome.NEEDS_REVIEW
      else check_criteria t l
  end.

(** [_evaluate] *)
Definition evaluate (t : TaskExecution) (criteria : list string) : ValidationOutcome.t :=
  match check_criteria t criteria with
  | Some o => o
  | None =>
      if negb (no_result t) && no_errors t then ValidationOutcome.PASS
      else if negb (no_result t) && negb (no_errors t) then ValidationOutcome.RETRY
      else if no_result t && no_errors t then ValidationOutcome.NEEDS_REVIEW
      else ValidationOutcome.FAIL
  end.

(** [validate] *)
Definition validate (t : TaskExecution) (v : Validator) : ValidationOutcome.t * Validator :=
  let o := evaluate t (default ["result_present"] (dget (vl_criteria v) (tx_id t))) in
  let last_errors := drop (length (tx_errors t) - 3) (tx_errors t) in
  (o, mkValidator (vl_criteria v) (keep_last MAX_RETAINED_VALIDATIONS (dmove (vl_results v) (tx_id t) o))
        (deque_append MAX_RETAINED_VALIDATIONS (vl_history v) (mkValidation (tx_id t) o last_errors (negb (no_result t))))).

(** ** Feedback *)

Record Report := mkExecReport {
  er_execution : string;
  er_mission : string;
  er_state : MissionState.t;
  er_total : Z;
  er_completed : Z;
  er_failed : Z;
  er_duration : Q;
  er_agents : list string;
  er_runtimes : list string;
  er_skills : list string;
  er_tools : list string;
  er_errors : list string;
  er_optimizations : list string
}.

(** A lesson: its kind and its message. *)
Definition Learning : Type := string * message.

Record Feedback := mkFeedback { fb_reports : pydict Report; fb_learnings : list (string * list Learning) }.

(** [_extract_learnings] *)
Definition extract_learnings (r : Report) : list Learning :=
  (if decide (er_state r = MissionState.COMPLETED) then [("success", Msg "Mission {} completed successfully." [er_mission r])]
   else if decide (er_state r = MissionState.FAILED) then [("failure", Msg "Mission {} failed: {}" (er_mission r :: er_errors r))]
   else [])
  ++ (if 0 <? er_failed r then [("warning", Msg "{} tasks failed out of {}" [pretty (er_failed r); pretty (er_total r)])] else [])
  ++ (match er_optimizations r with [] => [] | l => [("optimization", Msg "Optimizations found: {}" l)] end).

(** [_calculate_efficiency] *)
Definition calculate_efficiency (r : Report) : Q :=
  if decide (er_total r = 0) then 0%Q
  else let base := (inject_Z (er_completed r) / inject_Z (er_total r))%Q in
       tenths ((if 0 <? er_failed r then base * (8 # 10) else base) * 100)%Q.

(** [_generate_recommendations] *)
Definition feedback_recommendations (r : Report) : list string :=
  (if Qle_bool (inject_Z (er_failed r)) (inject_Z (er_total r) * (3 # 10)) then []
   else ["Consider reviewing task decomposition — high failure rate."])
  ++ (if Qle_bool (er_duration r) 600000 then [] else ["Consider runtime optimization — mission duration > 10 min."]).

(** [analyze] *)
Definition analyze (r : Report) (f : Feedback) : Feedback :=
  mkFeedback (dset (fb_reports f) (er_execution r) r) (fb_learnings f ++ [(er_execution r, extract_learnings r)]).

(** ** Optimisation *)

(** What is observed of an execution. *)
Definition Observation : Type := pydict pyval.

Definition num_of (v : pyval) : Q :=
  match v with PInt z => inject_Z z | PFloat q => q | PBool true => 1 | _ => 0 end.

(** [obs.get(key, 0)] of a number *)
Definition number_of (o : Observation) (key : string) : Q := match dget o key with Some v => num_of v | None => 0 end.

(** [identify_slow_tasks]: the observations of slow tasks, at most ten. *)
Definition identify_slow_tasks (l : list Observation) : list Observation :=
  take 10 (List.filter (fun o => negb (Qle_bool (number_of o "duration_ratio") 2)) l).

Definition runtime_of (o : Observation) : string := match dget o "runtime_id" with Some (PStr s) => s | _ => "unknown" end.

(** The durations by runtime, in the order in which the runtimes are met. *)
Fixpoint durations_by (l : list Observation) (d : pydict (list Q)) : pydict (list Q) :=
  match l with
  | [] => d
  | o :: l' => durations_by l' (dset d (runtime_of o) (default [] (dget d (runtime_of o)) ++ [number_of o "duration_ms"]))
  end.

Definition average (l : list Q) : Q := (foldr Qplus 0 l / inject_Z (Z.of_nat (length l)))%Q.

(** [identify_runtime_issues] *)
Definition identify_runtime_issues (l : list Observation) : list string :=
  map fst (List.filter (fun p => (2 <=? length p.2)%nat && negb (Qle_bool (average p.2) 10000)) (durations_by l [])).

(** [generate_recommendations]: their categories. *)
Definition generate_recommendations (l : list Observation) : list string :=
  (match identify_slow_tasks l with [] => [] | _ => ["schedule"] end)
  ++ (match identify_runtime_issues l with [] => [] | _ => ["runtime"] end).

(** What the executor records of an execution. *)
Definition observe_execution (r : Report) : Observation :=
  [("execution_id", PStr (er_execution r)); ("state", PStr (MissionState.value (er_state r))); ("total_tasks", PInt (er_total r));
   ("failed_tasks", PInt (er_failed r))].
