(* ===== verification/MissionExecution.v ===== *)
(** * The mission executor and its controller
    ([backend/execution/mission_executor.py], [execution_controller.py])

    An execution is prepared, its tasks are executed one call each, from any
    thread, and it is finalised.  A call holds the lock of the executor while it
    begins and while it ends; in between the task is done elsewhere, and other
    calls go on: the two halves are separate operations.  Tasks and machines are
    shared objects, in heaps. *)
From stdpp Require Import base gmap strings list sets sorting pretty.
From Stdlib Require Import ZArith QArith Lia.
From S2P Require Import Prelude.
From S2P Require Import RetryPolicy.
From S2P Require Import RunLedger.
From S2P Require Import FailureTaxonomy.
From S2P Require Import RunUsage.
From S2P Require Import TaskScheduler.
From S2P Require Import ExecutionStates.
From S2P Require Import AgentCoordination.
#[local] Open Scope Z_scope.

(** ** Tasks *)

Definition tx_with_errors (errors : list string) (t : TaskExecution) : TaskExecution :=
  mkTaskExec (tx_id t) (tx_title t) (tx_type t) (tx_preferred_agent t) (tx_status t) (tx_agent t) (tx_runtime t) (tx_model t)
    (tx_provider t) (tx_decision t) (tx_skills t) (tx_tools t) (tx_tools_used t) (tx_result t) errors (tx_retries t) (tx_started t)
    (tx_completed t) (tx_duration t) (tx_resources t) (tx_physiques t) (tx_outcome t).

(** A task refused, at some date. *)
Definition tx_refused (motif : string) (date : Q) (t : TaskExecution) : TaskExecution :=
  mkTaskExec (tx_id t) (tx_title t) (tx_type t) (tx_preferred_agent t) TaskStatus.FAILED (tx_agent t) (tx_runtime t) (tx_model t)
    (tx_provider t) (tx_decision t) (tx_skills t) (tx_tools t) (tx_tools_used t) (tx_result t) [motif] (tx_retries t) (tx_started t)
    (Some date) (tx_duration t) (tx_resources t) (tx_physiques t) (tx_outcome t).

(** A task given to an agent. *)
Definition tx_engaged (a : AgentAssignment) (date : Q) (t : TaskExecution) : TaskExecution :=
  mkTaskExec (tx_id t) (tx_title t) (tx_type t) (tx_preferred_agent t) TaskStatus.RUNNING (as_agent a) (as_runtime a) (tx_model t)
    (tx_provider t) (tx_decision t) (as_skills a) (as_tools a) (tx_tools_used t) (tx_result t) (tx_errors t) (tx_retries t) (Some date)
    (tx_completed t) (tx_duration t) (tx_resources t) (tx_physiques t) (tx_outcome t).

(** What the executor of tasks writes of the machine, on every way out. *)
Definition tx_with_physiques (d : pydict pyval) (t : TaskExecution) : TaskExecution :=
  mkTaskExec (tx_id t) (tx_title t) (tx_type t) (tx_preferred_agent t) (tx_status t) (tx_agent t) (tx_runtime t) (tx_model t)
    (tx_provider t) (tx_decision t) (tx_skills t) (tx_tools t) (tx_tools_used t) (tx_result t) (tx_errors t) (tx_retries t)
    (tx_started t) (tx_completed t) (tx_duration t) (tx_resources t) d (tx_outcome t).

(** A task that no runtime could serve. *)
Definition tx_unserved (message : string) (date : Q) (t : TaskExecution) : TaskExecution :=
  mkTaskExec (tx_id t) (tx_title t) (tx_type t) (tx_preferred_agent t) (tx_status t) (tx_agent t) (tx_runtime t) (tx_model t)
    (tx_provider t) (tx_decision t) (tx_skills t) (tx_tools t) (tx_tools_used t) (tx_result t) (tx_errors t ++ [message])
    (tx_retries t) (tx_started t) (Some date)
    (match tx_started t with Some d => ((date - d) * 1000)%Q | None => 0%Q end) (tx_resources t) (tx_physiques t) (tx_outcome t).

(** One more attempt. *)
Definition tx_retried (errors : list string) (t : TaskExecution) : TaskExecution :=
  mkTaskExec (tx_id t) (tx_title t) (tx_type t) (tx_preferred_agent t) TaskStatus.PENDING (tx_agent t) (tx_runtime t) (tx_model t)
    (tx_provider t) (tx_decision t) (tx_skills t) (tx_tools t) (tx_tools_used t) (tx_result t) errors (tx_retries t + 1)
    (tx_started t) (tx_completed t) (tx_duration t) (tx_resources t) (tx_physiques t) (tx_outcome t).

(** What a completion answers. *)
Record Outcome := mkTaskOutcome {
  oc_result : option pyval;
  oc_duration : Q;
  oc_runtime : string;
  oc_resources : pydict pyval;
  oc_model : string;
  oc_metadata : pydict pyval
}.

Inductive issue :=
  | Rendu (o : Outcome)
  | Indisponible (message : string)
  | Leve (e : exn).

Definition texte_meta (d : pydict pyval) (key : string) : string := match dget d key with Some (PStr s) => s | _ => "" end.
Definition textes_meta (d : pydict pyval) (key : string) : list string :=
  match dget d key with Some (PList l) => omap (fun v => match v with PStr s => Some s | _ => None end) l | _ => [] end.

(** A task served, and the decision it was routed under. *)
Definition tx_served (o : Outcome) (decision : string) (date : Q) (t : TaskExecution) : TaskExecution :=
  mkTaskExec (tx_id t) (tx_title t) (tx_type t) (tx_preferred_agent t) (tx_status t) (tx_agent t) (oc_runtime o) (oc_model o)
    (texte_meta (oc_metadata o) "fournisseur") decision (tx_skills t) (tx_tools t) (textes_meta (oc_metadata o) "tools_invoked")
    (oc_result o) (tx_errors t) (tx_retries t) (tx_started t) (Some date) (oc_duration o) (oc_resources o) (tx_physiques t)
    (tx_outcome t).

Definition tx_judged (o : ValidationOutcome.t) (t : TaskExecution) : TaskExecution :=
  mkTaskExec (tx_id t) (tx_title t) (tx_type t) (tx_preferred_agent t) (tx_status t) (tx_agent t) (tx_runtime t) (tx_model t)
    (tx_provider t) (tx_decision t) (tx_skills t) (tx_tools t) (tx_tools_used t) (tx_result t) (tx_errors t) (tx_retries t)
    (tx_started t) (tx_completed t) (tx_duration t) (tx_resources t) (tx_physiques t) (Some o).

(** ** The engine *)

Definition MAX_RETAINED_EVENTS : nat := 2000.
Definition MAX_RETAINED_EXECUTIONS : nat := 512.

(** An event, its date apart. *)
Definition Event : Type := string * pydict pyval.

(** What the registry of agents and the trust engine are told. *)
Inductive sync :=
  | SyncStarted (agent mission task : string)
  | SyncReleased (agent : string) (duration : Q) (status : TaskStatus.t).

Record Engine := mkEngine {
  en_heap : heap;
  en_machines : list Machine;
  en_sched : Scheduler;
  en_coord : Coordinator;
  en_valid : Validator;
  en_feedback : Feedback;
  en_observations : list Observation;
  en_events : list Event;
  en_dispatched : list Event;
  en_own : pydict (list string);
  en_runs : pydict string;
  en_base : Base;
  en_sync : list sync;
  en_dates : nat;
  en_perfs : nat;
  en_vues : nat;
  en_executions : pydict nat;
  en_reports : pydict Report
}.

Definition new_engine (b : Base) : Engine :=
  mkEngine [] [] empty_scheduler empty_coordinator empty_validator (mkFeedback [] []) [] [] [] [] [] b [] 0 0 0 [] [].

Definition set_heap x e := mkEngine x (en_machines e) (en_sched e) (en_coord e) (en_valid e) (en_feedback e) (en_observations e)
  (en_events e) (en_dispatched e) (en_own e) (en_runs e) (en_base e) (en_sync e) (en_dates e) (en_perfs e) (en_vues e)
  (en_executions e) (en_reports e).
Definition set_machines x e := mkEngine (en_heap e) x (en_sched e) (en_coord e) (en_valid e) (en_feedback e) (en_observations e)
  (en_events e) (en_dispatched e) (en_own e) (en_runs e) (en_base e) (en_sync e) (en_dates e) (en_perfs e) (en_vues e)
  (en_executions e) (en_reports e).
Definition set_sched x e := mkEngine (en_heap e) (en_machines e) x (en_coord e) (en_valid e) (en_feedback e) (en_observations e)
  (en_events e) (en_dispatched e) (en_own e) (en_runs e) (en_base e) (en_sync e) (en_dates e) (en_perfs e) (en_vues e)
  (en_executions e) (en_reports e).
Definition set_coord x e := mkEngine (en_heap e) (en_machines e) (en_sched e) x (en_valid e) (en_feedback e) (en_observations e)
  (en_events e) (en_dispatched e) (en_own e) (en_runs e) (en_base e) (en_sync e) (en_dates e) (en_perfs e) (en_vues e)
  (en_executions e) (en_reports e).
Definition set_valid x e := mkEngine (en_heap e) (en_machines e) (en_sched e) (en_coord e) x (en_feedback e) (en_observations e)
  (en_events e) (en_dispatched e) (en_own e) (en_runs e) (en_base e) (en_sync e) (en_dates e) (en_perfs e) (en_vues e)
  (en_executions e) (en_reports e).
Definition set_learned f o e := mkEngine (en_heap e) (en_machines e) (en_sched e) (en_coord e) (en_valid e) f o
  (en_events e) (en_dispatched e) (en_own e) (en_runs e) (en_base e) (en_sync e) (en_dates e) (en_perfs e) (en_vues e)
  (en_executions e) (en_reports e).
Definition set_events x y e := mkEngine (en_heap e) (en_machines e) (en_sched e) (en_coord e) (en_valid e) (en_feedback e)
  (en_observations e) x y (en_own e) (en_runs e) (en_base e) (en_sync e) (en_dates e) (en_perfs e) (en_vues e)
  (en_executions e) (en_reports e).
Definition set_own x e := mkEngine (en_heap e) (en_machines e) (en_sched e) (en_coord e) (en_valid e) (en_feedback e)
  (en_observations e) (en_events e) (en_dispatched e) x (en_runs e) (en_base e) (en_sync e) (en_dates e) (en_perfs e) (en_vues e)
  (en_executions e) (en_reports e).
Definition set_runs x e := mkEngine (en_heap e) (en_machines e) (en_sched e) (en_coord e) (en_valid e) (en_feedback e)
  (en_observations e) (en_events e) (en_dispatched e) (en_own e) x (en_base e) (en_sync e) (en_dates e) (en_perfs e) (en_vues e)
  (en_executions e) (en_reports e).
Definition set_base x e := mkEngine (en_heap e) (en_machines e) (en_sched e) (en_coord e) (en_valid e) (en_feedback e)
  (en_observations e) (en_events e) (en_dispatched e) (en_own e) (en_runs e) x (en_sync e) (en_dates e) (en_perfs e) (en_vues e)
  (en_executions e) (en_reports e).
Definition set_sync x e := mkEngine (en_heap e) (en_machines e) (en_sched e) (en_coord e) (en_valid e) (en_feedback e)
  (en_observations e) (en_events e) (en_dispatched e) (en_own e) (en_runs e) (en_base e) x (en_dates e) (en_perfs e) (en_vues e)
  (en_executions e) (en_reports e).
Definition set_clocks x y z e := mkEngine (en_heap e) (en_machines e) (en_sched e) (en_coord e) (en_valid e) (en_feedback e)
  (en_observations e) (en_events e) (en_dispatched e) (en_own e) (en_runs e) (en_base e) (en_sync e) x y z
  (en_executions e) (en_reports e).
Definition set_executions x y e := mkEngine (en_heap e) (en_machines e) (en_sched e) (en_coord e) (en_valid e) (en_feedback e)
  (en_observations e) (en_events e) (en_dispatched e) (en_own e) (en_runs e) (en_base e) (en_sync e) (en_dates e) (en_perfs e)
  (en_vues e) x y.

(** [_unique]: the texts that are not empty, once each, in order. *)
Fixpoint unique_from (vus : list string) (l : list string) : list string :=
  match l with
  | [] => []
  | x :: l' => if bool_decide (x = "") || bool_decide (x ∈ vus) then unique_from vus l' else x :: unique_from (x :: vus) l'
  end.
Definition unique (l : list string) : list string := unique_from [] l.

(** [_joindre] *)
Definition joindre_valeurs (l : list string) : string := String.concat ", " (unique (map strip l)).

Section engine.
(** The ledger's parameters, the clocks, what the registry of missions answers
    at its [i]-th reading, the matcher, the text of a JSON object, and what the
    classification of failures relies on. *)
Variable uuid_hex : nat -> string.
Variable maintenant : nat -> string.
Variable refuse : nat -> option exn.
Variable empreinte_du_processus : string.
Variable date : nat -> Q.
Variable perf : nat -> Q.
Variable vue : nat -> mission_vue.
Variable matcher : option Matcher.
Variable json_dumps : pydict pyval -> string.
Variable mot_hors_ascii : string -> bool.
Variable equivaut : string -> string -> bool.
Variable int_of : string -> option Z.

Definition modify (f : Engine -> Engine) : M Engine unit := fun e => (Ok tt, f e).

Definition maintenant_q : M Engine Q := fun e => (Ok (date (en_dates e)), set_clocks (S (en_dates e)) (en_perfs e) (en_vues e) e).
Definition lire_perf : M Engine Q := fun e => (Ok (perf (en_perfs e)), set_clocks (en_dates e) (S (en_perfs e)) (en_vues e) e).

(** [_mission()]: nothing is asked for an execution without a mission. *)
Definition lire_vue (meta : ExecutionMeta) : M Engine mission_vue := fun e =>
  if decide (em_mission meta = "") then (Ok None, e)
  else (Ok (vue (en_vues e)), set_clocks (en_dates e) (en_perfs e) (S (en_vues e)) e).

(** [_publish] *)
Definition publish_ (type : string) (data : pydict pyval) (dispatch : bool) : M Engine unit :=
  modify (fun e => set_events (deque_append MAX_RETAINED_EVENTS (en_events e) (type, data))
                     (if dispatch then en_dispatched e ++ [(type, data)] else en_dispatched e) e).
Definition publish (type : string) (data : pydict pyval) : M Engine unit := publish_ type data true.

Definition dire (s : sync) : M Engine unit := modify (fun e => set_sync (en_sync e ++ [s]) e).

(** [_sync_agent_started] and [_sync_agent_released]: nothing for no agent. *)
Definition sync_agent_started (agent mission task : string) : M Engine unit :=
  if decide (agent = "") then ret tt else dire (SyncStarted agent mission task).
Definition sync_agent_released (agent : string) (duration : Q) (status : TaskStatus.t) : M Engine unit :=
  if decide (agent = "") then ret tt else dire (SyncReleased agent duration status).

(** The object of a task or of a machine. *)
Definition tache (r : nat) : M Engine TaskExecution := fun e =>
  match en_heap e !! r with Some t => (Ok t, e) | None => (Err (Exn KeyError []), e) end.
Definition ecrire (r : nat) (f : TaskExecution -> TaskExecution) : M Engine unit := modify (fun e => set_heap (alter f r (en_heap e)) e).
Definition machine (mr : nat) : M Engine Machine := fun e =>
  match en_machines e !! mr with Some m => (Ok m, e) | None => (Err (Exn KeyError []), e) end.

(** [sm.transition(...)] *)
Definition passer_a (mr : nat) (target : MissionState.t) (reason : string) : M Engine unit :=
  m <- machine mr ;;
  let '(r, m') := transition target reason m in
  modify (fun e => set_machines (<[mr := m']> (en_machines e)) e) ;;;
  _ <- lift r ;; ret tt.

(** An operation of the ledger. *)
Definition registre {A} (m : M Base A) : M Engine A := zoom en_base set_base m.
Definition meilleur_effort (m : M Engine unit) : M Engine unit := catch m (fun _ => true) (fun _ => ret tt).

(** ** Preparation *)

(** [_ouvrir_le_run] *)
Definition ouvrir_le_run (meta : ExecutionMeta) (tasks : list TaskExecution) (contrat : option string) : M Engine unit :=
  meilleur_effort (
    run <- registre (ouvrir uuid_hex maintenant refuse empreinte_du_processus
      [("mission", PStr (em_mission meta)); ("objectif", PStr (em_goal meta));
       ("runtime", PStr (default "" (head (unique (map tx_runtime tasks)))));
       ("agent", PStr (default "" (head (unique (map tx_agent tasks))))); ("contrat", PStr (default "" contrat))]) ;;
    let id := texte_de (col run "identifiant") in
    registre (demarrer maintenant refuse id) ;;;
    modify (fun e => set_runs (keep_last MAX_RETAINED_TASKS (dset (en_runs e) (em_id meta) id)) e)).

(** [register_task] for each of the objects. *)
Fixpoint register_all (refs : list nat) (dependencies : pydict (list string)) : M Engine unit :=
  match refs with
  | [] => ret tt
  | r :: refs' =>
      t <- tache r ;;
      modify (fun e => set_sched (register_task (en_heap e) (tx_id t) r (default [] (dget dependencies (tx_id t))) (en_sched e)) e) ;;;
      register_all refs' dependencies
  end.

Fixpoint taches (refs : list nat) : M Engine (list TaskExecution) :=
  match refs with
  | [] => ret []
  | r :: refs' => t <- tache r ;; ts <- taches refs' ;; ret (t :: ts)
  end.

(** [ExecutionStateMachine(meta)] *)
Definition nouvelle (meta : ExecutionMeta) : M Engine nat :=
  p <- lire_perf ;;
  v <- lire_vue meta ;;
  d <- (match v with Some (_, Some _) => maintenant_q | _ => ret 0%Q end) ;;
  m <- lift (nouvelle_machine meta v d p) ;;
  fun e => (Ok (length (en_machines e)), set_machines (en_machines e ++ [m]) e).

(** [prepare] *)
Definition prepare (meta : ExecutionMeta) (refs : list nat) (dependencies : pydict (list string)) (contrat : option string)
    : M Engine nat :=
  mr <- nouvelle meta ;;
  passer_a mr MissionState.PLANNING "Preparing execution" ;;;
  ts <- taches refs ;;
  modify (fun e => set_own (keep_last MAX_RETAINED_TASKS (dset (en_own e) (em_id meta) (map tx_id ts))) e) ;;;
  register_all refs dependencies ;;;
  ouvrir_le_run meta ts contrat ;;;
  publish "execution.started" [("execution_id", PStr (em_id meta))] ;;;
  publish "execution.planning" [("execution_id", PStr (em_id meta))] ;;;
  passer_a mr MissionState.READY "Tasks registered and scheduled" ;;;
  ret mr.

(** ** The end of an execution *)

(** [self._execution_tasks.get(id, [])] *)
Definition own_tasks (e : Engine) (meta : ExecutionMeta) : list string := default [] (dget (en_own e) (em_id meta)).

(** The objects that the scheduler still has of some ids. *)
Definition objets (e : Engine) (ids : list string) : list TaskExecution :=
  omap (fun tid => get_task (en_sched e) tid ≫= fun r => en_heap e !! r) ids.

(** [_maybe_finalize_state] *)
Definition maybe_finalize_state (mr : nat) : M Engine unit :=
  m <- machine mr ;;
  if is_terminal m then ret tt
  else
    e <- get ;;
    let ids := own_tasks e (ms_meta m) in
    if negb (all_done (en_heap e) (en_sched e) ids) then ret tt
    else if existsb (fun t => bool_decide (tx_status t = TaskStatus.FAILED)) (objets e ids) then
      passer_a mr MissionState.FAILED "One or more tasks failed" ;;;
      publish "execution.failed" [("execution_id", PStr (em_id (ms_meta m)))]
    else
      passer_a mr MissionState.COMPLETED "All tasks completed" ;;;
      publish "execution.completed" [("execution_id", PStr (em_id (ms_meta m)))].

(** ** The beginning of a call of [execute_task] *)

(** What the first half of a call leaves to the second. *)
Inductive debut :=
  | Introuvable
  | Refuse_ (motif : string)
  | Engage (r : nat) (a : AgentAssignment).

(** [sm.budget_consomme_s] then [sm.budget_s] *)
Definition consomme_et_budget (mr : nat) : M Engine (Q * Q) :=
  p <- lire_perf ;; m <- machine mr ;; v <- lire_vue (ms_meta m) ;; b <- lift (budget_s v m) ;; ret (budget_consomme_s p m, b).

(** [_refuser_pour_budget] *)
Definition refuser_pour_budget (mr r : nat) (tid : string) : M Engine debut :=
  m <- machine mr ;;
  cb <- consomme_et_budget mr ;;
  let motif := "budget de mission atteint : " +:+ fixed 0 cb.1 +:+ " s consommées sur " +:+ fixed 0 cb.2 +:+ " s — tâche " +:+ tid
               +:+ " non engagée" in
  d <- maintenant_q ;;
  ecrire r (tx_refused motif d) ;;;
  cb' <- consomme_et_budget mr ;;
  publish "execution.budget_depasse" [("task_id", PStr tid); ("mission_id", PStr (em_mission (ms_meta m)));
                                      ("consomme_s", PFloat (tenths cb'.1)); ("budget_s", PFloat cb'.2)] ;;;
  ret (Refuse_ motif).

(** The first half of [execute_task]. *)
Definition commencer (mr : nat) (tid : string) : M Engine debut :=
  e <- get ;;
  match get_task (en_sched e) tid with
  | None => ret Introuvable
  | Some r =>
      cb <- consomme_et_budget mr ;;
      if Qle_bool cb.2 cb.1 then refuser_pour_budget mr r tid
      else
        passer_a mr MissionState.RUNNING ("Executing task " +:+ tid) ;;;
        publish "execution.task_started" [("task_id", PStr tid)] ;;;
        ecrire r (tx_with_errors []) ;;;
        t <- tache r ;;
        a <- (fun e => let '(a, c) := assign matcher t (en_coord e) in (Ok a, set_coord c e)) ;;
        d <- maintenant_q ;;
        ecrire r (tx_engaged a d) ;;;
        m <- machine mr ;;
        sync_agent_started (as_agent a) (em_mission (ms_meta m)) tid ;;;
        ret (Engage r a)
  end.

(** ** The end of a call of [execute_task] *)

(** What every way out does of the scheduler, the agent and the execution. *)
Definition liberer (mr r : nat) (tid : string) : M Engine unit :=
  t <- tache r ;;
  modify (fun e => set_heap (update_task tid (tx_status t) None (en_sched e) (en_heap e)) e) ;;;
  modify (fun e => set_coord (release_agent tid (en_coord e)) e) ;;;
  sync_agent_released (tx_agent t) (tx_duration t) (tx_status t) ;;;
  maybe_finalize_state mr.

(** No runtime could serve: the cause says whether there is another attempt. *)
Definition terminer_indisponible (mr r : nat) (tid message : string) : M Engine unit :=
  m <- machine mr ;;
  d <- maintenant_q ;;
  ecrire r (tx_unserved message d) ;;;
  let c := classer mot_hors_ascii equivaut message None None None in
  let soin := remede (cl_cause c) in
  t <- tache r ;;
  (if re_reessayer soin && (tx_retries t <? em_max_retries (ms_meta m)) then
     ecrire r (tx_retried (tx_errors t)) ;;;
     publish "execution.retry"
       [("task_id", PStr tid); ("reason", PStr "runtime_unavailable"); ("detail", PStr message); ("attempt", PInt (tx_retries t + 1));
        ("cause", PStr (Cause.value (cl_cause c))); ("indice", PStr (cl_indice c)); ("remede", PStr (re_explication soin));
        ("changer_de_modele", PBool (re_changer_de_modele soin)); ("reduire_le_modele", PBool (re_reduire_le_modele soin));
        ("elargir_le_contexte", PBool (re_elargir_le_contexte soin));
        ("changer_de_fournisseur", PBool (re_changer_de_fournisseur soin)); ("attendre_s", PFloat (re_attendre_s soin))]
   else
     ecrire r (tx_with_status TaskStatus.FAILED) ;;;
     publish "execution.failed"
       [("task_id", PStr tid); ("reason", PStr "runtime_unavailable"); ("detail", PStr message);
        ("cause", PStr (Cause.value (cl_cause c))); ("indice", PStr (cl_indice c));
        ("abandon", PStr (if re_reessayer soin then "plafond de tentatives atteint" else "cause non reprenable"));
        ("remede", PStr (re_explication soin))]) ;;;
  liberer mr r tid.

(** [_decision_en_json] *)
Definition decision_en_json (meta : pydict pyval) (modele runtime_servi : string) : string :=
  let demande := texte_meta meta "runtime_demande_par_le_routeur" in
  let modele_demande := texte_meta meta "modele_demande_par_le_routeur" in
  let fait :=
    [("runtime_demande", demande); ("runtime_servi", runtime_servi); ("modele", modele); ("fournisseur", texte_meta meta "fournisseur")]
    ++ (if bool_decide (demande <> "") && bool_decide (runtime_servi <> "") && bool_decide (demande <> runtime_servi)
        then [("repli", demande +:+ " indisponible, servi par " +:+ runtime_servi)] else [])
    ++ (if bool_decide (modele_demande <> "") && bool_decide (modele <> "") && bool_decide (modele_demande <> modele)
        then [("modele_demande", modele_demande);
              ("substitution", modele_demande +:+ " choisi par le routeur, " +:+ modele +:+ " engagé")] else []) in
  match List.filter (fun p => negb (bool_decide (p.2 = ""))) fait with
  | [] => ""
  | l => json_dumps (map (fun p => (p.1, PStr p.2)) l)
  end.

(** What the outcome of the validation makes of the task. *)
Definition appliquer_verdict (mr r : nat) (tid : string) (o : ValidationOutcome.t) : M Engine unit :=
  match o with
  | ValidationOutcome.PASS =>
      ecrire r (tx_with_status TaskStatus.COMPLETED) ;;;
      publish_ "execution.task_completed" [("task_id", PStr tid); ("outcome", PStr "pass")] false
  | ValidationOutcome.RETRY =>
      m <- machine mr ;;
      t <- tache r ;;
      if tx_retries t <? em_max_retries (ms_meta m) then ecrire r (tx_retried (tx_errors t ++ ["Retry after validation"]))
      else
        ecrire r (tx_with_status TaskStatus.FAILED) ;;;
        publish "execution.failed" [("task_id", PStr tid); ("reason", PStr "Max retries")]
  | ValidationOutcome.FAIL =>
      ecrire r (tx_with_status TaskStatus.FAILED) ;;;
      publish "execution.failed" [("task_id", PStr tid); ("reason", PStr "Validation failed")]
  | ValidationOutcome.NEEDS_REVIEW =>
      passer_a mr MissionState.WAITING_APPROVAL "Needs human review" ;;;
      publish "execution.waiting_approval" [("task_id", PStr tid)]
  end.

(** The task was served: its result is judged. *)
Definition terminer_rendu (mr r : nat) (tid : string) (o : Outcome) : M Engine unit :=
  d <- maintenant_q ;;
  ecrire r (tx_served o (decision_en_json (oc_metadata o) (oc_model o) (oc_runtime o)) d) ;;;
  passer_a mr MissionState.VALIDATING ("Validating task " +:+ tid) ;;;
  t <- tache r ;;
  v <- (fun e => let '(v, vl) := validate t (en_valid e) in (Ok v, set_valid vl e)) ;;
  ecrire r (tx_judged v) ;;;
  appliquer_verdict mr r tid v ;;;
  liberer mr r tid.

(** The second half of [execute_task]: an exception of another class goes
    through. *)
Definition terminer_tache (mr r : nat) (tid : string) (physiques : pydict pyval) (i : issue) : M Engine unit :=
  ecrire r (tx_with_physiques physiques) ;;;
  match i with
  | Rendu o => terminer_rendu mr r tid o
  | Indisponible message => terminer_indisponible mr r tid message
  | Leve x => raise x
  end.

(** [execute_task] with nothing in between. *)
Definition execute_task (mr : nat) (tid : string) (physiques : pydict pyval) (i : issue) : M Engine debut :=
  d <- commencer mr tid ;;
  match d with
  | Engage r _ => terminer_tache mr r tid physiques i ;;; ret d
  | _ => ret d
  end.

(** ** Finalisation *)

Definition sum_q (l : list Q) : Q := foldr Qplus 0%Q l.

(** The report of [finalize]. *)
Definition rapport (e : Engine) (m : Machine) : Report :=
  let tasks := objets e (own_tasks e (ms_meta m)) in
  let count s := Z.of_nat (length (List.filter (fun t => bool_decide (tx_status t = s)) tasks)) in
  mkExecReport (em_id (ms_meta m)) (em_mission (ms_meta m)) (ms_state m) (Z.of_nat (length tasks)) (count TaskStatus.COMPLETED)
    (count TaskStatus.FAILED) (sum_q (map tx_duration tasks))
    (match unique (map tx_agent tasks) with [] => em_tags (ms_meta m) | l => l end) (unique (map tx_runtime tasks))
    (unique (concat (map tx_skills tasks))) (unique (concat (map tx_tools_used tasks))) (omap (fun t => last (tx_errors t)) tasks) [].

(** [sum(int((t.resources_used or {}).get(key, 0)) for t in tasks)] *)
Definition jetons (key : string) (tasks : list TaskExecution) : res Z :=
  ns <-? res_map (fun t => py_int int_of (default (PInt 0) (dget (tx_resources t) key))) tasks ;; Ok (foldr Z.add 0 ns).

(** The cause of a run that did not succeed. *)
Definition cause_de (raison : string) : option Cause.t :=
  let c := classer mot_hors_ascii equivaut raison None None None in if classe c then Some (cl_cause c) else None.

(** [_clore_le_run] *)
Definition clore_le_run (report : Report) (tasks : list TaskExecution) : M Engine unit :=
  e <- get ;;
  modify (fun e => set_runs (ddel (en_runs e) (er_execution report)) e) ;;;
  match dget (en_runs e) (er_execution report) with
  | None => ret tt
  | Some id =>
      let statut := if decide (er_state report = MissionState.COMPLETED) then Statut.REUSSI else Statut.ECHOUE in
      let raison := first_chars 2000 (default "" (last (er_errors report))) in
      entree <- lift (jetons "prompt_tokens" tasks) ;;
      sortie <- lift (jetons "completion_tokens" tasks) ;;
      let cause := if bool_decide (statut <> Statut.REUSSI) && bool_decide (raison <> "") then cause_de raison else None in
      meilleur_effort (registre (constater refuse id
        [("runtime", PStr (joindre_valeurs (map tx_runtime tasks))); ("modele", PStr (joindre_valeurs (map tx_model tasks)));
         ("fournisseur", PStr (joindre_valeurs (map tx_provider tasks)));
         ("decision", PStr (joindre_valeurs (map tx_decision tasks)))])) ;;;
      meilleur_effort (
        mesures <- lift (agreger int_of (map (fun t => PDict (tx_physiques t)) tasks)) ;;
        match mesures with [] => ret tt | _ => registre (mesurer refuse id mesures) end) ;;;
      meilleur_effort (registre (terminer maintenant refuse id statut cause raison None (Some entree) (Some sortie)))
  end.

(** [finalize] *)
Definition finalize (mr : nat) : M Engine Report :=
  m <- machine mr ;;
  e <- get ;;
  let report := rapport e m in
  modify (fun e => set_learned (analyze report (en_feedback e)) (en_observations e ++ [observe_execution report]) e) ;;;
  clore_le_run report (objets e (own_tasks e (ms_meta m))) ;;;
  e <- get ;;
  match generate_recommendations (en_observations e) with
  | [] => ret tt
  | recs => publish "execution.optimized" [("execution_id", PStr (er_execution report)); ("recommendations", PInt (Z.of_nat (length recs)))]
  end ;;;
  ret report.

(** [run_de] *)
Definition run_de (execution : string) (e : Engine) : option string := dget (en_runs e) execution.

(** [pause], [resume] and [cancel] *)
Definition si_etat (mr : nat) (b : Machine -> bool) (target : MissionState.t) (reason : string) : M Engine bool :=
  m <- machine mr ;; if b m then passer_a mr target reason ;;; ret true else ret false.

Definition pause (mr : nat) : M Engine bool :=
  si_etat mr (fun m => bool_decide (ms_state m = MissionState.RUNNING)) MissionState.PAUSED "User requested pause".
Definition resume (mr : nat) : M Engine bool :=
  si_etat mr (fun m => bool_decide (ms_state m = MissionState.PAUSED)) MissionState.RUNNING "User requested resume".
Definition cancel (mr : nat) : M Engine bool :=
  si_etat mr (fun m => negb (is_terminal m)) MissionState.CANCELLED "User requested cancel".

(** ** The controller *)

Definition execution_inconnue (id : string) : exn := Exn ValueError [Msg "Execution {} not found" [id]].

(** [ExecutionController.start]: the oldest executions are dropped, with their
    reports. *)
Definition start (meta : ExecutionMeta) (refs : list nat) (dependencies : pydict (list string)) : M Engine nat :=
  mr <- prepare meta refs dependencies None ;;
  modify (fun e =>
    let l := dmove (en_executions e) (em_id meta) mr in
    let dropped := take (length l - MAX_RETAINED_EXECUTIONS) l in
    set_executions (keep_last MAX_RETAINED_EXECUTIONS l) (fold_left (fun d p => ddel d p.1) dropped (en_reports e)) e) ;;;
  ret mr.

(** The machine of an execution, for the calls that raise without it. *)
Definition execution (id : string) : M Engine nat := fun e =>
  match dget (en_executions e) id with Some mr => (Ok mr, e) | None => (Err (execution_inconnue id), e) end.

(** [execute_task], [finalize], [pause], [resume] and [cancel] by id *)
Definition execute_task_by_id (id tid : string) (physiques : pydict pyval) (i : issue) : M Engine debut :=
  mr <- execution id ;; execute_task mr tid physiques i.

Definition finalize_by_id (id : string) : M Engine Report :=
  mr <- execution id ;;
  report <- finalize mr ;;
  modify (fun e => set_executions (en_executions e) (keep_last MAX_RETAINED_EXECUTIONS (dmove (en_reports e) id report)) e) ;;;
  ret report.

Definition si_connue (id : string) (f : nat -> M Engine bool) : M Engine bool := fun e =>
  match dget (en_executions e) id with Some mr => f mr e | None => (Ok false, e) end.
Definition pause_by_id (id : string) : M Engine bool := si_connue id pause.
Definition resume_by_id (id : string) : M Engine bool := si_connue id resume.
Definition cancel_by_id (id : string) : M Engine bool := si_connue id cancel.
End engine.
