(* ===== verification/ExecutionRuns.v ===== *)
(** * What the mission executor promises, and what it does not

    Theorems on [MissionExecution]: what a call does when the execution was
    paused or cancelled under it, when a review is wanted, when the budget is
    spent, how many attempts a task gets, what the ledger says of a finalised
    execution, and what the optimisation engine can say of it. *)
From stdpp Require Import base gmap strings list sets sorting pretty.
From Stdlib Require Import ZArith QArith Lqa Lia.
From S2P Require Import Prelude.
From S2P Require Import RetryPolicy.
From S2P Require Import RunLedger.
From S2P Require Import LedgerRuns.
From S2P Require Import FailureTaxonomy.
From S2P Require Import RunUsage.
From S2P Require Import TaskScheduler.
From S2P Require Import ExecutionStates.
From S2P Require Import AgentCoordination.
From S2P Require Import MissionExecution.
#[local] Open Scope Z_scope.

(** ** What is observed of executions *)

Lemma number_absent r : number_of (observe_execution r) "duration_ratio" = 0%Q /\ number_of (observe_execution r) "duration_ms" = 0%Q
  /\ runtime_of (observe_execution r) = "unknown".
Proof. done. Qed.

Lemma durations_zero rs : forall d,
  Forall (fun p => Forall (fun q => q = 0%Q) p.2) d ->
  Forall (fun p => Forall (fun q => q = 0%Q) p.2) (durations_by (map observe_execution rs) d).
Proof.
  induction rs as [|r rs IH]; intros d Hd; [done|]. cbn [map durations_by].
  destruct (number_absent r) as (_ & -> & ->). apply IH. apply Forall_forall. intros [k l] Hin.
  rewrite Forall_forall in Hd. apply list_elem_of_lookup in Hin as [i Hi].
  assert (k = "unknown" /\ l = default [] (dget d "unknown") ++ [0%Q] \/ (k, l) ∈ d) as [[-> ->]|Hin].
  { clear Hd IH. revert i Hi. induction d as [|[k' l'] d IH]; intros i Hi; cbn in *.
    - destruct i as [|i]; [|done]. injection Hi as <- <-. by left.
    - case_decide as E; [subst k'|].
      + destruct i as [|i]; [injection Hi as <- <-; by left|]. right. right. by eapply list_elem_of_lookup_2.
      + destruct i as [|i]; [injection Hi as <- <-; right; by left|]. destruct (IH i Hi) as [?|?]; [by left|right; by right]. }
  - cbn. apply Forall_app. split; [|by constructor]. destruct (dget d "unknown") as [l|] eqn:E; [|done]. cbn.
    by apply dget_Some_elem, Hd in E.
  - by apply Hd in Hin.
Qed.

Lemma average_zero l : Forall (fun q => q = 0%Q) l -> (average l == 0)%Q.
Proof.
  intros Hl. unfold average. assert (foldr Qplus 0%Q l == 0)%Q as ->; [|by unfold Qdiv; rewrite Qmult_0_l].
  induction Hl as [|q l -> _ IH]; [done|]. cbn. rewrite IH. reflexivity.
Qed.

(** The optimisation engine never has anything to say of executions.  What
    the executor records of them holds neither a ratio of durations nor a
    runtime nor a duration, so whatever executions are finalised, slow, failed
    or not, no task is slow, no runtime has an issue and no recommendation is
    ever made. *)
Theorem optimizer_silent rs :
  identify_slow_tasks (map observe_execution rs) = [] /\ identify_runtime_issues (map observe_execution rs) = []
  /\ generate_recommendations (map observe_execution rs) = [].
Proof.
  assert (identify_slow_tasks (map observe_execution rs) = []) as Hs.
  { unfold identify_slow_tasks. rewrite list_filter_nil; [done|]. intros o (r & -> & _)%list_elem_of_fmap. done. }
  assert (identify_runtime_issues (map observe_execution rs) = []) as Hi.
  { unfold identify_runtime_issues. rewrite list_filter_nil; [done|]. intros [k l] Hin. cbn [snd].
    pose proof (durations_zero rs [] ltac:(constructor)) as H. rewrite Forall_forall in H. apply H in Hin. cbn in Hin.
    apply andb_false_iff. right. apply negb_false_iff, Qle_bool_iff. rewrite (average_zero l Hin). done. }
  unfold generate_recommendations. by rewrite Hs, Hi.
Qed.

(** ** Calls *)

Lemma machine_ok mr m e : en_machines e !! mr = Some m -> machine mr e = (Ok m, e).
Proof. unfold machine. by intros ->. Qed.

Lemma tache_ok r t e : en_heap e !! r = Some t -> tache r e = (Ok t, e).
Proof. unfold tache. by intros ->. Qed.

Lemma alter_as_insert (f : TaskExecution -> TaskExecution) r t (h : heap) : h !! r = Some t -> alter f r h = <[r := f t]> h.
Proof.
  unfold heap in *. revert r. induction h as [|x h IH]; intros [|r] Ht; cbn in *; [done|done|by simplify_eq|]. f_equal. by apply IH.
Qed.

Lemma alter_alter (f g : TaskExecution -> TaskExecution) r (h : heap) : alter g r (alter f r h) = alter (fun t => g (f t)) r h.
Proof. unfold heap in *. revert r. induction h as [|x h IH]; intros [|r]; cbn; [done|done|done|]. f_equal. apply IH. Qed.

Lemma passer_refused mr target reason m e :
  en_machines e !! mr = Some m -> target <> ms_state m -> target ∉ VALID_TRANSITIONS (ms_state m) ->
  exists x, passer_a mr target reason e = (Err x, e) /\ exn_cls x = ValueError.
Proof.
  intros Hm Hne Hno. unfold passer_a. rewrite (bind_ok _ _ _ _ _ (machine_ok _ _ _ Hm)).
  destruct (transition_cases target reason m) as [(r & _ & Hp & _)|(x & -> & Hx & _)].
  - destruct Hp as [Hp|Hp]; cbn in Hp; [done|done].
  - exists x. unfold modify, bind, lift. rewrite list_insert_id by done. by destruct e.
Qed.

Section late.
Context (date : nat -> Q) (json_dumps : pydict pyval -> string) (mot_hors_ascii : string -> bool) (equivaut : string -> string -> bool).

(** An answer that comes back too late is lost.  When a task is served after
    its execution was paused, cancelled, sent to review or closed, ending the
    call raises [ValueError]: the task keeps its status, RUNNING, although its
    result is there; its agent is never released, the scheduler and the machine
    are left as they are and nothing ends the execution. *)
Theorem late_answer_lost mr m r t tid physiques o e :
  en_machines e !! mr = Some m -> en_heap e !! r = Some t ->
  ms_state m ∉ [MissionState.RUNNING; MissionState.VALIDATING] ->
  exists x e' t',
    MissionExecution.terminer_tache date json_dumps mot_hors_ascii equivaut mr r tid physiques (Rendu o) e = (Err x, e')
    /\ exn_cls x = ValueError
    /\ en_heap e' = <[r := t']> (en_heap e) /\ tx_status t' = tx_status t /\ tx_result t' = oc_result o
    /\ en_machines e' = en_machines e /\ en_sched e' = en_sched e /\ en_coord e' = en_coord e /\ en_base e' = en_base e
    /\ en_events e' = en_events e /\ en_sync e' = en_sync e.
Proof.
  intros Hm Ht Hst. unfold MissionExecution.terminer_tache, terminer_rendu.
  set (e1 := set_heap (alter (tx_with_physiques physiques) r (en_heap e)) e).
  rewrite (bind_ok (ecrire r _) _ e e1 tt) by done.
  set (e2 := set_clocks (S (en_dates e1)) (en_perfs e1) (en_vues e1) e1).
  rewrite (bind_ok (maintenant_q date) _ e1 e2 (date (en_dates e1))) by done.
  set (f := tx_served o _ _). set (e3 := set_heap (alter f r (en_heap e2)) e2). rewrite (bind_ok (ecrire r f) _ e2 e3 tt) by done.
  destruct (passer_refused mr MissionState.VALIDATING ("Validating task " +:+ tid) m e3) as (x & E & Hx).
  - exact Hm.
  - intros Heq. apply Hst. rewrite <- Heq. set_solver.
  - destruct (ms_state m); cbn; try (by apply (bool_decide_unpack _)); exfalso; apply Hst; set_solver.
  - exists x, e3, (f (tx_with_physiques physiques t)). rewrite (bind_err _ _ _ _ _ E). split_and!; try done.
    transitivity (alter f r (alter (tx_with_physiques physiques) r (en_heap e))); [done|]. rewrite alter_alter. by apply (alter_as_insert (fun t => f (tx_with_physiques physiques t))).
Qed.

End late.

Section budget.
Context (date perf : nat -> Q) (vue : nat -> mission_vue) (matcher : option Matcher).

Abbreviation commencer := (MissionExecution.commencer date perf vue matcher).

(** A task refused for the budget ends nothing.  When the budget that
    applies is spent, the call refuses the task, which fails with the motive; no
    agent is asked and the machine is left as it is, so that an execution whose
    last task is refused stays open for ever. *)
Theorem budget_refusal_ends_nothing mr m r t tid b e :
  get_task (en_sched e) tid = Some r -> en_machines e !! mr = Some m -> en_heap e !! r = Some t ->
  em_mission (ms_meta m) = "" -> budget_s None m = Ok b ->
  (b <= budget_consomme_s (perf (en_perfs e)) m)%Q ->
  exists motif e' t', commencer mr tid e = (Ok (Refuse_ motif), e')
    /\ en_heap e' = <[r := t']> (en_heap e) /\ tx_status t' = TaskStatus.FAILED /\ tx_errors t' = [motif]
    /\ en_machines e' = en_machines e /\ en_sched e' = en_sched e /\ en_coord e' = en_coord e /\ en_base e' = en_base e
    /\ map fst (en_dispatched e') = map fst (en_dispatched e) ++ ["execution.budget_depasse"].
Proof.
  intros Hg Hm Ht Hmi Hb Hover.
  assert (Hcb : forall e0, en_machines e0 !! mr = Some m -> MissionExecution.consomme_et_budget perf vue mr e0
    = (Ok (budget_consomme_s (perf (en_perfs e0)) m, b), set_clocks (en_dates e0) (S (en_perfs e0)) (en_vues e0) e0)).
  { intros e0 H0. unfold consomme_et_budget.
    set (e1 := set_clocks (en_dates e0) (S (en_perfs e0)) (en_vues e0) e0).
    rewrite (bind_ok (lire_perf perf) _ e0 e1 (perf (en_perfs e0))) by done.
    rewrite (bind_ok (machine mr) _ e1 e1 m) by by apply machine_ok.
    rewrite (bind_ok (lire_vue vue (ms_meta m)) _ e1 e1 None) by (unfold lire_vue; by rewrite decide_True).
    by rewrite (bind_ok (lift _) _ e1 e1 b) by (unfold lift; by rewrite Hb). }
  unfold MissionExecution.commencer. rewrite (bind_ok get _ e e e) by done. rewrite Hg.
  rewrite (bind_ok _ _ _ _ _ (Hcb e Hm)). cbn [fst snd]. rewrite (proj2 (Qle_bool_iff _ _) Hover).
  set (e1 := set_clocks (en_dates e) (S (en_perfs e)) (en_vues e) e). unfold refuser_pour_budget.
  rewrite (bind_ok (machine mr) _ e1 e1 m) by by apply machine_ok.
  rewrite (bind_ok _ _ _ _ _ (Hcb e1 Hm)). cbn [fst snd]. set (motif := "budget de mission atteint : " +:+ _).
  set (e2 := set_clocks (en_dates e1) (S (en_perfs e1)) (en_vues e1) e1).
  set (e3 := set_clocks (S (en_dates e2)) (en_perfs e2) (en_vues e2) e2).
  rewrite (bind_ok (maintenant_q date) _ e2 e3 (date (en_dates e2))) by done.
  set (e4 := set_heap (alter (tx_refused motif (date (en_dates e2))) r (en_heap e3)) e3).
  rewrite (bind_ok (ecrire r _) _ e3 e4 tt) by done. rewrite (bind_ok _ _ _ _ _ (Hcb e4 Hm)).
  eexists motif, _, (tx_refused motif (date (en_dates e2)) t). split; [reflexivity|]. split_and!; try done.
  - by apply alter_as_insert.
  - cbn. by rewrite map_app.
Qed.
End budget.

(** ** Through any calls *)

(** No attempt beyond [K]: neither made, nor allowed by an execution. *)
Definition borne (K : Z) (e : Engine) : Prop :=
  Forall (fun t => tx_retries t <= K) (en_heap e) /\ Forall (fun m => em_max_retries (ms_meta m) <= K) (en_machines e).

Definition finie (e : Engine) (mr : nat) : Prop := exists m, en_machines e !! mr = Some m /\ ms_state m = MissionState.COMPLETED.

(** No execution has just ended. *)
Definition sans_fin (e e' : Engine) : Prop := forall mr, finie e' mr -> finie e mr.

(** An execution all of whose tasks are known and over, none of them failed. *)
Definition toute_faite (e : Engine) (mr : nat) : Prop := exists m, en_machines e !! mr = Some m
  /\ all_done (en_heap e) (en_sched e) (own_tasks e (ms_meta m)) = true
  /\ Forall (fun t => tx_status t <> TaskStatus.FAILED) (objets e (own_tasks e (ms_meta m))).

(** An execution has ended only if it is done. *)
Definition fin_vraie (e e' : Engine) : Prop := forall mr, finie e' mr -> finie e mr \/ toute_faite e' mr.

#[export] Instance sans_fin_preorder : PreOrder sans_fin.
Proof. split; [by intros e mr|]. intros e1 e2 e3 H1 H2 mr H. by apply H1, H2. Qed.

Lemma sans_fin_vraie e e' : sans_fin e e' -> fin_vraie e e'.
Proof. intros H mr Hf. left. by apply H. Qed.

Lemma fin_vraie_after e1 e2 e3 : sans_fin e1 e2 -> fin_vraie e2 e3 -> fin_vraie e1 e3.
Proof. intros H1 H2 mr Hf. destruct (H2 mr Hf); [left; by apply H1|by right]. Qed.

Section garde.
Context (K : Z).

(** Whether [m] returns or raises, it keeps the bound and moves the engine along
    [P]. *)
Definition garde {A} (P : relation Engine) (m : M Engine A) : Prop := forall e, borne K e -> borne K (m e).2 /\ P e (m e).2.

Lemma garde_vraie {A} (m : M Engine A) : garde sans_fin m -> garde fin_vraie m.
Proof. intros Hm e He. destruct (Hm e He) as [H1 H2]. split; [done|]. by apply sans_fin_vraie. Qed.

(** Relations that go on from one that ends nothing. *)
Definition prolonge (P : relation Engine) : Prop :=
  (forall e1 e2 e3, sans_fin e1 e2 -> P e2 e3 -> P e1 e3) /\ (forall e e', sans_fin e e' -> P e e').

Lemma prolonge_sans_fin : prolonge sans_fin.
Proof. split; [|done]. intros e1 e2 e3 H1 H2. by transitivity e2. Qed.

Lemma prolonge_fin_vraie : prolonge fin_vraie.
Proof. split; [apply fin_vraie_after|apply sans_fin_vraie]. Qed.

(** From one state. *)
Definition garde_en {A} (P : relation Engine) (m : M Engine A) (e : Engine) : Prop := borne K (m e).2 /\ P e (m e).2.

Lemma garde_bind_en {A B} P (m : M Engine A) (f : A -> M Engine B) e : prolonge P ->
  garde_en sans_fin m e -> (forall a, garde P (f a)) -> garde_en P (bind m f) e.
Proof.
  intros [Hleft Hin] [H1 H2] Hf. unfold garde_en, bind. destruct (m e) as [[a|x] e']; cbn [snd] in *; [|auto].
  destruct (Hf a e' H1) as [H3 H4]. split; [done|]. by eapply Hleft.
Qed.

Lemma garde_bind {A B} P (m : M Engine A) (f : A -> M Engine B) : prolonge P ->
  garde sans_fin m -> (forall a, garde P (f a)) -> garde P (bind m f).
Proof. intros HP Hm Hf e He. apply garde_bind_en; [done|by apply Hm|done]. Qed.

Lemma garde_then {A B} (m : M Engine A) (f : A -> M Engine B) :
  garde sans_fin m -> (forall a, garde sans_fin (f a)) -> garde sans_fin (bind m f).
Proof. apply garde_bind, prolonge_sans_fin. Qed.

Lemma garde_last {A B} (m : M Engine A) (f : A -> M Engine B) :
  garde sans_fin m -> (forall a, garde fin_vraie (f a)) -> garde fin_vraie (bind m f).
Proof. apply garde_bind, prolonge_fin_vraie. Qed.

(** What leaves the tasks and the machines alone. *)
Definition neutre {A} (m : M Engine A) : Prop := forall e, en_heap (m e).2 = en_heap e /\ en_machines (m e).2 = en_machines e.

Lemma garde_neutre {A} (m : M Engine A) : neutre m -> garde sans_fin m.
Proof.
  intros Hm e He. destruct (Hm e) as [H1 H2]. unfold borne in *. rewrite H1, H2. split; [done|].
  intros mr (x & Hx & Hs). exists x. by rewrite <- H2.
Qed.

Lemma neutre_effort (m : M Engine unit) : neutre m -> neutre (meilleur_effort m).
Proof. intros Hm e. unfold meilleur_effort, catch. pose proof (Hm e). by destruct (m e) as [[a|x] e']. Qed.

Lemma neutre_bind {A B} (m : M Engine A) (f : A -> M Engine B) : neutre m -> (forall a, neutre (f a)) -> neutre (bind m f).
Proof.
  intros Hm Hf e. unfold bind. pose proof (Hm e) as [H1 H2]. destruct (m e) as [[a|x] e']; cbn [snd] in *; [|done].
  destruct (Hf a e') as [-> ->]. done.
Qed.

Lemma neutre_registre {A} (m : M Base A) : neutre (registre m).
Proof. intros e. unfold registre, zoom. by destruct (m (en_base e)). Qed.

Lemma neutre_lire {A} (g : Engine -> res A) : neutre (fun e => (g e, e)).
Proof. done. Qed.

Lemma neutre_machine mr : neutre (machine mr).
Proof. intros e. unfold machine. by destruct (_ !! _). Qed.

Lemma neutre_tache r : neutre (tache r).
Proof. intros e. unfold tache. by destruct (_ !! _). Qed.

Lemma neutre_vue vue meta : neutre (lire_vue vue meta).
Proof. intros e. unfold lire_vue. by case_decide. Qed.

Lemma neutre_started agent mission task : neutre (sync_agent_started agent mission task).
Proof. unfold sync_agent_started. by case_decide. Qed.

Lemma neutre_released agent duration status : neutre (sync_agent_released agent duration status).
Proof. unfold sync_agent_released. by case_decide. Qed.
End garde.

Create HintDb neutre.
#[export] Hint Resolve neutre_effort neutre_bind neutre_registre neutre_machine neutre_tache neutre_vue neutre_started
  neutre_released : neutre.

Section pas.
Context (K : Z).

Lemma garde_ecrire r f : (forall t, tx_retries t <= K -> tx_retries (f t) <= K) -> garde K sans_fin (ecrire r f).
Proof. intros Hf e [Ht Hm]. split; [split; [|done]|by intros mr]. by apply Forall_alter; [|intros t ? ?; apply Hf]. Qed.

Lemma garde_passer mr target reason : target <> MissionState.COMPLETED -> garde K sans_fin (passer_a mr target reason).
Proof.
  intros Hne e [Ht Hm]. unfold passer_a, machine, bind. destruct (en_machines e !! mr) as [m|] eqn:E; [|done].
  assert (exists r m', transition target reason m = (r, m') /\ ms_meta m' = ms_meta m /\ (m' = m \/ ms_state m' = target))
    as (r & m' & -> & Hmeta & Hst).
  { destruct (transition_cases target reason m) as [(r & -> & _)|(x & -> & _)]; eexists _, _; (split; [done|]); [|by auto].
    split; [done|by right]. }
  assert (borne K (set_machines (<[mr := m']> (en_machines e)) e) /\ sans_fin e (set_machines (<[mr := m']> (en_machines e)) e)) as H.
  { split; [split; [done|]|].
    - apply Forall_insert; [done|]. rewrite Hmeta. by eapply (Forall_lookup_1 _ _ _ _ Hm).
    - intros j (x & Hx & Hs). change (<[mr := m']> (en_machines e) !! j = Some x) in Hx. destruct (decide (j = mr)) as [->|Hj].
      + apply list_lookup_insert_Some in Hx as [(_ & <- & _)|(? & _)]; [|done]. exists m. split; [done|].
        destruct Hst as [->|Hst]; [done|]. congruence.
      + rewrite list_lookup_insert_ne in Hx by done. by exists x. }
  cbn. by destruct r.
Qed.

Lemma garde_machine {B} (P : relation Engine) mr (f : Machine -> M Engine B) : prolonge P ->
  (forall m, em_max_retries (ms_meta m) <= K -> garde K P (f m)) -> garde K P (bind (machine mr) f).
Proof.
  intros [_ HP] Hf e He. unfold bind, machine. destruct (en_machines e !! mr) as [m|] eqn:E; cbn; [|by split; [done|apply HP]].
  apply Hf; [|done]. by eapply (Forall_lookup_1 _ _ _ _ (proj2 He)).
Qed.

Lemma garde_tache {B} (P : relation Engine) r (f : TaskExecution -> M Engine B) : prolonge P ->
  (forall t e, borne K e -> en_heap e !! r = Some t -> garde_en K P (f t) e) -> garde K P (bind (tache r) f).
Proof.
  intros [_ HP] Hf e He. unfold bind, tache. destruct (en_heap e !! r) as [t|] eqn:E; cbn; [|by split; [done|apply HP]]. by apply Hf.
Qed.

(** One more attempt of a task that still has one. *)
Lemma garde_retried errors r t e limite : borne K e -> en_heap e !! r = Some t -> tx_retries t < limite -> limite <= K ->
  garde_en K sans_fin (ecrire r (tx_retried errors)) e.
Proof.
  intros [Ht Hm] Hr Hlt Hle. split; [split; [|done]|by intros mr]. unfold ecrire, modify. cbn [snd en_heap set_heap].
  rewrite (alter_as_insert _ r t) by done. apply Forall_insert; [done|]. cbn. lia.
Qed.

Lemma objets_status e ids t : t ∈ objets e ids -> existsb (fun t => bool_decide (tx_status t = TaskStatus.FAILED)) (objets e ids) = false ->
  tx_status t <> TaskStatus.FAILED.
Proof. 
  intros Hin Hno Hs. apply not_true_iff_false in Hno. apply Hno, existsb_exists. exists t. split; [by apply list_elem_of_In|].
  by apply bool_decide_eq_true.
Qed.
End pas.

(** Follows the text of an operation; what is left are its own facts. *)
Ltac suivre_garde :=
  lazymatch goal with
  | |- garde _ sans_fin (bind _ _) => apply garde_then; [|intros ?]
  | |- garde _ fin_vraie (bind _ _) => apply garde_last; [|intros ?]
  | |- garde _ sans_fin (ecrire _ _) => apply garde_ecrire; intros ? ?; assumption
  | |- garde _ sans_fin (passer_a _ _ _) => by apply garde_passer
  | |- garde _ sans_fin (match ?x with _ => _ end) => destruct x
  | |- garde _ fin_vraie (match ?x with _ => _ end) => destruct x
  | |- garde _ sans_fin _ => apply garde_neutre; solve [auto with neutre | by intros ?]
  | |- garde _ fin_vraie (ret _) => apply garde_vraie
  | |- garde _ fin_vraie (raise _) => apply garde_vraie
  end.

Section through.
Context (uuid_hex maintenant : nat -> string) (refuse : nat -> option exn) (empreinte_du_processus : string)
  (date perf : nat -> Q) (vue : nat -> mission_vue) (matcher : option Matcher) (json_dumps : pydict pyval -> string)
  (mot_hors_ascii : string -> bool) (equivaut : string -> string -> bool) (int_of : string -> option Z).
Context (K : Z).

Lemma garde_taches refs : garde K sans_fin (taches refs).
Proof. induction refs as [|r refs IH]; cbn [taches]; repeat suivre_garde; exact IH. Qed.

Lemma garde_register_all refs deps : garde K sans_fin (register_all refs deps).
Proof. induction refs as [|r refs IH]; cbn [register_all]; repeat suivre_garde; exact IH. Qed.

Lemma garde_nouvelle meta : em_max_retries meta <= K -> garde K sans_fin (nouvelle date perf vue meta).
Proof.
  intros HK. unfold nouvelle. apply garde_then; [suivre_garde|intros p]. apply garde_then; [suivre_garde|intros v].
  apply garde_then; [repeat suivre_garde|intros d]. intros e [Ht Hm]. unfold bind, lift, nouvelle_machine.
  destruct (budget_de (em_max_duration meta)) as [b|x]; cbn; [|by split; [split|]].
  split; [split; [done|by apply Forall_app; split; [|constructor]]|].
  intros mr (m & Hx & Hs). change ((en_machines e ++ [mkMachine MissionState.CREATED [] [] meta p (offset_missionnel v d)]) !! mr = Some m) in Hx.
  apply lookup_app_Some in Hx as [Hx|[_ Hx]]; [by exists m|]. by apply list_lookup_singleton_Some in Hx as [_ <-].
Qed.

Lemma garde_prepare meta refs deps contrat : em_max_retries meta <= K ->
  garde K sans_fin (prepare uuid_hex maintenant refuse empreinte_du_processus date perf vue meta refs deps contrat).
Proof.
  intros HK. unfold prepare. apply garde_then; [by apply garde_nouvelle|intros mr].
  apply garde_then; [suivre_garde|intros _]. apply garde_then; [apply garde_taches|intros ts].
  apply garde_then; [suivre_garde|intros _]. apply garde_then; [apply garde_register_all|intros _].
  apply garde_then; [|intros _; repeat suivre_garde].
  apply garde_neutre. unfold ouvrir_le_run. apply neutre_effort, neutre_bind; [auto with neutre|intros run].
  apply neutre_bind; [auto with neutre|by intros _ e].
Qed.

Lemma neutre_consomme mr : neutre (consomme_et_budget perf vue mr).
Proof. unfold consomme_et_budget. repeat (apply neutre_bind; [solve [auto with neutre|by intros ?]|intros ?]). by intros ?. Qed.

Lemma garde_commencer mr tid : garde K sans_fin (commencer date perf vue matcher mr tid).
Proof.
  unfold commencer. suivre_garde; [suivre_garde|]. destruct (get_task _ tid) as [r|]; [|suivre_garde].
  apply garde_then; [apply garde_neutre, neutre_consomme|intros cb]. destruct (Qle_bool _ _).
  - unfold refuser_pour_budget. repeat first [suivre_garde | apply garde_neutre, neutre_consomme].
  - repeat suivre_garde. apply garde_neutre. intros e. by destruct (assign matcher _ (en_coord e)).
Qed.

Lemma garde_pause mr : garde K sans_fin (pause mr).
Proof. unfold pause, si_etat. repeat suivre_garde. Qed.
Lemma garde_resume mr : garde K sans_fin (resume mr).
Proof. unfold resume, si_etat. repeat suivre_garde. Qed.
Lemma garde_cancel mr : garde K sans_fin (cancel mr).
Proof. unfold cancel, si_etat. repeat suivre_garde. Qed.

Lemma passer_cases mr target reason m e : en_machines e !! mr = Some m ->
  passer_a mr target reason e = (Ok tt, set_machines (<[mr := passer target reason m]> (en_machines e)) e)
  \/ exists x, passer_a mr target reason e = (Err x, e).
Proof.
  intros Hm. unfold passer_a. rewrite (bind_ok _ _ _ _ _ (machine_ok _ _ _ Hm)).
  destruct (transition_cases target reason m) as [(r & -> & _)|(x & -> & _)]; [by left|right]. exists x.
  unfold modify, bind, lift. rewrite list_insert_id by done. by destruct e.
Qed.

(** The only place where an execution completes. *)
Lemma garde_maybe_finalize mr : garde K fin_vraie (maybe_finalize_state mr).
Proof.
  intros e He. unfold maybe_finalize_state, machine, bind. destruct (en_machines e !! mr) as [m|] eqn:Hm; [|by apply garde_vraie; [intros ?|]].
  destruct (is_terminal m); [by split; [|intros j Hj; left]|]. unfold get.
  destruct (all_done _ _ _) eqn:Hall; cbn [negb]; [|by split; [|intros j Hj; left]].
  destruct (existsb _ _) eqn:Hex.
  { revert He. generalize e. change (garde K fin_vraie (passer_a mr MissionState.FAILED "One or more tasks failed" ;;;
      publish "execution.failed" [("execution_id", PStr (em_id (ms_meta m)))])). apply garde_vraie. repeat suivre_garde. }
  destruct (passer_cases mr MissionState.COMPLETED "All tasks completed" m e Hm) as [->|[x ->]]; [|by split; [|intros j Hj; left]].
  split; [split; [apply He|]|].
  - apply Forall_insert; [apply He|]. exact (Forall_lookup_1 _ _ _ _ (proj2 He) Hm).
  - intros j (y & Hy & Hs). change (<[mr := passer MissionState.COMPLETED "All tasks completed" m]> (en_machines e) !! j = Some y) in Hy.
    destruct (decide (j = mr)) as [->|Hj]; [right|left; exists y; by rewrite list_lookup_insert_ne in Hy].
    exists (passer MissionState.COMPLETED "All tasks completed" m). split_and!; [|exact Hall|].
    + apply list_lookup_insert_eq. by eapply lookup_lt_Some.
    + apply Forall_forall. intros t Ht. by eapply objets_status.
Qed.

Lemma garde_liberer mr r tid : garde K fin_vraie (liberer mr r tid).
Proof.
  unfold liberer. apply garde_last; [suivre_garde|intros t].
  apply garde_last.
  { intros e [Ht Hm]. split; [split; [|exact Hm]|by intros j]. cbn. unfold update_task. destruct (get_task _ tid) as [i|]; [|exact Ht].
    by apply Forall_alter. }
  intros _. repeat first [apply garde_maybe_finalize|suivre_garde].
Qed.

Lemma garde_terminer_indisponible mr r tid message :
  garde K fin_vraie (terminer_indisponible date mot_hors_ascii equivaut mr r tid message).
Proof.
  unfold terminer_indisponible. apply garde_machine; [apply prolonge_fin_vraie|intros m Hm].
  apply garde_last; [suivre_garde|intros d]. apply garde_last; [suivre_garde|intros _].
  apply garde_tache; [apply prolonge_fin_vraie|intros t e He Ht]. 
  set (c := classer _ _ _ _ _ _). clearbody c. apply garde_bind_en; [apply prolonge_fin_vraie| |intros _; apply garde_liberer].
  match goal with |- context [if ?b then _ else _] => destruct b eqn:Hb end.
  - apply andb_true_iff in Hb as [_ Hb%Z.ltb_lt].
    apply garde_bind_en; [apply prolonge_sans_fin|by eapply garde_retried|intros _; suivre_garde].
  - assert (Hg : forall P m, garde K P m -> garde_en K (A:=unit) P m e) by (intros P x Hx; by apply Hx). apply Hg. repeat suivre_garde.
Qed.

Lemma garde_appliquer_verdict mr r tid o : garde K sans_fin (appliquer_verdict mr r tid o).
Proof.
  destruct o; cbn [appliquer_verdict]; try solve [repeat suivre_garde].
  apply garde_machine; [apply prolonge_sans_fin|intros m Hm]. apply garde_tache; [apply prolonge_sans_fin|intros t e He Ht].
  match goal with |- context [if ?b then _ else _] => destruct b eqn:Hb end.
  - apply Z.ltb_lt in Hb. by eapply garde_retried.
  - assert (Hg : forall P m, garde K P m -> garde_en K (A:=unit) P m e) by (intros P x Hx; by apply Hx). apply Hg. repeat suivre_garde.
Qed.

Lemma garde_terminer_tache mr r tid physiques i :
  garde K fin_vraie (terminer_tache date json_dumps mot_hors_ascii equivaut mr r tid physiques i).
Proof.
  unfold terminer_tache. apply garde_last; [suivre_garde|intros _].
  destruct i as [o|message|x]; [|apply garde_terminer_indisponible|by apply garde_vraie, garde_neutre].
  unfold terminer_rendu. do 3 (apply garde_last; [suivre_garde|intros ?]). apply garde_last; [suivre_garde|intros t].
  apply garde_last; [apply garde_neutre; intros e; by destruct (validate t (en_valid e))|].
  intros v. apply garde_last; [suivre_garde|intros _]. apply garde_last; [apply garde_appliquer_verdict|intros _]. apply garde_liberer.
Qed.

Lemma neutre_clore report tasks : neutre (clore_le_run maintenant refuse mot_hors_ascii equivaut int_of report tasks).
Proof.
  unfold clore_le_run. apply neutre_bind; [by intros e|intros e]. apply neutre_bind; [by intros ?|intros _].
  destruct (dget _ _) as [id|]; [|by intros ?]. do 2 (apply neutre_bind; [by intros ?|intros ?]).
  apply neutre_bind; [auto with neutre|intros _]. apply neutre_bind; [|auto with neutre].
  apply neutre_effort, neutre_bind; [by intros ?|intros mesures]. destruct mesures; [by intros ?|auto with neutre].
Qed.

Lemma neutre_finalize mr : neutre (finalize maintenant refuse mot_hors_ascii equivaut int_of mr).
Proof.
  unfold finalize. apply neutre_bind; [auto with neutre|intros m]. do 2 (apply neutre_bind; [by intros ?|intros ?]).
  apply neutre_bind; [apply neutre_clore|intros _]. apply neutre_bind; [by intros ?|intros e].
  apply neutre_bind; [|by intros ? ?]. by destruct (generate_recommendations _).
Qed.

(** A call, or one half of one; machines and tasks are named by their places. *)
Inductive call :=
  | Cree (t : TaskExecution)
  | Prepare_ (meta : ExecutionMeta) (refs : list nat) (deps : pydict (list string)) (contrat : option string)
  | Commence (mr : nat) (tid : string)
  | Termine (mr r : nat) (tid : string) (physiques : pydict pyval) (i : issue)
  | Pause_ (mr : nat)
  | Resume_ (mr : nat)
  | Cancel_ (mr : nat)
  | Finalize_ (mr : nat).

Definition apres_appel (e : Engine) (c : call) : Engine :=
  match c with
  | Cree t => set_heap (en_heap e ++ [t]) e
  | Prepare_ meta refs deps contrat =>
      (prepare uuid_hex maintenant refuse empreinte_du_processus date perf vue meta refs deps contrat e).2
  | Commence mr tid => (commencer date perf vue matcher mr tid e).2
  | Termine mr r tid physiques i => (terminer_tache date json_dumps mot_hors_ascii equivaut mr r tid physiques i e).2
  | Pause_ mr => (pause mr e).2
  | Resume_ mr => (resume mr e).2
  | Cancel_ mr => (cancel mr e).2
  | Finalize_ mr => (finalize maintenant refuse mot_hors_ascii equivaut int_of mr e).2
  end.

(** No call brings more attempts than [K]. *)
Definition appel_borne (c : call) : Prop :=
  match c with
  | Cree t => tx_retries t <= K
  | Prepare_ meta _ _ _ => em_max_retries meta <= K
  | _ => True
  end.

Lemma appel_garde c e : appel_borne c -> borne K e -> borne K (apres_appel e c) /\ fin_vraie e (apres_appel e c).
Proof.
  intros Hc He. destruct c; cbn [apres_appel].
  - split; [split; [|apply (proj2 He)]|by intros mr H; left].
    change (Forall (fun t => tx_retries t <= K) (en_heap e ++ [t])). apply Forall_app. split; [apply (proj1 He)|by constructor].
  - by apply (garde_vraie K _ (garde_prepare meta refs deps contrat Hc)).
  - by apply (garde_vraie K _ (garde_commencer mr tid)).
  - by apply garde_terminer_tache.
  - by apply (garde_vraie K _ (garde_pause mr)).
  - by apply (garde_vraie K _ (garde_resume mr)).
  - by apply (garde_vraie K _ (garde_cancel mr)).
  - by apply (garde_vraie K _ (garde_neutre K _ (neutre_finalize mr))).
Qed.

Lemma appels_garde cs e : Forall appel_borne cs -> borne K e -> borne K (fold_left apres_appel cs e).
Proof. intros Hcs. revert e. induction Hcs as [|c cs Hc _ IH]; intros e He; [done|]. cbn. by apply IH, appel_garde. Qed.
End through.

(** Everything is under some bound. *)
Lemma borne_exists e z : exists K, borne K e /\ z <= K.
Proof.
  set (l := z :: map tx_retries (en_heap e) ++ map (fun m => em_max_retries (ms_meta m)) (en_machines e)).
  assert (forall l z, z ∈ l -> z <= foldr Z.max 0 l) as Hmax.
  { clear. induction l as [|y l IH]; intros z Hz; cbn; [by apply elem_of_nil in Hz|]. apply elem_of_cons in Hz as [->|Hz]; [lia|].
    specialize (IH z Hz). lia. }
  exists (foldr Z.max 0 l). split; [split|apply Hmax; left]; apply Forall_forall; intros x Hx; apply Hmax; right;
    apply elem_of_app; [left|right]; apply list_elem_of_fmap; by exists x.
Qed.

(** ** Nobody ever waits for a review *)

Section attente.
Context (uuid_hex maintenant : nat -> string) (refuse : nat -> option exn) (empreinte_du_processus : string)
  (date perf : nat -> Q) (vue : nat -> mission_vue) (matcher : option Matcher) (json_dumps : pydict pyval -> string)
  (mot_hors_ascii : string -> bool) (equivaut : string -> string -> bool) (int_of : string -> option Z).

(** No execution waits for the approval of anybody. *)
Definition sans_attente (e : Engine) : Prop := Forall (fun m => ms_state m <> MissionState.WAITING_APPROVAL) (en_machines e).

Lemma attente_machines {A} (m : M Engine A) : (forall e, en_machines (m e).2 = en_machines e) -> preserves sans_attente m.
Proof. intros Hm e He. unfold sans_attente. by rewrite Hm. Qed.

Lemma attente_neutre {A} (m : M Engine A) : neutre m -> preserves sans_attente m.
Proof. intros Hm. apply attente_machines. intros e. apply Hm. Qed.

Lemma attente_ecrire r f : preserves sans_attente (ecrire r f).
Proof. by apply attente_machines. Qed.

Lemma attente_passer mr target reason : target <> MissionState.WAITING_APPROVAL -> preserves sans_attente (passer_a mr target reason).
Proof.
  intros Hne e He. unfold passer_a, machine, bind. destruct (en_machines e !! mr) as [m|] eqn:E; [|done].
  assert (Hm : ms_state (transition target reason m).2 <> MissionState.WAITING_APPROVAL).
  { destruct (transition_cases target reason m) as [(x & -> & _)|(x & -> & _)]; [done|].
    by apply (Forall_lookup_1 _ _ _ _ He E). }
  destruct (transition target reason m) as [x m'].
  assert (sans_attente (set_machines (<[mr := m']> (en_machines e)) e)) by by apply Forall_insert.
  cbn. by destruct x.
Qed.

Lemma attente_nouvelle meta : preserves sans_attente (nouvelle date perf vue meta).
Proof.
  unfold nouvelle. apply preserves_bind; [by apply attente_machines|intros p].
  apply preserves_bind; [apply attente_neutre; auto with neutre|intros v].
  apply preserves_bind; [destruct v as [[? []]|]; by apply attente_machines|intros d]. intros e He.
  unfold bind, lift, nouvelle_machine. destruct (budget_de (em_max_duration meta)); [|done].
  by apply Forall_app; split; [|constructor].
Qed.
Ltac suivre_attente :=
  lazymatch goal with
  | |- preserves sans_attente (bind _ _) => apply preserves_bind; [|intros ?]
  | |- preserves sans_attente (ecrire _ _) => apply attente_ecrire
  | |- preserves sans_attente (passer_a _ _ _) => by apply attente_passer
  | |- preserves sans_attente (match ?x with _ => _ end) => destruct x
  | |- preserves sans_attente _ => apply attente_neutre; solve [auto with neutre | by intros ?]
  end.

Lemma attente_prepare meta refs deps contrat :
  preserves sans_attente (prepare uuid_hex maintenant refuse empreinte_du_processus date perf vue meta refs deps contrat).
Proof.
  assert (Ht : forall l, preserves sans_attente (taches l)) by (induction l; cbn [taches]; repeat suivre_attente; done).
  assert (Hr : forall l, preserves sans_attente (register_all l deps)).
  { induction l; cbn [register_all]; repeat first [suivre_attente|by apply attente_machines]; done. }
  unfold prepare, ouvrir_le_run. apply preserves_bind; [apply attente_nouvelle|intros mr].
  repeat first [apply Ht|apply Hr|suivre_attente].
  apply attente_neutre, neutre_effort, neutre_bind; [auto with neutre|intros run].
  apply neutre_bind; [auto with neutre|by intros ? ?].
Qed.

Lemma attente_commencer mr tid : preserves sans_attente (commencer date perf vue matcher mr tid).
Proof.
  unfold commencer, refuser_pour_budget. repeat first [apply attente_neutre, neutre_consomme|suivre_attente].
  apply attente_machines. intros e. by destruct (assign matcher _ (en_coord e)).
Qed.

Lemma attente_liberer mr r tid : preserves sans_attente (liberer mr r tid).
Proof. unfold liberer, maybe_finalize_state. repeat first [suivre_attente|by apply attente_machines]. Qed.

Lemma attente_indisponible mr r tid message :
  preserves sans_attente (terminer_indisponible date mot_hors_ascii equivaut mr r tid message).
Proof.
  unfold terminer_indisponible. repeat first [apply attente_liberer|suivre_attente].
Qed.

(** Under the lock the execution is VALIDATING. *)
Definition en_validation (mr : nat) (e : Engine) : Prop :=
  exists m, en_machines e !! mr = Some m /\ ms_state m = MissionState.VALIDATING.

Lemma review_raises mr r tid e :
  en_validation mr e -> exists x, appliquer_verdict mr r tid ValidationOutcome.NEEDS_REVIEW e = (Err x, e) /\ exn_cls x = ValueError.
Proof.
  intros (m & Hm & Hst). destruct (passer_refused mr MissionState.WAITING_APPROVAL "Needs human review" m e Hm) as (x & E & Hx);
    [by rewrite Hst|rewrite Hst; by apply (bool_decide_unpack _)|].
  exists x. split; [|done]. cbn [appliquer_verdict]. exact (bind_err _ _ _ _ _ E).
Qed.

Lemma passer_state mr target reason e u e' :
  passer_a mr target reason e = (Ok u, e') -> exists m, en_machines e' !! mr = Some m /\ ms_state m = target.
Proof.
  unfold passer_a, machine, bind. destruct (en_machines e !! mr) as [m|] eqn:E; [|done].
  destruct (transition_cases target reason m) as [(x & -> & _)|(x & -> & _)]; cbn; [|done].
  intros [= <- <-]. exists (passer target reason m). split; [|done]. apply list_lookup_insert_eq. by eapply lookup_lt_Some.
Qed.

(** What is served of a task, judged. *)
Definition juger (mr r : nat) (tid : string) : M Engine unit :=
  t <- tache r ;;
  v <- (fun e => let '(v, vl) := validate t (en_valid e) in (Ok v, set_valid vl e)) ;;
  ecrire r (tx_judged v) ;;;
  appliquer_verdict mr r tid v ;;;
  liberer mr r tid.

Lemma juger_review mr r tid t e :
  en_validation mr e -> en_heap e !! r = Some t ->
  evaluate t (default ["result_present"] (dget (vl_criteria (en_valid e)) (tx_id t))) = ValidationOutcome.NEEDS_REVIEW ->
  exists x e', juger mr r tid e = (Err x, e') /\ exn_cls x = ValueError
    /\ en_heap e' !! r = Some (tx_judged ValidationOutcome.NEEDS_REVIEW t)
    /\ en_machines e' = en_machines e /\ en_coord e' = en_coord e /\ en_sync e' = en_sync e.
Proof.
  intros Hv Ht Hn. unfold juger. rewrite (bind_ok _ _ _ _ _ (tache_ok r t e Ht)). unfold bind at 1, validate. rewrite Hn.
  cbv beta iota zeta. unfold bind at 1, ecrire, modify. match goal with |- context [bind _ _ ?e1] => set (e2 := e1) end.
  destruct (review_raises mr r tid e2 Hv) as (x & E & Hx). exists x, e2. rewrite (bind_err _ _ _ _ _ E). split_and!; try done.
  unfold e2. cbn [en_heap set_heap set_valid]. erewrite alter_as_insert by exact Ht.
  apply list_lookup_insert_eq. by eapply lookup_lt_Some.
Qed.

Lemma attente_juger mr r tid e : en_validation mr e -> sans_attente e -> sans_attente (juger mr r tid e).2.
Proof.
  intros Hv He. unfold juger, bind at 1, tache. destruct (en_heap e !! r) as [t|]; [|done].
  unfold bind at 1, validate. cbv beta iota zeta. generalize (evaluate t (default ["result_present"] (dget (vl_criteria (en_valid e)) (tx_id t)))).
  intros v. unfold bind at 1, ecrire, modify. match goal with |- context [bind _ _ ?e1] => set (e2 := e1) end.
  assert (H2 : sans_attente e2 /\ en_validation mr e2) by done. clearbody e2. destruct H2 as [H2 Hv2].
  assert (Hl : forall o, o <> ValidationOutcome.NEEDS_REVIEW -> preserves sans_attente (appliquer_verdict mr r tid o)).
  { intros o Ho. destruct o; [..|done]; cbn [appliquer_verdict]; repeat suivre_attente. }
  destruct (decide (v = ValidationOutcome.NEEDS_REVIEW)) as [->|Hne].
  - destruct (review_raises mr r tid e2 Hv2) as (x & E & _). by rewrite (bind_err _ _ _ _ _ E).
  - apply preserves_bind; [by apply Hl|intros _; apply attente_liberer|done].
Qed.

Lemma attente_terminer mr r tid physiques i :
  preserves sans_attente (terminer_tache date json_dumps mot_hors_ascii equivaut mr r tid physiques i).
Proof.
  unfold terminer_tache. apply preserves_bind; [apply attente_ecrire|intros _].
  destruct i as [o|message|x]; [|apply attente_indisponible|by apply attente_neutre].
  unfold terminer_rendu. do 2 (apply preserves_bind; [by apply attente_machines|intros ?]).
  intros e He. unfold bind at 1. pose proof (attente_passer mr MissionState.VALIDATING ("Validating task " +:+ tid) ltac:(done) e He) as Hp.
  destruct (passer_a mr _ _ e) as [[u|x] e1] eqn:E; [|done]. apply attente_juger; [|done]. by eapply passer_state.
Qed.

Lemma attente_si_etat mr b target reason : target <> MissionState.WAITING_APPROVAL -> preserves sans_attente (si_etat mr b target reason).
Proof. intros Hne. unfold si_etat. repeat suivre_attente. Qed.

Lemma appel_attente c : preserves sans_attente
  (fun e => (Ok tt, apres_appel uuid_hex maintenant refuse empreinte_du_processus date perf vue matcher json_dumps mot_hors_ascii
     equivaut int_of e c)).
Proof.
  intros e He. destruct c; cbn [apres_appel snd]; [done|..].
  - by apply attente_prepare.
  - by apply attente_commencer.
  - by apply attente_terminer.
  - by apply attente_si_etat.
  - by apply attente_si_etat.
  - by apply attente_si_etat.
  - by apply (attente_neutre _ (neutre_finalize maintenant refuse mot_hors_ascii equivaut int_of mr)).
Qed.

Lemma appels_attente cs e : sans_attente e -> sans_attente (fold_left
  (apres_appel uuid_hex maintenant refuse empreinte_du_processus date perf vue matcher json_dumps mot_hors_ascii equivaut int_of) cs e).
Proof. revert e. induction cs as [|c cs IH]; intros e He; [done|]. cbn. by apply IH, (appel_attente c e). Qed.
End attente.

(** ** What calls cannot do *)

Section promises.
Context (uuid_hex maintenant : nat -> string) (refuse : nat -> option exn) (empreinte_du_processus : string)
  (date perf : nat -> Q) (vue : nat -> mission_vue) (matcher : option Matcher) (json_dumps : pydict pyval -> string)
  (mot_hors_ascii : string -> bool) (equivaut : string -> string -> bool) (int_of : string -> option Z).

Abbreviation apres_appel := (apres_appel uuid_hex maintenant refuse empreinte_du_processus date perf vue matcher json_dumps
  mot_hors_ascii equivaut int_of).

(** C36: Attempts are bounded.  Whatever calls are made of the executor, begun
    and ended in any order, and whatever the tasks answer, no task is attempted
    again more often than the executions allow. *)
Theorem attempts_bounded K cs b :
  Forall (appel_borne K) cs -> Forall (fun t => tx_retries t <= K) (en_heap (fold_left apres_appel cs (new_engine b))).
Proof. intros Hcs. apply (appels_garde _ _ _ _ _ _ _ _ _ _ _ _ K); [done|]. by split. Qed.

(** C16: An execution completes only when it is done.  From any state of the
    executor and through any call, an execution that was not COMPLETED and is
    has tasks of its own, each of them still known of the scheduler, over and
    not failed. *)
Theorem completed_sound e c mr :
  let e' := apres_appel e c in
  finie e' mr -> finie e mr
  \/ exists m, en_machines e' !! mr = Some m /\ own_tasks e' (ms_meta m) <> []
       /\ forall tid, tid ∈ own_tasks e' (ms_meta m) -> exists r t, get_task (en_sched e') tid = Some r /\ en_heap e' !! r = Some t
            /\ tx_status t ∈ [TaskStatus.COMPLETED; TaskStatus.SKIPPED].
Proof.
  intros e' Hf. destruct (borne_exists e (match c with Cree t => tx_retries t | Prepare_ meta _ _ _ => em_max_retries meta | _ => 0 end))
    as (K & HK & Hle).
  destruct (appel_garde uuid_hex maintenant refuse empreinte_du_processus date perf vue matcher json_dumps mot_hors_ascii equivaut int_of
    K c e) as [_ H]; [by destruct c|done|].
  destruct (H mr Hf) as [?|(m & Hm & Hall & Hno)]; [by left|right]. exists m. split; [done|]. unfold all_done in Hall.
  fold e' in Hall, Hno. destruct (own_tasks e' (ms_meta m)) as [|tid0 ids] eqn:Hown; [done|]. split; [done|]. intros tid Hin.
  rewrite forallb_forall in Hall. specialize (Hall tid (proj1 (list_elem_of_In _ _) Hin)).
  destruct (get_task (en_sched e') tid) as [r|] eqn:Hr; [|done]. unfold has_status in Hall.
  unfold task_status in Hall. destruct (en_heap e' !! r) as [t|] eqn:Ht; [|done]. cbn in Hall.
  exists r, t. split_and!; [done|done|]. assert (tx_status t <> TaskStatus.FAILED) as Hnf.
  { rewrite Forall_forall in Hno. apply Hno. unfold objets. apply list_elem_of_omap. exists tid. split; [done|]. by rewrite Hr. }
  destruct (tx_status t); first [done | by vm_compute in Hall | by apply (bool_decide_unpack _)].
Qed.

(** A task served is judged on its result and its errors. *)
Lemma evaluate_same t t' l : tx_result t' = tx_result t -> tx_errors t' = tx_errors t -> evaluate t' l = evaluate t l.
Proof.
  intros Hr He. unfold evaluate, no_result, no_errors. rewrite Hr, He.
  assert (check_criteria t' l = check_criteria t l) as ->; [|done].
  induction l as [|c l IH]; [done|]. cbn. unfold no_result, no_errors in *. by rewrite Hr, He, IH.
Qed.

(** A result that wants a review: without errors, of a task that says so. *)
Definition a_revoir (o : Outcome) (t : TaskExecution) (e : Engine) : Prop :=
  evaluate (tx_with_result (oc_result o) t) (default ["result_present"] (dget (vl_criteria (en_valid e)) (tx_id t)))
  = ValidationOutcome.NEEDS_REVIEW.

(** C26: Nobody is ever asked to review.  A task whose validation wants a human
    review makes the call raise [ValueError]: the table lets no VALIDATING
    execution wait for an approval, so the task stays RUNNING with its result,
    its agent loaded and its execution VALIDATING; and whatever calls are made
    of the executor, no execution is ever WAITING_APPROVAL. *)
Theorem review_impossible cs b mr m r t tid physiques o e :
  Forall (fun m => ms_state m <> MissionState.WAITING_APPROVAL) (en_machines (fold_left apres_appel cs (new_engine b)))
  /\ (en_machines e !! mr = Some m -> en_heap e !! r = Some t -> ms_state m ∈ [MissionState.RUNNING; MissionState.VALIDATING] ->
      a_revoir o t e ->
      exists x e' t' m', terminer_tache date json_dumps mot_hors_ascii equivaut mr r tid physiques (Rendu o) e = (Err x, e')
        /\ exn_cls x = ValueError
        /\ en_heap e' !! r = Some t' /\ tx_status t' = tx_status t /\ tx_result t' = oc_result o
        /\ en_machines e' !! mr = Some m' /\ ms_state m' = MissionState.VALIDATING
        /\ en_coord e' = en_coord e /\ en_sync e' = en_sync e).
Proof.
  split; [by apply appels_attente; constructor|]. intros Hm Ht Hst Hv. unfold terminer_tache, terminer_rendu.
  set (e1 := set_heap (alter (tx_with_physiques physiques) r (en_heap e)) e).
  rewrite (bind_ok (ecrire r _) _ e e1 tt) by done.
  set (e2 := set_clocks (S (en_dates e1)) (en_perfs e1) (en_vues e1) e1).
  rewrite (bind_ok (maintenant_q date) _ e1 e2 (date (en_dates e1))) by done.
  set (f := tx_served o _ _). set (e3 := set_heap (alter f r (en_heap e2)) e2). rewrite (bind_ok (ecrire r f) _ e2 e3 tt) by done.
  assert (H3 : en_heap e3 !! r = Some (f (tx_with_physiques physiques t))).
  { change (alter f r (alter (tx_with_physiques physiques) r (en_heap e)) !! r = Some (f (tx_with_physiques physiques t))).
    rewrite alter_alter. erewrite alter_as_insert by exact Ht. apply list_lookup_insert_eq. by eapply lookup_lt_Some. }
  assert (E4 : passer_a mr MissionState.VALIDATING ("Validating task " +:+ tid) e3 = (Ok tt,
    set_machines (<[mr := passer MissionState.VALIDATING ("Validating task " +:+ tid) m]> (en_machines e3)) e3)).
  { destruct (passer_cases mr MissionState.VALIDATING ("Validating task " +:+ tid) m e3 Hm) as [H|[x H]]; [done|]. exfalso.
    destruct (transition_cases MissionState.VALIDATING ("Validating task " +:+ tid) m) as [(y & Ey & _)|(y & _ & _ & Hne & Hno)].
    - unfold passer_a in H. rewrite (bind_ok _ _ _ _ _ (machine_ok mr m e3 Hm)), Ey in H. done.
    - apply elem_of_cons in Hst as [Hst|Hst%list_elem_of_singleton]; [|congruence]. apply Hno. rewrite Hst. const_elem. }
  rewrite (bind_ok _ _ _ _ _ E4). set (e4 := set_machines _ e3).
  assert (Hm4 : en_machines e4 !! mr = Some (passer MissionState.VALIDATING ("Validating task " +:+ tid) m)).
  { apply list_lookup_insert_eq. by eapply lookup_lt_Some. }
  destruct (juger_review mr r tid (f (tx_with_physiques physiques t)) e4) as (x & e' & E & Hx & Hh' & Hma & Hc & Hs).
  { by eexists. }
  { exact H3. }
  { change (tx_id (f (tx_with_physiques physiques t))) with (tx_id t). rewrite <- Hv. by apply evaluate_same. }
  exists x, e', (tx_judged ValidationOutcome.NEEDS_REVIEW (f (tx_with_physiques physiques t))), (passer MissionState.VALIDATING ("Validating task " +:+ tid) m).
  split_and!; try done. by rewrite Hma.
Qed.
End promises.

(** ** Examples *)

Definition demo_tache (id : string) : TaskExecution :=
  mkTaskExec id "" "" "" TaskStatus.PENDING "" "" "" "" "" [] [] [] None [] 0 None None 0 [] [] None.
Definition demo_meta (limite : Z) : ExecutionMeta := mkExecMeta "x" "" "" None limite [].
Definition demo_perf (n : nat) : Q := inject_Z (Z.of_nat n).
Definition demo_issue : issue := Rendu (mkTaskOutcome (Some (PStr "done")) 1 "hermes" [] "m" []).

Abbreviation demo_apres := (apres_appel demo_uuid demo_date demo_refuse "h:1:0" (fun _ => 0%Q) demo_perf (fun _ => None) None (fun _ => "")
  (fun _ => false) String.eqb (fun _ => None)).

(** An execution of one task, from the start to its report. *)
Definition demo_appels : list call :=
  [Cree (demo_tache "t"); Prepare_ (demo_meta 2) [0%nat] [] None; Commence 0 "t"; Termine 0 0 "t" [] demo_issue; Finalize_ 0].

(** The same, whose second attempt runs out of a model and the first is not
    served. *)
Definition demo_indisponible : list call :=
  [Cree (demo_tache "t"); Prepare_ (demo_meta 1) [0%nat] [] None; Commence 0 "t"; Termine 0 0 "t" [] (Indisponible "timeout");
   Commence 0 "t"; Termine 0 0 "t" [] (Indisponible "timeout"); Finalize_ 0].

Definition demo_final (cs : list call) : Engine := fold_left demo_apres cs (new_engine empty_base).

(** The executions of [demo_appels], [n] calls in. *)
Definition demo_etape (n : nat) : Engine := demo_final (take n demo_appels).

Lemma demo_reprise_bornee : map tx_retries (en_heap (demo_final demo_indisponible)) = [1]
  /\ map ms_state (en_machines (demo_final demo_indisponible)) = [MissionState.FAILED]
  /\ map (fun p => (p.1, col p.2 "statut", col p.2 "cause")) (ba_runs (en_base (demo_final demo_indisponible)))
     = [("r0", PStr "echoue", PStr "fournisseur")].
Proof. split_and!; vm_compute; reflexivity. Qed.

Lemma attempts_bounded_witness : Forall (appel_borne 1) demo_indisponible
  /\ Forall (fun t => tx_retries t <= 1) (en_heap (demo_final demo_indisponible)).
Proof.
  assert (Forall (appel_borne 1) demo_indisponible) as H by (repeat constructor; cbn; lia). split; [exact H|].
  exact (attempts_bounded demo_uuid demo_date demo_refuse "h:1:0" (fun _ => 0%Q) demo_perf (fun _ => None) None (fun _ => "")
    (fun _ => false) String.eqb (fun _ => None) 1 demo_indisponible empty_base H).
Defined.

(** The call that ends the only task ends the execution. *)
Lemma demo_finie : finie (demo_apres (demo_etape 3) (Termine 0 0 "t" [] demo_issue)) 0.
Proof. eexists. split; [vm_compute; reflexivity|reflexivity]. Qed.

Lemma completed_sound_witness :
  let e' := demo_apres (demo_etape 3) (Termine 0 0 "t" [] demo_issue) in
  finie (demo_etape 3) 0
  \/ exists m, en_machines e' !! 0%nat = Some m /\ own_tasks e' (ms_meta m) <> []
       /\ forall tid, tid ∈ own_tasks e' (ms_meta m) -> exists r t, get_task (en_sched e') tid = Some r /\ en_heap e' !! r = Some t
            /\ tx_status t ∈ [TaskStatus.COMPLETED; TaskStatus.SKIPPED].
Proof.
  exact (completed_sound demo_uuid demo_date demo_refuse "h:1:0" (fun _ => 0%Q) demo_perf (fun _ => None) None (fun _ => "")
    (fun _ => false) String.eqb (fun _ => None) (demo_etape 3) (Termine 0 0 "t" [] demo_issue) 0 demo_finie).
Defined.

(** Paused while its task is done elsewhere. *)
Definition demo_suspendue : Engine := Eval vm_compute in demo_apres (demo_etape 3) (Pause_ 0).
Definition demo_machine : Machine := Eval vm_compute in default (mkMachine MissionState.CREATED [] [] (demo_meta 0) 0 0) (en_machines demo_suspendue !! 0%nat).
Definition demo_engagee : TaskExecution := Eval vm_compute in default (demo_tache "") (en_heap demo_suspendue !! 0%nat).

Lemma late_answer_lost_witness : exists x e' t',
  terminer_tache (fun _ => 0%Q) (fun _ => "") (fun _ => false) String.eqb 0 0 "t" [] demo_issue demo_suspendue = (Err x, e')
  /\ exn_cls x = ValueError
  /\ en_heap e' = <[0%nat := t']> (en_heap demo_suspendue) /\ tx_status t' = TaskStatus.RUNNING /\ tx_result t' = Some (PStr "done")
  /\ en_machines e' = en_machines demo_suspendue /\ en_sched e' = en_sched demo_suspendue /\ en_coord e' = en_coord demo_suspendue
  /\ en_base e' = en_base demo_suspendue /\ en_events e' = en_events demo_suspendue /\ en_sync e' = en_sync demo_suspendue.
Proof.
  refine (late_answer_lost (fun _ => 0%Q) (fun _ => "") (fun _ => false) String.eqb 0 demo_machine 0 demo_engagee "t" []
    (mkTaskOutcome (Some (PStr "done")) 1 "hermes" [] "m" []) demo_suspendue _ _ _); [reflexivity|reflexivity|].
  by apply (bool_decide_unpack _).
Defined.

(** An execution whose clock has run for more than its hour. *)
Definition demo_prete : Engine := Eval vm_compute in demo_etape 2.
Definition demo_machine_prete : Machine := Eval vm_compute in default demo_machine (en_machines demo_prete !! 0%nat).

Lemma budget_refusal_ends_nothing_witness : exists motif e' t',
  commencer (fun _ => 0%Q) (fun _ => 4000%Q) (fun _ => None) None 0 "t" demo_prete = (Ok (Refuse_ motif), e')
  /\ en_heap e' = <[0%nat := t']> (en_heap demo_prete) /\ tx_status t' = TaskStatus.FAILED /\ tx_errors t' = [motif]
  /\ en_machines e' = en_machines demo_prete /\ en_sched e' = en_sched demo_prete /\ en_coord e' = en_coord demo_prete
  /\ en_base e' = en_base demo_prete
  /\ map fst (en_dispatched e') = map fst (en_dispatched demo_prete) ++ ["execution.budget_depasse"].
Proof.
  refine (budget_refusal_ends_nothing (fun _ => 0%Q) (fun _ => 4000%Q) (fun _ => None) None 0 demo_machine_prete 0 (demo_tache "t") "t"
    3600%Q demo_prete _ _ _ _ _ _); [reflexivity..|]. vm_compute. discriminate.
Defined.

(** The task of [demo_engagee], that somebody wanted to review. *)
Definition demo_a_revoir : Engine := Eval vm_compute in
  set_valid (set_criteria "t" ["needs_human_review"] (en_valid (demo_etape 3))) (demo_etape 3).
Definition demo_machine_engagee : Machine := Eval vm_compute in default demo_machine (en_machines demo_a_revoir !! 0%nat).

Lemma review_impossible_witness :
  Forall (fun m => ms_state m <> MissionState.WAITING_APPROVAL) (en_machines (demo_final demo_appels))
  /\ exists x e' t' m',
       terminer_tache (fun _ => 0%Q) (fun _ => "") (fun _ => false) String.eqb 0 0 "t" [] demo_issue demo_a_revoir = (Err x, e')
       /\ exn_cls x = ValueError
       /\ en_heap e' !! 0%nat = Some t' /\ tx_status t' = TaskStatus.RUNNING /\ tx_result t' = Some (PStr "done")
       /\ en_machines e' !! 0%nat = Some m' /\ ms_state m' = MissionState.VALIDATING
       /\ en_coord e' = en_coord demo_a_revoir /\ en_sync e' = en_sync demo_a_revoir.
Proof.
  destruct (review_impossible demo_uuid demo_date demo_refuse "h:1:0" (fun _ => 0%Q) demo_perf (fun _ => None) None (fun _ => "")
    (fun _ => false) String.eqb (fun _ => None) demo_appels empty_base 0 demo_machine_engagee 0 demo_engagee "t" []
    (mkTaskOutcome (Some (PStr "done")) 1 "hermes" [] "m" []) demo_a_revoir) as [H1 H2].
  split; [exact H1|]. apply H2; [reflexivity|reflexivity|by apply (bool_decide_unpack _)|vm_compute; reflexivity].
Defined.
