(* ===== verification/ExecutionLedger.v ===== *)
(** * What a finalised execution leaves in the ledger

    [MissionExecution.finalize] closes the run that the preparation opened, with
    the operations of [RunLedger], the causes of [FailureTaxonomy] and the sums
    of [RunUsage]: the row it leaves, column by column, and that it is left
    only once. *)
From stdpp Require Import base gmap strings list sets pretty.
From Stdlib Require Import ZArith QArith Lia.
From S2P Require Import Prelude.
From S2P Require Import RetryPolicy.
From S2P Require Import RunLedger.
From S2P Require Import LedgerRuns.
From S2P Require Import FailureTaxonomy.
From S2P Require Import RunUsage.
From S2P Require Import TaskScheduler.
From S2P Require Import ExecutionStates.
From S2P Require Import AgentCoordination.
From S2P Require Import MissionExecution.
From S2P Require Import ExecutionRuns.
#[local] Open Scope Z_scope.

(** ** Updates of one row *)

(** Only facts and measures of the row [id] differ. *)
Definition retouche (id : string) (t t' : pydict Ligne) : Prop :=
  (forall k, k <> id -> dget t' k = dget t k)
  /\ forall l, dget t id = Some l -> exists l', dget t' id = Some l' /\ forall nom, nom ∉ FAITS ++ MESURES -> col l' nom = col l nom.

Lemma retouche_refl id t : retouche id t t.
Proof. split; [done|]. intros l Hl. by exists l. Qed.

Lemma retouche_trans id t1 t2 t3 : retouche id t1 t2 -> retouche id t2 t3 -> retouche id t1 t3.
Proof.
  intros [H1 H2] [H3 H4]. split; [intros k Hk; by rewrite H3, H1|]. intros l Hl. destruct (H2 l Hl) as (l2 & Hl2 & Hc2).
  destruct (H4 l2 Hl2) as (l3 & Hl3 & Hc3). exists l3. split; [done|]. intros nom Hn. by rewrite Hc3, Hc2.
Qed.

Lemma col_figer extra l nom : nom ∉ map fst extra -> col (figer extra l) nom = col l nom.
Proof. intros Hn. unfold figer. destruct (est_terminal l); [done|]. by apply col_fold. Qed.

Lemma retouche_maj id extra t : Forall (fun p => p.1 ∈ FAITS ++ MESURES) extra -> retouche id t (mettre_a_jour id (figer extra) t).
Proof.
  intros He. split.
  - intros k Hk. rewrite dget_maj, decide_False by done. by destruct (dget t k).
  - intros l Hl. exists (figer extra l). rewrite dget_maj, Hl, decide_True by done. split; [done|]. intros nom Hn. apply col_figer.
    intros (p & -> & Hp)%list_elem_of_fmap. rewrite Forall_forall in He. by apply Hn, He.
Qed.

Lemma connus_noms (d : pydict pyval) connus : inconnus d connus = [] -> Forall (fun p => p.1 ∈ connus) d.
Proof.
  intros Hi. apply Forall_forall. intros [nom v] Hin. apply dec_stable. intros Hno.
  assert (nom ∈ inconnus d connus) as H; [|rewrite Hi in H; by apply elem_of_nil in H].
  apply list_elem_of_In, filter_In. split; [|by apply bool_decide_eq_true]. apply list_elem_of_In, list_elem_of_fmap. by exists (nom, v).
Qed.

Section base.
Context (maintenant : nat -> string) (refuse : nat -> option exn).

(** Whatever [m] answers, it does no more than retouch [id]. *)
Definition sur (id : string) {A} (m : M Base A) : Prop :=
  forall s, accepte refuse s -> accepte refuse (m s).2 /\ retouche id (ba_runs s) (ba_runs (m s).2).

Lemma sur_ret id {A} (a : A) : sur id (ret a).
Proof. intros s Hs. split; [done|apply retouche_refl]. Qed.

Lemma sur_raise id {A} x : sur id (raise (A:=A) x).
Proof. intros s Hs. split; [done|apply retouche_refl]. Qed.

Lemma sur_sans_statut id extra : Forall (fun p => p.1 ∈ FAITS ++ MESURES) extra -> sur id (changer_sans_statut refuse id extra).
Proof.
  intros He s Hs. destruct (accepte_requete refuse (fun t => (Ok tt, mettre_a_jour id (figer extra) t)) s Hs) as (s' & E & Hr & Ha).
  unfold changer_sans_statut. rewrite E. split; [done|]. cbn [snd] in *. rewrite Hr. by apply retouche_maj.
Qed.

Lemma sur_constater id faits : sur id (constater refuse id faits).
Proof.
  unfold constater. destruct (inconnus faits FAITS) eqn:E; [|apply sur_raise]. apply connus_noms in E.
  assert (Forall (fun p => p.1 ∈ FAITS ++ MESURES) (List.filter (fun p => truthy p.2) faits)) as H.
  { apply Forall_list_filter. eapply Forall_impl; [done|]. intros p Hp. apply elem_of_app. by left. }
  destruct (List.filter _ faits); [apply sur_ret|]. by apply sur_sans_statut.
Qed.

Lemma sur_mesurer id mesures : sur id (mesurer refuse id mesures).
Proof.
  unfold mesurer. destruct (inconnus mesures MESURES) eqn:E; [|apply sur_raise]. apply connus_noms in E.
  assert (Forall (fun p => p.1 ∈ FAITS ++ MESURES) (List.filter non_none mesures)) as H.
  { apply Forall_list_filter. eapply Forall_impl; [done|]. intros p Hp. apply elem_of_app. by right. }
  destruct (List.filter _ mesures); [apply sur_ret|]. apply sur_sans_statut. apply Forall_fmap. eapply Forall_impl; [done|].
  intros q Hq. unfold compose, en_sql. by case_decide.
Qed.

(** What the closing of a run writes. *)
Definition cloture (st : Statut.t) (cause : option Cause.t) (raison : string) (entree sortie : Z) (l l' : Ligne) : Prop :=
  est_terminal l' = true /\ col l' "statut" = PStr (Statut.value st)
  /\ col l' "cause" = match cause with Some c => PStr (Cause.value c) | None => col l "cause" end
  /\ col l' "raison" = (if decide (raison = "") then col l "raison" else PStr raison)
  /\ col l' "jetons_entree" = PInt entree /\ col l' "jetons_sortie" = PInt sortie.

Lemma terminer_spec id st cause raison entree sortie l s : accepte refuse s -> dget (ba_runs s) id = Some l -> est_terminal l = false ->
  st ∈ TERMINAUX ->
  exists s' l', terminer maintenant refuse id st cause raison None (Some entree) (Some sortie) s = (Ok tt, s')
    /\ dget (ba_runs s') id = Some l' /\ (forall k, k <> id -> dget (ba_runs s') k = dget (ba_runs s) k)
    /\ cloture st cause raison entree sortie l l'.
Proof.
  intros Hs Hl Ht Hst. unfold terminer, changer.
  set (s1 := mkBase (ba_runs s) (ba_appels s) (ba_uuids s) (S (ba_dates s))).
  rewrite (bind_ok (date maintenant) _ s s1 (maintenant (ba_dates s))) by done. set (extra := _ :: _).
  destruct (accepte_requete refuse (fun t => (Ok tt, mettre_a_jour id (figer extra) t)) s1 Hs) as (s' & E & Hr & _).
  exists s', (figer extra l). split; [done|]. cbn [snd ba_runs s1] in Hr. rewrite Hr, dget_maj, Hl, decide_True by done.
  split; [done|]. split; [intros k Hk; rewrite dget_maj, decide_False by done; by destruct (dget _ k)|].
  assert (col (figer extra l) "statut" = PStr (Statut.value st)) as Hcol.
  { unfold figer. rewrite Ht. unfold extra. by destruct cause, (decide (raison = "")); cbn [fold_left app optionnel fst snd]; rewrite !col_dset. }
  split; [unfold est_terminal; rewrite Hcol; apply bool_decide_eq_true; cbn [texte_de]; apply list_elem_of_fmap; by exists st|]. split; [done|]. clear Hcol.
  unfold figer. rewrite Ht. unfold extra. destruct cause, (decide (raison = "")); cbn [fold_left app optionnel fst snd]; rewrite !col_dset; done.
Qed.
End base.

(** ** Finalisation *)

Section finalise.
Context (maintenant : nat -> string) (refuse : nat -> option exn) (mot_hors_ascii : string -> bool)
  (equivaut : string -> string -> bool) (int_of : string -> option Z).

Abbreviation finalize := (MissionExecution.finalize maintenant refuse mot_hors_ascii equivaut int_of).
Abbreviation clore := (MissionExecution.clore_le_run maintenant refuse mot_hors_ascii equivaut int_of).

(** An operation of the ledger that only retouches [id], errors kept quiet. *)
Lemma effort_sur id (m : M Base unit) e : sur refuse id m -> accepte refuse (en_base e) ->
  exists b, meilleur_effort (registre m) e = (Ok tt, set_base b e) /\ accepte refuse b /\ retouche id (ba_runs (en_base e)) (ba_runs b).
Proof.
  intros Hm Ha. destruct (Hm (en_base e) Ha) as [H1 H2]. exists (m (en_base e)).2. split; [|done].
  unfold meilleur_effort, catch, registre, zoom. by destruct (m (en_base e)) as [[[]|x] b].
Qed.

(** The status and the cause a report closes its run with. *)
Definition statut_final (r : Report) : Statut.t := if decide (er_state r = MissionState.COMPLETED) then Statut.REUSSI else Statut.ECHOUE.
Definition raison_finale (r : Report) : string := first_chars 2000 (default "" (last (er_errors r))).
Definition cause_finale (r : Report) : option Cause.t :=
  if bool_decide (statut_final r <> Statut.REUSSI) && bool_decide (raison_finale r <> "")
  then cause_de mot_hors_ascii equivaut (raison_finale r) else None.

Lemma clore_spec report tasks e id l entree sortie :
  dget (en_runs e) (er_execution report) = Some id -> accepte refuse (en_base e) ->
  dget (ba_runs (en_base e)) id = Some l -> est_terminal l = false ->
  jetons int_of "prompt_tokens" tasks = Ok entree -> jetons int_of "completion_tokens" tasks = Ok sortie ->
  exists b l', clore report tasks e = (Ok tt, set_base b (set_runs (ddel (en_runs e) (er_execution report)) e))
    /\ dget (ba_runs b) id = Some l' /\ (forall k, k <> id -> dget (ba_runs b) k = dget (ba_runs (en_base e)) k)
    /\ cloture (statut_final report) (cause_finale report) (raison_finale report) entree sortie l l'.
Proof.
  intros Hid Ha Hl Ht Hin Hout. unfold MissionExecution.clore_le_run. rewrite (bind_ok get _ e e e) by done.
  set (e1 := set_runs _ e). rewrite (bind_ok (modify _) _ e e1 tt) by done. rewrite Hid, Hin, Hout.
  rewrite (bind_ok (lift (Ok entree)) _ e1 e1 entree), (bind_ok (lift (Ok sortie)) _ e1 e1 sortie) by done.
  match goal with |- context [constater refuse id ?f] =>
    destruct (effort_sur id (constater refuse id f) e1) as (b1 & E1 & Ha1 & H1); [apply sur_constater|exact Ha|] end.
  rewrite (bind_ok _ _ _ _ _ E1). clear E1. set (e2 := set_base b1 e1).
  assert (exists b2, meilleur_effort (mesures <- lift (agreger int_of (map (fun t => PDict (tx_physiques t)) tasks)) ;;
      match mesures with [] => ret tt | _ => registre (mesurer refuse id mesures) end) e2 = (Ok tt, set_base b2 e2)
      /\ accepte refuse b2 /\ retouche id (ba_runs b1) (ba_runs b2)) as (b2 & E2 & Ha2 & H2).
  { destruct (agreger int_of _) as [mesures|x].
    - destruct mesures as [|p mesures]; [exists b1; split; [done|]; split; [done|apply retouche_refl]|].
      destruct (effort_sur id (mesurer refuse id (p :: mesures)) e2) as (b & E & ?); [apply sur_mesurer|done|]. by exists b.
    - exists b1. split; [done|]. split; [done|apply retouche_refl]. }
  rewrite (bind_ok _ _ _ _ _ E2). clear E2. pose proof (retouche_trans _ _ _ _ H1 H2) as [Hk Hr].
  destruct (Hr l Hl) as (l2 & Hl2 & Hc2). clear Hr H1 H2.
  destruct (terminer_spec maintenant refuse id (statut_final report) (cause_finale report) (raison_finale report) entree sortie l2 b2)
    as (b & l' & E & Hl' & Hk' & Hcl); [done|done| |unfold statut_final; case_decide; by apply (bool_decide_unpack _)|].
  { unfold est_terminal in *. rewrite Hc2; [done|]. by apply (bool_decide_unpack _). }
  exists b, l'. split; [|split; [done|split]].
  - unfold meilleur_effort, catch, registre, zoom. fold (statut_final report) (raison_finale report). fold (cause_finale report).
    cbn [en_base set_base e2]. by rewrite E.
  - intros k Hne. rewrite Hk' by done. by apply Hk.
  - destruct Hcl as (? & ? & H3 & H4 & ? & ?). rewrite (Hc2 "cause") in H3 by by apply (bool_decide_unpack _).
    rewrite (Hc2 "raison") in H4 by by apply (bool_decide_unpack _). done.
Qed.

(** What the closing leaves alone. *)
Definition meme_hors_base (e e' : Engine) : Prop :=
  en_heap e' = en_heap e /\ en_machines e' = en_machines e /\ en_sched e' = en_sched e /\ en_own e' = en_own e.

Lemma rapport_meme e e' m : meme_hors_base e e' -> rapport e' m = rapport e m
  /\ objets e' (own_tasks e' (ms_meta m)) = objets e (own_tasks e (ms_meta m)).
Proof. intros (H1 & _ & H3 & H4). unfold rapport, objets, own_tasks. by rewrite H1, H3, H4. Qed.

(** Around the closing. *)
Lemma finalize_spec mr m e (P : Engine -> Prop) : en_machines e !! mr = Some m ->
  (forall e1, meme_hors_base e e1 -> en_base e1 = en_base e -> en_runs e1 = en_runs e ->
     exists e2, clore (rapport e m) (objets e (own_tasks e (ms_meta m))) e1 = (Ok tt, e2) /\ meme_hors_base e1 e2
       /\ forall e3, en_base e3 = en_base e2 -> en_runs e3 = en_runs e2 -> meme_hors_base e2 e3 -> P e3) ->
  exists e', finalize mr e = (Ok (rapport e m), e') /\ P e'.
Proof.
  intros Hm Hc. unfold MissionExecution.finalize. rewrite (bind_ok (machine mr) _ e e m) by by apply machine_ok.
  rewrite (bind_ok get _ e e e) by done. set (e1 := set_learned (analyze (rapport e m) (en_feedback e)) (en_observations e ++ [observe_execution (rapport e m)]) e).
  rewrite (bind_ok (modify _) _ e e1 tt) by done.
  destruct (Hc e1) as (e2 & E & _ & HP); [done..|]. rewrite (bind_ok _ _ _ _ _ E). rewrite (bind_ok get _ e2 e2 e2) by done.
  destruct (generate_recommendations _) as [|rec recs].
  - exists e2. split; [done|]. by apply HP.
  - eexists. split; [reflexivity|]. by apply HP.
Qed.

(** C10: Finalising closes the run, once.  When the database answers and the
    counts of tokens are numbers, the report is what the tasks are and the row of
    the run, open until then, is closed: REUSSI exactly when the execution is
    COMPLETED, and else with the last error of the last task that has one and
    the cause it is classified under; the tokens are the sums over the tasks and
    no other row changes.  Finalised again, the execution reports the same and
    the ledger is not touched. *)
Theorem finalize_closes_run mr m e id l entree sortie :
  en_machines e !! mr = Some m -> dict_wf (en_runs e) -> dget (en_runs e) (em_id (ms_meta m)) = Some id ->
  accepte refuse (en_base e) -> dget (ba_runs (en_base e)) id = Some l -> est_terminal l = false ->
  let report := rapport e m in
  let tasks := objets e (own_tasks e (ms_meta m)) in
  jetons int_of "prompt_tokens" tasks = Ok entree -> jetons int_of "completion_tokens" tasks = Ok sortie ->
  exists e' l', finalize mr e = (Ok report, e') /\ dget (ba_runs (en_base e')) id = Some l'
    /\ (forall k, k <> id -> dget (ba_runs (en_base e')) k = dget (ba_runs (en_base e)) k)
    /\ cloture (statut_final report) (cause_finale report) (raison_finale report) entree sortie l l'
    /\ (col l' "statut" = PStr (Statut.value Statut.REUSSI) <-> ms_state m = MissionState.COMPLETED)
    /\ exists e'', finalize mr e' = (Ok report, e'') /\ en_base e'' = en_base e'.
Proof.
  intros Hm Hwf Hid Ha Hl Ht report tasks Hin Hout.
  assert (exists e', finalize mr e = (Ok report, e') /\ meme_hors_base e e' /\ dget (en_runs e') (em_id (ms_meta m)) = None
    /\ exists l', dget (ba_runs (en_base e')) id = Some l'
       /\ (forall k, k <> id -> dget (ba_runs (en_base e')) k = dget (ba_runs (en_base e)) k)
       /\ cloture (statut_final report) (cause_finale report) (raison_finale report) entree sortie l l')
    as (e' & E & Hsame & Hnone & l' & Hl' & Hk & Hcl).
  { apply finalize_spec; [done|]. intros e1 Hs1 Hb1 Hr1.
    destruct (clore_spec report tasks e1 id l entree sortie) as (b & l' & Ec & Hl' & Hk & Hcl); try by rewrite ?Hb1, ?Hr1.
    eexists. split; [exact Ec|]. split; [done|]. intros e3 Hb3 Hr3 Hs3. rewrite Hb3, Hr3. cbn [en_base en_runs set_base set_runs].
    split_and!.
    - destruct Hs1 as (? & ? & ? & ?), Hs3 as (? & ? & ? & ?). cbn in *. split_and!; congruence.
    - rewrite Hr1, dget_ddel by done. by rewrite decide_True.
    - exists l'. by rewrite Hb1 in Hk. }
  exists e', l'. split_and!; [done..| |].
  - rewrite (proj1 (proj2 Hcl)). unfold statut_final. cbn [er_state report rapport]. by case_decide.
  - destruct (rapport_meme e e' m Hsame) as [Hrep Hobj].
    destruct (finalize_spec mr m e' (fun e3 => en_base e3 = en_base e')) as (e'' & E2 & Hb).
    + destruct Hsame as (_ & -> & _). done.
    + intros e1 Hs1 Hb1 Hr1. exists (set_runs (ddel (en_runs e1) (er_execution (rapport e' m))) e1). split; [|split; [done|]].
      * unfold MissionExecution.clore_le_run. rewrite (bind_ok get _ e1 e1 e1) by done.
        set (e2 := set_runs _ e1). rewrite (bind_ok (modify _) _ e1 e2 tt) by done. rewrite Hr1. cbn [er_execution rapport]. by rewrite Hnone.
      * intros e3 Hb3 _ _. by rewrite Hb3.
    + exists e''. unfold report. by rewrite <- Hrep.
Qed.
End finalise.

(** ** Example: the execution of one task, served, then reported *)

Definition demo_servie : Engine := Eval vm_compute in demo_etape 4.
Definition demo_machine_servie : Machine := Eval vm_compute in default demo_machine (en_machines demo_servie !! 0%nat).
Definition demo_ligne : Ligne := Eval vm_compute in default [] (dget (ba_runs (en_base demo_servie)) "r0").

Abbreviation demo_finalize := (finalize demo_date demo_refuse (fun _ => false) String.eqb (fun _ => None)).

Lemma finalize_closes_run_witness :
  let report := rapport demo_servie demo_machine_servie in
  exists e' l', demo_finalize 0 demo_servie = (Ok report, e') /\ dget (ba_runs (en_base e')) "r0" = Some l'
    /\ (forall k, k <> "r0" -> dget (ba_runs (en_base e')) k = dget (ba_runs (en_base demo_servie)) k)
    /\ cloture (statut_final report) (cause_finale (fun _ => false) String.eqb report) (raison_finale report) 0 0 demo_ligne l'
    /\ (col l' "statut" = PStr (Statut.value Statut.REUSSI) <-> ms_state demo_machine_servie = MissionState.COMPLETED)
    /\ exists e'', demo_finalize 0 e' = (Ok report, e'') /\ en_base e'' = en_base e'.
Proof.
  refine (finalize_closes_run demo_date demo_refuse (fun _ => false) String.eqb (fun _ => None) 0 demo_machine_servie demo_servie "r0"
    demo_ligne 0 0 _ _ _ _ _ _ _ _); [reflexivity|by apply (bool_decide_unpack _)|reflexivity|done|reflexivity|reflexivity|reflexivity|reflexivity].
Defined.
