(* ===== verification/NodeExecution.v ===== *)
(** * A node of a mission on the execution engine
    ([backend/mission/node_execution.py])

    The hook [make_node_executor] gives to [GraphExecutor]: a node becomes a task
    of an execution of its own, which is started, executed again as long as the
    task comes back PENDING, finalised, and reported on the node.  [MissionNode]
    and [RunReport] are those of the graph, [Engine] the state of the engine. *)
From stdpp Require Import base gmap strings list sets sorting pretty.
From Stdlib Require Import ZArith QArith Qround Lqa Lia.
From S2P Require Import Prelude.
From S2P Require Import Kahn.
From S2P Require Import MissionGraph.
From S2P Require Import GraphExecutor.
From S2P Require Import MissionRuns.
From S2P Require Import RetryPolicy.
From S2P Require Import RunLedger.
From S2P Require Import FailureTaxonomy.
From S2P Require Import RunUsage.
From S2P Require Import TaskScheduler.
From S2P Require Import ExecutionStates.
From S2P Require Import AgentCoordination.
From S2P Require Import MissionExecution.
From S2P Require Import ExecutionRuns.
#[local] Open Scope Z_scope.

(** ** The task of a node *)

(** [TaskExecution(...)]: the title is the first of three that is not empty. *)
Definition node_task (n : MissionNode) : TaskExecution :=
  mkTaskExec (mn_id n +:+ "-task") (str_or (mn_title n) (str_or (mn_description n) (mn_id n))) (mn_type n) (mn_agent n)
    TaskStatus.PENDING "" (mn_runtime n) "" "" "" (mn_skills n) [] [] None [] 0 None None 0 [] [] None.

(** [ExecutionMeta(...)], its id being drawn, with the defaults of its class. *)
Definition MAX_RETRIES_PER_TASK : Z := 3.
Definition node_meta (id : string) (n : MissionNode) : ExecutionMeta :=
  mkExecMeta id (str_or (mn_mission n) (mn_id n)) (tx_title (node_task n)) (Some BUDGET_MISSION_PAR_DEFAUT_S) MAX_RETRIES_PER_TASK [].

(** A date of an execution, in seconds, on the clock of missions. *)
Definition instant (d : Q) : Z := Qfloor (d * 1000000).

(** The node as it was. *)
Definition inchange (n : MissionNode) : RunReport := mkReport (mn_actual n) (mn_completed n) None None.

(** How the calls of a node end: with what the last one answers, the message
    when no runtime was available; with an exception; or not within the fuel. *)
Inductive fin :=
  | Rendue (indisponible : option string)
  | Levee
  | Epuisee.

(** [outcome["error"]] when [outcome["runtime_available"] is False] *)
Definition indisponible (d : debut) (i : issue) : option string :=
  match d, i with
  | Engage _ _, Indisponible message => Some message
  | _, _ => None
  end.

Section node.
(** The parameters of the engine, and the text of a result. *)
Context (uuid_hex maintenant : nat -> string) (refuse : nat -> option exn) (empreinte_du_processus : string)
  (date perf : nat -> Q) (vue : nat -> mission_vue) (matcher : option Matcher) (json_dumps : pydict pyval -> string)
  (mot_hors_ascii : string -> bool) (equivaut : string -> string -> bool) (int_of : string -> option Z)
  (texte : pyval -> string).

#[local] Abbreviation start_ := (start uuid_hex maintenant refuse empreinte_du_processus date perf vue).
#[local] Abbreviation execute_task_by_id_ := (execute_task_by_id date perf vue matcher json_dumps mot_hors_ascii equivaut).
#[local] Abbreviation finalize_by_id_ := (finalize_by_id maintenant refuse mot_hors_ascii equivaut int_of).

(** What is written back on the node, and what is answered to the graph. *)
Definition rapport_du_noeud (t : TaskExecution) (o : option string) : bool * RunReport :=
  let summary :=
    match o with
    | Some reason => Some ("not executed: " +:+ reason)
    | None =>
        match last (tx_errors t), tx_result t with
        | Some e, _ => Some ("failed: " +:+ e)
        | None, Some PNone => None
        | None, Some v => Some (first_chars 500 (texte v))
        | None, None => None
        end
    end in
  (match o with Some _ => false | None => bool_decide (tx_status t = TaskStatus.COMPLETED) end,
   mkReport (tx_duration t) (instant <$> tx_completed t) (if decide (tx_runtime t = "") then None else Some (tx_runtime t)) summary).

(** [TaskExecution(...)]: a new object. *)
Definition allouer (t : TaskExecution) : M Engine nat := fun e =>
  (Ok (length (en_heap e)), set_heap (en_heap e ++ [t]) e).

(** The execution of a node, its id, and what the executor of tasks does of the
    node at its [k]-th attempt. *)
Section execution.
Context (id : string) (servir : nat -> pydict pyval * issue).

(** [controller.execute_task(meta.execution_id, task.task_id)] *)
Definition tenter_noeud (tid : string) (k : nat) : M Engine (option string) :=
  d <- execute_task_by_id_ id tid (servir k).1 (servir k).2 ;; ret (indisponible d (servir k).2).

(** [while task.status == PENDING: outcome = controller.execute_task(...)] *)
Fixpoint reprendre (fuel k : nat) (tid : string) (r : nat) (o : option string) : M Engine fin :=
  t <- tache r ;;
  if decide (tx_status t = TaskStatus.PENDING) then
    match fuel with
    | O => ret Epuisee
    | S fuel' => o <- tenter_noeud tid k ;; reprendre fuel' (S k) tid r o
    end
  else ret (Rendue o).

Definition jouer (fuel : nat) (n : MissionNode) (r : nat) : M Engine fin :=
  start_ (node_meta id n) [r] [] ;;;
  o <- tenter_noeud (tx_id (node_task n)) 0 ;;
  reprendre fuel 1 (tx_id (node_task n)) r o.

(** [execute_node], with or without a controller; [None] when the fuel is
    short. *)
Definition execute_node (fuel : nat) (controller : bool) (n : MissionNode) : M Engine (option (bool * RunReport)) :=
  if negb controller then ret (Some (false, inchange n))
  else
    r <- allouer (node_task n) ;;
    f <- catch (jouer fuel n r) (fun _ => true) (fun _ => ret Levee) ;;
    match f with
    | Levee => ret (Some (false, inchange n))
    | Epuisee => ret None
    | Rendue o =>
        meilleur_effort (discard (finalize_by_id_ id)) ;;;
        t <- tache r ;;
        ret (Some (rapport_du_noeud t o))
    end.
End execution.

(** The hook of the graph: the node at position [i], at step [k], is run on the
    engine as it is then, under an id of its own. *)
Definition make_node_executor (moteur : nat -> nat -> Engine) (ids : nat -> nat -> string)
    (servir : nat -> nat -> nat -> pydict pyval * issue) (k i : nat) (n : MissionNode) : res bool * RunReport :=
  match (execute_node (ids k i) (servir k i) (Z.to_nat MAX_RETRIES_PER_TASK) true n (moteur k i)).1 with
  | Ok (Some (b, report)) => (Ok b, report)
  | Ok None => (Ok false, inchange n)
  | Err x => (Err x, inchange n)
  end.
End node.
