(* ===== verification/NodeRuns.v ===== *)
(** * What the execution of a node promises ([node_execution.py])

    The calls of a node end, an answer of success is always the success of a
    task that was served, and a mission whose nodes are served completes. *)
From stdpp Require Import base gmap strings list sets sorting pretty.
From Stdlib Require Import ZArith QArith Lqa Lia.
From S2P Require Import Prelude.
From S2P Require Import Kahn.
From S2P Require Import MissionGraph.
From S2P Require Import GraphExecutor.
From S2P Require Import MissionRuns.
From S2P Require Import RetryPolicy.
From S2P Require Import RunLedger.
From S2P Require Import LedgerRuns.
From S2P Require Import FailureTaxonomy.
From S2P Require Import RunUsage.
From S2P Require Import TaskScheduler.
From S2P Require Import ExecutionStates.
From S2P Require Import AgentCoordination.
From S2P Require Import MissionExecution.
From S2P Require Import ExecutionRuns.
From S2P Require Import NodeExecution.
#[local] Open Scope Z_scope.

(** ** Correctness with exceptions

    From [s], [m] returns into [Q] or raises into [R]. *)
Definition awp {S A} (m : M S A) (Q : A -> S -> Prop) (R : S -> Prop) (s : S) : Prop :=
  match m s with
  | (Ok a, s') => Q a s'
  | (Err _, s') => R s'
  end.

Section awp.
Context {S : Type}.

Lemma awp_bind {A B} (m : M S A) (f : A -> M S B) Q R s : awp m (fun a => awp (f a) Q R) R s -> awp (bind m f) Q R s.
Proof. unfold awp, bind. by destruct (m s) as [[a|x] s']. Qed.

Lemma awp_step {A B} (m : M S A) (f : A -> M S B) Q R a s s' : m s = (Ok a, s') -> awp (f a) Q R s' -> awp (bind m f) Q R s.
Proof. intros E Hf. unfold awp. by rewrite (bind_ok _ _ _ _ _ E). Qed.

Lemma awp_ret {A} (a : A) (Q : A -> S -> Prop) R s : Q a s -> awp (ret a) Q R s.
Proof. done. Qed.

Lemma awp_mono {A} (m : M S A) (P Q : A -> S -> Prop) (R R' : S -> Prop) s :
  awp m P R s -> (forall a s', P a s' -> Q a s') -> (forall s', R s' -> R' s') -> awp m Q R' s.
Proof. unfold awp. destruct (m s) as [[a|x] s']; auto. Qed.

Lemma awp_tail {A} (m : M S A) Q R s : awp (bind m ret) Q R s -> awp m Q R s.
Proof. unfold awp, bind, ret. by destruct (m s) as [[a|x] s']. Qed.
End awp.

(** ** What leaves the tasks, the machines and the registries alone *)

Record fixe (e e' : Engine) : Prop := Fixe {
  fx_heap : en_heap e' = en_heap e;
  fx_machines : en_machines e' = en_machines e;
  fx_sched : en_sched e' = en_sched e;
  fx_executions : en_executions e' = en_executions e;
  fx_own : en_own e' = en_own e;
  fx_criteria : vl_criteria (en_valid e') = vl_criteria (en_valid e)
}.

#[export] Instance fixe_preorder : PreOrder fixe.
Proof. split; [by intros e|]. intros e1 e2 e3 [] []. split; congruence. Qed.

(** [m] returns and leaves them alone. *)
Definition tranquille {A} (m : M Engine A) : Prop := forall e, exists a e', m e = (Ok a, e') /\ fixe e e'.

(** [m] leaves them alone, whether it returns or raises. *)
Definition immobile {A} (m : M Engine A) : Prop := forall e, fixe e (m e).2.

Lemma tranquille_bind {A B} (m : M Engine A) (f : A -> M Engine B) :
  tranquille m -> (forall a, tranquille (f a)) -> tranquille (bind m f).
Proof.
  intros Hm Hf e. destruct (Hm e) as (a & e1 & E & H1). destruct (Hf a e1) as (b & e2 & E2 & H2).
  exists b, e2. rewrite (bind_ok _ _ _ _ _ E). split; [done|]. by transitivity e1.
Qed.

Lemma immobile_bind {A B} (m : M Engine A) (f : A -> M Engine B) :
  immobile m -> (forall a, immobile (f a)) -> immobile (bind m f).
Proof.
  intros Hm Hf e. unfold bind. pose proof (Hm e) as H1. destruct (m e) as [[a|x] e1]; [|done].
  transitivity e1; [done|apply Hf].
Qed.

Lemma tranquille_effort (m : M Engine unit) : immobile m -> tranquille (meilleur_effort m).
Proof.
  intros Hm e. unfold meilleur_effort, catch. pose proof (Hm e) as H. destruct (m e) as [[a|x] e1]; by eexists _, _.
Qed.

Lemma immobile_tranquille {A} (m : M Engine A) : tranquille m -> immobile m.
Proof. intros Hm e. by destruct (Hm e) as (a & e' & -> & H). Qed.

Lemma tranquille_modify f : (forall e, fixe e (f e)) -> tranquille (modify f).
Proof. intros Hf e. by eexists _, _. Qed.

Lemma tranquille_ret {A} (a : A) : tranquille (ret a).
Proof. intros e. by eexists _, _. Qed.

Lemma immobile_lift {A} (r : res A) : immobile (lift r).
Proof. by intros e. Qed.

Lemma tranquille_get : tranquille get.
Proof. intros e. by eexists _, _. Qed.

Lemma immobile_registre {A} (m : M Base A) : immobile (registre m).
Proof. intros e. unfold registre, zoom. by destruct (m (en_base e)). Qed.

Lemma tranquille_publish_ ty data b : tranquille (publish_ ty data b).
Proof. intros e. by eexists _, _. Qed.

Lemma tranquille_publish ty data : tranquille (publish ty data).
Proof. apply tranquille_publish_. Qed.

Lemma tranquille_started agent mission task : tranquille (sync_agent_started agent mission task).
Proof. unfold sync_agent_started. case_decide; intros e; by eexists _, _. Qed.

Lemma tranquille_released agent duration status : tranquille (sync_agent_released agent duration status).
Proof. unfold sync_agent_released. case_decide; intros e; by eexists _, _. Qed.

Lemma immobile_machine mr : immobile (machine mr).
Proof. intros e. unfold machine. by destruct (_ !! _). Qed.

Lemma immobile_execution id : immobile (execution id).
Proof. intros e. unfold execution. by destruct (dget _ _). Qed.

Create HintDb tranquille.
#[export] Hint Resolve tranquille_ret tranquille_get tranquille_publish_ tranquille_publish tranquille_started tranquille_released
  immobile_lift immobile_registre immobile_machine immobile_execution : tranquille.

Ltac paisible :=
  lazymatch goal with
  | |- tranquille (bind _ _) => apply tranquille_bind; [|intros ?]
  | |- immobile (bind _ _) => apply immobile_bind; [|intros ?]
  | |- tranquille (meilleur_effort _) => apply tranquille_effort
  | |- immobile (meilleur_effort _) => apply immobile_tranquille, tranquille_effort
  | |- tranquille (match ?x with _ => _ end) => destruct x
  | |- immobile (match ?x with _ => _ end) => destruct x
  | |- tranquille _ => solve [auto with tranquille | intros ?; by eexists _, _]
  | |- immobile _ => solve [auto with tranquille | by intros ? | apply immobile_tranquille; paisible]
  end.

(** ** The last entries of a registry *)

Lemma dict_wf_keep_last {V} m (d : pydict V) : dict_wf d -> dict_wf (keep_last m d).
Proof. unfold dict_wf, dkeys, keep_last. intros Hd. rewrite <- skipn_map. eapply sublist_NoDup; [done|apply sublist_drop]. Qed.

Lemma dget_keep_last {V} m (d : pydict V) k v : dict_wf d -> dget (keep_last m d) k = Some v -> dget d k = Some v.
Proof.
  intros Hd Hk. apply dget_elem; [done|]. apply dget_Some_elem in Hk. unfold keep_last in Hk.
  rewrite <- (take_drop (length d - m) d). apply elem_of_app. by right.
Qed.

Lemma dget_keep_last_dmove {V} m (d : pydict V) k v :
  (0 < m)%nat -> dict_wf d -> dget (keep_last m (dmove d k v)) k = Some v.
Proof.
  intros Hm Hd. apply dget_elem; [by apply dict_wf_keep_last, dict_wf_dmove|]. unfold keep_last, dmove.
  rewrite length_app. cbn. rewrite drop_app_le by lia. set_solver.
Qed.

(** ** One node on the engine *)

(** The registries of the engine are as it keeps them. *)
Definition en_ordre (e : Engine) : Prop :=
  sched_wf (en_sched e) /\ (length (sc_tasks (en_sched e)) <= MAX_RETAINED_TASKS)%nat
  /\ dict_wf (en_executions e) /\ dict_wf (en_own e).

Lemma en_ordre_fixe e e' : fixe e e' -> en_ordre e -> en_ordre e'.
Proof. intros []. unfold en_ordre. congruence. Qed.

(** The registries of a new engine. *)
Lemma en_ordre_new b : en_ordre (new_engine b).
Proof. split_and!; [apply sched_wf_empty|cbn; lia|constructor|constructor]. Qed.

Section walk.
Context (uuid_hex maintenant : nat -> string) (refuse : nat -> option exn) (empreinte_du_processus : string)
  (date perf : nat -> Q) (vue : nat -> mission_vue) (matcher : option Matcher) (json_dumps : pydict pyval -> string)
  (mot_hors_ascii : string -> bool) (equivaut : string -> string -> bool) (int_of : string -> option Z)
  (texte : pyval -> string).

(** What may be read of a mission: [_mission()] asks nothing when there is no
    mission. *)
Definition lue (v : mission_vue) : Prop := v = None \/ exists j, v = vue j.

(** The mission has time left, whenever its clocks are read: a valid budget, of
    which less is spent. *)
Definition du_temps : Prop := forall p q d v w, lue v -> lue w ->
  exists b, budget_de (match w with Some (b, _) => b | None => Some BUDGET_MISSION_PAR_DEFAUT_S end) = Ok b
    /\ (offset_missionnel v (date d) + (perf p - perf q) < b)%Q.

(** A machine made for a node. *)
Definition du_noeud (meta : ExecutionMeta) (m : Machine) : Prop :=
  ms_meta m = meta /\ exists v d q, lue v /\ ms_offset m = offset_missionnel v (date d) /\ ms_t0 m = perf q.

Lemma du_noeud_passer meta target reason m : du_noeud meta m -> du_noeud meta (passer target reason m).
Proof. done. Qed.

Section noeud.
(** The node, the id of its execution, where its task and its machine are, its
    criteria, and whether the controller knows of the execution yet. *)
Context (id : string) (n : MissionNode) (r mr : nat) (crit : option (list string)) (connue : Prop).
Let tid : string := tx_id (node_task n).
Let meta : ExecutionMeta := node_meta id n.

(** The task of the node is [t] and its execution is in the state [st]. *)
Record lieu (t : TaskExecution) (st : MissionState.t) (e : Engine) : Prop := Lieu {
  li_heap : en_heap e !! r = Some t;
  li_id : tx_id t = tid;
  li_known : get_task (en_sched e) tid = Some r;
  li_execution : connue -> dget (en_executions e) id = Some mr;
  li_own : own_tasks e meta = [] \/ own_tasks e meta = [tid];
  li_machine : exists m, en_machines e !! mr = Some m /\ ms_state m = st /\ du_noeud meta m;
  li_ordre : en_ordre e;
  li_criteria : dget (vl_criteria (en_valid e)) tid = crit
}.

Lemma lieu_fixe t st e e' : fixe e e' -> lieu t st e -> lieu t st e'.
Proof.
  intros Hf [Hh Hi Hk Hx Ho Hm Hor Hc]. pose proof (en_ordre_fixe _ _ Hf Hor). destruct Hf as [H1 H2 H3 H4 H5 H6].
  unfold own_tasks in *. split; rewrite ?H1, ?H2, ?H3, ?H4, ?H6; unfold own_tasks; rewrite ?H5; done.
Qed.

Section steps.
Context (R : Engine -> Prop) {B : Type} (Q : B -> Engine -> Prop).

Lemma awp_calme {A} (m : M Engine A) (f : A -> M Engine B) t st e :
  tranquille m -> lieu t st e -> (forall a e', lieu t st e' -> awp (f a) Q R e') -> awp (bind m f) Q R e.
Proof.
  intros Hm He Hf. destruct (Hm e) as (a & e' & E & Hx). unfold awp. rewrite (bind_ok _ _ _ _ _ E).
  apply Hf. by eapply lieu_fixe.
Qed.

Lemma awp_tache (f : TaskExecution -> M Engine B) t st e :
  lieu t st e -> awp (f t) Q R e -> awp (bind (tache r) f) Q R e.
Proof. intros He Hf. unfold awp. by rewrite (bind_ok _ _ _ _ _ (tache_ok r t e (li_heap _ _ _ He))). Qed.

Lemma awp_machine (f : Machine -> M Engine B) t st e :
  lieu t st e -> (forall m, ms_state m = st -> du_noeud meta m -> awp (f m) Q R e) -> awp (bind (machine mr) f) Q R e.
Proof.
  intros He Hf. destruct (li_machine _ _ _ He) as (m & Hm & Hst & Hd). unfold awp.
  rewrite (bind_ok _ _ _ _ _ (machine_ok mr m e Hm)). by apply Hf.
Qed.

Lemma awp_ecrire g (f : unit -> M Engine B) t st e :
  lieu t st e -> tx_id (g t) = tx_id t -> (forall e', lieu (g t) st e' -> awp (f tt) Q R e') -> awp (bind (ecrire r g) f) Q R e.
Proof.
  intros [Hh Hi Hk Hx Ho Hm Hor Hc] Hg Hf. apply (Hf (set_heap (alter g r (en_heap e)) e)).
  split; try done; [|congruence]. cbn. rewrite (alter_as_insert _ r t _ Hh). apply list_lookup_insert_eq. by eapply lookup_lt_Some.
Qed.

Lemma awp_passer target reason (f : unit -> M Engine B) t st e :
  lieu t st e -> target = st \/ target ∈ VALID_TRANSITIONS st ->
  (forall e', lieu t target e' -> awp (f tt) Q R e') -> awp (bind (passer_a mr target reason) f) Q R e.
Proof.
  intros [Hh Hi Hk Hx Ho Hm Hor Hc] Ht Hf. destruct Hm as (m & Hm & Hst & Hd).
  assert (E : passer_a mr target reason e = (Ok tt, set_machines (<[mr := passer target reason m]> (en_machines e)) e)).
  { unfold passer_a. rewrite (bind_ok _ _ _ _ _ (machine_ok _ _ _ Hm)).
    destruct (transition_cases target reason m) as [(x & -> & _)|(x & _ & _ & Hne & Hno)]; [done|].
    rewrite Hst in Hne, Hno. by destruct Ht. }
  unfold awp. rewrite (bind_ok _ _ _ _ _ E). apply Hf. split; try done.
  exists (passer target reason m). split_and!; [|done|done]. apply list_lookup_insert_eq. by eapply lookup_lt_Some.
Qed.

End steps.

(** What is read of the mission is one of its readings. *)
Lemma awp_vue {B} (R : Engine -> Prop) (post : B -> Engine -> Prop) (f : mission_vue -> M Engine B) t st e :
  lieu t st e -> (forall v e', lieu t st e' -> lue v -> awp (f v) post R e') -> awp (bind (lire_vue vue meta) f) post R e.
Proof.
  intros He Hf. unfold lire_vue, awp, bind. case_decide.
  - apply Hf; [done|by left].
  - apply Hf; [|right; by eexists]. eapply lieu_fixe; [|done]. by split.
Qed.

(** Something may be raised only when the mission may have no time left. *)
Definition levable (R : Engine -> Prop) : Prop := du_temps \/ forall e, en_ordre e -> R e.

(** The budget is read: it raises, or is spent, only when time may lack. *)
Lemma awp_budget {B} (R : Engine -> Prop) (post : B -> Engine -> Prop) (f : Q * Q -> M Engine B) t st e :
  lieu t st e -> levable R ->
  (forall cb e', lieu t st e' -> (du_temps -> Qle_bool cb.2 cb.1 = false) -> awp (f cb) post R e') ->
  awp (bind (consomme_et_budget perf vue mr) f) post R e.
Proof.
  intros He HR Hf. unfold consomme_et_budget. apply awp_bind.
  set (e1 := set_clocks (en_dates e) (S (en_perfs e)) (en_vues e) e).
  assert (H1 : lieu t st e1) by (eapply lieu_fixe; [|done]; by split).
  unfold awp at 1. rewrite (bind_ok (lire_perf perf) _ e e1 (perf (en_perfs e))) by done.
  apply (awp_machine _ _ _ t st); [done|]. intros m _ [Hmeta (v & d & q & Hv & Ho & H0)]. rewrite Hmeta.
  apply (awp_vue _ _ _ t st); [done|]. intros w e2 H2 Hw.
  assert (Hb : budget_s w m = budget_de (match w with Some (b, _) => b | None => Some BUDGET_MISSION_PAR_DEFAUT_S end)).
  { unfold budget_s. rewrite Hmeta. by destruct w as [[]|]. }
  unfold awp at 1, bind, lift. destruct (budget_s w m) as [b|x] eqn:Eb.
  - apply Hf; [done|]. intros Ht.
    destruct (Ht (en_perfs e) q d v w Hv Hw) as (b' & Hb' & Hlt). cbn.
    assert (b' = b) as -> by congruence. apply not_true_iff_false. intros Hle%Qle_bool_iff.
    unfold budget_consomme_s in Hle. rewrite Ho, H0 in Hle. lra.
  - destruct HR as [Ht|HR]; [|by apply HR, (li_ordre _ _ _ H2)].
    destruct (Ht 0%nat 0%nat 0%nat v w Hv Hw) as (b' & Hb' & _). congruence.
Qed.

(** As long as the task is not over, the execution is not. *)
Lemma not_all_done t st e : lieu t st e -> tx_status t ∉ TERMINAL ->
  all_done (en_heap e) (en_sched e) (own_tasks e meta) = false.
Proof.
  intros He Ht. destruct (li_own _ _ _ He) as [->| ->]; [done|]. unfold all_done. cbn [forallb]. rewrite (li_known _ _ _ He).
  unfold has_status, task_status. rewrite (li_heap _ _ _ He). cbn. rewrite andb_true_r. by apply bool_decide_eq_false.
Qed.

Definition actif (st : MissionState.t) : Prop := st ∈ [MissionState.RUNNING; MissionState.VALIDATING].

Lemma awp_maybe_finalize (R : Engine -> Prop) t st e :
  lieu t st e -> st ∉ [MissionState.COMPLETED; MissionState.FAILED; MissionState.CANCELLED] ->
  (tx_status t ∈ TERMINAL -> actif st) ->
  awp (maybe_finalize_state mr) (fun _ e' => exists st', lieu t st' e' /\ (tx_status t ∉ TERMINAL -> st' = st)) R e.
Proof.
  intros He Hno Hact. unfold maybe_finalize_state. apply (awp_machine _ _ _ t st); [done|]. intros m Hst [Hm _].
  unfold is_terminal. rewrite Hst, bool_decide_eq_false_2 by done.
  unfold awp, bind at 1, get. cbn [fst snd]. rewrite Hm. destruct (all_done _ _ _) eqn:Hall; cbn [negb].
  - assert (Ht : tx_status t ∈ TERMINAL).
    { destruct (decide (tx_status t ∈ TERMINAL)) as [?|Hn]; [done|]. by rewrite (not_all_done t st e) in Hall. }
    apply Hact in Ht as Ha.
    assert (Hv : MissionState.COMPLETED ∈ VALID_TRANSITIONS st /\ MissionState.FAILED ∈ VALID_TRANSITIONS st).
    { clear -Ha. apply elem_of_cons in Ha as [->|Ha%list_elem_of_singleton]; [|rewrite Ha]; split; const_elem. }
    destruct (existsb _ _); (apply (awp_passer _ _ _ _ _ t st e); [done|right; apply Hv|]);
      intros e' He'; apply awp_tail; (eapply awp_calme; [auto with tranquille|done|]);
      intros a e2 H2; eexists; split; done.
  - by exists st.
Qed.

(** ** The end of a call *)

(** The task of a node is let go of: it keeps what it is. *)
Lemma awp_liberer (R : Engine -> Prop) t st e :
  lieu t st e -> st ∉ [MissionState.COMPLETED; MissionState.FAILED; MissionState.CANCELLED] ->
  (tx_status t ∈ TERMINAL -> actif st) ->
  awp (liberer mr r tid) (fun _ e' => exists st', lieu t st' e' /\ (tx_status t ∉ TERMINAL -> st' = st)) R e.
Proof.
  intros He Hno Hact. unfold liberer. apply (awp_tache _ _ _ t st); [done|]. unfold awp, bind at 1, modify at 1. cbn [fst snd].
  assert (H1 : lieu t st (set_heap (update_task tid (tx_status t) None (en_sched e) (en_heap e)) e)).
  { destruct He as [Hh Hi Hk Hx Ho Hm Hor Hc]. split; try done. cbn [en_heap set_heap]. unfold update_task. rewrite Hk.
    rewrite (alter_as_insert _ r t _ Hh). etransitivity; [apply list_lookup_insert_eq; by eapply lookup_lt_Some|by destruct t]. }
  revert H1. generalize (set_heap (update_task tid (tx_status t) None (en_sched e) (en_heap e)) e). intros e1 H1.
  change (awp (modify (fun e => set_coord (release_agent tid (en_coord e)) e) ;;;
    sync_agent_released (tx_agent t) (tx_duration t) (tx_status t) ;;; maybe_finalize_state mr)
    (fun _ e' => exists st', lieu t st' e' /\ (tx_status t ∉ TERMINAL -> st' = st)) R e1).
  eapply awp_calme; [by apply tranquille_modify|done|]. intros _ e2 H2.
  eapply awp_calme; [auto with tranquille|done|]. intros _ e3 H3. by apply awp_maybe_finalize.
Qed.

(** A cause that is tried again. *)
Definition reprenable (message : string) : Prop :=
  re_reessayer (remede (cl_cause (classer mot_hors_ascii equivaut message None None None))) = true.

(** A result, and nobody asked to look at it. *)
Definition satisfaisante (i : issue) : Prop :=
  ("needs_human_review" ∉ default ["result_present"] crit)
  /\ exists o, i = Rendu o /\ (match oc_result o with None | Some PNone => False | _ => True end).

(** The task holds the result that was served, and no error. *)
Definition fait (i : issue) (t : TaskExecution) : Prop :=
  exists o v, i = Rendu o /\ oc_result o = Some v /\ v <> PNone /\ tx_result t = Some v /\ tx_errors t = []
    /\ tx_runtime t = oc_runtime o.

(** What a call makes of the task: one more attempt if any is left, a success
    only of a result, and both whenever they are due. *)
Record appele (t : TaskExecution) (i : issue) (t' : TaskExecution) (st : MissionState.t) : Prop := Appele {
  ap_again : tx_status t' = TaskStatus.PENDING ->
    tx_retries t < MAX_RETRIES_PER_TASK /\ tx_retries t' = tx_retries t + 1 /\ actif st;
  ap_over : tx_status t' <> TaskStatus.PENDING -> tx_retries t' = tx_retries t;
  ap_done : tx_status t' = TaskStatus.COMPLETED -> fait i t';
  ap_served : satisfaisante i -> tx_status t' = TaskStatus.COMPLETED;
  ap_retried message : i = Indisponible message -> reprenable message -> tx_retries t < MAX_RETRIES_PER_TASK ->
    tx_status t' = TaskStatus.PENDING
}.

Lemma awp_terminer_indisponible (R : Engine -> Prop) t e message :
  lieu t MissionState.RUNNING e ->
  awp (terminer_indisponible date mot_hors_ascii equivaut mr r tid message)
    (fun _ e' => exists t' st, lieu t' st e' /\ appele t (Indisponible message) t' st) R e.
Proof.
  intros He. unfold terminer_indisponible. eapply awp_machine; [done|]. intros m _ [Hm _].
  eapply awp_calme; [intros ?; by eexists _, _|done|]. intros d e1 H1.
  eapply awp_ecrire; [done|done|]. intros e2 H2.
  assert (Hr : reprenable message <-> re_reessayer (remede (cl_cause (classer mot_hors_ascii equivaut message None None None))) = true)
    by done.
  revert Hr. generalize (classer mot_hors_ascii equivaut message None None None). intros c Hr.
  eapply awp_tache; [done|]. rewrite Hm. change (em_max_retries meta) with MAX_RETRIES_PER_TASK.
  destruct (re_reessayer _ && _) eqn:Eb; apply awp_bind.
  - apply andb_true_iff in Eb as [_ Hlt%Z.ltb_lt]. cbn in Hlt.
    eapply awp_ecrire; [done|done|]. intros e3 H3. apply awp_tail.
    eapply awp_calme; [auto with tranquille|done|]. intros [] e4 H4. apply awp_ret.
    eapply awp_mono; [apply (awp_liberer R _ _ _ H4); [by apply (bool_decide_unpack _)|]| |done].
    { intros Ht. const_absurd Ht. }
    intros [] e5 (st & H5 & Hst). eexists _, st. split; [exact H5|]. split; try done.
    + intros _. split_and!; [done|done|]. rewrite Hst; [by apply (bool_decide_unpack _)|by apply (bool_decide_unpack _)].
    + by intros (_ & o & ? & _).
  - eapply awp_ecrire; [done|done|]. intros e3 H3. apply awp_tail.
    eapply awp_calme; [auto with tranquille|done|]. intros [] e4 H4. apply awp_ret.
    eapply awp_mono; [apply (awp_liberer R _ _ _ H4); [by apply (bool_decide_unpack _)|]| |done].
    { intros _. by apply (bool_decide_unpack _). }
    intros [] e5 (st & H5 & Hst). eexists _, st. split; [exact H5|]. split; try done.
    + by intros (_ & o & ? & _).
    + intros x Hx. injection Hx as <-. intros Hx%Hr Hlt. rewrite Hx in Eb. apply Z.ltb_ge in Eb. cbn in Eb. lia.
Qed.

Lemma awp_validate {B} (R : Engine -> Prop) (post : B -> Engine -> Prop) (f : ValidationOutcome.t -> M Engine B) t st e :
  lieu t st e ->
  (forall e', lieu t st e' -> awp (f (evaluate t (default ["result_present"] crit))) post R e') ->
  awp (bind (fun e => let '(v, vl) := validate t (en_valid e) in (Ok v, set_valid vl e)) f) post R e.
Proof.
  intros He Hf. unfold awp, bind, validate. cbv beta iota zeta.
  rewrite (li_id _ _ _ He), (li_criteria _ _ _ He). apply Hf. eapply lieu_fixe; [|exact He]. by split.
Qed.

(** Under the lock the execution is VALIDATING: sending it to review raises. *)
Lemma awp_appliquer_verdict (R : Engine -> Prop) t e o tid' :
  lieu t MissionState.VALIDATING e -> tx_status t = TaskStatus.RUNNING ->
  (o = ValidationOutcome.NEEDS_REVIEW -> forall e', en_ordre e' -> R e') ->
  awp (appliquer_verdict mr r tid' o) (fun _ e' => exists t', lieu t' MissionState.VALIDATING e'
    /\ tx_status t' <> TaskStatus.RUNNING
    /\ (tx_status t' = TaskStatus.PENDING -> tx_retries t < MAX_RETRIES_PER_TASK /\ tx_retries t' = tx_retries t + 1)
    /\ (tx_status t' <> TaskStatus.PENDING -> tx_retries t' = tx_retries t)
    /\ (tx_status t' = TaskStatus.COMPLETED -> o = ValidationOutcome.PASS)
    /\ (o = ValidationOutcome.PASS -> t' = tx_with_status TaskStatus.COMPLETED t)) R e.
Proof.
  intros He Ht HR. destruct o; cbn [appliquer_verdict].
  1,2: eapply awp_ecrire; [done|done|]; intros e1 H1; apply awp_tail; (eapply awp_calme; [auto with tranquille|done|]);
    intros [] e2 H2; apply awp_ret; by eexists.
  - eapply awp_machine; [done|]. intros m _ [Hm _]. eapply awp_tache; [done|]. rewrite Hm.
    change (em_max_retries meta) with MAX_RETRIES_PER_TASK. destruct (Z.ltb_spec (tx_retries t) MAX_RETRIES_PER_TASK).
    + apply awp_tail. eapply awp_ecrire; [done|done|]. intros e1 H1. apply awp_ret. by eexists.
    + eapply awp_ecrire; [done|done|]. intros e1 H1. apply awp_tail. eapply awp_calme; [auto with tranquille|done|].
      intros [] e2 H2. apply awp_ret. by eexists.
  - destruct (li_machine _ _ _ He) as (m & Hm & Hst & _).
    destruct (passer_refused mr MissionState.WAITING_APPROVAL "Needs human review" m e Hm) as (x & E & _);
      [by rewrite Hst|rewrite Hst; by apply (bool_decide_unpack _)|].
    unfold awp. rewrite (bind_err _ _ _ _ _ E). by apply HR, (li_ordre _ _ _ He).
Qed.

Lemma check_criteria_pass t l : check_criteria t l <> Some ValidationOutcome.PASS.
Proof. induction l as [|c l IH]; cbn; [done|]. by repeat case_match. Qed.

Lemma evaluate_pass t l : evaluate t l = ValidationOutcome.PASS -> no_result t = false /\ no_errors t = true.
Proof.
  unfold evaluate. pose proof (check_criteria_pass t l). destruct (check_criteria t l); [congruence|].
  by destruct (no_result t), (no_errors t).
Qed.

Lemma evaluate_good t l :
  no_result t = false -> no_errors t = true -> "needs_human_review" ∉ l -> evaluate t l = ValidationOutcome.PASS.
Proof.
  intros Hr He Hl. unfold evaluate. assert (check_criteria t l = None) as ->; [|by rewrite Hr, He].
  induction l as [|c l IH]; cbn; [done|]. rewrite Hr, He, !andb_false_r. cbn.
  apply not_elem_of_cons in Hl as [Hc Hl]. rewrite bool_decide_eq_false_2 by done. by apply IH.
Qed.

(** A result, or that nobody could serve: nothing else is raised of it. *)
Definition attendu (i : issue) : Prop := satisfaisante i \/ exists message, i = Indisponible message.
Definition sans_surprise (R : Engine -> Prop) (i : issue) : Prop := (forall e, en_ordre e -> R e) \/ attendu i.

Lemma awp_terminer_rendu (R : Engine -> Prop) t e o :
  lieu t MissionState.RUNNING e -> tx_status t = TaskStatus.RUNNING -> tx_errors t = [] -> sans_surprise R (Rendu o) ->
  awp (terminer_rendu date json_dumps mr r tid o)
    (fun _ e' => exists t' st, lieu t' st e' /\ appele t (Rendu o) t' st) R e.
Proof.
  intros He Ht Herr HR. unfold terminer_rendu. eapply awp_calme; [intros ?; by eexists _, _|done|]. intros d e1 H1.
  eapply awp_ecrire; [done|done|]. intros e2 H2. eapply awp_passer; [done|right; const_elem|]. intros e3 H3.
  eapply awp_tache; [done|]. eapply awp_validate; [done|]. intros e4 H4.
  revert H4. set (t1 := tx_served _ _ _ t). intros H4.
  assert (Hgood : satisfaisante (Rendu o) -> evaluate t1 (default ["result_present"] crit) = ValidationOutcome.PASS).
  { intros (Hc & o' & Ho & Hres). injection Ho as <-. apply evaluate_good; [|unfold no_errors; cbn; by rewrite Herr|done].
    unfold no_result. cbn. by destruct (oc_result o) as [[]|]. }
  pose proof (evaluate_pass t1 (default ["result_present"] crit)) as Hpass.
  revert Hgood Hpass. generalize (evaluate t1 (default ["result_present"] crit)). intros v Hgood Hpass.
  eapply awp_ecrire; [done|done|]. intros e5 H5. apply awp_bind.
  eapply awp_mono; [eapply (awp_appliquer_verdict R _ _ v _ H5)| |done].
  { done. }
  { intros ->. destruct HR as [HR|[Hs|(message & Hm)]]; [done| |done]. by apply Hgood in Hs. }
  intros [] e6 (t' & H6 & Hr & Hp & Hover & Hv & Hv'). eapply awp_mono; [apply (awp_liberer R _ _ _ H6)| |done].
  { by apply (bool_decide_unpack _). }
  { intros _. const_elem. }
  intros [] e7 (st & H7 & Hst). exists t', st. split; [done|]. split.
  - intros Hpe. destruct (Hp Hpe) as [? ?]. split_and!; [done|done|]. rewrite Hst; [const_elem|]. rewrite Hpe.
    by apply (bool_decide_unpack _).
  - done.
  - intros Hc. pose proof (Hv Hc) as ->. rewrite (Hv' eq_refl). destruct (Hpass eq_refl) as [Hnr Hne].
    unfold no_result in Hnr. cbn in Hnr. destruct (oc_result o) as [v|] eqn:Ev; [|done]. exists o, v. split_and!; try done.
    by intros ->.
  - intros Hs. rewrite (Hv' (Hgood Hs)). done.
  - done.
Qed.

(** ** A call *)

Abbreviation commencer := (MissionExecution.commencer date perf vue matcher).
Abbreviation terminer_tache := (MissionExecution.terminer_tache date json_dumps mot_hors_ascii equivaut).

(** The states from which a task is begun. *)
Definition pret (st : MissionState.t) : Prop := st ∈ [MissionState.READY; MissionState.RUNNING; MissionState.VALIDATING].

Lemma actif_pret st : actif st -> pret st.
Proof. intros H. apply elem_of_cons in H as [->|H%list_elem_of_singleton]; [|rewrite H]; const_elem. Qed.

(** What the first half leaves: a task engaged, or refused for want of time. *)
Definition commence (t : TaskExecution) (d : debut) (t' : TaskExecution) (st : MissionState.t) : Prop :=
  tx_retries t' = tx_retries t /\
  match d with
  | Engage r' _ => r' = r /\ st = MissionState.RUNNING /\ tx_status t' = TaskStatus.RUNNING /\ tx_errors t' = []
  | Refuse_ _ => ~ du_temps /\ tx_status t' = TaskStatus.FAILED
  | Introuvable => False
  end.

Lemma awp_commencer (R : Engine -> Prop) t st e :
  lieu t st e -> pret st -> levable R ->
  awp (commencer mr tid) (fun d e' => exists t' st', lieu t' st' e' /\ commence t d t' st') R e.
Proof.
  intros He Hst HR. unfold MissionExecution.commencer. eapply awp_step; [done|]. rewrite (li_known _ _ _ He).
  eapply awp_budget; [done|done|]. intros cb e1 H1 Hcb. destruct (Qle_bool cb.2 cb.1) eqn:Eb.
  - unfold refuser_pour_budget. eapply awp_machine; [done|]. intros m _ _.
    eapply awp_budget; [done|done|]. intros cb1 e2 H2 _.
    eapply awp_calme; [intros ?; by eexists _, _|done|]. intros d e3 H3.
    eapply awp_ecrire; [done|done|]. intros e4 H4.
    eapply awp_budget; [done|done|]. intros cb2 e5 H5 _.
    eapply awp_calme; [auto with tranquille|done|]. intros [] e6 H6. apply awp_ret. eexists _, st. split; [done|].
    split; [done|]. split; [|done]. intros Ht. by apply Hcb in Ht.
  - eapply awp_passer; [done| |].
    { clear -Hst. repeat (apply elem_of_cons in Hst as [->|Hst]); [right; const_elem|by left|right; const_elem|].
      by apply elem_of_nil in Hst. }
    intros e2 H2. eapply awp_calme; [auto with tranquille|done|]. intros [] e3 H3.
    eapply awp_ecrire; [done|done|]. intros e4 H4. eapply awp_tache; [done|].
    eapply awp_calme; [|done|]. { intros e5. destruct (assign matcher _ (en_coord e5)) as [a c] eqn:E. eexists _, _. split; [done|by split]. }
    intros a e5 H5. eapply awp_calme; [intros ?; by eexists _, _|done|]. intros d e6 H6.
    eapply awp_ecrire; [done|done|]. intros e7 H7. eapply awp_machine; [done|]. intros m _ _.
    eapply awp_calme; [auto with tranquille|done|]. intros [] e8 H8. apply awp_ret. eexists _, _. split; [done|]. done.
Qed.

Lemma awp_terminer_tache (R : Engine -> Prop) t e physiques i :
  lieu t MissionState.RUNNING e -> tx_status t = TaskStatus.RUNNING -> tx_errors t = [] ->
  sans_surprise R i ->
  awp (terminer_tache mr r tid physiques i) (fun _ e' => exists t' st, lieu t' st e' /\ appele t i t' st) R e.
Proof.
  intros He Ht Herr HR. unfold MissionExecution.terminer_tache. eapply awp_ecrire; [done|done|]. intros e1 H1.
  assert (Hap : forall t' st, appele (tx_with_physiques physiques t) i t' st -> appele t i t' st) by (intros t' st []; by split).
  destruct i as [o|message|x].
  - eapply awp_mono; [apply (awp_terminer_rendu R _ _ o H1); [done|done|]| |done].
    { destruct HR as [HR|[Hs|Hm]]; [by left|right; by left|by right; right]. }
    intros [] e2 (t' & st & H2 & Ha). exists t', st. by split; [|apply Hap].
  - eapply awp_mono; [apply (awp_terminer_indisponible R _ _ message H1)| |done].
    intros [] e2 (t' & st & H2 & Ha). exists t', st. by split; [|apply Hap].
  - destruct HR as [HR|[(_ & o & Ho & _)|(message & Hm)]]; [|done|done]. by apply HR, (li_ordre _ _ _ H1).
Qed.

(** What a call of the controller makes of the task, and what it answers. *)
Record essai (t : TaskExecution) (i : issue) (o : option string) (t' : TaskExecution) (st : MissionState.t) : Prop := Essai {
  es_again : tx_status t' = TaskStatus.PENDING ->
    tx_retries t < MAX_RETRIES_PER_TASK /\ tx_retries t' = tx_retries t + 1 /\ pret st;
  es_over : tx_status t' <> TaskStatus.PENDING -> tx_retries t' = tx_retries t;
  es_done : tx_status t' = TaskStatus.COMPLETED -> o = None /\ fait i t';
  es_served : du_temps -> satisfaisante i -> tx_status t' = TaskStatus.COMPLETED;
  es_retried message : du_temps -> i = Indisponible message -> reprenable message -> tx_retries t < MAX_RETRIES_PER_TASK ->
    tx_status t' = TaskStatus.PENDING
}.

Abbreviation tenter_noeud_ := (NodeExecution.tenter_noeud date perf vue matcher json_dumps mot_hors_ascii equivaut).
Abbreviation reprendre_ := (NodeExecution.reprendre date perf vue matcher json_dumps mot_hors_ascii equivaut).

Lemma awp_tenter (R : Engine -> Prop) servir t st e k :
  connue -> lieu t st e -> pret st -> levable R -> sans_surprise R (servir k).2 ->
  awp (tenter_noeud_ id servir tid k)
    (fun o e' => exists t' st', lieu t' st' e' /\ essai t (servir k).2 o t' st') R e.
Proof.
  intros Hco He Hst HR HS. unfold NodeExecution.tenter_noeud, execute_task_by_id. apply awp_bind.
  eapply awp_step; [unfold execution; by rewrite (li_execution _ _ _ He Hco)|].
  unfold MissionExecution.execute_task. apply awp_bind.
  eapply awp_mono; [by apply (awp_commencer R t st)| |done]. intros d e1 (t1 & st1 & H1 & Hr & Hd).
  destruct d as [|motif|r' a]; [done| |].
  - apply awp_ret. destruct Hd as [Hd Hf]. apply awp_ret. exists t1, st1. split; [done|]. split; try done.
    + by rewrite Hf.
    + by rewrite Hf.
  - destruct Hd as (-> & -> & Hs1 & Herr). apply awp_bind.
    eapply awp_mono; [by apply (awp_terminer_tache R t1 e1 (servir k).1 (servir k).2)| |done].
    intros [] e2 (t2 & st2 & H2 & [Ha1 Ha2 Ha3 Ha4 Ha5]). do 2 apply awp_ret. exists t2, st2. split; [done|].
    rewrite Hr in *. split.
    + intros Hp. destruct (Ha1 Hp) as (? & ? & ?). split_and!; [done|done|by apply actif_pret].
    + done.
    + intros Hc. pose proof (Ha3 Hc) as Hf. split; [|done]. destruct Hf as (o & v & -> & _). done.
    + auto.
    + intros message _. apply Ha5.
Qed.

(** From a task that has been called [k] times: it is never called more often
    than it may be, and ends. *)
Lemma awp_reprendre servir fuel : forall k t st e o,
  connue -> lieu t st e -> (tx_status t = TaskStatus.PENDING -> pret st /\ tx_retries t = Z.of_nat k) ->
  tx_retries t <= MAX_RETRIES_PER_TASK -> (k + fuel >= 4)%nat ->
  (tx_status t = TaskStatus.COMPLETED -> o = None /\ exists j, (j <= 3)%nat /\ fait (servir j).2 t) ->
  awp (reprendre_ id servir fuel k tid r o)
    (fun f e' => exists o' t' st', f = Rendue o' /\ lieu t' st' e' /\ tx_retries t' <= MAX_RETRIES_PER_TASK
       /\ tx_status t' <> TaskStatus.PENDING
       /\ (tx_status t' = TaskStatus.COMPLETED -> o' = None /\ exists j, (j <= 3)%nat /\ fait (servir j).2 t')) en_ordre e.
Proof.
  unfold MAX_RETRIES_PER_TASK. induction fuel as [|fuel IH]; intros k t st e o Hco He Hp Hr Hk Hc; cbn [NodeExecution.reprendre].
  all: eapply awp_tache; [done|]; case_decide as Ht; [|apply awp_ret; exists o, t, st; by split_and!].
  - destruct (Hp Ht) as [_ Hn]. lia.
  - destruct (Hp Ht) as [Hst Hn]. apply awp_bind.
    eapply awp_mono; [apply (awp_tenter en_ordre servir t st e k); [done|done|done|by right|by left]| |done].
    intros o1 e1 (t1 & st1 & H1 & [Ha1 Ha2 Ha3 _ _]). unfold MAX_RETRIES_PER_TASK in *. eapply IH; [done|done| | |lia|].
    + intros Hp1. destruct (Ha1 Hp1) as (? & ? & ?). split; [done|lia].
    + destruct (decide (tx_status t1 = TaskStatus.PENDING)) as [Hp1|Hp1]; [destruct (Ha1 Hp1) as (? & ? & ?); lia|].
      rewrite (Ha2 Hp1). lia.
    + intros Hc1. destruct (Ha3 Hc1) as [-> Hf]. split; [done|]. exists k. split; [lia|done].
Qed.

(** The [j]-th attempt is served, and those before it may be tried again. *)
Definition servi (servir : nat -> pydict pyval * issue) (j : nat) : Prop :=
  satisfaisante (servir j).2 /\
  forall i, (i < j)%nat -> exists message, (servir i).2 = Indisponible message /\ reprenable message.

Lemma servi_attendu servir j i : servi servir j -> (i <= j)%nat -> attendu (servir i).2.
Proof.
  intros [Hs Hb] Hi. destruct (decide (i = j)) as [->|]; [by left|]. destruct (Hb i) as (message & Hm & _); [lia|].
  right. by exists message.
Qed.

Lemma awp_reprendre_servi servir j : servi servir j -> (j <= 3)%nat -> du_temps -> forall fuel k t st e o,
  connue -> lieu t st e -> (j + 1 <= k + fuel)%nat ->
  (tx_status t = TaskStatus.PENDING -> pret st /\ tx_retries t = Z.of_nat k /\ (k <= j)%nat) ->
  (tx_status t <> TaskStatus.PENDING -> tx_status t = TaskStatus.COMPLETED /\ o = None) ->
  awp (reprendre_ id servir fuel k tid r o)
    (fun f e' => exists t' st', f = Rendue None /\ lieu t' st' e' /\ tx_status t' = TaskStatus.COMPLETED) (fun _ => False) e.
Proof.
  intros Hs Hj Htemps. induction fuel as [|fuel IH]; intros k t st e o Hco He Hk Hp Hd; cbn [NodeExecution.reprendre].
  all: eapply awp_tache; [done|]; case_decide as Ht; [|destruct (Hd Ht) as [? ->]; apply awp_ret; by exists t, st].
  - destruct (Hp Ht) as (_ & _ & ?). lia.
  - destruct (Hp Ht) as (Hst & Hn & Hkj). apply awp_bind.
    eapply awp_mono; [apply (awp_tenter (fun _ => False) servir t st e k); [done|done|done|by left|right; by eapply servi_attendu]| |done].
    intros o1 e1 (t1 & st1 & H1 & [Ha1 Ha2 Ha3 Ha4 Ha5]). unfold MAX_RETRIES_PER_TASK in *.
    assert (Hcases : tx_status t1 = TaskStatus.PENDING /\ (k < j)%nat \/ tx_status t1 = TaskStatus.COMPLETED).
    { destruct Hs as [Hs Hb]. destruct (decide (k = j)) as [->|Hne]; [right; by apply Ha4|left].
      destruct (Hb k) as (message & Hm & Hre); [lia|]. split; [apply (Ha5 message); [done..|lia]|lia]. }
    eapply IH; [done|done|lia| |].
    + intros Hp1. destruct Hcases as [[_ ?]|Hc1]; [|by rewrite Hc1 in Hp1]. destruct (Ha1 Hp1) as (? & ? & ?). split_and!; [done|lia|lia].
    + intros Hn1. destruct Hcases as [[? _]|Hc1]; [done|]. split; [done|]. by apply Ha3.
Qed.
End noeud.

(** ** The start of an execution *)

Abbreviation start := (MissionExecution.start uuid_hex maintenant refuse empreinte_du_processus date perf vue).

(** What the making of the machine leaves. *)
Lemma nouvelle_noeud id n e :
  exists e' m, nouvelle date perf vue (node_meta id n) e = (Ok (length (en_machines e)), set_machines (en_machines e ++ [m]) e')
    /\ fixe e e' /\ du_noeud (node_meta id n) m /\ ms_state m = MissionState.CREATED.
Proof.
  assert (Hnone : lue None) by by left. assert (Hl : lue (vue (en_vues e))) by (right; by eexists).
  unfold nouvelle, lire_perf, lire_vue. unfold bind at 1. case_decide; unfold bind at 1.
  - eexists _, _. split; [reflexivity|]. split; [by split|]. split; [|done]. split; [done|]. by exists None, 0%nat; eexists.
  - cbn [en_vues set_clocks]. destruct (vue (en_vues e)) as [[b [d|]]|].
    all: eexists _, _; split; [reflexivity|]; split; [by split|]; split; [|done]; split; [done|].
    + by eexists _, _, _.
    + by eexists _, 0%nat, _.
    + by eexists _, 0%nat, _.
Qed.

(** What [prepare] leaves once the task is registered. *)
Lemma lieu_registered id n e e1 m st :
  en_ordre e -> let t := node_task n in let tid := tx_id t in
  fixe (set_heap (en_heap e ++ [t]) e) e1 -> du_noeud (node_meta id n) m -> ms_state m = st ->
  lieu id n (length (en_heap e)) (length (en_machines e)) (dget (vl_criteria (en_valid e)) tid) False t st
    (set_sched (register_task (en_heap e1) tid (length (en_heap e)) [] (en_sched e1))
      (set_own (keep_last MAX_RETAINED_TASKS (dset (en_own e1) id [tid])) (set_machines (en_machines e1 ++ [m]) e1))).
Proof.
  intros (Hs & Hl & Hx & Ho) t tid [H1 H2 H3 H4 H5 H6] Hm Hst. cbn [en_sched set_heap en_heap en_machines en_executions en_own] in *.
  destruct (register_task_spec (en_heap e1) tid (length (en_heap e)) [] (en_sched e1)) as (Hs' & Hl' & Hg & _); [by rewrite H3..|].
  assert (Hw : dict_wf (dset (en_own e1) id [tid])) by (rewrite H5; by apply dict_wf_dset).
  split.
  - cbn. rewrite H1. by apply list_lookup_middle.
  - done.
  - done.
  - done.
  - unfold own_tasks. cbn [en_own set_own set_sched node_meta em_id].
    destruct (dget (keep_last _ _) id) as [l|] eqn:E; [right|by left].
    apply dget_keep_last in E; [|done]. rewrite dget_dset_eq in E. by injection E as <-.
  - exists m. cbn. rewrite H2. split_and!; [by apply list_lookup_middle|done|done].
  - split_and!; [done|done|by cbn; rewrite H4|by apply dict_wf_keep_last].
  - cbn. by rewrite H6.
Qed.

Lemma tranquille_ouvrir meta ts contrat :
  tranquille (ouvrir_le_run uuid_hex maintenant refuse empreinte_du_processus meta ts contrat).
Proof. unfold ouvrir_le_run. repeat paisible. Qed.

(** The last machine moves. *)
Lemma passer_last ms m target reason e :
  target ∈ VALID_TRANSITIONS (ms_state m) ->
  passer_a (length ms) target reason (set_machines (ms ++ [m]) e) = (Ok tt, set_machines (ms ++ [passer target reason m]) e).
Proof.
  intros Ht. unfold passer_a.
  rewrite (bind_ok _ _ _ _ _ (machine_ok (length ms) m (set_machines (ms ++ [m]) e) (list_lookup_middle _ _ _ _ eq_refl))).
  destruct (transition_cases target reason m) as [(x & -> & _)|(x & _ & _ & _ & Hno)]; [|done].
  unfold modify, bind, lift, ret. cbn [en_machines set_machines]. by rewrite insert_app_r_alt, Nat.sub_diag by done.
Qed.

(** A node is started: its task is PENDING and its execution READY. *)
Lemma awp_start id n e :
  en_ordre e ->
  awp (start (node_meta id n) [length (en_heap e)] [])
    (fun _ e' => lieu id n (length (en_heap e)) (length (en_machines e))
       (dget (vl_criteria (en_valid e)) (tx_id (node_task n))) True (node_task n) MissionState.READY e')
    (fun _ => False) (set_heap (en_heap e ++ [node_task n]) e).
Proof.
  intros He. unfold MissionExecution.start. apply awp_bind. unfold prepare. set (e0 := set_heap _ e).
  destruct (nouvelle_noeud id n e0) as (e1 & m & E & H1 & Hm & Hst). eapply awp_step; [exact E|].
  change (en_machines e0) with (en_machines e) in *.
  assert (Hr : forall x y, tache (length (en_heap e)) (set_own y (set_machines x e1))
    = (Ok (node_task n), set_own y (set_machines x e1))).
  { intros x y. apply tache_ok. cbn. rewrite (fx_heap _ _ H1). by apply list_lookup_middle. }
  eapply awp_step; [apply passer_last; rewrite Hst; const_elem|].
  set (m1 := passer _ _ m). eapply awp_step; [unfold taches; by erewrite bind_ok by apply (Hr _ (en_own e1))|].
  eapply awp_step; [reflexivity|]. eapply awp_step.
  { unfold register_all. erewrite bind_ok by apply Hr. reflexivity. }
  pose proof (lieu_registered id n e e1 m1 MissionState.PLANNING He H1 Hm eq_refl) as H2.
  rewrite (fx_machines _ _ H1) in H2.
  match goal with |- awp _ _ _ ?e2 => change (lieu id n (length (en_heap e)) (length (en_machines e))
    (dget (vl_criteria (en_valid e)) (tx_id (node_task n))) False (node_task n) MissionState.PLANNING e2) in H2 end.
  eapply awp_calme; [apply tranquille_ouvrir|done|]. intros _ e3 H3.
  eapply awp_calme; [auto with tranquille|done|]. intros _ e4 H4.
  eapply awp_calme; [auto with tranquille|done|]. intros _ e5 H5.
  eapply awp_passer; [done|right; const_elem|]. intros e6 [Hh Hi Hk Hx Ho Hma Hor Hc]. apply awp_ret.
  eapply awp_step; [reflexivity|]. apply awp_ret. destruct Hor as (? & ? & Hw & ?). split; try done.
  - intros _. cbn [en_executions set_executions]. apply dget_keep_last_dmove; [unfold MAX_RETAINED_EXECUTIONS; lia|done].
  - split_and!; try done. by apply dict_wf_keep_last, dict_wf_dmove.
Qed.

(** ** The hook *)

Abbreviation execute_node_ := (NodeExecution.execute_node uuid_hex maintenant refuse empreinte_du_processus date perf vue matcher
  json_dumps mot_hors_ascii equivaut int_of texte).
Abbreviation jouer_ := (NodeExecution.jouer uuid_hex maintenant refuse empreinte_du_processus date perf vue matcher json_dumps
  mot_hors_ascii equivaut).

(** The criteria of a node, and whether its [j]-th attempt is served. *)
Definition criteres (n : MissionNode) (e : Engine) : option (list string) := dget (vl_criteria (en_valid e)) (tx_id (node_task n)).

(** A node that ends: its task is where it was put. *)
Definition finie_sur (id : string) (n : MissionNode) (e : Engine) (t : TaskExecution) (e' : Engine) : Prop :=
  exists st, lieu id n (length (en_heap e)) (length (en_machines e)) (criteres n e) True t st e'.

Lemma awp_jouer id servir n e fuel :
  en_ordre e -> (fuel >= 3)%nat ->
  awp (jouer_ id servir fuel n (length (en_heap e)))
    (fun f e' => exists o t, f = Rendue o /\ finie_sur id n e t e' /\ tx_retries t <= MAX_RETRIES_PER_TASK
       /\ (tx_status t = TaskStatus.COMPLETED -> o = None /\ exists j, (j <= 3)%nat /\ fait (servir j).2 t))
    en_ordre (set_heap (en_heap e ++ [node_task n]) e).
Proof.
  intros He Hf. unfold NodeExecution.jouer. apply awp_bind. eapply awp_mono; [by apply awp_start| |done].
  intros mr e1 H1. cbn beta in H1. apply awp_bind.
  eapply awp_mono; [apply (awp_tenter _ _ _ _ _ _ en_ordre servir _ _ _ 0 I H1); [const_elem|by right|by left]| |done].
  intros o e2 (t & st & H2 & [Ha1 Ha2 Ha3 _ _]). cbn [tx_retries node_task] in *. unfold MAX_RETRIES_PER_TASK in *.
  eapply awp_mono; [apply (awp_reprendre _ _ _ _ _ _ servir fuel 1 _ _ _ _ I H2); [| |lia|]| |done].
  - intros Hp. destruct (Ha1 Hp) as (? & ? & ?). by split.
  - unfold MAX_RETRIES_PER_TASK. destruct (decide (tx_status t = TaskStatus.PENDING)) as [Hp|Hp]; [destruct (Ha1 Hp); lia|].
    rewrite (Ha2 Hp). lia.
  - intros Hc. destruct (Ha3 Hc) as [-> Hd]. split; [done|]. exists 0%nat. by split; [lia|].
  - intros f e3 (o' & t' & st' & -> & H3 & Hr & _ & Hd). exists o', t'. split; [done|]. split; [by exists st'|done].
Qed.

Lemma awp_jouer_servi id servir n e fuel j :
  en_ordre e -> (fuel >= 3)%nat -> (j <= 3)%nat -> du_temps -> servi (criteres n e) servir j ->
  awp (jouer_ id servir fuel n (length (en_heap e)))
    (fun f e' => exists t, f = Rendue None /\ finie_sur id n e t e' /\ tx_status t = TaskStatus.COMPLETED)
    (fun _ => False) (set_heap (en_heap e ++ [node_task n]) e).
Proof.
  intros He Hf Hj Ht Hs. unfold NodeExecution.jouer. apply awp_bind. eapply awp_mono; [by apply awp_start| |done].
  intros mr e1 H1. cbn beta in H1. apply awp_bind.
  eapply awp_mono; [apply (awp_tenter _ _ _ _ _ _ (fun _ => False) servir _ _ _ 0 I H1);
    [const_elem|by left|right; eapply servi_attendu; [done|lia]]| |done].
  intros o e2 (t & st & H2 & [Ha1 Ha2 Ha3 Ha4 Ha5]). cbn [tx_retries node_task] in *. unfold MAX_RETRIES_PER_TASK in *.
  assert (Hcases : tx_status t = TaskStatus.PENDING /\ (1 <= j)%nat \/ tx_status t = TaskStatus.COMPLETED).
  { destruct Hs as [Hs Hb]. destruct (decide (j = 0)%nat) as [->|Hne]; [right; by apply Ha4|left].
    destruct (Hb 0%nat) as (message & Hm & Hre); [lia|]. split; [apply (Ha5 message); [done..|lia]|lia]. }
  eapply awp_mono; [apply (awp_reprendre_servi _ _ _ _ _ _ servir j Hs Hj Ht fuel 1 _ _ _ _ I H2); [lia| |]| |done].
  - intros Hp. destruct Hcases as [[_ ?]|Hc]; [|by rewrite Hc in Hp]. destruct (Ha1 Hp) as (? & ? & ?). by split_and!.
  - intros Hn. destruct Hcases as [[? _]|Hc]; [done|]. split; [done|]. by apply Ha3.
  - intros f e3 (t' & st' & -> & H3 & Hc). exists t'. split; [done|]. split; [by exists st'|done].
Qed.

Lemma tranquille_finalize id :
  tranquille (meilleur_effort (discard (finalize_by_id maintenant refuse mot_hors_ascii equivaut int_of id))).
Proof.
  apply tranquille_effort. unfold discard, finalize_by_id, finalize, clore_le_run. repeat paisible.
Qed.

(** From how the calls end to what the hook answers. *)
Lemma execute_node_rendu id servir fuel n e o t e1 :
  jouer_ id servir fuel n (length (en_heap e)) (set_heap (en_heap e ++ [node_task n]) e) = (Ok (Rendue o), e1) ->
  finie_sur id n e t e1 ->
  exists e', execute_node_ id servir fuel true n e = (Ok (Some (rapport_du_noeud texte t o)), e') /\ finie_sur id n e t e'.
Proof.
  intros E [st Hl]. unfold NodeExecution.execute_node. cbn [negb]. destruct (tranquille_finalize id e1) as (u & e2 & E2 & H2).
  assert (Hl2 : lieu id n (length (en_heap e)) (length (en_machines e)) (criteres n e) True t st e2) by by eapply lieu_fixe.
  exists e2. split; [|by exists st].
  rewrite (bind_ok (allouer _) _ e (set_heap (en_heap e ++ [node_task n]) e) (length (en_heap e))) by done.
  rewrite (bind_ok (catch _ _ _) _ _ e1 (Rendue o)) by (unfold catch; by rewrite E).
  rewrite (bind_ok _ _ _ _ _ E2). by rewrite (bind_ok _ _ _ _ _ (tache_ok _ t e2 (li_heap _ _ _ _ _ _ _ _ _ Hl2))).
Qed.

Lemma execute_node_leve id servir fuel n e x e1 :
  jouer_ id servir fuel n (length (en_heap e)) (set_heap (en_heap e ++ [node_task n]) e) = (Err x, e1) ->
  execute_node_ id servir fuel true n e = (Ok (Some (false, inchange n)), e1).
Proof.
  intros E. unfold NodeExecution.execute_node. cbn [negb].
  rewrite (bind_ok (allouer _) _ e (set_heap (en_heap e ++ [node_task n]) e) (length (en_heap e))) by done.
  by rewrite (bind_ok (catch _ _ _) _ _ e1 Levee) by (unfold catch; by rewrite E).
Qed.

(** How a node ends. *)
Lemma execute_node_cases id servir fuel n e :
  en_ordre e -> (fuel >= 3)%nat ->
  exists e', en_ordre e' /\
    (execute_node_ id servir fuel true n e = (Ok (Some (false, inchange n)), e')
     \/ exists o t, execute_node_ id servir fuel true n e = (Ok (Some (rapport_du_noeud texte t o)), e')
          /\ en_heap e' !! length (en_heap e) = Some t /\ tx_retries t <= MAX_RETRIES_PER_TASK
          /\ (tx_status t = TaskStatus.COMPLETED -> o = None /\ exists j, (j <= 3)%nat /\ fait (servir j).2 t)).
Proof.
  intros He Hf. pose proof (awp_jouer id servir n e fuel He Hf) as Ha. unfold awp in Ha.
  destruct (jouer_ id servir fuel n (length (en_heap e)) (set_heap (en_heap e ++ [node_task n]) e)) as [[f|x] e1] eqn:E.
  - destruct Ha as (o & t & -> & Ht & Hr & Hd). destruct (execute_node_rendu _ _ _ _ _ _ _ _ E Ht) as (e' & E' & st & Hl).
    exists e'. split; [by eapply li_ordre|]. right. exists o, t. split_and!; try done. by eapply li_heap.
  - exists e1. split; [done|]. left. by eapply execute_node_leve.
Qed.

(** What is written of a task that was served. *)
Lemma rapport_fait t i :
  tx_status t = TaskStatus.COMPLETED -> fait i t ->
  exists o v, i = Rendu o /\ oc_result o = Some v /\ v <> PNone
    /\ (rapport_du_noeud texte t None).1 = true
    /\ rr_summary (rapport_du_noeud texte t None).2 = Some (first_chars 500 (texte v))
    /\ rr_runtime (rapport_du_noeud texte t None).2 = (if decide (oc_runtime o = "") then None else Some (oc_runtime o)).
Proof.
  intros Ht (o & v & -> & Hv & Hne & Hr & He & Hrt). exists o, v. unfold rapport_du_noeud. cbn. rewrite Ht, He, Hr, Hrt.
  split_and!; try done. by destruct v.
Qed.

(** C25: A node always answers.  On an engine whose registries are as it keeps
    them, whatever the clocks, the mission and the executor of tasks do, the
    loop of a node ends within four calls: the hook answers, never raises, and
    leaves the registries so; and its task is at its third retry at most. *)
Theorem node_ends id servir fuel n e :
  en_ordre e -> (fuel >= 3)%nat ->
  exists b report e', execute_node_ id servir fuel true n e = (Ok (Some (b, report)), e') /\ en_ordre e'
    /\ (report = inchange n /\ b = false
        \/ exists t o, en_heap e' !! length (en_heap e) = Some t /\ tx_retries t <= MAX_RETRIES_PER_TASK
             /\ (b, report) = rapport_du_noeud texte t o).
Proof.
  intros He Hf. destruct (execute_node_cases id servir fuel n e He Hf) as (e' & He' & [E|(o & t & E & Ht & Hr & _)]).
  - by eexists _, _, e'; split_and!; [exact E| |left].
  - destruct (rapport_du_noeud texte t o) as [b report] eqn:Er. exists b, report, e'. split_and!; [done|done|].
    right. by exists t, o.
Qed.

(** A success has a result that was served. *)
Lemma node_never_invented_run id servir fuel n e report e' :
  en_ordre e -> (fuel >= 3)%nat -> execute_node_ id servir fuel true n e = (Ok (Some (true, report)), e') ->
  exists j o v, (j <= 3)%nat /\ (servir j).2 = Rendu o /\ oc_result o = Some v /\ v <> PNone
    /\ rr_summary report = Some (first_chars 500 (texte v))
    /\ rr_runtime report = (if decide (oc_runtime o = "") then None else Some (oc_runtime o)).
Proof.
  intros He Hf E.
  destruct (execute_node_cases id servir fuel n e He Hf) as (e1 & _ & [E1|(o & t & E1 & _ & _ & Hd)]); rewrite E1 in E; [done|].
  assert (Hr : rapport_du_noeud texte t o = (true, report)) by congruence.
  assert (Hc : tx_status t = TaskStatus.COMPLETED).
  { pose proof (f_equal fst Hr) as Hb. destruct o; [done|]. by apply bool_decide_eq_true in Hb. }
  destruct (Hd Hc) as [-> (j & Hj & Hfait)]. destruct (rapport_fait t _ Hc Hfait) as (o & v & Ho & Hv & Hne & _ & Hs & Hrt).
  rewrite Hr in Hs, Hrt. by exists j, o, v.
Qed.

(** No success is invented.  When the hook tells the graph that a node
    succeeded, there is a controller and, at one of the at most four attempts,
    the executor of tasks did return a result, which is the summary written on
    the node with the runtime that served it. *)
Theorem node_never_invented id servir fuel controller n e report e' :
  en_ordre e -> (fuel >= 3)%nat -> execute_node_ id servir fuel controller n e = (Ok (Some (true, report)), e') ->
  controller = true /\ exists j o v, (j <= 3)%nat /\ (servir j).2 = Rendu o /\ oc_result o = Some v /\ v <> PNone
    /\ rr_summary report = Some (first_chars 500 (texte v))
    /\ rr_runtime report = (if decide (oc_runtime o = "") then None else Some (oc_runtime o)).
Proof.
  intros He Hf E. destruct controller; [|done]. split; [done|]. by eapply node_never_invented_run.
Qed.

(** A node that is served, at the first attempt or after refusals that may be
    tried again, and has time, succeeds. *)
Lemma node_served id servir fuel n e j :
  en_ordre e -> (fuel >= 3)%nat -> (j <= 3)%nat -> du_temps -> servi (criteres n e) servir j ->
  exists report e', execute_node_ id servir fuel true n e = (Ok (Some (true, report)), e').
Proof.
  intros He Hf Hj Ht Hs. pose proof (awp_jouer_servi id servir n e fuel j He Hf Hj Ht Hs) as Ha. unfold awp in Ha.
  destruct (jouer_ id servir fuel n (length (en_heap e)) (set_heap (en_heap e ++ [node_task n]) e)) as [[f|x] e1] eqn:E; [|done].
  destruct Ha as (t & -> & Hl & Hc). destruct (execute_node_rendu _ _ _ _ _ _ _ _ E Hl) as (e' & E' & _).
  eexists _, e'. rewrite E'. unfold rapport_du_noeud. by rewrite bool_decide_eq_true_2.
Qed.

(** ** A task lost of the scheduler *)

(** A node whose task is forgotten never answers.  The scheduler keeps 512 tasks
    and may drop one that waits for its next attempt; from then on every call
    answers [not_found], which changes nothing, and the loop of the node goes on
    for ever: no number of calls ends it. *)
Theorem lost_task_spins id servir tid r mr t e :
  dget (en_executions e) id = Some mr -> get_task (en_sched e) tid = None ->
  en_heap e !! r = Some t -> tx_status t = TaskStatus.PENDING ->
  forall fuel k o, NodeExecution.reprendre date perf vue matcher json_dumps mot_hors_ascii equivaut id servir fuel k tid r o e
    = (Ok Epuisee, e).
Proof.
  intros Hx Hg Hr Ht. induction fuel as [|fuel IH]; intros k o; cbn [NodeExecution.reprendre];
    rewrite (bind_ok _ _ _ _ _ (tache_ok r t e Hr)), decide_True by done; [done|].
  assert (E : NodeExecution.tenter_noeud date perf vue matcher json_dumps mot_hors_ascii equivaut id servir tid k e = (Ok None, e)).
  { unfold NodeExecution.tenter_noeud, execute_task_by_id, bind, execution. rewrite Hx.
    unfold execute_task, bind, MissionExecution.commencer, bind, get. by rewrite Hg. }
  by rewrite (bind_ok _ _ _ _ _ E).
Qed.

(** ** The graph on the engine *)

Section mission.
Context (moteur : nat -> nat -> Engine) (ids : nat -> nat -> string) (servir : nat -> nat -> nat -> pydict pyval * issue) (env : Env).
Hypothesis env_engine : env_run env = make_node_executor uuid_hex maintenant refuse empreinte_du_processus date perf vue matcher
  json_dumps mot_hors_ascii equivaut int_of texte moteur ids servir.
Hypothesis moteur_ordre : forall k i, en_ordre (moteur k i).

(** The executor of tasks returned a result for the node at position [i]. *)
Definition rendu_au_noeud (i : nat) : Prop :=
  exists k j o v, (j <= 3)%nat /\ (servir k i j).2 = Rendu o /\ oc_result o = Some v /\ v <> PNone.

Lemma hook_true k i n : (env_run env k i n).1 = Ok true -> rendu_au_noeud i.
Proof.
  rewrite env_engine. unfold make_node_executor.
  destruct (NodeExecution.execute_node _ _ _ _ _ _ _ _ _ _ _ _ _ (ids k i) _ _ true n (moteur k i)) as [[[[b report]|]|x] e'] eqn:E;
    [|done..]. intros Hb. injection Hb as ->.
  apply node_never_invented_run in E as (j & o & v & ? & ? & ? & ? & _); [|apply moteur_ordre|unfold MAX_RETRIES_PER_TASK; lia].
  by exists k, j, o, v.
Qed.

Lemma hook_served : du_temps ->
  (forall k i n, exists j, (j <= 3)%nat /\ servi (criteres n (moteur k i)) (servir k i) j) ->
  forall k i n, (env_run env k i n).1 = Ok true.
Proof.
  intros Ht Hs k i n. rewrite env_engine. unfold make_node_executor. destruct (Hs k i n) as (j & Hj & Hsj).
  destruct (node_served (ids k i) (servir k i) (Z.to_nat MAX_RETRIES_PER_TASK) n (moteur k i) j) as (report & e' & E);
    [apply moteur_ordre|unfold MAX_RETRIES_PER_TASK; lia|done..|]. by rewrite E.
Qed.

(** C8: No node of a mission is COMPLETED for nothing.  However many steps a
    mission is run on the engine, whatever the gates and the timeouts do and
    whatever the executor of tasks answers, a node that was not COMPLETED and is
    had a result returned for it. *)
Theorem mission_never_invented k s :
  reliable env -> built (gx_mission s) ->
  (forall i n, mi_nodes (gx_mission s) !! i = Some n -> mn_status n <> NodeStatus.COMPLETED) ->
  exists s', steps env k s = (Ok tt, s') /\
    forall i n, mi_nodes (gx_mission s') !! i = Some n -> mn_status n = NodeStatus.COMPLETED -> rendu_au_noeud i.
Proof.
  intros Hrel Hb Hno. edestruct (steps_inv env (fun _ t => built (gx_mission t) /\ forall i n,
    mi_nodes (gx_mission t) !! i = Some n -> mn_status n = NodeStatus.COMPLETED -> rendu_au_noeud i) k s) as (s' & Hrun & _ & Hs').
  - done.
  - by intros _ t [[] _].
  - intros _ t t' [Hbt Ht] Hst. split; [by apply (built_step env t)|]. intros i n' Hn' Hc.
    destruct (stepped_node_back env _ _ _ _ Hst Hn') as (n & Hn & _ & Heq). rewrite Heq in Hc.
    apply status_after_completed in Hc. destruct (is_ready (gx_mission t) n); [|by eapply Ht].
    unfold verdict, answer in Hc. apply andb_true_iff in Hc as [_ [_ Hc]%andb_true_iff]. cbn [fst] in Hc. eapply (hook_true (gx_steps t) i).
    destruct ((env_run env (gx_steps t) i _).1) as [[]|] eqn:E; [exact E|done..].
  - split; [done|]. intros i n Hn Hc. by destruct (Hno i n Hn).
  - by exists s'.
Qed.

(** C9: Missions complete on the engine.  When every node is let through and
    answers in time, has time left and is served at one of four attempts, those
    before being refusals that may be tried again, a running mission is
    COMPLETED after as many steps as it has levels, every node COMPLETED and
    called exactly once. *)
Theorem mission_served rk d s :
  du_temps -> (forall k i n, exists j, (j <= 3)%nat /\ servi (criteres n (moteur k i)) (servir k i) j) ->
  (forall k i, env_granted env k i = true /\ env_timely env k i = true) ->
  reliable env -> built (gx_mission s) -> ranked rk (gx_mission s) -> below d rk (gx_mission s) ->
  mi_status (gx_mission s) = MissionStatus.RUNNING -> gx_runs s = [] -> mi_nodes (gx_mission s) <> [] ->
  (forall i n, mi_nodes (gx_mission s) !! i = Some n -> mn_status n = NodeStatus.PENDING) ->
  exists s', steps env d s = (Ok tt, s') /\ mi_status (gx_mission s') = MissionStatus.COMPLETED /\
    (forall i n, mi_nodes (gx_mission s') !! i = Some n -> mn_status n = NodeStatus.COMPLETED) /\
    map snd (gx_runs s') ≡ₚ seq 0 (length (mi_nodes (gx_mission s'))).
Proof.
  intros Ht Hs Hg. pose proof (hook_served Ht Hs) as Hh. intros. apply (runs_complete env rk d s); [done| |done..].
  intros k i n. destruct (Hg k i). by split_and!.
Qed.
End mission.
End walk.

(** ** Examples *)

Abbreviation demo_hook := (NodeExecution.execute_node demo_uuid demo_date demo_refuse "h:1:0" (fun _ => 0%Q) (fun _ => 0%Q)
  (fun _ => None) None (fun _ => "") (fun _ => false) String.eqb (fun _ => None) (fun v => match v with PStr s => s | _ => "" end)).

(** Not served at first, then served. *)
Definition demo_servir (k : nat) : pydict pyval * issue := ([], match k with O => Indisponible "timeout" | _ => demo_issue end).

Definition demo_engine : Engine := new_engine empty_base.

Example demo_hook_answers : match demo_hook "x" demo_servir 3 true (demo_node "a") demo_engine with
  | (Ok (Some (b, report)), e) => (b, rr_summary report, rr_runtime report, map tx_retries (en_heap e), map ms_state (en_machines e))
      = (true, Some "done", Some "hermes", [1], [MissionState.COMPLETED])
  | _ => False
  end.
Proof. vm_compute. reflexivity. Qed.

Example demo_hook_gives_up :
  match demo_hook "x" (fun _ => ([], Indisponible "timeout")) 3 true (demo_node "a") demo_engine with
  | (Ok (Some (b, report)), e) => (b, rr_summary report, map tx_retries (en_heap e), map ms_state (en_machines e))
      = (false, Some "not executed: timeout", [3], [MissionState.FAILED])
  | _ => False
  end.
Proof. vm_compute. reflexivity. Qed.

Definition demo_report : RunReport := Eval vm_compute in
  match (demo_hook "x" demo_servir 3 true (demo_node "a") demo_engine).1 with Ok (Some (_, report)) => report | _ => inchange (demo_node "a") end.

Lemma node_ends_witness : en_ordre demo_engine /\ exists b report e',
  demo_hook "x" demo_servir 3 true (demo_node "a") demo_engine = (Ok (Some (b, report)), e') /\ en_ordre e'.
Proof.
  pose proof (en_ordre_new empty_base) as He. split; [exact He|].
  destruct (node_ends demo_uuid demo_date demo_refuse "h:1:0" (fun _ => 0%Q) (fun _ => 0%Q) (fun _ => None) None (fun _ => "")
    (fun _ => false) String.eqb (fun _ => None) (fun v => match v with PStr s => s | _ => "" end) "x" demo_servir 3
    (demo_node "a") demo_engine He (le_n 3)) as (b & report & e' & E & He' & _).
  exists b, report, e'. split; [exact E|exact He'].
Defined.

Lemma node_never_invented_witness : (1 <= 3)%nat /\ exists j o v, (j <= 3)%nat /\ (demo_servir j).2 = Rendu o /\ oc_result o = Some v
  /\ v <> PNone /\ rr_summary demo_report = Some (first_chars 500 (match v with PStr s => s | _ => "" end)).
Proof.
  split; [lia|].
  destruct (node_never_invented demo_uuid demo_date demo_refuse "h:1:0" (fun _ => 0%Q) (fun _ => 0%Q) (fun _ => None) None (fun _ => "")
    (fun _ => false) String.eqb (fun _ => None) (fun v => match v with PStr s => s | _ => "" end) "x" demo_servir 3 true
    (demo_node "a") demo_engine demo_report (demo_hook "x" demo_servir 3 true (demo_node "a") demo_engine).2
    (en_ordre_new empty_base) (le_n 3)) as (_ & j & o & v & H1 & H2 & H3 & H4 & H5 & _); [vm_compute; reflexivity|].
  exists j, o, v. split_and!; assumption.
Defined.

(** A mission of which every node is run on a new engine. *)
Definition demo_hook_env (servir : nat -> nat -> nat -> pydict pyval * issue) : Env :=
  mkEnv Z.of_nat (make_node_executor demo_uuid demo_date demo_refuse "h:1:0" (fun _ => 0%Q) (fun _ => 0%Q)
    (fun _ => None) None (fun _ => "") (fun _ => false) String.eqb (fun _ => None) (fun v => match v with PStr s => s | _ => "" end)
    (fun _ _ => demo_engine) (fun k i => "x" +:+ pretty k +:+ pretty i) servir)
    (fun _ _ => true) (fun _ _ => true) 1200 None 2 None true (fun _ _ _ => None) (fun _ => None) (fun _ => "") (fun _ => "").

(** The node at position 1 is never served. *)
Definition demo_servir_sauf (k i j : nat) : pydict pyval * issue :=
  if decide (i = 1)%nat then ([], Indisponible "timeout") else demo_servir j.

Example demo_mission_sauf :
  map mn_status (mi_nodes (gx_mission (steps (demo_hook_env demo_servir_sauf) 2 demo_state).2))
  = [NodeStatus.COMPLETED; NodeStatus.FAILED; NodeStatus.COMPLETED].
Proof. vm_compute. reflexivity. Qed.

Lemma mission_never_invented_witness : built (gx_mission demo_state) /\
  exists s', steps (demo_hook_env demo_servir_sauf) 2 demo_state = (Ok tt, s') /\
    forall i n, mi_nodes (gx_mission s') !! i = Some n -> mn_status n = NodeStatus.COMPLETED -> rendu_au_noeud demo_servir_sauf i.
Proof.
  split; [exact demo_built|].
  apply (mission_never_invented demo_uuid demo_date demo_refuse "h:1:0" (fun _ => 0%Q) (fun _ => 0%Q) (fun _ => None) None (fun _ => "")
    (fun _ => false) String.eqb (fun _ => None) (fun v => match v with PStr s => s | _ => "" end) (fun _ _ => demo_engine)
    (fun k i => "x" +:+ pretty k +:+ pretty i) demo_servir_sauf (demo_hook_env demo_servir_sauf) eq_refl
    (fun _ _ => en_ordre_new empty_base) 2 demo_state I demo_built).
  intros i n Hn Hc. rewrite (demo_pending i n Hn) in Hc. discriminate Hc.
Defined.

Lemma demo_du_temps : du_temps (fun _ => 0%Q) (fun _ => 0%Q) (fun _ => None).
Proof.
  intros p q d v w [->|[j ->]] [->|[j' ->]]; exists BUDGET_MISSION_PAR_DEFAUT_S; (split; [reflexivity|]); vm_compute; reflexivity.
Qed.

Lemma demo_servi n : servi (fun _ => false) String.eqb (criteres n demo_engine) demo_servir 1.
Proof.
  split; [split; [change (criteres n demo_engine) with (@None (list string)); by apply (bool_decide_unpack _)|by eexists]|].
  intros [|i] Hi; [|lia]. exists "timeout". split; [done|]. vm_compute. reflexivity.
Qed.

Lemma mission_served_witness : mi_status (gx_mission demo_state) = MissionStatus.RUNNING /\
  exists s', steps (demo_hook_env (fun _ _ => demo_servir)) 2 demo_state = (Ok tt, s') /\
    mi_status (gx_mission s') = MissionStatus.COMPLETED /\
    (forall i n, mi_nodes (gx_mission s') !! i = Some n -> mn_status n = NodeStatus.COMPLETED) /\
    map snd (gx_runs s') ≡ₚ seq 0 (length (mi_nodes (gx_mission s'))).
Proof.
  split; [reflexivity|].
  apply (mission_served demo_uuid demo_date demo_refuse "h:1:0" (fun _ => 0%Q) (fun _ => 0%Q) (fun _ => None) None (fun _ => "")
    (fun _ => false) String.eqb (fun _ => None) (fun v => match v with PStr s => s | _ => "" end) (fun _ _ => demo_engine)
    (fun k i => "x" +:+ pretty k +:+ pretty i) (fun _ _ => demo_servir) (demo_hook_env (fun _ _ => demo_servir)) eq_refl
    (fun _ _ => en_ordre_new empty_base) demo_rank 2 demo_state demo_du_temps); try reflexivity.
  - intros k i n. exists 1%nat. split; [lia|apply demo_servi].
  - intros k i. split; reflexivity.
  - exact demo_built.
  - exact (proj1 demo_ranked).
  - exact (proj2 demo_ranked).
  - discriminate.
  - exact demo_pending.
Defined.

(** Sixteen tasks are registered, then that of a node, then four hundred and
    ninety-six: the last drops that of the node, which still waits. *)
Abbreviation demo_start := (MissionExecution.start demo_uuid demo_date demo_refuse "h:1:0" (fun _ => 0%Q) (fun _ => 0%Q)
  (fun _ => None)).

Definition demo_autres (from k : nat) : list TaskExecution := map (fun i => demo_tache (pretty i)) (seq from k).

Definition demo_loaded : Engine := Eval vm_compute in
  let e := set_heap (demo_autres 0 16 ++ [node_task (demo_node "a")] ++ demo_autres 16 496) demo_engine in
  let e := (demo_start (demo_meta 3) (seq 0 16) [] e).2 in
  let e := (demo_start (node_meta "x" (demo_node "a")) [16%nat] [] e).2 in
  (demo_start (mkExecMeta "y" "" "" None 3 []) (seq 17 496) [] e).2.

Lemma lost_task_spins_witness : get_task (en_sched demo_loaded) "a-task" = None /\
  NodeExecution.reprendre (fun _ => 0%Q) (fun _ => 0%Q) (fun _ => None) None (fun _ => "") (fun _ => false) String.eqb
    "x" demo_servir 1000 1 "a-task" 16 None demo_loaded = (Ok Epuisee, demo_loaded).
Proof.
  assert (Hg : get_task (en_sched demo_loaded) "a-task" = None) by (vm_compute; reflexivity). split; [exact Hg|].
  refine (lost_task_spins (fun _ => 0%Q) (fun _ => 0%Q) (fun _ => None) None (fun _ => "") (fun _ => false) String.eqb
    "x" demo_servir "a-task" 16 1 (node_task (demo_node "a")) demo_loaded _ Hg _ _ 1000 1 None); vm_compute; reflexivity.
Defined.
