(* ===== verification/PlannerModels.v ===== *)
(** * The records of the planner
    ([backend/mission/planner/planner_models.py])

    A request, the tasks it is decomposed into, what each is estimated to need,
    the runtime it is recommended, and the result of planning.  The fields that
    nothing reads are left out: the documentation, the duration and the runtime
    of a request, the preferences and the parent of a task, the dates. *)
From stdpp Require Import base gmap strings list.
From Stdlib Require Import ZArith QArith Ascii Lia.
From S2P Require Import Prelude.
#[local] Open Scope Z_scope.

Module PlanningStage.
Inductive t :=
  | RECEIVED | DECOMPOSING | BUILDING_DEPENDENCIES | ESTIMATING_COMPLEXITY | RECOMMENDING_RUNTIME | VALIDATING | COMPLETED | FAILED.
#[global] Instance eq_dec : EqDecision t.
Proof. solve_decision. Defined.
Definition value (x : t) : string :=
  match x with
  | RECEIVED => "received" | DECOMPOSING => "decomposing" | BUILDING_DEPENDENCIES => "building_dependencies"
  | ESTIMATING_COMPLEXITY => "estimating_complexity" | RECOMMENDING_RUNTIME => "recommending_runtime"
  | VALIDATING => "validating" | COMPLETED => "completed" | FAILED => "failed"
  end.
End PlanningStage.

Module RiskLevel.
Inductive t := LOW | MEDIUM | HIGH | CRITICAL.
#[global] Instance eq_dec : EqDecision t.
Proof. solve_decision. Defined.
Definition value (x : t) : string := match x with LOW => "low" | MEDIUM => "medium" | HIGH => "high" | CRITICAL => "critical" end.
(** The [order] of the levels. *)
Definition rank (x : t) : Z := match x with LOW => 0 | MEDIUM => 1 | HIGH => 2 | CRITICAL => 3 end.
End RiskLevel.

Module TaskCategory.
Inductive t :=
  | ANALYSIS | DESIGN | IMPLEMENTATION | TESTING | DOCUMENTATION | DEPLOYMENT | REVIEW | PLANNING | INTEGRATION
  | OPTIMIZATION | SECURITY | CUSTOM.
#[global] Instance eq_dec : EqDecision t.
Proof. solve_decision. Defined.
Definition members : list t :=
  [ANALYSIS; DESIGN; IMPLEMENTATION; TESTING; DOCUMENTATION; DEPLOYMENT; REVIEW; PLANNING; INTEGRATION; OPTIMIZATION; SECURITY; CUSTOM].
Definition value (x : t) : string :=
  match x with
  | ANALYSIS => "analysis" | DESIGN => "design" | IMPLEMENTATION => "implementation" | TESTING => "testing"
  | DOCUMENTATION => "documentation" | DEPLOYMENT => "deployment" | REVIEW => "review" | PLANNING => "planning"
  | INTEGRATION => "integration" | OPTIMIZATION => "optimization" | SECURITY => "security" | CUSTOM => "custom"
  end.
(** [_CATEGORY_BY_VALUE] *)
Definition by_value (s : string) : option t := List.find (fun c => bool_decide (value c = s)) members.
End TaskCategory.

Record PlanningRequest := mkRequest {
  pq_id : string;
  pq_request : string;
  pq_objective : string;
  pq_context : pydict pyval;
  pq_repository : string;
  pq_branch : string;
  pq_issue : string;
  pq_specification : string;
  pq_tags : list string
}.

Record TaskBreakdown := mkBreakdown {
  tb_id : string;
  tb_title : string;
  tb_description : string;
  tb_category : TaskCategory.t;
  tb_depends : list string;
  tb_skills : list string;
  tb_criteria : list string;
  tb_outputs : list string;
  tb_order : nat;
  tb_parallel : bool
}.

Definition with_category (c : TaskCategory.t) (t : TaskBreakdown) : TaskBreakdown :=
  mkBreakdown (tb_id t) (tb_title t) (tb_description t) c (tb_depends t) (tb_skills t) (tb_criteria t) (tb_outputs t)
    (tb_order t) (tb_parallel t).

Record ComplexityEstimate := mkEstimate {
  ce_id : string;
  ce_score : Q;
  ce_level : string;
  ce_hours : Q;
  ce_min : Q;
  ce_max : Q;
  ce_vram : Q;
  ce_ram : Q;
  ce_tokens : Z;
  ce_risk : RiskLevel.t;
  ce_factors : list string;
  ce_priority : string;
  ce_confidence : Q
}.

(** [ComplexityEstimate()] *)
Definition no_estimate : ComplexityEstimate := mkEstimate "" 0 "low" 0 0 0 0 0 0 RiskLevel.LOW [] "normal" (8 # 10).

Record RuntimeRecommendation := mkRecommendation {
  rc_id : string;
  rc_runtime : string;
  rc_model : string;
  rc_profile : string;
  rc_priority : string;
  rc_confidence : Q;
  rc_reasoning : message;
  rc_alternatives : list string;
  rc_fallback : string
}.

Record ValidationReport := mkValidation {
  vr_valid : bool;
  vr_issues : list message;
  vr_warnings : list message;
  vr_suggestions : list message;
  vr_total : nat;
  vr_passed : nat;
  vr_failed : nat
}.

Record PlanningResult := mkPlanning {
  pl_id : string;
  pl_request : string;
  pl_mission : string;
  pl_stages : list PlanningStage.t;
  pl_stage : PlanningStage.t;
  pl_tasks : list TaskBreakdown;
  pl_method : string;
  pl_graph : pydict (list string);
  pl_groups : list (list string);
  pl_estimates : pydict ComplexityEstimate;
  pl_runtimes : pydict RuntimeRecommendation;
  pl_validation : option ValidationReport;
  pl_nodes : nat;
  pl_hours : Q;
  pl_risk : RiskLevel.t;
  pl_errors : list message
}.

(** [PlanningResult(request_id=...)] *)
Definition new_planning (id request : string) : PlanningResult :=
  mkPlanning id request "" [] PlanningStage.RECEIVED [] "llm" [] [] [] [] None 0 0 RiskLevel.LOW [].

Definition set_stages stages stage (p : PlanningResult) : PlanningResult :=
  mkPlanning (pl_id p) (pl_request p) (pl_mission p) stages stage (pl_tasks p) (pl_method p) (pl_graph p) (pl_groups p)
    (pl_estimates p) (pl_runtimes p) (pl_validation p) (pl_nodes p) (pl_hours p) (pl_risk p) (pl_errors p).
Definition set_tasks tasks method (p : PlanningResult) : PlanningResult :=
  mkPlanning (pl_id p) (pl_request p) (pl_mission p) (pl_stages p) (pl_stage p) tasks method (pl_graph p) (pl_groups p)
    (pl_estimates p) (pl_runtimes p) (pl_validation p) (length tasks) (pl_hours p) (pl_risk p) (pl_errors p).
Definition set_graph graph groups (p : PlanningResult) : PlanningResult :=
  mkPlanning (pl_id p) (pl_request p) (pl_mission p) (pl_stages p) (pl_stage p) (pl_tasks p) (pl_method p) graph groups
    (pl_estimates p) (pl_runtimes p) (pl_validation p) (pl_nodes p) (pl_hours p) (pl_risk p) (pl_errors p).
Definition set_estimates estimates hours risk (p : PlanningResult) : PlanningResult :=
  mkPlanning (pl_id p) (pl_request p) (pl_mission p) (pl_stages p) (pl_stage p) (pl_tasks p) (pl_method p) (pl_graph p) (pl_groups p)
    estimates (pl_runtimes p) (pl_validation p) (pl_nodes p) hours risk (pl_errors p).
Definition set_runtimes runtimes (p : PlanningResult) : PlanningResult :=
  mkPlanning (pl_id p) (pl_request p) (pl_mission p) (pl_stages p) (pl_stage p) (pl_tasks p) (pl_method p) (pl_graph p) (pl_groups p)
    (pl_estimates p) runtimes (pl_validation p) (pl_nodes p) (pl_hours p) (pl_risk p) (pl_errors p).
Definition set_validation validation errors (p : PlanningResult) : PlanningResult :=
  mkPlanning (pl_id p) (pl_request p) (pl_mission p) (pl_stages p) (pl_stage p) (pl_tasks p) (pl_method p) (pl_graph p) (pl_groups p)
    (pl_estimates p) (pl_runtimes p) validation (pl_nodes p) (pl_hours p) (pl_risk p) errors.
Definition set_built mission (p : PlanningResult) : PlanningResult :=
  mkPlanning (pl_id p) (pl_request p) mission (pl_stages p) (pl_stage p) (pl_tasks p) (pl_method p) (pl_graph p) (pl_groups p)
    (pl_estimates p) (pl_runtimes p) (pl_validation p) (pl_nodes p) (pl_hours p) (pl_risk p) (pl_errors p).
