(* ===== verification/TaskDecomposer.v ===== *)
(** * From a request to tasks
    ([backend/mission/planner/task_decomposer.py])

    The decomposition of a request: by a language
    model whose answer is read as a list of tasks, or else by the patterns that
    are found in the request, or else by a generic list. *)
From stdpp Require Import base gmap strings list sets sorting pretty.
From Stdlib Require Import ZArith QArith Ascii Lia.
From S2P Require Import Prelude.
From S2P Require Import RetryPolicy.
From S2P Require Import GraphExecutor.
From S2P Require Import PlannerModels.
#[local] Open Scope Z_scope.

(** ** The tables *)

(** [_CATEGORY_KEYWORDS] *)
Definition CATEGORY_KEYWORDS : list (TaskCategory.t * list string) :=
  [(TaskCategory.ANALYSIS, ["analyse"; "analyze"; "audit"; "review"; "study"; "investigate"; "understand"; "explore"; "evaluate"; "assess"]);
   (TaskCategory.DESIGN, ["design"; "architect"; "plan"; "structure"; "blueprint"; "schema"; "model"; "wireframe"; "prototype"]);
   (TaskCategory.IMPLEMENTATION, ["implement"; "code"; "build"; "create"; "develop"; "write"; "add"; "install"; "configure"; "setup"; "set up"]);
   (TaskCategory.TESTING, ["test"; "verify"; "validate"; "check"; "ensure"; "confirm"; "debug"; "fix"; "ci"; "pipeline"]);
   (TaskCategory.DOCUMENTATION, ["document"; "write docs"; "readme"; "comment"; "api doc"; "changelog"; "guide"]);
   (TaskCategory.DEPLOYMENT, ["deploy"; "release"; "publish"; "launch"; "ship"; "production"; "docker"; "container"]);
   (TaskCategory.REVIEW, ["review"; "pr"; "pull request"; "merge"; "approve"]);
   (TaskCategory.INTEGRATION, ["integrate"; "connect"; "link"; "bind"; "hook up"; "api"; "auth"; "oauth"; "sso"]);
   (TaskCategory.OPTIMIZATION, ["optimize"; "improve"; "enhance"; "refactor"; "speed"; "performance"; "cache"; "tune"]);
   (TaskCategory.SECURITY, ["secure"; "security"; "encrypt"; "hash"; "csrf"; "xss"; "sql injection"; "vulnerability"; "penetration"])].

Definition pattern : Type := list (string * string * TaskCategory.t).

(** [_TASK_PATTERNS] *)
Definition TASK_PATTERNS : pydict pattern :=
  [("authentication",
    [("Analyze auth requirements", "Study security needs, user flows, and compliance", TaskCategory.ANALYSIS);
     ("Design auth architecture", "Choose auth strategy: OAuth, JWT, sessions, SSO", TaskCategory.DESIGN);
     ("Implement backend auth", "Create auth endpoints, middleware, token management", TaskCategory.IMPLEMENTATION);
     ("Implement frontend auth", "Login/signup forms, session management, protected routes", TaskCategory.IMPLEMENTATION);
     ("Write auth tests", "Unit tests, integration tests, security tests", TaskCategory.TESTING);
     ("Document auth flow", "API docs, setup guide, security notes", TaskCategory.DOCUMENTATION)]);
   ("database",
    [("Analyze data requirements", "Entities, relationships, access patterns", TaskCategory.ANALYSIS);
     ("Design database schema", "Tables, indexes, migrations strategy", TaskCategory.DESIGN);
     ("Implement database layer", "Models, migrations, queries, ORM setup", TaskCategory.IMPLEMENTATION);
     ("Write database tests", "Model tests, migration tests, performance tests", TaskCategory.TESTING);
     ("Document data model", "ERD, schema docs, migration guide", TaskCategory.DOCUMENTATION)]);
   ("api",
    [("Analyze API requirements", "Endpoints, data formats, auth, rate limiting", TaskCategory.ANALYSIS);
     ("Design API contract", "OpenAPI spec, versioning strategy, error handling", TaskCategory.DESIGN);
     ("Implement API endpoints", "Routes, controllers, middleware, validation", TaskCategory.IMPLEMENTATION);
     ("Write API tests", "Unit tests, integration tests, contract tests", TaskCategory.TESTING);
     ("Document API", "OpenAPI docs, usage examples, SDK generation", TaskCategory.DOCUMENTATION)]);
   ("frontend",
    [("Analyze UI requirements", "User stories, wireframes, component tree", TaskCategory.ANALYSIS);
     ("Design UI/UX", "Layout, components, state management, routing", TaskCategory.DESIGN);
     ("Implement UI components", "Pages, components, hooks, styling", TaskCategory.IMPLEMENTATION);
     ("Write frontend tests", "Component tests, E2E tests, accessibility tests", TaskCategory.TESTING);
     ("Document UI", "Storybook, usage guide, component docs", TaskCategory.DOCUMENTATION)]);
   ("deployment",
    [("Analyze deployment needs", "Environment, scaling, monitoring requirements", TaskCategory.ANALYSIS);
     ("Design deployment pipeline", "CI/CD, environments, rollback strategy", TaskCategory.DESIGN);
     ("Implement CI/CD", "Build scripts, test pipelines, deployment automation", TaskCategory.IMPLEMENTATION);
     ("Test deployment", "Staging tests, smoke tests, rollback tests", TaskCategory.TESTING);
     ("Document deployment", "Runbook, troubleshooting guide, architecture diagram", TaskCategory.DOCUMENTATION)])].

(** [_GENERIC_PATTERN] *)
Definition GENERIC_PATTERN : pattern :=
  [("Analyze requirements", "Study and document requirements and constraints", TaskCategory.ANALYSIS);
   ("Design solution architecture", "Design the high-level architecture and component structure", TaskCategory.DESIGN);
   ("Implement core logic", "Implement the main functionality", TaskCategory.IMPLEMENTATION);
   ("Write tests", "Create comprehensive test suite", TaskCategory.TESTING);
   ("Document the solution", "Write documentation, guides, and examples", TaskCategory.DOCUMENTATION)].

Definition MAX_LLM_TASKS : nat := 12.
Definition MAX_LIVRABLES : nat := 8.

(** ** Texts *)

Definition newline : string := String (ascii_of_nat 10) "".

(** [s.replace(a, b)] of characters. *)
Fixpoint replace_char (a b : ascii) (s : string) : string :=
  match s with
  | EmptyString => EmptyString
  | String c s' => String (if decide (c = a) then b else c) (replace_char a b s')
  end.

(** [s.split("/")], [cur] being the part that is begun. *)
Fixpoint split_parts (cur s : string) : list string :=
  match s with
  | EmptyString => [cur]
  | String c s' => if decide (c = "/"%char) then cur :: split_parts "" s' else split_parts (cur +:+ String c "") s'
  end.

(** [while s.startswith("./"): s = s[2:]] *)
Fixpoint drop_dots (s : string) : string :=
  match s with
  | String "." (String "/" s') => drop_dots s'
  | _ => s
  end.

(** [s.strip("`")] *)
Fixpoint lstrip_char (a : ascii) (s : string) : string :=
  match s with
  | String c s' => if decide (c = a) then lstrip_char a s' else s
  | EmptyString => EmptyString
  end.
Fixpoint rstrip_char (a : ascii) (s : string) : string :=
  match s with
  | EmptyString => EmptyString
  | String c s' => match rstrip_char a s' with
                   | EmptyString => if decide (c = a) then EmptyString else String c EmptyString
                   | r => String c r
                   end
  end.
Definition strip_char (a : ascii) (s : string) : string := rstrip_char a (lstrip_char a s).

(** What [_JSON_ARRAY_RE] finds: from the first bracket that opens to the last
    one that closes. *)
Fixpoint from_bracket (s : string) : option string :=
  match s with
  | EmptyString => None
  | String c s' => if decide (c = "["%char) then Some s else from_bracket s'
  end.
Fixpoint to_bracket (s : string) : option string :=
  match s with
  | EmptyString => None
  | String c s' => match to_bracket s' with
                   | Some r => Some (String c r)
                   | None => if decide (c = "]"%char) then Some (String c "") else None
                   end
  end.
Definition bracketed (s : string) : option string := r ← from_bracket s; to_bracket r.

(** ** The deliverables *)

(** A declared path, once it is accepted and cleaned. *)
Definition chemin_propre (s : string) : option string :=
  let chemin := replace_char "\"%char "/"%char (strip s) in
  if bool_decide (chemin = "") || (200 <? String.length chemin)%nat then None
  else if String.prefix "/" chemin || bool_decide (".." ∈ split_parts "" chemin) || contains ":" chemin then None
  else let propre := drop_dots chemin in if decide (propre = "") then None else Some propre.

(** [_livrables] *)
Definition livrables (brut : pyval) : list string :=
  match brut with
  | PList l =>
      take MAX_LIVRABLES
        (fold_left (fun propres v =>
           match v with
           | PStr s => match chemin_propre s with
                       | Some c => if decide (c ∈ propres) then propres else propres ++ [c]
                       | None => propres
                       end
           | _ => propres
           end) l [])
  | _ => []
  end.

(** ** Prompts and answers *)

Definition line (prefix s : string) : list string := if decide (s = "") then [] else [prefix +:+ s].

(** [_build_user_prompt] *)
Definition build_user_prompt (q : PlanningRequest) : string :=
  String.concat newline
    (["Request: " +:+ str_or (pq_request q) (pq_objective q)]
     ++ (if decide (pq_objective q = pq_request q) then [] else line "Objective: " (pq_objective q))
     ++ line "Specification: " (pq_specification q) ++ line "Reference: " (pq_issue q) ++ line "Repository: " (pq_repository q)
     ++ (match pq_tags q with [] => [] | l => ["Tags: " +:+ String.concat ", " l] end)).

(** What surrounds the decomposition: the identifiers, the texts of values, the
    reader of JSON, and the models, when they are wired, as functions of the
    prompt; and, for the rest of the planner, the models of the levels of
    complexity, the clock, and the executor that it registers missions with. *)
Record Minds := mkMinds {
  md_uuid : nat -> string;
  md_text : pyval -> string;
  md_loads : string -> res pyval;
  md_local : option (string -> res string);
  md_cloud : option (string -> option string);
  md_tiers : pydict (list string);
  md_now : nat -> Z;
  md_graph : option Env
}.

Section decomposer.
Variable w : Minds.

(** A new task, in the state of the identifiers. *)
Definition uuid4 : M nat string := fun n => (Ok (md_uuid w n), S n).

Definition new_task (title description : string) (c : TaskCategory.t) (order : nat) (depends outputs : list string) : M nat TaskBreakdown :=
  id <- uuid4 ;;
  ret (mkBreakdown id title description c depends [] [] outputs order true).

(** A value read as JSON: [None] when it is not. *)
Definition loads_list (s : string) : M nat (option (list pyval)) :=
  match md_loads w s with
  | Ok (PList l) => ret (Some l)
  | Ok _ => ret None
  | Err e => if decide (exn_cls e = ValueError) then ret None else raise e
  end.

(** [_extract_json_array] *)
Definition extract_json_array (text : string) : M nat (option (list pyval)) :=
  if decide (strip text = "") then ret None
  else
    let stripped :=
      if String.prefix "```" (strip text) then
        let s := strip (strip_char "`"%char (strip text)) in
        if String.prefix "json" (lower s) then strip (drop_chars 4 s) else s
      else strip text in
    first <- loads_list stripped ;;
    match first with
    | Some l => ret (Some l)
    | None => match bracketed text with
              | Some s => loads_list s
              | None => ret None
              end
    end.

(** [str(item.get(key, ""))] *)
Definition field_text (item : pydict pyval) (k : string) : string :=
  match dget item k with Some v => py_str (md_text w) v | None => "" end.

(** [isinstance(d, int) and 0 <= d < n]: a boolean is an integer. *)
Definition index_below (n : nat) (v : pyval) : option nat :=
  let z := match v with PInt z => Some z | PBool b => Some (Z.b2z b) | _ => None end in
  z' ← z; if decide (0 <= z' < Z.of_nat n) then Some (Z.to_nat z') else None.

(** The tasks of the answer, after those of [bs]. *)
Fixpoint llm_tasks (items : list pyval) (bs : list TaskBreakdown) : M nat (list TaskBreakdown) :=
  match items with
  | [] => ret bs
  | PDict item :: items' =>
      let title := first_chars 200 (strip (field_text item "title")) in
      if decide (title = "") then llm_tasks items' bs
      else
        let category := default TaskCategory.CUSTOM (TaskCategory.by_value (lower (strip (field_text item "category")))) in
        let deps := match dget item "depends_on" with
                    | Some (PList l) => omap (fun v => i ← index_below (length bs) v; tb_id <$> bs !! i) l
                    | _ => []
                    end in
        let outputs := livrables (default PNone (dget item "outputs")) in
        t <- new_task title (first_chars 1000 (strip (field_text item "description"))) category (length bs) deps outputs ;;
        llm_tasks items' (bs ++ [t])
  | _ :: items' => llm_tasks items' bs
  end.

(** [_decompose_with_llm] *)
Definition decompose_with_llm (q : PlanningRequest) : M nat (list TaskBreakdown) :=
  match md_local w with
  | None => ret []
  | Some ask =>
      if decide (strip (str_or (pq_request q) (str_or (pq_objective q) (str_or (pq_specification q) (pq_issue q)))) = "") then ret []
      else
        let prompt := build_user_prompt q in
        match (match ask prompt with Ok c => Some c | Err _ => cloud ← md_cloud w; cloud prompt end) with
        | None => ret []
        | Some content =>
            items <- extract_json_array content ;;
            llm_tasks (take MAX_LLM_TASKS (default [] items)) []
        end
  end.

(** The tasks of a pattern, after those of [bs]. *)
Fixpoint pattern_tasks (p : pattern) (bs : list TaskBreakdown) : M nat (list TaskBreakdown) :=
  match p with
  | [] => ret bs
  | (title, description, c) :: p' =>
      t <- new_task title description c (length bs) [] [] ;;
      pattern_tasks p' (bs ++ [t])
  end.

(** [_classify_task] *)
Definition keyword_score (text : string) (kws : list string) : nat := length (List.filter (fun kw => contains kw text) kws).

Definition classify_task (text : string) : TaskCategory.t :=
  let best := fold_left (fun (b : TaskCategory.t * nat) p => let n := keyword_score (lower text) p.2 in if (b.2 <? n)%nat then (p.1, n) else b)
                CATEGORY_KEYWORDS (TaskCategory.CUSTOM, 0%nat) in
  if (0 <? best.2)%nat then best.1 else TaskCategory.IMPLEMENTATION.

Definition reclassify (t : TaskBreakdown) : TaskBreakdown :=
  if decide (tb_category t = TaskCategory.CUSTOM) then with_category (classify_task (tb_title t +:+ " " +:+ tb_description t)) t else t.

(** The text that the patterns are looked for in. *)
Definition request_text (q : PlanningRequest) : string :=
  lower (pq_request q +:+ " " +:+ pq_objective q +:+ " " +:+ pq_specification q +:+ " " +:+ pq_issue q).

Definition patterns_in (text : string) : pydict pattern := List.filter (fun p => contains p.1 text) TASK_PATTERNS.

(** [sorted] of a set of texts *)
Definition sorted_texts (X : gset string) : list string := merge_sort String.le (elements X).

(** [decompose_with_method] *)
Definition decompose_with_method (q : PlanningRequest) : M nat (list TaskBreakdown * string) :=
  bs <- decompose_with_llm q ;;
  r <- match bs with
       | _ :: _ => ret (bs, "llm")
       | [] =>
           match patterns_in (request_text q) with
           | [] => bs <- pattern_tasks GENERIC_PATTERN [] ;; ret (bs, "generic_fallback")
           | ps => bs <- pattern_tasks (flat_map snd ps) [] ;;
                   ret (bs, "pattern:" +:+ String.concat "+" (sorted_texts (list_to_set (map fst ps))))
           end
       end ;;
  final <- new_task "Validation finale" "Final validation: ensure all criteria are met and outputs are correct" TaskCategory.REVIEW
             (length r.1) (map tb_id r.1) [] ;;
  ret (map reclassify (r.1 ++ [final]), r.2).
End decomposer.
