(* ===== verification/PlanAnalysis.v ===== *)
(** * Orders, estimates, recommendations and the validation of a plan
    ([backend/mission/planner/dependency_builder.py], [complexity_estimator.py],
    [runtime_recommender.py] and [validation_engine.py])

    What the planner makes of a list of tasks: the graph of their dependencies
    and the groups that may run together, what each needs, the model that is
    recommended for it, and the report of the checks. *)
From stdpp Require Import base gmap strings list sets sorting pretty.
From Stdlib Require Import ZArith QArith Qround Qminmax Ascii Lia.
From S2P Require Import Prelude.
From S2P Require Import PlannerModels.
From S2P Require Import TaskDecomposer.
#[local] Open Scope Z_scope.

(** A dict comprehension over the tasks. *)
Definition by_task {V} (f : TaskBreakdown -> V) (ts : list TaskBreakdown) : pydict V :=
  fold_left (fun d t => dset d (tb_id t) (f t)) ts [].

(** ** The dependencies *)

(** [_CATEGORY_ORDER] *)
Definition CATEGORY_ORDER (c : TaskCategory.t) : Z :=
  match c with
  | TaskCategory.PLANNING => 0
  | TaskCategory.ANALYSIS => 1
  | TaskCategory.DESIGN => 2
  | TaskCategory.IMPLEMENTATION => 3
  | TaskCategory.INTEGRATION => 4
  | TaskCategory.TESTING => 5
  | TaskCategory.SECURITY => 5
  | TaskCategory.OPTIMIZATION => 6
  | TaskCategory.REVIEW => 7
  | TaskCategory.DOCUMENTATION => 8
  | TaskCategory.DEPLOYMENT => 9
  | TaskCategory.CUSTOM => 3
  end.

(** The key of the sort: the category, then the order. *)
Definition sorts_before (a b : TaskBreakdown) : Prop :=
  CATEGORY_ORDER (tb_category a) < CATEGORY_ORDER (tb_category b) \/
  CATEGORY_ORDER (tb_category a) = CATEGORY_ORDER (tb_category b) /\ (tb_order a <= tb_order b)%nat.
#[global] Instance sorts_before_dec : RelDecision sorts_before.
Proof. intros a b. unfold sorts_before. apply _. Defined.

Definition in_order (bs : list TaskBreakdown) : list TaskBreakdown := sort_by sorts_before bs.

Definition add_new (x : string) (l : list string) : list string := if decide (x ∈ l) then l else l ++ [x].

(** What the task [e], earlier in the order, adds to the dependencies of [t]. *)
Definition auto_dep (t : TaskBreakdown) (deps : list string) (e : TaskBreakdown) : list string :=
  if bool_decide (tb_category e = tb_category t) && negb (tb_parallel t) then add_new (tb_id e) deps
  else if CATEGORY_ORDER (tb_category e) <? CATEGORY_ORDER (tb_category t) - 1 then
    if negb (bool_decide (tb_id e ∈ deps)) && tb_parallel t then deps
    else if negb (tb_parallel t) then add_new (tb_id e) deps
    else deps
  else deps.

(** The graph, after the tasks of [earlier]. *)
Fixpoint dep_graph_of (earlier ts : list TaskBreakdown) (g : pydict (list string)) : pydict (list string) :=
  match ts with
  | [] => g
  | t :: ts' => dep_graph_of (earlier ++ [t]) ts' (dset g (tb_id t) (fold_left (auto_dep t) earlier (tb_depends t)))
  end.

(** The dependencies of a task of the graph are all in [completed]. *)
Definition released (g : pydict (list string)) (completed : gset string) (id : string) : Prop :=
  Forall (fun d => d ∈ completed) (default [] (dget g id)).
#[global] Instance released_dec g completed id : Decision (released g completed id).
Proof. unfold released. apply _. Defined.

(** The loop of [_compute_parallel_groups]; each turn but the last takes a task
    out of [remaining]. *)
Fixpoint parallel_loop (fuel : nat) (g : pydict (list string)) (remaining completed : gset string) (groups : list (list string))
    : list (list string) :=
  match fuel with
  | O => groups
  | S fuel' =>
      if decide (remaining = ∅) then groups
      else
        let ready := filter (released g completed) remaining in
        if decide (ready = ∅) then groups ++ [sorted_texts remaining]
        else parallel_loop fuel' g (remaining ∖ ready) (completed ∪ ready) (groups ++ [sorted_texts ready])
  end.

Definition task_ids (ts : list TaskBreakdown) : gset string := list_to_set (map tb_id ts).

(** [_compute_parallel_groups] *)
Definition compute_parallel_groups (ts : list TaskBreakdown) (g : pydict (list string)) : list (list string) :=
  parallel_loop (S (length ts)) g (task_ids ts) ∅ [].

(** [build_dependencies] *)
Definition build_dependencies (bs : list TaskBreakdown) : pydict (list string) * list (list string) :=
  match bs with
  | [] => ([], [])
  | _ => let g := dep_graph_of [] (in_order bs) [] in (g, compute_parallel_groups (in_order bs) g)
  end.

(** [detect_inconsistencies] *)
Definition detect_inconsistencies (bs : list TaskBreakdown) (g : pydict (list string)) : list message :=
  flat_map (fun p => map (fun d => Msg "Task '{}' depends on unknown task '{}'" [p.1; d])
                       (List.filter (fun d => negb (bool_decide (d ∈ map tb_id bs))) p.2)) g
  ++ flat_map (fun p => if decide (p.1 ∈ p.2) then [Msg "Task '{}' depends on itself" [p.1]] else []) g.

(** ** The estimates *)

(** Hours, gigabytes of the card, gigabytes of memory and tokens. *)
Record Needs := mkNeeds { ba_hours : Q; ba_vram : Q; ba_ram : Q; ba_tokens : Z }.

(** [_CATEGORY_BASE] *)
Definition CATEGORY_BASE (c : TaskCategory.t) : Needs :=
  match c with
  | TaskCategory.ANALYSIS => mkNeeds 1 1 2 2000
  | TaskCategory.DESIGN => mkNeeds (3 # 2) (3 # 2) 3 3000
  | TaskCategory.IMPLEMENTATION => mkNeeds 4 3 4 8000
  | TaskCategory.TESTING => mkNeeds 2 2 3 4000
  | TaskCategory.DOCUMENTATION => mkNeeds 1 1 2 3000
  | TaskCategory.DEPLOYMENT => mkNeeds (3 # 2) 2 3 2000
  | TaskCategory.REVIEW => mkNeeds (1 # 2) 1 2 1000
  | TaskCategory.PLANNING => mkNeeds (1 # 2) 1 2 1000
  | TaskCategory.INTEGRATION => mkNeeds 3 (5 # 2) 4 5000
  | TaskCategory.OPTIMIZATION => mkNeeds 2 3 4 4000
  | TaskCategory.SECURITY => mkNeeds (5 # 2) 2 3 4000
  | TaskCategory.CUSTOM => mkNeeds 2 2 3 4000
  end.

(** [_COMPLEXITY_KEYWORDS] *)
Definition COMPLEXITY_KEYWORDS : pydict Q :=
  [("complex", (3 # 2)); ("advanced", (7 # 5)); ("enterprise", (3 # 2)); ("real-time", (3 # 2));
   ("real time", (3 # 2)); ("distributed", (3 # 2)); ("scalable", (13 # 10)); ("multi", (13 # 10));
   ("machine learning", (2 # 1)); ("ml", (2 # 1)); ("ai", (3 # 2)); ("llm", (3 # 2)); ("neural", (2 # 1));
   ("concurrent", (7 # 5)); ("parallel", (7 # 5)); ("streaming", (7 # 5)); ("high availability", (3 # 2));
   ("fault tolerant", (3 # 2)); ("secure", (13 # 10)); ("encrypted", (13 # 10)); ("migration", (7 # 5));
   ("refactor", (13 # 10)); ("legacy", (7 # 5)); ("simple", (7 # 10)); ("basic", (7 # 10)); ("trivial", (1 # 2));
   ("minor", (7 # 10))].

(** [_RISK_KEYWORDS] *)
Definition RISK_KEYWORDS : pydict RiskLevel.t :=
  [("critical", RiskLevel.CRITICAL); ("production", RiskLevel.HIGH); ("security", RiskLevel.HIGH);
   ("data loss", RiskLevel.CRITICAL); ("downtime", RiskLevel.HIGH); ("breaking", RiskLevel.HIGH);
   ("migration", RiskLevel.MEDIUM); ("refactor", RiskLevel.MEDIUM); ("experimental", RiskLevel.MEDIUM);
   ("new", RiskLevel.LOW)].

(** [_risk_gt] *)
Definition risk_gt (a b : RiskLevel.t) : bool := RiskLevel.rank b <? RiskLevel.rank a.

(** [_suggest_priority] *)
Definition suggest_priority (risk : RiskLevel.t) (complexity : Q) : string :=
  if bool_decide (risk = RiskLevel.CRITICAL) || Qle_bool 8 complexity then "critical"
  else if bool_decide (risk = RiskLevel.HIGH) || Qle_bool 6 complexity then "high"
  else if bool_decide (risk = RiskLevel.MEDIUM) || Qle_bool 4 complexity then "normal"
  else "background".

Definition task_text (t : TaskBreakdown) : string := lower (tb_title t +:+ " " +:+ tb_description t).

Definition complexity_mult (text : string) : Q :=
  fold_left (fun m p => if contains p.1 text then Qmax m p.2 else m) COMPLEXITY_KEYWORDS 1%Q.

(** The risk, and the words it comes from. *)
Definition risk_of (text : string) : RiskLevel.t * list string :=
  fold_left (fun r p => if contains p.1 text then (if risk_gt p.2 r.1 then p.2 else r.1, r.2 ++ [p.1]) else r)
    RISK_KEYWORDS (RiskLevel.LOW, []).

(** [1.0 + len(task.required_skills) * 0.1], times the factor of the text *)
Definition total_mult (t : TaskBreakdown) : Q :=
  (complexity_mult (task_text t) * (1 + inject_Z (Z.of_nat (length (tb_skills t))) * (1 # 10)))%Q.

Definition complexity_score (t : TaskBreakdown) : Q := Qmin 10 (total_mult t * 4).

Definition complexity_level (score : Q) : string :=
  if Qle_bool score (25 # 10) then "low" else if Qle_bool score 5 then "medium" else if Qle_bool score (75 # 10) then "high" else "critical".

(** [int(x)] *)
Definition truncate (q : Q) : Z := if Qle_bool 0 q then Qfloor q else Qceiling q.

(** [estimate] *)
Definition estimate (t : TaskBreakdown) : ComplexityEstimate :=
  let b := CATEGORY_BASE (tb_category t) in
  let mult := complexity_mult (task_text t) in
  let risk := risk_of (task_text t) in
  let hours := (ba_hours b * total_mult t)%Q in
  let score := complexity_score t in
  mkEstimate (tb_id t) (tenths score) (complexity_level score) (tenths hours) (tenths (hours * (1 # 2))) (tenths (hours * 2))
    (tenths (ba_vram b * mult)) (tenths (ba_ram b * mult)) (truncate (inject_Z (ba_tokens b) * total_mult t))
    risk.1 risk.2 (suggest_priority risk.1 score) (Qmax (3 # 10) (1 - (mult - 1) * (1 # 2))).

(** [estimate_all] *)
Definition estimate_all (ts : list TaskBreakdown) : pydict ComplexityEstimate := by_task estimate ts.

(** ** The recommendations *)

(** [_TIER_ROLES] *)
Definition TIER_ROLES : pydict (list string) :=
  [("critical", ["code"; "reasoning_escalation"; "advanced_analysis"]); ("high", ["orchestrator"; "reasoning"; "security"]);
   ("medium", ["standard"; "double_check"]); ("low", ["swift"; "double_check"])].

(** [_build_tier_mapping], of the roles of the configuration: none when it cannot
    be read. *)
Definition build_tier_mapping (roles : res (pydict (pydict string))) : res (pydict (list string)) :=
  match roles with
  | Err _ => Ok []
  | Ok roles =>
      res_fold (fun mapping p =>
        tags <-? res_map (fun r => role <-? dlookup roles r ;; dlookup role "model") (List.filter (dmem roles) p.2) ;;
        Ok (match tags with [] => mapping | _ => dset mapping p.1 tags end)) TIER_ROLES []
  end.

(** [_CATEGORY_PROFILE] *)
Definition CATEGORY_PROFILE (c : TaskCategory.t) : string :=
  match c with
  | TaskCategory.ANALYSIS => "reasoning"
  | TaskCategory.DESIGN => "reasoning"
  | TaskCategory.IMPLEMENTATION => "coding"
  | TaskCategory.TESTING => "coding"
  | TaskCategory.DOCUMENTATION => "general_chat"
  | TaskCategory.DEPLOYMENT => "general_chat"
  | TaskCategory.REVIEW => "reasoning"
  | TaskCategory.PLANNING => "reasoning"
  | TaskCategory.INTEGRATION => "coding"
  | TaskCategory.OPTIMIZATION => "coding"
  | TaskCategory.SECURITY => "coding"
  | TaskCategory.CUSTOM => "general_chat"
  end.

(** [round(x, 2)] *)
Definition hundredths (q : Q) : Q := (inject_Z (round_half_even (q * 100)) / 100)%Q.

Section recommender.
Variable w : Minds.

(** The models of a level: those of [medium] when it has none. *)
Definition tier_of (level : string) : list string :=
  match dget (md_tiers w) level with
  | Some (x :: l) => x :: l
  | _ => default [] (dget (md_tiers w) "medium")
  end.

(** [recommend] *)
Definition recommend (t : TaskBreakdown) (e : ComplexityEstimate) : RuntimeRecommendation :=
  let profile := CATEGORY_PROFILE (tb_category t) in
  let tier := tier_of (ce_level e) in
  let primary := default "qwen3.5:9b" (tier !! 0%nat) in
  let fallback := default primary (tier !! 1%nat) in
  let why := Msg "Category '{}' maps to profile '{}'. Complexity level '{}' ({}/10) suggests {}. Risk: {}."
               [TaskCategory.value (tb_category t); profile; ce_level e; md_text w (PFloat (ce_score e)); primary;
                RiskLevel.value (ce_risk e)] in
  let heavy := negb (Qle_bool (ce_vram e) 8) in
  let reasoning :=
    if heavy then Msg (msg_template why +:+ " High VRAM estimate ({}GB) — consider smaller model.")
                    (msg_args why ++ [md_text w (PFloat (ce_vram e))])
    else why in
  let alternatives := if heavy then "qwen3:4b" :: drop 1 tier else drop 1 tier in
  let confidence := if decide (ce_level e = "critical" \/ ce_level e = "high") then Qmin (ce_confidence e) (7 # 10) else ce_confidence e in
  mkRecommendation (tb_id t) "" primary profile (ce_priority e) (hundredths confidence) reasoning
    (take 3 (List.filter (fun a => negb (bool_decide (a = primary))) alternatives)) fallback.

(** [recommend_all] *)
Definition recommend_all (ts : list TaskBreakdown) (estimates : pydict ComplexityEstimate) : pydict RuntimeRecommendation :=
  by_task (fun t => recommend t (default no_estimate (dget estimates (tb_id t)))) ts.
End recommender.

(** ** The validation *)

(** A check begins; it fails; it warns. *)
Definition counted (r : ValidationReport) : ValidationReport :=
  mkValidation (vr_valid r) (vr_issues r) (vr_warnings r) (vr_suggestions r) (S (vr_total r)) (vr_passed r) (vr_failed r).
Definition failing (m : message) (r : ValidationReport) : ValidationReport :=
  mkValidation (vr_valid r) (vr_issues r ++ [m]) (vr_warnings r) (vr_suggestions r) (vr_total r) (vr_passed r) (S (vr_failed r)).
Definition warned (ms : list message) (r : ValidationReport) : ValidationReport :=
  mkValidation (vr_valid r) (vr_issues r) (vr_warnings r ++ ms) (vr_suggestions r) (vr_total r) (vr_passed r) (vr_failed r).

(** A check that stops at its first issue. *)
Definition checking (issue : option message) (r : ValidationReport) : ValidationReport :=
  match issue with Some m => failing m (counted r) | None => counted r end.

Definition REQUIRED_STAGES : list PlanningStage.t :=
  [PlanningStage.DECOMPOSING; PlanningStage.BUILDING_DEPENDENCIES; PlanningStage.ESTIMATING_COMPLEXITY;
   PlanningStage.RECOMMENDING_RUNTIME; PlanningStage.VALIDATING].

(** [_check_completeness]; the set that is printed is given here in the order of
    the stages. *)
Definition check_completeness (p : PlanningResult) : ValidationReport -> ValidationReport :=
  checking
    match List.filter (fun s => negb (bool_decide (s ∈ pl_stages p))) REQUIRED_STAGES with
    | [] => None
    | missing => Some (Msg "Missing planning stages: {}" (map PlanningStage.value missing))
    end.

(** The first element for which [f] has an answer. *)
Definition first_some {A B} (f : A -> option B) (l : list A) : option B := head (omap f l).

(** [_check_dependencies] *)
Definition check_dependencies (p : PlanningResult) : ValidationReport -> ValidationReport :=
  let ids := map tb_id (pl_tasks p) in
  checking
    (first_some (fun q =>
       if decide (q.1 ∈ ids)
       then first_some (fun d => if decide (d ∈ ids) then None else Some (Msg "Task '{}' depends on unknown task '{}'" [q.1; d])) q.2
       else Some (Msg "Unknown task in dependency graph: '{}'" [q.1])) (pl_graph p)).

Definition total (f : ComplexityEstimate -> Q) (p : PlanningResult) : Q :=
  fold_left (fun q e => q + f e)%Q (dvalues (pl_estimates p)) 0%Q.

(** [_check_resources] *)
Definition check_resources (p : PlanningResult) (r : ValidationReport) : ValidationReport :=
  warned
    ((if Qle_bool (total ce_vram p) 48 then []
      else [Msg "Total VRAM estimate ({} GB) is very high — consider splitting tasks" [fixed 1 (total ce_vram p)]]) ++
     (if Qle_bool (total ce_ram p) 32 then [] else [Msg "Total RAM estimate ({} GB) is high" [fixed 1 (total ce_ram p)]]))
    (counted r).

(** [has_cycle], in the nodes that are visited and those that are on the path:
    the fuel is the depth of the recursion. *)
Record Trail := mkTrail { tr_visited : gset string; tr_stack : gset string }.

Definition enter (n : string) (s : Trail) : Trail := mkTrail ({[n]} ∪ tr_visited s) ({[n]} ∪ tr_stack s).
Definition leave (n : string) (s : Trail) : Trail := mkTrail (tr_visited s) (tr_stack s ∖ {[n]}).

(** The loop over the neighbors, [go] being the recursive call. *)
Fixpoint any_neighbor (go : string -> Trail -> bool * Trail) (l : list string) (s : Trail) : bool * Trail :=
  match l with
  | [] => (false, s)
  | n :: l' =>
      if decide (n ∈ tr_visited s) then if decide (n ∈ tr_stack s) then (true, s) else any_neighbor go l' s
      else let '(b, s') := go n s in if b : bool then (true, s') else any_neighbor go l' s'
  end.

Fixpoint has_cycle (fuel : nat) (g : pydict (list string)) (n : string) (s : Trail) : bool * Trail :=
  match fuel with
  | O => (false, s)
  | S fuel' =>
      let '(b, s') := any_neighbor (has_cycle fuel' g) (default [] (dget g n)) (enter n s) in
      if b : bool then (true, s') else (false, leave n s')
  end.

(** The nodes that the search may meet. *)
Definition graph_nodes (g : pydict (list string)) : list string := flat_map (fun p => p.1 :: p.2) g.

(** The loop over the keys of the graph. *)
Fixpoint any_root (g : pydict (list string)) (ks : list string) (s : Trail) : bool :=
  match ks with
  | [] => false
  | k :: ks' =>
      if decide (k ∈ tr_visited s) then any_root g ks' s
      else let '(b, s') := has_cycle (S (length (graph_nodes g))) g k s in if b : bool then true else any_root g ks' s'
  end.

Definition cyclic (g : pydict (list string)) : bool := any_root g (dkeys g) (mkTrail ∅ ∅).

(** [_check_cycles] *)
Definition check_cycles (p : PlanningResult) : ValidationReport -> ValidationReport :=
  checking (if cyclic (pl_graph p) then Some (Msg "Dependency graph contains a cycle" []) else None).

(** [_check_orphans] *)
Definition check_orphans (p : PlanningResult) (r : ValidationReport) : ValidationReport :=
  if (length (pl_tasks p) <=? 1)%nat then counted r
  else
    warned
      (map (fun t => Msg "Orphan task '{}' — no dependencies and not depended on" [tb_title t])
         (List.filter (fun t => bool_decide (default [] (dget (pl_graph p) (tb_id t)) = []) &&
                                negb (bool_decide (tb_id t ∈ concat (dvalues (pl_graph p))))) (pl_tasks p)))
      (counted r).

(** [_check_estimates] *)
Definition check_estimates (p : PlanningResult) : ValidationReport -> ValidationReport :=
  checking
    (first_some (fun t => if dmem (pl_estimates p) (tb_id t) then None
                          else Some (Msg "Missing complexity estimate for '{}'" [tb_title t])) (pl_tasks p)).

(** [_check_recommendations] *)
Definition check_recommendations (p : PlanningResult) : ValidationReport -> ValidationReport :=
  checking
    (first_some (fun t => if dmem (pl_runtimes p) (tb_id t) then None
                          else Some (Msg "Missing runtime recommendation for '{}'" [tb_title t])) (pl_tasks p)).

(** [validate] *)
Definition validate (p : PlanningResult) : ValidationReport :=
  let r := check_recommendations p (check_estimates p (check_orphans p (check_cycles p
             (check_resources p (check_dependencies p (check_completeness p (mkValidation true [] [] [] 0 0 0))))))) in
  let valid := bool_decide (vr_failed r = 0%nat) in
  mkValidation valid (vr_issues r) (vr_warnings r)
    (if valid then vr_suggestions r else vr_suggestions r ++ [Msg "Review and fix validation issues before starting the mission" []])
    (vr_total r) (vr_total r - vr_failed r) (vr_failed r).
