(* ===== verification/PlanFacts.v ===== *)
(** * What the parts of the planner promise

    Theorems on [PlanAnalysis] and [TaskDecomposer]: the search of cycles, the
    groups that may run together, the bounds of an estimate and the paths that a
    task may declare. *)
From stdpp Require Import base gmap strings list sets sorting pretty relations.
From Stdlib Require Import ZArith QArith Qround Qminmax Ascii Lia Lqa.
From S2P Require Import Prelude.
From S2P Require Import Kahn.
From S2P Require Import GraphExecutor.
From S2P Require Import PlannerModels.
From S2P Require Import TaskDecomposer.
From S2P Require Import PlanAnalysis.
#[local] Open Scope Z_scope.

(** ** The graph as edges, from a dependency to the task *)

Definition graph_edges (g : pydict (list string)) : edges := flat_map (fun p => map (fun d => (d, p.1)) p.2) g.

Lemma elem_graph_edges g d t : dict_wf g -> (d, t) ∈ graph_edges g <-> d ∈ default [] (dget g t).
Proof.
  intros Hwf. unfold graph_edges. rewrite list_elem_of_In, in_flat_map. split.
  - intros ([k l] & Hk%list_elem_of_In & (x & [= -> ->] & Hx)%in_map_iff). cbn in Hx |- *.
    rewrite (dget_elem _ _ _ Hwf Hk). by apply list_elem_of_In.
  - destruct (dget g t) as [l|] eqn:E; cbn; [|by intros ?%not_elem_of_nil]. intros Hd. exists (t, l).
    split; [by apply list_elem_of_In, dget_Some_elem|]. apply in_map_iff. exists d. split; [done|]. by apply list_elem_of_In.
Qed.

Lemma edge_nodes g d t : (d, t) ∈ graph_edges g -> d ∈ graph_nodes g /\ t ∈ dkeys g.
Proof.
  unfold graph_edges, graph_nodes, dkeys. rewrite list_elem_of_In, in_flat_map.
  intros ([k l] & Hk & (x & [= -> ->] & Hx)%in_map_iff). split.
  - apply list_elem_of_In, in_flat_map. exists (t, l). split; [done|]. by right.
  - apply list_elem_of_In, in_map_iff. by exists (t, l).
Qed.

Lemma dict_keys_nodes g k : k ∈ dkeys g -> k ∈ graph_nodes g.
Proof.
  unfold dkeys, graph_nodes. intros ([x l] & -> & Hx%list_elem_of_In)%list_elem_of_fmap. apply list_elem_of_In, in_flat_map.
  exists (x, l). split; [done|]. by left.
Qed.

Lemma tc_last_step {A} (R : relation A) x z : tc R x z -> exists y, rtc R x y /\ R y z.
Proof. induction 1 as [x y Hxy|x y z Hxy _ (u & Hu & Hz)]; [by exists x|]. exists u. split; [by eapply rtc_l|done]. Qed.

Lemma acc_acyclic {A} (R : relation A) x : Acc R x -> ~ tc R x x.
Proof.
  induction 1 as [x _ IH]. intros Hx. pose proof Hx as (y & Hxy & Hyx)%tc_last_step.
  apply (IH y Hyx). apply rtc_tc in Hxy as [->|Hxy]; [by apply tc_once|by eapply tc_l].
Qed.

Lemma list_to_set_size (l : list string) : (size (list_to_set l : gset string) <= length l)%nat.
Proof.
  unfold size, set_size. cbn. apply NoDup_subset_length; [apply NoDup_elements|]. intros x. by rewrite elem_of_elements, elem_of_list_to_set.
Qed.

(** ** The search of cycles *)

Section search.
Context (g : pydict (list string)) (Hwf : dict_wf g).
Abbreviation E := (graph_edges g).
Abbreviation R := (edge_rel E).
Abbreviation U := (list_to_set (graph_nodes g) : gset string).

(** What is visited and left rests on no cycle. *)
Record searched (s : Trail) : Prop := Searched {
  sd_sub : tr_stack s ⊆ tr_visited s;
  sd_done : forall x, x ∈ tr_visited s -> x ∉ tr_stack s -> Acc R x
}.

Definition searching (s : Trail) (Q : Trail -> Prop) (r : bool * Trail) : Prop :=
  r.1 = false /\ searched r.2 /\ tr_visited s ⊆ tr_visited r.2 /\ tr_stack r.2 = tr_stack s /\ Q r.2 \/
  r.1 = true /\ exists x, tc R x x.

Definition searches (go : string -> Trail -> bool * Trail) (bound : nat) : Prop :=
  forall n s, n ∈ graph_nodes g -> searched s -> n ∉ tr_visited s -> (forall k, k ∈ tr_stack s -> rtc R n k) ->
    (size (U ∖ tr_visited s) <= bound)%nat -> searching s (fun s' => n ∈ tr_visited s') (go n s).

Lemma search_neighbors go bound c l s :
  searches go bound -> (forall y, y ∈ l -> (y, c) ∈ E) -> searched s -> (forall k, k ∈ tr_stack s -> rtc R c k) ->
  (size (U ∖ tr_visited s) <= bound)%nat ->
  searching s (fun s' => forall y, y ∈ l -> y ∈ tr_visited s' /\ y ∉ tr_stack s') (any_neighbor go l s).
Proof.
  intros Hgo. revert s. induction l as [|y l IH]; intros s Hl Hs Hk Hb; cbn [any_neighbor].
  { left. split_and!; [done..|]. intros y Hy. by apply elem_of_nil in Hy. }
  assert (Hyc : (y, c) ∈ E) by (apply Hl; set_solver).
  assert (Hnext : forall s1, searched s1 -> tr_visited s ⊆ tr_visited s1 -> tr_stack s1 = tr_stack s ->
    y ∈ tr_visited s1 -> y ∉ tr_stack s1 ->
    searching s (fun s' => forall y', y' ∈ y :: l -> y' ∈ tr_visited s' /\ y' ∉ tr_stack s') (any_neighbor go l s1)).
  { intros s1 Hs1 Hv1 Hst1 Hy1 Hn1. destruct (IH s1) as [(Hf & Hs2 & Hv2 & Hst2 & Hall)|Hc]; [set_solver|done|by rewrite Hst1| | |by right].
    { etrans; [|exact Hb]. apply subseteq_size. set_solver. }
    left. split_and!; [done|done|set_solver|congruence|]. intros y' [->|Hy']%elem_of_cons; [|by apply Hall].
    split; [set_solver|]. by rewrite Hst2. }
  case_decide as Hv; [case_decide as Hst|].
  - right. split; [done|]. exists y. eapply tc_rtc_r; [by apply tc_once|]. by apply Hk.
  - by apply Hnext.
  - pose proof (Hgo y s (proj1 (edge_nodes _ _ _ Hyc)) Hs Hv) as Hy. destruct (go y s) as [b s1].
    destruct Hy as [(Hf & Hs1 & Hv1 & Hst1 & Hy)|(Ht & Hc)]; [|done| |].
    + intros k Hk'. eapply rtc_l; [exact Hyc|]. by apply Hk.
    + cbn in Hf, Hs1, Hv1, Hst1, Hy. subst b. apply Hnext; [done..|]. rewrite Hst1. intros Hin. apply Hv. by apply (sd_sub _ Hs).
    + cbn in Ht. subst b. by right.
Qed.

Lemma search_node fuel : searches (has_cycle (S fuel) g) fuel.
Proof.
  induction fuel as [|fuel IH]; intros n s Hn Hs Hv Hk Hb.
  { exfalso. assert (He : U ∖ tr_visited s ≢ ∅) by set_solver. apply He, size_empty_inv. lia. }
  set (f := S fuel) in *. cbn [has_cycle].
  assert (Hn' : n ∉ tr_stack s) by (intros Hin; apply Hv; by apply (sd_sub _ Hs)).
  destruct (search_neighbors (has_cycle f g) fuel n (default [] (dget g n)) (enter n s) IH) as [(Hf & Hs1 & Hv1 & Hst1 & Hall)|(Ht & Hc)].
  - intros y Hy. by apply elem_graph_edges.
  - split; cbn; [pose proof (sd_sub _ Hs); set_solver|]. intros x Hx Hns. apply (sd_done _ Hs); set_solver.
  - cbn. intros k [->%elem_of_singleton|Hk']%elem_of_union; [done|by apply Hk].
  - cbn. assert (Hlt : (size (U ∖ ({[n]} ∪ tr_visited s)) < size (U ∖ tr_visited s))%nat); [|lia].
    apply subset_size. split; [set_solver|]. intros Hsub. assert (n ∈ U ∖ tr_visited s) by set_solver. set_solver.
  - left. destruct (any_neighbor _ _ _) as [b s1]. cbn in Hf, Hs1, Hv1, Hst1, Hall |- *. subst b. cbn.
    split_and!; [done| |set_solver|rewrite Hst1; set_solver|set_solver]. split; cbn.
    + pose proof (sd_sub _ Hs1). set_solver.
    + intros x Hx Hns. destruct (decide (x = n)) as [->|Hne]; [|apply (sd_done _ Hs1); set_solver].
      constructor. intros y Hy. apply elem_graph_edges in Hy; [|done]. apply (sd_done _ Hs1); by apply Hall.
  - right. destruct (any_neighbor _ _ _) as [b s1]. cbn in Ht. by subst b.
Qed.

Lemma search_roots ks s :
  (forall k, k ∈ ks -> k ∈ graph_nodes g) -> searched s -> tr_stack s = ∅ ->
  any_root g ks s = false /\ (forall k, k ∈ ks -> Acc R k) \/ any_root g ks s = true /\ exists x, tc R x x.
Proof.
  revert s. induction ks as [|k ks IH]; intros s Hks Hs Hst; cbn [any_root].
  { left. split; [done|]. intros k Hk. by apply elem_of_nil in Hk. }
  assert (Hnext : forall s1, searched s1 -> tr_stack s1 = ∅ -> k ∈ tr_visited s1 ->
    any_root g ks s1 = false /\ (forall k', k' ∈ k :: ks -> Acc R k') \/ any_root g ks s1 = true /\ exists x, tc R x x).
  { intros s1 Hs1 Hst1 Hk1. destruct (IH s1) as [[Hf Hall]|Hc]; [set_solver|done|done| |by right]. left. split; [done|].
    intros k' [->|Hk']%elem_of_cons; [|by apply Hall]. apply (sd_done _ Hs1); [done|]. rewrite Hst1. set_solver. }
  case_decide as Hv; [by apply Hnext|].
  pose proof (search_node (length (graph_nodes g)) k s (Hks k ltac:(set_solver)) Hs Hv) as Hk.
  destruct (has_cycle _ g k s) as [b s1]. destruct Hk as [(Hf & Hs1 & _ & Hst1 & Hk)|(Ht & Hc)].
  - rewrite Hst. set_solver.
  - etrans; [|apply list_to_set_size]. apply subseteq_size. set_solver.
  - cbn in Hf. subst b. apply Hnext; [done| |done]. cbn in Hst1. by rewrite Hst1.
  - cbn in Ht. subst b. by right.
Qed.

(** The check says exactly whether there is a cycle. *)
Lemma cyclic_spec : cyclic g = false <-> acyclic E.
Proof.
  destruct (search_roots (dkeys g) (mkTrail ∅ ∅) (dict_keys_nodes g)) as [[Hf Hall]|(Ht & x & Hx)]; [by split; set_solver|done|..].
  - split; [|done]. intros _ x Hx. assert (Hk : x ∈ dkeys g).
    { pose proof Hx as (y & _ & Hyx)%tc_last_step. by apply edge_nodes in Hyx as [_ ?]. }
    exact (acc_acyclic _ _ (Hall x Hk) Hx).
  - unfold cyclic. rewrite Ht. split; [done|]. intros Hac. by destruct (Hac x).
Qed.
End search.

(** ** The groups *)

Lemma elem_sorted (X : gset string) x : x ∈ sorted_texts X <-> x ∈ X.
Proof. unfold sorted_texts. rewrite merge_sort_Permutation. apply elem_of_elements. Qed.

Lemma sorted_perm (X : gset string) : sorted_texts X ≡ₚ elements X.
Proof. apply merge_sort_Permutation. Qed.

Section groups.
Context (g : pydict (list string)) (Hwf : dict_wf g) (ids : gset string).
Abbreviation E := (graph_edges g).
Hypothesis Hclosed : forall d t, (d, t) ∈ E -> t ∈ ids -> d ∈ ids.
Hypothesis Hac : acyclic E.

Lemma released_edges completed t : released g completed t <-> forall d, (d, t) ∈ E -> d ∈ completed.
Proof.
  unfold released. rewrite Forall_forall. by split; intros H d Hd; apply H, elem_graph_edges.
Qed.

(** What is between two turns of the loop. *)
Record grouping (remaining completed : gset string) (groups : list (list string)) : Prop := Grouping {
  gr_split : remaining ∪ completed = ids /\ remaining ## completed;
  gr_perm : concat groups ≡ₚ elements completed;
  gr_layers : layered E groups;
  gr_next : groups = [] \/ exists l, last groups = Some l /\
    forall n, n ∈ remaining -> exists s, (s, n) ∈ E /\ (s ∈ completed -> s ∈ l)
}.

Lemma some_ready remaining completed groups :
  grouping remaining completed groups -> remaining <> ∅ -> filter (released g completed) remaining <> ∅.
Proof.
  intros [[Hu Hd] _ _ _] Hne Hr. apply Hne, leibniz_equiv. intros n. split; [|set_solver]. intros Hn. exfalso.
  assert (Hall : forall m, m ∈ graph_nodes g -> m ∉ remaining).
  { apply (acyclic_ind (graph_nodes g) E); [intros s t He; by destruct (edge_nodes _ _ _ He) as [? ?%dict_keys_nodes]|done|].
    intros m _ IH Hm. assert (Hin : m ∈ filter (released g completed) remaining); [|rewrite Hr in Hin; set_solver].
    apply elem_of_filter. split; [|done]. apply released_edges. intros d He.
    assert (d ∈ ids) by (apply (Hclosed d m He); set_solver). assert (d ∉ remaining); [|set_solver].
    by apply IH. }
  destruct (decide (n ∈ graph_nodes g)) as [Hg|Hg]; [by apply (Hall n)|].
  assert (Hin : n ∈ filter (released g completed) remaining); [|rewrite Hr in Hin; set_solver].
  apply elem_of_filter. split; [|done]. apply released_edges. intros d He. destruct Hg. apply edge_nodes in He as [_ ?]. by apply dict_keys_nodes.
Qed.

Lemma grouping_step remaining completed groups :
  let ready := filter (released g completed) remaining in
  grouping remaining completed groups -> ready <> ∅ ->
  grouping (remaining ∖ ready) (completed ∪ ready) (groups ++ [sorted_texts ready]).
Proof.
  intros ready [[Hu Hd] Hp Hl Hn] Hne. assert (Hsub : ready ⊆ remaining) by (intros n [_ ?]%elem_of_filter; done).
  split.
  - split; [|set_solver]. rewrite <- Hu. apply leibniz_equiv. intros n. destruct (decide (n ∈ ready)); set_solver.
  - rewrite concat_app. cbn. rewrite app_nil_r, Hp, sorted_perm. symmetry. apply elements_disj_union. set_solver.
  - apply layered_snoc; [done| | | |].
    + intros Hnil. apply Hne, leibniz_equiv. intros n. rewrite <- elem_sorted, Hnil. set_solver.
    + apply StronglySorted_merge_sort; [apply _..].
    + intros n s Hn' He. apply elem_sorted, elem_of_filter in Hn' as [Hrel _].
      rewrite Hp. apply elem_of_elements. rewrite released_edges in Hrel. by apply Hrel.
    + intros n Hn'. apply elem_sorted in Hn'. destruct Hn as [->|(l & Hlast & Hn)]; [by left|]. right. exists l.
      destruct (Hn n ltac:(set_solver)) as (s & He & Hs). exists s. split; [done|]. split; [|done]. apply Hs.
      apply elem_of_filter in Hn' as [Hrel _]. rewrite released_edges in Hrel. by apply Hrel.
  - right. exists (sorted_texts ready). split; [apply last_snoc|]. intros n Hn'.
    assert (Hnr : ~ released g completed n) by (intros Hrel; apply elem_of_difference in Hn' as [? []]; by apply elem_of_filter).
    unfold released in Hnr. apply not_Forall_Exists in Hnr; [|apply _]. apply Exists_exists in Hnr as (s & Hs & Hnot).
    exists s. split; [by apply elem_graph_edges|]. intros Hin. apply elem_sorted. set_solver.
Qed.

Lemma parallel_loop_spec fuel remaining completed groups :
  grouping remaining completed groups -> (size remaining < fuel)%nat ->
  grouping ∅ ids (parallel_loop fuel g remaining completed groups).
Proof.
  revert remaining completed groups. induction fuel as [|fuel IH]; intros remaining completed groups Hg Hlt; [lia|]. cbn [parallel_loop].
  case_decide as He.
  - assert (completed = ids) as <-; [|by rewrite <- He]. destruct (gr_split _ _ _ Hg). set_solver.
  - pose proof (some_ready _ _ _ Hg He) as Hr. rewrite decide_False by done. apply IH; [by apply grouping_step|].
    assert (Hs : (size (remaining ∖ filter (released g completed) remaining) < size remaining)%nat); [|lia].
    apply subset_size. split; [set_solver|]. intros Hsub. apply Hr, leibniz_equiv. intros n. split; [|set_solver].
    intros Hn. pose proof Hn as [_ Hin]%elem_of_filter. apply Hsub in Hin. set_solver.
Qed.
End groups.

Lemma groups_spec ts g :
  dict_wf g -> acyclic (graph_edges g) -> (forall d t, (d, t) ∈ graph_edges g -> t ∈ map tb_id ts -> d ∈ map tb_id ts) ->
  NoDup (map tb_id ts) ->
  concat (compute_parallel_groups ts g) ≡ₚ map tb_id ts /\ layered (graph_edges g) (compute_parallel_groups ts g).
Proof.
  intros Hwf Hac Hcl Hnd.
  destruct (parallel_loop_spec g Hwf (task_ids ts) (fun d t He Ht => proj2 (elem_of_list_to_set _ _)
    (Hcl d t He (proj1 (elem_of_list_to_set _ _) Ht))) Hac (S (length ts)) (task_ids ts) ∅ []) as [_ Hp Hl _].
  - split; [split; set_solver| | |by left].
    + by rewrite elements_empty.
    + split; intros k; by rewrite lookup_nil.
  - apply Nat.lt_succ_r. unfold task_ids. etrans; [apply list_to_set_size|]. by rewrite length_map.
  - split; [|done]. unfold compute_parallel_groups. rewrite Hp. unfold task_ids. by apply elements_list_to_set.
Qed.

(** ** The estimates *)

(** A factor that is folded stays at or above where it starts. *)
Lemma mult_bounds text : (1 <= complexity_mult text <= 2)%Q.
Proof.
  assert (Hgen : forall l m, Forall (fun p : string * Q => (p.2 <= 2)%Q) l -> (1 <= m <= 2)%Q ->
    (1 <= fold_left (fun m p => if contains p.1 text then Qmax m p.2 else m) l m <= 2)%Q).
  { induction l as [|[k f] l IH]; intros m Hl Hm; cbn [fold_left fst snd]; [done|]. apply Forall_cons in Hl as [Hf Hl]. apply IH; [done|].
    destruct (contains k text); [|done]. cbn in Hf. destruct (Q.max_spec m f) as [[? ->]|[? ->]]; lra. }
  apply Hgen; [|lra]. unfold COMPLEXITY_KEYWORDS. repeat constructor; vm_compute; discriminate.
Qed.

Lemma total_bounds t : (1 <= total_mult t)%Q.
Proof.
  unfold total_mult. pose proof (mult_bounds (task_text t)) as [H1 _]. set (m := complexity_mult _) in *.
  assert (H2 : (0 <= inject_Z (Z.of_nat (length (tb_skills t))))%Q) by (change 0%Q with (inject_Z 0); rewrite <- Zle_Qle; lia).
  set (n := inject_Z _) in *. nra.
Qed.

Lemma score_range t : (4 <= complexity_score t <= 10)%Q.
Proof.
  unfold complexity_score. pose proof (total_bounds t) as H. destruct (Q.min_spec 10 (total_mult t * 4)) as [[? ->]|[? ->]]; lra.
Qed.

Lemma Qle_bool_false (x y : Q) : (y < x)%Q -> Qle_bool x y = false.
Proof. intros H. apply not_true_iff_false. rewrite Qle_bool_iff. by apply Qlt_not_le. Qed.

Lemma level_spec score : (4 <= score)%Q -> complexity_level score ∈ ["medium"; "high"; "critical"].
Proof.
  intros H. unfold complexity_level. rewrite (Qle_bool_false score) by lra. destruct (Qle_bool score 5); [set_solver|].
  destruct (Qle_bool score _); set_solver.
Qed.

Lemma priority_spec risk score : (4 <= score)%Q -> suggest_priority risk score ∈ ["normal"; "high"; "critical"].
Proof.
  intros H. unfold suggest_priority. rewrite (proj2 (Qle_bool_iff 4 score)) by done. rewrite orb_true_r.
  do 2 (match goal with |- (if ?b then _ else _) ∈ _ => destruct b; [set_solver|] end). set_solver.
Qed.

Lemma half_even_bounds (q : Q) (n : Z) : (q <= inject_Z n)%Q -> round_half_even q <= n.
Proof.
  intros Hq. unfold round_half_even. pose proof (Qfloor_le q) as Hf. set (f := Qfloor q) in *.
  assert (Hfn : f <= n) by (rewrite Zle_Qle; lra).
  assert (Hs : forall x, ((q - inject_Z f)%Q ?= x)%Q <> Lt -> (0 < x)%Q -> f + 1 <= n).
  { intros x Hx Hpos. apply Qnot_lt_le in Hx. assert (Hlt : (inject_Z f < inject_Z n)%Q) by lra. rewrite <- Zlt_Qlt in Hlt. lia. }
  specialize (Hs (1 # 2)%Q). destruct ((q - inject_Z f)%Q ?= 1 # 2)%Q.
  - destruct (Z.even f); [done|]. by apply Hs.
  - done.
  - by apply Hs.
Qed.

Lemma tenths_le (q : Q) (n : Z) : (q * 10 <= inject_Z n)%Q -> (tenths q <= inject_Z n / 10)%Q.
Proof.
  intros H%half_even_bounds. unfold tenths. apply Qmult_le_compat_r; [by rewrite <- Zle_Qle|]. vm_compute. discriminate.
Qed.

Lemma vram_bounds t : (ce_vram (estimate t) <= 6)%Q.
Proof.
  cbn [estimate ce_vram]. apply (Qle_trans _ (inject_Z 60 / 10)); [apply tenths_le|vm_compute; discriminate].
  pose proof (mult_bounds (task_text t)) as Hm. set (m := complexity_mult _) in *. change (inject_Z 60) with 60%Q.
  destruct (tb_category t); cbn [CATEGORY_BASE ba_vram]; lra.
Qed.

(** ** The paths that a task declares *)

(** A path that is declared: relative, inside, and short. *)
Definition clean_path (c : string) : Prop :=
  c <> "" /\ (String.length c <= 200)%nat /\ (".." ∉ split_parts "" c) /\ contains ":" c = false.

Lemma contains_tail sub a s : contains sub (String a s) = false -> contains sub s = false.
Proof. cbn [contains]. by intros [_ ?]%orb_false_iff. Qed.

Lemma drop_dots_spec s :
  (String.length (drop_dots s) <= String.length s)%nat /\
  (".." ∉ split_parts "" s -> ".." ∉ split_parts "" (drop_dots s)) /\
  (contains ":" s = false -> contains ":" (drop_dots s) = false).
Proof.
  remember (String.length s) as n eqn:Hn. assert (Hle : (String.length s <= n)%nat) by lia. rewrite Hn. clear Hn. revert s Hle.
  induction n as [|n IH]; intros s Hle.
  { destruct s; [done|cbn in Hle; lia]. }
  destruct s as [|a s]; [done|]. destruct s as [|b s].
  { replace (drop_dots (String a "")) with (String a ""); [by split_and!|]. by destruct a as [[] [] [] [] [] [] [] []]. }
  destruct (decide (a = "."%char)) as [->|Ha]; [destruct (decide (b = "/"%char)) as [->|Hb]|].
  - cbn [drop_dots]. destruct (IH s) as (Hl & Hp & Hc); [cbn in Hle; lia|]. split; [cbn; lia|]. split.
    + intros H. apply Hp. intros Hin. apply H. cbn [split_parts]. rewrite decide_False, decide_True by done. by right.
    + intros H. apply Hc. by do 2 apply contains_tail in H.
  - replace (drop_dots _) with (String "." (String b s)); [by split_and!|]. destruct b as [[] [] [] [] [] [] [] []]; first [reflexivity|by destruct Hb].
  - replace (drop_dots _) with (String a (String b s)); [by split_and!|]. destruct a as [[] [] [] [] [] [] [] []]; first [reflexivity|by destruct Ha].
Qed.

Lemma chemin_propre_spec s c : chemin_propre s = Some c -> clean_path c.
Proof.
  unfold chemin_propre. set (x := replace_char _ _ _). clearbody x. cbv zeta.
  destruct (bool_decide (x = "") || (200 <? String.length x)%nat) eqn:E1; [done|].
  destruct (String.prefix "/" x || bool_decide (".." ∈ split_parts "" x) || contains ":" x) eqn:E2; [done|].
  destruct (decide (drop_dots x = "")) as [|Hne]; [done|]. intros [= <-].
  apply orb_false_iff in E1 as [_ Hlen%Nat.ltb_ge]. apply orb_false_iff in E2 as [[_ Hdots%bool_decide_eq_false]%orb_false_iff Hcol].
  destruct (drop_dots_spec x) as (Hl & Hp & Hc). split_and!; [done|lia|by apply Hp|by apply Hc].
Qed.

Lemma livrables_spec v : Forall clean_path (livrables v) /\ NoDup (livrables v) /\ (length (livrables v) <= MAX_LIVRABLES)%nat.
Proof.
  unfold livrables. destruct v as [| | | | |l|]; try (by split_and!; [constructor|constructor|cbn; lia]).
  match goal with |- context [fold_left ?f l []] => assert (Hgen : forall l acc, Forall clean_path acc -> NoDup acc ->
    Forall clean_path (fold_left f l acc) /\ NoDup (fold_left f l acc)) end.
  { clear l. induction l as [|v l IH]; intros acc Hc Hd; [done|]. cbn [fold_left]. apply IH.
    - destruct v; [done..| |done|done]. destruct (chemin_propre s) eqn:E; [|done]. case_decide; [done|].
      apply Forall_app. split; [done|]. constructor; [by eapply chemin_propre_spec|done].
    - destruct v; [done..| |done|done]. destruct (chemin_propre s); [|done]. case_decide; [done|].
      apply NoDup_app. split; [done|]. split; [set_solver|apply NoDup_singleton]. }
  destruct (Hgen l []) as [H1 H2]; [constructor..|]. split_and!.
  - by apply Forall_take.
  - rewrite <- (take_drop MAX_LIVRABLES (fold_left _ l [])) in H2. by apply NoDup_app in H2 as [? _].
  - rewrite length_take. lia.
Qed.

(** ** The validation *)

Lemma first_some_None {A B} (f : A -> option B) l : first_some f l = None <-> Forall (fun x => f x = None) l.
Proof.
  unfold first_some. induction l as [|x l IH]; [by split|]. cbn. destruct (f x) as [b|] eqn:E; cbn.
  - split; [done|]. intros [Hx _]%Forall_cons. congruence.
  - rewrite IH, Forall_cons. naive_solver.
Qed.

Lemma checking_failed o r : vr_failed (checking o r) = (match o with Some _ => 1 | None => 0 end + vr_failed r)%nat.
Proof. by destruct o. Qed.

(** A plan that the checks find nothing against. *)
Record coherent (p : PlanningResult) : Prop := Coherent {
  co_stages : forall s, s ∈ REQUIRED_STAGES -> s ∈ pl_stages p;
  co_known : forall k deps, (k, deps) ∈ pl_graph p -> k ∈ map tb_id (pl_tasks p) /\ forall d, d ∈ deps -> d ∈ map tb_id (pl_tasks p);
  co_acyclic : acyclic (graph_edges (pl_graph p));
  co_estimated : forall t, t ∈ pl_tasks p -> tb_id t ∈ dkeys (pl_estimates p);
  co_recommended : forall t, t ∈ pl_tasks p -> tb_id t ∈ dkeys (pl_runtimes p)
}.

Lemma stages_checked p r : vr_failed (check_completeness p r) = vr_failed r <-> forall s, s ∈ REQUIRED_STAGES -> s ∈ pl_stages p.
Proof.
  unfold check_completeness. destruct (List.filter _ REQUIRED_STAGES) as [|s l] eqn:E; rewrite checking_failed.
  - split; [|done]. intros _ s Hs. destruct (decide (s ∈ pl_stages p)); [done|].
    assert (Hin : In s (List.filter (fun s => negb (bool_decide (s ∈ pl_stages p))) REQUIRED_STAGES)); [|by rewrite E in Hin].
    apply filter_In. split; [by apply list_elem_of_In|]. by rewrite bool_decide_eq_false_2.
  - split; [lia|]. intros Hall. assert (Hin : In s (s :: l)) by (by left). rewrite <- E in Hin.
    apply filter_In in Hin as [Hs%list_elem_of_In Hn]. by rewrite (bool_decide_eq_true_2 _ (Hall s Hs)) in Hn.
Qed.

Lemma known_checked p r : vr_failed (check_dependencies p r) = vr_failed r <->
  forall k deps, (k, deps) ∈ pl_graph p -> k ∈ map tb_id (pl_tasks p) /\ forall d, d ∈ deps -> d ∈ map tb_id (pl_tasks p).
Proof.
  unfold check_dependencies. rewrite checking_failed.
  match goal with |- (match ?o with _ => _ end + _)%nat = _ <-> _ => transitivity (o = None); [destruct o; split; intros; (lia || done)|] end.
  rewrite first_some_None, Forall_forall. split; intros H.
  - intros k deps Hk. pose proof (H (k, deps) Hk) as Hx. cbn in Hx. case_decide as Hin; [|done]. split; [done|].
    rewrite first_some_None, Forall_forall in Hx. intros d Hd. specialize (Hx d Hd). by case_decide.
  - intros [k deps] Hk. destruct (H k deps Hk) as [Hin Hall]. cbn. rewrite decide_True by done.
    apply first_some_None, Forall_forall. intros d Hd. by rewrite decide_True by (by apply Hall).
Qed.

Lemma present_checked {V} (d : pydict V) (ts : list TaskBreakdown) (m : TaskBreakdown -> message) :
  first_some (fun t => if dmem d (tb_id t) then None else Some (m t)) ts = None <-> forall t, t ∈ ts -> tb_id t ∈ dkeys d.
Proof.
  rewrite first_some_None, Forall_forall. split; intros H t Ht; specialize (H t Ht).
  - apply dmem_true. by destruct (dmem d (tb_id t)).
  - apply dmem_true in H. by rewrite H.
Qed.

Lemma validate_spec p : dict_wf (pl_graph p) -> vr_valid (validate p) = true <-> coherent p.
Proof.
  intros Hwf. unfold validate. cbn [vr_valid]. rewrite bool_decide_eq_true.
  unfold check_recommendations, check_estimates. rewrite !checking_failed.
  assert (Ho : forall r, vr_failed (check_orphans p r) = vr_failed r) by (intros r; unfold check_orphans; by case_match).
  rewrite Ho. unfold check_cycles. rewrite checking_failed. change (vr_failed (check_resources p ?r)) with (vr_failed r).
  pose proof (known_checked p (check_completeness p (mkValidation true [] [] [] 0 0 0))) as Hk.
  pose proof (stages_checked p (mkValidation true [] [] [] 0 0 0)) as Hs. cbn [vr_failed] in Hs.
  assert (Hmono : (vr_failed (check_completeness p (mkValidation true [] [] [] 0 0 0)) <=
    vr_failed (check_dependencies p (check_completeness p (mkValidation true [] [] [] 0 0 0))))%nat)
    by (unfold check_dependencies; rewrite checking_failed; lia).
  pose proof (cyclic_spec _ Hwf) as Hc.
  pose proof (present_checked (pl_estimates p) (pl_tasks p) (fun t => Msg "Missing complexity estimate for '{}'" [tb_title t])) as He.
  pose proof (present_checked (pl_runtimes p) (pl_tasks p) (fun t => Msg "Missing runtime recommendation for '{}'" [tb_title t])) as Hr.
  split.
  - intros H. split.
    + apply Hs. lia.
    + apply Hk. lia.
    + apply Hc. destruct (cyclic _); [lia|done].
    + apply He. destruct (first_some _ _); [|done]. destruct (first_some _ _) in H; lia.
    + apply Hr. destruct (first_some (fun t => if dmem (pl_runtimes p) _ then _ else _) _); [lia|done].
  - intros [H1%Hs H2%Hk ->%Hc ->%He ->%Hr]. lia.
Qed.

(** A plan is not valid while a stage is missing, whatever its graph. *)
Lemma validate_stages p : vr_valid (validate p) = true -> forall s, s ∈ REQUIRED_STAGES -> s ∈ pl_stages p.
Proof.
  unfold validate. cbn [vr_valid]. rewrite bool_decide_eq_true. unfold check_recommendations, check_estimates. rewrite !checking_failed.
  assert (Ho : forall r, vr_failed (check_orphans p r) = vr_failed r) by (intros r; unfold check_orphans; by case_match).
  rewrite Ho. unfold check_cycles. rewrite checking_failed. change (vr_failed (check_resources p ?r)) with (vr_failed r).
  unfold check_dependencies. rewrite checking_failed. intros H.
  apply (stages_checked p (mkValidation true [] [] [] 0 0 0)). cbn [vr_failed]. lia.
Qed.

(** ** The properties *)

(** C20: The validation of a plan is exact: it succeeds when and only when the
    five stages are recorded, the graph speaks of the tasks of the plan only, it
    has no cycle, and each task has its estimate and its recommendation.  The
    recursive search with its two sets finds a cycle if and only if there is one. *)
Theorem validate_exact p :
  dict_wf (pl_graph p) ->
  (vr_valid (validate p) = true <-> coherent p) /\ (cyclic (pl_graph p) = true <-> exists x, tc (edge_rel (graph_edges (pl_graph p))) x x).
Proof.
  intros Hwf. split; [by apply validate_spec|]. pose proof (cyclic_spec _ Hwf) as Hc. split.
  - intros Ht. destruct (search_roots _ Hwf (dkeys (pl_graph p)) (mkTrail ∅ ∅) (dict_keys_nodes _)) as [[Hf _]|[_ Hx]]; [by split; set_solver|done| |done].
    unfold cyclic in Ht. congruence.
  - intros [x Hx]. destruct (cyclic _); [done|]. by destruct (proj1 Hc eq_refl x).
Qed.

(** The bounds of an estimate: its score is from 4 to 10 before it is
    rounded, so that its level is never low and its priority never background;
    it never asks for more than 6 gigabytes of the card, so that no model is
    ever recommended for being smaller. *)
Theorem estimate_bounds w t :
  (4 <= complexity_score t <= 10)%Q /\ ce_level (estimate t) ∈ ["medium"; "high"; "critical"] /\
  ce_priority (estimate t) ∈ ["normal"; "high"; "critical"] /\ (ce_vram (estimate t) <= 6)%Q /\
  rc_alternatives (recommend w t (estimate t)) =
    take 3 (List.filter (fun a => negb (bool_decide (a = rc_model (recommend w t (estimate t))))) (drop 1 (tier_of w (ce_level (estimate t))))).
Proof.
  split; [apply score_range|]. split; [apply level_spec, score_range|]. split; [apply priority_spec, score_range|]. split; [apply vram_bounds|].
  unfold recommend. cbn [rc_alternatives rc_model].
  replace (Qle_bool (ce_vram (estimate t)) 8) with true; [done|]. symmetry. apply Qle_bool_iff.
  apply (Qle_trans _ 6); [apply vram_bounds|]. by vm_compute.
Qed.

(** The paths that a task declares, whatever the model answered: at most
    eight, none twice, none empty, none longer than 200 characters, none with a
    part ".." and none with a colon. *)
Theorem livrables_exact v :
  (length (livrables v) <= 8)%nat /\ NoDup (livrables v) /\
  forall c, c ∈ livrables v -> c <> "" /\ (String.length c <= 200)%nat /\ (".." ∉ split_parts "" c) /\ contains ":" c = false.
Proof.
  destruct (livrables_spec v) as (H1 & H2 & H3). split; [exact H3|]. split; [done|]. intros c Hc. eapply Forall_forall in H1; [exact H1|done].
Qed.

(** They may be absolute: the test is made before the prefix is removed. *)
Example livrables_absolute : livrables (PList [PStr "/etc/passwd"; PStr ".//etc/passwd"]) = ["/etc/passwd"].
Proof. reflexivity. Qed.

(** A boolean of the answer is an index. *)
Example demo_index : index_below 2 (PBool true) = Some 1%nat.
Proof. reflexivity. Qed.

Definition demo_mind (local : option (string -> res string)) (loads : string -> res pyval) : Minds :=
  mkMinds (fun n => "i" +:+ pretty n) (fun _ => "") loads local None [("medium", ["m1"; "m2"])] Z.of_nat (Some (demo_env [])).

Lemma validate_exact_witness :
  dict_wf [("a", ["b"]); ("b", ["a"])] /\
  (vr_valid (validate (set_graph [("a", ["b"]); ("b", ["a"])] [] (new_planning "r" "q"))) = true <->
     coherent (set_graph [("a", ["b"]); ("b", ["a"])] [] (new_planning "r" "q"))).
Proof.
  assert (H : dict_wf [("a", ["b"]); ("b", ["a"])]) by (apply (bool_decide_unpack _); vm_compute; exact I).
  split; [exact H|]. exact (proj1 (validate_exact (set_graph [("a", ["b"]); ("b", ["a"])] [] (new_planning "r" "q")) H)).
Defined.
