(* ===== verification/MissionPlanner.v ===== *)
(** * The mission planner
    ([backend/mission/planner/mission_planner.py], [template_library.py] and
    [routes.py])

    The templates, the five stages of a plan, the mission that is built of its
    result, and the handlers of the routes.  The results are shared with the
    callers: what [build_mission] writes on a result is seen by those who ask for
    it again. *)
From stdpp Require Import base gmap strings list sets sorting pretty.
From Stdlib Require Import ZArith QArith Ascii Lia.
From S2P Require Import Prelude.
From S2P Require Import MissionGraph.
From S2P Require Import RetryPolicy.
From S2P Require Import GraphExecutor.
From S2P Require Import MissionDocuments.
From S2P Require Import ExecutionStates.
From S2P Require Import PlannerModels.
From S2P Require Import TaskDecomposer.
From S2P Require Import PlanAnalysis.
#[local] Open Scope Z_scope.

(** ** Templates *)

Record MissionTemplate := mkTemplate {
  tp_id : string;
  tp_name : string;
  tp_description : string;
  tp_category : string;
  tp_tasks : list TaskBreakdown;
  tp_tags : list string
}.

Section library.
Variable w : Minds.

(** A template whose tasks are those of a list, in their order. *)
Definition template (id name description category : string) (tags : list string) (tasks : pattern) : M nat (string * MissionTemplate) :=
  ts <- pattern_tasks w tasks [] ;;
  ret (id, mkTemplate id name description category ts tags).

(** [_add_web_app_template] *)
Definition add_web_app_template : M nat (string * MissionTemplate) :=
  template "web_app" "Full-Stack Web Application"
    "Complete web application with frontend, backend, database, auth, and deployment" "development" ["web"; "fullstack"; "react"; "api"]
    [("Requirements analysis", "Define features, user stories, and technical constraints", TaskCategory.ANALYSIS);
     ("Architecture design", "Design system architecture, data model, and API contract", TaskCategory.DESIGN);
     ("Database schema", "Create database schema, migrations, and seed data", TaskCategory.IMPLEMENTATION);
     ("Backend API", "Implement REST/GraphQL API with validation", TaskCategory.IMPLEMENTATION);
     ("Authentication", "Implement authentication and authorization", TaskCategory.SECURITY);
     ("Frontend UI", "Implement UI components, routing, and state management", TaskCategory.IMPLEMENTATION);
     ("Integration tests", "Write integration tests for API and UI", TaskCategory.TESTING);
     ("Documentation", "API docs, README, deployment guide", TaskCategory.DOCUMENTATION);
     ("Deployment setup", "CI/CD pipeline and deployment configuration", TaskCategory.DEPLOYMENT);
     ("Final review", "Code review, security audit, performance check", TaskCategory.REVIEW)].

(** [_add_api_service_template] *)
Definition add_api_service_template : M nat (string * MissionTemplate) :=
  template "api_service" "REST API Service"
    "Standalone REST API service with database and documentation" "development" ["api"; "backend"; "rest"]
    [("Analyze API requirements", "Define endpoints, data flow, and constraints", TaskCategory.ANALYSIS);
     ("Design API contract", "OpenAPI spec, data models, error handling", TaskCategory.DESIGN);
     ("Implement data layer", "Database models, migrations, repositories", TaskCategory.IMPLEMENTATION);
     ("Implement API routes", "Controllers, middleware, validation", TaskCategory.IMPLEMENTATION);
     ("Implement auth", "API keys, JWT, or OAuth authentication", TaskCategory.SECURITY);
     ("Write API tests", "Unit and integration tests for all endpoints", TaskCategory.TESTING);
     ("Write API documentation", "OpenAPI docs, usage examples", TaskCategory.DOCUMENTATION);
     ("Deploy and monitor", "Deployment, monitoring, and alerting", TaskCategory.DEPLOYMENT)].

(** [_add_cli_tool_template] *)
Definition add_cli_tool_template : M nat (string * MissionTemplate) :=
  template "cli_tool" "CLI Tool"
    "Command-line tool with argument parsing, config, and tests" "development" ["cli"; "tool"; "python"]
    [("Define CLI interface", "Commands, flags, arguments specification", TaskCategory.DESIGN);
     ("Implement core logic", "Main functionality and business logic", TaskCategory.IMPLEMENTATION);
     ("Add argument parsing", "CLI argument parsing and validation", TaskCategory.IMPLEMENTATION);
     ("Add configuration", "Config file parsing and env var support", TaskCategory.IMPLEMENTATION);
     ("Write tests", "Unit, integration, and CLI tests", TaskCategory.TESTING);
     ("Write documentation", "Usage docs, man page, examples", TaskCategory.DOCUMENTATION);
     ("Package and distribute", "Packaging, PyPI/brew, CI release", TaskCategory.DEPLOYMENT)].

(** [_add_data_pipeline_template] *)
Definition add_data_pipeline_template : M nat (string * MissionTemplate) :=
  template "data_pipeline" "Data Pipeline"
    "ETL/ELT data pipeline with ingestion, transformation, and storage" "development" ["data"; "etl"; "pipeline"]
    [("Analyze data sources", "Data sources, formats, volume, frequency", TaskCategory.ANALYSIS);
     ("Design pipeline architecture", "ETL flow, storage, error handling", TaskCategory.DESIGN);
     ("Implement data ingestion", "Connectors, batching, streaming", TaskCategory.IMPLEMENTATION);
     ("Implement transformations", "Cleaning, enrichment, aggregation", TaskCategory.IMPLEMENTATION);
     ("Implement storage layer", "Database, data warehouse, or lake", TaskCategory.IMPLEMENTATION);
     ("Test pipeline", "Data quality tests, performance tests", TaskCategory.TESTING);
     ("Document pipeline", "Data lineage, runbook, schema docs", TaskCategory.DOCUMENTATION);
     ("Deploy and schedule", "Orchestration, monitoring, alerts", TaskCategory.DEPLOYMENT)].

(** [_add_microservice_template] *)
Definition add_microservice_template : M nat (string * MissionTemplate) :=
  template "microservice" "Microservice"
    "Single microservice with gRPC/REST, health checks, and Docker" "development" ["microservice"; "docker"; "grpc"]
    [("Define service boundary", "API contract, data ownership, dependencies", TaskCategory.ANALYSIS);
     ("Design service architecture", "Internal architecture, patterns, tech stack", TaskCategory.DESIGN);
     ("Implement service core", "Business logic, data access, gRPC/REST", TaskCategory.IMPLEMENTATION);
     ("Add health and metrics", "Health checks, metrics, logging, tracing", TaskCategory.IMPLEMENTATION);
     ("Add Docker support", "Dockerfile, docker-compose, .dockerignore", TaskCategory.DEPLOYMENT);
     ("Write tests", "Unit, contract, and integration tests", TaskCategory.TESTING);
     ("Write runbook", "Operations guide, troubleshooting", TaskCategory.DOCUMENTATION)].

(** [_add_refactoring_template] *)
Definition add_refactoring_template : M nat (string * MissionTemplate) :=
  template "refactoring" "Code Refactoring"
    "Systematic code refactoring with analysis, migration, and validation" "development" ["refactoring"; "cleanup"; "migration"]
    [("Analyze codebase", "Identify anti-patterns, tech debt, complexity hotspots", TaskCategory.ANALYSIS);
     ("Design target architecture", "Target patterns, naming conventions, structure", TaskCategory.DESIGN);
     ("Refactor core modules", "Extract, rename, restructure core logic", TaskCategory.OPTIMIZATION);
     ("Update tests", "Update tests for new structure, add missing coverage", TaskCategory.TESTING);
     ("Update documentation", "Update architecture docs, API references", TaskCategory.DOCUMENTATION);
     ("Validate and review", "Regression tests, performance comparison, code review", TaskCategory.REVIEW)].

(** [_register_defaults] *)
Definition register_defaults : M nat (pydict MissionTemplate) :=
  t0 <- add_web_app_template ;;
  t1 <- add_api_service_template ;;
  t2 <- add_cli_tool_template ;;
  t3 <- add_data_pipeline_template ;;
  t4 <- add_microservice_template ;;
  t5 <- add_refactoring_template ;;
  ret [t0; t1; t2; t3; t4; t5].

(** [register] *)
Definition register_template (t : MissionTemplate) (l : pydict MissionTemplate) : pydict MissionTemplate := dset l (tp_id t) t.

(** [search] *)
Definition search_templates (query : string) (l : pydict MissionTemplate) : list MissionTemplate :=
  let q := lower query in
  List.filter (fun t => contains q (lower (tp_name t)) || contains q (lower (tp_description t)) ||
                        existsb (fun tag => contains q (lower tag)) (tp_tags t)) (dvalues l).
End library.

(** ** The planner *)

(** [_results] holds the registered results; [mp_draws] counts the identifiers
    that are drawn. *)
Record Planner := mkPlanner {
  mp_draws : nat;
  mp_templates : pydict MissionTemplate;
  mp_results : pydict PlanningResult;
  mp_events : list (string * pydict pyval)
}.

Definition set_draws x p := mkPlanner x (mp_templates p) (mp_results p) (mp_events p).
Definition set_results x p := mkPlanner (mp_draws p) (mp_templates p) x (mp_events p).

Section planner.
Variable w : Minds.

Definition new_planner : Planner := let '(r, n) := register_defaults w 0%nat in mkPlanner n match r with Ok l => l | Err _ => [] end [] [].

(** What draws identifiers, in the state of the planner. *)
Definition drawing {A} (m : M nat A) : M Planner A := zoom mp_draws set_draws m.
Definition draw : M Planner string := drawing (uuid4 w).

(** [_emit] *)
Definition emit_plan (type : string) (data : pydict pyval) : M Planner unit := fun p =>
  (Ok tt, mkPlanner (mp_draws p) (mp_templates p) (mp_results p) (mp_events p ++ [(type, data)])).

Definition nat_val (n : nat) : pyval := PInt (Z.of_nat n).

(** A result that is registered. *)
Definition store_result (r : PlanningResult) : M Planner PlanningResult := fun p =>
  (Ok r, set_results (dset (mp_results p) (pl_id r) r) p).

(** [_compute_overall_risk] *)
Definition compute_overall_risk (estimates : pydict ComplexityEstimate) : RiskLevel.t :=
  fold_left (fun m e => if RiskLevel.rank m <? RiskLevel.rank (ce_risk e) then ce_risk e else m) (dvalues estimates) RiskLevel.LOW.

(** A stage begins. *)
Definition entering (s : PlanningStage.t) (r : PlanningResult) : PlanningResult := set_stages (pl_stages r ++ [s]) s r.

(** The parts of a result that each stage fills. *)
Definition with_dependencies (r : PlanningResult) : PlanningResult :=
  let '(g, groups) := build_dependencies (pl_tasks r) in set_graph g groups r.

Definition with_estimates (r : PlanningResult) : PlanningResult :=
  let es := estimate_all (pl_tasks r) in
  set_estimates es (fold_left (fun q e => q + ce_hours e)%Q (dvalues es) 0%Q) (compute_overall_risk es) r.

Definition with_runtimes (r : PlanningResult) : PlanningResult := set_runtimes (recommend_all w (pl_tasks r) (pl_estimates r)) r.

(** The end of a plan, from the report of its validation. *)
Definition plan_concluded (r : PlanningResult) : PlanningResult :=
  let v := validate r in
  if vr_valid v then entering PlanningStage.COMPLETED (set_validation (Some v) (pl_errors r) r)
  else set_stages (pl_stages r) PlanningStage.FAILED (set_validation (Some v) (vr_issues v) r).

(** The first stage: an exception of the decomposition is the error of the plan. *)
Definition decomposed (q : PlanningRequest) (r : PlanningResult) : M Planner (res PlanningResult) :=
  catch
    (x <- drawing (decompose_with_method w q) ;;
     emit_plan "planning.decomposing_completed" [("task_count", nat_val (length x.1)); ("method", PStr x.2)] ;;;
     ret (Ok (set_tasks x.1 x.2 r)))
    (fun _ => true) (fun e => ret (Err e)).

(** The stages after the decomposition. *)
Definition planned (r1 : PlanningResult) : M Planner PlanningResult :=
  let r2 := with_dependencies (entering PlanningStage.BUILDING_DEPENDENCIES r1) in
  emit_plan "planning.dependencies_built" [("nodes", nat_val (length (pl_tasks r2))); ("parallel_groups", nat_val (length (pl_groups r2)))] ;;;
  let r3 := with_estimates (entering PlanningStage.ESTIMATING_COMPLEXITY r2) in
  emit_plan "planning.complexity_estimated" [("total_hours", PFloat (pl_hours r3)); ("risk", PStr (RiskLevel.value (pl_risk r3)))] ;;;
  let r4 := with_runtimes (entering PlanningStage.RECOMMENDING_RUNTIME r3) in
  emit_plan "planning.runtimes_recommended" [("tasks", nat_val (length (pl_runtimes r4)))] ;;;
  let r5 := plan_concluded (entering PlanningStage.VALIDATING r4) in
  (if decide (pl_stage r5 = PlanningStage.COMPLETED) then emit_plan "planning.completed" [("task_count", nat_val (pl_nodes r5))]
   else emit_plan "planning.validation_failed" [("issues", PList (map (fun m => PStr (render m)) (pl_errors r5)))]) ;;;
  store_result r5.

(** [plan] *)
Definition plan (q : PlanningRequest) : M Planner PlanningResult :=
  id <- draw ;;
  let r0 := entering PlanningStage.DECOMPOSING (new_planning id (pq_id q)) in
  d <- decomposed q r0 ;;
  match d with
  | Err e =>
      let text := String.concat "" (map render (exn_msgs e)) in
      emit_plan "planning.failed" [("error", PStr text)] ;;;
      store_result (set_stages (pl_stages r0) PlanningStage.FAILED (set_validation None [Msg text []] r0))
  | Ok r1 => planned r1
  end.

(** [plan_from_template]: a stage is recorded once it is over. *)
Definition recorded (s : PlanningStage.t) (r : PlanningResult) : PlanningResult := set_stages (pl_stages r ++ [s]) (pl_stage r) r.

Definition plan_from_template (template_id : string) (q : PlanningRequest) : M Planner PlanningResult :=
  p <- get ;;
  id <- draw ;;
  match dget (mp_templates p) template_id with
  | None =>
      ret (set_stages [] PlanningStage.FAILED
             (set_validation None [Msg "Template '{}' not found" [template_id]] (new_planning id (pq_id q))))
  | Some t =>
      let r1 := recorded PlanningStage.BUILDING_DEPENDENCIES
                  (with_dependencies (set_tasks (tp_tasks t) ("template:" +:+ template_id) (new_planning id (pq_id q)))) in
      let r2 := recorded PlanningStage.ESTIMATING_COMPLEXITY (with_estimates r1) in
      let r3 := recorded PlanningStage.RECOMMENDING_RUNTIME (with_runtimes r2) in
      let v := validate r3 in
      let r4 := recorded PlanningStage.VALIDATING (set_validation (Some v) (pl_errors r3) r3) in
      store_result
        (if vr_valid v then entering PlanningStage.COMPLETED r4
         else set_stages (pl_stages r4) PlanningStage.FAILED (set_validation (Some v) (vr_issues v) r4))
  end.

(** ** The mission *)

(** [_result_priority] *)
Definition result_priority (r : PlanningResult) : MissionPriority.t :=
  match pl_risk r with
  | RiskLevel.CRITICAL => MissionPriority.CRITICAL
  | RiskLevel.HIGH => MissionPriority.HIGH
  | RiskLevel.MEDIUM => MissionPriority.NORMAL
  | RiskLevel.LOW => MissionPriority.BACKGROUND
  end.

(** [MissionPriority(value)] *)
Definition priority_of (s : string) : res MissionPriority.t :=
  match Enumeration.of_value Enumeration.Priority (PStr s) with
  | Some (Enumeration.OfPriority p) => Ok p
  | _ => Err (Exn ValueError [Msg "{!r} is not a valid MissionPriority" [s]])
  end.

(** The node of a task. *)
Definition node_of (r : PlanningResult) (t : TaskBreakdown) : res MissionNode :=
  let rec := dget (pl_runtimes r) (tb_id t) in
  let est := dget (pl_estimates r) (tb_id t) in
  priority <-? priority_of (match est with Some e => ce_priority e | None => "normal" end) ;;
  Ok (mkMNode (tb_id t) "" (tb_title t) (tb_description t) (TaskCategory.value (tb_category t)) priority NodeStatus.PENDING ""
        (match rec with Some c => rc_model c | None => "" end) (match rec with Some c => rc_profile c | None => "" end) (tb_skills t)
        [("vram_gb", match est with Some e => PFloat (ce_vram e) | None => PInt 0 end);
         ("ram_gb", match est with Some e => PFloat (ce_ram e) | None => PInt 0 end);
         ("tokens", match est with Some e => PInt (ce_tokens e) | None => PInt 0 end)]
        (match est with Some e => ce_hours e * 3600 * 1000 | None => 0 end)%Q
        (tb_depends t) (tb_criteria t) (tb_outputs t) None None 0 "").

(** The edges of the graph, in its order. *)
Fixpoint edges_of (pairs : list (string * string)) : M nat (list MissionEdge) :=
  match pairs with
  | [] => ret []
  | (task, dep) :: pairs' =>
      id <- uuid4 w ;;
      es <- edges_of pairs' ;;
      ret (mkMEdge id dep task "depends_on" :: es)
  end.

Definition dependency_pairs (g : pydict (list string)) : list (string * string) := flat_map (fun p => map (pair p.1) p.2) g.

(** The mission, once the executor has registered it. *)
Definition registered (m : Mission) (ns : list MissionNode) (es : list MissionEdge) : res Mission :=
  match md_graph w with
  | None => Ok m
  | Some env =>
      let '(issues, x) := GraphExecutor.build_mission env ns es (mkExec m 0 0 0 [] [] []) in
      issues <-? issues ;;
      Ok (match issues with
          | [] => gx_mission x
          | _ => with_metadata (dset (mi_metadata (gx_mission x)) "graph_issues" (PList (map (fun i => PStr (render i)) issues)))
                   (with_status MissionStatus.FAILED (gx_mission x))
          end)
  end.

(** [build_mission] *)
Definition build_planned (r : PlanningResult) (title objective : string) : M Planner Mission :=
  id <- draw ;;
  p <- get ;;
  let m := mkMission id (str_or title "Planned Mission") "" (str_or objective "Automatically planned mission") MissionType.DEVELOPMENT
             (result_priority r) MissionStatus.CREATED (mkMContext "" "" "" "" "" [] []) [] []
             [("decomposition_method", PStr (pl_method r))] BUDGET_MISSION_PAR_DEFAUT_S (md_now w (mp_draws p)) None None None in
  ns <- lift (res_map (node_of r) (pl_tasks r)) ;;
  es <- drawing (edges_of (dependency_pairs (pl_graph r))) ;;
  m' <- lift (registered m ns es) ;;
  (fun p => (Ok m', match dget (mp_results p) (pl_id r) with
                    | Some x => set_results (dset (mp_results p) (pl_id r) (set_built id x)) p
                    | None => p
                    end)).

(** ** What is asked of the planner *)

(** [get_result] *)
Definition get_result (id : string) (p : Planner) : option PlanningResult := dget (mp_results p) id.

(** [list_results]; each row: the result, its request, its mission, its stage,
    its nodes, its hours, its risk, and whether it is valid. *)
Record ResultRow := mkRow {
  rw_result : string; rw_request : string; rw_mission : string; rw_stage : string; rw_nodes : nat; rw_hours : Q; rw_risk : string; rw_valid : bool
}.

Definition valid_result (r : PlanningResult) : bool := match pl_validation r with Some v => vr_valid v | None => false end.

Definition list_results (p : Planner) : list ResultRow :=
  map (fun r => mkRow (pl_id r) (pl_request r) (pl_mission r) (PlanningStage.value (pl_stage r)) (pl_nodes r) (pl_hours r)
                  (RiskLevel.value (pl_risk r)) (valid_result r)) (dvalues (mp_results p)).

(** [list_templates]: the id, the name, the description, the number of tasks and
    the tags of each. *)
Definition list_templates (p : Planner) : list (string * string * string * nat * list string) :=
  map (fun t => (tp_id t, tp_name t, tp_description t, length (tp_tasks t), tp_tags t)) (dvalues (mp_templates p)).

(** The handler of [/results/{result_id}/build]: an error, or the mission. *)
Inductive Answer := NoResult | Invalid (issues : list message) | Built (m : Mission).

Definition build_route (result_id title objective : string) : M Planner Answer := fun p =>
  match get_result result_id p with
  | None => (Ok NoResult, p)
  | Some r => if valid_result r then (m <- build_planned r title objective ;; ret (Built m)) p else (Ok (Invalid (pl_errors r)), p)
  end.
End planner.
