(* ===== verification/PlannerRuns.v ===== *)
(** * What the planner promises

    The tasks of any decomposition, the plan that is made of them, the mission
    that is built of the plan, and the goals that are planned so. *)
From stdpp Require Import base gmap strings list sets sorting pretty.
From Stdlib Require Import ZArith QArith Qminmax Ascii Lia.
From S2P Require Import Prelude.
From S2P Require Import Kahn.
From S2P Require Import MissionGraph.
From S2P Require Import RetryPolicy.
From S2P Require Import GraphExecutor.
From S2P Require Import MissionDocuments.
From S2P Require Import PlannerModels.
From S2P Require Import TaskDecomposer.
From S2P Require Import PlanAnalysis.
From S2P Require Import PlanFacts.
From S2P Require Import MissionPlanner.
#[local] Open Scope Z_scope.

(** What the code relies on: [uuid4] does not repeat itself, and the reader of
    JSON raises nothing but [ValueError]. *)
Definition fresh_ids (w : Minds) : Prop := forall i j, md_uuid w i = md_uuid w j -> i = j.
Definition reads_json (w : Minds) : Prop := forall s e, md_loads w s = Err e -> exn_cls e = ValueError.

(** ** The tasks of a decomposition *)

Section tasks.
Variable w : Minds.
Hypothesis Hids : fresh_ids w.

(** Tasks in the order they were made, with the identifiers drawn before [n]:
    each depends on tasks made before it. *)
Record chained (n : nat) (ts : list TaskBreakdown) : Prop := Chained {
  ch_nodup : NoDup (map tb_id ts);
  ch_drawn : Forall (fun t => exists k, (k < n)%nat /\ tb_id t = md_uuid w k) ts;
  ch_order : forall i t, ts !! i = Some t -> tb_order t = i;
  ch_parallel : Forall (fun t => tb_parallel t = true) ts;
  ch_earlier : prefix_all (fun l t => forall d, d ∈ tb_depends t -> d ∈ map tb_id l) ts
}.

Lemma chained_nil n : chained n [].
Proof. split; [constructor|constructor|done|constructor|apply prefix_all_nil]. Qed.

Lemma chained_snoc n ts title description c deps outputs :
  chained n ts -> (forall d, d ∈ deps -> d ∈ map tb_id ts) ->
  chained (S n) (ts ++ [mkBreakdown (md_uuid w n) title description c deps [] [] outputs (length ts) true]).
Proof.
  intros [Hnd Hdr Ho Hp He] Hdeps. split.
  - rewrite map_app. apply NoDup_app. split; [done|]. split; [|apply NoDup_singleton].
    intros x (t & -> & Ht)%list_elem_of_fmap [= Hx]%list_elem_of_singleton. eapply Forall_forall in Hdr as (k & Hk & Hid); [|exact Ht].
    rewrite Hid in Hx. apply Hids in Hx. lia.
  - apply Forall_app. split.
    + eapply Forall_impl; [exact Hdr|]. intros t (k & Hk & Hid). exists k. split; [lia|done].
    + constructor; [|done]. exists n. split; [lia|done].
  - intros i t [[_ Hi]|[-> <-]]%lookup_snoc_Some; [by apply Ho|done].
  - apply Forall_app. split; [done|]. by constructor.
  - by apply prefix_all_snoc.
Qed.

(** The category does not matter. *)
Lemma chained_map n f ts :
  (forall t, tb_id (f t) = tb_id t /\ tb_order (f t) = tb_order t /\ tb_parallel (f t) = tb_parallel t /\ tb_depends (f t) = tb_depends t) ->
  chained n ts -> chained n (map f ts).
Proof.
  intros Hf [Hnd Hdr Ho Hp He]. assert (Hm : forall l, map tb_id (map f l) = map tb_id l).
  { intros l. rewrite map_map. apply map_ext. intros t. apply Hf. }
  split.
  - by rewrite Hm.
  - apply Forall_map. eapply Forall_impl; [exact Hdr|]. intros t. cbn. by destruct (Hf t) as (-> & _).
  - intros i t. rewrite list_lookup_fmap. destruct (ts !! i) as [x|] eqn:E; [|done]. intros [= <-]. destruct (Hf x) as (_ & -> & _). by apply Ho.
  - apply Forall_map. eapply Forall_impl; [exact Hp|]. intros t. cbn. by destruct (Hf t) as (_ & _ & -> & _).
  - intros l1 t l2 Heq. change (map f ts) with (f <$> ts) in Heq. apply fmap_app_inv in Heq as (k1 & k2' & -> & Hk & ->).
    symmetry in Hk. apply fmap_cons_inv in Hk as (x & k2 & -> & -> & ->). intros d. destruct (Hf x) as (_ & _ & _ & ->).
    change (f <$> k1) with (map f k1). rewrite Hm. by apply (He k1 x k2).
Qed.

Lemma wp_pattern_tasks p ts n :
  chained n ts -> wp (pattern_tasks w p ts) (fun ts' n' => chained n' ts' /\ length ts' = (length p + length ts)%nat) n.
Proof.
  revert ts n. induction p as [|[[title description] c] p IH]; intros ts n Hc; cbn [pattern_tasks]; [by apply wp_ret|].
  apply wp_bind. unfold new_task. apply wp_bind. unfold wp at 1. cbn [uuid4]. apply wp_ret.
  eapply wp_mono; [apply IH, chained_snoc; [done|set_solver]|]. cbn beta. intros ts' n' [H ->]. split; [done|].
  rewrite length_app. cbn. lia.
Qed.

Lemma index_below_lt n v i : index_below n v = Some i -> (i < n)%nat.
Proof.
  unfold index_below. destruct v; cbn; try done; case_decide; try done; intros [= <-]; lia.
Qed.

Lemma wp_llm_tasks items ts n :
  chained n ts -> wp (llm_tasks w items ts) (fun ts' n' => chained n' ts' /\ (length ts' <= length items + length ts)%nat) n.
Proof.
  revert ts n. induction items as [|v items IH]; intros ts n Hc; cbn [llm_tasks]; [by apply wp_ret|].
  assert (Hskip : wp (llm_tasks w items ts) (fun ts' n' => chained n' ts' /\ (length ts' <= length (v :: items) + length ts)%nat) n).
  { eapply wp_mono; [by apply IH|]. cbn. intros ts' n' [? ?]. split; [done|lia]. }
  destruct v as [| | | | |l|item]; try done. cbv zeta. case_decide; [done|].
  apply wp_bind. unfold new_task. apply wp_bind. unfold wp at 1. cbn [uuid4]. apply wp_ret.
  eapply wp_mono; [apply IH, chained_snoc; [done|]|].
  - intros d Hd. destruct (dget item "depends_on") as [[| | | | |deps|]|]; try by apply not_elem_of_nil in Hd.
    apply list_elem_of_omap in Hd as (v & _ & Hv). destruct (index_below (length ts) v) as [i|]; [|done]. cbn in Hv.
    destruct (ts !! i) as [t|] eqn:E; [|done]. cbn in Hv. injection Hv as <-. apply list_elem_of_fmap. exists t. split; [done|].
    by eapply list_elem_of_lookup_2.
  - cbn beta. intros ts' n' [? Hl]. split; [done|]. rewrite length_app in Hl. cbn in Hl |- *. lia.
Qed.

Lemma flat_map_filter_length {A B} (P : A -> bool) (f : A -> list B) l :
  (length (flat_map f (List.filter P l)) <= length (flat_map f l))%nat.
Proof.
  induction l as [|x l IH]; cbn [List.filter flat_map]; [done|]. destruct (P x); cbn [flat_map]; rewrite !length_app; lia.
Qed.

Lemma reclassify_same t :
  tb_id (reclassify t) = tb_id t /\ tb_order (reclassify t) = tb_order t /\ tb_parallel (reclassify t) = tb_parallel t /\
  tb_depends (reclassify t) = tb_depends t.
Proof. unfold reclassify. by case_decide. Qed.

Section answers.
Hypothesis Hjson : reads_json w.

Lemma wp_loads_list s n : wp (loads_list w s) (fun _ n' => n' = n) n.
Proof.
  unfold loads_list. destruct (md_loads w s) as [v|e] eqn:E; [by destruct v|]. by rewrite decide_True by (by eapply Hjson).
Qed.

Lemma wp_extract s n : wp (extract_json_array w s) (fun _ n' => n' = n) n.
Proof.
  unfold extract_json_array. case_decide; [done|]. cbv zeta. apply wp_bind. eapply wp_mono; [apply wp_loads_list|].
  intros [l|] n' ->; [done|]. destruct (bracketed s); [apply wp_loads_list|done].
Qed.

Lemma wp_decompose_llm q n :
  wp (decompose_with_llm w q) (fun ts n' => chained n' ts /\ (length ts <= MAX_LLM_TASKS)%nat) n.
Proof.
  assert (Hnone : wp (ret []) (fun ts n' => chained n' ts /\ (length ts <= MAX_LLM_TASKS)%nat) n).
  { apply wp_ret. split; [apply chained_nil|cbn; lia]. }
  unfold decompose_with_llm. destruct (md_local w) as [ask|]; [|done]. case_decide; [done|]. cbv zeta.
  match goal with |- wp (match ?x with _ => _ end) _ _ => destruct x as [content|] end; [|done].
  apply wp_bind. eapply wp_mono; [apply wp_extract|]. intros items n' ->.
  eapply wp_mono; [apply wp_llm_tasks, chained_nil|]. cbn beta. intros ts n1 [? Hl]. split; [done|].
  rewrite length_take in Hl. cbn [length] in Hl. lia.
Qed.

(** The tasks of a decomposition: a chain that ends with a task that depends on
    all the others. *)
Record sound_tasks (n : nat) (ts : list TaskBreakdown) : Prop := SoundTasks {
  st_chain : chained n ts;
  st_size : (length ts <= 27)%nat;
  st_last : exists pre final, ts = pre ++ [final] /\ pre <> [] /\ tb_depends final = map tb_id pre
}.

Lemma wp_decompose q n : wp (decompose_with_method w q) (fun x n' => sound_tasks n' x.1) n.
Proof.
  unfold decompose_with_method. apply wp_bind. eapply wp_mono; [apply wp_decompose_llm|]. intros ts n1 [Hc Hl].
  apply wp_bind. apply wp_mono with (P := fun x n' => chained n' x.1 /\ (length x.1 <= 26)%nat /\ x.1 <> []).
  - destruct ts as [|t ts].
    + destruct (patterns_in (request_text q)) as [|p ps] eqn:E; apply wp_bind; (eapply wp_mono; [apply wp_pattern_tasks, chained_nil|]);
        intros ts' n2 [H Hlen]; apply wp_ret; (split; [done|]); cbn [fst]; rewrite Nat.add_0_r in Hlen.
      * split; [cbn in Hlen; lia|]. by intros ->.
      * assert (Hle : (length (flat_map snd (patterns_in (request_text q))) <= 26)%nat)
          by exact (flat_map_filter_length (fun p => contains p.1 (request_text q)) snd TASK_PATTERNS).
        rewrite E, <- Hlen in Hle. split; [exact Hle|]. intros ->. assert (Hp : p ∈ TASK_PATTERNS).
        { apply list_elem_of_In. assert (Hin : In p (patterns_in (request_text q))) by (rewrite E; by left). by apply filter_In in Hin as [? _]. }
        cbn [flat_map] in Hlen. rewrite length_app in Hlen. assert (Hz : snd p = []) by (apply nil_length_inv; cbn [length] in Hlen; unfold pattern in *; lia).
        unfold TASK_PATTERNS in Hp. repeat (apply elem_of_cons in Hp as [->|Hp]; [discriminate|]). by apply elem_of_nil in Hp.
    + apply wp_ret. cbn [fst]. unfold MAX_LLM_TASKS in Hl. split_and!; [done|lia|done].
  - intros [bs m] n2 (Hc2 & Hl2 & Hne). cbn [fst snd] in *. apply wp_bind. unfold new_task. apply wp_bind. unfold wp at 1. cbn [uuid4]. apply wp_ret, wp_ret.
    cbn [fst]. split.
    + apply chained_map; [apply reclassify_same|]. by apply chained_snoc.
    + rewrite length_map, length_app. cbn. lia.
    + rewrite map_app. eexists _, _. split; [reflexivity|]. split; [by intros ?%map_eq_nil|].
      destruct (reclassify_same (mkBreakdown (md_uuid w n2) "Validation finale" "Final validation: ensure all criteria are met and outputs are correct"
        TaskCategory.REVIEW (map tb_id bs) [] [] [] (length bs) true)) as (_ & _ & _ & ->). cbn. rewrite map_map. apply map_ext. intros t. by destruct (reclassify_same t) as (-> & _).
Qed.
End answers.
End tasks.

(** ** The plan *)

Lemma by_task_map {V} (f : TaskBreakdown -> V) ts :
  NoDup (map tb_id ts) -> by_task f ts = map (fun t => (tb_id t, f t)) ts.
Proof.
  unfold by_task. induction ts as [|t ts IH] using rev_ind; [done|]. rewrite map_app. intros (Hnd & Hx & _)%NoDup_app.
  rewrite fold_left_app, (IH Hnd), map_app. cbn. apply dkeys_dset_new. unfold dkeys. rewrite map_map. cbn.
  intros Hin. apply (Hx (tb_id t) Hin). set_solver.
Qed.

Lemma dep_graph_of_parallel ts earlier g :
  Forall (fun t => tb_parallel t = true) ts -> NoDup (dkeys g ++ map tb_id ts) ->
  dep_graph_of earlier ts g = g ++ map (fun t => (tb_id t, tb_depends t)) ts.
Proof.
  revert earlier g. induction ts as [|t ts IH]; intros earlier g Hp Hnd; cbn [dep_graph_of map]; [by rewrite app_nil_r|].
  apply Forall_cons in Hp as [Ht Hp].
  assert (Hdeps : forall deps, fold_left (auto_dep t) earlier deps = deps).
  { induction earlier as [|e earlier IHe]; intros deps; [done|]. cbn [fold_left]. rewrite IHe. unfold auto_dep. rewrite Ht.
    cbn [negb]. rewrite andb_false_r, andb_true_r. destruct (_ <? _); [|done]. by destruct (negb _). }
  rewrite Hdeps, dkeys_dset_new.
  - rewrite IH; [by rewrite <- app_assoc|done|]. unfold dkeys. rewrite map_app. cbn. by rewrite <- app_assoc.
  - apply NoDup_app in Hnd as (_ & Hx & _). intros Hin. apply (Hx _ Hin). cbn. by left.
Qed.

Section planning.
Variable w : Minds.

Lemma in_order_perm ts : in_order ts ≡ₚ ts.
Proof. apply sort_by_perm. Qed.

(** The graph of a chain is what its tasks declare. *)
Definition declared (ts : list TaskBreakdown) : pydict (list string) := map (fun t => (tb_id t, tb_depends t)) (in_order ts).

Lemma elem_declared ts k deps : (k, deps) ∈ declared ts <-> exists t, t ∈ ts /\ tb_id t = k /\ tb_depends t = deps.
Proof.
  unfold declared. rewrite list_elem_of_fmap. split.
  - intros (t & [= -> ->] & Ht). exists t. by rewrite in_order_perm in Ht.
  - intros (t & Ht & <- & <-). exists t. by rewrite in_order_perm.
Qed.

Lemma declared_keys ts : dkeys (declared ts) = map tb_id (in_order ts).
Proof. unfold dkeys, declared. by rewrite map_map. Qed.

Lemma build_chained n ts : chained w n ts -> ts <> [] ->
  build_dependencies ts = (declared ts, compute_parallel_groups (in_order ts) (declared ts)).
Proof.
  intros [Hnd _ _ Hp _] Hne. unfold build_dependencies. destruct ts as [|t ts]; [done|].
  rewrite dep_graph_of_parallel; [done| |].
  - by rewrite in_order_perm.
  - cbn [dkeys map app]. by rewrite in_order_perm.
Qed.

(** The place of a task in its chain, by its identifier. *)
Fixpoint place (ts : list TaskBreakdown) (id : string) : nat :=
  match ts with
  | [] => 0
  | t :: ts' => if decide (tb_id t = id) then 0 else S (place ts' id)
  end.

Lemma place_split l t l2 : NoDup (map tb_id (l ++ t :: l2)) -> place (l ++ t :: l2) (tb_id t) = length l.
Proof.
  induction l as [|x l IH]; cbn; [by rewrite decide_True|]. intros [Hx Hnd]%NoDup_cons. rewrite decide_False; [by rewrite IH|].
  intros Heq. apply Hx. rewrite Heq. apply list_elem_of_fmap. exists t. split; [done|]. set_solver.
Qed.

Lemma place_lt ts id : id ∈ map tb_id ts -> (place ts id < length ts)%nat.
Proof.
  induction ts as [|t ts IH]; cbn; [by intros ?%not_elem_of_nil|]. case_decide; [lia|].
  intros [Heq|Hin]%elem_of_cons; [by destruct H|]. specialize (IH Hin). lia.
Qed.

Lemma place_earlier n ts d t :
  chained w n ts -> (d, t) ∈ graph_edges (declared ts) -> (place ts d < place ts t)%nat /\ d ∈ map tb_id ts /\ t ∈ map tb_id ts.
Proof.
  intros [Hnd _ _ _ He] Hin. assert (Hx : exists x, x ∈ ts /\ tb_id x = t /\ d ∈ tb_depends x).
  { unfold graph_edges in Hin. apply list_elem_of_In, in_flat_map in Hin as ([k deps] & Hk%list_elem_of_In & Hd).
    apply in_map_iff in Hd as (y & [= -> ->] & Hy%list_elem_of_In). cbn in Hy. apply elem_declared in Hk as (x & ? & ? & <-). by exists x. }
  destruct Hx as (x & Hx & <- & Hd). apply list_elem_of_split in Hx as (l1 & l2 & ->).
  pose proof (He l1 x l2 eq_refl d Hd) as (y & -> & Hy)%list_elem_of_fmap. split_and!.
  - rewrite (place_split _ _ _ Hnd). apply list_elem_of_split in Hy as (k1 & k2 & ->). rewrite <- app_assoc in *. cbn in *.
    rewrite place_split by done. rewrite length_app. cbn. lia.
  - apply list_elem_of_fmap. exists y. split; [done|]. set_solver.
  - apply list_elem_of_fmap. exists x. split; [done|]. set_solver.
Qed.

Lemma ranked_acyclic (rk : string -> nat) E : (forall s t, (s, t) ∈ E -> (rk s < rk t)%nat) -> acyclic E.
Proof.
  intros Hrk x Hx. assert (Hlt : forall a b, tc (edge_rel E) a b -> (rk a < rk b)%nat); [|specialize (Hlt x x Hx); lia].
  induction 1 as [a b Hab|a b c Hab _ IH]; [by apply Hrk|]. specialize (Hrk a b Hab). lia.
Qed.

Lemma declared_wf n ts : chained w n ts -> dict_wf (declared ts).
Proof. intros H. unfold dict_wf. rewrite declared_keys, in_order_perm. apply H. Qed.

(** A plan without fault: each part is what it should be of its tasks. *)
Record sound_plan (n : nat) (r : PlanningResult) : Prop := SoundPlan {
  sp_tasks : sound_tasks w n (pl_tasks r);
  sp_graph : pl_graph r = declared (pl_tasks r);
  sp_groups : concat (pl_groups r) ≡ₚ map tb_id (pl_tasks r) /\ layered (graph_edges (pl_graph r)) (pl_groups r);
  sp_estimates : pl_estimates r = map (fun t => (tb_id t, estimate t)) (pl_tasks r);
  sp_runtimes : pl_runtimes r = map (fun t => (tb_id t, recommend w t (estimate t))) (pl_tasks r);
  sp_stages : pl_stages r = REQUIRED_STAGES ++ [PlanningStage.COMPLETED] /\ pl_stage r = PlanningStage.COMPLETED;
  sp_valid : valid_result r = true /\ pl_errors r = []
}.

(** What the stages make of the tasks. *)
Definition staged (ts : list TaskBreakdown) (method : string) (r : PlanningResult) : PlanningResult :=
  plan_concluded (entering PlanningStage.VALIDATING (with_runtimes w (entering PlanningStage.RECOMMENDING_RUNTIME
    (with_estimates (entering PlanningStage.ESTIMATING_COMPLEXITY (with_dependencies (entering PlanningStage.BUILDING_DEPENDENCIES
      (set_tasks ts method r)))))))).

Lemma estimated_keys {V} (f : TaskBreakdown -> V) ts t : t ∈ ts -> tb_id t ∈ dkeys (map (fun t => (tb_id t, f t)) ts).
Proof. intros Ht. unfold dkeys. rewrite map_map. cbn. apply list_elem_of_fmap. by exists t. Qed.

Lemma recommend_all_map ts : NoDup (map tb_id ts) ->
  recommend_all w ts (map (fun t => (tb_id t, estimate t)) ts) = map (fun t => (tb_id t, recommend w t (estimate t))) ts.
Proof.
  intros Hnd. unfold recommend_all. rewrite by_task_map by done. apply list_fmap_ext. intros i t Ht. f_equal. f_equal.
  rewrite (dget_elem _ (tb_id t) (estimate t)); [done| |].
  - unfold dict_wf, dkeys. by rewrite map_map.
  - apply list_elem_of_fmap. exists t. split; [done|]. by eapply list_elem_of_lookup_2.
Qed.

Lemma staged_sound n ts method id req :
  sound_tasks w n ts -> let r := staged ts method (entering PlanningStage.DECOMPOSING (new_planning id req)) in
  sound_plan n r /\ pl_id r = id /\ pl_method r = method /\ pl_tasks r = ts.
Proof.
  intros Hts r. destruct Hts as [Hc Hsz Hlast]. pose proof (ch_nodup _ _ _ Hc) as Hnd.
  assert (Hne : ts <> []) by (destruct Hlast as (pre & f & -> & _); by destruct pre).
  pose proof (declared_wf _ _ Hc) as Hwf. pose proof (fun d t H => proj1 (place_earlier _ _ d t Hc H)) as Hrk.
  pose proof (ranked_acyclic (place ts) _ Hrk) as Hac.
  set (g := declared ts) in *. set (groups := compute_parallel_groups (in_order ts) g).
  set (es := map (fun t => (tb_id t, estimate t)) ts). set (rs := map (fun t => (tb_id t, recommend w t (estimate t))) ts).
  set (r0 := mkPlanning id req "" REQUIRED_STAGES PlanningStage.VALIDATING ts method g groups es rs None (length ts)
    (fold_left (fun q e => q + ce_hours e)%Q (dvalues es) 0%Q) (compute_overall_risk es) []).
  assert (Hr : r = plan_concluded r0).
  { unfold r, staged, with_dependencies. cbn [pl_tasks entering set_stages set_tasks]. rewrite (build_chained _ _ Hc Hne). fold g groups.
    unfold with_runtimes, with_estimates. cbn [pl_tasks pl_estimates entering set_stages set_tasks set_graph set_estimates].
    unfold estimate_all. rewrite by_task_map by done. fold es. unfold es at 1. rewrite recommend_all_map by done. fold rs. reflexivity. }
  assert (Hco : coherent r0).
  { split; cbn [pl_stages pl_graph pl_tasks pl_estimates pl_runtimes r0]; [done| |done|..].
    - intros k deps (t & Ht & <- & <-)%elem_declared. split; [apply list_elem_of_fmap; by exists t|]. intros d Hd.
      apply (place_earlier _ _ d (tb_id t) Hc). apply elem_graph_edges; [done|].
      rewrite (dget_elem _ (tb_id t) (tb_depends t)); [done|done|]. apply elem_declared. by exists t.
    - intros t. apply estimated_keys.
    - intros t. apply estimated_keys. }
  apply validate_spec in Hco; [|done]. rewrite Hr. unfold plan_concluded. rewrite Hco. split_and!; [|done..].
  split; cbn [pl_tasks pl_graph pl_groups pl_estimates pl_runtimes pl_stages pl_stage valid_result pl_validation pl_errors entering set_stages set_validation];
    [done|done| |done|done|done|by split].
  destruct (groups_spec (in_order ts) g Hwf Hac) as [Hp Hl].
  - intros d t He _. rewrite in_order_perm. apply (place_earlier _ _ d t Hc He).
  - by rewrite in_order_perm.
  - split; [|exact Hl]. change (concat groups ≡ₚ map tb_id ts). unfold groups. by rewrite Hp, in_order_perm.
Qed.

Lemma wp_emit {A} type data (k : M Planner A) Q p :
  wp k Q (mkPlanner (mp_draws p) (mp_templates p) (mp_results p) (mp_events p ++ [(type, data)])) -> wp (emit_plan type data ;;; k) Q p.
Proof. done. Qed.

(** The stages that follow: their result is registered, and draws nothing. *)
Lemma wp_planned ts method r0 p :
  wp (planned w (set_tasks ts method r0))
    (fun r p' => r = staged ts method r0 /\ mp_draws p' = mp_draws p /\ get_result (pl_id r) p' = Some r) p.
Proof.
  unfold planned. do 3 (cbv zeta; apply wp_emit). cbv zeta. unfold staged. set (r := plan_concluded _). clearbody r.
  case_decide; apply wp_emit; unfold wp, store_result; (split; [done|]); (split; [done|]); apply dget_dset_eq.
Qed.

Section answered.
Hypothesis Hids : fresh_ids w.
Hypothesis Hjson : reads_json w.

Lemma wp_decomposed q r0 p :
  wp (decomposed w q r0) (fun d p' => exists ts method, sound_tasks w (mp_draws p') ts /\ d = Ok (set_tasks ts method r0)) p.
Proof.
  pose proof (wp_decompose w Hids Hjson q (mp_draws p)) as Hd. unfold decomposed, wp, catch, bind, drawing, zoom. unfold wp in Hd.
  destruct (decompose_with_method w q (mp_draws p)) as [[[ts method]|e] n']; [|done]. by exists ts, method.
Qed.

Lemma wp_plan q p :
  wp (plan w q) (fun r p' => sound_plan (mp_draws p') r /\ get_result (pl_id r) p' = Some r /\ pl_id r = md_uuid w (mp_draws p)) p.
Proof.
  unfold plan. apply wp_bind. unfold draw, drawing, wp at 1, zoom, uuid4 at 1. set (p1 := set_draws _ p). cbv zeta.
  apply wp_bind. eapply wp_mono; [apply wp_decomposed|]. intros d p2 (ts & method & Hts & ->). eapply wp_mono; [apply wp_planned|].
  intros r p3 (-> & Hn & Hg).
  destruct (staged_sound (mp_draws p2) ts method (md_uuid w (mp_draws p)) (pq_id q) Hts) as (Hsp & Hid & _ & _). rewrite Hn. by split.
Qed.
End answered.

(** ** The mission of a plan *)

(** The mission has the tasks of the plan for nodes and its graph for edges. *)
Record planned_mission (r : PlanningResult) (m : Mission) : Prop := PlannedMission {
  pm_ids : node_ids m = map tb_id (pl_tasks r);
  pm_edges : epairs m = graph_edges (pl_graph r);
  pm_built : built m;
  pm_status : mi_status m = MissionStatus.READY;
  pm_pending : forall i n, mi_nodes m !! i = Some n -> mn_status n = NodeStatus.PENDING;
  pm_metadata : mi_metadata m = [("decomposition_method", PStr (pl_method r))]
}.

Lemma wp_edges_of pairs n :
  wp (edges_of w pairs) (fun es _ => map epair es = map (fun p => (p.2, p.1)) pairs) n.
Proof.
  revert n. induction pairs as [|[t d] pairs IH]; intros n; cbn [edges_of]; [by apply wp_ret|].
  apply wp_bind. unfold wp at 1. cbn [uuid4]. apply wp_bind. eapply wp_mono; [apply IH|]. intros es n' Heq. apply wp_ret. cbn. by rewrite Heq.
Qed.

Lemma pairs_edges g : map (fun p => (p.2, p.1)) (dependency_pairs g) = graph_edges g.
Proof.
  unfold dependency_pairs, graph_edges. induction g as [|[k l] g IH]; [done|]. cbn [flat_map]. rewrite map_app, IH. f_equal. by rewrite map_map.
Qed.

Lemma priority_of_estimate t : exists p, priority_of (ce_priority (estimate t)) = Ok p.
Proof.
  pose proof (priority_spec (risk_of (task_text t)).1 (complexity_score t) (proj1 (score_range t))) as H. cbn [estimate ce_priority].
  set (x := suggest_priority _ _) in *. clearbody x. repeat (apply elem_of_cons in H as [->|H]; [by eexists|]). by apply elem_of_nil in H.
Qed.

Lemma nodes_of_plan n r : sound_plan n r -> exists ns, res_map (node_of r) (pl_tasks r) = Ok ns /\ map mn_id ns = map tb_id (pl_tasks r) /\
  Forall (fun x => mn_status x = NodeStatus.PENDING) ns.
Proof.
  intros Hsp. assert (Hgen : forall ts, (forall t, t ∈ ts -> t ∈ pl_tasks r) -> exists ns, res_map (node_of r) ts = Ok ns /\
    map mn_id ns = map tb_id ts /\ Forall (fun x => mn_status x = NodeStatus.PENDING) ns).
  { induction ts as [|t ts IH]; intros Hts; [by exists []|]. destruct (IH ltac:(set_solver)) as (ns & Hns & Hid & Hp).
    assert (Hnode : exists x, node_of r t = Ok x /\ mn_id x = tb_id t /\ mn_status x = NodeStatus.PENDING).
    { destruct (priority_of_estimate t) as [p Hpr]. unfold node_of. rewrite (sp_estimates _ _ Hsp).
      rewrite (dget_elem _ (tb_id t) (estimate t)).
      - rewrite Hpr. eexists. split; [reflexivity|done].
      - unfold dict_wf, dkeys. rewrite map_map. apply (sp_tasks _ _ Hsp).
      - apply list_elem_of_fmap. exists t. split; [reflexivity|]. apply Hts. by left. }
    destruct Hnode as (x & Hx & Hxi & Hxs). exists (x :: ns). cbn [res_map]. rewrite Hx. cbn [res_bind]. rewrite Hns. cbn. split; [done|].
    split; [by rewrite Hxi, Hid|]. by constructor. }
  by apply Hgen.
Qed.

Lemma with_mission_ids id ns : map mn_id (map (with_mission_id id) ns) = map mn_id ns.
Proof. rewrite map_map. by apply map_ext. Qed.

Lemma plan_graph_good n r : sound_plan n r ->
  closed (map tb_id (pl_tasks r)) (graph_edges (pl_graph r)) /\ acyclic (graph_edges (pl_graph r)) /\ NoDup (map tb_id (pl_tasks r)).
Proof.
  intros Hsp. pose proof (st_chain _ _ _ (sp_tasks _ _ Hsp)) as Hc. rewrite (sp_graph _ _ Hsp). split_and!.
  - intros s t He. apply (place_earlier _ _ s t Hc He).
  - apply (ranked_acyclic (place (pl_tasks r))). intros s t He. apply (place_earlier _ _ s t Hc He).
  - apply Hc.
Qed.

Lemma wp_build_planned env n r title objective p :
  md_graph w = Some env -> sound_plan n r ->
  wp (build_planned w r title objective) (fun m p' => planned_mission r m /\ mi_id m = md_uuid w (mp_draws p) /\
    get_result (pl_id r) p' = (set_built (mi_id m) <$> get_result (pl_id r) p)) p.
Proof.
  intros Henv Hsp. destruct (plan_graph_good _ _ Hsp) as (Hcl & Hac & Hnd). destruct (nodes_of_plan _ _ Hsp) as (ns & Hns & Hid & Hpend).
  unfold build_planned. apply wp_bind. unfold draw, drawing at 1, wp at 1, zoom at 1, uuid4 at 1. set (p1 := set_draws _ p).
  apply wp_bind. unfold wp at 1, get. set (m := mkMission _ _ _ _ _ _ _ _ _ _ _ _ _ _ _ _). cbv zeta.
  apply wp_bind. unfold wp at 1, lift at 1. rewrite Hns. apply wp_bind. unfold drawing, wp at 1, zoom.
  pose proof (wp_edges_of (dependency_pairs (pl_graph r)) (mp_draws p1)) as He. unfold wp in He.
  destruct (edges_of w _ (mp_draws p1)) as [[es|e] n2]; [|done]. rewrite pairs_edges in He.
  set (m1 := graph_build (map (with_mission_id (mi_id m)) ns) es m).
  assert (Hids1 : node_ids m1 = map tb_id (pl_tasks r)).
  { unfold m1, node_ids, graph_build. cbn. rewrite !map_map. rewrite <- Hid. by apply map_ext. }
  assert (Hb : built m1).
  { assert (Hep : epairs m1 = graph_edges (pl_graph r)) by exact He.
    split; [by rewrite Hids1|by rewrite Hids1, Hep|by rewrite Hep|]. apply graph_build_depends. }
  apply wp_bind. unfold registered. rewrite Henv.
  pose proof (wp_build_valid env ns es (mkExec m 0 0 0 [] [] []) Hb) as Hv. unfold wp in Hv.
  destruct (GraphExecutor.build_mission env ns es (mkExec m 0 0 0 [] [] [])) as [[issues|e] x]; [|done]. destruct Hv as (-> & _ & Hx).
  cbn [res_bind]. unfold wp at 1, lift. unfold wp. rewrite Hx. fold m1. split; [|split; [done|]].
  - split; [exact Hids1|exact He|by apply (built_same m1)|done| |done].
    intros i y. cbn. rewrite !lookup_map. destruct (ns !! i) as [z|] eqn:Ez; [|done]. intros [= <-].
    eapply Forall_lookup_1 in Hpend; [|exact Ez]. exact Hpend.
  - unfold get_result. destruct (dget (mp_results p) (pl_id r)) as [y|] eqn:Ey.
    + cbn. rewrite Ey. cbn. by rewrite dget_dset_eq.
    + cbn. rewrite Ey. cbn. by rewrite Ey.
Qed.

(** ** The properties *)

Section asked.
Hypothesis Hids : fresh_ids w.
Hypothesis Hjson : reads_json w.

(** C12: planning.  Whatever the request and whatever the models answer, [plan]
    answers a plan without fault: its tasks each depend on earlier ones and the
    last one on all the others; its graph is what they declare; its groups are
    the levels of the graph; each task has its estimate and its recommendation;
    the stages are all passed, the validation succeeds and the result is
    registered. *)
Theorem plan_sound q p :
  exists r p', plan w q p = (Ok r, p') /\ sound_plan (mp_draws p') r /\ get_result (pl_id r) p' = Some r.
Proof. destruct (wp_ok _ _ _ (wp_plan Hids Hjson q p)) as (r & p' & Hrun & Hs & Hg & _). by exists r, p'. Qed.

(** C17: The mission of a plan.  When the executor is wired, the result of a plan
    that is built over the route answers a READY mission, whose nodes are the
    tasks of the plan, whose edges are its dependencies, acyclic, and all of
    whose nodes are pending; the result now names it. *)
Theorem plan_builds env q p title objective :
  md_graph w = Some env ->
  exists r p1 m p2, plan w q p = (Ok r, p1) /\ build_route w (pl_id r) title objective p1 = (Ok (Built m), p2) /\
    planned_mission r m /\ get_result (pl_id r) p2 = Some (set_built (mi_id m) r).
Proof.
  intros Henv. destruct (wp_ok _ _ _ (wp_plan Hids Hjson q p)) as (r & p1 & Hrun & Hs & Hg & _).
  destruct (wp_ok _ _ _ (wp_build_planned env _ r title objective p1 Henv Hs)) as (m & p2 & Hb & Hm & _ & Hg2).
  exists r, p1, m, p2. split; [done|]. split; [|split; [done|]].
  - unfold build_route. rewrite Hg. destruct (sp_valid _ _ Hs) as [-> _]. unfold bind. by rewrite Hb.
  - rewrite Hg in Hg2. exact Hg2.
Qed.
End asked.
End planning.

(** C29: templates.  A plan made from a template is never valid: it is validated
    before the stages of decomposition and validation are recorded, so that no
    mission can be built of it over the route, whatever the template. *)
Theorem template_refused w id q p :
  match dget (mp_templates p) id with
  | Some t => exists r p', plan_from_template w id q p = (Ok r, p') /\ pl_tasks r = tp_tasks t /\ pl_stage r = PlanningStage.FAILED /\
      forall title objective, build_route w (pl_id r) title objective p' = (Ok (Invalid (pl_errors r)), p')
  | None => exists r p', plan_from_template w id q p = (Ok r, p') /\ pl_stage r = PlanningStage.FAILED /\ mp_results p' = mp_results p
  end.
Proof.
  unfold plan_from_template, bind, get, draw, drawing, zoom, uuid4. destruct (dget (mp_templates p) id) as [t|]; [|by eexists _, _].
  cbv zeta. set (r3 := recorded PlanningStage.RECOMMENDING_RUNTIME _).
  assert (Hst : pl_stages r3 = [PlanningStage.BUILDING_DEPENDENCIES; PlanningStage.ESTIMATING_COMPLEXITY; PlanningStage.RECOMMENDING_RUNTIME] /\
    pl_tasks r3 = tp_tasks t).
  { unfold r3, recorded, with_runtimes, with_estimates, with_dependencies. cbn [pl_tasks set_tasks new_planning].
    by destruct (build_dependencies (tp_tasks t)) as [g groups]. }
  destruct Hst as [Hst Hts]. clearbody r3. destruct (vr_valid (validate r3)) eqn:Ev.
  { pose proof (validate_stages r3 Ev PlanningStage.DECOMPOSING) as Hd. rewrite Hst in Hd. exfalso.
    assert (Hin : PlanningStage.DECOMPOSING ∈ REQUIRED_STAGES) by const_elem. specialize (Hd Hin). const_absurd Hd. }
  unfold store_result. eexists _, _. split; [reflexivity|]. split; [exact Hts|]. split; [done|]. intros title objective.
  unfold build_route, get_result. cbn [mp_results set_results]. rewrite dget_dset_eq. unfold valid_result.
  cbn [pl_validation set_stages set_validation]. by rewrite Ev.
Qed.

(** ** Concrete plans *)

(** A model that answers a section with two tasks, and one that is not wired. *)
Definition demo_answer : pyval :=
  PList [PDict [("title", PStr "Read the code"); ("category", PStr "analysis")];
         PStr "noise";
         PDict [("title", PStr "Build the importer"); ("description", PStr "complex migration"); ("category", PStr "Implementation");
                ("depends_on", PList [PBool false; PInt 7]); ("outputs", PList [PStr "./importer.py"; PStr "../up.py"])]].

Definition demo_loads (s : string) : res pyval := if decide (s = "[tasks]") then Ok demo_answer else Err (Exn ValueError []).
Definition demo_planner_mind : Minds := demo_mind (Some (fun _ => Ok "Here: [tasks] done")) demo_loads.
Definition demo_bare_mind : Minds := demo_mind None demo_loads.

Definition demo_request (text : string) : PlanningRequest := mkRequest "q" text "" [] "" "" "" "" [].

Lemma demo_fresh local loads : fresh_ids (demo_mind local loads).
Proof. intros i j Heq. cbn in Heq. injection Heq as Heq. exact (inj pretty i j Heq). Qed.

Lemma demo_reads local : reads_json (demo_mind local demo_loads).
Proof. intros s e. cbn. unfold demo_loads. case_decide; [done|]. by intros [= <-]. Qed.

Definition plan_view (w : Minds) (text : string) : string * list (string * string * list string) * list (list string) :=
  match (plan w (demo_request text) (new_planner w)).1 with
  | Ok r => (pl_method r, map (fun t => (tb_id t, tb_title t, tb_depends t)) (pl_tasks r), pl_groups r)
  | Err _ => ("", [], [])
  end.

(** The identifiers up to [i45] are those of the tasks of the templates; [i46] is
    that of the result. *)
Example demo_llm_plan : plan_view demo_planner_mind "Import the data" =
  ("llm", [("i47", "Read the code", []); ("i48", "Build the importer", ["i47"]); ("i49", "Validation finale", ["i47"; "i48"])],
   [["i47"]; ["i48"]; ["i49"]]).
Proof. vm_compute. reflexivity. Qed.

(** Without a model, the tasks of a pattern all start together. *)
Example demo_pattern_plan : plan_view demo_bare_mind "A frontend" =
  ("pattern:frontend",
   [("i47", "Analyze UI requirements", []); ("i48", "Design UI/UX", []); ("i49", "Implement UI components", []);
    ("i50", "Write frontend tests", []); ("i51", "Document UI", []); ("i52", "Validation finale", ["i47"; "i48"; "i49"; "i50"; "i51"])],
   [["i47"; "i48"; "i49"; "i50"; "i51"]; ["i52"]]).
Proof. vm_compute. reflexivity. Qed.

(** Each template is refused. *)
Example demo_templates : map (fun id => match (plan_from_template demo_bare_mind id (demo_request "") (new_planner demo_bare_mind)).1 with
    | Ok r => (length (pl_tasks r), PlanningStage.value (pl_stage r), map msg_args (pl_errors r)) | Err _ => (0%nat, "", []) end)
    ["web_app"; "refactoring"; "unknown"]
  = [(10%nat, "failed", [["decomposing"; "validating"]]); (6%nat, "failed", [["decomposing"; "validating"]]); (0%nat, "failed", [["unknown"]])].
Proof. vm_compute. reflexivity. Qed.

Lemma plan_sound_witness :
  exists r p', plan demo_planner_mind (demo_request "Import the data") (new_planner demo_planner_mind) = (Ok r, p') /\
    sound_plan demo_planner_mind (mp_draws p') r /\ get_result (pl_id r) p' = Some r.
Proof. exact (plan_sound demo_planner_mind (demo_fresh _ _) (demo_reads _) (demo_request "Import the data") (new_planner demo_planner_mind)). Defined.

Lemma plan_builds_witness :
  exists r p1 m p2, plan demo_bare_mind (demo_request "A frontend") (new_planner demo_bare_mind) = (Ok r, p1) /\
    build_route demo_bare_mind (pl_id r) "" "" p1 = (Ok (Built m), p2) /\ planned_mission r m /\ get_result (pl_id r) p2 = Some (set_built (mi_id m) r).
Proof.
  exact (plan_builds demo_bare_mind (demo_fresh _ _) (demo_reads _) (demo_env []) (demo_request "A frontend") (new_planner demo_bare_mind) "" "" eq_refl).
Defined.
