(* ===== verification/AutonomousGoals.v ===== *)
(** * Goals: what is asked, what is let through, what is reported
    ([backend/autonomous/autonomous_models.py], [autonomous_interpreter.py],
    [autonomous_guard.py], [decision_engine.py], [autonomous_memory_loop.py])

    A request of a human becomes a goal; the guard, over the gate of [Aegis],
    says whether it may run; the decisions of its plan are recorded; the report
    says what was measured of it. *)
From stdpp Require Import base gmap strings list sets sorting pretty.
From Stdlib Require Import ZArith QArith Lia.
From S2P Require Import Prelude.
From S2P Require Import RetryPolicy.
From S2P Require Import Aegis.
#[local] Open Scope Z_scope.

(** ** Data *)

Module GoalStatus.
Inductive t :=
  | RECEIVED | ANALYZING | PLANNING | EXECUTING | VALIDATING | LEARNING | COMPLETED | FAILED | CANCELLED | PAUSED.
#[global] Instance eq_dec : EqDecision t.
Proof. solve_decision. Defined.
Definition value (x : t) : string :=
  match x with
  | RECEIVED => "received" | ANALYZING => "analyzing" | PLANNING => "planning" | EXECUTING => "executing"
  | VALIDATING => "validating" | LEARNING => "learning" | COMPLETED => "completed" | FAILED => "failed"
  | CANCELLED => "cancelled" | PAUSED => "paused"
  end.
End GoalStatus.

Module DecisionType.
Inductive t := AGENT_SELECTION | RUNTIME_SELECTION | TOOL_SELECTION | SKILL_SELECTION | WORKFLOW_CHANGE.
#[global] Instance eq_dec : EqDecision t.
Proof. solve_decision. Defined.
End DecisionType.

Record AutonomousGoal := mkGoal {
  go_id : string;
  go_request : string;
  go_interpreted : string;
  go_constraints : pydict pyval;
  go_priority : pyval;
  go_status : GoalStatus.t;
  go_language : string;
  go_domain : string;
  go_complexity : Q;
  go_local_path : string;
  go_repository : string;
  go_branch : string;
  go_knowledge : string;
  go_completed : option Z
}.

Definition goal_with_status (st : GoalStatus.t) (g : AutonomousGoal) : AutonomousGoal :=
  mkGoal (go_id g) (go_request g) (go_interpreted g) (go_constraints g) (go_priority g) st (go_language g) (go_domain g)
    (go_complexity g) (go_local_path g) (go_repository g) (go_branch g) (go_knowledge g) (go_completed g).
Definition goal_ended (st : GoalStatus.t) (at_ : Z) (g : AutonomousGoal) : AutonomousGoal :=
  mkGoal (go_id g) (go_request g) (go_interpreted g) (go_constraints g) (go_priority g) st (go_language g) (go_domain g)
    (go_complexity g) (go_local_path g) (go_repository g) (go_branch g) (go_knowledge g) (Some at_).

Record AutonomousDecision := mkDecision {
  de_id : string;
  de_type : DecisionType.t;
  de_reason : message;
  de_confidence : Q;
  de_alternatives : list string;
  de_selected : string
}.

(** What is in the timeline of a session: the decisions of its plan. *)
Record AutonomousSession := mkSession {
  se_id : string;
  se_goal : string;
  se_mission : string;
  se_agents : list string;
  se_status : GoalStatus.t;
  se_timeline : list (list string);
  se_end : option Z
}.

Definition session_with_status (st : GoalStatus.t) (s : AutonomousSession) : AutonomousSession :=
  mkSession (se_id s) (se_goal s) (se_mission s) (se_agents s) st (se_timeline s) (se_end s).

Record AutonomousReport := mkGoalReport {
  ap_goal : string;
  ap_request : string;
  ap_interpreted : string;
  ap_summary : message;
  ap_improvements : list message;
  ap_lessons : list message;
  ap_decisions : list AutonomousDecision;
  ap_duration : Q;
  ap_agents : list string;
  ap_runtimes : list string;
  ap_tools : list string;
  ap_success : bool;
  ap_verification : option (pydict pyval)
}.

(** [AutonomousReport.qualite] *)
Definition qualite (r : AutonomousReport) : string :=
  match ap_verification r with
  | None | Some [] => "non_mesuree"
  | Some v =>
      let tests := sub_dict v "tests" in
      if holds tests "ran" && is_false tests "passed" then "contredite"
      else if holds (sub_dict v "manifeste") "manquants" then "contredite"
      else if holds (sub_dict v "imports") "fatals" then "contredite"
      else if holds v "contradicted" then "contredite"
      else if negb (holds v "verified") then "non_mesuree"
      else if holds tests "ran" && holds tests "passed" then "verifiee"
      else "partielle"
  end.

(** ** The interpreter *)

Definition domain_keywords : list (string * list string) :=
  [("web", ["web"; "app"; "frontend"; "site"; "interface"; "ui"; "dashboard"]);
   ("backend", ["api"; "service"; "server"; "backend"; "endpoint"; "rest"]);
   ("data", ["data"; "analyse"; "analytics"; "pipeline"; "etl"; "database"]);
   ("code", ["refactor"; "clean"; "optimize"; "rewrite"; "migrate"; "debug"]);
   ("testing", ["test"; "qa"; "quality"; "coverage"; "assert"]);
   ("devops", ["deploy"; "ci/cd"; "docker"; "kubernetes"; "infra"]);
   ("docs", ["doc"; "readme"; "manual"; "guide"; "tutorial"]);
   ("learning", ["learn"; "study"; "research"; "explore"])].

Definition lang_keywords : list (string * list string) :=
  [("python", ["python"; "django"; "flask"; "pandas"]);
   ("typescript", ["typescript"; "ts"; "angular"; "react"; "next"]);
   ("javascript", ["javascript"; "js"; "node"; "express"]);
   ("rust", ["rust"; "cargo"]);
   ("go", ["golang"; "go "])].

(** [f" {kw} " in f" {text} "] *)
Definition hit (text kw : string) : bool := contains (" " +:+ kw +:+ " ") (" " +:+ text +:+ " ").

(** [int(count * multiplier)] *)
Definition domain_score (text d : string) (kws : list string) : Z :=
  Z.of_nat (length (List.filter (hit text) kws)) * (if decide (d = "code") then 2 else 1).

(** The domains that score, in order. *)
Definition scores (text : string) : pydict Z :=
  List.filter (fun p => 0 <? p.2) (map (fun p => (p.1, domain_score text p.1 p.2)) domain_keywords).

(** [max(scores, key=scores.get)]: the first of the best. *)
Fixpoint max_score (best : string * Z) (l : pydict Z) : string * Z :=
  match l with
  | [] => best
  | p :: l' => max_score (if best.2 <? p.2 then p else best) l'
  end.

Definition domain_of (text : string) : string :=
  match scores text with [] => "general" | p :: l => (max_score p l).1 end.

Definition language_of (text : string) : string :=
  match List.find (fun p => existsb (fun kw => contains kw text) p.2) lang_keywords with
  | Some p => p.1
  | None => "python"
  end.

Definition constraints_of (text : string) : pydict pyval :=
  (if existsb (fun w => contains w text) ["urgent"; "critical"; "asap"; "important"] then [("priority", PStr "high")] else [])
  ++ (if existsb (fun w => contains w text) ["secure"; "security"; "safe"] then [("security_required", PBool true)] else []).

(** [_analyze_request] *)
Definition analyze_request (text : string) : string * string * pydict pyval :=
  (domain_of (lower text), language_of (lower text), constraints_of (lower text)).

Definition complex_keywords : list string :=
  ["full"; "complete"; "integrated"; "complex"; "large"; "microservices"; "distributed"; "production"].

(** [_estimate_complexity], [alea] being the number drawn. *)
Definition estimate_complexity (alea : Q) (text : string) : Q :=
  let base := ((3 # 10) + (if (200 <? String.length text)%nat then 2 # 10 else 0)
               + (if (500 <? String.length text)%nat then 2 # 10 else 0)
               + (if existsb (fun kw => contains kw (lower text)) complex_keywords then 15 # 100 else 0) + alea)%Q in
  if Qle_bool base 1 then base else 1%Q.

(** [_generate_interpretation] *)
Definition generate_interpretation (text domain : string) : string :=
  "Interpreted goal: " +:+ first_chars 120 text +:+ ". Domain: " +:+ domain +:+ ". Analysis complete.".

(** What the memory answers on the missions of a kind. *)
Record Experience := mkExperience {
  xp_similar : nat;
  xp_rate : string;
  xp_models : list string;
  xp_practices : list string;
  xp_errors : list string
}.

Definition non_empty (s : string) : bool := bool_decide (s <> "").

(** [_gather_knowledge]: without a memory, or when it raises or knows of no such
    mission, nothing. *)
Definition gather_knowledge (memory : option (string -> list string -> res (option Experience))) (domain language : string) : string :=
  match memory with
  | None => ""
  | Some recommend =>
      match recommend domain (List.filter non_empty [domain; language]) with
      | Ok (Some x) =>
          if decide (xp_similar x = 0%nat) then ""
          else String.concat " "
            ([pretty (xp_similar x) +:+ " similar past mission(s), " +:+ xp_rate x +:+ "% succeeded."]
             ++ (match xp_models x with [] => [] | l => ["Models that worked before: " +:+ String.concat ", " l +:+ "."] end)
             ++ (match xp_practices x with [] => [] | l => ["Best practices: " +:+ String.concat "; " (take 3 l) +:+ "."] end)
             ++ (match xp_errors x with [] => [] | l => ["Watch out for: " +:+ String.concat "; " (take 3 l) +:+ "."] end))
      | _ => ""
      end
  end.

Section interpreter.
(** [str] of the values that are neither texts, numbers nor booleans. *)
Variable py_str_other : pyval -> string.

(** [str(ctx.get(key) or "").strip()] *)
Definition ctx_text (v : pyval) : string := strip (if truthy v then py_str py_str_other v else "").
Definition ctx_get (ctx : pydict pyval) (k : string) : pyval := default PNone (dget ctx k).
Definition or_val (a b : pyval) : pyval := if truthy a then a else b.

(** [interpret], the id, the number drawn and what the memory knows being
    arguments. *)
Definition interpret (id : string) (alea : Q) (savoir : string -> string -> string) (request : string) (ctx : pydict pyval)
    : AutonomousGoal :=
  let '(domain, language, constraints) := analyze_request request in
  mkGoal id request (generate_interpretation request domain) constraints (default (PStr "normal") (dget ctx "priority"))
    GoalStatus.ANALYZING language domain (estimate_complexity alea request) (ctx_text (ctx_get ctx "local_path"))
    (ctx_text (or_val (ctx_get ctx "repository") (ctx_get ctx "repo_url"))) (ctx_text (ctx_get ctx "branch")) (savoir domain language) None.
End interpreter.

(** ** The guard *)

Module GuardVerdict.
Inductive t := ALLOW | BLOCK | REVIEW.
#[global] Instance eq_dec : EqDecision t.
Proof. solve_decision. Defined.
End GuardVerdict.

Record SecurityAnswer := mkSecurity { sy_allowed : bool; sy_reason : message; sy_review : bool }.

(** An action that was blocked: its type, its target and why. *)
Record Blocked := mkBlocked { bk_type : string; bk_target : string; bk_reason : message }.

Definition blocked_categories : list string :=
  ["security.modify"; "permission.change"; "system.architecture"; "mass_deletion"; "policy.override"; "guard.bypass"].

(** [AegisSecurityAdapter.check_access]: of an operation, of what it is on and
    of the path of the context. *)
Definition aegis_access (resolve : string -> res (list string)) (e : AegisEngine) (extra : list string)
    (operation target : string) (path : option string) : res SecurityAnswer :=
  d <-? aegis_evaluate resolve e
          (mkAction operation ("autonomous: " +:+ operation +:+ " on " +:+ target)
             (match path with Some "" => None | p => p end) "autonomous" None None []) None extra ;;
  Ok (mkSecurity (negb (bool_decide (ad_verdict d = Verdict.DENY))) (ad_reason d)
        (bool_decide (ad_verdict d = Verdict.REQUIRE_HUMAN_VALIDATION))).

Section guard.
(** The security engine and the policy engine, when they are wired; the policy
    answers its verdict. *)
Variable security : option (string -> string -> option string -> res SecurityAnswer).
Variable politique : option (string -> res string).

Definition record_block (ty target : string) (reason : message) : M (list Blocked) unit := fun l => (Ok tt, l ++ [mkBlocked ty target reason]).

Definition policy_check (ty target : string) : M (list Blocked) GuardVerdict.t :=
  match politique with
  | Some f => match f ty with
              | Ok "DENY" => record_block ty target (Msg "Policy denied" []) ;;; ret GuardVerdict.BLOCK
              | _ => ret GuardVerdict.ALLOW
              end
  | None => ret GuardVerdict.ALLOW
  end.

(** [check_action]: what the engines raise is dropped. *)
Definition check_action (ty target : string) (path : option string) : M (list Blocked) GuardVerdict.t :=
  if bool_decide (ty ∈ blocked_categories) then
    record_block ty target (Msg "Hard-blocked category" []) ;;; ret GuardVerdict.BLOCK
  else
    match security with
    | Some f =>
        match f ty target path with
        | Ok a =>
            if negb (sy_allowed a) then record_block ty target (sy_reason a) ;;; ret GuardVerdict.BLOCK
            else if sy_review a then ret GuardVerdict.REVIEW
            else policy_check ty target
        | Err _ => policy_check ty target
        end
    | None => policy_check ty target
    end.
End guard.

(** ** The memory loop *)

Definition MAX_RETAINED_LEARNINGS : nat := 1000.

Record Memory := mkMemory {
  me_episodes : list AutonomousReport;
  me_learnings : list AutonomousReport
}.

(** [process_report]: the episode, when a memory is wired and does not refuse it,
    and what is kept here.  The evolution engine is fed nothing: the module that
    its metrics are imported from does not exist. *)
Definition process_report (memory : option (AutonomousReport -> bool)) (r : AutonomousReport) (m : Memory) : Memory :=
  mkMemory
    (match memory with
     | Some accepte => if bool_decide (ap_goal r <> "") && accepte r then me_episodes m ++ [r] else me_episodes m
     | None => me_episodes m
     end)
    (deque_append MAX_RETAINED_LEARNINGS (me_learnings m) r).

(** * Properties *)

(** ** The domain of a request *)

Lemma max_score_spec l : forall best, exists l1 l2,
  best :: l = l1 ++ max_score best l :: l2
  /\ Forall (fun p => p.2 < (max_score best l).2) l1 /\ Forall (fun p => p.2 <= (max_score best l).2) l2.
Proof.
  induction l as [|p l IH]; intros best; cbn [max_score]; [by exists [], []|].
  destruct (Z.ltb_spec best.2 p.2) as [Hlt|Hge].
  - destruct (IH p) as (l1 & l2 & Heq & H1 & H2). set (mx := max_score p l) in *. exists (best :: l1), l2. cbn [app]. rewrite <- Heq.
    assert (p.2 <= mx.2) as Hp.
    { destruct l1 as [|q l1]; injection Heq as Hq _; [by rewrite <- Hq|]. subst q. apply Forall_cons_1 in H1 as [H1 _]. lia. }
    split; [done|]. split; [|done]. constructor; [lia|done].
  - destruct (IH best) as (l1 & l2 & Heq & H1 & H2). set (mx := max_score best l) in *.
    destruct l1 as [|q l1]; injection Heq as Hb Hl.
    + exists [], (p :: l2). cbn [app]. rewrite <- Hb, Hl. split; [done|]. split; [constructor|]. constructor; [done|by rewrite Hb].
    + subst q. exists (best :: p :: l1), l2. cbn [app]. rewrite Hl. apply Forall_cons_1 in H1 as [H1 H1'].
      split; [done|]. split; [|done]. constructor; [done|]. constructor; [lia|done].
Qed.

Lemma scored text p : p ∈ scores text -> 0 < p.2 /\ exists kws, (p.1, kws) ∈ domain_keywords /\ p.2 = domain_score text p.1 kws.
Proof.
  unfold scores. intros Hin%list_elem_of_In. apply filter_In in Hin as [Hin%list_elem_of_In Hp%Z.ltb_lt]. split; [done|].
  apply list_elem_of_fmap in Hin as ([d kws] & -> & Hin). by exists kws.
Qed.

(** What the filtered table is made of, around one of its rows. *)
Lemma filter_split {A} (f : A -> bool) (l : list A) m1 x m2 : List.filter f l = m1 ++ x :: m2 ->
  exists l1 l2, l = l1 ++ x :: l2 /\ List.filter f l1 = m1 /\ List.filter f l2 = m2.
Proof.
  revert m1. induction l as [|y l IH]; intros m1 E; cbn in E; [by destruct m1|]. destruct (f y) eqn:Ef.
  - destruct m1 as [|z m1]; injection E as -> E; [by exists [], l|]. destruct (IH m1 E) as (l1 & l2 & -> & H1 & H2).
    exists (z :: l1), l2. cbn. by rewrite Ef, H1.
  - destruct (IH m1 E) as (l1 & l2 & -> & H1 & H2). exists (y :: l1), l2. cbn. by rewrite Ef.
Qed.

(** The domain of a request is the first of the table among those with the
    most of their words standing alone in the request (two points each for
    [code]); a request that holds none of them is [general]. *)
Theorem domain_exact text :
  (domain_of text = "general" /\ forall d kws, (d, kws) ∈ domain_keywords -> Forall (fun kw => hit text kw = false) kws)
  \/ exists l1 d kws l2, domain_keywords = l1 ++ (d, kws) :: l2 /\ domain_of text = d /\ Exists (fun kw => hit text kw = true) kws
       /\ Forall (fun p => domain_score text p.1 p.2 < domain_score text d kws) l1
       /\ Forall (fun p => domain_score text p.1 p.2 <= domain_score text d kws) l2.
Proof.
  set (g := fun p : string * list string => (p.1, domain_score text p.1 p.2)).
  assert (Hpos : forall d kws, 0 < domain_score text d kws <-> Exists (fun kw => hit text kw = true) kws).
  { intros d kws. unfold domain_score. rewrite Exists_exists. split.
    - intros H. destruct (List.filter (hit text) kws) as [|kw l] eqn:E; [cbn in H; lia|]. exists kw.
      assert (kw ∈ List.filter (hit text) kws) as Hin by (rewrite E; left). apply list_elem_of_In, filter_In in Hin as [? ?].
      by rewrite list_elem_of_In.
    - intros (kw & Hin & Hh). assert (kw ∈ List.filter (hit text) kws) as H by (by apply list_elem_of_In, filter_In; rewrite <- list_elem_of_In).
      destruct (List.filter (hit text) kws); [by apply elem_of_nil in H|]. cbn [length]. case_decide; lia. }
  unfold domain_of. destruct (scores text) as [|best l] eqn:E.
  - left. split; [done|]. intros d kws Hin. apply Forall_forall. intros kw Hkw. apply not_true_iff_false. intros Hh.
    assert (g (d, kws) ∈ scores text) as H; [|rewrite E in H; by apply elem_of_nil in H].
    apply list_elem_of_In, filter_In. split; [apply list_elem_of_In, list_elem_of_fmap; by exists (d, kws)|].
    apply Z.ltb_lt, Hpos, Exists_exists. by exists kw.
  - right. destruct (max_score_spec l best) as (m1 & m2 & Heq & H1 & H2). set (mx := max_score best l) in *.
    rewrite Heq in E. destruct (filter_split _ _ _ _ _ E) as (t1 & t2 & Ht & F1 & F2).
    change (g <$> domain_keywords = t1 ++ mx :: t2) in Ht.
    apply fmap_app_inv in Ht as (l1 & l2' & -> & Ht & Hl). symmetry in Ht.
    apply fmap_cons_inv in Ht as ([d kws] & l2 & Hmx & -> & ->).
    assert (mx ∈ scores text) as Hin by (rewrite E; set_solver).
    destruct (scored text mx Hin) as [Hp _]. rewrite Hmx in Hp, H1, H2 |- *. cbn [g fst snd] in *.
    exists l1, d, kws, l2. split; [exact Hl|]. split; [done|]. split; [by apply (Hpos d)|].
    assert (Hin' : forall (t : list (string * list string)) m p, List.filter (fun p : string * Z => 0 <? p.2) (g <$> t) = m -> p ∈ t ->
      domain_score text p.1 p.2 <= 0 \/ g p ∈ m).
    { intros t m p <- Hpt. destruct (Z.ltb_spec 0 (domain_score text p.1 p.2)) as [Hlt|]; [right|by left].
      apply list_elem_of_In, filter_In. split; [apply list_elem_of_In, list_elem_of_fmap; by exists p|]. by apply Z.ltb_lt. }
    rewrite Forall_forall in H1, H2. split; apply Forall_forall; intros p Hpt.
    + destruct (Hin' l1 m1 p F1 Hpt) as [?|Hm]; [lia|]. apply (H1 _ Hm).
    + destruct (Hin' l2 m2 p F2 Hpt) as [?|Hm]; [lia|]. apply (H2 _ Hm).
Qed.

(** ** The guard over the gate *)

(** What the guard answers when it is wired to the gate of [Aegis], as the
    start-up does.  It blocks, and records it, exactly the six categories that
    are never allowed and what the gate denies; it asks for a review exactly of
    what the gate wants a human for; and it allows the rest, what the gate could
    not decide included, since the exceptions of the gate are dropped. *)
Theorem guard_exact resolve e extra op target path l :
  let a := mkAction op ("autonomous: " +:+ op +:+ " on " +:+ target) (match path with Some "" => None | p => p end) "autonomous" None None [] in
  let gate := aegis_evaluate resolve e a None extra in
  let says v := exists d, gate = Ok d /\ ad_verdict d = v in
  exists v l', check_action (Some (aegis_access resolve e extra)) None op target path l = (Ok v, l')
    /\ (v = GuardVerdict.BLOCK <-> (op ∈ blocked_categories) \/ says Verdict.DENY)
    /\ (v = GuardVerdict.REVIEW <-> (op ∉ blocked_categories) /\ says Verdict.REQUIRE_HUMAN_VALIDATION)
    /\ (v = GuardVerdict.ALLOW <-> (op ∉ blocked_categories) /\ (says Verdict.ALLOW \/ is_ok gate = false))
    /\ (if decide (v = GuardVerdict.BLOCK) then exists reason, l' = l ++ [mkBlocked op target reason] else l' = l).
Proof.
  intros a gate says. assert (Hs : forall v, says v <-> exists d, gate = Ok d /\ ad_verdict d = v) by done.
  unfold check_action, aegis_access. fold a gate. clearbody says gate. setoid_rewrite Hs. clear Hs says.
  case_bool_decide as Hb.
  { eexists _, _. split; [done|]. split_and!; [naive_solver..|]. by eexists. }
  destruct gate as [d|x]; cbn [res_bind].
  - destruct (ad_verdict d) eqn:Ev; cbn; eexists _, _; (split; [reflexivity|]); (split_and!; [naive_solver congruence..|]); done || by eexists.
  - eexists _, _. split; [done|]. split_and!; try done; naive_solver.
Qed.
