(* ===== verification/Orchestrator.v ===== *)
(** * The orchestrator of goals
    ([backend/autonomous/autonomous_orchestrator.py])

    A goal is received, planned as a graph, walked and reported, outside the lock
    of the orchestrator: other calls come in between, so that a call of
    [start_goal] is a sequence of moves and the pauses, resumptions and
    cancellations are other moves.  Goals and sessions are shared objects, in
    heaps; a mission is an executor of [GraphExecutor].  What the planner
    answers is an argument. *)
From stdpp Require Import base gmap strings list sets sorting pretty.
From Stdlib Require Import ZArith QArith Lia.
From S2P Require Import Prelude.
From S2P Require Import MissionGraph.
From S2P Require Import RetryPolicy.
From S2P Require Import GraphExecutor.
From S2P Require Import MissionDocuments.
From S2P Require Import MissionDriver.
From S2P Require Import PlannerModels.
From S2P Require Import TaskDecomposer.
From S2P Require Import AutonomousGoals.
#[local] Open Scope Z_scope.

(** ** The plan of a goal *)

(** What the planner is asked, under an identifier. *)
Definition planning_request (id : string) (g : AutonomousGoal) (ctx : pydict pyval) : PlanningRequest :=
  mkRequest id (go_request g) (go_interpreted g) ctx (go_repository g) (go_branch g) "" (go_knowledge g)
    (List.filter non_empty [go_domain g; go_language g]).

(** [_CATEGORY_AGENT] *)
Definition CATEGORY_AGENT : pydict string :=
  [("implementation", "atlas"); ("optimization", "atlas"); ("integration", "atlas"); ("deployment", "atlas");
   ("testing", "veritas"); ("review", "veritas"); ("documentation", "hermes_scribe"); ("analysis", "minerva");
   ("planning", "kronos"); ("security", "aegis"); ("design", "hermes_prime"); ("custom", "hermes_prime")].

(** The decisions of one task. *)
Definition decisions_of_task (runtimes : pydict RuntimeRecommendation) (t : TaskBreakdown) : list AutonomousDecision :=
  let category := TaskCategory.value (tb_category t) in
  let agent := default "hermes_prime" (dget CATEGORY_AGENT category) in
  [mkDecision ("dec_" +:+ tb_id t +:+ "_agent") DecisionType.AGENT_SELECTION
     (Msg "Category {!r} maps to {!r} (config/agents.yaml)." [category; agent]) (6 # 10) [] agent]
  ++ match dget runtimes (tb_id t) with
     | Some rec => [mkDecision ("dec_" +:+ tb_id t +:+ "_runtime") DecisionType.RUNTIME_SELECTION (rc_reasoning rec)
                      (rc_confidence rec) (rc_alternatives rec) (rc_model rec)]
     | None => []
     end
  ++ match tb_skills t with
     | [] => []
     | s :: _ => [mkDecision ("dec_" +:+ tb_id t +:+ "_skill") DecisionType.SKILL_SELECTION
                    (Msg "Task requires: {}." [String.concat ", " (tb_skills t)]) (7 # 10) [] s]
     end.

(** [_decisions_from_plan] *)
Definition decisions_from_plan (p : PlanningResult) : list AutonomousDecision := flat_map (decisions_of_task (pl_runtimes p)) (pl_tasks p).

(** [sorted({...})] *)
Definition sorted_set (l : list string) : list string := sorted_texts (list_to_set l).

Definition selected (ty : DecisionType.t) (l : list AutonomousDecision) : list string :=
  map de_selected (List.filter (fun d => bool_decide (de_type d = ty)) l).

(** The mission of a goal: where it works. *)
Definition with_place (g : AutonomousGoal) (project : string) (m : Mission) : Mission :=
  mkMission (mi_id m) (mi_title m) (mi_description m) (mi_objective m) (mi_type m) (mi_priority m) (mi_status m)
    (mkMContext project (mc_user (mi_context m)) (go_repository g) (go_branch g) (go_local_path g) (mc_tags (mi_context m))
       (mc_metadata (mi_context m)))
    (mi_nodes m) (mi_edges m) (mi_metadata m) (mi_budget m) (mi_created m) (mi_updated m) (mi_started m) (mi_completed m).

(** ** The orchestrator *)

Definition MAX_RETAINED_GOALS : nat := 500.
Definition MAX_REPORTS : nat := 50.
Definition MAX_EXECUTION_PASSES : nat := 100.

Record Orchestrator := mkOrch {
  oc_goals : pydict nat;
  oc_objs : list AutonomousGoal;
  oc_sessions : pydict nat;
  oc_sobjs : list AutonomousSession;
  oc_by_goal : pydict string;
  oc_missions : list Exec;
  oc_known : pydict nat;
  oc_reports : list AutonomousReport;
  oc_count : nat;
  oc_blocked : list Blocked;
  oc_memory : Memory;
  oc_events : list (string * pydict pyval);
  oc_perfs : nat
}.

Definition new_orchestrator : Orchestrator := mkOrch [] [] [] [] [] [] [] [] 0 [] (mkMemory [] []) [] 0.

Definition set_goals x y o := mkOrch x y (oc_sessions o) (oc_sobjs o) (oc_by_goal o) (oc_missions o) (oc_known o) (oc_reports o)
  (oc_count o) (oc_blocked o) (oc_memory o) (oc_events o) (oc_perfs o).
Definition set_sessions x y z o := mkOrch (oc_goals o) (oc_objs o) x y z (oc_missions o) (oc_known o) (oc_reports o)
  (oc_count o) (oc_blocked o) (oc_memory o) (oc_events o) (oc_perfs o).
Definition set_missions x y o := mkOrch (oc_goals o) (oc_objs o) (oc_sessions o) (oc_sobjs o) (oc_by_goal o) x y (oc_reports o)
  (oc_count o) (oc_blocked o) (oc_memory o) (oc_events o) (oc_perfs o).
Definition set_reports x y z o := mkOrch (oc_goals o) (oc_objs o) (oc_sessions o) (oc_sobjs o) (oc_by_goal o) (oc_missions o)
  (oc_known o) x y (oc_blocked o) z (oc_events o) (oc_perfs o).
Definition set_blocked x o := mkOrch (oc_goals o) (oc_objs o) (oc_sessions o) (oc_sobjs o) (oc_by_goal o) (oc_missions o)
  (oc_known o) (oc_reports o) (oc_count o) x (oc_memory o) (oc_events o) (oc_perfs o).
Definition set_orch_events x o := mkOrch (oc_goals o) (oc_objs o) (oc_sessions o) (oc_sobjs o) (oc_by_goal o) (oc_missions o)
  (oc_known o) (oc_reports o) (oc_count o) (oc_blocked o) (oc_memory o) x (oc_perfs o).
Definition set_perfs x o := mkOrch (oc_goals o) (oc_objs o) (oc_sessions o) (oc_sobjs o) (oc_by_goal o) (oc_missions o)
  (oc_known o) (oc_reports o) (oc_count o) (oc_blocked o) (oc_memory o) (oc_events o) x.

(** Where a call of [start_goal] is.  [Marche]: the mission, its decisions, the
    instant of its start, the passes made, and whether it is walked again. *)
Inductive phase :=
  | Arrete
  | Planifie (g s : nat) (ctx : pydict pyval)
  | Engage (g s k : nat) (ds : list AutonomousDecision)
  | Marche (g s k : nat) (ds : list AutonomousDecision) (t0 : Q) (passes : nat) (reprise : bool)
  | Reprend (g s k : nat) (ds : list AutonomousDecision) (t0 : Q)
  | Rapporte (g s k : nat) (ds : list AutonomousDecision) (duration : Q) (error : option message) (summary : message)
  | Fini.

(** What surrounds the orchestrator: the texts of values, the ids and the numbers
    that are drawn, what the memory knows of a domain, the gate, the planner and
    the missions it builds, the projects, whether a mission is registered, the executors of the missions,
    the clocks, and the memory. *)
Record World := mkWorld {
  wo_text : pyval -> string;
  wo_id : nat -> string;
  wo_draw : nat -> Q;
  wo_knows : option (string -> list string -> res (option Experience));
  wo_security : option (string -> string -> option string -> res SecurityAnswer);
  wo_policy : option (string -> res string);
  wo_request : nat -> string;
  wo_plan : PlanningRequest -> res PlanningResult;
  wo_build : PlanningResult -> string -> string -> res Mission;
  wo_project : string -> string -> string;
  wo_registers : nat -> bool;
  wo_env : nat -> Env;
  wo_perf : nat -> Q;
  wo_instant : nat -> Z;
  wo_memory : option (AutonomousReport -> bool)
}.

Section orchestrator.
Variable w : World.

Definition omodify (f : Orchestrator -> Orchestrator) : M Orchestrator unit := fun o => (Ok tt, f o).

(** [_publish] *)
Definition announce (type : string) (data : pydict pyval) : M Orchestrator unit :=
  omodify (fun o => set_orch_events (oc_events o ++ [(type, data)]) o).

Definition read_perf : M Orchestrator Q := fun o => (Ok (wo_perf w (oc_perfs o)), set_perfs (S (oc_perfs o)) o).

Definition the_goal (g : nat) : M Orchestrator AutonomousGoal := fun o =>
  match oc_objs o !! g with Some x => (Ok x, o) | None => (Err (Exn KeyError []), o) end.
Definition on_goal (g : nat) (f : AutonomousGoal -> AutonomousGoal) : M Orchestrator unit :=
  omodify (fun o => set_goals (oc_goals o) (alter f g (oc_objs o)) o).
Definition on_session (s : nat) (f : AutonomousSession -> AutonomousSession) : M Orchestrator unit :=
  omodify (fun o => set_sessions (oc_sessions o) (alter f s (oc_sobjs o)) (oc_by_goal o) o).

(** An operation of the executor on the mission [k]. *)
Definition on_mission_exec {A} (k : nat) (m : Env -> M Exec A) : M Orchestrator A := fun o =>
  match oc_missions o !! k with
  | Some x => let '(r, x') := m (wo_env w k) x in (r, set_missions (<[k := x']> (oc_missions o)) (oc_known o) o)
  | None => (Err (Exn KeyError []), o)
  end.
Definition mission_at (k : nat) : M Orchestrator Mission := on_mission_exec k (fun _ => gmission).

(** [check_action] of the guard *)
Definition guarded (ty target : string) (path : option string) : M Orchestrator GuardVerdict.t :=
  zoom oc_blocked set_blocked (check_action (wo_security w) (wo_policy w) ty target path).

(** ** Reception *)

(** [_evict_oldest] *)
Fixpoint evict_goals (fuel : nat) (o : Orchestrator) : Orchestrator :=
  match fuel with
  | O => o
  | S fuel' =>
      if (length (oc_goals o) <=? MAX_RETAINED_GOALS)%nat then o
      else match oc_goals o with
           | [] => o
           | (id, _) :: rest =>
               let o' := set_goals rest (oc_objs o) o in
               evict_goals fuel'
                 match dget (oc_by_goal o) id with
                 | Some sid => set_sessions (ddel (oc_sessions o) sid) (oc_sobjs o) (ddel (oc_by_goal o) id) o'
                 | None => set_sessions (oc_sessions o) (oc_sobjs o) (ddel (oc_by_goal o) id) o'
                 end
           end
  end.

Definition session_id (id : string) : string := "session_" +:+ id.

(** The goal is made and registered, then its session. *)
Definition inscrire (request : string) (ctx : pydict pyval) : M Orchestrator (nat * nat) := fun o =>
  let n := length (oc_objs o) in
  let goal := interpret (wo_text w) (wo_id w n) (wo_draw w n) (gather_knowledge (wo_knows w)) request ctx in
  let o1 := set_goals (dset (oc_goals o) (go_id goal) n) (oc_objs o ++ [goal]) o in
  let o2 := evict_goals (S (length (oc_goals o))) o1 in
  let o3 := set_orch_events (oc_events o2 ++ [("autonomous.goal.received", [("goal_id", PStr (go_id goal))])]) o2 in
  let s := length (oc_sobjs o3) in
  let session := mkSession (session_id (go_id goal)) (go_id goal) "" [] GoalStatus.PLANNING [] None in
  (Ok (n, s), set_sessions (dset (oc_sessions o3) (se_id session) s) (oc_sobjs o3 ++ [session]) (dset (oc_by_goal o3) (go_id goal) (se_id session)) o3).

Definition fail_goal (g : nat) (reason : string) : M Orchestrator phase :=
  goal <- the_goal g ;;
  on_goal g (goal_with_status GoalStatus.FAILED) ;;;
  announce "autonomous.goal.failed" [("goal_id", PStr (go_id goal)); ("reason", PStr reason)] ;;;
  ret Arrete.

(** [goal.local_path or goal.repository or constraints["security_required"]] *)
Definition risk_relevant (g : AutonomousGoal) : bool :=
  bool_decide (go_local_path g <> "") || bool_decide (go_repository g <> "") || holds (go_constraints g) "security_required".

(** The second question asked of the guard. *)
Definition controler (g s : nat) (ctx : pydict pyval) : M Orchestrator phase :=
  goal <- the_goal g ;;
  v <- (if risk_relevant goal
        then guarded "autonomous_goal_execute" ("goal/" +:+ go_id goal) (if decide (go_local_path goal = "") then None else Some (go_local_path goal))
        else ret GuardVerdict.ALLOW) ;;
  match v with
  | GuardVerdict.BLOCK => fail_goal g "Guard blocked"
  | GuardVerdict.REVIEW =>
      on_goal g (goal_with_status GoalStatus.PAUSED) ;;;
      on_session s (session_with_status GoalStatus.PAUSED) ;;;
      announce "autonomous.goal.paused" [("goal_id", PStr (go_id goal)); ("reason", PStr "Requires human validation (Aegis)")] ;;;
      ret Arrete
  | GuardVerdict.ALLOW =>
      on_goal g (goal_with_status GoalStatus.PLANNING) ;;;
      announce "autonomous.goal.analyzed" [("goal_id", PStr (go_id goal)); ("interpretation", PStr (go_interpreted goal))] ;;;
      ret (Planifie g s ctx)
  end.

(** [start_goal], up to the planning. *)
Definition recevoir (request : string) (ctx : pydict pyval) : M Orchestrator phase :=
  gs <- inscrire request ctx ;;
  goal <- the_goal gs.1 ;;
  v <- (if decide (go_local_path goal = "") then ret GuardVerdict.ALLOW
        else guarded "file_read" (go_local_path goal) (Some (go_local_path goal))) ;;
  if decide (v = GuardVerdict.ALLOW) then controler gs.1 gs.2 ctx
  else fail_goal gs.1 ("local_path " +:+ go_local_path goal +:+ " denied by Aegis").

(** ** Planning *)

(** [_workspace_refuse] *)
Definition workspace_refuse (g : AutonomousGoal) (project : string) : bool :=
  bool_decide (go_local_path g <> "") && bool_decide (project = "").

(** The plan is answered: [_plan_via_dag], and what follows up to the execution. *)
Definition planifier (g s : nat) (ctx : pydict pyval) : M Orchestrator phase :=
  goal <- the_goal g ;;
  p <- lift (wo_plan w (planning_request (wo_request w g) goal ctx)) ;;
  match pl_tasks p with
  | [] => fail_goal g "planning produced no executable tasks"
  | _ =>
      let ds := decisions_from_plan p in
      on_session s (fun x => mkSession (se_id x) (se_goal x) (se_mission x) (sorted_set (selected DecisionType.AGENT_SELECTION ds))
                               (se_status x) (se_timeline x ++ [map de_id ds]) (se_end x)) ;;;
      announce "autonomous.plan.created" [("goal_id", PStr (go_id goal)); ("decisions", PInt (Z.of_nat (length ds)))] ;;;
      built <- lift (wo_build w p (first_chars 100 (str_or (go_interpreted goal) (go_request goal))) (go_request goal)) ;;
      let project := if decide (go_local_path goal = "") then "" else wo_project w (go_local_path goal) (go_id goal) in
      let m := with_place goal project built in
      k <- (fun o => let k := length (oc_missions o) in
                     (Ok k, set_missions (oc_missions o ++ [mkExec m 0 0 0 [] [] []])
                              (if wo_registers w k then dset (oc_known o) (mi_id m) k else oc_known o) o)) ;;
      on_session s (fun x => mkSession (se_id x) (se_goal x) (mi_id m) (se_agents x) (se_status x) (se_timeline x) (se_end x)) ;;;
      if workspace_refuse goal project then fail_goal g "workspace refused"
      else
        on_goal g (goal_with_status GoalStatus.EXECUTING) ;;;
        on_session s (session_with_status GoalStatus.EXECUTING) ;;;
        announce "autonomous.execution.started" [("goal_id", PStr (go_id goal)); ("session_id", PStr (session_id (go_id goal)))] ;;;
        ret (Engage g s k ds)
  end.

(** ** Execution *)

(** [_execute_via_dag], up to the first pass. *)
Definition engager (g s k : nat) (ds : list AutonomousDecision) : M Orchestrator phase :=
  t0 <- read_perf ;;
  m <- mission_at k ;;
  issues <- on_mission_exec k (fun e => build_mission e (mi_nodes m) (mi_edges m)) ;;
  match issues with
  | _ :: _ =>
      t <- read_perf ;;
      ret (Rapporte g s k ds ((t - t0) * 1000)%Q (Some (Msg "{}" (map msg_template issues))) (Msg "Mission graph invalid: {}" (map msg_template issues)))
  | [] =>
      ok <- on_mission_exec k (fun e => start_mission e) ;;
      if ok : bool then ret (Marche g s k ds t0 0 false)
      else
        t <- read_perf ;;
        m' <- mission_at k ;;
        ret (Rapporte g s k ds ((t - t0) * 1000)%Q (Some (Msg "mission could not start (status={})" [Enumeration.value (Enumeration.OfStatus (mi_status m'))]))
               (Msg "Mission could not start" []))
  end.

Definition nodes_in (st : NodeStatus.t) (m : Mission) : list MissionNode := List.filter (fun n => bool_decide (mn_status n = st)) (mi_nodes m).

(** The end of [_execute_via_dag]. *)
Definition mesurer_marche (g s k : nat) (ds : list AutonomousDecision) (t0 : Q) : M Orchestrator phase :=
  t <- read_perf ;;
  m <- mission_at k ;;
  let duration := ((t - t0) * 1000)%Q in
  ret (Rapporte g s k ds duration None
         (Msg "{}/{} task(s) completed in {}ms"
            [pretty (length (nodes_in NodeStatus.COMPLETED m)); pretty (length (mi_nodes m)); fixed 0 duration])).

(** After the first walk comes the retry, after the second the report. *)
Definition apres_marche (g s k : nat) (ds : list AutonomousDecision) (t0 : Q) (reprise : bool) : M Orchestrator phase :=
  if reprise then mesurer_marche g s k ds t0 else ret (Reprend g s k ds t0).

(** One turn of [_marcher_le_graphe]. *)
Definition marcher (g s k : nat) (ds : list AutonomousDecision) (t0 : Q) (passes : nat) (reprise : bool) : M Orchestrator phase :=
  m <- mission_at k ;;
  if terminal (mi_status m) || (MAX_EXECUTION_PASSES <=? passes)%nat then apres_marche g s k ds t0 reprise
  else
    stepped <- on_mission_exec k (fun e => execute_step e) ;;
    if stepped =? 0 then apres_marche g s k ds t0 reprise else ret (Marche g s k ds t0 (S passes) reprise).

(** The retry. *)
Definition reprendre_marche (g s k : nat) (ds : list AutonomousDecision) (t0 : Q) : M Orchestrator phase :=
  again <- on_mission_exec k (fun e => preparer_reprise e) ;;
  if again : bool then ret (Marche g s k ds t0 0 true) else mesurer_marche g s k ds t0.

(** ** The report *)

(** [_verification_de] *)
Definition verification_de (m : Mission) : option (pydict pyval) :=
  match dget (mi_metadata m) "verification" with Some (PDict v) => Some v | _ => None end.

Definition plan_is_generic (m : Mission) : bool :=
  match dget (mi_metadata m) "decomposition_method" with Some (PStr x) => bool_decide (x = "generic_fallback") | _ => false end.

(** [_dag_result]: the success, the lessons and what could be improved. *)
Definition dag_success (m : Mission) (error : option message) : bool :=
  match error with
  | Some _ => false
  | None => (0 <? length (nodes_in NodeStatus.COMPLETED m))%nat && (length (nodes_in NodeStatus.FAILED m) =? 0)%nat
            && bool_decide (mi_status m = MissionStatus.COMPLETED)
  end.

Definition dag_improvements (m : Mission) (error : option message) : list message :=
  (match error with Some _ => [Msg "Provide a reachable runtime / valid mission graph before dispatching autonomous goals" []] | None => [] end)
  ++ (if plan_is_generic m then [Msg "Real decomposition failed for this goal" []] else []).

Definition mean_duration (l : list MissionNode) : Q := (foldr Qplus 0 (map mn_actual l) / inject_Z (Z.of_nat (length l)))%Q.

Definition dag_lessons (m : Mission) : list message :=
  (match nodes_in NodeStatus.FAILED m with
   | [] => []
   | l => [Msg "{} task(s) failed: {}" (pretty (length l) :: map (fun n => mn_title n +:+ ": " +:+ str_or (mn_summary n) "no detail") (take 3 l))]
   end)
  ++ (match nodes_in NodeStatus.COMPLETED m with
      | [] => []
      | l => [Msg "{} task(s) averaged {}ms" [pretty (length l); fixed 0 (mean_duration l)]]
      end).

Definition dag_runtimes (m : Mission) : list string :=
  sorted_set (List.filter non_empty (map mn_runtime (nodes_in NodeStatus.COMPLETED m))).

(** The report, as the objects are when it is made. *)
Definition dag_report (goal : AutonomousGoal) (session : AutonomousSession) (m : Mission) (ds : list AutonomousDecision) (duration : Q)
    (error : option message) (summary : message) : AutonomousReport :=
  mkGoalReport (go_id goal) (go_request goal) (go_interpreted goal)
    (if plan_is_generic m && negb (bool_decide (is_Some error)) then Msg ("WARNING: " +:+ msg_template summary) (msg_args summary) else summary)
    (dag_improvements m error) (dag_lessons m) ds duration (se_agents session) (dag_runtimes m) (selected DecisionType.TOOL_SELECTION ds)
    (dag_success m error) (verification_de m).

Definition the_session (s : nat) : M Orchestrator AutonomousSession := fun o =>
  match oc_sobjs o !! s with Some x => (Ok x, o) | None => (Err (Exn KeyError []), o) end.

(** The end of [start_goal]. *)
Definition rapporter (g s k : nat) (ds : list AutonomousDecision) (duration : Q) (error : option message) (summary : message)
    : M Orchestrator phase :=
  goal <- the_goal g ;;
  session <- the_session s ;;
  m <- mission_at k ;;
  let report := dag_report goal session m ds duration error summary in
  let fin := if ap_success report then GoalStatus.COMPLETED else GoalStatus.FAILED in
  (match error with
   | Some _ => announce "autonomous.goal.failed" [("goal_id", PStr (go_id goal)); ("reason", PStr "runtime_unavailable")]
   | None => ret tt
   end) ;;;
  announce "autonomous.learning.completed" [("goal_id", PStr (go_id goal)); ("lessons", PInt (Z.of_nat (length (ap_lessons report))))] ;;;
  o <- get ;;
  let t := wo_instant w (oc_count o) in
  on_goal g (goal_ended fin t) ;;;
  on_session s (fun x => mkSession (se_id x) (se_goal x) (se_mission x) (se_agents x) fin (se_timeline x) (Some t)) ;;;
  omodify (fun o => set_reports (deque_append MAX_REPORTS (oc_reports o) report) (S (oc_count o)) (process_report (wo_memory w) report (oc_memory o)) o) ;;;
  (if ap_success report then announce "autonomous.execution.completed" [("goal_id", PStr (go_id goal)); ("duration_ms", PFloat duration)]
   else announce "autonomous.goal.failed" [("goal_id", PStr (go_id goal)); ("reason", PStr "Execution failed")]) ;;;
  ret Fini.

(** One move of a call of [start_goal]. *)
Definition avancer (p : phase) : M Orchestrator phase :=
  match p with
  | Planifie g s ctx => planifier g s ctx
  | Engage g s k ds => engager g s k ds
  | Marche g s k ds t0 passes reprise => marcher g s k ds t0 passes reprise
  | Reprend g s k ds t0 => reprendre_marche g s k ds t0
  | Rapporte g s k ds duration error summary => rapporter g s k ds duration error summary
  | Arrete | Fini => ret p
  end.

(** A call that nothing interleaves with: the moves to its end. *)
Definition MAX_MOVES : nat := 206.

Fixpoint derouler (fuel : nat) (p : phase) : M Orchestrator phase :=
  match fuel with
  | O => ret p
  | S fuel' => match p with
               | Arrete | Fini => ret p
               | _ => p' <- avancer p ;; derouler fuel' p'
               end
  end.

(** [start_goal] *)
Definition start_goal (request : string) (ctx : pydict pyval) : M Orchestrator phase :=
  p <- recevoir request ctx ;; derouler MAX_MOVES p.

(** ** The other calls *)

(** [pause_goal] and [resume_goal] *)
Definition goal_at (id : string) (o : Orchestrator) : option (nat * AutonomousGoal) := n ← dget (oc_goals o) id; g ← oc_objs o !! n; Some (n, g).

Definition pause_goal (id : string) : M Orchestrator bool := fun o =>
  match goal_at id o with
  | Some (n, g) =>
      if decide (go_status g ∈ [GoalStatus.EXECUTING; GoalStatus.PLANNING])
      then (on_goal n (goal_with_status GoalStatus.PAUSED) ;;; ret true) o else (Ok false, o)
  | None => (Ok false, o)
  end.

Definition resume_goal (id : string) : M Orchestrator bool := fun o =>
  match goal_at id o with
  | Some (n, g) =>
      if decide (go_status g = GoalStatus.PAUSED) then (on_goal n (goal_with_status GoalStatus.EXECUTING) ;;; ret true) o else (Ok false, o)
  | None => (Ok false, o)
  end.

(** [get_session] *)
Definition session_of (id : string) (o : Orchestrator) : option AutonomousSession :=
  sid ← dget (oc_by_goal o) id; n ← dget (oc_sessions o) sid; oc_sobjs o !! n.

(** [cancel_goal] *)
Definition cancel_goal (id : string) : M Orchestrator bool := fun o =>
  match goal_at id o with
  | None => (Ok false, o)
  | Some (n, _) =>
      (on_goal n (goal_with_status GoalStatus.CANCELLED) ;;;
       match session_of id o with
       | Some x =>
           if decide (se_mission x = "") then ret true
           else match dget (oc_known o) (se_mission x) with
                | Some k => on_mission_exec k (fun e => cancel_mission e) ;;; ret true
                | None => ret true
                end
       | None => ret true
       end) o
  end.

(** The goals that are held, in the order of their arrival. *)
Definition held (o : Orchestrator) : list AutonomousGoal := omap (fun p => oc_objs o !! p.2) (oc_goals o).

(** [list_goals] *)
Definition list_goals (limit : nat) (o : Orchestrator) : list AutonomousGoal := take limit (rev (held o)).

(** [get_report] *)
Definition get_report (id : string) (o : Orchestrator) : option AutonomousReport :=
  List.find (fun r => bool_decide (ap_goal r = id)) (oc_reports o).

(** [get_status] *)
Record GoalCounts := mkCounts {
  gc_total : nat; gc_active : nat; gc_completed : nat; gc_failed : nat; gc_cancelled : nat; gc_executions : nat; gc_sessions : nat
}.

Definition count_goals (l : list GoalStatus.t) (o : Orchestrator) : nat :=
  length (List.filter (fun g => bool_decide (go_status g ∈ l)) (held o)).

Definition get_status (o : Orchestrator) : GoalCounts :=
  mkCounts (length (held o)) (count_goals [GoalStatus.ANALYZING; GoalStatus.PLANNING; GoalStatus.EXECUTING] o)
    (count_goals [GoalStatus.COMPLETED] o) (count_goals [GoalStatus.FAILED] o) (count_goals [GoalStatus.CANCELLED] o)
    (oc_count o) (length (oc_sessions o)).
End orchestrator.
