(* ===== verification/OrchestratorRuns.v ===== *)
(** * Goals in any order ([backend/autonomous/autonomous_orchestrator.py])

    The calls of [start_goal] advance one move at a time, and between two moves
    of one of them come the moves of the others, the pauses, the resumptions and
    the cancellations: what is retained after any sequence of them, what the
    gate lets through, what a cancellation stops and what it does not, and when a
    goal completes. *)
From stdpp Require Import base gmap strings list sets relations sorting pretty.
From Stdlib Require Import ZArith QArith Lia.
From S2P Require Import Prelude.
From S2P Require Import MissionGraph.
From S2P Require Import RetryPolicy.
From S2P Require Import GraphExecutor.
From S2P Require Import MissionRuns.
From S2P Require Import Aegis.
From S2P Require Import MissionDriver.
From S2P Require Import MissionWalks.
From S2P Require Import AutonomousGoals.
From S2P Require Import PlannerModels.
From S2P Require Import Orchestrator.
#[local] Open Scope Z_scope.

(** ** The calls in progress *)

Record Desk := mkDesk { dk_orch : Orchestrator; dk_calls : list phase }.

Inductive act :=
  | Receive (request : string) (ctx : pydict pyval)
  | Advance (i : nat)
  | PauseGoal (id : string)
  | ResumeGoal (id : string)
  | CancelGoal (id : string).

(** An exception that escapes ends the call. *)
Definition phase_of (r : res phase) : phase := match r with Ok p => p | Err _ => Arrete end.

Section desk.
Variable w : World.

Definition serve_act (a : act) (d : Desk) : Desk :=
  match a with
  | Receive request ctx => let '(r, o) := recevoir w request ctx (dk_orch d) in mkDesk o (dk_calls d ++ [phase_of r])
  | Advance i => match dk_calls d !! i with
                 | Some p => let '(r, o) := avancer w p (dk_orch d) in mkDesk o (<[i := phase_of r]> (dk_calls d))
                 | None => d
                 end
  | PauseGoal id => mkDesk (pause_goal id (dk_orch d)).2 (dk_calls d)
  | ResumeGoal id => mkDesk (resume_goal id (dk_orch d)).2 (dk_calls d)
  | CancelGoal id => mkDesk (cancel_goal w id (dk_orch d)).2 (dk_calls d)
  end.

Definition serve_acts (l : list act) (d : Desk) : Desk := fold_left (fun d a => serve_act a d) l d.

Lemma serve_acts_inv (P : Desk -> Prop) l d : (forall a d, P d -> P (serve_act a d)) -> P d -> P (serve_acts l d).
Proof. intros Hs. revert d. induction l as [|a l IH]; intros d Hd; [done|]. cbn. by apply IH, Hs. Qed.

(** What every move keeps. *)
Definition kept (P : Orchestrator -> Prop) : Prop :=
  (forall request ctx, preserves P (recevoir w request ctx)) /\ (forall p, preserves P (avancer w p)) /\
  (forall id, preserves P (pause_goal id)) /\ (forall id, preserves P (resume_goal id)) /\ (forall id, preserves P (cancel_goal w id)).

Lemma serve_kept P a d : kept P -> P (dk_orch d) -> P (dk_orch (serve_act a d)).
Proof.
  intros (Hr & Ha & Hp & Hm & Hc) Hd. destruct a as [request ctx|i|id|id|id]; cbn [serve_act dk_orch].
  - specialize (Hr request ctx (dk_orch d) Hd). by destruct (recevoir _ _ _ _).
  - destruct (dk_calls d !! i) as [p|]; [|done]. specialize (Ha p (dk_orch d) Hd). by destruct (avancer _ _ _).
  - by apply Hp.
  - by apply Hm.
  - by apply Hc.
Qed.

(** A property of what is retained, that the marks of the goals and of the
    sessions leave as they are, is kept as soon as receptions and reports keep
    it. *)
Record marked (P : Orchestrator -> Prop) : Prop := Marked {
  mk_goal : forall o i f, P o -> (forall g, go_id (f g) = go_id g) -> P (set_goals (oc_goals o) (alter f i (oc_objs o)) o);
  mk_session : forall o i f, P o -> (forall s, se_id (f s) = se_id s /\ se_goal (f s) = se_goal s) ->
    P (set_sessions (oc_sessions o) (alter f i (oc_sobjs o)) (oc_by_goal o) o);
  mk_missions : forall o x y, P o -> P (set_missions x y o);
  mk_blocked : forall o x, P o -> P (set_blocked x o);
  mk_events : forall o x, P o -> P (set_orch_events x o);
  mk_perfs : forall o x, P o -> P (set_perfs x o)
}.

Section marked.
Variable P : Orchestrator -> Prop.
Hypothesis HP : marked P.

Lemma keeps_on_goal i f : (forall g, go_id (f g) = go_id g) -> preserves P (on_goal i f).
Proof. intros Hf o Ho. by apply (mk_goal P HP). Qed.

Lemma keeps_on_session i f : (forall s, se_id (f s) = se_id s /\ se_goal (f s) = se_goal s) -> preserves P (on_session i f).
Proof. intros Hf o Ho. by apply (mk_session P HP). Qed.

Lemma keeps_announce_goal type data : preserves P (announce type data).
Proof. intros o Ho. by apply (mk_events P HP). Qed.

Lemma keeps_read_perf : preserves P (read_perf w).
Proof. intros o Ho. by apply (mk_perfs P HP). Qed.

Lemma keeps_the_goal i : preserves P (the_goal i).
Proof. intros o Ho. unfold the_goal. by destruct (_ !! i). Qed.

Lemma keeps_the_session i : preserves P (the_session i).
Proof. intros o Ho. unfold the_session. by destruct (_ !! i). Qed.

Lemma keeps_on_mission_exec {A} k (m : Env -> M Exec A) : preserves P (on_mission_exec w k m).
Proof.
  intros o Ho. unfold on_mission_exec. destruct (_ !! k) as [x|]; [|done]. destruct (m _ x) as [r x']. by apply (mk_missions P HP).
Qed.

Lemma keeps_mission_at k : preserves P (mission_at w k).
Proof. apply keeps_on_mission_exec. Qed.

Lemma keeps_guarded ty target path : preserves P (guarded w ty target path).
Proof. intros o Ho. unfold guarded, zoom. destruct (check_action _ _ _ _ _ _). by apply (mk_blocked P HP). Qed.
#[local] Hint Resolve keeps_announce_goal keeps_read_perf keeps_the_goal keeps_the_session keeps_on_mission_exec keeps_mission_at
  keeps_guarded : hermes.

Ltac keep := repeat lazymatch goal with |- preserves _ (bind _ _) => apply preserves_bind; [|intros ?] end;
  try solve [auto with hermes | by apply keeps_on_goal | by apply keeps_on_session].

Lemma keeps_fail i reason : preserves P (fail_goal i reason).
Proof. unfold fail_goal. keep. Qed.
#[local] Hint Resolve keeps_fail : hermes.

Lemma keeps_controler g s ctx : preserves P (controler w g s ctx).
Proof.
  unfold controler. apply preserves_bind; [auto with hermes|]. intros goal. apply preserves_bind.
  - destruct (risk_relevant goal); auto with hermes.
  - intros []; keep.
Qed.

Lemma keeps_planifier g s ctx : preserves P (planifier w g s ctx).
Proof.
  unfold planifier. keep. destruct (pl_tasks _); [auto with hermes|]. keep.
  - intros o Ho. by apply (mk_missions P HP).
  - destruct (workspace_refuse _ _); keep.
Qed.

Lemma keeps_engager g s k ds : preserves P (engager w g s k ds).
Proof.
  unfold engager. keep. destruct (_ : list message); keep. destruct (_ : bool); keep.
Qed.

Lemma keeps_mesurer g s k ds t0 : preserves P (mesurer_marche w g s k ds t0).
Proof. unfold mesurer_marche. keep. Qed.

Lemma keeps_apres g s k ds t0 reprise : preserves P (apres_marche w g s k ds t0 reprise).
Proof. unfold apres_marche. destruct reprise; [apply keeps_mesurer|auto with hermes]. Qed.
#[local] Hint Resolve keeps_controler keeps_planifier keeps_engager keeps_mesurer keeps_apres : hermes.

Lemma keeps_marcher g s k ds t0 passes reprise : preserves P (marcher w g s k ds t0 passes reprise).
Proof. unfold marcher. keep. destruct (_ || _); keep. destruct (_ =? 0); keep. Qed.

Lemma keeps_reprendre g s k ds t0 : preserves P (reprendre_marche w g s k ds t0).
Proof. unfold reprendre_marche. keep. destruct (_ : bool); keep. Qed.
#[local] Hint Resolve keeps_marcher keeps_reprendre : hermes.

Lemma keeps_rapporter g s k ds duration error summary :
  (forall o r, P o -> P (set_reports (deque_append MAX_REPORTS (oc_reports o) r) (S (oc_count o))
                           (process_report (wo_memory w) r (oc_memory o)) o)) ->
  preserves P (rapporter w g s k ds duration error summary).
Proof.
  intros Hr. unfold rapporter. keep.
  - destruct error; keep.
  - intros o Ho. by apply Hr.
  - destruct (ap_success _); keep.
Qed.

Lemma marked_kept :
  (forall o r, P o -> P (set_reports (deque_append MAX_REPORTS (oc_reports o) r) (S (oc_count o))
                           (process_report (wo_memory w) r (oc_memory o)) o)) ->
  (forall request ctx, preserves P (inscrire w request ctx)) -> kept P.
Proof.
  intros Hr Hi. split_and!.
  - intros request ctx. unfold recevoir. keep.
    + destruct (decide _); auto with hermes.
    + destruct (decide _); keep.
  - intros []; cbn [avancer]; auto with hermes. by apply keeps_rapporter.
  - intros id o Ho. unfold pause_goal. destruct (goal_at id o) as [[n g]|]; [|done]. destruct (decide _); [|done].
    by apply (mk_goal P HP).
  - intros id o Ho. unfold resume_goal. destruct (goal_at id o) as [[n g]|]; [|done]. destruct (decide _); [|done].
    by apply (mk_goal P HP).
  - intros id o Ho. unfold cancel_goal. destruct (goal_at id o) as [[n g]|]; [|done].
    apply (fun H : preserves P (on_goal n (goal_with_status GoalStatus.CANCELLED) ;;;
      match session_of id o with
      | Some x => if decide (se_mission x = "") then ret true
                  else match dget (oc_known o) (se_mission x) with
                       | Some k => on_mission_exec w k (fun e => cancel_mission e) ;;; ret true
                       | None => ret true
                       end
      | None => ret true
      end) => H o Ho). clear Ho. keep. destruct (session_of id o); [|auto with hermes]. destruct (decide _); [auto with hermes|].
    destruct (dget _ _); keep.
Qed.
End marked.
End desk.

(** ** What is retained *)

(** Goals and sessions, by their ids and in the order of their arrival: at most
    [MAX_RETAINED_GOALS] of them, a session for each goal and no other; and the
    bounds on the reports and on what is learned. *)
Record retained (o : Orchestrator) : Prop := Retained {
  rt_bound : (length (oc_goals o) <= MAX_RETAINED_GOALS)%nat;
  rt_wf : dict_wf (oc_goals o);
  rt_index : oc_by_goal o = map (fun id => (id, session_id id)) (dkeys (oc_goals o));
  rt_sessions : dkeys (oc_sessions o) = map session_id (dkeys (oc_goals o));
  rt_goals : forall id n, (id, n) ∈ oc_goals o -> exists g, oc_objs o !! n = Some g /\ go_id g = id;
  rt_owners : forall sid n, (sid, n) ∈ oc_sessions o -> exists s, oc_sobjs o !! n = Some s /\ se_id s = sid /\ sid = session_id (se_goal s);
  rt_reports : (length (oc_reports o) <= MAX_REPORTS)%nat;
  rt_learnings : (length (me_learnings (oc_memory o)) <= MAX_RETAINED_LEARNINGS)%nat
}.

Lemma retained_new : retained new_orchestrator.
Proof. split; cbn; try done; try lia; try constructor; intros ? ? H; by apply elem_of_nil in H. Qed.

Lemma retained_marked : marked retained.
Proof.
  split.
  - intros o i f Ho Hf. destruct Ho. split; cbn; try done. intros id n Hin. destruct (rt_goals0 id n Hin) as (g & Hg & <-).
    rewrite list_lookup_alter. destruct (decide (i = n)) as [->|]; [|eauto]. rewrite Hg. cbn. eexists. split; [done|apply Hf].
  - intros o i f Ho Hf. destruct Ho. split; cbn; try done. intros sid n Hin. destruct (rt_owners0 sid n Hin) as (s & Hs & <- & Hid).
    rewrite list_lookup_alter. destruct (decide (i = n)) as [->|]; [|eauto]. rewrite Hs. cbn. destruct (Hf s) as [H1 H2].
    eexists. split; [done|]. by rewrite H1, H2.
  - intros o x y []. by split.
  - intros o x []. by split.
  - intros o x []. by split.
  - intros o x []. by split.
Qed.

Lemma retained_report w o r : retained o ->
  retained (set_reports (deque_append MAX_REPORTS (oc_reports o) r) (S (oc_count o)) (process_report (wo_memory w) r (oc_memory o)) o).
Proof.
  intros []. split; cbn [set_reports oc_goals oc_by_goal oc_sessions oc_objs oc_sobjs oc_reports oc_memory process_report me_learnings];
    try done; by apply deque_append_length.
Qed.

Lemma session_id_inj : Inj (=) (=) session_id.
Proof. intros a b. unfold session_id. apply (inj (String.append "session_")). Qed.
#[local] Existing Instance session_id_inj.

Lemma dset_index id K :
  dset (map (fun id => (id, session_id id)) K) id (session_id id)
  = map (fun id => (id, session_id id)) (if decide (id ∈ K) then K else K ++ [id]).
Proof.
  induction K as [|k K IH]; [done|]. cbn [map dset]. destruct (decide (k = id)) as [->|Hne].
  - rewrite decide_True by set_solver. done.
  - rewrite IH. repeat case_decide; try set_solver; done.
Qed.

Lemma dkeys_dset_cases {V} (d : pydict V) k v : dkeys (dset d k v) = if decide (k ∈ dkeys d) then dkeys d else dkeys d ++ [k].
Proof.
  case_decide; [by apply dkeys_dset_mem|]. rewrite dkeys_dset_new by done. by rewrite dkeys_app.
Qed.

Lemma evict_small fuel o : (length (oc_goals o) <= MAX_RETAINED_GOALS)%nat -> evict_goals fuel o = o.
Proof. intros H. destruct fuel; [done|]. cbn [evict_goals]. by rewrite (proj2 (Nat.leb_le _ _) H). Qed.

(** After the eviction, the entries of the sessions and of their index are those
    of the goals but the one just received. *)
Lemma evict_received o id n objs fuel : retained o -> (length (oc_goals o) < fuel)%nat ->
  let o2 := evict_goals fuel (set_goals (dset (oc_goals o) id n) objs o) in
  exists K, oc_by_goal o2 = map (fun id => (id, session_id id)) K /\ dkeys (oc_sessions o2) = map session_id K /\
    dkeys (oc_goals o2) = (if decide (id ∈ K) then K else K ++ [id]) /\ NoDup K /\ (length (oc_goals o2) <= MAX_RETAINED_GOALS)%nat /\
    (forall e, e ∈ oc_goals o2 -> e ∈ dset (oc_goals o) id n) /\ (forall e, e ∈ oc_sessions o2 -> e ∈ oc_sessions o) /\
    oc_objs o2 = objs /\ oc_sobjs o2 = oc_sobjs o /\ oc_reports o2 = oc_reports o /\ oc_memory o2 = oc_memory o.
Proof.
  intros [Hb Hwf Hi Hs _ _ _ _] Hf. set (o1 := set_goals _ objs o). intros o2.
  assert (Hk : dkeys (oc_goals o1) = if decide (id ∈ dkeys (oc_goals o)) then dkeys (oc_goals o) else dkeys (oc_goals o) ++ [id])
    by apply dkeys_dset_cases.
  destruct (Nat.le_gt_cases (length (oc_goals o1)) MAX_RETAINED_GOALS) as [Hle|Hgt].
  { unfold o2. rewrite evict_small by done. exists (dkeys (oc_goals o)). by split_and!. }
  destruct (decide (id ∈ dkeys (oc_goals o))) as [Hin|Hin].
  { apply (f_equal length) in Hk. rewrite !dkeys_length in Hk. lia. }
  assert (Heq : oc_goals o1 = oc_goals o ++ [(id, n)]) by (by apply dkeys_dset_new).
  rewrite Heq, length_app in Hgt. cbn [length] in Hgt.
  destruct (oc_goals o) as [|[i0 n0] rest] eqn:Eg; [cbn in Hgt; unfold MAX_RETAINED_GOALS in Hgt; lia|].
  change (dkeys ((i0, n0) :: rest)) with (i0 :: dkeys rest) in Hi, Hs. cbn [map] in Hi, Hs. destruct (oc_sessions o) as [|[sid m] ss] eqn:Es; [done|]. injection Hs as -> Hs.
  destruct fuel as [|fuel]; [lia|]. cbn [length] in Hb, Hgt.
  assert (Ho2 : o2 = set_sessions ss (oc_sobjs o) (map (fun id => (id, session_id id)) (dkeys rest))
                       (set_goals (rest ++ [(id, n)]) objs o)).
  { unfold o2. cbn [evict_goals]. rewrite Heq. cbn [app length]. rewrite length_app. cbn [length].
    rewrite (proj2 (Nat.leb_gt _ _)) by lia. change (oc_by_goal o1) with (oc_by_goal o). change (oc_sessions o1) with (oc_sessions o).
    rewrite Hi, Es. cbn [dget ddel].
    rewrite (decide_True (P := i0 = i0)) by done. cbn [ddel]. rewrite !decide_True by done. rewrite evict_small; [done|]. cbn. rewrite length_app. cbn. lia. }
  rewrite Ho2. exists (dkeys rest). cbn [set_sessions set_goals oc_by_goal oc_sessions oc_goals oc_objs oc_sobjs oc_reports oc_memory].
  apply NoDup_cons in Hwf as [_ Hwf]. change (id ∉ i0 :: dkeys rest) in Hin.
  split; [done|]. split; [done|]. split; [rewrite dkeys_app, decide_False by set_solver; done|]. split; [exact Hwf|].
  split; [rewrite length_app; cbn; lia|]. split; [|split; [set_solver|done]]. intros e He. rewrite dkeys_dset_new; [|done]. set_solver.
Qed.

Lemma elem_dset_inv {V} (d : pydict V) k v e : e ∈ dset d k v -> e = (k, v) \/ e ∈ d.
Proof.
  induction d as [|[k' v'] d IH]; cbn; [set_solver|]. case_decide; [subst|]; rewrite !elem_of_cons; naive_solver.
Qed.

Lemma inscrire_retained w request ctx : preserves retained (inscrire w request ctx).
Proof.
  intros o Ho. unfold inscrire. set (goal := interpret _ _ _ _ _ _). set (n := length (oc_objs o)). cbv zeta. cbn [snd].
  destruct (evict_received o (go_id goal) n (oc_objs o ++ [goal]) (S (length (oc_goals o))) Ho) as (K & H); [lia|]. revert H.
  set (o2 := evict_goals _ _). intros (HB & HS & HK & Hnd & Hle & Hg & Hs & Hobjs & Hsobjs & Hr & Hm).
  destruct Ho as [_ _ _ _ Hgo Hso Hrep Hlearn].
  split; cbn [set_sessions set_orch_events oc_goals oc_by_goal oc_sessions oc_objs oc_sobjs oc_reports oc_memory se_id]; try done.
  - unfold dict_wf. rewrite HK. case_decide; [done|]. apply NoDup_app. split; [done|]. split; [|apply NoDup_singleton]. set_solver.
  - rewrite HB, dset_index. by rewrite HK.
  - rewrite dkeys_dset_cases, HS, HK. destruct (decide (go_id goal ∈ K)) as [Hin|Hin].
    + rewrite decide_True; [done|]. apply list_elem_of_fmap. by exists (go_id goal).
    + rewrite decide_False; [by rewrite map_app|]. intros (x & Hx & Hxin)%list_elem_of_fmap. apply session_id_inj in Hx. by subst.
  - intros id i Hin%Hg%elem_dset_inv. rewrite Hobjs. destruct Hin as [[= -> ->]|Hin].
    + exists goal. split; [|done]. by rewrite lookup_app_r, Nat.sub_diag by done.
    + destruct (Hgo id i Hin) as (g & Hgi & <-). exists g. split; [|done]. by apply lookup_app_l_Some.
  - intros sid i Hin%elem_dset_inv. rewrite Hsobjs. destruct Hin as [[= -> ->]|Hin%Hs].
    + cbn [oc_sobjs set_orch_events]. rewrite Hsobjs. eexists. split; [by rewrite lookup_app_r, Nat.sub_diag by done|]. done.
    + destruct (Hso sid i Hin) as (x & Hx & H1). exists x. split; [|done]. by apply lookup_app_l_Some.
  - by rewrite Hr.
  - by rewrite Hm.
Qed.

Lemma retained_kept w : kept w retained.
Proof. apply marked_kept; [apply retained_marked|apply retained_report|apply inscrire_retained]. Qed.

(** C28: After any receptions, moves, pauses, resumptions and cancellations, in any
    order, there are at most [MAX_RETAINED_GOALS] goals, [MAX_REPORTS] reports
    and [MAX_RETAINED_LEARNINGS] learnings; every retained goal has one session,
    which is its own, and no session outlives its goal. *)
Theorem goals_retained w l calls :
  let o := dk_orch (serve_acts w l (mkDesk new_orchestrator calls)) in
  (length (oc_goals o) <= MAX_RETAINED_GOALS)%nat /\ (length (oc_reports o) <= MAX_REPORTS)%nat /\
  (length (me_learnings (oc_memory o)) <= MAX_RETAINED_LEARNINGS)%nat /\
  dkeys (oc_sessions o) = map session_id (dkeys (oc_goals o)) /\
  forall id, id ∈ dkeys (oc_goals o) -> exists n g s, goal_at id o = Some (n, g) /\ go_id g = id /\ session_of id o = Some s /\ se_goal s = id.
Proof.
  intros o. assert (Ho : retained o).
  { apply (serve_acts_inv w (fun d => retained (dk_orch d))); [|apply retained_new]. intros a d. apply serve_kept, retained_kept. }
  split; [apply Ho|]. split; [apply Ho|]. split; [apply Ho|]. split; [apply Ho|]. intros id Hid.
  destruct (proj2 (dget_is_Some _ _) Hid) as [n Hn]. destruct (rt_goals _ Ho id n (dget_Some_elem _ _ _ Hn)) as (g & Hg & Hgid).
  assert (Hb : dget (oc_by_goal o) id = Some (session_id id)).
  { rewrite (rt_index _ Ho). clear -Hid. induction (dkeys (oc_goals o)) as [|k K IH]; [by apply elem_of_nil in Hid|].
    cbn [map dget]. case_decide; [by subst|]. apply IH. set_solver. }
  assert (Hsid : session_id id ∈ dkeys (oc_sessions o)) by (rewrite (rt_sessions _ Ho); apply list_elem_of_fmap; by exists id).
  destruct (proj2 (dget_is_Some _ _) Hsid) as [m Hm].
  destruct (rt_owners _ Ho _ m (dget_Some_elem _ _ _ Hm)) as (s & Hs & _ & Hown%session_id_inj).
  exists n, g, s. unfold goal_at, session_of. rewrite Hn, Hb. cbn. rewrite Hg, Hm. by split_and!.
Qed.

(** ** What a cancellation stops *)

(** From [P], whatever [m] does, [P] still holds and what it answers satisfies
    [Q]. *)
Definition answers_in {S A} (P : S -> Prop) (Q : A -> Prop) (m : M S A) : Prop :=
  forall s, P s -> P (m s).2 /\ forall a, (m s).1 = Ok a -> Q a.

Section answers_in.
Context {S : Type} (P : S -> Prop).

Lemma kept_ret {A} (Q : A -> Prop) (a : A) : Q a -> answers_in P Q (ret a).
Proof. intros Ha s Hs. split; [done|]. by intros ? [= <-]. Qed.

Lemma kept_bind {A B} Q' Q (m : M S A) (f : A -> M S B) :
  answers_in P Q' m -> (forall a, Q' a -> answers_in P Q (f a)) -> answers_in P Q (bind m f).
Proof.
  intros Hm Hf s Hs. unfold bind. destruct (Hm s Hs) as [Hs' Ha]. destruct (m s) as [[a|e] s']; [|done].
  apply (Hf a (Ha a eq_refl)). exact Hs'.
Qed.

Lemma kept_preserves {A} (m : M S A) : preserves P m -> answers_in P (fun _ => True) m.
Proof. intros Hm s Hs. split; [by apply Hm|done]. Qed.

Lemma kept_then {A B} Q (m : M S A) (f : A -> M S B) :
  preserves P m -> (forall a, answers_in P Q (f a)) -> answers_in P Q (bind m f).
Proof. intros Hm Hf. apply (kept_bind (fun _ => True)); [by apply kept_preserves|auto]. Qed.
End answers_in.


(** A cancelled mission, without a brief for a second attempt. *)
Definition halted (runs : list (nat * nat)) (x : Exec) : Prop :=
  gx_runs x = runs /\ mi_status (gx_mission x) = MissionStatus.CANCELLED /\
  dict_wf (mi_metadata (gx_mission x)) /\ suggested (gx_mission x) = false.


Lemma preparer_none env x : suggested (gx_mission x) = false ->
  preparer_reprise env x = (Ok false, on_mission (fun m => with_metadata (ddel (mi_metadata m) "retry_brief") m) x).
Proof.
  unfold suggested, preparer_reprise, bind, gmission, update. intros Hs.
  destruct (dget (mi_metadata (gx_mission x)) "retry_brief") as [[| | | |text| |]|]; try done.
  destruct (decide (text = "")); [done|]. by rewrite bool_decide_eq_false_2 in Hs.
Qed.


Section halted.
Variable w : World.
Variable k : nat.
Variable runs : list (nat * nat).

Definition still (o : Orchestrator) : Prop := exists x, oc_missions o !! k = Some x /\ halted runs x.

Lemma still_on_mission {A} k' (m : Env -> M Exec A) :
  (k' = k -> preserves (halted runs) (m (wo_env w k))) -> preserves still (on_mission_exec w k' m).
Proof.
  intros Hm o (x & Hx & Hh). unfold on_mission_exec. destruct (decide (k' = k)) as [->|Hne].
  - rewrite Hx. specialize (Hm eq_refl x Hh). destruct (m _ x) as [r x']. exists x'. split; [|done].
    apply list_lookup_insert_eq. by eapply lookup_lt_Some.
  - destruct (oc_missions o !! k') as [y|]; [|by exists x]. destruct (m _ y) as [r y']. exists x. split; [|done].
    cbn. by rewrite list_lookup_insert_ne.
Qed.


Lemma still_keeps_mission_at k' : preserves still (mission_at w k').
Proof. apply still_on_mission. by intros _ ? ?. Qed.

Lemma still_on_goal i f : preserves still (on_goal i f).
Proof. by intros o Ho. Qed.
Lemma still_on_session i f : preserves still (on_session i f).
Proof. by intros o Ho. Qed.
Lemma still_announce type data : preserves still (announce type data).
Proof. by intros o Ho. Qed.
Lemma still_read_perf : preserves still (read_perf w).
Proof. by intros o Ho. Qed.
Lemma still_the_goal i : preserves still (the_goal i).
Proof. intros o Ho. unfold the_goal. by destruct (_ !! i). Qed.
Lemma still_the_session i : preserves still (the_session i).
Proof. intros o Ho. unfold the_session. by destruct (_ !! i). Qed.
Lemma still_guarded ty target path : preserves still (guarded w ty target path).
Proof. intros o Ho. unfold guarded, zoom. by destruct (check_action _ _ _ _ _ _). Qed.
Lemma still_evict fuel o : still o -> still (evict_goals fuel o).
Proof.
  revert o. induction fuel as [|fuel IH]; intros o Ho; cbn [evict_goals]; [done|]. destruct (_ <=? _)%nat; [done|].
  destruct (oc_goals o) as [|[id n] rest]; [done|]. by destruct (dget _ _); apply IH.
Qed.
Lemma still_inscrire request ctx : preserves still (inscrire w request ctx).
Proof.
  intros o Ho. unfold inscrire. cbv zeta. cbn [snd].
  match goal with |- context [evict_goals ?f ?o1] => pose proof (still_evict f o1 Ho) as H end. exact H.
Qed.
#[local] Hint Resolve still_on_goal still_on_session still_announce still_read_perf still_the_goal still_the_session
  still_guarded still_keeps_mission_at still_inscrire : hermes.


Ltac still := repeat lazymatch goal with
  | |- answers_in _ _ (bind _ _) => apply kept_then; [|intros ?]
  | |- answers_in _ _ (ret _) => apply kept_ret
  end; auto with hermes.













End halted.

(** The goal [id] runs the mission [k]. *)
Definition runs_mission (id : string) (k : nat) (o : Orchestrator) : Prop :=
  exists n g x, goal_at id o = Some (n, g) /\ session_of id o = Some x /\ se_mission x <> "" /\ dget (oc_known o) (se_mission x) = Some k.


(** ** What a cancellation does not stop *)

(** A phase that is about to start the mission [x], a first time or again. *)
Inductive about_to_start (k : nat) (x : Exec) : phase -> Prop :=
  | as_first g s ds :
      built (graph_build (map (with_mission_id (mi_id (gx_mission x))) (mi_nodes (gx_mission x))) (mi_edges (gx_mission x)) (gx_mission x)) ->
      about_to_start k x (Engage g s k ds)
  | as_again g s ds t0 : suggested (gx_mission x) = true -> about_to_start k x (Reprend g s k ds t0).

(** It is now walked. *)
Definition walks (k : nat) (p : phase) : Prop := exists g s ds t0 reprise, p = Marche g s k ds t0 0 reprise.

Section lost.
Variable w : World.
Variable k : nat.
Hypothesis Hrel : reliable (wo_env w k).

Lemma wp_on_mission_exec {A} (m : Env -> M Exec A) (Q : A -> Orchestrator -> Prop) o x :
  oc_missions o !! k = Some x ->
  wp (m (wo_env w k)) (fun a x' => Q a (set_missions (<[k := x']> (oc_missions o)) (oc_known o) o)) x ->
  wp (on_mission_exec w k m) Q o.
Proof. intros Hx. unfold wp, on_mission_exec. rewrite Hx. by destruct (m _ x) as [[a|e] x']. Qed.

Lemma wp_mission_at {A} (f : Mission -> M Orchestrator A) Q o x :
  oc_missions o !! k = Some x -> wp (f (gx_mission x)) Q o -> wp (bind (mission_at w k) f) Q o.
Proof.
  intros Hx Hf. apply wp_bind. apply (wp_on_mission_exec _ _ _ x Hx). unfold wp, gmission. cbn [gx_mission].
  rewrite list_insert_id by done. by destruct o.
Qed.

Lemma wp_read_perf {A} (f : Q -> M Orchestrator A) Q o :
  wp (f (wo_perf w (oc_perfs o))) Q (set_perfs (S (oc_perfs o)) o) -> wp (bind (read_perf w) f) Q o.
Proof. done. Qed.

Lemma insert_missions k' x x' o : oc_missions o !! k' = Some x -> <[k' := x']> (oc_missions o) !! k' = Some x'.
Proof. intros Hx. apply list_lookup_insert_eq. by eapply lookup_lt_Some. Qed.

(** The cancelled mission, seen from what starts it. *)
Definition cancelled_as (x x' : Exec) : Prop :=
  mi_id (gx_mission x') = mi_id (gx_mission x) /\ touched x x' /\ mi_metadata (gx_mission x') = mi_metadata (gx_mission x).

Lemma wp_cancel_goal id o x :
  runs_mission id k o -> oc_missions o !! k = Some x ->
  wp (cancel_goal w id) (fun b o' => b = true /\ exists x', oc_missions o' !! k = Some x' /\ cancelled_as x x') o.
Proof.
  intros (n & g & s & Hg & Hs & Hm & Hk) Hx. unfold cancel_goal, wp. rewrite Hg. cbn [bind on_goal omodify]. rewrite Hs, decide_False, Hk by done.
  set (o1 := set_goals _ _ o). assert (Hx1 : oc_missions o1 !! k = Some x) by exact Hx. clearbody o1.
  apply (wp_bind (on_mission_exec w k (fun e => cancel_mission e))). apply (wp_on_mission_exec _ _ _ x Hx1).
  eapply wp_mono; [by apply wp_cancel|]. intros b x' (Ht & Hid & Hmeta & _). apply wp_ret. split; [done|].
  exists x'. split; [by apply (insert_missions _ x)|]. by split_and!.
Qed.

Lemma wp_engager x g s ds o :
  oc_missions o !! k = Some x ->
  built (graph_build (map (with_mission_id (mi_id (gx_mission x))) (mi_nodes (gx_mission x))) (mi_edges (gx_mission x)) (gx_mission x)) ->
  wp (engager w g s k ds) (fun p o' => walks k p /\ exists x', oc_missions o' !! k = Some x' /\
        mi_status (gx_mission x') = MissionStatus.RUNNING /\ gx_runs x' = gx_runs x) o.
Proof.
  intros Hx Hb. unfold engager. apply wp_read_perf. set (o1 := set_perfs _ o). assert (Hx1 : oc_missions o1 !! k = Some x) by done.
  apply (wp_mission_at _ _ _ x Hx1), wp_bind, (wp_on_mission_exec _ _ _ x Hx1).
  eapply wp_mono; [apply build_mission_spec|]. cbn zeta. intros issues x2 (Hg2 & Hr2 & Hcase).
  destruct Hcase as [(-> & _ & Hst2)|(_ & Hnb & _)]; [|destruct Hnb; by eapply built_same].
  set (o2 := set_missions _ _ o1). assert (Hx2 : oc_missions o2 !! k = Some x2) by (by apply (insert_missions _ x)).
  apply wp_bind, (wp_on_mission_exec _ _ _ x2 Hx2). eapply wp_mono; [by apply wp_start|].
  intros b x3 (-> & (_ & _ & Hr3) & _ & Hst3). rewrite Hst2 in Hst3 |- *. specialize (Hst3 eq_refl).
  change (startable MissionStatus.READY) with true. apply wp_ret. split; [by eexists _, _, _, _, _|].
  exists x3. split; [by apply (insert_missions _ x2)|]. split; [done|congruence].
Qed.

Lemma wp_reprendre x g s ds t0 o :
  oc_missions o !! k = Some x -> dict_wf (mi_metadata (gx_mission x)) -> suggested (gx_mission x) = true ->
  wp (reprendre_marche w g s k ds t0) (fun p o' => walks k p /\ exists x', oc_missions o' !! k = Some x' /\
        mi_status (gx_mission x') = MissionStatus.RUNNING) o.
Proof.
  intros Hx Hwf Hs. unfold reprendre_marche. apply wp_bind, (wp_on_mission_exec _ _ _ x Hx).
  eapply wp_mono; [by apply wp_preparer|]. cbn beta. intros b x' [-> Hb]. rewrite Hs in Hb |- *. destruct Hb as (_ & _ & Hst).
  apply wp_ret. split; [by eexists _, _, _, _, _|]. exists x'. split; [by apply (insert_missions _ x)|done].
Qed.
End lost.

(** A cancellation that comes between the plan and the start of its mission,
    or between its end and its second attempt, is answered [True] and lost: the
    next move of the call starts the mission all the same. *)
Theorem cancel_lost w id k x p o :
  reliable (wo_env w k) -> runs_mission id k o -> oc_missions o !! k = Some x -> dict_wf (mi_metadata (gx_mission x)) ->
  about_to_start k x p ->
  exists o1 p' o2 x', cancel_goal w id o = (Ok true, o1) /\ avancer w p o1 = (Ok p', o2) /\ walks k p' /\
    oc_missions o2 !! k = Some x' /\ mi_status (gx_mission x') = MissionStatus.RUNNING.
Proof.
  intros Hrel Hid Hx Hwf Hp.
  destruct (wp_ok _ _ _ (wp_cancel_goal w k Hrel id o x Hid Hx)) as (b & o1 & Hrun & -> & x1 & Hx1 & Hmid & (Hn & He & Hr) & Hmeta).
  destruct Hp as [g s ds Hb|g s ds t0 Hs].
  - assert (Hb1 : built (graph_build (map (with_mission_id (mi_id (gx_mission x1))) (mi_nodes (gx_mission x1))) (mi_edges (gx_mission x1)) (gx_mission x1))).
    { rewrite Hmid, Hn, He. eapply built_same, Hb. by split_and!. }
    destruct (wp_ok _ _ _ (wp_engager w k Hrel x1 g s ds o1 Hx1 Hb1)) as (p' & o2 & Hrun2 & Hw & x2 & Hx2 & Hst & _).
    by exists o1, p', o2, x2.
  - rewrite <- (suggested_meta _ _ Hmeta) in Hs. rewrite <- Hmeta in Hwf.
    destruct (wp_ok _ _ _ (wp_reprendre w k Hrel x1 g s ds t0 o1 Hx1 Hwf Hs)) as (p' & o2 & Hrun2 & Hw & x2 & Hx2 & Hst).
    by exists o1, p', o2, x2.
Qed.

Lemma alter_forgets (g : nat) st (objs : list AutonomousGoal) :
  alter (goal_with_status st) g (alter (goal_with_status GoalStatus.CANCELLED) g objs) = alter (goal_with_status st) g objs.
Proof. by rewrite list_alter_alter_eq. Qed.

(** A cancellation that comes before the mission of the goal is known leaves
    no trace: it is answered [True], and the planning then gives what it would
    have given, the status of the goal included. *)
Theorem cancel_before_plan_forgotten w id g s ctx o gl x p o' :
  goal_at id o = Some (g, gl) -> session_of id o = Some x -> se_mission x = "" ->
  planifier w g s ctx o = (Ok p, o') ->
  exists o1, cancel_goal w id o = (Ok true, o1) /\ planifier w g s ctx o1 = (Ok p, o').
Proof.
  intros Hg Hs Hm Hrun. eexists. unfold cancel_goal. rewrite Hg. cbn [bind on_goal omodify]. rewrite Hs, decide_True by done.
  split; [reflexivity|].
  assert (Hgl : oc_objs o !! g = Some gl).
  { unfold goal_at in Hg. destruct (dget (oc_goals o) id) as [n|]; [|done]. cbn in Hg. destruct (oc_objs o !! n) eqn:E; [|done].
    by injection Hg as -> ->. }
  set (o1 := set_goals _ _ o).
  assert (Hgl1 : the_goal g o1 = (Ok (goal_with_status GoalStatus.CANCELLED gl), o1)).
  { unfold the_goal, o1. cbn [oc_objs set_goals]. rewrite list_lookup_alter, decide_True by done. by rewrite Hgl. }
  rewrite <- Hrun. unfold planifier in *. rewrite (bind_ok _ _ _ _ _ Hgl1).
  assert (Hgl0 : the_goal g o = (Ok gl, o)) by (unfold the_goal; by rewrite Hgl).
  rewrite (bind_ok _ _ _ _ _ Hgl0) in Hrun |- *.
  change (planning_request ?i (goal_with_status GoalStatus.CANCELLED gl)) with (planning_request i gl).
  assert (Hfail : forall reason t, oc_objs t = oc_objs o ->
    fail_goal g reason (set_goals (oc_goals t) (oc_objs o1) t) = fail_goal g reason t).
  { intros reason t Ht. unfold fail_goal, bind, the_goal, on_goal, omodify, announce, ret. cbn [set_goals oc_objs oc_goals oc_events].
    unfold o1. cbn [set_goals oc_objs]. rewrite list_lookup_alter_eq, Ht, Hgl. cbn [fmap option_fmap option_map].
    unfold omodify. cbn [set_goals oc_objs oc_goals]. rewrite alter_forgets, Ht. done. }
  unfold lift, bind at 1 in Hrun. unfold lift, bind at 1. symmetry. unfold bind at 1. symmetry.
  destruct (wo_plan w _) as [pl|]; [|done]. destruct (pl_tasks pl); [by apply (Hfail _ o)|].
  unfold bind, on_session, announce, omodify in Hrun |- *. destruct (wo_build w pl _ _) as [m|]; [|done].
  cbn [go_local_path go_id go_request go_interpreted goal_with_status] in Hrun |- *.
  change (with_place (goal_with_status GoalStatus.CANCELLED gl)) with (with_place gl).
  change (workspace_refuse (goal_with_status GoalStatus.CANCELLED gl)) with (workspace_refuse gl).
  destruct (workspace_refuse gl _).
  - match goal with |- _ = fail_goal _ _ ?t => apply (Hfail _ t) end. done.
  - unfold on_goal, omodify, ret. unfold o1. cbn [set_goals set_sessions set_orch_events set_missions oc_objs oc_goals oc_events].
    rewrite alter_forgets. done.
Qed.

(** ** What the gate lets through *)

Section gate.
Variable w : World.
Variable resolve : string -> res (list string).
Variable e : AegisEngine.
Variable extra : list string.

(** What the guard answers, over the gate; the gate that raises lets through. *)
Definition gate_says (op target : string) (path : option string) : GuardVerdict.t :=
  match aegis_access resolve e extra op target path with
  | Ok a => if negb (sy_allowed a) then GuardVerdict.BLOCK else if sy_review a then GuardVerdict.REVIEW else GuardVerdict.ALLOW
  | Err _ => GuardVerdict.ALLOW
  end.

(** Where the reception of a goal leaves it. *)
Definition admission (g : AutonomousGoal) : GoalStatus.t :=
  let path := go_local_path g in
  if bool_decide (path <> "") && negb (bool_decide (gate_says "file_read" path (Some path) = GuardVerdict.ALLOW)) then GoalStatus.FAILED
  else if risk_relevant g then
    match gate_says "autonomous_goal_execute" ("goal/" +:+ go_id g) (if decide (path = "") then None else Some path) with
    | GuardVerdict.BLOCK => GoalStatus.FAILED
    | GuardVerdict.REVIEW => GoalStatus.PAUSED
    | GuardVerdict.ALLOW => GoalStatus.PLANNING
    end
  else GoalStatus.PLANNING.

Hypothesis Hsec : wo_security w = Some (aegis_access resolve e extra).
Hypothesis Hpol : wo_policy w = None.

Lemma guarded_says op target path o : (op ∉ blocked_categories) ->
  exists l, guarded w op target path o = (Ok (gate_says op target path), set_blocked l o).
Proof.
  intros Hop. unfold guarded, zoom, check_action, gate_says. rewrite bool_decide_eq_false_2 by done. rewrite Hsec, Hpol. cbn [policy_check].
  destruct (aegis_access _ _ _ _ _ _) as [a|x]; [|by eexists]. destruct (sy_allowed a); cbn [negb]; [|by eexists].
  by destruct (sy_review a); eexists.
Qed.

Lemma evict_frame fuel o : oc_objs (evict_goals fuel o) = oc_objs o /\ oc_sobjs (evict_goals fuel o) = oc_sobjs o /\
  oc_missions (evict_goals fuel o) = oc_missions o.
Proof.
  revert o. induction fuel as [|fuel IH]; intros o; cbn [evict_goals]; [done|]. destruct (_ <=? _)%nat; [done|].
  destruct (oc_goals o) as [|[id n] rest]; [done|]. destruct (dget _ _); exact (IH _).
Qed.

(** The goal at [n] has the status [st], and the missions are those of [o]. *)
Definition received_as (n : nat) (goal : AutonomousGoal) (o : Orchestrator) (st : GoalStatus.t) (o' : Orchestrator) : Prop :=
  oc_objs o' !! n = Some (goal_with_status st goal) /\ oc_missions o' = oc_missions o /\ is_Some (oc_sobjs o' !! length (oc_sobjs o)).

Lemma wp_mark_goal n goal o st st' o1 (Q : unit -> Orchestrator -> Prop) :
  received_as n goal o st o1 -> (forall o2, received_as n goal o st' o2 -> Q tt o2) -> wp (on_goal n (goal_with_status st')) Q o1.
Proof.
  intros [H1 H2] HQ. unfold wp, on_goal, omodify. apply HQ. split; [|exact H2]. cbn. by rewrite list_lookup_alter_eq, H1.
Qed.

Lemma received_session n goal o st i f o1 : received_as n goal o st o1 ->
  received_as n goal o st (set_sessions (oc_sessions o1) (alter f i (oc_sobjs o1)) (oc_by_goal o1) o1).
Proof.
  intros (H1 & H2 & [x Hx]). split; [done|]. split; [done|]. cbn. rewrite list_lookup_alter. destruct (decide _) as [->|]; rewrite Hx; by eexists.
Qed.

Lemma wp_the_goal n g o Q : oc_objs o !! n = Some g -> Q g o -> wp (the_goal n) Q o.
Proof. intros Hg HQ. unfold wp, the_goal. by rewrite Hg. Qed.

Lemma wp_fail_goal n goal o st reason o1 : received_as n goal o st o1 ->
  wp (fail_goal n reason) (fun p o' => p = Arrete /\ received_as n goal o GoalStatus.FAILED o') o1.
Proof.
  intros H1. unfold fail_goal. apply wp_bind. eapply wp_the_goal; [apply H1|]. apply wp_bind. eapply wp_mark_goal; [exact H1|].
  intros o2 H2. apply wp_bind, wp_ret, wp_ret. by split.
Qed.

Lemma wp_guarded n goal o st op target path (Q : GuardVerdict.t -> Orchestrator -> Prop) o1 :
  (op ∉ blocked_categories) -> received_as n goal o st o1 ->
  (forall o2, received_as n goal o st o2 -> Q (gate_says op target path) o2) -> wp (guarded w op target path) Q o1.
Proof. intros Hop H1 HQ. unfold wp. destruct (guarded_says op target path o1 Hop) as (l & ->). by apply HQ. Qed.

Lemma wp_controler n s ctx goal o st o1 :
  received_as n goal o st o1 -> bool_decide (go_local_path goal <> "") && negb (bool_decide (gate_says "file_read" (go_local_path goal) (Some (go_local_path goal)) = GuardVerdict.ALLOW)) = false ->
  wp (controler w n s ctx) (fun p o' => received_as n goal o (admission goal) o' /\
    p = if decide (admission goal = GoalStatus.PLANNING) then Planifie n s ctx else Arrete) o1.
Proof.
  intros H1 Hread. unfold controler. apply wp_bind. eapply wp_the_goal; [apply H1|].
  unfold admission. rewrite Hread. change (risk_relevant (goal_with_status st goal)) with (risk_relevant goal).
  cbn [go_id go_local_path goal_with_status]. apply wp_bind.
  assert (Hgo : forall o2, received_as n goal o st o2 -> wp (on_goal n (goal_with_status GoalStatus.PLANNING) ;;;
      announce "autonomous.goal.analyzed" [("goal_id", PStr (go_id goal)); ("interpretation", PStr (go_interpreted goal))] ;;;
      ret (Planifie n s ctx)) (fun p o' => received_as n goal o GoalStatus.PLANNING o' /\ p = Planifie n s ctx) o2).
  { intros o2 H2. apply wp_bind. eapply wp_mark_goal; [exact H2|]. intros o3 H3. by apply wp_bind, wp_ret, wp_ret. }
  destruct (risk_relevant goal); [|by apply wp_ret, Hgo]. apply (wp_guarded n goal o st); [by apply (bool_decide_unpack _)|done|].
  intros o2 H2. destruct (gate_says "autonomous_goal_execute" _ _).
  - by apply Hgo.
  - eapply wp_mono; [by eapply wp_fail_goal|]. by intros p o3 [-> H3].
  - apply wp_bind. eapply wp_mark_goal; [exact H2|]. intros o3 H3.
    exact (conj (received_session _ _ _ _ s (session_with_status GoalStatus.PAUSED) _ H3) eq_refl).
Qed.

Lemma interpret_analyzing text id alea savoir request ctx :
  goal_with_status GoalStatus.ANALYZING (interpret text id alea savoir request ctx) = interpret text id alea savoir request ctx.
Proof. unfold interpret. by destruct (analyze_request request) as [[domain language] constraints]. Qed.

Lemma wp_recevoir request ctx o :
  let n := length (oc_objs o) in
  let goal := interpret (wo_text w) (wo_id w n) (wo_draw w n) (gather_knowledge (wo_knows w)) request ctx in
  wp (recevoir w request ctx) (fun p o' => received_as n goal o (admission goal) o' /\
    p = if decide (admission goal = GoalStatus.PLANNING) then Planifie n (length (oc_sobjs o)) ctx else Arrete) o.
Proof.
  intros n goal.
  unfold recevoir. apply wp_bind.
    apply (wp_mono _ (fun gs o' => gs = (n, length (oc_sobjs o)) /\ received_as n goal o GoalStatus.ANALYZING o')).
    { unfold wp, inscrire. cbv zeta. fold n. fold goal.
      assert (Han : goal_with_status GoalStatus.ANALYZING goal = goal) by apply interpret_analyzing. clearbody goal.
      match goal with |- context [evict_goals ?f ?o1] => destruct (evict_frame f o1) as (E1 & E2 & E3) end.
      cbn [set_sessions set_orch_events oc_sobjs]. split; [by rewrite E2|]. unfold received_as. cbn [set_sessions set_orch_events oc_objs oc_missions oc_sobjs].
      rewrite E1, E2, E3, Han. cbn [set_goals oc_objs oc_sobjs oc_missions]. split; [by rewrite lookup_app_r, Nat.sub_diag|]. split; [done|].
      rewrite lookup_app_r, Nat.sub_diag by done. by eexists. }
    intros gs o1 [-> H1]. cbn [fst snd]. apply wp_bind. eapply wp_the_goal; [apply H1|]. cbn [go_local_path goal_with_status].
    apply wp_bind. destruct (decide (go_local_path goal = "")) as [Hp|Hp].
    - apply wp_ret. rewrite decide_True by done. eapply wp_controler; [exact H1|]. by rewrite bool_decide_eq_false_2 by (by intros []).
    - apply (wp_guarded n goal o GoalStatus.ANALYZING); [by apply (bool_decide_unpack _)|done|]. intros o2 H2.
      destruct (decide _) as [Ha|Ha].
      + eapply wp_controler; [exact H2|]. rewrite (bool_decide_eq_true_2 _ Ha). by rewrite andb_false_r.
      + assert (Had : admission goal = GoalStatus.FAILED).
        { unfold admission. by rewrite bool_decide_eq_true_2, bool_decide_eq_false_2. }
        rewrite Had. eapply wp_mono; [by eapply wp_fail_goal|]. by intros p o3 [-> H3].
Qed.

(** C22: The gate of the goals.  With the guard over the gate of Aegis, a goal bound
    to a directory that may not be read fails; one that touches a directory, a
    repository or security is also asked of the gate, and fails when it is
    denied and is PAUSED when a human is wanted; only the others are planned,
    and until then no mission exists for them. *)
Theorem goal_gated request ctx o :
  let n := length (oc_objs o) in
  let goal := interpret (wo_text w) (wo_id w n) (wo_draw w n) (gather_knowledge (wo_knows w)) request ctx in
  exists p o', recevoir w request ctx o = (Ok p, o') /\ oc_objs o' !! n = Some (goal_with_status (admission goal) goal) /\
    oc_missions o' = oc_missions o /\
    p = if decide (admission goal = GoalStatus.PLANNING) then Planifie n (length (oc_sobjs o)) ctx else Arrete.
Proof.
  intros n goal. destruct (wp_ok _ _ _ (wp_recevoir request ctx o)) as (p & o' & Hrun & (Ho & Hm & _) & Hp). by exists p, o'.
Qed.
End gate.

(** ** Every call ends *)

(** The moves a call may still make. *)
Definition moves_left (p : phase) : nat :=
  match p with
  | Arrete | Fini => 0
  | Rapporte _ _ _ _ _ _ _ => 1
  | Marche _ _ _ _ _ passes true => 2 + (MAX_EXECUTION_PASSES - passes)
  | Reprend _ _ _ _ _ => 3 + MAX_EXECUTION_PASSES
  | Marche _ _ _ _ _ passes false => 4 + MAX_EXECUTION_PASSES + (MAX_EXECUTION_PASSES - passes)
  | Engage _ _ _ _ => 5 + MAX_EXECUTION_PASSES + MAX_EXECUTION_PASSES
  | Planifie _ _ _ => 6 + MAX_EXECUTION_PASSES + MAX_EXECUTION_PASSES
  end.

Definition ended (p : phase) : Prop := p = Arrete \/ p = Fini.

(** Those left after a walk. *)
Definition moves_after (reprise : bool) : nat := if reprise then 1 else 3 + MAX_EXECUTION_PASSES.

Section termination.
Variable w : World.

(** What [m] answers has at most [n] moves left. *)
Definition within (n : nat) (m : M Orchestrator phase) : Prop := answers_in (fun _ => True) (fun p => (moves_left p <= n)%nat) m.

Lemma within_ret n p : (moves_left p <= n)%nat -> within n (ret p).
Proof. intros Hp. by apply kept_ret. Qed.

Lemma within_bind {A} n (m : M Orchestrator A) f : (forall a, within n (f a)) -> within n (bind m f).
Proof. intros Hf. by apply kept_then. Qed.

Ltac within := repeat lazymatch goal with
  | |- within _ (bind _ _) => apply within_bind; intros ?
  | |- within _ (ret _) => apply within_ret; cbn [moves_left]; try lia
  end.

Lemma within_fail n g reason : within n (fail_goal g reason).
Proof. unfold fail_goal. within. Qed.

Lemma within_mesurer n g s k ds t0 : within (S n) (mesurer_marche w g s k ds t0).
Proof. unfold mesurer_marche. within. Qed.

Lemma within_apres g s k ds t0 reprise : within (moves_after reprise) (apres_marche w g s k ds t0 reprise).
Proof. unfold apres_marche. destruct reprise; [apply within_mesurer|]. apply within_ret. unfold moves_after. cbn [moves_left]. lia. Qed.

Lemma within_recevoir request ctx : within (6 + MAX_EXECUTION_PASSES + MAX_EXECUTION_PASSES) (recevoir w request ctx).
Proof.
  unfold recevoir. within. destruct (decide _); [|apply within_fail]. unfold controler. within.
  match goal with v : GuardVerdict.t |- _ => destruct v end; [within|apply within_fail|within].
Qed.

Lemma within_avancer p : (0 < moves_left p)%nat -> within (pred (moves_left p)) (avancer w p).
Proof.
  intros Hp. destruct p as [|g s ctx|g s k ds|g s k ds t0 passes reprise|g s k ds t0|g s k ds du err su|]; cbn [avancer]; try (cbn in Hp; lia).
  - unfold planifier. within. destruct (pl_tasks _); [apply within_fail|]. within. destruct (workspace_refuse _ _); [apply within_fail|within].
  - unfold engager. within. match goal with l : list message |- _ => destruct l end; within.
    match goal with b : bool |- _ => destruct b end; within.
  - unfold marcher. within.
    assert (Ha : forall n, n = (moves_after reprise) -> (n <= pred (moves_left (Marche g s k ds t0 passes reprise)))%nat ->
      within (pred (moves_left (Marche g s k ds t0 passes reprise))) (apres_marche w g s k ds t0 reprise)).
    { intros n -> Hn t Ht. split; [done|]. intros q Hq. apply (within_apres g s k ds t0 reprise t Ht) in Hq. lia. }
    assert (Hend : within (pred (moves_left (Marche g s k ds t0 passes reprise))) (apres_marche w g s k ds t0 reprise)).
    { eapply Ha; [done|]. destruct reprise; unfold moves_after; cbn [moves_left]; lia. }
    destruct (terminal _); cbn [orb]; [done|]. destruct (Nat.leb_spec MAX_EXECUTION_PASSES passes); [done|]. within.
    destruct (_ =? 0); [done|]. apply within_ret. destruct reprise; unfold moves_after; cbn [moves_left]; lia.
  - unfold reprendre_marche. within. match goal with b : bool |- _ => destruct b end; [within|apply within_mesurer].
  - unfold rapporter. within.
Qed.

Lemma derouler_ends fuel p o q o' : (moves_left p <= fuel)%nat -> derouler w fuel p o = (Ok q, o') -> ended q.
Proof.
  revert p o. induction fuel as [|fuel IH]; intros p o Hle.
  - intros [= <- <-]. destruct p as [| | |? ? ? ? ? ? []| | |]; cbn in Hle; try lia; [by left|by right].
  - destruct (decide (moves_left p = 0%nat)) as [E|Hne].
    { destruct p as [| | |? ? ? ? ? ? []| | |]; cbn in E; try lia; intros [= <- <-]; [by left|by right]. }
    intros Hrun. assert (Hb : bind (avancer w p) (derouler w fuel) o = (Ok q, o')).
    { destruct p; try exact Hrun; by destruct Hne. }
    unfold bind in Hb. destruct (within_avancer p ltac:(lia) o I) as [_ Hp]. destruct (avancer w p o) as [[p'|e] o1]; [|done].
    specialize (Hp p' eq_refl). apply (IH p' o1); [lia|exact Hb].
Qed.

(** C24: A call of [start_goal] that raises nothing is over after at most
    [MAX_MOVES] moves, whatever the planner answers and the nodes do: the goal
    was stopped before its execution, or reported. *)
Theorem start_goal_ends request ctx o :
  match start_goal w request ctx o with (Ok p, _) => ended p | (Err _, _) => True end.
Proof.
  unfold start_goal, bind. destruct (within_recevoir request ctx o I) as [_ Hp]. destruct (recevoir w request ctx o) as [[p|e] o1]; [|done].
  specialize (Hp p eq_refl). destruct (derouler w MAX_MOVES p o1) as [[q|e] o2] eqn:E; [|done].
  eapply derouler_ends, E. exact Hp.
Qed.
End termination.

(** ** A goal that completes *)

Section completion.
Variable w : World.
Variable g s k : nat.
Hypothesis Hrel : reliable (wo_env w k).
Hypothesis Hok : succeeds (wo_env w k).
Hypothesis Hconf : confirmed (wo_env w k).
Variable rk : string -> nat.
Variable d : nat.
Variable m0 : Mission.
Hypothesis Hrk : ranked rk m0.
Hypothesis Hd : below d rk m0.
Hypothesis Hpasses : (d < Orchestrator.MAX_EXECUTION_PASSES)%nat.

(** The goal, its session and its mission, as it is now. *)
Definition at_work (x : Exec) (o : Orchestrator) : Prop :=
  oc_missions o !! k = Some x /\ is_Some (oc_objs o !! g) /\ is_Some (oc_sobjs o !! s).

(** The mission of the goal is done: each of its nodes was called, once. *)
Definition all_done (x : Exec) : Prop :=
  mi_status (gx_mission x) = MissionStatus.COMPLETED /\ mi_nodes (gx_mission x) <> [] /\
  (forall i n, mi_nodes (gx_mission x) !! i = Some n -> mn_status n = NodeStatus.COMPLETED) /\
  map snd (gx_runs x) ≡ₚ seq 0 (length (mi_nodes (gx_mission x))).

(** It is COMPLETED, and the last report says that it succeeded. *)
Definition goal_done (o : Orchestrator) : Prop :=
  exists x goal r, oc_missions o !! k = Some x /\ all_done x /\ oc_objs o !! g = Some goal /\ go_status goal = GoalStatus.COMPLETED /\
    last (oc_reports o) = Some r /\ ap_goal r = go_id goal /\ ap_success r = true.

Lemma done_success x : all_done x -> dag_success (gx_mission x) None = true.
Proof.
  intros (Hst & Hne & Hall & _). unfold dag_success, nodes_in. rewrite (bool_decide_eq_true_2 (mi_status _ = _)) by done.
  rewrite (list_filter_nil (fun n => bool_decide (mn_status n = NodeStatus.FAILED))).
  - destruct (mi_nodes (gx_mission x)) as [|n ns] eqn:E; [done|]. cbn [List.filter].
    rewrite bool_decide_eq_true_2; [done|]. by apply (Hall 0%nat).
  - intros n [i Hi]%list_elem_of_lookup. apply bool_decide_eq_false_2. by rewrite (Hall i n Hi).
Qed.

Lemma last_deque {A} n (l : list A) x : (0 < n)%nat -> last (deque_append n l x) = Some x.
Proof.
  intros Hn. unfold deque_append. rewrite length_app. cbn [length]. rewrite drop_app_le by lia. by rewrite last_snoc.
Qed.

Lemma wp_derouler f p Q o : ~ ended p -> wp (bind (avancer w p) (derouler w f)) Q o -> wp (derouler w (S f) p) Q o.
Proof. intros Hp. destruct p; try done; destruct Hp; [by left|by right]. Qed.

Lemma wp_rapporter f ds duration summary x o :
  at_work x o -> all_done x -> wp (derouler w (S f) (Rapporte g s k ds duration None summary)) (fun p o' => p = Fini /\ goal_done o') o.
Proof.
  intros (Hx & [goal Hg] & [session Hs]) Hdone. apply wp_derouler; [by intros []|]. cbn [avancer]. apply wp_bind. unfold rapporter.
  apply wp_bind. eapply wp_the_goal; [exact Hg|]. apply wp_bind. unfold wp at 1, the_session. rewrite Hs.
  apply (wp_mission_at w k _ _ _ x Hx). set (r := dag_report _ _ _ _ _ _ _).
  assert (Hsucc : ap_success r = true) by (by apply done_success). rewrite Hsucc.
  assert (Hgid : ap_goal r = go_id goal) by done. clearbody r.
  unfold wp, bind, announce, on_goal, on_session, ret, get. unfold omodify.
  cbn [set_goals set_sessions set_orch_events set_reports oc_goals oc_objs oc_reports oc_missions oc_events oc_count oc_memory oc_sobjs oc_sessions oc_by_goal].
  assert (Hend : forall f t, derouler w f Fini t = (Ok Fini, t)) by (by intros []). rewrite Hend. split; [done|].
  exists x, (goal_ended GoalStatus.COMPLETED (wo_instant w (oc_count o)) goal), r.
  cbn [set_goals set_sessions set_orch_events set_reports oc_goals oc_objs oc_reports oc_missions].
  split; [done|]. split; [done|]. split; [by rewrite list_lookup_alter_eq, Hg|]. split; [done|]. split; [|done].
  apply last_deque. unfold MAX_REPORTS. lia.
Qed.

Lemma wp_after_walk f ds t0 x o :
  at_work x o -> all_done x -> dict_wf (mi_metadata (gx_mission x)) -> suggested (gx_mission x) = false ->
  wp (derouler w (S (S f)) (Reprend g s k ds t0)) (fun p o' => p = Fini /\ goal_done o') o.
Proof.
  intros (Hx & Hg & Hs) Hdone Hwf Hsug. apply wp_derouler; [by intros []|]. cbn [avancer]. apply wp_bind. unfold reprendre_marche.
  apply wp_bind, (wp_on_mission_exec w k _ _ _ x Hx). unfold wp at 1. rewrite preparer_none by done.
  set (x' := on_mission _ x). set (o1 := set_missions _ _ o).
  assert (Hx1 : oc_missions o1 !! k = Some x') by (by apply (insert_missions _ x)). unfold mesurer_marche. apply wp_read_perf.
  set (o2 := set_perfs _ o1). assert (Hx2 : oc_missions o2 !! k = Some x') by exact Hx1.
  apply (wp_mission_at w k _ _ _ x' Hx2), wp_ret. apply (wp_rapporter f _ _ _ x'); [by split_and!|done].
Qed.

Lemma wp_goal_walk n ds t0 : forall j x o f, (d - j <= n)%nat -> (n + 3 <= f)%nat ->
  at_work x o -> underway rk m0 j x -> mi_nodes (gx_mission x) <> [] -> (j <= d)%nat ->
  wp (derouler w f (Marche g s k ds t0 j false)) (fun p o' => p = Fini /\ goal_done o') o.
Proof.
  induction n as [|n IH]; intros j x o f Hj Hf Hwork Hu Hne Hjd; (destruct f as [|[|[|f]]]; [lia..|]);
    pose proof Hwork as (Hx & Hg & Hs); (apply wp_derouler; [by intros []|]); cbn [avancer]; apply wp_bind; unfold marcher;
    apply (wp_mission_at w k _ _ _ x Hx).
  all: destruct (decide (mi_status (gx_mission x) = MissionStatus.RUNNING)) as [Hst|Hst];
    [pose proof (underway_early rk d m0 Hd j x Hu Hst) as Hlt|].
  all: try (rewrite (underway_completed rk m0 j x Hu Hst); cbn [terminal orb apres_marche]; apply wp_ret;
    eapply wp_after_walk; [exact Hwork| |by apply Hu|by apply Hu];
    pose proof (un_done _ _ _ _ Hu (underway_completed rk m0 j x Hu Hst)) as Hall;
    split; [by eapply underway_completed|]; split; [done|]; split; [done|]; apply advancing_all_runs; [apply Hu|done]).
  - lia.
  - rewrite Hst. replace (Orchestrator.MAX_EXECUTION_PASSES <=? j)%nat with false by (symmetry; apply Nat.leb_gt; lia). cbn [terminal orb].
    apply wp_bind, (wp_on_mission_exec w k _ _ _ x Hx).
    eapply wp_mono; [by apply (wp_underway (wo_env w k) Hrel Hok Hconf rk m0 Hrk j)|]. intros c x' (Hc & Hu' & _).
    rewrite (proj2 (Z.eqb_neq _ _) Hc). apply wp_ret. apply (IH (S j) x'); [lia|lia| |done| |lia].
    + split; [by apply (insert_missions _ x)|done].
    + intros Hnil. apply Hne. assert (Hids : node_ids (gx_mission x') = node_ids (gx_mission x)).
      { destruct (se_same _ _ _ _ (un_settling _ _ _ _ Hu)) as (_ & -> & _).
        by destruct (se_same _ _ _ _ (un_settling _ _ _ _ Hu')) as (_ & -> & _). }
      unfold node_ids in Hids. rewrite Hnil in Hids. symmetry in Hids. by apply map_eq_nil in Hids.
Qed.

(** The building of the graph, and the start. *)
Lemma wp_engage_underway f ds x o :
  at_work x o -> dict_wf (mi_metadata (gx_mission x)) -> suggested (gx_mission x) = false -> gx_runs x = [] ->
  graph_build (map (with_mission_id (mi_id (gx_mission x))) (mi_nodes (gx_mission x))) (mi_edges (gx_mission x)) (gx_mission x) = m0 ->
  built m0 -> mi_nodes m0 <> [] -> (forall i n, mi_nodes m0 !! i = Some n -> mn_status n = NodeStatus.PENDING) ->
  (d + 4 <= f)%nat -> wp (derouler w f (Engage g s k ds)) (fun p o' => p = Fini /\ goal_done o') o.
Proof.
  intros (Hx & Hg & Hs) Hwf Hsug Hruns Hm0 Hb Hne Hpend Hf. destruct f as [|f]; [lia|].
  apply wp_derouler; [by intros []|]. cbn [avancer]. apply wp_bind. unfold engager. apply wp_read_perf.
  set (o1 := set_perfs _ o). assert (Hx1 : oc_missions o1 !! k = Some x) by exact Hx.
  apply (wp_mission_at w k _ _ _ x Hx1), wp_bind, (wp_on_mission_exec w k _ _ _ x Hx1).
  eapply wp_mono; [apply wp_build_valid; by rewrite Hm0|]. rewrite Hm0. intros issues x2 (-> & Hr2 & Hgx2).
  assert (Hn2 : mi_nodes (gx_mission x2) = mi_nodes m0) by (by rewrite Hgx2).
  assert (He2 : mi_edges (gx_mission x2) = mi_edges m0) by (by rewrite Hgx2).
  assert (Hmeta2 : mi_metadata (gx_mission x2) = mi_metadata (gx_mission x)) by (by rewrite Hgx2, <- Hm0).
  assert (Hst2 : mi_status (gx_mission x2) = MissionStatus.READY) by (by rewrite Hgx2). clear Hgx2.
  set (o2 := set_missions _ _ o1). assert (Hx2 : oc_missions o2 !! k = Some x2) by (by apply (insert_missions _ x)).
  apply wp_bind, (wp_on_mission_exec w k _ _ _ x2 Hx2).
  assert (Hfew : few (retries (gx_mission x2)) True x2).
  { split; [by rewrite Hmeta2|]. split; [done|]. intros _. by rewrite (suggested_meta _ _ Hmeta2). }
  eapply wp_mono; [apply (wp_preserves (few (retries (gx_mission x2)) True)); [apply keeps_start|done|by apply wp_start]|].
  intros b x3 [(-> & (Hn3 & He3 & Hr3) & _ & Hst3) (Hwf3 & _ & Hsug3)]. rewrite Hst2 in Hst3 |- *. specialize (Hst3 eq_refl).
  change (startable MissionStatus.READY) with true. apply wp_ret.
  assert (Hsame : same_graph m0 (gx_mission x3)) by (unfold same_graph, node_ids; by rewrite Hn3, He3, Hn2, He2).
  apply (wp_goal_walk d ds _ 0 x3); [lia|lia| | |by rewrite Hn3, Hn2|lia].
  - split; [by apply (insert_missions _ x2)|done].
  - apply underway_start; try done.
    + split; [|done]. destruct Hsame as (_ & -> & _). apply Hb.
    + by apply Hsug3.
    + by eapply built_same.
    + congruence.
    + by rewrite Hn3, Hn2.
    + intros i n. rewrite Hn3, Hn2. apply Hpend.
Qed.
End completion.

(** A plan whose mission has [d] levels of nodes that nothing hinders. *)
Record good_plan (w : World) (n : nat) (goal : AutonomousGoal) (ctx : pydict pyval) (k : nat) (rk : string -> nat) (d : nat)
    (p : PlanningResult) (m : Mission) : Prop := GoodPlan {
  gp_plan : wo_plan w (planning_request (wo_request w n) goal ctx) = Ok p;
  gp_tasks : pl_tasks p <> [];
  gp_build : wo_build w p (first_chars 100 (str_or (go_interpreted goal) (go_request goal))) (go_request goal) = Ok m;
  gp_place : go_local_path goal = "" \/ wo_project w (go_local_path goal) (go_id goal) <> "";
  gp_reliable : reliable (wo_env w k);
  gp_succeeds : succeeds (wo_env w k);
  gp_confirmed : confirmed (wo_env w k);
  gp_built : built (graph_build (map (with_mission_id (mi_id m)) (mi_nodes m)) (mi_edges m) m);
  gp_ranked : ranked rk (graph_build (map (with_mission_id (mi_id m)) (mi_nodes m)) (mi_edges m) m);
  gp_below : below d rk m;
  gp_passes : (d < Orchestrator.MAX_EXECUTION_PASSES)%nat;
  gp_metadata : dict_wf (mi_metadata m);
  gp_fresh : suggested m = false;
  gp_nodes : mi_nodes m <> [];
  gp_pending : forall i n, mi_nodes m !! i = Some n -> mn_status n = NodeStatus.PENDING
}.

Section whole.
Variable w : World.
Variable resolve : string -> res (list string).
Variable e : AegisEngine.
Variable extra : list string.
Hypothesis Hsec : wo_security w = Some (aegis_access resolve e extra).
Hypothesis Hpol : wo_policy w = None.

Lemma wp_planifier n goal ctx rk d p m o o1 :
  good_plan w n goal ctx (length (oc_missions o)) rk d p m -> received_as n goal o GoalStatus.PLANNING o1 ->
  let project := if decide (go_local_path goal = "") then "" else wo_project w (go_local_path goal) (go_id goal) in
  wp (planifier w n (length (oc_sobjs o)) ctx) (fun q o2 => exists ds, q = Engage n (length (oc_sobjs o)) (length (oc_missions o)) ds /\
    at_work n (length (oc_sobjs o)) (length (oc_missions o)) (mkExec (with_place goal project m) 0 0 0 [] [] []) o2) o1.
Proof.
  intros Hp (Hg & Hm & Hs) project. unfold planifier. apply wp_bind. eapply wp_the_goal; [exact Hg|].
  change (planning_request ?i (goal_with_status _ goal)) with (planning_request i goal).
  cbn [go_local_path go_id go_request go_interpreted goal_with_status]. apply wp_bind. unfold wp at 1, lift at 1.
  rewrite (gp_plan _ _ _ _ _ _ _ _ _ Hp). destruct (pl_tasks p) eqn:Et; [by destruct (gp_tasks _ _ _ _ _ _ _ _ _ Hp)|].
  unfold wp, bind, lift, on_session, announce, omodify, on_goal, ret. rewrite (gp_build _ _ _ _ _ _ _ _ _ Hp).
  change (with_place (goal_with_status _ goal)) with (with_place goal).
  replace (workspace_refuse _ _) with false.
  2:{ symmetry. unfold workspace_refuse. destruct (gp_place _ _ _ _ _ _ _ _ _ Hp) as [Hz|Hz]; cbn [go_local_path goal_with_status].
      - by rewrite (bool_decide_eq_false_2 (go_local_path goal <> "")) by (by intros []).
      - case_decide as Hl; [by rewrite (bool_decide_eq_false_2 (go_local_path goal <> "")) by (by intros [])|].
        rewrite (bool_decide_eq_false_2 (wo_project _ _ _ = "")) by done. apply andb_false_r. }
  cbn [set_goals set_sessions set_orch_events set_missions oc_goals oc_objs oc_missions oc_events oc_sobjs oc_sessions oc_by_goal oc_known].
  eexists. rewrite Hm. split; [reflexivity|]. fold project. split_and!.
  - cbn [set_goals set_sessions set_orch_events set_missions oc_missions]. by rewrite lookup_app_r, Nat.sub_diag by done.
  - cbn [set_goals set_sessions set_orch_events set_missions oc_objs]. rewrite list_lookup_alter_eq, Hg. by eexists.
  - cbn [set_goals set_sessions set_orch_events set_missions oc_sobjs]. rewrite !list_lookup_alter_eq. destruct Hs as [x ->]. by eexists.
Qed.

Lemma goal_completes_run rk d request ctx o p m :
  let n := length (oc_objs o) in
  let goal := interpret (wo_text w) (wo_id w n) (wo_draw w n) (gather_knowledge (wo_knows w)) request ctx in
  admission resolve e extra goal = GoalStatus.PLANNING -> good_plan w n goal ctx (length (oc_missions o)) rk d p m ->
  exists o', start_goal w request ctx o = (Ok Fini, o') /\ goal_done n (length (oc_missions o)) o'.
Proof.
  intros n goal Had Hp. unfold start_goal.
  assert (H : wp (bind (recevoir w request ctx) (derouler w MAX_MOVES)) (fun q o' => q = Fini /\ goal_done n (length (oc_missions o)) o') o).
  { apply wp_bind. eapply wp_mono; [by apply wp_recevoir|]. cbn zeta. fold n goal. rewrite Had. intros q o1 [H1 ->].
    rewrite decide_True by done. apply wp_derouler; [by intros []|]. cbn [avancer]. apply wp_bind.
    eapply wp_mono; [by eapply wp_planifier|]. intros q o2 (ds & -> & Hwork). destruct Hp.
    set (project := if decide _ then _ else _) in Hwork.
    assert (Hsame : same_graph (graph_build (map (with_mission_id (mi_id m)) (mi_nodes m)) (mi_edges m) m)
      (graph_build (map (with_mission_id (mi_id m)) (mi_nodes m)) (mi_edges m) (with_place goal project m))) by done.
    eapply (wp_engage_underway w n (length (oc_sobjs o)) (length (oc_missions o)) gp_reliable0 gp_succeeds0 gp_confirmed0 rk d
      (graph_build (map (with_mission_id (mi_id m)) (mi_nodes m)) (mi_edges m) (with_place goal project m)));
      [exact gp_ranked0| |done|exact Hwork|done|exact gp_fresh0|done|done|by eapply built_same| | |].
    - intros id Hid. apply gp_below0. unfold node_ids, graph_build in Hid. cbn in Hid. by rewrite !map_map in Hid.
    - cbn. intros Hnil. by apply map_eq_nil, map_eq_nil in Hnil.
    - intros i x. cbn. rewrite !lookup_map. destruct (mi_nodes m !! i) as [y|] eqn:Ey; [|done]. intros [= <-]. exact (gp_pending0 i y Ey).
    - unfold Orchestrator.MAX_EXECUTION_PASSES in gp_passes0. lia. }
  destruct (wp_ok _ _ _ H) as (q & o' & Hrun & -> & Hdone). by exists o'.
Qed.

(** liveness.  When the gate lets a goal through, its plan builds a mission of
    [d] levels, and every node of it succeeds and nothing contradicts them, the
    call of [start_goal] returns, the goal is COMPLETED, each node of its mission
    was called exactly once, and the last report says that the goal succeeded. *)
Theorem goal_completes rk d request ctx o p m :
  let n := length (oc_objs o) in
  let goal := interpret (wo_text w) (wo_id w n) (wo_draw w n) (gather_knowledge (wo_knows w)) request ctx in
  admission resolve e extra goal = GoalStatus.PLANNING -> good_plan w n goal ctx (length (oc_missions o)) rk d p m ->
  exists o', start_goal w request ctx o = (Ok Fini, o') /\ goal_done n (length (oc_missions o)) o'.
Proof. exact (goal_completes_run rk d request ctx o p m). Qed.
End whole.

(** ** Concrete goals *)

Definition demo_goal_matrix (execute : bool) : PermissionMatrix :=
  new_matrix None (Some "medium")
    [("file_read", mkSpec (Some false) (Some true) (Some false) None);
     ("autonomous_goal_execute", mkSpec (Some true) (Some false) (Some false) (Some (if execute then "medium" else "maximum")))].

Definition demo_goal_gate (execute : bool) : AegisEngine := mkAegis (demo_goal_matrix execute) [["/"; "ws"]].

Definition demo_planned_tasks (q : PlanningRequest) : PlanningResult :=
  set_tasks [mkBreakdown "t" "Write the tests" "" TaskCategory.TESTING [] ["pytest"] [] [] 0 true] "llm" (new_planning "r" (pq_id q)).

(** A team that works under [ws], and a planner that always plans the demo
    mission; the nodes [failing] fail. *)
Definition demo_world (execute : bool) (failing : list nat) : World :=
  mkWorld (fun _ => "") (fun n => "g" +:+ pretty n) (fun _ => 0%Q) None (Some (aegis_access demo_resolve (demo_goal_gate execute) []))
    None (fun n => "q" +:+ pretty n) (fun q => Ok (demo_planned_tasks q)) (fun _ _ _ => Ok demo_mission) (fun _ _ => "project")
    (fun _ => true) (fun _ => demo_env failing) (fun _ => 0%Q) (fun _ => 0) None.

Definition demo_desk : Desk := mkDesk new_orchestrator [].
Definition demo_order : act := Receive "Write the tests" [("local_path", PStr "ws")].

Definition goal_states (d : Desk) : list string := map (fun g => GoalStatus.value (go_status g)) (oc_objs (dk_orch d)).
Definition node_calls (d : Desk) : list (list nat) := map (fun x => map snd (gx_runs x)) (oc_missions (dk_orch d)).

(** Cancelled during its walk, a goal calls nothing more and ends FAILED; before
    its plan, or before its start, it runs to its end. *)
Example demo_cancellations :
  map (fun l => let d := serve_acts (demo_world true []) l demo_desk in (goal_states d, node_calls d))
    [demo_order :: replicate 8 (Advance 0);
     demo_order :: replicate 3 (Advance 0) ++ CancelGoal "g0" :: replicate 5 (Advance 0);
     demo_order :: CancelGoal "g0" :: replicate 8 (Advance 0);
     demo_order :: Advance 0 :: CancelGoal "g0" :: replicate 7 (Advance 0)]
  = [(["completed"], [[0; 2; 1]%nat]); (["failed"], [[0; 2]%nat]); (["completed"], [[0; 2; 1]%nat]); (["completed"], [[0; 2; 1]%nat])].
Proof. vm_compute. reflexivity. Qed.

(** A human is wanted, or the directory is elsewhere. *)
Example demo_gated :
  (goal_states (serve_acts (demo_world false []) [demo_order] demo_desk),
   goal_states (serve_acts (demo_world true []) [Receive "Write the tests" [("local_path", PStr "elsewhere")]] demo_desk),
   goal_states (serve_acts (demo_world false []) [Receive "Write a poem" []] demo_desk))
  = (["paused"], ["failed"], ["planning"]).
Proof. vm_compute. reflexivity. Qed.

Definition demo_desk_start : Desk := Eval vm_compute in serve_acts (demo_world true []) (demo_order :: replicate 1 (Advance 0)) demo_desk.
Definition demo_desk_plan : Desk := Eval vm_compute in serve_acts (demo_world true []) [demo_order] demo_desk.


Lemma cancel_lost_witness :
  runs_mission "g0" 0 (dk_orch demo_desk_start) /\
  exists o1 p' o2 x', cancel_goal (demo_world true []) "g0" (dk_orch demo_desk_start) = (Ok true, o1) /\
    avancer (demo_world true []) (default Fini (dk_calls demo_desk_start !! 0%nat)) o1 = (Ok p', o2) /\ walks 0 p' /\
    oc_missions o2 !! 0%nat = Some x' /\ mi_status (gx_mission x') = MissionStatus.RUNNING.
Proof.
  assert (Hid : runs_mission "g0" 0 (dk_orch demo_desk_start)).
  { eexists _, _, _. split; [reflexivity|]. split; [reflexivity|]. split; [discriminate|reflexivity]. }
  split; [exact Hid|].
  refine (cancel_lost (demo_world true []) "g0" 0 _ _ (dk_orch demo_desk_start) I Hid eq_refl _ _).
  - apply (bool_decide_unpack _). vm_compute. exact I.
  - apply as_first. apply (built_same demo_mission); [done|apply demo_built].
Defined.

Definition demo_planned : res phase * Orchestrator := Eval vm_compute in planifier (demo_world true []) 0 0 [] (dk_orch demo_desk_plan).

Lemma cancel_before_plan_forgotten_witness :
  exists o1, cancel_goal (demo_world true []) "g0" (dk_orch demo_desk_plan) = (Ok true, o1) /\
    planifier (demo_world true []) 0 0 [] o1 = demo_planned.
Proof.
  refine (cancel_before_plan_forgotten (demo_world true []) "g0" 0 0 [] (dk_orch demo_desk_plan) _ _ _ _ eq_refl eq_refl eq_refl _).
  vm_compute. reflexivity.
Defined.

Lemma goal_gated_witness :
  exists p o', recevoir (demo_world false []) "Write the tests" [("local_path", PStr "ws")] new_orchestrator = (Ok p, o') /\ p = Arrete.
Proof.
  destruct (goal_gated (demo_world false []) demo_resolve (demo_goal_gate false) [] eq_refl eq_refl "Write the tests"
    [("local_path", PStr "ws")] new_orchestrator) as (p & o' & H1 & _ & _ & H4).
  exists p, o'. split; [exact H1|]. rewrite H4. vm_compute. reflexivity.
Defined.

Lemma goal_completes_witness :
  exists o', start_goal (demo_world true []) "Write the tests" [("local_path", PStr "ws")] new_orchestrator = (Ok Fini, o') /\ goal_done 0 0 o'.
Proof.
  refine (goal_completes (demo_world true []) demo_resolve (demo_goal_gate true) [] eq_refl eq_refl demo_rank 2 "Write the tests"
    [("local_path", PStr "ws")] new_orchestrator _ demo_mission _ _); [vm_compute; reflexivity|].
  split.
  - reflexivity.
  - discriminate.
  - reflexivity.
  - right. discriminate.
  - exact I.
  - exact demo_succeeds.
  - intros k m b v H. discriminate.
  - apply (built_same demo_mission); [done|apply demo_built].
  - exact (proj1 demo_ranked).
  - exact (proj2 demo_ranked).
  - unfold Orchestrator.MAX_EXECUTION_PASSES. lia.
  - constructor.
  - reflexivity.
  - discriminate.
  - exact demo_pending.
Defined.
