(* ===== verification/PlannedGoals.v ===== *)
(** * Goals planned by the planner

    The orchestrator of [Orchestrator] over the planner of [MissionPlanner]: what
    the theorem on goals asks of a plan is what the planner gives. *)
From stdpp Require Import base gmap strings list sets pretty.
From Stdlib Require Import ZArith QArith Lia.
From S2P Require Import Prelude.
From S2P Require Import Kahn.
From S2P Require Import MissionGraph.
From S2P Require Import Aegis.
From S2P Require Import RetryPolicy.
From S2P Require Import GraphExecutor.
From S2P Require Import MissionRuns.
From S2P Require Import MissionWalks.
From S2P Require Import PlannerModels.
From S2P Require Import TaskDecomposer.
From S2P Require Import PlanAnalysis.
From S2P Require Import PlanFacts.
From S2P Require Import MissionPlanner.
From S2P Require Import PlannerRuns.
From S2P Require Import AutonomousGoals.
From S2P Require Import Orchestrator.
From S2P Require Import OrchestratorRuns.
#[local] Open Scope Z_scope.

Section planned.
Variable w : World.
Variable v : Minds.
Variable env : Env.
Variables before_plan before_build : Planner.
Hypothesis Hids : fresh_ids v.
Hypothesis Hjson : reads_json v.
Hypothesis Henv : md_graph v = Some env.
(** The planner of the orchestrator is that of [MissionPlanner], in any states. *)
Hypothesis Hplan : forall q, wo_plan w q = (plan v q before_plan).1.
Hypothesis Hbuild : forall r title objective, wo_build w r title objective = (build_planned v r title objective before_build).1.

(** Its missions have fewer levels than the walk has passes. *)
Lemma planned_good_plan n goal ctx k :
  go_local_path goal = "" \/ wo_project w (go_local_path goal) (go_id goal) <> "" ->
  reliable (wo_env w k) -> succeeds (wo_env w k) -> confirmed (wo_env w k) ->
  exists rk d p m, good_plan w n goal ctx k rk d p m /\ planned_mission p m.
Proof.
  intros Hplace Hrel Hsucc Hconf.
  destruct (wp_ok _ _ _ (wp_plan v Hids Hjson (planning_request (wo_request w n) goal ctx) before_plan)) as (r & p1 & Hrun & Hs & _).
  set (title := first_chars 100 (str_or (go_interpreted goal) (go_request goal))).
  destruct (wp_ok _ _ _ (wp_build_planned v env _ r title (go_request goal) before_build Henv Hs)) as (m & p2 & Hb & Hm & _).
  exists (place (pl_tasks r)), (length (pl_tasks r)), r, m. split; [|done].
  pose proof (st_chain _ _ _ (sp_tasks _ _ _ Hs)) as Hc. destruct (plan_graph_good _ _ _ Hs) as (Hcl & Hac & Hnd).
  destruct Hm as [Hmi He _ _ Hp Hmeta].
  set (m1 := graph_build (map (with_mission_id (mi_id m)) (mi_nodes m)) (mi_edges m) m).
  assert (Hi1 : node_ids m1 = map tb_id (pl_tasks r)).
  { rewrite <- Hmi. unfold m1, node_ids, graph_build. cbn. rewrite !map_map. by apply map_ext. }
  assert (He1 : epairs m1 = graph_edges (pl_graph r)) by exact He.
  assert (Hb1 : built m1) by (split; [by rewrite Hi1|by rewrite Hi1, He1|by rewrite He1|]; apply graph_build_depends).
  destruct (st_last _ _ _ (sp_tasks _ _ _ Hs)) as (pre & final & Hlast & _ & _).
  split.
  - rewrite Hplan, Hrun. done.
  - rewrite Hlast. by destruct pre.
  - rewrite Hbuild. fold title. by rewrite Hb.
  - done.
  - done.
  - done.
  - done.
  - exact Hb1.
  - intros s t Hst. change ((s, t) ∈ epairs m1) in Hst. rewrite He1, (sp_graph _ _ _ Hs) in Hst. apply (place_earlier v _ _ s t Hc Hst).
  - intros id Hid. rewrite Hmi in Hid. by apply place_lt.
  - pose proof (st_size _ _ _ (sp_tasks _ _ _ Hs)). unfold Orchestrator.MAX_EXECUTION_PASSES. lia.
  - rewrite Hmeta. apply NoDup_singleton.
  - unfold suggested. by rewrite Hmeta.
  - intros Hnil. unfold node_ids in Hmi. rewrite Hnil, Hlast in Hmi. by destruct pre.
  - exact Hp.
Qed.

Variable resolve : string -> res (list string).
Variable e : AegisEngine.
Variable extra : list string.
Hypothesis Hsec : wo_security w = Some (aegis_access resolve e extra).
Hypothesis Hpol : wo_policy w = None.

(** C7: From a request to its end.  With the planner and the graph executor in
    place, behind Aegis and without a policy engine, a goal that the gate lets
    through is planned, built and walked to COMPLETED, each task called exactly
    once, whatever was asked and whatever the models answered to the planner, as
    long as the goal names no local path or a project is granted for it, every
    task is let through and succeeds in time, the store refuses nothing, the disk
    contradicts nothing, no id is drawn twice and the reader of JSON raises
    nothing but [ValueError]. *)
Theorem planned_goal_completes request ctx o :
  let n := length (oc_objs o) in
  let k := length (oc_missions o) in
  let goal := interpret (wo_text w) (wo_id w n) (wo_draw w n) (gather_knowledge (wo_knows w)) request ctx in
  admission resolve e extra goal = GoalStatus.PLANNING ->
  go_local_path goal = "" \/ wo_project w (go_local_path goal) (go_id goal) <> "" ->
  reliable (wo_env w k) -> succeeds (wo_env w k) -> confirmed (wo_env w k) ->
  exists o', start_goal w request ctx o = (Ok Fini, o') /\ goal_done n k o'.
Proof.
  intros n k goal Had Hplace Hrel Hsucc Hconf.
  destruct (planned_good_plan n goal ctx k Hplace Hrel Hsucc Hconf) as (rk & d & p & m & Hgood & _).
  by eapply goal_completes_run.
Qed.
End planned.

(** ** A concrete goal *)

Definition planned_world : World :=
  mkWorld (fun _ => "") (fun n => "g" +:+ pretty n) (fun _ => 0%Q) None (Some (aegis_access demo_resolve (demo_goal_gate true) []))
    None (fun n => "q" +:+ pretty n) (fun q => (plan demo_bare_mind q (new_planner demo_bare_mind)).1)
    (fun r title objective => (build_planned demo_bare_mind r title objective (new_planner demo_bare_mind)).1) (fun _ _ => "project")
    (fun _ => true) (fun _ => demo_env []) (fun _ => 0%Q) (fun _ => 0) None.

(** The five tasks of the pattern in one step, then the last one. *)
Example demo_planned_goal :
  (goal_states (serve_acts planned_world (Receive "Build a frontend" [] :: replicate 8 (Advance 0)) demo_desk),
   node_calls (serve_acts planned_world (Receive "Build a frontend" [] :: replicate 8 (Advance 0)) demo_desk))
  = (["completed"], [[0; 1; 2; 3; 4; 5]%nat]).
Proof. vm_compute. reflexivity. Qed.

Lemma planned_goal_completes_witness :
  exists o', start_goal planned_world "Build a frontend" [] new_orchestrator = (Ok Fini, o') /\ goal_done 0 0 o'.
Proof.
  refine (planned_goal_completes planned_world demo_bare_mind (demo_env []) (new_planner demo_bare_mind) (new_planner demo_bare_mind)
    (demo_fresh _ _) (demo_reads _) eq_refl (fun _ => eq_refl) (fun _ _ _ => eq_refl) demo_resolve (demo_goal_gate true) [] eq_refl eq_refl
    "Build a frontend" [] new_orchestrator _ _ I demo_succeeds _).
  - vm_compute. reflexivity.
  - left. reflexivity.
  - intros k m b x H. discriminate.
Defined.
